(* ===== verification/_CoqProject ===== *)
-Q . S2P
Prelude.v
Array.v
Bitmap.v
Queue.v
Copyinout.v
Uio.v
SfsDisk.v
Dev.v
Vnode.v
SfsIo.v
SfsFile.v
Lhd.v
SfsRw.v
SfsDir.v
SfsNames.v
SfsVnode.v
SfsFs.v
SfsTrunc.v
SfsVol.v
SfsOps.v
SfsExample.v
SfsApi.v
SfsSync.v
Thread.v
Synch.v
KPres.v
SynchLock.v
ThreadInv.v
ThreadStep.v
ThreadExec.v
ThreadThm.v
CatMouse.v
Stoplight.v
Kpages.v
Kheap.v
KheapInv.v
KheapOps.v
KheapThm.v
Dumbvm.v
Coremap.v
Addrspace.v
AddrspaceInv.v
AddrspaceThm.v
SfsSuper.v
Device.v
Vfs.v
VfsLaws.v
VfsPath.v
VfsInv.v
VfsOps.v
VfsTable.v
VfsAdd.v
VfsRun.v
KernWorld.v
KernVfs.v
VfsThm.v
Emu.v
Emufs.v
EmuLaws.v
EmuInv.v
EmuIo.v
EmuThm.v
Mksfs.v
MksfsThm.v
Sort.v
KernTest.v
Lamebus.v
LbDev.v
Random.v
Console.v
Tty.v
Exec.v
Process.v
Syscall.v
Menu.v
Lscreen.v
Trap.v
Printf.v
Elf.v
