(* ===== verification/Prelude.v ===== *)
(** * A verification development for the OS/161 kernel of this repository

    The program is a small Unix-like kernel in C for the MIPS machine of System/161
    (src/os161/kern and src/os161/thread), with the system calls, virtual memory and
    synchronisation that were added to it, a tool that makes filesystems and user
    programs.  This library translates it into Rocq functions and proves what makes
    the parts correct.  Paths below are relative to src/os161.

    ** How C is modelled

    A function of the kernel is a function of the state it uses.  Its [outcome] is a
    result ([Done]), a stop of the machine by [panic] or a failed assertion ([Panic]),
    behaviour that C leaves undefined ([Undef]: signed overflow, an access outside an
    object, a read of something never written, a null dereference), or the end of the
    fuel of a loop ([NoFuel]).  [stm] threads a state through; [wp] and [swp] state
    that a call returns and what then holds, so a theorem with them excludes the other
    three outcomes; [swpp P] allows a panic if [P]; [slp] speaks of calls that return.
    Integers are [Z] with their wrap-around written out ([u32], [s32], [to_int]).
    Memory from [kmalloc] comes from a stream of answers where only success or failure
    matters, and from the modelled heap where addresses do.  This file has the monads,
    their rules, and lemmas on lists and integers that all others share.

    ** The parts and their files

    - Data structures: Array (kern/lib/array.c), Bitmap (bitmap.c), Queue (queue.c).
      Arrays and queues refine lists, with their capacity as part of the abstract
      state; Bitmap is used by the filesystem.
    - User memory: Copyinout (kern/lib/copyinout.c), Uio (lib/uio.c, kept in the
      repository's store of pristine copies).  A fault in the middle of a copy is an
      outcome of a byte access.
    - SFS (kern/fs/sfs): SfsDisk has the disk structures, Dev the block device it
      runs on, SfsIo, SfsDir, SfsVnode and SfsFs the code of sfs_io.c, sfs_vnode.c and
      sfs_fs.c; SfsFile, SfsRw, SfsNames, SfsTrunc, SfsVol, SfsOps, SfsSuper, SfsApi
      and SfsSync the invariant of a volume and what the operations guarantee;
      SfsExample a concrete volume.  Vnode is kern/fs/vfs/vnode.c.
    - Disk driver: Lhd (dev/lamebus/lhd.c), on hardware that may fail; on hardware
      that does not, it is an implementation of the interface in Dev.
    - mksfs: Mksfs, MksfsThm (sbin/mksfs); the volume it makes is mounted by the
      kernel code.
    - Threads: Thread (thread/thread.c, scheduler.c, hardclock.c, spl.c, interrupt.c)
      and Synch (thread/synch.c) have the code, cut at context switches, and the step
      relation, and run the kernel; KPres says what functions leave alone; SynchLock
      proves mutual exclusion, ThreadInv, ThreadStep, ThreadExec and ThreadThm the
      invariant of the thread lists, the wakeups of semaphores and locks, and round
      robin.
    - Assignment programs: CatMouse (asst1/catsem.c), Stoplight (asst1/stoplight.c,
      with the geometry of the intersection defined apart from its locks).
    - Kernel memory: Kpages (arch/mips/mips/ram.c and the page interface), Kheap,
      KheapInv, KheapOps, KheapThm (lib/kheap.c).
    - Virtual memory: Dumbvm (arch/mips/mips/dumbvm.c); Coremap, Addrspace,
      AddrspaceInv, AddrspaceThm (vm/addrspace.c).
    - VFS (kern/fs/vfs): Device and Vfs have the code; VfsLaws has the contract
      of vnode.h and fs.h as a type class, and with VfsPath, VfsInv, VfsOps, VfsTable,
      VfsAdd and VfsRun the accounting of references; KernWorld and KernVfs
      are a kernel whose filesystem is the SFS code above, shown to keep the contract;
      VfsThm has the results.
    - Passthrough filesystem (dev/lamebus/emu.c): Emu, Emufs have the code, EmuLaws
      the contract of the card, EmuInv, EmuIo and EmuThm the results, EmuIo also
      a card that keeps the contract.
    - Bus and devices: Lamebus (lamebus.c, lamebus_mips.c), LbDev (attachment, timer,
      clock, speaker, trace), Random (random devices), Console (console.c and lser.c),
      Tty (the console as a device, and lib/kgets.c), Lscreen (lscreen.c).
    - System calls and traps (arch/mips/mips): Syscall (the handler, write, read,
      time, sbrk, getpid), Exec (execv), Process (exit and waitpid as steps), Trap
      (trap.c, and panic of lib/kprintf.c), Elf (userprog/loadelf.c).
    - Printf: the formatting code that the kernel shares with the C library
      (lib/libc/__printf.c), and kprintf.
    - Menu (main/menu.c, lib/libc/strtok_r.c), KernTest (test/arraytest.c, bitmaptest.c), Sort
      (testbin/sort).

    State is one record per component with the fields of the C structures and the
    static variables; operations have the names of the C functions, and helper
    definitions are loops or parts of a function.  Components meet in type classes:
    [BlockDev]/[Disk] between SFS and a disk, [KPages] between the heap and the page
    allocators, the classes of VfsLaws between the VFS layer and filesystems, [Tty]
    between the console and its users.

    ** What the theorems show

    - Refinement: arrays and queues implement lists, with the cases in which they
      panic or need memory, the heap implements a set of disjoint blocks over every
      page allocator that keeps the interface, the screen driver displays the last
      lines of the text.
    - SFS: a consistent volume stays consistent under lookup, creation, links,
      removal, renaming, reading, writing and truncation, each with its exact effect
      on names, files and blocks; after a sync, and after unmounting through the VFS
      layer, mounting the disk again gives back every file; mksfs makes a volume that
      mounts as empty.
    - VFS: over every sequence of calls the counts of every vnode are exactly the
      references that exist, those of devices that a failed vfs_adddev has lost
      included; a call that fails changes nothing, adding a device apart; path names
      are parsed as documented.
    - Threads: over every interleaving with interrupts a lock has one holder, every
      thread is in one place, nobody sleeps in P on a semaphore that can be taken or
      in lock_acquire on a lock that is free (those of the cats and mice can leave
      an animal asleep), the scheduler is fair; the cars and the animals
      exclude each other, and all cars get through.
    - Memory: within an address space whose page tables are in order no frame has two
      pages, and page faults keep them in order and enter only translations of the
      address space; where the TLB is full or no frame is free, or when free_kpages
      has marked frames in use as free, the code makes no such promise.
    - Console and devices: output arrives complete and in order however printing by
      interrupts and by polling is mixed; an interrupt is one pass over the slots in
      which those that ask are served; the disk driver moves the sectors asked for, up
      to the first that fails; the random generator is the one of Park and Miller,
      without overflow.
    - System calls: write prints what the buffer holds or fails, execv passes two or
      more arguments and refuses one; waitpid returns after the exit, with a proof of
      two runs in which it goes wrong; an executable is loaded with every byte in its
      place.
    - Text: the menu runs a line as it is meant to be read, kgets stays in its
      buffer, and formatted output is what the format stands for.

    Every theorem with hypotheses is followed by a witness that applies it to a
    concrete state.

    ** Bounds and fuel

    Loops over structures that cannot be longer than a known number take that number
    as fuel, and the theorems prove that it is enough: 257 for the at most 256 page
    references of the heap, the answers that are left plus 513 for a write of mksfs,
    the size plus one for sort, the keys that are left plus one for kgets, the length
    of the line plus one for the menu, six for panic, [polls] plus two for the status
    register of the serial card.  The fuel of execv bounds the number and the lengths
    of the arguments and is an argument of the theorem.  kmalloc is specified below
    2 GB.  The proofs about the VFS layer need 16 to spare in the 32-bit counters.

    ** What the models simplify

    - Interrupts come between the segments of code that run with interrupts off or
      that touch no shared state; Stoplight and Process run on the specification of
      locks and condition variables that Synch and SynchLock justify.
    - The VFS layer and the passthrough filesystem are called by one thread at a time;
      waiting for a lock that is already held is [NoFuel], which the theorems exclude.
    - A failed thread_fork in catsem.c leaves fewer animals instead of the panic.
    - The kernel in KernWorld has one SFS disk and devices that do nothing.
    - Memory below the heap is a function from addresses to words.
    - Hardware is a parameter with a contract (disk, serial line, bus registers,
      emulator card, screen); the reading of the console assumes that nobody types
      faster than the kernel reads.  The loader that execv calls is a parameter, and
      so is the word that follows its table on the kernel stack; Elf has the loader
      over interfaces for the file and the address space.
    - Messages are not part of any state, except where the console is the subject.

    ** Not modelled

    Assembly language (exception.S, switch.S, start.S and others) is below the level
    of the models.  autoconf.c is generated, and dev/init.c and the two files that
    connect the console to its devices only pass function pointers.  fork is not
    modelled, since it joins thread_fork and as_copy, whose models have different
    states; of md_forkentry the registers are.  Of main.c only the start of the
    scheduler and of the threads is modelled, of menu.c not the thread that runs a
    program and not the endless loop; of kprintf not the lock.  asst1/catlock.c has
    empty bodies, vm/vm.c is commented out.  uio.c, loadelf.c, strtok_r.c and __printf.c
    are translated from the repository's store of pristine copies, where the build's
    sources outside the working tree are kept; runprogram is only there in its form
    before the changes of this kernel, so it is left out.  The user programs other
    than sort and mksfs consist of library and system calls, most of which this kernel
    does not have. *)

From stdpp Require Export base tactics list gmap option numbers sorting relations.
From stdpp Require Export well_founded.

#[global] Open Scope Z_scope.

(** Linear arithmetic with division and remainder. *)
Ltac dlia := zify; Z.to_euclidean_division_equations; lia.

(** ** Outcomes of kernel code *)

(** What a call may do: return a value, stop the machine through [panic] or a
    failed [assert] (include/lib.h), run into behaviour C leaves undefined
    (signed overflow, an access outside an object, a read of an uninitialised
    object, a null dereference), or exceed the fuel of a loop of the model. *)
Inductive outcome (A : Type) : Type :=
| Done (a : A)
| Panic
| Undef
| NoFuel.
Arguments Done {A} _.
Arguments Panic {A}.
Arguments Undef {A}.
Arguments NoFuel {A}.

#[export] Instance outcome_ret : MRet outcome := λ A a, Done a.
#[export] Instance outcome_bind : MBind outcome := λ A B f m,
  match m with
  | Done a => f a
  | Panic => Panic
  | Undef => Undef
  | NoFuel => NoFuel
  end.

(** The value a function hands back through a pointer, or its error code. *)
Inductive res (A : Type) : Type :=
| Ok (a : A)
| Err (e : Z).
Arguments Ok {A} _.
Arguments Err {A} _.

(** [assert(x)] of include/lib.h: panics unless [x]. *)
Definition kassert (b : bool) : outcome unit := if b then Done tt else Panic.

(** Total correctness: [m] returns, and what it returns satisfies [Q]. *)
Definition wp {A} (m : outcome A) (Q : A → Prop) : Prop :=
  match m with Done a => Q a | _ => False end.

Create HintDb wp.

Section wp.
Context {A B : Type}.
Implicit Types (m : outcome A) (Q : A → Prop).

Lemma wp_done (a : A) Q : Q a → wp (Done a) Q.
Proof. done. Qed.

Lemma wp_ret (a : A) Q : Q a → wp (mret a) Q.
Proof. done. Qed.

Lemma wp_bind m (f : A → outcome B) (Q : B → Prop) :
  wp m (λ a, wp (f a) Q) → wp (m ≫= f) Q.
Proof. by destruct m. Qed.

Lemma wp_bind_inv m (f : A → outcome B) (Q : B → Prop) :
  wp (m ≫= f) Q → wp m (λ a, wp (f a) Q).
Proof. by destruct m. Qed.

Lemma wp_mono m Q (Q' : A → Prop) :
  wp m Q → (∀ a, Q a → Q' a) → wp m Q'.
Proof. destruct m; simpl; auto. Qed.

Lemma wp_Done m Q : wp m Q ↔ ∃ a, m = Done a ∧ Q a.
Proof. destruct m; simpl; split; try done; [eauto|..]; by intros (?&[=]&?); subst. Qed.

Lemma wp_eq m a : wp m (λ x, x = a) ↔ m = Done a.
Proof. destruct m; simpl; split; congruence || done. Qed.

Lemma wp_and m Q (Q' : A → Prop) : wp m Q → wp m Q' → wp m (λ a, Q a ∧ Q' a).
Proof. by destruct m. Qed.
End wp.

Lemma wp_kassert b (Q : unit → Prop) : b = true → Q tt → wp (kassert b) Q.
Proof. by intros ->. Qed.

#[export] Hint Resolve wp_done wp_ret : wp.

(** ** Error numbers (include/kern/errno.h) *)

Definition EINVAL : Z := 1.
Definition EFAULT : Z := 2.
Definition ENAMETOOLONG : Z := 3.
Definition ENOMEM : Z := 4.
Definition EIO : Z := 5.
Definition ENOENT : Z := 6.
Definition ENOTDIR : Z := 7.
Definition EISDIR : Z := 8.
Definition EEXIST : Z := 9.
Definition EXDEV : Z := 10.
Definition EAGAIN : Z := 11.
Definition ESPIPE : Z := 12.
Definition EUNIMP : Z := 13.
Definition ENXIO : Z := 14.
Definition ENODEV : Z := 15.
Definition EBUSY : Z := 16.
Definition EIOCTL : Z := 17.
Definition ENOSPC : Z := 20.
Definition ENOSYS : Z := 23.
Definition EBADF : Z := 26.

(** ** Loops *)

(** [for (i = lo; i < lo+n; i++) body]: the body goes on with [inl] or leaves
    the enclosing function with [inr]. *)
Fixpoint for_loop {St R} (n : nat) (i : Z) (body : Z → St → outcome (St + R))
    (s : St) : outcome (St + R) :=
  match n with
  | O => Done (inl s)
  | S n' =>
      r ← body i s;
      match r with
      | inl s' => for_loop n' (i + 1) body s'
      | inr x => Done (inr x)
      end
  end.

(** The same for a body that never leaves the loop early. *)
Fixpoint for_each {St} (n : nat) (i : Z) (body : Z → St → outcome St)
    (s : St) : outcome St :=
  match n with
  | O => Done s
  | S n' => s' ← body i s; for_each n' (i + 1) body s'
  end.

(** [while (...) body] with fuel: [inl] goes round again, [inr] leaves. *)
Fixpoint while_loop {St R} (fuel : nat) (body : St → outcome (St + R)) (s : St)
    : outcome R :=
  match fuel with
  | O => NoFuel
  | S n' =>
      r ← body s;
      match r with
      | inl s' => while_loop n' body s'
      | inr x => Done x
      end
  end.

(** A loop step that keeps [P] or leaves with [Q]. *)
Definition loop_post {St R} (P : St → Prop) (Q : R → Prop) (x : St + R) : Prop :=
  match x with inl s => P s | inr r => Q r end.

Lemma wp_for_loop {St R} (P : Z → St → Prop) (Q : R → Prop) n i
    (body : Z → St → outcome (St + R)) s :
  P i s →
  (∀ j s, i ≤ j < i + Z.of_nat n → P j s →
     wp (body j s) (loop_post (P (j + 1)) Q)) →
  wp (for_loop n i body s) (loop_post (P (i + Z.of_nat n)) Q).
Proof.
  revert i s. induction n as [|n IH]; intros i s Hs Hbody.
  { simpl. by rewrite Z.add_0_r. }
  simpl. apply wp_bind. eapply wp_mono; [apply Hbody; [lia|done]|].
  intros [s'|x]; simpl; [|done]. intros Hs'.
  replace (i + Z.of_nat (S n)) with (i + 1 + Z.of_nat n) by lia.
  apply IH; [done|]. intros j s'' ?. apply Hbody. lia.
Qed.

Lemma wp_for_each {St} (P : Z → St → Prop) n i (body : Z → St → outcome St) s :
  P i s →
  (∀ j s, i ≤ j < i + Z.of_nat n → P j s → wp (body j s) (P (j + 1))) →
  wp (for_each n i body s) (P (i + Z.of_nat n)).
Proof.
  revert i s. induction n as [|n IH]; intros i s Hs Hbody.
  { simpl. by rewrite Z.add_0_r. }
  simpl. apply wp_bind. eapply wp_mono; [apply Hbody; [lia|done]|].
  intros s' Hs'.
  replace (i + Z.of_nat (S n)) with (i + 1 + Z.of_nat n) by lia.
  apply IH; [done|]. intros j s'' ?. apply Hbody. lia.
Qed.

(** The fuel is enough when a measure on the states decreases. *)
Lemma wp_while_loop {St R} (P : St → Prop) (Q : R → Prop) (measure : St → Z)
    fuel (body : St → outcome (St + R)) s :
  P s → measure s < Z.of_nat fuel →
  (∀ s, P s → 0 ≤ measure s) →
  (∀ s, P s → wp (body s) (loop_post (λ s', P s' ∧ measure s' < measure s) Q)) →
  wp (while_loop fuel body s) Q.
Proof.
  intros Hs Hm Hpos Hbody. revert s Hs Hm.
  induction fuel as [|n IH]; intros s Hs Hm.
  { specialize (Hpos s Hs). lia. }
  simpl. apply wp_bind. eapply wp_mono; [by apply Hbody|].
  intros [s'|x]; simpl; [|done]. intros [Hs' Hlt]. apply IH; [done|lia].
Qed.

(** ** Machine integers *)

Definition INT_MAX : Z := 2147483647.
Definition INT_MIN : Z := -2147483648.

(** The result of signed [int] arithmetic; overflow is undefined. *)
Definition to_int (z : Z) : outcome Z :=
  if (INT_MIN <=? z) && (z <=? INT_MAX) then Done z else Undef.

(** Unsigned 32-bit arithmetic wraps. *)
Definition u32 (z : Z) : Z := z mod 4294967296.
Definition u16 (z : Z) : Z := z mod 65536.

(** Conversion to [int] of a 32-bit pattern (two's complement). *)
Definition s32 (z : Z) : Z :=
  let u := u32 z in if u <? 2147483648 then u else u - 4294967296.

(** [DIVROUNDUP] of include/lib.h at type [u_int32_t]. *)
Definition DIVROUNDUP (a b : Z) : Z := u32 (a + b - 1) / b.

(** The C operator [%]: undefined on a zero divisor. *)
Definition c_rem (a b : Z) : outcome Z :=
  if b =? 0 then Undef else Done (Z.rem a b).

Lemma c_rem_pos a b : 0 ≤ a → 0 < b → c_rem a b = Done (a mod b).
Proof.
  intros. unfold c_rem. rewrite (proj2 (Z.eqb_neq _ _)) by lia.
  by rewrite Z.rem_mod_nonneg by lia.
Qed.

(** Positions on a circle of [n] cells. *)
Lemma ring_inj r a b n :
  0 ≤ a < n → 0 ≤ b < n → (r + a) mod n = (r + b) mod n → a = b.
Proof.
  intros Ha Hb H.
  pose proof (Z.div_mod (r + a) n ltac:(lia)) as H1.
  pose proof (Z.div_mod (r + b) n ltac:(lia)) as H2.
  rewrite H in H1.
  assert (a - b = n * ((r + a) / n - (r + b) / n)) by lia.
  assert ((r + a) / n - (r + b) / n = 0) by nia. nia.
Qed.

(** [room_for cap n cap']: the capacity [cap'] of a container of capacity [cap]
    after it has made room for [n] elements by doubling. *)
Definition room_for (cap n cap' : Z) : Prop :=
  cap ≤ cap' ∧ n ≤ cap' ≤ Z.max cap (2 * n) ∧ (n ≤ cap → cap' = cap).

Lemma ring_step r a n : 0 < n → ((r + a) mod n + 1) mod n = (r + (a + 1)) mod n.
Proof. intros. rewrite Zplus_mod_idemp_l. f_equal. lia. Qed.

Lemma wp_to_int z (Q : Z → Prop) :
  INT_MIN ≤ z ≤ INT_MAX → Q z → wp (to_int z) Q.
Proof.
  intros [??] HQ. unfold to_int.
  by rewrite (proj2 (Z.leb_le _ _)), (proj2 (Z.leb_le _ _)) by done.
Qed.

Lemma u32_small z : 0 ≤ z < 4294967296 → u32 z = z.
Proof. apply Z.mod_small. Qed.

Lemma u32_range z : 0 ≤ u32 z < 4294967296.
Proof. apply Z.mod_pos_bound. lia. Qed.

Lemma u32_idemp z : u32 (u32 z) = u32 z.
Proof. apply u32_small, u32_range. Qed.

Lemma s32_small z : INT_MIN ≤ z ≤ INT_MAX → s32 z = z.
Proof.
  unfold INT_MIN, INT_MAX, s32, u32. intros.
  destruct (Z.ltb_spec (z mod 4294967296) 2147483648); dlia.
Qed.

(** ** Stateful code *)

(** A function that changes a state of type [St]. *)
Definition stm (St A : Type) : Type := St → outcome (A * St).

#[export] Instance stm_ret St : MRet (stm St) := λ A a s, Done (a, s).
#[export] Instance stm_bind St : MBind (stm St) := λ A B f m s,
  '(a, s') ← m s; f a s'.

Definition lift {St A} (m : outcome A) : stm St A := λ s, a ← m; Done (a, s).
Definition gets {St A} (f : St → A) : stm St A := λ s, Done (f s, s).
Definition modify {St} (f : St → St) : stm St unit := λ s, Done (tt, f s).

(** [for_loop] with a stateful body and local variables [a]. *)
Definition for_stm {St A R} (n : nat) (i : Z) (body : Z → A → stm St (A + R)) (a : A)
    : stm St (A + R) := λ s,
  r ← for_loop n i (λ i '(a, s), '(x, s') ← body i a s;
                      Done (match x with inl a' => inl (a', s') | inr r => inr (r, s') end)) (a, s);
  Done (match r with inl (a', s') => (inl a', s') | inr (r, s') => (inr r, s') end).

(** Total correctness of stateful code. *)
Definition swp {St A} (m : stm St A) (s : St) (Q : A → St → Prop) : Prop :=
  wp (m s) (λ '(a, s'), Q a s').

Section swp.
Context {St A B : Type}.
Implicit Types (m : stm St A) (s : St).

Lemma swp_ret (a : A) s (Q : A → St → Prop) : Q a s → swp (mret a) s Q.
Proof. done. Qed.

Lemma swp_bind m (f : A → stm St B) s (Q : B → St → Prop) :
  swp m s (λ a s', swp (f a) s' Q) → swp (m ≫= f) s Q.
Proof.
  unfold swp. intros H. apply wp_bind. eapply wp_mono; [exact H|]. by intros [a s'].
Qed.

Lemma swp_mono m s (Q Q' : A → St → Prop) :
  swp m s Q → (∀ a s', Q a s' → Q' a s') → swp m s Q'.
Proof. unfold swp. intros H HQ. eapply wp_mono; [exact H|]. intros [a s']. apply HQ. Qed.

Lemma swp_lift (m : outcome A) s (Q : A → St → Prop) :
  wp m (λ a, Q a s) → swp (lift m) s Q.
Proof. unfold swp, lift. intros H. apply wp_bind. eapply wp_mono; [exact H|]. done. Qed.

Lemma swp_gets (f : St → A) s (Q : A → St → Prop) : Q (f s) s → swp (gets f) s Q.
Proof. done. Qed.

Lemma swp_modify (f : St → St) s (Q : unit → St → Prop) : Q tt (f s) → swp (modify f) s Q.
Proof. done. Qed.

Lemma swp_Done m s (Q : A → St → Prop) : swp m s Q ↔ ∃ a s', m s = Done (a, s') ∧ Q a s'.
Proof.
  unfold swp. rewrite wp_Done. split.
  - intros ([a s'] & ? & ?). eauto.
  - intros (a & s' & ? & ?). by exists (a, s').
Qed.
End swp.

Lemma swp_kassert {St} b (s : St) (Q : unit → St → Prop) :
  b = true → Q tt s → swp (lift (kassert b)) s Q.
Proof. by intros ->. Qed.

Lemma swp_for_stm {St A R} (P : Z → A → St → Prop) (Q : R → St → Prop) n i
    (body : Z → A → stm St (A + R)) a s :
  P i a s →
  (∀ j a s, i ≤ j < i + Z.of_nat n → P j a s →
     swp (body j a) s (λ r s', match r with inl a' => P (j + 1) a' s' | inr x => Q x s' end)) →
  swp (for_stm n i body a) s
    (λ r s', match r with inl a' => P (i + Z.of_nat n) a' s' | inr x => Q x s' end).
Proof.
  intros Hs Hbody. unfold swp, for_stm. apply wp_bind.
  eapply wp_mono; [apply (wp_for_loop (λ j '(a, s), P j a s) (λ '(x, s'), Q x s')); [done|]|].
  - intros j [a' s'] Hj HP. apply wp_bind. eapply wp_mono; [by apply Hbody|].
    by intros [[a''|x] s''].
  - by intros [[a' s']|[x s']].
Qed.

(** Partial correctness: what [m] returns, if it returns, satisfies [Q]. *)
Definition slp {St A} (m : stm St A) (s : St) (Q : A → St → Prop) : Prop :=
  ∀ a s', m s = Done (a, s') → Q a s'.

Section slp.
Context {St A B : Type}.
Implicit Types (m : stm St A) (s : St).

Lemma slp_ret (a : A) s (Q : A → St → Prop) : Q a s → slp (mret a) s Q.
Proof. by intros H ? ? [= <- <-]. Qed.

Lemma slp_bind m (f : A → stm St B) s (Q : B → St → Prop) :
  slp m s (λ a s', slp (f a) s' Q) → slp (m ≫= f) s Q.
Proof.
  unfold slp, mbind, stm_bind. cbn. intros H b s'. unfold mbind, outcome_bind.
  destruct (m s) as [[a s1]| | |] eqn:E; [|done..]. by apply H.
Qed.

Lemma slp_mono m s (Q Q' : A → St → Prop) :
  slp m s Q → (∀ a s', Q a s' → Q' a s') → slp m s Q'.
Proof. intros H HQ a s' Hm. by apply HQ, H. Qed.

Lemma slp_lift (m : outcome A) s (Q : A → St → Prop) :
  (∀ a, m = Done a → Q a s) → slp (lift m) s Q.
Proof.
  unfold slp, lift, mbind, outcome_bind. intros H a s'. destruct m as [x| | |]; [|done..].
  intros [= <- <-]. by apply H.
Qed.

Lemma slp_gets (f : St → A) s (Q : A → St → Prop) : Q (f s) s → slp (gets f) s Q.
Proof. by intros H ? ? [= <- <-]. Qed.

Lemma slp_modify (f : St → St) s (Q : unit → St → Prop) : Q tt (f s) → slp (modify f) s Q.
Proof. by intros H [] ? [= <-]. Qed.

Lemma slp_swp m s (Q : A → St → Prop) : swp m s Q → slp m s Q.
Proof. intros H a s' Hm. unfold swp in H. by rewrite Hm in H. Qed.
End slp.

Lemma slp_kassert {St} b (s : St) (Q : unit → St → Prop) :
  (b = true → Q tt s) → slp (lift (kassert b)) s Q.
Proof. intros H. apply slp_lift. destruct b; [|done]. intros [] _. by apply H. Qed.

(** Total correctness up to panics that [Pk] allows. *)
Definition swpp {St A} (Pk : Prop) (m : stm St A) (s : St) (Q : A → St → Prop) : Prop :=
  match m s with Done (a, s') => Q a s' | Panic => Pk | _ => False end.

Section swpp.
Context {St A B : Type} (Pk : Prop).
Implicit Types (m : stm St A) (s : St).

Lemma swpp_ret (a : A) s (Q : A → St → Prop) : Q a s → swpp Pk (mret a) s Q.
Proof. done. Qed.

Lemma swpp_bind m (f : A → stm St B) s (Q : B → St → Prop) :
  swpp Pk m s (λ a s', swpp Pk (f a) s' Q) → swpp Pk (m ≫= f) s Q.
Proof.
  unfold swpp, mbind, stm_bind. cbn. unfold mbind, outcome_bind. by destruct (m s) as [[a s1]| | |].
Qed.

Lemma swpp_mono m s (Q Q' : A → St → Prop) :
  swpp Pk m s Q → (∀ a s', Q a s' → Q' a s') → swpp Pk m s Q'.
Proof. unfold swpp. destruct (m s) as [[a s1]| | |]; auto. Qed.

Lemma swpp_gets (f : St → A) s (Q : A → St → Prop) : Q (f s) s → swpp Pk (gets f) s Q.
Proof. done. Qed.

Lemma swpp_modify (f : St → St) s (Q : unit → St → Prop) : Q tt (f s) → swpp Pk (modify f) s Q.
Proof. done. Qed.

Lemma swpp_swp m s (Q : A → St → Prop) : swp m s Q → swpp Pk m s Q.
Proof. unfold swp, swpp, wp. by destruct (m s) as [[a s1]| | |]. Qed.

Lemma swpp_lift (m : outcome A) s (Q : A → St → Prop) : wp m (λ a, Q a s) → swpp Pk (lift m) s Q.
Proof. intros. by apply swpp_swp, swp_lift. Qed.

Lemma swpp_total m s (Q : A → St → Prop) : ¬ Pk → swpp Pk m s Q → swp m s Q.
Proof. unfold swp, swpp, wp. by destruct (m s) as [[a s1]| | |]. Qed.

Lemma swpp_slp m s (Q : A → St → Prop) : swpp Pk m s Q → slp m s Q.
Proof. intros H a s' Hm. unfold swpp in H. by rewrite Hm in H. Qed.
End swpp.

Lemma swpp_panics {St A} (P P' : Prop) (m : stm St A) s (Q : A → St → Prop) : (P → P') → swpp P m s Q → swpp P' m s Q.
Proof. unfold swpp. intros HP. destruct (m s) as [[a s']| | |]; auto. Qed.

(** The result of a function is the one it has. *)
Lemma swp_eq {St A} (m : stm St A) s (Q : A → St → Prop) : swp m s Q → swp m s (λ a s', m s = Done (a, s') ∧ Q a s').
Proof. unfold swp. by destruct (m s) as [[a s']| | |]. Qed.

Lemma swpp_kassert {St} Pk b (s : St) (Q : unit → St → Prop) :
  (b = true → Q tt s) → (b = false → Pk) → swpp Pk (lift (kassert b)) s Q.
Proof. destruct b; cbn; unfold swpp; cbn; auto. Qed.

Lemma swpp_for_stm {St A R} Pk (P : Z → A → St → Prop) (Q : R → St → Prop) n i
    (body : Z → A → stm St (A + R)) a s :
  P i a s →
  (∀ j a s, i ≤ j < i + Z.of_nat n → P j a s →
     swpp Pk (body j a) s (λ r s', match r with inl a' => P (j + 1) a' s' | inr x => Q x s' end)) →
  swpp Pk (for_stm n i body a) s
    (λ r s', match r with inl a' => P (i + Z.of_nat n) a' s' | inr x => Q x s' end).
Proof.
  revert i a s. induction n as [|n IH]; intros i a s Hs Hbody.
  { unfold swpp, for_stm. cbn. by rewrite Z.add_0_r. }
  pose proof (Hbody i a s ltac:(lia) Hs) as Hb. unfold swpp, for_stm in *. cbn. unfold mbind, outcome_bind.
  destruct (body i a s) as [[[a'|x] s']| | |]; cbn; try done.
  specialize (IH (i + 1) a' s' Hb). unfold mbind, outcome_bind in IH.
  replace (i + Z.of_nat (S n)) with (i + 1 + Z.of_nat n) by lia. apply IH. intros. apply Hbody; [lia|done].
Qed.

(** ** Objects in memory *)

(** An allocated block: a cell is [None] while it is uninitialised. *)
Abbreviation block A := (list (option A)).

Definition blk_get {A} (b : block A) (i : Z) : outcome A :=
  if i <? 0 then Undef else
  match b !! Z.to_nat i with Some (Some x) => Done x | _ => Undef end.

Definition blk_set {A} (b : block A) (i : Z) (x : A) : outcome (block A) :=
  if (0 <=? i) && (i <? Z.of_nat (length b))
  then Done (<[Z.to_nat i := Some x]> b) else Undef.

(** Raw access to a cell: what an assignment between cells copies. *)
Definition blk_cell {A} (b : block A) (i : Z) : outcome (option A) :=
  if i <? 0 then Undef else
  match b !! Z.to_nat i with Some c => Done c | None => Undef end.

Definition blk_put {A} (b : block A) (i : Z) (c : option A) : outcome (block A) :=
  if (0 <=? i) && (i <? Z.of_nat (length b))
  then Done (<[Z.to_nat i := c]> b) else Undef.

(** A block of [bytes] bytes seen as pointer cells (4 bytes each). *)
Definition ptr_block {A} (bytes : Z) : block A := replicate (Z.to_nat (bytes / 4)) None.

(** [memmove] of [n] cells from index [src] to index [dst] of one block. *)
Definition blk_move {A} (b : block A) (dst src n : Z) : outcome (block A) :=
  if (0 <=? dst) && (0 <=? src) && (0 <=? n) &&
     (dst + n <=? Z.of_nat (length b)) && (src + n <=? Z.of_nat (length b))
  then Done (take (Z.to_nat dst) b ++ take (Z.to_nat n) (drop (Z.to_nat src) b)
             ++ drop (Z.to_nat (dst + n)) b)
  else Undef.

(** An initialised array. *)
Definition arr_get {A} (l : list A) (i : Z) : outcome A :=
  if i <? 0 then Undef else
  match l !! Z.to_nat i with Some x => Done x | None => Undef end.

Definition arr_set {A} (l : list A) (i : Z) (x : A) : outcome (list A) :=
  if (0 <=? i) && (i <? Z.of_nat (length l))
  then Done (<[Z.to_nat i := x]> l) else Undef.

Section memory.
Context {A : Type}.
Implicit Types (b : block A) (l : list A) (x : A).

Lemma blk_get_Some b i x :
  0 ≤ i → b !! Z.to_nat i = Some (Some x) → blk_get b i = Done x.
Proof.
  intros Hi Hb. unfold blk_get. rewrite Hb.
  by destruct (Z.ltb_spec i 0); [lia|].
Qed.

Lemma blk_get_app b b' i x :
  b !! i = Some (Some x) → blk_get (b ++ b') (Z.of_nat i) = Done x.
Proof.
  intros Hb. apply blk_get_Some; [lia|].
  rewrite Nat2Z.id. by apply lookup_app_l_Some.
Qed.

Lemma blk_cell_in b i c :
  0 ≤ i → b !! Z.to_nat i = Some c → blk_cell b i = Done c.
Proof.
  intros Hi Hb. unfold blk_cell. rewrite Hb.
  by destruct (Z.ltb_spec i 0); [lia|].
Qed.

Lemma blk_put_in b i c :
  0 ≤ i < Z.of_nat (length b) → blk_put b i c = Done (<[Z.to_nat i := c]> b).
Proof.
  intros [??]. unfold blk_put.
  by rewrite (proj2 (Z.leb_le _ _)), (proj2 (Z.ltb_lt _ _)) by done.
Qed.

Lemma blk_move_in b dst src n :
  0 ≤ dst → 0 ≤ src → 0 ≤ n →
  dst + n ≤ Z.of_nat (length b) → src + n ≤ Z.of_nat (length b) →
  blk_move b dst src n =
    Done (take (Z.to_nat dst) b ++ take (Z.to_nat n) (drop (Z.to_nat src) b)
          ++ drop (Z.to_nat (dst + n)) b).
Proof.
  intros. unfold blk_move.
  by rewrite !(proj2 (Z.leb_le _ _)) by done.
Qed.

(** Copying the first [n] cells of [src] into [dst] one by one. *)
Lemma wp_copy_cells (src dst : block A) n (get : outcome (block A)) :
  (n ≤ length src)%nat → (n ≤ length dst)%nat →
  (n ≠ 0%nat → get = Done src) →
  wp (for_each n 0 (λ i d, v ← get; c ← blk_cell v i; blk_put d i c) dst)
     (λ d, length d = length dst ∧ take n d = take n src).
Proof.
  intros Hsrc Hdst Hget.
  eapply wp_mono; [apply (wp_for_each (λ i d, length d = length dst ∧
    take (Z.to_nat i) d = take (Z.to_nat i) src)); [done|]|].
  - intros j d Hj [Hlen Htake]. rewrite Hget by lia. simpl.
    destruct (lookup_lt_is_Some_2 src (Z.to_nat j)) as [c Hc]; [lia|].
    rewrite (blk_cell_in _ _ c) by (done || lia). simpl.
    rewrite blk_put_in by lia. simpl. rewrite length_insert. split; [done|].
    rewrite Z2Nat.inj_add by lia. rewrite Nat.add_1_r.
    rewrite (take_S_r _ _ c) by (by apply list_lookup_insert_eq; lia).
    rewrite (take_S_r src _ c) by done. by rewrite take_insert_ge, Htake by lia.
  - intros d [? Ht]. by rewrite Z.add_0_l, Nat2Z.id in Ht.
Qed.

Lemma blk_set_in b i x :
  0 ≤ i < Z.of_nat (length b) → blk_set b i x = Done (<[Z.to_nat i := Some x]> b).
Proof.
  intros [??]. unfold blk_set.
  by rewrite (proj2 (Z.leb_le _ _)), (proj2 (Z.ltb_lt _ _)) by done.
Qed.

Lemma arr_get_Some l i x :
  0 ≤ i → l !! Z.to_nat i = Some x → arr_get l i = Done x.
Proof.
  intros Hi Hb. unfold arr_get. rewrite Hb.
  by destruct (Z.ltb_spec i 0); [lia|].
Qed.

Lemma arr_set_in l i x :
  0 ≤ i < Z.of_nat (length l) → arr_set l i x = Done (<[Z.to_nat i := x]> l).
Proof.
  intros [??]. unfold arr_set.
  by rewrite (proj2 (Z.leb_le _ _)), (proj2 (Z.ltb_lt _ _)) by done.
Qed.
End memory.

(** ** What a function leaves alone

    A relation between the states before and after a function, kept by every
    change the function makes; and what a function returns in every state. *)

(** ** What a function keeps *)

(** [R] relates the states before and after [m]. *)
Definition pres {St A} (R : relation St) (m : stm St A) : Prop := ∀ s, slp m s (λ _ s', R s s').

Create HintDb pres discriminated.

Section pres.
Context {St : Type} (R : relation St) `{!PreOrder R}.

Lemma pres_ret {A} (a : A) : pres R (mret a : stm St A).
Proof. intros s. by apply slp_ret. Qed.
Lemma pres_bind {A B} (m : stm St A) (g : A → stm St B) :
  pres R m → (∀ a, pres R (g a)) → pres R (m ≫= g).
Proof.
  intros Hm Hg s. apply slp_bind. eapply slp_mono; [apply Hm|]. intros a s1 H1.
  eapply slp_mono; [apply Hg|]. intros b s2 H2. by transitivity s1.
Qed.
Lemma pres_lift {A} (m : outcome A) : pres R (lift m).
Proof. intros s. by apply slp_lift. Qed.
Lemma pres_gets {A} (g : St → A) : pres R (gets g).
Proof. intros s. by apply slp_gets. Qed.
Lemma pres_modify (g : St → St) : (∀ s, R s (g s)) → pres R (modify g).
Proof. intros H s. by apply slp_modify. Qed.
Lemma pres_for_stm {A X} n i (body : Z → A → stm St (A + X)) a :
  (∀ j a, pres R (body j a)) → pres R (for_stm n i body a).
Proof.
  intros Hb s r s'. unfold for_stm, mbind, outcome_bind.
  destruct (for_loop _ _ _ _) as [x| | |] eqn:El; [|done..].
  assert (match x with inl (_, t) => R s t | inr (_, t) => R s t end) as Hx.
  { revert i a s El. induction n as [|n IH]; intros i a s; cbn [for_loop].
    { by intros [= <-]. }
    unfold mbind at 1, outcome_bind at 1. destruct (body i a s) as [[y s1]| | |] eqn:Ey; [|done..].
    apply Hb in Ey. cbn. destruct y as [a'|y]; [|by intros [= <-]].
    intros El. apply IH in El. destruct x as [[? ?]|[? ?]]; by transitivity s1. }
  destruct x as [[? ?]|[? ?]]; by intros [= <- <-].
Qed.
End pres.
#[export] Hint Resolve pres_ret pres_lift pres_gets : pres.

(** Take a function apart; what is left are the state changes. *)
Ltac pres_step :=
  match goal with
  | |- pres _ (_ ≫= _) => apply pres_bind; [apply _| |intros ?]
  | |- pres _ (modify _) => apply pres_modify; intros ?
  | |- pres _ (for_stm _ _ _ _) => apply pres_for_stm; [apply _|intros ? ?]
  | |- pres _ (if ?b then _ else _) => destruct b
  | |- pres _ (match ?x with _ => _ end) => destruct x
  | |- _ => solve [auto with pres typeclass_instances]
  end.
Ltac pres_solve := repeat pres_step; auto.

(** What a function returns, whatever the state. *)
Definition returns {St A} (P : A → Prop) (m : stm St A) : Prop := ∀ s, slp m s (λ a _, P a).

Section returns.
Context {St A : Type} (P : A → Prop).

Lemma returns_ret (a : A) : P a → returns P (mret a : stm St A).
Proof. intros H s. by apply slp_ret. Qed.
Lemma returns_bind {B} (m : stm St B) (g : B → stm St A) : (∀ b, returns P (g b)) → returns P (m ≫= g).
Proof. intros H s. apply slp_bind. intros b s1 _. apply H. Qed.
Lemma returns_bind' {B} (P' : B → Prop) (m : stm St B) (g : B → stm St A) :
  returns P' m → (∀ b, P' b → returns P (g b)) → returns P (m ≫= g).
Proof. intros Hm H s. apply slp_bind. eapply slp_mono; [apply Hm|]. intros b s1 Hb. by apply H. Qed.
Lemma returns_lift_panic : returns P (lift Panic : stm St A).
Proof. intros s. by apply slp_lift. Qed.
End returns.

Ltac returns_step :=
  match goal with
  | |- returns _ (mret _) => apply returns_ret
  | |- returns _ (lift Panic) => apply returns_lift_panic
  | |- returns _ (if ?b then _ else _) => destruct b
  | |- returns _ (match ?x with _ => _ end) => destruct x
  | |- returns _ (_ ≫= _) => apply returns_bind; intros ?
  end.
