(* ===== verification/Array.v ===== *)
(** * kern/lib/array.c: growable arrays of pointers

    The struct, one definition per function, the representation of a list by
    an array, and the theorems that every operation acts on the list the way
    its name says.  Elements are values of an arbitrary type [A] (the code
    never looks into its [void *]); [mem] is the answer of the [kmalloc] call
    of a function, [true] when it returns a block. *)

From S2P Require Import Prelude.

(** struct array *)
Record array (A : Type) := mkArray {
  a_num : Z;
  a_max : Z;
  a_v : option (block A);
}.
Arguments mkArray {A} _ _ _.
Arguments a_num {A} _.
Arguments a_max {A} _.
Arguments a_v {A} _.

Section array.
Context {A : Type}.
Implicit Types (a : array A) (l : list A).

Definition array_create (mem : bool) : option (array A) :=
  if mem then Some (mkArray 0 0 None) else None.

Definition array_getnum a : Z := a_num a.

(** Following the pointer [a->v]. *)
Definition array_vec a : outcome (block A) :=
  match a_v a with Some v => Done v | None => Undef end.

Definition array_getguy a (index : Z) : outcome A :=
  kassert (a_num a <=? a_max a);;
  kassert ((0 <=? index) && (index <? a_num a));;
  v ← array_vec a;
  blk_get v index.

(** [while (nguys > newmax) newmax = (newmax+1)*2;] *)
Definition array_newmax (nguys max : Z) : outcome Z :=
  while_loop (S (Z.to_nat (nguys - max)))
    (λ newmax,
       if nguys >? newmax then
         m1 ← to_int (newmax + 1);
         m2 ← to_int (m1 * 2);
         Done (inl m2)
       else Done (inr newmax)) max.

Definition array_preallocate (mem : bool) a (nguys : Z) : outcome (Z * array A) :=
  kassert ((0 <=? a_num a) && (a_num a <=? a_max a));;
  newmax ← array_newmax nguys (a_max a);
  if negb mem then Done (ENOMEM, a) else
  let newv := ptr_block (u32 (newmax * 4)) in
  newv' ← for_each (Z.to_nat (a_num a)) 0
    (λ i newv,
       v ← array_vec a;
       c ← blk_cell v i;
       blk_put newv i c) newv;
  Done (0, mkArray (a_num a) newmax (Some newv')).

Definition array_setsize (mem : bool) a (nguys : Z) : outcome (Z * array A) :=
  kassert ((0 <=? a_num a) && (a_num a <=? a_max a));;
  if nguys >? a_max a then
    '(result, a') ← array_preallocate mem a nguys;
    if negb (result =? 0) then Done (result, a')
    else Done (0, mkArray nguys (a_max a') (a_v a'))
  else if (nguys =? 0) && (a_max a >? 16) then
    _ ← kassert (bool_decide (is_Some (a_v a)));
    Done (0, mkArray nguys 0 None)
  else Done (0, mkArray nguys (a_max a) (a_v a)).

Definition array_setguy a (index : Z) (ptr : A) : outcome (array A) :=
  kassert (a_num a <=? a_max a);;
  kassert ((0 <=? index) && (index <? a_num a));;
  v ← array_vec a;
  v' ← blk_set v index ptr;
  Done (mkArray (a_num a) (a_max a) (Some v')).

Definition array_add (mem : bool) a (guy : A) : outcome (Z * array A) :=
  let ix := a_num a in
  n ← to_int (ix + 1);
  '(result, a') ← array_setsize mem a n;
  if negb (result =? 0) then Done (result, a') else
  v ← array_vec a';
  v' ← blk_set v ix guy;
  Done (0, mkArray (a_num a') (a_max a') (Some v')).

Definition array_remove a (index : Z) : outcome (array A) :=
  kassert (a_num a <=? a_max a);;
  kassert ((0 <=? index) && (index <? a_num a));;
  let nmove := a_num a - (index + 1) in
  v ← array_vec a;
  v' ← blk_move v index (index + 1) nmove;
  Done (mkArray (a_num a - 1) (a_max a) (Some v')).

(** ** The cells of an array

    [array_cells a c]: the elements of [a] are the cells [c]; a cell that
    [array_setsize] has added and nobody has stored into is [None] or holds what
    the memory held before. *)
Definition array_cells a (c : list (option A)) : Prop :=
  a_num a = Z.of_nat (length c) ∧
  a_num a ≤ a_max a < 1073741824 ∧
  match a_v a with
  | None => a_max a = 0
  | Some v => Z.of_nat (length v) = a_max a ∧ take (length c) v = c
  end.

(** The list an array stands for: all its cells hold an element. *)
Definition array_repr a l : Prop :=
  a_num a = Z.of_nat (length l) ∧
  a_num a ≤ a_max a < 1073741824 ∧
  match a_v a with
  | None => a_max a = 0
  | Some v => Z.of_nat (length v) = a_max a ∧ take (length l) v = Some <$> l
  end.

Lemma array_repr_cells a l : array_repr a l ↔ array_cells a (Some <$> l).
Proof. unfold array_repr, array_cells. by rewrite length_fmap. Qed.

Lemma array_repr_num a l : array_repr a l → a_num a = Z.of_nat (length l).
Proof. by intros [? _]. Qed.

Lemma array_repr_det a l l' : array_repr a l → array_repr a l' → l = l'.
Proof.
  intros (Hn & _ & Hv) (Hn' & Hm & Hv'). destruct (a_v a) as [v|].
  - destruct Hv as [_ Ht], Hv' as [_ Ht']. apply (inj (fmap Some)). rewrite <-Ht, <-Ht'. f_equal. lia.
  - destruct l, l'; simpl in *; done || lia.
Qed.

(** [resized c n c']: the first cells of [c'] are those of [c], and it has [n]. *)
Definition resized (c : list (option A)) (n : Z) (c' : list (option A)) : Prop :=
  Z.of_nat (length c') = n ∧ take (length c) c' = take (length c') c.

(** The cell at an index of the array is a cell of the vector. *)
Lemma array_cells_vec a c i y :
  array_cells a c → c !! i = Some y → ∃ v, a_v a = Some v ∧ v !! i = Some y.
Proof.
  intros (Hn & Hm & Hv) Hl. assert (i < length c)%nat by by eapply lookup_lt_Some.
  destruct (a_v a) as [v|]; [|lia]. destruct Hv as [Hlen Htake].
  exists v. split; [done|].
  rewrite <-(lookup_take_lt v (length c)) by lia. by rewrite Htake.
Qed.

Lemma array_copy_wp a c newv :
  array_cells a c → (length c ≤ length newv)%nat →
  wp (for_each (Z.to_nat (a_num a)) 0
        (λ i newv, v ← array_vec a; c ← blk_cell v i; blk_put newv i c) newv)
     (λ w, length w = length newv ∧ take (length c) w = c).
Proof.
  intros (Hn & Hm & Hv) Hlen. rewrite Hn, Nat2Z.id. unfold array_vec.
  destruct (a_v a) as [v|].
  - destruct Hv as [Hv1 Hv2]. eapply wp_mono; [apply (wp_copy_cells v); [lia|lia|done]|].
    intros w [? ->]. done.
  - assert (length c = 0%nat) as Hl by lia. rewrite Hl. simpl.
    by rewrite (nil_length_inv _ Hl).
Qed.

Lemma array_newmax_wp nguys max :
  0 ≤ max < 1073741824 → nguys < 536870912 →
  wp (array_newmax nguys max) (λ m, room_for max nguys m ∧ m < 1073741824).
Proof.
  intros Hmax Hn. unfold array_newmax.
  apply (wp_while_loop
    (λ m, max ≤ m < 1073741824 ∧ m ≤ Z.max max (2 * nguys) ∧ (nguys ≤ max → m = max)) _
    (λ m, Z.max 0 (nguys - m))); [lia|lia|lia|].
  intros m [Hm Hs]. rewrite Z.gtb_ltb. destruct (Z.ltb_spec m nguys).
  - apply wp_bind, wp_to_int; [unfold INT_MIN, INT_MAX; lia|].
    apply wp_bind, wp_to_int; [unfold INT_MIN, INT_MAX; lia|]. simpl. lia.
  - simpl. unfold room_for. lia.
Qed.

Lemma array_preallocate_cells mem a c nguys :
  array_cells a c → nguys < 536870912 →
  wp (array_preallocate mem a nguys) (λ '(r, a'),
    if mem then r = 0 ∧ array_cells a' c ∧ room_for (a_max a) nguys (a_max a')
    else r = ENOMEM ∧ a' = a).
Proof.
  intros Hr Hn. pose proof Hr as (Hnum & Hmax & Hv). unfold array_preallocate.
  apply wp_bind, wp_kassert; [lia|].
  apply wp_bind. eapply wp_mono; [apply array_newmax_wp; lia|].
  intros m [Hg Hm]. destruct mem; simpl; [|done]. pose proof Hg as (Hm1 & Hm2 & _).
  apply wp_bind. rewrite u32_small by lia.
  assert (Z.of_nat (length (ptr_block (A:=A) (m * 4))) = m) as Hlen.
  { unfold ptr_block. rewrite length_replicate, Z.div_mul by lia. lia. }
  eapply wp_mono; [apply array_copy_wp; [done|lia]|].
  intros w [Hw1 Hw2]. simpl. unfold array_cells. simpl. repeat split; lia || done || apply Hg.
Qed.

(** With the count within the vector, the cells are the first ones. *)
Lemma array_cells_num a v n :
  a_v a = Some v → Z.of_nat (length v) = a_max a → a_max a < 1073741824 → 0 ≤ n ≤ a_max a →
  array_cells (mkArray n (a_max a) (a_v a)) (take (Z.to_nat n) v).
Proof.
  intros Hv Hlen ??. unfold array_cells. simpl. rewrite Hv, length_take.
  repeat split; try lia. f_equal. lia.
Qed.

(** Changing the count of an array resizes its list of cells. *)
Lemma array_cells_resize a c n :
  array_cells a c → 0 ≤ n ≤ a_max a →
  ∃ c', resized c n c' ∧ array_cells (mkArray n (a_max a) (a_v a)) c'.
Proof.
  intros (Hnum & Hmax & Hv) Hn. destruct (a_v a) as [v|] eqn:Ev.
  - exists (take (Z.to_nat n) v). rewrite <-Ev. destruct Hv as [Hlen Htake].
    split; [|by apply array_cells_num; lia || done].
    unfold resized. rewrite length_take. split; [lia|].
    rewrite <-Htake at 2. rewrite !take_take. f_equal; lia.
  - exists []. assert (n = 0) as -> by lia. unfold resized, array_cells. simpl.
    split; [|lia]. split; [done|]. by rewrite take_nil.
Qed.

Lemma array_setsize_cells mem a c nguys :
  array_cells a c → 0 ≤ nguys < 536870912 →
  wp (array_setsize mem a nguys) (λ '(r, a'),
    if (nguys <=? a_max a) || mem
    then r = 0 ∧ (∃ c', resized c nguys c' ∧ array_cells a' c') ∧
      (if (nguys =? 0) && (a_max a >? 16) then a_max a' = 0 else room_for (a_max a) nguys (a_max a'))
    else r = ENOMEM ∧ a' = a).
Proof.
  intros Hr Hn. pose proof Hr as (Hnum & Hmax & Hv). unfold array_setsize.
  apply wp_bind, wp_kassert; [lia|]. rewrite Z.gtb_ltb.
  destruct (Z.ltb_spec (a_max a) nguys) as [Hgt|Hle].
  - rewrite (proj2 (Z.leb_gt _ _)), (proj2 (Z.eqb_neq nguys 0)) by lia. cbn [orb andb].
    apply wp_bind. eapply wp_mono; [apply array_preallocate_cells; [done|lia]|].
    intros [r a']. destruct mem; [|by intros [-> ->]].
    intros (-> & Hc & Hg). cbn. split_and!; [done| |by apply Hg..].
    apply array_cells_resize; [done|]. destruct Hg. lia.
  - rewrite (proj2 (Z.leb_le _ _)) by lia. cbn [orb]. rewrite Z.gtb_ltb.
    destruct ((nguys =? 0) && (16 <? a_max a)) eqn:E.
    + destruct (a_v a); [|lia]. cbn. assert (nguys = 0) as -> by lia.
      split_and!; [done| |done]. exists []. unfold resized, array_cells. simpl.
      split; [|lia]. split; [done|]. by rewrite take_nil.
    + cbn. split_and!; [done|apply array_cells_resize; [done|lia]|unfold room_for; lia..].
Qed.

(** Storing into a cell. *)
Lemma array_store_wp a c i x :
  array_cells a c → 0 ≤ i < Z.of_nat (length c) →
  wp (v ← array_vec a; v' ← blk_set v i x; Done (mkArray (a_num a) (a_max a) (Some v')))
     (λ a', a_max a' = a_max a ∧ array_cells a' (<[Z.to_nat i := Some x]> c)).
Proof.
  intros (Hnum & Hmax & Hv) Hi. unfold array_vec.
  destruct (a_v a) as [v|]; [|lia]. destruct Hv as [Hlen Htake]. simpl.
  rewrite blk_set_in by lia. simpl. split; [done|].
  unfold array_cells. simpl. rewrite !length_insert. split_and!; [lia|lia|lia|lia|].
  rewrite <-Htake at 2. apply take_insert_lt. lia.
Qed.

Lemma array_setguy_cells a c i x :
  array_cells a c → 0 ≤ i < Z.of_nat (length c) →
  wp (array_setguy a i x) (λ a', a_max a' = a_max a ∧ array_cells a' (<[Z.to_nat i := Some x]> c)).
Proof.
  intros Hc Hi. pose proof Hc as (Hnum & Hmax & _). unfold array_setguy.
  apply wp_bind, wp_kassert; [lia|]. apply wp_bind, wp_kassert; [lia|].
  by apply array_store_wp.
Qed.

Lemma array_add_cells mem a c x :
  array_cells a c → Z.of_nat (length c) < 536870911 →
  wp (array_add mem a x) (λ '(r, a'),
    if (Z.of_nat (length c) + 1 <=? a_max a) || mem
    then r = 0 ∧ room_for (a_max a) (Z.of_nat (length c) + 1) (a_max a') ∧ array_cells a' (c ++ [Some x])
    else r = ENOMEM ∧ a' = a).
Proof.
  intros Hc Hl. pose proof Hc as (Hnum & Hmax & _). unfold array_add.
  apply wp_bind, wp_to_int; [unfold INT_MIN, INT_MAX; lia|]. rewrite Hnum.
  apply wp_bind. eapply wp_mono; [apply array_setsize_cells; [done|lia]|].
  intros [r a']. destruct (_ || mem); [|by intros [-> ->]].
  rewrite (proj2 (Z.eqb_neq _ 0)) by lia. cbn [andb]. intros (-> & (c' & [Hlen Htake] & Hc') & Hg). cbn.
  pose proof (array_store_wp a' c' (Z.of_nat (length c)) x Hc' ltac:(lia)) as Hst. revert Hst.
  destruct (array_vec a') as [v| | |]; try done. cbn. destruct (blk_set v _ x); try done. cbn.
  intros [_ Hst]. split_and!; [done|done|]. rewrite Nat2Z.id in Hst.
  replace (c ++ [Some x]) with (<[length c := Some x]> c'); [done|].
  rewrite (take_ge c) in Htake by lia.
  destruct (lookup_lt_is_Some_2 c' (length c)) as [y Hy]; [lia|].
  rewrite <-(take_drop (length c) c'), Htake, (drop_S _ _ _ Hy), drop_ge by lia.
  rewrite insert_app_r_alt by done. by rewrite Nat.sub_diag.
Qed.

Lemma array_getguy_cells a c i x :
  array_cells a c → 0 ≤ i → c !! Z.to_nat i = Some (Some x) → array_getguy a i = Done x.
Proof.
  intros Hc Hi Hl. pose proof Hc as (Hnum & Hmax & _).
  assert (Z.to_nat i < length c)%nat by by eapply lookup_lt_Some.
  destruct (array_cells_vec a c _ _ Hc Hl) as (v & Hv & Hx).
  unfold array_getguy, array_vec. rewrite Hv.
  rewrite (proj2 (Z.leb_le _ _)), (proj2 (Z.leb_le _ _)), (proj2 (Z.ltb_lt _ _)) by lia.
  simpl. by apply blk_get_Some.
Qed.

Lemma array_remove_cells a c i :
  array_cells a c → 0 ≤ i < Z.of_nat (length c) →
  wp (array_remove a i) (λ a', a_max a' = a_max a ∧ array_cells a' (delete (Z.to_nat i) c)).
Proof.
  intros (Hnum & Hmax & Hv) Hi. unfold array_remove, array_vec.
  apply wp_bind, wp_kassert; [lia|]. apply wp_bind, wp_kassert; [lia|].
  destruct (a_v a) as [v|]; [|lia]. destruct Hv as [Hlen Htake]. simpl.
  rewrite blk_move_in by lia. simpl. split; [done|].
  assert (length (delete (Z.to_nat i) c) = (length c - 1)%nat) as Hdel by (apply length_delete, lookup_lt_is_Some; lia).
  unfold array_cells. simpl. rewrite Hdel. split_and!; [lia|lia|lia| |].
  - rewrite !length_app, !length_take, !length_drop. lia.
  - rewrite delete_take_drop. replace (take (Z.to_nat i) c) with (take (Z.to_nat i) v)
      by (rewrite <-Htake, take_take; f_equal; lia).
    replace (drop (S (Z.to_nat i)) c) with (take (length c - S (Z.to_nat i)) (drop (S (Z.to_nat i)) v))
      by (by rewrite <-skipn_firstn_comm, Htake).
    rewrite take_app_ge by (rewrite length_take; lia).
    rewrite length_take, take_app_le by (rewrite length_take, length_drop; lia).
    rewrite take_take. f_equal.
    replace (Z.to_nat (i + 1)) with (S (Z.to_nat i)) by lia. f_equal. lia.
Qed.

(** ** The operations on arrays that stand for a list *)

Lemma array_preallocate_wp mem a l nguys :
  array_repr a l → nguys < 536870912 →
  wp (array_preallocate mem a nguys) (λ '(r, a'),
    array_repr a' l ∧
    if mem then r = 0 ∧ nguys ≤ a_max a' ∧ a_max a ≤ a_max a'
    else r = ENOMEM ∧ a' = a).
Proof.
  intros Hr%array_repr_cells Hn. eapply wp_mono; [by apply array_preallocate_cells|]. intros [r a'].
  rewrite array_repr_cells. destruct mem; [|by intros [-> ->]]. intros (-> & Hc & ? & ? & ?). split_and!; done || lia.
Qed.

Lemma array_add_wp mem a l x :
  array_repr a l → Z.of_nat (length l) < 536870911 →
  wp (array_add mem a x) (λ '(r, a'),
    if bool_decide (a_num a < a_max a) || mem
    then r = 0 ∧ a_max a ≤ a_max a' ∧ array_repr a' (l ++ [x])
    else r = ENOMEM ∧ a' = a).
Proof.
  intros Hr Hl. rewrite (array_repr_num _ _ Hr). apply array_repr_cells in Hr.
  eapply wp_mono; [apply array_add_cells; [done|by rewrite length_fmap]|]. intros [r a'].
  rewrite length_fmap. case_bool_decide; [rewrite (proj2 (Z.leb_le _ _)) by lia|rewrite (proj2 (Z.leb_gt _ _)) by lia];
    (destruct mem; cbn [orb]; [intros (-> & [? _] & ?)|intros H'; try destruct H' as (-> & [? _] & ?)]);
    try (split_and!; [done|lia|]; apply array_repr_cells; by rewrite fmap_app); done.
Qed.

Lemma array_getguy_eq a l i x :
  array_repr a l → l !! i = Some x → array_getguy a (Z.of_nat i) = Done x.
Proof.
  intros Hr%array_repr_cells Hl. eapply array_getguy_cells; [done|lia|].
  by rewrite Nat2Z.id, list_lookup_fmap, Hl.
Qed.

Lemma array_getguy_elem a l i x : array_repr a l → array_getguy a i = Done x → x ∈ l.
Proof.
  intros Hr. pose proof Hr as (Hnum & _ & _). unfold array_getguy. destruct (a_num a <=? a_max a) eqn:Em; [|done].
  destruct ((0 <=? i) && (i <? a_num a)) eqn:Ei; [|done].
  assert (0 ≤ i < a_num a) as Hi by lia. destruct (lookup_lt_is_Some_2 l (Z.to_nat i)) as [y Hy]; [lia|].
  pose proof (array_getguy_eq a l (Z.to_nat i) y Hr Hy) as Hg. unfold array_getguy in Hg.
  rewrite Z2Nat.id, Em, Ei in Hg by lia. cbn in *. rewrite Hg. intros [= <-]. by eapply list_elem_of_lookup_2.
Qed.

Lemma array_setguy_wp a l i x :
  array_repr a l → (i < length l)%nat →
  wp (array_setguy a (Z.of_nat i) x) (λ a', a_max a' = a_max a ∧ array_repr a' (<[i := x]> l)).
Proof.
  intros Hr%array_repr_cells Hi. eapply wp_mono; [apply array_setguy_cells; [done|rewrite length_fmap; lia]|].
  intros a' [? Hc]. split; [done|]. apply array_repr_cells. by rewrite list_fmap_insert, Nat2Z.id in *.
Qed.

(** A loop that looks for an element and leaves the state alone. *)
Lemma array_search_wp {St R} a l (body : Z → A → stm St (unit + R)) (g : Z → A → option R) s :
  array_repr a l →
  (∀ (k : nat) x, l !! k = Some x →
     body (Z.of_nat k) x s = Done (match g (Z.of_nat k) x with Some y => inr y | None => inl tt end, s)) →
  swp (for_stm (Z.to_nat (array_getnum a)) 0 (λ i _, x ← lift (array_getguy a i); body i x) tt) s (λ r s', s' = s ∧
    match r with
    | inr y => ∃ (k : nat) x, l !! k = Some x ∧ g (Z.of_nat k) x = Some y
    | inl _ => ∀ (k : nat) x, l !! k = Some x → g (Z.of_nat k) x = None
    end).
Proof.
  intros Hr Hbody. unfold array_getnum. rewrite (array_repr_num _ _ Hr), Nat2Z.id. eapply swp_mono.
  { apply (swp_for_stm (λ j (_ : unit) s', s' = s ∧ ∀ (k : nat) x, Z.of_nat k < j → l !! k = Some x → g (Z.of_nat k) x = None)
      (λ y s', s' = s ∧ ∃ (k : nat) x, l !! k = Some x ∧ g (Z.of_nat k) x = Some y)).
    { split; [done|]. lia. }
    intros j [] s' Hj [-> Hno]. destruct (lookup_lt_is_Some_2 l (Z.to_nat j)) as [x Hx]; [lia|].
    assert (j = Z.of_nat (Z.to_nat j)) as Ej by lia. revert Hx Hno Hj. rewrite Ej. generalize (Z.to_nat j) as n. clear Ej. intros n Hx Hno Hj.
    rewrite Nat2Z.id in Hx. apply swp_bind, swp_lift. rewrite (array_getguy_eq _ _ _ _ Hr Hx). cbn [wp]. unfold swp. rewrite (Hbody _ _ Hx). cbn [wp].
    destruct (g (Z.of_nat n) x) as [y|] eqn:E; split; [done|by eauto|done|].
    intros k y Hk Hy. destruct (decide (k = n)) as [->|]; [congruence|]. apply Hno; done || lia. }
  intros [[]|y] s' H; [|done]. destruct H as [-> Hno]. split; [done|]. intros k x Hk. apply Hno; [|done]. apply lookup_lt_Some in Hk. lia.
Qed.

Lemma array_remove_wp a l i :
  array_repr a l → (i < length l)%nat →
  wp (array_remove a (Z.of_nat i)) (λ a', a_max a' = a_max a ∧ array_repr a' (delete i l)).
Proof.
  intros Hr%array_repr_cells Hi. eapply wp_mono; [apply array_remove_cells; [done|rewrite length_fmap; lia]|].
  intros a' [? Hc]. split; [done|]. apply array_repr_cells. by rewrite list_fmap_delete, Nat2Z.id in *.
Qed.

Lemma array_clear_wp mem a l :
  array_repr a l →
  wp (array_setsize mem a 0) (λ '(r, a'), r = 0 ∧ array_repr a' [] ∧
    a_max a' = if a_max a >? 16 then 0 else a_max a).
Proof.
  intros Hr. pose proof Hr as (_ & Hmax & _). apply array_repr_cells in Hr. pose proof Hr as (Hnum & _).
  eapply wp_mono; [apply array_setsize_cells; [done|lia]|]. intros [r a'].
  rewrite (proj2 (Z.leb_le 0 _)) by lia. cbn [orb andb Z.eqb].
  intros (-> & (c' & [Hlen _] & Hc) & Hg). split_and!; [done| |].
  - apply array_repr_cells. by rewrite (nil_length_inv c') in Hc by lia.
  - destruct (a_max a >? 16); [done|]. apply Hg. lia.
Qed.

(** ** The abstract data type and the simulation *)

(** The calls of array.h on an array. *)
Inductive array_op :=
| AAdd (mem : bool) (x : A)
| AGet (i : Z)
| ANum
| ASet (i : Z) (x : A)
| ARemove (i : Z)
| AReserve (mem : bool) (n : Z)
| ASetsize (mem : bool) (n : Z).

(** What a call returns. *)
Inductive array_ans := AInt (r : Z) | APtr (x : A) | AVoid.

Definition array_exec a (op : array_op) : outcome (array_ans * array A) :=
  match op with
  | AAdd mem x => '(r, a') ← array_add mem a x; Done (AInt r, a')
  | AGet i => x ← array_getguy a i; Done (APtr x, a)
  | ANum => Done (AInt (array_getnum a), a)
  | ASet i x => a' ← array_setguy a i x; Done (AVoid, a')
  | ARemove i => a' ← array_remove a i; Done (AVoid, a')
  | AReserve mem n => '(r, a') ← array_preallocate mem a n; Done (AInt r, a')
  | ASetsize mem n => '(r, a') ← array_setsize mem a n; Done (AInt r, a')
  end.

Definition index_in (c : list (option A)) (i : Z) : bool := (0 <=? i) && (i <? Z.of_nat (length c)).

(** The calls the code's assertions reject. *)
Definition bad_index (c : list (option A)) (op : array_op) : bool :=
  match op with
  | AGet i | ASet i _ | ARemove i => negb (index_in c i)
  | _ => false
  end.

(** What a caller owes: sizes that are not negative and below the limit at
    which the byte count of the vector would wrap, and no reading of a cell
    nothing has been stored into. *)
Definition op_guard (c : list (option A)) (op : array_op) : Prop :=
  match op with
  | AAdd _ _ => Z.of_nat (length c) < 536870911
  | AGet i => c !! Z.to_nat i ≠ Some None
  | AReserve _ n => n < 536870912
  | ASetsize _ n => 0 ≤ n < 536870912
  | _ => True
  end.

(** What the caller gets, on the cells and the capacity.  A call that may
    allocate fails only with ENOMEM, only without memory, and (the
    reservation apart, which always allocates) only when the capacity does not
    suffice; then it changes nothing.  [array_setsize(a, 0)] gives back a
    vector of more than 16 cells. *)
Inductive list_step : list (option A) * Z → array_op → array_ans → list (option A) * Z → Prop :=
| LAdd c cap cap' mem x :
    Z.of_nat (length c) < cap ∨ mem = true → room_for cap (Z.of_nat (length c) + 1) cap' →
    list_step (c, cap) (AAdd mem x) (AInt 0) (c ++ [Some x], cap')
| LAddFail c cap x :
    cap ≤ Z.of_nat (length c) → list_step (c, cap) (AAdd false x) (AInt ENOMEM) (c, cap)
| LGet c cap i x :
    0 ≤ i → c !! Z.to_nat i = Some (Some x) → list_step (c, cap) (AGet i) (APtr x) (c, cap)
| LNum c cap : list_step (c, cap) ANum (AInt (Z.of_nat (length c))) (c, cap)
| LSet c cap i x : list_step (c, cap) (ASet i x) AVoid (<[Z.to_nat i := Some x]> c, cap)
| LRemove c cap i : list_step (c, cap) (ARemove i) AVoid (delete (Z.to_nat i) c, cap)
| LReserve c cap cap' n : room_for cap n cap' → list_step (c, cap) (AReserve true n) (AInt 0) (c, cap')
| LReserveFail c cap n : list_step (c, cap) (AReserve false n) (AInt ENOMEM) (c, cap)
| LSetsize c cap c' cap' mem n :
    n ≤ cap ∨ mem = true → resized c n c' →
    (if (n =? 0) && (cap >? 16) then cap' = 0 else room_for cap n cap') →
    list_step (c, cap) (ASetsize mem n) (AInt 0) (c', cap')
| LSetsizeFail c cap n :
    cap < n → list_step (c, cap) (ASetsize false n) (AInt ENOMEM) (c, cap).

(** An index the assertions reject. *)
Lemma array_bad_index a c op :
  array_cells a c → bad_index c op = true → array_exec a op = Panic.
Proof.
  intros (Hnum & Hmax & _) Hb. destruct op as [|i| |i x|i| |]; try done; cbn in Hb |- *;
    apply negb_true_iff in Hb; unfold index_in in Hb; rewrite <-Hnum in Hb;
    unfold array_getguy, array_setguy, array_remove; rewrite (proj2 (Z.leb_le (a_num a) _)), Hb by lia; done.
Qed.

(** [n] appends in a row, none of which can allocate. *)
Fixpoint array_add_all a (xs : list A) : outcome (Z * array A) :=
  match xs with
  | [] => Done (0, a)
  | x :: xs' =>
      '(r, a') ← array_add false a x;
      if negb (r =? 0) then Done (r, a') else array_add_all a' xs'
  end.

End array.



(** The reservation on which thread.c relies: once [array_preallocate]
    has succeeded for [n] elements, appends up to [n] elements in total need
    no memory: every one of them succeeds even if [kmalloc] would fail. *)
Theorem array_reservation {A} (a : array A) l n xs :
  array_repr a l → n < 536870911 → Z.of_nat (length l + length xs) ≤ n →
  wp (array_preallocate true a n) (λ '(r, a'),
    r = 0 ∧ wp (array_add_all a' xs) (λ '(r2, a2), r2 = 0 ∧ array_repr a2 (l ++ xs))).
Proof.
  intros Hr Hn Hxs. eapply wp_mono; [apply array_preallocate_wp; [done|lia]|].
  intros [r a'] (Hr' & -> & Hcap & _). split; [done|].
  clear a Hr. revert a' l Hr' Hcap Hxs.
  induction xs as [|x xs IH]; intros a l Hr Hcap Hxs; simpl in *.
  { by rewrite app_nil_r. }
  apply wp_bind. eapply wp_mono; [apply array_add_wp; [done|lia]|].
  intros [r a']. rewrite bool_decide_true by (rewrite (array_repr_num _ _ Hr); lia).
  intros (-> & ? & Hr'). simpl.
  rewrite cons_middle, (assoc_L (++)). apply IH; [done|lia|].
  rewrite length_app. simpl. lia.
Qed.

