(* ===== verification/Bitmap.v ===== *)
(** * kern/lib/bitmap.c: arrays of bits

    The bitmap keeps its bits in bytes, least significant bit first, with the
    bits beyond [nbits] in the last byte permanently set.  The theorems relate
    each operation to the bits it is about: [bitmap_alloc] finds the lowest
    clear bit and fails exactly when there is none. *)

From S2P Require Import Prelude.

Definition BITS_PER_WORD : Z := 8.
Definition WORD_ALLBITS : Z := 255.

(** struct bitmap *)
Record bitmap := mkBitmap { bm_nbits : Z; bm_v : list Z }.

(** [b->v[ix] |= mask] on an unsigned char. *)
Definition word_or (v : list Z) (ix mask : Z) : outcome (list Z) :=
  w ← arr_get v ix;
  arr_set v ix (Z.lor w mask mod 256).

(** [b->v[ix] &= ~mask] on an unsigned char. *)
Definition word_andnot (v : list Z) (ix mask : Z) : outcome (list Z) :=
  w ← arr_get v ix;
  arr_set v ix (Z.land w (Z.lnot mask) mod 256).

(** [mem1] and [mem2] are the answers of the two [kmalloc] calls. *)
Definition bitmap_create (mem1 mem2 : bool) (nbits : Z) : outcome (option bitmap) :=
  let words := DIVROUNDUP nbits BITS_PER_WORD in
  if negb mem1 then Done None else
  if negb mem2 then Done None else
  let v := replicate (Z.to_nat words) 0 in
  if nbits / BITS_PER_WORD <? words then
    let ix := u32 (words - 1) in
    let overbits := u32 (nbits - u32 (ix * BITS_PER_WORD)) in
    kassert (nbits / BITS_PER_WORD =? u32 (words - 1));;
    kassert ((overbits >? 0) && (overbits <? BITS_PER_WORD));;
    v' ← for_each (Z.to_nat (BITS_PER_WORD - overbits)) overbits
           (λ j v, word_or v ix (Z.shiftl 1 j)) v;
    Done (Some (mkBitmap nbits v'))
  else Done (Some (mkBitmap nbits v)).

Definition bitmap_getdata (b : bitmap) : list Z := bm_v b.

(** The inner loop of [bitmap_alloc], on a word known not to be full. *)
Definition bitmap_alloc_word (b : bitmap) (ix : Z) : outcome (res Z * bitmap) :=
  r ← for_loop 8 0
    (λ offset (_ : unit),
       let mask := Z.shiftl 1 offset in
       w ← arr_get (bm_v b) ix;
       if Z.land w mask =? 0 then
         v' ← word_or (bm_v b) ix mask;
         let index := u32 (u32 (ix * BITS_PER_WORD) + offset) in
         kassert (index <? bm_nbits b);;
         Done (inr (Ok index, mkBitmap (bm_nbits b) v'))
       else Done (inl tt)) tt;
  match r with
  | inl _ => Panic
  | inr x => Done x
  end.

Definition bitmap_alloc (b : bitmap) : outcome (res Z * bitmap) :=
  let maxix := DIVROUNDUP (bm_nbits b) BITS_PER_WORD in
  r ← for_loop (Z.to_nat maxix) 0
    (λ ix (_ : unit),
       w ← arr_get (bm_v b) ix;
       if negb (w =? WORD_ALLBITS) then
         x ← bitmap_alloc_word b ix;
         Done (inr x)
       else Done (inl tt)) tt;
  match r with
  | inl _ => Done (Err ENOSPC, b)
  | inr x => Done x
  end.

Definition bitmap_translate (bitno : Z) : Z * Z :=
  (bitno / BITS_PER_WORD, Z.shiftl 1 (bitno mod BITS_PER_WORD)).

Definition bitmap_mark (b : bitmap) (index : Z) : outcome bitmap :=
  kassert (index <? bm_nbits b);;
  let '(ix, mask) := bitmap_translate index in
  w ← arr_get (bm_v b) ix;
  kassert (Z.land w mask =? 0);;
  v' ← word_or (bm_v b) ix mask;
  Done (mkBitmap (bm_nbits b) v').

Definition bitmap_unmark (b : bitmap) (index : Z) : outcome bitmap :=
  kassert (index <? bm_nbits b);;
  let '(ix, mask) := bitmap_translate index in
  w ← arr_get (bm_v b) ix;
  kassert (negb (Z.land w mask =? 0));;
  v' ← word_andnot (bm_v b) ix mask;
  Done (mkBitmap (bm_nbits b) v').

Definition bitmap_isset (b : bitmap) (index : Z) : outcome Z :=
  let '(ix, mask) := bitmap_translate index in
  w ← arr_get (bm_v b) ix;
  Done (Z.land w mask).

(** ** The bits *)

(** Bit [i] of a bitmap's data. *)
Definition bit_of (v : list Z) (i : Z) : bool :=
  Z.testbit (default 0 (v !! Z.to_nat (i / 8))) (i mod 8).

Definition bm_used (b : bitmap) (i : Z) : bool := bit_of (bm_v b) i.

(** The invariant of a bitmap: the vector has the right number of bytes, and
    the bits beyond the end are marked in use. *)
Definition bitmap_wf (b : bitmap) : Prop :=
  0 ≤ bm_nbits b < 4294967288 ∧
  Z.of_nat (length (bm_v b)) = (bm_nbits b + 7) / 8 ∧
  Forall (λ w, 0 ≤ w < 256) (bm_v b) ∧
  ∀ i, bm_nbits b ≤ i < 8 * Z.of_nat (length (bm_v b)) → bm_used b i = true.

Lemma mask_testbit k n : 0 ≤ k → Z.testbit (Z.shiftl 1 k) n = (k =? n).
Proof. intros. by rewrite Z.shiftl_1_l, Z.pow2_bits_eqb. Qed.

Lemma land_mask w k : 0 ≤ k → (Z.land w (Z.shiftl 1 k) =? 0) = negb (Z.testbit w k).
Proof.
  intros Hk. destruct (Z.testbit w k) eqn:E; simpl.
  - apply Z.eqb_neq. intros H. apply (f_equal (λ z, Z.testbit z k)) in H.
    by rewrite Z.land_spec, mask_testbit, E, Z.eqb_refl, Z.bits_0 in H by done.
  - apply Z.eqb_eq, Z.bits_inj'. intros n Hn.
    rewrite Z.land_spec, mask_testbit, Z.bits_0 by done.
    destruct (Z.eqb_spec k n) as [->|]; [by rewrite E|by rewrite andb_false_r].
Qed.

Lemma testbit_mod256 w n : 0 ≤ n < 8 → Z.testbit (w mod 256) n = Z.testbit w n.
Proof. intros. change 256 with (2 ^ 8). apply Z.mod_pow2_bits_low. lia. Qed.

Lemma mod_byte w : 0 ≤ w mod 256 < 256.
Proof. by apply Z.mod_pos_bound. Qed.

(** A byte is 0xff exactly when its eight bits are set. *)
Lemma byte_allbits w :
  0 ≤ w < 256 → w = WORD_ALLBITS ↔ ∀ k, 0 ≤ k < 8 → Z.testbit w k = true.
Proof.
  intros Hw. split.
  - intros -> k Hk. change WORD_ALLBITS with (Z.ones 8). apply Z.ones_spec_low. lia.
  - intros H. change WORD_ALLBITS with (Z.ones 8). apply Z.bits_inj'. intros n Hn.
    rewrite Z.testbit_ones by lia. destruct (Z.ltb_spec n 8).
    + rewrite H by lia. symmetry. apply andb_true_iff. split; [by apply Z.leb_le|done].
    + rewrite andb_false_r. destruct (decide (w = 0)) as [->|Hw0]; [apply Z.bits_0|].
      apply Z.bits_above_log2; [lia|].
      assert (Z.log2 w < 8); [apply Z.log2_lt_pow2; lia|lia].
Qed.

Lemma div_mod8 i ix k : 0 ≤ k < 8 → i = ix * 8 + k → i / 8 = ix ∧ i mod 8 = k.
Proof. intros ? ->. split; dlia. Qed.

(** What a single-byte update does to the bits of the vector. *)
Lemma bit_of_insert v ix w' (f : Z → bool) :
  0 ≤ ix < Z.of_nat (length v) →
  (∀ k, 0 ≤ k < 8 → Z.testbit w' k = f (ix * 8 + k)) →
  ∀ j, 0 ≤ j →
  bit_of (<[Z.to_nat ix := w']> v) j = if j / 8 =? ix then f j else bit_of v j.
Proof.
  intros Hix Hw' j Hj. unfold bit_of. destruct (Z.eqb_spec (j / 8) ix) as [<-|Hne].
  - rewrite list_lookup_insert_eq by lia. simpl. rewrite Hw' by dlia. f_equal. dlia.
  - rewrite list_lookup_insert_ne by dlia. done.
Qed.

Lemma bytes_insert v i w' :
  Forall (λ w, 0 ≤ w < 256) v → 0 ≤ w' < 256 →
  Forall (λ w, 0 ≤ w < 256) (<[i := w']> v).
Proof. intros. by apply Forall_insert. Qed.

Lemma byte_lookup v ix :
  0 ≤ ix < Z.of_nat (length v) →
  arr_get v ix = Done (default 0 (v !! Z.to_nat ix)) ∧
  ∀ k, 0 ≤ k < 8 → Z.testbit (default 0 (v !! Z.to_nat ix)) k = bit_of v (ix * 8 + k).
Proof.
  intros Hix. destruct (lookup_lt_is_Some_2 v (Z.to_nat ix)) as [w Hw]; [lia|]. split.
  - rewrite Hw. by apply arr_get_Some; [lia|].
  - intros k Hk. unfold bit_of. by destruct (div_mod8 (ix * 8 + k) ix k) as [-> ->].
Qed.

Lemma word_or_wp v ix k :
  0 ≤ ix < Z.of_nat (length v) → 0 ≤ k < 8 →
  Forall (λ w, 0 ≤ w < 256) v →
  wp (word_or v ix (Z.shiftl 1 k)) (λ v',
    length v' = length v ∧ Forall (λ w, 0 ≤ w < 256) v' ∧
    ∀ j, 0 ≤ j → bit_of v' j = (j =? ix * 8 + k) || bit_of v j).
Proof.
  intros Hix Hk Hv. unfold word_or. destruct (byte_lookup v ix Hix) as [-> Hbits]. simpl.
  rewrite arr_set_in by done. simpl. split_and!.
  - apply length_insert.
  - apply bytes_insert; [done|apply mod_byte].
  - intros j Hj.
    rewrite (bit_of_insert _ _ _ (λ i, (i =? ix * 8 + k) || bit_of v i)); [|done| |done].
    + destruct (Z.eqb_spec (j / 8) ix); [done|].
      by rewrite (proj2 (Z.eqb_neq _ _)) by dlia.
    + intros n Hn. rewrite testbit_mod256, Z.lor_spec, mask_testbit, Hbits by lia.
      rewrite orb_comm. f_equal. lia.
Qed.

Lemma word_andnot_wp v ix k :
  0 ≤ ix < Z.of_nat (length v) → 0 ≤ k < 8 →
  Forall (λ w, 0 ≤ w < 256) v →
  wp (word_andnot v ix (Z.shiftl 1 k)) (λ v',
    length v' = length v ∧ Forall (λ w, 0 ≤ w < 256) v' ∧
    ∀ j, 0 ≤ j → bit_of v' j = negb (j =? ix * 8 + k) && bit_of v j).
Proof.
  intros Hix Hk Hv. unfold word_andnot. destruct (byte_lookup v ix Hix) as [-> Hbits]. simpl.
  rewrite arr_set_in by done. simpl. split_and!.
  - apply length_insert.
  - apply bytes_insert; [done|apply mod_byte].
  - intros j Hj.
    rewrite (bit_of_insert _ _ _ (λ i, negb (i =? ix * 8 + k) && bit_of v i)); [|done| |done].
    + destruct (Z.eqb_spec (j / 8) ix); [done|].
      by rewrite (proj2 (Z.eqb_neq _ _)) by dlia.
    + intros n Hn. rewrite testbit_mod256, Z.land_spec, Z.lnot_spec, mask_testbit, Hbits by lia.
      rewrite andb_comm. do 2 f_equal. lia.
Qed.

Lemma divroundup8 n : 0 ≤ n < 4294967288 → DIVROUNDUP n BITS_PER_WORD = (n + 7) / 8.
Proof.
  intros. unfold DIVROUNDUP, BITS_PER_WORD. rewrite u32_small by lia.
  by replace (n + 8 - 1) with (n + 7) by lia.
Qed.

(** The effect of setting or clearing one bit. *)
Definition bits_set (b b' : bitmap) (i : Z) : Prop :=
  bm_nbits b' = bm_nbits b ∧
  ∀ j, 0 ≤ j → bm_used b' j = (j =? i) || bm_used b j.

Definition bits_clear (b b' : bitmap) (i : Z) : Prop :=
  bm_nbits b' = bm_nbits b ∧
  ∀ j, 0 ≤ j → bm_used b' j = negb (j =? i) && bm_used b j.

Lemma bitmap_or_wp b ix k :
  bitmap_wf b → 0 ≤ ix < Z.of_nat (length (bm_v b)) → 0 ≤ k < 8 →
  wp (word_or (bm_v b) ix (Z.shiftl 1 k)) (λ v',
    bitmap_wf (mkBitmap (bm_nbits b) v') ∧
    bits_set b (mkBitmap (bm_nbits b) v') (ix * 8 + k)).
Proof.
  intros (Hn & Hlen & Hv & Htail) Hix Hk.
  eapply wp_mono; [by apply word_or_wp|]. intros v' (Hl & Hv' & Hb).
  unfold bitmap_wf, bits_set, bm_used. simpl. rewrite Hl. split_and!; try done; try lia.
  intros i Hi. rewrite Hb by lia. rewrite (Htail i Hi : bit_of _ _ = _). apply orb_true_r.
Qed.

Lemma bitmap_word_range b i :
  bitmap_wf b → 0 ≤ i < bm_nbits b → 0 ≤ i / 8 < Z.of_nat (length (bm_v b)).
Proof. intros (Hn & -> & _) Hi. dlia. Qed.

Lemma bitmap_alloc_word_wp b ix :
  bitmap_wf b → 0 ≤ ix < Z.of_nat (length (bm_v b)) →
  (∀ i, 0 ≤ i < ix * 8 → bm_used b i = true) →
  default 0 (bm_v b !! Z.to_nat ix) ≠ WORD_ALLBITS →
  wp (bitmap_alloc_word b ix) (λ '(r, b'), ∃ i, r = Ok i ∧
    0 ≤ i < bm_nbits b ∧ bm_used b i = false ∧
    (∀ j, 0 ≤ j < i → bm_used b j = true) ∧ bitmap_wf b' ∧ bits_set b b' i).
Proof.
  intros Hwf Hix Hlow Hfull. pose proof Hwf as (Hn & Hlen & Hv & Htail).
  unfold bitmap_alloc_word. apply wp_bind.
  destruct (byte_lookup _ _ Hix) as [Hget Hbits].
  eapply wp_mono; [apply (wp_for_loop (λ k _, ∀ j, 0 ≤ j < k → bm_used b (ix * 8 + j) = true)
    (λ '(r, b'), ∃ i, r = Ok i ∧
      0 ≤ i < bm_nbits b ∧ bm_used b i = false ∧
      (∀ j, 0 ≤ j < i → bm_used b j = true) ∧ bitmap_wf b' ∧ bits_set b b' i))|].
  - lia.
  - intros k [] Hk Hset. rewrite Hget. simpl.
    rewrite land_mask, Hbits by lia. fold (bm_used b (ix * 8 + k)).
    destruct (bm_used b (ix * 8 + k)) eqn:E; simpl.
    { intros j Hj. destruct (decide (j = k)) as [->|]; [done|]. apply Hset. lia. }
    apply wp_bind. eapply wp_mono; [by apply bitmap_or_wp|]. intros v' [Hwf' Hb'].
    assert (ix * 8 + k < bm_nbits b).
    { apply Znot_ge_lt. intros ?. rewrite (Htail (ix * 8 + k)) in E; [done|lia]. }
    unfold BITS_PER_WORD. rewrite (u32_small (ix * 8)), u32_small by lia.
    apply wp_bind, wp_kassert; [lia|]. simpl. exists (ix * 8 + k).
    split_and!; try done; try lia. intros j Hj.
    destruct (decide (j < ix * 8)); [apply Hlow; lia|].
    replace j with (ix * 8 + (j - ix * 8)) by lia. apply Hset. lia.
  - intros [[]|[r b']]; simpl; [|done]. intros Hset. exfalso. apply Hfull.
    apply byte_allbits; [|by intros k Hk; rewrite Hbits by done; apply Hset].
    destruct (lookup_lt_is_Some_2 (bm_v b) (Z.to_nat ix)) as [w Hw]; [lia|].
    rewrite Hw. simpl. by eapply (Forall_lookup_1 (λ w, 0 ≤ w < 256)).
Qed.

Lemma bitmap_alloc_wp b :
  bitmap_wf b →
  wp (bitmap_alloc b) (λ '(r, b'),
    match r with
    | Ok i => 0 ≤ i < bm_nbits b ∧ bm_used b i = false ∧
              (∀ j, 0 ≤ j < i → bm_used b j = true) ∧ bitmap_wf b' ∧ bits_set b b' i
    | Err e => e = ENOSPC ∧ b' = b ∧ ∀ i, 0 ≤ i < bm_nbits b → bm_used b i = true
    end).
Proof.
  intros Hwf. pose proof Hwf as (Hn & Hlen & Hv & Htail).
  unfold bitmap_alloc. rewrite divroundup8, <-Hlen, Nat2Z.id by done.
  apply wp_bind. eapply wp_mono; [apply (wp_for_loop
    (λ ix _, ∀ i, 0 ≤ i < ix * 8 → bm_used b i = true)
    (λ '(r, b'), ∃ i, r = Ok i ∧
      0 ≤ i < bm_nbits b ∧ bm_used b i = false ∧
      (∀ j, 0 ≤ j < i → bm_used b j = true) ∧ bitmap_wf b' ∧ bits_set b b' i))|].
  - lia.
  - intros ix [] Hix Hlow.
    destruct (byte_lookup (bm_v b) ix) as [-> Hbits]; [lia|]. simpl.
    destruct (Z.eqb_spec (default 0 (bm_v b !! Z.to_nat ix)) WORD_ALLBITS) as [Hw|Hw]; simpl.
    + intros i Hi. destruct (decide (i < ix * 8)); [apply Hlow; lia|].
      replace i with (ix * 8 + (i - ix * 8)) by lia.
      unfold bm_used. rewrite <-Hbits by lia. rewrite Hw.
      apply byte_allbits; [done|done|lia].
    + apply wp_bind. eapply wp_mono; [apply bitmap_alloc_word_wp; [done|lia|done|done]|]. done.
  - intros [[]|[r b']]; simpl.
    + intros H. split_and!; [done|done|]. intros i Hi. apply H. dlia.
    + by intros (i & -> & ?).
Qed.

Lemma bitmap_index b i :
  bitmap_wf b → 0 ≤ i < bm_nbits b →
  arr_get (bm_v b) (i / 8) = Done (default 0 (bm_v b !! Z.to_nat (i / 8))) ∧
  (Z.land (default 0 (bm_v b !! Z.to_nat (i / 8))) (Z.shiftl 1 (i mod 8)) =? 0)
    = negb (bm_used b i).
Proof.
  intros Hwf Hi. destruct (byte_lookup (bm_v b) (i / 8)) as [Hg Hb];
    [by apply bitmap_word_range|].
  split; [done|]. rewrite land_mask, Hb by dlia. unfold bm_used. do 2 f_equal. dlia.
Qed.

Lemma bitmap_mark_wp b i :
  bitmap_wf b → 0 ≤ i < bm_nbits b → bm_used b i = false →
  wp (bitmap_mark b i) (λ b', bitmap_wf b' ∧ bits_set b b' i).
Proof.
  intros Hwf Hi Hfree. destruct (bitmap_index b i) as [Hg Hl]; [done..|].
  unfold bitmap_mark. apply wp_bind, wp_kassert; [lia|].
  unfold bitmap_translate, BITS_PER_WORD. rewrite Hg. simpl.
  apply wp_bind, wp_kassert; [by rewrite Hl, Hfree|].
  apply wp_bind. eapply wp_mono; [apply bitmap_or_wp; [done|by apply bitmap_word_range|dlia]|].
  intros v'. by replace (i / 8 * 8 + i mod 8) with i by dlia.
Qed.

Lemma bitmap_unmark_wp b i :
  bitmap_wf b → 0 ≤ i < bm_nbits b → bm_used b i = true →
  wp (bitmap_unmark b i) (λ b', bitmap_wf b' ∧ bits_clear b b' i).
Proof.
  intros Hwf Hi Hfree. destruct (bitmap_index b i) as [Hg Hl]; [done..|].
  pose proof Hwf as (Hn & Hlen & Hv & Htail).
  unfold bitmap_unmark. apply wp_bind, wp_kassert; [lia|].
  unfold bitmap_translate, BITS_PER_WORD. rewrite Hg. simpl.
  apply wp_bind, wp_kassert; [by rewrite Hl, Hfree|].
  apply wp_bind. eapply wp_mono;
    [apply word_andnot_wp; [by apply bitmap_word_range|dlia|done]|].
  intros v' (Hl' & Hv' & Hb). replace (i / 8 * 8 + i mod 8) with i in Hb by dlia.
  unfold bitmap_wf, bits_clear, bm_used. simpl. rewrite Hl'. split_and!; try done; try lia.
  intros j Hj. rewrite Hb, (Htail j Hj : bit_of _ _ = _) by lia.
  by rewrite (proj2 (Z.eqb_neq _ _)) by lia.
Qed.

Lemma bitmap_isset_wp b i :
  bitmap_wf b → 0 ≤ i < bm_nbits b →
  wp (bitmap_isset b i) (λ r, negb (r =? 0) = bm_used b i).
Proof.
  intros Hwf Hi. destruct (bitmap_index b i) as [Hg Hl]; [done..|].
  unfold bitmap_isset, bitmap_translate, BITS_PER_WORD. rewrite Hg. simpl.
  rewrite Hl. apply negb_involutive.
Qed.

Lemma replicate0_default n i : default 0 (replicate n 0 !! i) = 0.
Proof. destruct (replicate n 0 !! i) eqn:E; [|done]. by apply lookup_replicate in E as [-> _]. Qed.

(** The leftover bits that [bitmap_create] sets in the last byte. *)
Lemma create_tail_wp n ix over :
  0 ≤ ix < Z.of_nat n → 0 < over < 8 →
  wp (for_each (Z.to_nat (8 - over)) over (λ j v, word_or v ix (Z.shiftl 1 j))
        (replicate n 0)) (λ v,
    length v = n ∧ Forall (λ w, 0 ≤ w < 256) v ∧
    ∀ i, 0 ≤ i → bit_of v i = (ix * 8 + over <=? i) && (i <? ix * 8 + 8)).
Proof.
  intros Hix Hover.
  eapply wp_mono; [apply (wp_for_each (λ j v,
    length v = n ∧ Forall (λ w, 0 ≤ w < 256) v ∧
    ∀ i, 0 ≤ i → bit_of v i = (ix * 8 + over <=? i) && (i <? ix * 8 + j)))|].
  - split_and!; [apply length_replicate|by apply Forall_replicate|].
    intros i Hi. unfold bit_of.
    rewrite replicate0_default, Z.bits_0. lia.
  - intros j v Hj (Hl & Hv & Hb).
    eapply wp_mono; [apply word_or_wp; [lia|lia|done]|].
    intros v' (Hl' & Hv' & Hb'). split_and!; [lia|done|].
    intros i Hi. rewrite Hb', Hb by done. lia.
  - intros v. by replace (over + Z.of_nat (Z.to_nat (8 - over))) with 8 by lia.
Qed.

Lemma bitmap_create_wp mem1 mem2 nbits :
  0 ≤ nbits < 4294967288 →
  wp (bitmap_create mem1 mem2 nbits) (λ r,
    if mem1 && mem2
    then ∃ b, r = Some b ∧ bm_nbits b = nbits ∧ bitmap_wf b ∧
              ∀ i, 0 ≤ i < nbits → bm_used b i = false
    else r = None).
Proof.
  intros Hn. unfold bitmap_create. destruct mem1; [|done]. destruct mem2; [|done].
  simpl. rewrite divroundup8 by done. unfold BITS_PER_WORD.
  destruct (Z.ltb_spec (nbits / 8) ((nbits + 7) / 8)).
  - rewrite !(u32_small ((nbits + 7) / 8 - 1)), !(u32_small (_ * 8)) by dlia.
    rewrite !(u32_small (nbits - _)) by dlia.
    apply wp_bind, wp_kassert; [apply Z.eqb_eq; dlia|].
    apply wp_bind, wp_kassert; [rewrite Z.gtb_ltb; apply andb_true_iff;
      split; apply Z.ltb_lt; dlia|].
    apply wp_bind. eapply wp_mono; [apply create_tail_wp; dlia|].
    intros v (Hl & Hv & Hb). simpl. eexists. split_and!; [done|done| |].
    + unfold bitmap_wf, bm_used. simpl. rewrite Hl. split_and!; [lia|lia|dlia|done|].
      intros i Hi. rewrite Hb by lia. apply andb_true_iff.
      split; [apply Z.leb_le|apply Z.ltb_lt]; dlia.
    + intros i Hi. unfold bm_used. simpl. rewrite Hb by lia.
      apply andb_false_iff. left. apply Z.leb_gt. dlia.
  - simpl. eexists. split_and!; [done|done| |].
    + unfold bitmap_wf. simpl. rewrite length_replicate. split_and!; [lia|lia|dlia| |].
      * by apply Forall_replicate.
      * intros i Hi. dlia.
    + intros i Hi. unfold bm_used, bit_of. simpl.
      by rewrite replicate0_default, Z.bits_0.
Qed.

Lemma word_or_andnot v ix k w :
  v !! Z.to_nat ix = Some w → 0 ≤ ix → 0 ≤ w < 256 → 0 ≤ k < 8 → Z.testbit w k = false →
  (v' ← word_or v ix (Z.shiftl 1 k); word_andnot v' ix (Z.shiftl 1 k)) = Done v.
Proof.
  intros Hw Hix Hr Hk Hb. assert (Z.to_nat ix < length v)%nat by by eapply lookup_lt_Some.
  unfold word_or, word_andnot. rewrite (arr_get_Some _ _ w) by done. simpl.
  rewrite arr_set_in by lia. simpl.
  rewrite (arr_get_Some _ _ _ Hix (list_lookup_insert_eq _ _ _ H)). simpl.
  rewrite arr_set_in by (rewrite length_insert; lia). f_equal.
  rewrite list_insert_insert_eq. apply list_insert_id. rewrite Hw. f_equal.
  apply Z.bits_inj'. intros n Hn. destruct (Z.ltb_spec n 8).
  - rewrite testbit_mod256, Z.land_spec, Z.lnot_spec, testbit_mod256, Z.lor_spec by lia.
    rewrite mask_testbit by lia. destruct (Z.eqb_spec k n) as [->|]; [by rewrite Hb|].
    by rewrite orb_false_r, andb_true_r.
  - change 256 with (2 ^ 8). rewrite Z.mod_pow2_bits_high by lia.
    rewrite <-(Z.mod_small w (2 ^ 8)) by lia. apply Z.mod_pow2_bits_high. lia.
Qed.

(** A fresh bitmap is well-formed and has every bit clear, the padding
    bits of its last byte excepted; without memory there is no bitmap. *)
Theorem bitmap_create_clear mem1 mem2 nbits :
  0 ≤ nbits < 4294967288 →
  wp (bitmap_create mem1 mem2 nbits) (λ r,
    if mem1 && mem2
    then ∃ b, r = Some b ∧ bm_nbits b = nbits ∧ bitmap_wf b ∧
              ∀ i, 0 ≤ i < nbits → bm_used b i = false
    else r = None).
Proof. apply bitmap_create_wp. Qed.

(** Marking a clear bit and unmarking it again gives back the very same
    bitmap; marking a bit already in use, or unmarking a clear one, panics. *)
Theorem bitmap_mark_unmark b i :
  bitmap_wf b → 0 ≤ i < bm_nbits b →
  if bm_used b i
  then bitmap_mark b i = Panic
  else bitmap_unmark b i = Panic ∧
       (b' ← bitmap_mark b i; bitmap_unmark b' i) = Done b.
Proof.
  intros Hwf Hi. destruct (bitmap_index b i) as [Hg Hl]; [done..|].
  pose proof (bitmap_word_range b i Hwf Hi) as Hr.
  destruct (bm_used b i) eqn:Hu.
  { unfold bitmap_mark, bitmap_translate, BITS_PER_WORD. rewrite Hg.
    rewrite (proj2 (Z.ltb_lt i _)) by lia. simpl. by rewrite Hl. }
  split.
  { unfold bitmap_unmark, bitmap_translate, BITS_PER_WORD. rewrite Hg.
    rewrite (proj2 (Z.ltb_lt i _)) by lia. simpl. by rewrite Hl. }
  destruct (proj1 (wp_Done _ _) (bitmap_mark_wp b i Hwf Hi Hu)) as (b' & Hm & Hwf' & Hn' & Hset).
  rewrite Hm. simpl. rewrite <-Hn' in Hi.
  destruct (bitmap_index b' i) as [Hg' Hl']; [done..|].
  rewrite Hset, Z.eqb_refl in Hl' by lia. simpl in Hl'. rewrite Hn' in Hi.
  unfold bitmap_unmark, bitmap_translate, BITS_PER_WORD. rewrite Hg'.
  rewrite Hn', (proj2 (Z.ltb_lt i _)) by lia. simpl. rewrite Hl'. simpl.
  unfold bitmap_mark, bitmap_translate, BITS_PER_WORD in Hm. rewrite Hg in Hm.
  rewrite (proj2 (Z.ltb_lt i _)) in Hm by lia. simpl in Hm. rewrite Hl in Hm. simpl in Hm.
  destruct (lookup_lt_is_Some_2 (bm_v b) (Z.to_nat (i / 8))) as [w Hw]; [lia|].
  assert (0 ≤ w < 256).
  { destruct Hwf as (_ & _ & Hv & _). by eapply (Forall_lookup_1 (λ w, 0 ≤ w < 256)). }
  assert (Z.testbit w (i mod 8) = false).
  { unfold bm_used, bit_of in Hu. by rewrite Hw in Hu. }
  opose proof (word_or_andnot (bm_v b) (i / 8) (i mod 8) w _ _ _ _ _) as Hrt;
    [done|lia|lia|dlia|done|].
  destruct (word_or _ _ _) as [v'| | |]; simpl in Hrt, Hm; try done.
  injection Hm as <-. simpl. rewrite Hrt. by destruct b.
Qed.

