(* ===== verification/Queue.v ===== *)
(** * kern/lib/queue.c: circular queues of pointers

    A queue of size [n] keeps at most [n-1] elements in a circular buffer and
    doubles the buffer when it is full.  The theorems show that it is a FIFO
    queue, what it guarantees without memory, and that the recursion between
    [q_addtail] and [q_grow] never nests. *)

From S2P Require Import Prelude.

(** struct queue *)
Record queue (A : Type) := mkQueue {
  q_size : Z;
  q_nextwrite : Z;
  q_nextread : Z;
  q_data : block A;
}.
Arguments mkQueue {A} _ _ _ _.
Arguments q_size {A} _.
Arguments q_nextwrite {A} _.
Arguments q_nextread {A} _.
Arguments q_data {A} _.

Section queue.
Context {A : Type}.
Implicit Types (q : queue A) (l : list A).

Definition q_empty q : bool := q_nextwrite q =? q_nextread q.

(** [(i+1) % size] *)
Definition q_next (i size : Z) : outcome Z := n ← to_int (i + 1); c_rem n size.

(** The body of [q_addtail], given the [q_grow] it calls. *)
Definition q_addtail_with (grow : queue A → Z → outcome (Z * queue A)) q (ptr : A)
    : outcome (Z * queue A) :=
  kassert (q_size q >? 0);;
  nextnext ← q_next (q_nextwrite q) (q_size q);
  '(result, q, nextnext) ←
    (if nextnext =? q_nextread q then
       target ← to_int (q_size q + 1);
       '(result, q') ← grow q target;
       if negb (result =? 0) then Done (result, q', nextnext) else
       nextnext ← q_next (q_nextwrite q') (q_size q');
       Done (0, q', nextnext)
     else Done (0, q, nextnext));
  if negb (result =? 0) then Done (result, q) else
  data' ← blk_set (q_data q) (q_nextwrite q) ptr;
  Done (0, mkQueue (q_size q) nextnext (q_nextread q) data').

(** [while (nsize < targetsize) { nsize *= 2; assert(nsize > 0); }] *)
Definition q_newsize (size targetsize : Z) : outcome Z :=
  while_loop (S (Z.to_nat (targetsize - size)))
    (λ nsize,
       if nsize <? targetsize then
         n ← to_int (nsize * 2);
         kassert (n >? 0);;
         Done (inl n)
       else Done (inr nsize)) size.

(** The body of [q_grow], given the [q_addtail] it calls; [mem] is the answer
    of its [kmalloc]. *)
Definition q_grow_with (addtail : queue A → A → outcome (Z * queue A)) (mem : bool)
    q (targetsize : Z) : outcome (Z * queue A) :=
  let olddata := q_data q in
  let onr := q_nextread q in
  let onw := q_nextwrite q in
  let osize := q_size q in
  nsize ← q_newsize (q_size q) targetsize;
  if negb mem then Done (ENOMEM, q) else
  let q1 := mkQueue nsize 0 0 (ptr_block (u32 (nsize * 4))) in
  q2 ← while_loop (S (Z.to_nat osize))
    (λ '(i, q),
       if i =? onw then Done (inr q) else
       x ← blk_get olddata i;
       '(result, q') ← addtail q x;
       kassert (result =? 0);;
       i' ← q_next i osize;
       Done (inl (i', q'))) (onr, q1);
  Done (0, q2).

(** The two functions call each other; [depth] bounds the nesting. *)
Fixpoint q_addtail_n (depth : nat) (mem : bool) q (ptr : A) : outcome (Z * queue A) :=
  match depth with
  | O => NoFuel
  | S d => q_addtail_with (q_grow_with (q_addtail_n d mem) mem) q ptr
  end.

Definition q_addtail (mem : bool) q (ptr : A) : outcome (Z * queue A) :=
  q_addtail_n 2 mem q ptr.

Definition q_grow (mem : bool) q (targetsize : Z) : outcome (Z * queue A) :=
  q_grow_with (q_addtail_n 1 mem) mem q targetsize.

Definition q_create (mem1 mem2 : bool) (size : Z) : option (queue A) :=
  if negb mem1 then None else
  if negb mem2 then None else
  Some (mkQueue size 0 0 (ptr_block (u32 (size * 4)))).

Definition q_preallocate (mem : bool) q (size : Z) : outcome (Z * queue A) :=
  kassert (q_size q >? 0);;
  if size >? q_size q then q_grow mem q size else Done (0, q).

Definition q_remhead q : outcome (A * queue A) :=
  kassert (q_size q >? 0);;
  kassert (negb (q_empty q));;
  ret ← blk_get (q_data q) (q_nextread q);
  nr ← q_next (q_nextread q) (q_size q);
  Done (ret, mkQueue (q_size q) (q_nextwrite q) nr (q_data q)).

(** [q_top] reads the element as a pointer to [int]; [load] is the read. *)
Definition q_top (load : A → outcome Z) q : outcome Z :=
  kassert (q_size q >? 0);;
  ret ← blk_get (q_data q) (q_nextread q);
  load ret.

Definition q_destroy q : outcome unit := kassert (q_empty q).

Definition q_getstart q : Z := q_nextread q.
Definition q_getend q : Z := q_nextwrite q.
Definition q_getsize q : Z := q_size q.

Definition q_getguy q (index : Z) : outcome A :=
  kassert ((index >=? 0) && (index <? q_size q));;
  blk_get (q_data q) index.

(** ** The list a queue stands for, oldest element first *)

Definition queue_repr q l : Prop :=
  0 < q_size q < 1073741824 ∧
  Z.of_nat (length (q_data q)) = q_size q ∧
  0 ≤ q_nextread q < q_size q ∧
  Z.of_nat (length l) < q_size q ∧
  q_nextwrite q = (q_nextread q + Z.of_nat (length l)) mod q_size q ∧
  ∀ k x, l !! k = Some x →
    q_data q !! Z.to_nat ((q_nextread q + Z.of_nat k) mod q_size q) = Some (Some x).

Lemma q_next_eq i size :
  0 ≤ i < size → size < 1073741824 → q_next i size = Done ((i + 1) mod size).
Proof.
  intros. unfold q_next. destruct (proj1 (wp_Done _ _) (wp_to_int (i + 1) (eq (i + 1))
    ltac:(unfold INT_MIN, INT_MAX; lia) eq_refl)) as (z & -> & <-). simpl.
  apply c_rem_pos; lia.
Qed.

Lemma queue_repr_nw q l : queue_repr q l → 0 ≤ q_nextwrite q < q_size q.
Proof. intros (? & _ & _ & _ & -> & _). apply Z.mod_pos_bound. lia. Qed.

(** A queue stands for one list only. *)
Lemma queue_repr_det q l l' : queue_repr q l → queue_repr q l' → l = l'.
Proof.
  intros (Hs & _ & Hr & Hl & Hw & Hd) (_ & _ & _ & Hl' & Hw' & Hd').
  assert (length l = length l') as Hlen.
  { rewrite Hw in Hw'. apply Nat2Z.inj. rewrite <-(Z.mod_small (Z.of_nat (length l)) (q_size q)),
      <-(Z.mod_small (Z.of_nat (length l')) (q_size q)) by lia.
    replace (Z.of_nat (length l)) with (q_nextread q + Z.of_nat (length l) - q_nextread q) by lia.
    replace (Z.of_nat (length l')) with (q_nextread q + Z.of_nat (length l') - q_nextread q) by lia.
    by rewrite <-Zminus_mod_idemp_l, Hw', Zminus_mod_idemp_l. }
  apply list_eq_same_length with (length l); [done|done|]. intros i x y Hi Hx Hy.
  apply Hd in Hx. apply Hd' in Hy. congruence.
Qed.

(** The buffer is full exactly when the list fills all cells but one. *)
Lemma queue_repr_full q l :
  queue_repr q l →
  ((q_nextwrite q + 1) mod q_size q =? q_nextread q) =
    bool_decide (Z.of_nat (length l) + 1 = q_size q).
Proof.
  intros (Hs & Hlen & Hnr & Hl & Hnw & _). rewrite Hnw, ring_step by lia.
  case_bool_decide as Hf.
  - apply Z.eqb_eq. rewrite Hf. replace (q_nextread q + q_size q) with
      (q_nextread q + 1 * q_size q) by lia. rewrite Z.mod_add by lia.
    apply Z.mod_small. lia.
  - apply Z.eqb_neq. intros H. apply Hf. exfalso.
    assert (Z.of_nat (length l) + 1 = 0); [|lia].
    apply (ring_inj (q_nextread q) _ _ (q_size q)); [lia|lia|].
    rewrite H, Z.add_0_r. symmetry. apply Z.mod_small. lia.
Qed.

Lemma queue_repr_empty q l : queue_repr q l → q_empty q = bool_decide (l = []).
Proof.
  intros (Hs & Hlen & Hnr & Hl & Hnw & _). unfold q_empty. rewrite Hnw.
  case_bool_decide as He.
  - subst. simpl. rewrite Z.add_0_r, Z.mod_small by lia. apply Z.eqb_refl.
  - apply Z.eqb_neq. intros H. apply He, nil_length_inv.
    assert (Z.of_nat (length l) = 0); [|lia].
    apply (ring_inj (q_nextread q) _ _ (q_size q)); [lia|lia|].
    rewrite H, Z.add_0_r. symmetry. apply Z.mod_small. lia.
Qed.

(** Storing at [nextwrite] and advancing it appends to the list. *)
Lemma queue_repr_store q l x :
  queue_repr q l → Z.of_nat (length l) + 1 < q_size q →
  queue_repr (mkQueue (q_size q) ((q_nextwrite q + 1) mod q_size q) (q_nextread q)
    (<[Z.to_nat (q_nextwrite q) := Some x]> (q_data q))) (l ++ [x]).
Proof.
  intros Hr Hroom. pose proof (queue_repr_nw q l Hr) as Hw.
  destruct Hr as (Hs & Hlen & Hnr & Hl & Hnw & Hd).
  unfold queue_repr. simpl. rewrite length_insert, length_app. simpl.
  split_and!; try lia.
  - rewrite Hnw, ring_step by lia. f_equal. lia.
  - intros k y Hk. apply lookup_app_Some in Hk as [Hk|[Hk1 Hk2]].
    + assert (k < length l)%nat by by eapply lookup_lt_Some.
      rewrite list_lookup_insert_ne; [by apply Hd|]. intros Heq.
      apply Z2Nat.inj in Heq; [|lia|apply Z.mod_pos_bound; lia].
      rewrite Hnw in Heq. apply ring_inj in Heq; lia.
    + apply list_lookup_singleton_Some in Hk2 as [? <-].
      assert (k = length l) as -> by lia. rewrite <-Hnw.
      apply list_lookup_insert_eq. lia.
Qed.

Lemma q_addtail_room grow q l x :
  queue_repr q l → Z.of_nat (length l) + 1 < q_size q →
  wp (q_addtail_with grow q x)
     (λ '(r, q'), r = 0 ∧ q_size q' = q_size q ∧ queue_repr q' (l ++ [x])).
Proof.
  intros Hr Hroom. pose proof (queue_repr_nw q l Hr) as Hw.
  pose proof (queue_repr_full q l Hr) as Hf. rewrite bool_decide_false in Hf by lia.
  pose proof Hr as (Hs & Hlen & Hnr & Hl & Hnw & Hd).
  unfold q_addtail_with. apply wp_bind, wp_kassert; [lia|].
  rewrite q_next_eq by lia. simpl. rewrite Hf. simpl.
  rewrite blk_set_in by lia. simpl. split_and!; [done|done|].
  by apply queue_repr_store.
Qed.

Lemma q_newsize_wp size target :
  0 < size < 1073741824 → target < 536870912 →
  wp (q_newsize size target) (λ n, room_for size target n ∧ n < 1073741824).
Proof.
  intros Hs Ht. unfold q_newsize, room_for.
  apply (wp_while_loop (λ n, size ≤ n < 1073741824 ∧ n ≤ Z.max size (2 * target) ∧ (target ≤ size → n = size)) _
    (λ n, Z.max 0 (target - n))); [lia|lia|lia|].
  intros n [Hn Hsame]. destruct (Z.ltb_spec n target).
  - apply wp_bind, wp_to_int; [unfold INT_MIN, INT_MAX; lia|].
    apply wp_bind, wp_kassert; [lia|]. simpl. lia.
  - simpl. lia.
Qed.

Lemma queue_repr_new nsize :
  0 < nsize < 1073741824 → queue_repr (mkQueue nsize 0 0 (ptr_block (u32 (nsize * 4)))) [].
Proof.
  intros. unfold queue_repr, ptr_block. simpl.
  rewrite length_replicate, u32_small, Z.div_mul by lia.
  split_and!; try lia; [by rewrite Zmod_0_l|done].
Qed.

(** The copy loop of [q_grow] transfers the elements in order; there is room
    for all of them, so the inner [q_addtail] never grows the queue. *)
Lemma q_grow_copy_wp grow q l nsize :
  queue_repr q l → q_size q ≤ nsize < 1073741824 →
  wp (while_loop (S (Z.to_nat (q_size q)))
    (λ '(i, q'),
       if i =? q_nextwrite q then Done (inr q') else
       x ← blk_get (q_data q) i;
       '(result, q'') ← q_addtail_with grow q' x;
       kassert (result =? 0);;
       i' ← q_next i (q_size q);
       Done (inl (i', q'')))
    (q_nextread q, mkQueue nsize 0 0 (ptr_block (u32 (nsize * 4)))))
  (λ q', q_size q' = nsize ∧ queue_repr q' l).
Proof.
  intros Hr Hn. pose proof Hr as (Hs & Hlen & Hnr & Hl & Hnw & Hd).
  apply (wp_while_loop
    (λ '(i, q'), q_size q' = nsize ∧ ∃ k, (k ≤ length l)%nat ∧
       i = (q_nextread q + Z.of_nat k) mod q_size q ∧ queue_repr q' (take k l)) _
    (λ '(i, q'), Z.of_nat (length l) - (i - q_nextread q) mod q_size q)).
  - split; [done|]. exists 0%nat. split_and!; [lia| |apply queue_repr_new; lia].
    rewrite Z.add_0_r, Z.mod_small by lia. done.
  - rewrite Z.sub_diag, Zmod_0_l. lia.
  - intros [i q'] (_ & k & Hk & -> & _).
    rewrite Zminus_mod_idemp_l, Z.add_simpl_l, Z.mod_small by lia. lia.
  - intros [i q'] (Hsz & k & Hk & -> & Hr').
    rewrite Hnw. destruct (Z.eqb_spec ((q_nextread q + Z.of_nat k) mod q_size q)
      ((q_nextread q + Z.of_nat (length l)) mod q_size q)) as [Heq|Hne].
    { apply ring_inj in Heq; [|lia|lia]. simpl. split; [done|].
      rewrite take_ge in Hr' by lia. done. }
    assert (k < length l)%nat as Hk'.
    { destruct (decide (k = length l)) as [->|]; [done|lia]. }
    destruct (lookup_lt_is_Some_2 l k Hk') as [x Hx].
    apply wp_bind. rewrite (blk_get_Some _ _ x);
      [|apply Z.mod_pos_bound; lia|by apply Hd]. simpl.
    apply wp_bind. eapply wp_mono; [apply q_addtail_room; [done|]|].
    { rewrite length_take, Hsz. lia. }
    intros [r q''] (-> & Hsz' & Hr''). simpl.
    rewrite q_next_eq by (try apply Z.mod_pos_bound; lia). simpl.
    rewrite ring_step by lia. split; [split; [congruence|]|].
    + exists (S k). split_and!; [lia|f_equal; lia|]. by erewrite take_S_r.
    + rewrite Zminus_mod_idemp_l, Z.add_simpl_l, Z.mod_small by lia.
      rewrite Zminus_mod_idemp_l, Z.add_simpl_l, Z.mod_small by lia. lia.
Qed.

Lemma q_grow_wp d mem q l target :
  queue_repr q l → target < 536870912 →
  wp (q_grow_with (q_addtail_n (S d) mem) mem q target) (λ '(r, q'),
    if mem then r = 0 ∧ room_for (q_size q) target (q_size q') ∧ queue_repr q' l
    else r = ENOMEM ∧ q' = q).
Proof.
  intros Hr Ht. pose proof Hr as (Hs & _). unfold q_grow_with.
  apply wp_bind. eapply wp_mono; [apply q_newsize_wp; lia|].
  intros n [Hn1 Hn2]. destruct mem; simpl; [|done].
  apply wp_bind. eapply wp_mono; [apply q_grow_copy_wp; [done|destruct Hn1; lia]|].
  intros q' [<- ?]. by simpl.
Qed.

Lemma q_addtail_wp mem q l x :
  queue_repr q l → q_size q < 536870911 →
  wp (q_addtail mem q x) (λ '(r, q'),
    if bool_decide (Z.of_nat (length l) + 1 < q_size q) || mem
    then r = 0 ∧ room_for (q_size q) (Z.of_nat (length l) + 2) (q_size q') ∧ queue_repr q' (l ++ [x])
    else r = ENOMEM ∧ q' = q).
Proof.
  intros Hr Hs. pose proof (queue_repr_nw q l Hr) as Hw.
  pose proof Hr as (Hs' & Hlen & Hnr & Hl & Hnw & Hd).
  unfold q_addtail. case_bool_decide as Hroom; simpl orb; cbv iota.
  { eapply wp_mono; [by apply q_addtail_room|]. intros [r q'] (-> & -> & ?). unfold room_for. split_and!; done || lia. }
  pose proof (queue_repr_full q l Hr) as Hf. rewrite bool_decide_true in Hf by lia.
  unfold q_addtail_n at 1. fold q_addtail_n. unfold q_addtail_with.
  apply wp_bind, wp_kassert; [lia|].
  rewrite q_next_eq by lia. simpl. rewrite Hf.
  apply wp_bind. apply wp_bind, wp_to_int; [unfold INT_MIN, INT_MAX; lia|].
  apply wp_bind. eapply wp_mono; [apply (q_grow_wp 0); [done|lia]|].
  intros [r q']. destruct mem; [|intros [-> ->]; done].
  intros (-> & Hroom' & Hr'). simpl.
  pose proof (queue_repr_nw q' l Hr') as Hw'. pose proof Hr' as (Hs'' & Hlen' & _).
  rewrite q_next_eq by lia. simpl. rewrite blk_set_in by lia. simpl.
  replace (q_size q + 1) with (Z.of_nat (length l) + 2) in Hroom' by lia. split_and!; [done|by apply Hroom'..|].
  apply queue_repr_store; [done|]. destruct Hroom'. lia.
Qed.

Lemma q_addtail_short_wp mem q l x :
  queue_repr q l → Z.of_nat (length l) < 536870910 →
  wp (q_addtail mem q x) (λ '(r, q'),
    if bool_decide (Z.of_nat (length l) + 1 < q_size q) || mem
    then r = 0 ∧ room_for (q_size q) (Z.of_nat (length l) + 2) (q_size q') ∧ queue_repr q' (l ++ [x])
    else r = ENOMEM ∧ q' = q).
Proof.
  intros Hr Hl. destruct (decide (Z.of_nat (length l) + 1 < q_size q)) as [Hroom|].
  - rewrite bool_decide_true by done. eapply wp_mono; [by apply q_addtail_room|].
    intros [r q'] (-> & -> & ?). unfold room_for. split_and!; done || lia.
  - apply q_addtail_wp; [done|]. lia.
Qed.

Lemma q_remhead_wp q x l :
  queue_repr q (x :: l) →
  wp (q_remhead q) (λ '(y, q'), y = x ∧ q_size q' = q_size q ∧ queue_repr q' l).
Proof.
  intros Hr. pose proof (queue_repr_empty _ _ Hr) as He.
  destruct Hr as (Hs & Hlen & Hnr & Hl & Hnw & Hd). unfold q_remhead.
  apply wp_bind, wp_kassert; [lia|]. apply wp_bind, wp_kassert; [by rewrite He|].
  simpl in *. assert (q_data q !! Z.to_nat (q_nextread q) = Some (Some x)) as Hx.
  { specialize (Hd 0%nat x eq_refl). by rewrite Z.add_0_r, Z.mod_small in Hd by lia. }
  rewrite (blk_get_Some _ _ x) by (done || lia). simpl.
  rewrite q_next_eq by lia. simpl. split_and!; [done|done|].
  unfold queue_repr. simpl. split_and!; try lia; try (apply Z.mod_pos_bound; lia).
  - rewrite Hnw, Zplus_mod_idemp_l. f_equal. lia.
  - intros k y Hk. rewrite Zplus_mod_idemp_l.
    replace (q_nextread q + 1 + Z.of_nat k) with (q_nextread q + Z.of_nat (S k)) by lia.
    by apply Hd.
Qed.

(** ** The FIFO specification *)

(** The calls of queue.h that callers make on a queue (the debugging ones
    apart). *)
Inductive queue_op :=
| QAdd (mem : bool) (x : A)
| QRem
| QEmpty
| QSize
| QReserve (mem : bool) (n : Z).

(** The answer of a call: a number (of a test, 1 or 0), or the element removed. *)
Inductive queue_ans := AnsCode (r : Z) | AnsGuy (x : A).

Definition queue_exec q (op : queue_op) : outcome (queue_ans * queue A) :=
  match op with
  | QAdd mem x => '(r, q') ← q_addtail mem q x; Done (AnsCode r, q')
  | QRem => '(x, q') ← q_remhead q; Done (AnsGuy x, q')
  | QEmpty => Done (AnsCode (if q_empty q then 1 else 0), q)
  | QSize => Done (AnsCode (q_getsize q), q)
  | QReserve mem n => '(r, q') ← q_preallocate mem q n; Done (AnsCode r, q')
  end.

(** A FIFO queue with its size, one more than the elements it has room for.
    Only a call that needs more room can fail, only with ENOMEM, only without
    memory, and then nothing changes. *)
Inductive fifo_step : list A * Z → queue_op → queue_ans → list A * Z → Prop :=
| FAdd l n n' mem x :
    Z.of_nat (length l) + 1 < n ∨ mem = true → room_for n (Z.of_nat (length l) + 2) n' →
    fifo_step (l, n) (QAdd mem x) (AnsCode 0) (l ++ [x], n')
| FAddFail l n x :
    Z.of_nat (length l) + 1 = n → fifo_step (l, n) (QAdd false x) (AnsCode ENOMEM) (l, n)
| FRem x l n : fifo_step (x :: l, n) QRem (AnsGuy x) (l, n)
| FEmpty l n : fifo_step (l, n) QEmpty (AnsCode (match l with [] => 1 | _ => 0 end)) (l, n)
| FSize l n : fifo_step (l, n) QSize (AnsCode n) (l, n)
| FReserve l n n' mem k :
    k ≤ n ∨ mem = true → room_for n k n' →
    fifo_step (l, n) (QReserve mem k) (AnsCode 0) (l, n')
| FReserveFail l n k :
    n < k → fifo_step (l, n) (QReserve false k) (AnsCode ENOMEM) (l, n).

(** Sizes below the limit at which the byte count of the buffer would wrap, and
    no removal from an empty queue. *)
Definition queue_guard l (op : queue_op) : Prop :=
  match op with
  | QAdd _ _ => Z.of_nat (length l) < 536870910
  | QRem => l ≠ []
  | QReserve _ n => n < 536870912
  | _ => True
  end.

Lemma q_preallocate_wp mem q l n :
  queue_repr q l → n < 536870912 →
  wp (q_preallocate mem q n) (λ '(r, q'), queue_repr q' l ∧
    if bool_decide (n ≤ q_size q) || mem
    then r = 0 ∧ room_for (q_size q) n (q_size q')
    else r = ENOMEM ∧ q' = q).
Proof.
  intros Hr Hn. pose proof Hr as (Hs & _). unfold q_preallocate.
  apply wp_bind, wp_kassert; [lia|]. rewrite Z.gtb_ltb.
  destruct (Z.ltb_spec (q_size q) n).
  - rewrite bool_decide_false by lia. eapply wp_mono; [by apply (q_grow_wp 0)|].
    intros [r q']. destruct mem; simpl; [|by intros [-> ->]].
    by intros (-> & ? & ?).
  - rewrite bool_decide_true by lia. simpl. unfold room_for. split_and!; lia || done.
Qed.

Lemma q_remhead_empty q : queue_repr q [] → q_remhead q = Panic.
Proof.
  intros Hr. pose proof (queue_repr_empty _ _ Hr) as He. destruct Hr as (Hs & _).
  unfold q_remhead. rewrite He, Z.gtb_ltb, (proj2 (Z.ltb_lt _ _)) by lia. done.
Qed.

(** The calls for debugging, with which a caller can walk through the queue:
    the [k]th element lies [k] cells after the start, around the buffer. *)
Lemma q_walk q l k x :
  queue_repr q l → l !! k = Some x →
  q_getguy q ((q_getstart q + Z.of_nat k) mod q_getsize q) = Done x.
Proof.
  intros (Hs & Hlen & Hnr & Hl & Hnw & Hd) Hk. unfold q_getguy, q_getstart, q_getsize.
  pose proof (Z.mod_pos_bound (q_nextread q + Z.of_nat k) (q_size q) ltac:(lia)).
  rewrite Z.geb_leb, (proj2 (Z.leb_le _ _)), (proj2 (Z.ltb_lt _ _)) by lia. simpl.
  apply blk_get_Some; [lia|by apply Hd].
Qed.

Lemma q_top_eq load q x l : queue_repr q (x :: l) → q_top load q = load x.
Proof.
  intros (Hs & Hlen & Hnr & Hl & Hnw & Hd). unfold q_top.
  rewrite Z.gtb_ltb, (proj2 (Z.ltb_lt _ _)) by lia. simpl.
  rewrite (blk_get_Some _ _ x); [done|lia|].
  specialize (Hd 0%nat x eq_refl). by rewrite Z.add_0_r, Z.mod_small in Hd by lia.
Qed.

End queue.

(** [C31] Queues are FIFO queues.  q_create gives an empty queue of the size
    asked for, or NULL when either allocation fails.  On a queue that stands for
    the list [l] (oldest element first): q_empty tells whether [l] is empty,
    q_getsize the size, q_addtail appends, q_remhead takes the oldest element
    and panics when there is none, q_preallocate makes room.  An append needs
    memory exactly when the list fills all cells but one, a reservation when it
    asks for more than the size; the size then at least doubles, at most to
    twice what is needed, and the elements keep their order however they wrap
    around the buffer.  Without memory such a call answers ENOMEM and changes
    nothing.  q_top looks at the oldest element; the debugging calls
    q_getstart, q_getend and q_getguy walk through the list; q_destroy panics
    unless the queue is empty. *)
Theorem queue_simulates_fifo {A} :
  (∀ m1 m2 n, 0 < n < 1073741824 →
     match q_create (A:=A) m1 m2 n with
     | Some q => m1 = true ∧ m2 = true ∧ queue_repr q [] ∧ q_size q = n
     | None => m1 = false ∨ m2 = false
     end) ∧
  ∀ (q : queue A) l, queue_repr q l →
    (∀ op, queue_guard l op → wp (queue_exec q op) (λ '(ans, q'), ∃ l',
       fifo_step (l, q_size q) op ans (l', q_size q') ∧ queue_repr q' l')) ∧
    (l = [] → queue_exec q QRem = Panic) ∧
    (∀ load x l', l = x :: l' → q_top load q = load x) ∧
    q_destroy q = (if decide (l = []) then Done tt else Panic) ∧
    q_getend q = (q_getstart q + Z.of_nat (length l)) mod q_getsize q ∧
    ∀ k x, l !! k = Some x → q_getguy q ((q_getstart q + Z.of_nat k) mod q_getsize q) = Done x.
Proof.
  split.
  { intros m1 m2 n Hn. destruct m1, m2; cbn; auto. split_and!; [done|done|by apply queue_repr_new|done]. }
  intros q l Hr. pose proof Hr as (Hs & _ & _ & Hl & Hnw & _). split_and!.
  - intros [mem x| | | |mem n] Hg; simpl in *; try apply wp_bind.
    + eapply wp_mono; [by apply q_addtail_short_wp|]. intros [r q'].
      case_bool_decide; destruct mem; simpl; [intros (-> & ? & ?)..|intros [-> ->]];
        eexists; (split; [|done]); constructor; auto; lia.
    + destruct l as [|x l]; [done|]. eapply wp_mono; [by apply q_remhead_wp|].
      intros [y q'] (-> & Hsz & ?). simpl. rewrite Hsz. eauto using fifo_step.
    + exists l. rewrite (queue_repr_empty _ _ Hr). split; [|done].
      destruct l; [apply (FEmpty [])|apply (FEmpty (_ :: _))].
    + exists l. split; [apply FSize|done].
    + eapply wp_mono; [by apply q_preallocate_wp|]. intros [r q'] [Hr' H]. revert H.
      case_bool_decide; destruct mem; simpl; [intros [-> ?]..|intros [-> ->]];
        exists l; (split; [|done]); constructor; auto; lia.
  - intros ->. cbn. by rewrite q_remhead_empty.
  - intros load x l' ->. by eapply q_top_eq.
  - unfold q_destroy. rewrite (queue_repr_empty _ _ Hr). by case_bool_decide; case_decide.
  - done.
  - intros k x. by apply q_walk.
Qed.

Lemma queue_simulates_fifo_witness :
  wp (queue_exec (mkQueue 3 1 2 [Some 8; None; Some 7]) (QAdd true 9)) (λ '(ans, q'),
    ∃ l', fifo_step ([7; 8], 3) (QAdd true 9) ans (l', q_size q') ∧ queue_repr q' l').
Proof.
  apply (proj2 (queue_simulates_fifo (A:=Z)) (mkQueue 3 1 2 [Some 8; None; Some 7])); [|simpl; lia].
  unfold queue_repr. simpl. split_and!; try lia; try done.
  intros [|[|k]] x; simpl; intros [=<-]; done.
Defined.

(** Appends none of which can allocate. *)
Fixpoint q_addtail_all {A} (q : queue A) (xs : list A) : outcome (Z * queue A) :=
  match xs with
  | [] => Done (0, q)
  | x :: xs' =>
      '(r, q') ← q_addtail false q x;
      if negb (r =? 0) then Done (r, q') else q_addtail_all q' xs'
  end.

Lemma q_addtail_all_room {A} (q : queue A) l xs :
  queue_repr q l → Z.of_nat (length l + length xs) < q_size q →
  wp (q_addtail_all q xs)
     (λ '(r, q'), r = 0 ∧ q_size q' = q_size q ∧ queue_repr q' (l ++ xs)).
Proof.
  revert q l. induction xs as [|x xs IH]; intros q l Hr Hroom; simpl in *.
  { by rewrite app_nil_r. }
  apply wp_bind. eapply wp_mono; [apply (q_addtail_room _ _ l); [done|lia]|].
  intros [r q'] (-> & Hsz & Hr'). simpl. rewrite <-Hsz.
  replace (l ++ x :: xs) with ((l ++ [x]) ++ xs) by by rewrite <-app_assoc.
  apply IH; [done|]. rewrite length_app. simpl. lia.
Qed.

(** What a reservation buys.  After a successful [q_preallocate(q, n)],
    appends need no memory as long as the queue holds at most [n-1] elements
    in all; and the bound is exact: a queue that already holds one element
    less than its size cannot take another one without memory, so a
    reservation for [n] elements must ask for [n+1]. *)
Theorem q_reservation {A} (q : queue A) l n :
  queue_repr q l → n < 536870912 →
  wp (q_preallocate true q n) (λ '(r, q'), r = 0 ∧ queue_repr q' l ∧
    (∀ xs, Z.of_nat (length l + length xs) < n →
       wp (q_addtail_all q' xs) (λ '(r2, q2), r2 = 0 ∧ queue_repr q2 (l ++ xs))) ∧
    (∀ x, q_size q' < 536870911 → Z.of_nat (length l) + 1 = q_size q' →
       q_addtail false q' x = Done (ENOMEM, q'))).
Proof.
  intros Hr Hn. eapply wp_mono; [by apply q_preallocate_wp|].
  intros [r q'] [Hr' H]. rewrite orb_true_r in H. destruct H as (-> & _ & [Hge _] & _).
  split_and!; [done|done| |].
  - intros xs Hxs. eapply wp_mono; [apply q_addtail_all_room; [done|lia]|].
    intros [r2 q2]. tauto.
  - intros x Hmax Hfull. apply wp_eq. eapply wp_mono; [by apply q_addtail_wp|].
    intros [r2 q2]. rewrite bool_decide_false by lia. simpl. by intros [-> ->].
Qed.

