(* ===== verification/Copyinout.v ===== *)
(** * kern/lib/copyinout.c: copying between the kernel and user space

    User memory maps the addresses that can be accessed to bytes; touching any
    other user address faults.  Touching an address at or above [USERTOP] is
    an access to the kernel's own memory: it is undefined in the model, so a
    theorem that a call returns shows that it never does.  The theorems give
    the exact result of every call, for any pointer and any length a user
    program may pass. *)

From S2P Require Import Prelude.

Definition USERTOP : Z := 2147483648.

Abbreviation umem := (gmap Z Z).

(** One byte of user memory; [None] is a fault. *)
Definition user_load (m : umem) (a : Z) : outcome (option Z) :=
  if (a <? 0) || (USERTOP <=? a) then Undef else Done (m !! a).

Definition user_store (m : umem) (a v : Z) : outcome (option umem) :=
  if (a <? 0) || (USERTOP <=? a) then Undef else
  Done (match m !! a with Some _ => Some (<[a := v]> m) | None => None end).

(** One byte of a kernel buffer; it does not fault. *)
Definition kbuf_load (b : list Z) (i : Z) : outcome (option Z) :=
  v ← arr_get b i; Done (Some v).

Definition kbuf_store (b : list Z) (i v : Z) : outcome (option (list Z)) :=
  b' ← arr_set b i v; Done (Some b').

(** What mips_trap does with a fatal fault in kernel mode: it resumes at
    [pcb_badfaultfunc] ([copyfail], which jumps back to the [setjmp]) when
    that is set, and panics when it is not. *)
Definition fatal_kernel_fault (badfaultfunc : bool) : outcome unit :=
  if badfaultfunc then Done tt else Panic.

Definition copycheck (userptr len : Z) : Z * Z :=
  let bot := userptr in
  let top := u32 (bot + len - 1) in
  if top <? bot then (EFAULT, len) else
  if bot >=? USERTOP then (EFAULT, len) else
  if top >=? USERTOP then (0, USERTOP - bot) else (0, len).

Section transfer.
Context {St : Type} (ld : St → Z → outcome (option Z))
        (st : St → Z → Z → outcome (option St)).

(** One byte from the source to the destination; [None] is a fault. *)
Definition copy_byte (i : Z) (s : St) : outcome (option (Z * St)) :=
  c ← ld s i;
  match c with
  | None => Done None
  | Some v =>
      s' ← st s i v;
      Done (match s' with Some s' => Some (v, s') | None => None end)
  end.

(** [memcpy]: bytes in ascending order; [inr] is the state at a fault. *)
Definition memcpy (len : Z) (s : St) : outcome (St + St) :=
  for_loop (Z.to_nat len) 0
    (λ i s, r ← copy_byte i s;
       Done (match r with Some (_, s') => inl s' | None => inr s end)) s.

(** How [copystr] ends: with a result code and the length found, or at a
    fault. *)
Inductive copystr_end :=
| StrDone (result : Z) (gotlen : option Z)
| StrFault.

Definition copystr (maxlen stoplen : Z) (s : St) : outcome (copystr_end * St) :=
  r ← for_loop (Z.to_nat (Z.min maxlen stoplen)) 0
    (λ i s, r ← copy_byte i s;
       Done (match r with
             | Some (v, s') =>
                 if v =? 0 then inr (StrDone 0 (Some (i + 1)), s') else inl s'
             | None => inr (StrFault, s)
             end)) s;
  Done (match r with
        | inr e => e
        | inl s' => (StrDone (if stoplen <? maxlen then EFAULT else ENAMETOOLONG) None, s')
        end).
End transfer.

(** The calls take and return [pcb_badfaultfunc] (set or not). *)
Definition copyin (m : umem) (bff : bool) (usersrc : Z) (dest : list Z) (pos len : Z)
    : outcome (Z * list Z * bool) :=
  let '(result, stoplen) := copycheck usersrc len in
  if negb (result =? 0) then Done (result, dest, bff) else
  if negb (stoplen =? len) then Done (EFAULT, dest, bff) else
  let bff := true in
  r ← memcpy (λ _ i, user_load m (usersrc + i)) (λ d i v, kbuf_store d (pos + i) v) len dest;
  match r with
  | inl dest' => Done (0, dest', false)
  | inr dest' => fatal_kernel_fault bff;; Done (EFAULT, dest', false)
  end.

Definition copyout (m : umem) (bff : bool) (src : list Z) (pos userdest len : Z)
    : outcome (Z * umem * bool) :=
  let '(result, stoplen) := copycheck userdest len in
  if negb (result =? 0) then Done (result, m, bff) else
  if negb (stoplen =? len) then Done (EFAULT, m, bff) else
  let bff := true in
  r ← memcpy (λ _ i, kbuf_load src (pos + i)) (λ m i v, user_store m (userdest + i) v) len m;
  match r with
  | inl m' => Done (0, m', false)
  | inr m' => fatal_kernel_fault bff;; Done (EFAULT, m', false)
  end.

Definition copyinstr (m : umem) (bff : bool) (usersrc : Z) (dest : list Z) (len : Z)
    : outcome (Z * option Z * list Z * bool) :=
  let '(result, stoplen) := copycheck usersrc len in
  if negb (result =? 0) then Done (result, None, dest, bff) else
  let bff := true in
  r ← copystr (λ _ i, user_load m (usersrc + i)) (λ d i v, kbuf_store d i v) len stoplen dest;
  match r with
  | (StrDone result actual, dest') => Done (result, actual, dest', false)
  | (StrFault, dest') => fatal_kernel_fault bff;; Done (EFAULT, None, dest', false)
  end.

Definition copyoutstr (m : umem) (bff : bool) (src : list Z) (userdest len : Z)
    : outcome (Z * option Z * umem * bool) :=
  let '(result, stoplen) := copycheck userdest len in
  if negb (result =? 0) then Done (result, None, m, bff) else
  let bff := true in
  r ← copystr (λ _ i, kbuf_load src i) (λ m i v, user_store m (userdest + i) v) len stoplen m;
  match r with
  | (StrDone result actual, m') => Done (result, actual, m', false)
  | (StrFault, m') => fatal_kernel_fault bff;; Done (EFAULT, None, m', false)
  end.

(** ** Specifications *)

(** The region of [len] bytes at [a] lies in user space. *)
Definition user_region (a len : Z) : Prop := 0 < len ∧ a + len ≤ USERTOP.

(** Its bytes are [bs]. *)
Definition user_bytes (m : umem) (a : Z) (bs : list Z) : Prop :=
  ∀ k v, bs !! k = Some v → m !! (a + Z.of_nat k) = Some v.

Definition user_mapped (m : umem) (a len : Z) : Prop :=
  ∀ i, 0 ≤ i < len → is_Some (m !! (a + i)).

(** User memory after [bs] has been stored at [a]. *)
Fixpoint user_write (m : umem) (a : Z) (bs : list Z) : umem :=
  match bs with
  | [] => m
  | v :: bs' => user_write (<[a := v]> m) (a + 1) bs'
  end.

(** A kernel buffer after [bs] has been stored at index [pos]. *)
Definition buf_write (b : list Z) (pos : Z) (bs : list Z) : list Z :=
  take (Z.to_nat pos) b ++ bs ++ drop (Z.to_nat pos + length bs) b.

Lemma copycheck_pos a len :
  0 ≤ a < 4294967296 → 0 < len < 4294967296 →
  copycheck a len =
    if bool_decide (4294967296 < a + len ∨ USERTOP ≤ a)
    then (EFAULT, len)
    else (0, Z.min len (USERTOP - a)).
Proof.
  intros Ha Hl. unfold copycheck, u32, USERTOP.
  assert ((a + len - 1) mod 4294967296 =
    if decide (4294967296 < a + len) then a + len - 1 - 4294967296 else a + len - 1) as ->.
  { case_decide; dlia. }
  rewrite !Z.geb_leb. case_decide; case_bool_decide;
    repeat (match goal with |- context [?x <? ?y] => destruct (Z.ltb_spec x y) end);
    repeat (match goal with |- context [?x <=? ?y] => destruct (Z.leb_spec x y) end);
    first [done|lia|f_equal; lia].
Qed.

(** An empty region is refused, or reported as cut off, at every address. *)
Lemma copycheck_zero a :
  0 ≤ a < 4294967296 →
  copycheck a 0 = if bool_decide (a = 0) then (0, USERTOP) else (EFAULT, 0).
Proof.
  intros Ha. unfold copycheck. rewrite Z.add_0_r.
  case_bool_decide as H; [by subst|].
  rewrite u32_small by lia. by destruct (Z.ltb_spec (a - 1) a); [|lia].
Qed.

Section transfer_wp.
Context {St : Type} (ld : St → Z → outcome (option Z))
        (st : St → Z → Z → outcome (option St)).
(** The bytes the source yields (a fault where it is [None]), whether the
    destination takes a byte at an index, and the state after [i] bytes. *)
Context (src : Z → option Z) (fits : Z → bool) (after : Z → St).

Definition transfers (n : Z) : Prop :=
  ∀ i, 0 ≤ i < n →
    ld (after i) i = Done (src i) ∧
    ∀ v, src i = Some v →
      st (after i) i v = Done (if fits i then Some (after (i + 1)) else None).

Definition passes (i : Z) : Prop := is_Some (src i) ∧ fits i = true.

Lemma copy_byte_eq n i :
  transfers n → 0 ≤ i < n →
  copy_byte ld st i (after i) = Done
    (match src i with
     | Some v => if fits i then Some (v, after (i + 1)) else None
     | None => None
     end).
Proof.
  intros Ht Hi. destruct (Ht i Hi) as [H1 H2]. unfold copy_byte. rewrite H1. simpl.
  destruct (src i) as [v|]; [|done]. rewrite (H2 v) by done. simpl.
  by destruct (fits i).
Qed.

Lemma memcpy_wp len :
  0 ≤ len → transfers len →
  wp (memcpy ld st len (after 0)) (λ r,
    match r with
    | inl s => s = after len ∧ ∀ i, 0 ≤ i < len → passes i
    | inr s => ∃ k, 0 ≤ k < len ∧ s = after k ∧ ¬ passes k ∧ ∀ i, 0 ≤ i < k → passes i
    end).
Proof.
  intros Hlen Ht. unfold memcpy.
  eapply wp_mono; [apply (wp_for_loop
    (λ j s, s = after j ∧ ∀ i, 0 ≤ i < j → passes i)
    (λ s, ∃ k, 0 ≤ k < len ∧ s = after k ∧ ¬ passes k ∧ ∀ i, 0 ≤ i < k → passes i)); [split; [done|lia]|]|].
  - intros j s Hj [-> Hp]. rewrite (copy_byte_eq len) by (done || lia). simpl.
    destruct (src j) as [v|] eqn:Hv, (fits j) eqn:Hf; simpl.
    { split; [done|]. intros i Hi. destruct (decide (i = j)) as [->|].
      - unfold passes. rewrite Hv. eauto.
      - apply Hp. lia. }
    all: exists j; split_and!; [lia|lia|done| |done]; intros [[??] ?]; congruence.
  - intros [s|s]; simpl; [|done]. by rewrite Z2Nat.id by lia.
Qed.

Lemma copystr_wp maxlen stoplen :
  0 ≤ maxlen → 0 ≤ stoplen → transfers (Z.min maxlen stoplen) →
  wp (copystr ld st maxlen stoplen (after 0)) (λ '(e, s), ∃ k,
    s = after k ∧ 0 ≤ k ≤ Z.min maxlen stoplen ∧
    match e with
    | StrDone 0 got =>
        got = Some k ∧ 0 < k ∧ src (k - 1) = Some 0 ∧ fits (k - 1) = true ∧
        (∀ i, 0 ≤ i < k - 1 → passes i ∧ src i ≠ Some 0)
    | StrDone r got =>
        r = (if stoplen <? maxlen then EFAULT else ENAMETOOLONG) ∧ got = None ∧
        k = Z.min maxlen stoplen ∧ (∀ i, 0 ≤ i < k → passes i ∧ src i ≠ Some 0)
    | StrFault =>
        k < Z.min maxlen stoplen ∧ ¬ passes k ∧
        (∀ i, 0 ≤ i < k → passes i ∧ src i ≠ Some 0)
    end).
Proof.
  intros Hm Hs Ht. unfold copystr. apply wp_bind.
  set (n := Z.min maxlen stoplen) in *.
  eapply wp_mono; [apply (wp_for_loop
    (λ j s, s = after j ∧ ∀ i, 0 ≤ i < j → passes i ∧ src i ≠ Some 0)
    (λ '(e, s), ∃ k, s = after k ∧ 0 ≤ k ≤ n ∧
       match e with
       | StrDone r got => r = 0 ∧ got = Some k ∧ 0 < k ∧ src (k - 1) = Some 0 ∧
           fits (k - 1) = true ∧ (∀ i, 0 ≤ i < k - 1 → passes i ∧ src i ≠ Some 0)
       | StrFault => k < n ∧ ¬ passes k ∧ (∀ i, 0 ≤ i < k → passes i ∧ src i ≠ Some 0)
       end)); [split; [done|lia]|]|].
  - intros j s Hj [-> Hp]. rewrite (copy_byte_eq n) by (done || lia). simpl.
    assert (¬ passes j → ∃ k, after j = after k ∧ 0 ≤ k ≤ n ∧ k < n ∧ ¬ passes k ∧
      (∀ i, 0 ≤ i < k → passes i ∧ src i ≠ Some 0)).
    { intros ?. exists j. split_and!; try done; lia. }
    unfold passes in *. destruct (src j) as [v|] eqn:Hv, (fits j) eqn:Hf; simpl.
    + destruct (Z.eqb_spec v 0) as [->|Hv0]; simpl.
      * exists (j + 1). rewrite Z.add_simpl_r. split_and!; try done; lia.
      * split; [done|]. intros i Hi. destruct (decide (i = j)) as [->|].
        { rewrite Hv. split; [eauto|congruence]. }
        apply Hp. lia.
    + apply H. intros [[??] ?]. congruence.
    + apply H. intros [[??] ?]. congruence.
    + apply H. intros [[??] ?]. congruence.
  - intros [s|[e s]]; simpl.
    + intros [-> Hp]. rewrite Z2Nat.id in * by lia. exists n. split_and!; [done|lia..|].
      destruct (Z.ltb_spec stoplen maxlen); simpl; split_and!; done.
    + intros (k & -> & Hk & He). exists k. split_and!; [done|lia..|].
      destruct e as [r got|]; [|done]. destruct He as (-> & ?). done.
Qed.
End transfer_wp.

(** ** The transfers of the four calls *)

(** The [n] bytes at [a] (0 where there is none). *)
Definition ubytes (m : umem) (a : Z) (n : nat) : list Z :=
  (λ k, default 0 (m !! (a + Z.of_nat k))) <$> seq 0 n.

Lemma length_ubytes m a n : length (ubytes m a n) = n.
Proof. unfold ubytes. by rewrite length_fmap, length_seq. Qed.

Lemma ubytes_S m a n v :
  m !! (a + Z.of_nat n) = Some v → ubytes m a (S n) = ubytes m a n ++ [v].
Proof. intros Hv. unfold ubytes. rewrite seq_S, fmap_app. simpl. by rewrite Hv. Qed.

Lemma user_bytes_ubytes m a n :
  (∀ i, 0 ≤ i < Z.of_nat n → is_Some (m !! (a + i))) → user_bytes m a (ubytes m a n).
Proof.
  intros H k v Hk. unfold ubytes in Hk.
  rewrite list_lookup_fmap in Hk. apply fmap_Some in Hk as (j & Hj & ->).
  apply lookup_seq in Hj as [-> Hj].
  destruct (H (Z.of_nat (0 + k))) as [x Hx]; [lia|]. by rewrite Hx.
Qed.

Lemma length_buf_write b pos bs :
  (Z.to_nat pos + length bs ≤ length b)%nat → length (buf_write b pos bs) = length b.
Proof.
  intros. unfold buf_write. rewrite !length_app, length_take, length_drop. lia.
Qed.

Lemma buf_write_nil b pos : buf_write b pos [] = b.
Proof. unfold buf_write. simpl. by rewrite Nat.add_0_r, take_drop. Qed.

Lemma arr_set_buf_write b pos bs v :
  0 ≤ pos → pos + Z.of_nat (length bs) < Z.of_nat (length b) →
  arr_set (buf_write b pos bs) (pos + Z.of_nat (length bs)) v =
    Done (buf_write b pos (bs ++ [v])).
Proof.
  intros Hp Hl. rewrite arr_set_in by (rewrite length_buf_write; lia). f_equal.
  unfold buf_write. rewrite Z2Nat.inj_add, Nat2Z.id by lia.
  rewrite insert_app_r_alt by (rewrite length_take; lia).
  rewrite length_take, Nat.min_l by lia.
  replace (Z.to_nat pos + length bs - Z.to_nat pos)%nat with (length bs) by lia.
  rewrite insert_app_r_alt, Nat.sub_diag by lia. rewrite <-app_assoc. f_equal. f_equal.
  destruct (lookup_lt_is_Some_2 b (Z.to_nat pos + length bs)) as [x Hx]; [lia|].
  rewrite (drop_S b x) by done. simpl. rewrite length_app. simpl.
  by rewrite Nat.add_assoc, Nat.add_1_r.
Qed.

Lemma user_write_lookup m a bs b :
  user_write m a bs !! b =
    if decide (a ≤ b < a + Z.of_nat (length bs)) then bs !! Z.to_nat (b - a) else m !! b.
Proof.
  revert m a. induction bs as [|v bs IH]; intros m a; simpl.
  { case_decide; [lia|done]. }
  rewrite IH. destruct (decide (b = a)) as [->|Hne].
  - rewrite decide_False by lia. rewrite decide_True by lia.
    rewrite lookup_insert_eq. by rewrite Z.sub_diag.
  - rewrite lookup_insert_ne by done. repeat case_decide; try lia; try done.
    replace (Z.to_nat (b - a)) with (S (Z.to_nat (b - (a + 1)))) by lia. done.
Qed.

Lemma user_write_snoc m a bs v :
  user_write m a (bs ++ [v]) = <[a + Z.of_nat (length bs) := v]> (user_write m a bs).
Proof.
  revert m a. induction bs as [|w bs IH]; intros m a; simpl.
  { by rewrite Z.add_0_r. }
  rewrite IH. f_equal. lia.
Qed.

Lemma copyin_transfers m a d pos n :
  0 ≤ a → a + n ≤ USERTOP → 0 ≤ pos → pos + n ≤ Z.of_nat (length d) →
  transfers (λ _ i, user_load m (a + i)) (λ d i v, kbuf_store d (pos + i) v)
    (λ i, m !! (a + i)) (λ _, true)
    (λ i, buf_write d pos (ubytes m a (Z.to_nat i))) n.
Proof.
  intros Ha Hn Hp Hd i Hi. split.
  - unfold user_load. destruct (Z.ltb_spec (a + i) 0); [lia|].
    by destruct (Z.leb_spec USERTOP (a + i)); [lia|].
  - intros v Hv. unfold kbuf_store.
    replace (pos + i) with (pos + Z.of_nat (length (ubytes m a (Z.to_nat i))))
      by (rewrite length_ubytes; lia).
    rewrite arr_set_buf_write by (rewrite ?length_ubytes; lia). simpl.
    rewrite Z2Nat.inj_add, Nat.add_1_r by lia.
    by rewrite (ubytes_S _ _ _ v) by (by rewrite Z2Nat.id by lia).
Qed.

Lemma copyout_transfers m a src pos n :
  0 ≤ a → a + n ≤ USERTOP → 0 ≤ pos → pos + n ≤ Z.of_nat (length src) →
  transfers (λ _ i, kbuf_load src (pos + i)) (λ m i v, user_store m (a + i) v)
    (λ i, src !! Z.to_nat (pos + i)) (λ i, bool_decide (is_Some (m !! (a + i))))
    (λ i, user_write m a (take (Z.to_nat i) (drop (Z.to_nat pos) src))) n.
Proof.
  intros Ha Hn Hp Hd i Hi.
  destruct (lookup_lt_is_Some_2 src (Z.to_nat (pos + i))) as [x Hx]; [lia|]. split.
  { unfold kbuf_load. rewrite (arr_get_Some _ _ x), Hx by (done || lia). done. }
  intros v Hv. unfold user_store. destruct (Z.ltb_spec (a + i) 0); [lia|].
  destruct (Z.leb_spec USERTOP (a + i)); [lia|]. simpl.
  assert (length (take (Z.to_nat i) (drop (Z.to_nat pos) src)) = Z.to_nat i) as Hlen.
  { rewrite length_take, length_drop. lia. }
  rewrite user_write_lookup, Hlen, decide_False by lia.
  destruct (m !! (a + i)) eqn:Hm; simpl; [|done]. do 2 f_equal.
  rewrite Z2Nat.inj_add, Nat.add_1_r by lia.
  rewrite (take_S_r _ _ v).
  2: { rewrite lookup_drop, <-Hv. f_equal. lia. }
  rewrite user_write_snoc, Hlen. f_equal. lia.
Qed.

(** A block passes [copycheck] exactly when it lies in user space. *)
Lemma copycheck_block a len :
  0 ≤ a < 4294967296 → 0 ≤ len < 4294967296 →
  (user_region a len ∧ copycheck a len = (0, len)) ∨
  (¬ user_region a len ∧ (copycheck a len = (EFAULT, len) ∨
     ∃ stoplen, copycheck a len = (0, stoplen) ∧ stoplen ≠ len)).
Proof.
  intros Ha Hl. unfold user_region. destruct (decide (len = 0)) as [->|Hl0].
  { right. split; [lia|]. rewrite copycheck_zero by lia.
    case_bool_decide; [right; by eexists|by left]. }
  rewrite copycheck_pos by lia. unfold USERTOP. case_bool_decide as Hb.
  { right. split; [lia|by left]. }
  destruct (decide (a + len ≤ 2147483648)).
  - left. split; [lia|]. f_equal. lia.
  - right. split; [lia|]. right. eexists. split; [done|]. lia.
Qed.

Lemma copyin_wp m bff a d pos len :
  0 ≤ a < 4294967296 → 0 ≤ len < 4294967296 →
  0 ≤ pos → pos + len ≤ Z.of_nat (length d) →
  wp (copyin m bff a d pos len) (λ '(r, d', bff'),
    (r = 0 ∧ bff' = false ∧ user_region a len ∧ user_mapped m a len ∧
     d' = buf_write d pos (ubytes m a (Z.to_nat len))) ∨
    (r = EFAULT ∧ (bff' = bff ∨ bff' = false) ∧
     ¬ (user_region a len ∧ user_mapped m a len) ∧
     ∃ k, 0 ≤ k ≤ len ∧ user_mapped m a k ∧
       d' = buf_write d pos (ubytes m a (Z.to_nat k)))).
Proof.
  intros Ha Hl Hp Hd. unfold copyin.
  assert (∃ k, 0 ≤ k ≤ len ∧ user_mapped m a k ∧
    d = buf_write d pos (ubytes m a (Z.to_nat k))).
  { exists 0. split_and!; [lia..| |]; [intros ??; lia|]. simpl. by rewrite buf_write_nil. }
  destruct (copycheck_block a len) as [[Hu ->]|[Hu [->|(stop & -> & ?)]]]; [lia..| | |]; simpl.
  2: { right. split_and!; auto. tauto. }
  2: { rewrite (proj2 (Z.eqb_neq _ _)) by done. right. split_and!; auto. tauto. }
  rewrite Z.eqb_refl. simpl. apply wp_bind. destruct Hu. eapply wp_mono.
  { rewrite <-(buf_write_nil d pos) at 1.
    eapply (memcpy_wp _ _ _ _ (λ i, buf_write d pos (ubytes m a (Z.to_nat i)))); [lia|].
    by apply copyin_transfers; lia. }
  intros [d'|d']; simpl.
  - intros [-> Hm]. left. split_and!; try done. intros i Hi. by apply Hm.
  - intros (k & Hk & -> & Hf & Hm). right. split_and!; auto.
    + intros [_ Hm']. apply Hf. split; [by apply Hm'|done].
    + exists k. split_and!; [lia..| |done]. intros i Hi. by apply Hm.
Qed.

Lemma copyout_wp m bff src pos a len :
  0 ≤ a < 4294967296 → 0 ≤ len < 4294967296 →
  0 ≤ pos → pos + len ≤ Z.of_nat (length src) →
  wp (copyout m bff src pos a len) (λ '(r, m', bff'),
    (r = 0 ∧ bff' = false ∧ user_region a len ∧ user_mapped m a len ∧
     m' = user_write m a (take (Z.to_nat len) (drop (Z.to_nat pos) src))) ∨
    (r = EFAULT ∧ (bff' = bff ∨ bff' = false) ∧
     ¬ (user_region a len ∧ user_mapped m a len) ∧
     ∃ k, 0 ≤ k ≤ len ∧ user_mapped m a k ∧
       m' = user_write m a (take (Z.to_nat k) (drop (Z.to_nat pos) src)))).
Proof.
  intros Ha Hl Hp Hd. unfold copyout.
  assert (∃ k, 0 ≤ k ≤ len ∧ user_mapped m a k ∧
    m = user_write m a (take (Z.to_nat k) (drop (Z.to_nat pos) src))).
  { exists 0. split_and!; [lia..| |done]. intros ??; lia. }
  destruct (copycheck_block a len) as [[Hu ->]|[Hu [->|(stop & -> & ?)]]]; [lia..| | |]; simpl.
  2: { right. split_and!; auto. tauto. }
  2: { rewrite (proj2 (Z.eqb_neq _ _)) by done. right. split_and!; auto. tauto. }
  rewrite Z.eqb_refl. simpl. apply wp_bind. destruct Hu. eapply wp_mono.
  { eapply (memcpy_wp _ _ _ _
      (λ i, user_write m a (take (Z.to_nat i) (drop (Z.to_nat pos) src)))); [lia|].
    by apply copyout_transfers; lia. }
  intros [m'|m']; simpl.
  - intros [-> Hm]. left. split_and!; try done. intros i Hi.
    destruct (Hm i Hi) as [_ Hf]. by apply bool_decide_eq_true in Hf.
  - intros (k & Hk & -> & Hf & Hm). right. split_and!; auto.
    + intros [_ Hm']. apply Hf. split; [apply lookup_lt_is_Some_2; lia|].
      by apply bool_decide_eq_true, Hm'.
    + exists k. split_and!; [lia..| |done]. intros i Hi.
      destruct (Hm i Hi) as [_ Hf']. by apply bool_decide_eq_true in Hf'.
Qed.

(** A C string of [len] bytes, terminator included, at user address [a]. *)
Definition user_cstring (m : umem) (a : Z) (s : list Z) : Prop :=
  (0 ∉ s) ∧ user_bytes m a (s ++ [0]) ∧ a + Z.of_nat (length s) + 1 ≤ USERTOP.

(** The [k] bytes at [a] are user memory without a terminator. *)
Definition user_unterminated (m : umem) (a k : Z) : Prop :=
  ∀ i, 0 ≤ i < k → a + i < USERTOP ∧ ∃ v, m !! (a + i) = Some v ∧ v ≠ 0.

Lemma ubytes_lookup m a n k :
  (k < n)%nat → ubytes m a n !! k = Some (default 0 (m !! (a + Z.of_nat k))).
Proof.
  intros. unfold ubytes. rewrite list_lookup_fmap, lookup_seq_lt by done. done.
Qed.

Lemma ubytes_no_zero m a k :
  user_unterminated m a (Z.of_nat k) → 0 ∉ ubytes m a k.
Proof.
  intros H Hin. apply list_elem_of_lookup in Hin as [j Hj].
  assert (j < k)%nat as Hlt by (apply lookup_lt_Some in Hj; by rewrite length_ubytes in Hj).
  rewrite ubytes_lookup in Hj by done.
  destruct (H (Z.of_nat j)) as (_ & v & Hv & Hv0); [lia|].
  rewrite Hv in Hj. simpl in Hj. congruence.
Qed.

(** What the outcome of a string copy from [a] with room for [len] says. *)
Definition copyinstr_post (m : umem) (a len : Z) (d : list Z) (r : Z) (got : option Z)
    (d' : list Z) : Prop :=
  (r = 0 ∧ ∃ s, user_cstring m a s ∧ Z.of_nat (length s) + 1 ≤ len ∧
     got = Some (Z.of_nat (length s) + 1) ∧ d' = buf_write d 0 (s ++ [0])) ∨
  (r = ENAMETOOLONG ∧ got = None ∧ user_unterminated m a len) ∨
  (r = EFAULT ∧ got = None ∧
     (len = 0 ∨ 4294967296 < a + len ∨
      ∃ k, 0 ≤ k < len ∧ user_unterminated m a k ∧
           (USERTOP ≤ a + k ∨ m !! (a + k) = None))).

Lemma copyinstr_string m a k len d :
  0 ≤ a → 0 < k ≤ len → a + k ≤ USERTOP →
  m !! (a + (k - 1)) = Some 0 →
  (∀ i, 0 ≤ i < k - 1 → is_Some (m !! (a + i)) ∧ m !! (a + i) ≠ Some 0) →
  copyinstr_post m a len d 0 (Some k) (buf_write d 0 (ubytes m a (Z.to_nat k))).
Proof.
  intros Ha Hk Hu H0 Hpre. left. split; [done|].
  exists (ubytes m a (Z.to_nat (k - 1))). rewrite length_ubytes.
  replace (Z.to_nat k) with (S (Z.to_nat (k - 1))) by lia.
  rewrite (ubytes_S _ _ _ 0) by by rewrite Z2Nat.id by lia.
  split_and!; [|lia|f_equal; lia|done]. unfold user_cstring. rewrite length_ubytes.
  split_and!; [| |lia].
  - apply ubytes_no_zero. rewrite Z2Nat.id by lia. intros i Hi.
    destruct (Hpre i Hi) as [[v Hv] Hne]. split; [lia|]. exists v. split; congruence.
  - intros j v Hj. rewrite lookup_app in Hj.
    destruct (ubytes m a (Z.to_nat (k - 1)) !! j) eqn:E.
    + injection Hj as <-. assert (j < Z.to_nat (k - 1))%nat as Hlt.
      { apply lookup_lt_Some in E. by rewrite length_ubytes in E. }
      rewrite ubytes_lookup in E by done. destruct (Hpre (Z.of_nat j)) as [[w Hw] _]; [lia|].
      rewrite Hw in *. simpl in E. congruence.
    + apply list_lookup_singleton_Some in Hj as [Hj <-]. rewrite length_ubytes in Hj.
      apply lookup_ge_None_1 in E. rewrite length_ubytes in E. rewrite <-H0. f_equal. lia.
Qed.

Lemma copyinstr_wp m bff a d len :
  0 ≤ a < 4294967296 → 0 ≤ len < 4294967296 → len ≤ Z.of_nat (length d) →
  wp (copyinstr m bff a d len) (λ '(r, got, d', bff'),
    (bff' = bff ∨ bff' = false) ∧ copyinstr_post m a len d r got d').
Proof.
  intros Ha Hl Hd. unfold copyinstr. destruct (decide (len = 0)) as [->|Hl0].
  { rewrite copycheck_zero by lia. case_bool_decide; simpl.
    - split; [by right|]. right; left. split_and!; [done..|]. intros ??. lia.
    - split; [by left|]. do 2 right. auto. }
  rewrite copycheck_pos by lia. case_bool_decide as Hb; simpl.
  { split; [by left|]. do 2 right. split_and!; [done..|]. destruct Hb; [by auto|].
    do 2 right. exists 0. split_and!; [lia..| |lia]. intros ??. lia. }
  set (stop := len `min` (USERTOP - a)). apply wp_bind.
  eapply wp_mono.
  { rewrite <-(buf_write_nil d 0) at 1.
    eapply (copystr_wp _ _ _ _ (λ i, buf_write d 0 (ubytes m a (Z.to_nat i)))); [lia|lia|].
    apply (copyin_transfers m a d 0); lia. }
  unfold passes. intros [e d'] (k & -> & Hk & He).
  assert (∀ k', k' ≤ stop →
    (∀ i, 0 ≤ i < k' → (is_Some (m !! (a + i)) ∧ true = true) ∧ m !! (a + i) ≠ Some 0) →
    user_unterminated m a k') as Hun.
  { intros k' Hk' H i Hi. destruct (H i Hi) as [[[v Hv] _] Hne].
    split; [lia|]. exists v. split; congruence. }
  destruct e as [[|r|r] got|]; simpl; (split; [by right|]).
  - destruct He as (-> & Hk0 & H0 & _ & Hpre). apply copyinstr_string; try done; try lia.
    intros i Hi. destruct (Hpre i Hi) as [[??] ?]. done.
  - destruct He as (-> & -> & -> & Hpre). destruct (Z.ltb_spec stop len).
    + do 2 right. split_and!; [done..|]. do 2 right. exists stop.
      split_and!; [lia..| |left; lia]. apply Hun; [done|]. intros i Hi. apply Hpre. lia.
    + right; left. split_and!; [done..|]. apply Hun; [lia|]. intros i Hi. apply Hpre. lia.
  - destruct He as (He & _). by destruct (Z.ltb_spec stop len).
  - destruct He as (Hlt & Hf & Hpre). do 2 right. split_and!; [done..|]. do 2 right.
    exists k. split_and!; [lia..| |]. { apply Hun; [lia|done]. }
    right. destruct (m !! (a + k)) eqn:E; [|done]. by destruct Hf.
Qed.

(** [C12] Copying a block between the kernel and user space is safe and exact.
    For every pointer and length a user program may pass, [copyin] and
    [copyout] return without panicking, without touching an address outside
    user space, and with the fault handler cleared once they have set it.
    They answer 0 exactly when the block is not empty, lies below [USERTOP]
    and is mapped, and then the whole block has been copied and nothing else
    has changed; otherwise they answer EFAULT and at most a prefix of the
    block has been copied. *)
Theorem user_block_copy_exact m bff a buf pos len :
  0 ≤ a < 4294967296 → 0 ≤ len < 4294967296 →
  0 ≤ pos → pos + len ≤ Z.of_nat (length buf) →
  wp (copyin m bff a buf pos len) (λ '(r, buf', bff'),
    (r = 0 ∧ bff' = false ∧ user_region a len ∧ user_mapped m a len ∧
     buf' = buf_write buf pos (ubytes m a (Z.to_nat len))) ∨
    (r = EFAULT ∧ (bff' = bff ∨ bff' = false) ∧
     ¬ (user_region a len ∧ user_mapped m a len) ∧
     ∃ k, 0 ≤ k ≤ len ∧ user_mapped m a k ∧
       buf' = buf_write buf pos (ubytes m a (Z.to_nat k)))) ∧
  wp (copyout m bff buf pos a len) (λ '(r, m', bff'),
    (r = 0 ∧ bff' = false ∧ user_region a len ∧ user_mapped m a len ∧
     ubytes m' a (Z.to_nat len) = take (Z.to_nat len) (drop (Z.to_nat pos) buf) ∧
     ∀ b, b < a ∨ a + len ≤ b → m' !! b = m !! b) ∨
    (r = EFAULT ∧ (bff' = bff ∨ bff' = false) ∧
     ¬ (user_region a len ∧ user_mapped m a len) ∧
     ∃ k, 0 ≤ k ≤ len ∧ user_mapped m a k ∧
       m' = user_write m a (take (Z.to_nat k) (drop (Z.to_nat pos) buf)))).
Proof.
  intros Ha Hl Hp Hd. split; [by apply copyin_wp|].
  eapply wp_mono; [by apply copyout_wp|]. intros [[r m'] bff'] [(-> & -> & Hu & Hm & ->)|H].
  2: by right.
  left. assert (length (take (Z.to_nat len) (drop (Z.to_nat pos) buf)) = Z.to_nat len) as Hlen.
  { rewrite length_take, length_drop. lia. }
  split_and!; try done.
  - apply list_eq. intros k. destruct (decide (k < Z.to_nat len)%nat).
    + rewrite ubytes_lookup by done. rewrite user_write_lookup, decide_True by lia.
      destruct (lookup_lt_is_Some_2 (take (Z.to_nat len) (drop (Z.to_nat pos) buf)) k)
        as [x Hx]; [lia|].
      replace (Z.to_nat (a + Z.of_nat k - a)) with k by lia. by rewrite Hx.
    + rewrite !lookup_ge_None_2; [done|lia|rewrite length_ubytes; lia].
  - intros b Hb. rewrite user_write_lookup, decide_False by lia. done.
Qed.

Lemma user_block_copy_exact_witness :
  let m : umem := <[16 := 7]> (<[17 := 8]> ∅) in
  copyin m false 16 [0; 0; 0] 1 2 = Done (0, [0; 7; 8], false) ∧
  wp (copyin m false 16 [0; 0; 0] 1 2) (λ '(r, buf', bff'),
    (r = 0 ∧ bff' = false ∧ user_region 16 2 ∧ user_mapped m 16 2 ∧
     buf' = buf_write [0; 0; 0] 1 (ubytes m 16 2)) ∨
    (r = EFAULT ∧ (bff' = false ∨ bff' = false) ∧
     ¬ (user_region 16 2 ∧ user_mapped m 16 2) ∧
     ∃ k, 0 ≤ k ≤ 2 ∧ user_mapped m 16 k ∧
       buf' = buf_write [0; 0; 0] 1 (ubytes m 16 (Z.to_nat k)))).
Proof.
  intros m. split; [reflexivity|].
  refine (proj1 (user_block_copy_exact m false 16 [0; 0; 0] 1 2 _ _ _ _)); simpl; lia.
Defined.
