(* ===== verification/Uio.v ===== *)
(** * The uio abstraction: a buffer to do I/O into or out of

    [struct uio] is declared in kern/include/uio.h.  The functions that work
    on it are in the file of the revision store that the kernel build compiles
    as uio.c.  A kernel buffer is the memory it lies in and an index; a user
    buffer is the user memory and an address. *)

From S2P Require Import Prelude Copyinout.

Inductive uio_rw := UIO_READ | UIO_WRITE.
Inductive uio_seg := UIO_USERSPACE | UIO_SYSSPACE | UIO_USERISPACE.

#[export] Instance uio_rw_eq_dec : EqDecision uio_rw.
Proof. solve_decision. Defined.
#[export] Instance uio_seg_eq_dec : EqDecision uio_seg.
Proof. solve_decision. Defined.

(** The pointer of an iovec (a union in C), with the memory it points into;
    for a user pointer also the [pcb_badfaultfunc] of the current thread. *)
Inductive iovec_base :=
| KBase (mem : list Z) (pos : Z)
| UBase (mem : umem) (bff : bool) (addr : Z).

Record uio := mkUio {
  iov_base : iovec_base;
  iov_len : Z;
  uio_offset : Z;
  uio_resid : Z;
  uio_segflg : uio_seg;
  uio_rw_of : uio_rw;
  uio_space : option Z;
}.

(** The address space of the current thread. *)
Class CurSpace := cur_vmspace : option Z.

Section uio.
Context {cs : CurSpace}.

(** One round of the loop of [uiomove]: [size] bytes between [buf] at [ptr]
    and the place the iovec points to. *)
Definition uiomove_chunk (buf : list Z) (ptr size : Z) (u : uio)
    : outcome (Z * list Z * iovec_base) :=
  match uio_segflg u, iov_base u with
  | UIO_SYSSPACE, KBase mem pos =>
      match uio_rw_of u with
      | UIO_READ =>
          r ← memcpy (λ _ i, kbuf_load buf (ptr + i)) (λ m i v, kbuf_store m (pos + i) v) size mem;
          match r with
          | inl mem' => Done (0, buf, KBase mem' (pos + size))
          | inr _ => Undef
          end
      | UIO_WRITE =>
          r ← memcpy (λ _ i, kbuf_load mem (pos + i)) (λ b i v, kbuf_store b (ptr + i) v) size buf;
          match r with
          | inl buf' => Done (0, buf', KBase mem (pos + size))
          | inr _ => Undef
          end
      end
  | UIO_USERSPACE, UBase mem bff addr | UIO_USERISPACE, UBase mem bff addr =>
      match uio_rw_of u with
      | UIO_READ =>
          '(result, mem', bff') ← copyout mem bff buf ptr addr size;
          if negb (result =? 0) then Done (result, buf, UBase mem' bff' addr)
          else Done (0, buf, UBase mem' bff' (u32 (addr + size)))
      | UIO_WRITE =>
          '(result, buf', bff') ← copyin mem bff addr buf ptr size;
          if negb (result =? 0) then Done (result, buf', UBase mem bff' addr)
          else Done (0, buf', UBase mem bff' (u32 (addr + size)))
      end
  | _, _ => Undef
  end.

Definition uiomove (buf : list Z) (ptr n : Z) (u : uio) : outcome (Z * list Z * uio) :=
  (if decide (uio_segflg u = UIO_SYSSPACE)
   then kassert (bool_decide (uio_space u = None))
   else kassert (bool_decide (uio_space u = cur_vmspace)));;
  while_loop (S (Z.to_nat n))
    (λ '(buf, ptr, n, u),
       if (n >? 0) && (uio_resid u >? 0) then
         let size := if iov_len u >? n then n else iov_len u in
         if size =? 0 then Panic else
         '(result, buf', base') ← uiomove_chunk buf ptr size u;
         if negb (result =? 0)
         then Done (inr (result, buf', mkUio base' (iov_len u) (uio_offset u) (uio_resid u)
                                         (uio_segflg u) (uio_rw_of u) (uio_space u)))
         else Done (inl (buf', ptr + size, n - size,
                         mkUio base' (iov_len u - size) (s32 (uio_offset u + size))
                           (u32 (uio_resid u - size)) (uio_segflg u) (uio_rw_of u) (uio_space u)))
       else Done (inr (0, buf, u))) (buf, ptr, n, u).

(** Sends zeros, 16 at a time. *)
Definition uiomovezeros (n : Z) (u : uio) : outcome (Z * uio) :=
  kassert (bool_decide (uio_rw_of u = UIO_READ));;
  while_loop (S (Z.to_nat n))
    (λ '(n, u),
       if n >? 0 then
         let amt := if 16 >? n then n else 16 in
         '(result, _, u') ← uiomove (replicate 16 0) 0 amt u;
         if negb (result =? 0) then Done (inr (result, u'))
         else Done (inl (n - amt, u'))
       else Done (inr (0, u))) (n, u).

Definition mk_kuio (kbuf : list Z) (ptr len pos : Z) (rw : uio_rw) : uio :=
  mkUio (KBase kbuf ptr) len pos len UIO_SYSSPACE rw None.

(** ** Kernel buffers *)

(** A uio on a kernel buffer: [mem] and the index [pos], [len] bytes left in
    the iovec, at offset [off] with [resid] bytes to go. *)
Definition kuio (rw : uio_rw) (mem : list Z) (pos len off resid : Z) : uio :=
  mkUio (KBase mem pos) len off resid UIO_SYSSPACE rw None.

(** It stays within its buffer, and within the range of the integers. *)
Definition kuio_ok (mem : list Z) (pos len off resid : Z) : Prop :=
  0 ≤ pos ∧ pos + len ≤ Z.of_nat (length mem) ∧ 0 ≤ resid ≤ len ∧ len < 4294967296 ∧
  0 ≤ off ∧ off + resid ≤ INT_MAX.

Definition slice (l : list Z) (i n : Z) : list Z :=
  take (Z.to_nat n) (drop (Z.to_nat i) l).

Lemma length_slice l i n :
  0 ≤ i → 0 ≤ n → i + n ≤ Z.of_nat (length l) → Z.of_nat (length (slice l i n)) = n.
Proof. intros. unfold slice. rewrite length_take, length_drop. lia. Qed.

Lemma slice_app l i n m :
  0 ≤ i → 0 ≤ n → 0 ≤ m → slice l i (n + m) = slice l i n ++ slice l (i + n) m.
Proof.
  intros. unfold slice. rewrite !Z2Nat.inj_add by lia.
  rewrite <-(drop_drop l). generalize (drop (Z.to_nat i) l). intros l'.
  revert l'. induction (Z.to_nat n) as [|k IH]; intros l'; [done|].
  destruct l' as [|x l']; simpl; [by rewrite take_nil|]. by rewrite IH.
Qed.

Lemma slice_lookup l i n k :
  0 ≤ i → (k < Z.to_nat n)%nat → slice l i n !! k = l !! (Z.to_nat i + k)%nat.
Proof. intros. unfold slice. by rewrite lookup_take_lt, lookup_drop by done. Qed.

(** Copying between two kernel buffers. *)
Lemma kmemcpy_wp src ptr dst pos size :
  0 ≤ ptr → 0 ≤ pos → 0 ≤ size →
  ptr + size ≤ Z.of_nat (length src) → pos + size ≤ Z.of_nat (length dst) →
  memcpy (λ _ i, kbuf_load src (ptr + i)) (λ m i v, kbuf_store m (pos + i) v) size dst =
    Done (inl (buf_write dst pos (slice src ptr size))).
Proof.
  intros Hp Hq Hs Hsrc Hdst. apply wp_eq. eapply wp_mono.
  { rewrite <-(buf_write_nil dst pos) at 1.
    apply (memcpy_wp _ _ (λ i, src !! Z.to_nat (ptr + i)) (λ _, true)
      (λ i, buf_write dst pos (slice src ptr i))); [done|].
    intros i Hi. destruct (lookup_lt_is_Some_2 src (Z.to_nat (ptr + i))) as [x Hx]; [lia|].
    split.
    - unfold kbuf_load. rewrite (arr_get_Some _ _ x), Hx by (done || lia). done.
    - intros v Hv. unfold kbuf_store.
      assert (Z.of_nat (length (slice src ptr i)) = i) as Hlen by (apply length_slice; lia).
      rewrite <-Hlen at 2. rewrite arr_set_buf_write by lia. simpl. do 3 f_equal.
      unfold slice. rewrite Z2Nat.inj_add, Nat.add_1_r by lia.
      rewrite (take_S_r _ _ v); [done|]. rewrite lookup_drop, <-Hv. f_equal. lia. }
  intros [d|d]; simpl; [by intros [-> _]|].
  intros (k & Hk & _ & Hf & _). exfalso. apply Hf. split; [|done].
  apply lookup_lt_is_Some_2. lia.
Qed.

(** What [uiomove] of [n] bytes does to a kernel uio. *)
Lemma uiomove_kuio rw buf ptr n mem pos len off resid :
  kuio_ok mem pos len off resid → 0 ≤ n ≤ resid → 0 ≤ ptr →
  ptr + n ≤ Z.of_nat (length buf) →
  uiomove buf ptr n (kuio rw mem pos len off resid) =
    match rw with
    | UIO_READ =>
        Done (0, buf, kuio rw (buf_write mem pos (slice buf ptr n))
                        (pos + n) (len - n) (off + n) (resid - n))
    | UIO_WRITE =>
        Done (0, buf_write buf ptr (slice mem pos n),
              kuio rw mem (pos + n) (len - n) (off + n) (resid - n))
    end.
Proof.
  intros (Hp & Hm & Hr & Hl & Ho & Hmax) Hn Hptr Hbuf. unfold uiomove, kuio at 1. simpl.
  destruct (decide (n = 0)) as [->|Hn0].
  { unfold slice. simpl. rewrite !buf_write_nil, !Z.add_0_r, !Z.sub_0_r. by destruct rw. }
  assert ((n >? 0) && (resid >? 0) = true) as -> by lia.
  assert ((if len >? n then n else len) = n) as ->.
  { destruct (len >? n) eqn:E; lia. }
  rewrite (proj2 (Z.eqb_neq n 0)) by done.
  assert (Z.to_nat n = S (Z.to_nat (n - 1))) as Hfuel by lia.
  unfold uiomove_chunk. simpl. unfold INT_MAX in *.
  destruct rw; rewrite kmemcpy_wp by lia; simpl; rewrite Hfuel; simpl;
    rewrite Z.sub_diag; simpl;
    rewrite s32_small by (unfold INT_MIN, INT_MAX; lia);
    by rewrite (u32_small (resid - n)) by lia.
Qed.

Lemma kuio_ok_advance mem mem' pos len off resid n :
  kuio_ok mem pos len off resid → 0 ≤ n ≤ resid → length mem' = length mem →
  kuio_ok mem' (pos + n) (len - n) (off + n) (resid - n).
Proof. unfold kuio_ok. intros ?? Hlen. rewrite Hlen. lia. Qed.

Lemma buf_write_app b pos x y :
  0 ≤ pos → pos + Z.of_nat (length x + length y) ≤ Z.of_nat (length b) →
  buf_write (buf_write b pos x) (pos + Z.of_nat (length x)) y = buf_write b pos (x ++ y).
Proof.
  intros Hp Hl. unfold buf_write. rewrite Z2Nat.inj_add, Nat2Z.id by lia.
  assert (length (take (Z.to_nat pos) b ++ x) = Z.to_nat pos + length x)%nat as Hlen.
  { rewrite length_app, length_take. lia. }
  rewrite (app_assoc _ x), take_app_length' by done.
  rewrite drop_app_ge by lia. rewrite Hlen, drop_drop, length_app, <-app_assoc.
  rewrite <-!app_assoc. do 4 f_equal. lia.
Qed.

Lemma uiomovezeros_kuio n mem pos len off resid :
  kuio_ok mem pos len off resid → 0 ≤ n ≤ resid →
  uiomovezeros n (kuio UIO_READ mem pos len off resid) =
    Done (0, kuio UIO_READ (buf_write mem pos (replicate (Z.to_nat n) 0))
               (pos + n) (len - n) (off + n) (resid - n)).
Proof.
  intros Hok Hn. pose proof Hok as (Hp & Hm & Hr & Hl & Ho & Hmax).
  apply wp_eq. unfold uiomovezeros. apply wp_bind, wp_kassert; [done|].
  apply (wp_while_loop (λ '(m, u), 0 ≤ m ≤ n ∧
    u = kuio UIO_READ (buf_write mem pos (replicate (Z.to_nat (n - m)) 0))
          (pos + (n - m)) (len - (n - m)) (off + (n - m)) (resid - (n - m))) _
    (λ '(m, _), m)).
  - rewrite Z.sub_diag, !Z.add_0_r, !Z.sub_0_r. simpl. rewrite buf_write_nil. split; [lia|done].
  - lia.
  - intros [m u] [? _]. lia.
  - intros [m u] [Hm' ->]. cbv beta iota. destruct (Z.gtb_spec m 0).
    2: { simpl. assert (m = 0) as -> by lia. by rewrite Z.sub_0_r. }
    set (amt := if 16 >? m then m else 16).
    assert (0 < amt ≤ 16 ∧ amt ≤ m) as Hamt by (unfold amt; destruct (Z.gtb_spec 16 m); lia).
    assert (slice (replicate 16 0) 0 amt = replicate (Z.to_nat amt) 0) as Hsl.
    { unfold slice. change (Z.to_nat 0) with 0%nat.
      by rewrite drop_0, take_replicate, Nat.min_l by lia. }
    rewrite uiomove_kuio; [|apply kuio_ok_advance with (mem := mem)|..].
    + rewrite Hsl. simpl. split; [|lia]. split; [lia|].
      replace (n - (m - amt)) with ((n - m) + amt) by lia.
      rewrite Z2Nat.inj_add, replicate_add by lia.
      rewrite <-buf_write_app by (rewrite ?length_replicate; lia). rewrite length_replicate.
      f_equal; try lia. f_equal; lia.
    + done.
    + lia.
    + apply length_buf_write. rewrite length_replicate. lia.
    + lia.
    + lia.
    + simpl. lia.
Qed.

(** ** Any buffer *)

(** A uio on one buffer, in the kernel or in the current address space, all of
    which is left to do. *)
Definition uio_ok (u : uio) : Prop :=
  uio_resid u = iov_len u ∧ 0 ≤ iov_len u < 4294967296 ∧
  match iov_base u with
  | KBase mem pos => uio_segflg u = UIO_SYSSPACE ∧ uio_space u = None ∧ 0 ≤ pos ∧ pos + iov_len u ≤ Z.of_nat (length mem)
  | UBase _ _ a => uio_segflg u ≠ UIO_SYSSPACE ∧ uio_space u = cur_vmspace ∧ 0 ≤ a < 4294967296
  end.

(** A chunk between [buf] and such a buffer. *)
Lemma uiomove_chunk_wp buf ptr size u :
  uio_ok u → 0 ≤ size ≤ iov_len u → 0 ≤ ptr → ptr + size ≤ Z.of_nat (length buf) →
  wp (uiomove_chunk buf ptr size u) (λ '(r, buf', base'), length buf' = length buf ∧ (uio_rw_of u = UIO_READ → buf' = buf) ∧
    uio_ok (mkUio base' (if r =? 0 then iov_len u - size else iov_len u) (uio_offset u)
              (if r =? 0 then iov_len u - size else iov_len u) (uio_segflg u) (uio_rw_of u) (uio_space u))).
Proof.
  intros (Hres & Hlen & Hb) Hs Hp Hbuf. unfold uiomove_chunk. destruct (iov_base u) as [mem pos|m bff a].
  - destruct Hb as (-> & Hsp & Hpos & Hmem). destruct (uio_rw_of u) eqn:Hrw; rewrite kmemcpy_wp by lia; cbn.
    + assert (Z.of_nat (length (slice buf ptr size)) = size) by (apply length_slice; lia).
      split; [done|]. split; [done|]. unfold uio_ok; cbn. rewrite length_buf_write by lia. split_and!; done || lia.
    + assert (Z.of_nat (length (slice mem pos size)) = size) by (apply length_slice; lia).
      split; [apply length_buf_write; lia|]. split; [done|]. unfold uio_ok; cbn. split_and!; done || lia.
  - destruct Hb as (Hseg & Hsp & Ha).
    assert (∀ r m' bff' k rw, 0 ≤ k < 4294967296 →
      uio_ok (mkUio (UBase m' bff' k) (if r =? 0 then iov_len u - size else iov_len u) (uio_offset u)
              (if r =? 0 then iov_len u - size else iov_len u) (uio_segflg u) rw (uio_space u))) as Hu.
    { intros r m' bff' k rw Hk. unfold uio_ok; cbn. split_and!; try done; destruct (r =? 0); lia. }
    assert (∀ (X Y : outcome (Z * list Z * iovec_base)) Q, wp Y Q → wp match uio_segflg u with UIO_SYSSPACE => X | _ => Y end Q) as Hsel.
    { intros X Y Q HY. by destruct (uio_segflg u). }
    apply Hsel. destruct (uio_rw_of u) eqn:Hrw; apply wp_bind.
    + eapply wp_mono; [apply copyout_wp; lia|]. intros [[r m'] bff'] _.
      destruct (r =? 0) eqn:Er; cbn; rewrite ?Er; (split; [done|]); (split; [done|]); [apply (Hu 0), u32_range|]; specialize (Hu r); rewrite Er in Hu; by apply Hu.
    + eapply wp_mono; [apply copyin_wp; lia|]. intros [[r d'] bff'] Hc.
      assert (length d' = length buf) as Hd.
      { destruct Hc as [(_ & _ & _ & _ & ->)|(_ & _ & _ & k & Hk & _ & ->)]; apply length_buf_write; rewrite length_ubytes; lia. }
      destruct (r =? 0) eqn:Er; cbn; rewrite ?Er; (split; [done|]); (split; [done|]); [apply (Hu 0), u32_range|]; specialize (Hu r); rewrite Er in Hu; by apply Hu.
Qed.

Lemma uiomove_wp buf ptr n u :
  uio_ok u → 0 ≤ n → 0 ≤ ptr → ptr + n ≤ Z.of_nat (length buf) →
  wp (uiomove buf ptr n u) (λ '(r, buf', u'), length buf' = length buf ∧ (uio_rw_of u = UIO_READ → buf' = buf) ∧
    uio_rw_of u' = uio_rw_of u ∧ uio_ok u' ∧ (r = 0 → uio_resid u' = uio_resid u - Z.min n (uio_resid u)) ∧
    (0 ≤ uio_offset u → uio_offset u + uio_resid u ≤ INT_MAX → uio_offset u' = uio_offset u + (uio_resid u - uio_resid u'))).
Proof.
  intros Hok Hn Hp Hbuf. unfold uiomove. apply wp_bind.
  assert (wp (if decide (uio_segflg u = UIO_SYSSPACE) then kassert (bool_decide (uio_space u = None))
    else kassert (bool_decide (uio_space u = cur_vmspace))) (λ _, True)) as Ha.
  { destruct Hok as (_ & _ & Hb). destruct (iov_base u); case_decide; destruct Hb as (? & ? & _); try done; by rewrite bool_decide_true. }
  eapply wp_mono; [exact Ha|]. intros _ _.
  apply (wp_while_loop (λ '(b, p, k, v), length b = length buf ∧ (uio_rw_of u = UIO_READ → b = buf) ∧ uio_rw_of v = uio_rw_of u ∧ uio_ok v ∧
      0 ≤ k ≤ n ∧ 0 ≤ p ∧ p + k ≤ Z.of_nat (length buf) ∧ uio_resid v = uio_resid u - (n - k) ∧
      (0 ≤ uio_offset u → uio_offset u + uio_resid u ≤ INT_MAX → uio_offset v = uio_offset u + (uio_resid u - uio_resid v))) _
    (λ '(_, _, k, _), k)); [split_and!; done || lia|lia|intros [[[b p] k] v] (_ & _ & _ & _ & ? & _); lia|].
  intros [[[b p] k] v] (Hlen & Hsame & Hv & Hvok & Hk & Hp' & Hb & Hres & Hof). pose proof Hvok as (Er & Hvl & _).
  destruct (Z.gtb_spec k 0); cbn [andb]; [|split_and!; try done; lia].
  destruct (Z.gtb_spec (uio_resid v) 0); [|split_and!; try done; lia]. cbv zeta.
  set (size := if iov_len v >? k then k else iov_len v).
  assert (0 < size ≤ k ∧ size ≤ iov_len v) as Hsize by (unfold size; destruct (Z.gtb_spec (iov_len v) k); lia).
  rewrite (proj2 (Z.eqb_neq size 0)) by lia. apply wp_bind.
  eapply wp_mono; [apply uiomove_chunk_wp; [done|lia|lia|lia]|]. intros [[r b'] base'] (Hlen' & Hsame' & Hu). rewrite Hv in *.
  assert (length b' = length buf ∧ (uio_rw_of u = UIO_READ → b' = buf)) as [Hl' Hs'] by (split; [lia|intros E; rewrite Hsame' by done; auto]).
  destruct (Z.eqb_spec r 0) as [->|Hr]; cbn [negb wp loop_post].
  - destruct Hu as (_ & Hl & Hu). cbn in Hl, Hu. assert (u32 (uio_resid v - size) = iov_len v - size) as Hu32 by (rewrite Er; apply u32_small; lia).
    split_and!; try done; try lia; cbn; rewrite ?Hu32; try lia.
    intros Ho0 Ho1. specialize (Hof Ho0 Ho1). rewrite s32_small by (unfold INT_MIN, INT_MAX in *; lia). lia.
  - split_and!; try done. destruct Hu as (_ & Hl & Hu). cbn in Hl, Hu. by unfold uio_ok; cbn.
Qed.

Lemma uiomove_out buf ptr n u :
  uio_rw_of u = UIO_READ → uio_ok u → 0 ≤ n → 0 ≤ ptr → ptr + n ≤ Z.of_nat (length buf) →
  wp (uiomove buf ptr n u) (λ '(r, buf', u'), buf' = buf ∧ uio_rw_of u' = UIO_READ ∧ uio_ok u').
Proof.
  intros Hrw Hok Hn Hp Hbuf. eapply wp_mono; [by apply uiomove_wp|].
  intros [[r buf'] u'] (_ & Hb & Hrw' & Hu & _). split_and!; [by apply Hb|congruence|done].
Qed.
End uio.
