(* ===== verification/SfsDisk.v ===== *)
(** * kern/include/kern/sfs.h: the on-disk structures of SFS

    A disk block is a list of 512 bytes.  The structures are read from and
    written to the disk as they lie in memory; the machine is big-endian, so a
    word is four bytes, most significant first.  The theorem is that every
    structure fits its block and survives a trip through it. *)

From S2P Require Import Prelude.

Definition SFS_MAGIC : Z := 0xabadf001.
Definition SFS_BLOCKSIZE : Z := 512.
Definition SFS_VOLNAME_SIZE : Z := 32.
Definition SFS_NDIRECT : Z := 15.
Definition SFS_DBPERIDB : Z := 128.
Definition SFS_NAMELEN : Z := 60.
Definition SFS_SB_LOCATION : Z := 0.
Definition SFS_ROOT_LOCATION : Z := 1.
Definition SFS_MAP_LOCATION : Z := 2.
Definition SFS_NOINO : Z := 0.
Definition SFS_BLOCKBITS : Z := SFS_BLOCKSIZE * 8.
Definition SFS_ROUNDUP (a b : Z) : Z := u32 (u32 (a + b - 1) / b * b).
Definition SFS_BITMAPSIZE (nblocks : Z) : Z := SFS_ROUNDUP nblocks SFS_BLOCKBITS.
Definition SFS_BITBLOCKS (nblocks : Z) : Z := SFS_BITMAPSIZE nblocks / SFS_BLOCKBITS.
Definition SFS_TYPE_INVAL : Z := 0.
Definition SFS_TYPE_FILE : Z := 1.
Definition SFS_TYPE_DIR : Z := 2.

Record sfs_super := mkSuper {
  sp_magic : Z;
  sp_nblocks : Z;
  sp_volname : list Z;
  sp_reserved : list Z;
}.

Record sfs_inode := mkInode {
  sfi_size : Z;
  sfi_type : Z;
  sfi_linkcount : Z;
  sfi_direct : list Z;
  sfi_indirect : Z;
  sfi_waste : list Z;
}.

Record sfs_dir := mkDir {
  sfd_ino : Z;
  sfd_name : list Z;
}.

(** ** Words and bytes *)

Abbreviation is_byte := (λ b : Z, 0 ≤ b < 256).
Abbreviation is_word := (λ w : Z, 0 ≤ w < 4294967296).

Definition be32 (w : Z) : list Z :=
  [w / 16777216 mod 256; w / 65536 mod 256; w / 256 mod 256; w mod 256].

Definition be32s (ws : list Z) : list Z := ws ≫= be32.
Arguments be32s : simpl never.

Fixpoint de32s (bs : list Z) : list Z :=
  match bs with
  | a :: b :: c :: d :: bs' => (((a * 256 + b) * 256 + c) * 256 + d) :: de32s bs'
  | _ => []
  end.

(** ** The layout of the structures *)

Definition encode_super (s : sfs_super) : list Z :=
  be32s [sp_magic s; sp_nblocks s] ++ sp_volname s ++ be32s (sp_reserved s).

Definition decode_super (bs : list Z) : sfs_super :=
  mkSuper (default 0 (de32s bs !! 0%nat)) (default 0 (de32s bs !! 1%nat))
    (take 32 (drop 8 bs)) (de32s (drop 40 bs)).

(** The two 16-bit fields share a word. *)
Definition encode_inode (i : sfs_inode) : list Z :=
  be32s (sfi_size i :: sfi_type i * 65536 + sfi_linkcount i ::
         sfi_direct i ++ sfi_indirect i :: sfi_waste i).

Definition decode_inode (bs : list Z) : sfs_inode :=
  let ws := de32s bs in
  mkInode (default 0 (ws !! 0%nat)) (default 0 (ws !! 1%nat) / 65536)
    (default 0 (ws !! 1%nat) mod 65536) (take 15 (drop 2 ws))
    (default 0 (ws !! 17%nat)) (drop 18 ws).

Definition encode_dir (d : sfs_dir) : list Z := be32 (sfd_ino d) ++ sfd_name d.

Definition decode_dir (bs : list Z) : sfs_dir :=
  mkDir (default 0 (de32s bs !! 0%nat)) (drop 4 bs).

(** What the C types say about the fields. *)
Definition super_wf (s : sfs_super) : Prop :=
  is_word (sp_magic s) ∧ is_word (sp_nblocks s) ∧
  length (sp_volname s) = 32%nat ∧ Forall is_byte (sp_volname s) ∧
  length (sp_reserved s) = 118%nat ∧ Forall is_word (sp_reserved s).

Definition inode_wf (i : sfs_inode) : Prop :=
  is_word (sfi_size i) ∧ 0 ≤ sfi_type i < 65536 ∧ 0 ≤ sfi_linkcount i < 65536 ∧
  length (sfi_direct i) = 15%nat ∧ Forall is_word (sfi_direct i) ∧
  is_word (sfi_indirect i) ∧
  length (sfi_waste i) = 110%nat ∧ Forall is_word (sfi_waste i).

Definition dir_wf (d : sfs_dir) : Prop :=
  is_word (sfd_ino d) ∧ length (sfd_name d) = 60%nat ∧ Forall is_byte (sfd_name d).

(** ** Lemmas *)

Lemma length_be32s ws : length (be32s ws) = (4 * length ws)%nat.
Proof.
  induction ws as [|w ws IH]; [done|].
  change (be32s (w :: ws)) with (be32 w ++ be32s ws). rewrite length_app, IH. simpl. lia.
Qed.

Lemma be32_bytes w : Forall is_byte (be32 w).
Proof. unfold be32. repeat constructor; dlia. Qed.

Lemma be32s_bytes ws : Forall is_byte (be32s ws).
Proof.
  induction ws as [|w ws IH]; [constructor|].
  change (be32s (w :: ws)) with (be32 w ++ be32s ws).
  apply Forall_app_2; [apply be32_bytes|done].
Qed.

Lemma de32s_be32s_app ws bs :
  Forall is_word ws → de32s (be32s ws ++ bs) = ws ++ de32s bs.
Proof.
  induction 1 as [|w ws Hw _ IH]; [done|].
  change (be32s (w :: ws)) with (be32 w ++ be32s ws). rewrite <-app_assoc. simpl.
  rewrite IH. f_equal. dlia.
Qed.

Lemma de32s_be32s ws : Forall is_word ws → de32s (be32s ws) = ws.
Proof. intros. by rewrite <-(app_nil_r (be32s ws)), de32s_be32s_app, app_nil_r. Qed.

Lemma bytes4_ind (P : list Z → Prop) :
  P [] → (∀ a b c d bs, P bs → P (a :: b :: c :: d :: bs)) →
  ∀ n bs, length bs = (4 * n)%nat → P bs.
Proof.
  intros H0 H4. induction n as [|n IH]; intros bs Hlen.
  - by destruct bs.
  - destruct bs as [|a [|b [|c [|d bs]]]]; simpl in Hlen; try lia.
    apply H4, IH. lia.
Qed.

Lemma de32s_facts n bs :
  length bs = (4 * n)%nat → Forall is_byte bs →
  be32s (de32s bs) = bs ∧ length (de32s bs) = n ∧ Forall is_word (de32s bs).
Proof.
  revert bs. induction n as [|n IH]; intros bs Hlen Hb.
  { destruct bs; [|done]. split_and!; [done..|constructor]. }
  destruct bs as [|a [|b [|c [|d bs]]]]; simpl in Hlen; try lia.
  apply Forall_cons in Hb as [Ha Hb]. apply Forall_cons in Hb as [Hb Hc].
  apply Forall_cons in Hc as [Hc Hd]. apply Forall_cons in Hd as [Hd Hbs].
  destruct (IH bs) as (IH1 & IH2 & IH3); [lia|done|]. simpl. split_and!.
  - change (be32s (?w :: ?ws)) with (be32 w ++ be32s ws). rewrite IH1.
    unfold be32. simpl. repeat f_equal; dlia.
  - by rewrite IH2.
  - constructor; [lia|done].
Qed.

Lemma is_word_pair t l : 0 ≤ t < 65536 → 0 ≤ l < 65536 → is_word (t * 65536 + l).
Proof. simpl. lia. Qed.

Lemma encode_inode_length i : inode_wf i → length (encode_inode i) = 512%nat.
Proof.
  intros (?&?&?&Hd&?&?&Hw&?). unfold encode_inode.
  rewrite length_be32s. simpl. rewrite length_app. simpl. lia.
Qed.

Lemma encode_inode_bytes i : Forall is_byte (encode_inode i).
Proof. apply be32s_bytes. Qed.

Lemma inode_words (a b ind : Z) dir waste :
  length dir = 15%nat →
  let ws := a :: b :: dir ++ ind :: waste in
  take 15 (drop 2 ws) = dir ∧ ws !! 17%nat = Some ind ∧ drop 18 ws = waste.
Proof.
  intros Hd ws. unfold ws. split_and!.
  - change (drop 2 (a :: b :: dir ++ ind :: waste)) with (dir ++ ind :: waste).
    by apply take_app_length'.
  - change ((dir ++ ind :: waste) !! 15%nat = Some ind).
    by apply list_lookup_middle.
  - change (drop 16 (dir ++ ind :: waste) = waste).
    rewrite drop_app_ge, Hd by lia. done.
Qed.

Lemma decode_encode_inode i : inode_wf i → decode_inode (encode_inode i) = i.
Proof.
  intros (Hs & Ht & Hl & Hd & Hdw & Hi & Hw & Hww). unfold decode_inode, encode_inode.
  rewrite de32s_be32s.
  2: { constructor; [done|]. constructor; [by apply is_word_pair|].
       apply Forall_app_2; [done|]. by constructor. }
  destruct (inode_words (sfi_size i) (sfi_type i * 65536 + sfi_linkcount i)
    (sfi_indirect i) (sfi_direct i) (sfi_waste i) Hd) as (-> & -> & ->).
  destruct i as [sz t l dir ind waste]. cbn in *. f_equal; dlia.
Qed.

Lemma decode_inode_wf bs :
  length bs = 512%nat → Forall is_byte bs →
  inode_wf (decode_inode bs) ∧ encode_inode (decode_inode bs) = bs.
Proof.
  intros Hlen Hb. destruct (de32s_facts 128 bs) as (Henc & Hl & Hw); [done..|].
  unfold decode_inode, inode_wf, encode_inode. cbn -[Z.mul Z.add].
  destruct (de32s bs) as [|w0 [|w1 ws]] eqn:E; try done. simpl.
  apply Forall_cons in Hw as [Hw0 Hw]. apply Forall_cons in Hw as [Hw1 Hw].
  simpl in Hl. destruct (lookup_lt_is_Some_2 ws 15) as [wi Hwi]; [lia|].
  assert (Forall is_word (drop 15 ws)) as Hd by by apply Forall_drop.
  rewrite (drop_S ws wi) in Hd by done. apply Forall_cons in Hd as [Hwi' Hd].
  rewrite Hwi. simpl. split; [split_and!|].
  all: try (first [lia|dlia|by apply Forall_take]).
  - rewrite length_take, drop_0. lia.
  - rewrite length_drop. lia.
  - done.
  - rewrite <-Henc, drop_0. do 2 f_equal. f_equal; [dlia|].
    rewrite <-(drop_S ws wi) by done. apply take_drop.
Qed.

Lemma encode_super_length s : super_wf s → length (encode_super s) = 512%nat.
Proof.
  intros (?&?&Hv&?&Hr&?). unfold encode_super. rewrite !length_app, !length_be32s. simpl. lia.
Qed.

Lemma decode_encode_super s : super_wf s → decode_super (encode_super s) = s.
Proof.
  intros (Hm & Hn & Hv & Hvb & Hr & Hrw). unfold decode_super, encode_super.
  rewrite de32s_be32s_app by (by constructor; [|constructor; [|constructor]]).
  rewrite (drop_app_length' (be32s [_; _])) by by rewrite length_be32s.
  rewrite take_app_length' by done. rewrite (app_assoc (be32s _)).
  rewrite drop_app_length' by (rewrite length_app, length_be32s, Hv; done).
  rewrite de32s_be32s by done. by destruct s.
Qed.

Lemma decode_super_wf bs :
  length bs = 512%nat → Forall is_byte bs →
  super_wf (decode_super bs) ∧ encode_super (decode_super bs) = bs.
Proof.
  intros Hlen Hb. unfold super_wf, decode_super, encode_super. cbn [sp_magic sp_nblocks sp_volname sp_reserved].
  rewrite <-(take_drop 8 bs). set (h := take 8 bs). set (t := drop 8 bs).
  assert (length h = 8%nat) as Hh by (unfold h; rewrite length_take; lia).
  assert (length t = 504%nat) as Ht by (unfold t; rewrite length_drop; lia).
  assert (Forall is_byte h) as Hhb by by apply Forall_take.
  assert (Forall is_byte t) as Htb by by apply Forall_drop.
  destruct (de32s_facts 2 h) as (He & Hl & Hw); [done..|].
  destruct (de32s_facts 118 (drop 32 t)) as (He2 & Hl2 & Hw2);
    [rewrite length_drop; lia|by apply Forall_drop|].
  destruct (de32s h) as [|m [|n [|? ?]]] eqn:E; try done.
  assert (de32s (h ++ t) = m :: n :: de32s t) as ->.
  { rewrite <-He, de32s_be32s_app by done. done. }
  rewrite (drop_app_length' h) by done.
  replace (drop 40 (h ++ t)) with (drop 32 t) by (rewrite drop_app_ge, Hh by lia; done).
  apply Forall_cons in Hw as [? Hw]. apply Forall_cons in Hw as [? _].
  change (default 0 ((m :: n :: de32s t) !! 0%nat)) with m.
  change (default 0 ((m :: n :: de32s t) !! 1%nat)) with n.
  split; [split_and!; try done; try lia|].
  - rewrite length_take. lia.
  - by apply Forall_take.
  - rewrite He2, He. f_equal. apply take_drop.
Qed.

Lemma encode_dir_length d : dir_wf d → length (encode_dir d) = 64%nat.
Proof. intros (?&Hn&?). unfold encode_dir. rewrite length_app, Hn. done. Qed.

Lemma encode_dir_bytes d : dir_wf d → Forall is_byte (encode_dir d).
Proof. intros (?&?&?). apply Forall_app_2; [apply be32_bytes|done]. Qed.

Lemma decode_encode_dir d : dir_wf d → decode_dir (encode_dir d) = d.
Proof.
  intros (Hi & Hn & Hb). unfold decode_dir, encode_dir.
  change (be32 (sfd_ino d)) with (be32s [sfd_ino d]).
  rewrite de32s_be32s_app by (by constructor).
  rewrite drop_app_length' by done. by destruct d.
Qed.

Lemma decode_dir_wf bs :
  length bs = 64%nat → Forall is_byte bs →
  dir_wf (decode_dir bs) ∧ encode_dir (decode_dir bs) = bs.
Proof.
  intros Hlen Hb. unfold dir_wf, decode_dir, encode_dir. cbn [sfd_ino sfd_name].
  rewrite <-(take_drop 4 bs). set (h := take 4 bs). set (t := drop 4 bs).
  assert (length h = 4%nat) as Hh by (unfold h; rewrite length_take; lia).
  assert (Forall is_byte h) as Hhb by by apply Forall_take.
  destruct (de32s_facts 1 h) as (He & Hl & Hw); [done..|].
  destruct (de32s h) as [|m [|? ?]] eqn:E; try done.
  rewrite <-He, de32s_be32s_app by done. rewrite drop_app_length' by done.
  change (default 0 (([m] ++ de32s t) !! 0%nat)) with m.
  apply Forall_cons in Hw as [? _]. split; [split_and!; try lia|done].
  - unfold t. rewrite length_drop. lia.
  - by apply Forall_drop.
Qed.

(** The on-disk structures survive a trip through the disk.  A
    superblock and an inode fill exactly one 512-byte block and a directory
    entry 64 bytes, so a block holds a whole number of entries; what is
    written is read back unchanged; and every block of bytes is the image of
    exactly one structure, so reading and writing back changes nothing. *)
Theorem sfs_structs_roundtrip :
  (∀ s, super_wf s → length (encode_super s) = 512%nat ∧ decode_super (encode_super s) = s) ∧
  (∀ i, inode_wf i → length (encode_inode i) = 512%nat ∧ decode_inode (encode_inode i) = i) ∧
  (∀ d, dir_wf d → length (encode_dir d) = 64%nat ∧ decode_dir (encode_dir d) = d) ∧
  (∀ bs, Forall is_byte bs →
     (length bs = 512%nat → super_wf (decode_super bs) ∧ encode_super (decode_super bs) = bs) ∧
     (length bs = 512%nat → inode_wf (decode_inode bs) ∧ encode_inode (decode_inode bs) = bs) ∧
     (length bs = 64%nat → dir_wf (decode_dir bs) ∧ encode_dir (decode_dir bs) = bs)).
Proof.
  split_and!.
  - intros s Hs. split; [by apply encode_super_length|by apply decode_encode_super].
  - intros i Hi. split; [by apply encode_inode_length|by apply decode_encode_inode].
  - intros d Hd. split; [by apply encode_dir_length|by apply decode_encode_dir].
  - intros bs Hb. split_and!; intros Hl;
      [by apply decode_super_wf|by apply decode_inode_wf|by apply decode_dir_wf].
Qed.
