(* ===== verification/Dev.v ===== *)
(** * kern/include/dev.h: block devices

    The interface between the filesystem and a disk driver: the operations of
    [struct device], and what a disk promises to its user.  The filesystem is
    verified against the promises; the lhd driver (file Lhd) keeps them. *)

From S2P Require Import Prelude Copyinout Uio SfsDisk.

(** The part of [struct device] that the filesystem uses. *)
Class BlockDev (D : Type) := {
  d_io : D → uio → outcome (Z * uio * D);
  d_blocks : D → Z;
  d_blocksize : D → Z;
}.

(** A sector of 512 bytes. *)
Definition sector_ok (s : list Z) : Prop := length s = 512%nat ∧ Forall is_byte s.

(** What a disk without media errors promises: it has contents, reads them and
    replaces them one sector at a time, and nothing else happens to them. *)
Class Disk (D : Type) `{!BlockDev D} := {
  d_data : D → list (list Z);
  d_ok : D → Prop;
  d_ok_size d : d_ok d →
    Z.of_nat (length (d_data d)) = d_blocks d ∧ d_blocks d ≤ 4194303 ∧
    Forall sector_ok (d_data d);
  d_ok_blocksize d : d_ok d → d_blocksize d = 512;
  d_read d b sec mem pos len :
    d_ok d → 0 ≤ b → d_data d !! Z.to_nat b = Some sec →
    kuio_ok mem pos len (b * 512) 512 →
    wp (d_io d (kuio UIO_READ mem pos len (b * 512) 512)) (λ '(r, u, d'),
      r = 0 ∧ u = kuio UIO_READ (buf_write mem pos sec) (pos + 512) (len - 512) (b * 512 + 512) 0 ∧
      d_ok d' ∧ d_data d' = d_data d ∧ d_blocks d' = d_blocks d);
  d_write d b mem pos len :
    d_ok d → 0 ≤ b < d_blocks d → Forall is_byte (slice mem pos 512) →
    kuio_ok mem pos len (b * 512) 512 →
    wp (d_io d (kuio UIO_WRITE mem pos len (b * 512) 512)) (λ '(r, u, d'),
      r = 0 ∧ u = kuio UIO_WRITE mem (pos + 512) (len - 512) (b * 512 + 512) 0 ∧
      d_ok d' ∧ d_data d' = <[Z.to_nat b := slice mem pos 512]> (d_data d) ∧
      d_blocks d' = d_blocks d);
}.
