(* ===== verification/Vnode.v ===== *)
(** * kern/fs/vfs/vnode.c: reference counts and open counts of vnodes

    The state a vnode adds to a file of a filesystem.  [Ops] is the type of
    function tables; what the world a vnode lives in looks like is up to the
    filesystem, so the operations take the functions that fetch and store the
    vnode.  [vn_countlock] is only held around each access to the counts; in
    a sequence of calls it is always free, so that it is created or not is
    all the model keeps of it. *)

From S2P Require Import Prelude Uio.

(** struct stat and the file types of kern/stat.h. *)
Record stat := mkStat { st_mode : Z; st_nlink : Z; st_size : Z; st_blocks : Z }.

Definition S_IFMT : Z := 28672.
Definition S_IFREG : Z := 4096.
Definition S_IFDIR : Z := 8192.
Definition S_IFCHR : Z := 16384.
Definition S_IFBLK : Z := 20480.

(** Flags of [open] (kern/unistd.h). *)
Definition O_RDONLY : Z := 0.
Definition O_WRONLY : Z := 1.
Definition O_RDWR : Z := 2.
Definition O_CREAT : Z := 4.
Definition O_EXCL : Z := 8.
Definition O_TRUNC : Z := 16.
Definition O_APPEND : Z := 32.
Definition O_ACCMODE : Z := 3.

(** struct vnode_ops: the functions of a filesystem, on vnodes named by their
    addresses in a world [W]; strings are lists of bytes without the
    terminator. *)
Record vnode_ops (W : Type) := mkOps {
  vop_open : Z → Z → stm W Z;
  vop_close : Z → stm W Z;
  vop_reclaim : Z → stm W Z;
  vop_read : Z → uio → stm W (Z * uio);
  vop_readlink : Z → uio → stm W (Z * uio);
  vop_getdirentry : Z → uio → stm W (Z * uio);
  vop_write : Z → uio → stm W (Z * uio);
  vop_ioctl : Z → Z → Z → stm W Z;
  vop_stat : Z → stm W (Z * stat);
  vop_gettype : Z → stm W (Z * Z);
  vop_tryseek : Z → Z → stm W Z;
  vop_fsync : Z → stm W Z;
  vop_mmap : Z → stm W Z;
  vop_truncate : Z → Z → stm W Z;
  vop_namefile : Z → uio → stm W (Z * uio);
  vop_creat : Z → list Z → bool → stm W (Z * Z);
  vop_symlink : Z → list Z → list Z → stm W Z;
  vop_mkdir : Z → list Z → stm W Z;
  vop_link : Z → list Z → Z → stm W Z;
  vop_remove : Z → list Z → stm W Z;
  vop_rmdir : Z → list Z → stm W Z;
  vop_rename : Z → list Z → Z → list Z → stm W Z;
  vop_lookup : Z → list Z → stm W (Z * Z);
  vop_lookparent : Z → list Z → Z → stm W (Z * Z * list Z);
}.
Arguments mkOps {W} _ _ _ _ _ _ _ _ _ _ _ _ _ _ _ _ _ _ _ _ _ _ _ _.
Arguments vop_open {W} _.
Arguments vop_close {W} _.
Arguments vop_reclaim {W} _.
Arguments vop_read {W} _.
Arguments vop_readlink {W} _.
Arguments vop_getdirentry {W} _.
Arguments vop_write {W} _.
Arguments vop_ioctl {W} _.
Arguments vop_stat {W} _.
Arguments vop_gettype {W} _.
Arguments vop_tryseek {W} _.
Arguments vop_fsync {W} _.
Arguments vop_mmap {W} _.
Arguments vop_truncate {W} _.
Arguments vop_namefile {W} _.
Arguments vop_creat {W} _.
Arguments vop_symlink {W} _.
Arguments vop_mkdir {W} _.
Arguments vop_link {W} _.
Arguments vop_remove {W} _.
Arguments vop_rmdir {W} _.
Arguments vop_rename {W} _.
Arguments vop_lookup {W} _.
Arguments vop_lookparent {W} _.

Record vnode (Ops : Type) := mkVnode {
  vn_refcount : Z;
  vn_opencount : Z;
  vn_countlock : bool;
  vn_ops : option Ops;
}.
Arguments mkVnode {Ops} _ _ _ _.
Arguments vn_refcount {Ops} _.
Arguments vn_opencount {Ops} _.
Arguments vn_countlock {Ops} _.
Arguments vn_ops {Ops} _.

Section vnode.
Context {Ops : Type}.
Implicit Types v : vnode Ops.

(** [mem] is the answer of [lock_create]. *)
Definition vnode_init (mem : bool) (ops : Ops) : Z * vnode Ops :=
  if negb mem then (ENOMEM, mkVnode 1 0 false (Some ops))
  else (0, mkVnode 1 0 true (Some ops)).

Definition vnode_kill v : outcome (vnode Ops) :=
  kassert (vn_refcount v =? 1);;
  kassert (vn_opencount v =? 0);;
  kassert (vn_countlock v);;
  Done (mkVnode 0 0 false None).

Definition vnode_incref v : outcome (vnode Ops) :=
  n ← to_int (vn_refcount v + 1);
  Done (mkVnode n (vn_opencount v) (vn_countlock v) (vn_ops v)).

Definition vnode_incopen v : outcome (vnode Ops) :=
  n ← to_int (vn_opencount v + 1);
  Done (mkVnode (vn_refcount v) n (vn_countlock v) (vn_ops v)).

(** The checks before every [VOP_] call; [reclaim] tells whether the call is
    [VOP_RECLAIM].  Large counts are only reported. *)
Definition vnode_check v (reclaim : bool) : outcome Ops :=
  match vn_ops v with
  | None => Panic
  | Some ops =>
      if vn_refcount v <? 0 then Panic else
      if (vn_refcount v =? 0) && negb reclaim then Panic else
      if vn_opencount v <? 0 then Panic else
      Done ops
  end.

Section world.
Context {W : Type} (get : stm W (vnode Ops)) (put : vnode Ops → stm W unit).

(** [VOP_X(vn, ...)]: the checks, then the function of the table. *)
Definition VOP {A} (reclaim : bool) (call : Ops → stm W A) : stm W A :=
  v ← get; ops ← lift (vnode_check v reclaim); call ops.

(** A failure of [VOP_RECLAIM] is reported and ignored. *)
Definition vnode_decref (vop_reclaim : Ops → stm W Z) : stm W unit :=
  v ← get;
  lift (kassert (vn_refcount v >? 0));;
  if vn_refcount v >? 1 then
    put (mkVnode (vn_refcount v - 1) (vn_opencount v) (vn_countlock v) (vn_ops v))
  else
    _ ← VOP true vop_reclaim; mret tt.

(** The last close calls [VOP_CLOSE]; its failure is reported and ignored. *)
Definition vnode_decopen (vop_close : Ops → stm W Z) : stm W unit :=
  v ← get;
  lift (kassert (vn_opencount v >? 0));;
  put (mkVnode (vn_refcount v) (vn_opencount v - 1) (vn_countlock v) (vn_ops v));;
  if vn_opencount v - 1 >? 0 then mret tt else
  _ ← VOP false vop_close; mret tt.
End world.
End vnode.
