(* ===== verification/SfsIo.v ===== *)
(** * kern/fs/sfs: blocks, block mapping and file I/O

    The functions of sfs_io.c and the first half of sfs_vnode.c.  They work on
    the filesystem ([struct sfs_fs]) and one file ([struct sfs_vnode]); the
    state of the second group is the pair.  The static buffers of the code
    ([idbuf], [iobuf], [zeros]) are local here: each is filled before it is
    read. *)

From S2P Require Import Prelude Array Bitmap Uio SfsDisk Dev Vnode.

(** The two function tables of SFS, [sfs_fileops] and [sfs_dirops]. *)
Inductive sfs_ops := SfsFileOps | SfsDirOps.

Record sfs_fs (D : Type) := mkFs {
  sfs_super_of : sfs_super;
  sfs_superdirty : bool;
  sfs_device : D;
  sfs_vnodes : array Z;
  sfs_freemap : bitmap;
  sfs_freemapdirty : bool;
}.
Arguments mkFs {D} _ _ _ _ _ _.
Arguments sfs_super_of {D} _.
Arguments sfs_superdirty {D} _.
Arguments sfs_device {D} _.
Arguments sfs_vnodes {D} _.
Arguments sfs_freemap {D} _.
Arguments sfs_freemapdirty {D} _.

Record sfs_vnode := mkSv {
  sv_v : vnode sfs_ops;
  sv_i : sfs_inode;
  sv_ino : Z;
  sv_dirty : bool;
}.

Section sfs.
Context {D : Type} `{!BlockDev D} {cs : CurSpace}.

Definition set_device (d : D) (fs : sfs_fs D) : sfs_fs D :=
  mkFs (sfs_super_of fs) (sfs_superdirty fs) d (sfs_vnodes fs) (sfs_freemap fs)
    (sfs_freemapdirty fs).
Definition set_freemap (bm : bitmap) (fs : sfs_fs D) : sfs_fs D :=
  mkFs (sfs_super_of fs) (sfs_superdirty fs) (sfs_device fs) (sfs_vnodes fs) bm true.

Definition set_inode (i : sfs_inode) (sv : sfs_vnode) : sfs_vnode :=
  mkSv (sv_v sv) i (sv_ino sv) true.

(** The memory of a kernel uio. *)
Definition kmem (u : uio) : list Z :=
  match iov_base u with KBase mem _ => mem | UBase _ _ _ => [] end.

(** ** sfs_io.c *)

(** At most ten retries after EIO. *)
Definition sfs_rwblock (u : uio) : stm (sfs_fs D) (Z * uio) := λ fs,
  while_loop 12
    (λ '(tries, u, fs),
       '(result, u', d') ← d_io (sfs_device fs) u;
       let fs' := set_device d' fs in
       if result =? EINVAL then Panic else
       if (result =? EIO) && (tries <? 10) then Done (inl (tries + 1, u', fs'))
       else Done (inr ((result, u'), fs'))) (0, u, fs).

(** The offset computed by [SFSUIO]: [((off_t)block) * SFS_BLOCKSIZE]. *)
Definition sfs_blockpos (block : Z) : outcome Z := to_int (s32 block * SFS_BLOCKSIZE).

Definition sfs_rblock (data : list Z) (block : Z) : stm (sfs_fs D) (Z * list Z) :=
  pos ← lift (sfs_blockpos block);
  '(result, ku) ← sfs_rwblock (mk_kuio data 0 SFS_BLOCKSIZE pos UIO_READ);
  mret (result, kmem ku).

Definition sfs_wblock (data : list Z) (block : Z) : stm (sfs_fs D) Z :=
  pos ← lift (sfs_blockpos block);
  '(result, _) ← sfs_rwblock (mk_kuio data 0 SFS_BLOCKSIZE pos UIO_WRITE);
  mret result.

(** ** Space allocation *)

Definition zero_block : list Z := replicate 512 0.

Definition sfs_clearblock (block : Z) : stm (sfs_fs D) Z := sfs_wblock zero_block block.

(** The result code and the block. *)
Definition sfs_balloc : stm (sfs_fs D) (Z * Z) :=
  fs ← gets id;
  '(r, bm) ← lift (bitmap_alloc (sfs_freemap fs));
  match r with
  | Err e => mret (e, 0)
  | Ok diskblock =>
      modify (set_freemap bm);;
      if diskblock >=? sp_nblocks (sfs_super_of fs) then lift Panic else
      result ← sfs_clearblock diskblock;
      mret (result, diskblock)
  end.

Definition sfs_bfree (diskblock : Z) : stm (sfs_fs D) unit :=
  fs ← gets id;
  bm ← lift (bitmap_unmark (sfs_freemap fs) diskblock);
  modify (set_freemap bm).

Definition sfs_bused (diskblock : Z) : stm (sfs_fs D) bool :=
  fs ← gets id;
  if diskblock >=? sp_nblocks (sfs_super_of fs) then lift Panic else
  r ← lift (bitmap_isset (sfs_freemap fs) diskblock);
  mret (negb (r =? 0)).

(** ** A file of the filesystem *)

Record fstate := mkF { f_fs : sfs_fs D; f_sv : sfs_vnode }.

Definition on_fs {A} (m : stm (sfs_fs D) A) : stm fstate A := λ s,
  '(a, fs) ← m (f_fs s); Done (a, mkF fs (f_sv s)).

(** [sv->sv_i = i; sv->sv_dirty = 1;] *)
Definition put_inode (i : sfs_inode) : stm fstate unit :=
  modify (λ s, mkF (f_fs s) (set_inode i (f_sv s))).

Definition set_direct (i : sfs_inode) (l : list Z) : sfs_inode :=
  mkInode (sfi_size i) (sfi_type i) (sfi_linkcount i) l (sfi_indirect i) (sfi_waste i).
Definition set_indirect (i : sfs_inode) (b : Z) : sfs_inode :=
  mkInode (sfi_size i) (sfi_type i) (sfi_linkcount i) (sfi_direct i) b (sfi_waste i).
Definition set_size (i : sfs_inode) (n : Z) : sfs_inode :=
  mkInode n (sfi_type i) (sfi_linkcount i) (sfi_direct i) (sfi_indirect i) (sfi_waste i).

Definition sfs_sync_inode : stm fstate Z :=
  sv ← gets f_sv;
  if sv_dirty sv then
    result ← on_fs (sfs_wblock (encode_inode (sv_i sv)) (sv_ino sv));
    if negb (result =? 0) then mret result else
    modify (λ s, mkF (f_fs s) (mkSv (sv_v sv) (sv_i sv) (sv_ino sv) false));;
    mret 0
  else mret 0.

(** [if (block != 0 && !sfs_bused(sfs, block)) panic(...)] *)
Definition check_used (block : Z) : stm fstate unit :=
  if block =? 0 then mret tt else
  used ← on_fs (sfs_bused block);
  if (used : bool) then mret tt else lift Panic.

(** The part of [sfs_bmap] for the direct blocks. *)
Definition sfs_bmap_direct (fileblock : Z) (doalloc : bool) : stm fstate (Z * Z) :=
  i ← gets (λ s, sv_i (f_sv s));
  block ← lift (arr_get (sfi_direct i) fileblock);
  '(result, block) ←
    (if (block =? 0) && doalloc then
       '(result, block) ← on_fs sfs_balloc;
       if negb (result =? 0) then mret (result, block) else
       direct ← lift (arr_set (sfi_direct i) fileblock block);
       put_inode (set_direct i direct);;
       mret (0, block)
     else mret (0, block));
  if negb (result =? 0) then mret (result, 0) else
  check_used block;;
  mret (0, block).

(** The indirect block of the file and its contents: the result code, the
    block and the buffer, [None] when there is no indirect block and none is
    to be allocated. *)
Definition sfs_bmap_idblock (doalloc : bool) : stm fstate (Z * option (Z * list Z)) :=
  i ← gets (λ s, sv_i (f_sv s));
  let idblock := sfi_indirect i in
  if (idblock =? 0) && negb doalloc then mret (0, None) else
  if idblock =? 0 then
    '(result, idblock) ← on_fs sfs_balloc;
    if negb (result =? 0) then mret (result, None) else
    put_inode (set_indirect i idblock);;
    mret (0, Some (idblock, replicate 128 0))
  else
    '(result, data) ← on_fs (sfs_rblock zero_block idblock);
    if negb (result =? 0) then mret (result, None) else
    mret (0, Some (idblock, de32s data)).

Definition sfs_bmap (fileblock : Z) (doalloc : bool) : stm fstate (Z * Z) :=
  if fileblock <? SFS_NDIRECT then sfs_bmap_direct fileblock doalloc else
  let fileblock := fileblock - SFS_NDIRECT in
  let idnum := fileblock / SFS_DBPERIDB in
  let idoff := fileblock mod SFS_DBPERIDB in
  if idnum >? 0 then mret (EINVAL, 0) else
  '(result, id) ← sfs_bmap_idblock doalloc;
  if negb (result =? 0) then mret (result, 0) else
  match id with
  | None => mret (0, 0)
  | Some (idblock, idbuf) =>
      block ← lift (arr_get idbuf idoff);
      '(result, block) ←
        (if (block =? 0) && doalloc then
           '(result, block) ← on_fs sfs_balloc;
           if negb (result =? 0) then mret (result, block) else
           idbuf' ← lift (arr_set idbuf idoff block);
           result ← on_fs (sfs_wblock (be32s idbuf') idblock);
           mret (result, block)
         else mret (0, block));
      if negb (result =? 0) then mret (result, 0) else
      check_used block;;
      mret (0, block)
  end.

(** ** File-level I/O *)

Definition sfs_partialio (u : uio) (skipstart len : Z) : stm fstate (Z * uio) :=
  let doalloc := bool_decide (uio_rw_of u = UIO_WRITE) in
  lift (kassert (u32 (skipstart + len) <=? SFS_BLOCKSIZE));;
  let fileblock := u32 (Z.quot (uio_offset u) SFS_BLOCKSIZE) in
  '(result, diskblock) ← sfs_bmap fileblock doalloc;
  if negb (result =? 0) then mret (result, u) else
  '(result, iobuf) ←
    (if diskblock =? 0 then
       lift (kassert (bool_decide (uio_rw_of u = UIO_READ)));;
       mret (0, zero_block)
     else on_fs (sfs_rblock zero_block diskblock));
  if negb (result =? 0) then mret (result, u) else
  '(result, iobuf, u) ← lift (uiomove iobuf skipstart len u);
  if negb (result =? 0) then mret (result, u) else
  if decide (uio_rw_of u = UIO_WRITE) then
    result ← on_fs (sfs_wblock iobuf diskblock);
    mret (result, u)
  else mret (0, u).

Definition set_uio_pos (u : uio) (offset resid : Z) : uio :=
  mkUio (iov_base u) (iov_len u) offset resid (uio_segflg u) (uio_rw_of u) (uio_space u).

Definition sfs_blockio (u : uio) : stm fstate (Z * uio) :=
  let doalloc := bool_decide (uio_rw_of u = UIO_WRITE) in
  let fileblock := u32 (Z.quot (uio_offset u) SFS_BLOCKSIZE) in
  '(result, diskblock) ← sfs_bmap fileblock doalloc;
  if negb (result =? 0) then mret (result, u) else
  if diskblock =? 0 then
    lift (kassert (bool_decide (uio_rw_of u = UIO_READ)));;
    lift (uiomovezeros SFS_BLOCKSIZE u)
  else
  let saveoff := uio_offset u in
  let diskoff := s32 (diskblock * SFS_BLOCKSIZE) in
  lift (kassert (uio_resid u >=? SFS_BLOCKSIZE));;
  let saveres := s32 (uio_resid u) in
  let diskres := SFS_BLOCKSIZE in
  '(result, u) ← on_fs (sfs_rwblock (set_uio_pos u diskoff diskres));
  off1 ← lift (to_int (uio_offset u - diskoff));
  off ← lift (to_int (off1 + saveoff));
  mret (result, set_uio_pos u off (u32 (uio_resid u - diskres + saveres))).

(** The part of [sfs_io] after the leading partial block. *)
Definition sfs_io_aligned (u : uio) : stm fstate (Z * uio) :=
  if uio_resid u =? 0 then mret (0, u) else
  lift (kassert (Z.rem (uio_offset u) SFS_BLOCKSIZE =? 0));;
  let nblocks := uio_resid u / SFS_BLOCKSIZE in
  '(result, u) ← (λ s,
     r ← for_loop (Z.to_nat nblocks) 0
       (λ _ '(u, s), '((result, u'), s') ← sfs_blockio u s;
          Done (if negb (result =? 0) then inr (result, u', s') else inl (u', s'))) (u, s);
     Done (match r with
           | inl (u', s') => ((0, u'), s')
           | inr (result, u', s') => ((result, u'), s')
           end));
  if negb (result =? 0) then mret (result, u) else
  lift (kassert (uio_resid u <? SFS_BLOCKSIZE));;
  if uio_resid u >? 0 then sfs_partialio u 0 (uio_resid u) else mret (0, u).

(** The transfer of [sfs_io], once EOF has been dealt with. *)
Definition sfs_io_transfer (u : uio) : stm fstate (Z * uio) :=
  let blkoff := u32 (Z.rem (uio_offset u) SFS_BLOCKSIZE) in
  '(result, u) ←
    (if negb (blkoff =? 0) then
       let len := u32 (SFS_BLOCKSIZE - blkoff) in
       let len := if len >? uio_resid u then uio_resid u else len in
       sfs_partialio u blkoff len
     else mret (0, u));
  if negb (result =? 0) then mret (result, u) else
  sfs_io_aligned u.

Definition sfs_io (u : uio) : stm fstate (Z * uio) :=
  sv0 ← gets f_sv;
  let size := s32 (sfi_size (sv_i sv0)) in
  let endpos := s32 (uio_offset u + uio_resid u) in
  let reading := bool_decide (uio_rw_of u = UIO_READ) in
  if reading && (uio_offset u >=? size) then mret (0, u) else
  extraresid ←
    (if reading && (endpos >? size) then
       extra ← lift (to_int (endpos - size));
       lift (kassert (uio_resid u >? u32 extra));;
       mret (u32 extra)
     else mret 0);
  '(result, u) ← sfs_io_transfer
     (set_uio_pos u (uio_offset u) (u32 (uio_resid u - extraresid)));
  sv ← gets f_sv;
  (if bool_decide (uio_rw_of u = UIO_WRITE) && (uio_offset u >? s32 (sfi_size (sv_i sv)))
   then put_inode (set_size (sv_i sv) (u32 (uio_offset u))) else mret tt);;
  mret (result, set_uio_pos u (uio_offset u) (u32 (uio_resid u + extraresid))).
End sfs.
Arguments fstate _ : clear implicits.
