(* ===== verification/SfsFile.v ===== *)
(** * What the block mapping and the file I/O of SFS guarantee

    The abstract view of a file: the list of its 143 block numbers (15 direct
    ones and the 128 of the indirect block), the content they give it, and the
    invariant that its blocks are allocated and distinct.  The theorems are
    about a disk without media errors. *)

From S2P Require Import Prelude Array Bitmap Copyinout Uio SfsDisk Dev Vnode SfsIo.

Section file.
Context {D : Type} `{!BlockDev D} `{!Disk D} {cs : CurSpace}.
Implicit Types (fs : sfs_fs D) (s : fstate D) (dk : list (list Z)).

(** ** The filesystem *)

Definition dsk fs : list (list Z) := d_data (sfs_device fs).
Definition nblk fs : Z := sp_nblocks (sfs_super_of fs).
Definition used fs (b : Z) : bool := bm_used (sfs_freemap fs) b.
Definition sect dk (b : Z) : list Z := default [] (dk !! Z.to_nat b).

(** The invariant: the free map covers the disk, and marks block 0 (the
    superblock) and everything beyond the end of the filesystem as in use. *)
Definition fs_ok fs : Prop :=
  d_ok (sfs_device fs) ∧ bitmap_wf (sfs_freemap fs) ∧
  0 < nblk fs ≤ d_blocks (sfs_device fs) ∧ nblk fs ≤ bm_nbits (sfs_freemap fs) ∧
  used fs 0 = true ∧
  ∀ b, nblk fs ≤ b < bm_nbits (sfs_freemap fs) → used fs b = true.

(** The flags: a free map that is not marked dirty has not changed. *)
Definition same_flags fs fs' : Prop :=
  sfs_superdirty fs' = sfs_superdirty fs ∧
  bm_nbits (sfs_freemap fs') = bm_nbits (sfs_freemap fs) ∧
  (sfs_freemapdirty fs' = false →
     sfs_freemapdirty fs = false ∧ sfs_freemap fs' = sfs_freemap fs).

(** [fs'] is [fs] with the disk contents [dk] and the free map [bm]. *)
Definition fs_upd fs fs' dk (bm : bitmap) : Prop :=
  sfs_super_of fs' = sfs_super_of fs ∧ same_flags fs fs' ∧
  sfs_vnodes fs' = sfs_vnodes fs ∧ sfs_freemap fs' = bm ∧
  d_ok (sfs_device fs') ∧ dsk fs' = dk ∧
  d_blocks (sfs_device fs') = d_blocks (sfs_device fs).

Lemma fs_ok_sector fs b :
  fs_ok fs → 0 ≤ b < nblk fs →
  dsk fs !! Z.to_nat b = Some (sect (dsk fs) b) ∧ sector_ok (sect (dsk fs) b).
Proof.
  intros (Hd & _ & Hn & _) Hb. destruct (d_ok_size _ Hd) as (Hlen & _ & Hs).
  destruct (lookup_lt_is_Some_2 (dsk fs) (Z.to_nat b)) as [x Hx]; [unfold dsk; lia|].
  unfold sect. rewrite Hx. split; [done|]. simpl. by eapply Forall_lookup_1.
Qed.

Lemma fs_ok_bound fs : fs_ok fs → nblk fs ≤ 4194303.
Proof. intros (Hd & _ & Hn & _). destruct (d_ok_size _ Hd) as (_ & ? & _). lia. Qed.

Lemma sfs_blockpos_eq b : 0 ≤ b < 4194303 → sfs_blockpos b = Done (b * 512).
Proof.
  intros Hb. unfold sfs_blockpos, SFS_BLOCKSIZE. rewrite s32_small by (unfold INT_MIN, INT_MAX; lia).
  apply wp_eq. apply wp_to_int; [unfold INT_MIN, INT_MAX; lia|done].
Qed.

Lemma kuio_ok_block data b :
  length data = 512%nat → 0 ≤ b < 4194303 → kuio_ok data 0 512 (b * 512) 512.
Proof. intros Hl Hb. unfold kuio_ok, INT_MAX. rewrite Hl. lia. Qed.

Lemma buf_write_full b bs : length b = length bs → buf_write b 0 bs = bs.
Proof.
  intros Hl. unfold buf_write. simpl. rewrite drop_ge by lia. by rewrite app_nil_r.
Qed.

Lemma slice_full l n : Z.of_nat (length l) = n → slice l 0 n = l.
Proof. intros <-. unfold slice. simpl. rewrite drop_0, Nat2Z.id. by rewrite firstn_all. Qed.

(** A disk without media errors needs no retries. *)
Lemma sfs_rwblock_wp fs u (Q : Z * uio → sfs_fs D → Prop) :
  wp (d_io (sfs_device fs) u) (λ '(r, u', d'), r = 0 ∧ Q (0, u') (set_device d' fs)) →
  swp (sfs_rwblock u) fs Q.
Proof.
  intros H. unfold swp, sfs_rwblock. simpl while_loop.
  destruct (d_io (sfs_device fs) u) as [[[r u'] d']| | |]; [|done..].
  destruct H as [-> H]. done.
Qed.

(** Block I/O needs a device in good order and nothing else: it changes the
    device only. *)
Definition dev_upd (d d' : D) dk : Prop :=
  d_ok d' ∧ d_data d' = dk ∧ d_blocks d' = d_blocks d.

Lemma sfs_rblock_dev fs data b :
  d_ok (sfs_device fs) → 0 ≤ b < d_blocks (sfs_device fs) → length data = 512%nat →
  swp (sfs_rblock data b) fs (λ '(r, data') fs',
    r = 0 ∧ data' = sect (dsk fs) b ∧ sector_ok data' ∧
    ∃ d', fs' = set_device d' fs ∧ dev_upd (sfs_device fs) d' (dsk fs)).
Proof.
  intros Hd Hb Hl. destruct (d_ok_size _ Hd) as (Hlen & Hmax & Hall).
  destruct (lookup_lt_is_Some_2 (dsk fs) (Z.to_nat b)) as [x Hx]; [unfold dsk; lia|].
  assert (sector_ok x) as Hs by (by eapply Forall_lookup_1).
  unfold sfs_rblock. apply swp_bind, swp_lift. rewrite sfs_blockpos_eq by lia. simpl.
  apply swp_bind, sfs_rwblock_wp.
  eapply wp_mono; [apply (d_read _ b x data 0 512);
    [done|lia|done|apply kuio_ok_block; [done|lia]]|].
  intros [[r u'] d'] (-> & -> & Hd' & Hdata & Hnb). split; [done|]. apply swp_ret.
  assert (buf_write data 0 x = sect (dsk fs) b) as Hbw.
  { unfold sect. rewrite Hx. apply buf_write_full. destruct Hs. simpl. congruence. }
  simpl. rewrite Hbw. split_and!; try done; [unfold sect; rewrite Hx; done..|]. by exists d'.
Qed.

Lemma sfs_wblock_dev fs data b :
  d_ok (sfs_device fs) → 0 ≤ b < d_blocks (sfs_device fs) → sector_ok data →
  swp (sfs_wblock data b) fs (λ r fs',
    r = 0 ∧ ∃ d', fs' = set_device d' fs ∧
      dev_upd (sfs_device fs) d' (<[Z.to_nat b := data]> (dsk fs))).
Proof.
  intros Hd Hb [Hl Hby]. destruct (d_ok_size _ Hd) as (_ & Hmax & _).
  assert (slice data 0 512 = data) as Hsl by (apply slice_full; lia).
  unfold sfs_wblock. apply swp_bind, swp_lift. rewrite sfs_blockpos_eq by lia. simpl.
  apply swp_bind, sfs_rwblock_wp.
  eapply wp_mono; [apply (d_write _ b data 0 512);
    [done|lia|by rewrite Hsl|apply kuio_ok_block; [done|lia]]|].
  intros [[r u'] d'] (-> & -> & Hd' & Hdata & Hnb). split; [done|].
  apply swp_ret. rewrite Hsl in Hdata. split; [done|]. by exists d'.
Qed.

Lemma sfs_rblock_wp fs data b :
  fs_ok fs → 0 ≤ b < nblk fs → length data = 512%nat →
  swp (sfs_rblock data b) fs (λ '(r, data') fs',
    r = 0 ∧ data' = sect (dsk fs) b ∧ fs_upd fs fs' (dsk fs) (sfs_freemap fs)).
Proof.
  intros (Hd & _ & Hn & _) Hb Hl. eapply swp_mono; [apply sfs_rblock_dev; [done|lia|done]|].
  intros [r data'] fs' (-> & -> & _ & d' & -> & ?). done.
Qed.

Lemma sfs_wblock_wp fs data b :
  fs_ok fs → 0 ≤ b < nblk fs → sector_ok data →
  swp (sfs_wblock data b) fs (λ r fs',
    r = 0 ∧ fs_upd fs fs' (<[Z.to_nat b := data]> (dsk fs)) (sfs_freemap fs)).
Proof.
  intros (Hd & _ & Hn & _) Hb Hs. eapply swp_mono; [apply sfs_wblock_dev; [done|lia|done]|].
  intros r fs' (-> & d' & -> & ?). done.
Qed.

Lemma zero_block_ok : sector_ok zero_block.
Proof.
  split; [by unfold zero_block; rewrite length_replicate|].
  apply Forall_replicate. lia.
Qed.

Lemma fs_upd_ok fs fs' dk bm :
  fs_ok fs → fs_upd fs fs' dk bm → bitmap_wf bm → bm_nbits bm = bm_nbits (sfs_freemap fs) →
  (∀ b, 0 ≤ b → used fs b = true → b = 0 ∨ nblk fs ≤ b → bm_used bm b = true) →
  fs_ok fs'.
Proof.
  intros (Hd & Hwf & Hn & Hnb & H0 & Hend) (Hs & _ & _ & Hbm & Hd' & _ & Hblk) Hwf' Hnb' Hused.
  unfold fs_ok, nblk, used in *. rewrite Hs, Hbm, Hblk, Hnb'. split_and!; try done; try lia.
  - by apply Hused; auto.
  - intros b Hb. apply Hused; [lia|by apply Hend|lia].
Qed.

Lemma fs_upd_ok_same fs fs' dk :
  fs_ok fs → fs_upd fs fs' dk (sfs_freemap fs) → fs_ok fs'.
Proof. intros Hok Hu. eapply fs_upd_ok; try done. by destruct Hok as (_ & ? & _). Qed.

Lemma set_freemap_upd fs bm :
  d_ok (sfs_device fs) → bm_nbits bm = bm_nbits (sfs_freemap fs) →
  fs_upd fs (set_freemap bm fs) (dsk fs) bm.
Proof. intros. by split_and!. Qed.

(** Allocation: a block that was free, now in use and zeroed; or ENOSPC, when
    every block is in use. *)
Lemma sfs_balloc_wp fs :
  fs_ok fs →
  swp sfs_balloc fs (λ '(r, b) fs',
    (r = 0 ∧ 0 < b < nblk fs ∧ used fs b = false ∧ fs_ok fs' ∧
     ∃ bm, bits_set (sfs_freemap fs) bm b ∧
       fs_upd fs fs' (<[Z.to_nat b := zero_block]> (dsk fs)) bm) ∨
    (r = ENOSPC ∧ fs' = fs ∧ ∀ b, 0 ≤ b < nblk fs → used fs b = true)).
Proof.
  intros Hok. pose proof Hok as (Hd & Hwf & Hn & Hnb & H0 & Hend). unfold sfs_balloc.
  apply swp_bind, swp_gets. simpl. apply swp_bind, swp_lift.
  eapply wp_mono; [by apply bitmap_alloc_wp|]. intros [[b|e] bm].
  - intros (Hb & Hfree & Hlow & Hwf' & Hset).
    assert (0 < b < nblk fs) as Hb'.
    { unfold used in *. assert (b ≠ 0) by congruence.
      destruct (decide (b < nblk fs)); [lia|]. rewrite Hend in Hfree by lia. done. }
    apply swp_bind, swp_modify.
    change (sp_nblocks (sfs_super_of fs)) with (nblk fs).
    rewrite Z.geb_leb, (proj2 (Z.leb_gt _ _)) by lia.
    assert (fs_ok (set_freemap bm fs)) as Hok1.
    { eapply (fs_upd_ok fs _ (dsk fs) bm); try done;
        [apply set_freemap_upd; [done|by destruct Hset]|by destruct Hset|].
      intros j Hj Hu _. destruct Hset as [_ Hset]. rewrite Hset by done.
      unfold used in Hu. by rewrite Hu, orb_true_r. }
    apply swp_bind. eapply swp_mono.
    { apply sfs_wblock_wp; [done| |apply zero_block_ok]. unfold nblk in *. simpl. lia. }
    intros r fs' [-> Hu]. apply swp_ret. left. split_and!; try done; try lia.
    + by eapply fs_upd_ok_same.
    + exists bm. split; [done|]. destruct Hu as (?&(? & Hnb' & Hfd)&?&?&?&?&?).
      destruct Hset as [Hnb2 _]. split_and!; try done. split_and!; [done|by rewrite Hnb'|].
      intros Hf. by destruct (Hfd Hf).
  - intros (-> & -> & Hfull). apply swp_ret. right. split_and!; try done.
    intros b Hb. apply Hfull. lia.
Qed.

Lemma sfs_bused_wp fs b :
  fs_ok fs → 0 ≤ b < nblk fs →
  swp (sfs_bused b) fs (λ r fs', fs' = fs ∧ r = used fs b).
Proof.
  intros (Hd & Hwf & Hn & Hnb & H0 & Hend) Hb. unfold sfs_bused.
  apply swp_bind, swp_gets. simpl. change (sp_nblocks (sfs_super_of fs)) with (nblk fs).
  rewrite Z.geb_leb, (proj2 (Z.leb_gt _ _)) by lia. apply swp_bind, swp_lift.
  eapply wp_mono; [apply bitmap_isset_wp; [done|lia]|]. intros r Hr.
  by apply swp_ret.
Qed.

Lemma sfs_bfree_wp fs b :
  fs_ok fs → 0 < b < nblk fs → used fs b = true →
  swp (sfs_bfree b) fs (λ _ fs', fs_ok fs' ∧ ∃ bm, bits_clear (sfs_freemap fs) bm b ∧
    fs_upd fs fs' (dsk fs) bm).
Proof.
  intros Hok Hb Hu. pose proof Hok as (Hd & Hwf & Hn & Hnb & H0 & Hend). unfold sfs_bfree.
  apply swp_bind, swp_gets. simpl. apply swp_bind, swp_lift.
  eapply wp_mono; [apply bitmap_unmark_wp; [done|lia|done]|]. intros bm [Hwf' Hc].
  apply swp_modify. assert (fs_upd fs (set_freemap bm fs) (dsk fs) bm) as Hupd
    by (apply set_freemap_upd; [done|by destruct Hc]).
  split; [|by exists bm]. eapply fs_upd_ok; try done; [by destruct Hc|].
  intros j Hj Huj Hor. destruct Hc as [_ Hc]. rewrite Hc by done.
  unfold used in Huj. rewrite Huj, (proj2 (Z.eqb_neq _ _)); [done|lia].
Qed.
(** ** A file and its blocks *)

Definition MAXBLK : Z := 143.

Definition f_dsk s : list (list Z) := dsk (f_fs s).
Definition f_inode s : sfs_inode := sv_i (f_sv s).
Definition f_used s (b : Z) : bool := used (f_fs s) b.

(** The block numbers in the indirect block (zeros when there is none). *)
Definition identries dk (i : sfs_inode) : list Z :=
  if sfi_indirect i =? 0 then replicate 128 0 else de32s (sect dk (sfi_indirect i)).

(** The block numbers of the file's 143 blocks, 0 where there is none. *)
Definition fblocks s : list Z := sfi_direct (f_inode s) ++ identries (f_dsk s) (f_inode s).

Definition fblock s (k : Z) : Z := default 0 (fblocks s !! Z.to_nat k).

(** Everything the file refers to: its inode, its indirect block, its data. *)
Definition allblocks s : list Z :=
  sv_ino (f_sv s) :: sfi_indirect (f_inode s) :: fblocks s.

(** The blocks of a list are allocated, and no two entries share one. *)
Definition blocks_ok fs (l : list Z) : Prop :=
  (∀ k b, l !! k = Some b → b ≠ 0 → 0 < b < nblk fs ∧ used fs b = true) ∧
  (∀ k k' b, l !! k = Some b → l !! k' = Some b → b ≠ 0 → k = k').

Definition file_ok s : Prop :=
  fs_ok (f_fs s) ∧ inode_wf (f_inode s) ∧ sv_ino (f_sv s) ≠ 0 ∧
  blocks_ok (f_fs s) (allblocks s).

(** The byte at position [p]; a hole reads as zeros. *)
Definition content s (p : Z) : Z :=
  if fblock s (p / 512) =? 0 then 0
  else default 0 (sect (f_dsk s) (fblock s (p / 512)) !! Z.to_nat (p mod 512)).

Lemma identries_length s : file_ok s → length (identries (f_dsk s) (f_inode s)) = 128%nat.
Proof.
  intros (Hfs & Hi & _ & [Hu _]). unfold identries.
  destruct (Z.eqb_spec (sfi_indirect (f_inode s)) 0) as [|Hne].
  { by rewrite length_replicate. }
  destruct (Hu 1%nat (sfi_indirect (f_inode s))) as [Hb _]; [done..|].
  destruct (fs_ok_sector (f_fs s) (sfi_indirect (f_inode s))) as [_ [Hl Hby]]; [done|lia|].
  by destruct (de32s_facts 128 (sect (f_dsk s) (sfi_indirect (f_inode s)))) as (_ & ? & _).
Qed.

Lemma fblocks_length s : file_ok s → length (fblocks s) = 143%nat.
Proof.
  intros Hok. unfold fblocks. rewrite length_app, identries_length by done.
  destruct Hok as (_ & (_ & _ & _ & -> & _) & _). done.
Qed.

Lemma fblock_lookup s k :
  file_ok s → 0 ≤ k < MAXBLK → fblocks s !! Z.to_nat k = Some (fblock s k).
Proof.
  intros Hok Hk. destruct (lookup_lt_is_Some_2 (fblocks s) (Z.to_nat k)) as [b Hb].
  { rewrite fblocks_length by done. unfold MAXBLK in *. lia. }
  unfold fblock. by rewrite Hb.
Qed.

Lemma fblock_ok s k :
  file_ok s → 0 ≤ k < MAXBLK → fblock s k ≠ 0 →
  0 < fblock s k < nblk (f_fs s) ∧ f_used s (fblock s k) = true ∧
  fblock s k ≠ sfi_indirect (f_inode s) ∧ fblock s k ≠ sv_ino (f_sv s).
Proof.
  intros Hok Hk Hne. pose proof (fblock_lookup s k Hok Hk) as Hl.
  destruct Hok as (_ & _ & _ & [Hu Hinj]).
  destruct (Hu (S (S (Z.to_nat k))) (fblock s k)) as [??]; [done..|].
  split_and!; try done; try lia; intros Heq.
  - assert (S (S (Z.to_nat k)) = 1%nat); [|lia]. apply (Hinj _ _ (fblock s k)); try done.
    by rewrite Heq.
  - assert (S (S (Z.to_nat k)) = 0%nat); [|lia]. apply (Hinj _ _ (fblock s k)); try done.
    by rewrite Heq.
Qed.

Lemma fblock_inj s k k' :
  file_ok s → 0 ≤ k < MAXBLK → 0 ≤ k' < MAXBLK → fblock s k ≠ 0 →
  fblock s k = fblock s k' → k = k'.
Proof.
  intros Hok Hk Hk' Hne Heq. pose proof (fblock_lookup s k Hok Hk) as Hl.
  pose proof (fblock_lookup s k' Hok Hk') as Hl'. destruct Hok as (_ & _ & _ & [_ Hinj]).
  assert (S (S (Z.to_nat k)) = S (S (Z.to_nat k'))); [|lia].
  apply (Hinj _ _ (fblock s k)); try done. by rewrite Heq.
Qed.

Lemma indirect_ok s :
  file_ok s → sfi_indirect (f_inode s) ≠ 0 →
  0 < sfi_indirect (f_inode s) < nblk (f_fs s) ∧ f_used s (sfi_indirect (f_inode s)) = true.
Proof. intros (_ & _ & _ & [Hu _]) Hne. by apply (Hu 1%nat). Qed.

(** A block that is not in use is none of the file's blocks. *)
Lemma unused_not_in fs l b k :
  blocks_ok fs l → used fs b = false → b ≠ 0 → l !! k ≠ Some b.
Proof. intros [Hu _] Hf Hne Hk. destruct (Hu k b) as [_ Ht]; [done..|]. congruence. Qed.

(** Putting a newly allocated block into an empty entry. *)
Lemma blocks_ok_insert fs fs' l k b :
  blocks_ok fs l → 0 < b < nblk fs → used fs b = false →
  nblk fs' = nblk fs → (∀ j, 0 ≤ j → used fs' j = (j =? b) || used fs j) →
  blocks_ok fs' (<[k := b]> l).
Proof.
  intros Hok Hb Hf Hn Hu'. pose proof Hok as [Hu Hinj]. split.
  - intros j c Hj Hc. rewrite Hn. apply list_lookup_insert_Some in Hj as [(_ & <- & _)|[_ Hj]].
    + split; [lia|]. rewrite Hu' by lia. by rewrite Z.eqb_refl.
    + destruct (Hu j c Hj Hc) as [? Ht]. split; [lia|]. rewrite Hu', Ht by lia. apply orb_true_r.
  - intros j j' c Hj Hj' Hc.
    apply list_lookup_insert_Some in Hj as [(-> & <- & _)|[Hne Hj]];
    apply list_lookup_insert_Some in Hj' as [(<- & Hcb & _)|[Hne' Hj']]; subst; try done.
    + by destruct (unused_not_in fs l b j' Hok).
    + by destruct (unused_not_in fs l c j Hok).
    + by apply (Hinj _ _ c).
Qed.

Lemma sect_insert_eq dk b data :
  0 ≤ b → (Z.to_nat b < length dk)%nat → sect (<[Z.to_nat b := data]> dk) b = data.
Proof. intros Hb Hl. unfold sect. by rewrite list_lookup_insert_eq. Qed.

Lemma sect_insert_ne dk b b' data :
  0 ≤ b → 0 ≤ b' → b ≠ b' → sect (<[Z.to_nat b := data]> dk) b' = sect dk b'.
Proof. intros Hb Hb' Hne. unfold sect. rewrite list_lookup_insert_ne by lia. done. Qed.

Lemma fs_ok_dsk_length fs b : fs_ok fs → 0 ≤ b < nblk fs → (Z.to_nat b < length (dsk fs))%nat.
Proof.
  intros (Hd & _ & Hn & _) Hb. destruct (d_ok_size _ Hd) as (Hlen & _). unfold dsk. lia.
Qed.
(** ** How a file may change when blocks are allocated for it *)

(** What no operation on the data of a file changes; an inode that is not
    marked dirty has not changed at all. *)
Definition same_file s s' : Prop :=
  sv_ino (f_sv s') = sv_ino (f_sv s) ∧ sv_v (f_sv s') = sv_v (f_sv s) ∧
  sfi_type (f_inode s') = sfi_type (f_inode s) ∧
  sfi_linkcount (f_inode s') = sfi_linkcount (f_inode s) ∧
  sfs_super_of (f_fs s') = sfs_super_of (f_fs s) ∧
  sfs_vnodes (f_fs s') = sfs_vnodes (f_fs s) ∧
  (sv_dirty (f_sv s') = false → f_sv s' = f_sv s) ∧ same_flags (f_fs s) (f_fs s').

Definition same_meta s s' : Prop :=
  same_file s s' ∧ sfi_size (f_inode s') = sfi_size (f_inode s).

Definition ext s s' : Prop :=
  file_ok s' ∧ same_meta s s' ∧
  (∀ b, 0 ≤ b → f_used s b = true → f_used s' b = true) ∧
  (∀ b, 0 ≤ b < nblk (f_fs s) → f_used s b = true → (b = sfi_indirect (f_inode s) → b = 0) →
     sect (f_dsk s') b = sect (f_dsk s) b) ∧
  (∀ k, 0 ≤ k < MAXBLK →
     if fblock s k =? 0
     then fblock s' k = 0 ∨
          (f_used s (fblock s' k) = false ∧ sect (f_dsk s') (fblock s' k) = zero_block)
     else fblock s' k = fblock s k) ∧
  (if sfi_indirect (f_inode s) =? 0
   then sfi_indirect (f_inode s') = 0 ∨ f_used s (sfi_indirect (f_inode s')) = false
   else sfi_indirect (f_inode s') = sfi_indirect (f_inode s)).

(** Only the state of the disk driver has changed. *)
Definition eqv s s' : Prop :=
  f_sv s' = f_sv s ∧ fs_upd (f_fs s) (f_fs s') (f_dsk s) (sfs_freemap (f_fs s)).

Lemma same_flags_trans fs1 fs2 fs3 : same_flags fs1 fs2 → same_flags fs2 fs3 → same_flags fs1 fs3.
Proof.
  intros (? & ? & Hd1) (? & ? & Hd2). split_and!; [congruence..|]. intros Hd3.
  destruct (Hd2 Hd3) as [Hd2' ?]. destruct (Hd1 Hd2'). split; congruence.
Qed.

Lemma same_file_trans s1 s2 s3 : same_file s1 s2 → same_file s2 s3 → same_file s1 s3.
Proof.
  unfold same_file. intros (?&?&?&?&?&?&Hd1&?) (?&?&?&?&?&?&Hd2&?).
  split_and!; try congruence; [|by eapply same_flags_trans].
  intros Hd. pose proof (Hd2 Hd) as Heq. rewrite Heq in Hd |- *. auto.
Qed.

Lemma same_meta_trans s1 s2 s3 : same_meta s1 s2 → same_meta s2 s3 → same_meta s1 s3.
Proof. intros [? ?] [? ?]. split; [by eapply same_file_trans|congruence]. Qed.

Lemma same_file_nblk s s' : same_file s s' → nblk (f_fs s') = nblk (f_fs s).
Proof. unfold nblk. by intros (_ & _ & _ & _ & -> & _). Qed.

Lemma same_meta_nblk s s' : same_meta s s' → nblk (f_fs s') = nblk (f_fs s).
Proof. intros [? _]. by apply same_file_nblk. Qed.

Lemma eqv_views s s' :
  eqv s s' → f_dsk s' = f_dsk s ∧ f_inode s' = f_inode s ∧ fblocks s' = fblocks s ∧
    (∀ b, f_used s' b = f_used s b) ∧ nblk (f_fs s') = nblk (f_fs s).
Proof.
  intros [Hsv (Hs & _ & _ & Hb & _ & Hd & _)].
  assert (f_dsk s' = f_dsk s) as Hdk by done.
  assert (f_inode s' = f_inode s) as Hi by by unfold f_inode; rewrite Hsv.
  split_and!; try done.
  - unfold fblocks. by rewrite Hi, Hdk.
  - intros b. unfold f_used, used. by rewrite Hb.
  - unfold nblk. by rewrite Hs.
Qed.

Lemma eqv_ok s s' : file_ok s → eqv s s' → file_ok s'.
Proof.
  intros (Hfs & Hi & Hino & Hb) Heq. destruct (eqv_views _ _ Heq) as (Hdk & Hin & Hfb & Hu & Hn).
  destruct Heq as [Hsv Hupd]. split_and!.
  - by eapply fs_upd_ok_same.
  - by rewrite Hin.
  - by rewrite Hsv.
  - unfold allblocks, blocks_ok. rewrite Hsv, Hin, Hfb, Hn. destruct Hb as [Hb1 Hb2].
    split; [|done]. intros k b Hk Hne. fold (f_used s' b). rewrite Hu. by apply (Hb1 k).
Qed.

Lemma eqv_same_meta s s' : eqv s s' → same_meta s s'.
Proof.
  intros [Hsv (? & ? & ? & _)]. unfold same_meta, same_file, f_inode. by rewrite Hsv.
Qed.

Lemma eqv_ext s s' : file_ok s → eqv s s' → ext s s'.
Proof.
  intros Hok Heq. destruct (eqv_views _ _ Heq) as (Hdk & Hin & Hfb & Hu & Hn). split_and!.
  - by eapply eqv_ok.
  - by apply eqv_same_meta.
  - intros b _ Hb. by rewrite Hu.
  - intros. by rewrite Hdk.
  - intros k Hk. unfold fblock. rewrite Hfb.
    destruct (Z.eqb_spec (default 0 (fblocks s !! Z.to_nat k)) 0); auto.
  - rewrite Hin. destruct (Z.eqb_spec (sfi_indirect (f_inode s)) 0); auto.
Qed.

Lemma eqv_refl s : file_ok s → eqv s s.
Proof. intros ((Hd & _) & _). done. Qed.

Lemma ext_refl s : file_ok s → ext s s.
Proof. intros. apply eqv_ext; [done|]. by apply eqv_refl. Qed.

Lemma eqv_trans s1 s2 s3 : eqv s1 s2 → eqv s2 s3 → eqv s1 s3.
Proof.
  intros [? (?&?&?&?&?&?&?)] [? (?&?&?&?&?&?&?)]. unfold eqv, fs_upd, f_dsk in *.
  split_and!; try congruence. by eapply same_flags_trans.
Qed.

Lemma ext_trans s1 s2 s3 : file_ok s1 → ext s1 s2 → ext s2 s3 → ext s1 s3.
Proof.
  intros Hok (Hok2 & Hm & Hu & Hs & Hk & Hi) (Hok3 & Hm' & Hu' & Hs' & Hk' & Hi').
  assert (∀ b, 0 ≤ b → f_used s2 b = false → f_used s1 b = false) as Hback.
  { intros b Hb Hf. destruct (f_used s1 b) eqn:E; [|done]. rewrite Hu in Hf by done. done. }
  pose proof (same_meta_nblk _ _ Hm) as Hn.
  assert (∀ b, 0 ≤ b < nblk (f_fs s1) → f_used s1 b = true →
    (b = sfi_indirect (f_inode s1) → b = 0) → b = sfi_indirect (f_inode s2) → b = 0) as Hind.
  { intros b Hb Hub Hne ->. destruct (Z.eqb_spec (sfi_indirect (f_inode s1)) 0); [|by auto].
    destruct Hi as [H0|]; [done|congruence]. }
  split_and!; [done|by eapply same_meta_trans|by eauto|..].
  - intros b Hb Hub Hne. rewrite Hs', Hs; try done; [by rewrite Hn|by apply Hu; [lia|]|].
    by apply Hind.
  - intros k Hk0. specialize (Hk k Hk0). specialize (Hk' k Hk0).
    destruct (Z.eqb_spec (fblock s1 k) 0).
    + destruct Hk as [Hz|[Hf Hz]].
      * rewrite Hz in Hk'. simpl in Hk'. destruct Hk' as [?|[Hf Hz']]; [by left|right].
        split; [|done]. apply Hback; [|done].
        destruct (decide (fblock s3 k = 0)) as [->|]; [done|].
        by destruct (fblock_ok s3 k) as [? _]; [..|lia].
      * destruct (Z.eqb_spec (fblock s2 k) 0) as [H0|Hne].
        { exfalso. rewrite H0 in Hf. destruct Hok as ((_&_&_&_&H0'&_)&_).
          unfold f_used in Hf. congruence. }
        right. rewrite Hk'. split; [done|].
        destruct (fblock_ok s2 k) as (? & ? & ? & _); [done..|].
        rewrite Hs'; [done|lia|done|by intros ?].
    + destruct (Z.eqb_spec (fblock s2 k) 0); congruence.
  - destruct (Z.eqb_spec (sfi_indirect (f_inode s1)) 0).
    + destruct (Z.eqb_spec (sfi_indirect (f_inode s2)) 0).
      * destruct Hi' as [?|Hf]; [by left|right]. apply Hback; [|done].
        destruct Hok3 as (_ & (_&_&_&_&_&?&_) & _). lia.
      * rewrite Hi'. destruct Hi as [?|?]; [done|by right].
    + rewrite Hi in Hi'. destruct (Z.eqb_spec (sfi_indirect (f_inode s1)) 0); congruence.
Qed.
(** Putting a newly allocated, zeroed block into an empty entry extends the
    file. *)
Lemma ext_alloc s s' j b :
  file_ok s → fs_ok (f_fs s') → inode_wf (f_inode s') → same_meta s s' →
  (1 ≤ j)%nat → allblocks s !! j = Some 0 → 0 < b < nblk (f_fs s) → f_used s b = false →
  allblocks s' = <[j := b]> (allblocks s) →
  (∀ c, 0 ≤ c → f_used s' c = (c =? b) || f_used s c) →
  (∀ c, 0 ≤ c < nblk (f_fs s) → f_used s c = true → (c = sfi_indirect (f_inode s) → c = 0) →
     sect (f_dsk s') c = sect (f_dsk s) c) →
  sect (f_dsk s') b = zero_block →
  ext s s'.
Proof.
  intros Hok Hfs Hi Hm Hj Hj0 Hb Hf Hall Hu Hs Hz.
  pose proof (same_meta_nblk _ _ Hm) as Hn. pose proof Hok as (_ & _ & Hino & Hbl).
  assert (file_ok s') as Hok'.
  { split_and!; try done; [by destruct Hm as [(->&_) _]|].
    rewrite Hall. by eapply blocks_ok_insert. }
  split_and!; try done.
  - intros c Hc Huc. by rewrite Hu, Huc, orb_true_r.
  - intros k Hk. pose proof (fblock_lookup s k Hok Hk) as Hl.
    pose proof (fblock_lookup s' k Hok' Hk) as Hl'.
    assert (allblocks s' !! S (S (Z.to_nat k)) = Some (fblock s' k)) as Hl2 by done.
    rewrite Hall in Hl2. apply list_lookup_insert_Some in Hl2 as [(-> & -> & _)|[Hne Hl2]].
    + assert (fblock s k = 0) as ->.
      { change (fblocks s !! Z.to_nat k = Some 0) in Hj0. congruence. }
      simpl. right. done.
    + change (fblocks s !! Z.to_nat k = Some (fblock s' k)) in Hl2.
      assert (fblock s' k = fblock s k) as -> by congruence.
      destruct (Z.eqb_spec (fblock s k) 0); auto.
  - assert (allblocks s' !! 1%nat = Some (sfi_indirect (f_inode s'))) as Hl2 by done.
    rewrite Hall in Hl2. apply list_lookup_insert_Some in Hl2 as [(-> & -> & _)|[Hne Hl2]].
    + simpl in Hj0. injection Hj0 as ->. simpl. by right.
    + simpl in Hl2. injection Hl2 as ->. destruct (Z.eqb_spec (sfi_indirect (f_inode s')) 0); auto.
Qed.

Lemma swp_on_fs {A} (m : stm (sfs_fs D) A) s (Q : A → fstate D → Prop) :
  swp m (f_fs s) (λ a fs', Q a (mkF fs' (f_sv s))) → swp (on_fs m) s Q.
Proof.
  unfold swp, on_fs. intros Hm. apply wp_bind. eapply wp_mono; [exact Hm|]. by intros [a fs'].
Qed.

(** The state after a successful [sfs_balloc] for the file. *)
Definition allocated s fs' (b : Z) : Prop :=
  0 < b < nblk (f_fs s) ∧ f_used s b = false ∧ fs_ok fs' ∧
  ∃ bm, bits_set (sfs_freemap (f_fs s)) bm b ∧
    fs_upd (f_fs s) fs' (<[Z.to_nat b := zero_block]> (f_dsk s)) bm.

Lemma allocated_views s fs' b sv' :
  fs_ok (f_fs s) → allocated s fs' b → let s' := mkF fs' sv' in
  (∀ c, 0 ≤ c → f_used s' c = (c =? b) || f_used s c) ∧
  sect (f_dsk s') b = zero_block ∧
  (∀ c, 0 ≤ c → f_used s c = true → sect (f_dsk s') c = sect (f_dsk s) c) ∧
  nblk fs' = nblk (f_fs s).
Proof.
  intros Hok (Hb & Hf & Hfs & bm & [_ Hset] & (Hsup & _ & _ & Hbm & _ & Hdk & _)) s'.
  split_and!.
  - intros c Hc. unfold f_used, used. simpl. by rewrite Hbm, Hset.
  - unfold f_dsk. simpl. rewrite Hdk. apply sect_insert_eq; [lia|].
    apply fs_ok_dsk_length; [done|lia].
  - intros c Hc Hu. unfold f_dsk. simpl. rewrite Hdk. apply sect_insert_ne; [lia..|congruence].
  - unfold nblk. by rewrite Hsup.
Qed.

Lemma on_balloc_wp s (Q : Z * Z → fstate D → Prop) :
  fs_ok (f_fs s) →
  (∀ b fs', allocated s fs' b → Q (0, b) (mkF fs' (f_sv s))) →
  ((∀ c, 0 ≤ c < nblk (f_fs s) → f_used s c = true) → ∀ b, Q (ENOSPC, b) s) →
  swp (on_fs sfs_balloc) s Q.
Proof.
  intros Hok HQ HQ'. apply swp_on_fs. eapply swp_mono; [by apply sfs_balloc_wp|].
  intros [r b] fs' [(-> & Hb & Hf & Hfs & Hbm)|(-> & -> & Hfull)].
  - by apply HQ.
  - destruct s. by apply HQ'.
Qed.

Lemma check_used_wp s b :
  file_ok s → (b ≠ 0 → 0 < b < nblk (f_fs s) ∧ f_used s b = true) →
  swp (check_used b) s (λ _ s', s' = s).
Proof.
  intros (Hfs & _) Hb. unfold check_used. destruct (Z.eqb_spec b 0); [done|].
  destruct Hb as [? Hu]; [done|]. apply swp_bind, swp_on_fs.
  eapply swp_mono; [apply sfs_bused_wp; [done|lia]|]. intros r fs' [-> ->].
  unfold f_used in Hu. rewrite Hu. destruct s. by apply swp_ret.
Qed.

(** What [sfs_bmap] promises. *)
Definition bmap_post s (k : Z) (doalloc : bool) (r b : Z) s' : Prop :=
  ext s s' ∧ (doalloc = false → eqv s s') ∧
  ((r = 0 ∧ k < MAXBLK ∧ b = fblock s' k ∧ (doalloc = true → b ≠ 0)) ∨
   (r = EINVAL ∧ MAXBLK ≤ k) ∨
   (r = ENOSPC ∧ k < MAXBLK ∧ doalloc = true ∧ fblock s' k = 0 ∧
    ∀ c, 0 ≤ c < nblk (f_fs s') → f_used s' c = true)).

Lemma check_used_post s s' k doalloc :
  0 ≤ k < MAXBLK → ext s s' → (doalloc = false → eqv s s') →
  (doalloc = true → fblock s' k ≠ 0) →
  swp (check_used (fblock s' k);; mret (0, fblock s' k)) s'
    (λ '(r, b) s'', bmap_post s k doalloc r b s'').
Proof.
  intros Hk Hext Heq Hne. assert (file_ok s') as Hok by by destruct Hext.
  apply swp_bind. eapply swp_mono; [apply check_used_wp; [done|]|].
  { intros H0. by destruct (fblock_ok s' k) as (? & ? & _). }
  intros _ s'' ->. apply swp_ret. split_and!; try done. left. split_and!; done || lia.
Qed.

Lemma allblocks_direct s k b direct dirty fs' :
  file_ok s → 0 ≤ k < 15 → direct = <[Z.to_nat k := b]> (sfi_direct (f_inode s)) →
  identries (dsk fs') (f_inode s) = identries (f_dsk s) (f_inode s) →
  allblocks (mkF fs' (mkSv (sv_v (f_sv s)) (set_direct (f_inode s) direct) (sv_ino (f_sv s)) dirty)) =
    <[S (S (Z.to_nat k)) := b]> (allblocks s).
Proof.
  intros (_ & (_ & _ & _ & Hd & _) & _) Hk -> Hid.
  change (sv_ino (f_sv s) :: sfi_indirect (f_inode s) ::
    <[Z.to_nat k := b]> (sfi_direct (f_inode s)) ++ identries (dsk fs') (f_inode s) =
    sv_ino (f_sv s) :: sfi_indirect (f_inode s) :: <[Z.to_nat k := b]> (fblocks s)).
  rewrite Hid. unfold fblocks. by rewrite insert_app_l by lia.
Qed.

Lemma inode_wf_set_direct i k b :
  inode_wf i → is_word b → inode_wf (set_direct i (<[k := b]> (sfi_direct i))).
Proof.
  intros (?&?&?&?&?&?&?&?) Hb. unfold inode_wf. simpl. rewrite length_insert.
  split_and!; try done; try lia. by apply Forall_insert.
Qed.

Lemma nblk_word fs b : fs_ok fs → 0 < b < nblk fs → is_word b.
Proof. intros Hok Hb. pose proof (fs_ok_bound _ Hok). simpl. lia. Qed.

Lemma sfs_bmap_direct_wp s k doalloc :
  file_ok s → 0 ≤ k < 15 →
  swp (sfs_bmap_direct k doalloc) s (λ '(r, b) s', bmap_post s k doalloc r b s').
Proof.
  intros Hok Hk. pose proof Hok as (Hfs & Hiwf & Hino & Hbl).
  assert (sfi_direct (f_inode s) !! Z.to_nat k = Some (fblock s k)) as Hl.
  { rewrite <-fblock_lookup by (done || unfold MAXBLK; lia). unfold fblocks.
    destruct Hiwf as (_&_&_&Hd&_). by rewrite lookup_app_l by lia. }
  unfold sfs_bmap_direct. apply swp_bind, swp_gets. apply swp_bind, swp_lift.
  fold (f_inode s). rewrite (arr_get_Some _ _ _ (proj1 Hk) Hl). simpl.
  destruct ((fblock s k =? 0) && doalloc) eqn:Ealloc.
  2: { apply swp_bind, swp_ret. simpl. apply check_used_post;
         [unfold MAXBLK; lia|by apply ext_refl|intros _; by apply eqv_refl|].
       intros ->. destruct (Z.eqb_spec (fblock s k) 0); done. }
  apply andb_true_iff in Ealloc as [E0%Z.eqb_eq ->]. rewrite E0 in Hl.
  apply swp_bind, swp_bind, on_balloc_wp; [done| |].
  2: { intros Hfull b. simpl. apply swp_ret. simpl. apply swp_ret.
       split_and!; [by apply ext_refl|done|]. right; right. split_and!; try done.
       unfold MAXBLK. lia. }
  intros b fs' Hal. pose proof Hal as (Hb & Hf & Hfs' & bm & Hset & Hupd).
  simpl. apply swp_bind, swp_lift.
  assert (Z.to_nat k < length (sfi_direct (f_inode s)))%nat by by eapply lookup_lt_Some.
  rewrite arr_set_in by lia. simpl. apply swp_bind, swp_modify. apply swp_ret. simpl.
  unfold set_inode. simpl. set (s' := mkF fs' _).
  destruct (allocated_views s fs' b (f_sv s') Hfs Hal) as (Hu & Hz & Hsame & _).
  assert (allblocks s' = <[S (S (Z.to_nat k)) := b]> (allblocks s)) as Hall.
  { apply allblocks_direct; try done. unfold identries.
    destruct (Z.eqb_spec (sfi_indirect (f_inode s)) 0); [done|].
    destruct (indirect_ok s) as [? ?]; [done..|]. f_equal. apply Hsame; [lia|done]. }
  assert (ext s s') as Hext.
  { apply (ext_alloc s s' (S (S (Z.to_nat k))) b); try done; try lia.
    - apply inode_wf_set_direct; [done|exact (nblk_word _ _ Hfs Hb)].
    - destruct Hupd as (? & ? & ? & _). done.
    - change (fblocks s !! Z.to_nat k = Some 0). unfold fblocks. by rewrite lookup_app_l by lia.
    - intros c Hc Hcu _. apply Hsame; [lia|done]. }
  assert (fblock s' k = b) as Hfb.
  { unfold fblock. change (fblocks s' !! Z.to_nat k) with (allblocks s' !! S (S (Z.to_nat k))).
    rewrite Hall, list_lookup_insert_eq; [done|]. simpl. unfold fblocks. rewrite length_app. lia. }
  clearbody s'. rewrite <-Hfb. apply check_used_post; try done; [unfold MAXBLK; lia|].
  intros _. lia.
Qed.
Lemma de32s_zero_block : de32s zero_block = replicate 128 0.
Proof. reflexivity. Qed.

Lemma allblocks_indirect s b dirty fs' :
  sfi_indirect (f_inode s) = 0 → b ≠ 0 → sect (dsk fs') b = zero_block →
  allblocks (mkF fs' (mkSv (sv_v (f_sv s)) (set_indirect (f_inode s) b) (sv_ino (f_sv s)) dirty)) =
    <[1%nat := b]> (allblocks s).
Proof.
  intros H0 Hb Hz.
  change (sv_ino (f_sv s) :: b ::
    sfi_direct (f_inode s) ++ identries (dsk fs') (set_indirect (f_inode s) b) =
    sv_ino (f_sv s) :: b :: fblocks s).
  do 2 f_equal. unfold fblocks, identries. f_equal. cbn [sfi_indirect set_indirect].
  rewrite H0, Z.eqb_refl. rewrite (proj2 (Z.eqb_neq b 0)) by done.
  by rewrite Hz, de32s_zero_block.
Qed.

Lemma sfs_bmap_idblock_wp s doalloc :
  file_ok s →
  swp (sfs_bmap_idblock doalloc) s (λ '(r, id) s',
    ext s s' ∧ (doalloc = false → eqv s s') ∧
    ((r = 0 ∧ id = None ∧ doalloc = false ∧ sfi_indirect (f_inode s') = 0) ∨
     (r = 0 ∧ sfi_indirect (f_inode s') ≠ 0 ∧
      id = Some (sfi_indirect (f_inode s'), identries (f_dsk s') (f_inode s'))) ∨
     (r = ENOSPC ∧ doalloc = true ∧ sfi_indirect (f_inode s') = 0 ∧
      ∀ c, 0 ≤ c < nblk (f_fs s') → f_used s' c = true))).
Proof.
  intros Hok. pose proof Hok as (Hfs & Hiwf & Hino & Hbl).
  unfold sfs_bmap_idblock. apply swp_bind, swp_gets. fold (f_inode s). cbv zeta.
  destruct (Z.eqb_spec (sfi_indirect (f_inode s)) 0) as [H0|Hne]; cbn [andb].
  - destruct doalloc; cbn [negb].
    2: { apply swp_ret. split_and!; [by apply ext_refl|intros _; by apply eqv_refl|].
         left. done. }
    apply swp_bind, on_balloc_wp; [done| |].
    2: { intros Hfull b. cbn. apply swp_ret. split_and!; [by apply ext_refl|done|].
         right; right. done. }
    intros b fs' Hal. pose proof Hal as (Hb & Hf & Hfs' & bm & Hset & Hupd).
    cbn. apply swp_bind, swp_modify. apply swp_ret. unfold set_inode. cbn [f_sv f_fs].
    set (s' := mkF fs' _).
    destruct (allocated_views s fs' b (f_sv s') Hfs Hal) as (Hu & Hz & Hsame & _).
    assert (allblocks s' = <[1%nat := b]> (allblocks s)) as Hall.
    { apply allblocks_indirect; [done|lia|done]. }
    assert (ext s s') as Hext.
    { apply (ext_alloc s s' 1 b); try done; try lia.
      - destruct Hiwf as (?&?&?&?&?&?&?&?). pose proof (nblk_word _ _ Hfs Hb). done.
      - destruct Hupd as (? & ? & ? & _). done.
      - cbn. by rewrite H0.
      - intros c Hc Hcu _. apply Hsame; [lia|done]. }
    split_and!; try done. right; left. split_and!; [done|cbn; lia|]. do 2 f_equal.
    unfold identries. change (sfi_indirect (f_inode s')) with b.
    change (sect (f_dsk s') b = zero_block) in Hz.
    rewrite (proj2 (Z.eqb_neq b 0)) by lia. by rewrite Hz, de32s_zero_block.
  - destruct (indirect_ok s) as [Hi Hiu]; [done..|].
    apply swp_bind, swp_on_fs.
    eapply swp_mono; [apply sfs_rblock_wp; [done|lia|by apply zero_block_ok]|].
    intros [r data] fs' (-> & -> & Hupd). cbn. apply swp_ret.
    assert (eqv s (mkF fs' (f_sv s))) as Heq by done.
    destruct (eqv_views _ _ Heq) as (Hdk & Hin & _).
    split_and!; [by apply eqv_ext|done|]. right; left. rewrite Hdk, Hin. split_and!; [done..|].
    unfold identries. by rewrite (proj2 (Z.eqb_neq _ _)) by done.
Qed.

Lemma fblock_indirect s k :
  file_ok s → 15 ≤ k < MAXBLK →
  identries (f_dsk s) (f_inode s) !! Z.to_nat (k - 15) = Some (fblock s k).
Proof.
  intros Hok Hk. rewrite <-fblock_lookup by (done || lia). unfold fblocks.
  destruct Hok as (_ & (_&_&_&Hd&_) & _). rewrite lookup_app_r by lia. f_equal. lia.
Qed.

Lemma fblock_no_indirect s k :
  file_ok s → 15 ≤ k < MAXBLK → sfi_indirect (f_inode s) = 0 → fblock s k = 0.
Proof.
  intros Hok Hk Hi0. pose proof (fblock_indirect s k Hok Hk) as Hfb. unfold identries in Hfb.
  rewrite Hi0, Z.eqb_refl in Hfb. by apply lookup_replicate in Hfb as [Hfb _].
Qed.

(** Writing the indirect block back with a new entry. *)
Lemma allblocks_entry s b k fs' :
  file_ok s → sfi_indirect (f_inode s) ≠ 0 → 15 ≤ k < MAXBLK → is_word b →
  sect (dsk fs') (sfi_indirect (f_inode s)) =
    be32s (<[Z.to_nat (k - 15) := b]> (identries (f_dsk s) (f_inode s))) →
  Forall is_word (identries (f_dsk s) (f_inode s)) →
  allblocks (mkF fs' (f_sv s)) = <[S (S (Z.to_nat k)) := b]> (allblocks s).
Proof.
  intros Hok Hne Hk Hb Hs Hw.
  change (sv_ino (f_sv s) :: sfi_indirect (f_inode s) ::
    sfi_direct (f_inode s) ++ identries (dsk fs') (f_inode s) =
    sv_ino (f_sv s) :: sfi_indirect (f_inode s) :: <[Z.to_nat k := b]> (fblocks s)).
  do 2 f_equal. destruct Hok as (_ & (_&_&_&Hd&_) & _).
  unfold fblocks. rewrite insert_app_r_alt by lia. f_equal.
  unfold identries at 1. rewrite (proj2 (Z.eqb_neq _ _)) by done.
  rewrite Hs, de32s_be32s by by apply Forall_insert. f_equal. lia.
Qed.

Lemma identries_words s :
  file_ok s → Forall is_word (identries (f_dsk s) (f_inode s)).
Proof.
  intros Hok. unfold identries. destruct (Z.eqb_spec (sfi_indirect (f_inode s)) 0).
  { apply Forall_replicate. lia. }
  destruct (indirect_ok s) as [Hi _]; [done..|]. destruct Hok as (Hfs & _).
  destruct (fs_ok_sector (f_fs s) (sfi_indirect (f_inode s))) as [_ [Hl Hb]]; [done|lia|].
  by destruct (de32s_facts 128 _ Hl Hb) as (_ & _ & ?).
Qed.
(** Allocating a block for an empty entry of the indirect block. *)
Lemma sfs_bmap_entry_wp s k :
  file_ok s → 15 ≤ k < MAXBLK → sfi_indirect (f_inode s) ≠ 0 → fblock s k = 0 →
  swp ('(result, block) ← on_fs sfs_balloc;
       if negb (result =? 0) then mret (result, block) else
       idbuf' ← lift (arr_set (identries (f_dsk s) (f_inode s)) (k - 15) block);
       result ← on_fs (sfs_wblock (be32s idbuf') (sfi_indirect (f_inode s)));
       mret (result, block)) s
    (λ '(r, b) s', ext s s' ∧
       ((r = 0 ∧ b = fblock s' k ∧ b ≠ 0) ∨
        (r = ENOSPC ∧ fblock s' k = 0 ∧ ∀ c, 0 ≤ c < nblk (f_fs s') → f_used s' c = true))).
Proof.
  intros Hok Hk Hne H0. pose proof Hok as (Hfs & Hiwf & Hino & Hbl).
  destruct (indirect_ok s) as [Hi Hiu]; [done..|].
  apply swp_bind, on_balloc_wp; [done| |].
  2: { intros Hfull b. cbn. apply swp_ret. split; [by apply ext_refl|by right]. }
  intros b fs1 Hal. pose proof Hal as (Hb & Hf & Hfs1 & bm & Hset & Hupd).
  cbn. apply swp_bind, swp_lift. unfold MAXBLK in *.
  rewrite arr_set_in by (rewrite identries_length by done; lia). cbn.
  destruct (allocated_views s fs1 b (f_sv s) Hfs Hal) as (Hu & Hz & Hsame & Hn).
  pose proof (nblk_word _ _ Hfs Hb) as Hbw. pose proof (identries_words s Hok) as Hw.
  set (idbuf := <[Z.to_nat (k - 15) := b]> (identries (f_dsk s) (f_inode s))).
  assert (Forall is_word idbuf) as Hw' by by apply Forall_insert.
  apply swp_bind, swp_on_fs. eapply swp_mono.
  { apply sfs_wblock_wp; [done|cbn; lia|]. split; [|apply be32s_bytes].
    rewrite length_be32s. unfold idbuf. by rewrite length_insert, identries_length. }
  intros r fs2 [-> Hupd2]. apply swp_ret. cbn [f_sv f_fs] in *. set (s' := mkF fs2 (f_sv s)).
  pose proof Hupd2 as (Hs2 & Hfl2 & Hv2 & Hbm2 & _ & Hdk2 & _).
  assert (∀ c, 0 ≤ c → c ≠ sfi_indirect (f_inode s) →
    sect (f_dsk s') c = sect (dsk fs1) c) as Hother.
  { intros c Hc Hcne. unfold f_dsk. cbn. rewrite Hdk2. apply sect_insert_ne; lia || done. }
  assert (b ≠ sfi_indirect (f_inode s)) as Hbi by congruence.
  assert (allblocks s' = <[S (S (Z.to_nat k)) := b]> (allblocks s)) as Hall.
  { apply allblocks_entry; try done. rewrite Hdk2. apply sect_insert_eq; [lia|].
    apply fs_ok_dsk_length; [done|lia]. }
  pose proof (fblock_lookup s k Hok ltac:(unfold MAXBLK; lia)) as Hl. rewrite H0 in Hl.
  assert (ext s s') as Hext.
  { apply (ext_alloc s s' (S (S (Z.to_nat k))) b); try done; try lia.
    - by eapply fs_upd_ok_same.
    - destruct Hupd as (Hs1 & Hfl1 & Hv1 & _). pose proof (same_flags_trans _ _ _ Hfl1 Hfl2).
      unfold same_meta, same_file, s'. cbn. rewrite Hs2, Hv2. done.
    - intros c Hc. unfold f_used, used, s'. cbn. rewrite Hbm2. by apply Hu.
    - intros c Hc Hcu Hci. rewrite Hother; [apply Hsame; [lia|done]|lia|].
      intros ->. by apply Hne, Hci.
    - rewrite Hother by (done || lia). done. }
  split; [done|]. left. split_and!; [done| |lia].
  unfold fblock. change (fblocks s' !! Z.to_nat k) with (allblocks s' !! S (S (Z.to_nat k))).
  rewrite Hall, list_lookup_insert_eq; [done|].
  apply lookup_lt_Some in Hl. simpl. lia.
Qed.

(** The block mapping finds the block of the file, allocating it if it is
    asked to, and otherwise changes nothing of the file. *)
Lemma sfs_bmap_wp s k doalloc :
  file_ok s → 0 ≤ k →
  swp (sfs_bmap k doalloc) s (λ '(r, b) s', bmap_post s k doalloc r b s').
Proof.
  intros Hok Hk. unfold sfs_bmap, SFS_NDIRECT, SFS_DBPERIDB.
  destruct (Z.ltb_spec k 15); [apply sfs_bmap_direct_wp; [done|lia]|]. cbv zeta.
  destruct (Z.gtb_spec ((k - 15) / 128) 0).
  { apply swp_ret. split_and!; [by apply ext_refl|intros _; by apply eqv_refl|].
    right; left. split; [done|]. unfold MAXBLK. dlia. }
  assert (15 ≤ k < MAXBLK) as Hk' by (unfold MAXBLK; dlia).
  assert ((k - 15) mod 128 = k - 15) as -> by (unfold MAXBLK in *; apply Z.mod_small; lia).
  apply swp_bind. eapply swp_mono; [by apply sfs_bmap_idblock_wp|].
  intros [r id] s1 (Hext1 & Heq1 & Hid). assert (file_ok s1) as Hok1 by by destruct Hext1.
  destruct Hid as [(-> & -> & -> & Hi0)|[(-> & Hne & ->)|(-> & -> & Hi0 & Hfull)]]; cbn.
  - apply swp_ret. split_and!; try done. left. split_and!; [done|lia| |done].
    by rewrite fblock_no_indirect.
  - apply swp_bind, swp_lift. rewrite (arr_get_Some _ _ (fblock s1 k));
      [|lia|by apply fblock_indirect]. cbn.
    destruct ((fblock s1 k =? 0) && doalloc) eqn:E.
    + apply andb_true_iff in E as [E0%Z.eqb_eq ->].
      apply swp_bind. eapply swp_mono; [by apply sfs_bmap_entry_wp|].
      intros [r b] s2 [Hext2 Hr]. assert (ext s s2) as Hext by by eapply ext_trans.
      destruct Hr as [(-> & -> & Hb)|(-> & Hhole & Hfull)]; cbn.
      * apply check_used_post; done || lia.
      * apply swp_ret. split_and!; try done. right; right. split_and!; done || lia.
    + apply swp_bind, swp_ret. cbn. apply check_used_post; try done; [lia|].
      intros ->. destruct (Z.eqb_spec (fblock s1 k) 0); done.
  - apply swp_ret. split_and!; try done. right; right. split_and!; try (done || lia).
    by apply fblock_no_indirect.
Qed.
(** ** The content of a file and the frame of an operation on it *)

(** The blocks that hold the file's data and its indirect block. *)
Definition owned s (b : Z) : Prop := b ≠ 0 ∧ ∃ k, allblocks s !! S k = Some b.

(** No block is freed, nothing but the file's own blocks and free blocks is
    written, and what the file gains was free. *)
Definition frame s s' : Prop :=
  (∀ b, 0 ≤ b → f_used s b = true → f_used s' b = true) ∧
  (∀ b, 0 ≤ b < nblk (f_fs s) → f_used s b = true → ¬ owned s b →
     sect (f_dsk s') b = sect (f_dsk s) b) ∧
  (∀ b, owned s' b → owned s b ∨ (0 ≤ b ∧ f_used s b = false)).

Lemma frame_trans s1 s2 s3 :
  nblk (f_fs s2) = nblk (f_fs s1) → frame s1 s2 → frame s2 s3 → frame s1 s3.
Proof.
  intros Hn (Hu1 & Hf1 & Ho1) (Hu2 & Hf2 & Ho2). split_and!.
  - by eauto.
  - intros b Hb Hu Hnot. rewrite Hf2, Hf1; try done; [by rewrite Hn|by apply Hu1; [lia|]|].
    intros H2. destruct (Ho1 b H2) as [?|[_ ?]]; [done|congruence].
  - intros b H3. destruct (Ho2 b H3) as [H2|[Hb Hf]]; [by apply Ho1|].
    right. split; [done|]. destruct (f_used s1 b) eqn:E; [|done].
    rewrite Hu1 in Hf by done. done.
Qed.

Lemma owned_cases s b :
  file_ok s → owned s b → b ≠ 0 ∧
  (b = sfi_indirect (f_inode s) ∨ ∃ k, 0 ≤ k < MAXBLK ∧ b = fblock s k).
Proof.
  intros Hok [Hne [[|k] Hk]]; split; try done.
  - left. cbn in Hk. congruence.
  - right. change (fblocks s !! k = Some b) in Hk. exists (Z.of_nat k).
    assert (k < 143)%nat by (rewrite <-(fblocks_length s Hok); by eapply lookup_lt_Some).
    split; [unfold MAXBLK; lia|]. unfold fblock. by rewrite Nat2Z.id, Hk.
Qed.

Lemma owned_fblock s k : file_ok s → 0 ≤ k < MAXBLK → fblock s k ≠ 0 → owned s (fblock s k).
Proof.
  intros Hok Hk Hne. split; [done|]. exists (S (Z.to_nat k)). by apply fblock_lookup.
Qed.

Lemma owned_indirect s :
  sfi_indirect (f_inode s) ≠ 0 → owned s (sfi_indirect (f_inode s)).
Proof. intros Hne. split; [done|]. by exists 0%nat. Qed.

Lemma owned_range s b : file_ok s → owned s b → 0 ≤ b.
Proof.
  intros Hok Ho. destruct Hok as (_ & _ & _ & [Hu _]). destruct Ho as [Hne [k Hk]].
  destruct (Hu _ _ Hk Hne). lia.
Qed.

Lemma ext_frame s s' : file_ok s → ext s s' → frame s s'.
Proof.
  intros Hok (Hok' & Hm & Hu & Hs & Hk & Hi). split_and!; [done|..].
  - intros b Hb Hub Hno. apply Hs; try done. intros ->.
    apply dec_stable. intros Hne. by apply Hno, owned_indirect.
  - intros b Ho. pose proof (owned_range _ _ Hok' Ho).
    destruct (owned_cases s' b Hok' Ho) as [Hne [->|(k & Hk0 & ->)]].
    + destruct (Z.eqb_spec (sfi_indirect (f_inode s)) 0) as [|Hne'].
      * destruct Hi; [done|by right].
      * left. rewrite Hi. by apply owned_indirect.
    + specialize (Hk k Hk0). destruct (Z.eqb_spec (fblock s k) 0).
      * destruct Hk as [?|[? _]]; [done|by right].
      * left. rewrite Hk. by apply owned_fblock.
Qed.

Lemma fblock_range k p : 0 ≤ p < 73216 → p / 512 = k → 0 ≤ k < MAXBLK.
Proof. unfold MAXBLK. intros ? <-. dlia. Qed.

(** Allocating blocks does not change the content: the new blocks are zeroed
    and were holes. *)
Lemma ext_content s s' p :
  file_ok s → ext s s' → 0 ≤ p < 73216 → content s' p = content s p.
Proof.
  intros Hok (Hok' & Hm & Hu & Hs & Hk & Hi) Hp. unfold content.
  pose proof (fblock_range _ p Hp eq_refl) as Hr. specialize (Hk _ Hr).
  destruct (Z.eqb_spec (fblock s (p / 512)) 0) as [H0|Hne].
  - destruct Hk as [->|[_ Hz]]; [done|].
    destruct (fblock s' (p / 512) =? 0); [done|]. rewrite Hz. unfold zero_block.
    destruct (replicate 512 0 !! Z.to_nat (p mod 512)) eqn:E; [|done].
    by apply lookup_replicate in E as [-> _].
  - rewrite Hk, (proj2 (Z.eqb_neq _ _)) by done.
    destruct (fblock_ok s (p / 512)) as (? & ? & ? & _); [done..|].
    rewrite Hs; [done|lia|done|by intros ?].
Qed.

(** [s'] is [s] with [data] in the file's block [k]. *)
Definition wrote s s' (k : Z) (data : list Z) : Prop :=
  f_sv s' = f_sv s ∧
  fs_upd (f_fs s) (f_fs s') (<[Z.to_nat (fblock s k) := data]> (f_dsk s)) (sfs_freemap (f_fs s)).

Lemma wrote_views s s' k data :
  file_ok s → 0 ≤ k < MAXBLK → fblock s k ≠ 0 → wrote s s' k data →
  f_inode s' = f_inode s ∧ allblocks s' = allblocks s ∧ (∀ b, f_used s' b = f_used s b) ∧
  nblk (f_fs s') = nblk (f_fs s) ∧ sect (f_dsk s') (fblock s k) = data ∧
  (∀ b, 0 ≤ b → b ≠ fblock s k → sect (f_dsk s') b = sect (f_dsk s) b).
Proof.
  intros Hok Hk Hne [Hsv (Hs & _ & _ & Hb & _ & Hd & _)].
  destruct (fblock_ok s k) as (Hr & _ & Hind & _); [done..|].
  assert (∀ b, 0 ≤ b → b ≠ fblock s k → sect (f_dsk s') b = sect (f_dsk s) b) as Hother.
  { intros b Hb0 Hbne. unfold f_dsk at 1. rewrite Hd. apply sect_insert_ne; [lia|lia|congruence]. }
  assert (f_inode s' = f_inode s) as Hi by by unfold f_inode; rewrite Hsv.
  split_and!; try done.
  - unfold allblocks, fblocks. rewrite Hsv, Hi. do 3 f_equal. unfold identries.
    destruct (Z.eqb_spec (sfi_indirect (f_inode s)) 0); [done|].
    destruct (indirect_ok s); [done..|]. rewrite Hother; [done|lia|congruence].
  - intros b. unfold f_used, used. by rewrite Hb.
  - unfold nblk. by rewrite Hs.
  - unfold f_dsk. rewrite Hd. apply sect_insert_eq; [lia|]. destruct Hok as (Hfs & _).
    apply fs_ok_dsk_length; [done|lia].
Qed.

Lemma allblocks_fblock s s' k : allblocks s' = allblocks s → fblock s' k = fblock s k.
Proof. unfold fblock. intros [= _ _ ->]. done. Qed.

Lemma wrote_ok s s' k data :
  file_ok s → 0 ≤ k < MAXBLK → fblock s k ≠ 0 → wrote s s' k data →
  file_ok s' ∧ same_meta s s' ∧ frame s s'.
Proof.
  intros Hok Hk Hne Hw. pose proof (owned_fblock s k Hok Hk Hne) as Hown.
  destruct (wrote_views s s' k data Hok Hk Hne Hw) as (Hi & Hall & Hu & Hn & _ & Ho).
  destruct Hok as (Hfs & Hiwf & Hino & [Hb1 Hb2]). destruct Hw as [Hsv Hupd]. split_and!.
  - split_and!; [by eapply fs_upd_ok_same|by rewrite Hi|by rewrite Hsv|].
    unfold blocks_ok. rewrite Hall, Hn. split; [|done]. intros j b Hj Hb.
    fold (f_used s' b). rewrite Hu. by apply (Hb1 j).
  - destruct Hupd as (? & ? & ? & _). unfold same_meta, same_file. by rewrite Hi, Hsv.
  - split_and!.
    + intros b _ Hub. by rewrite Hu.
    + intros b Hb _ Hno. apply Ho; [lia|]. by intros ->.
    + intros b. unfold owned. rewrite Hall. by left.
Qed.

Lemma wrote_content s s' k data p :
  file_ok s → 0 ≤ k < MAXBLK → fblock s k ≠ 0 → wrote s s' k data → 0 ≤ p < 73216 →
  content s' p = if p / 512 =? k then default 0 (data !! Z.to_nat (p mod 512)) else content s p.
Proof.
  intros Hok Hk Hne Hw Hp. pose proof (fblock_range _ p Hp eq_refl) as Hr.
  destruct (wrote_views s s' k data Hok Hk Hne Hw) as (Hi & Hall & _ & _ & Hd & Ho).
  unfold content. rewrite (allblocks_fblock s s' _ Hall).
  destruct (Z.eqb_spec (p / 512) k) as [->|Hpk].
  - by rewrite (proj2 (Z.eqb_neq _ _)), Hd by done.
  - destruct (Z.eqb_spec (fblock s (p / 512)) 0) as [|Hne']; [done|].
    destruct (fblock_ok s (p / 512)) as (? & _); [done..|].
    rewrite Ho; [done|lia|]. intros Heq. by apply Hpk, (fblock_inj s).
Qed.
End file.
