(* ===== verification/Lhd.v ===== *)
(** * kern/dev/lamebus/lhd.c: the disk driver

    The driver talks to the disk through two registers and an on-card buffer.
    The disk itself is hardware: a parameter of the model, given by what it
    does with a request ([hw_run]) and by the contents of its sectors.  A
    request runs between the write to the status register and the interrupt;
    [P(lh_done)] is where the driver waits for it.  On hardware that may fail
    the driver moves the sectors of a request up to the first that fails; on
    hardware that does not fail it keeps the promises of a disk (class [Disk])
    that the filesystem relies on. *)

From S2P Require Import Prelude Copyinout Uio SfsDisk Dev.

Definition LHD_IDLE : Z := 0.
Definition LHD_WORKING : Z := 1.
Definition LHD_OK : Z := 4.
Definition LHD_INVSECT : Z := 12.
Definition LHD_MEDIA : Z := 20.
Definition LHD_ISWRITE : Z := 2.
Definition LHD_STATEMASK : Z := 0x1d.
Definition LHD_SECTSIZE : Z := 512.

(** The hardware: given the sector register, the direction and the buffer, the
    status it ends with, the buffer and the disk. *)
Class LhdHw (H : Type) := {
  hw_run : H → Z → bool → list Z → Z * list Z * H;
  hw_sectors : H → list (list Z);
}.

(** struct lhd_softc, with the registers of the card. *)
Record lhd (H : Type) := mkLhd {
  lh_buf : list Z;
  lh_result : Z;
  lh_clear : Z;
  lh_done : Z;
  lh_blocks : Z;
  lh_stat : Z;
  lh_sect : Z;
  lh_hw : H;
}.
Arguments mkLhd {H} _ _ _ _ _ _ _ _.
Arguments lh_buf {H} _.
Arguments lh_result {H} _.
Arguments lh_clear {H} _.
Arguments lh_done {H} _.
Arguments lh_blocks {H} _.
Arguments lh_stat {H} _.
Arguments lh_sect {H} _.
Arguments lh_hw {H} _.

Section lhd.
Context {H : Type} `{!LhdHw H} {cs : CurSpace}.
Implicit Types l : lhd H.

(** [P]: a call that has to wait for another thread does not return here. *)
Definition sem_P (count : Z) : outcome Z := if count >? 0 then Done (count - 1) else NoFuel.
Definition sem_V (count : Z) : outcome Z := to_int (count + 1).

Definition lhd_code_to_errno (code : Z) : Z :=
  let c := Z.land code LHD_STATEMASK in
  if c =? LHD_OK then 0 else
  if c =? LHD_INVSECT then EINVAL else
  if c =? LHD_MEDIA then EIO else EAGAIN.

Definition lhd_iodone l (err : Z) : outcome (lhd H) :=
  done ← sem_V (lh_done l);
  Done (mkLhd (lh_buf l) err (lh_clear l) done (lh_blocks l) (lh_stat l) (lh_sect l) (lh_hw l)).

Definition lhd_wreg_stat l (v : Z) : lhd H :=
  mkLhd (lh_buf l) (lh_result l) (lh_clear l) (lh_done l) (lh_blocks l) v (lh_sect l) (lh_hw l).
Definition lhd_wreg_sect l (v : Z) : lhd H :=
  mkLhd (lh_buf l) (lh_result l) (lh_clear l) (lh_done l) (lh_blocks l) (lh_stat l) v (lh_hw l).
Definition lhd_set_clear l (c : Z) : lhd H :=
  mkLhd (lh_buf l) (lh_result l) c (lh_done l) (lh_blocks l) (lh_stat l) (lh_sect l) (lh_hw l).
Definition lhd_set_done l (c : Z) : lhd H :=
  mkLhd (lh_buf l) (lh_result l) (lh_clear l) c (lh_blocks l) (lh_stat l) (lh_sect l) (lh_hw l).
Definition lhd_set_buf l (b : list Z) : lhd H :=
  mkLhd b (lh_result l) (lh_clear l) (lh_done l) (lh_blocks l) (lh_stat l) (lh_sect l) (lh_hw l).

Definition lhd_irq l : outcome (lhd H) :=
  let val := lh_stat l in
  let c := Z.land val LHD_STATEMASK in
  if (c =? LHD_OK) || (c =? LHD_INVSECT) || (c =? LHD_MEDIA)
  then lhd_iodone (lhd_wreg_stat l 0) (lhd_code_to_errno val)
  else Done l.

(** The request the status register describes runs, and raises the interrupt. *)
Definition lhd_hardware l : outcome (lhd H) :=
  let iswrite := negb (Z.land (lh_stat l) LHD_ISWRITE =? 0) in
  let '(code, buf, hw) := hw_run (lh_hw l) (lh_sect l) iswrite (lh_buf l) in
  lhd_irq (mkLhd buf (lh_result l) (lh_clear l) (lh_done l) (lh_blocks l) code (lh_sect l) hw).

(** One sector: the body of the loop of [lhd_io]. *)
Definition lhd_io_sector (statval sector : Z) (u : uio) l : outcome (Z * uio * lhd H) :=
  clear ← sem_P (lh_clear l);
  let l := lhd_set_clear l clear in
  '(result, buf, u) ←
    (if decide (uio_rw_of u = UIO_WRITE)
     then uiomove (lh_buf l) 0 LHD_SECTSIZE u else Done (0, lh_buf l, u));
  let l := lhd_set_buf l buf in
  if negb (result =? 0) then
    clear ← sem_V (lh_clear l); Done (result, u, lhd_set_clear l clear)
  else
  let l := lhd_wreg_stat (lhd_wreg_sect l sector) statval in
  l ← lhd_hardware l;
  done ← sem_P (lh_done l);
  let l := lhd_set_done l done in
  '(result, _, u) ←
    (if (lh_result l =? 0) && bool_decide (uio_rw_of u = UIO_READ)
     then uiomove (lh_buf l) 0 LHD_SECTSIZE u else Done (lh_result l, lh_buf l, u));
  clear ← sem_V (lh_clear l);
  Done (result, u, lhd_set_clear l clear).

Definition lhd_io l (u : uio) : outcome (Z * uio * lhd H) :=
  let sector := u32 (Z.quot (uio_offset u) LHD_SECTSIZE) in
  let sectoff := u32 (Z.rem (uio_offset u) LHD_SECTSIZE) in
  let len := uio_resid u / LHD_SECTSIZE in
  let lenoff := uio_resid u mod LHD_SECTSIZE in
  if negb (sectoff =? 0) || negb (lenoff =? 0) then Done (EINVAL, u, l) else
  if u32 (sector + len) >? lh_blocks l then Done (EINVAL, u, l) else
  let statval :=
    if decide (uio_rw_of u = UIO_WRITE) then Z.lor LHD_WORKING LHD_ISWRITE else LHD_WORKING in
  r ← for_loop (Z.to_nat len) 0
    (λ i '(u, l),
       '(result, u', l') ← lhd_io_sector statval (u32 (sector + i)) u l;
       Done (if negb (result =? 0) then inr (result, u', l') else inl (u', l'))) (u, l);
  Done (match r with inl (u', l') => (0, u', l') | inr x => x end).

Definition lhd_open (openflags : Z) : Z := 0.
Definition lhd_close : Z := 0.
Definition lhd_ioctl (op data : Z) : Z := EIOCTL.

(** The device structure that config_lhd sets up. *)
#[export] Instance lhd_dev : BlockDev (lhd H) := {
  d_io := lhd_io;
  d_blocks := lh_blocks;
  d_blocksize := λ _, LHD_SECTSIZE;
}.

(** ** The promises of the driver *)

(** Hardware without media errors (the LAMEbus disk as System/161 documents
    it): a valid request ends with the status OK, a read delivers the sector
    in the buffer, a write replaces it. *)
Class LhdHwOk := {
  hw_ok : H → Prop;
  hw_ok_sectors h : hw_ok h → Forall sector_ok (hw_sectors h);
  hw_read h b sec buf :
    hw_ok h → 0 ≤ b → hw_sectors h !! Z.to_nat b = Some sec →
    ∃ h', hw_run h b false buf = (LHD_OK, sec, h') ∧ hw_ok h' ∧ hw_sectors h' = hw_sectors h;
  hw_write h b buf :
    hw_ok h → 0 ≤ b < Z.of_nat (length (hw_sectors h)) → sector_ok buf →
    ∃ h', hw_run h b true buf = (Z.lor LHD_OK LHD_ISWRITE, buf, h') ∧ hw_ok h' ∧
      hw_sectors h' = <[Z.to_nat b := buf]> (hw_sectors h);
}.

(** Hardware that may fail: every request on a sector of the disk ends with one
    of the three final states.  When it is OK, a read has delivered the sector
    and a write has replaced it; after an error a read has changed nothing and
    a write at most its own sector. *)
Definition final_status (code : Z) : bool :=
  let c := Z.land code LHD_STATEMASK in
  (c =? LHD_OK) || (c =? LHD_INVSECT) || (c =? LHD_MEDIA).

Class LhdHwLaws := {
  hw_inv : H → Prop;
  hw_inv_sectors h : hw_inv h → Forall sector_ok (hw_sectors h);
  hw_request h b (w : bool) buf code buf' h' :
    hw_inv h → 0 ≤ b < Z.of_nat (length (hw_sectors h)) → length buf = 512%nat → (w = true → Forall is_byte buf) →
    hw_run h b w buf = (code, buf', h') →
    hw_inv h' ∧ final_status code = true ∧ length buf' = 512%nat ∧
    length (hw_sectors h') = length (hw_sectors h) ∧
    (∀ j, w = false ∨ j ≠ Z.to_nat b → hw_sectors h' !! j = hw_sectors h !! j) ∧
    (lhd_code_to_errno code = 0 →
     hw_sectors h' !! Z.to_nat b = Some (if w then buf else buf') );
}.

(** No operation is in progress, and the driver knows the size of the disk. *)
Definition lhd_ready (inv : H → Prop) l : Prop :=
  inv (lh_hw l) ∧ lh_clear l = 1 ∧ lh_done l = 0 ∧ length (lh_buf l) = 512%nat ∧
  lh_blocks l = Z.of_nat (length (hw_sectors (lh_hw l))) ∧ lh_blocks l ≤ 4194303.

Lemma sem_P_pos c : 0 < c → sem_P c = Done (c - 1).
Proof. intros. unfold sem_P. rewrite Z.gtb_ltb, (proj2 (Z.ltb_lt _ _)) by lia. done. Qed.

Lemma sem_V_small c : 0 ≤ c < 10 → sem_V c = Done (c + 1).
Proof. intros. apply wp_eq, wp_to_int; [unfold INT_MIN, INT_MAX; lia|done]. Qed.

(** A request on a sector: the hardware runs, the interrupt handler stores the
    result and wakes the driver. *)
Lemma lhd_hardware_done l code buf h :
  lh_done l = 0 →
  hw_run (lh_hw l) (lh_sect l) (negb (Z.land (lh_stat l) LHD_ISWRITE =? 0)) (lh_buf l) =
    (code, buf, h) →
  final_status code = true →
  lhd_hardware l = Done (mkLhd buf (lhd_code_to_errno code) (lh_clear l) 1 (lh_blocks l) 0
                           (lh_sect l) h).
Proof.
  intros Hd Hrun Hcode. unfold lhd_hardware. rewrite Hrun.
  unfold lhd_irq, final_status in *. cbn [lh_stat]. rewrite Hcode. unfold lhd_iodone. cbn. by rewrite Hd.
Qed.

Lemma slice_sector sec : length sec = 512%nat → slice sec 0 512 = sec.
Proof. intros Hl. unfold slice. simpl. rewrite drop_0. apply take_ge. lia. Qed.

Lemma buf_write_sector b bs : length b = 512%nat → length bs = 512%nat → buf_write b 0 bs = bs.
Proof.
  intros Hb Hbs. unfold buf_write. simpl. rewrite drop_ge by lia. apply app_nil_r.
Qed.

(** The value [lhd_io] writes into the status register. *)
Definition lhd_statval (rw : uio_rw) : Z :=
  if decide (rw = UIO_WRITE) then Z.lor LHD_WORKING LHD_ISWRITE else LHD_WORKING.

(** The turn of the loop for one sector, in terms of what the hardware does. *)
Lemma lhd_sector_read_run l b mem pos len off resid code buf' h' :
  lh_clear l = 1 → lh_done l = 0 → length buf' = 512%nat →
  kuio_ok mem pos len off resid → 512 ≤ resid →
  hw_run (lh_hw l) b false (lh_buf l) = (code, buf', h') → final_status code = true →
  lhd_io_sector (lhd_statval UIO_READ) b (kuio UIO_READ mem pos len off resid) l =
    let r := lhd_code_to_errno code in
    Done (r,
      if r =? 0 then kuio UIO_READ (buf_write mem pos buf') (pos + 512) (len - 512) (off + 512) (resid - 512)
      else kuio UIO_READ mem pos len off resid,
      mkLhd buf' r 1 0 (lh_blocks l) 0 b h').
Proof.
  intros Hc Hd Hbuf Hu Hres Hrun Hst. change (lhd_statval UIO_READ) with LHD_WORKING. unfold lhd_io_sector.
  rewrite Hc. rewrite sem_P_pos by lia. cbn [mbind outcome_bind].
  rewrite decide_False by done. cbn [mbind outcome_bind negb Z.eqb].
  erewrite lhd_hardware_done; [|done|exact Hrun|done].
  cbn [mbind outcome_bind lh_done lhd_set_done]. rewrite sem_P_pos by lia.
  cbn -[uiomove slice kuio buf_write lhd_code_to_errno].
  destruct (Z.eqb_spec (lhd_code_to_errno code) 0) as [E0|_]; cbn -[uiomove slice kuio buf_write lhd_code_to_errno]; [|done].
  rewrite uiomove_kuio by first [done|lia|unfold LHD_SECTSIZE; lia].
  rewrite bool_decide_true by done. cbn -[slice kuio buf_write lhd_code_to_errno]. by rewrite slice_sector, E0.
Qed.

Lemma lhd_sector_write_run l b mem pos len off resid code buf' h' :
  lh_clear l = 1 → lh_done l = 0 → length (lh_buf l) = 512%nat →
  kuio_ok mem pos len off resid → 512 ≤ resid →
  hw_run (lh_hw l) b true (slice mem pos 512) = (code, buf', h') → final_status code = true →
  lhd_io_sector (lhd_statval UIO_WRITE) b (kuio UIO_WRITE mem pos len off resid) l =
    let r := lhd_code_to_errno code in
    Done (r, kuio UIO_WRITE mem (pos + 512) (len - 512) (off + 512) (resid - 512),
      mkLhd buf' r 1 0 (lh_blocks l) 0 b h').
Proof.
  intros Hc Hd Hbuf Hu Hres Hrun Hst. pose proof Hu as (Hp & Hm & Hr & _).
  assert (length (slice mem pos 512) = 512%nat) as Hsl.
  { pose proof (length_slice mem pos 512 ltac:(lia) ltac:(lia) ltac:(lia)). lia. }
  change (lhd_statval UIO_WRITE) with (Z.lor LHD_WORKING LHD_ISWRITE). unfold lhd_io_sector.
  rewrite Hc. rewrite sem_P_pos by lia. cbn [mbind outcome_bind].
  rewrite decide_True by done. cbn [lhd_set_clear lh_buf].
  rewrite uiomove_kuio by first [done|lia|unfold LHD_SECTSIZE; lia]. cbn [mbind outcome_bind negb Z.eqb].
  rewrite buf_write_sector by done.
  erewrite lhd_hardware_done; [|done|exact Hrun|done].
  cbn [mbind outcome_bind lh_done lhd_set_done]. rewrite sem_P_pos by lia.
  cbn -[uiomove slice kuio buf_write lhd_code_to_errno].
  rewrite bool_decide_false by done. rewrite andb_false_r. done.
Qed.

(** The two checks of [lhd_io], and its loop. *)
Definition lhd_valid l (u : uio) : bool :=
  (uio_offset u mod 512 =? 0) && (uio_resid u mod 512 =? 0) &&
  (uio_offset u / 512 + uio_resid u / 512 <=? lh_blocks l).

Lemma lhd_io_eq l u :
  0 ≤ uio_offset u ≤ INT_MAX → 0 ≤ uio_resid u < 4294967296 →
  lhd_io l u =
    if lhd_valid l u then
      r ← for_loop (Z.to_nat (uio_resid u / 512)) 0
        (λ i '(u', l'),
           '(result, u', l') ← lhd_io_sector (lhd_statval (uio_rw_of u)) (u32 (uio_offset u / 512 + i)) u' l';
           Done (if negb (result =? 0) then inr (result, u', l') else inl (u', l'))) (u, l);
      Done (match r with inl (u', l') => (0, u', l') | inr x => x end)
    else Done (EINVAL, u, l).
Proof.
  intros Ho Hr. unfold lhd_io, lhd_valid, LHD_SECTSIZE, INT_MAX in *.
  rewrite Z.quot_div_nonneg, Z.rem_mod_nonneg by lia.
  pose proof (Z.mod_pos_bound (uio_offset u) 512 ltac:(lia)).
  assert (0 ≤ uio_offset u / 512 < 4194304) by (split; [apply Z.div_pos|apply Z.div_lt_upper_bound]; lia).
  assert (0 ≤ uio_resid u / 512 < 8388608) by (split; [apply Z.div_pos|apply Z.div_lt_upper_bound]; lia).
  rewrite (u32_small (uio_offset u mod 512)), (u32_small (uio_offset u / 512)),
    (u32_small (uio_offset u / 512 + uio_resid u / 512)) by lia.
  destruct (_ mod _ =? 0); [|done]. destruct (_ mod _ =? 0); [|done]. cbn [negb orb andb].
  rewrite Z.gtb_ltb. destruct (Z.leb_spec (uio_offset u / 512 + uio_resid u / 512) (lh_blocks l));
    [rewrite (proj2 (Z.ltb_ge _ _)) by lia|rewrite (proj2 (Z.ltb_lt _ _)) by lia]; done.
Qed.

(** A valid request on kernel memory covers whole sectors of the disk. *)
Lemma lhd_valid_sectors l rw mem pos len off resid :
  kuio_ok mem pos len off resid → lhd_valid l (kuio rw mem pos len off resid) = true →
  off = off / 512 * 512 ∧ resid = resid / 512 * 512 ∧ 0 ≤ off / 512 ∧ 0 ≤ resid / 512 ∧
  off / 512 + resid / 512 ≤ lh_blocks l.
Proof.
  intros (_ & _ & Hr & _ & Ho & _) Hv. unfold lhd_valid in Hv. cbn in Hv.
  apply andb_true_iff in Hv as [[Hv1 Hv2]%andb_true_iff Hv3].
  pose proof (Z.div_mod off 512 ltac:(lia)). pose proof (Z.div_mod resid 512 ltac:(lia)).
  split_and!; try lia; apply Z.div_pos; lia.
Qed.

Section laws.
Context {Hlaws : LhdHwLaws}.

(** The bytes of [k] sectors from sector [b] on. *)
Definition sectors_at (h : H) (b : Z) (k : nat) : list Z :=
  concat (take k (drop (Z.to_nat b) (hw_sectors h))).

Lemma length_sectors_at h b k :
  hw_inv h → 0 ≤ b → b + Z.of_nat k ≤ Z.of_nat (length (hw_sectors h)) →
  Z.of_nat (length (sectors_at h b k)) = 512 * Z.of_nat k.
Proof.
  intros Hh Hb Hk. unfold sectors_at.
  assert (Forall (λ s : list Z, length s = 512%nat) (take k (drop (Z.to_nat b) (hw_sectors h)))) as Hf.
  { apply Forall_take, Forall_drop. eapply Forall_impl; [by apply hw_inv_sectors|]. by intros ? []. }
  assert (length (take k (drop (Z.to_nat b) (hw_sectors h))) = k) as Hl by (rewrite length_take, length_drop; lia).
  rewrite <-Hl at 2. clear -Hf. induction Hf as [|x xs Hx _ IH]; [done|]. cbn [concat]. rewrite length_app. cbn [length]. lia.
Qed.

Lemma sectors_at_S h b k sec :
  0 ≤ b → hw_sectors h !! Z.to_nat (b + Z.of_nat k) = Some sec →
  sectors_at h b (S k) = sectors_at h b k ++ sec.
Proof.
  intros Hb Hs. unfold sectors_at. rewrite (take_S_r _ _ sec).
  - rewrite concat_app. cbn. by rewrite app_nil_r.
  - rewrite lookup_drop. by rewrite Z2Nat.inj_add, Nat2Z.id in Hs by lia.
Qed.

(** What a request that ended with [r] after [k] of its [n] sectors tells. *)
Definition lhd_answer (r : Z) (k n : nat) : Prop :=
  (r = 0 ∧ k = n) ∨ ((r = EINVAL ∨ r = EIO) ∧ (k < n)%nat).

Lemma final_errno code :
  final_status code = true → lhd_code_to_errno code ≠ 0 →
  lhd_code_to_errno code = EINVAL ∨ lhd_code_to_errno code = EIO.
Proof.
  unfold final_status, lhd_code_to_errno. repeat case_match; try done; auto. 
Qed.

Lemma lhd_ready_step l buf r b h' :
  lhd_ready hw_inv l → hw_inv h' → length buf = 512%nat →
  length (hw_sectors h') = length (hw_sectors (lh_hw l)) →
  lhd_ready hw_inv (mkLhd buf r 1 0 (lh_blocks l) 0 b h').
Proof. intros (_ & _ & _ & _ & ? & ?) ???. unfold lhd_ready. cbn. split_and!; congruence || done. Qed.

(** The loop, from an invariant [P] of its turns and what holds after a turn
    that failed, [E]. *)
Lemma lhd_io_loop (P E : Z → uio → lhd H → Prop) l u :
  0 ≤ uio_offset u ≤ INT_MAX → 0 ≤ uio_resid u < 4294967296 → lhd_valid l u = true → lh_blocks l ≤ 4194303 →
  P 0 u l →
  (∀ i u' l', 0 ≤ i < uio_resid u / 512 → P i u' l' →
     wp (lhd_io_sector (lhd_statval (uio_rw_of u)) (uio_offset u / 512 + i) u' l') (λ '(r, u2, l2),
       if r =? 0 then P (i + 1) u2 l2 else (r = EINVAL ∨ r = EIO) ∧ E i u2 l2)) →
  wp (lhd_io l u) (λ '(r, u', l'), ∃ k, lhd_answer r k (Z.to_nat (uio_resid u / 512)) ∧
    if r =? 0 then P (Z.of_nat k) u' l' else E (Z.of_nat k) u' l').
Proof.
  intros Ho Hr Hv Hmax HP Hturn. rewrite lhd_io_eq, Hv by done.
  assert (0 ≤ uio_offset u / 512) by (apply Z.div_pos; lia).
  unfold lhd_valid in Hv. apply andb_true_iff in Hv as [_ Hv].
  set (n := uio_resid u / 512) in *. apply wp_bind. eapply wp_mono.
  { apply (wp_for_loop (λ i x, P i x.1 x.2) (λ x, x.1.1 ≠ 0 ∧ ∃ k, lhd_answer x.1.1 k (Z.to_nat n) ∧ E (Z.of_nat k) x.1.2 x.2)); [done|].
    intros i [u' l'] Hi HPi. rewrite u32_small by lia. apply wp_bind. eapply wp_mono; [apply Hturn; [lia|done]|].
    intros [[r u2] l2] Hres. cbn [wp]. destruct (Z.eqb_spec r 0); cbn [negb loop_post]; [done|].
    split; [done|]. exists (Z.to_nat i). rewrite Z2Nat.id by lia. split; [|apply Hres]. right. split; [apply Hres|lia]. }
  intros [[u' l']|[[r u'] l']]; cbn [loop_post wp fst snd].
  - intros Hend. exists (Z.to_nat n). split; [by left|]. done.
  - intros (Hr0 & k & Ha & HE). exists k. split; [done|]. by rewrite (proj2 (Z.eqb_neq _ _)).
Qed.

(** After [i] turns of a read. *)
Definition read_turns l mem pos len off resid (i : Z) (u : uio) l' : Prop :=
  lhd_ready hw_inv l' ∧ lh_blocks l' = lh_blocks l ∧ hw_sectors (lh_hw l') = hw_sectors (lh_hw l) ∧
  u = kuio UIO_READ (buf_write mem pos (sectors_at (lh_hw l) (off / 512) (Z.to_nat i)))
        (pos + 512 * i) (len - 512 * i) (off + 512 * i) (resid - 512 * i).

Lemma lhd_read_turn l mem pos len off resid i u l' :
  lhd_ready hw_inv l → kuio_ok mem pos len off resid →
  lhd_valid l (kuio UIO_READ mem pos len off resid) = true → 0 ≤ i < resid / 512 →
  read_turns l mem pos len off resid i u l' →
  wp (lhd_io_sector (lhd_statval UIO_READ) (off / 512 + i) u l') (λ '(r, u2, l2),
    if r =? 0 then read_turns l mem pos len off resid (i + 1) u2 l2
    else (r = EINVAL ∨ r = EIO) ∧ read_turns l mem pos len off resid i u2 l2).
Proof.
  intros Hok Hu Hv Hi (Hok' & Hblk' & Hs' & ->).
  destruct (lhd_valid_sectors _ _ _ _ _ _ _ Hu Hv) as (Eo & Er & Hb0 & Hn0 & Hbn). set (b := off / 512) in *.
  pose proof Hok as (Hh & _ & _ & _ & Hblk & Hmax). pose proof Hu as (Hp & Hm & Hr & Hl & Ho & Hor).
  pose proof Hok' as (Hh' & Hc & Hd & Hbuf & _ & _).
  destruct (hw_run (lh_hw l') (b + i) false (lh_buf l')) as [[code buf'] h'] eqn:Erun.
  destruct (hw_request (lh_hw l') (b + i) false _ _ _ _ Hh' ltac:(rewrite Hs'; lia) Hbuf ltac:(done) Erun)
    as (Hh2 & Hfin & Hlb & Hls & Hsame & Hdata).
  assert (hw_sectors h' = hw_sectors (lh_hw l)) as Hs2 by (rewrite <-Hs'; apply list_eq; intros j; apply Hsame; by left).
  assert (Z.of_nat (length (sectors_at (lh_hw l) b (Z.to_nat i))) = 512 * i) as Hlen
    by (rewrite length_sectors_at by (done || lia); lia).
  assert (kuio_ok (buf_write mem pos (sectors_at (lh_hw l) b (Z.to_nat i))) (pos + 512 * i) (len - 512 * i) (off + 512 * i) (resid - 512 * i)) as Hu'
    by (unfold kuio_ok; rewrite length_buf_write by lia; lia).
  rewrite (lhd_sector_read_run _ _ _ _ _ _ _ _ _ _ Hc Hd Hlb Hu' ltac:(lia) Erun Hfin). cbv zeta. cbn [wp].
  assert (lhd_ready hw_inv (mkLhd buf' (lhd_code_to_errno code) 1 0 (lh_blocks l') 0 (b + i) h')) as Hready
    by (eapply lhd_ready_step; eauto).
  destruct (Z.eqb_spec (lhd_code_to_errno code) 0) as [E0|E0]; [|split; [by apply final_errno|done]].
  split_and!; [done|done|done|].
  rewrite Z2Nat.inj_add, Nat.add_1_r by lia. specialize (Hdata E0). rewrite Hs2 in Hdata.
  rewrite (sectors_at_S _ _ _ buf') by (first [lia|by rewrite Z2Nat.id by lia]).
  fold b. rewrite <-buf_write_app by lia. rewrite Hlen. f_equal; lia.
Qed.

(** After [i] turns of a write, of which [s] sectors are on the disk and the
    others of them unknown. *)
Definition write_turns l mem pos len off resid (s i : Z) (u : uio) l' : Prop :=
  lhd_ready hw_inv l' ∧ lh_blocks l' = lh_blocks l ∧
  (∀ j, 0 ≤ j < s → hw_sectors (lh_hw l') !! Z.to_nat (off / 512 + j) = Some (slice mem (pos + 512 * j) 512)) ∧
  (∀ j, Z.of_nat j < off / 512 ∨ off / 512 + i ≤ Z.of_nat j → hw_sectors (lh_hw l') !! j = hw_sectors (lh_hw l) !! j) ∧
  u = kuio UIO_WRITE mem (pos + 512 * i) (len - 512 * i) (off + 512 * i) (resid - 512 * i).

Lemma lhd_write_turn l mem pos len off resid i u l' :
  lhd_ready hw_inv l → kuio_ok mem pos len off resid → Forall is_byte mem →
  lhd_valid l (kuio UIO_WRITE mem pos len off resid) = true → 0 ≤ i < resid / 512 →
  write_turns l mem pos len off resid i i u l' →
  wp (lhd_io_sector (lhd_statval UIO_WRITE) (off / 512 + i) u l') (λ '(r, u2, l2),
    if r =? 0 then write_turns l mem pos len off resid (i + 1) (i + 1) u2 l2
    else (r = EINVAL ∨ r = EIO) ∧ write_turns l mem pos len off resid i (i + 1) u2 l2).
Proof.
  intros Hok Hu Hby Hv Hi (Hok' & Hblk' & Hs' & Ho' & ->).
  destruct (lhd_valid_sectors _ _ _ _ _ _ _ Hu Hv) as (Eo & Er & Hb0 & Hn0 & Hbn). set (b := off / 512) in *.
  pose proof Hok as (Hh & _ & _ & _ & Hblk & Hmax). pose proof Hu as (Hp & Hm & Hr & Hl & Ho & Hor).
  pose proof Hok' as (Hh' & Hc & Hd & Hbuf & Hblk2 & _).
  destruct (hw_run (lh_hw l') (b + i) true (slice mem (pos + 512 * i) 512)) as [[code buf'] h'] eqn:Erun.
  assert (sector_ok (slice mem (pos + 512 * i) 512)) as Hsec.
  { split; [|by apply Forall_take, Forall_drop]. pose proof (length_slice mem (pos + 512 * i) 512). lia. }
  destruct (hw_request (lh_hw l') (b + i) true _ _ _ _ Hh' ltac:(lia) (proj1 Hsec) (λ _, proj2 Hsec) Erun)
    as (Hh2 & Hfin & Hlb & Hls & Hsame & Hdata).
  assert (kuio_ok mem (pos + 512 * i) (len - 512 * i) (off + 512 * i) (resid - 512 * i)) as Hu' by (unfold kuio_ok; lia).
  rewrite (lhd_sector_write_run _ _ _ _ _ _ _ _ _ _ Hc Hd Hbuf Hu' ltac:(lia) Erun Hfin). cbv zeta. cbn [wp].
  assert (lhd_ready hw_inv (mkLhd buf' (lhd_code_to_errno code) 1 0 (lh_blocks l') 0 (b + i) h')) as Hready
    by (eapply lhd_ready_step; eauto).
  assert (write_turns l mem pos len off resid i (i + 1) (kuio UIO_WRITE mem (pos + 512 * i + 512) (len - 512 * i - 512) (off + 512 * i + 512) (resid - 512 * i - 512))
    (mkLhd buf' (lhd_code_to_errno code) 1 0 (lh_blocks l') 0 (b + i) h')) as Hturn.
  { split_and!; [done|done| | |f_equal; lia]; cbn [lh_hw].
    - intros j Hj. fold b. rewrite Hsame by lia. by apply Hs'.
    - intros j Hj. fold b in Hj. rewrite Hsame by lia. apply Ho'. fold b. lia. }
  destruct (Z.eqb_spec (lhd_code_to_errno code) 0) as [E0|E0]; [|split; [by apply final_errno|done]].
  destruct Hturn as (? & ? & Hs2 & ? & ?). split_and!; try done. cbn [lh_hw]. intros j Hj.
  destruct (decide (j = i)) as [->|]; [by apply Hdata|]. apply Hs2. lia.
Qed.
End laws.

Section disk.
Context {Hhw : LhdHwOk}.

Definition lhd_ok : lhd H → Prop := lhd_ready hw_ok.

(** Hardware that never fails keeps the laws. *)
#[export] Program Instance lhd_hw_ok_laws : LhdHwLaws := { hw_inv := hw_ok }.
Next Obligation. apply hw_ok_sectors. Qed.
Next Obligation.
  intros h b [] buf code buf' h' Hh Hb Hlen Hbuf Hrun.
  - destruct (hw_write h b buf Hh Hb (conj Hlen (Hbuf eq_refl))) as (h2 & Hrun2 & Hh2 & Hs2). rewrite Hrun2 in Hrun. simplify_eq.
    rewrite Hs2, length_insert. split_and!; [done|done|done|done| |].
    + intros j [|]; [done|]. by rewrite list_lookup_insert_ne.
    + intros _. apply list_lookup_insert_eq. lia.
  - destruct (lookup_lt_is_Some_2 (hw_sectors h) (Z.to_nat b)) as [sec Hsec]; [lia|].
    destruct (hw_read h b sec buf Hh ltac:(lia) Hsec) as (h2 & Hrun2 & Hh2 & Hs2). rewrite Hrun2 in Hrun. simplify_eq.
    rewrite Hs2. split_and!; try done. by eapply (Forall_lookup_1 sector_ok) in Hsec as [? _]; [|by apply hw_ok_sectors].
Qed.

(** The checks of [lhd_io] pass for a request of one sector on the disk, and
    its loop runs once. *)
Lemma lhd_io_one l rw mem pos len b (Q : Z * uio * lhd H → Prop) :
  0 ≤ b < lh_blocks l → lh_blocks l ≤ 4194303 →
  wp (lhd_io_sector (lhd_statval rw) b (kuio rw mem pos len (b * 512) 512) l) Q →
  wp (lhd_io l (kuio rw mem pos len (b * 512) 512)) Q.
Proof.
  intros Hb Hmax Hs. rewrite lhd_io_eq by (cbn; unfold INT_MAX; lia). unfold lhd_valid.
  cbn [uio_offset uio_resid uio_rw_of kuio]. rewrite Z.div_mul, Z.mod_mul by lia.
  change (512 mod 512 =? 0) with true. change (512 / 512) with 1. rewrite (proj2 (Z.leb_le _ _)) by lia. cbn [Z.eqb andb].
  change (Z.to_nat 1) with 1%nat. cbn [for_loop]. rewrite Z.add_0_r, (u32_small b) by lia.
  apply wp_bind, wp_bind, wp_bind. eapply wp_mono; [exact Hs|].
  intros [[r u'] l'] HQ. destruct (Z.eqb_spec r 0) as [->|]; done.
Qed.

Lemma lhd_read_law l b sec mem pos len :
  lhd_ok l → 0 ≤ b → hw_sectors (lh_hw l) !! Z.to_nat b = Some sec →
  kuio_ok mem pos len (b * 512) 512 →
  wp (lhd_io l (kuio UIO_READ mem pos len (b * 512) 512)) (λ '(r, u, l'),
    r = 0 ∧ u = kuio UIO_READ (buf_write mem pos sec) (pos + 512) (len - 512) (b * 512 + 512) 0 ∧
    lhd_ok l' ∧ hw_sectors (lh_hw l') = hw_sectors (lh_hw l) ∧ lh_blocks l' = lh_blocks l).
Proof.
  intros (Hh & Hc & Hd & Hbuf & Hn & Hmax) Hb Hsec Hu.
  assert (Z.to_nat b < length (hw_sectors (lh_hw l)))%nat by by eapply lookup_lt_Some.
  destruct (hw_read (lh_hw l) b sec (lh_buf l)) as (h' & Hrun & Hh' & Hs'); [done..|].
  assert (length sec = 512%nat) as Hsl.
  { by eapply (Forall_lookup_1 sector_ok) in Hsec as [? _]; [|by apply hw_ok_sectors]. }
  apply lhd_io_one; [lia|lia|]. rewrite (lhd_sector_read_run _ _ _ _ _ _ _ _ _ _ Hc Hd Hsl Hu ltac:(lia) Hrun) by done.
  cbn [wp]. split_and!; try done. unfold lhd_ok, lhd_ready. cbn [lh_hw lh_blocks lh_clear lh_done lh_buf]. by rewrite Hs'.
Qed.

Lemma lhd_write_law l b mem pos len :
  lhd_ok l → 0 ≤ b < lh_blocks l → Forall is_byte (slice mem pos 512) →
  kuio_ok mem pos len (b * 512) 512 →
  wp (lhd_io l (kuio UIO_WRITE mem pos len (b * 512) 512)) (λ '(r, u, l'),
    r = 0 ∧ u = kuio UIO_WRITE mem (pos + 512) (len - 512) (b * 512 + 512) 0 ∧
    lhd_ok l' ∧ hw_sectors (lh_hw l') = <[Z.to_nat b := slice mem pos 512]> (hw_sectors (lh_hw l)) ∧
    lh_blocks l' = lh_blocks l).
Proof.
  intros (Hh & Hc & Hd & Hbuf & Hn & Hmax) Hb Hby Hu. pose proof Hu as (Hp & Hm & Hr & _).
  assert (length (slice mem pos 512) = 512%nat) as Hsl.
  { pose proof (length_slice mem pos 512 ltac:(lia) ltac:(lia) ltac:(lia)). lia. }
  destruct (hw_write (lh_hw l) b (slice mem pos 512)) as (h' & Hrun & Hh' & Hs'); [done|lia|done|].
  apply lhd_io_one; [lia|lia|]. rewrite (lhd_sector_write_run _ _ _ _ _ _ _ _ _ _ Hc Hd Hbuf Hu ltac:(lia) Hrun) by done.
  cbn [wp]. split_and!; try done. unfold lhd_ok, lhd_ready. cbn [lh_hw lh_blocks lh_clear lh_done lh_buf]. by rewrite Hs', length_insert.
Qed.

#[export] Program Instance lhd_disk : Disk (lhd H) := {
  d_data l := hw_sectors (lh_hw l);
  d_ok := lhd_ok;
}.
Next Obligation.
  intros l (Hh & _ & _ & _ & Hn & Hmax). cbn. split_and!; [lia|done|]. by apply hw_ok_sectors.
Qed.
Next Obligation. done. Qed.
Next Obligation. intros. by apply lhd_read_law. Qed.
Next Obligation. intros. by apply lhd_write_law. Qed.
End disk.
End lhd.

(** A disk that is nothing but its sectors and never fails. *)
#[export] Instance ramdisk_hw : LhdHw (list (list Z)) := {
  hw_run h b iswrite buf :=
    if iswrite : bool then (Z.lor LHD_OK LHD_ISWRITE, buf, <[Z.to_nat b := buf]> h)
    else (LHD_OK, default [] (h !! Z.to_nat b), h);
  hw_sectors h := h;
}.

#[export] Program Instance ramdisk_ok : LhdHwOk := {
  hw_ok h := Forall sector_ok h;
}.
Next Obligation. done. Qed.
Next Obligation. intros h b sec buf Hok Hb Hs. exists h. cbn in *. by rewrite Hs. Qed.
Next Obligation.
  intros h b buf Hok Hb Hs. eexists. cbn. split_and!; [done| |done]. by apply Forall_insert.
Qed.

(** A disk one of whose sectors cannot be read or written. *)
Record flawed := mkFlawed { fl_sectors : list (list Z); fl_bad : Z }.

#[export] Instance flawed_hw : LhdHw flawed := {
  hw_run h b iswrite buf :=
    if b =? fl_bad h then (LHD_MEDIA, buf, h) else
    if iswrite : bool then (Z.lor LHD_OK LHD_ISWRITE, buf, mkFlawed (<[Z.to_nat b := buf]> (fl_sectors h)) (fl_bad h))
    else (LHD_OK, default [] (fl_sectors h !! Z.to_nat b), h);
  hw_sectors := fl_sectors;
}.

#[export] Program Instance flawed_laws : LhdHwLaws := {
  hw_inv h := Forall sector_ok (fl_sectors h);
}.
Next Obligation. done. Qed.
Next Obligation.
  intros h b w buf code buf' h' Hh Hb Hlen Hbuf. cbn in *. destruct (b =? fl_bad h); [|destruct w]; intros [= <- <- <-]; cbn.
  - by split_and!.
  - rewrite length_insert. split_and!; try done.
    + apply Forall_insert; [done|]. split; auto.
    + intros j [|]; [done|]. by rewrite list_lookup_insert_ne.
    + intros _. apply list_lookup_insert_eq. lia.
  - destruct (lookup_lt_is_Some_2 (fl_sectors h) (Z.to_nat b)) as [sec Hsec]; [lia|]. rewrite Hsec. cbn.
    split_and!; try done. by eapply (Forall_lookup_1 sector_ok) in Hsec as [? _].
Qed.

(** [C32] The lhd driver, on hardware that may fail.  A request that is not made
    of whole sectors, or that reaches past the end of the disk, is refused with
    EINVAL and nothing happens, whatever it would transfer to.  Any other
    request on kernel memory moves its sectors one after the other, the [j]th
    one being the sector [offset/512 + j] of the disk: after [k] of them it
    returns, with 0 when these are all, or with EINVAL or EIO when the disk
    refused the next one.  A read has then filled the buffer with exactly these
    [k] sectors and left the disk as it was; a write has put exactly the bytes
    of the buffer into these [k] sectors, and apart from the one that failed all
    other sectors are as they were.  The uio has advanced by what was moved
    (for a write, including the sector that failed), and both semaphores are as
    the driver found them, ready for the next request. *)
Theorem lhd_io_transfers_sectors {H} `{!LhdHw H} {cs : CurSpace} `{!LhdHwLaws} (l : lhd H) :
  lhd_ready hw_inv l →
  (∀ u, 0 ≤ uio_offset u ≤ INT_MAX → 0 ≤ uio_resid u < 4294967296 → lhd_valid l u = false →
     lhd_io l u = Done (EINVAL, u, l)) ∧
  ∀ mem pos len off resid, kuio_ok mem pos len off resid →
    let n := Z.to_nat (resid / 512) in
    (lhd_valid l (kuio UIO_READ mem pos len off resid) = true →
     wp (lhd_io l (kuio UIO_READ mem pos len off resid)) (λ '(r, u, l'), ∃ k,
       lhd_answer r k n ∧ read_turns l mem pos len off resid (Z.of_nat k) u l')) ∧
    (lhd_valid l (kuio UIO_WRITE mem pos len off resid) = true → Forall is_byte mem →
     wp (lhd_io l (kuio UIO_WRITE mem pos len off resid)) (λ '(r, u, l'), ∃ k,
       lhd_answer r k n ∧
       write_turns l mem pos len off resid (Z.of_nat k) (if r =? 0 then Z.of_nat k else Z.of_nat k + 1) u l')).
Proof.
  intros Hok. split; [by intros u Ho Hr Hv; rewrite lhd_io_eq, Hv|].
  intros mem pos len off resid Hu n. pose proof Hok as (_ & _ & _ & _ & _ & Hmax).
  pose proof Hu as (? & ? & ? & ? & ? & ?). split; intros Hv; [|intros Hby].
  - eapply wp_mono; [apply (lhd_io_loop (read_turns l mem pos len off resid) (read_turns l mem pos len off resid)); cbn; try done; try lia|].
    + unfold read_turns, sectors_at. cbn [take concat]. by rewrite buf_write_nil, !Z.mul_0_r, !Z.add_0_r, !Z.sub_0_r.
    + intros i u' l' Hi. by apply lhd_read_turn.
    + intros [[r u] l'] (k & Ha & Hk). exists k. split; [done|]. by destruct (r =? 0).
  - eapply wp_mono; [apply (lhd_io_loop (λ i, write_turns l mem pos len off resid i i) (λ i, write_turns l mem pos len off resid i (i + 1))); cbn; try done; try lia|].
    + unfold write_turns. rewrite !Z.mul_0_r, !Z.add_0_r, !Z.sub_0_r. split_and!; try done. lia.
    + intros i u' l' Hi. by apply lhd_write_turn.
    + intros [[r u] l'] (k & Ha & Hk). exists k. split; [done|]. by destruct (r =? 0).
Qed.

(** Two sectors of a disk whose third sector is bad. *)
Lemma lhd_io_transfers_sectors_witness :
  let cs : CurSpace := None in
  let disk := mkFlawed (replicate 3 (replicate 512 7)) 2 in
  let l := mkLhd (replicate 512 0) 0 1 0 3 0 0 disk in
  let mem := replicate (Z.to_nat 1024) 9 in
  wp (lhd_io l (kuio UIO_READ mem 0 1024 512 1024)) (λ '(r, u, l'), ∃ k,
    lhd_answer r k 2 ∧ read_turns l mem 0 1024 512 1024 (Z.of_nat k) u l').
Proof.
  intros cs disk l mem.
  assert (lhd_ready hw_inv l) as Hok.
  { unfold lhd_ready. cbn [l lh_hw lh_clear lh_done lh_buf lh_blocks hw_inv flawed_laws].
    split_and!; try done. apply Forall_replicate. split; [done|]. apply Forall_replicate. lia. }
  assert (kuio_ok mem 0 1024 512 1024) as Hu by (unfold kuio_ok, INT_MAX, mem; rewrite length_replicate; lia).
  exact (proj1 (proj2 (lhd_io_transfers_sectors l Hok) mem 0 1024 512 1024 Hu) eq_refl).
Defined.
