(* ===== verification/SfsRw.v ===== *)
(** * Reading and writing a file of SFS

    The theorems about [sfs_io] on top of the block mapping of SfsFile: a read
    delivers the content of the file up to its end, a write replaces exactly
    the bytes it has consumed. *)

From S2P Require Import Prelude Array Bitmap Copyinout Uio SfsDisk Dev Lhd Vnode SfsIo SfsFile.

Section rw.
Context {D : Type} `{!BlockDev D} `{!Disk D} {cs : CurSpace}.
Implicit Types (s : fstate D).

(** The maximal size of a file. *)
Definition MAXSIZE : Z := 73216.

(** The bytes [off .. off+n-1] of the file. *)
Definition frange s (off n : Z) : list Z := content s <$> seqZ off n.

(** The bytes [bs] have been written at [off]; the rest of the content and
    everything that is not the file's has been left alone. *)
Definition wrote_range s s' (off : Z) (bs : list Z) : Prop :=
  file_ok s' ∧ same_meta s s' ∧ frame s s' ∧
  ∀ p, 0 ≤ p < MAXSIZE →
    content s' p = if decide (off ≤ p < off + Z.of_nat (length bs))
                   then default 0 (bs !! Z.to_nat (p - off)) else content s p.

(** What moving [n] bytes at [off] between the file and a kernel buffer does
    to the two; it takes place below the maximal size. *)
Definition chunk (rw : uio_rw) s s' (mem mem' : list Z) (pos off n : Z) : Prop :=
  (n = 0 ∨ off + n ≤ MAXSIZE) ∧
  match rw with
  | UIO_READ => eqv s s' ∧ mem' = buf_write mem pos (frange s off n)
  | UIO_WRITE => wrote_range s s' off (slice mem pos n) ∧ mem' = mem
  end.

(** The only ways I/O on a file fails: the file cannot be that large, or the
    disk is full. *)
Definition io_failed (rw : uio_rw) (r off : Z) s' : Prop :=
  (r = EINVAL ∧ MAXSIZE ≤ off) ∨
  (r = ENOSPC ∧ rw = UIO_WRITE ∧ fblock s' (off / 512) = 0 ∧ ∀ c, 0 ≤ c < nblk (f_fs s') → f_used s' c = true).

Definition io_moved (rw : uio_rw) s (mem : list Z) (pos len off resid n : Z) (u' : uio) s' : Prop :=
  ∃ mem', length mem' = length mem ∧ chunk rw s s' mem mem' pos off n ∧
    u' = kuio rw mem' (pos + n) (len - n) (off + n) (resid - n).

Lemma length_frange s off n : 0 ≤ n → Z.of_nat (length (frange s off n)) = n.
Proof. intros. unfold frange. rewrite length_fmap, length_seqZ. lia. Qed.

Lemma frange_lookup s off n k :
  (k < Z.to_nat n)%nat → frange s off n !! k = Some (content s (off + Z.of_nat k)).
Proof.
  intros. unfold frange. rewrite list_lookup_fmap, lookup_seqZ_lt by lia. done.
Qed.

Lemma frange_app s off n m :
  0 ≤ n → 0 ≤ m → frange s off (n + m) = frange s off n ++ frange s (off + n) m.
Proof. intros. unfold frange. by rewrite seqZ_app, fmap_app by lia. Qed.

Lemma eqv_content s s' p : eqv s s' → content s' p = content s p.
Proof.
  intros Heq. destruct (eqv_views _ _ Heq) as (Hdk & _ & Hfb & _).
  unfold content, fblock. by rewrite Hfb, Hdk.
Qed.

Lemma eqv_frange s s' off n : eqv s s' → frange s' off n = frange s off n.
Proof. intros Heq. unfold frange. apply list_fmap_ext. intros. by apply eqv_content. Qed.

Lemma wrote_range_nil s s' off : file_ok s → ext s s' → wrote_range s s' off [].
Proof.
  intros Hok Hext. split_and!.
  - by destruct Hext.
  - by destruct Hext as (_ & ? & _).
  - by apply ext_frame.
  - intros p Hp. simpl. rewrite decide_False by lia. by apply ext_content.
Qed.

Lemma wrote_range_app s1 s2 s3 off bs bs' :
  0 ≤ off → wrote_range s1 s2 off bs → wrote_range s2 s3 (off + Z.of_nat (length bs)) bs' →
  wrote_range s1 s3 off (bs ++ bs').
Proof.
  intros Hoff (_ & Hm1 & Hf1 & Hc1) (Hok3 & Hm2 & Hf2 & Hc2). split_and!.
  - done.
  - by eapply same_meta_trans.
  - eapply frame_trans; [|done..]. by apply same_meta_nblk.
  - intros p Hp. rewrite Hc2, Hc1 by done. rewrite length_app, lookup_app.
    destruct (bs !! Z.to_nat (p - off)) as [x|] eqn:E; simpl.
    + apply lookup_lt_Some in E. repeat case_decide; try lia; done.
    + apply lookup_ge_None_1 in E. repeat case_decide; try lia; try done.
      do 2 f_equal. lia.
Qed.

Lemma chunk_zero rw s s' mem pos off :
  file_ok s → ext s s' → (rw = UIO_READ → eqv s s') → chunk rw s s' mem mem pos off 0.
Proof.
  intros Hok Hext Heq. split; [by left|]. destruct rw; simpl.
  - split; [by apply Heq|]. by rewrite buf_write_nil.
  - split; [|done]. by apply wrote_range_nil.
Qed.

Lemma chunk_app rw s1 s2 s3 mem1 mem2 mem3 pos off n m :
  0 ≤ off → 0 ≤ pos → 0 ≤ n → 0 ≤ m → pos + n + m ≤ Z.of_nat (length mem1) →
  chunk rw s1 s2 mem1 mem2 pos off n → chunk rw s2 s3 mem2 mem3 (pos + n) (off + n) m →
  chunk rw s1 s3 mem1 mem3 pos off (n + m).
Proof.
  intros Hoff Hpos Hn Hm Hl [Hb1 Hc1] [Hb2 Hc2]. split; [lia|]. revert Hc1 Hc2. destruct rw; simpl.
  - intros [He1 ->] [He2 ->]. split; [by eapply eqv_trans|].
    rewrite frange_app by done. rewrite (eqv_frange _ _ _ _ He1).
    rewrite <-(length_frange s1 off n) at 2 by done. rewrite buf_write_app; [done|done|].
    rewrite Nat2Z.inj_add, !length_frange by done. lia.
  - intros [Hw1 ->] [Hw2 ->]. split; [|done]. rewrite slice_app by done.
    eapply wrote_range_app; [done..|].
    by rewrite (length_slice mem1 pos n) by lia.
Qed.

(** The data of block [k], zeros for a hole. *)
Definition blockdata s (k : Z) : list Z :=
  if fblock s k =? 0 then zero_block else sect (f_dsk s) (fblock s k).

Lemma blockdata_ok s k : file_ok s → 0 ≤ k < MAXBLK → sector_ok (blockdata s k).
Proof.
  intros Hok Hk. unfold blockdata. destruct (Z.eqb_spec (fblock s k) 0); [apply zero_block_ok|].
  destruct (fblock_ok s k) as (? & _); [done..|]. destruct Hok as (Hfs & _).
  apply fs_ok_sector; [done|lia].
Qed.

Lemma content_blockdata s p :
  content s p = default 0 (blockdata s (p / 512) !! Z.to_nat (p mod 512)).
Proof.
  unfold content, blockdata. destruct (fblock s (p / 512) =? 0); [|done].
  unfold zero_block. destruct (replicate 512 0 !! Z.to_nat (p mod 512)) eqn:E; [|done].
  by apply lookup_replicate in E as [-> _].
Qed.

Lemma frange_block s off n :
  file_ok s → 0 ≤ off → 0 ≤ n → off / 512 < MAXBLK → off mod 512 + n ≤ 512 →
  frange s off n = slice (blockdata s (off / 512)) (off mod 512) n.
Proof.
  intros Hok Hoff Hn Hk Hb. destruct (blockdata_ok s (off / 512) Hok) as [Hl _]; [dlia|].
  apply list_eq. intros k. destruct (decide (k < Z.to_nat n)%nat).
  - rewrite frange_lookup, slice_lookup by dlia. rewrite content_blockdata.
    assert ((off + Z.of_nat k) / 512 = off / 512) as -> by dlia.
    assert ((off + Z.of_nat k) mod 512 = off mod 512 + Z.of_nat k) as -> by dlia.
    destruct (lookup_lt_is_Some_2 (blockdata s (off / 512)) (Z.to_nat (off mod 512 + Z.of_nat k)))
      as [x Hx]; [rewrite Hl; dlia|]. rewrite Hx. simpl. rewrite <-Hx. f_equal. dlia.
  - rewrite !lookup_ge_None_2; [done|..].
    + pose proof (length_slice (blockdata s (off / 512)) (off mod 512) n). dlia.
    + pose proof (length_frange s off n). lia.
Qed.

Lemma buf_write_lookup b pos bs i :
  0 ≤ pos → pos + Z.of_nat (length bs) ≤ Z.of_nat (length b) → 0 ≤ i →
  buf_write b pos bs !! Z.to_nat i =
    if decide (pos ≤ i < pos + Z.of_nat (length bs)) then bs !! Z.to_nat (i - pos)
    else b !! Z.to_nat i.
Proof.
  intros Hp Hl Hi. unfold buf_write. rewrite lookup_app, length_take, Nat.min_l by lia.
  case_decide.
  - rewrite lookup_take_ge by lia. rewrite lookup_app_l by lia. f_equal. lia.
  - destruct (decide (i < pos)).
    + rewrite lookup_take_lt by lia.
      destruct (lookup_lt_is_Some_2 b (Z.to_nat i)) as [x Hx]; [lia|]. by rewrite Hx.
    + rewrite lookup_take_ge by lia. rewrite lookup_app_r, lookup_drop by lia. f_equal. lia.
Qed.

(** Rewriting part of a block of the file. *)
Lemma wrote_block_range s s' off bs :
  file_ok s → 0 ≤ off → off / 512 < MAXBLK → fblock s (off / 512) ≠ 0 →
  off mod 512 + Z.of_nat (length bs) ≤ 512 →
  wrote s s' (off / 512) (buf_write (blockdata s (off / 512)) (off mod 512) bs) →
  wrote_range s s' off bs.
Proof.
  intros Hok Hoff Hk Hne Hb Hw.
  assert (0 ≤ off / 512 < MAXBLK) as Hk' by dlia.
  destruct (wrote_ok s s' _ _ Hok Hk' Hne Hw) as (Hok' & Hm & Hf).
  destruct (blockdata_ok s (off / 512) Hok Hk') as [Hl _].
  split_and!; try done. intros p Hp. unfold MAXSIZE in *.
  rewrite (wrote_content s s' _ _ _ Hok Hk' Hne Hw Hp).
  destruct (Z.eqb_spec (p / 512) (off / 512)) as [Heq|Hneq].
  - rewrite buf_write_lookup by dlia. rewrite content_blockdata, Heq.
    repeat case_decide; try dlia; try done; do 2 f_equal; dlia.
  - rewrite decide_False; [done|]. intros ?. apply Hneq. dlia.
Qed.
Lemma Forall_slice (P : Z → Prop) l i n : Forall P l → Forall P (slice l i n).
Proof. intros. unfold slice. by apply Forall_take, Forall_drop. Qed.

Lemma Forall_buf_write (P : Z → Prop) b pos bs :
  Forall P b → Forall P bs → Forall P (buf_write b pos bs).
Proof.
  intros Hb Hbs. unfold buf_write. apply Forall_app_2; [by apply Forall_take|].
  apply Forall_app_2; [done|by apply Forall_drop].
Qed.

Lemma io_moved_zero rw s mem pos len off resid s' :
  file_ok s → ext s s' → (rw = UIO_READ → eqv s s') →
  io_moved rw s mem pos len off resid 0 (kuio rw mem pos len off resid) s'.
Proof.
  intros. exists mem. rewrite !Z.add_0_r, !Z.sub_0_r. split_and!; [done| |done].
  by apply chunk_zero.
Qed.

(** The two ways of finding the data of a mapped block. *)
Lemma load_block_wp s k rw :
  file_ok s → 0 ≤ k < MAXBLK → (rw = UIO_WRITE → fblock s k ≠ 0) →
  swp (if fblock s k =? 0 then
         lift (kassert (bool_decide (rw = UIO_READ)));; mret (0, zero_block)
       else on_fs (sfs_rblock zero_block (fblock s k))) s
    (λ '(r, data) s', r = 0 ∧ data = blockdata s k ∧ eqv s s').
Proof.
  intros Hok Hk Hrw. unfold blockdata. destruct (Z.eqb_spec (fblock s k) 0) as [H0|Hne].
  - apply swp_bind. destruct rw; [|by destruct (Hrw eq_refl)]. apply swp_kassert; [done|].
    apply swp_ret. split_and!; [done..|]. by apply eqv_refl.
  - destruct (fblock_ok s k) as (? & _); [done..|]. apply swp_on_fs.
    eapply swp_mono; [apply sfs_rblock_wp; [by destruct Hok|lia|by apply zero_block_ok]|].
    intros [r data] fs' (-> & -> & Hupd). done.
Qed.

Lemma eqv_blockdata s s' k : eqv s s' → blockdata s' k = blockdata s k ∧ fblock s' k = fblock s k.
Proof.
  intros Heq. destruct (eqv_views _ _ Heq) as (Hdk & _ & Hfb & _).
  unfold blockdata, fblock. by rewrite Hfb, Hdk.
Qed.

Lemma store_block_wp s k data :
  file_ok s → 0 ≤ k < MAXBLK → fblock s k ≠ 0 → sector_ok data →
  swp (on_fs (sfs_wblock data (fblock s k))) s (λ r s', r = 0 ∧ wrote s s' k data).
Proof.
  intros Hok Hk Hne Hd. destruct (fblock_ok s k) as (? & _); [done..|]. apply swp_on_fs.
  eapply swp_mono; [apply sfs_wblock_wp; [by destruct Hok|lia|done]|].
  by intros r fs' [-> Hupd].
Qed.

Lemma bmap_index off : 0 ≤ off ≤ INT_MAX → u32 (Z.quot off 512) = off / 512.
Proof.
  unfold INT_MAX. intros. rewrite Z.quot_div_nonneg by lia. apply u32_small. dlia.
Qed.

Lemma bmap_failed rw s off s' r b :
  bmap_post s (off / 512) (bool_decide (rw = UIO_WRITE)) r b s' → r ≠ 0 → 0 ≤ off →
  io_failed rw r off s'.
Proof.
  unfold MAXSIZE, io_failed, MAXSIZE. intros (_ & _ & Hr) Hr0 Hoff.
  destruct Hr as [(-> & _)|[(-> & Hk)|(-> & _ & Hw & Hhole & Hfull)]]; [done| |].
  - left. split; [done|]. unfold MAXBLK in Hk. dlia.
  - right. apply bool_decide_eq_true in Hw. done.
Qed.

Lemma sfs_partialio_wp rw s mem pos len off resid n :
  file_ok s → kuio_ok mem pos len off resid → Forall is_byte mem → 0 ≤ n ≤ resid →
  off mod 512 + n ≤ 512 →
  swp (sfs_partialio (kuio rw mem pos len off resid) (off mod 512) n) s (λ '(r, u') s',
    (r = 0 ∧ io_moved rw s mem pos len off resid n u' s') ∨
    (io_failed rw r off s' ∧ io_moved rw s mem pos len off resid 0 u' s')).
Proof.
  intros Hok Hu Hby Hn Hb. pose proof Hu as (Hp & Hm & Hr & Hl & Ho & Hmax).
  pose proof (Z.mod_pos_bound off 512 ltac:(lia)) as Hsk.
  unfold sfs_partialio, SFS_BLOCKSIZE. cbn [uio_rw_of kuio uio_offset]. cbv zeta.
  rewrite (u32_small (off mod 512 + n)) by lia. apply swp_bind, swp_kassert; [lia|].
  rewrite bmap_index by lia. apply swp_bind.
  eapply swp_mono; [apply sfs_bmap_wp; [done|dlia]|]. intros [r b] s1 Hbm.
  pose proof Hbm as (Hext1 & Heq1 & Hcase).
  assert (rw = UIO_READ → eqv s s1) as Heq1' by (by intros ->; apply Heq1).
  destruct (Z.eqb_spec r 0) as [->|Hr0]; cbn [negb].
  2: { apply swp_ret. right. split; [by eapply bmap_failed|by apply io_moved_zero]. }
  destruct Hcase as [(_ & Hk & -> & Hne)|[(? & _)|(? & _)]]; [|done..].
  assert (0 ≤ off / 512 < MAXBLK) as Hk' by dlia. assert (file_ok s1) as Hok1 by by destruct Hext1.
  apply swp_bind. eapply swp_mono; [apply (load_block_wp s1 (off / 512) rw); [done..|]|].
  { intros ->. by apply Hne. }
  intros [r data] s2 (-> & -> & Heq2). cbn [negb Z.eqb].
  assert (n = 0 ∨ off + n ≤ MAXSIZE) as Hbnd by (unfold MAXSIZE, MAXBLK in *; dlia).
  destruct (blockdata_ok s1 (off / 512) Hok1 Hk') as [Hbl Hbb].
  destruct (eqv_blockdata s1 s2 (off / 512) Heq2) as [Hbd Hfb].
  assert (file_ok s2) as Hok2 by by eapply eqv_ok.
  apply swp_bind, swp_lift. rewrite uiomove_kuio by (done || lia).
  destruct rw; cbn -[slice blockdata buf_write kuio].
  - apply swp_ret. left. split; [done|]. eexists. split_and!; [|split; [done|split; [|done]]|].
    + apply length_buf_write. pose proof (length_frange s off n ltac:(lia)). lia.
    + eapply eqv_trans; [by apply Heq1'|done].
    + rewrite <-frange_block by (done || lia). by rewrite (eqv_frange s s1) by by apply Heq1'.
  - assert (Z.of_nat (length (slice mem pos n)) = n) by (apply length_slice; lia).
    rewrite <-Hfb. apply swp_bind. eapply swp_mono; [apply store_block_wp; [done..| |]|].
    + rewrite Hfb. by apply Hne.
    + split.
      * rewrite length_buf_write by lia. done.
      * by apply Forall_buf_write, Forall_slice.
    + intros r s3 [-> Hw]. apply swp_ret. left. split; [done|]. exists mem.
      split_and!; [done| |done]. split; [done|split; [|done]].
      apply (wrote_range_app s s2 s3 off [] (slice mem pos n)); [done| |].
      { apply wrote_range_nil; [done|]. eapply ext_trans; [done..|]. by apply eqv_ext. }
      rewrite Z.add_0_r. apply wrote_block_range; try done; try lia; [rewrite Hfb; by apply Hne|].
      by rewrite Hbd.
Qed.
(** The disk transfer of [sfs_blockio], directly between a block and the
    uio. *)
Lemma rwblock_kuio_wp rw s k mem pos len :
  file_ok s → 0 ≤ k < MAXBLK → fblock s k ≠ 0 →
  kuio_ok mem pos len (fblock s k * 512) 512 → Forall is_byte mem →
  swp (on_fs (sfs_rwblock (kuio rw mem pos len (fblock s k * 512) 512))) s (λ '(r, u') s',
    r = 0 ∧ ∃ mem', u' = kuio rw mem' (pos + 512) (len - 512) (fblock s k * 512 + 512) 0 ∧
    match rw with
    | UIO_READ => eqv s s' ∧ mem' = buf_write mem pos (blockdata s k)
    | UIO_WRITE => wrote s s' k (slice mem pos 512) ∧ mem' = mem
    end).
Proof.
  intros Hok Hk Hne Hu Hby. destruct (fblock_ok s k) as (Hb & _); [done..|].
  pose proof Hok as (Hfs & _). pose proof Hfs as (Hd & _ & Hn & _).
  destruct (fs_ok_sector (f_fs s) (fblock s k)) as [Hsec _]; [done|lia|].
  apply swp_on_fs, sfs_rwblock_wp. destruct rw.
  - eapply wp_mono; [apply (d_read _ _ (sect (f_dsk s) (fblock s k))); [done|lia|done|done]|].
    intros [[r u'] d'] (-> & -> & Hd' & Hdata & Hblk). split; [done|]. split; [done|].
    eexists. split; [done|]. split; [done|]. unfold blockdata.
    by rewrite (proj2 (Z.eqb_neq _ _)) by done.
  - eapply wp_mono; [apply d_write; [done|lia|by apply Forall_slice|done]|].
    intros [[r u'] d'] (-> & -> & Hd' & Hdata & Hblk). split; [done|]. split; [done|].
    by exists mem.
Qed.

Lemma blockio_pos off b resid :
  0 ≤ off → off + resid ≤ INT_MAX → 512 ≤ resid → 0 ≤ b < 4194303 →
  to_int (b * 512 + 512 - b * 512) = Done 512 ∧ to_int (512 + off) = Done (off + 512) ∧
  s32 (b * 512) = b * 512 ∧ u32 (0 - 512 + s32 resid) = resid - 512.
Proof.
  unfold INT_MAX. intros. split_and!.
  - apply wp_eq, wp_to_int; unfold INT_MIN, INT_MAX; lia.
  - apply wp_eq, wp_to_int; unfold INT_MIN, INT_MAX; lia.
  - apply s32_small. unfold INT_MIN, INT_MAX. lia.
  - rewrite s32_small by (unfold INT_MIN, INT_MAX; lia). rewrite u32_small; lia.
Qed.

Lemma sfs_blockio_wp rw s mem pos len off resid :
  file_ok s → kuio_ok mem pos len off resid → Forall is_byte mem → 512 ≤ resid →
  off mod 512 = 0 →
  swp (sfs_blockio (kuio rw mem pos len off resid)) s (λ '(r, u') s',
    (r = 0 ∧ io_moved rw s mem pos len off resid 512 u' s') ∨
    (io_failed rw r off s' ∧ io_moved rw s mem pos len off resid 0 u' s')).
Proof.
  intros Hok Hu Hby Hn Hal. pose proof Hu as (Hp & Hm & Hr & Hl & Ho & Hmax).
  unfold sfs_blockio, SFS_BLOCKSIZE. cbn [uio_rw_of kuio uio_offset uio_resid]. cbv zeta.
  rewrite bmap_index by lia. apply swp_bind.
  eapply swp_mono; [apply sfs_bmap_wp; [done|dlia]|]. intros [r b] s1 Hbm.
  pose proof Hbm as (Hext1 & Heq1 & Hcase).
  assert (rw = UIO_READ → eqv s s1) as Heq1' by (by intros ->; apply Heq1).
  destruct (Z.eqb_spec r 0) as [->|Hr0]; cbn [negb].
  2: { apply swp_ret. right. split; [by eapply bmap_failed|by apply io_moved_zero]. }
  destruct Hcase as [(_ & Hk & -> & Hne)|[(? & _)|(? & _)]]; [|done..].
  assert (0 ≤ off / 512 < MAXBLK) as Hk' by dlia. assert (file_ok s1) as Hok1 by by destruct Hext1.
  destruct (blockdata_ok s1 (off / 512) Hok1 Hk') as [Hbl Hbb].
  assert (512 = 0 ∨ off + 512 ≤ MAXSIZE) as Hbnd by (unfold MAXSIZE, MAXBLK in *; dlia).
  assert (rw = UIO_READ → blockdata s1 (off / 512) = frange s off 512) as Hfr.
  { intros Hrd. rewrite <-(eqv_frange s s1) by by apply Heq1'. rewrite frange_block by (done || lia).
    by rewrite Hal, slice_full by lia. }
  destruct (Z.eqb_spec (fblock s1 (off / 512)) 0) as [H0|Hne1].
  { destruct rw; [|by destruct Hne]. apply swp_bind, swp_kassert; [done|]. apply swp_lift.
    rewrite (uiomovezeros_kuio 512 mem pos len off resid) by (done || lia). left.
    split; [done|]. eexists. split_and!; [|split; [done|split; [by apply Heq1'|done]]|].
    - apply length_buf_write. pose proof (length_frange s off 512 ltac:(lia)). lia.
    - rewrite <-Hfr by done. unfold blockdata. by rewrite H0. }
  destruct (fblock_ok s1 (off / 512)) as (Hb & _); [done..|].
  assert (nblk (f_fs s1) ≤ 4194303) by (destruct Hok1 as (? & _); by apply fs_ok_bound).
  destruct (blockio_pos off (fblock s1 (off / 512)) resid) as (E1 & E2 & E3 & E4); try lia.
  rewrite E3. apply swp_bind, swp_kassert; [lia|]. apply swp_bind.
  eapply swp_mono; [apply (rwblock_kuio_wp rw s1 (off / 512) mem pos len); try done|].
  { unfold kuio_ok, INT_MAX in *. lia. }
  intros [r u'] s2 (-> & mem' & -> & Hmv). cbn [uio_offset uio_resid kuio].
  apply swp_bind, swp_lift. rewrite E1. apply swp_bind, swp_lift. rewrite E2. apply swp_ret.
  rewrite E4. left. split; [done|]. exists mem'. split_and!; [| |done]; destruct rw.
  - destruct Hmv as [_ ->]. apply length_buf_write. lia.
  - by destruct Hmv as [_ ->].
  - destruct Hmv as [Heq2 ->]. split; [done|]. split; [by eapply eqv_trans; [apply Heq1'|]|].
    by rewrite Hfr.
  - destruct Hmv as [Hw ->]. split; [done|split; [|done]].
    assert (Z.of_nat (length (slice mem pos 512)) = 512) as Hls by (apply length_slice; lia).
    apply (wrote_range_app s s1 s2 off [] (slice mem pos 512)); [done|by apply wrote_range_nil|].
    rewrite Z.add_0_r. apply wrote_block_range; try done; try lia.
    rewrite Hal, buf_write_full by lia. done.
Qed.
Lemma content_byte s p : file_ok s → is_byte (content s p).
Proof.
  intros Hok. rewrite content_blockdata.
  destruct (blockdata s (p / 512) !! Z.to_nat (p mod 512)) as [x|] eqn:E; simpl; [|lia].
  unfold blockdata in E. destruct (Z.eqb_spec (fblock s (p / 512)) 0) as [|Hne].
  { unfold zero_block in E. apply lookup_replicate in E as [-> _]. lia. }
  assert (sector_ok (sect (f_dsk s) (fblock s (p / 512)))) as [_ Hb].
  { unfold fblock in *. destruct (fblocks s !! Z.to_nat (p / 512)) as [b|] eqn:Eb; [|done].
    simpl in *. destruct Hok as (Hfs & _ & _ & [Hu _]).
    destruct (Hu (S (S (Z.to_nat (p / 512)))) b) as [? _]; [done..|].
    apply fs_ok_sector; [done|lia]. }
  by eapply (Forall_lookup_1 _ _ _ _ Hb).
Qed.

Lemma chunk_ok rw s s' mem mem' pos off n :
  file_ok s → Forall is_byte mem → chunk rw s s' mem mem' pos off n →
  file_ok s' ∧ Forall is_byte mem'.
Proof.
  intros Hok Hby [_ Hc]. revert Hc. destruct rw; simpl.
  - intros [Heq ->]. split; [by eapply eqv_ok|]. apply Forall_buf_write; [done|].
    unfold frange. apply Forall_fmap, Forall_forall. intros p _. by apply content_byte.
  - intros [(? & _) ->]. done.
Qed.

Lemma io_moved_app rw s1 s2 s3 mem mem' pos len off resid n m u' :
  kuio_ok mem pos len off resid → 0 ≤ n → 0 ≤ m → n + m ≤ resid →
  length mem' = length mem → chunk rw s1 s2 mem mem' pos off n →
  io_moved rw s2 mem' (pos + n) (len - n) (off + n) (resid - n) m u' s3 →
  io_moved rw s1 mem pos len off resid (n + m) u' s3.
Proof.
  intros (Hp & Hm & Hr & Hl & Ho & Hmax) Hn Hm' Hnm Hlen Hc (mem2 & Hlen2 & Hc2 & ->).
  exists mem2. split_and!; [congruence| |].
  - eapply chunk_app; try done. lia.
  - f_equal; lia.
Qed.

Lemma io_failed_nz rw r off s : io_failed rw r off s → (r =? 0) = false.
Proof. intros [(-> & _)|(-> & _)]; done. Qed.

(** The outcome of a whole transfer: all of it, or what was possible, up to a
    block boundary. *)
Definition transfer_post (rw : uio_rw) s (mem : list Z) (pos len off resid : Z) (r : Z)
    (u' : uio) s' : Prop :=
  ∃ n, 0 ≤ n ≤ resid ∧ io_moved rw s mem pos len off resid n u' s' ∧
    ((r = 0 ∧ n = resid) ∨
     (n < resid ∧ (n = 0 ∨ (off + n) mod 512 = 0) ∧ io_failed rw r (off + n) s')).

Lemma transfer_post_app rw s1 s2 s3 mem mem' pos len off resid n r u' :
  kuio_ok mem pos len off resid → 0 ≤ n ≤ resid → length mem' = length mem →
  (n < resid → (off + n) mod 512 = 0) → chunk rw s1 s2 mem mem' pos off n →
  transfer_post rw s2 mem' (pos + n) (len - n) (off + n) (resid - n) r u' s3 →
  transfer_post rw s1 mem pos len off resid r u' s3.
Proof.
  intros Hu Hn Hlen Hal Hc (m & Hm & Hmv & Hres). exists (n + m). split_and!; [lia..| |].
  - eapply io_moved_app; try done; lia.
  - rewrite Z.add_assoc. destruct Hres as [[-> ->]|(Hlt & Hm0 & Hf)]; [left; split; [done|lia]|right].
    split_and!; [lia| |done]. destruct Hm0 as [->|]; [|by right].
    right. rewrite Z.add_0_r. apply Hal. lia.
Qed.

(** A single step is all that is left. *)
Lemma transfer_post_last rw s mem pos len off resid r u' s' :
  0 < resid →
  (r = 0 ∧ io_moved rw s mem pos len off resid resid u' s') ∨
  (io_failed rw r off s' ∧ io_moved rw s mem pos len off resid 0 u' s') →
  transfer_post rw s mem pos len off resid r u' s'.
Proof.
  intros Hr [[-> Hmv]|[Hf Hmv]].
  - exists resid. split_and!; [lia..|done|by left].
  - exists 0. split_and!; [lia..|done|right]. split_and!; [done|by left|]. by rewrite Z.add_0_r.
Qed.

(** The loop over whole blocks. *)
Lemma blocks_loop_wp rw s mem pos len off resid :
  file_ok s → kuio_ok mem pos len off resid → Forall is_byte mem → off mod 512 = 0 →
  wp (for_loop (Z.to_nat (resid / 512)) 0
        (λ _ '(u, s), '((result, u'), s') ← sfs_blockio u s;
           Done (if negb (result =? 0) then inr (result, u', s') else inl (u', s')))
        (kuio rw mem pos len off resid, s))
     (loop_post (λ '(u', s'), io_moved rw s mem pos len off resid (resid / 512 * 512) u' s')
        (λ '(r, u', s'), ∃ n, 0 ≤ n < resid ∧ n mod 512 = 0 ∧
           io_moved rw s mem pos len off resid n u' s' ∧ io_failed rw r (off + n) s')).
Proof.
  intros Hok Hu Hby Hal. pose proof Hu as (Hp & Hm & Hr & Hl & Ho & Hmax).
  eapply wp_mono; [apply (wp_for_loop
    (λ j '(u', s'), io_moved rw s mem pos len off resid (j * 512) u' s')
    (λ '(r, u', s'), ∃ n, 0 ≤ n < resid ∧ n mod 512 = 0 ∧
           io_moved rw s mem pos len off resid n u' s' ∧ io_failed rw r (off + n) s'))|].
  - apply io_moved_zero; [done|by apply ext_refl|]. intros _. by apply eqv_refl.
  - intros j [u1 s1] Hj (mem1 & Hlen1 & Hc1 & ->).
    assert (j * 512 + 512 ≤ resid) as Hj' by dlia.
    destruct (chunk_ok _ _ _ _ _ _ _ _ Hok Hby Hc1) as [Hok1 Hby1].
    apply wp_bind. eapply wp_mono; [apply (sfs_blockio_wp rw s1)|]; try done.
    + apply (kuio_ok_advance mem); done || lia.
    + lia.
    + dlia.
    + intros [[r u2] s2] [[-> Hmv]|[Hf Hmv]]; simpl.
      * replace ((j + 1) * 512) with (j * 512 + 512) by lia.
        by apply (io_moved_app rw s s1 s2 mem mem1); [..|lia| |lia|done|done|].
      * rewrite (io_failed_nz _ _ _ _ Hf). simpl. exists (j * 512).
        split_and!; [lia..|dlia| |done]. replace (j * 512) with (j * 512 + 0) at 1 by lia.
        by apply (io_moved_app rw s s1 s2 mem mem1); [..|lia| |lia|done|done|].
  - intros [[u1 s1]|[[r u1] s1]]; simpl; [|done].
    by replace (Z.of_nat (Z.to_nat (resid / 512))) with (resid / 512) by dlia.
Qed.
Lemma sfs_io_aligned_wp rw s mem pos len off resid :
  file_ok s → kuio_ok mem pos len off resid → Forall is_byte mem →
  (resid ≠ 0 → off mod 512 = 0) →
  swp (sfs_io_aligned (kuio rw mem pos len off resid)) s (λ '(r, u') s',
    transfer_post rw s mem pos len off resid r u' s').
Proof.
  intros Hok Hu Hby Hal. pose proof Hu as (Hp & Hm & Hr & Hl & Ho & Hmax).
  unfold sfs_io_aligned, SFS_BLOCKSIZE. cbn [uio_resid uio_offset kuio].
  destruct (Z.eqb_spec resid 0) as [->|Hr0].
  { apply swp_ret. exists 0. split_and!; [lia..| |by left].
    apply io_moved_zero; [done|by apply ext_refl|]. intros _. by apply eqv_refl. }
  specialize (Hal Hr0). rewrite Z.rem_mod_nonneg by lia. rewrite Hal.
  apply swp_bind, swp_kassert; [done|]. cbv zeta. apply swp_bind. unfold swp at 1.
  apply wp_bind. eapply wp_mono; [by apply blocks_loop_wp|].
  intros [[u1 s1]|[[r u1] s1]]; simpl.
  2: { intros (n & Hn & Hn0 & Hmv & Hf). rewrite (io_failed_nz _ _ _ _ Hf). apply swp_ret.
       exists n. split_and!; [lia..|done|right]. split_and!; [lia|right; dlia|done]. }
  intros (mem1 & Hlen1 & Hc1 & ->). cbn [uio_resid kuio].
  destruct (chunk_ok _ _ _ _ _ _ _ _ Hok Hby Hc1) as [Hok1 Hby1].
  assert (0 ≤ resid / 512 * 512 ≤ resid) as Hle by dlia.
  apply swp_bind, swp_kassert; [dlia|].
  destruct (Z.gtb_spec (resid - resid / 512 * 512) 0).
  - assert (off + resid / 512 * 512 = off + (resid / 512) * 512) as _ by done.
    assert ((off + resid / 512 * 512) mod 512 = 0) as Hz by dlia.
    rewrite <-Hz at 1. eapply swp_mono.
    { apply sfs_partialio_wp; try done; [|lia|rewrite Hz; dlia].
      apply (kuio_ok_advance mem); done || lia. }
    intros [r u2] s2 Hres. apply (transfer_post_app rw s s1 s2 mem mem1 _ _ _ _ (resid / 512 * 512));
      try done. apply transfer_post_last; [lia|done].
  - apply swp_ret. exists resid. assert (resid / 512 * 512 = resid) as Heq by lia.
    rewrite Heq in *. split_and!; [lia..| |by left]. exists mem1. done.
Qed.

Lemma sfs_io_transfer_wp rw s mem pos len off resid :
  file_ok s → kuio_ok mem pos len off resid → Forall is_byte mem → 0 < resid →
  swp (sfs_io_transfer (kuio rw mem pos len off resid)) s (λ '(r, u') s',
    transfer_post rw s mem pos len off resid r u' s').
Proof.
  intros Hok Hu Hby Hpos. pose proof Hu as (Hp & Hm & Hr & Hl & Ho & Hmax).
  pose proof (Z.mod_pos_bound off 512 ltac:(lia)) as Hmod.
  unfold sfs_io_transfer, SFS_BLOCKSIZE. cbn [uio_offset uio_resid kuio]. cbv zeta.
  rewrite Z.rem_mod_nonneg by lia. rewrite (u32_small (off mod 512)) by lia.
  rewrite (u32_small (512 - off mod 512)) by lia.
  destruct (Z.eqb_spec (off mod 512) 0) as [Hz|Hnz]; cbn [negb].
  { apply swp_bind, swp_ret. cbn. by apply sfs_io_aligned_wp. }
  set (n := if 512 - off mod 512 >? resid then resid else 512 - off mod 512).
  assert (0 ≤ n ≤ resid ∧ off mod 512 + n ≤ 512 ∧ (n = resid ∨ (off + n) mod 512 = 0)) as (Hn & Hb & Hend).
  { unfold n. destruct (Z.gtb_spec (512 - off mod 512) resid); split_and!; try lia.
    right. dlia. }
  apply swp_bind. eapply swp_mono; [by apply sfs_partialio_wp|].
  intros [r u1] s1 [[-> (mem1 & Hlen1 & Hc1 & ->)]|[Hf Hmv]]; cbn [negb Z.eqb].
  - destruct (chunk_ok _ _ _ _ _ _ _ _ Hok Hby Hc1) as [Hok1 Hby1].
    eapply swp_mono; [apply sfs_io_aligned_wp; try done|].
    + apply (kuio_ok_advance mem); done || lia.
    + intros ?. destruct Hend; [lia|done].
    + intros [r u2] s2 Hres. apply (transfer_post_app rw s s1 s2 mem mem1 _ _ _ _ n); try done.
      intros ?. destruct Hend; [lia|done].
  - rewrite (io_failed_nz _ _ _ _ Hf). cbn [negb]. apply swp_ret. exists 0.
    split_and!; [lia..|done|right]. split_and!; [done|by left|]. by rewrite Z.add_0_r.
Qed.
Lemma set_uio_pos_kuio rw mem pos len off resid off' resid' :
  set_uio_pos (kuio rw mem pos len off resid) off' resid' = kuio rw mem pos len off' resid'.
Proof. done. Qed.

(** How many bytes of a request lie within the file; whether the blocks that
    hold them exist; and how many a read delivers. *)
Definition read_len s (off resid : Z) : Z := Z.max 0 (Z.min resid (sfi_size (f_inode s) - off)).
Definition read_fits s (off resid : Z) : bool :=
  (read_len s off resid =? 0) || (off + read_len s off resid <=? MAXSIZE).
Definition read_done s (off resid : Z) : Z :=
  if read_fits s off resid then read_len s off resid else Z.max 0 (MAXSIZE - off).

(** What a transfer says about a read that stops early. *)
Lemma read_transfer s mem pos len off resid r u' s' :
  transfer_post UIO_READ s mem pos len off resid r u' s' → 0 < resid →
  r = (if off + resid <=? MAXSIZE then 0 else EINVAL) ∧ eqv s s' ∧
  let m := if off + resid <=? MAXSIZE then resid else Z.max 0 (MAXSIZE - off) in
  u' = kuio UIO_READ (buf_write mem pos (frange s off m)) (pos + m) (len - m) (off + m) (resid - m).
Proof.
  intros (m & Hm & (mem' & _ & [Hbnd [Heq ->]] & ->) & Hres) Hpos.
  destruct Hres as [[-> ->]|(Hlt & _ & [[-> Hbig]|(_ & ? & _)])]; [| |done].
  - rewrite (proj2 (Z.leb_le _ _)) by lia. done.
  - rewrite (proj2 (Z.leb_gt _ _)) by lia. split_and!; [done|done|].
    by assert (Z.max 0 (MAXSIZE - off) = m) as -> by lia.
Qed.

(** Reading: the bytes up to the end of the file, in the order of the file, as
    far as the file has blocks for them; neither the file nor anything else
    changes. *)
Lemma sfs_io_read_any_wp s mem pos len off resid :
  file_ok s → sfi_size (f_inode s) ≤ INT_MAX →
  kuio_ok mem pos len off resid → Forall is_byte mem → 0 < resid →
  swp (sfs_io (kuio UIO_READ mem pos len off resid)) s (λ '(r, u') s',
    let n := read_done s off resid in
    r = (if read_fits s off resid then 0 else EINVAL) ∧ eqv s s' ∧
    u' = kuio UIO_READ (buf_write mem pos (frange s off n)) (pos + n) (len - n) (off + n)
           (resid - n)).
Proof.
  intros Hok Hsz Hu Hby Hpos. pose proof Hu as (Hp & Hm & Hr & Hl & Ho & Hmax).
  unfold INT_MAX in *.
  assert (0 ≤ sfi_size (f_inode s)) as Hsz0 by (destruct Hok as (_ & (? & _) & _); lia).
  unfold sfs_io. apply swp_bind, swp_gets. fold (f_inode s).
  cbn [uio_offset uio_resid uio_rw_of kuio]. cbv zeta. rewrite bool_decide_true by done.
  rewrite (s32_small (sfi_size (f_inode s))) by (unfold INT_MIN, INT_MAX; lia).
  rewrite (s32_small (off + resid)) by (unfold INT_MIN, INT_MAX; lia). cbn [andb].
  unfold read_done, read_fits, read_len. set (size := sfi_size (f_inode s)) in *.
  destruct (Z.geb_spec off size).
  { apply swp_ret. rewrite (Z.max_l 0 (Z.min _ _)) by lia. cbn [Z.eqb orb].
    split_and!; [done|by apply eqv_refl|]. rewrite !Z.add_0_r, !Z.sub_0_r. by rewrite buf_write_nil. }
  set (n := Z.min resid (size - off)).
  rewrite (Z.max_r 0 n) by lia. rewrite (proj2 (Z.eqb_neq n 0)) by lia. cbn [orb].
  apply swp_bind. eapply (swp_mono _ _ (λ extra s', extra = resid - n ∧ s' = s)).
  { destruct (Z.gtb_spec (off + resid) size); [|apply swp_ret; split; [lia|done]].
    apply swp_bind, swp_lift. apply wp_to_int; [unfold INT_MIN, INT_MAX; lia|].
    rewrite u32_small by lia. apply swp_bind, swp_kassert; [lia|]. apply swp_ret.
    split; [lia|done]. }
  intros extra s' [-> ->]. rewrite u32_small by lia. rewrite set_uio_pos_kuio. apply swp_bind.
  eapply swp_mono; [apply sfs_io_transfer_wp; try done; [|lia]|].
  { unfold kuio_ok, INT_MAX. lia. }
  intros [r u'] s' Hres. replace (resid - (resid - n)) with n in Hres by lia.
  apply read_transfer in Hres as (-> & Heq & ->); [|lia].
  apply swp_bind, swp_gets. cbn [uio_rw_of kuio uio_offset uio_resid].
  rewrite (bool_decide_false (UIO_READ = UIO_WRITE)) by done. cbn [andb].
  apply swp_bind, swp_ret, swp_ret. rewrite set_uio_pos_kuio.
  split_and!; [done..|]. f_equal. destruct (Z.leb_spec (off + n) MAXSIZE); rewrite u32_small; lia.
Qed.

Lemma sfs_io_read_wp s mem pos len off resid :
  file_ok s → sfi_size (f_inode s) ≤ MAXSIZE →
  kuio_ok mem pos len off resid → Forall is_byte mem → 0 < resid →
  swp (sfs_io (kuio UIO_READ mem pos len off resid)) s (λ '(r, u') s',
    let n := Z.max 0 (Z.min resid (sfi_size (f_inode s) - off)) in
    r = 0 ∧ eqv s s' ∧
    u' = kuio UIO_READ (buf_write mem pos (frange s off n)) (pos + n) (len - n) (off + n)
           (resid - n)).
Proof.
  intros Hok Hsz Hu Hby Hpos. unfold MAXSIZE in Hsz.
  eapply swp_mono; [apply sfs_io_read_any_wp; try done; unfold INT_MAX; lia|].
  intros [r u'] s'. assert (read_fits s off resid = true) as Hf.
  { unfold read_fits, read_len, MAXSIZE. destruct (Z.eqb_spec (Z.max 0 (Z.min resid (sfi_size (f_inode s) - off))) 0); [done|].
    cbn [orb]. apply Z.leb_le. lia. }
  unfold read_done. by rewrite Hf.
Qed.

(** Writing: the bytes that were consumed have been put into the file at the
    offset, the file is at least that long, and nothing else has changed. *)
Definition write_post s (mem : list Z) (pos len off resid : Z) (r : Z) (u' : uio) s' : Prop :=
  ∃ n, 0 ≤ n ≤ resid ∧ u' = kuio UIO_WRITE mem (pos + n) (len - n) (off + n) (resid - n) ∧
    file_ok s' ∧ frame s s' ∧ same_file s s' ∧
    sfi_size (f_inode s') = Z.max (sfi_size (f_inode s)) (off + n) ∧
    (∀ p, 0 ≤ p < MAXSIZE →
       content s' p = if decide (off ≤ p < off + n)
                      then default 0 (mem !! Z.to_nat (pos + (p - off))) else content s p) ∧
    ((r = 0 ∧ n = resid ∧ off + n ≤ MAXSIZE) ∨
     (n < resid ∧ (n = 0 ∨ (off + n) mod 512 = 0) ∧
      ((r = EINVAL ∧ MAXSIZE ≤ off + n) ∨
       (r = ENOSPC ∧ fblock s' ((off + n) / 512) = 0 ∧
        ∀ c, 0 ≤ c < nblk (f_fs s') → f_used s' c = true)))).

Lemma put_size_ok s i n :
  f_inode s = i → file_ok s → is_word n →
  let s' := mkF (f_fs s) (set_inode (set_size i n) (f_sv s)) in
  file_ok s' ∧ fblocks s' = fblocks s ∧ f_dsk s' = f_dsk s ∧
  (∀ s0, frame s0 s → frame s0 s') ∧ same_file s s'.
Proof.
  intros <- (Hfs & (?&?&?&?&?&?&?&?) & Hino & Hb) Hn s'. split_and!; try done.
Qed.

Lemma sfs_io_write_wp s mem pos len off resid :
  file_ok s → sfi_size (f_inode s) ≤ INT_MAX →
  kuio_ok mem pos len off resid → Forall is_byte mem → 0 < resid →
  swp (sfs_io (kuio UIO_WRITE mem pos len off resid)) s (λ '(r, u') s',
    write_post s mem pos len off resid r u' s').
Proof.
  intros Hok Hsz Hu Hby Hpos. pose proof Hu as (Hp & Hm & Hr & Hl & Ho & Hmax).
  assert (0 ≤ sfi_size (f_inode s)) as Hsz0 by (destruct Hok as (_ & (? & _) & _); lia).
  unfold sfs_io. apply swp_bind, swp_gets. fold (f_inode s).
  cbn [uio_offset uio_resid uio_rw_of kuio]. cbv zeta.
  rewrite (bool_decide_false (UIO_WRITE = UIO_READ)) by done. cbn [andb].
  apply swp_bind, swp_ret. rewrite set_uio_pos_kuio, Z.sub_0_r, u32_small by lia.
  apply swp_bind. eapply swp_mono; [by apply sfs_io_transfer_wp|].
  intros [r u'] s1 (n & Hn & (mem' & Hlen & [Hbnd [Hw ->]] & ->) & Hres).
  destruct Hw as (Hok1 & Hm1 & Hf1 & Hc1).
  assert (Z.of_nat (length (slice mem pos n)) = n) as Hsl by (apply length_slice; lia).
  destruct Hm1 as [Hsame Hsz1].
  apply swp_bind, swp_gets. fold (f_inode s1). cbn [uio_rw_of kuio uio_offset uio_resid].
  rewrite (bool_decide_true (UIO_WRITE = UIO_WRITE)) by done. cbn [andb].
  unfold INT_MAX in *. rewrite Hsz1, (s32_small (sfi_size (f_inode s))) by (unfold INT_MIN, INT_MAX; lia).
  assert (∀ p, 0 ≤ p < MAXSIZE → content s1 p = if decide (off ≤ p < off + n)
    then default 0 (mem !! Z.to_nat (pos + (p - off))) else content s p) as Hc.
  { intros p Hp'. rewrite Hc1 by done. rewrite Hsl. case_decide; [|done]. f_equal.
    rewrite slice_lookup by lia. f_equal. lia. }
  assert ((r = 0 ∧ n = resid ∧ off + n ≤ MAXSIZE) ∨ (n < resid ∧ (n = 0 ∨ (off + n) mod 512 = 0) ∧
     ((r = EINVAL ∧ MAXSIZE ≤ off + n) ∨
      (r = ENOSPC ∧ fblock s1 ((off + n) / 512) = 0 ∧
       ∀ c, 0 ≤ c < nblk (f_fs s1) → f_used s1 c = true)))) as Hr1.
  { destruct Hres as [[-> ->]|(? & ? & [[??]|(?&_&?&?)])]; auto 10. left. split_and!; lia. }
  apply swp_bind. destruct (Z.gtb_spec (off + n) (sfi_size (f_inode s))).
  - apply swp_modify. apply swp_ret. rewrite set_uio_pos_kuio, Z.add_0_r, !u32_small by lia.
    destruct (put_size_ok s1 _ (off + n) eq_refl Hok1) as (Hok2 & Hfb & Hdk & Hfr & Hsame2); [lia|].
    exists n. split_and!; try done; try lia; try by apply Hfr.
    + by eapply same_file_trans.
    + cbn. lia.
  - apply swp_ret, swp_ret. rewrite set_uio_pos_kuio, Z.add_0_r, !u32_small by lia.
    exists n. split_and!; try done; try lia.
Qed.
(** Reading back what has been written. *)
Lemma write_post_frange s mem pos len off resid u' s' :
  kuio_ok mem pos len off resid → off + resid ≤ MAXSIZE →
  write_post s mem pos len off resid 0 u' s' →
  frange s' off resid = slice mem pos resid ∧ off + resid ≤ sfi_size (f_inode s') ∧
  sfi_size (f_inode s') = Z.max (sfi_size (f_inode s)) (off + resid).
Proof.
  intros (Hp & Hm & Hr & Hl & Ho & Hmax) Hsz (n & Hn & _ & _ & _ & _ & Hs & Hc & Hres).
  assert (n = resid) as -> by (destruct Hres as [(_ & -> & _)|(_ & _ & [(? & _)|(? & _)])]; done).
  split_and!; [|lia|done]. apply list_eq. intros k. destruct (decide (k < Z.to_nat resid)%nat).
  - rewrite frange_lookup, slice_lookup by lia. rewrite Hc by lia. rewrite decide_True by lia.
    destruct (lookup_lt_is_Some_2 mem (Z.to_nat pos + k)) as [x Hx]; [lia|].
    replace (Z.to_nat (pos + (off + Z.of_nat k - off))) with (Z.to_nat pos + k)%nat by lia.
    by rewrite Hx.
  - rewrite !lookup_ge_None_2; [done|..].
    + pose proof (length_slice mem pos resid ltac:(lia) ltac:(lia) ltac:(lia)). lia.
    + pose proof (length_frange s' off resid ltac:(lia)). lia.
Qed.
End rw.

(** ** A concrete filesystem *)

Section example.
#[local] Instance no_space : CurSpace := None.

(** Eight blocks, the file's inode in block [ino], its first block, with the
    data given, in block 4. *)
Definition ex_lhd (data : list Z) : lhd (list (list Z)) :=
  mkLhd zero_block 0 1 0 8 0 0 (<[4%nat := data]> (replicate 8 zero_block)).
Definition ex_fs (data : list Z) : sfs_fs (lhd (list (list Z))) :=
  mkFs (mkSuper SFS_MAGIC 8 (replicate 32 0) (replicate 118 0)) false (ex_lhd data)
    (mkArray 0 0 None) (mkBitmap 8 [31]) false.
Definition ex_state (data : list Z) (ino size type : Z) : fstate (lhd (list (list Z))) :=
  mkF (ex_fs data) (mkSv (mkVnode 1 0 true (Some SfsFileOps))
    (mkInode size type 1 (4 :: replicate 14 0) 0 (replicate 110 0)) ino false).

Lemma ex_fs_ok data : sector_ok data → fs_ok (ex_fs data).
Proof.
  intros Hd. split_and!; try done; try lia.
  - change (lhd_ok (ex_lhd data)). split_and!; try done.
    apply Forall_insert; [apply Forall_replicate, zero_block_ok|done].
  - unfold bitmap_wf. cbn [bm_nbits bm_v sfs_freemap ex_fs length]. split_and!; try lia; try done.
    constructor; [lia|constructor].
  - intros b Hb. cbn in Hb. lia.
Qed.

Lemma ex_state_ok data ino size type :
  sector_ok data → ino = 1 ∨ ino = 3 → 0 ≤ size < 4294967296 → 0 ≤ type < 65536 →
  file_ok (ex_state data ino size type).
Proof.
  intros Hd Hino Hsz Hty. split_and!; [by apply ex_fs_ok| |by destruct Hino as [->| ->]|].
  - unfold inode_wf. cbn [f_inode f_sv ex_state sv_i sfi_size sfi_type sfi_linkcount sfi_direct
      sfi_indirect sfi_waste]. split_and!; try lia; try done.
    + constructor; [lia|]. apply Forall_replicate. lia.
    + apply Forall_replicate. lia.
  - assert (∀ k b, allblocks (ex_state data ino size type) !! k = Some b → b ≠ 0 →
      (k = 0%nat ∧ b = ino) ∨ (k = 2%nat ∧ b = 4)) as Hk.
    { intros [|[|[|k]]] b; [by intros [= <-]; auto|by intros [= <-]|by intros [= <-]; auto|].
      change (allblocks (ex_state data ino size type) !! S (S (S k))) with (replicate 142 0 !! k).
      intros [-> _]%lookup_replicate. done. }
    split.
    + intros k b Hkb Hb.
      destruct (Hk k b Hkb Hb) as [[-> ->]|[-> ->]], Hino as [->| ->]; (split; [cbn; lia|done]).
    + intros k k' b H1 H2 Hb.
      destruct (Hk k b H1 Hb) as [[-> ->]|[-> ->]], (Hk k' _ H2 Hb) as [[-> ?]|[-> ?]];
        destruct Hino; lia || done.
Qed.

Definition ex_file := ex_state (replicate 512 65) 3 512 SFS_TYPE_FILE.

Lemma ex_file_ok : file_ok ex_file.
Proof.
  apply ex_state_ok; [|by right|lia|unfold SFS_TYPE_FILE; lia].
  split; [done|]. apply Forall_replicate. lia.
Qed.
End example.

(** The block mapping.  On a file in good order, [sfs_bmap] returns; with
    a block number beyond the 143 a file can have it answers EINVAL, and
    otherwise it hands back the file's block.  Without [doalloc] nothing
    changes.  With [doalloc] the answer is never 0: a missing block (and the
    indirect block, if it takes one) has been allocated from the free blocks
    and zeroed; if there is none left the answer is ENOSPC.  In all cases the
    file stays in good order, the blocks it had stay where they were with
    their contents, and no block in use by anything else is touched. *)
Theorem sfs_bmap_maps {D} `{!BlockDev D} `{!Disk D} {cs : CurSpace} (s : fstate D) k doalloc :
  file_ok s → 0 ≤ k →
  swp (sfs_bmap k doalloc) s (λ '(r, b) s',
    ext s s' ∧ frame s s' ∧ (doalloc = false → eqv s s') ∧
    ((r = 0 ∧ k < MAXBLK ∧ b = fblock s' k ∧ (doalloc = true → b ≠ 0)) ∨
     (r = EINVAL ∧ MAXBLK ≤ k) ∨
     (r = ENOSPC ∧ k < MAXBLK ∧ doalloc = true ∧ fblock s' k = 0 ∧
      ∀ c, 0 ≤ c < nblk (f_fs s') → f_used s' c = true))).
Proof.
  intros Hok Hk. eapply swp_mono; [by apply sfs_bmap_wp|].
  intros [r b] s' (Hext & Heq & Hcase). split_and!; try done. by apply ext_frame.
Qed.


(** [C33] Reading a file.  [sfs_io] delivers, in the caller's buffer, exactly
    the bytes of the file from the offset up to the end of the request or of
    the file, whichever comes first (holes read as zeros), and answers 0; the
    residual count tells how much is missing; and the file and the filesystem
    have not changed.  When the size recorded in the inode is beyond the 73216
    bytes for which a file can have blocks, and the request reaches there, it
    delivers the bytes before that position and answers EINVAL. *)
Theorem sfs_io_reads_content {D} `{!BlockDev D} `{!Disk D} {cs : CurSpace} (s : fstate D)
    mem pos len off resid :
  file_ok s → sfi_size (f_inode s) ≤ INT_MAX →
  kuio_ok mem pos len off resid → Forall is_byte mem → 0 < resid →
  swp (sfs_io (kuio UIO_READ mem pos len off resid)) s (λ '(r, u') s',
    let n := Z.max 0 (Z.min resid (sfi_size (f_inode s) - off)) in
    let fits := (n =? 0) || (off + n <=? MAXSIZE) in
    let m := if fits then n else Z.max 0 (MAXSIZE - off) in
    r = (if fits then 0 else EINVAL) ∧ eqv s s' ∧
    u' = kuio UIO_READ (buf_write mem pos (frange s off m)) (pos + m) (len - m) (off + m)
           (resid - m)).
Proof. apply sfs_io_read_any_wp. Qed.

Lemma sfs_io_reads_content_witness :
  let cs : CurSpace := None in
  let mem := replicate 700 0 in
  swp (sfs_io (kuio UIO_READ mem 0 700 100 700)) ex_file (λ '(r, u') s',
    let n := Z.max 0 (Z.min 700 (sfi_size (f_inode ex_file) - 100)) in
    let fits := (n =? 0) || (100 + n <=? MAXSIZE) in
    let m := if fits then n else Z.max 0 (MAXSIZE - 100) in
    r = (if fits then 0 else EINVAL) ∧ eqv ex_file s' ∧
    u' = kuio UIO_READ (buf_write mem 0 (frange ex_file 100 m)) (0 + m) (700 - m) (100 + m)
           (700 - m)).
Proof.
  intros cs mem. apply sfs_io_reads_content.
  - apply ex_file_ok.
  - done.
  - unfold kuio_ok, INT_MAX, mem. rewrite length_replicate. lia.
  - apply Forall_replicate. lia.
  - lia.
Defined.

(** [C34] Writing a file.  [sfs_io] returns having consumed the first [n]
    bytes of the buffer: those bytes are in the file at the offset, every
    other byte of the file is what it was, the size is the larger of the old
    size and the end of the write, and no block in use by anything else has
    been touched.  [n] is the whole request when the answer is 0; it is less
    only with ENOSPC and a full disk, or EINVAL at the maximal file size, and
    then the write has stopped at a block boundary. *)
Theorem sfs_io_writes_content {D} `{!BlockDev D} `{!Disk D} {cs : CurSpace} (s : fstate D)
    mem pos len off resid :
  file_ok s → sfi_size (f_inode s) ≤ INT_MAX →
  kuio_ok mem pos len off resid → Forall is_byte mem → 0 < resid →
  swp (sfs_io (kuio UIO_WRITE mem pos len off resid)) s (λ '(r, u') s',
    write_post s mem pos len off resid r u' s').
Proof. apply sfs_io_write_wp. Qed.

Lemma sfs_io_writes_content_witness :
  let cs : CurSpace := None in
  let mem := replicate 700 7 in
  swp (sfs_io (kuio UIO_WRITE mem 0 700 100 700)) ex_file (λ '(r, u') s',
    write_post ex_file mem 0 700 100 700 r u' s').
Proof.
  intros cs mem. apply sfs_io_writes_content.
  - apply ex_file_ok.
  - done.
  - unfold kuio_ok, INT_MAX, mem. rewrite length_replicate. lia.
  - apply Forall_replicate. lia.
  - lia.
Defined.

(** What is written can be read back: after a write that succeeds, a
    read of the same region delivers the bytes written. *)
Theorem sfs_write_read_roundtrip {D} `{!BlockDev D} `{!Disk D} {cs : CurSpace} (s : fstate D)
    mem pos len off resid mem2 pos2 len2 :
  file_ok s → sfi_size (f_inode s) ≤ MAXSIZE → off + resid ≤ MAXSIZE →
  kuio_ok mem pos len off resid → Forall is_byte mem → 0 < resid →
  kuio_ok mem2 pos2 len2 off resid → Forall is_byte mem2 →
  swp (sfs_io (kuio UIO_WRITE mem pos len off resid)) s (λ '(r, _) s',
    r = 0 →
    swp (sfs_io (kuio UIO_READ mem2 pos2 len2 off resid)) s' (λ '(r2, u2) _,
      r2 = 0 ∧ uio_resid u2 = 0 ∧ kmem u2 = buf_write mem2 pos2 (slice mem pos resid))).
Proof.
  intros Hok Hsz Hmax Hu Hby Hpos Hu2 Hby2. unfold MAXSIZE in *.
  eapply swp_mono; [apply sfs_io_write_wp; try done; unfold INT_MAX; lia|].
  intros [r u'] s' Hw ->. destruct (write_post_frange _ _ _ _ _ _ _ _ Hu Hmax Hw) as (Hf & Hle & Hs').
  assert (file_ok s') as Hok' by (destruct Hw as (n & _ & _ & ? & _); done).
  eapply swp_mono; [apply sfs_io_read_wp; try done; unfold MAXSIZE; lia|].
  intros [r2 u2] s2 (-> & _ & ->). rewrite Z.max_r, Z.min_l by lia.
  cbn [uio_resid kmem iov_base kuio]. rewrite Hf. split_and!; [done|lia|done].
Qed.

