(* ===== verification/SfsDir.v ===== *)
(** * kern/fs/sfs/sfs_vnode.c: directories, truncation and file attributes

    The operations on one file that need no other vnode.  A name is the list
    of its bytes without the terminator. *)

From S2P Require Import Prelude Array Bitmap Copyinout Uio SfsDisk Dev Vnode SfsIo.

(** The C string at the start of a buffer. *)
Fixpoint cstring (l : list Z) : list Z :=
  match l with
  | [] => []
  | c :: l' => if c =? 0 then [] else c :: cstring l'
  end.

Section dir.
Context {D : Type} `{!BlockDev D} {cs : CurSpace}.

(** ** Directory I/O *)

Definition SFS_DIR_SIZE : Z := 64.

Definition sfs_readdir (slot : Z) : stm (fstate D) (Z * sfs_dir) :=
  let actualpos := s32 (slot * SFS_DIR_SIZE) in
  '(result, ku) ← sfs_io (mk_kuio (replicate 64 0) 0 SFS_DIR_SIZE actualpos UIO_READ);
  if negb (result =? 0) then mret (result, mkDir 0 []) else
  if uio_resid ku >? 0 then lift Panic else
  mret (0, decode_dir (kmem ku)).

Definition sfs_writedir (sd : sfs_dir) (slot : Z) : stm (fstate D) Z :=
  lift (kassert (slot >=? 0));;
  let actualpos := s32 (slot * SFS_DIR_SIZE) in
  '(result, ku) ← sfs_io (mk_kuio (encode_dir sd) 0 SFS_DIR_SIZE actualpos UIO_WRITE);
  if negb (result =? 0) then mret result else
  if uio_resid ku >? 0 then lift Panic else
  mret 0.

Definition sfs_dir_nentries : stm (fstate D) Z :=
  sv ← gets f_sv;
  lift (kassert (sfi_type (sv_i sv) =? SFS_TYPE_DIR));;
  let size := sfi_size (sv_i sv) in
  if negb (size mod SFS_DIR_SIZE =? 0) then lift Panic else
  mret (size / SFS_DIR_SIZE).

(** What [sfs_dir_findname] has stored through its pointer arguments so far,
    and whether it has found the name. *)
Record findname := mkFind {
  fn_found : bool;
  fn_ino : option Z;
  fn_slot : option Z;
  fn_emptyslot : option Z;
}.

(** One slot of the directory. *)
Definition sfs_dir_findslot (name : list Z) (i : Z) (f : findname) (tsd : sfs_dir)
    : outcome findname :=
  if sfd_ino tsd =? SFS_NOINO then
    Done (mkFind (fn_found f) (fn_ino f) (fn_slot f) (Some i))
  else
    let name' := <[59%nat := 0]> (sfd_name tsd) in
    if bool_decide (cstring name' = name) then
      kassert (negb (fn_found f));;
      Done (mkFind true (Some (sfd_ino tsd)) (Some i) (fn_emptyslot f))
    else Done f.

Definition sfs_dir_findname (name : list Z) : stm (fstate D) (Z * findname) :=
  nentries ← sfs_dir_nentries;
  r ← for_stm (Z.to_nat nentries) 0
    (λ i f,
       '(result, tsd) ← sfs_readdir i;
       if negb (result =? 0) then mret (inr (result, f)) else
       f' ← lift (sfs_dir_findslot name i f tsd);
       mret (inl f')) (mkFind false None None None);
  mret (match r with
        | inr x => x
        | inl f => (if fn_found f then 0 else ENOENT, f)
        end).

(** The entry for a name: the rest of the name field is zeros. *)
Definition make_dir (ino : Z) (name : list Z) : sfs_dir :=
  mkDir ino (name ++ replicate (60 - length name) 0).

(** The result code and the slot used. *)
Definition sfs_dir_link (name : list Z) (ino : Z) : stm (fstate D) (Z * Z) :=
  '(result, f) ← sfs_dir_findname name;
  if negb (result =? 0) && negb (result =? ENOENT) then mret (result, 0) else
  if result =? 0 then mret (EEXIST, 0) else
  if Z.of_nat (length name) + 1 >? SFS_NAMELEN then mret (ENAMETOOLONG, 0) else
  emptyslot ← match fn_emptyslot f with
              | Some i => mret i
              | None => sfs_dir_nentries
              end;
  result ← sfs_writedir (make_dir ino name) emptyslot;
  mret (result, emptyslot).

Definition sfs_dir_unlink (slot : Z) : stm (fstate D) Z :=
  sfs_writedir (make_dir SFS_NOINO []) slot.

(** ** Truncation *)

(** The loop over the direct blocks. *)
Definition sfs_truncate_direct (blocklen : Z) : stm (fstate D) unit :=
  _ ← for_stm (R := unit) 15 0
    (λ i _,
       ino ← gets (λ s, sv_i (f_sv s));
       block ← lift (arr_get (sfi_direct ino) i);
       if (i >=? blocklen) && negb (block =? 0) then
         on_fs (sfs_bfree block);;
         direct ← lift (arr_set (sfi_direct ino) i 0);
         put_inode (set_direct ino direct);;
         mret (inl tt)
       else mret (inl tt)) tt;
  mret tt.

(** The loop over the entries of the indirect block: the buffer, and the flags
    [hasnonzero] and [iddirty]. *)
Definition sfs_truncate_entries (blocklen : Z) (idbuf : list Z)
    : stm (sfs_fs D) (list Z * bool * bool) :=
  r ← for_stm (R := unit) 128 0
    (λ j '(idbuf, hasnonzero, iddirty),
       e ← lift (arr_get idbuf j);
       if (blocklen <? u32 (SFS_NDIRECT + j)) && negb (e =? 0) then
         sfs_bfree e;;
         idbuf' ← lift (arr_set idbuf j 0);
         mret (inl (idbuf', hasnonzero, true))
       else mret (inl (idbuf, if negb (e =? 0) then true else hasnonzero, iddirty)))
    (idbuf, false, false);
  mret (match r with inl x => x | inr _ => (idbuf, false, false) end).

Definition sfs_truncate_indirect (blocklen idblock : Z) : stm (fstate D) Z :=
  '(result, data) ← on_fs (sfs_rblock zero_block idblock);
  if negb (result =? 0) then mret result else
  '(idbuf, hasnonzero, iddirty) ← on_fs (sfs_truncate_entries blocklen (de32s data));
  if negb hasnonzero then
    on_fs (sfs_bfree idblock);;
    ino ← gets (λ s, sv_i (f_sv s));
    put_inode (set_indirect ino 0);;
    mret 0
  else if (iddirty : bool) then on_fs (sfs_wblock (be32s idbuf) idblock)
  else mret 0.

Definition sfs_truncate (len : Z) : stm (fstate D) Z :=
  l1 ← lift (to_int (len + SFS_BLOCKSIZE));
  let blocklen := u32 (Z.quot (l1 - 1) SFS_BLOCKSIZE) in
  sfs_truncate_direct blocklen;;
  idblock ← gets (λ s, sfi_indirect (sv_i (f_sv s)));
  let baseblock := SFS_NDIRECT in
  let highblock := baseblock + SFS_DBPERIDB - 1 in
  result ←
    (if (blocklen <? highblock) && negb (idblock =? 0)
     then sfs_truncate_indirect blocklen idblock else mret 0);
  if negb (result =? 0) then mret result else
  ino ← gets (λ s, sv_i (f_sv s));
  put_inode (set_size ino (u32 len));;
  mret 0.

(** ** Attributes *)

Definition sfs_open (openflags : Z) : stm (fstate D) Z :=
  if negb (Z.land openflags O_APPEND =? 0) then mret EUNIMP else mret 0.

Definition sfs_opendir (openflags : Z) : stm (fstate D) Z :=
  if negb (Z.land openflags O_ACCMODE =? O_RDONLY) then mret EISDIR else
  if negb (Z.land openflags O_APPEND =? 0) then mret EISDIR else mret 0.

Definition sfs_fsync : stm (fstate D) Z := sfs_sync_inode.

Definition sfs_read (u : uio) : stm (fstate D) (Z * uio) :=
  lift (kassert (bool_decide (uio_rw_of u = UIO_READ)));; sfs_io u.

Definition sfs_write (u : uio) : stm (fstate D) (Z * uio) :=
  lift (kassert (bool_decide (uio_rw_of u = UIO_WRITE)));; sfs_io u.

Definition sfs_ioctl (op data : Z) : stm (fstate D) Z := mret EINVAL.

Definition sfs_gettype : stm (fstate D) (Z * Z) :=
  i ← gets (λ s, sv_i (f_sv s));
  if sfi_type i =? SFS_TYPE_FILE then mret (0, S_IFREG) else
  if sfi_type i =? SFS_TYPE_DIR then mret (0, S_IFDIR) else lift Panic.

Definition sfs_stat : stm (fstate D) (Z * stat) :=
  '(result, mode) ← sfs_gettype;
  if negb (result =? 0) then mret (result, mkStat 0 0 0 0) else
  i ← gets (λ s, sv_i (f_sv s));
  mret (0, mkStat mode 0 (s32 (sfi_size i)) 0).

Definition sfs_tryseek (pos : Z) : stm (fstate D) Z :=
  if pos <? 0 then mret EINVAL else mret 0.

Definition sfs_mmap : stm (fstate D) Z := mret EUNIMP.

Definition sfs_namefile (u : uio) : stm (fstate D) (Z * uio) :=
  sv ← gets f_sv;
  lift (kassert (sv_ino sv =? SFS_ROOT_LOCATION));;
  mret (0, u).
End dir.
