(* ===== verification/SfsNames.v ===== *)
(** * What the directory operations of SFS guarantee

    A directory is a file that consists of 64-byte entries; an entry is free
    when its inode number is 0.  The invariant is that no two entries in use
    have the same name, so that a directory is a finite map from names to
    inode numbers; looking up, linking and unlinking act on that map. *)

From S2P Require Import Prelude Array Bitmap Copyinout Uio SfsDisk Dev Vnode SfsIo SfsFile Lhd SfsRw.
From S2P Require Import SfsDir.

Section names.
Context {D : Type} `{!BlockDev D} `{!Disk D} {cs : CurSpace}.
Implicit Types (s : fstate D) (name : list Z).

(** The entry in slot [i] and its name. *)
Definition entry s (i : Z) : sfs_dir := decode_dir (frange s (i * 64) 64).
Definition ename (d : sfs_dir) : list Z := cstring (<[59%nat := 0]> (sfd_name d)).
Definition nent s : Z := sfi_size (f_inode s) / 64.

(** Slot [i] is in use for [name]. *)
Definition names s (i : Z) name : Prop :=
  0 ≤ i < nent s ∧ sfd_ino (entry s i) ≠ 0 ∧ ename (entry s i) = name.

Definition dir_ok s : Prop :=
  file_ok s ∧ sfi_type (f_inode s) = SFS_TYPE_DIR ∧
  sfi_size (f_inode s) mod 64 = 0 ∧ sfi_size (f_inode s) ≤ MAXSIZE ∧
  ∀ i j name, names s i name → names s j name → i = j.

(** The directory maps [name] to [ino]. *)
Definition dir_maps s name (ino : Z) : Prop := ∃ i, names s i name ∧ sfd_ino (entry s i) = ino.

Lemma dir_size s : dir_ok s → sfi_size (f_inode s) = nent s * 64 ∧ 0 ≤ nent s ≤ 1144.
Proof.
  intros (Hok & _ & Hm & Hs & _). unfold nent, MAXSIZE in *.
  assert (0 ≤ sfi_size (f_inode s)) by (destruct Hok as (_ & (? & _) & _); lia).
  split; dlia.
Qed.

Lemma kuio_ok_dir mem i :
  length mem = 64%nat → 0 ≤ i ≤ 1144 → kuio_ok mem 0 64 (i * 64) 64.
Proof. intros Hl Hi. unfold kuio_ok, INT_MAX. rewrite Hl. lia. Qed.

Lemma sfs_readdir_wp s i :
  dir_ok s → 0 ≤ i < nent s →
  swp (sfs_readdir i) s (λ '(r, d) s', r = 0 ∧ d = entry s i ∧ eqv s s').
Proof.
  intros Hd Hi. destruct (dir_size s Hd) as [Hsz Hn]. pose proof Hd as (Hok & _ & _ & Hmax & _).
  unfold sfs_readdir, SFS_DIR_SIZE. cbv zeta.
  rewrite s32_small by (unfold INT_MIN, INT_MAX; lia). apply swp_bind.
  eapply swp_mono; [apply (sfs_io_read_wp s (replicate 64 0) 0 64 (i * 64) 64);
    [done|done|apply kuio_ok_dir; [done|lia]|apply Forall_replicate; lia|lia]|].
  intros [r u] s' (-> & Heq & ->). rewrite Hsz, Z.max_r, Z.min_l by lia.
  cbn -[buf_write replicate frange]. apply swp_ret. split_and!; [done| |done].
  rewrite buf_write_full; [done|]. pose proof (length_frange s (i * 64) 64 ltac:(lia)).
  rewrite length_replicate. lia.
Qed.

Lemma eqv_nent s s' : eqv s s' → nent s' = nent s ∧ ∀ i, entry s' i = entry s i.
Proof.
  intros Heq. destruct (eqv_views _ _ Heq) as (_ & Hi & _). unfold nent, entry.
  split; [by rewrite Hi|]. intros i. by rewrite (eqv_frange s s').
Qed.

Lemma eqv_names s s' i name : eqv s s' → names s' i name ↔ names s i name.
Proof. intros Heq. destruct (eqv_nent _ _ Heq) as [Hn He]. unfold names. by rewrite Hn, He. Qed.

Lemma eqv_dir_ok s s' : dir_ok s → eqv s s' → dir_ok s'.
Proof.
  intros (Hok & Ht & Hm & Hs & Hu) Heq. destruct (eqv_views _ _ Heq) as (_ & Hi & _).
  unfold dir_ok. rewrite Hi. split_and!; try done; [by eapply eqv_ok|].
  intros i j name. rewrite !(eqv_names s s') by done. apply Hu.
Qed.

Lemma sfs_dir_nentries_wp s :
  dir_ok s → swp sfs_dir_nentries s (λ n s', n = nent s ∧ s' = s).
Proof.
  intros (Hok & Ht & Hm & _). unfold sfs_dir_nentries, SFS_DIR_SIZE.
  apply swp_bind, swp_gets. fold (f_inode s). apply swp_bind, swp_kassert.
  { by rewrite Ht. }
  cbv zeta. rewrite Hm. cbn. by apply swp_ret.
Qed.

(** What has been found among the first [n] slots. *)
Definition found_upto s (n : Z) name (f : findname) : Prop :=
  match fn_slot f with
  | Some i => fn_found f = true ∧ fn_ino f = Some (sfd_ino (entry s i)) ∧ i < n ∧ names s i name
  | None => fn_found f = false ∧ fn_ino f = None ∧ ∀ i, i < n → ¬ names s i name
  end ∧
  match fn_emptyslot f with
  | Some i => 0 ≤ i < n ∧ sfd_ino (entry s i) = 0
  | None => ∀ i, 0 ≤ i < n → sfd_ino (entry s i) ≠ 0
  end.

Lemma frange_ext s s' off n :
  (∀ p, off ≤ p < off + n → content s' p = content s p) → frange s' off n = frange s off n.
Proof.
  intros Hc. unfold frange. apply list_fmap_ext. intros k x Hx.
  apply lookup_seqZ in Hx as [-> Hk]. apply Hc. lia.
Qed.

(** The effect of putting [sd] into a slot. *)
Definition slot_written s s' (slot : Z) (sd : sfs_dir) : Prop :=
  nent s' = Z.max (nent s) (slot + 1) ∧ sfi_size (f_inode s') mod 64 = 0 ∧
  sfi_size (f_inode s') ≤ MAXSIZE ∧ entry s' slot = sd ∧
  ∀ i, 0 ≤ i < nent s → i ≠ slot → entry s' i = entry s i.

Definition slots_same s s' : Prop :=
  sfi_size (f_inode s') = sfi_size (f_inode s) ∧
  ∀ i, 0 ≤ i < nent s → entry s' i = entry s i.

Lemma sfs_writedir_wp s sd slot :
  dir_ok s → dir_wf sd → 0 ≤ slot ≤ nent s →
  swp (sfs_writedir sd slot) s (λ r s',
    file_ok s' ∧ frame s s' ∧ same_file s s' ∧
    ((r = 0 ∧ slot_written s s' slot sd) ∨
     ((r = EINVAL ∨ r = ENOSPC) ∧ slots_same s s' ∧
      (slot < nent s → fblock s' (slot * 64 / 512) = 0)))).
Proof.
  intros Hd Hsd Hslot. destruct (dir_size s Hd) as [Hsz Hn]. pose proof Hd as (Hok & _ & _ & Hmax & _).
  unfold sfs_writedir, SFS_DIR_SIZE. apply swp_bind, swp_kassert; [lia|]. cbv zeta.
  rewrite s32_small by (unfold INT_MIN, INT_MAX; lia).
  pose proof (encode_dir_length sd Hsd) as Hel.
  assert (kuio_ok (encode_dir sd) 0 64 (slot * 64) 64) as Hu by (apply kuio_ok_dir; [done|lia]).
  apply swp_bind. eapply swp_mono; [apply (sfs_io_write_wp s (encode_dir sd) 0 64 (slot * 64) 64);
    [done|unfold INT_MAX, MAXSIZE in *; lia|done|by apply encode_dir_bytes|lia]|].
  intros [r u] s' Hw. pose proof Hw as (n & Hn' & -> & Hok' & Hf & Hsame & Hs' & Hc & Hres).
  destruct Hres as [(-> & -> & Hin)|(Hlt & Hn0 & Herr)].
  - cbn. apply swp_ret. split_and!; try done. left. split; [done|].
    destruct (write_post_frange _ _ _ _ _ _ _ _ Hu Hin Hw) as (Hfr & _ & _).
    rewrite slice_full in Hfr by lia. unfold slot_written. unfold nent at 1.
    assert (sfi_size (f_inode s') = Z.max (nent s) (slot + 1) * 64) as -> by lia.
    rewrite Z.div_mul, Z.mod_mul by lia. split_and!; [done|done|unfold MAXSIZE in *; lia| |].
    + unfold entry. by rewrite Hfr, decode_encode_dir.
    + intros i Hi Hne. unfold entry. f_equal. apply frange_ext. intros p Hp.
      rewrite Hc by lia. rewrite decide_False by lia. done.
  - assert (n = 0) as -> by dlia. rewrite Z.add_0_r in *.
    assert (r = EINVAL ∨ r = ENOSPC) as Hr by (destruct Herr as [[-> _]|[-> _]]; auto).
    assert ((r =? 0) = false) as -> by (by destruct Hr as [->| ->]).
    apply swp_ret. split_and!; try done. right. split_and!; [done|split; [lia|]|].
    + intros i Hi. unfold entry. f_equal. apply frange_ext. intros p Hp.
      rewrite Hc by (unfold MAXSIZE in *; lia). rewrite decide_False by lia. done.
    + intros Hlt'. destruct Herr as [[_ Hbig]|(_ & Hhole & _)]; [unfold MAXSIZE in *; lia|done].
Qed.

(** An entry in a hole of the directory is free. *)
Lemma entry_hole s i : 0 ≤ i → fblock s (i * 64 / 512) = 0 → sfd_ino (entry s i) = 0.
Proof.
  intros Hi Hh. unfold entry. assert (frange s (i * 64) 64 = replicate 64 0) as ->; [|done].
  apply list_eq_same_length with (n := 64%nat); [done|pose proof (length_frange s (i * 64) 64); lia|].
  intros k x y Hk Hx Hy. apply lookup_replicate in Hy as [-> _]. rewrite frange_lookup in Hx by lia.
  injection Hx as <-. unfold content. replace ((i * 64 + Z.of_nat k) / 512) with (i * 64 / 512) by dlia.
  by rewrite Hh.
Qed.

#[local] Opaque entry.

Lemma sfs_dir_findslot_wp s n name f :
  dir_ok s → 0 ≤ n < nent s → found_upto s n name f →
  wp (sfs_dir_findslot name n f (entry s n)) (λ f', found_upto s (n + 1) name f').
Proof.
  intros (_ & _ & _ & _ & Hu) Hn [Hs He]. unfold sfs_dir_findslot, SFS_NOINO.
  fold (ename (entry s n)). unfold found_upto.
  destruct (Z.eqb_spec (sfd_ino (entry s n)) 0) as [H0|Hne]; simpl.
  - split; [|lia]. destruct (fn_slot f) as [i|]; [destruct Hs as (?&?&?&?); split_and!; done || lia|].
    destruct Hs as (? & ? & Hno). split_and!; try done. intros i Hi Hnm.
    destruct (decide (i = n)) as [->|]; [by destruct Hnm as (_ & ? & _)|]. apply (Hno i); [lia|done].
  - assert (match fn_emptyslot f with
            | Some i => 0 ≤ i < n + 1 ∧ sfd_ino (entry s i) = 0
            | None => ∀ i, 0 ≤ i < n + 1 → sfd_ino (entry s i) ≠ 0 end) as He'.
    { destruct (fn_emptyslot f); [split; lia|]. intros i Hi.
      destruct (decide (i = n)) as [->|]; [done|]. apply He. lia. }
    case_bool_decide as Hnm.
    + assert (names s n name) as Hn' by done. destruct (fn_slot f) as [i|] eqn:Ef.
      { destruct Hs as (_ & _ & Hi & Hni). specialize (Hu i n name Hni Hn'). lia. }
      destruct Hs as (-> & _ & Hno). simpl. split; [|done]. split_and!; try done; lia.
    + simpl. split; [|done]. destruct (fn_slot f) as [i|];
        [destruct Hs as (?&?&?&?); split_and!; done || lia|].
      destruct Hs as (? & ? & Hno). split_and!; try done. intros i Hi Hni.
      destruct (decide (i = n)) as [->|]; [by destruct Hni as (_ & _ & ?)|]. apply (Hno i); [lia|done].
Qed.

Lemma sfs_dir_findname_wp s name :
  dir_ok s →
  swp (sfs_dir_findname name) s (λ '(r, f) s',
    eqv s s' ∧ found_upto s (nent s) name f ∧ r = if fn_found f then 0 else ENOENT).
Proof.
  intros Hd. destruct (dir_size s Hd) as [_ Hn]. unfold sfs_dir_findname.
  apply swp_bind. eapply swp_mono; [by apply sfs_dir_nentries_wp|]. intros n s0 [-> ->].
  apply swp_bind. eapply swp_mono.
  { apply (swp_for_stm (λ i f s', eqv s s' ∧ found_upto s i name f) (λ _ _, False)).
    - split; [apply eqv_refl; by destruct Hd|]. split; simpl; [|lia].
      split_and!; try done. intros i Hi [? _]. lia.
    - intros i f s1 Hi [Heq Hf]. apply swp_bind.
      destruct (eqv_nent _ _ Heq) as [Hn1 He1].
      eapply swp_mono; [apply sfs_readdir_wp; [by eapply eqv_dir_ok|lia]|].
      intros [r d] s2 (-> & -> & Heq2). cbn. apply swp_bind, swp_lift. rewrite He1.
      eapply wp_mono; [apply sfs_dir_findslot_wp; try done; lia|].
      intros f' Hf'. apply swp_ret. split; [by eapply eqv_trans|done]. }
  intros [f|x] s1; [|done]. intros [Heq Hf]. apply swp_ret. rewrite Z2Nat.id in Hf by lia. done.
Qed.
Lemma cstring_app name l :
  Forall (λ b, b ≠ 0) name → cstring (name ++ 0 :: l) = name.
Proof.
  induction 1 as [|b name Hb _ IH]; [done|]. simpl.
  by rewrite (proj2 (Z.eqb_neq _ _)), IH by done.
Qed.

Definition name_ok name : Prop := Forall (λ b, 0 < b < 256) name.

Lemma ename_make_dir ino name :
  name_ok name → (length name < 60)%nat → ename (make_dir ino name) = name.
Proof.
  intros Hn Hl. unfold ename, make_dir. cbn [sfd_name].
  assert (<[59%nat := 0]> (name ++ replicate (60 - length name) 0) =
          name ++ replicate (60 - length name) 0) as ->.
  { apply list_insert_id. rewrite lookup_app_r by lia. apply lookup_replicate. split; [done|lia]. }
  destruct (60 - length name)%nat as [|k] eqn:E; [lia|]. simpl. apply cstring_app.
  eapply Forall_impl; [exact Hn|]. simpl. lia.
Qed.

Lemma make_dir_wf ino name :
  is_word ino → name_ok name → (length name < 60)%nat → dir_wf (make_dir ino name).
Proof.
  intros Hi Hn Hl. unfold dir_wf, make_dir. cbn [sfd_ino sfd_name]. cbv beta in Hi.
  split_and!; [lia|lia|rewrite length_app, length_replicate; lia|].
  apply Forall_app_2; [|apply Forall_replicate; lia].
  eapply Forall_impl; [exact Hn|]. simpl. lia.
Qed.

Lemma slots_same_names s s' : slots_same s s' → ∀ i name, names s' i name ↔ names s i name.
Proof.
  intros [Hsz He] i name. unfold names, nent. rewrite Hsz. split; intros (Hi & Hrest).
  - by rewrite He in Hrest.
  - split; [done|]. by rewrite He.
Qed.

Lemma slots_same_ok s s' : dir_ok s → file_ok s' → same_file s s' → slots_same s s' → dir_ok s'.
Proof.
  intros (_ & Ht & Hm & Hs & Hu) Hok' (_ & _ & Ht' & _) Hsl. pose proof Hsl as [Hsz _].
  unfold dir_ok. rewrite Hsz, Ht'. split_and!; try done.
  intros i j name. rewrite !(slots_same_names s s') by done. apply Hu.
Qed.

Lemma slots_same_maps s s' : slots_same s s' → ∀ nm i, dir_maps s' nm i ↔ dir_maps s nm i.
Proof.
  intros Hsl nm ino. unfold dir_maps. split; intros (i & Hi & <-); exists i.
  - apply (slots_same_names s s') in Hi; [|done]. split; [done|].
    destruct Hsl as [_ He]. destruct Hi as (? & _). by rewrite He.
  - split; [by apply (slots_same_names s s')|].
    destruct Hsl as [_ He]. destruct Hi as (? & _). by rewrite He.
Qed.

(** Which slots have a name after one slot has been written. *)
Lemma slot_written_names s s' slot sd i name :
  0 ≤ slot ≤ nent s → slot_written s s' slot sd →
  names s' i name ↔
    (i = slot ∧ sfd_ino sd ≠ 0 ∧ ename sd = name) ∨ (i ≠ slot ∧ names s i name).
Proof.
  intros Hslot (Hn & _ & _ & Hsd & He). unfold names. rewrite Hn. split.
  - intros (Hi & H0 & Hnm). destruct (decide (i = slot)) as [->|Hne].
    + left. by rewrite Hsd in *.
    + right. rewrite He in * by lia. split_and!; try done; lia.
  - intros [(-> & H0 & Hnm)|(Hne & Hi & H0 & Hnm)].
    + rewrite Hsd. split_and!; done || lia.
    + rewrite He by lia. split_and!; done || lia.
Qed.

(** [dir_ok] after writing a slot with a name that is not in use elsewhere. *)
Lemma slot_written_ok s s' slot sd :
  dir_ok s → file_ok s' → same_file s s' → 0 ≤ slot ≤ nent s → slot_written s s' slot sd →
  (∀ i, sfd_ino sd ≠ 0 → names s i (ename sd) → i = slot) → dir_ok s'.
Proof.
  intros (_ & Ht & _ & _ & Hu) Hok' (_ & _ & Ht' & _) Hslot Hw Hnew.
  pose proof Hw as (_ & Hm' & Hs' & _). unfold dir_ok. rewrite Ht'. split_and!; try done.
  intros i j name Hi Hj. apply (slot_written_names s s' slot sd) in Hi, Hj; try done.
  destruct Hi as [(-> & H0 & <-)|[Hni Hi]], Hj as [(-> & H0' & Hnm)|[Hnj Hj]]; try done.
  - symmetry. by apply Hnew.
  - subst name. by apply Hnew.
  - by apply (Hu i j name).
Qed.

(** What [sfs_dir_link] promises. *)
Definition dir_link_post s name (ino r slot : Z) s' : Prop :=
  dir_ok s' ∧ frame s s' ∧ same_file s s' ∧
  ((r = EEXIST ∧ (∃ i, dir_maps s name i) ∧ eqv s s') ∨
   (r = ENAMETOOLONG ∧ (60 ≤ length name)%nat ∧ eqv s s') ∨
   ((r = EINVAL ∨ r = ENOSPC) ∧ ∀ nm i, dir_maps s' nm i ↔ dir_maps s nm i) ∨
   (r = 0 ∧ (¬ ∃ i, dir_maps s name i) ∧
    (∀ nm i, dir_maps s' nm i ↔ (nm = name ∧ i = ino) ∨ dir_maps s nm i) ∧
    names s' slot name ∧ ∀ j nm, names s j nm → names s' j nm)).

Lemma eqv_frame s s' : file_ok s → eqv s s' → frame s s' ∧ same_file s s'.
Proof.
  intros Hok Heq. split; [by apply ext_frame, eqv_ext|].
  by destruct (eqv_same_meta _ _ Heq).
Qed.

Lemma frame_eqv_l s s1 s' :
  file_ok s → eqv s s1 → frame s1 s' ∧ same_file s1 s' → frame s s' ∧ same_file s s'.
Proof.
  intros Hok Heq [Hf Hs]. destruct (eqv_frame _ _ Hok Heq) as [Hf0 Hs0]. split.
  - eapply frame_trans; [|done..]. by destruct (eqv_views _ _ Heq) as (_&_&_&_&?).
  - by eapply same_file_trans.
Qed.

Lemma eqv_maps s s' nm i : eqv s s' → dir_maps s' nm i ↔ dir_maps s nm i.
Proof.
  intros Heq. destruct (eqv_nent _ _ Heq) as [_ He]. unfold dir_maps.
  by setoid_rewrite (eqv_names s s'); [setoid_rewrite He|].
Qed.
Lemma found_maps s name f :
  found_upto s (nent s) name f → fn_found f = true ↔ ∃ i, dir_maps s name i.
Proof.
  intros [Hs _]. destruct (fn_slot f) as [i|].
  - destruct Hs as (Hf & _ & _ & Hn). split; [|done]. intros _. by exists (sfd_ino (entry s i)), i.
  - destruct Hs as (-> & _ & Hno). split; [done|]. intros (ino & i & Hi & _).
    exfalso. apply (Hno i); [|done]. by destruct Hi as [[_ ?] _].
Qed.

(** The slot [sfs_dir_link] chooses is free, or the one after the last. *)
Lemma dir_link_slot_wp s s1 name f :
  dir_ok s → eqv s s1 → found_upto s (nent s) name f →
  swp (match fn_emptyslot f with Some i => mret i | None => sfs_dir_nentries end) s1
    (λ slot s2, s2 = s1 ∧ 0 ≤ slot ≤ nent s ∧ ∀ nm, ¬ names s slot nm).
Proof.
  intros Hd Heq [_ He]. destruct (fn_emptyslot f) as [i|].
  - apply swp_ret. split_and!; [done|lia|lia|]. intros nm (_ & H0 & _). lia.
  - eapply swp_mono; [by apply sfs_dir_nentries_wp; eapply eqv_dir_ok|].
    intros n s2 [-> ->]. destruct (eqv_nent _ _ Heq) as [-> _]. destruct (dir_size s Hd).
    split_and!; [done|lia|lia|]. intros nm (? & _). lia.
Qed.

Lemma sfs_dir_link_wp s name ino :
  dir_ok s → name_ok name → 0 < ino < 4294967296 →
  swp (sfs_dir_link name ino) s (λ '(r, slot) s', dir_link_post s name ino r slot s').
Proof.
  intros Hd Hname Hino. pose proof Hd as (Hok & _). unfold sfs_dir_link. apply swp_bind.
  eapply swp_mono; [by apply sfs_dir_findname_wp|]. intros [r f] s1 (Heq & Hfound & ->).
  pose proof (found_maps s name f Hfound) as Hmaps.
  pose proof (eqv_frame _ _ Hok Heq) as [Hf1 Hs1]. pose proof (eqv_dir_ok _ _ Hd Heq) as Hd1.
  destruct (fn_found f) eqn:Ef; cbn.
  { apply swp_ret. split_and!; try done. left. split_and!; try done. by apply Hmaps. }
  unfold SFS_NAMELEN. destruct (Z.gtb_spec (Z.of_nat (length name) + 1) 60).
  { apply swp_ret. split_and!; try done. right; left. split_and!; [done|lia|done]. }
  apply swp_bind. eapply swp_mono; [by apply (dir_link_slot_wp s s1 name)|].
  intros slot s2 (-> & Hslot & Hfree). destruct (eqv_nent _ _ Heq) as [Hn1 _].
  assert (dir_wf (make_dir ino name)) as Hwf by (apply make_dir_wf; [cbn; lia|done|lia]).
  pose proof (ename_make_dir ino name Hname ltac:(lia)) as Hen.
  apply swp_bind. eapply swp_mono; [apply sfs_writedir_wp; [done|done|lia]|].
  intros r s3 (Hok3 & Hf3 & Hs3 & Hcase). apply swp_ret.
  destruct (frame_eqv_l s s1 s3 Hok Heq (conj Hf3 Hs3)) as [Hf Hs].
  assert (¬ ∃ i, dir_maps s name i) as Hnone by (by intros Hex; apply Hmaps in Hex).
  destruct Hcase as [[-> Hw]|(Hr & Hsl & _)].
  - assert (dir_ok s3) as Hd3.
    { eapply slot_written_ok; try done; [lia|]. rewrite Hen. intros i _ Hi. exfalso.
      apply Hnone. eexists. exists i. split; [by apply (eqv_names s s1)|done]. }
    split_and!; try done. right; right; right.
    assert (∀ j n, names s3 j n ↔ (j = slot ∧ sfd_ino (make_dir ino name) ≠ 0 ∧ ename (make_dir ino name) = n) ∨ (j ≠ slot ∧ names s j n)) as Hnm.
    { intros j n. rewrite (slot_written_names s1 s3 slot) by (done || lia).
      by rewrite (eqv_names s s1). }
    destruct Hw as (_ & _ & _ & Hsd & He). split_and!; [done|done| |..].
    2: { apply Hnm. left. split_and!; [done|cbn; lia|done]. }
    2: { intros j nm Hj. apply Hnm. right. split; [|done]. intros ->. by eapply Hfree. }
    intros nm i. unfold dir_maps. split.
    + intros (j & Hj & <-). apply Hnm in Hj as [(-> & _ & Hj)|[Hne Hj]].
      * left. rewrite Hsd. split; [by rewrite <-Hj, Hen|done].
      * right. exists j. split; [done|]. destruct Hj as [? _].
        rewrite He by lia. by destruct (eqv_nent _ _ Heq) as [_ ->].
    + intros [[-> ->]|(j & Hj & <-)].
      * exists slot. rewrite Hsd. split; [|done]. apply Hnm. left. split_and!; [done|cbn; lia|done].
      * assert (j ≠ slot) as Hne by (intros ->; by eapply Hfree). exists j.
        split; [apply Hnm; by right|]. destruct Hj as [? _]. rewrite He by lia.
        by destruct (eqv_nent _ _ Heq) as [_ ->].
  - split_and!; [by eapply slots_same_ok|done|done|]. right; right; left. split; [done|].
    intros nm i. rewrite (slots_same_maps s1 s3) by done. by apply eqv_maps.
Qed.

(** Unlinking the slot of a name removes that name from the map. *)
Lemma sfs_dir_unlink_wp s slot name :
  dir_ok s → names s slot name →
  swp (sfs_dir_unlink slot) s (λ r s',
    dir_ok s' ∧ frame s s' ∧ same_file s s' ∧
    r = 0 ∧ ∀ nm i, dir_maps s' nm i ↔ nm ≠ name ∧ dir_maps s nm i).
Proof.
  intros Hd Hnm. pose proof Hnm as (Hslot & _). unfold sfs_dir_unlink.
  eapply swp_mono; [apply sfs_writedir_wp; [done| |lia]|].
  { apply make_dir_wf; [unfold SFS_NOINO; lia|constructor|simpl; lia]. }
  intros r s' (Hok' & Hf & Hs & [[-> Hw]|(Hr & [_ Hsl] & Hh)]).
  - assert (dir_ok s') as Hd'.
    { eapply slot_written_ok; try done. lia. }
    split_and!; try done. intros nm i. pose proof Hd as (_&_&_&_&Hu).
    pose proof (λ j n, slot_written_names s s' slot _ j n ltac:(lia) Hw) as Hj.
    destruct Hw as (_ & _ & _ & _ & He). unfold dir_maps. split.
    + intros (j & Hn & <-). apply Hj in Hn as [(_ & H0 & _)|[Hne Hn]]; [done|].
      split; [intros ->; by apply Hne, (Hu j slot name)|]. exists j. split; [done|].
      destruct Hn as [? _]. by rewrite He by lia.
    + intros [Hne (j & Hn & <-)]. assert (j ≠ slot) as Hjs.
      { intros ->. apply Hne. destruct Hn as (_ & _ & <-). by destruct Hnm as (_ & _ & <-). }
      exists j. split; [apply Hj; by right|]. destruct Hn as [? _]. by rewrite He by lia.
  - exfalso. destruct Hnm as (_ & H0 & _). rewrite <-Hsl in H0 by lia. apply H0, entry_hole; [lia|].
    apply Hh. lia.
Qed.
End names.

Section example.
#[local] Existing Instance no_space.

(** A directory with one entry, the name [a] for the inode in block 3. *)
Definition ex_dir_data : list Z := encode_dir (make_dir 3 [97]) ++ replicate 448 0.
Definition ex_dir := ex_state ex_dir_data 1 64 SFS_TYPE_DIR.

Lemma ex_dir_ok : dir_ok ex_dir.
Proof.
  split_and!; try done.
  - apply ex_state_ok; [|by left|lia|unfold SFS_TYPE_DIR; lia]. split; [done|].
    apply Forall_app_2; [apply encode_dir_bytes, make_dir_wf|apply Forall_replicate; lia].
    + cbv beta. lia.
    + constructor; [lia|constructor].
    + simpl. lia.
  - intros i j name [Hi _] [Hj _]. change (nent ex_dir) with 1 in *. lia.
Qed.
End example.

(** Looking up a name in a directory.  [sfs_dir_findname] returns; it
    finds the name exactly when the directory maps it, and then hands back
    the inode number it is mapped to and its slot; the free slot it reports
    is free; and nothing has changed.  In particular the assertion that a
    name appears only once never fires. *)
Theorem sfs_dir_findname_exact {D} `{!BlockDev D} `{!Disk D} {cs : CurSpace} (s : fstate D) name :
  dir_ok s →
  swp (sfs_dir_findname name) s (λ '(r, f) s', eqv s s' ∧
    ((r = 0 ∧ ∃ i ino, fn_slot f = Some i ∧ fn_ino f = Some ino ∧ names s i name ∧
        sfd_ino (entry s i) = ino) ∨
     (r = ENOENT ∧ ∀ ino, ¬ dir_maps s name ino)) ∧
    (∀ i, fn_emptyslot f = Some i → 0 ≤ i < nent s ∧ sfd_ino (entry s i) = 0)).
Proof.
  intros Hd. eapply swp_mono; [by apply sfs_dir_findname_wp|].
  intros [r f] s' (Heq & Hf & ->). pose proof (found_maps s name f Hf) as Hm.
  destruct Hf as [Hs He]. split_and!; [done| |].
  - destruct (fn_slot f) as [i|].
    + destruct Hs as (-> & Hino & _ & Hn). left. split; [done|]. by eexists i, _.
    + destruct Hs as (Hf & _ & _). rewrite Hf in *. right. split; [done|].
      intros ino Hmap. assert (false = true); [|done]. apply Hm. by exists ino.
  - intros i Hi. rewrite Hi in He. done.
Qed.

(** Linking and unlinking.  A directory stays a map from names to inode
    numbers under [sfs_dir_link] and [sfs_dir_unlink]: a successful link adds
    exactly the new name, a name that is already there is refused with EEXIST
    and one of 60 bytes or more with ENAMETOOLONG, and a link that fails for
    lack of space leaves the map as it was; unlinking the slot of a name
    never fails and removes exactly that name.  No block in use by anything
    else is touched. *)
Theorem sfs_dir_link_unlink {D} `{!BlockDev D} `{!Disk D} {cs : CurSpace} (s : fstate D)
    name ino slot name' :
  dir_ok s → name_ok name → 0 < ino < 4294967296 → names s slot name' →
  swp (sfs_dir_link name ino) s (λ '(r, sl) s', dir_link_post s name ino r sl s') ∧
  swp (sfs_dir_unlink slot) s (λ r s',
    dir_ok s' ∧ frame s s' ∧ same_file s s' ∧
    r = 0 ∧ ∀ nm i, dir_maps s' nm i ↔ nm ≠ name' ∧ dir_maps s nm i).
Proof.
  intros Hd Hn Hi Hs. split; [by apply sfs_dir_link_wp|by apply sfs_dir_unlink_wp].
Qed.

