(* ===== verification/SfsVnode.v ===== *)
(** * kern/fs/sfs/sfs_vnode.c: vnodes, and the operations that need several

    The state is the filesystem, the vnodes in memory by their addresses, and
    the answers the allocator will give ([true] when it returns memory; none
    left means out of memory).  Reading or writing a vnode that has been freed
    is undefined.  The operations of SfsIo and SfsDir, which work on one file,
    run on the vnode at an address through [with_file]. *)

From S2P Require Import Prelude Array Bitmap Copyinout Uio SfsDisk Dev Vnode SfsIo SfsDir.

Section vnodes.
Context {D : Type} `{!BlockDev D} {cs : CurSpace}.

Record world := mkW {
  w_fs : sfs_fs D;
  w_heap : gmap Z sfs_vnode;
  w_next : Z;
  w_mem : list bool;
}.

(** ** Access to the state *)

Definition w_kmalloc : stm world bool := λ w,
  match w_mem w with
  | [] => Done (false, w)
  | b :: mem => Done (b, mkW (w_fs w) (w_heap w) (w_next w) mem)
  end.

Definition w_get (p : Z) : stm world sfs_vnode := λ w,
  match w_heap w !! p with Some sv => Done (sv, w) | None => Undef end.

Definition w_put (p : Z) (sv : sfs_vnode) : stm world unit := λ w,
  match w_heap w !! p with
  | Some _ => Done (tt, mkW (w_fs w) (<[p := sv]> (w_heap w)) (w_next w) (w_mem w))
  | None => Undef
  end.

(** Memory for a new vnode, at an address of its own, and its release. *)
Definition w_new (sv : sfs_vnode) : stm world Z := λ w,
  Done (w_next w, mkW (w_fs w) (<[w_next w := sv]> (w_heap w)) (w_next w + 1) (w_mem w)).
Definition w_kfree (p : Z) : stm world unit := λ w,
  match w_heap w !! p with
  | Some _ => Done (tt, mkW (w_fs w) (delete p (w_heap w)) (w_next w) (w_mem w))
  | None => Undef
  end.

Definition w_on_fs {A} (m : stm (sfs_fs D) A) : stm world A := λ w,
  '(a, fs) ← m (w_fs w); Done (a, mkW fs (w_heap w) (w_next w) (w_mem w)).

Definition w_set_vnodes (a : array Z) : stm world unit :=
  w_on_fs (modify (λ fs, mkFs (sfs_super_of fs) (sfs_superdirty fs) (sfs_device fs) a
    (sfs_freemap fs) (sfs_freemapdirty fs))).

Definition with_file {A} (p : Z) (m : stm (fstate D) A) : stm world A :=
  sv ← w_get p;
  fs ← gets w_fs;
  '(a, s) ← lift (m (mkF fs sv));
  w_on_fs (modify (λ _, f_fs s));;
  w_put p (f_sv s);;
  mret a.

Definition w_getv (p : Z) : stm world (vnode sfs_ops) :=
  sv ← w_get p; mret (sv_v sv).
Definition w_putv (p : Z) (v : vnode sfs_ops) : stm world unit :=
  sv ← w_get p; w_put p (mkSv v (sv_i sv) (sv_ino sv) (sv_dirty sv)).

(** [sv->sv_i.sfi_linkcount += d] and whether that marks the inode dirty. *)
Definition w_addlink (p d : Z) (dirty : bool) : stm world unit :=
  sv ← w_get p;
  let i := sv_i sv in
  w_put p (mkSv (sv_v sv)
    (mkInode (sfi_size i) (sfi_type i) (u16 (sfi_linkcount i + d)) (sfi_direct i)
      (sfi_indirect i) (sfi_waste i))
    (sv_ino sv) (sv_dirty sv || dirty)).

Definition sfs_notdir : Z := ENOTDIR.
Definition sfs_isdir : Z := EISDIR.
Definition sfs_unimp : Z := EUNIMP.

(** The entries of the function tables for two operations that functions of
    SFS itself call through the vnode. *)
Definition sfs_vop_fsync (p : Z) (ops : sfs_ops) : stm world Z :=
  match ops with SfsFileOps | SfsDirOps => with_file p sfs_fsync end.
Definition sfs_vop_truncate (p len : Z) (ops : sfs_ops) : stm world Z :=
  match ops with
  | SfsFileOps => with_file p (sfs_truncate len)
  | SfsDirOps => mret sfs_isdir
  end.

(** ** Closing and reclaiming *)

Definition sfs_close (p : Z) : stm world Z :=
  VOP (w_getv p) false (sfs_vop_fsync p).

(** The search for the vnode in the table; -1 when it is not there. *)
Definition sfs_find_vnode (p : Z) : stm world Z :=
  vnodes ← gets (λ w, sfs_vnodes (w_fs w));
  r ← for_stm (Z.to_nat (array_getnum vnodes)) 0
    (λ i _,
       sv2 ← lift (array_getguy vnodes i);
       mret (if sv2 =? p then inr i else inl tt)) tt;
  mret (match r with inl _ => -1 | inr ix => ix end).

(** The end of [sfs_reclaim]: the vnode leaves the table and its memory is
    released. *)
Definition sfs_drop_vnode (p : Z) : stm world Z :=
  ix ← sfs_find_vnode p;
  if ix <? 0 then lift Panic else
  vnodes ← gets (λ w, sfs_vnodes (w_fs w));
  vnodes' ← lift (array_remove vnodes ix);
  w_set_vnodes vnodes';;
  v ← w_getv p;
  v' ← lift (vnode_kill v);
  w_putv p v';;
  w_kfree p;;
  mret 0.

Definition sfs_reclaim (p : Z) : stm world Z :=
  v ← w_getv p;
  if negb (vn_refcount v =? 1) then
    lift (kassert (vn_refcount v >? 1));;
    w_putv p (mkVnode (vn_refcount v - 1) (vn_opencount v) (vn_countlock v) (vn_ops v));;
    mret EBUSY
  else
  sv ← w_get p;
  result ←
    (if sfi_linkcount (sv_i sv) =? 0
     then VOP (w_getv p) false (sfs_vop_truncate p 0) else mret 0);
  if negb (result =? 0) then mret result else
  result ← with_file p sfs_sync_inode;
  if negb (result =? 0) then mret result else
  sv ← w_get p;
  (if sfi_linkcount (sv_i sv) =? 0 then w_on_fs (sfs_bfree (sv_ino sv)) else mret tt);;
  sfs_drop_vnode p.

Definition sfs_decref (p : Z) : stm world unit :=
  vnode_decref (w_getv p) (w_putv p) (λ _, sfs_reclaim p).

Definition sfs_incref (p : Z) : stm world unit :=
  v ← w_getv p; v' ← lift (vnode_incref v); w_putv p v'.

(** ** Loading *)

(** The search in the table of loaded vnodes. *)
Definition sfs_find_loaded (ino forcetype : Z) : stm world (option Z) :=
  vnodes ← gets (λ w, sfs_vnodes (w_fs w));
  r ← for_stm (Z.to_nat (array_getnum vnodes)) 0
    (λ i _,
       p ← lift (array_getguy vnodes i);
       sv ← w_get p;
       used ← w_on_fs (sfs_bused (sv_ino sv));
       if negb used then lift Panic else
       if sv_ino sv =? ino then
         lift (kassert (forcetype =? SFS_TYPE_INVAL));;
         sfs_incref p;;
         mret (inr p)
       else mret (inl tt)) tt;
  mret (match r with inl _ => None | inr p => Some p end).

(** The last part of [sfs_loadvnode]: a vnode for the inode that has been
    read is set up and added to the table. *)
Definition sfs_addvnode (ino : Z) (i : sfs_inode) (dirty : bool) (ops : sfs_ops)
    : stm world (Z * Z) :=
  mem ← w_kmalloc;
  let '(result, v) := vnode_init mem ops in
  if negb (result =? 0) then mret (result, 0) else
  p ← w_new (mkSv v i ino dirty);
  vnodes ← gets (λ w, sfs_vnodes (w_fs w));
  mem ← w_kmalloc;
  '(result, vnodes') ← lift (array_add mem vnodes p);
  w_set_vnodes vnodes';;
  if negb (result =? 0) then
    v' ← lift (vnode_kill v);
    w_putv p v';;
    w_kfree p;;
    mret (result, 0)
  else mret (0, p).

Definition sfs_loadvnode (ino forcetype : Z) : stm world (Z * Z) :=
  found ← sfs_find_loaded ino forcetype;
  match found with
  | Some p => mret (0, p)
  | None =>
      mem ← w_kmalloc;
      if negb mem then mret (ENOMEM, 0) else
      used ← w_on_fs (sfs_bused ino);
      if negb used then lift Panic else
      '(result, data) ← w_on_fs (sfs_rblock zero_block ino);
      if negb (result =? 0) then mret (result, 0) else
      let i := decode_inode data in
      '(i, dirty) ←
        (if negb (forcetype =? SFS_TYPE_INVAL) then
           lift (kassert (sfi_type i =? SFS_TYPE_INVAL));;
           mret (mkInode (sfi_size i) (u16 forcetype) (sfi_linkcount i) (sfi_direct i)
                   (sfi_indirect i) (sfi_waste i), true)
         else mret (i, false));
      ops ←
        (if sfi_type i =? SFS_TYPE_FILE then mret SfsFileOps else
         if sfi_type i =? SFS_TYPE_DIR then mret SfsDirOps else lift Panic);
      sfs_addvnode ino i dirty ops
  end.

Definition sfs_getroot : stm world Z :=
  '(result, p) ← sfs_loadvnode SFS_ROOT_LOCATION SFS_TYPE_INVAL;
  if negb (result =? 0) then lift Panic else mret p.

(** ** Names and files *)

(** The result, the vnode and the slot of its entry. *)
Definition sfs_lookonce (p : Z) (name : list Z) : stm world (Z * Z * Z) :=
  '(result, f) ← with_file p (sfs_dir_findname name);
  if negb (result =? 0) then mret (result, 0, 0) else
  ino ← lift (match fn_ino f with Some ino => Done ino | None => Undef end);
  slot ← lift (match fn_slot f with Some slot => Done slot | None => Undef end);
  '(result, p') ← sfs_loadvnode ino SFS_TYPE_INVAL;
  if negb (result =? 0) then mret (result, 0, 0) else
  sv ← w_get p';
  if sfi_linkcount (sv_i sv) =? 0 then lift Panic else mret (0, p', slot).

Definition sfs_makeobj (type : Z) : stm world (Z * Z) :=
  '(result, ino) ← w_on_fs sfs_balloc;
  if negb (result =? 0) then mret (result, 0) else
  sfs_loadvnode ino type.

Definition sfs_creat (p : Z) (name : list Z) (excl : bool) : stm world (Z * Z) :=
  '(result, f) ← with_file p (sfs_dir_findname name);
  if negb (result =? 0) && negb (result =? ENOENT) then mret (result, 0) else
  if (result =? 0) && excl then mret (EEXIST, 0) else
  if result =? 0 then
    ino ← lift (match fn_ino f with Some ino => Done ino | None => Undef end);
    '(result, newguy) ← sfs_loadvnode ino SFS_TYPE_INVAL;
    if negb (result =? 0) then mret (result, 0) else mret (0, newguy)
  else
  '(result, newguy) ← sfs_makeobj SFS_TYPE_FILE;
  if negb (result =? 0) then mret (result, 0) else
  sv ← w_get newguy;
  '(result, _) ← with_file p (sfs_dir_link name (sv_ino sv));
  if negb (result =? 0) then
    sfs_decref newguy;;
    mret (result, 0)
  else
    w_addlink newguy 1 true;;
    mret (0, newguy).

(** The assertion that both vnodes are of the same filesystem holds of all
    vnodes of one [world]. *)
Definition sfs_link (p : Z) (name : list Z) (f : Z) : stm world Z :=
  sv ← w_get f;
  '(result, _) ← with_file p (sfs_dir_link name (sv_ino sv));
  if negb (result =? 0) then mret result else
  w_addlink f 1 true;;
  mret 0.

Definition sfs_remove (p : Z) (name : list Z) : stm world Z :=
  '(result, victim, slot) ← sfs_lookonce p name;
  if negb (result =? 0) then mret result else
  result ← with_file p (sfs_dir_unlink slot);
  (if result =? 0 then
     sv ← w_get victim;
     lift (kassert (sfi_linkcount (sv_i sv) >? 0));;
     w_addlink victim (-1) true
   else mret tt);;
  sfs_decref victim;;
  mret result.

Definition sfs_rename (d1 : Z) (n1 : list Z) (d2 : Z) (n2 : list Z) : stm world Z :=
  lift (kassert (d1 =? d2));;
  sv ← w_get d1;
  lift (kassert (sv_ino sv =? SFS_ROOT_LOCATION));;
  '(result, g1, slot1) ← sfs_lookonce d1 n1;
  if negb (result =? 0) then mret result else
  sv1 ← w_get g1;
  lift (kassert (sfi_type (sv_i sv1) =? SFS_TYPE_FILE));;
  '(result, slot2) ← with_file d1 (sfs_dir_link n2 (sv_ino sv1));
  if negb (result =? 0) then
    sfs_decref g1;;
    mret result
  else
  w_addlink g1 1 true;;
  result ← with_file d1 (sfs_dir_unlink slot1);
  if negb (result =? 0) then
    result2 ← with_file d1 (sfs_dir_unlink slot2);
    if negb (result2 =? 0) then lift Panic else
    w_addlink g1 (-1) false;;
    sfs_decref g1;;
    mret result
  else
  sv1 ← w_get g1;
  lift (kassert (sfi_linkcount (sv_i sv1) >? 0));;
  w_addlink g1 (-1) true;;
  sfs_decref g1;;
  mret 0.

(** The result, the directory and the last component. *)
Definition sfs_lookparent (p : Z) (path : list Z) (buflen : Z) : stm world (Z * Z * list Z) :=
  sv ← w_get p;
  if negb (sfi_type (sv_i sv) =? SFS_TYPE_DIR) then mret (ENOTDIR, 0, []) else
  if u32 (Z.of_nat (length path) + 1) >? buflen then mret (ENAMETOOLONG, 0, []) else
  sfs_incref p;;
  mret (0, p, path).

Definition sfs_lookup (p : Z) (path : list Z) : stm world (Z * Z) :=
  sv ← w_get p;
  if negb (sfi_type (sv_i sv) =? SFS_TYPE_DIR) then mret (ENOTDIR, 0) else
  '(result, final, _) ← sfs_lookonce p path;
  if negb (result =? 0) then mret (result, 0) else mret (0, final).

(** ** The function tables *)

Definition sfs_fileops : vnode_ops world := {|
  vop_open p flags := with_file p (sfs_open flags);
  vop_close := sfs_close;
  vop_reclaim := sfs_reclaim;
  vop_read p u := with_file p (sfs_read u);
  vop_readlink _ u := mret (sfs_notdir, u);
  vop_getdirentry _ u := mret (sfs_notdir, u);
  vop_write p u := with_file p (sfs_write u);
  vop_ioctl p op data := with_file p (sfs_ioctl op data);
  vop_stat p := with_file p sfs_stat;
  vop_gettype p := with_file p sfs_gettype;
  vop_tryseek p pos := with_file p (sfs_tryseek pos);
  vop_fsync p := with_file p sfs_fsync;
  vop_mmap p := with_file p sfs_mmap;
  vop_truncate p len := with_file p (sfs_truncate len);
  vop_namefile _ u := mret (sfs_notdir, u);
  vop_creat _ _ _ := mret (sfs_notdir, 0);
  vop_symlink _ _ _ := mret sfs_notdir;
  vop_mkdir _ _ := mret sfs_notdir;
  vop_link _ _ _ := mret sfs_notdir;
  vop_remove _ _ := mret sfs_notdir;
  vop_rmdir _ _ := mret sfs_notdir;
  vop_rename _ _ _ _ := mret sfs_notdir;
  vop_lookup _ _ := mret (sfs_notdir, 0);
  vop_lookparent _ _ _ := mret (sfs_notdir, 0, []);
|}.

Definition sfs_dirops : vnode_ops world := {|
  vop_open p flags := with_file p (sfs_opendir flags);
  vop_close := sfs_close;
  vop_reclaim := sfs_reclaim;
  vop_read _ u := mret (sfs_isdir, u);
  vop_readlink _ u := mret (sfs_isdir, u);
  vop_getdirentry _ u := mret (sfs_unimp, u);
  vop_write _ u := mret (sfs_isdir, u);
  vop_ioctl p op data := with_file p (sfs_ioctl op data);
  vop_stat p := with_file p sfs_stat;
  vop_gettype p := with_file p sfs_gettype;
  vop_tryseek _ _ := mret sfs_unimp;
  vop_fsync p := with_file p sfs_fsync;
  vop_mmap _ := mret sfs_isdir;
  vop_truncate _ _ := mret sfs_isdir;
  vop_namefile p u := with_file p (sfs_namefile u);
  vop_creat := sfs_creat;
  vop_symlink _ _ _ := mret sfs_unimp;
  vop_mkdir _ _ := mret sfs_unimp;
  vop_link := sfs_link;
  vop_remove := sfs_remove;
  vop_rmdir _ _ := mret sfs_unimp;
  vop_rename := sfs_rename;
  vop_lookup := sfs_lookup;
  vop_lookparent := sfs_lookparent;
|}.

Definition sfs_table (ops : sfs_ops) : vnode_ops world :=
  match ops with SfsFileOps => sfs_fileops | SfsDirOps => sfs_dirops end.

(** [VOP_X(vn, ...)] on a vnode of the filesystem: the checks, then the
    function of the vnode's own table. *)
Definition sfs_VOP {A} (p : Z) (op : vnode_ops world → stm world A) : stm world A :=
  VOP (w_getv p) false (λ ops, op (sfs_table ops)).
End vnodes.
Arguments world _ : clear implicits.
