(* ===== verification/SfsFs.v ===== *)
(** * kern/fs/sfs/sfs_fs.c: mounting, syncing and unmounting *)

From S2P Require Import Prelude Array Bitmap Copyinout Uio SfsDisk Dev Vnode SfsIo SfsFile Lhd SfsRw.
From S2P Require Import SfsDir SfsVnode.

Section fs.
Context {D : Type} `{!BlockDev D} {cs : CurSpace}.

Definition SFS_FS_BITMAPSIZE (fs : sfs_fs D) : Z := SFS_BITMAPSIZE (sp_nblocks (sfs_super_of fs)).
Definition SFS_FS_BITBLOCKS (fs : sfs_fs D) : Z := SFS_BITBLOCKS (sp_nblocks (sfs_super_of fs)).

(** The 512 bytes at [pos] of a buffer, and storing them back. *)
Definition get_sector (data : list Z) (pos : Z) : outcome (list Z) :=
  if (0 <=? pos) && (pos + 512 <=? Z.of_nat (length data))
  then Done (slice data pos 512) else Undef.

Definition set_mapdata (v : list Z) (fs : sfs_fs D) : sfs_fs D :=
  mkFs (sfs_super_of fs) (sfs_superdirty fs) (sfs_device fs) (sfs_vnodes fs)
    (mkBitmap (bm_nbits (sfs_freemap fs)) v) (sfs_freemapdirty fs).

Definition sfs_mapio (rw : uio_rw) : stm (sfs_fs D) Z :=
  fs ← gets id;
  let mapsize := SFS_FS_BITBLOCKS fs in
  r ← for_stm (Z.to_nat mapsize) 0
    (λ j _,
       bitdata ← gets (λ fs, bitmap_getdata (sfs_freemap fs));
       let pos := u32 (j * SFS_BLOCKSIZE) in
       sec ← lift (get_sector bitdata pos);
       result ←
         match rw with
         | UIO_READ =>
             '(result, sec') ← sfs_rblock sec (u32 (SFS_MAP_LOCATION + j));
             modify (set_mapdata (buf_write bitdata pos sec'));;
             mret result
         | UIO_WRITE => sfs_wblock sec (u32 (SFS_MAP_LOCATION + j))
         end;
       mret (if negb (result =? 0) then inr result else inl tt)) tt;
  mret (match r with inl _ => 0 | inr result => result end).

Definition set_freemapdirty (b : bool) (fs : sfs_fs D) : sfs_fs D :=
  mkFs (sfs_super_of fs) (sfs_superdirty fs) (sfs_device fs) (sfs_vnodes fs) (sfs_freemap fs) b.
Definition set_superdirty (b : bool) (fs : sfs_fs D) : sfs_fs D :=
  mkFs (sfs_super_of fs) b (sfs_device fs) (sfs_vnodes fs) (sfs_freemap fs) (sfs_freemapdirty fs).

(** The loop over the loaded vnodes; what [VOP_FSYNC] answers is ignored. *)
Definition sfs_sync_vnodes : stm (world D) unit :=
  vnodes ← gets (λ w, sfs_vnodes (w_fs w));
  _ ← for_stm (R := unit) (Z.to_nat (array_getnum vnodes)) 0
    (λ i _,
       p ← lift (array_getguy vnodes i);
       _ ← VOP (w_getv p) false (sfs_vop_fsync p);
       mret (inl tt)) tt;
  mret tt.

(** The part of [sfs_sync] after it. *)
Definition sfs_sync_map : stm (sfs_fs D) Z :=
  fs ← gets id;
  result ←
    (if sfs_freemapdirty fs then
       result ← sfs_mapio UIO_WRITE;
       if negb (result =? 0) then mret result else
       modify (set_freemapdirty false);; mret 0
     else mret 0);
  if negb (result =? 0) then mret result else
  if sfs_superdirty fs then
    result ← sfs_wblock (encode_super (sfs_super_of fs)) SFS_SB_LOCATION;
    if negb (result =? 0) then mret result else
    modify (set_superdirty false);; mret 0
  else mret 0.

Definition sfs_sync : stm (world D) Z :=
  sfs_sync_vnodes;; w_on_fs sfs_sync_map.

Definition sfs_getvolname (fs : sfs_fs D) : list Z := cstring (sp_volname (sfs_super_of fs)).

(** The filesystem object is freed at the end. *)
Definition sfs_unmount (fs : sfs_fs D) : outcome Z :=
  if array_getnum (sfs_vnodes fs) >? 0 then Done EBUSY else
  kassert (negb (sfs_superdirty fs));;
  kassert (negb (sfs_freemapdirty fs));;
  Done 0.

(** [sizeof] of the three structures. *)
Definition sizeof_super : Z := 4 + 4 + SFS_VOLNAME_SIZE + 118 * 4.
Definition sizeof_inode : Z := 4 + 2 + 2 + SFS_NDIRECT * 4 + 4 + (128 - 3 - SFS_NDIRECT) * 4.
Definition sizeof_dir : Z := 4 + SFS_NAMELEN.

(** The fields the code has not set yet hold [garbage]; [mem1] to [mem4] are
    the answers of the allocator.  The result, the filesystem, and the device,
    which a failed mount leaves behind too. *)
Definition sfs_domount (mem1 mem2 mem3 mem4 : bool) (garbage : sfs_super) (dev : D)
    : outcome (Z * option (sfs_fs D) * D) :=
  kassert (sizeof_super =? SFS_BLOCKSIZE);;
  kassert (sizeof_inode =? SFS_BLOCKSIZE);;
  kassert (SFS_BLOCKSIZE mod sizeof_dir =? 0);;
  if negb (d_blocksize dev =? SFS_BLOCKSIZE) then Done (ENXIO, None, dev) else
  if negb mem1 then Done (ENOMEM, None, dev) else
  match array_create mem2 with
  | None => Done (ENOMEM, None, dev)
  | Some vnodes =>
      let fs := mkFs garbage true dev vnodes (mkBitmap 0 []) true in
      '(result, data, fs) ← sfs_rblock zero_block SFS_SB_LOCATION fs;
      if negb (result =? 0) then Done (result, None, sfs_device fs) else
      let sp := decode_super data in
      if negb (sp_magic sp =? SFS_MAGIC) then Done (EINVAL, None, sfs_device fs) else
      let sp := mkSuper (sp_magic sp) (sp_nblocks sp) (<[31%nat := 0]> (sp_volname sp))
                  (sp_reserved sp) in
      freemap ← bitmap_create mem3 mem4 (SFS_BITMAPSIZE (sp_nblocks sp));
      match freemap with
      | None => Done (ENOMEM, None, sfs_device fs)
      | Some bm =>
          '(result, fs) ← sfs_mapio UIO_READ (mkFs sp true (sfs_device fs) vnodes bm true);
          if negb (result =? 0) then Done (result, None, sfs_device fs) else
          Done (0, Some (set_freemapdirty false (set_superdirty false fs)), sfs_device fs)
      end
  end.
End fs.

(** ** What is on the disk *)

Section mount.
Context {D : Type} `{!BlockDev D} `{!Disk D} {cs : CurSpace}.
Implicit Types (fs : sfs_fs D).

Definition super_on_disk fs : Prop := sect (dsk fs) SFS_SB_LOCATION = encode_super (sfs_super_of fs).

Definition map_on_disk fs : Prop :=
  ∀ j, 0 ≤ j < SFS_FS_BITBLOCKS fs →
    sect (dsk fs) (SFS_MAP_LOCATION + j) = slice (bm_v (sfs_freemap fs)) (j * 512) 512.

(** A mounted filesystem: the free map has the size that goes with the
    superblock and fits on the device, and what is not marked dirty is on the
    disk. *)
Definition mounted fs : Prop :=
  d_ok (sfs_device fs) ∧ super_wf (sfs_super_of fs) ∧
  sp_magic (sfs_super_of fs) = SFS_MAGIC ∧ sp_volname (sfs_super_of fs) !! 31%nat = Some 0 ∧
  nblk fs ≤ d_blocks (sfs_device fs) ∧
  SFS_MAP_LOCATION + SFS_FS_BITBLOCKS fs ≤ d_blocks (sfs_device fs) ∧
  bm_nbits (sfs_freemap fs) = SFS_FS_BITMAPSIZE fs ∧ bitmap_wf (sfs_freemap fs) ∧
  (sfs_superdirty fs = false → super_on_disk fs) ∧
  (sfs_freemapdirty fs = false → map_on_disk fs).

Lemma bitblocks_eq n :
  0 ≤ n ≤ 4194303 →
  SFS_BITBLOCKS n = (n + 4095) / 4096 ∧ SFS_BITMAPSIZE n = (n + 4095) / 4096 * 4096.
Proof.
  intros Hn. unfold SFS_BITBLOCKS, SFS_BITMAPSIZE, SFS_ROUNDUP, SFS_BLOCKBITS, SFS_BLOCKSIZE.
  replace (n + 512 * 8 - 1) with (n + 4095) by lia. change (512 * 8) with 4096.
  rewrite (u32_small (n + 4095)) by lia. rewrite u32_small by dlia. by rewrite Z.div_mul by lia.
Qed.

Lemma get_sector_eq data pos :
  0 ≤ pos → pos + 512 ≤ Z.of_nat (length data) → get_sector data pos = Done (slice data pos 512).
Proof.
  intros. unfold get_sector. rewrite (proj2 (Z.leb_le _ _)), (proj2 (Z.leb_le _ _)) by lia. done.
Qed.

Lemma slice_sector_ok data pos :
  Forall is_byte data → 0 ≤ pos → pos + 512 ≤ Z.of_nat (length data) →
  sector_ok (slice data pos 512).
Proof.
  intros Hb Hp Hl. split; [|by apply Forall_slice].
  pose proof (length_slice data pos 512 Hp ltac:(lia) Hl). lia.
Qed.

Lemma slice_buf_write_eq b pos s :
  0 ≤ pos → length s = 512%nat → pos + 512 ≤ Z.of_nat (length b) →
  slice (buf_write b pos s) pos 512 = s.
Proof.
  intros Hp Hs Hl. apply list_eq. intros k. destruct (decide (k < 512)%nat).
  - rewrite slice_lookup by lia. replace (Z.to_nat pos + k)%nat with (Z.to_nat (pos + Z.of_nat k)) by lia.
    rewrite buf_write_lookup by lia. rewrite decide_True by lia. f_equal. lia.
  - pose proof (length_slice (buf_write b pos s) pos 512) as H. rewrite length_buf_write in H by lia.
    rewrite !lookup_ge_None_2 by lia. done.
Qed.

Lemma slice_buf_write_ne b pos s q :
  0 ≤ pos → length s = 512%nat → pos + 512 ≤ Z.of_nat (length b) → 0 ≤ q → q + 512 ≤ pos →
  slice (buf_write b pos s) q 512 = slice b q 512.
Proof.
  intros Hp Hs Hl Hq Hqp. apply list_eq. intros k. destruct (decide (k < 512)%nat).
  - rewrite !slice_lookup by lia. replace (Z.to_nat q + k)%nat with (Z.to_nat (q + Z.of_nat k)) by lia.
    rewrite buf_write_lookup by lia. by rewrite decide_False by lia.
  - pose proof (length_slice (buf_write b pos s) q 512) as H. rewrite length_buf_write in H by lia.
    pose proof (length_slice b q 512). rewrite !lookup_ge_None_2 by lia. done.
Qed.

(** Two buffers of whole sectors that agree on each sector are equal. *)
Lemma sectors_eq n (v v' : list Z) :
  Z.of_nat (length v) = n * 512 → Z.of_nat (length v') = n * 512 →
  (∀ j, 0 ≤ j < n → slice v (j * 512) 512 = slice v' (j * 512) 512) → v = v'.
Proof.
  intros Hv Hv' Hs. apply list_eq. intros k. destruct (decide (Z.of_nat k < n * 512)).
  - assert (k = (Z.to_nat (Z.of_nat k / 512 * 512) + Z.to_nat (Z.of_nat k mod 512))%nat) as Hk by dlia.
    pose proof (Hs (Z.of_nat k / 512) ltac:(dlia)) as Hj.
    rewrite Hk, <-!(slice_lookup _ _ 512) by dlia. by rewrite Hj.
  - rewrite !lookup_ge_None_2 by lia. done.
Qed.

(** The shape of the free map that [sfs_mapio] relies on. *)
Definition map_fits fs : Prop :=
  d_ok (sfs_device fs) ∧ 0 ≤ nblk fs ≤ 4194303 ∧
  SFS_MAP_LOCATION + SFS_FS_BITBLOCKS fs ≤ d_blocks (sfs_device fs) ∧
  Z.of_nat (length (bm_v (sfs_freemap fs))) = SFS_FS_BITBLOCKS fs * 512.

Lemma map_fits_blocks fs : map_fits fs → 0 ≤ SFS_FS_BITBLOCKS fs ≤ 1024.
Proof. intros (_ & Hn & _). unfold SFS_FS_BITBLOCKS. fold (nblk fs). rewrite (proj1 (bitblocks_eq _ Hn)). dlia. Qed.

Lemma sfs_mapio_write_wp fs :
  map_fits fs → Forall is_byte (bm_v (sfs_freemap fs)) →
  swp (sfs_mapio UIO_WRITE) fs (λ r fs', r = 0 ∧ ∃ d', fs' = set_device d' fs ∧
    d_ok d' ∧ d_blocks d' = d_blocks (sfs_device fs) ∧
    ∀ b, 0 ≤ b → sect (d_data d') b =
      if decide (2 ≤ b < 2 + SFS_FS_BITBLOCKS fs)
      then slice (bm_v (sfs_freemap fs)) ((b - 2) * 512) 512 else sect (dsk fs) b).
Proof.
  intros Hfit Hby. pose proof (map_fits_blocks _ Hfit) as Hbb.
  destruct Hfit as (Hd & _ & Hdev & Hlen). unfold SFS_MAP_LOCATION in *.
  unfold sfs_mapio. apply swp_bind, swp_gets. cbv zeta. unfold id at 1. apply swp_bind. eapply swp_mono.
  { apply (swp_for_stm (R := Z) (λ j _ fs', ∃ d', fs' = set_device d' fs ∧
      d_ok d' ∧ d_blocks d' = d_blocks (sfs_device fs) ∧
      ∀ b, 0 ≤ b → sect (d_data d') b =
        if decide (2 ≤ b < 2 + j) then slice (bm_v (sfs_freemap fs)) ((b - 2) * 512) 512
        else sect (dsk fs) b) (λ _ _, False)).
    { exists (sfs_device fs). split_and!; try done; [by destruct fs|].
      intros b Hb. by rewrite decide_False by lia. }
    intros j [] fs1 Hj (d1 & -> & Hd1 & Hn1 & Hs1). apply swp_bind, swp_gets. cbn [sfs_freemap set_device].
    unfold bitmap_getdata, SFS_BLOCKSIZE, SFS_MAP_LOCATION. rewrite !u32_small by lia. apply swp_bind, swp_lift.
    rewrite get_sector_eq by lia. simpl wp. apply swp_bind. eapply swp_mono.
    { apply sfs_wblock_dev; [done|cbn; lia|apply slice_sector_ok; [done|lia..]]. }
    intros r fs2 (-> & d2 & -> & Hd2 & Hdat2 & Hn2). apply swp_ret. cbn [Z.eqb negb].
    exists d2. split_and!; [done|done|by rewrite Hn2|]. destruct (d_ok_size _ Hd1) as (Hlen1 & _).
    intros b Hb. rewrite Hdat2. cbn [sfs_device set_device dsk]. destruct (decide (b = 2 + j)) as [->|Hne].
    - rewrite sect_insert_eq by (unfold dsk; cbn; lia). rewrite decide_True by lia. f_equal. lia.
    - rewrite sect_insert_ne by lia. unfold dsk at 1. cbn. rewrite Hs1 by done.
      repeat case_decide; try lia; done. }
  intros [[]|] fs' H; [|done]. apply swp_ret. split; [done|].
  destruct H as (d' & -> & ? & ? & Hs). exists d'. split_and!; try done.
  intros b Hb. rewrite Hs by done. by replace (0 + Z.of_nat (Z.to_nat (SFS_FS_BITBLOCKS fs))) with (SFS_FS_BITBLOCKS fs) by lia.
Qed.

Lemma sfs_mapio_read_wp fs :
  map_fits fs →
  swp (sfs_mapio UIO_READ) fs (λ r fs', r = 0 ∧ ∃ d' v, fs' = set_device d' (set_mapdata v fs) ∧
    dev_upd (sfs_device fs) d' (dsk fs) ∧
    Z.of_nat (length v) = SFS_FS_BITBLOCKS fs * 512 ∧
    (Forall is_byte (bm_v (sfs_freemap fs)) → Forall is_byte v) ∧
    ∀ j, 0 ≤ j < SFS_FS_BITBLOCKS fs → slice v (j * 512) 512 = sect (dsk fs) (2 + j)).
Proof.
  intros Hfit. pose proof (map_fits_blocks _ Hfit) as Hbb.
  destruct Hfit as (Hd & _ & Hdev & Hlen). unfold SFS_MAP_LOCATION in *.
  unfold sfs_mapio. apply swp_bind, swp_gets. cbv zeta. unfold id at 1. apply swp_bind. eapply swp_mono.
  { apply (swp_for_stm (R := Z) (λ j _ fs', ∃ d' v, fs' = set_device d' (set_mapdata v fs) ∧
      dev_upd (sfs_device fs) d' (dsk fs) ∧ Z.of_nat (length v) = SFS_FS_BITBLOCKS fs * 512 ∧
      (Forall is_byte (bm_v (sfs_freemap fs)) → Forall is_byte v) ∧
      ∀ k, 0 ≤ k < j → slice v (k * 512) 512 = sect (dsk fs) (2 + k)) (λ _ _, False)).
    { exists (sfs_device fs), (bm_v (sfs_freemap fs)). split_and!; try done; [by destruct fs as [???? [] ?]|lia]. }
    intros j [] fs1 Hj (d1 & v1 & -> & (Hd1 & Hdat1 & Hn1) & Hl1 & Hb1 & Hs1). apply swp_bind, swp_gets.
    cbn [sfs_freemap set_device set_mapdata bm_v bitmap_getdata].
    unfold SFS_BLOCKSIZE, SFS_MAP_LOCATION. rewrite !u32_small by lia. apply swp_bind, swp_lift.
    rewrite get_sector_eq by lia. simpl wp. pose proof (length_slice v1 (j * 512) 512 ltac:(lia) ltac:(lia) ltac:(lia)).
    apply swp_bind, swp_bind. eapply swp_mono.
    { apply sfs_rblock_dev; [done|cbn; lia|lia]. }
    intros [r sec] fs2 (-> & Hsec & [Hsl Hsb] & d2 & -> & Hd2 & Hdat2 & Hn2). apply swp_bind, swp_modify.
    apply swp_ret, swp_ret. cbn [Z.eqb negb]. unfold dsk in Hsec, Hdat2. cbn in Hsec, Hdat2, Hn2.
    exists d2, (buf_write v1 (j * 512) sec). split_and!; [done|unfold dev_upd; split_and!; [done|congruence..]| | |].
    - by rewrite length_buf_write by lia.
    - intros Hb. apply Forall_buf_write; [by apply Hb1|done].
    - intros k Hk. destruct (decide (k = j)) as [->|].
      + rewrite slice_buf_write_eq by lia. rewrite Hsec. by rewrite Hdat1.
      + rewrite slice_buf_write_ne by lia. apply Hs1. lia. }
  intros [[]|] fs' H; [|done]. apply swp_ret. split; [done|].
  destruct H as (d' & v & -> & ? & ? & ? & Hs). exists d', v. split_and!; try done.
  intros j Hj. apply Hs. lia.
Qed.

Lemma mounted_fits fs : mounted fs → map_fits fs ∧ Forall is_byte (bm_v (sfs_freemap fs)).
Proof.
  intros (Hd & (_ & Hw & _) & _ & _ & Hn & Hdev & Hnb & (_ & Hlen & Hby & _) & _).
  destruct (d_ok_size _ Hd) as (_ & Hmax & _). fold (nblk fs) in Hw. cbv beta in Hw.
  destruct (bitblocks_eq (nblk fs)) as [H1 H2]; [lia|]. split; [|done].
  split_and!; try done; [lia..|]. rewrite Hlen, Hnb. unfold SFS_FS_BITMAPSIZE, SFS_FS_BITBLOCKS.
  fold (nblk fs). rewrite H1, H2. dlia.
Qed.

(** Only the device of the filesystem has changed, and the flags. *)
Definition same_fs fs fs' : Prop :=
  sfs_super_of fs' = sfs_super_of fs ∧ sfs_vnodes fs' = sfs_vnodes fs ∧
  sfs_freemap fs' = sfs_freemap fs ∧
  d_ok (sfs_device fs') ∧ d_blocks (sfs_device fs') = d_blocks (sfs_device fs).

Lemma mounted_same fs fs' :
  mounted fs → same_fs fs fs' →
  (sfs_superdirty fs' = false → super_on_disk fs') →
  (sfs_freemapdirty fs' = false → map_on_disk fs') → mounted fs'.
Proof.
  intros (Hd & Hwf & Hm & Hv & Hn & Hdev & Hnb & Hbm & _ & _) (Hs & _ & Hf & Hd' & Hnd) H1 H2.
  unfold mounted, nblk, SFS_FS_BITBLOCKS, SFS_FS_BITMAPSIZE in *. rewrite Hs, Hf, Hnd. done.
Qed.

(** The free map reaches the disk, and the superblock is left alone. *)
Lemma sync_freemap_wp fs :
  mounted fs →
  swp (result ← sfs_mapio UIO_WRITE;
       if negb (result =? 0) then mret result else modify (set_freemapdirty false);; mret 0) fs
    (λ r fs', r = 0 ∧ mounted fs' ∧ same_fs fs fs' ∧ sfs_freemapdirty fs' = false ∧
       sfs_superdirty fs' = sfs_superdirty fs ∧
       ∀ b, 0 ≤ b → ¬ 2 ≤ b < 2 + SFS_FS_BITBLOCKS fs → sect (dsk fs') b = sect (dsk fs) b).
Proof.
  intros Hm. destruct (mounted_fits _ Hm) as [Hfit Hby]. apply swp_bind.
  eapply swp_mono; [by apply sfs_mapio_write_wp|]. intros r fs' (-> & d' & -> & Hd' & Hnd & Hs).
  cbn [Z.eqb negb]. apply swp_bind, swp_modify, swp_ret.
  assert (same_fs fs (set_freemapdirty false (set_device d' fs))) as Hsame by done.
  split_and!; try done.
  - eapply mounted_same; [done..| |].
    + intros Hsd. unfold super_on_disk, dsk. cbn. rewrite Hs by done. rewrite decide_False by (unfold SFS_SB_LOCATION; lia).
      by destruct Hm as (_ & _ & _ & _ & _ & _ & _ & _ & H & _); apply H.
    + intros _ j Hj. unfold dsk, SFS_MAP_LOCATION. cbn. change (SFS_FS_BITBLOCKS _) with (SFS_FS_BITBLOCKS fs) in Hj.
      rewrite Hs by lia. rewrite decide_True by lia. f_equal. lia.
  - intros b Hb Hnot. unfold dsk. cbn. rewrite Hs by done. by rewrite decide_False.
Qed.

Lemma encode_super_ok sp : super_wf sp → sector_ok (encode_super sp).
Proof.
  intros Hwf. split; [by apply encode_super_length|]. destruct Hwf as (_ & _ & _ & Hv & _).
  unfold encode_super. apply Forall_app_2; [apply be32s_bytes|].
  apply Forall_app_2; [done|apply be32s_bytes].
Qed.

Lemma sync_super_wp fs :
  mounted fs → 0 < d_blocks (sfs_device fs) →
  swp (result ← sfs_wblock (encode_super (sfs_super_of fs)) SFS_SB_LOCATION;
       if negb (result =? 0) then mret result else modify (set_superdirty false);; mret 0) fs
    (λ r fs', r = 0 ∧ mounted fs' ∧ same_fs fs fs' ∧ sfs_superdirty fs' = false ∧
       sfs_freemapdirty fs' = sfs_freemapdirty fs ∧
       ∀ b, 0 < b → sect (dsk fs') b = sect (dsk fs) b).
Proof.
  intros Hm H0. pose proof Hm as (Hd & Hwf & _ & _ & _ & _ & _ & _ & _ & Hmap). apply swp_bind.
  eapply swp_mono; [apply sfs_wblock_dev; [done|unfold SFS_SB_LOCATION; lia|by apply encode_super_ok]|].
  intros r fs' (-> & d' & -> & Hd' & Hdat & Hnd). cbn [Z.eqb negb]. apply swp_bind, swp_modify, swp_ret.
  destruct (d_ok_size _ Hd) as (Hlen & _). unfold dsk in Hdat. unfold SFS_SB_LOCATION in Hdat.
  assert (∀ b, 0 < b → sect (d_data d') b = sect (dsk fs) b) as Hs.
  { intros b Hb. rewrite Hdat. apply sect_insert_ne; lia. }
  assert (same_fs fs (set_superdirty false (set_device d' fs))) as Hsame by done.
  split_and!; try done. eapply mounted_same; [done|done| |].
  - intros _. unfold super_on_disk, dsk, SFS_SB_LOCATION. cbn. rewrite Hdat.
    by rewrite sect_insert_eq by (unfold dsk; lia).
  - intros Hfd j Hj. unfold dsk, SFS_MAP_LOCATION. cbn. rewrite Hs by lia. by apply Hmap.
Qed.

Lemma sfs_sync_map_wp fs :
  mounted fs → 0 < d_blocks (sfs_device fs) →
  swp sfs_sync_map fs (λ r fs', r = 0 ∧ mounted fs' ∧ same_fs fs fs' ∧
    sfs_superdirty fs' = false ∧ sfs_freemapdirty fs' = false ∧
    ∀ b, 0 < b → ¬ 2 ≤ b < 2 + SFS_FS_BITBLOCKS fs → sect (dsk fs') b = sect (dsk fs) b).
Proof.
  intros Hm H0. unfold sfs_sync_map. apply swp_bind, swp_gets. unfold id. apply swp_bind.
  apply (swp_mono _ _ (λ r fs', r = 0 ∧ mounted fs' ∧ same_fs fs fs' ∧ sfs_freemapdirty fs' = false ∧
       sfs_superdirty fs' = sfs_superdirty fs ∧
       ∀ b, 0 ≤ b → ¬ 2 ≤ b < 2 + SFS_FS_BITBLOCKS fs → sect (dsk fs') b = sect (dsk fs) b)).
  { destruct (sfs_freemapdirty fs) eqn:E; [by apply sync_freemap_wp|]. apply swp_ret.
    split_and!; try done. by destruct Hm. }
  intros r fs1 (-> & Hm1 & (Hs1 & Hv1 & Hf1 & Hd1 & Hn1) & Hfd & Hsd & Hsec). cbn [Z.eqb negb].
  rewrite <-Hs1. destruct (sfs_superdirty fs) eqn:E.
  - eapply swp_mono; [apply sync_super_wp; [done|lia]|].
    intros r fs2 (-> & Hm2 & (Hs2 & Hv2 & Hf2 & Hd2 & Hn2) & Hsd2 & Hfd2 & Hsec2).
    split_and!; try done; [unfold same_fs; split_and!; congruence|congruence|].
    intros b Hb Hnot. rewrite Hsec2 by done. apply Hsec; [lia|done].
  - apply swp_ret. split_and!; try done. intros b Hb Hnot. apply Hsec; [lia|done].
Qed.

(** The superblock as mounted: the volume name is terminated. *)
Definition terminate (sp : sfs_super) : sfs_super :=
  mkSuper (sp_magic sp) (sp_nblocks sp) (<[31%nat := 0]> (sp_volname sp)) (sp_reserved sp).

Lemma terminate_wf sp : super_wf sp → super_wf (terminate sp).
Proof.
  intros (? & ? & Hl & Hb & ? & ?). unfold super_wf, terminate.
  cbn [sp_magic sp_nblocks sp_volname sp_reserved]. rewrite length_insert.
  split_and!; try done; try lia. apply Forall_insert; [done|lia].
Qed.

(** The superblock on a device, and that the filesystem it describes fits. *)
Definition disk_super (dev : D) : sfs_super := decode_super (sect (d_data dev) SFS_SB_LOCATION).

Definition fits_device (dev : D) : Prop :=
  sp_nblocks (disk_super dev) ≤ d_blocks dev ∧
  SFS_MAP_LOCATION + SFS_BITBLOCKS (sp_nblocks (disk_super dev)) ≤ d_blocks dev.

Lemma disk_super_wf dev : d_ok dev → 0 < d_blocks dev →
  super_wf (disk_super dev) ∧ encode_super (disk_super dev) = sect (d_data dev) SFS_SB_LOCATION.
Proof.
  intros Hd H0. destruct (d_ok_size _ Hd) as (Hl & _ & Hall). unfold disk_super, SFS_SB_LOCATION, sect.
  destruct (lookup_lt_is_Some_2 (d_data dev) (Z.to_nat 0)) as [x Hx]; [lia|]. rewrite Hx.
  destruct (Forall_lookup_1 _ _ _ _ Hall Hx). by apply decode_super_wf.
Qed.

(** The free map of the filesystem on a device. *)
Definition mount_post (dev : D) (fs : sfs_fs D) : Prop :=
  sfs_super_of fs = terminate (disk_super dev) ∧ array_repr (sfs_vnodes fs) [] ∧
  dev_upd dev (sfs_device fs) (d_data dev) ∧
  bm_nbits (sfs_freemap fs) = SFS_FS_BITMAPSIZE fs ∧ bitmap_wf (sfs_freemap fs) ∧
  map_on_disk fs ∧ sfs_superdirty fs = false ∧ sfs_freemapdirty fs = false.

Lemma mount_map_wp (dev : D) bm :
  d_ok dev → 0 < d_blocks dev → fits_device dev →
  bm_nbits bm = SFS_BITMAPSIZE (sp_nblocks (disk_super dev)) → bitmap_wf bm →
  swp (sfs_mapio UIO_READ) (mkFs (terminate (disk_super dev)) true dev (mkArray 0 0 None) bm true)
    (λ r fs, r = 0 ∧ mount_post dev (set_freemapdirty false (set_superdirty false fs))).
Proof.
  intros Hd H0 (Hn & Hfit) Hnb (Hb0 & Hlen & Hby & Hpad).
  destruct (disk_super_wf dev Hd H0) as ((_ & Hw & _) & _). cbv beta in Hw.
  destruct (d_ok_size _ Hd) as (_ & Hmax & _).
  destruct (bitblocks_eq (sp_nblocks (disk_super dev))) as [H1 H2]; [lia|].
  eapply swp_mono; [apply sfs_mapio_read_wp|].
  { unfold map_fits, nblk, SFS_FS_BITBLOCKS.
    cbn [sfs_freemap sfs_super_of sfs_device terminate sp_nblocks]. split_and!; try done; try lia.
    rewrite Hlen, Hnb, H1, H2. dlia. }
  intros r fs' (-> & d' & v & -> & Hupd & Hlv & Hbv & Hsl). split; [done|].
  unfold SFS_FS_BITBLOCKS in Hlv. cbn [sfs_super_of terminate sp_nblocks] in Hlv. split_and!; try done.
  - unfold bitmap_wf, bm_used. cbn. split_and!; [lia|lia| |by apply Hbv|].
    + rewrite Hlv, Hnb, H1, H2. dlia.
    + intros i Hi. rewrite Hlv, Hnb, H1, H2 in Hi. dlia.
  - intros j Hj. cbn. rewrite Hsl by done. destruct Hupd as (_ & Hdat & _). unfold dsk in *. cbn in *.
    by rewrite Hdat.
Qed.

Lemma sfs_domount_wp mem1 mem2 mem3 mem4 garbage (dev : D) :
  d_ok dev → 0 < d_blocks dev →
  (sp_magic (disk_super dev) = SFS_MAGIC → fits_device dev) →
  wp (sfs_domount mem1 mem2 mem3 mem4 garbage dev) (λ '(r, ofs, d'),
    dev_upd dev d' (d_data dev) ∧
    if negb (mem1 && mem2) then r = ENOMEM ∧ ofs = None else
    if decide (sp_magic (disk_super dev) = SFS_MAGIC) then
      if negb (mem3 && mem4) then r = ENOMEM ∧ ofs = None
      else r = 0 ∧ ∃ fs, ofs = Some fs ∧ sfs_device fs = d' ∧ mount_post dev fs
    else r = EINVAL ∧ ofs = None).
Proof.
  intros Hd H0 Hfit. unfold sfs_domount. do 3 (apply wp_bind; apply wp_kassert; [done|]).
  rewrite d_ok_blocksize by done. cbn [SFS_BLOCKSIZE Z.eqb Pos.eqb negb].
  destruct mem1; [|done]. destruct mem2; [|done]. cbn [negb andb array_create].
  apply wp_bind. eapply wp_mono; [apply (sfs_rblock_dev _ zero_block 0); [done|cbn; lia|done]|].
  intros [[r data] fs] (-> & -> & _ & d1 & -> & Hd1 & Hdat1 & Hn1).
  unfold dsk in *. cbv zeta. cbn [Z.eqb negb sfs_device set_device] in *.
  change (decode_super (sect (d_data dev) 0)) with (disk_super dev).
  assert (dev_upd dev d1 (d_data dev)) as Hupd by done.
  case_decide as Hm; cycle 1.
  { rewrite (proj2 (Z.eqb_neq _ _)) by done. done. }
  rewrite (proj2 (Z.eqb_eq _ _)) by done. cbn [negb]. fold (terminate (disk_super dev)).
  assert (disk_super d1 = disk_super dev) as Hsp by (unfold disk_super; by rewrite Hdat1).
  specialize (Hfit Hm). assert (fits_device d1) as Hfit1 by (unfold fits_device; by rewrite Hsp, Hn1).
  destruct (disk_super_wf dev Hd H0) as ((_ & Hw & _) & _). cbv beta in Hw.
  destruct (d_ok_size _ Hd) as (_ & Hmax & _). destruct Hfit as [Hf1 Hf2].
  destruct (bitblocks_eq (sp_nblocks (disk_super dev))) as [H1 H2]; [lia|].
  apply wp_bind. eapply wp_mono; [apply bitmap_create_wp; cbn [terminate sp_nblocks]; rewrite H2; dlia|].
  intros obm Hbm. destruct (mem3 && mem4); [|by subst obm]. destruct Hbm as (bm & -> & Hnb & Hwf & _).
  apply wp_bind. eapply wp_mono.
  { rewrite <-Hsp. apply (mount_map_wp d1 bm); [done|lia|done|by rewrite Hsp|done]. }
  intros [r fs] (-> & Hpost). cbn [Z.eqb negb].
  destruct Hpost as (Hs & Ha & (Hd2 & Hdat2 & Hn2) & Hnb' & Hwf' & Hmap & Hf1' & Hf2').
  assert (dev_upd dev (sfs_device fs) (d_data dev)) as Hupd2.
  { cbn in Hd2, Hdat2, Hn2. unfold dev_upd. split_and!; [done|congruence..]. }
  split; [done|]. split; [done|]. eexists. split; [done|]. split; [done|].
  split_and!; try done. by rewrite Hs, Hsp.
Qed.

(** The superblock on a device that holds all of a filesystem. *)
Lemma synced_super fs :
  mounted fs → sfs_superdirty fs = false →
  disk_super (sfs_device fs) = sfs_super_of fs ∧ terminate (sfs_super_of fs) = sfs_super_of fs.
Proof.
  intros (_ & Hwf & _ & Hv & _ & _ & _ & _ & Hsup & _) Hsd. specialize (Hsup Hsd). split.
  - unfold disk_super. unfold super_on_disk, dsk in Hsup. by rewrite Hsup, decode_encode_super.
  - unfold terminate. rewrite list_insert_id by done. by destruct (sfs_super_of fs).
Qed.

(** What is mounted from such a device is that filesystem. *)
Lemma mount_post_same fs fs2 :
  mounted fs → sfs_superdirty fs = false → sfs_freemapdirty fs = false → mount_post (sfs_device fs) fs2 →
  mounted fs2 ∧ dsk fs2 = dsk fs ∧ sfs_super_of fs2 = sfs_super_of fs ∧ sfs_freemap fs2 = sfs_freemap fs.
Proof.
  intros Hm Hsd Hfd (Hs2 & Hvn2 & (Hd2 & Hdat2 & Hn2) & Hnb2 & Hbwf2 & Hmap2 & Hf1 & Hf2).
  destruct (synced_super fs Hm Hsd) as [Hds Ht]. destruct (mounted_fits _ Hm) as [Hfit _].
  destruct Hm as (Hd & Hwf & Hmg & Hv & Hnb & Hdev & Hbits & Hbwf & Hsup & Hmap).
  specialize (Hsup Hsd). specialize (Hmap Hfd). rewrite Hds, Ht in Hs2.
  assert (SFS_FS_BITBLOCKS fs2 = SFS_FS_BITBLOCKS fs) as Hbb by (unfold SFS_FS_BITBLOCKS; by rewrite Hs2).
  assert (mounted fs2) as Hm2.
  { unfold mounted, nblk, super_on_disk, dsk in *. rewrite Hs2, Hbb, Hdat2, Hn2. done. }
  split_and!; [done|done|done|].
  destruct (mounted_fits _ Hm2) as [(_ & _ & _ & Hl2) _]. destruct Hfit as (_ & _ & _ & Hl).
  unfold SFS_FS_BITMAPSIZE in *. rewrite Hs2 in Hnb2.
  destruct (sfs_freemap fs2) as [n2 v2] eqn:E2, (sfs_freemap fs) as [n v] eqn:E. cbn in *. f_equal; [congruence|].
  apply (sectors_eq (SFS_FS_BITBLOCKS fs)); [by rewrite Hl2, Hbb|done|].
  intros j Hj. specialize (Hmap j Hj). specialize (Hmap2 j). rewrite Hbb in Hmap2. specialize (Hmap2 Hj).
  unfold dsk in *. rewrite E2 in Hmap2. rewrite E in Hmap. cbn in *. rewrite <-Hmap, <-Hmap2. by rewrite Hdat2.
Qed.

(** Mounting a device that holds all of a filesystem gives that filesystem. *)
Lemma remount_wp fs fs' garbage :
  mounted fs' → same_fs fs fs' → sfs_superdirty fs' = false → sfs_freemapdirty fs' = false →
  0 < d_blocks (sfs_device fs) →
  wp (sfs_domount true true true true garbage (sfs_device fs')) (λ '(r, ofs, _),
    r = 0 ∧ ∃ fs2, ofs = Some fs2 ∧ mounted fs2 ∧ array_repr (sfs_vnodes fs2) [] ∧ dsk fs2 = dsk fs' ∧
      sfs_super_of fs2 = sfs_super_of fs ∧ sfs_freemap fs2 = sfs_freemap fs).
Proof.
  intros Hm (Hs & _ & Hf & _ & Hn) Hsd Hfd H0. destruct (synced_super fs' Hm Hsd) as [Hds _].
  pose proof Hm as (Hd & _ & Hmg & _ & Hnb & Hdev & _).
  eapply wp_mono; [apply sfs_domount_wp; [done|lia|unfold fits_device; by rewrite Hds]|].
  intros [[r ofs] d'] [_ H]. rewrite Hds, decide_True in H by done. simpl in H.
  destruct H as (-> & fs2 & -> & _ & Hpost). destruct (mount_post_same fs' fs2 Hm Hsd Hfd Hpost) as (Hm2 & Hd2 & Hs2 & Hf2).
  split; [done|]. exists fs2. split_and!; [done|done|apply Hpost|done|congruence|congruence].
Qed.
End mount.

(** ** A concrete device *)

Section example.
#[local] Existing Instance no_space.

Definition ex_super : sfs_super := mkSuper SFS_MAGIC 8 (replicate 32 0) (replicate 118 0).
Definition ex_device : lhd (list (list Z)) :=
  mkLhd zero_block 0 1 0 8 0 0 (encode_super ex_super :: replicate 7 zero_block).
Definition ex_mounted : sfs_fs (lhd (list (list Z))) :=
  mkFs ex_super false ex_device (mkArray 0 0 None) (mkBitmap 4096 (31 :: replicate 511 255)) true.

Lemma ex_super_wf : super_wf ex_super.
Proof.
  unfold super_wf. cbn [ex_super sp_magic sp_nblocks sp_volname sp_reserved]. unfold SFS_MAGIC.
  split_and!; try lia; try done; apply Forall_replicate; lia.
Qed.

Lemma ex_device_ok : d_ok ex_device.
Proof.
  change (lhd_ok ex_device). split_and!; try done.
  constructor; [apply encode_super_ok, ex_super_wf|apply Forall_replicate, zero_block_ok].
Qed.

Lemma ex_mounted_ok : mounted ex_mounted.
Proof.
  assert (bitmap_wf (sfs_freemap ex_mounted)) as Hbm.
  { unfold bitmap_wf. split_and!; try done.
    - constructor; [lia|apply Forall_replicate; lia].
    - intros i Hi. change (4096 ≤ i < 8 * 512) in Hi. lia. }
  pose proof ex_super_wf. pose proof ex_device_ok. by split_and!.
Qed.
End example.

(** Syncing, then mounting again.  Writing back a mounted filesystem
    succeeds, leaves nothing dirty and touches no block but the superblock
    and the free map; mounting the device again gives a filesystem with the
    same superblock and the same free map. *)
Theorem sfs_sync_mount_roundtrip {D} `{!BlockDev D} `{!Disk D} {cs : CurSpace}
    (fs : sfs_fs D) garbage :
  mounted fs → 0 < d_blocks (sfs_device fs) →
  swp sfs_sync_map fs (λ r fs', r = 0 ∧ mounted fs' ∧ same_fs fs fs' ∧
    sfs_superdirty fs' = false ∧ sfs_freemapdirty fs' = false ∧
    (∀ b, 0 < b → ¬ 2 ≤ b < 2 + SFS_FS_BITBLOCKS fs → sect (dsk fs') b = sect (dsk fs) b) ∧
    wp (sfs_domount true true true true garbage (sfs_device fs')) (λ '(r, ofs, _),
      r = 0 ∧ ∃ fs2, ofs = Some fs2 ∧ mounted fs2 ∧ array_repr (sfs_vnodes fs2) [] ∧ dsk fs2 = dsk fs' ∧
        sfs_super_of fs2 = sfs_super_of fs ∧ sfs_freemap fs2 = sfs_freemap fs)).
Proof.
  intros Hm H0. eapply swp_mono; [by apply sfs_sync_map_wp|].
  intros r fs' (-> & Hm' & Hsame & Hsd & Hfd & Hsec). split_and!; try done.
  by apply remount_wp.
Qed.

