(* ===== verification/SfsTrunc.v ===== *)
(** * What truncating a file of SFS guarantees *)

From S2P Require Import Prelude Array Bitmap Copyinout Uio SfsDisk Dev Vnode SfsIo SfsFile Lhd SfsRw.
From S2P Require Import SfsDir SfsNames.

Section trunc.
Context {D : Type} `{!BlockDev D} `{!Disk D} {cs : CurSpace}.
Implicit Types (s : fstate D) (fs : sfs_fs D) (L : list Z).

(** ** Releasing blocks of a list

    The list [L'] is [L] with some entries cleared, and the blocks that no
    longer appear in it, and only those, have been marked free. *)
Definition released fs L fs' L' : Prop :=
  fs_ok fs' ∧ (∃ bm, fs_upd fs fs' (dsk fs) bm) ∧ length L' = length L ∧
  (∀ k b, L' !! k = Some b → b = 0 ∨ L !! k = Some b) ∧
  (∀ b, 0 < b → used fs' b = true ↔ used fs b = true ∧ (b ∈ L → b ∈ L')).

Lemma released_refl fs L : fs_ok fs → released fs L fs L.
Proof.
  intros Hok. split_and!; [done| |done|by right|].
  - exists (sfs_freemap fs). by destruct Hok as [Hd _].
  - intros b _. split; [done|by intros [? _]].
Qed.

Lemma released_nblk fs L fs' L' : released fs L fs' L' → nblk fs' = nblk fs.
Proof. intros (_ & (bm & Hs & _) & _). unfold nblk. by rewrite Hs. Qed.

Lemma released_blocks_ok fs L fs' L' :
  blocks_ok fs L → released fs L fs' L' → blocks_ok fs' L'.
Proof.
  intros [Hu Hinj] Hr. pose proof (released_nblk _ _ _ _ Hr) as Hn.
  destruct Hr as (_ & _ & _ & Hz & Hused). split.
  - intros k b Hk Hb. destruct (Hz k b Hk) as [|HL]; [done|]. destruct (Hu k b HL Hb) as [Hr Hub].
    rewrite Hn. split; [done|]. apply Hused; [lia|]. split; [done|]. intros _.
    by eapply list_elem_of_lookup_2.
  - intros k k' b Hk Hk' Hb. destruct (Hz k b Hk) as [|HL]; [done|].
    destruct (Hz k' b Hk') as [|HL']; [done|]. by apply (Hinj _ _ b).
Qed.

Lemma elem_of_clear L k b c :
  (∀ k k' b, L !! k = Some b → L !! k' = Some b → b ≠ 0 → k = k') →
  L !! k = Some b → b ≠ 0 → c ≠ 0 → c ∈ <[k := 0]> L ↔ c ∈ L ∧ c ≠ b.
Proof.
  intros Hinj Hk Hb Hc. rewrite !list_elem_of_lookup. split.
  - intros [j Hj]. apply list_lookup_insert_Some in Hj as [(_ & <- & _)|[Hne Hj]]; [done|].
    split; [by exists j|]. intros ->. by apply Hne, (Hinj _ _ b).
  - intros [[j Hj] Hne]. exists j. rewrite list_lookup_insert_ne; [done|]. intros ->. congruence.
Qed.

(** One more block. *)
Lemma release_one_wp fs L fs' L' k b :
  blocks_ok fs L → released fs L fs' L' → L' !! k = Some b → b ≠ 0 →
  swp (sfs_bfree b) fs' (λ _ fs2, released fs L fs2 (<[k := 0]> L')).
Proof.
  intros Hbok Hr Hk Hb. pose proof (released_blocks_ok _ _ _ _ Hbok Hr) as [Hu' Hinj'].
  destruct (Hu' k b Hk Hb) as [Hrange Hused]. pose proof Hr as (Hok & (bm & Hupd) & Hlen & Hz & Hus).
  eapply swp_mono; [by apply sfs_bfree_wp|]. intros _ fs2 (Hok2 & bm2 & [_ Hclr] & Hupd2).
  split_and!; [done| |by rewrite length_insert|..].
  - exists bm2. destruct Hupd as (?&?&?&?&?&Hd&?), Hupd2 as (?&?&?&?&?&?&?).
    unfold fs_upd. rewrite Hd in *.
    split_and!; try congruence. by eapply same_flags_trans.
  - intros j c Hj. apply list_lookup_insert_Some in Hj as [(_ & <- & _)|[_ Hj]]; [by left|by apply Hz].
  - intros c Hc. assert (used fs2 c = negb (c =? b) && used fs' c) as ->.
    { destruct Hupd2 as (_&_&_&Hb2&_). unfold used. rewrite Hb2. apply Hclr. lia. }
    rewrite andb_true_iff, negb_true_iff, Z.eqb_neq, Hus by done.
    rewrite (elem_of_clear L' k b c) by (done || lia). split; [tauto|].
    intros [Hc1 Hc2]. split; [|tauto]. intros ->. destruct Hc2 as [_ ?]; [|done].
    destruct (Hz k b Hk) as [|HL]; [done|]. by eapply list_elem_of_lookup_2.
Qed.

(** [l'] is [l] with the entries from [from] to before [n] cleared. *)
Definition cleared (from n : Z) (l l' : list Z) : Prop :=
  length l' = length l ∧
  ∀ k b, l !! k = Some b → l' !! k = Some (if decide (from ≤ Z.of_nat k < n) then 0 else b).

Lemma cleared_refl from l : cleared from 0 l l.
Proof. split; [done|]. intros k b Hk. by rewrite decide_False by lia. Qed.

(** Entry [j]: cleared, or passed over since it is before [from] or 0. *)
Lemma cleared_step from j l l' :
  0 ≤ j < Z.of_nat (length l) → cleared from j l l' → cleared from (j + 1) l (<[Z.to_nat j := 0]> l') ∨
    j < from.
Proof.
  intros Hj [Hlen Hc]. destruct (decide (j < from)); [by right|left].
  split; [by rewrite length_insert|]. intros k b Hk. destruct (decide (Z.of_nat k = j)) as [<-|Hne].
  - rewrite Nat2Z.id, list_lookup_insert_eq by (rewrite Hlen; by eapply lookup_lt_Some).
    by rewrite decide_True by lia.
  - rewrite list_lookup_insert_ne, (Hc k b Hk) by lia. repeat case_decide; done || lia.
Qed.

Lemma cleared_skip from j l l' x :
  0 ≤ j → cleared from j l l' → l' !! Z.to_nat j = Some x → j < from ∨ x = 0 →
  cleared from (j + 1) l l'.
Proof.
  intros Hj [Hlen Hc] Hx Hor. split; [done|]. intros k b Hk. pose proof (Hc k b Hk) as Hck.
  destruct (decide (Z.of_nat k = j)) as [<-|Hne].
  - rewrite Nat2Z.id in Hx. rewrite decide_False in Hck by lia. rewrite Hck. f_equal.
    rewrite Hck in Hx. injection Hx as ->. case_decide; [|done]. lia.
  - rewrite Hck. repeat case_decide; done || lia.
Qed.

Lemma allblocks_eq s : allblocks s =
  sv_ino (f_sv s) :: sfi_indirect (f_inode s) :: sfi_direct (f_inode s) ++ identries (f_dsk s) (f_inode s).
Proof. done. Qed.

(** The loop over the direct blocks. *)
Lemma sfs_truncate_direct_wp s blocklen :
  file_ok s → 0 ≤ blocklen →
  swp (sfs_truncate_direct blocklen) s (λ _ s', ∃ direct dirty,
    f_sv s' = mkSv (sv_v (f_sv s)) (set_direct (f_inode s) direct) (sv_ino (f_sv s)) dirty ∧
    cleared blocklen 15 (sfi_direct (f_inode s)) direct ∧
    released (f_fs s) (allblocks s) (f_fs s') (sv_ino (f_sv s) :: sfi_indirect (f_inode s) ::
      direct ++ identries (f_dsk s) (f_inode s))).
Proof.
  intros (Hfs & (_ & _ & _ & Hlen & _) & _ & Hbok) Hbl. unfold sfs_truncate_direct. apply swp_bind.
  eapply swp_mono.
  { apply (swp_for_stm (R := unit) (λ j _ s', ∃ direct dirty,
      f_sv s' = mkSv (sv_v (f_sv s)) (set_direct (f_inode s) direct) (sv_ino (f_sv s)) dirty ∧
      cleared blocklen j (sfi_direct (f_inode s)) direct ∧
      released (f_fs s) (allblocks s) (f_fs s') (sv_ino (f_sv s) :: sfi_indirect (f_inode s) ::
        direct ++ identries (f_dsk s) (f_inode s))) (λ _ _, False)).
    { exists (sfi_direct (f_inode s)), (sv_dirty (f_sv s)). split_and!; [|apply cleared_refl|].
      - unfold f_inode. by destruct (f_sv s) as [? [] ? ?].
      - by apply released_refl. }
    intros j [] [fs1 sv1] Hj (direct & dirty & Hsv & Hc & Hr). cbn in Hsv, Hr. subst sv1.
    apply swp_bind, swp_gets. cbn [f_sv sv_i sfi_direct set_direct].
    assert (length direct = 15%nat) as Hld by (destruct Hc; lia).
    destruct (lookup_lt_is_Some_2 direct (Z.to_nat j)) as [x Hx]; [lia|].
    apply swp_bind, swp_lift. rewrite (arr_get_Some _ _ x) by (lia || done). simpl wp.
    destruct (Z.geb_spec j blocklen) as [Hge|Hlt]; cbn [andb];
      [destruct (Z.eqb_spec x 0) as [->|Hx0]; cbn [negb]|].
    - apply swp_ret. exists direct, dirty. split_and!; try done. eapply cleared_skip; eauto; lia.
    - apply swp_bind, swp_on_fs. cbn [f_fs f_sv]. eapply swp_mono.
      { eapply (release_one_wp _ _ _ _ (S (S (Z.to_nat j))) x); [exact Hbok|exact Hr| |done].
        simpl. by apply lookup_app_l_Some. }
      intros [] fs2 Hr2. apply swp_bind, swp_lift. rewrite arr_set_in by lia. simpl wp.
      apply swp_bind, swp_modify, swp_ret. exists (<[Z.to_nat j := 0]> direct), true.
      split_and!; [done| |].
      + destruct (cleared_step blocklen j (sfi_direct (f_inode s)) direct) as [?|?]; [lia|done|done|lia].
      + cbn. simpl in Hr2. rewrite insert_app_l in Hr2 by lia. done.
    - apply swp_ret. exists direct, dirty. split_and!; try done. eapply cleared_skip; eauto; lia. }
  intros [[]|] s' H; [|done]. by apply swp_ret.
Qed.

(** The loop over the entries of the indirect block. *)
Lemma sfs_truncate_entries_wp fs0 L fs pre ids blocklen :
  blocks_ok fs0 L → released fs0 L fs (pre ++ ids) → length ids = 128%nat → 0 ≤ blocklen →
  swp (sfs_truncate_entries blocklen ids) fs (λ '(idbuf, hasnonzero, iddirty) fs',
    cleared (blocklen - 14) 128 ids idbuf ∧ released fs0 L fs' (pre ++ idbuf) ∧
    (hasnonzero = false → idbuf = replicate 128 0) ∧
    (hasnonzero = true → Exists (.≠ 0) idbuf) ∧ (iddirty = false → idbuf = ids)).
Proof.
  intros Hbok Hr0 Hlen Hbl. unfold sfs_truncate_entries. apply swp_bind. eapply swp_mono.
  { apply (swp_for_stm (R := unit) (λ j '(idbuf, hasnonzero, iddirty) fs',
      cleared (blocklen - 14) j ids idbuf ∧ released fs0 L fs' (pre ++ idbuf) ∧
      (hasnonzero = false → ∀ k x, Z.of_nat k < j → idbuf !! k = Some x → x = 0) ∧
      (hasnonzero = true → ∃ (k : nat) x, Z.of_nat k < j ∧ idbuf !! k = Some x ∧ x ≠ 0) ∧
      (iddirty = false → idbuf = ids)) (λ _ _, False)).
    { split_and!; [apply cleared_refl|done|lia|done|done]. }
    intros j [[idbuf hnz] idd] fs1 Hj (Hc & Hr & Hnz & Hex & Hd).
    assert (length idbuf = 128%nat) as Hl by (destruct Hc; lia).
    destruct (lookup_lt_is_Some_2 idbuf (Z.to_nat j)) as [x Hx]; [lia|].
    apply swp_bind, swp_lift. rewrite (arr_get_Some _ _ x) by (lia || done). simpl wp.
    unfold SFS_NDIRECT. rewrite u32_small by lia.
    assert (∀ l : list Z, (∀ (k : nat) y, Z.of_nat k < j → l !! k = Some y → y = 0) → l !! Z.to_nat j = Some 0 →
      ∀ (k : nat) y, Z.of_nat k < j + 1 → l !! k = Some y → y = 0) as Hnext.
    { intros l Hall Hlj k y Hk Hy. destruct (decide (Z.of_nat k = j)) as [<-|].
      - rewrite Nat2Z.id in Hlj. congruence.
      - apply (Hall k); [lia|done]. }
    destruct ((blocklen <? 15 + j) && negb (x =? 0)) eqn:E.
    - apply andb_true_iff in E as [E1%Z.ltb_lt E2%negb_true_iff%Z.eqb_neq].
      apply swp_bind. eapply swp_mono.
      { eapply (release_one_wp _ _ _ _ (length pre + Z.to_nat j) x); [exact Hbok|exact Hr| |done].
        rewrite lookup_app_r by lia. by replace (length pre + Z.to_nat j - length pre)%nat with (Z.to_nat j) by lia. }
      intros [] fs2 Hr2. apply swp_bind, swp_lift. rewrite arr_set_in by lia. simpl wp. apply swp_ret.
      rewrite insert_app_r in Hr2. split_and!; try done.
      + destruct (cleared_step (blocklen - 14) j ids idbuf) as [?|?]; [lia|done|done|lia].
      + intros Hh. apply Hnext; [|by rewrite list_lookup_insert_eq by lia].
        intros k y Hk. rewrite list_lookup_insert_ne by lia. by apply Hnz.
      + intros Hh. destruct (Hex Hh) as (k & y & Hk & Hy & Hy0). exists k, y.
        rewrite list_lookup_insert_ne by lia. split_and!; [lia|done|done].
    - apply swp_ret. split_and!; try done.
      + eapply cleared_skip; eauto; [lia|]. destruct (Z.eqb_spec x 0); [by right|left].
        rewrite andb_true_r in E. apply Z.ltb_ge in E. lia.
      + destruct (Z.eqb_spec x 0) as [->|]; [|done]. intros Hh. apply Hnext; [|done]. by apply Hnz.
      + destruct (Z.eqb_spec x 0); cbn [negb].
        * intros Hh. destruct (Hex Hh) as (k & y & Hk & Hy & Hy0). exists k, y. split_and!; [lia|done|done].
        * intros _. exists (Z.to_nat j), x. split_and!; [lia|done|done]. }
  intros [[[idbuf hnz] idd]|] fs' H; [|done]. apply swp_ret. destruct H as (Hc & Hr & Hnz & Hex & Hd).
  split_and!; try done; intros Hh;
    [|destruct (Hex Hh) as (k & x & _ & Hk & Hx); apply Exists_exists; eauto using list_elem_of_lookup_2].
  apply list_eq_same_length with (n := 128%nat); [done|destruct Hc; congruence|].
  intros k x y _ Hx Hy. apply lookup_replicate in Hy as [-> _]. apply (Hnz Hh k); [|done].
  apply lookup_lt_Some in Hx. destruct Hc. lia.
Qed.

(** ** The file with some of its blocks released *)

Definition shrunk s s' : Prop :=
  file_ok s' ∧ same_file s s' ∧
  (∀ b, owned s' b → owned s b) ∧
  (∀ b, 0 < b → f_used s' b = true ↔ f_used s b = true ∧ (owned s b → owned s' b)) ∧
  (∀ b, 0 ≤ b → (b = sfi_indirect (f_inode s) → b = 0) → sect (f_dsk s') b = sect (f_dsk s) b).

Lemma elem_of_allblocks s b :
  file_ok s → b ≠ 0 → b ∈ allblocks s ↔ b = sv_ino (f_sv s) ∨ owned s b.
Proof.
  intros _ Hb. unfold owned. rewrite list_elem_of_lookup. split.
  - intros [[|k] Hk]; [left; cbn in Hk; congruence|right]. split; [done|by exists k].
  - intros [->|[_ [k Hk]]]; [by exists 0%nat|by exists (S k)].
Qed.

(** The indirect block may have been written since the blocks were released. *)
Lemma shrunk_intro s fs1 s' :
  file_ok s → released (f_fs s) (allblocks s) fs1 (allblocks s') →
  inode_wf (f_inode s') → same_file s s' → sfs_freemap (f_fs s') = sfs_freemap fs1 →
  sfs_super_of (f_fs s') = sfs_super_of fs1 → fs_ok (f_fs s') →
  (∀ b, 0 ≤ b → (b = sfi_indirect (f_inode s) → b = 0) → sect (f_dsk s') b = sect (dsk fs1) b) →
  shrunk s s'.
Proof.
  intros Hok Hr Hwf Hsame Hfm Hsup Hfs' Hsec. pose proof Hok as (Hfs & _ & Hino & Hbok).
  pose proof (released_blocks_ok _ _ _ _ Hbok Hr) as [Hu1 Hinj1].
  destruct Hr as (Hfs1 & (bm & Hs1 & _ & Hv1 & _ & _ & Hd1 & _) & Hlen & Hz & Hused).
  assert (∀ b, f_used s' b = used fs1 b) as Hus by (intros; unfold f_used, used; by rewrite Hfm).
  assert (file_ok s') as Hok'.
  { pose proof Hsame as (Hi & _). split_and!; [done|done|congruence|]. split; [|done].
    intros k b Hk Hb. destruct (Hu1 k b Hk Hb) as [Hr Hub]. fold (f_used s' b). rewrite Hus.
    unfold nblk in *. by rewrite Hsup. }
  assert (∀ b, owned s' b → owned s b) as Hown.
  { intros b [Hb [k Hk]]. split; [done|]. exists k. by destruct (Hz _ _ Hk). }
  split_and!; try done; try congruence.
  - intros b Hb. rewrite Hus, Hused by done. fold (f_used s b).
    rewrite !elem_of_allblocks by (done || lia). destruct Hsame as (Hi & _). rewrite Hi.
    split; intros [H1 H2]; (split; [done|]).
    + intros Ho. destruct H2 as [->|?]; [by right| |done]. exfalso.
      destruct Ho as [_ [k Hk]]. destruct Hbok as [_ Hinj].
      assert (S k = 0%nat); [|lia]. by apply (Hinj _ _ (sv_ino (f_sv s))).
    + intros [?|Ho]; [by left|right; by apply H2].
  - intros b Hb Hne. rewrite Hsec by done. unfold f_dsk. by rewrite Hd1.
Qed.

(** The entries that remain after truncating to [blocklen] blocks. *)
Definition kept (blocklen k : Z) : bool := if k <? 15 then k <? blocklen else k <=? blocklen.

Lemma fblocks_cleared blocklen direct direct' ids ids' k b :
  cleared blocklen 15 direct direct' → cleared (blocklen - 14) 128 ids ids' →
  length direct = 15%nat → length ids = 128%nat →
  (direct ++ ids) !! k = Some b →
  (direct' ++ ids') !! k = Some (if kept blocklen (Z.of_nat k) then b else 0).
Proof.
  intros [Hl1 Hc1] [Hl2 Hc2] Hd Hi Hk. unfold kept.
  apply lookup_app_Some in Hk as [Hk|[Hge Hk]].
  - pose proof (lookup_lt_Some _ _ _ Hk). rewrite (lookup_app_l_Some _ _ _ _ (Hc1 k b Hk)).
    destruct (Z.ltb_spec (Z.of_nat k) 15); [|lia]. f_equal.
    destruct (Z.ltb_spec (Z.of_nat k) blocklen); case_decide; done || lia.
  - pose proof (lookup_lt_Some _ _ _ Hk). rewrite lookup_app_r by lia. rewrite Hl1, (Hc2 _ b Hk).
    destruct (Z.ltb_spec (Z.of_nat k) 15); [lia|]. f_equal.
    destruct (Z.leb_spec (Z.of_nat k) blocklen); case_decide; done || lia.
Qed.

Lemma released_upd fs0 L fs L' fs' :
  released fs0 L fs L' → fs_upd fs fs' (dsk fs) (sfs_freemap fs) → released fs0 L fs' L'.
Proof.
  intros (Hok & (bm & Hupd) & Hlen & Hz & Hus) Hupd'. split_and!; try done.
  - by eapply fs_upd_ok_same.
  - exists bm. destruct Hupd as (?&?&?&?&?&Hd&?), Hupd' as (?&?&?&?&?&?&?).
    unfold fs_upd. rewrite Hd in *.
    split_and!; try congruence. by eapply same_flags_trans.
  - intros b Hb. destruct Hupd' as (_&_&_&Hb'&_). unfold used at 1. rewrite Hb'. by apply Hus.
Qed.

Lemma cleared_words from n l l' : cleared from n l l' → Forall is_word l → Forall is_word l'.
Proof.
  intros [Hl Hc] Hw. apply Forall_lookup_2. intros k x Hx.
  destruct (lookup_lt_is_Some_2 l k) as [b Hb]; [rewrite <-Hl; by eapply lookup_lt_Some|].
  rewrite (Hc k b Hb) in Hx. injection Hx as <-. case_decide; [lia|]. exact (Forall_lookup_1 _ l k b Hw Hb).
Qed.

Lemma be32s_sector ws : length ws = 128%nat → sector_ok (be32s ws).
Proof. intros Hl. split; [by rewrite length_be32s, Hl|apply be32s_bytes]. Qed.

(** The state after the part of [sfs_truncate] that looks at the indirect
    block: what the inode and the free map look like. *)
Definition trunc_state s (blocklen : Z) (direct : list Z) s' : Prop :=
  ∃ ind ids dirty fs1,
    f_sv s' = mkSv (sv_v (f_sv s)) (set_indirect (set_direct (f_inode s) direct) ind)
                (sv_ino (f_sv s)) dirty ∧
    (ind = 0 ∨ ind = sfi_indirect (f_inode s)) ∧
    (ind ≠ 0 → blocklen < 142 → Exists (.≠ 0) ids) ∧
    cleared (blocklen - 14) 128 (identries (f_dsk s) (f_inode s)) ids ∧
    identries (f_dsk s') (f_inode s') = ids ∧
    released (f_fs s) (allblocks s) fs1 (sv_ino (f_sv s) :: ind :: direct ++ ids) ∧
    sfs_freemap (f_fs s') = sfs_freemap fs1 ∧ sfs_super_of (f_fs s') = sfs_super_of fs1 ∧
    sfs_vnodes (f_fs s') = sfs_vnodes fs1 ∧ same_flags fs1 (f_fs s') ∧ fs_ok (f_fs s') ∧
    (∀ b, 0 ≤ b → (b = sfi_indirect (f_inode s) → b = 0) → sect (f_dsk s') b = sect (dsk fs1) b).

Lemma trunc_state_same s blocklen direct dirty fs1 :
  released (f_fs s) (allblocks s) fs1 (sv_ino (f_sv s) :: sfi_indirect (f_inode s) ::
    direct ++ identries (f_dsk s) (f_inode s)) →
  cleared (blocklen - 14) 128 (identries (f_dsk s) (f_inode s)) (identries (f_dsk s) (f_inode s)) →
  (sfi_indirect (f_inode s) ≠ 0 → blocklen < 142 → Exists (.≠ 0) (identries (f_dsk s) (f_inode s))) →
  trunc_state s blocklen direct
    (mkF fs1 (mkSv (sv_v (f_sv s)) (set_direct (f_inode s) direct) (sv_ino (f_sv s)) dirty)).
Proof.
  intros Hr Hc Hex. exists (sfi_indirect (f_inode s)), (identries (f_dsk s) (f_inode s)), dirty, fs1.
  split_and!; try done; [by right| |by destruct Hr].
  destruct Hr as (_ & (bm & _ & _ & _ & _ & _ & Hd & _) & _). unfold f_dsk at 1. cbn. by rewrite Hd.
Qed.

Lemma sfs_truncate_indirect_wp s blocklen direct dirty fs1 :
  file_ok s → 0 ≤ blocklen → sfi_indirect (f_inode s) ≠ 0 →
  released (f_fs s) (allblocks s) fs1 (sv_ino (f_sv s) :: sfi_indirect (f_inode s) ::
    direct ++ identries (f_dsk s) (f_inode s)) →
  swp (sfs_truncate_indirect blocklen (sfi_indirect (f_inode s)))
    (mkF fs1 (mkSv (sv_v (f_sv s)) (set_direct (f_inode s) direct) (sv_ino (f_sv s)) dirty))
    (λ r s', r = 0 ∧ trunc_state s blocklen direct s').
Proof.
  intros Hok Hbl Hind Hr. pose proof Hok as (_ & _ & _ & Hbok).
  set (ind := sfi_indirect (f_inode s)) in *. set (ids := identries (f_dsk s) (f_inode s)) in *.
  assert (length ids = 128%nat) as Hlen by by apply identries_length.
  destruct (released_blocks_ok _ _ _ _ Hbok Hr) as [Hu _]. destruct (Hu 1%nat ind) as [Hrg _]; [done..|].
  unfold sfs_truncate_indirect. apply swp_bind, swp_on_fs. cbn [f_fs f_sv].
  eapply swp_mono; [apply sfs_rblock_wp; [by destruct Hr|lia|done]|].
  intros [r data] fs2 (-> & -> & Hupd). cbn [Z.eqb negb].
  assert (de32s (sect (dsk fs1) ind) = ids) as ->.
  { destruct Hr as (_ & (bm & _ & _ & _ & _ & _ & Hd & _) & _). rewrite Hd. unfold ids, identries.
    by rewrite (proj2 (Z.eqb_neq _ _)). }
  apply swp_bind, swp_on_fs. cbn [f_fs f_sv]. eapply swp_mono.
  { apply (sfs_truncate_entries_wp (f_fs s) (allblocks s) fs2 (sv_ino (f_sv s) :: ind :: direct) ids);
      [done|by eapply released_upd|done|done]. }
  intros [[idbuf hnz] idd] fs3 (Hc & Hr3 & Hnz & Hex & Hdd). cbn [app] in Hr3.
  destruct hnz; cbn [negb]; [destruct idd|].
  - apply swp_on_fs. cbn [f_fs f_sv]. eapply swp_mono.
    { apply sfs_wblock_wp; [by destruct Hr3| |apply be32s_sector; destruct Hc; lia].
      by rewrite (released_nblk _ _ _ _ Hr3), <-(released_nblk _ _ _ _ Hr); lia. }
    intros r fs4 [-> Hupd4]. split; [done|]. exists ind, idbuf, dirty, fs3.
    pose proof Hr3 as (Hok3 & _). pose proof (fs_ok_dsk_length fs3 ind Hok3) as Hdl.
    rewrite (released_nblk _ _ _ _ Hr3), <-(released_nblk _ _ _ _ Hr) in Hdl.
    specialize (Hdl ltac:(lia)).
    pose proof Hupd4 as (?&?&?&?&?&Hd4&?). split_and!; try done;
      [by right|by intros; apply Hex| |by eapply fs_upd_ok_same|].
    + unfold identries, f_inode. cbn. rewrite (proj2 (Z.eqb_neq _ _)) by done. unfold f_dsk. cbn.
      rewrite Hd4. etrans; [apply f_equal, (sect_insert_eq _ ind); [lia|exact Hdl]|]. apply de32s_be32s.
      eapply cleared_words; [done|by apply identries_words].
    + intros b Hb Hne. unfold f_dsk. cbn. rewrite Hd4. apply sect_insert_ne; [lia|lia|].
      intros <-. by apply Hind, Hne.
  - apply swp_ret. split; [done|]. specialize (Hdd eq_refl). subst idbuf.
    apply trunc_state_same; [done|done|by intros; apply Hex].
  - specialize (Hnz eq_refl). subst idbuf. apply swp_bind, swp_on_fs. cbn [f_fs f_sv]. eapply swp_mono.
    { eapply (release_one_wp _ _ _ _ 1%nat ind); [exact Hbok|exact Hr3|done|done]. }
    intros [] fs4 Hr4. cbn [insert list_insert] in Hr4. apply swp_bind, swp_gets, swp_bind, swp_modify, swp_ret.
    split; [done|]. exists 0, (replicate 128 0), true, fs4. split_and!; try done; [by left|by destruct Hr4].
Qed.

(** What [sfs_truncate] promises: the size is set, the content before it is
    untouched, and the blocks that leave the file are freed. *)
Definition trunc_post s (len : Z) s' : Prop :=
  shrunk s s' ∧ sfi_size (f_inode s') = len ∧
  (∀ k, 0 ≤ k < MAXBLK →
     fblock s' k = if kept ((len + 511) / 512) k then fblock s k else 0) ∧
  (∀ p, 0 ≤ p < len → p < MAXSIZE → content s' p = content s p) ∧
  (len = 0 → ∀ b, ¬ owned s' b).

Lemma inode_wf_truncated i direct ind len :
  inode_wf i → length direct = 15%nat → Forall is_word direct → ind = 0 ∨ ind = sfi_indirect i →
  is_word len → inode_wf (set_size (set_indirect (set_direct i direct) ind) len).
Proof.
  intros (?&?&?&?&?&?&?&?) Hl Hw Hi Hlen. unfold inode_wf. cbn.
  split_and!; try done; try lia.
Qed.

Lemma trunc_state_post s blocklen direct s' len :
  file_ok s → 0 ≤ len < 4294967296 → blocklen = (len + 511) / 512 →
  cleared blocklen 15 (sfi_direct (f_inode s)) direct → trunc_state s blocklen direct s' →
  trunc_post s len (mkF (f_fs s') (set_inode (set_size (f_inode s') len) (f_sv s'))).
Proof.
  intros Hok Hlen Hbl Hcd (ind & ids & dirty & fs1 & Hsv & Hind & Hex & Hci & Hids & Hr & Hfm & Hsu & Hvn & Hfl & Hfs & Hsec).
  set (s2 := mkF _ _). pose proof Hok as (_ & Hwf & _ & _). pose proof Hwf as (_&_&_&Hld&Hwd&_).
  pose proof (identries_length s Hok) as Hli.
  assert (f_inode s2 = set_size (set_indirect (set_direct (f_inode s) direct) ind) len) as Hi2.
  { unfold f_inode, s2. cbn. unfold f_inode. by rewrite Hsv. }
  assert (identries (f_dsk s2) (f_inode s2) = ids) as Hids2.
  { rewrite <-Hids, Hi2. unfold f_inode, s2. by rewrite Hsv. }
  assert (allblocks s2 = sv_ino (f_sv s) :: ind :: direct ++ ids) as Hall.
  { rewrite allblocks_eq, Hids2, Hi2. unfold s2. cbn. by rewrite Hsv. }
  assert (same_file s s2) as Hsame.
  { destruct Hr as (_ & (bm & Hs1 & Hfl1 & Hv1 & _) & _). unfold same_file. rewrite Hi2. unfold s2. cbn.
    rewrite Hsv. split_and!; try done; try congruence. by eapply same_flags_trans. }
  assert (∀ k, 0 ≤ k < MAXBLK → fblock s2 k = if kept blocklen k then fblock s k else 0) as Hfb.
  { intros k Hk. pose proof (fblock_lookup s k Hok Hk) as Hlk.
    assert (fblocks s2 = direct ++ ids) as Hfb2 by (unfold allblocks in Hall; congruence).
    unfold fblock at 1. rewrite Hfb2. unfold fblocks in Hlk.
    rewrite (fblocks_cleared _ _ _ _ _ _ _ Hcd Hci Hld Hli Hlk). cbn. by rewrite Z2Nat.id by lia. }
  assert (shrunk s s2) as Hsh.
  { apply (shrunk_intro s fs1 s2); try done; [by rewrite Hall|]. rewrite Hi2.
    apply inode_wf_truncated; try done; [destruct Hcd; congruence|by eapply cleared_words]. }
  split_and!; [done|by rewrite Hi2|by rewrite <-Hbl|..].
  - intros p Hp Hmax. unfold MAXSIZE in Hmax. pose proof (fblock_range _ p ltac:(lia) eq_refl) as Hk.
    unfold content. rewrite Hfb by done. assert (kept blocklen (p / 512) = true) as ->.
    { unfold kept. destruct (Z.ltb_spec (p / 512) 15); [apply Z.ltb_lt|apply Z.leb_le]; dlia. }
    destruct (Z.eqb_spec (fblock s (p / 512)) 0); [done|].
    destruct (fblock_ok s (p / 512)) as (? & _ & ? & _); [done..|].
    destruct Hsh as (_ & _ & _ & _ & Hs). by rewrite Hs by (done || lia).
  - intros -> b Ho. destruct Hsh as (Hok2 & _). destruct (owned_cases s2 b Hok2 Ho) as [Hb [->|(k & Hk & ->)]].
    + assert (Exists (.≠ 0) ids) as [x [Hin Hx]]%Exists_exists.
      { apply Hex; [rewrite Hi2 in Hb; by cbn in Hb|]. subst. by vm_compute. }
      apply list_elem_of_lookup in Hin as [k Hk]. destruct Hci as [Hlc Hc].
      destruct (lookup_lt_is_Some_2 (identries (f_dsk s) (f_inode s)) k) as [y Hy].
      { rewrite <-Hlc. by eapply lookup_lt_Some. }
      specialize (Hc k y Hy). rewrite Hk in Hc. injection Hc as ->. case_decide as Hd; [done|]. apply Hd.
      apply lookup_lt_Some in Hy. subst blocklen. change ((0 + 511) / 512) with 0. lia.
    + apply Hb. rewrite Hfb by done. subst blocklen. unfold kept. change ((0 + 511) / 512) with 0.
      destruct (Z.ltb_spec k 15); [destruct (Z.ltb_spec k 0)|destruct (Z.leb_spec k 0)]; done || lia.
Qed.

Lemma sfs_truncate_wp s len :
  file_ok s → 0 ≤ len → len + 512 ≤ INT_MAX →
  swp (sfs_truncate len) s (λ r s', r = 0 ∧ trunc_post s len s').
Proof.
  intros Hok Hlen Hmax. unfold sfs_truncate, SFS_BLOCKSIZE. unfold INT_MAX in Hmax. apply swp_bind, swp_lift.
  apply wp_to_int; [unfold INT_MIN, INT_MAX; lia|]. cbv zeta.
  replace (len + 512 - 1) with (len + 511) by lia.
  rewrite Z.quot_div_nonneg, (u32_small ((len + 511) / 512)), (u32_small len) by dlia.
  set (blocklen := (len + 511) / 512). assert (0 ≤ blocklen) by (unfold blocklen; dlia).
  apply swp_bind. eapply swp_mono; [by apply sfs_truncate_direct_wp|].
  intros [] [fs1 sv1] (direct & dirty & Hsv & Hc & Hr). cbn in Hsv, Hr. subst sv1.
  apply swp_bind, swp_gets. cbn [f_sv sv_i sfi_indirect set_direct]. apply swp_bind.
  apply (swp_mono _ _ (λ r s', r = 0 ∧ trunc_state s blocklen direct s')).
  - unfold SFS_NDIRECT, SFS_DBPERIDB.
    destruct (Z.ltb_spec blocklen (15 + 128 - 1)); cbn [andb];
      [destruct (Z.eqb_spec (sfi_indirect (f_inode s)) 0) as [Hi0|Hne]; cbn [negb]|].
    + apply swp_ret. split; [done|]. apply trunc_state_same; [done| |done].
      unfold identries. rewrite (proj2 (Z.eqb_eq _ _) Hi0). split; [done|]. intros k b Hk.
      rewrite Hk. apply lookup_replicate in Hk as [-> _]. by case_decide.
    + by apply sfs_truncate_indirect_wp.
    + apply swp_ret. split; [done|]. apply trunc_state_same; [done| |lia]. split; [done|].
      intros k b Hk. rewrite decide_False; [done|]. lia.
  - intros r s' [-> Hst]. cbn [Z.eqb negb]. apply swp_bind, swp_gets, swp_bind, swp_modify, swp_ret.
    split; [done|]. fold (f_inode s').
    apply (trunc_state_post s blocklen direct); [done|lia|done|done|done].
Qed.
End trunc.

(** Truncation.  On a file in good order [sfs_truncate] returns 0 and
    sets the size; every byte before the new end is what it was; the blocks
    that leave the file, and only those, are marked free; no other file's
    block is touched; and truncating to 0 leaves the file without a single
    block.  (A block kept in the indirect block's part of the file may lie
    one past the new end: the entries with index [blocklen] stay.) *)
Theorem sfs_truncate_exact {D} `{!BlockDev D} `{!Disk D} {cs : CurSpace} (s : fstate D) len :
  file_ok s → 0 ≤ len → len + 512 ≤ INT_MAX →
  swp (sfs_truncate len) s (λ r s', r = 0 ∧ trunc_post s len s').
Proof. apply sfs_truncate_wp. Qed.
