(* ===== verification/SfsVol.v ===== *)
(** * The whole filesystem: files, names and vnodes

    An SFS volume in use is described by the inodes of its files, [I], indexed
    by inode number: the inode of a file is the one in memory when its vnode
    is loaded, and the one on the disk otherwise.  The invariant [vol] says
    that the files are in good order and share no block, that the vnodes in
    memory are those of the table, one for an inode at most, that the names in
    the root directory lead to files, and that the link count of a file is the
    number of its names. *)

From S2P Require Import Prelude Array Bitmap Copyinout Uio SfsDisk Dev Vnode SfsIo SfsFile Lhd SfsRw.
From S2P Require Import SfsDir SfsNames SfsVnode SfsFs SfsTrunc.

#[export] Instance sfs_inode_inhabited : Inhabited sfs_inode := populate (mkInode 0 0 0 [] 0 []).

Section vol.
Context {D : Type} `{!BlockDev D} `{!Disk D} {cs : CurSpace}.
Implicit Types (w : world D) (fs : sfs_fs D) (s : fstate D) (I : gmap Z sfs_inode) (δ : Z → Z).

(** The file with inode [i] and inode number [n], as far as its contents are
    concerned. *)
Definition at_inode fs (n : Z) (i : sfs_inode) : fstate D :=
  mkF fs (mkSv (mkVnode 0 0 false None) i n false).

(** Blocks in use before, other than those in [X], are in use and unchanged. *)
Definition untouched fs fs' (X : Z → Prop) : Prop :=
  nblk fs' = nblk fs ∧
  ∀ b, 0 ≤ b < nblk fs → used fs b = true → ¬ X b →
    used fs' b = true ∧ sect (dsk fs') b = sect (dsk fs) b.

Definition same_content fs fs' (n : Z) (i : sfs_inode) : Prop :=
  allblocks (at_inode fs' n i) = allblocks (at_inode fs n i) ∧
  ∀ p, 0 ≤ p < MAXSIZE → content (at_inode fs' n i) p = content (at_inode fs n i) p.

Lemma file_ok_elem s b :
  file_ok s → b ∈ allblocks s → b ≠ 0 → 0 < b < nblk (f_fs s) ∧ f_used s b = true.
Proof. intros (_ & _ & _ & [Hu _]) [k Hk]%list_elem_of_lookup Hb. by apply (Hu k). Qed.

(** Another file is not affected. *)
Lemma at_untouched fs fs' X n i :
  file_ok (at_inode fs n i) → fs_ok fs' → untouched fs fs' X →
  (∀ b, b ∈ allblocks (at_inode fs n i) → b ≠ 0 → ¬ X b) →
  allblocks (at_inode fs' n i) = allblocks (at_inode fs n i) ∧
  file_ok (at_inode fs' n i) ∧ same_content fs fs' n i.
Proof.
  intros Hok Hfs' [Hn Hun] HX. set (s := at_inode fs n i) in *. set (s' := at_inode fs' n i).
  assert (∀ b, b ∈ allblocks s → b ≠ 0 → used fs' b = true ∧ sect (dsk fs') b = sect (dsk fs) b) as Hkeep.
  { intros b Hin Hb. destruct (file_ok_elem s b) as [Hr Hu]; [done..|].
    apply Hun; [unfold s in Hr; cbn in Hr; lia|done|by apply HX]. }
  assert (allblocks s' = allblocks s) as Hall.
  { unfold allblocks, fblocks, identries. cbn. destruct (Z.eqb_spec (sfi_indirect i) 0) as [|Hne]; [done|].
    do 3 f_equal. destruct (Hkeep (sfi_indirect i)) as [_ Heq]; [|done|].
    - unfold allblocks. cbn. right. by left.
    - unfold f_dsk. cbn. by rewrite Heq. }
  assert (file_ok s') as Hok'.
  { destruct Hok as (_ & Hwf & Hino & [Hu Hinj]). split_and!; try done. unfold blocks_ok. rewrite Hall.
    split; [|done]. intros k b Hk Hb. cbn. rewrite Hn. destruct (Hu k b Hk Hb) as [Hr _]. split; [done|].
    apply Hkeep; [by eapply list_elem_of_lookup_2|done]. }
  split_and!; [done..|]. split; [exact Hall|]. intros p Hp. unfold MAXSIZE in Hp. fold s s'. unfold content.
  rewrite (allblocks_fblock s s') by done.
  destruct (Z.eqb_spec (fblock s (p / 512)) 0); [done|].
  pose proof (fblock_range _ p Hp eq_refl) as Hk. pose proof (fblock_lookup s _ Hok Hk) as Hl.
  destruct (Hkeep (fblock s (p / 512))) as [_ Heq]; [|done|].
  - apply list_elem_of_lookup. by exists (S (S (Z.to_nat (p / 512)))).
  - unfold f_dsk. cbn. by rewrite Heq.
Qed.

(** A directory with the same content is the same directory. *)
Lemma at_dir_slots fs fs' n i :
  dir_ok (at_inode fs n i) → same_content fs fs' n i →
  (∀ j, 0 ≤ j < nent (at_inode fs n i) → entry (at_inode fs' n i) j = entry (at_inode fs n i) j) ∧
  ∀ j nm, names (at_inode fs' n i) j nm ↔ names (at_inode fs n i) j nm.
Proof.
  intros Hd [_ Hc]. destruct (dir_size _ Hd) as [Hs Hn].
  assert (∀ j, 0 ≤ j < nent (at_inode fs n i) → entry (at_inode fs' n i) j = entry (at_inode fs n i) j) as He.
  { intros j Hj. unfold entry. f_equal. apply frange_ext. intros p Hp. apply Hc. unfold MAXSIZE. lia. }
  split; [done|]. intros j nm. unfold names. change (nent (at_inode fs' n i)) with (nent (at_inode fs n i)).
  split; intros (Hj & H1 & H2); [rewrite He in H1, H2 by done|rewrite He by done]; done.
Qed.

Lemma at_dir fs fs' n i :
  dir_ok (at_inode fs n i) → file_ok (at_inode fs' n i) → same_content fs fs' n i →
  dir_ok (at_inode fs' n i) ∧
  ∀ nm m, dir_maps (at_inode fs' n i) nm m ↔ dir_maps (at_inode fs n i) nm m.
Proof.
  intros Hd Hok' Hc. destruct (at_dir_slots _ _ _ _ Hd Hc) as [He Hnm]. split.
  - destruct Hd as (_ & ? & ? & ? & Hu). split_and!; try done. intros j j' nm. rewrite !Hnm. apply Hu.
  - intros nm m. unfold dir_maps. split; intros (j & Hj & <-); exists j; apply Hnm in Hj as Hj';
      (split; [done|]); destruct Hj as [? _]; by rewrite He.
Qed.

(** ** The invariant *)

Definition ops_of (i : sfs_inode) : sfs_ops :=
  if sfi_type i =? SFS_TYPE_FILE then SfsFileOps else SfsDirOps.

Definition vnode_ok (sv : sfs_vnode) : Prop :=
  1 ≤ vn_refcount (sv_v sv) ∧ 0 ≤ vn_opencount (sv_v sv) ∧ vn_countlock (sv_v sv) = true ∧
  vn_ops (sv_v sv) = Some (ops_of (sv_i sv)).

(** The root directory, and the names in it. *)
Definition rootdir fs I : fstate D := at_inode fs SFS_ROOT_LOCATION (I !!! SFS_ROOT_LOCATION).

Definition loaded w (n : Z) (p : Z) (sv : sfs_vnode) : Prop :=
  w_heap w !! p = Some sv ∧ sv_ino sv = n.

(** [δ n] is by how much the link count of file [n] falls short of the number
    of its names; it is 0 for all of them between operations. *)
Record vol w I δ : Prop := {
  v_fs : fs_ok (w_fs w);
  v_mounted : mounted (w_fs w);
  v_table : ∃ l, array_repr (sfs_vnodes (w_fs w)) l ∧ NoDup l ∧
    ∀ p, p ∈ l ↔ is_Some (w_heap w !! p);
  v_heap : ∀ p sv, w_heap w !! p = Some sv →
    p < w_next w ∧ vnode_ok sv ∧ I !! sv_ino sv = Some (sv_i sv);
  v_inj : ∀ p p' sv sv', w_heap w !! p = Some sv → w_heap w !! p' = Some sv' →
    sv_ino sv = sv_ino sv' → p = p';
  v_disk : ∀ n i, I !! n = Some i →
    sect (dsk (w_fs w)) n = encode_inode i ∨ ∃ p sv, loaded w n p sv ∧ sv_dirty sv = true;
  v_file : ∀ n i, I !! n = Some i → file_ok (at_inode (w_fs w) n i);
  v_disj : ∀ n m i j b, n ≠ m → I !! n = Some i → I !! m = Some j → b ≠ 0 →
    b ∈ allblocks (at_inode (w_fs w) n i) → b ∉ allblocks (at_inode (w_fs w) m j);
  v_fits : SFS_MAP_LOCATION + SFS_FS_BITBLOCKS (w_fs w) ≤ nblk (w_fs w);
  v_sys : ∀ b, SFS_MAP_LOCATION ≤ b < SFS_MAP_LOCATION + SFS_FS_BITBLOCKS (w_fs w) →
    used (w_fs w) b = true ∧ ∀ n i, I !! n = Some i → b ∉ allblocks (at_inode (w_fs w) n i);
  v_root : is_Some (I !! SFS_ROOT_LOCATION) ∧ dir_ok (rootdir (w_fs w) I) ∧
    sfi_linkcount (I !!! SFS_ROOT_LOCATION) ≠ 0;
  v_types : ∀ n i, I !! n = Some i → n ≠ SFS_ROOT_LOCATION → sfi_type i = SFS_TYPE_FILE;
  v_names : ∀ name n, dir_maps (rootdir (w_fs w) I) name n →
    n ≠ SFS_ROOT_LOCATION ∧ is_Some (I !! n);
  v_links : ∀ n i, I !! n = Some i → n ≠ SFS_ROOT_LOCATION →
    ∃ l, NoDup l ∧ (∀ name, name ∈ l ↔ dir_maps (rootdir (w_fs w) I) name n) ∧
      sfi_linkcount i + δ n = Z.of_nat (length l);
  v_orphan : ∀ n i, I !! n = Some i → sfi_linkcount i = 0 → ∃ p sv, loaded w n p sv;
}.

(** The files outside [S] are the same, with the same content. *)
Definition same_files (S : gset Z) w w' I I' : Prop :=
  ∀ n i, n ∉ S → I !! n = Some i → I' !! n = Some i ∧ same_content (w_fs w) (w_fs w') n i.

(** ** One file changes *)

(** What an operation on one file does to the volume: the file keeps its
    number and type, gains only free blocks, and the blocks of others are left
    alone.  An inode that is not dirty is on the disk. *)
Definition file_step fs sv fs' sv' : Prop :=
  let s := mkF fs sv in let s' := mkF fs' sv' in
  file_ok s' ∧ sv_ino sv' = sv_ino sv ∧ (vnode_ok sv → vnode_ok sv') ∧
  sfi_type (sv_i sv') = sfi_type (sv_i sv) ∧
  sfs_super_of fs' = sfs_super_of fs ∧ sfs_vnodes fs' = sfs_vnodes fs ∧ same_flags fs fs' ∧
  untouched fs fs' (λ b, owned s b ∨ b = sv_ino sv) ∧
  (∀ b, owned s' b → owned s b ∨ used fs b = false) ∧
  (sv_dirty sv' = false → sect (dsk fs') (sv_ino sv) = encode_inode (sv_i sv')).

Lemma frame_untouched s s' :
  nblk (f_fs s') = nblk (f_fs s) → frame s s' → untouched (f_fs s) (f_fs s') (owned s).
Proof. intros Hn (Hu & Hs & _). split; [done|]. intros b Hb Hub Hno. split; [apply Hu; [lia|done]|by apply Hs]. Qed.

Lemma untouched_weaken fs fs' (X Y : Z → Prop) :
  untouched fs fs' X → (∀ b, X b → Y b) → untouched fs fs' Y.
Proof. intros [Hn H] HXY. split; [done|]. intros b Hb Hu HY. apply H; [done..|]. intros HX. by apply HY, HXY. Qed.

Lemma ino_not_owned s : file_ok s → ¬ owned s (sv_ino (f_sv s)).
Proof.
  intros (_ & _ & _ & [_ Hinj]) [Hne [k Hk]]. assert (S k = 0%nat); [|done].
  by apply (Hinj _ _ (sv_ino (f_sv s))).
Qed.

Lemma ino_used s : file_ok s → 0 < sv_ino (f_sv s) < nblk (f_fs s) ∧ f_used s (sv_ino (f_sv s)) = true.
Proof. intros (_ & _ & Hino & [Hu _]). by apply (Hu 0%nat). Qed.

(** Reading and writing a file, and the directory operations. *)
Lemma frame_step fs sv s' :
  file_ok (mkF fs sv) → file_ok s' → frame (mkF fs sv) s' → same_file (mkF fs sv) s' →
  (sv_dirty sv = false → sect (dsk fs) (sv_ino sv) = encode_inode (sv_i sv)) →
  file_step fs sv (f_fs s') (f_sv s').
Proof.
  intros Hok Hok' Hf Hsame Hclean. pose proof (same_file_nblk _ _ Hsame) as Hn.
  destruct Hsame as (?&Hsv&Hty&?&?&?&Hd&?). destruct s' as [fs' sv']. cbn in *.
  pose proof (frame_untouched (mkF fs sv) (mkF fs' sv') Hn Hf) as Hun.
  split_and!; try done.
  - unfold vnode_ok, ops_of. unfold f_inode in Hty. cbn in Hty. by rewrite Hsv, Hty.
  - eapply untouched_weaken; [done|]. by left.
  - intros b Ho. destruct Hf as (_ & _ & Hg). destruct (Hg b Ho) as [?|[_ ?]]; [by left|by right].
  - intros Hcl. specialize (Hd Hcl). subst sv'. rewrite <-(Hclean Hcl).
    destruct (ino_used _ Hok) as [? ?]. destruct Hun as [_ Hun]. apply Hun; [cbn; cbn in *; lia|done|].
    by apply (ino_not_owned (mkF fs sv)).
Qed.

(** Releasing blocks of a file. *)
Lemma shrunk_step fs sv s' :
  file_ok (mkF fs sv) → shrunk (mkF fs sv) s' →
  (sv_dirty sv = false → sect (dsk fs) (sv_ino sv) = encode_inode (sv_i sv)) →
  file_step fs sv (f_fs s') (f_sv s').
Proof.
  intros Hok (Hok' & Hsame & Hown & Hus & Hs) Hclean. pose proof (same_file_nblk _ _ Hsame) as Hn.
  destruct Hsame as (?&Hsv&Hty&?&?&?&Hd&?). destruct s' as [fs' sv']. cbn in *. set (s := mkF fs sv) in *.
  assert (∀ b, 0 ≤ b → ¬ owned s b → sect (dsk fs') b = sect (dsk fs) b) as Hsec.
  { intros b Hb Hno. apply Hs; [done|]. intros ->. apply dec_stable. intros Hne.
    by apply Hno, owned_indirect. }
  split_and!; try done.
  - unfold vnode_ok, ops_of. unfold f_inode in Hty. cbn in Hty. by rewrite Hsv, Hty.
  - split; [done|]. intros b Hb Hub Hno. assert (¬ owned s b) as Hno' by (intros Ho; apply Hno; by left).
    split; [|apply Hsec; [lia|done]]. destruct (decide (b = 0)) as [->|].
    + by destruct Hok' as ((_&_&_&_&Hz&_) & _).
    + apply Hus; [lia|]. by split.
  - intros b Ho. left. by apply Hown.
  - intros Hcl. specialize (Hd Hcl). subst sv'. rewrite <-(Hclean Hcl).
    destruct (ino_used _ Hok) as [? ?]. apply Hsec; [cbn in *; lia|]. by apply (ino_not_owned s).
Qed.

(** ** The invariant after a step on one file *)

Lemma mounted_step fs fs' :
  mounted fs → fs_ok fs' → sfs_super_of fs' = sfs_super_of fs → same_flags fs fs' →
  SFS_MAP_LOCATION + SFS_FS_BITBLOCKS fs ≤ nblk fs →
  (∀ b, b = 0 ∨ SFS_MAP_LOCATION ≤ b < SFS_MAP_LOCATION + SFS_FS_BITBLOCKS fs →
     sect (dsk fs') b = sect (dsk fs) b) →
  mounted fs'.
Proof.
  intros (Hd & Hwf & Hm & Hv & Hn & Hdev & Hnb & Hbm & Hsup & Hmap) (Hd' & Hbm' & Hn' & _) Hs (Hf1 & Hf2 & Hf3) Hfit Hsec.
  unfold mounted, nblk, SFS_FS_BITBLOCKS, SFS_FS_BITMAPSIZE, super_on_disk, map_on_disk in *.
  rewrite Hs in *. split_and!; try done; try lia; try congruence.
  - rewrite Hf1, Hsec by (by left). done.
  - intros Hf. destruct (Hf3 Hf) as [Hf3' ->]. intros j Hj. unfold SFS_FS_BITBLOCKS in *. rewrite Hs in Hj.
    rewrite Hsec by (right; lia). apply Hmap; [done|]. exact Hj.
Qed.

Lemma vol_clean w I δ p sv :
  vol w I δ → w_heap w !! p = Some sv → sv_dirty sv = false →
  sect (dsk (w_fs w)) (sv_ino sv) = encode_inode (sv_i sv).
Proof.
  intros Hv Hp Hcl. destruct (v_heap _ _ _ Hv p sv Hp) as (_ & _ & HI).
  destruct (v_disk _ _ _ Hv _ _ HI) as [?|(p' & sv' & [Hp' Hn] & Hd)]; [done|].
  rewrite (v_inj _ _ _ Hv p' p sv' sv Hp' Hp Hn) in Hp'. congruence.
Qed.

Lemma elem_allblocks_own fs sv b :
  b ≠ 0 → b ∈ allblocks (at_inode fs (sv_ino sv) (sv_i sv)) ↔ b = sv_ino sv ∨ owned (mkF fs sv) b.
Proof.
  intros Hb. unfold owned. rewrite list_elem_of_lookup. split.
  - intros [[|k] Hk]; [left; cbn in Hk; congruence|right]. split; [done|by exists k].
  - intros [->|[_ [k Hk]]]; [by exists 0%nat|by exists (S k)].
Qed.

(** The other files after a step on one of them. *)
Lemma step_other w I δ p sv fs' sv' m j :
  vol w I δ → w_heap w !! p = Some sv → file_step (w_fs w) sv fs' sv' →
  m ≠ sv_ino sv → I !! m = Some j →
  allblocks (at_inode fs' m j) = allblocks (at_inode (w_fs w) m j) ∧
  file_ok (at_inode fs' m j) ∧ same_content (w_fs w) fs' m j ∧
  sect (dsk fs') m = sect (dsk (w_fs w)) m.
Proof.
  intros Hv Hp (Hok' & _ & _ & _ & _ & _ & _ & Hun & _) Hm Hj.
  destruct (v_heap _ _ _ Hv p sv Hp) as (_ & _ & HI). pose proof (v_file _ _ _ Hv _ _ Hj) as Hf.
  assert (∀ b, b ∈ allblocks (at_inode (w_fs w) m j) → b ≠ 0 → ¬ (owned (mkF (w_fs w) sv) b ∨ b = sv_ino sv)) as HX.
  { intros b Hb Hb0 Hor. apply (v_disj _ _ _ Hv (sv_ino sv) m (sv_i sv) j b); [done..| |done].
    apply elem_allblocks_own; [done|]. tauto. }
  destruct (at_untouched _ _ _ _ _ Hf (proj1 Hok') Hun HX) as (? & ? & ?). split_and!; try done.
  destruct (ino_used _ Hf) as [Hr Hu]. destruct Hun as [_ Hun]. apply Hun; [cbn in Hr; lia|done|].
  apply HX; [by left|]. cbn in Hr. lia.
Qed.

(** A block in use that is none of the file's is none of the file's after. *)
Lemma step_gained fs sv fs' sv' b :
  file_step fs sv fs' sv' → b ≠ 0 → used fs b = true →
  b ∈ allblocks (at_inode fs' (sv_ino sv) (sv_i sv')) → b ∈ allblocks (at_inode fs (sv_ino sv) (sv_i sv)).
Proof.
  intros (_ & Hino & _ & _ & _ & _ & _ & _ & Hg & _) Hb Hu Hin. rewrite <-Hino in Hin.
  apply elem_allblocks_own in Hin; [|done]. apply elem_allblocks_own; [done|].
  destruct Hin as [->|Ho]; [by left|]. destruct (Hg b Ho); [by right|congruence].
Qed.

(** What a step on the root directory has to establish about the names. *)
Definition names_ok I δ (s : fstate D) : Prop :=
  dir_ok s ∧
  (∀ name n, dir_maps s name n → n ≠ SFS_ROOT_LOCATION ∧ is_Some (I !! n)) ∧
  (∀ n i, I !! n = Some i → n ≠ SFS_ROOT_LOCATION →
     ∃ l, NoDup l ∧ (∀ name, name ∈ l ↔ dir_maps s name n) ∧
       sfi_linkcount i + δ n = Z.of_nat (length l)).

(** The shortfall of the link counts after a step on the file of [sv]. *)
Definition links_step I δ δ' fs' (sv sv' : sfs_vnode) : Prop :=
  if decide (sv_ino sv = SFS_ROOT_LOCATION)
  then names_ok I δ' (mkF fs' sv') ∧ sfi_linkcount (sv_i sv') = sfi_linkcount (sv_i sv)
  else ∀ n, δ' n = δ n - if decide (n = sv_ino sv)
    then sfi_linkcount (sv_i sv') - sfi_linkcount (sv_i sv) else 0.

Definition put_file w fs' p sv' : world D := mkW fs' (<[p := sv']> (w_heap w)) (w_next w) (w_mem w).

Lemma root_after w I δ p sv fs' sv' δ' :
  vol w I δ → w_heap w !! p = Some sv → file_step (w_fs w) sv fs' sv' →
  links_step I δ δ' fs' sv sv' →
  is_Some (<[sv_ino sv := sv_i sv']> I !! SFS_ROOT_LOCATION) ∧
  names_ok (<[sv_ino sv := sv_i sv']> I) δ' (rootdir fs' (<[sv_ino sv := sv_i sv']> I)) ∧
  sfi_linkcount (<[sv_ino sv := sv_i sv']> I !!! SFS_ROOT_LOCATION) ≠ 0.
Proof.
  intros Hv Hp Hstep Hroot. pose proof (v_root _ _ _ Hv) as (Hr1 & Hr2 & Hr3).
  destruct (v_heap _ _ _ Hv p sv Hp) as (_ & _ & HI). unfold links_step in Hroot. case_decide as Hn.
  - unfold rootdir. rewrite Hn, lookup_insert_eq, lookup_total_insert_eq. rewrite Hn in HI.
    rewrite (lookup_total_correct _ _ _ HI) in Hr3. destruct Hstep as (_ & Hino & _).
    destruct Hroot as [(Hd & Hnm & Hlk) Hlc]. rewrite Hn in Hino.
    split_and!; [done| |by rewrite Hlc]. unfold at_inode. rewrite <-Hino.
    split_and!; [exact Hd|..].
    + intros name n Hm. rewrite Hino. destruct (Hnm name n Hm) as [? ?]. split; [done|].
      apply lookup_insert_is_Some'. by right.
    + intros n i Hni Hne. rewrite Hino, lookup_insert_ne in Hni by done. exact (Hlk n i Hni Hne).
  - unfold rootdir. rewrite lookup_insert_ne, lookup_total_insert_ne by done.
    apply lookup_lookup_total in Hr1 as HI1.
    destruct (step_other _ _ _ _ _ _ _ _ _ Hv Hp Hstep (not_eq_sym Hn) HI1) as (_ & Hok & Hc & _).
    destruct (at_dir _ _ _ _ Hr2 Hok Hc) as [Hd Hmaps]. split_and!; try done. split_and!; [done|..].
    + intros name n. rewrite Hmaps. intros Hm. destruct (v_names _ _ _ Hv name n Hm). split; [done|].
      apply lookup_insert_is_Some'. by right.
    + intros n i [[<- <-]|[Hne' Hni]]%lookup_insert_Some Hne;
        [destruct (v_links _ _ _ Hv _ _ HI Hne) as (l & ? & Hl & ?)
        |destruct (v_links _ _ _ Hv n i Hni Hne) as (l & ? & Hl & ?)]; exists l;
        (split_and!; [done|intros name; rewrite Hmaps; apply Hl|]); rewrite Hroot;
        [rewrite decide_True by done|rewrite decide_False by done]; lia.
Qed.

Lemma vol_step w I δ p sv fs' sv' δ' :
  vol w I δ → w_heap w !! p = Some sv → file_step (w_fs w) sv fs' sv' →
  links_step I δ δ' fs' sv sv' →
  vol (put_file w fs' p sv') (<[sv_ino sv := sv_i sv']> I) δ' ∧
  same_files {[sv_ino sv]} w (put_file w fs' p sv') I (<[sv_ino sv := sv_i sv']> I).
Proof.
  intros Hv Hp Hstep Hroot. destruct (root_after _ _ _ _ _ _ _ _ Hv Hp Hstep Hroot) as (HR1 & (HR2 & HR3 & HR4) & HR5).
  pose proof (λ m j, step_other _ _ _ _ _ _ _ m j Hv Hp Hstep) as Hother.
  pose proof (λ b, step_gained _ _ _ _ b Hstep) as Hgain.
  destruct (v_heap _ _ _ Hv p sv Hp) as (Hpn & Hvn & HI).
  destruct Hstep as (Hok' & Hino & Hsv & Hty & Hsup & Hvt & Hfl & Hun & _ & Hcl).
  assert (at_inode fs' (sv_ino sv) (sv_i sv') = at_inode fs' (sv_ino sv') (sv_i sv')) as Hat by by rewrite Hino.
  assert (∀ p' sv'', w_heap (put_file w fs' p sv') !! p' = Some sv'' →
    (p' = p ∧ sv'' = sv') ∨ (p' ≠ p ∧ w_heap w !! p' = Some sv'' ∧ sv_ino sv'' ≠ sv_ino sv)) as Hheap.
  { intros p' sv''. cbn. intros [[<- <-]|[Hne Hp']]%lookup_insert_Some; [by left|right]. split_and!; [done..|].
    intros Heq. by apply Hne, (v_inj _ _ _ Hv p p' sv sv''). }
  assert (∀ n q sv2, loaded w n q sv2 → ∃ q' sv3, loaded (put_file w fs' p sv') n q' sv3 ∧
    (n ≠ sv_ino sv → q' = q ∧ sv3 = sv2)) as Hload.
  { intros n q sv2 [Hq Hn]. destruct (decide (q = p)) as [->|Hne].
    - exists p, sv'. split; [split; [by apply lookup_insert_eq|congruence]|]. intros Hx. congruence.
    - exists q, sv2. split; [|done]. split; [cbn; by rewrite lookup_insert_ne|done]. }
  assert (SFS_FS_BITBLOCKS fs' = SFS_FS_BITBLOCKS (w_fs w)) as Hbb by (unfold SFS_FS_BITBLOCKS; by rewrite Hsup).
  split.
  2: { intros n i Hn Hni. assert (n ≠ sv_ino sv) as Hne by set_solver. rewrite lookup_insert_ne by done.
       split; [done|]. by destruct (Hother n i Hne Hni) as (_ & _ & ? & _). }
  constructor; cbn [w_fs w_heap w_next put_file].
  - by destruct Hok'.
  - apply (mounted_step (w_fs w)); [by apply (v_mounted _ _ _ Hv)|by destruct Hok'|done|done|by apply (v_fits _ _ _ Hv)|].
    intros b Hb. destruct Hun as [_ Hun]. pose proof (v_fs _ _ _ Hv) as (_&_&?&_&H0&_).
    pose proof (v_fits _ _ _ Hv). unfold SFS_MAP_LOCATION in *. apply Hun; [lia|..].
    + destruct Hb as [->|Hb]; [done|]. by destruct (v_sys _ _ _ Hv b Hb).
    + intros Ho. assert (b ≠ 0) as Hb0.
      { intros ->. destruct Ho as [[? _]|Ho]; [done|]. destruct (ino_used _ Hok') as [Hr _]. cbn in Hr. lia. }
      destruct Hb as [?|Hb]; [done|]. destruct (v_sys _ _ _ Hv b Hb) as [_ Hs]. apply (Hs _ _ HI).
      apply elem_allblocks_own; tauto.
  - destruct (v_table _ _ _ Hv) as (l & Hl1 & Hl2 & Hl3). exists l. rewrite Hvt. split_and!; try done.
    intros q. rewrite Hl3, lookup_insert_is_Some'. split; [by right|]. intros [->|]; [by rewrite Hp|done].
  - intros q sv2 Hq. destruct (Hheap q sv2 Hq) as [[-> ->]|(_ & Hq' & Hne)].
    + rewrite Hino, lookup_insert_eq. split_and!; try done. by apply Hsv.
    + rewrite lookup_insert_ne by done. by apply (v_heap _ _ _ Hv).
  - intros q q' sv2 sv3 Hq Hq' Heq. destruct (Hheap q sv2 Hq) as [[-> ->]|(_ & Hq2 & Hne)],
      (Hheap q' sv3 Hq') as [[-> ->]|(_ & Hq3 & Hne')]; try congruence. by apply (v_inj _ _ _ Hv q q' sv2 sv3).
  - intros n i [[<- <-]|[Hne Hni]]%lookup_insert_Some.
    + destruct (sv_dirty sv') eqn:Ed; [right|left; by apply Hcl]. exists p, sv'. split; [|done].
      split; [by apply lookup_insert_eq|done].
    + destruct (Hother n i (not_eq_sym Hne) Hni) as (_ & _ & _ & ->). destruct (v_disk _ _ _ Hv n i Hni) as [?|(q & sv2 & Hq & Hd)]; [by left|].
      right. destruct (Hload _ _ _ Hq) as (q' & sv3 & ? & Heq). destruct Heq as [-> ->]; [done|]. by exists q, sv2.
  - intros n i [[<- <-]|[Hne Hni]]%lookup_insert_Some; [by rewrite Hat|]. by destruct (Hother n i (not_eq_sym Hne) Hni) as (_ & ? & _).
  - assert (∀ m j b, m ≠ sv_ino sv → I !! m = Some j → b ≠ 0 →
      b ∈ allblocks (at_inode fs' m j) → b ∉ allblocks (at_inode fs' (sv_ino sv) (sv_i sv'))) as Hd.
    { intros m j b Hm Hj Hb. destruct (Hother m j Hm Hj) as (-> & _ & _). intros Hin Hin'.
      destruct (file_ok_elem _ b (v_file _ _ _ Hv _ _ Hj) Hin Hb) as [_ Hu].
      apply (v_disj _ _ _ Hv m (sv_ino sv) j (sv_i sv) b); try done. by apply Hgain. }
    intros n m i j b Hnm [[<- <-]|[Hne Hni]]%lookup_insert_Some [[<- <-]|[Hne' Hmj]]%lookup_insert_Some Hb Hin; try done.
    + intros Hin'. by apply (Hd m j b (not_eq_sym Hne') Hmj Hb Hin').
    + by apply (Hd n i b (not_eq_sym Hne) Hni Hb).
    + destruct (Hother n i (not_eq_sym Hne) Hni) as (Heq & _), (Hother m j (not_eq_sym Hne') Hmj) as (Heq' & _).
      rewrite Heq in Hin. rewrite Heq'. by apply (v_disj _ _ _ Hv n m i j b).
  - rewrite Hbb. pose proof (v_fits _ _ _ Hv). unfold nblk in *. by rewrite Hsup.
  - intros b Hb. rewrite Hbb in Hb. destruct (v_sys _ _ _ Hv b Hb) as [Hu Hs]. unfold SFS_MAP_LOCATION in *. split.
    + destruct Hun as [_ Hun]. pose proof (v_fits _ _ _ Hv). unfold SFS_MAP_LOCATION in *. apply Hun; [lia|done|].
      intros Ho. apply (Hs _ _ HI). apply elem_allblocks_own; [lia|tauto].
    + intros n i [[<- <-]|[Hne Hni]]%lookup_insert_Some.
      * intros Hin. apply (Hs _ _ HI), Hgain; [lia|done..].
      * destruct (Hother n i (not_eq_sym Hne) Hni) as (-> & _). by apply Hs.
  - done.
  - intros n i [[<- <-]|[Hne Hni]]%lookup_insert_Some Hn1; [rewrite Hty|]; by eapply (v_types _ _ _ Hv).
  - exact HR3.
  - exact HR4.
  - intros n i [[<- <-]|[Hne Hni]]%lookup_insert_Some Hl.
    + exists p, sv'. split; [by apply lookup_insert_eq|done].
    + destruct (v_orphan _ _ _ Hv n i Hni Hl) as (q & sv2 & Hq). destruct (Hload _ _ _ Hq) as (q' & sv3 & ? & _). eauto.
Qed.

(** ** Access to the state *)

Lemma w_get_wp w p sv (Q : sfs_vnode → world D → Prop) :
  w_heap w !! p = Some sv → Q sv w → swp (w_get p) w Q.
Proof. intros Hp HQ. unfold swp, w_get. by rewrite Hp. Qed.

Lemma w_getv_wp w p sv (Q : vnode sfs_ops → world D → Prop) :
  w_heap w !! p = Some sv → Q (sv_v sv) w → swp (w_getv p) w Q.
Proof. intros Hp HQ. apply swp_bind. eapply w_get_wp; [done|]. by apply swp_ret. Qed.

Lemma w_put_wp w p sv sv' (Q : unit → world D → Prop) :
  w_heap w !! p = Some sv → Q tt (put_file w (w_fs w) p sv') → swp (w_put p sv') w Q.
Proof. intros Hp HQ. unfold swp, w_put. by rewrite Hp. Qed.

Lemma w_on_fs_wp {A} (m : stm (sfs_fs D) A) w (Q : A → world D → Prop) :
  swp m (w_fs w) (λ a fs', Q a (mkW fs' (w_heap w) (w_next w) (w_mem w))) → swp (w_on_fs m) w Q.
Proof. unfold swp, w_on_fs. intros H. apply wp_bind. eapply wp_mono; [exact H|]. by intros [a fs']. Qed.

Lemma with_file_wp {A} p sv (m : stm (fstate D) A) w (Q : A → world D → Prop) :
  w_heap w !! p = Some sv →
  swp m (mkF (w_fs w) sv) (λ a s', Q a (put_file w (f_fs s') p (f_sv s'))) →
  swp (with_file p m) w Q.
Proof.
  intros Hp H. unfold with_file. apply swp_bind. eapply w_get_wp; [done|].
  apply swp_bind, swp_gets, swp_bind, swp_lift. eapply wp_mono; [exact H|]. intros [a s'] HQ.
  apply swp_bind, w_on_fs_wp, swp_modify. apply swp_bind. eapply w_put_wp; [done|]. by apply swp_ret.
Qed.

Lemma put_file_id w p sv : w_heap w !! p = Some sv → put_file w (w_fs w) p sv = w.
Proof. intros Hp. unfold put_file. rewrite insert_id by done. by destruct w. Qed.

(** ** Steps that leave the files alone *)

Lemma vol_names w I δ p sv :
  vol w I δ → w_heap w !! p = Some sv → sv_ino sv = SFS_ROOT_LOCATION →
  names_ok I δ (mkF (w_fs w) sv) ∧ ∀ nm n, dir_maps (mkF (w_fs w) sv) nm n ↔ dir_maps (rootdir (w_fs w) I) nm n.
Proof.
  intros Hv Hp Hn. destruct (v_heap _ _ _ Hv p sv Hp) as (_ & _ & HI). rewrite Hn in HI.
  pose proof (v_root _ _ _ Hv) as (_ & Hd & _). pose proof (v_names _ _ _ Hv) as Hnm. pose proof (v_links _ _ _ Hv) as Hl.
  unfold rootdir, at_inode in *. rewrite (lookup_total_correct _ _ _ HI), <-Hn in *.
  split; [|done]. split_and!; [exact Hd| |]; rewrite <-Hn; [exact Hnm|exact Hl].
Qed.

(** Changing the counts of a vnode. *)
Lemma vol_setv w I δ p sv v :
  vol w I δ → w_heap w !! p = Some sv →
  let sv' := mkSv v (sv_i sv) (sv_ino sv) (sv_dirty sv) in
  vnode_ok sv' → vol (put_file w (w_fs w) p sv') I δ.
Proof.
  intros Hv Hp sv' Hok. destruct (v_heap _ _ _ Hv p sv Hp) as (_ & _ & HI).
  pose proof (v_file _ _ _ Hv _ _ HI) as Hf.
  destruct (vol_step w I δ p sv (w_fs w) sv' δ) as [Hvol _]; try done.
  - split_and!; try done; [by left|]. intros Hcl. exact (vol_clean w I δ p sv Hv Hp Hcl).
  - unfold links_step. case_decide as Hn.
    + split; [|done]. by apply (vol_names w I δ p sv).
    + intros n. case_decide; cbn; lia.
  - cbn in Hvol. by rewrite insert_id in Hvol.
Qed.

(** A step that only reads. *)
Lemma vol_eqv w I δ p sv s' :
  vol w I δ → w_heap w !! p = Some sv → eqv (mkF (w_fs w) sv) s' →
  vol (put_file w (f_fs s') p (f_sv s')) I δ ∧
  same_files ∅ w (put_file w (f_fs s') p (f_sv s')) I I ∧ f_sv s' = sv.
Proof.
  intros Hv Hp Heq. pose proof Heq as [Hsv _]. cbn in Hsv.
  destruct (v_heap _ _ _ Hv p sv Hp) as (_ & _ & HI).
  assert (file_ok (mkF (w_fs w) sv)) as Hf by exact (v_file _ _ _ Hv _ _ HI).
  destruct (eqv_frame _ _ Hf Heq) as [Hfr Hsame].
  destruct (vol_step w I δ p sv (f_fs s') (f_sv s') δ) as [Hvol Hfiles]; try done.
  - apply frame_step; try done; [by eapply eqv_ok|]. by apply (vol_clean w I δ p).
  - unfold links_step. case_decide as Hn; [|intros n; rewrite Hsv; case_decide; lia].
    rewrite Hsv. split; [|done]. destruct (vol_names _ _ _ _ _ Hv Hp Hn) as [(Hd & Hnm & Hl) _].
    rewrite <-Hsv. destruct s' as [fs' sv']. cbn in *. split_and!.
    + by eapply eqv_dir_ok.
    + intros name n. rewrite (eqv_maps _ _ _ _ Heq). apply Hnm.
    + intros n i Hni Hne. destruct (Hl n i Hni Hne) as (l & ? & Hin & ?). exists l. split_and!; try done.
      intros name. rewrite (eqv_maps _ _ _ _ Heq). apply Hin.
  - rewrite Hsv, insert_id in Hvol, Hfiles by done. rewrite Hsv. split_and!; try done.
    intros n i _ Hni. destruct (decide (n = sv_ino sv)) as [->|Hne]; [|apply Hfiles; [set_solver|done]].
    split; [done|]. rewrite HI in Hni. injection Hni as <-. unfold put_file. cbn.
    destruct s' as [fs' sv']. cbn in Hsv. subst sv'. destruct (eqv_views _ _ Heq) as (_&_&Hall&_).
    split; [unfold allblocks; cbn; do 2 f_equal; exact Hall|]. intros q Hq. exact (eqv_content _ _ q Heq).
Qed.
End vol.
