(* ===== verification/SfsOps.v ===== *)
(** * The operations of SFS on files and names

    Every operation keeps the invariant [vol] of the volume, and does to the
    names and the files what it says. *)

From S2P Require Import Prelude Array Bitmap Copyinout Uio SfsDisk Dev Vnode SfsIo SfsFile Lhd SfsRw.
From S2P Require Import SfsDir SfsNames SfsVnode SfsFs SfsTrunc SfsVol.

Section ops.
Context {D : Type} `{!BlockDev D} `{!Disk D} {cs : CurSpace}.
Implicit Types (w : world D) (fs : sfs_fs D) (s : fstate D) (I : gmap Z sfs_inode) (δ : Z → Z).

(** ** Structural steps *)

(** The root directory is the same when it is untouched. *)
Lemma rootdir_same fs fs' I δ :
  dir_ok (rootdir fs I) → file_ok (rootdir fs' I) →
  same_content fs fs' SFS_ROOT_LOCATION (I !!! SFS_ROOT_LOCATION) →
  names_ok I δ (rootdir fs I) → names_ok I δ (rootdir fs' I).
Proof.
  intros Hd Hok Hc (_ & Hn & Hl). destruct (at_dir _ _ _ _ Hd Hok Hc) as [Hd' Hm].
  split_and!; [done|..].
  - intros name n. unfold rootdir. rewrite Hm. apply Hn.
  - intros n i Hni Hne. destruct (Hl n i Hni Hne) as (l & ? & Hin & ?). exists l. split_and!; try done.
    intros name. unfold rootdir. rewrite Hm. apply Hin.
Qed.

Lemma vol_rootnames w I δ : vol w I δ → names_ok I δ (rootdir (w_fs w) I).
Proof.
  intros Hv. destruct (v_root _ _ _ Hv) as (_ & Hd & _).
  split_and!; [done|by apply (v_names _ _ _ Hv)|by apply (v_links _ _ _ Hv)].
Qed.

(** The blocks of the volume: those of its files and of the free map. *)
Definition vblock w I (b : Z) : Prop :=
  b = 0 ∨ SFS_MAP_LOCATION ≤ b < SFS_MAP_LOCATION + SFS_FS_BITBLOCKS (w_fs w) ∨
  ∃ n i, I !! n = Some i ∧ b ∈ allblocks (at_inode (w_fs w) n i).

(** Only blocks that are none of the files' have changed. *)
Lemma vol_unowned w I δ fs' mem X :
  vol w I δ → fs_ok fs' → sfs_super_of fs' = sfs_super_of (w_fs w) →
  sfs_vnodes fs' = sfs_vnodes (w_fs w) → mounted fs' →
  untouched (w_fs w) fs' X →
  (∀ b n i, X b → b ≠ 0 → I !! n = Some i → b ∉ allblocks (at_inode (w_fs w) n i)) →
  (∀ b, SFS_MAP_LOCATION ≤ b < SFS_MAP_LOCATION + SFS_FS_BITBLOCKS (w_fs w) → used fs' b = true) →
  let w' := mkW fs' (w_heap w) (w_next w) mem in
  vol w' I δ ∧ same_files ∅ w w' I I.
Proof.
  intros Hv Hfs Hsup Hvn Hmnt Hun HX Hsys w'.
  assert (∀ n i, I !! n = Some i → allblocks (at_inode fs' n i) = allblocks (at_inode (w_fs w) n i) ∧
    file_ok (at_inode fs' n i) ∧ same_content (w_fs w) fs' n i ∧ sect (dsk fs') n = sect (dsk (w_fs w)) n) as Hall.
  { intros n i Hni. pose proof (v_file _ _ _ Hv n i Hni) as Hf.
    destruct (at_untouched (w_fs w) fs' X n i) as (? & ? & ?); try done.
    { intros b Hb Hb0 HXb. by apply (HX b n i HXb). }
    split_and!; try done. destruct (ino_used _ Hf) as [Hr Hu]. destruct Hun as [_ Hun].
    apply Hun; [cbn in Hr; lia|done|]. intros HXn. apply (HX n n i HXn); [cbn in Hr; lia|done|by left]. }
  assert (SFS_FS_BITBLOCKS fs' = SFS_FS_BITBLOCKS (w_fs w)) as Hbb by (unfold SFS_FS_BITBLOCKS; by rewrite Hsup).
  pose proof (v_root _ _ _ Hv) as (HR1 & HR2 & HR3). apply lookup_lookup_total in HR1 as HRI.
  destruct (Hall _ _ HRI) as (_ & HRok & HRc & _).
  destruct (rootdir_same (w_fs w) fs' I δ HR2 HRok HRc (vol_rootnames _ _ _ Hv)) as (HR4 & HR5 & HR6).
  split; [|intros n i _ Hni; split; [done|by apply Hall]].
  pose proof (v_fits _ _ _ Hv) as Hfits.
  assert (nblk fs' = nblk (w_fs w)) as Hn by (unfold nblk; by rewrite Hsup).
  constructor; cbn [w_fs w_heap w_next w']; try by apply Hv.
  - done.
  - done.
  - rewrite Hvn. apply (v_table _ _ _ Hv).
  - intros n i Hni. destruct (Hall n i Hni) as (_ & _ & _ & ->). by apply (v_disk _ _ _ Hv).
  - intros n i Hni. by apply Hall.
  - intros n m i j b Hnm Hni Hmj Hb. destruct (Hall n i Hni) as (-> & _), (Hall m j Hmj) as (-> & _).
    by apply (v_disj _ _ _ Hv).
  - by rewrite Hbb, Hn.
  - intros b Hb. rewrite Hbb in Hb. split; [by apply Hsys|].
    intros n i Hni. destruct (Hall n i Hni) as (-> & _). by apply (v_sys _ _ _ Hv b Hb).
  - done.
  - exact HR5.
  - exact HR6.
Qed.

(** Only blocks that are none of the volume's have changed. *)
Lemma vol_untouched w I δ fs' mem X :
  vol w I δ → fs_ok fs' → sfs_super_of fs' = sfs_super_of (w_fs w) →
  sfs_vnodes fs' = sfs_vnodes (w_fs w) → same_flags (w_fs w) fs' →
  untouched (w_fs w) fs' X → (∀ b, X b → ¬ vblock w I b) →
  let w' := mkW fs' (w_heap w) (w_next w) mem in
  vol w' I δ ∧ same_files ∅ w w' I I.
Proof.
  intros Hv Hfs Hsup Hvn Hfl Hun HX. pose proof (v_fits _ _ _ Hv) as Hfits. pose proof (v_fs _ _ _ Hv) as (_&_&?&_&H0&_).
  assert (∀ b, b = 0 ∨ SFS_MAP_LOCATION ≤ b < SFS_MAP_LOCATION + SFS_FS_BITBLOCKS (w_fs w) →
    used fs' b = true ∧ sect (dsk fs') b = sect (dsk (w_fs w)) b) as Hsys.
  { intros b Hb. unfold SFS_MAP_LOCATION in *. destruct Hun as [_ Hun]. apply Hun; [lia|..].
    - destruct Hb as [->|Hb]; [done|by apply (v_sys _ _ _ Hv)].
    - intros HXb. apply (HX b HXb). destruct Hb; [by left|right; by left]. }
  apply (vol_unowned w I δ fs' mem X); try done.
  - apply (mounted_step (w_fs w)); try done; [by apply (v_mounted _ _ _ Hv)|]. intros b Hb. by apply Hsys.
  - intros b n i HXb _ Hni Hin. apply (HX b HXb). right; right. by exists n, i.
  - intros b Hb. apply Hsys. by right.
Qed.

Definition set_vnodes (a : array Z) fs : sfs_fs D :=
  mkFs (sfs_super_of fs) (sfs_superdirty fs) (sfs_device fs) a (sfs_freemap fs) (sfs_freemapdirty fs).

(** A vnode for file [n] is added, which is a file of the volume already or a
    new one. *)
Lemma vol_add w I δ l a' sv n i mem :
  vol w I δ → array_repr (sfs_vnodes (w_fs w)) l → array_repr a' (l ++ [w_next w]) →
  (∀ p sv', ¬ loaded w n p sv') → sv_ino sv = n → sv_i sv = i → vnode_ok sv →
  (sv_dirty sv = false → sect (dsk (w_fs w)) n = encode_inode i) →
  (I !! n = Some i ∨ (I !! n = None ∧ n ≠ SFS_ROOT_LOCATION ∧ file_ok (at_inode (w_fs w) n i) ∧
     (∀ b, b ≠ 0 → b ∈ allblocks (at_inode (w_fs w) n i) → ¬ vblock w I b) ∧
     sfi_type i = SFS_TYPE_FILE ∧ sfi_linkcount i + δ n = 0)) →
  vol (mkW (set_vnodes a' (w_fs w)) (<[w_next w := sv]> (w_heap w)) (w_next w + 1) mem) (<[n := i]> I) δ.
Proof.
  intros Hv Hl Ha Hno Hn Hi Hok Hcl Hcase. pose proof (v_root _ _ _ Hv) as (HR1 & HR2 & HR3).
  assert (<[n := i]> I !!! SFS_ROOT_LOCATION = I !!! SFS_ROOT_LOCATION) as Hroot.
  { destruct (decide (n = SFS_ROOT_LOCATION)) as [Heq|Hne]; [|by rewrite lookup_total_insert_ne].
    destruct Hcase as [HI|(_ & ? & _)]; [|done]. by rewrite insert_id. }
  assert (w_heap w !! w_next w = None) as Hfresh.
  { destruct (w_heap w !! w_next w) as [sv'|] eqn:E; [|done]. destruct (v_heap _ _ _ Hv _ _ E). lia. }
  assert (∀ q sv', <[w_next w := sv]> (w_heap w) !! q = Some sv' →
    (q = w_next w ∧ sv' = sv) ∨ (w_heap w !! q = Some sv' ∧ sv_ino sv' ≠ n ∧ q < w_next w)) as Hheap.
  { intros q sv' [[<- <-]|[Hne Hq]]%lookup_insert_Some; [by left|right]. split_and!; [done| |].
    - intros Heq. by apply (Hno q sv').
    - by destruct (v_heap _ _ _ Hv _ _ Hq). }
  assert (∀ m j, <[n := i]> I !! m = Some j → (m = n ∧ j = i) ∨ (m ≠ n ∧ I !! m = Some j)) as HI'.
  { intros m j [[<- <-]|[? ?]]%lookup_insert_Some; [by left|by right]. }
  constructor; cbn [w_fs w_heap w_next].
  - exact (v_fs _ _ _ Hv).
  - exact (v_mounted _ _ _ Hv).
  - exists (l ++ [w_next w]). split_and!; [done| |].
    + destruct (v_table _ _ _ Hv) as (l' & Hl' & Hnd & Hin). rewrite (array_repr_det _ _ _ Hl Hl').
      apply NoDup_app. split_and!; [done| |apply NoDup_singleton]. intros q Hq ->%list_elem_of_singleton.
      apply Hin in Hq. by rewrite Hfresh in Hq; destruct Hq.
    + destruct (v_table _ _ _ Hv) as (l' & Hl' & _ & Hin). rewrite (array_repr_det _ _ _ Hl Hl').
      intros q. rewrite elem_of_app, Hin, list_elem_of_singleton, lookup_insert_is_Some'.
      split; [intros [?| ->]; [by right|by left]|intros [<-|?]; [by right|by left]].
  - intros q sv' Hq. destruct (Hheap q sv' Hq) as [[-> ->]|(Hq' & Hne & Hlt)].
    + rewrite Hn, Hi, lookup_insert_eq. split_and!; [lia|done|done].
    + rewrite lookup_insert_ne by done. destruct (v_heap _ _ _ Hv _ _ Hq') as (? & ? & ?). split_and!; [lia|done|done].
  - intros q q' sv1 sv2 Hq Hq' Heq. destruct (Hheap q sv1 Hq) as [[-> ->]|(Hq1 & Hne & _)],
      (Hheap q' sv2 Hq') as [[-> ->]|(Hq2 & Hne' & _)]; try congruence. by apply (v_inj _ _ _ Hv q q' sv1 sv2).
  - intros m j Hm. destruct (HI' m j Hm) as [[-> ->]|[Hne Hmj]].
    + destruct (sv_dirty sv) eqn:Ed; [right|left; by apply Hcl]. exists (w_next w), sv. split; [|done].
      split; [by apply lookup_insert_eq|done].
    + destruct (v_disk _ _ _ Hv m j Hmj) as [?|(q & sv' & [Hq ?] & ?)]; [by left|right]. exists q, sv'. split; [|done].
      split; [|done]. cbn. rewrite lookup_insert_ne; [done|]. intros <-. congruence.
  - intros m j Hm. destruct (HI' m j Hm) as [[-> ->]|[Hne Hmj]]; [|exact (v_file _ _ _ Hv m j Hmj)].
    destruct Hcase as [HI|(_ & _ & Hf & _)]; [exact (v_file _ _ _ Hv n i HI)|exact Hf].
  - intros m m' j j' b Hmm Hm Hm' Hb Hin Hin'.
    destruct (HI' m j Hm) as [[-> ->]|[Hne Hmj]], (HI' m' j' Hm') as [[-> ->]|[Hne' Hmj']]; try done.
    + destruct Hcase as [HI|(_ & _ & _ & Hdj & _)]; [by apply (v_disj _ _ _ Hv n m' i j' b)|].
      apply (Hdj b Hb Hin). right; right. by exists m', j'.
    + destruct Hcase as [HI|(_ & _ & _ & Hdj & _)]; [by apply (v_disj _ _ _ Hv m n j i b)|].
      apply (Hdj b Hb Hin'). right; right. by exists m, j.
    + by apply (v_disj _ _ _ Hv m m' j j' b).
  - exact (v_fits _ _ _ Hv).
  - intros b Hb. destruct (v_sys _ _ _ Hv b Hb) as [Hu Hs]. split; [exact Hu|]. intros m j Hm Hin.
    destruct (HI' m j Hm) as [[-> ->]|[Hne Hmj]]; [|by apply (Hs m j)].
    destruct Hcase as [HI|(_ & _ & _ & Hdj & _)]; [by apply (Hs n i)|]. unfold SFS_MAP_LOCATION in *.
    apply (Hdj b ltac:(lia) Hin). right; by left.
  - unfold rootdir. rewrite Hroot. split_and!; [|exact HR2|exact HR3]. apply lookup_insert_is_Some'. by right.
  - intros m j Hm Hm1. destruct (HI' m j Hm) as [[-> ->]|[Hne Hmj]]; [|by apply (v_types _ _ _ Hv m)].
    destruct Hcase as [HI|(_ & _ & _ & _ & Ht & _)]; [by apply (v_types _ _ _ Hv n)|done].
  - unfold rootdir. rewrite Hroot. intros name m Hm. destruct (v_names _ _ _ Hv name m Hm) as [? ?].
    split; [done|]. apply lookup_insert_is_Some'. by right.
  - unfold rootdir. rewrite Hroot. intros m j Hm Hm1.
    destruct (HI' m j Hm) as [[-> ->]|[Hne Hmj]]; [|by apply (v_links _ _ _ Hv m j)].
    destruct Hcase as [HI|(HI & _ & _ & _ & _ & Hlk)]; [by apply (v_links _ _ _ Hv n i)|].
    exists []. split_and!; [constructor| |done]. intros name. split; [by intros ?%elem_of_nil|].
    intros Hmap. destruct (v_names _ _ _ Hv name n Hmap) as [_ [? ?]]. congruence.
  - intros m j Hm Hl0. destruct (HI' m j Hm) as [[-> ->]|[Hne Hmj]].
    + exists (w_next w), sv. split; [by apply lookup_insert_eq|done].
    + destruct (v_orphan _ _ _ Hv m j Hmj Hl0) as (q & sv' & Hq & ?). exists q, sv'. split; [|done]. cbn.
      rewrite lookup_insert_ne; [done|]. intros <-. congruence.
Qed.

(** A vnode that is clean leaves memory; with [erase], the file, which has no
    name left, leaves the volume too. *)
Lemma vol_forget w I δ p sv l ix a' mem (erase : bool) :
  vol w I δ → w_heap w !! p = Some sv → array_repr (sfs_vnodes (w_fs w)) l → l !! ix = Some p →
  array_repr a' (delete ix l) → sv_dirty sv = false →
  (if erase then sfi_linkcount (sv_i sv) = 0 ∧ sv_ino sv ≠ SFS_ROOT_LOCATION ∧ δ (sv_ino sv) = 0
   else sfi_linkcount (sv_i sv) ≠ 0) →
  vol (mkW (set_vnodes a' (w_fs w)) (delete p (w_heap w)) (w_next w) mem)
    (if erase then delete (sv_ino sv) I else I) δ.
Proof.
  intros Hv Hp Hl Hix Ha Hcl Her. pose proof (v_root _ _ _ Hv) as (HR1 & HR2 & HR3).
  destruct (v_heap _ _ _ Hv p sv Hp) as (_ & _ & HI). set (I' := if erase then _ else _).
  assert (∀ m j, I' !! m = Some j → I !! m = Some j ∧ (erase = true → m ≠ sv_ino sv)) as HI'.
  { intros m j. unfold I'. destruct erase; [|done]. intros [? ?]%lookup_delete_Some. auto. }
  assert (∀ m j, I !! m = Some j → (erase = true → m ≠ sv_ino sv) → I' !! m = Some j) as HI''.
  { intros m j Hm Hne. unfold I'. destruct erase; [|done]. rewrite lookup_delete_ne; [done|].
    by apply not_eq_sym, Hne. }
  assert (I' !!! SFS_ROOT_LOCATION = I !!! SFS_ROOT_LOCATION) as Hroot.
  { unfold I'. destruct erase; [|done]. apply lookup_total_delete_ne. by destruct Her as (_ & ? & _). }
  assert (∀ q sv', delete p (w_heap w) !! q = Some sv' → q ≠ p ∧ w_heap w !! q = Some sv' ∧ sv_ino sv' ≠ sv_ino sv) as Hheap.
  { intros q sv' [Hne Hq]%lookup_delete_Some. split_and!; [done|done|]. intros Heq.
    by apply Hne, (v_inj _ _ _ Hv p q sv sv'). }
  assert (∀ n q sv', loaded w n q sv' → n ≠ sv_ino sv → delete p (w_heap w) !! q = Some sv') as Hload.
  { intros n q sv' [Hq Hn] Hne. rewrite lookup_delete_ne; [done|]. intros <-. congruence. }
  constructor; cbn [w_fs w_heap w_next].
  - exact (v_fs _ _ _ Hv).
  - exact (v_mounted _ _ _ Hv).
  - exists (delete ix l). split; [done|]. destruct (v_table _ _ _ Hv) as (l' & Hl' & Hnd & Hin).
    rewrite <-(array_repr_det _ _ _ Hl Hl') in *. pose proof (delete_take_drop l ix) as Hdel.
    pose proof (take_drop_middle l ix p Hix) as Hmid. rewrite <-Hmid in Hnd.
    assert (∀ q, q ∈ l ↔ q ∈ take ix l ∨ q = p ∨ q ∈ drop (S ix) l) as Hlin.
    { intros q. by rewrite <-elem_of_cons, <-elem_of_app, Hmid. }
    apply NoDup_app in Hnd as (Hn1 & Hn2 & [Hn3 Hn4]%NoDup_cons). rewrite Hdel. split.
    + apply NoDup_app. split_and!; [done| |done]. intros x Hx Hx'. apply (Hn2 x Hx). by right.
    + intros q. rewrite lookup_delete_is_Some, <-Hin, Hlin, elem_of_app. split; [|intros [Hne [?|[->|?]]]; [by left|done|by right]].
      intros Hq. split; [|tauto]. intros <-. destruct Hq as [Hq|Hq]; [|done]. apply (Hn2 p Hq). by left.
  - intros q sv' Hq. destruct (Hheap q sv' Hq) as (? & Hq' & Hne). destruct (v_heap _ _ _ Hv q sv' Hq') as (? & ? & ?).
    split_and!; [done|done|by apply HI''].
  - intros q q' sv1 sv2 Hq Hq'. destruct (Hheap q sv1 Hq) as (_ & ? & _), (Hheap q' sv2 Hq') as (_ & ? & _).
    by apply (v_inj _ _ _ Hv).
  - intros m j Hm. destruct (HI' m j Hm) as [Hmj _]. destruct (decide (m = sv_ino sv)) as [->|Hne].
    + left. rewrite HI in Hmj. injection Hmj as <-. exact (vol_clean _ _ _ _ _ Hv Hp Hcl).
    + destruct (v_disk _ _ _ Hv m j Hmj) as [?|(q & sv' & Hq & ?)]; [by left|right]. exists q, sv'. split; [|done].
      split; [by eapply Hload|by destruct Hq].
  - intros m j Hm. destruct (HI' m j Hm) as [Hmj _]. exact (v_file _ _ _ Hv m j Hmj).
  - intros m m' j j' b Hmm Hm Hm'. destruct (HI' m j Hm) as [Hmj _], (HI' m' j' Hm') as [Hmj' _].
    exact (v_disj _ _ _ Hv m m' j j' b Hmm Hmj Hmj').
  - exact (v_fits _ _ _ Hv).
  - intros b Hb. destruct (v_sys _ _ _ Hv b Hb) as [Hu Hs]. split; [exact Hu|]. intros m j Hm.
    destruct (HI' m j Hm) as [Hmj _]. exact (Hs m j Hmj).
  - unfold rootdir. rewrite Hroot. split_and!; [|exact HR2|exact HR3]. destruct HR1 as [r Hr]. exists r.
    apply HI''; [done|]. intros ->. by destruct Her as (_ & ?%not_eq_sym & _).
  - intros m j Hm. destruct (HI' m j Hm) as [Hmj _]. exact (v_types _ _ _ Hv m j Hmj).
  - unfold rootdir. rewrite Hroot. intros name m Hm. destruct (v_names _ _ _ Hv name m Hm) as [Hm1 [j Hj]].
    split; [done|]. exists j. apply HI''; [done|]. intros -> ->. destruct Her as (Hlc & _ & Hd).
    destruct (v_links _ _ _ Hv _ _ HI Hm1) as (names & _ & Hin & Hlen). apply Hin in Hm.
    destruct names; [by apply elem_of_nil in Hm|simpl in Hlen; lia].
  - unfold rootdir. rewrite Hroot. intros m j Hm. destruct (HI' m j Hm) as [Hmj _]. exact (v_links _ _ _ Hv m j Hmj).
  - intros m j Hm Hlc. destruct (HI' m j Hm) as [Hmj Hne]. destruct (v_orphan _ _ _ Hv m j Hmj Hlc) as (q & sv' & Hq).
    exists q, sv'. split; [|by destruct Hq]. eapply Hload; [done|]. intros ->. rewrite HI in Hmj. injection Hmj as <-.
    destruct erase; [by apply Hne|done].
Qed.

(** ** Loading vnodes *)

(** There are no more vnodes than blocks. *)
Lemma vol_table_bound w I δ l :
  vol w I δ → array_repr (sfs_vnodes (w_fs w)) l → Z.of_nat (length l) ≤ 4194303.
Proof.
  intros Hv Hl. destruct (v_table _ _ _ Hv) as (l' & Hl' & Hnd & Hin).
  rewrite <-(array_repr_det _ _ _ Hl Hl') in *. pose proof (fs_ok_bound _ (v_fs _ _ _ Hv)).
  set (f := λ p, default 0 (sv_ino <$> w_heap w !! p)).
  assert (NoDup (f <$> l)) as Hnf.
  { apply NoDup_fmap_2_strong; [|done]. intros p q Hp Hq Heq. apply Hin in Hp as [sv Hsv], Hq as [sv' Hsv'].
    unfold f in Heq. rewrite Hsv, Hsv' in Heq. by apply (v_inj _ _ _ Hv p q sv sv'). }
  assert (f <$> l ⊆+ seqZ 0 (nblk (w_fs w))) as Hsub.
  { apply NoDup_submseteq; [done|]. intros n (p & -> & Hp)%list_elem_of_fmap. apply Hin in Hp as [sv Hsv].
    unfold f. rewrite Hsv. cbn. destruct (v_heap _ _ _ Hv p sv Hsv) as (_ & _ & HI).
    destruct (ino_used _ (v_file _ _ _ Hv _ _ HI)) as [Hr _]. cbn in Hr. apply elem_of_seqZ. lia. }
  apply submseteq_length in Hsub. rewrite length_fmap, length_seqZ in Hsub. lia.
Qed.

(** [sv] with [d] more references. *)
Definition addref (sv : sfs_vnode) (d : Z) : sfs_vnode :=
  let v := sv_v sv in
  mkSv (mkVnode (vn_refcount v + d) (vn_opencount v) (vn_countlock v) (vn_ops v))
    (sv_i sv) (sv_ino sv) (sv_dirty sv).

(** The reference counts leave room for one more. *)
Definition room w : Prop :=
  ∀ p sv, w_heap w !! p = Some sv → vn_refcount (sv_v sv) < INT_MAX.

Lemma sfs_incref_wp w p sv (Q : unit → world D → Prop) :
  w_heap w !! p = Some sv → vnode_ok sv → vn_refcount (sv_v sv) < INT_MAX →
  Q tt (put_file w (w_fs w) p (addref sv 1)) → swp (sfs_incref p) w Q.
Proof.
  intros Hp (Hr & _) Hmax HQ. unfold sfs_incref. apply swp_bind. eapply w_getv_wp; [done|].
  unfold INT_MAX in Hmax. apply swp_bind, swp_lift. unfold vnode_incref. apply wp_bind, wp_to_int; [unfold INT_MIN, INT_MAX; lia|].
  apply wp_done. unfold w_putv. apply swp_bind. eapply w_get_wp; [done|]. by eapply w_put_wp.
Qed.

Lemma sfs_find_loaded_wp w I δ ino forcetype :
  vol w I δ → room w → (forcetype = SFS_TYPE_INVAL ∨ ∀ p sv, ¬ loaded w ino p sv) →
  swp (sfs_find_loaded ino forcetype) w (λ r w',
    match r with
    | Some p => ∃ sv, loaded w ino p sv ∧ w' = put_file w (w_fs w) p (addref sv 1)
    | None => w' = w ∧ ∀ p sv, ¬ loaded w ino p sv
    end).
Proof.
  intros Hv Hroom Hft. destruct (v_table _ _ _ Hv) as (l & Hl & Hnd & Hin). unfold sfs_find_loaded.
  apply swp_bind, swp_gets, swp_bind. unfold array_getnum. rewrite (array_repr_num _ _ Hl), Nat2Z.id. eapply swp_mono.
  { apply (swp_for_stm (λ j (_ : unit) w', w' = w ∧ ∀ k p sv, Z.of_nat k < j → l !! k = Some p → ¬ loaded w ino p sv)
      (λ p w', ∃ sv, loaded w ino p sv ∧ w' = put_file w (w_fs w) p (addref sv 1))).
    { split; [done|]. lia. }
    intros j [] w' Hj [-> Hno]. destruct (lookup_lt_is_Some_2 l (Z.to_nat j)) as [p Hp]; [lia|].
    apply swp_bind, swp_lift. replace j with (Z.of_nat (Z.to_nat j)) at 1 by lia.
    rewrite (array_getguy_eq _ _ _ _ Hl Hp). simpl wp.
    assert (is_Some (w_heap w !! p)) as [sv Hsv] by (apply Hin; by eapply list_elem_of_lookup_2).
    destruct (v_heap _ _ _ Hv p sv Hsv) as (_ & Hok & HI).
    destruct (ino_used _ (v_file _ _ _ Hv _ _ HI)) as [Hr Hu]. cbn in Hr. change (used (w_fs w) (sv_ino sv) = true) in Hu.
    apply swp_bind. eapply w_get_wp; [done|]. apply swp_bind, w_on_fs_wp.
    eapply swp_mono; [apply sfs_bused_wp; [by apply (v_fs _ _ _ Hv)|lia]|]. intros b fs' [-> ->]. rewrite Hu. cbn [negb].
    replace (mkW _ _ _ _) with w by by destruct w.
    destruct (Z.eqb_spec (sv_ino sv) ino) as [Heq|Hne].
    - apply swp_bind, swp_kassert.
      { destruct Hft as [->|Hft]; [done|]. exfalso. by apply (Hft p sv). }
      apply swp_bind. eapply sfs_incref_wp; [done|done|by eapply Hroom|]. apply swp_ret. by exists sv.
    - apply swp_ret. split; [done|]. intros k q sv' Hk Hq [Hl1 Hl2]. destruct (decide (Z.of_nat k = j)) as [<-|].
      + rewrite Nat2Z.id in Hp. congruence.
      + apply (Hno k q sv'); [lia|done|done]. }
  intros [[]|p] w' H; apply swp_ret; [|done]. destruct H as [-> Hno]. split; [done|]. intros p sv Hload.
  assert (p ∈ l) as [k Hk]%list_elem_of_lookup by (apply Hin; destruct Hload; eauto).
  apply (Hno k p sv); [apply lookup_lt_Some in Hk; lia|done|done].
Qed.

Lemma w_kmalloc_wp w (Q : bool → world D → Prop) :
  (∀ b mem, Q b (mkW (w_fs w) (w_heap w) (w_next w) mem)) → swp w_kmalloc w Q.
Proof. intros HQ. unfold swp, w_kmalloc. destruct w as [fs h n [|b mem]]; apply HQ. Qed.

Lemma set_vnodes_id fs : set_vnodes (sfs_vnodes fs) fs = fs.
Proof. by destruct fs. Qed.

(** Adding a vnode to the table: the vnode is there, or there was no memory
    and nothing has changed. *)
Lemma sfs_addvnode_wp w I δ l ino i dirty ops :
  vol w I δ → array_repr (sfs_vnodes (w_fs w)) l →
  let sv := mkSv (mkVnode 1 0 true (Some ops)) i ino dirty in
  swp (sfs_addvnode ino i dirty ops) w (λ '(r, p) w',
    (r = ENOMEM ∧ ∃ next mem, w' = mkW (w_fs w) (w_heap w) next mem ∧ w_next w ≤ next) ∨
    (r = 0 ∧ p = w_next w ∧ ∃ a' mem, array_repr a' (l ++ [w_next w]) ∧
      w' = mkW (set_vnodes a' (w_fs w)) (<[w_next w := sv]> (w_heap w)) (w_next w + 1) mem)).
Proof.
  intros Hv Hl sv. pose proof (vol_table_bound _ _ _ _ Hv Hl) as Hb. unfold sfs_addvnode. apply swp_bind, w_kmalloc_wp.
  assert (w_heap w !! w_next w = None) as Hfresh.
  { destruct (w_heap w !! w_next w) as [sv'|] eqn:E; [|done]. destruct (v_heap _ _ _ Hv _ _ E). lia. }
  intros [] mem; cbn [vnode_init negb Z.eqb].
  2: { apply swp_ret. left. split; [done|]. exists (w_next w), mem. split; [done|lia]. }
  apply swp_bind. unfold w_new, swp at 1. cbn [wp w_fs w_heap w_next w_mem]. apply swp_bind, swp_gets, swp_bind, w_kmalloc_wp.
  intros b mem'. cbn [w_fs w_heap w_next]. apply swp_bind, swp_lift. eapply wp_mono; [apply (array_add_wp b _ l); [done|lia]|].
  intros [r a'] Hr. apply swp_bind. unfold w_set_vnodes. apply w_on_fs_wp, swp_modify. cbn [w_fs w_heap w_next w_mem].
  destruct (bool_decide _ || b).
  - destruct Hr as (-> & _ & Ha). cbn [negb Z.eqb]. apply swp_ret. right. split_and!; try done. by exists a', mem'.
  - destruct Hr as (-> & ->). cbn [negb Z.eqb]. apply swp_bind, swp_lift. simpl wp. unfold w_putv. apply swp_bind, swp_bind.
    eapply w_get_wp; [by apply lookup_insert_eq|]. eapply w_put_wp; [by apply lookup_insert_eq|]. cbn.
    unfold w_kfree. apply swp_bind. unfold swp at 1. cbn [w_heap put_file]. rewrite lookup_insert_eq. simpl wp. apply swp_ret.
    left. split; [done|]. exists (w_next w + 1), mem'. split; [|lia]. cbn. rewrite delete_insert_eq, delete_insert_eq, delete_id by done.
    f_equal. apply set_vnodes_id.
Qed.

(** Any other amount of memory left, and addresses further on. *)
Lemma vol_next w I δ next mem :
  vol w I δ → w_next w ≤ next → vol (mkW (w_fs w) (w_heap w) next mem) I δ.
Proof.
  intros Hv Hn. constructor; try by apply Hv. cbn. intros p sv Hp.
  destruct (v_heap _ _ _ Hv p sv Hp) as (? & ? & ?). split_and!; [lia|done|done].
Qed.

Lemma same_files_refl S w w' I : w_fs w' = w_fs w → same_files S w w' I I.
Proof. intros Hfs n i _ Hni. split; [done|]. by rewrite Hfs. Qed.

Lemma same_files_trans S S' w1 w2 w3 I1 I2 I3 :
  same_files S w1 w2 I1 I2 → same_files S' w2 w3 I2 I3 → same_files (S ∪ S') w1 w3 I1 I3.
Proof.
  intros H1 H2 n i Hn Hni. destruct (H1 n i) as [Hni2 Hc1]; [set_solver|done|].
  destruct (H2 n i) as [? Hc2]; [set_solver|done|]. 
  destruct Hc1 as [Ha1 Hc1], Hc2 as [Ha2 Hc2]. split; [done|]. split; [congruence|].
  intros p Hp. by rewrite Hc2, Hc1.
Qed.

Lemma same_files_weaken S S' w w' I I' : same_files S w w' I I' → S ⊆ S' → same_files S' w w' I I'.
Proof. intros H HS n i Hn. apply H. set_solver. Qed.

(** What loading the vnode of a file does: there is one reference more to its
    vnode, which may be new. *)
Definition load_post w (ino r p : Z) w' : Prop :=
  (r = ENOMEM ∧ w_heap w' = w_heap w) ∨
  (r = 0 ∧ ∃ sv', w_heap w' = <[p := sv']> (w_heap w) ∧ sv_ino sv' = ino ∧
    ((∃ sv, loaded w ino p sv ∧ sv' = addref sv 1) ∨
     ((∀ q sv, ¬ loaded w ino q sv) ∧ w_heap w !! p = None ∧
      vn_refcount (sv_v sv') = 1 ∧ vn_opencount (sv_v sv') = 0))).

Lemma addref_ok sv : vnode_ok sv → vnode_ok (addref sv 1).
Proof. intros (? & ? & ? & ?). unfold vnode_ok. cbn. split_and!; try done; lia. Qed.

(** A step of the filesystem in which only the device may change. *)
Lemma fs_upd_untouched fs fs' :
  fs_ok fs → fs_upd fs fs' (dsk fs) (sfs_freemap fs) → fs_ok fs' ∧ untouched fs fs' (λ _, False).
Proof.
  intros Hok Hupd. pose proof Hupd as (Hs & _ & _ & Hb & _ & Hd & _). split; [by eapply fs_upd_ok_same|].
  split; [unfold nblk; by rewrite Hs|]. intros b _ Hu _. unfold used. by rewrite Hb, Hd.
Qed.

Lemma sfs_loadvnode_wp w I δ ino i :
  vol w I δ → room w → I !! ino = Some i →
  swp (sfs_loadvnode ino SFS_TYPE_INVAL) w (λ '(r, p) w',
    vol w' I δ ∧ same_files ∅ w w' I I ∧ load_post w ino r p w').
Proof.
  intros Hv Hroom HI. unfold sfs_loadvnode. apply swp_bind.
  eapply swp_mono; [apply (sfs_find_loaded_wp w I δ); [done|done|by left]|]. intros [p|] w1.
  { intros (sv & Hload & ->). apply swp_ret. destruct Hload as [Hp Hn]. destruct (v_heap _ _ _ Hv p sv Hp) as (_ & Hok & _).
    split_and!; [by apply vol_setv, addref_ok|by apply same_files_refl|]. right. split; [done|]. exists (addref sv 1).
    split_and!; [done|done|]. left. by exists sv. }
  intros [-> Hno]. pose proof (v_file _ _ _ Hv _ _ HI) as Hf. destruct (ino_used _ Hf) as [Hr Hu]. cbn in Hr.
  change (used (w_fs w) ino = true) in Hu. pose proof (v_fs _ _ _ Hv) as Hfs.
  apply swp_bind, w_kmalloc_wp. intros [] mem; cbn [negb].
  2: { apply swp_ret. split_and!; [apply vol_next; [done|lia]|by apply same_files_refl|by left]. }
  apply swp_bind, w_on_fs_wp. cbn [w_fs w_heap w_next w_mem].
  eapply swp_mono; [apply sfs_bused_wp; [done|lia]|]. intros b fs1 [-> ->]. rewrite Hu. cbn [negb].
  apply swp_bind, w_on_fs_wp. cbn [w_fs w_heap w_next w_mem].
  eapply swp_mono; [apply sfs_rblock_wp; [done|lia|done]|]. intros [r data] fs1 (-> & -> & Hupd). cbn [negb Z.eqb].
  destruct (fs_upd_untouched _ _ Hfs Hupd) as [Hfs1 Hun]. pose proof Hupd as (Hs1 & Hf1 & Hv1 & _ & _ & Hd1 & _).
  destruct (vol_untouched w I δ fs1 mem (λ _, False)) as [Hvol1 Hsf1]; try done. set (w1 := mkW fs1 _ _ _) in *.
  destruct (v_disk _ _ _ Hv _ _ HI) as [Henc|(q & sv & Hq & _)]; [|by destruct (Hno q sv)].
  rewrite Henc. assert (decode_inode (encode_inode i) = i) as -> by (apply decode_encode_inode; by destruct Hf as (_ & ? & _)).
  cbv zeta. apply swp_bind, swp_ret. destruct (v_table _ _ _ Hvol1) as (l & Hl & _).
  assert (sfi_type i = SFS_TYPE_FILE ∨ sfi_type i = SFS_TYPE_DIR) as Hty.
  { destruct (decide (ino = SFS_ROOT_LOCATION)) as [->|Hne]; [right|left; by apply (v_types _ _ _ Hv ino)].
    destruct (v_root _ _ _ Hv) as (_ & (_ & Ht & _) & _). cbn in Ht. by rewrite (lookup_total_correct _ _ _ HI) in Ht. }
  apply swp_bind. apply (swp_mono _ _ (λ ops w', ops = ops_of i ∧ w' = w1)).
  { unfold ops_of. destruct Hty as [->| ->]; by apply swp_ret. }
  intros ops w' [-> ->]. eapply swp_mono; [by apply (sfs_addvnode_wp w1 I δ l)|].
  intros [r p] w' [(-> & next & mem' & -> & Hnext)|(-> & -> & a' & mem' & Ha & ->)].
  - split_and!; [by apply (vol_next w1)|exact Hsf1|by left].
  - pose proof (vol_add w1 I δ l a' (mkSv (mkVnode 1 0 true (Some (ops_of i))) i ino false) ino i mem') as Hadd.
    rewrite (insert_id I ino i) in Hadd by done. split_and!; [apply Hadd; try done; [|by left]|exact Hsf1|].
    + intros _. unfold w1. cbn. by rewrite Hd1.
    + right. split; [done|]. eexists. split_and!; [done|done|]. right. split_and!; try done.
      destruct (w_heap w !! w_next w) as [sv'|] eqn:E; [|by unfold w1]. destruct (v_heap _ _ _ Hv _ _ E). lia.
Qed.

(** ** Creating an object *)

(** A file without data or names. *)
Definition new_inode : sfs_inode := mkInode 0 SFS_TYPE_FILE 0 (replicate 15 0) 0 (replicate 110 0).

Lemma new_inode_wf : inode_wf new_inode.
Proof.
  unfold inode_wf, new_inode, SFS_TYPE_FILE. cbn [sfi_size sfi_type sfi_linkcount sfi_direct sfi_indirect sfi_waste].
  split_and!; try done; try lia; apply Forall_replicate; lia.
Qed.

Lemma new_inode_blocks fs n b : b ∈ allblocks (at_inode fs n new_inode) → b ≠ 0 → b = n.
Proof.
  change (allblocks (at_inode fs n new_inode)) with (n :: 0 :: replicate 15 0 ++ replicate 128 0).
  rewrite !elem_of_cons, elem_of_app. intros [?|[?|[H|H]]] Hb; try done;
    by apply elem_of_replicate_inv in H.
Qed.

Lemma new_inode_ok fs n :
  fs_ok fs → 0 < n < nblk fs → used fs n = true → file_ok (at_inode fs n new_inode).
Proof.
  intros Hfs Hn Hu. split_and!; [done|apply new_inode_wf|cbn; lia|]. split.
  - intros k b Hk Hb. assert (b = n) as -> by (eapply new_inode_blocks; [by eapply list_elem_of_lookup_2|done]). done.
  - intros k k' b Hk Hk' Hb.
    change (allblocks (at_inode fs n new_inode)) with (n :: 0 :: replicate 15 0 ++ replicate 128 0) in *.
    assert (∀ j, (n :: 0 :: replicate 15 0 ++ replicate 128 0) !! j = Some b → j = 0%nat) as H0.
    { intros [|[|j]] Hj; [done|cbn in Hj; congruence|]. cbn [lookup list_lookup] in Hj.
      rewrite <-replicate_add in Hj. apply lookup_replicate in Hj as [-> _]. done. }
    by rewrite (H0 k Hk), (H0 k' Hk').
Qed.

Lemma balloc_untouched fs fs' b bm :
  fs_ok fs → 0 < b → used fs b = false → bits_set (sfs_freemap fs) bm b →
  fs_upd fs fs' (<[Z.to_nat b := zero_block]> (dsk fs)) bm →
  untouched fs fs' (λ _, False) ∧ ∀ c, 0 ≤ c → used fs' c = (c =? b) || used fs c.
Proof.
  intros Hok Hb Hf [_ Hset] (Hs & _ & _ & Hbm & _ & Hd & _).
  assert (∀ c, 0 ≤ c → used fs' c = (c =? b) || used fs c) as Hus.
  { intros c Hc. unfold used at 1. rewrite Hbm. by apply Hset. }
  split; [|done]. split; [unfold nblk; by rewrite Hs|]. intros c Hc Hu _. rewrite Hus, Hu, orb_true_r by lia.
  split; [done|]. rewrite Hd. apply sect_insert_ne; [lia..|congruence].
Qed.

Definition makeobj_post w I r p w' : Prop :=
  (r = 0 ∧ ∃ n sv, I !! n = None ∧ w_heap w' = <[p := sv]> (w_heap w) ∧ w_heap w !! p = None ∧
     sv_ino sv = n ∧ sv_i sv = new_inode ∧ vn_refcount (sv_v sv) = 1 ∧ vn_opencount (sv_v sv) = 0 ∧
     vol w' (<[n := new_inode]> I) (λ _, 0) ∧ same_files ∅ w w' I (<[n := new_inode]> I)) ∨
  ((r = ENOSPC ∨ r = ENOMEM) ∧ w_heap w' = w_heap w ∧ vol w' I (λ _, 0) ∧ same_files ∅ w w' I I).

(** Loading the vnode of a block that has just been allocated. *)
Lemma sfs_loadnew_wp w I n :
  vol w I (λ _, 0) → room w → 0 < n < nblk (w_fs w) → used (w_fs w) n = true →
  ¬ vblock w I n → sect (dsk (w_fs w)) n = zero_block →
  swp (sfs_loadvnode n SFS_TYPE_FILE) w (λ '(r, p) w', makeobj_post w I r p w').
Proof.
  intros Hv Hroom Hn Hu Hnv Hz. pose proof (v_fs _ _ _ Hv) as Hfs.
  assert (∀ p sv, ¬ loaded w n p sv) as Hno.
  { intros p sv [Hp Hsn]. destruct (v_heap _ _ _ Hv p sv Hp) as (_ & _ & HI). apply Hnv. right; right.
    exists (sv_ino sv), (sv_i sv). split; [done|]. rewrite Hsn. by left. }
  assert (I !! n = None) as HIn.
  { destruct (I !! n) as [i|] eqn:E; [|done]. exfalso. apply Hnv. right; right. exists n, i. split; [done|]. by left. }
  unfold sfs_loadvnode. apply swp_bind. eapply swp_mono; [by apply (sfs_find_loaded_wp w I (λ _, 0)); [..|right]|].
  intros [p|] w2; [intros (sv & Hl & _); by destruct (Hno p sv)|]. intros [-> _].
  apply swp_bind, w_kmalloc_wp. intros [] mem; cbn [negb].
  2: { apply swp_ret. right. split_and!; [by right|done|apply vol_next; [done|lia]|by apply same_files_refl]. }
  apply swp_bind, w_on_fs_wp. cbn [w_fs w_heap w_next w_mem].
  eapply swp_mono; [apply sfs_bused_wp; [done|lia]|]. intros b fs2 [-> ->]. rewrite Hu. cbn [negb].
  apply swp_bind, w_on_fs_wp. cbn [w_fs w_heap w_next w_mem].
  eapply swp_mono; [apply sfs_rblock_wp; [done|lia|done]|]. intros [r data] fs1 (-> & -> & Hupd). cbn [negb Z.eqb].
  rewrite Hz. change (decode_inode zero_block) with (mkInode 0 0 0 (replicate 15 0) 0 (replicate 110 0)).
  cbn [sfi_type sfi_size sfi_linkcount sfi_direct sfi_indirect sfi_waste]. cbv zeta.
  change (negb (SFS_TYPE_FILE =? SFS_TYPE_INVAL)) with true. cbv iota.
  apply swp_bind, swp_bind, swp_kassert; [done|]. apply swp_ret.
  change (u16 SFS_TYPE_FILE) with SFS_TYPE_FILE. fold new_inode. apply swp_bind, swp_ret.
  destruct (fs_upd_untouched _ _ Hfs Hupd) as [Hfs1 Hun]. pose proof Hupd as (Hs1 & Hf1 & Hv1 & Hb1 & _ & Hd1 & _).
  destruct (vol_untouched w I (λ _, 0) fs1 mem (λ _, False)) as [Hvol1 Hsf1]; try done. set (w1 := mkW fs1 _ _ _) in *.
  destruct (v_table _ _ _ Hvol1) as (l & Hl & _). eapply swp_mono; [by apply (sfs_addvnode_wp w1 I (λ _, 0) l)|].
  intros [r p] w' [(-> & next & mem' & -> & Hnext)|(-> & -> & a' & mem' & Ha & ->)].
  - right. split_and!; [by right|done|by apply (vol_next w1)|exact Hsf1].
  - left. split; [done|]. exists n. eexists. split_and!; try done.
    + destruct (w_heap w !! w_next w) as [sv'|] eqn:E; [|by unfold w1]. destruct (v_heap _ _ _ Hv _ _ E). lia.
    + apply (vol_add w1 I (λ _, 0) l); try done. right. split_and!; try done.
      * intros ->. destruct (v_root _ _ _ Hv) as [[? ?] _]. congruence.
      * apply new_inode_ok; [done|unfold w1; cbn; unfold nblk in *; rewrite Hs1; lia|unfold w1, used; cbn; by rewrite Hb1].
      * intros b Hb Hin. rewrite (new_inode_blocks _ _ _ Hin Hb). intros [->|[Hsys|(m & j & Hm & Hin')]]; apply Hnv;
          [by left|right; left; unfold SFS_FS_BITBLOCKS, w1 in *; cbn in Hsys; by rewrite Hs1 in Hsys|].
        right; right. exists m, j. split; [done|]. destruct (at_untouched (w_fs w) fs1 (λ _, False) m j) as (Heq & _);
          [by apply (v_file _ _ _ Hv)|done|done|tauto|]. by rewrite <-Heq.
    + intros m i Hm Hi. destruct (Hsf1 m i Hm Hi) as [_ Hc]. split; [|exact Hc]. rewrite lookup_insert_ne; [done|].
      intros ->. congruence.
Qed.

Lemma sfs_makeobj_wp w I :
  vol w I (λ _, 0) → room w →
  swp (sfs_makeobj SFS_TYPE_FILE) w (λ '(r, p) w', makeobj_post w I r p w').
Proof.
  intros Hv Hroom. pose proof (v_fs _ _ _ Hv) as Hfs. unfold sfs_makeobj. apply swp_bind, w_on_fs_wp.
  eapply swp_mono; [by apply sfs_balloc_wp|]. intros [r n] fs1 [(-> & Hn & Hf & Hfs1 & bm & Hset & Hupd)|(-> & -> & _)].
  2: { cbn [negb Z.eqb]. apply swp_ret. right. replace (mkW _ _ _ _) with w by by destruct w.
       split_and!; [by left|done|done|by apply same_files_refl]. }
  cbn [negb Z.eqb]. destruct (balloc_untouched _ _ _ _ Hfs (proj1 Hn) Hf Hset Hupd) as [Hun Hus].
  pose proof Hupd as (Hs1 & Hfl1 & Hv1 & _ & _ & Hd1 & _).
  assert (∀ m j, I !! m = Some j → n ∉ allblocks (at_inode (w_fs w) m j)) as Hnin.
  { intros m j Hm Hin. destruct (file_ok_elem _ n (v_file _ _ _ Hv m j Hm) Hin) as [_ Hu]; [lia|].
    change (used (w_fs w) n = true) in Hu. congruence. }
  destruct (vol_untouched w I (λ _, 0) fs1 (w_mem w) (λ _, False)) as [Hvol1 Hsf1]; try done.
  set (w1 := mkW fs1 _ _ _) in *. assert (nblk fs1 = nblk (w_fs w)) as Hnb by by destruct Hun.
  eapply swp_mono.
  { apply (sfs_loadnew_wp w1 I n); try done; [cbn; lia|cbn; rewrite Hus by lia; by rewrite Z.eqb_refl| |].
    - intros [->|[Hsys|(m & j & Hm & Hin)]]; [lia| |].
      + unfold SFS_FS_BITBLOCKS, w1 in Hsys. cbn in Hsys. rewrite Hs1 in Hsys.
        destruct (v_sys _ _ _ Hv n Hsys). congruence.
      + destruct (at_untouched (w_fs w) fs1 (λ _, False) m j) as (Heq & _);
          [by apply (v_file _ _ _ Hv)|done|done|tauto|]. unfold w1 in Hin. cbn in Hin. rewrite Heq in Hin. by apply (Hnin m j).
    - unfold w1. cbn. rewrite Hd1. apply sect_insert_eq; [lia|]. apply fs_ok_dsk_length; [done|lia]. }
  intros [r p] w' [(-> & m & sv & HI & Hh & Hp & Hn1 & Hi & Hr1 & Ho & Hvol & Hsf)|(Hr & Hh & Hvol & Hsf)].
  - left. split; [done|]. exists m, sv. split_and!; try done. apply (same_files_trans ∅ ∅ _ _ _ _ _ _ Hsf1 Hsf).
  - right. split_and!; try done. apply (same_files_trans ∅ ∅ _ _ _ _ _ _ Hsf1 Hsf).
Qed.

(** ** Writing an inode back *)

Lemma encode_inode_ok i : inode_wf i → sector_ok (encode_inode i).
Proof. intros Hwf. split; [by apply encode_inode_length|by apply encode_inode_bytes]. Qed.

(** Replacing the inode's own block does not affect the file's data. *)
Lemma ino_written fs sv sv' fs' data :
  file_ok (mkF fs sv) → sv_ino sv' = sv_ino sv → sv_i sv' = sv_i sv →
  fs_upd fs fs' (<[Z.to_nat (sv_ino sv) := data]> (dsk fs)) (sfs_freemap fs) →
  allblocks (mkF fs' sv') = allblocks (mkF fs sv) ∧ file_ok (mkF fs' sv') ∧
  (∀ p, 0 ≤ p < MAXSIZE → content (mkF fs' sv') p = content (mkF fs sv) p) ∧
  sect (dsk fs') (sv_ino sv) = data ∧
  untouched fs fs' (λ b, b = sv_ino sv).
Proof.
  intros Hok Hn Hi Hupd. pose proof Hupd as (Hs & _ & _ & Hb & _ & Hd & _).
  destruct (ino_used _ Hok) as [Hr _]. cbn in Hr. pose proof (ino_not_owned _ Hok) as Hno. cbn in Hno.
  assert (∀ b, 0 ≤ b → b ≠ sv_ino sv → sect (dsk fs') b = sect (dsk fs) b) as Hsec.
  { intros b Hb0 Hne. rewrite Hd. apply sect_insert_ne; [lia|lia|done]. }
  assert (allblocks (mkF fs' sv') = allblocks (mkF fs sv)) as Hall.
  { unfold allblocks, fblocks, f_inode, identries. cbn. rewrite Hn, Hi. do 3 f_equal.
    destruct (Z.eqb_spec (sfi_indirect (sv_i sv)) 0) as [|Hne]; [done|]. unfold f_dsk. cbn. rewrite Hsec; [done| |].
    - destruct (indirect_ok (mkF fs sv)) as [Hi0 _]; [done..|]. unfold f_inode in Hi0. cbn in Hi0. lia.
    - intros Heq. apply Hno. rewrite <-Heq. by apply (owned_indirect (mkF fs sv)). }
  assert (file_ok (mkF fs' sv')) as Hok'.
  { pose proof Hok as (Hfs & Hwf & Hino & [Hu Hinj]). split_and!; [by eapply fs_upd_ok_same|unfold f_inode; cbn; by rewrite Hi|cbn; by rewrite Hn|].
    unfold blocks_ok. rewrite Hall. split; [|done]. intros k b Hk Hb0. cbn. unfold used, nblk. rewrite Hs, Hb. by apply (Hu k b). }
  split_and!; try done.
  - intros p Hp. unfold MAXSIZE in Hp. unfold content. rewrite (allblocks_fblock _ _ _ Hall).
    destruct (Z.eqb_spec (fblock (mkF fs sv) (p / 512)) 0); [done|]. pose proof (fblock_range _ p Hp eq_refl) as Hk.
    destruct (fblock_ok (mkF fs sv) (p / 512)) as (? & _ & _ & ?); [done..|]. unfold f_dsk. cbn in *. by rewrite Hsec by lia.
  - rewrite Hd. destruct Hok as (Hfs & _). apply sect_insert_eq; [lia|]. apply fs_ok_dsk_length; [done|lia].
  - split; [unfold nblk; by rewrite Hs|]. intros b Hb0 Hu Hne. unfold used. rewrite Hb. split; [done|]. apply Hsec; [lia|done].
Qed.

Lemma sfs_sync_inode_wp fs sv :
  file_ok (mkF fs sv) →
  (sv_dirty sv = false → sect (dsk fs) (sv_ino sv) = encode_inode (sv_i sv)) →
  swp sfs_sync_inode (mkF fs sv) (λ r s', r = 0 ∧ file_step fs sv (f_fs s') (f_sv s') ∧
    f_sv s' = mkSv (sv_v sv) (sv_i sv) (sv_ino sv) false ∧
    sfs_freemap (f_fs s') = sfs_freemap fs ∧ allblocks s' = allblocks (mkF fs sv) ∧
    ∀ p, 0 ≤ p < MAXSIZE → content s' p = content (mkF fs sv) p).
Proof.
  intros Hok Hcl. unfold sfs_sync_inode. apply swp_bind, swp_gets. cbn [f_sv]. destruct (sv_dirty sv) eqn:Ed.
  - apply swp_bind, swp_on_fs. cbn [f_fs f_sv]. pose proof Hok as (Hfs & Hwf & _). destruct (ino_used _ Hok) as [Hr _]. cbn in Hr.
    eapply swp_mono; [apply sfs_wblock_wp; [done|lia|by apply encode_inode_ok]|]. intros r fs' [-> Hupd]. cbn [negb Z.eqb].
    apply swp_bind, swp_modify, swp_ret. cbn [f_fs f_sv].
    destruct (ino_written fs sv (mkSv (sv_v sv) (sv_i sv) (sv_ino sv) false) fs' _ Hok eq_refl eq_refl Hupd)
      as (Hall & Hok' & Hc & Hdat & Hun). pose proof Hupd as (? & ? & ? & ? & _). split_and!; try done.
    split_and!; try done.
    + eapply untouched_weaken; [done|]. by right.
    + intros b. unfold owned. rewrite Hall. by left.
  - apply swp_ret. cbn [f_fs f_sv]. destruct sv as [v i n []]; [done|]. cbn in Ed. split_and!; try done.
    split_and!; try done. by left.
Qed.

(** ** Reclaiming vnodes *)

Lemma sfs_find_vnode_wp w l p :
  array_repr (sfs_vnodes (w_fs w)) l → p ∈ l →
  swp (sfs_find_vnode p) w (λ ix w', w' = w ∧ ∃ k : nat, ix = Z.of_nat k ∧ l !! k = Some p).
Proof.
  intros Hl Hin. unfold sfs_find_vnode. apply swp_bind, swp_gets, swp_bind. eapply swp_mono.
  { apply (array_search_wp _ l (λ i sv2, mret (if sv2 =? p then inr i else inl tt)) (λ i sv2, if sv2 =? p then Some i else None)); [done|].
    intros k x _. by destruct (x =? p). }
  intros [[]|ix] w' [-> H]; apply swp_ret; split; [done| |done|].
  - apply list_elem_of_lookup in Hin as [k Hk]. specialize (H _ _ Hk). by rewrite Z.eqb_refl in H.
  - destruct H as (k & x & Hk & E). destruct (Z.eqb_spec x p) as [->|]; [|done]. injection E as <-. by exists k.
Qed.

Lemma sfs_drop_vnode_wp w l p sv :
  array_repr (sfs_vnodes (w_fs w)) l → p ∈ l → w_heap w !! p = Some sv →
  vn_refcount (sv_v sv) = 1 → vn_opencount (sv_v sv) = 0 → vn_countlock (sv_v sv) = true →
  swp (sfs_drop_vnode p) w (λ r w', r = 0 ∧ ∃ k a', l !! k = Some p ∧ array_repr a' (delete k l) ∧
    w' = mkW (set_vnodes a' (w_fs w)) (delete p (w_heap w)) (w_next w) (w_mem w)).
Proof.
  intros Hl Hin Hp Hr Ho Hlk. unfold sfs_drop_vnode. apply swp_bind. eapply swp_mono; [by apply sfs_find_vnode_wp|].
  intros ix w' (-> & k & -> & Hk). destruct (Z.ltb_spec (Z.of_nat k) 0); [lia|].
  apply swp_bind, swp_gets, swp_bind, swp_lift.
  eapply wp_mono; [apply (array_remove_wp _ l k); [done|by eapply lookup_lt_Some]|]. intros a' [_ Ha].
  apply swp_bind. unfold w_set_vnodes. apply w_on_fs_wp, swp_modify. cbn [w_fs w_heap w_next w_mem].
  apply swp_bind. eapply w_getv_wp; [done|]. apply swp_bind, swp_lift. unfold vnode_kill.
  apply wp_bind, wp_kassert; [by rewrite Hr|]. apply wp_bind, wp_kassert; [by rewrite Ho|].
  apply wp_bind, wp_kassert; [done|]. apply wp_done. unfold w_putv. apply swp_bind, swp_bind.
  eapply w_get_wp; [done|]. eapply w_put_wp; [done|]. unfold w_kfree. apply swp_bind. unfold swp at 1.
  cbn [w_heap put_file]. rewrite lookup_insert_eq. cbn [wp]. apply swp_ret. split; [done|]. exists k, a'.
  split_and!; [done..|]. cbn. by rewrite delete_insert_eq.
Qed.

Lemma VOP_wp {A} w p sv (call : sfs_ops → stm (world D) A) (Q : A → world D → Prop) reclaim :
  w_heap w !! p = Some sv → vnode_ok sv → swp (call (ops_of (sv_i sv))) w Q →
  swp (VOP (w_getv p) reclaim call) w Q.
Proof.
  intros Hp (Hr & Ho & _ & Hops) HQ. unfold VOP. apply swp_bind. eapply w_getv_wp; [done|].
  apply swp_bind, swp_lift. unfold vnode_check. rewrite Hops.
  rewrite (proj2 (Z.ltb_ge _ _)), (proj2 (Z.eqb_neq _ _)), (proj2 (Z.ltb_ge _ _)) by lia. done.
Qed.

(** The names are the same when the root directory is. *)
Definition same_names w w' I I' : Prop :=
  ∀ nm n, dir_maps (rootdir (w_fs w') I') nm n ↔ dir_maps (rootdir (w_fs w) I) nm n.

Lemma same_files_names S w w' I I' δ δ' :
  vol w I δ → vol w' I' δ' → same_files S w w' I I' → SFS_ROOT_LOCATION ∉ S → same_names w w' I I'.
Proof.
  intros Hv Hv' Hsf HS. destruct (v_root _ _ _ Hv) as (HR1 & Hd & _). apply lookup_lookup_total in HR1 as HI.
  destruct (Hsf _ _ HS HI) as [HI' Hc]. pose proof (v_file _ _ _ Hv' _ _ HI') as Hok.
  destruct (at_dir _ _ _ _ Hd Hok Hc) as [_ Hm]. intros nm n. unfold rootdir.
  rewrite (lookup_total_correct _ _ _ HI'). apply Hm.
Qed.

(** A step that keeps the inode and the content of its file. *)
Lemma vol_step_same w I δ p sv fs' sv' :
  vol w I δ → w_heap w !! p = Some sv → file_step (w_fs w) sv fs' sv' → sv_i sv' = sv_i sv →
  same_content (w_fs w) fs' (sv_ino sv) (sv_i sv) →
  vol (put_file w fs' p sv') I δ ∧ same_files ∅ w (put_file w fs' p sv') I I.
Proof.
  intros Hv Hp Hst Hi Hc. destruct (v_heap _ _ _ Hv p sv Hp) as (_ & _ & HI). pose proof Hst as (Hok' & Hn & _).
  assert (file_ok (at_inode fs' (sv_ino sv) (sv_i sv))) as Hok2.
  { assert (file_ok (at_inode fs' (sv_ino sv') (sv_i sv'))) as H by exact Hok'. by rewrite Hn, Hi in H. }
  destruct (vol_step w I δ p sv fs' sv' δ) as [Hvol Hsf]; try done.
  - unfold links_step. rewrite Hi. case_decide as Hroot; [|intros m; case_decide; lia]. split; [|done].
    destruct (vol_names _ _ _ _ _ Hv Hp Hroot) as [(Hd & Hnm & Hl) _].
    assert (dir_ok (at_inode (w_fs w) (sv_ino sv) (sv_i sv))) as Hd0 by exact Hd.
    destruct (at_dir _ _ _ _ Hd0 Hok2 Hc) as [Hd' Hm]. unfold at_inode in Hd', Hm. rewrite <-Hn, <-Hi in Hd', Hm.
    split_and!; [exact Hd'|..].
    + intros name m Hmap. apply (Hnm name m). apply Hm in Hmap. rewrite Hn, Hi in Hmap. exact Hmap.
    + intros m i Hmi Hne. destruct (Hl m i Hmi Hne) as (l & ? & Hin & ?). exists l. split_and!; try done.
      intros name. rewrite (Hin name). specialize (Hm name m). rewrite Hn, Hi in Hm. symmetry.
      replace (mkF fs' sv') with (mkF fs' (mkSv (sv_v sv') (sv_i sv) (sv_ino sv) (sv_dirty sv')))
        by (rewrite <-Hi, <-Hn; by destruct sv'). exact Hm.
  - rewrite Hi, insert_id in Hvol, Hsf by done. split; [done|]. intros m i _ Hm.
    destruct (decide (m = sv_ino sv)) as [->|Hne]; [|apply Hsf; [set_solver|done]]. split; [done|].
    rewrite HI in Hm. injection Hm as <-. exact Hc.
Qed.

Lemma vol_sync_wp w I δ p sv :
  vol w I δ → w_heap w !! p = Some sv →
  swp (with_file p sfs_sync_inode) w (λ r w', r = 0 ∧ ∃ fs',
    w' = put_file w fs' p (mkSv (sv_v sv) (sv_i sv) (sv_ino sv) false) ∧
    vol w' I δ ∧ same_files ∅ w w' I I ∧ sfs_freemap fs' = sfs_freemap (w_fs w) ∧
    sfs_vnodes fs' = sfs_vnodes (w_fs w)).
Proof.
  intros Hv Hp. destruct (v_heap _ _ _ Hv p sv Hp) as (_ & _ & HI).
  eapply with_file_wp; [done|]. eapply swp_mono.
  { apply sfs_sync_inode_wp; [exact (v_file _ _ _ Hv _ _ HI)|by apply (vol_clean w I δ p)]. }
  intros r [fs' sv'] (-> & Hst & Hsv & Hfm & Hc). cbn in *. subst sv'. split; [done|]. exists fs'. split; [done|].
  destruct (vol_step_same w I δ p sv fs' (mkSv (sv_v sv) (sv_i sv) (sv_ino sv) false)) as [? ?]; try done.
  split_and!; try done. by destruct Hst as (_ & _ & _ & _ & _ & ? & _).
Qed.

(** What reclaiming the vnode of a file does: it leaves memory; a file without
    a name leaves the volume and its blocks become free. *)
Definition reclaim_post w I p sv w' : Prop :=
  let erase := sfi_linkcount (sv_i sv) =? 0 in
  let I' := if erase then delete (sv_ino sv) I else I in
  w_heap w' = delete p (w_heap w) ∧ vol w' I' (λ _, 0) ∧
  same_files (if erase then {[sv_ino sv]} else ∅) w w' I I' ∧ same_names w w' I I' ∧
  (erase = true → ∀ b, b ≠ 0 → b ∈ allblocks (at_inode (w_fs w) (sv_ino sv) (sv_i sv)) →
     used (w_fs w') b = false).

Lemma vol_elem w I δ p sv l :
  vol w I δ → w_heap w !! p = Some sv → array_repr (sfs_vnodes (w_fs w)) l → p ∈ l.
Proof.
  intros Hv Hp Hl. destruct (v_table _ _ _ Hv) as (l' & Hl' & _ & Hin).
  rewrite (array_repr_det _ _ _ Hl Hl'). apply Hin. by rewrite Hp.
Qed.

(** The part after the truncation, for a file that keeps its names. *)
Lemma reclaim_named_wp w I p sv :
  vol w I (λ _, 0) → w_heap w !! p = Some sv → vn_refcount (sv_v sv) = 1 → vn_opencount (sv_v sv) = 0 →
  sfi_linkcount (sv_i sv) ≠ 0 →
  swp (sfs_reclaim p) w (λ r w', r = 0 ∧ reclaim_post w I p sv w').
Proof.
  intros Hv Hp Hr Ho Hlc. destruct (v_heap _ _ _ Hv p sv Hp) as (_ & (_ & _ & Hlk & _) & HI).
  unfold sfs_reclaim. apply swp_bind. eapply w_getv_wp; [done|]. rewrite Hr. cbn [negb Z.eqb Pos.eqb].
  apply swp_bind. eapply w_get_wp; [done|]. rewrite (proj2 (Z.eqb_neq _ _)) by done. apply swp_bind, swp_ret.
  cbn [negb Z.eqb]. apply swp_bind. eapply swp_mono; [by apply (vol_sync_wp w I (λ _, 0) p sv)|].
  intros r w1 (-> & fs1 & -> & Hv1 & Hsf1 & Hfm1 & Hvn1). cbn [negb Z.eqb]. set (sv1 := mkSv _ _ _ _) in *.
  set (w1 := put_file w fs1 p sv1) in *.
  assert (w_heap w1 !! p = Some sv1) as Hp1 by apply lookup_insert_eq.
  apply swp_bind. eapply w_get_wp; [done|]. unfold sv1 at 1. cbn [sv_i]. rewrite (proj2 (Z.eqb_neq _ _)) by done.
  apply swp_bind, swp_ret. destruct (v_table _ _ _ Hv1) as (l & Hl & _).
  eapply swp_mono; [apply (sfs_drop_vnode_wp w1 l p sv1); try done; by eapply vol_elem|].
  intros r w' (-> & k & a' & Hk & Ha & ->). split; [done|].
  pose proof (vol_forget w1 I (λ _, 0) p sv1 l k a' (w_mem w1) false Hv1 Hp1 Hl Hk Ha eq_refl Hlc) as Hvol.
  unfold reclaim_post. rewrite (proj2 (Z.eqb_neq _ _)) by done. cbv zeta.
  assert (same_files ∅ w (mkW (set_vnodes a' (w_fs w1)) (delete p (w_heap w1)) (w_next w1) (w_mem w1)) I I) as Hsf by exact Hsf1.
  split_and!; [|exact Hvol|exact Hsf|by eapply same_files_names; [exact Hv|exact Hvol|exact Hsf|set_solver]|done].
  unfold w1. cbn. by rewrite delete_insert_eq.
Qed.

Lemma bfree_untouched fs fs' n bm :
  0 < n → bits_clear (sfs_freemap fs) bm n → fs_upd fs fs' (dsk fs) bm →
  untouched fs fs' (λ b, b = n) ∧ ∀ b, 0 ≤ b → used fs' b = negb (b =? n) && used fs b.
Proof.
  intros Hn [_ Hc] (Hs & _ & _ & Hb & _ & Hd & _).
  assert (∀ b, 0 ≤ b → used fs' b = negb (b =? n) && used fs b) as Hus.
  { intros b Hb0. unfold used at 1. rewrite Hb. by apply Hc. }
  split; [|done]. split; [unfold nblk; by rewrite Hs|]. intros b Hb0 Hu Hne. rewrite Hus by lia.
  rewrite (proj2 (Z.eqb_neq _ _)), Hd by done. done.
Qed.

(** Truncating a file of the volume to nothing. *)
Lemma vol_truncate0_wp w I p sv :
  vol w I (λ _, 0) → w_heap w !! p = Some sv → sv_ino sv ≠ SFS_ROOT_LOCATION →
  swp (with_file p (sfs_truncate 0)) w (λ r w', r = 0 ∧ ∃ s',
    w' = put_file w (f_fs s') p (f_sv s') ∧ trunc_post (mkF (w_fs w) sv) 0 s' ∧
    vol w' (<[sv_ino sv := sv_i (f_sv s')]> I) (λ _, 0) ∧
    same_files {[sv_ino sv]} w w' I (<[sv_ino sv := sv_i (f_sv s')]> I)).
Proof.
  intros Hv Hp Hroot. destruct (v_heap _ _ _ Hv p sv Hp) as (_ & _ & HI).
  assert (file_ok (mkF (w_fs w) sv)) as Hok by exact (v_file _ _ _ Hv _ _ HI).
  eapply with_file_wp; [done|]. eapply swp_mono; [apply sfs_truncate_wp; [done|lia|unfold INT_MAX; lia]|].
  intros r s' [-> Hpost]. split; [done|]. exists s'. split_and!; [done|done|..].
  all: destruct (vol_step w I (λ _, 0) p sv (f_fs s') (f_sv s') (λ _, 0)) as [? ?]; try done.
  all: destruct Hpost as (Hsh & _); try (apply shrunk_step; [done|done|by apply (vol_clean w I (λ _, 0) p)]).
  all: unfold links_step; rewrite decide_False by done; intros m; destruct Hsh as (_ & (_ & _ & _ & Hlc & _) & _);
    unfold f_inode in Hlc; cbn in Hlc; rewrite Hlc; case_decide; lia.
Qed.

(** Once a file without names has neither data nor a vnode, its inode's block
    can be freed. *)
Lemma vol_erase w I p sv l k a' fs3 bm :
  vol w I (λ _, 0) → w_heap w !! p = Some sv → array_repr (sfs_vnodes (w_fs w)) l → l !! k = Some p →
  array_repr a' (delete k l) → sv_dirty sv = false → sfi_linkcount (sv_i sv) = 0 →
  sv_ino sv ≠ SFS_ROOT_LOCATION →
  fs_ok fs3 → bits_clear (sfs_freemap (w_fs w)) bm (sv_ino sv) → fs_upd (w_fs w) fs3 (dsk (w_fs w)) bm →
  let w' := mkW (set_vnodes a' fs3) (delete p (w_heap w)) (w_next w) (w_mem w) in
  vol w' (delete (sv_ino sv) I) (λ _, 0) ∧
  same_files {[sv_ino sv]} w w' I (delete (sv_ino sv) I).
Proof.
  intros Hv Hp Hl Hk Ha Hcl Hlc Hroot Hfs3 Hbm Hupd w'. destruct (v_heap _ _ _ Hv p sv Hp) as (_ & _ & HI).
  destruct (ino_used _ (v_file _ _ _ Hv _ _ HI)) as [Hr _]. cbn in Hr.
  pose proof (vol_forget w I (λ _, 0) p sv l k a' (w_mem w) true Hv Hp Hl Hk Ha Hcl (conj Hlc (conj Hroot eq_refl))) as Hv1.
  cbn in Hv1. set (w1 := mkW _ _ _ _) in Hv1. destruct (bfree_untouched _ _ _ _ (proj1 Hr) Hbm Hupd) as [Hun _].
  pose proof Hupd as (Hs & Hfl & _).
  destruct (vol_untouched w1 (delete (sv_ino sv) I) (λ _, 0) (set_vnodes a' fs3) (w_mem w) (λ b, b = sv_ino sv)) as [Hvol Hsf];
    try done.
  { intros b -> [H0|[Hsys|(m & j & Hm & Hin)]].
    - lia.
    - destruct (v_sys _ _ _ Hv _ Hsys) as [_ Hno]. apply (Hno _ _ HI). by left.
    - apply lookup_delete_Some in Hm as [Hne Hm]. apply (v_disj _ _ _ Hv m (sv_ino sv) j (sv_i sv) (sv_ino sv)); try done;
        [lia|by left]. }
  split; [exact Hvol|]. intros m j Hm Hj. assert (delete (sv_ino sv) I !! m = Some j) as Hj'.
  { rewrite lookup_delete_ne; [done|]. set_solver. }
  split; [done|]. apply (Hsf m j); [set_solver|done].
Qed.

Lemma reclaim_orphan_wp w I p sv :
  vol w I (λ _, 0) → w_heap w !! p = Some sv → vn_refcount (sv_v sv) = 1 → vn_opencount (sv_v sv) = 0 →
  sfi_linkcount (sv_i sv) = 0 →
  swp (sfs_reclaim p) w (λ r w', r = 0 ∧ reclaim_post w I p sv w').
Proof.
  intros Hv Hp Hr Ho Hlc. destruct (v_heap _ _ _ Hv p sv Hp) as (_ & Hvok & HI). pose proof Hvok as (_ & _ & Hlk & _).
  assert (sv_ino sv ≠ SFS_ROOT_LOCATION) as Hroot.
  { intros Heq. rewrite Heq in HI. destruct (v_root _ _ _ Hv) as (_ & _ & Hne). by rewrite (lookup_total_correct _ _ _ HI) in Hne. }
  pose proof (v_types _ _ _ Hv _ _ HI Hroot) as Hty.
  unfold sfs_reclaim. apply swp_bind. eapply w_getv_wp; [done|]. rewrite Hr. cbn [negb Z.eqb Pos.eqb].
  apply swp_bind. eapply w_get_wp; [done|]. rewrite Hlc. cbn [Z.eqb]. apply swp_bind. eapply VOP_wp; [done|done|].
  unfold ops_of, sfs_vop_truncate. rewrite Hty. cbn [Z.eqb Pos.eqb SFS_TYPE_FILE].
  eapply swp_mono; [by apply (vol_truncate0_wp w I p sv)|]. intros r w1 (-> & [fs1 sv1] & -> & Hpost & Hv1 & Hsf1). cbn [f_fs f_sv] in *.
  destruct Hpost as ((Hok1 & Hsame1 & Hown1 & Hus1 & _) & _ & _ & _ & Hempty). specialize (Hempty eq_refl).
  destruct Hsame1 as (Hn1 & Hsv1 & _ & Hlc1 & _). unfold f_inode in Hlc1. cbn in Hn1, Hsv1, Hlc1. rewrite Hlc in Hlc1.
  set (w1 := put_file w fs1 p sv1) in *. assert (w_heap w1 !! p = Some sv1) as Hp1 by apply lookup_insert_eq.
  cbn [negb Z.eqb]. apply swp_bind. eapply swp_mono; [by eapply (vol_sync_wp w1 _ (λ _, 0) p sv1)|].
  intros r w2 (-> & fs2 & -> & Hv2 & Hsf2 & Hfm2 & Hvn2). cbn [negb Z.eqb]. set (sv2 := mkSv _ _ _ _) in *.
  set (w2 := put_file w1 fs2 p sv2) in *. assert (w_heap w2 !! p = Some sv2) as Hp2 by apply lookup_insert_eq.
  apply swp_bind. eapply w_get_wp; [done|]. unfold sv2 at 1 2. cbn [sv_i sv_ino]. rewrite Hlc1. cbn [Z.eqb].
  destruct (v_heap _ _ _ Hv2 p sv2 Hp2) as (_ & _ & HI2). destruct (ino_used _ (v_file _ _ _ Hv2 _ _ HI2)) as [Hr2 Hu2].
  cbn in Hr2. change (used fs2 (sv_ino sv1) = true) in Hu2.
  apply swp_bind, w_on_fs_wp. eapply swp_mono; [by apply sfs_bfree_wp; [apply (v_fs _ _ _ Hv2)|..]|].
  intros [] fs3 (Hfs3 & bm & Hbm & Hupd3). destruct (v_table _ _ _ Hv2) as (l & Hl & _).
  pose proof Hupd3 as (_ & _ & Hvn3 & _). eapply swp_mono.
  { apply (sfs_drop_vnode_wp (mkW fs3 (w_heap w2) (w_next w2) (w_mem w2)) l p sv2); try done;
      [cbn; by rewrite Hvn3|by eapply vol_elem|cbn; by rewrite Hsv1..]. }
  intros r w' (-> & k & a' & Hk & Ha & ->). split; [done|]. cbn [w_fs w_heap w_next w_mem].
  destruct (vol_erase w2 _ p sv2 l k a' fs3 bm Hv2 Hp2 Hl Hk Ha eq_refl Hlc1) as [Hvol Hsf3]; try done;
    [cbn; by rewrite Hn1|].
  cbn [sv_ino sv2] in Hvol, Hsf3. rewrite Hn1, delete_insert_eq in Hvol, Hsf3.
  pose proof (same_files_trans _ _ _ _ _ _ _ _ (same_files_trans _ _ _ _ _ _ _ _ Hsf1 Hsf2) Hsf3) as Hsf.
  apply (same_files_weaken _ {[sv_ino sv]}) in Hsf; [|by rewrite (right_id_L ∅ (∪)), (idemp_L (∪))].
  unfold reclaim_post. rewrite (proj2 (Z.eqb_eq _ _) Hlc). cbv zeta iota.
  split_and!; [|exact Hvol|exact Hsf|by eapply same_files_names; [exact Hv|exact Hvol|exact Hsf|set_solver]|].
  - unfold w2, w1. cbn. by rewrite !delete_insert_eq.
  - intros _ b Hb Hin. cbn. rewrite Hn1 in Hbm, Hr2. destruct (bfree_untouched _ _ _ _ (proj1 Hr2) Hbm Hupd3) as [_ Hus3].
    destruct (file_ok_elem _ b (v_file _ _ _ Hv _ _ HI) Hin Hb) as [Hbr _]. change (used fs3 b = false).
    rewrite Hus3 by lia. apply elem_allblocks_own in Hin as [->|Hown]; [by rewrite Z.eqb_refl| |done].
    apply andb_false_iff. right. unfold used. cbn. rewrite Hfm2. change (f_used (mkF fs1 sv1) b = false).
    apply not_true_iff_false. intros Hu. apply Hus1 in Hu as [_ Ho']; [|lia]. by apply (Hempty b), Ho'.
Qed.

(** Dropping a reference. *)
Lemma sfs_decref_wp w I p sv :
  vol w I (λ _, 0) → w_heap w !! p = Some sv → (vn_refcount (sv_v sv) = 1 → vn_opencount (sv_v sv) = 0) →
  swp (sfs_decref p) w (λ _ w',
    if vn_refcount (sv_v sv) =? 1 then reclaim_post w I p sv w'
    else w' = put_file w (w_fs w) p (addref sv (-1)) ∧ vol w' I (λ _, 0)).
Proof.
  intros Hv Hp Ho. destruct (v_heap _ _ _ Hv p sv Hp) as (_ & Hvok & HI). pose proof Hvok as (Hr & Hoc & Hlk & Hops).
  unfold sfs_decref, vnode_decref. apply swp_bind. eapply w_getv_wp; [done|]. apply swp_bind, swp_kassert; [lia|].
  destruct (Z.eqb_spec (vn_refcount (sv_v sv)) 1) as [Heq|Hne].
  - rewrite Heq. cbn [Z.gtb Z.compare Pos.compare]. apply swp_bind. eapply VOP_wp; [done|done|].
    eapply (swp_mono _ _ (λ r w', r = 0 ∧ reclaim_post w I p sv w')).
    + destruct (decide (sfi_linkcount (sv_i sv) = 0)) as [Hlc|Hlc];
        [apply reclaim_orphan_wp|apply reclaim_named_wp]; auto.
    + intros r w' [-> Hpost]. by apply swp_ret.
  - destruct (Z.gtb_spec (vn_refcount (sv_v sv)) 1); [|lia]. unfold w_putv. apply swp_bind. eapply w_get_wp; [done|].
    eapply w_put_wp; [done|]. split; [done|]. apply (vol_setv w I (λ _, 0) p sv _ Hv Hp).
    unfold vnode_ok. cbn. split_and!; try done; lia.
Qed.
End ops.
