(* ===== verification/SfsExample.v ===== *)
(** * A small volume

    Eight blocks: the superblock, the inode of the root directory, the free
    map, the inode of a file, the directory's block, the file's block, and two
    free blocks.  The root directory is in memory; the file is in memory in
    [exv2] and not in [exv].  The theorems on whole volumes are applied to
    them. *)

From S2P Require Import Prelude Array Bitmap Copyinout Uio SfsDisk Dev Vnode SfsIo SfsFile Lhd SfsRw.
From S2P Require Import SfsDir SfsNames SfsVnode SfsFs SfsTrunc SfsVol SfsOps.

#[local] Existing Instance no_space.

Definition exv_inode (size type block : Z) : sfs_inode :=
  mkInode size type 1 (block :: replicate 14 0) 0 (replicate 110 0).
Definition exv_root : sfs_inode := exv_inode 64 SFS_TYPE_DIR 4.
Definition exv_file : sfs_inode := exv_inode 100 SFS_TYPE_FILE 5.
Definition exv_dir_vnode : sfs_vnode := mkSv (mkVnode 1 0 true (Some SfsDirOps)) exv_root 1 true.

Definition exv_disk : list (list Z) :=
  [encode_super ex_super; encode_inode exv_root; zero_block; encode_inode exv_file; ex_dir_data;
   replicate 512 65; zero_block; zero_block].
Definition exv_file_vnode : sfs_vnode := mkSv (mkVnode 1 0 true (Some SfsFileOps)) exv_file 3 false.
Definition exv_table (l : list Z) : array Z := mkArray (Z.of_nat (length l)) (Z.of_nat (length l)) (Some (Some <$> l)).
Definition exv_fs (l : list Z) : sfs_fs (lhd (list (list Z))) :=
  mkFs ex_super false (mkLhd zero_block 0 1 0 8 0 0 exv_disk) (exv_table l)
    (mkBitmap 4096 (63 :: replicate 511 255)) true.
Definition exv : world (lhd (list (list Z))) := mkW (exv_fs [1]) {[1 := exv_dir_vnode]} 2 (replicate 8 true).
(** The same volume with no vnode in memory. *)
Definition exv0 : world (lhd (list (list Z))) := mkW (exv_fs []) ∅ 1 (replicate 8 true).
Definition exv2 : world (lhd (list (list Z))) :=
  mkW (exv_fs [1; 2]) {[1 := exv_dir_vnode; 2 := exv_file_vnode]} 3 (replicate 8 true).
Definition exv_inodes : gmap Z sfs_inode := {[1 := exv_root; 3 := exv_file]}.

Lemma exv_inode_wf size type block :
  0 ≤ size < 4294967296 → 0 ≤ type < 65536 → 0 ≤ block < 4294967296 → inode_wf (exv_inode size type block).
Proof.
  intros Hs Ht Hb. unfold inode_wf. cbn [exv_inode sfi_size sfi_type sfi_linkcount sfi_direct sfi_indirect sfi_waste].
  split_and!; try lia; try done; [constructor; [lia|]|]; apply Forall_replicate; lia.
Qed.

Lemma exv_sectors : Forall sector_ok exv_disk.
Proof.
  unfold exv_disk. pose proof zero_block_ok as Hz.
  assert (sector_ok (encode_super ex_super)) as Hs by apply encode_super_ok, ex_super_wf.
  assert (sector_ok (encode_inode exv_root)) as Hr by (apply encode_inode_ok, exv_inode_wf; unfold SFS_TYPE_DIR; lia).
  assert (sector_ok (encode_inode exv_file)) as Hi by (apply encode_inode_ok, exv_inode_wf; unfold SFS_TYPE_FILE; lia).
  assert (sector_ok ex_dir_data) as Hd.
  { split; [done|]. apply Forall_app_2; [apply encode_dir_bytes, make_dir_wf|apply Forall_replicate; lia].
    - cbv beta. lia.
    - constructor; [lia|constructor].
    - simpl. lia. }
  assert (sector_ok (replicate 512 65)) as Hf by (split; [done|apply Forall_replicate; lia]).
  by repeat apply Forall_cons_2.
Qed.

Lemma exv_mounted l : mounted (exv_fs l).
Proof.
  assert (d_ok (sfs_device (exv_fs l))) as Hd.
  { change (lhd_ok (sfs_device (exv_fs l))). split_and!; try done. apply exv_sectors. }
  assert (bitmap_wf (sfs_freemap (exv_fs l))) as Hbm.
  { unfold bitmap_wf. split_and!; try done.
    - constructor; [lia|apply Forall_replicate; lia].
    - intros i Hi. change (4096 ≤ i < 8 * 512) in Hi. lia. }
  pose proof ex_super_wf. by split_and!.
Qed.

Lemma exv_bits l b : 0 ≤ b < 4096 → b ≠ 6 → b ≠ 7 → used (exv_fs l) b = true.
Proof.
  intros Hb H6 H7. assert (forallb (λ b, (b =? 6) || (b =? 7) || used (exv_fs l) b) (seqZ 0 4096) = true) as H by by vm_compute.
  rewrite forallb_forall in H. specialize (H b).
  rewrite (proj2 (Z.eqb_neq b 6) H6), (proj2 (Z.eqb_neq b 7) H7) in H. apply H, list_elem_of_In, elem_of_seqZ. lia.
Qed.

Lemma exv_fs_ok l : fs_ok (exv_fs l).
Proof.
  destruct (exv_mounted l) as (Hd & _ & _ & _ & _ & _ & _ & Hbm & _). split_and!; try done.
  intros b Hb. change (8 ≤ b < 4096) in Hb. apply exv_bits; lia.
Qed.

(** The blocks of the two files. *)
Lemma exv_blocks l n size type block k b :
  allblocks (at_inode (exv_fs l) n (exv_inode size type block)) !! k = Some b → b ≠ 0 →
  (k = 0%nat ∧ b = n) ∨ (k = 2%nat ∧ b = block).
Proof.
  destruct k as [|[|[|k]]]; [by intros [= <-]; auto|by intros [= <-]|by intros [= <-]; auto|].
  change (allblocks (at_inode (exv_fs l) n (exv_inode size type block)) !! S (S (S k))) with (replicate 142 0 !! k).
  by intros [-> _]%lookup_replicate.
Qed.

Lemma exv_file_ok l n size type block :
  0 < n < 6 → 0 < block < 6 → n ≠ block → 0 ≤ size < 4294967296 → 0 ≤ type < 65536 →
  file_ok (at_inode (exv_fs l) n (exv_inode size type block)).
Proof.
  intros Hn Hb Hne Hs Ht. split_and!; [apply exv_fs_ok|apply exv_inode_wf; lia|cbn; lia|]. split.
  - intros k b Hk Hb0. change (0 < b < 8 ∧ used (exv_fs l) b = true).
    destruct (exv_blocks _ _ _ _ _ _ _ Hk Hb0) as [[_ ->]|[_ ->]]; (split; [lia|apply exv_bits; lia]).
  - intros k k' b Hk Hk' Hb0.
    destruct (exv_blocks _ _ _ _ _ _ _ Hk Hb0) as [[-> ->]|[-> ->]], (exv_blocks _ _ _ _ _ _ _ Hk' Hb0) as [[-> ?]|[-> ?]]; lia || done.
Qed.

Lemma exv_elem l n size type block b :
  b ∈ allblocks (at_inode (exv_fs l) n (exv_inode size type block)) → b ≠ 0 → b = n ∨ b = block.
Proof.
  intros [k Hk]%list_elem_of_lookup Hb. destruct (exv_blocks _ _ _ _ _ _ _ Hk Hb) as [[_ ?]|[_ ?]]; auto.
Qed.

Lemma exv_inodes_cases n i : exv_inodes !! n = Some i → (n = 1 ∧ i = exv_root) ∨ (n = 3 ∧ i = exv_file).
Proof.
  unfold exv_inodes. intros [[<- <-]|[_ [<- <-]%lookup_singleton_Some]]%lookup_insert_Some; auto.
Qed.

Lemma exv_dir_ok l : dir_ok (rootdir (exv_fs l) exv_inodes).
Proof.
  split_and!; try done.
  - apply (exv_file_ok l 1 64 SFS_TYPE_DIR 4); unfold SFS_TYPE_DIR; lia.
  - intros i j name [Hi _] [Hj _]. change (nent (rootdir (exv_fs l) exv_inodes)) with 1 in *. lia.
Qed.

Lemma exv_names l name n :
  dir_maps (rootdir (exv_fs l) exv_inodes) name n ↔ name = [97] ∧ n = 3.
Proof.
  split.
  - intros (i & (Hi & _ & <-) & <-). change (nent (rootdir (exv_fs l) exv_inodes)) with 1 in Hi.
    assert (i = 0) as -> by lia. split; by vm_compute.
  - intros [-> ->]. exists 0. split; [|by vm_compute]. split_and!; [lia|done|by vm_compute|by vm_compute].
Qed.

Lemma exv_vol_of l h next mem :
  NoDup l → Z.of_nat (length l) < 1000 → (∀ p, p ∈ l ↔ is_Some (h !! p)) →
  (∀ p sv, h !! p = Some sv → p < next ∧ (p = 1 ∧ sv = exv_dir_vnode ∨ p = 2 ∧ sv = exv_file_vnode)) →
  vol (mkW (exv_fs l) h next mem) exv_inodes (λ _, 0).
Proof.
  intros Hnd Hlen Hl Hh. constructor; cbn [w_fs w_heap w_next].
  - apply exv_fs_ok.
  - apply exv_mounted.
  - exists l. split_and!; try done. unfold array_repr, exv_table. cbn. rewrite length_fmap.
    split_and!; try lia. rewrite take_ge; [done|by rewrite length_fmap].
  - intros p sv Hp. destruct (Hh p sv Hp) as [Hn [[-> ->]|[-> ->]]]; split_and!; try done; lia.
  - intros p p' sv sv' Hp Hp'. destruct (Hh p sv Hp) as [_ [[-> ->]|[-> ->]]], (Hh p' sv' Hp') as [_ [[-> ->]|[-> ->]]]; done.
  - intros n i [[-> ->]|[-> ->]]%exv_inodes_cases; by left.
  - intros n i [[-> ->]|[-> ->]]%exv_inodes_cases;
      [apply (exv_file_ok l 1 64 SFS_TYPE_DIR 4)|apply (exv_file_ok l 3 100 SFS_TYPE_FILE 5)]; unfold SFS_TYPE_DIR, SFS_TYPE_FILE; lia.
  - intros n m i j b Hne [[-> ->]|[-> ->]]%exv_inodes_cases [[-> ->]|[-> ->]]%exv_inodes_cases Hb; try done;
      intros Hn%exv_elem Hm%exv_elem; lia.
  - done.
  - intros b Hb. assert (b = 2) as ->. { change (2 ≤ b < 3) in Hb. lia. } split; [done|].
    intros n i [[-> ->]|[-> ->]]%exv_inodes_cases H%exv_elem; lia.
  - split_and!; [done|apply exv_dir_ok|done].
  - by intros n i [[-> ->]|[-> ->]]%exv_inodes_cases.
  - intros name n [-> ->]%exv_names. done.
  - intros n i [[-> ->]|[-> ->]]%exv_inodes_cases; [done|]. intros _. exists [[97]]. split_and!; [apply NoDup_singleton| |done].
    intros name. rewrite list_elem_of_singleton. rewrite (exv_names l name 3). tauto.
  - by intros n i [[-> ->]|[-> ->]]%exv_inodes_cases.
Qed.

Lemma exv_heap p sv : w_heap exv !! p = Some sv → p = 1 ∧ sv = exv_dir_vnode.
Proof. change (w_heap exv) with ({[1 := exv_dir_vnode]} : gmap Z sfs_vnode). by intros [<- <-]%lookup_singleton_Some. Qed.

Lemma exv2_heap p sv : w_heap exv2 !! p = Some sv → p = 1 ∧ sv = exv_dir_vnode ∨ p = 2 ∧ sv = exv_file_vnode.
Proof.
  change (w_heap exv2) with ({[1 := exv_dir_vnode; 2 := exv_file_vnode]} : gmap Z sfs_vnode).
  intros [[<- <-]|[_ [<- <-]%lookup_singleton_Some]]%lookup_insert_Some; auto.
Qed.

Lemma exv_vol : vol exv exv_inodes (λ _, 0).
Proof.
  apply exv_vol_of; [apply NoDup_singleton|simpl; lia| |].
  - intros p. rewrite list_elem_of_singleton, lookup_singleton_is_Some. done.
  - intros p sv [-> ->]%exv_heap. split; [lia|by left].
Qed.

Lemma exv0_vol : vol exv0 exv_inodes (λ _, 0).
Proof.
  apply exv_vol_of; [constructor|simpl; lia| |done].
  intros p. rewrite lookup_empty. split; [by intros ?%elem_of_nil|by intros [? ?]].
Qed.

Lemma exv2_vol : vol exv2 exv_inodes (λ _, 0).
Proof.
  apply exv_vol_of; [|simpl; lia| |].
  - apply NoDup_cons. split; [|apply NoDup_singleton]. by rewrite list_elem_of_singleton.
  - intros p. rewrite lookup_insert_is_Some', lookup_singleton_is_Some, elem_of_cons, list_elem_of_singleton.
    split; intros [?|?]; auto.
  - intros p sv H%exv2_heap. split; [|done]. destruct H as [[-> _]|[-> _]]; lia.
Qed.

Lemma exv_room : room exv.
Proof. by intros p sv [-> ->]%exv_heap. Qed.
