(* ===== verification/SfsApi.v ===== *)
(** * Looking up, creating, linking, removing and renaming files of SFS

    The operations that [vnode_ops] offers on the root directory, as functions
    on the volume: its names, its files and their contents. *)

From S2P Require Import Prelude Array Bitmap Copyinout Uio SfsDisk Dev Vnode SfsIo SfsFile Lhd SfsRw.
From S2P Require Import SfsDir SfsNames SfsVnode SfsFs SfsTrunc SfsVol SfsOps SfsExample.

Section api.
Context {D : Type} `{!BlockDev D} `{!Disk D} {cs : CurSpace}.
Implicit Types (w : world D) (fs : sfs_fs D) (s : fstate D) (I : gmap Z sfs_inode) (δ : Z → Z).
Implicit Types (name : list Z).

(** The directory a name leads to a file in. *)
Definition leads w I name (n : Z) : Prop := dir_maps (rootdir (w_fs w) I) name n.

(** The vnode at [p] is that of the root directory. *)
Definition root_vnode w (p : Z) (sv : sfs_vnode) : Prop :=
  w_heap w !! p = Some sv ∧ sv_ino sv = SFS_ROOT_LOCATION.

Lemma root_view w I δ p sv :
  vol w I δ → root_vnode w p sv →
  (∀ j nm, names (mkF (w_fs w) sv) j nm ↔ names (rootdir (w_fs w) I) j nm) ∧
  (∀ j, entry (mkF (w_fs w) sv) j = entry (rootdir (w_fs w) I) j) ∧
  names_ok I δ (mkF (w_fs w) sv) ∧ ∀ nm n, dir_maps (mkF (w_fs w) sv) nm n ↔ leads w I nm n.
Proof.
  intros Hv [Hp Hn]. destruct (v_heap _ _ _ Hv p sv Hp) as (_ & _ & HI). rewrite Hn in HI.
  destruct (vol_names _ _ _ _ _ Hv Hp Hn) as [? ?].
  unfold leads, rootdir in *. rewrite (lookup_total_correct _ _ _ HI) in *. split_and!; done.
Qed.

Lemma leads_fun w I δ nm n m : vol w I δ → leads w I nm n → leads w I nm m → n = m.
Proof.
  intros Hv (i & Hi & <-) (j & Hj & <-). destruct (v_root _ _ _ Hv) as (_ & (_ & _ & _ & _ & Hu) & _).
  by rewrite (Hu i j nm Hi Hj).
Qed.

(** The slots of the root directory when the directory is the same. *)
Lemma same_files_slots S w w' I I' δ :
  vol w I δ → same_files S w w' I I' → SFS_ROOT_LOCATION ∉ S →
  (∀ j nm, names (rootdir (w_fs w') I') j nm ↔ names (rootdir (w_fs w) I) j nm) ∧
  (∀ j, 0 ≤ j < nent (rootdir (w_fs w) I) → entry (rootdir (w_fs w') I') j = entry (rootdir (w_fs w) I) j).
Proof.
  intros Hv Hsf HS. destruct (v_root _ _ _ Hv) as (HR1 & Hd & _). apply lookup_lookup_total in HR1 as HI.
  destruct (Hsf _ _ HS HI) as [HI' Hc]. destruct (at_dir_slots _ _ _ _ Hd Hc) as [He Hnm].
  unfold rootdir in *. by rewrite (lookup_total_correct _ _ _ HI').
Qed.

(** ** Looking up *)

(** What looking for a name in the root directory answers. *)
Definition find_post w I name (r : Z) (f : findname) : Prop :=
  (r = 0 ∧ ∃ i n, fn_slot f = Some i ∧ fn_ino f = Some n ∧ leads w I name n ∧
     names (rootdir (w_fs w) I) i name) ∨
  (r = ENOENT ∧ ∀ n, ¬ leads w I name n).

Lemma root_find_wp w I δ p sv name :
  vol w I δ → root_vnode w p sv →
  swp (with_file p (sfs_dir_findname name)) w (λ '(r, f) w',
    vol w' I δ ∧ same_files ∅ w w' I I ∧ w_heap w' = w_heap w ∧ find_post w I name r f).
Proof.
  intros Hv Hroot. destruct (root_view _ _ _ _ _ Hv Hroot) as (Hnm & He & (Hd & _) & Hmaps).
  pose proof Hroot as [Hp Hn]. eapply with_file_wp; [done|].
  eapply swp_mono; [by apply sfs_dir_findname_wp|]. intros [r f] s' (Heq & Hf & ->).
  destruct (vol_eqv _ _ _ _ _ _ Hv Hp Heq) as (Hvol & Hsf & Hsv). split_and!; [done|done| |].
  - rewrite Hsv. cbn. by rewrite insert_id.
  - pose proof (found_maps _ _ _ Hf) as Hm. destruct Hf as [Hs _]. destruct (fn_slot f) as [i|] eqn:Ei.
    + destruct Hs as (-> & Hino & _ & Hni). left. split; [done|]. eexists i, _. split_and!; [done|done| |by apply Hnm].
      apply Hmaps. by exists i.
    + destruct Hs as (Hff & _ & _). rewrite Hff in *. right. split; [done|]. intros n Hl. apply Hmaps in Hl.
      assert (false = true); [|done]. apply Hm. by exists n.
Qed.

(** The link count of a file with a name is not 0. *)
Lemma leads_linked w I name n :
  vol w I (λ _, 0) → leads w I name n →
  n ≠ SFS_ROOT_LOCATION ∧ ∃ i, I !! n = Some i ∧ 1 ≤ sfi_linkcount i.
Proof.
  intros Hv Hl. destruct (v_names _ _ _ Hv name n Hl) as [Hne [i Hi]]. split; [done|]. exists i. split; [done|].
  destruct (v_links _ _ _ Hv n i Hi Hne) as (l & _ & Hin & Hlen). apply Hin in Hl.
  destruct l; [by apply elem_of_nil in Hl|]. simpl in Hlen. lia.
Qed.

Lemma load_post_heap w w' ino p q sv :
  load_post w ino 0 q w' → w_heap w !! p = Some sv → sv_ino sv ≠ ino → w_heap w' !! p = Some sv ∧ p ≠ q.
Proof.
  intros [[? _]|(_ & sv' & Hh & Hn & Hcase)] Hp Hne; [done|].
  assert (p ≠ q) as Hpq.
  { intros ->. destruct Hcase as [(sv0 & [H0 H1] & _)|(_ & H0 & _)]; congruence. }
  rewrite Hh, lookup_insert_ne by done. done.
Qed.

Definition lookonce_post w I name (r q slot : Z) w' : Prop :=
  (r = ENOENT ∧ w_heap w' = w_heap w ∧ ∀ n, ¬ leads w I name n) ∨
  (r = ENOMEM ∧ w_heap w' = w_heap w) ∨
  (r = 0 ∧ ∃ n, leads w I name n ∧ names (rootdir (w_fs w') I) slot name ∧ load_post w n 0 q w').

Lemma load_post_eq w w1 ino r p w' : w_heap w1 = w_heap w → load_post w1 ino r p w' → load_post w ino r p w'.
Proof. intros Hh. unfold load_post, loaded. by rewrite Hh. Qed.

Lemma sfs_lookonce_wp w I p sv name :
  vol w I (λ _, 0) → room w → root_vnode w p sv →
  swp (sfs_lookonce p name) w (λ '(r, q, slot) w',
    vol w' I (λ _, 0) ∧ same_files ∅ w w' I I ∧ lookonce_post w I name r q slot w').
Proof.
  intros Hv Hroom Hroot. unfold sfs_lookonce. apply swp_bind. eapply swp_mono; [by apply (root_find_wp w I (λ _, 0) p sv)|].
  intros [r f] w1 (Hv1 & Hsf1 & Hh1 & [(-> & i & n & Hs & Hi & Hl & Hnm)|(-> & Hno)]); cbn [negb Z.eqb].
  2: { apply swp_ret. split_and!; [done|done|by left]. }
  rewrite Hs, Hi. apply swp_bind, swp_lift. simpl wp. apply swp_bind, swp_lift. simpl wp.
  destruct (leads_linked _ _ _ _ Hv Hl) as (Hne & j & Hj & Hlc).
  apply swp_bind. eapply swp_mono; [apply (sfs_loadvnode_wp w1 I (λ _, 0) n j Hv1); [|done]|].
  { intros q sv' Hq. rewrite Hh1 in Hq. by eapply Hroom. }
  intros [r q] w2 (Hv2 & Hsf2 & Hpost). pose proof (same_files_trans _ _ _ _ _ _ _ _ Hsf1 Hsf2) as Hsf.
  rewrite (left_id_L ∅ (∪)) in Hsf. apply (load_post_eq w) in Hpost; [|done].
  destruct Hpost as [[-> Hh]|(-> & Hpost)]; cbn [negb Z.eqb].
  { apply swp_ret. split_and!; [done|done|right; by left]. }
  pose proof Hpost as (sv' & Hh2 & Hn2 & _). apply swp_bind.
  assert (w_heap w2 !! q = Some sv') as Hq by (rewrite Hh2; apply lookup_insert_eq). eapply w_get_wp; [done|].
  destruct (v_heap _ _ _ Hv2 q sv' Hq) as (_ & _ & HI2). rewrite Hn2, Hj in HI2. injection HI2 as Hij.
  rewrite <-Hij, (proj2 (Z.eqb_neq _ _)) by lia. apply swp_ret. split_and!; [done|done|]. right; right. split; [done|].
  exists n. split_and!; [done| |right; split; done]. destruct (same_files_slots ∅ w w2 I I (λ _, 0)) as [Hnm2 _]; [done..|set_solver|].
  by apply Hnm2.
Qed.

(** ** Changing names *)

(** The shortfall of one file. *)
Definition short (n d : Z) : Z → Z := λ m, if decide (m = n) then d else 0.

(** The names of the directory after a name for [n] has been added. *)
Lemma names_ok_link I s s' name n :
  names_ok I (λ _, 0) s → dir_ok s' → is_Some (I !! n) → n ≠ SFS_ROOT_LOCATION →
  (¬ ∃ m, dir_maps s name m) →
  (∀ nm m, dir_maps s' nm m ↔ (nm = name ∧ m = n) ∨ dir_maps s nm m) →
  names_ok I (short n 1) s'.
Proof.
  intros (_ & Hn & Hl) Hd' Hin Hne Hno Hm. split_and!; [done|..].
  - intros nm m [[-> ->]|H]%Hm; [done|by apply (Hn nm)].
  - intros m i Hi Hm1. destruct (Hl m i Hi Hm1) as (l & Hnd & Hl1 & Hlen). unfold short. case_decide as Hmn.
    + subst m. exists (name :: l). split_and!; [|..|simpl; lia].
      * apply NoDup_cons. split; [|done]. intros H%Hl1. apply Hno. by exists n.
      * intros nm. rewrite elem_of_cons, Hm, Hl1. split; [intros [->|?]; auto|intros [[-> _]|?]; auto].
    + exists l. split_and!; [done| |lia]. intros nm. rewrite Hm, Hl1. split; [by right|]. intros [[_ ?]|?]; done.
Qed.

(** And after one has been removed. *)
Lemma names_ok_unlink I s s' name n :
  names_ok I (λ _, 0) s → dir_ok s' → dir_maps s name n →
  (∀ nm m, dir_maps s' nm m ↔ nm ≠ name ∧ dir_maps s nm m) →
  names_ok I (short n (-1)) s'.
Proof.
  intros (Hd & Hn & Hl) Hd' Hmap Hm. split_and!; [done|..].
  - intros nm m [_ H]%Hm. by apply (Hn nm).
  - intros m i Hi Hm1. destruct (Hl m i Hi Hm1) as (l & Hnd & Hl1 & Hlen). unfold short. case_decide as Hmn.
    + subst m. apply Hl1 in Hmap as Hin. apply list_elem_of_split in Hin as (l1 & l2 & ->).
      apply NoDup_app in Hnd as (Hn1 & Hn2 & [Hn3 Hn4]%NoDup_cons). exists (l1 ++ l2). split_and!.
      * apply NoDup_app. split_and!; [done| |done]. intros x Hx Hx'. apply (Hn2 x Hx). by right.
      * intros nm. rewrite Hm, <-Hl1, !elem_of_app, elem_of_cons. split; [|tauto]. intros Hin.
        split; [|tauto]. intros ->. destruct Hin as [Hin|Hin]; [apply (Hn2 name Hin); by left|done].
      * rewrite length_app in *. simpl in Hlen. lia.
    + exists l. split_and!; [done| |lia]. intros nm. rewrite Hm, Hl1. split; [|tauto]. intros H. split; [|done].
      intros ->. apply Hmn. destruct Hmap as (j & Hj & <-), H as (j' & Hj' & <-).
      destruct Hd as (_ & _ & _ & _ & Hu). by rewrite (Hu j j' name Hj Hj').
Qed.

(** The state after the root directory has been written: [sv'] is its vnode. *)
Definition root_written w I p sv w' sv' : Prop :=
  w_heap w' = <[p := sv']> (w_heap w) ∧ sv_v sv' = sv_v sv ∧ root_vnode w' p sv' ∧
  same_files {[SFS_ROOT_LOCATION]} w w' I (<[SFS_ROOT_LOCATION := sv_i sv']> I).

Lemma root_step w I p sv s' δ' :
  vol w I (λ _, 0) → root_vnode w p sv → dir_ok s' → frame (mkF (w_fs w) sv) s' →
  same_file (mkF (w_fs w) sv) s' → names_ok I δ' s' →
  let w' := put_file w (f_fs s') p (f_sv s') in
  let I' := <[SFS_ROOT_LOCATION := sv_i (f_sv s')]> I in
  vol w' I' δ' ∧ root_written w I p sv w' (f_sv s') ∧
  (∀ nm m, leads w' I' nm m ↔ dir_maps s' nm m) ∧
  (∀ j nm, names (rootdir (w_fs w') I') j nm ↔ names s' j nm).
Proof.
  intros Hv [Hp Hn] Hd Hf Hsame Hok w' I'. destruct (v_heap _ _ _ Hv p sv Hp) as (_ & _ & HI).
  assert (file_ok (mkF (w_fs w) sv)) as Hok0 by exact (v_file _ _ _ Hv _ _ HI). destruct s' as [fs' sv'].
  destruct (vol_step w I (λ _, 0) p sv fs' sv' δ') as [Hvol Hsf]; try done.
  { apply (frame_step _ _ (mkF fs' sv')); try done; [by destruct Hd|by apply (vol_clean w I (λ _, 0) p)]. }
  { unfold links_step. rewrite decide_True by done. split; [done|]. by destruct Hsame as (_ & _ & _ & ? & _). }
  rewrite Hn in Hvol, Hsf. destruct Hsame as (Hn' & Hsv' & _). cbn in Hn', Hsv'.
  assert (root_vnode w' p sv') as Hroot' by (split; [by apply lookup_insert_eq|congruence]).
  destruct (root_view _ _ _ _ _ Hvol Hroot') as (Hnm & _ & _ & Hmaps). split_and!; try done.
Qed.

Lemma root_link_wp w I p sv name n :
  vol w I (λ _, 0) → root_vnode w p sv → name_ok name → is_Some (I !! n) → n ≠ SFS_ROOT_LOCATION →
  swp (with_file p (sfs_dir_link name n)) w (λ '(r, slot) w', ∃ sv', root_written w I p sv w' sv' ∧
    let I' := <[SFS_ROOT_LOCATION := sv_i sv']> I in
    (r = 0 ∧ vol w' I' (short n 1) ∧ (∀ m, ¬ leads w I name m) ∧
     (∀ nm m, leads w' I' nm m ↔ (nm = name ∧ m = n) ∨ leads w I nm m) ∧
     names (rootdir (w_fs w') I') slot name ∧
     ∀ j nm, names (rootdir (w_fs w) I) j nm → names (rootdir (w_fs w') I') j nm) ∨
    ((r = EEXIST ∧ (∃ m, leads w I name m) ∨ r = ENAMETOOLONG ∧ (60 ≤ length name)%nat ∨
      r = EINVAL ∨ r = ENOSPC) ∧
     vol w' I' (λ _, 0) ∧ ∀ nm m, leads w' I' nm m ↔ leads w I nm m)).
Proof.
  intros Hv Hroot Hname Hin Hne. destruct (root_view _ _ _ _ _ Hv Hroot) as (Hnm & He & Hnok & Hmaps).
  pose proof Hnok as (Hd & _). pose proof Hroot as [Hp Hn]. assert (0 < n < 4294967296) as Hn32.
  { destruct Hin as [i Hi]. destruct (ino_used _ (v_file _ _ _ Hv _ _ Hi)) as [Hr _]. cbn in Hr.
    pose proof (fs_ok_bound _ (v_fs _ _ _ Hv)). lia. }
  eapply with_file_wp; [done|]. eapply swp_mono; [by apply sfs_dir_link_wp|]. intros [r slot] s' (Hd' & Hf & Hsame & Hcase).
  exists (f_sv s'). destruct Hcase as [(-> & [m Hm] & Heq)|[(-> & Hlen & Heq)|[(Hr & Hm)|(-> & Hno & Hm & Hsl & Hj)]]].
  1-3: assert (∀ nm m, dir_maps s' nm m ↔ dir_maps (mkF (w_fs w) sv) nm m) as Hsm
    by (done || (intros; by apply eqv_maps));
    destruct (root_step w I p sv s' (λ _, 0)) as (Hvol & Hwr & Hl & _); try done;
    [destruct Hnok as (_ & Hn1 & Hn2); split_and!; [done|intros nm k Hk%Hsm; by apply (Hn1 nm)|];
     intros k i Hi Hk; destruct (Hn2 k i Hi Hk) as (l & ? & Hl & ?); exists l; split_and!; try done;
     intros nm; rewrite Hsm; apply Hl|];
    (split; [done|]); right; (split; [|split; [done|]; intros nm k; rewrite Hl, Hsm; apply Hmaps]); auto 10.
  - left. split; [done|]. exists m. by apply Hmaps.
  - destruct (root_step w I p sv s' (short n 1)) as (Hvol & Hwr & Hl & Hns); try done.
    { by eapply names_ok_link. }
    split; [done|]. left. split_and!; try done.
    + intros m Hlm. apply Hno. exists m. by apply Hmaps.
    + intros nm m. rewrite Hl, Hm, Hmaps. done.
    + by apply Hns.
    + intros j nm Hjn. apply Hns, Hj, Hnm, Hjn.
Qed.

Lemma root_unlink_wp w I p sv slot name n :
  vol w I (λ _, 0) → root_vnode w p sv → names (rootdir (w_fs w) I) slot name → leads w I name n →
  swp (with_file p (sfs_dir_unlink slot)) w (λ r w', r = 0 ∧ ∃ sv', root_written w I p sv w' sv' ∧
    let I' := <[SFS_ROOT_LOCATION := sv_i sv']> I in
    vol w' I' (short n (-1)) ∧ ∀ nm m, leads w' I' nm m ↔ nm ≠ name ∧ leads w I nm m).
Proof.
  intros Hv Hroot Hsl Hlead. destruct (root_view _ _ _ _ _ Hv Hroot) as (Hnm & _ & Hnok & Hmaps).
  pose proof Hroot as [Hp _]. eapply with_file_wp; [done|].
  eapply swp_mono; [apply (sfs_dir_unlink_wp _ slot name); [by destruct Hnok|by apply Hnm]|].
  intros r s' (Hd' & Hf & Hsame & -> & Hm). split; [done|]. exists (f_sv s').
  destruct (root_step w I p sv s' (short n (-1))) as (Hvol & Hwr & Hl & _); try done.
  { eapply names_ok_unlink; [done|done|by apply Hmaps|done]. }
  split; [done|]. split; [done|]. intros nm m. rewrite Hl, Hm, Hmaps. done.
Qed.

(** ** What an operation keeps *)

(** The files outside [S] are still there, with the same type and bytes; their
    link counts may differ. *)
Definition keeps (S : gset Z) w w' I I' : Prop :=
  ∀ n i, n ∉ S → I !! n = Some i → ∃ i', I' !! n = Some i' ∧
    sfi_type i' = sfi_type i ∧ sfi_size i' = sfi_size i ∧
    ∀ p, 0 ≤ p < MAXSIZE → content (at_inode (w_fs w') n i') p = content (at_inode (w_fs w) n i) p.

Lemma keeps_trans S1 S2 w1 w2 w3 I1 I2 I3 :
  keeps S1 w1 w2 I1 I2 → keeps S2 w2 w3 I2 I3 → keeps (S1 ∪ S2) w1 w3 I1 I3.
Proof.
  intros H1 H2 n i Hn Hi. destruct (H1 n i) as (i' & Hi' & Ht & Hs & Hc); [set_solver|done|].
  destruct (H2 n i') as (i'' & Hi'' & Ht' & Hs' & Hc'); [set_solver|done|]. exists i''.
  split_and!; [done|congruence..|]. intros p Hp. rewrite Hc', Hc by done. done.
Qed.

Lemma keeps_files S w w' I I' : same_files S w w' I I' → keeps S w w' I I'.
Proof. intros H n i Hn Hi. destruct (H n i Hn Hi) as [? [_ ?]]. by exists i. Qed.

Lemma keeps_weaken S S' w w' I I' : S ⊆ S' → keeps S w w' I I' → keeps S' w w' I I'.
Proof. intros HS H n i Hn. apply H. set_solver. Qed.

(** The reference and open counts of the vnodes in memory. *)
Definition refs w : gmap Z (vnode sfs_ops) := sv_v <$> w_heap w.

Lemma refs_put w w' p sv sv' :
  w_heap w !! p = Some sv → sv_v sv' = sv_v sv → w_heap w' = <[p := sv']> (w_heap w) → refs w' = refs w.
Proof.
  intros Hp Hv Hh. unfold refs. rewrite Hh, fmap_insert, Hv. apply insert_id. by rewrite lookup_fmap, Hp.
Qed.

(** Since [w0] a reference to [q] has been taken. *)
Definition took w0 (q : Z) w : Prop :=
  ∃ v', refs w = <[q := v']> (refs w0) ∧
    match refs w0 !! q with
    | Some v => v' = mkVnode (vn_refcount v + 1) (vn_opencount v) (vn_countlock v) (vn_ops v) ∧ 1 ≤ vn_refcount v
    | None => vn_refcount v' = 1 ∧ vn_opencount v' = 0
    end.

Lemma load_took w I δ w' n q : vol w I δ → load_post w n 0 q w' → took w q w'.
Proof.
  intros Hv [[? _]|(_ & sv' & Hh & _ & Hcase)]; [done|]. exists (sv_v sv'). unfold refs.
  rewrite Hh, fmap_insert, lookup_fmap. split; [done|].
  destruct Hcase as [(sv & [Hq _] & ->)|(_ & -> & ? & ?)]; [|done]. rewrite Hq. cbn.
  by destruct (v_heap _ _ _ Hv q sv Hq) as (_ & (? & _) & _).
Qed.

Lemma took_eq w0 q w w' : refs w' = refs w → took w0 q w → took w0 q w'.
Proof. unfold took. by intros ->. Qed.

(** ** Link counts *)

(** The directory has at most as many names as slots. *)
Lemma names_bound s l :
  dir_ok s → NoDup l → (∀ nm, nm ∈ l → ∃ n, dir_maps s nm n) → Z.of_nat (length l) ≤ nent s.
Proof.
  intros Hd Hnd Hl. assert (∃ js, Forall2 (λ nm j, names s j nm) l js) as [js Hjs].
  { induction l as [|nm l IH]; [by exists []|]. apply NoDup_cons in Hnd as [_ Hnd].
    destruct IH as [js Hjs]; [done|intros x Hx; apply Hl; by right|].
    destruct (Hl nm) as (n & j & Hj & _); [by left|]. exists (j :: js). by constructor. }
  assert (NoDup js) as Hnj.
  { clear Hl. induction Hjs as [|nm j l js Hj Hjs IH]; [constructor|]. apply NoDup_cons in Hnd as [Hni Hnd].
    apply NoDup_cons. split; [|by apply IH]. intros Hin. apply Hni.
    apply list_elem_of_lookup in Hin as [k Hk]. destruct (Forall2_lookup_r _ _ _ _ _ Hjs Hk) as (nm' & Hk' & Hj').
    destruct Hj as (_ & _ & <-), Hj' as (_ & _ & ->). apply list_elem_of_lookup. by exists k. }
  rewrite (Forall2_length _ _ _ Hjs). destruct (dir_size s Hd) as [_ Hn].
  assert (js ⊆+ seqZ 0 (nent s)) as Hsub.
  { apply NoDup_submseteq; [done|]. intros j Hj. apply list_elem_of_lookup in Hj as [k Hk].
    destruct (Forall2_lookup_r _ _ _ _ _ Hjs Hk) as (nm & _ & (? & _)). apply elem_of_seqZ. lia. }
  apply submseteq_length in Hsub. rewrite length_seqZ in Hsub. lia.
Qed.

Lemma links_bound w I δ n i :
  vol w I δ → I !! n = Some i → n ≠ SFS_ROOT_LOCATION → 0 ≤ sfi_linkcount i + δ n ≤ 1144.
Proof.
  intros Hv Hi Hn. destruct (v_links _ _ _ Hv n i Hi Hn) as (l & Hnd & Hl & ->).
  destruct (v_root _ _ _ Hv) as (_ & Hd & _). destruct (dir_size _ Hd).
  pose proof (names_bound _ l Hd Hnd (λ nm H, ex_intro _ n (proj1 (Hl nm) H))). lia.
Qed.

Definition relink (sv : sfs_vnode) (d : Z) : sfs_vnode :=
  let i := sv_i sv in
  mkSv (sv_v sv) (mkInode (sfi_size i) (sfi_type i) (sfi_linkcount i + d) (sfi_direct i)
    (sfi_indirect i) (sfi_waste i)) (sv_ino sv) true.

(** Adjusting the link count of a file by what it falls short of. *)
Lemma w_addlink_wp w I p sv d :
  vol w I (short (sv_ino sv) d) → w_heap w !! p = Some sv → sv_ino sv ≠ SFS_ROOT_LOCATION →
  swp (w_addlink p d true) w (λ _ w',
    let I' := <[sv_ino sv := sv_i (relink sv d)]> I in
    w' = put_file w (w_fs w) p (relink sv d) ∧ vol w' I' (λ _, 0) ∧ keeps ∅ w w' I I' ∧
    refs w' = refs w ∧ same_files {[sv_ino sv]} w w' I I').
Proof.
  intros Hv Hp Hne. destruct (v_heap _ _ _ Hv p sv Hp) as (_ & Hvok & HI).
  pose proof (v_file _ _ _ Hv _ _ HI) as Hok.
  pose proof (links_bound _ _ _ _ _ Hv HI Hne) as Hb. unfold short in Hb. rewrite decide_True in Hb by done.
  unfold w_addlink. apply swp_bind. eapply w_get_wp; [done|]. eapply w_put_wp; [done|].
  unfold u16. rewrite Z.mod_small by lia. rewrite orb_true_r. fold (relink sv d).
  assert (file_ok (mkF (w_fs w) (relink sv d))) as Hok'.
  { destruct Hok as (Hfs & Hwf & Hino & Hr). split_and!; [done| |done|done].
    unfold f_inode, at_inode in Hwf. cbn in Hwf. destruct Hwf as (?&?&?&?&?&?&?&?). split_and!; cbn; done || lia. }
  destruct (vol_step w I (short (sv_ino sv) d) p sv (w_fs w) (relink sv d) (λ _, 0)) as [Hvol Hsf]; try done.
  - split_and!; try done. { intros b Ho. by left. }
  - unfold links_step. rewrite decide_False by done. intros n. unfold short. cbn. case_decide; lia.
  - split_and!; [done|done| |by apply (refs_put _ _ p sv (relink sv d))|done]. intros n i _ Hi. destruct (decide (n = sv_ino sv)) as [->|Hn].
    + eexists. rewrite lookup_insert_eq. split; [done|]. rewrite HI in Hi. injection Hi as <-. done.
    + exists i. by rewrite lookup_insert_ne.
Qed.

(** ** Giving a reference back *)

(** The file goes with the last reference and the last name. *)
Definition dropped w0 (q : Z) (sv : sfs_vnode) : bool :=
  bool_decide (refs w0 !! q = None) && (sfi_linkcount (sv_i sv) =? 0).

Lemma drop_wp w0 w I q sv :
  vol w I (λ _, 0) → w_heap w !! q = Some sv → took w0 q w →
  swp (sfs_decref q) w (λ _ w', refs w' = refs w0 ∧
    let I' := if dropped w0 q sv then delete (sv_ino sv) I else I in
    vol w' I' (λ _, 0) ∧ keeps (if dropped w0 q sv then {[sv_ino sv]} else ∅) w w' I I' ∧
    same_names w w' I I' ∧
    (dropped w0 q sv = true → ∀ b, b ≠ 0 → b ∈ allblocks (at_inode (w_fs w) (sv_ino sv) (sv_i sv)) →
       used (w_fs w') b = false)).
Proof.
  intros Hv Hq (v' & Hr & Hcase). assert (v' = sv_v sv) as ->.
  { assert (refs w !! q = Some (sv_v sv)) as H by (unfold refs; by rewrite lookup_fmap, Hq).
    rewrite Hr, lookup_insert_eq in H. congruence. }
  unfold dropped. eapply swp_mono; [apply (sfs_decref_wp w I q sv); try done|].
  { destruct (refs w0 !! q) as [v|]; [|intros _; by destruct Hcase]. destruct Hcase as [-> ?]. cbn. lia. }
  intros [] w'. destruct (refs w0 !! q) as [v|] eqn:E; cbn beta iota.
  - destruct Hcase as [Hsv Hrc]. rewrite (proj2 (Z.eqb_neq _ _)) by (rewrite Hsv; cbn; lia).
    intros [-> Hvol]. rewrite bool_decide_false by done. cbn [andb]. split_and!; try done.
    + unfold refs at 1. cbn. rewrite fmap_insert. fold (refs w). rewrite Hr, insert_insert_eq. apply insert_id.
      rewrite E. unfold addref. rewrite Hsv. cbn. destruct v as [rc oc cl ops]. cbn. do 2 f_equal. lia.
    + intros n i _ Hi. by exists i.
  - destruct Hcase as [Hrc _]. rewrite Hrc. cbn [Z.eqb Pos.eqb]. intros (Hh & Hvol & Hsf & Hnm & Hfree).
    rewrite bool_decide_true by done. cbn [andb]. split_and!; try done; [|by apply keeps_files].
    unfold refs at 1. rewrite Hh, fmap_delete. fold (refs w). rewrite Hr. by apply delete_insert_id.
Qed.

(** ** The operations *)

Lemma root_type w I δ p sv : vol w I δ → root_vnode w p sv → sfi_type (sv_i sv) = SFS_TYPE_DIR.
Proof. intros Hv Hroot. by destruct (root_view _ _ _ _ _ Hv Hroot) as (_ & _ & ((_ & ? & _) & _) & _). Qed.

Definition lookup_post w I name (r q : Z) w' : Prop :=
  vol w' I (λ _, 0) ∧ keeps ∅ w w' I I ∧ same_names w w' I I ∧
  ((r = ENOENT ∧ refs w' = refs w ∧ ∀ n, ¬ leads w I name n) ∨
   (r = ENOMEM ∧ refs w' = refs w) ∨
   (r = 0 ∧ ∃ n sv, leads w I name n ∧ loaded w' n q sv ∧ took w q w')).

Lemma same_refs w w' : w_heap w' = w_heap w → refs w' = refs w.
Proof. unfold refs. by intros ->. Qed.

Lemma sfs_lookup_wp w I p sv name :
  vol w I (λ _, 0) → room w → root_vnode w p sv →
  swp (sfs_lookup p name) w (λ '(r, q) w', lookup_post w I name r q w').
Proof.
  intros Hv Hroom Hroot. pose proof (root_type _ _ _ _ _ Hv Hroot) as Hty. pose proof Hroot as [Hp _].
  unfold sfs_lookup. apply swp_bind. eapply w_get_wp; [done|]. rewrite Hty. cbn [negb Z.eqb Pos.eqb SFS_TYPE_DIR].
  apply swp_bind. eapply swp_mono; [by apply (sfs_lookonce_wp w I p sv)|].
  intros [[r q] slot] w' (Hv' & Hsf & Hpost). pose proof (keeps_files _ _ _ _ _ Hsf) as Hk.
  assert (same_names w w' I I) as Hnm by (eapply same_files_names; [exact Hv|exact Hv'|done|set_solver]).
  destruct Hpost as [(-> & Hh & Hno)|[(-> & Hh)|(-> & n & Hl & Hsl & Hload)]]; cbn [negb Z.eqb]; apply swp_ret; split_and!; try done.
  - left. split_and!; [done|by apply same_refs|done].
  - right; left. split; [done|by apply same_refs].
  - right; right. split; [done|]. pose proof (load_took _ _ _ _ _ _ Hv Hload) as Ht.
    destruct Hload as [[? _]|(_ & sv' & Hh & Hn & _)]; [done|]. exists n, sv'. split_and!; try done.
    split; [|done]. rewrite Hh. apply lookup_insert_eq.
Qed.

Lemma root_written_refs w I p sv w' sv' :
  root_vnode w p sv → root_written w I p sv w' sv' → refs w' = refs w.
Proof. intros [Hp _] (Hh & Hv & _). by eapply refs_put. Qed.

Lemma root_keeps_dom w I p sv δ i :
  vol w I δ → root_vnode w p sv → dom (<[SFS_ROOT_LOCATION := i]> I) = dom I.
Proof.
  intros Hv [Hp Hn]. destruct (v_heap _ _ _ Hv p sv Hp) as (_ & _ & HI). rewrite Hn in HI.
  apply dom_insert_lookup_L. by exists (sv_i sv).
Qed.

(** Other vnodes when the root directory is written. *)
Lemma root_written_other w I δ p sv w' sv' q svq :
  vol w I δ → root_vnode w p sv → root_written w I p sv w' sv' →
  w_heap w !! q = Some svq → sv_ino svq ≠ SFS_ROOT_LOCATION → w_heap w' !! q = Some svq.
Proof.
  intros Hv [Hp Hn] (Hh & _) Hq Hne. rewrite Hh, lookup_insert_ne; [done|]. intros ->. congruence.
Qed.

(** Adding a name for a file in memory. *)
Definition link_post w I name (n r : Z) w' I' : Prop :=
  vol w' I' (λ _, 0) ∧ keeps {[SFS_ROOT_LOCATION]} w w' I I' ∧ refs w' = refs w ∧ dom I' = dom I ∧
  ((r = 0 ∧ (∀ m, ¬ leads w I name m) ∧
    ∀ nm m, leads w' I' nm m ↔ (nm = name ∧ m = n) ∨ leads w I nm m) ∨
   ((r = EEXIST ∧ (∃ m, leads w I name m) ∨ r = ENAMETOOLONG ∧ (60 ≤ length name)%nat ∨
     r = EINVAL ∨ r = ENOSPC) ∧ ∀ nm m, leads w' I' nm m ↔ leads w I nm m)).

Lemma sfs_link_wp w I p sv name q svq :
  vol w I (λ _, 0) → root_vnode w p sv → name_ok name → w_heap w !! q = Some svq →
  sv_ino svq ≠ SFS_ROOT_LOCATION →
  swp (sfs_link p name q) w (λ r w', ∃ I', link_post w I name (sv_ino svq) r w' I').
Proof.
  intros Hv Hroot Hname Hq Hne. destruct (v_heap _ _ _ Hv q svq Hq) as (_ & _ & HI). unfold sfs_link.
  apply swp_bind. eapply w_get_wp; [done|]. apply swp_bind.
  eapply swp_mono; [by apply (root_link_wp w I p sv name (sv_ino svq) Hv Hroot Hname (mk_is_Some _ _ HI))|].
  intros [r slot] w1 (sv' & Hwr & Hcase). pose proof (root_written_refs _ _ _ _ _ _ Hroot Hwr) as Hr1.
  pose proof Hwr as (_ & _ & _ & Hsf%keeps_files). pose proof (root_keeps_dom _ _ _ _ _ (sv_i sv') Hv Hroot) as Hdom.
  destruct Hcase as [(-> & Hv1 & Hno & Hl & _)|(Hr & Hv1 & Hl)].
  - cbn [negb Z.eqb]. apply swp_bind.
    assert (w_heap w1 !! q = Some svq) as Hq1 by exact (root_written_other _ _ _ _ _ _ _ _ _ Hv Hroot Hwr Hq Hne).
    eapply swp_mono; [by eapply w_addlink_wp|]. intros [] w2 (_ & Hv2 & Hk2 & Hr2 & Hsf2). apply swp_ret.
    eexists. split_and!; [exact Hv2| |congruence| |].
    + rewrite <-(right_id_L ∅ (∪) {[_]}). by eapply keeps_trans.
    + rewrite dom_insert_lookup_L; [done|]. rewrite lookup_insert_ne by done. by eexists.
    + left. split_and!; [done|done|]. intros nm m. rewrite <-Hl.
      eapply (same_files_names {[sv_ino svq]}); [exact Hv1|exact Hv2|done|set_solver].
  - assert (r ≠ 0) as Hr0 by (destruct Hr as [[-> _]|[[-> _]|[->| ->]]]; done).
    rewrite (proj2 (Z.eqb_neq _ _)) by done. cbn [negb]. apply swp_ret. eexists. split_and!; [exact Hv1|done..|].
    right. by split.
Qed.

(** Removing a name. *)
Definition remove_post w I name (r : Z) w' I' : Prop :=
  vol w' I' (λ _, 0) ∧ refs w' = refs w ∧
  (((r = ENOENT ∧ (∀ n, ¬ leads w I name n) ∨ r = ENOMEM) ∧
    I' = I ∧ keeps ∅ w w' I I ∧ same_names w w' I I) ∨
   (r = 0 ∧ ∃ n i, leads w I name n ∧ I !! n = Some i ∧
    (∀ nm m, leads w' I' nm m ↔ nm ≠ name ∧ leads w I nm m) ∧
    ((sfi_linkcount i = 1 ∧ (∀ q sv, ¬ loaded w n q sv) ∧ dom I' = dom I ∖ {[n]} ∧
      keeps {[SFS_ROOT_LOCATION; n]} w w' I I' ∧
      ∀ b, b ≠ 0 → b ∈ allblocks (at_inode (w_fs w) n i) → used (w_fs w') b = false) ∨
     ((sfi_linkcount i ≠ 1 ∨ ∃ q sv, loaded w n q sv) ∧ dom I' = dom I ∧
      keeps {[SFS_ROOT_LOCATION]} w w' I I')))).

(** A vnode that [sfs_loadvnode] returned, after the root directory has been written. *)
Lemma load_then_root w w1 w2 I p sv sv2 q n :
  vol w I (λ _, 0) → vol w1 I (λ _, 0) → root_vnode w p sv → n ≠ SFS_ROOT_LOCATION →
  load_post w n 0 q w1 → root_written w1 I p sv w2 sv2 →
  ∃ svq, w_heap w2 !! q = Some svq ∧ sv_ino svq = n ∧ I !! n = Some (sv_i svq) ∧ took w q w2 ∧
    (refs w !! q = None ↔ ∀ q' sv', ¬ loaded w n q' sv').
Proof.
  intros Hv Hv1 [Hp Hn1] Hne Hload Hwr. pose proof (load_took _ _ _ _ _ _ Hv Hload) as Ht.
  destruct (load_post_heap _ _ _ _ _ _ Hload Hp) as [Hp1 Hpq]; [by rewrite Hn1|].
  destruct Hload as [[? _]|(_ & svq & Hh & Hn & Hcase)]; [done|]. exists svq.
  assert (w_heap w1 !! q = Some svq) as Hq by (rewrite Hh; apply lookup_insert_eq).
  destruct (v_heap _ _ _ Hv1 q svq Hq) as (_ & _ & HI). rewrite Hn in HI. split_and!; try done.
  - by apply (root_written_other w1 I _ p sv w2 sv2 q svq Hv1 (conj Hp1 Hn1) Hwr Hq); rewrite Hn.
  - eapply took_eq; [|exact Ht]. exact (root_written_refs _ _ _ _ _ _ (conj Hp1 Hn1) Hwr).
  - unfold refs. rewrite lookup_fmap. destruct Hcase as [(sv0 & Hl & _)|(Hno & -> & _)].
    + split; [by destruct Hl as [-> _]|]. intros H. by destruct (H q sv0).
    + done.
Qed.

Lemma load_vnode w w1 I δ n q i :
  vol w1 I δ → load_post w n 0 q w1 → I !! n = Some i →
  ∃ sv, w_heap w1 !! q = Some sv ∧ sv_ino sv = n ∧ sv_i sv = i.
Proof.
  intros Hv [[? _]|(_ & sv & Hh & Hn & _)] Hi; [done|].
  assert (w_heap w1 !! q = Some sv) as Hq by (rewrite Hh; apply lookup_insert_eq).
  destruct (v_heap _ _ _ Hv q sv Hq) as (_ & _ & HI). exists sv. split_and!; congruence.
Qed.

(** Taking a link away and giving the reference back. *)
Definition unlinked w0 w I (q : Z) (sv : sfs_vnode) w' I' : Prop :=
  vol w' I' (λ _, 0) ∧ refs w' = refs w0 ∧ same_names w w' I I' ∧
  ((refs w0 !! q = None ∧ sfi_linkcount (sv_i sv) = 1 ∧ dom I' = dom I ∖ {[sv_ino sv]} ∧
    keeps {[sv_ino sv]} w w' I I' ∧
    ∀ b, b ≠ 0 → b ∈ allblocks (at_inode (w_fs w) (sv_ino sv) (sv_i sv)) → used (w_fs w') b = false) ∨
   ((refs w0 !! q ≠ None ∨ sfi_linkcount (sv_i sv) ≠ 1) ∧ dom I' = dom I ∧ keeps ∅ w w' I I')).

Lemma unlinked_wp w0 w I q sv :
  vol w I (short (sv_ino sv) (-1)) → w_heap w !! q = Some sv → sv_ino sv ≠ SFS_ROOT_LOCATION → took w0 q w →
  1 ≤ sfi_linkcount (sv_i sv) ∧
  swp (w_addlink q (-1) true) w (λ _ w1, swp (sfs_decref q) w1 (λ _ w', ∃ I', unlinked w0 w I q sv w' I')).
Proof.
  intros Hv Hq Hne Ht. destruct (v_heap _ _ _ Hv q sv Hq) as (_ & _ & HI).
  pose proof (links_bound _ _ _ _ _ Hv HI Hne) as Hb. unfold short in Hb. rewrite decide_True in Hb by done.
  split; [lia|]. eapply swp_mono; [by apply (w_addlink_wp w I q sv)|]. intros [] w1 (Hw1 & Hv1 & Hk1 & Hr1 & Hsf1).
  assert (w_heap w1 !! q = Some (relink sv (-1))) as Hq1 by (rewrite Hw1; apply lookup_insert_eq).
  eapply swp_mono; [apply (drop_wp w0 w1 _ q _ Hv1 Hq1); by apply (took_eq w0 q w)|].
  intros [] w2 (Hr2 & Hv2 & Hk2 & Hnm2 & Hfree). pose proof (keeps_trans _ _ _ _ _ _ _ _ Hk1 Hk2) as Hk.
  rewrite (left_id_L ∅ (∪)) in Hk. set (I1 := <[sv_ino sv := _]> I) in *.
  assert (dom I1 = dom I) as Hdom by (apply dom_insert_lookup_L; by eexists). eexists. split_and!; [exact Hv2|done|..].
  { intros nm m. rewrite (Hnm2 nm m). eapply (same_files_names {[sv_ino sv]}); [exact Hv|exact Hv1|done|set_solver]. }
  unfold dropped in *. cbn [sv_i relink sfi_linkcount] in *. destruct (bool_decide_reflect (refs w0 !! q = None)) as [Hn|Hn]; cbn [andb] in *.
  - destruct (Z.eqb_spec (sfi_linkcount (sv_i sv) + -1) 0).
    + left. split_and!; [done|lia|by rewrite dom_delete_L, Hdom|done|]. intros b Hb0 Hin. apply Hfree; [done|done|].
      rewrite Hw1. exact Hin.
    + right. split_and!; [right; lia|done|done].
  - right. split_and!; [by left|done|done].
Qed.

Lemma sfs_remove_wp w I p sv name :
  vol w I (λ _, 0) → room w → root_vnode w p sv →
  swp (sfs_remove p name) w (λ r w', ∃ I', remove_post w I name r w' I').
Proof.
  intros Hv Hroom Hroot. unfold sfs_remove. apply swp_bind.
  eapply swp_mono; [by apply (sfs_lookonce_wp w I p sv)|]. intros [[r q] slot] w1 (Hv1 & Hsf1 & Hpost).
  assert (same_names w w1 I I) as Hnm1 by (eapply same_files_names; [exact Hv|exact Hv1|done|set_solver]).
  pose proof (keeps_files _ _ _ _ _ Hsf1) as Hk1.
  destruct Hpost as [(-> & Hh & Hno)|[(-> & Hh)|(-> & n & Hl & Hsl & Hload)]]; cbn [negb Z.eqb].
  1-2: apply swp_ret; exists I; split_and!; [done|by apply same_refs|left; auto].
  destruct (leads_linked _ _ _ _ Hv Hl) as (Hne & i & Hi & _). pose proof Hroot as [Hp Hn1].
  destruct (load_post_heap _ _ _ _ _ _ Hload Hp) as [Hp1 Hpq]; [by rewrite Hn1|].
  apply swp_bind. eapply swp_mono; [apply (root_unlink_wp w1 I p sv slot name n); try done; by apply Hnm1|].
  intros r w2 (-> & sv2 & Hwr & Hv2 & Hl2). cbn [Z.eqb].
  destruct (load_then_root _ _ _ _ _ _ _ _ _ Hv Hv1 Hroot Hne Hload Hwr) as (svq & Hq & Hn & Hi' & Ht & Hfresh).
  rewrite Hi in Hi'. injection Hi' as ->. subst n. pose proof Hwr as (_ & _ & _ & Hsf2).
  destruct (unlinked_wp w w2 _ q svq Hv2 Hq Hne Ht) as [Hlc Hun].
  apply swp_bind, swp_bind. eapply w_get_wp; [done|]. apply swp_bind, swp_kassert; [lia|].
  eapply swp_mono; [exact Hun|]. intros [] w3 Hdec. apply swp_bind. eapply swp_mono; [exact Hdec|].
  intros [] w4 (I' & Hv4 & Hr4 & Hnm4 & Hcase). apply swp_ret. exists I'. split_and!; [done|done|]. right. split; [done|].
  exists (sv_ino svq), (sv_i svq). split_and!; [done|done|..].
  { intros nm m. unfold leads at 1. rewrite (Hnm4 nm m). unfold leads in Hl2. rewrite Hl2. split; intros [? ?%Hnm1]; done. }
  pose proof (keeps_trans _ _ _ _ _ _ _ _ Hk1 (keeps_files _ _ _ _ _ Hsf2)) as Hk2. rewrite (left_id_L ∅ (∪)) in Hk2.
  rewrite (root_keeps_dom _ _ _ _ _ (sv_i sv2) Hv Hroot) in Hcase.
  destruct Hcase as [(Hnone & Hz & Hdom & Hk & Hfree)|(Hnot & Hdom & Hk)]; [left|right].
  - split_and!; [done|by apply Hfresh|done|by eapply keeps_trans|]. intros b Hb0 Hin. apply Hfree; [done|].
    destruct (Hsf1 _ _ (not_elem_of_empty _) Hi) as [_ [Ha1 _]].
    destruct (Hsf2 _ _ (λ H, Hne (proj1 (elem_of_singleton _ _) H)) Hi) as [_ [Ha2 _]]. by rewrite Ha2, Ha1.
  - split_and!; [|done|rewrite <-(right_id_L ∅ (∪) {[_]}); by eapply keeps_trans].
    destruct Hnot as [Hnot|]; [right|by left]. unfold refs in Hnot. rewrite lookup_fmap in Hnot.
    destruct Hload as [[? _]|(_ & sv' & _ & _ & [(sv0 & ? & _)|(_ & Hq0 & _)])]; [done|by eexists _, _|].
    by rewrite Hq0 in Hnot.
Qed.

Lemma link_error r :
  r = EEXIST ∨ r = ENAMETOOLONG ∨ r = EINVAL ∨ r = ENOSPC → negb (r =? 0) = true.
Proof. by intros [->|[->|[->| ->]]]. Qed.

(** Renaming, once the new name is there. *)
Lemma rename_linked_wp w0 w I p sv q svq slot1 slot2 n1 :
  vol w I (short (sv_ino svq) 1) → root_vnode w p sv → w_heap w !! q = Some svq →
  sv_ino svq ≠ SFS_ROOT_LOCATION → took w0 q w → 1 ≤ sfi_linkcount (sv_i svq) →
  names (rootdir (w_fs w) I) slot1 n1 → leads w I n1 (sv_ino svq) →
  swp (w_addlink q 1 true;;
       result ← with_file p (sfs_dir_unlink slot1);
       if negb (result =? 0) then
         result2 ← with_file p (sfs_dir_unlink slot2);
         if negb (result2 =? 0) then lift Panic else
         w_addlink q (-1) false;;
         sfs_decref q;;
         mret result
       else
       sv1 ← w_get q;
       lift (kassert (sfi_linkcount (sv_i sv1) >? 0));;
       w_addlink q (-1) true;;
       sfs_decref q;;
       mret 0) w (λ r w', r = 0 ∧ ∃ I', vol w' I' (λ _, 0) ∧ refs w' = refs w0 ∧ dom I' = dom I ∧
    keeps {[SFS_ROOT_LOCATION]} w w' I I' ∧ ∀ nm m, leads w' I' nm m ↔ nm ≠ n1 ∧ leads w I nm m).
Proof.
  intros Hv Hroot Hq Hne Ht Hlc Hsl Hl. destruct (v_heap _ _ _ Hv q svq Hq) as (_ & _ & HI). apply swp_bind.
  eapply swp_mono; [by apply (w_addlink_wp w I q svq)|]. intros [] w1 (Hw1 & Hv1 & Hk1 & Hr1 & Hsf1).
  set (I1 := <[sv_ino svq := _]> I) in *.
  assert (SFS_ROOT_LOCATION ∉ ({[sv_ino svq]} : gset Z)) as Hni by set_solver.
  destruct (same_files_slots _ _ _ _ _ _ Hv Hsf1 Hni) as [Hsl1 _].
  pose proof (same_files_names _ _ _ _ _ _ _ Hv Hv1 Hsf1 Hni) as Hnm1.
  assert (root_vnode w1 p sv) as Hroot1.
  { destruct Hroot as [Hp Hn1]. split; [|done]. rewrite Hw1. cbn. rewrite lookup_insert_ne; [done|]. intros ->. congruence. }
  assert (w_heap w1 !! q = Some (relink svq 1)) as Hq1 by (rewrite Hw1; apply lookup_insert_eq).
  apply swp_bind. eapply swp_mono; [apply (root_unlink_wp w1 I1 p sv slot1 n1 (sv_ino svq)); try done; [by apply Hsl1|by apply Hnm1]|].
  intros r w2 (-> & sv2 & Hwr & Hv2 & Hl2). cbn [negb Z.eqb]. pose proof Hwr as (_ & _ & _ & Hsf2%keeps_files).
  pose proof (root_written_other _ _ _ _ _ _ _ _ _ Hv1 Hroot1 Hwr Hq1 Hne) as Hq2.
  pose proof (root_written_refs _ _ _ _ _ _ Hroot1 Hwr) as Hr2.
  destruct (unlinked_wp w0 w2 _ q (relink svq 1) Hv2 Hq2 Hne) as [_ Hun]; [apply (took_eq w0 q w); [congruence|done]|].
  apply swp_bind. eapply w_get_wp; [done|]. apply swp_bind, swp_kassert; [cbn; lia|]. apply swp_bind.
  eapply swp_mono; [exact Hun|]. intros [] w3 Hdec. apply swp_bind. eapply swp_mono; [exact Hdec|].
  intros [] w4 (I' & Hv4 & Hr4 & Hnm4 & Hcase). apply swp_ret. split; [done|]. exists I'.
  destruct Hcase as [(_ & Hz & _)|(_ & Hdom & Hk4)]; [cbn in Hz; lia|]. split_and!; [done|done|..].
  - rewrite Hdom, (root_keeps_dom _ _ _ _ _ (sv_i sv2) Hv1 Hroot1). apply dom_insert_lookup_L. by eexists.
  - pose proof (keeps_trans _ _ _ _ _ _ _ _ (keeps_trans _ _ _ _ _ _ _ _ Hk1 Hsf2) Hk4) as Hk.
    by rewrite (left_id_L ∅ (∪)), (right_id_L ∅ (∪)) in Hk.
  - intros nm m. unfold leads at 1. rewrite (Hnm4 nm m). unfold leads in Hl2. rewrite Hl2, (Hnm1 nm m). done.
Qed.

Definition rename_post w I n1 n2 (r : Z) w' I' : Prop :=
  vol w' I' (λ _, 0) ∧ refs w' = refs w ∧ dom I' = dom I ∧ keeps {[SFS_ROOT_LOCATION]} w w' I I' ∧
  ((r = 0 ∧ ∃ n, leads w I n1 n ∧ (∀ m, ¬ leads w I n2 m) ∧
    ∀ nm m, leads w' I' nm m ↔ (nm = n2 ∧ m = n) ∨ (nm ≠ n1 ∧ leads w I nm m)) ∨
   (same_names w w' I I' ∧
    (r = ENOENT ∧ (∀ n, ¬ leads w I n1 n) ∨ r = ENOMEM ∨ r = EEXIST ∧ (∃ m, leads w I n2 m) ∨
     r = ENAMETOOLONG ∧ (60 ≤ length n2)%nat ∨ r = EINVAL ∨ r = ENOSPC))).

Lemma sfs_rename_wp w I p sv n1 n2 :
  vol w I (λ _, 0) → room w → root_vnode w p sv → name_ok n2 →
  swp (sfs_rename p n1 p n2) w (λ r w', ∃ I', rename_post w I n1 n2 r w' I').
Proof.
  intros Hv Hroom Hroot Hname. pose proof Hroot as [Hp Hn1]. unfold sfs_rename.
  apply swp_bind, swp_kassert; [by apply Z.eqb_refl|]. apply swp_bind. eapply w_get_wp; [done|].
  rewrite Hn1. apply swp_bind, swp_kassert; [done|]. apply swp_bind.
  eapply swp_mono; [by apply (sfs_lookonce_wp w I p sv)|]. intros [[r q] slot] w1 (Hv1 & Hsf1 & Hpost).
  assert (same_names w w1 I I) as Hnm1 by (eapply same_files_names; [exact Hv|exact Hv1|done|set_solver]).
  pose proof (keeps_files _ _ _ _ _ Hsf1) as Hk1.
  destruct Hpost as [(-> & Hh & Hno)|[(-> & Hh)|(-> & n & Hl & Hsl & Hload)]]; cbn [negb Z.eqb].
  1-2: apply swp_ret; exists I; split_and!; [done|by apply same_refs|done|by eapply keeps_weaken; [|exact Hk1]|right; auto 10].
  destruct (leads_linked _ _ _ _ Hv Hl) as (Hne & i & Hi & Hlc).
  destruct (load_post_heap _ _ _ _ _ _ Hload Hp) as [Hp1 Hpq]; [by rewrite Hn1|].
  destruct (load_vnode _ _ _ _ _ _ _ Hv1 Hload Hi) as (svq & Hq1 & Hn & <-).
  apply swp_bind. eapply w_get_wp; [done|]. apply swp_bind, swp_kassert.
  { rewrite (v_types _ _ _ Hv n _ Hi Hne). done. }
  apply swp_bind. rewrite Hn.
  eapply swp_mono; [by apply (root_link_wp w1 I p sv n2 n Hv1 (conj Hp1 Hn1) Hname (mk_is_Some _ _ Hi))|].
  intros [r slot2] w2 (sv2 & Hwr & Hcase). pose proof Hwr as (_ & _ & _ & Hsf2%keeps_files).
  destruct (load_then_root _ _ _ _ _ _ _ _ _ Hv Hv1 Hroot Hne Hload Hwr) as (svq' & Hq & Hn' & Hi' & Ht & _).
  rewrite Hi in Hi'. injection Hi' as Hi'. pose proof (root_keeps_dom _ _ _ _ _ (sv_i sv2) Hv Hroot) as Hdom.
  pose proof (keeps_trans _ _ _ _ _ _ _ _ Hk1 Hsf2) as Hk. rewrite (left_id_L ∅ (∪)) in Hk.
  destruct Hcase as [(-> & Hv2 & Hno & Hl2 & Hs2 & Hsl2)|(Hr & Hv2 & Hl2)].
  - cbn [negb Z.eqb]. rewrite <-Hn' in Hv2, Hl, Hne. eapply swp_mono.
    { apply (rename_linked_wp w w2 _ p sv2 q svq' slot slot2 n1 Hv2); try done.
      - by destruct Hwr as (_ & _ & ? & _).
      - by rewrite <-Hi'.
      - by apply Hsl2.
      - apply Hl2. right. by apply Hnm1. }
    intros r w3 (-> & I3 & Hv3 & Hr3 & Hd3 & Hk3 & Hl3). exists I3.
    split_and!; [done|done|congruence|rewrite <-(idemp_L (∪) {[_]}); by eapply keeps_trans|].
    left. split; [done|]. exists (sv_ino svq'). split_and!; [done|intros m Hm; apply (Hno m); by apply Hnm1|].
    intros nm m. rewrite Hl3, Hl2, Hn'. unfold leads at 1. rewrite (Hnm1 nm m). fold (leads w I nm m).
    split; [tauto|]. intros [[-> ->]|?]; [|tauto]. split; [|by left]. intros <-.
    apply (Hno (sv_ino svq')). by apply Hnm1.
  - rewrite (link_error r) by (destruct Hr as [[? _]|[[? _]|[?|?]]]; auto).
    apply swp_bind. eapply swp_mono; [exact (drop_wp w w2 _ q svq' Hv2 Hq Ht)|].
    intros [] w3 (Hr3 & Hv3 & Hk3 & Hnm3 & _). apply swp_ret. unfold dropped in Hv3, Hk3, Hnm3.
    rewrite <-Hi', (proj2 (Z.eqb_neq _ 0)), andb_false_r in Hv3, Hk3, Hnm3 by lia.
    eexists. split_and!; [exact Hv3|done|done|rewrite <-(right_id_L ∅ (∪) {[_]}); by eapply keeps_trans|].
    right. split.
    + intros nm m. rewrite (Hnm3 nm m). unfold leads in Hl2. rewrite Hl2. apply Hnm1.
    + destruct Hr as [[-> [m Hm]]|[?|?]]; [right; right; left; split; [done|]; exists m; by apply Hnm1|tauto|tauto].
Qed.

(** Creating a file, or opening the one there is. *)
Definition creat_post w I name (excl : bool) (r q : Z) w' I' : Prop :=
  vol w' I' (λ _, 0) ∧ keeps {[SFS_ROOT_LOCATION]} w w' I I' ∧
  ((r = 0 ∧ excl = false ∧ I' = I ∧ same_names w w' I I ∧
    ∃ n sv, leads w I name n ∧ loaded w' n q sv ∧ took w q w') ∨
   (r = 0 ∧ (∀ m, ¬ leads w I name m) ∧
    ∃ n sv, I !! n = None ∧ dom I' = {[n]} ∪ dom I ∧ loaded w' n q sv ∧
      sfi_type (sv_i sv) = SFS_TYPE_FILE ∧ sfi_size (sv_i sv) = 0 ∧ sfi_linkcount (sv_i sv) = 1 ∧
      refs w !! q = None ∧ took w q w' ∧
      ∀ nm m, leads w' I' nm m ↔ (nm = name ∧ m = n) ∨ leads w I nm m) ∨
   (refs w' = refs w ∧ same_names w w' I I' ∧ dom I' = dom I ∧
    (r = EEXIST ∧ excl = true ∧ (∃ m, leads w I name m) ∨ r = ENOMEM ∨
     (∀ m, ¬ leads w I name m) ∧
     (r = ENAMETOOLONG ∧ (60 ≤ length name)%nat ∨ r = EINVAL ∨ r = ENOSPC)))).

(** A file that no name leads to yet does not count among those of before. *)
Lemma keeps_fresh S w w' I I' n : keeps (S ∪ {[n]}) w w' I I' → I !! n = None → keeps S w w' I I'.
Proof. intros H Hn m i Hm Hi. apply H; [|done]. rewrite elem_of_union, elem_of_singleton. intros [?| ->]; congruence. Qed.

Lemma remove_added (n : Z) (X : gset Z) : n ∉ X → ({[n]} ∪ X) ∖ {[n]} = X.
Proof.
  intros Hn. apply leibniz_equiv. intros x. rewrite elem_of_difference, elem_of_union, elem_of_singleton.
  split; [tauto|]. intros Hx. split; [by right|]. by intros ->.
Qed.

(** Once the inode is there. *)
Lemma creat_new_wp w w1 I p sv name q svq :
  vol w I (λ _, 0) → root_vnode w p sv → name_ok name → (∀ m, ¬ leads w I name m) →
  w_heap w1 = <[q := svq]> (w_heap w) → w_heap w !! q = None → I !! sv_ino svq = None →
  sv_i svq = new_inode → vn_refcount (sv_v svq) = 1 → vn_opencount (sv_v svq) = 0 →
  vol w1 (<[sv_ino svq := new_inode]> I) (λ _, 0) → same_files ∅ w w1 I (<[sv_ino svq := new_inode]> I) →
  swp (sv ← w_get q;
       '(result, _) ← with_file p (sfs_dir_link name (sv_ino sv));
       if negb (result =? 0) then sfs_decref q;; mret (result, 0)
       else w_addlink q 1 true;; mret (0, q)) w1
    (λ '(r, q') w', ∃ I', creat_post w I name false r q' w' I' ∧ (r = 0 → q' = q)).
Proof.
  intros Hv Hroot Hname Hno Hh Hq0 Hn Hnew Hrc Hoc Hv1 Hsf1. set (n := sv_ino svq) in *. set (I1 := <[n := new_inode]> I) in *.
  assert (w_heap w1 !! q = Some svq) as Hq1 by (rewrite Hh; apply lookup_insert_eq).
  assert (n ≠ SFS_ROOT_LOCATION) as Hne. { destruct (v_root _ _ _ Hv) as ([i Hi] & _). congruence. }
  assert (took w q w1) as Ht1.
  { exists (sv_v svq). unfold refs. rewrite Hh, fmap_insert, lookup_fmap, Hq0. by split. }
  assert (root_vnode w1 p sv) as Hroot1.
  { destruct Hroot as [Hp ?]. split; [|done]. rewrite Hh, lookup_insert_ne; [done|]. intros ->. congruence. }
  assert (same_names w w1 I I1) as Hnm1 by (eapply same_files_names; [exact Hv|exact Hv1|done|set_solver]).
  apply swp_bind. eapply w_get_wp; [done|]. fold n. apply swp_bind.
  assert (is_Some (I1 !! n)) as HI1 by (unfold I1; by rewrite lookup_insert_eq).
  eapply swp_mono; [exact (root_link_wp w1 I1 p sv name n Hv1 Hroot1 Hname HI1 Hne)|].
  intros [r slot] w2 (sv2 & Hwr & Hcase). pose proof Hwr as (_ & _ & _ & Hsf2%keeps_files).
  pose proof (root_written_other _ _ _ _ _ _ _ _ _ Hv1 Hroot1 Hwr Hq1 Hne) as Hq2.
  pose proof (took_eq w q w1 w2 (root_written_refs _ _ _ _ _ _ Hroot1 Hwr) Ht1) as Ht2.
  pose proof (keeps_trans _ _ _ _ _ _ _ _ (keeps_files _ _ _ _ _ Hsf1) Hsf2) as Hk. rewrite (left_id_L ∅ (∪)) in Hk.
  set (I2 := <[SFS_ROOT_LOCATION := sv_i sv2]> I1) in *.
  assert (dom I2 = {[n]} ∪ dom I) as Hdom.
  { unfold I2. rewrite (root_keeps_dom _ _ _ _ _ (sv_i sv2) Hv1 Hroot1). apply dom_insert_L. }
  destruct Hcase as [(-> & Hv2 & _ & Hl2 & _)|(Hr & Hv2 & Hl2)].
  - cbn [negb Z.eqb]. apply swp_bind. eapply swp_mono; [by apply (w_addlink_wp w2 I2 q svq)|].
    intros [] w3 (Hw3 & Hv3 & Hk3 & Hr3 & Hsf3). apply swp_ret. exists (<[n := sv_i (relink svq 1)]> I2). split; [|done].
    split_and!; [done|rewrite <-(right_id_L ∅ (∪) {[_]}); by eapply keeps_trans|]. right; left. split_and!; [done|done|].
    exists n, (relink svq 1). split_and!; try (cbn; by rewrite Hnew); try done.
    + rewrite dom_insert_lookup_L; [done|]. unfold I2, I1. rewrite lookup_insert_ne, lookup_insert_eq by done. done.
    + split; [|done]. rewrite Hw3. apply lookup_insert_eq.
    + unfold refs. by rewrite lookup_fmap, Hq0.
    + by apply (took_eq w q w2).
    + intros nm m. unfold leads in *. rewrite <-(Hnm1 nm m), <-Hl2.
      eapply (same_files_names {[n]}); [exact Hv2|exact Hv3|done|set_solver].
  - rewrite (link_error r) by (destruct Hr as [[? _]|[[? _]|[?|?]]]; auto).
    apply swp_bind. eapply swp_mono; [exact (drop_wp w w2 _ q svq Hv2 Hq2 Ht2)|].
    intros [] w3 (Hr3 & Hv3 & Hk3 & Hnm3 & _). apply swp_ret.
    assert (dropped w q svq = true) as Edrop. { unfold dropped, refs. by rewrite lookup_fmap, Hq0, Hnew. }
    rewrite Edrop in *. exists (delete n I2). split; [|intros ->; by destruct Hr as [[? _]|[[? _]|[?|?]]]].
    split_and!; [done|eapply keeps_fresh; [by eapply keeps_trans|done]|]. right; right. split_and!; [done|..].
    + intros nm m. fold n in Hnm3. rewrite (Hnm3 nm m). unfold leads in Hl2. rewrite Hl2. apply Hnm1.
    + rewrite dom_delete_L, Hdom. by apply remove_added, not_elem_of_dom.
    + destruct Hr as [[_ [m Hm]]|Hr]; [by destruct (Hno m); apply Hnm1|]. right; right. by split.
Qed.

Lemma sfs_creat_wp w I p sv name excl :
  vol w I (λ _, 0) → room w → root_vnode w p sv → name_ok name →
  swp (sfs_creat p name excl) w (λ '(r, q) w', ∃ I', creat_post w I name excl r q w' I').
Proof.
  intros Hv Hroom Hroot Hname. unfold sfs_creat. apply swp_bind. eapply swp_mono; [by apply (root_find_wp w I (λ _, 0) p sv)|].
  intros [r f] w1 (Hv1 & Hsf1 & Hh1 & Hfind).
  assert (room w1) as Hroom1 by (unfold room; by rewrite Hh1). assert (root_vnode w1 p sv) as Hroot1 by (unfold root_vnode; by rewrite Hh1).
  assert (same_names w w1 I I) as Hnm1 by (eapply same_files_names; [exact Hv|exact Hv1|done|set_solver]).
  destruct Hfind as [(-> & i & n & Hs & Hi & Hl & Hnm)|(-> & Hno)]; cbn [negb Z.eqb andb].
  - destruct excl; cbn [negb Z.eqb andb].
    { apply swp_ret. exists I. split_and!; [done|by eapply keeps_weaken; [|by apply keeps_files]|]. right; right.
      split_and!; [by apply same_refs|done|done|]. left. split_and!; [done|done|by exists n]. }
    rewrite Hi. apply swp_bind, swp_lift. simpl wp. destruct (leads_linked _ _ _ _ Hv Hl) as (Hne & j & Hj & _).
    apply swp_bind. eapply swp_mono; [apply (sfs_loadvnode_wp w1 I (λ _, 0) n j Hv1 Hroom1 Hj)|].
    intros [r q] w2 (Hv2 & Hsf2 & Hpost). pose proof (same_files_trans _ _ _ _ _ _ _ _ Hsf1 Hsf2) as Hsf.
    rewrite (left_id_L ∅ (∪)) in Hsf. apply (load_post_eq w) in Hpost; [|done].
    assert (keeps {[SFS_ROOT_LOCATION]} w w2 I I) as Hk by (by eapply keeps_weaken; [|by apply keeps_files]).
    assert (same_names w w2 I I) as Hnm2 by (eapply same_files_names; [exact Hv|exact Hv2|done|set_solver]).
    destruct (decide (r = ENOMEM)) as [->|Hr]; cbn [negb Z.eqb].
    { apply swp_ret. exists I. split_and!; [done|done|]. right; right. destruct Hpost as [[_ Hh]|[? _]]; [|done].
      split_and!; [by apply same_refs|done|done|]. by right; left. }
    assert (r = 0) as -> by (destruct Hpost as [[? _]|[? _]]; done). apply swp_ret. exists I. split_and!; [done|done|].
    left. split_and!; try done. destruct (load_vnode _ _ _ _ _ _ _ Hv2 Hpost Hj) as (svq & Hq & Hn & _).
    exists n, svq. split_and!; [done|done|by eapply load_took].
  - apply swp_bind. eapply swp_mono; [by apply (sfs_makeobj_wp w1 I)|].
    intros [r q] w2 [(-> & n & svq & Hn & Hh & Hq & <- & Hnew & Hrc & Hoc & Hv2 & Hsf2)|(Hr & Hh & Hv2 & Hsf2)].
    + cbn [negb Z.eqb]. rewrite Hh1 in Hh, Hq. pose proof (same_files_trans _ _ _ _ _ _ _ _ Hsf1 Hsf2) as Hsf.
      rewrite (left_id_L ∅ (∪)) in Hsf. eapply swp_mono; [by apply (creat_new_wp w w2 I p sv name q svq)|].
      intros [r q'] w3 (I' & (Hv3 & Hk3 & Hcase) & _). exists I'. split_and!; [done|done|].
      destruct Hcase as [(_ & _ & _ & _ & n & _ & Hl & _)|[Hcase|(Hr3 & Hnm3 & Hd3 & Hcase)]]; [by destruct (Hno n)|by right; left|].
      right; right. split_and!; try done. destruct Hcase as [(_ & _ & m & Hm)|Hcase]; [by destruct (Hno m)|]. by right.
    + pose proof (same_files_trans _ _ _ _ _ _ _ _ Hsf1 Hsf2) as Hsf. rewrite (left_id_L ∅ (∪)) in Hsf.
      assert (negb (r =? 0) = true) as -> by (by destruct Hr as [->| ->]). apply swp_ret. exists I.
      split_and!; [done|by eapply keeps_weaken; [|by apply keeps_files]|]. right; right. split_and!; [|..|done|].
      * apply same_refs. congruence.
      * eapply same_files_names; [exact Hv|exact Hv2|done|set_solver].
      * destruct Hr as [->| ->]; auto 10.
Qed.

(** ** Through the vnode tables *)

Lemma sfs_VOP_wp {A} w I δ p sv (op : vnode_ops (world D) → stm (world D) A) (Q : A → world D → Prop) :
  vol w I δ → w_heap w !! p = Some sv → swp (op (sfs_table (ops_of (sv_i sv)))) w Q → swp (sfs_VOP p op) w Q.
Proof.
  intros Hv Hp HQ. destruct (v_heap _ _ _ Hv p sv Hp) as (_ & Hok & _).
  unfold sfs_VOP. by apply (VOP_wp w p sv).
Qed.

Lemma root_ops w I δ p sv : vol w I δ → root_vnode w p sv → ops_of (sv_i sv) = SfsDirOps.
Proof. intros Hv Hr. unfold ops_of. by rewrite (root_type _ _ _ _ _ Hv Hr). Qed.

Lemma root_VOP_wp {A} w I δ p sv (op : vnode_ops (world D) → stm (world D) A) (Q : A → world D → Prop) :
  vol w I δ → root_vnode w p sv → swp (op sfs_dirops) w Q → swp (sfs_VOP p op) w Q.
Proof.
  intros Hv Hr HQ. pose proof Hr as [Hp _]. eapply sfs_VOP_wp; [done|done|].
  by rewrite (root_ops _ _ _ _ _ Hv Hr).
Qed.

(** Writing to a file of the volume. *)
Lemma vol_write_wp w I q sv mem pos len off resid :
  vol w I (λ _, 0) → w_heap w !! q = Some sv → sv_ino sv ≠ SFS_ROOT_LOCATION →
  sfi_size (sv_i sv) ≤ INT_MAX → kuio_ok mem pos len off resid → Forall is_byte mem → 0 < resid →
  swp (sfs_VOP q (λ o, vop_write o q (kuio UIO_WRITE mem pos len off resid))) w (λ '(r, u') w', ∃ sv',
    write_post (mkF (w_fs w) sv) mem pos len off resid r u' (mkF (w_fs w') sv') ∧
    let I' := <[sv_ino sv := sv_i sv']> I in
    w_heap w' = <[q := sv']> (w_heap w) ∧ refs w' = refs w ∧ vol w' I' (λ _, 0) ∧
    keeps {[sv_ino sv]} w w' I I' ∧ same_names w w' I I').
Proof.
  intros Hv Hq Hne Hsz Hu Hby Hpos. destruct (v_heap _ _ _ Hv q sv Hq) as (_ & _ & HI).
  pose proof (v_types _ _ _ Hv _ _ HI Hne) as Hty. eapply sfs_VOP_wp; [done|done|].
  unfold ops_of. rewrite Hty. cbn [Z.eqb Pos.eqb sfs_table sfs_fileops vop_write SFS_TYPE_FILE].
  assert (file_ok (mkF (w_fs w) sv)) as Hok by exact (v_file _ _ _ Hv _ _ HI).
  eapply with_file_wp; [done|]. unfold sfs_write. apply swp_bind, swp_kassert; [done|].
  eapply swp_mono; [by apply sfs_io_write_wp|]. intros [r u'] [fs' sv'] Hw. exists sv'. split; [done|].
  destruct Hw as (n & _ & _ & Hok' & Hf & Hsame & _).
  destruct (vol_step w I (λ _, 0) q sv fs' sv' (λ _, 0)) as [Hvol Hsf]; try done.
  - apply (frame_step _ _ (mkF fs' sv')); try done. by apply (vol_clean w I (λ _, 0) q).
  - unfold links_step. rewrite decide_False by done. intros m.
    destruct Hsame as (_ & _ & _ & Hlc & _). unfold f_inode in Hlc. cbn in Hlc. case_decide; lia.
  - split_and!; [done| |done|by apply keeps_files|].
    + apply (refs_put w _ q sv sv' Hq); [|done]. by destruct Hsame as (_ & ? & _).
    + eapply same_files_names; [exact Hv|exact Hvol|done|set_solver].
Qed.
End api.

(** Looking up a file.  [VOP_LOOKUP] on the root directory of a
    consistent volume finds exactly the names of the directory: ENOENT means
    that there is no such name; success hands back the vnode of the file the
    name leads to, with one more reference.  Nothing else changes. *)
Theorem sfs_lookup_exact {D} `{!BlockDev D} `{!Disk D} {cs : CurSpace} (w : world D) I p sv name :
  vol w I (λ _, 0) → room w → root_vnode w p sv →
  swp (sfs_VOP p (λ o, vop_lookup o p name)) w (λ '(r, q) w', lookup_post w I name r q w').
Proof. intros Hv Hroom Hr. eapply root_VOP_wp; [done|done|]. by eapply sfs_lookup_wp. Qed.

(** [C5] Creating a file.  [VOP_CREAT] on the root directory keeps the volume
    consistent.  A name that is there is refused with EEXIST if the caller
    asked for that, and opened otherwise; a new name is added for a new file
    of size 0 with link count 1.  When it fails, no name, no file and no
    reference has changed: the inode made for the file has been erased again.
    All other files keep their bytes. *)
Theorem sfs_creat_exact {D} `{!BlockDev D} `{!Disk D} {cs : CurSpace} (w : world D) I p sv name excl :
  vol w I (λ _, 0) → room w → root_vnode w p sv → name_ok name →
  swp (sfs_VOP p (λ o, vop_creat o p name excl)) w
    (λ '(r, q) w', ∃ I', creat_post w I name excl r q w' I').
Proof. intros Hv Hroom Hr Hn. eapply root_VOP_wp; [done|done|]. by eapply sfs_creat_wp. Qed.

Lemma sfs_creat_exact_witness :
  let cs : CurSpace := None in
  swp (sfs_VOP 1 (λ o, vop_creat o 1 [98] true)) exv
    (λ '(r, q) w', ∃ I', creat_post exv exv_inodes [98] true r q w' I').
Proof.
  intros cs. apply (sfs_creat_exact exv exv_inodes 1 exv_dir_vnode); [apply exv_vol|apply exv_room|done|].
  constructor; [lia|constructor].
Defined.

(** [C6] Removing a file.  [VOP_REMOVE] takes exactly the one name away.  The
    file it led to goes with its last name unless it is in memory, and then
    all its blocks are free; otherwise it stays, with its bytes.  All other
    files keep their bytes, and the vnodes in memory are referred to as
    before. *)
Theorem sfs_remove_exact {D} `{!BlockDev D} `{!Disk D} {cs : CurSpace} (w : world D) I p sv name :
  vol w I (λ _, 0) → room w → root_vnode w p sv →
  swp (sfs_VOP p (λ o, vop_remove o p name)) w (λ r w', ∃ I', remove_post w I name r w' I').
Proof. intros Hv Hroom Hr. eapply root_VOP_wp; [done|done|]. by eapply sfs_remove_wp. Qed.

Lemma sfs_remove_exact_witness :
  let cs : CurSpace := None in
  swp (sfs_VOP 1 (λ o, vop_remove o 1 [97])) exv (λ r w', ∃ I', remove_post exv exv_inodes [97] r w' I').
Proof. intros cs. apply (sfs_remove_exact exv exv_inodes 1 exv_dir_vnode); [apply exv_vol|apply exv_room|done]. Defined.



(** Linking a file.  [VOP_LINK] in the root directory gives a file in
    memory one more name, unless the name is taken, too long, or there is no
    room for it; in each case all files keep their bytes and all other names
    lead where they led. *)
Theorem sfs_link_exact {D} `{!BlockDev D} `{!Disk D} {cs : CurSpace} (w : world D) I p sv name q svq :
  vol w I (λ _, 0) → root_vnode w p sv → name_ok name → w_heap w !! q = Some svq →
  sv_ino svq ≠ SFS_ROOT_LOCATION →
  swp (sfs_VOP p (λ o, vop_link o p name q)) w (λ r w', ∃ I', link_post w I name (sv_ino svq) r w' I').
Proof. intros Hv Hr Hn Hq Hne. eapply root_VOP_wp; [done|done|]. by eapply sfs_link_wp. Qed.

(** Files do not interfere.  A write to one file of a consistent volume,
    through [VOP_WRITE], does to that file what [write_post] says, and leaves
    the volume consistent, every other file with its bytes, and every name
    where it led. *)
Theorem sfs_write_isolated {D} `{!BlockDev D} `{!Disk D} {cs : CurSpace} (w : world D) I q sv
    mem pos len off resid :
  vol w I (λ _, 0) → w_heap w !! q = Some sv → sv_ino sv ≠ SFS_ROOT_LOCATION →
  sfi_size (sv_i sv) ≤ INT_MAX → kuio_ok mem pos len off resid → Forall is_byte mem → 0 < resid →
  swp (sfs_VOP q (λ o, vop_write o q (kuio UIO_WRITE mem pos len off resid))) w (λ '(r, u') w', ∃ sv',
    write_post (mkF (w_fs w) sv) mem pos len off resid r u' (mkF (w_fs w') sv') ∧
    let I' := <[sv_ino sv := sv_i sv']> I in
    w_heap w' = <[q := sv']> (w_heap w) ∧ refs w' = refs w ∧ vol w' I' (λ _, 0) ∧
    keeps {[sv_ino sv]} w w' I I' ∧ same_names w w' I I').
Proof. apply vol_write_wp. Qed.
