(* ===== verification/SfsSync.v ===== *)
(** * Syncing a volume and mounting it again

    What [sfs_sync] leaves on the disk is the whole volume: mounting the
    device again gives the same files with the same names and contents. *)

From S2P Require Import Prelude Array Bitmap Copyinout Uio SfsDisk Dev Vnode SfsIo SfsFile Lhd SfsRw.
From S2P Require Import SfsDir SfsNames SfsVnode SfsFs SfsTrunc SfsVol SfsOps SfsExample SfsApi.

Section sync.
Context {D : Type} `{!BlockDev D} `{!Disk D} {cs : CurSpace}.
Implicit Types (w : world D) (fs : sfs_fs D) (I : gmap Z sfs_inode) (δ : Z → Z).

(** ** The vnodes *)

Lemma sfs_sync_vnodes_wp w I :
  vol w I (λ _, 0) →
  swp sfs_sync_vnodes w (λ _ w', vol w' I (λ _, 0) ∧ same_files ∅ w w' I I ∧ refs w' = refs w ∧
    ∀ p sv, w_heap w' !! p = Some sv → sv_dirty sv = false).
Proof.
  intros Hv. destruct (v_table _ _ _ Hv) as (l & Hl & Hnd & Hin). unfold sfs_sync_vnodes.
  apply swp_bind, swp_gets, swp_bind. unfold array_getnum. rewrite (array_repr_num _ _ Hl), Nat2Z.id.
  set (clean j w' := ∀ (k : nat) p sv, Z.of_nat k < j → l !! k = Some p → w_heap w' !! p = Some sv → sv_dirty sv = false).
  set (P j (_ : unit) w' := vol w' I (λ _, 0) ∧ same_files ∅ w w' I I ∧ refs w' = refs w ∧ clean j w').
  eapply swp_mono; [apply (swp_for_stm P (λ _ _, False))|].
  - split_and!; [done|by apply same_files_refl|done|]. intros k p sv Hk. lia.
  - intros j [] w1 Hj (Hv1 & Hsf1 & Hr1 & Hc1). destruct (lookup_lt_is_Some_2 l (Z.to_nat j)) as [p Hp]; [lia|].
    apply swp_bind, swp_lift. replace j with (Z.of_nat (Z.to_nat j)) at 1 by lia.
    rewrite (array_getguy_eq _ _ _ _ Hl Hp). simpl wp.
    assert (∃ sv, w_heap w1 !! p = Some sv) as [sv Hsv].
    { assert (is_Some (refs w1 !! p)) as [v Hvp].
      { rewrite Hr1. unfold refs. rewrite lookup_fmap, fmap_is_Some. apply Hin. by eapply list_elem_of_lookup_2. }
      unfold refs in Hvp. rewrite lookup_fmap in Hvp. destruct (w_heap w1 !! p); [by eexists|done]. }
    destruct (v_heap _ _ _ Hv1 p sv Hsv) as (_ & Hok & _). apply swp_bind. apply (VOP_wp w1 p sv); [done|done|].
    eapply swp_mono.
    { unfold sfs_vop_fsync, sfs_fsync. destruct (ops_of (sv_i sv)); exact (vol_sync_wp w1 I (λ _, 0) p sv Hv1 Hsv). }
    intros r w2 (_ & fs' & -> & Hv2 & Hsf2 & _). apply swp_ret. split_and!; [done|..].
    + rewrite <-(left_id_L ∅ (∪) ∅). by eapply same_files_trans.
    + rewrite <-Hr1. by apply (refs_put w1 _ p sv (mkSv (sv_v sv) (sv_i sv) (sv_ino sv) false)).
    + intros k q sv' Hk Hq. cbn. destruct (decide (q = p)) as [->|Hne].
      * rewrite lookup_insert_eq. by intros [= <-].
      * rewrite lookup_insert_ne by done. apply (Hc1 k); [|done]. destruct (decide (Z.of_nat k = j)) as [<-|]; [|lia].
        rewrite Nat2Z.id in Hp. congruence.
  - intros [|] w1; [|done]. intros (Hv1 & Hsf1 & Hr1 & Hc1). apply swp_ret. split_and!; try done.
    intros p sv Hp. assert (p ∈ l) as [k Hk]%list_elem_of_lookup.
    { apply Hin. assert (is_Some (refs w !! p)) as H; [|unfold refs in H; by rewrite lookup_fmap, fmap_is_Some in H].
      rewrite <-Hr1. unfold refs. by rewrite lookup_fmap, Hp. }
    apply lookup_lt_Some in Hk as Hlt. apply (Hc1 k p); [lia|done|done].
Qed.

(** ** The free map and the superblock *)

Lemma sfs_sync_wp w I :
  vol w I (λ _, 0) →
  swp sfs_sync w (λ r w', r = 0 ∧ vol w' I (λ _, 0) ∧ same_files ∅ w w' I I ∧ refs w' = refs w ∧
    sfs_superdirty (w_fs w') = false ∧ sfs_freemapdirty (w_fs w') = false ∧
    ∀ n i, I !! n = Some i → sect (dsk (w_fs w')) n = encode_inode i).
Proof.
  intros Hv. unfold sfs_sync. apply swp_bind. eapply swp_mono; [by apply (sfs_sync_vnodes_wp w I)|].
  intros [] w1 (Hv1 & Hsf1 & Hr1 & Hcl). pose proof (v_fs _ _ _ Hv1) as (Hd1 & Hbm1 & Hnb1 & Hnb2 & H0 & Htop).
  apply w_on_fs_wp. eapply swp_mono; [apply sfs_sync_map_wp; [by apply (v_mounted _ _ _ Hv1)|lia]|].
  intros r fs' (-> & Hm & Hsame & Hsd & Hfd & Hsec). pose proof Hsame as (Hs & Hvn & Hfm & Hd & Hn).
  assert (fs_ok fs') as Hfs'.
  { unfold fs_ok, used, nblk in *. rewrite Hs, Hfm, Hn. done. }
  set (X b := b = 0 ∨ SFS_MAP_LOCATION ≤ b < SFS_MAP_LOCATION + SFS_FS_BITBLOCKS (w_fs w1)).
  destruct (vol_unowned w1 I (λ _, 0) fs' (w_mem w1) X) as [Hv2 Hsf2]; try done.
  - split; [unfold nblk; by rewrite Hs|]. intros b Hb Hu Hno. unfold used. rewrite Hfm. split; [done|].
    unfold X, SFS_MAP_LOCATION in Hno. apply Hsec; lia.
  - intros b n i [->|Hb] Hb0 Hi; [done|]. by apply (v_sys _ _ _ Hv1 b Hb).
  - intros b Hb. unfold used. rewrite Hfm. by apply (v_sys _ _ _ Hv1 b Hb).
  - split_and!; try done.
    + rewrite <-(left_id_L ∅ (∪) ∅). by eapply same_files_trans.
    + intros n i Hi. destruct (v_disk _ _ _ Hv2 n i Hi) as [?|(p & sv & [Hp _] & Hdirty)]; [done|].
      rewrite (Hcl p sv) in Hdirty; [done|exact Hp].
Qed.

(** ** Mounting again *)

(** The files that still have a name. *)
Definition named (I : gmap Z sfs_inode) : gmap Z sfs_inode :=
  filter (λ ni, sfi_linkcount ni.2 ≠ 0) I.

Lemma named_Some I n i : named I !! n = Some i ↔ I !! n = Some i ∧ sfi_linkcount i ≠ 0.
Proof. apply map_lookup_filter_Some. Qed.

Lemma vol_remount w I fs2 :
  vol w I (λ _, 0) → (∀ n i, I !! n = Some i → sect (dsk (w_fs w)) n = encode_inode i) →
  mounted fs2 → array_repr (sfs_vnodes fs2) [] → dsk fs2 = dsk (w_fs w) →
  sfs_super_of fs2 = sfs_super_of (w_fs w) → sfs_freemap fs2 = sfs_freemap (w_fs w) →
  vol (mkW fs2 ∅ 0 []) (named I) (λ _, 0) ∧
  (∀ n i, same_content (w_fs w) fs2 n i) ∧
  ∀ nm n, dir_maps (rootdir fs2 (named I)) nm n ↔ leads w I nm n.
Proof.
  intros Hv Hdisk Hm Hvn Hd Hs Hf. pose proof (v_fs _ _ _ Hv) as Hfs.
  assert (fs_ok fs2) as Hfs2.
  { destruct Hm as (Hdok & _ & _ & _ & Hnb & _), Hfs as (_ & Hbm & Hpos & Hle & H0 & Htop).
    unfold fs_ok, used, nblk in *. rewrite Hs, Hf in *. split_and!; done || lia. }
  assert (∀ n i, allblocks (at_inode fs2 n i) = allblocks (at_inode (w_fs w) n i)) as Hall.
  { intros n i. unfold allblocks, fblocks, f_dsk. cbn. by rewrite Hd. }
  assert (∀ n i, same_content (w_fs w) fs2 n i) as Hc.
  { intros n i. split; [apply Hall|]. intros p _. unfold content, fblock, fblocks, f_dsk. cbn. by rewrite Hd. }
  assert (∀ n i, file_ok (at_inode (w_fs w) n i) → file_ok (at_inode fs2 n i)) as Hok.
  { intros n i (_ & Hwf & Hino & Hb). split_and!; [done..|]. unfold blocks_ok in *. rewrite Hall. cbn in *.
    unfold nblk, used in *. by rewrite Hs, Hf. }
  pose proof (v_root _ _ _ Hv) as (HR1 & HR2 & HR3). apply lookup_lookup_total in HR1 as HRI.
  assert (named I !! SFS_ROOT_LOCATION = Some (I !!! SFS_ROOT_LOCATION)) as HRn by (by apply named_Some).
  assert (rootdir fs2 (named I) = at_inode fs2 SFS_ROOT_LOCATION (I !!! SFS_ROOT_LOCATION)) as Hroot.
  { unfold rootdir. by rewrite (lookup_total_correct _ _ _ HRn). }
  destruct (at_dir (w_fs w) fs2 SFS_ROOT_LOCATION (I !!! SFS_ROOT_LOCATION) HR2 (Hok _ _ (v_file _ _ _ Hv _ _ HRI)) (Hc _ _)) as [Hdir Hmaps].
  rewrite <-Hroot in Hdir, Hmaps. split_and!; [|done|exact Hmaps].
  assert (SFS_FS_BITBLOCKS fs2 = SFS_FS_BITBLOCKS (w_fs w)) as Hbb by (unfold SFS_FS_BITBLOCKS; by rewrite Hs).
  constructor; cbn [w_fs w_heap w_next]; try done.
  - exists []. split_and!; [done|constructor|]. intros p. rewrite lookup_empty, elem_of_nil. split; [done|]. by intros [? ?].
  - intros n i [Hi _]%named_Some. left. rewrite Hd. by apply Hdisk.
  - intros n i [Hi _]%named_Some. by apply Hok, Hv.
  - intros n m i j b Hne [Hi _]%named_Some [Hj _]%named_Some. rewrite !Hall. by apply (v_disj _ _ _ Hv).
  - rewrite Hbb. unfold nblk. rewrite Hs. apply (v_fits _ _ _ Hv).
  - intros b Hb. rewrite Hbb in Hb. destruct (v_sys _ _ _ Hv b Hb) as [Hu Hno]. split; [unfold used; by rewrite Hf|].
    intros n i [Hi _]%named_Some. rewrite Hall. by apply Hno.
  - split_and!; [by rewrite HRn|done|]. by rewrite (lookup_total_correct _ _ _ HRn).
  - intros n i [Hi _]%named_Some. by apply (v_types _ _ _ Hv).
  - intros name n Hn%Hmaps. destruct (leads_linked _ _ _ _ Hv Hn) as (? & i & Hi & Hlc). split; [done|]. exists i.
    apply named_Some. split; [done|lia].
  - intros n i [Hi _]%named_Some Hne. destruct (v_links _ _ _ Hv n i Hi Hne) as (l & ? & Hin & ?). exists l. split_and!; try done.
    intros name. rewrite Hmaps. apply Hin.
  - intros n i [_ Hlc]%named_Some. done.
Qed.

(** The volume [w2] has the named files of [w], with their contents. *)
Definition survives w I w2 : Prop :=
  vol w2 (named I) (λ _, 0) ∧ keeps ∅ w w2 (named I) (named I) ∧
  ∀ nm n, leads w2 (named I) nm n ↔ leads w I nm n.

(** What is mounted from the disk of a synced volume. *)
Lemma sync_survives w w' I fs2 mem :
  vol w I (λ _, 0) → vol w' I (λ _, 0) → same_files ∅ w w' I I →
  sfs_superdirty (w_fs w') = false → sfs_freemapdirty (w_fs w') = false →
  (∀ n i, I !! n = Some i → sect (dsk (w_fs w')) n = encode_inode i) →
  mount_post (sfs_device (w_fs w')) fs2 → survives w I (mkW fs2 ∅ 0 mem).
Proof.
  intros Hv Hv' Hsf Hsd Hfd Hdisk Hp.
  destruct (mount_post_same _ _ (v_mounted _ _ _ Hv') Hsd Hfd Hp) as (Hm2 & Hd2 & Hs2 & Hf2).
  destruct (vol_remount w' I fs2 Hv' Hdisk Hm2 (proj1 (proj2 Hp)) Hd2 Hs2 Hf2) as (Hvol & Hc & Hl). split_and!.
  - by apply (vol_next _ _ _ 0 mem) in Hvol.
  - intros n i _ Hi. pose proof (proj1 (named_Some _ _ _) Hi) as [Hi' _]. destruct (Hsf n i (not_elem_of_empty _) Hi') as [_ [_ Hc1]].
    exists i. split_and!; try done. intros p Hpos. destruct (Hc n i) as [_ Hc2]. cbn. by rewrite Hc2, Hc1.
  - intros nm n. unfold leads at 1. cbn. rewrite Hl. eapply (same_files_names ∅); [exact Hv|exact Hv'|done|set_solver].
Qed.

(** A device that holds all of a volume can be mounted. *)
Lemma synced_fits w I :
  vol w I (λ _, 0) → sfs_superdirty (w_fs w) = false →
  d_ok (sfs_device (w_fs w)) ∧ 0 < d_blocks (sfs_device (w_fs w)) ∧ fits_device (sfs_device (w_fs w)) ∧
  sp_magic (disk_super (sfs_device (w_fs w))) = SFS_MAGIC.
Proof.
  intros Hv Hsd. pose proof (v_mounted _ _ _ Hv) as Hm. pose proof (v_fs _ _ _ Hv) as (Hd & _ & Hnb & _).
  destruct (synced_super _ Hm Hsd) as [Hds _]. pose proof Hm as (_ & _ & Hmg & _ & Hle & Hmap & _).
  unfold fits_device. rewrite Hds. split_and!; [done|lia|done|done|done].
Qed.
End sync.

(** [C7] A synced volume survives.  [sfs_sync] on a consistent volume
    succeeds, keeps every file, and leaves the disk such that mounting the
    device again, with no vnode in memory, gives a consistent volume again:
    every file that has a name is there with the same inode and the same
    bytes, and the names of the root directory lead to the same files. *)
Theorem sfs_sync_durable {D} `{!BlockDev D} `{!Disk D} {cs : CurSpace} (w : world D) I garbage :
  vol w I (λ _, 0) →
  swp sfs_sync w (λ r w', r = 0 ∧ vol w' I (λ _, 0) ∧ keeps ∅ w w' I I ∧ refs w' = refs w ∧
    wp (sfs_domount true true true true garbage (sfs_device (w_fs w'))) (λ '(r, ofs, _),
      r = 0 ∧ ∃ fs2, ofs = Some fs2 ∧ let w2 := mkW fs2 ∅ 0 [] in
        vol w2 (named I) (λ _, 0) ∧ keeps ∅ w w2 (named I) (named I) ∧
        ∀ nm n, leads w2 (named I) nm n ↔ leads w I nm n)).
Proof.
  intros Hv. eapply swp_mono; [by apply sfs_sync_wp|].
  intros r w' (-> & Hv' & Hsf & Hr & Hsd & Hfd & Hdisk). split_and!; [done|done|by apply keeps_files|done|].
  destruct (synced_fits _ _ Hv' Hsd) as (Hd & H0 & Hfit & Hmg).
  eapply wp_mono; [by apply sfs_domount_wp|]. intros [[r ofs] d'] [_ H]. rewrite decide_True in H by done. simpl in H.
  destruct H as (-> & fs2 & -> & _ & Hpost). split; [done|]. exists fs2. split; [done|]. by apply (sync_survives w w').
Qed.

Lemma sfs_sync_durable_witness :
  let cs : CurSpace := None in
  swp sfs_sync exv (λ r w', r = 0 ∧ vol w' exv_inodes (λ _, 0) ∧ keeps ∅ exv w' exv_inodes exv_inodes ∧
    refs w' = refs exv ∧
    wp (sfs_domount true true true true ex_super (sfs_device (w_fs w'))) (λ '(r, ofs, _),
      r = 0 ∧ ∃ fs2, ofs = Some fs2 ∧ let w2 := mkW fs2 ∅ 0 [] in
        vol w2 (named exv_inodes) (λ _, 0) ∧ keeps ∅ exv w2 (named exv_inodes) (named exv_inodes) ∧
        ∀ nm n, leads w2 (named exv_inodes) nm n ↔ leads exv exv_inodes nm n)).
Proof. intros cs. apply sfs_sync_durable. apply exv_vol. Defined.
