(* ===== verification/Thread.v ===== *)
(** * The thread system and the scheduler

    The state of the thread system (thread/thread.c, thread/scheduler.c), the
    processor state it works on (arch/mips/mips/spl.c, pcb.c, interrupt.c),
    the synchronisation objects of thread/synch.c as data, and the functions
    of these files up to the point where a thread gives up the processor.

    A thread that gives up the processor continues later where it left off;
    what it still has to do is a stack of [frame]s (file Synch). *)

From S2P Require Import Prelude Array Queue.

(** ** Data *)

Definition SPL_HIGH : Z := 15.
Definition STACK_SIZE : Z := 4096.
Definition TOTAL_PROCESSES : Z := 128.

Inductive threadstate_t := S_RUN | S_READY | S_SLEEP | S_ZOMB.

#[export] Instance threadstate_eq_dec : EqDecision threadstate_t.
Proof. solve_decision. Defined.

(** Pointers are numbers, 0 is NULL.  [t_magic] is the first bytes of the
    stack; [threadPID] is uninitialised until [thread_create] has found a slot. *)
Record thread := mkThread {
  t_sleepaddr : Z;
  t_stack : Z;
  t_magic : list Z;
  pcb_kstack : Z;
  pcb_ininterrupt : Z;
  threadPID : option Z;
  threadparentPID : option Z;
  t_vmspace : Z;
  t_cwd : Z;
  iteration : Z;
}.

Record process := mkProcess {
  PID : Z;
  processthread : Z;
  occupied : Z;
  exited : Z;
  exitcode : Z;
  waiting : Z;
  parentPID : Z;
  exitpermission : Z;
  exitcv : Z;
}.

Record semaphore := mkSem { sem_count : Z; isOccupiedByMice : Z; isOccupiedByCat : Z }.
Record lock := mkLock { lock_owner : Z }.

(** A device that interrupts: the timer, or a driver whose handler does
    nothing to the thread system but [V] a semaphore. *)
Inductive irq := IrqTimer | IrqV (sem : Z).

(** The processor: the globals [curthread], [curspl], [in_interrupt] and
    [curkstack], and the interrupt enable bit of the status register. *)
Record cpu := mkCpu {
  curthread : Z;
  curspl : Z;
  in_interrupt : Z;
  curkstack : Z;
  c_ie : bool;
}.

Record lists := mkLists {
  sleepers : option (array Z);
  zombies : option (array Z);
  runqueue : option (queue Z);
  numthreads : Z;
}.

Record menu := mkMenu { menuth : Z; menusleep : Z; menucv : Z }.

(** The kernel; [k_next] is the next address the allocator hands out,
    [k_mem] its answers, [k_irqs] the interrupts an idle processor will see,
    and [k_env] the state of the rest of the kernel. *)
Record kstate (E : Type) := mkK {
  k_cpu : cpu;
  k_lists : lists;
  k_threads : gmap Z thread;
  k_table : list process;
  noprocesses : Z;
  k_sems : gmap Z semaphore;
  k_locks : gmap Z lock;
  k_cvs : gset Z;
  k_menu : menu;
  lbolt_counter : Z;
  k_next : Z;
  k_mem : list bool;
  k_irqs : list irq;
  k_env : E;
}.
Arguments mkK {E} _ _ _ _ _ _ _ _ _ _ _ _ _ _.
Arguments k_cpu {E} _.
Arguments k_lists {E} _.
Arguments k_threads {E} _.
Arguments k_table {E} _.
Arguments noprocesses {E} _.
Arguments k_sems {E} _.
Arguments k_locks {E} _.
Arguments k_cvs {E} _.
Arguments k_menu {E} _.
Arguments lbolt_counter {E} _.
Arguments k_next {E} _.
Arguments k_mem {E} _.
Arguments k_irqs {E} _.
Arguments k_env {E} _.

(** What the thread system needs from address spaces and vnodes, and the
    configured clock rate. *)
Class KEnv (E : Type) := {
  as_activate : Z → E → outcome E;
  as_destroy : Z → E → outcome E;
  vop_incref : Z → E → outcome E;
  vop_decref : Z → E → outcome E;
  HZ : Z;
}.

Section thread.
Context {E : Type} `{!KEnv E}.
Abbreviation kst := (kstate E).

(** ** Access to the state *)

Definition set_cpu (c : cpu) (k : kst) : kst :=
  mkK c (k_lists k) (k_threads k) (k_table k) (noprocesses k) (k_sems k) (k_locks k) (k_cvs k)
    (k_menu k) (lbolt_counter k) (k_next k) (k_mem k) (k_irqs k) (k_env k).
Definition set_lists (l : lists) (k : kst) : kst :=
  mkK (k_cpu k) l (k_threads k) (k_table k) (noprocesses k) (k_sems k) (k_locks k) (k_cvs k)
    (k_menu k) (lbolt_counter k) (k_next k) (k_mem k) (k_irqs k) (k_env k).
Definition set_threads (t : gmap Z thread) (k : kst) : kst :=
  mkK (k_cpu k) (k_lists k) t (k_table k) (noprocesses k) (k_sems k) (k_locks k) (k_cvs k)
    (k_menu k) (lbolt_counter k) (k_next k) (k_mem k) (k_irqs k) (k_env k).
Definition set_procs (t : list process) (n : Z) (k : kst) : kst :=
  mkK (k_cpu k) (k_lists k) (k_threads k) t n (k_sems k) (k_locks k) (k_cvs k)
    (k_menu k) (lbolt_counter k) (k_next k) (k_mem k) (k_irqs k) (k_env k).
Definition set_sems (m : gmap Z semaphore) (k : kst) : kst :=
  mkK (k_cpu k) (k_lists k) (k_threads k) (k_table k) (noprocesses k) m (k_locks k) (k_cvs k)
    (k_menu k) (lbolt_counter k) (k_next k) (k_mem k) (k_irqs k) (k_env k).
Definition set_locks (m : gmap Z lock) (k : kst) : kst :=
  mkK (k_cpu k) (k_lists k) (k_threads k) (k_table k) (noprocesses k) (k_sems k) m (k_cvs k)
    (k_menu k) (lbolt_counter k) (k_next k) (k_mem k) (k_irqs k) (k_env k).
Definition set_cvs (s : gset Z) (k : kst) : kst :=
  mkK (k_cpu k) (k_lists k) (k_threads k) (k_table k) (noprocesses k) (k_sems k) (k_locks k) s
    (k_menu k) (lbolt_counter k) (k_next k) (k_mem k) (k_irqs k) (k_env k).
Definition set_menu (m : menu) (k : kst) : kst :=
  mkK (k_cpu k) (k_lists k) (k_threads k) (k_table k) (noprocesses k) (k_sems k) (k_locks k) (k_cvs k)
    m (lbolt_counter k) (k_next k) (k_mem k) (k_irqs k) (k_env k).
Definition set_lbolt (n : Z) (k : kst) : kst :=
  mkK (k_cpu k) (k_lists k) (k_threads k) (k_table k) (noprocesses k) (k_sems k) (k_locks k) (k_cvs k)
    (k_menu k) n (k_next k) (k_mem k) (k_irqs k) (k_env k).
Definition set_alloc (n : Z) (m : list bool) (k : kst) : kst :=
  mkK (k_cpu k) (k_lists k) (k_threads k) (k_table k) (noprocesses k) (k_sems k) (k_locks k) (k_cvs k)
    (k_menu k) (lbolt_counter k) n m (k_irqs k) (k_env k).
Definition set_irqs (l : list irq) (k : kst) : kst :=
  mkK (k_cpu k) (k_lists k) (k_threads k) (k_table k) (noprocesses k) (k_sems k) (k_locks k) (k_cvs k)
    (k_menu k) (lbolt_counter k) (k_next k) (k_mem k) l (k_env k).
Definition set_env (e : E) (k : kst) : kst :=
  mkK (k_cpu k) (k_lists k) (k_threads k) (k_table k) (noprocesses k) (k_sems k) (k_locks k) (k_cvs k)
    (k_menu k) (lbolt_counter k) (k_next k) (k_mem k) (k_irqs k) e.

Definition cur (k : kst) : Z := curthread (k_cpu k).
Definition spl (k : kst) : Z := curspl (k_cpu k).

Definition set_cur (p : Z) (k : kst) : kst :=
  let c := k_cpu k in set_cpu (mkCpu p (curspl c) (in_interrupt c) (curkstack c) (c_ie c)) k.
Definition set_spl (s : Z) (k : kst) : kst :=
  let c := k_cpu k in set_cpu (mkCpu (curthread c) s (in_interrupt c) (curkstack c) (c_ie c)) k.
Definition set_ie (b : bool) (k : kst) : kst :=
  let c := k_cpu k in set_cpu (mkCpu (curthread c) (curspl c) (in_interrupt c) (curkstack c) b) k.
Definition set_inint (i : Z) (k : kst) : kst :=
  let c := k_cpu k in set_cpu (mkCpu (curthread c) (curspl c) i (curkstack c) (c_ie c)) k.
Definition set_kstack (s : Z) (k : kst) : kst :=
  let c := k_cpu k in set_cpu (mkCpu (curthread c) (curspl c) (in_interrupt c) s (c_ie c)) k.

Definition set_sleepers (a : option (array Z)) (k : kst) : kst :=
  let l := k_lists k in set_lists (mkLists a (zombies l) (runqueue l) (numthreads l)) k.
Definition set_zombies (a : option (array Z)) (k : kst) : kst :=
  let l := k_lists k in set_lists (mkLists (sleepers l) a (runqueue l) (numthreads l)) k.
Definition set_runqueue (q : option (queue Z)) (k : kst) : kst :=
  let l := k_lists k in set_lists (mkLists (sleepers l) (zombies l) q (numthreads l)) k.
Definition set_numthreads (n : Z) (k : kst) : kst :=
  let l := k_lists k in set_lists (mkLists (sleepers l) (zombies l) (runqueue l) n) k.

Definition get_k : stm kst kst := gets id.

(** Following a pointer. *)
Definition deref {A} (o : option A) : stm kst A :=
  lift (match o with Some a => Done a | None => Undef end).

Definition get_sleepers : stm kst (array Z) := k ← get_k; deref (sleepers (k_lists k)).
Definition get_zombies : stm kst (array Z) := k ← get_k; deref (zombies (k_lists k)).
Definition get_runqueue : stm kst (queue Z) := k ← get_k; deref (runqueue (k_lists k)).
Definition get_thread (p : Z) : stm kst thread := k ← get_k; deref (k_threads k !! p).
Definition put_thread (p : Z) (t : thread) : stm kst unit :=
  modify (λ k, set_threads (<[p := t]> (k_threads k)) k).
Definition get_curthread : stm kst thread := p ← gets cur; get_thread p.

Definition set_sleepaddr (a : Z) (t : thread) : thread :=
  mkThread a (t_stack t) (t_magic t) (pcb_kstack t) (pcb_ininterrupt t) (threadPID t)
    (threadparentPID t) (t_vmspace t) (t_cwd t) (iteration t).
Definition set_pcb (kstack inint : Z) (t : thread) : thread :=
  mkThread (t_sleepaddr t) (t_stack t) (t_magic t) kstack inint (threadPID t)
    (threadparentPID t) (t_vmspace t) (t_cwd t) (iteration t).
Definition set_stack (p : Z) (magic : list Z) (t : thread) : thread :=
  mkThread (t_sleepaddr t) p magic (pcb_kstack t) (pcb_ininterrupt t) (threadPID t)
    (threadparentPID t) (t_vmspace t) (t_cwd t) (iteration t).
Definition set_tpid (i : Z) (t : thread) : thread :=
  mkThread (t_sleepaddr t) (t_stack t) (t_magic t) (pcb_kstack t) (pcb_ininterrupt t) (Some i)
    (threadparentPID t) (t_vmspace t) (t_cwd t) (iteration t).
Definition set_vmspace (v : Z) (t : thread) : thread :=
  mkThread (t_sleepaddr t) (t_stack t) (t_magic t) (pcb_kstack t) (pcb_ininterrupt t) (threadPID t)
    (threadparentPID t) v (t_cwd t) (iteration t).
Definition set_cwd (v : Z) (t : thread) : thread :=
  mkThread (t_sleepaddr t) (t_stack t) (t_magic t) (pcb_kstack t) (pcb_ininterrupt t) (threadPID t)
    (threadparentPID t) (t_vmspace t) v (iteration t).
Definition set_iteration (n : Z) (t : thread) : thread :=
  mkThread (t_sleepaddr t) (t_stack t) (t_magic t) (pcb_kstack t) (pcb_ininterrupt t) (threadPID t)
    (threadparentPID t) (t_vmspace t) (t_cwd t) n.

(** A call into the rest of the kernel. *)
Definition on_env (f : E → outcome E) : stm kst unit :=
  k ← get_k; e ← lift (f (k_env k)); modify (set_env e).

(** The allocator's answer, and the address of a new object or NULL. *)
Definition k_answer : stm kst bool := λ k,
  match k_mem k with
  | [] => Done (false, k)
  | b :: m => Done (b, set_alloc (k_next k) m k)
  end.
Definition k_malloc : stm kst Z :=
  ok ← k_answer;
  if (ok : bool) then k ← get_k; modify (set_alloc (k_next k + 1) (k_mem k));; mret (k_next k)
  else mret 0.

(** ** The interrupt level *)

Definition splx (newspl : Z) : stm kst Z :=
  (if newspl >? 0 then modify (set_ie false)
   else if newspl =? 0 then modify (set_ie true) else mret tt);;
  oldspl ← gets spl;
  modify (set_spl newspl);;
  mret oldspl.
Definition splhigh : stm kst Z := splx SPL_HIGH.
Definition spl0 : stm kst Z := splx 0.

(** [assert(curspl>0)] *)
Definition assert_spl : stm kst unit := k ← get_k; lift (kassert (spl k >? 0)).

(** ** The run queue *)

Definition scheduler_bootstrap : stm kst unit :=
  m1 ← k_answer; m2 ← k_answer;
  match q_create m1 m2 32 with
  | None => lift Panic
  | Some q => modify (set_runqueue (Some q))
  end.

Definition scheduler_preallocate (nthreads : Z) : stm kst Z :=
  assert_spl;;
  q ← get_runqueue;
  ok ← k_answer;
  '(result, q') ← lift (q_preallocate ok q nthreads);
  modify (set_runqueue (Some q'));;
  mret result.

(** [while (!q_empty(runqueue)) q_remhead(runqueue);] *)
Fixpoint drop_all (fuel : nat) (q : queue Z) : outcome (queue Z) :=
  if q_empty q then Done q else
  match fuel with
  | O => NoFuel
  | S f => '(_, q') ← q_remhead q; drop_all f q'
  end.

Definition scheduler_killall : stm kst unit :=
  assert_spl;;
  q ← get_runqueue;
  q' ← lift (drop_all (Z.to_nat (q_size q)) q);
  modify (set_runqueue (Some q')).

Definition scheduler_shutdown : stm kst unit :=
  scheduler_killall;;
  assert_spl;;
  q ← get_runqueue;
  lift (q_destroy q);;
  modify (set_runqueue None).

Definition make_runnable (t : Z) : stm kst Z :=
  assert_spl;;
  q ← get_runqueue;
  ok ← k_answer;
  '(result, q') ← lift (q_addtail ok q t);
  modify (set_runqueue (Some q'));;
  mret result.

(** The slots [print_run_queue] visits. *)
Definition print_run_queue : stm kst (list Z) :=
  s ← splhigh;
  q ← get_runqueue;
  l ← lift (while_loop (S (Z.to_nat (q_size q)))
    (λ '(i, acc),
       if i =? q_getend q then Done (inr acc) else
       t ← q_getguy q i;
       i' ← q_next i (q_getsize q);
       Done (inl (i', acc ++ [t]))) (q_getstart q, []));
  splx s;;
  mret l.

(** ** Waking threads up *)

(** One round of [thread_wakeup]: the sleeper at index [i] goes to the run
    queue if it sleeps on [addr]; the index does not move then. *)
Definition wake_at (addr i : Z) : stm kst bool :=
  a ← get_sleepers;
  p ← lift (array_getguy a i);
  t ← get_thread p;
  if t_sleepaddr t =? addr then
    a' ← lift (array_remove a i);
    modify (set_sleepers (Some a'));;
    result ← make_runnable p;
    lift (kassert (result =? 0));;
    mret true
  else mret false.

(** The loops run over the array while it shrinks; each round either removes
    an element or moves on, so the number of elements bounds the rounds. *)
Fixpoint wakeup_from (fuel : nat) (one : bool) (addr i : Z) : stm kst unit :=
  a ← get_sleepers;
  if i <? array_getnum a then
    match fuel with
    | O => lift NoFuel
    | S f =>
        woken ← wake_at addr i;
        if woken && one then mret tt
        else wakeup_from f one addr (if (woken : bool) then i else i + 1)
    end
  else mret tt.

Definition thread_wakeup (addr : Z) : stm kst unit :=
  assert_spl;;
  a ← get_sleepers;
  wakeup_from (Z.to_nat (array_getnum a)) false addr 0.

Definition thread_onewakeup (addr : Z) : stm kst unit :=
  assert_spl;;
  a ← get_sleepers;
  wakeup_from (Z.to_nat (array_getnum a)) true addr 0.

Definition thread_hassleepers (addr : Z) : stm kst Z :=
  assert_spl;;
  a ← get_sleepers;
  r ← for_stm (Z.to_nat (array_getnum a)) 0
    (λ i _,
       p ← lift (array_getguy a i);
       t ← get_thread p;
       mret (if t_sleepaddr t =? addr then inr 1 else inl tt)) tt;
  mret (match r with inl _ => 0 | inr x => x end).

Definition V (sem : Z) : stm kst unit :=
  lift (kassert (negb (sem =? 0)));;
  s ← splhigh;
  k ← get_k;
  sm ← deref (k_sems k !! sem);
  n ← lift (to_int (sem_count sm + 1));
  modify (set_sems (<[sem := mkSem n (isOccupiedByMice sm) (isOccupiedByCat sm)]> (k_sems k)));;
  lift (kassert (n >? 0));;
  thread_wakeup sem;;
  splx s;;
  mret tt.

(** ** Switching *)

Definition stack_magic : list Z := [0xae; 0x11; 0xda; 0x33].

(** The magic number at the bottom of the stack. *)
Definition check_magic (t : thread) : outcome unit :=
  if t_stack t =? 0 then Done tt else kassert (bool_decide (t_magic t = stack_magic)).

(** [md_switch]: the globals that belong to a thread change hands.  A thread
    that has been switched to goes on with its own frames. *)
Definition md_switch (old nu : Z) : stm kst unit :=
  if old =? nu then mret tt else
  to ← get_thread old;
  k ← get_k;
  put_thread old (set_pcb (curkstack (k_cpu k)) (in_interrupt (k_cpu k)) to);;
  tn ← get_thread nu;
  modify (set_kstack (pcb_kstack tn));;
  modify (set_inint (pcb_ininterrupt tn)).

(** The thread goes on the list of its next state. *)
Definition stash (nextstate : threadstate_t) (c : Z) : stm kst Z :=
  match nextstate with
  | S_READY => make_runnable c
  | S_SLEEP =>
      a ← get_sleepers; ok ← k_answer;
      '(result, a') ← lift (array_add ok a c);
      modify (set_sleepers (Some a'));; mret result
  | S_ZOMB =>
      a ← get_zombies; ok ← k_answer;
      '(result, a') ← lift (array_add ok a c);
      modify (set_zombies (Some a'));; mret result
  | S_RUN => lift Panic
  end.

(** The part of [mi_switch] before the thread loses the processor, given the
    [scheduler] it calls; the answer is whether it does lose it. *)
Definition mi_switch_with (scheduler : stm kst Z) (nextstate : threadstate_t) : stm kst bool :=
  assert_spl;;
  c ← gets cur;
  (if c =? 0 then mret tt else t ← get_thread c; lift (check_magic t));;
  if c =? 0 then mret false else
  modify (set_cur 0);;
  result ← stash nextstate c;
  lift (kassert (result =? 0));;
  next ← scheduler;
  modify (set_cur next);;
  md_switch c next;;
  mret true.

(** [thread_yield] up to the switch: the level to go back to, and whether the
    thread has lost the processor; if not, the level is back already. *)
Definition thread_yield_with (scheduler : stm kst Z) : stm kst (Z * bool) :=
  s ← splhigh;
  k ← get_k;
  lift (kassert (bool_decide (is_Some (sleepers (k_lists k)))));;
  sw ← mi_switch_with scheduler S_READY;
  if (sw : bool) then mret (s, true) else splx s;; mret (s, false).

(** The address of [lbolt]; objects of the allocator have positive addresses. *)
Definition lbolt : Z := -1.

Definition hardclock_with (scheduler : stm kst Z) : stm kst (Z * bool) :=
  k ← get_k;
  n ← lift (to_int (lbolt_counter k + 1));
  (if n >=? HZ then modify (set_lbolt 0);; thread_wakeup lbolt else modify (set_lbolt n));;
  thread_yield_with scheduler.

(** ** The idle loop *)

(** The interrupt an idle processor takes.  [curthread] is NULL there, so the
    [thread_yield] of the clock interrupt does not reach the scheduler. *)
Definition idle_interrupt (i : irq) : stm kst unit :=
  k ← get_k;
  modify (set_ie false);;
  modify (set_spl SPL_HIGH);;
  modify (set_inint 1);;
  assert_spl;;
  match i with
  | IrqTimer => hardclock_with (lift NoFuel);; mret tt
  | IrqV sem => V sem
  end;;
  modify (set_inint (in_interrupt (k_cpu k)));;
  splhigh;;
  modify (set_spl (spl k)).

(** Sleep until an interrupt wants to occur, and take it. *)
Definition cpu_idle : stm kst unit :=
  assert_spl;;
  k ← get_k;
  match k_irqs k with
  | [] => lift NoFuel
  | i :: l =>
      modify (set_irqs l);;
      modify (set_ie true);;
      idle_interrupt i;;
      modify (set_ie false)
  end.

(** [while (q_empty(runqueue)) cpu_idle();], with the interrupts still to come
    as fuel. *)
Fixpoint idle_loop (fuel : nat) : stm kst unit :=
  q ← get_runqueue;
  if q_empty q then
    match fuel with
    | O => lift NoFuel
    | S f => cpu_idle;; idle_loop f
    end
  else mret tt.

Definition scheduler : stm kst Z :=
  assert_spl;;
  k ← get_k;
  idle_loop (length (k_irqs k));;
  q ← get_runqueue;
  '(t, q') ← lift (q_remhead q);
  modify (set_runqueue (Some q'));;
  mret t.

Definition mi_switch (nextstate : threadstate_t) : stm kst bool := mi_switch_with scheduler nextstate.
Definition thread_yield : stm kst (Z * bool) := thread_yield_with scheduler.
Definition hardclock : stm kst (Z * bool) := hardclock_with scheduler.

(** [thread_sleep] up to the switch. *)
Definition thread_sleep (addr : Z) : stm kst unit :=
  k ← get_k;
  lift (kassert (in_interrupt (k_cpu k) =? 0));;
  t ← get_curthread;
  put_thread (cur k) (set_sleepaddr addr t);;
  sw ← mi_switch S_SLEEP;
  if (sw : bool) then mret tt else lift Undef.

(** ... and after it. *)
Definition thread_sleep_end : stm kst unit :=
  c ← gets cur; t ← get_thread c; put_thread c (set_sleepaddr 0 t).

(** ** Zombies *)

Definition thread_destroy (p : Z) : stm kst unit :=
  c ← gets cur;
  lift (kassert (negb (p =? c)));;
  t ← get_thread p;
  lift (kassert (t_vmspace t =? 0));;
  lift (kassert (t_cwd t =? 0));;
  modify (λ k, set_threads (delete p (k_threads k)) k).

Definition exorcise : stm kst unit :=
  assert_spl;;
  a ← get_zombies;
  _ ← for_stm (R := unit) (Z.to_nat (array_getnum a)) 0
    (λ i _,
       z ← lift (array_getguy a i);
       c ← gets cur;
       lift (kassert (negb (z =? c)));;
       thread_destroy z;;
       mret (inl tt)) tt;
  ok ← k_answer;
  '(result, a') ← lift (array_setsize ok a 0);
  modify (set_zombies (Some a'));;
  lift (kassert (result =? 0)).

(** The end of [mi_switch], in the thread that has been switched to. *)
Definition mi_switch_end : stm kst unit :=
  exorcise;;
  t ← get_curthread;
  if t_vmspace t =? 0 then mret tt else on_env (as_activate (t_vmspace t)).

Definition thread_killall : stm kst unit :=
  assert_spl;;
  a ← get_sleepers;
  _ ← for_stm (R := unit) (Z.to_nat (array_getnum a)) 0
    (λ i _, t ← lift (array_getguy a i); _ ← get_thread t; mret (inl tt)) tt;
  ok ← k_answer;
  '(result, a') ← lift (array_setsize ok a 0);
  modify (set_sleepers (Some a'));;
  lift (kassert (result =? 0)).

Definition thread_panic : stm kst unit := assert_spl;; thread_killall;; scheduler_killall.

Definition thread_shutdown : stm kst unit :=
  modify (set_sleepers None);; modify (set_zombies None).
End thread.
