(* ===== verification/Synch.v ===== *)
(** * Synchronisation primitives, and threads as they interleave

    Semaphores, locks and condition variables (thread/synch.c), the creation
    and end of threads (the rest of thread/thread.c), [clocksleep]
    (thread/hardclock.c), and the step relation of the whole: the current
    thread runs until it gives up the processor or is interrupted. *)

From S2P Require Import Prelude Array Queue Thread.

(** What a thread that has given up the processor, or been interrupted, has
    still to do, innermost first; [C] is the code that calls the primitives. *)
Inductive frame (C : Type) :=
| FSwitch
| FSleep
| FSpl (s : Z)
| FP (sem s : Z)
| FPcat (curSem anotherSem s : Z)
| FPmouse (curSem anotherSem s : Z)
| FAcquire (lock s : Z)
| FCvWait (lock s : Z)
| FClock (num_secs s : Z)
| FIrq (old_in savespl : Z)
| FStart (yields : nat)
| FYields (yields : nat)
| FClient (c : C)
| FExit
| FExitMenu
| FDead.
Arguments FSwitch {C}.
Arguments FSleep {C}.
Arguments FSpl {C} _.
Arguments FP {C} _ _.
Arguments FPcat {C} _ _ _.
Arguments FPmouse {C} _ _ _.
Arguments FAcquire {C} _ _.
Arguments FCvWait {C} _ _.
Arguments FClock {C} _ _.
Arguments FIrq {C} _ _.
Arguments FStart {C} _.
Arguments FYields {C} _.
Arguments FClient {C} _.
Arguments FExit {C}.
Arguments FExitMenu {C}.
Arguments FDead {C}.

Section synch.
Context {E : Type} `{!KEnv E} {C : Type}.
Abbreviation kst := (kstate E).
Abbreviation frames := (list (frame C)).

(** [assert(p != NULL)] *)
Definition assert_ptr (p : Z) : stm kst unit := lift (kassert (negb (p =? 0))).

(** ** Semaphores *)

Definition get_sem (p : Z) : stm kst semaphore := k ← get_k; deref (k_sems k !! p).
Definition put_sem (p : Z) (s : semaphore) : stm kst unit :=
  modify (λ k, set_sems (<[p := s]> (k_sems k)) k).

Definition sem_create (initial_count : Z) : stm kst Z :=
  lift (kassert (initial_count >=? 0));;
  p ← k_malloc;
  if p =? 0 then mret 0 else
  name ← k_malloc;
  if name =? 0 then mret 0 else
  put_sem p (mkSem initial_count 0 0);;
  mret p.

Definition sem_destroy (p : Z) : stm kst unit :=
  assert_ptr p;;
  s ← splhigh;
  n ← thread_hassleepers p;
  lift (kassert (n =? 0));;
  splx s;;
  modify (λ k, set_sems (delete p (k_sems k)) k).

(** [assert(in_interrupt == 0)] *)
Definition assert_thread : stm kst unit :=
  k ← get_k; lift (kassert (in_interrupt (k_cpu k) =? 0)).

(** The loop of [P] and what follows it. *)
Definition P_loop (sem s : Z) : stm kst frames :=
  sm ← get_sem sem;
  if sem_count sm =? 0 then
    thread_sleep sem;; mret [FSwitch; FSleep; FP sem s]
  else
  lift (kassert (sem_count sm >? 0));;
  put_sem sem (mkSem (sem_count sm - 1) (isOccupiedByMice sm) (isOccupiedByCat sm));;
  splx s;;
  mret [].

Definition P (sem : Z) : stm kst frames :=
  assert_ptr sem;; assert_thread;; s ← splhigh; P_loop sem s.

Definition Pcat_loop (curSem anotherSem s : Z) : stm kst frames :=
  sm ← get_sem curSem;
  other ← get_sem anotherSem;
  if (sem_count sm =? 0) || (isOccupiedByMice other =? 1) then
    thread_sleep curSem;; mret [FSwitch; FSleep; FPcat curSem anotherSem s]
  else
  lift (kassert (sem_count sm >? 0));;
  put_sem curSem (mkSem (sem_count sm - 1) (isOccupiedByMice sm) 1);;
  splx s;;
  mret [].

Definition Pcat (curSem anotherSem : Z) : stm kst frames :=
  assert_ptr curSem;; assert_thread;; s ← splhigh; Pcat_loop curSem anotherSem s.

Definition Pmouse_loop (curSem anotherSem s : Z) : stm kst frames :=
  sm ← get_sem curSem;
  other ← get_sem anotherSem;
  if (sem_count sm =? 0) || (isOccupiedByCat other =? 1) then
    thread_sleep curSem;; mret [FSwitch; FSleep; FPmouse curSem anotherSem s]
  else
  lift (kassert (sem_count sm >? 0));;
  put_sem curSem (mkSem (sem_count sm - 1) 1 (isOccupiedByCat sm));;
  splx s;;
  mret [].

Definition Pmouse (curSem anotherSem : Z) : stm kst frames :=
  assert_ptr curSem;; assert_thread;; s ← splhigh; Pmouse_loop curSem anotherSem s.

Definition Vcat (curSem anotherSem : Z) : stm kst unit :=
  assert_ptr curSem;;
  s ← splhigh;
  sm ← get_sem curSem;
  n ← lift (to_int (sem_count sm + 1));
  put_sem curSem (mkSem n (isOccupiedByMice sm) 0);;
  lift (kassert (n >? 0));;
  thread_wakeup curSem;;
  splx s;;
  mret tt.

Definition Vmouse (curSem anotherSem : Z) : stm kst unit :=
  assert_ptr curSem;;
  s ← splhigh;
  sm ← get_sem curSem;
  n ← lift (to_int (sem_count sm + 1));
  put_sem curSem (mkSem n 0 (isOccupiedByCat sm));;
  lift (kassert (n >? 0));;
  thread_wakeup curSem;;
  splx s;;
  mret tt.

(** ** Locks *)

Definition get_lock (p : Z) : stm kst lock := k ← get_k; deref (k_locks k !! p).
Definition put_lock (p : Z) (l : lock) : stm kst unit :=
  modify (λ k, set_locks (<[p := l]> (k_locks k)) k).

Definition lock_create : stm kst Z :=
  p ← k_malloc;
  if p =? 0 then mret 0 else
  name ← k_malloc;
  if name =? 0 then mret 0 else
  put_lock p (mkLock 0);;
  mret p.

(** It frees the thread that holds the lock, if there is one. *)
Definition lock_destroy (p : Z) : stm kst unit :=
  assert_ptr p;;
  l ← get_lock p;
  modify (λ k, set_threads (delete (lock_owner l) (k_threads k)) k);;
  modify (λ k, set_locks (delete p (k_locks k)) k).

Definition acquire_loop (p s : Z) : stm kst frames :=
  l ← get_lock p;
  if negb (lock_owner l =? 0) then
    thread_sleep p;; mret [FSwitch; FSleep; FAcquire p s]
  else
  c ← gets cur;
  put_lock p (mkLock c);;
  splx s;;
  mret [].

Definition lock_acquire (p : Z) : stm kst frames :=
  assert_ptr p;; s ← splhigh; acquire_loop p s.

Definition lock_release (p : Z) : stm kst unit :=
  assert_ptr p;;
  s ← splhigh;
  l ← get_lock p;
  c ← gets cur;
  lift (kassert (c =? lock_owner l));;
  put_lock p (mkLock 0);;
  thread_wakeup p;;
  splx s;;
  mret tt.

Definition lock_do_i_hold (p : Z) : stm kst Z :=
  assert_ptr p;;
  l ← get_lock p;
  c ← gets cur;
  mret (if lock_owner l =? c then 1 else 0).

(** ** Condition variables *)

Definition cv_create : stm kst Z :=
  p ← k_malloc;
  if p =? 0 then mret 0 else
  name ← k_malloc;
  if name =? 0 then mret 0 else
  modify (λ k, set_cvs ({[p]} ∪ k_cvs k) k);;
  mret p.

Definition cv_destroy (p : Z) : stm kst unit :=
  assert_ptr p;;
  modify (λ k, set_cvs (k_cvs k ∖ {[p]}) k).

(** The pointer to the condition variable is not followed. *)
Definition cv_wait (cv lock : Z) : stm kst frames :=
  assert_ptr cv;; assert_ptr lock;;
  s ← splhigh;
  lock_release lock;;
  thread_sleep cv;;
  mret [FSwitch; FSleep; FCvWait lock s].

Definition cv_signal (cv lock : Z) : stm kst unit :=
  assert_ptr cv;; assert_ptr lock;;
  s ← splhigh;
  thread_onewakeup cv;;
  splx s;;
  mret tt.

Definition cv_broadcast (cv lock : Z) : stm kst unit :=
  assert_ptr cv;; assert_ptr lock;;
  s ← splhigh;
  thread_wakeup cv;;
  splx s;;
  mret tt.

(** ** Sleeping for some seconds, and yielding *)

Definition clock_loop (num_secs s : Z) : stm kst frames :=
  if num_secs >? 0 then
    thread_sleep lbolt;; mret [FSwitch; FSleep; FClock num_secs s]
  else splx s;; mret [].

Definition clocksleep (num_secs : Z) : stm kst frames := s ← splhigh; clock_loop num_secs s.

(** [thread_yield], with what is left of it after the switch. *)
Definition yield_frames : stm kst frames :=
  '(s, sw) ← thread_yield;
  mret (if (sw : bool) then [FSwitch; FSpl s] else []).

(** ** Interrupts of a running thread *)

Definition irq_end (old_in savespl : Z) : stm kst unit :=
  modify (set_inint old_in);;
  splhigh;;
  modify (set_spl savespl);;
  modify (set_ie true).

(** [mips_trap] and [mips_interrupt]; the end comes after the switch when the
    clock takes the processor away. *)
Definition mips_interrupt (i : irq) : stm kst frames :=
  k ← get_k;
  modify (set_ie false);;
  modify (set_spl SPL_HIGH);;
  modify (set_inint 1);;
  assert_spl;;
  match i with
  | IrqTimer =>
      '(s, sw) ← hardclock;
      mret ((if (sw : bool) then [FSwitch; FSpl s] else []) ++ [FIrq (in_interrupt (k_cpu k)) (spl k)])
  | IrqV sem => V sem;; mret [FIrq (in_interrupt (k_cpu k)) (spl k)]
  end.

(** ** Creating threads *)

Definition new_thread : thread := mkThread 0 0 [] 0 0 None None 0 0 0.

(** The first free slot of the process table, from [t] on. *)
Definition find_slot (t : Z) (table : list process) : outcome (option Z) :=
  r ← for_loop (Z.to_nat (TOTAL_PROCESSES - t)) t
    (λ i _,
       e ← arr_get table i;
       Done (if (occupied e =? 0) && (processthread e =? 0) then inr i else inl tt)) tt;
  Done (match r with inl _ => None | inr i => Some i end).

Definition take_slot (i p l cv : Z) (e : process) : process :=
  mkProcess i p 1 (exited e) (exitcode e) 0 (parentPID e) l cv.

Definition fill_slot (i p : Z) : stm kst unit :=
  l ← lock_create;
  cv ← cv_create;
  put_thread p (set_tpid i new_thread);;
  k ← get_k;
  e ← lift (arr_get (k_table k) i);
  table' ← lift (arr_set (k_table k) i (take_slot i p l cv e));
  modify (set_procs table' (noprocesses k)).

Definition thread_create : stm kst Z :=
  p ← k_malloc;
  if p =? 0 then mret 0 else
  name ← k_malloc;
  if name =? 0 then mret 0 else
  put_thread p new_thread;;
  k ← get_k;
  let t := if noprocesses k <? 2 then 0 else 2 in
  (if noprocesses k <? 2 then modify (set_procs (k_table k) (noprocesses k + 1)) else mret tt);;
  s ← splhigh;
  slot ← lift (find_slot t (k_table k));
  match slot with
  | None => splx s;; mret 0
  | Some i =>
      fill_slot i p;;
      splx s;;
      mret p
  end.

Definition thread_bootstrap : stm kst Z :=
  l ← lock_create;
  cv ← cv_create;
  modify (λ k, set_menu (mkMenu (menuth (k_menu k)) l cv) k);;
  m1 ← k_answer;
  match array_create m1 with
  | None => lift Panic
  | Some a =>
      modify (set_sleepers (Some a));;
      m2 ← k_answer;
      match array_create m2 with
      | None => lift Panic
      | Some z =>
          modify (set_zombies (Some z));;
          me ← thread_create;
          if me =? 0 then lift Panic else
          t ← get_thread me;
          k ← get_k;
          put_thread me (set_pcb (curkstack (k_cpu k)) 0 t);;
          modify (set_cur me);;
          modify (set_numthreads 1);;
          mret me
      end
  end.

Definition free_thread (p : Z) : stm kst unit :=
  modify (λ k, set_threads (delete p (k_threads k)) k).

(** The reservations of [thread_fork] and the entry into the run queue. *)
Definition fork_reserve (p : Z) : stm kst Z :=
  a ← get_sleepers;
  k ← get_k;
  n ← lift (to_int (numthreads (k_lists k) + 1));
  ok ← k_answer;
  '(result, a') ← lift (array_preallocate ok a n);
  modify (set_sleepers (Some a'));;
  if negb (result =? 0) then mret result else
  z ← get_zombies;
  ok ← k_answer;
  '(result, z') ← lift (array_preallocate ok z n);
  modify (set_zombies (Some z'));;
  if negb (result =? 0) then mret result else
  result ← scheduler_preallocate n;
  if negb (result =? 0) then mret result else
  make_runnable p.

(** The part of [thread_fork] with interrupts off: the error code, and the new
    thread, whose working directory is [cwd]. *)
Definition fork_enter (p cwd : Z) : stm kst (Z * Z) :=
  s ← splhigh;
  result ← fork_reserve p;
  if negb (result =? 0) then
    splx s;;
    (if cwd =? 0 then mret tt else on_env (vop_decref cwd));;
    free_thread p;;
    mret (result, 0)
  else
  k ← get_k;
  n ← lift (to_int (numthreads (k_lists k) + 1));
  modify (set_numthreads n);;
  splx s;;
  mret (0, p).

Definition thread_fork : stm kst (Z * Z) :=
  p ← thread_create;
  if p =? 0 then mret (ENOMEM, 0) else
  stack ← k_malloc;
  if stack =? 0 then free_thread p;; mret (ENOMEM, 0) else
  t ← get_thread p;
  me ← get_curthread;
  (if t_cwd me =? 0 then mret tt else on_env (vop_incref (t_cwd me)));;
  put_thread p (set_pcb (u32 (stack + STACK_SIZE)) 0 (set_cwd (t_cwd me) (set_stack stack stack_magic t)));;
  fork_enter p (t_cwd me).

Definition clear_process (e : process) : process :=
  mkProcess (PID e) 0 0 0 (exitcode e) 0 (parentPID e) (exitpermission e) (exitcv e).

Definition init_processtable : stm kst unit :=
  modify (λ k, set_procs (clear_process <$> k_table k) (noprocesses k) k).

(** The part of [kmain] and [boot] that brings up the thread system; device
    setup then turns interrupts on. *)
Definition boot_threads : stm kst Z :=
  init_processtable;; scheduler_bootstrap;; me ← thread_bootstrap; _ ← spl0; mret me.

(** ** The end of a thread *)

(** From the end of the special case for the menu on. *)
Definition exit_rest : stm kst frames :=
  t ← get_curthread;
  c ← gets cur;
  (if t_vmspace t =? 0 then mret tt else
     put_thread c (set_vmspace 0 t);; on_env (as_destroy (t_vmspace t)));;
  t ← get_thread c;
  (if t_cwd t =? 0 then mret tt else
     on_env (vop_decref (t_cwd t));; put_thread c (set_cwd 0 t));;
  k ← get_k;
  lift (kassert (numthreads (k_lists k) >? 0));;
  modify (set_numthreads (numthreads (k_lists k) - 1));;
  _ ← mi_switch S_ZOMB;
  mret [FDead].

Definition thread_exit : stm kst frames :=
  t ← get_curthread;
  lift (check_magic t);;
  _ ← splhigh;
  k ← get_k;
  if cur k =? menuth (k_menu k) then
    fs ← lock_acquire (menusleep (k_menu k));
    mret (fs ++ [FExitMenu])
  else exit_rest.

(** [mi_threadstart] up to the call of the thread's function. *)
Definition mi_threadstart (yields : nat) : stm kst frames :=
  t ← get_curthread;
  (if t_vmspace t =? 0 then mret tt else on_env (as_activate (t_vmspace t)));;
  _ ← spl0;
  mret [FYields yields].

(** ** Going on *)

(** What the current thread does next when [f] is its innermost frame. *)
Definition resume (f : frame C) : stm kst frames :=
  match f with
  | FSwitch => mi_switch_end;; mret []
  | FSleep => thread_sleep_end;; mret []
  | FSpl s => _ ← splx s; mret []
  | FP sem s => P_loop sem s
  | FPcat a b s => Pcat_loop a b s
  | FPmouse a b s => Pmouse_loop a b s
  | FAcquire l s => acquire_loop l s
  | FCvWait l s => fs ← lock_acquire l; mret (fs ++ [FSpl s])
  | FClock n s => clock_loop (n - 1) s
  | FIrq old_in savespl => irq_end old_in savespl;; mret []
  | FStart yields => mi_threadstart yields
  | FYields O => mret []
  | FYields (S n) => fs ← yield_frames; mret (fs ++ [FYields n])
  | FClient _ => mret [f]
  | FExit => thread_exit
  | FExitMenu =>
      k ← get_k;
      cv_broadcast (menucv (k_menu k)) (menusleep (k_menu k));;
      lock_release (menusleep (k_menu k));;
      exit_rest
  | FDead => lift Panic
  end.

(** ** The step relation *)

(** The calls a thread can make. *)
Inductive op :=
| OpP (sem : Z) | OpV (sem : Z)
| OpPcat (a b : Z) | OpPmouse (a b : Z) | OpVcat (a b : Z) | OpVmouse (a b : Z)
| OpAcquire (l : Z) | OpRelease (l : Z)
| OpWait (cv l : Z) | OpSignal (cv l : Z) | OpBroadcast (cv l : Z)
| OpClocksleep (n : Z) | OpYield | OpIterate
| OpSemCreate (n : Z) | OpLockCreate | OpCvCreate.

Definition call {A} (m : stm kst A) : stm kst frames := _ ← m; mret [].

Definition exec_op (o : op) : stm kst frames :=
  match o with
  | OpP s => P s
  | OpV s => call (V s)
  | OpPcat a b => Pcat a b
  | OpPmouse a b => Pmouse a b
  | OpVcat a b => call (Vcat a b)
  | OpVmouse a b => call (Vmouse a b)
  | OpAcquire l => lock_acquire l
  | OpRelease l => call (lock_release l)
  | OpWait cv l => cv_wait cv l
  | OpSignal cv l => call (cv_signal cv l)
  | OpBroadcast cv l => call (cv_broadcast cv l)
  | OpClocksleep n => clocksleep n
  | OpYield => yield_frames
  | OpIterate =>
      c ← gets cur; t ← get_thread c;
      n ← lift (to_int (iteration t + 1)); call (put_thread c (set_iteration n t))
  | OpSemCreate n => call (sem_create n)
  | OpLockCreate => call lock_create
  | OpCvCreate => call cv_create
  end.

(** The kernel, and what each thread has still to do. *)
Record config := mkCfg { cf_k : kst; cf_st : gmap Z frames }.

(** What a thread's own code does next: a call, a fork, or its end. *)
Inductive action := ACall (o : op) | AFork (yields : nat) (c : C) | AReturn.

(** What a step does; its label names the thread too. *)
Inductive event := LFrame (f : frame C) | LAct (a : action) | LIrq (i : irq).

Context (client : kst → C → action → C → Prop).

Definition label : Type := Z * event.

Inductive kstep : config → label → config → Prop :=
| step_frame k st f fr fs k' :
    st !! cur k = Some (f :: fr) → (∀ c, f ≠ FClient c) → resume f k = Done (fs, k') →
    kstep (mkCfg k st) (cur k, LFrame f) (mkCfg k' (<[cur k := fs ++ fr]> st))
| step_call k st c c' o fr fs k' :
    st !! cur k = Some (FClient c :: fr) → client k c (ACall o) c' → exec_op o k = Done (fs, k') →
    kstep (mkCfg k st) (cur k, LAct (ACall o)) (mkCfg k' (<[cur k := fs ++ FClient c' :: fr]> st))
| step_fork k st c c' n cn fr r p k' :
    st !! cur k = Some (FClient c :: fr) → client k c (AFork n cn) c' → thread_fork k = Done ((r, p), k') →
    kstep (mkCfg k st) (cur k, LAct (AFork n cn))
      (mkCfg k' (<[cur k := FClient c' :: fr]>
        (if r =? 0 then <[p := [FStart n; FClient cn; FExit]]> st else st)))
| step_return k st c c' fr :
    st !! cur k = Some (FClient c :: fr) → client k c AReturn c' →
    kstep (mkCfg k st) (cur k, LAct AReturn) (mkCfg k (<[cur k := fr]> st))
| step_irq k st i fr fs k' :
    st !! cur k = Some fr → c_ie (k_cpu k) = true → mips_interrupt i k = Done (fs, k') →
    kstep (mkCfg k st) (cur k, LIrq i) (mkCfg k' (<[cur k := fs ++ fr]> st)).

Inductive ksteps : config → list label → config → Prop :=
| ksteps_nil c : ksteps c [] c
| ksteps_cons c l c' ls c'' : kstep c l c' → ksteps c' ls c'' → ksteps c (l :: ls) c''.
End synch.
Arguments op : clear implicits.

(** ** Running the kernel

    An executable form of the step relation, scripts as the code of threads,
    and a kernel after boot: what the witnesses of the thread system evaluate. *)

Section run.
Context {E : Type} `{!KEnv E} {C : Type}.
Context (next : kstate E → C → option (action (C := C) * C)).

Definition client_of (k : kstate E) (c : C) (a : action (C := C)) (c' : C) : Prop := next k c = Some (a, c').

(** One step: the interrupt [i], or what the current thread does next. *)
Definition exec_step (cf : config (E := E) (C := C)) (i : option irq) : option (label (C := C) * config) :=
  let k := cf_k cf in
  let st := cf_st cf in
  match i, st !! cur k with
  | Some i, Some fr =>
      if c_ie (k_cpu k) then
        match mips_interrupt i k with
        | Done (fs, k') => Some ((cur k, LIrq i), mkCfg k' (<[cur k := fs ++ fr]> st))
        | _ => None
        end
      else None
  | None, Some (FClient c :: fr) =>
      match next k c with
      | Some (ACall o, c') =>
          match exec_op o k with
          | Done (fs, k') =>
              Some ((cur k, LAct (ACall o)), mkCfg k' (<[cur k := fs ++ FClient c' :: fr]> st))
          | _ => None
          end
      | Some (AFork n cn, c') =>
          match thread_fork k with
          | Done ((r, p), k') =>
              Some ((cur k, LAct (AFork n cn)), mkCfg k' (<[cur k := FClient c' :: fr]>
                (if r =? 0 then <[p := [FStart n; FClient cn; FExit]]> st else st)))
          | _ => None
          end
      | Some (AReturn, c') => Some ((cur k, LAct AReturn), mkCfg k (<[cur k := fr]> st))
      | None => None
      end
  | None, Some (f :: fr) =>
      match resume f k with
      | Done (fs, k') => Some ((cur k, LFrame f), mkCfg k' (<[cur k := fs ++ fr]> st))
      | _ => None
      end
  | _, _ => None
  end.

Fixpoint exec (cf : config (E := E) (C := C)) (iv : list (option irq)) : option (list (label (C := C)) * config) :=
  match iv with
  | [] => Some ([], cf)
  | i :: iv' =>
      '(l, cf') ← exec_step cf i;
      '(ls, cf'') ← exec cf' iv';
      Some (l :: ls, cf'')
  end.

Lemma exec_step_sound cf i l cf' : exec_step cf i = Some (l, cf') → kstep client_of cf l cf'.
Proof.
  destruct cf as [k st]. unfold exec_step. cbn.
  destruct i as [i|], (st !! cur k) as [[|f fr]|] eqn:Est; try done.
  1,2: destruct (c_ie (k_cpu k)) eqn:Eie; [|done]; destruct (mips_interrupt i k) as [[fs k']| | |] eqn:Er; [|done..];
    intros [= <- <-]; by eapply step_irq.
  destruct f.
  13: { destruct (next k c) as [[[o|n cn|] c']|] eqn:En; [| | |done].
    - destruct (exec_op o k) as [[fs k']| | |] eqn:Er; [|done..]. intros [= <- <-]. by eapply step_call.
    - destruct (thread_fork k) as [[[r p] k']| | |] eqn:Er; [|done..]. intros [= <- <-]. by eapply step_fork.
    - intros [= <- <-]. by eapply step_return. }
  all: destruct (resume _ k) as [[fs k']| | |] eqn:Er; [|done..]; intros [= <- <-]; by eapply step_frame.
Qed.

Lemma exec_sound iv cf ls cf' : exec cf iv = Some (ls, cf') → ksteps client_of cf ls cf'.
Proof.
  revert cf ls. induction iv as [|i iv IH]; intros cf ls; cbn [exec].
  { intros [= <- <-]. apply ksteps_nil. }
  destruct (exec_step cf i) as [[l cf1]|] eqn:E1; [|done]. cbn.
  destruct (exec cf1 iv) as [[ls' cf2]|] eqn:E2; [|done]. cbn. intros [= <- <-].
  eapply ksteps_cons; [by eapply exec_step_sound|by apply IH].
Qed.
End run.

Lemma ksteps_mono {E : Type} `{!KEnv E} {C : Type} (cl cl' : kstate E → C → action (C := C) → C → Prop) cf ls cf' :
  (∀ k c a c', cl k c a c' → cl' k c a c') → ksteps cl cf ls cf' → ksteps cl' cf ls cf'.
Proof.
  intros H. induction 1 as [|cf l cf1 ls cf2 Hst _ IH]; [apply ksteps_nil|]. eapply ksteps_cons; [|exact IH].
  destruct Hst; [by eapply step_frame|eapply step_call; eauto|eapply step_fork; eauto|eapply step_return; eauto|by eapply step_irq].
Qed.

(** ** Scripts *)

Inductive script :=
| SEnd
| SCall (o : op) (c : script)
| SFork (child : script) (c : script).

Definition script_next {E} (_ : kstate E) (c : script) : option (action (C := script) * script) :=
  match c with
  | SEnd => Some (AReturn, SEnd)
  | SCall o c => Some (ACall o, c)
  | SFork child c => Some (AFork 0 child, c)
  end.

(** ** A kernel *)

#[export] Instance unit_kenv : KEnv unit := {
  as_activate _ e := Done e; as_destroy _ e := Done e;
  vop_incref _ e := Done e; vop_decref _ e := Done e; HZ := 100;
}.

Definition kernel_off (mem : list bool) : kstate unit :=
  mkK (mkCpu 0 SPL_HIGH 0 4096 false) (mkLists None None None 0) ∅
    (replicate (Z.to_nat TOTAL_PROCESSES) (mkProcess 0 0 0 0 0 0 0 0 0)) 0 ∅ ∅ ∅ (mkMenu 0 0 0) 0 1 mem [] tt.

Definition booted (m : outcome (Z * kstate unit)) : kstate unit :=
  match m with Done (_, k) => k | _ => kernel_off [] end.
Definition kernel0 : kstate unit := booted (boot_threads (kernel_off (replicate 200 true))).
Definition started (c : script) : config := mkCfg kernel0 {[ cur kernel0 := [FClient c; FExit] ]}.
