(* ===== verification/KPres.v ===== *)
(** * What the functions of the thread system leave alone

    The relations kept by the two kinds of functions that matter: those that
    wake threads and those that switch. *)

From S2P Require Import Prelude Array Queue Thread Synch.

Section kpres.
Context {E : Type} `{!KEnv E} {C : Type}.
Abbreviation kst := (kstate E).

Lemma pres_get_k R `{!PreOrder R} : pres R (get_k (E := E)).
Proof. by apply pres_gets. Qed.
#[local] Hint Resolve pres_get_k : pres.

(** A new object has the next address. *)
Lemma k_malloc_split k (Q : Z → kst → Prop) :
  (∀ m, Q 0 (set_alloc (k_next k) m k)) → (∀ m, Q (k_next k) (set_alloc (k_next k + 1) m k)) →
  slp k_malloc k Q.
Proof.
  intros H0 H1. unfold k_malloc. apply slp_bind. intros b k1. unfold k_answer.
  destruct (k_mem k) as [|b' m] eqn:Em; intros [= <- <-].
  - apply slp_ret. specialize (H0 (k_mem k)). by destruct k.
  - destruct b'; [|apply slp_ret, H0]. apply slp_bind, slp_gets, slp_bind, slp_modify, slp_ret. apply H1.
Qed.

(** Waking threads up moves them between the lists and uses the allocator;
    [splx] changes the level. *)
Class Quiet (R : relation kst) := {
  quiet_pre :: PreOrder R;
  quiet_lists k l : R k (set_lists l k);
  quiet_alloc k m : R k (set_alloc (k_next k) m k);
  quiet_spl k s : R k (set_spl s k);
  quiet_ie k b : R k (set_ie b k);
}.

Section quiet.
Context (R : relation kst) `{!Quiet R}.
#[local] Hint Extern 1 (R _ _) => (reflexivity || apply quiet_lists || apply quiet_alloc || apply quiet_spl || apply quiet_ie) : core.

Lemma quiet_k_answer : pres R k_answer.
Proof. intros k b k'. unfold k_answer. destruct (k_mem k); intros [= <- <-]; auto. Qed.
#[local] Hint Resolve quiet_k_answer : pres.
Lemma quiet_splx s : pres R (splx s).
Proof. unfold splx. pres_solve. Qed.
Lemma quiet_make_runnable p : pres R (make_runnable p).
Proof. unfold make_runnable, assert_spl, get_runqueue, set_runqueue, deref. pres_solve. Qed.
#[local] Hint Resolve quiet_make_runnable : pres.
Lemma quiet_wakeup_from fuel one addr i : pres R (wakeup_from fuel one addr i).
Proof.
  revert i. induction fuel as [|fuel IH]; intros i; cbn [wakeup_from];
    unfold wake_at, get_sleepers, get_thread, set_sleepers, deref; pres_solve.
Qed.
#[local] Hint Resolve quiet_wakeup_from : pres.
Lemma quiet_thread_wakeup addr : pres R (thread_wakeup addr).
Proof. unfold thread_wakeup, assert_spl, get_sleepers, deref. pres_solve. Qed.
Lemma quiet_thread_onewakeup addr : pres R (thread_onewakeup addr).
Proof. unfold thread_onewakeup, assert_spl, get_sleepers, deref. pres_solve. Qed.
#[local] Hint Resolve quiet_splx quiet_thread_wakeup quiet_thread_onewakeup : pres.
Lemma quiet_cv_broadcast cv l : pres R (cv_broadcast cv l).
Proof. unfold cv_broadcast, assert_ptr, splhigh. pres_solve. Qed.
Lemma quiet_cv_signal cv l : pres R (cv_signal cv l).
Proof. unfold cv_signal, assert_ptr, splhigh. pres_solve. Qed.
End quiet.
#[local] Hint Resolve quiet_k_answer quiet_splx quiet_make_runnable quiet_wakeup_from quiet_thread_wakeup
  quiet_thread_onewakeup quiet_cv_broadcast quiet_cv_signal : pres.

(** Switching changes the processor, the threads and the environment too. *)
Class Switch (R : relation kst) := {
  switch_quiet :: Quiet R;
  switch_cpu k c : R k (set_cpu c k);
  switch_threads k t : R k (set_threads t k);
  switch_env k e : R k (set_env e k);
  switch_lbolt k n : R k (set_lbolt n k);
}.

(** ... and the interrupts an idle processor takes. *)
Class Idle (R : relation kst) : Prop := idle_pres : pres R cpu_idle.

Section switch.
Context (R : relation kst) `{!Switch R}.
#[local] Hint Extern 1 (R _ _) =>
  (reflexivity || apply quiet_lists || apply quiet_alloc || apply switch_cpu || apply switch_threads ||
   apply switch_env || apply switch_lbolt) : core.

Lemma switch_mi_switch_with sched st : pres R sched → pres R (mi_switch_with sched st).
Proof.
  intros Hs. unfold mi_switch_with, stash, assert_spl, md_switch, get_thread, put_thread, get_sleepers, get_zombies, deref,
    set_cur, set_kstack, set_inint, set_sleepers, set_zombies. pres_solve.
Qed.
Lemma switch_hardclock_with sched : pres R sched → pres R (hardclock_with sched).
Proof.
  intros Hs. pose proof (switch_mi_switch_with sched S_READY Hs) as Hm.
  unfold hardclock_with, thread_yield_with, splhigh. pres_solve.
Qed.
#[local] Hint Resolve switch_mi_switch_with switch_hardclock_with : pres.
Lemma switch_mi_switch_end : pres R mi_switch_end.
Proof.
  unfold mi_switch_end, exorcise, thread_destroy, assert_spl, get_zombies, get_curthread, get_thread, on_env, deref,
    set_zombies. pres_solve.
Qed.
Lemma switch_thread_sleep_end : pres R thread_sleep_end.
Proof. unfold thread_sleep_end, get_thread, put_thread, deref. pres_solve. Qed.
Lemma switch_irq_end i s : pres R (irq_end i s).
Proof. unfold irq_end, splhigh, set_inint, set_spl, set_ie. pres_solve. Qed.
Lemma switch_idle_interrupt i : (∀ s, i = IrqV s → pres R (V s)) → pres R (idle_interrupt i).
Proof.
  intros HV. assert (pres R (hardclock_with (lift NoFuel))) by (apply switch_hardclock_with, pres_lift, _).
  unfold idle_interrupt, assert_spl, splhigh, set_ie, set_spl, set_inint.
  destruct i; [|pose proof (HV sem eq_refl)]; pres_solve.
Qed.

Context `{!Idle R}.
#[local] Hint Extern 1 (pres R cpu_idle) => (apply idle_pres) : pres.
Lemma switch_idle_loop fuel : pres R (idle_loop fuel).
Proof. induction fuel; cbn [idle_loop]; unfold get_runqueue, deref; pres_solve; auto. Qed.
#[local] Hint Resolve switch_idle_loop : pres.
Lemma switch_scheduler : pres R scheduler.
Proof. unfold scheduler, assert_spl, get_runqueue, set_runqueue, deref. pres_solve. Qed.
#[local] Hint Resolve switch_scheduler : pres.
Lemma switch_thread_sleep addr : pres R (thread_sleep addr).
Proof. unfold thread_sleep, mi_switch, get_curthread, get_thread, put_thread, deref. pres_solve. Qed.
Lemma switch_yield_frames : pres R (yield_frames (C := C)).
Proof. unfold yield_frames, thread_yield, thread_yield_with, splhigh. pres_solve. Qed.
Lemma switch_clock_loop n s : pres R (clock_loop (C := C) n s).
Proof. pose proof (switch_thread_sleep lbolt). unfold clock_loop. pres_solve. Qed.
Lemma switch_exit_rest : pres R (exit_rest (C := C)).
Proof. unfold exit_rest, mi_switch, get_curthread, get_thread, put_thread, on_env, deref, set_numthreads. pres_solve. Qed.
Lemma switch_mi_threadstart n : pres R (mi_threadstart (C := C) n).
Proof. unfold mi_threadstart, spl0, get_curthread, get_thread, on_env, deref. pres_solve. Qed.
Lemma switch_mips_interrupt i :
  (∀ s, i = IrqV s → pres R (V s)) → pres R (mips_interrupt (C := C) i).
Proof.
  intros HV. unfold mips_interrupt, assert_spl, hardclock, set_ie, set_spl, set_inint.
  destruct i; [|pose proof (HV sem eq_refl)]; pres_solve.
Qed.
End switch.
End kpres.
#[export] Hint Resolve pres_get_k quiet_k_answer quiet_splx quiet_make_runnable quiet_wakeup_from quiet_thread_wakeup
  quiet_thread_onewakeup quiet_cv_broadcast quiet_cv_signal switch_mi_switch_with switch_hardclock_with
  switch_mi_switch_end switch_thread_sleep_end switch_irq_end switch_idle_loop switch_scheduler switch_thread_sleep
  switch_yield_frames switch_clock_loop switch_exit_rest switch_mi_threadstart : pres.

(** ** Addresses *)

(** The allocator goes on to new addresses. *)
Section grows.
Context {E : Type} `{!KEnv E}.
Abbreviation kst := (kstate E).

Definition grows : relation kst := λ k k', k_next k ≤ k_next k'.
#[export] Instance grows_quiet : Quiet grows.
Proof. split; try (unfold grows; cbn; lia). split; [by intros k; unfold grows|]. intros k1 k2 k3. unfold grows. lia. Qed.
#[export] Instance grows_switch : Switch grows.
Proof. split; try (unfold grows; cbn; lia). apply _. Qed.
#[local] Hint Extern 1 (grows _ _) => (unfold grows; cbn; lia) : core.

Lemma grows_k_malloc : pres grows k_malloc.
Proof. intros k. apply k_malloc_split; intros m; auto. Qed.
#[local] Hint Resolve grows_k_malloc : pres.
Lemma grows_lock_create : pres grows lock_create.
Proof. unfold lock_create, put_lock. pres_solve. Qed.
Lemma grows_cv_create : pres grows cv_create.
Proof. unfold cv_create. pres_solve. Qed.
#[local] Hint Resolve grows_lock_create grows_cv_create : pres.

(** A function that returns a new address, or NULL. *)
Definition fresh_slp {A} (m : stm kst A) (k : kst) (addr : A → option Z) : Prop :=
  slp m k (λ a k', grows k k' ∧ ∀ p, addr a = Some p → k_next k ≤ p < k_next k').

Lemma thread_create_fresh k : fresh_slp thread_create k (λ p, if p =? 0 then None else Some p).
Proof.
  unfold fresh_slp, thread_create. apply slp_bind, k_malloc_split; intros m.
  { apply slp_ret. by split; [unfold grows|]. }
  destruct (k_next k =? 0) eqn:E0.
  { apply slp_ret. cbn. by split; [unfold grows; cbn; lia|]. }
  match goal with |- slp ?m ?k1 _ => assert (pres grows m ∧ returns (λ p, p = 0 ∨ p = k_next k) m) as [Hg Hr] end.
  { split; [unfold fill_slot, put_thread, splhigh; pres_solve|]. repeat returns_step; auto. }
  intros p k' Hp. pose proof (Hg _ _ _ Hp) as Hn. apply Hr in Hp. unfold grows in *. cbn in Hn. split; [lia|].
  destruct Hp as [->| ->]; [done|]. rewrite E0. intros p [= <-]. lia.
Qed.

Lemma thread_fork_fresh k : slp thread_fork k (λ '(r, p) k', r = 0 → k_next k ≤ p < k_next k').
Proof.
  unfold thread_fork. apply slp_bind. eapply slp_mono; [apply thread_create_fresh|]. intros p k1 [_ Hp].
  destruct (p =? 0); [by apply slp_ret|]. specialize (Hp p eq_refl).
  match goal with |- slp ?m ?k1 _ => assert (pres grows m ∧ returns (λ '(r, q), r = 0 → q = p) m) as [Hg Hr] end.
  { split.
    - unfold fork_enter, fork_reserve, scheduler_preallocate, assert_spl, splhigh, free_thread, on_env, get_curthread,
        get_thread, put_thread, get_sleepers, get_zombies, get_runqueue, deref. pres_solve.
    - apply returns_bind. intros stack. destruct (stack =? 0); [repeat returns_step; done|].
      do 4 (apply returns_bind; intros ?). unfold fork_enter. do 2 (apply returns_bind; intros ?).
      destruct (Z.eqb_spec b4 0) as [->|]; cbn [negb]; repeat returns_step; done. }
  intros [r q] k' H. pose proof (Hg _ _ _ H) as Hn. pose proof (Hr _ _ _ H) as Hq. unfold grows in *. cbn in *.
  intros ->. rewrite (Hq eq_refl). lia.
Qed.
End grows.
