(* ===== verification/SynchLock.v ===== *)
(** * Locks exclude each other's holders

    What the thread system leaves alone, and from it: once a thread holds a
    lock it holds it until it releases it itself, whatever the other threads
    and the interrupts do. *)

From S2P Require Import Prelude Array Queue Thread Synch KPres.

Section locks.
Context {E : Type} `{!KEnv E} {C : Type}.
Abbreviation kst := (kstate E).

(** The current thread stays the same. *)
Definition same_cur : relation kst := λ k k', cur k' = cur k.
#[export] Instance same_cur_quiet : Quiet same_cur.
Proof. split; try done. split; [by intros k|]. intros k1 k2 k3. unfold same_cur. congruence. Qed.

(** The functions below change the processor, the lists, the threads, the
    semaphores, the allocator and the environment, and no lock. *)
Definition same_locks : relation kst := λ k k', k_locks k' = k_locks k ∧ k_next k ≤ k_next k'.
Abbreviation nolock m := (pres same_locks m).

Lemma same_locks_intro k k' : k_locks k' = k_locks k → k_next k' = k_next k → same_locks k k'.
Proof. intros ? Hn. split; [done|lia]. Qed.
#[local] Hint Extern 1 (same_locks _ _) => (apply same_locks_intro; reflexivity) : core.

#[export] Instance same_locks_quiet : Quiet same_locks.
Proof.
  split; auto. split; [by intros k|]. intros k1 k2 k3 [H1 H2] [H3 H4]. split; [congruence|lia].
Qed.
#[export] Instance same_locks_switch : Switch same_locks.
Proof. split; auto using same_locks_quiet. Qed.

Lemma nolock_V sem : nolock (V sem).
Proof. unfold V, splhigh, deref. pres_solve. Qed.
#[local] Hint Resolve nolock_V : pres.
#[export] Instance same_locks_idle : Idle same_locks.
Proof.
  unfold Idle, cpu_idle, assert_spl. pose proof (λ i, switch_idle_interrupt same_locks i (λ s _, nolock_V s)). pres_solve.
Qed.

Lemma nolock_P_loop s n : nolock (P_loop (C := C) s n).
Proof. unfold P_loop, get_sem, put_sem, deref. pres_solve. Qed.
Lemma nolock_Pcat_loop a b s : nolock (Pcat_loop (C := C) a b s).
Proof. unfold Pcat_loop, get_sem, put_sem, deref. pres_solve. Qed.
Lemma nolock_Pmouse_loop a b s : nolock (Pmouse_loop (C := C) a b s).
Proof. unfold Pmouse_loop, get_sem, put_sem, deref. pres_solve. Qed.
Lemma nolock_mips_interrupt i : nolock (mips_interrupt (C := C) i).
Proof. apply switch_mips_interrupt; [apply _|apply _|]. intros; apply nolock_V. Qed.
#[local] Hint Resolve nolock_P_loop nolock_Pcat_loop nolock_Pmouse_loop nolock_mips_interrupt : pres.

(** ** Holding a lock *)

(** A lock is an object the allocator has handed out. *)
Definition locks_ok (k : kst) : Prop := ∀ l, is_Some (k_locks k !! l) → l < k_next k.

Definition holds (k : kst) (l t : Z) : Prop := k_locks k !! l = Some (mkLock t).

Definition kept (l t : Z) : relation kst := λ k k',
  locks_ok k → holds k l t → locks_ok k' ∧ holds k' l t.

#[local] Instance kept_preorder l t : PreOrder (kept l t).
Proof.
  split; [by intros k|]. intros k1 k2 k3 H1 H2 Hl Hh. destruct (H1 Hl Hh). by apply H2.
Qed.

Lemma same_kept l t k k' : same_locks k k' → kept l t k k'.
Proof.
  intros [Hl Hn] Hok Hh. unfold locks_ok, holds. rewrite Hl. split; [|done].
  intros x Hx. specialize (Hok x Hx). lia.
Qed.

Lemma nolock_kept {A} l t (m : stm kst A) : nolock m → pres (kept l t) m.
Proof. intros H k. eapply slp_mono; [apply H|]. intros a k'. apply same_kept. Qed.
#[local] Hint Extern 2 (pres (kept _ _) _) => (apply nolock_kept; solve [auto with pres typeclass_instances]) : pres.
#[local] Hint Extern 1 (kept _ _ _ _) => (apply same_kept, same_locks_intro; reflexivity) : core.

(** A new object has an address that was not in use. *)
Lemma k_malloc_slp k (Q : Z → kst → Prop) :
  (∀ k', same_locks k k' → Q 0 k') →
  (∀ k', same_locks k k' → k_next k' = k_next k + 1 → Q (k_next k) k') →
  slp k_malloc k Q.
Proof.
  intros H0 H1. unfold k_malloc. apply slp_bind. eapply slp_mono.
  { intros b k1 Hb. assert (same_locks k k1 ∧ k_next k1 = k_next k) as Hk; [|exact Hk].
    revert Hb. unfold k_answer. destruct (k_mem k); intros [= <- <-]; by split; [apply same_locks_intro|]. }
  intros [] k1 [Hs Hn].
  - apply slp_bind, slp_gets, slp_bind, slp_modify, slp_ret. unfold id. rewrite Hn. apply H1; cbn; [|lia].
    destruct Hs. split; cbn; [done|lia].
  - by apply slp_ret, H0.
Qed.

Lemma lock_create_kept l t : pres (kept l t) (lock_create (E := E)).
Proof.
  intros k. unfold lock_create. apply slp_bind, k_malloc_slp; intros k1 Hs1.
  { apply slp_ret. by apply same_kept. }
  intros Hn1. destruct (k_next k =? 0); [by apply slp_ret, same_kept|].
  apply slp_bind, k_malloc_slp; intros k2 Hs2.
  { apply slp_ret, same_kept. by transitivity k1. }
  intros Hn2. destruct (k_next k1 =? 0).
  { apply slp_ret, same_kept. by transitivity k1. }
  apply slp_bind, slp_modify, slp_ret. assert (same_locks k k2) as [Hl Hn] by (by transitivity k1).
  intros Hok Hh. unfold locks_ok, holds in *. cbn. rewrite Hl. split.
  - intros x. rewrite lookup_insert_is_Some'. intros [<-|Hx]; [lia|]. specialize (Hok x Hx). lia.
  - rewrite lookup_insert_ne; [done|]. intros <-. specialize (Hok _ (mk_is_Some _ _ Hh)). lia.
Qed.

Lemma acquire_kept l t l' s : t ≠ 0 → pres (kept l t) (acquire_loop (C := C) l' s).
Proof.
  intros Ht k. unfold acquire_loop, get_lock, deref. apply slp_bind, slp_bind, slp_gets, slp_lift. unfold id.
  intros lk Hlk. destruct (k_locks k !! l') as [lk'|] eqn:E'; [|done]. injection Hlk as ->.
  destruct (Z.eqb_spec (lock_owner lk) 0) as [H0|H0]; cbn [negb].
  - apply slp_bind, slp_gets, slp_bind, slp_modify, slp_bind.
    eapply slp_mono; [apply (quiet_splx same_locks)|]. intros z k' Hs. apply slp_ret.
    etrans; [|apply same_kept; exact Hs]. intros Hok Hh. assert (l' ≠ l) as Hne.
    { intros ->. unfold holds in Hh. rewrite E' in Hh. injection Hh as ->. done. }
    unfold locks_ok, holds in *. cbn. split; [|by rewrite lookup_insert_ne].
    intros x. rewrite lookup_insert_is_Some'. intros [<-|Hx]; [|by apply Hok]. apply Hok. by rewrite E'.
  - apply slp_bind. eapply slp_mono; [apply (switch_thread_sleep same_locks)|]. intros ? k' Hs. by apply slp_ret, same_kept.
Qed.

(** Only the holder releases. *)
Lemma release_kept l t l' k :
  ¬ (cur k = t ∧ l' = l) → slp (lock_release l') k (λ _ k', kept l t k k').
Proof.
  intros Hno. unfold lock_release, get_lock, assert_ptr, splhigh, deref. apply slp_bind, slp_kassert. intros _.
  apply slp_bind. eapply (slp_mono _ _ (λ _ k1, same_locks k k1 ∧ cur k1 = cur k)).
  { intros z k1 H. split; [by apply (quiet_splx same_locks SPL_HIGH k z)|]. revert H. unfold splx. by intros [= <- <-]. }
  intros s k1 [Hs Hc]. apply slp_bind, slp_bind, slp_gets, slp_lift. unfold id.
  intros lk Hlk. destruct (k_locks k1 !! l') as [lk'|] eqn:E'; [|done]. injection Hlk as ->.
  apply slp_bind, slp_gets, slp_bind, slp_kassert. intros Heq%Z.eqb_eq. apply slp_bind, slp_modify, slp_bind.
  eapply slp_mono; [apply (quiet_thread_wakeup same_locks)|]. intros ? k3 Hs3. apply slp_bind.
  eapply slp_mono; [apply (quiet_splx same_locks)|]. intros ? k4 Hs4. apply slp_ret.
  transitivity k1; [by apply same_kept|]. etrans; [|apply same_kept; etrans; [exact Hs3|exact Hs4]].
  intros Hok Hh. assert (l' ≠ l) as Hne.
  { intros ->. apply Hno. unfold holds in Hh. rewrite E' in Hh. injection Hh as ->. cbn in Heq. split; [congruence|done]. }
  unfold locks_ok, holds in *. cbn. split; [|by rewrite lookup_insert_ne].
  intros x. rewrite lookup_insert_is_Some'. intros [<-|Hx]; [|by apply Hok]. apply Hok. by rewrite E'.
Qed.

Lemma nolock_k_malloc : nolock k_malloc.
Proof. intros k. by apply k_malloc_slp. Qed.
#[local] Hint Resolve nolock_k_malloc : pres.
Lemma nolock_sem_create n : nolock (sem_create n).
Proof. unfold sem_create, put_sem. pres_solve. Qed.
Lemma nolock_cv_create : nolock (cv_create (E := E)).
Proof. unfold cv_create. pres_solve. Qed.
#[local] Hint Resolve nolock_sem_create nolock_cv_create lock_create_kept acquire_kept : pres.

Lemma lock_acquire_kept l t l' : t ≠ 0 → pres (kept l t) (lock_acquire (C := C) l').
Proof. intros Ht. unfold lock_acquire, assert_ptr, splhigh. pres_solve. Qed.
#[local] Hint Resolve lock_acquire_kept : pres.

Lemma thread_create_kept l t : pres (kept l t) (thread_create (E := E)).
Proof. unfold thread_create, fill_slot, put_thread, splhigh. pres_solve. Qed.
#[local] Hint Resolve thread_create_kept : pres.

Lemma thread_fork_kept l t : pres (kept l t) (thread_fork (E := E)).
Proof.
  unfold thread_fork, fork_enter, fork_reserve, scheduler_preallocate, assert_spl, splhigh, free_thread, on_env, get_curthread,
    get_thread, put_thread, get_sleepers, get_zombies, get_runqueue, deref. pres_solve.
Qed.

(** ** The steps *)

(** The steps in which a thread can give up [l]: it releases it, waits with it,
    or is the menu's thread and at its end. *)
Definition gives_up (l : Z) (ev : event (C := C)) : Prop :=
  match ev with
  | LAct (ACall (OpRelease l')) => l' = l
  | LAct (ACall (OpWait _ l')) => l' = l
  | LFrame FExitMenu => True
  | _ => False
  end.

Lemma cv_wait_kept l t cv l' k :
  t ≠ 0 → ¬ (cur k = t ∧ l' = l) → slp (cv_wait (C := C) cv l') k (λ _ k', kept l t k k').
Proof.
  intros Ht Hno. unfold cv_wait, assert_ptr, splhigh. do 2 (apply slp_bind, slp_kassert; intros _). apply slp_bind.
  eapply (slp_mono _ _ (λ _ k1, same_locks k k1 ∧ cur k1 = cur k)).
  { intros z k1 H. split; [by apply (quiet_splx same_locks SPL_HIGH k z)|]. revert H. unfold splx. by intros [= <- <-]. }
  intros s k1 [Hs Hc]. apply slp_bind. eapply slp_mono; [apply release_kept; by rewrite Hc|]. intros ? k2 Hk2.
  apply slp_bind. eapply slp_mono; [apply (switch_thread_sleep same_locks)|]. intros ? k3 Hs3. apply slp_ret.
  transitivity k1; [by apply same_kept|]. transitivity k2; [done|by apply same_kept].
Qed.

Lemma call_slp {A} (m : stm kst A) k (Q : kst → Prop) :
  slp m k (λ _ k', Q k') → slp (call (C := C) m) k (λ _ k', Q k').
Proof. intros H. unfold call. apply slp_bind. eapply slp_mono; [exact H|]. intros a k' HQ. by apply slp_ret. Qed.

Lemma exec_op_kept l t o k :
  t ≠ 0 → (cur k = t → ¬ gives_up l (LAct (ACall o))) →
  slp (exec_op (C := C) o) k (λ _ k', kept l t k k').
Proof.
  intros Ht Hno. destruct o; cbn [exec_op];
    try (apply release_kept || (apply call_slp, release_kept) || (apply cv_wait_kept; [done|]); intros [? ?]; by apply Hno).
  all: match goal with |- slp ?m _ _ => assert (pres (kept l t) m) as H; [|apply H] end.
  all: unfold call, P, Pcat, Pmouse, Vcat, Vmouse, cv_signal, cv_broadcast, clocksleep, assert_ptr, assert_thread, splhigh,
    get_thread, put_thread, get_sem, put_sem, deref; pres_solve.
Qed.

Lemma resume_kept l t f k :
  t ≠ 0 → (cur k = t → ¬ gives_up l (LFrame f)) → slp (resume (C := C) f) k (λ _ k', kept l t k k').
Proof.
  intros Ht Hno. destruct f as [| | | | | | | | | |n|[|n]| | | |]; cbn [resume].
  all: match goal with |- slp (_ ≫= λ k, cv_broadcast _ _;; _) _ _ => idtac | |- slp ?m _ _ => assert (pres (kept l t) m) as H; [|apply H] end.
  all: try (unfold thread_sleep_end, irq_end, mi_threadstart, thread_exit, splhigh, spl0, get_curthread, get_thread, put_thread,
    on_env, deref; by pres_solve).
  apply slp_bind, slp_gets. unfold id. apply slp_bind. eapply (slp_mono _ _ (λ _ k1, same_locks k k1 ∧ same_cur k k1)).
  { intros z k1 H. split; eapply quiet_cv_broadcast; (exact H || apply _). }
  intros _ k1 [Hs Hc]. apply slp_bind. eapply slp_mono; [apply (release_kept l t); rewrite Hc; intros [? ?]; by apply Hno|].
  intros ? k2 Hk2. eapply slp_mono; [apply (switch_exit_rest same_locks)|]. intros ? k3 Hs3.
  transitivity k1; [by apply same_kept|]. transitivity k2; [done|by apply same_kept].
Qed.

Definition not_given_up (l t : Z) (lab : label (C := C)) : Prop := lab.1 = t → ¬ gives_up l lab.2.

Lemma kstep_kept client cf lab cf' l t :
  t ≠ 0 → kstep client cf lab cf' → not_given_up l t lab → kept l t (cf_k cf) (cf_k cf').
Proof.
  intros Ht Hst Hno. destruct Hst as [k st f fr fs k' _ _ Hr|k st c c' o fr fs k' _ _ Hr|k st c c' n cn fr r p k' _ _ Hr|
    k st c c' fr _ _|k st i fr fs k' _ _ Hr]; cbn in *.
  - by apply (resume_kept l t f k Ht Hno fs).
  - by apply (exec_op_kept l t o k Ht Hno fs).
  - by apply (thread_fork_kept l t k (r, p)).
  - done.
  - by apply same_kept, (nolock_mips_interrupt i k fs).
Qed.

Lemma ksteps_kept client cf ls cf' l t :
  t ≠ 0 → ksteps client cf ls cf' → Forall (not_given_up l t) ls → kept l t (cf_k cf) (cf_k cf').
Proof.
  intros Ht. induction 1 as [|cf lab cf1 ls cf2 Hst _ IH]; [done|]. intros [Hno Hls]%Forall_cons_1.
  transitivity (cf_k cf1); [by eapply kstep_kept|by apply IH].
Qed.

(** [acquire_loop] comes to its end only with the lock in hand. *)
Lemma acquire_holds l s k :
  locks_ok k → slp (acquire_loop (C := C) l s) k (λ fs k', fs = [] → locks_ok k' ∧ holds k' l (cur k)).
Proof.
  intros Hok. unfold acquire_loop, get_lock, deref. apply slp_bind, slp_bind, slp_gets, slp_lift. unfold id.
  intros lk Hlk. destruct (k_locks k !! l) as [lk'|] eqn:El; [|done].
  destruct (lock_owner lk =? 0); cbn [negb].
  - apply slp_bind, slp_gets, slp_bind, slp_modify, slp_bind.
    eapply slp_mono; [apply (quiet_splx same_locks)|]. intros z k' [Hl Hn]. apply slp_ret. intros _.
    unfold locks_ok, holds. rewrite Hl. cbn in *. rewrite lookup_insert_eq. split; [|done].
    intros x. rewrite lookup_insert_is_Some'. intros [<-|Hx]; [|apply Hok in Hx; lia].
    assert (l < k_next k) by (apply Hok; by rewrite El). lia.
  - apply slp_bind. intros ? k' _. by apply slp_ret.
Qed.

(** Nobody gets a lock that is held, and only the holder can release it. *)
Lemma holds_exclusive l t k :
  holds k l t → t ≠ 0 →
  (∀ s fs k', acquire_loop (C := C) l s k = Done (fs, k') → fs = [FSwitch; FSleep; FAcquire l s]) ∧
  (l ≠ 0 → cur k ≠ t → lock_release l k = Panic) ∧
  (l ≠ 0 → lock_do_i_hold l k = Done (if cur k =? t then 1 else 0, k)).
Proof.
  intros Hh Ht. unfold holds in Hh. split_and!.
  - intros s. change (slp (acquire_loop (C := C) l s) k (λ fs _, fs = [FSwitch; FSleep; FAcquire l s])).
    unfold acquire_loop, get_lock, deref. apply slp_bind, slp_bind, slp_gets, slp_lift. unfold id. rewrite Hh.
    intros _ [= <-]. cbn. rewrite (proj2 (Z.eqb_neq _ _) Ht). apply slp_bind. intros ? ? _. by apply slp_ret.
  - intros Hl Hc. unfold lock_release, assert_ptr. rewrite (proj2 (Z.eqb_neq _ _) Hl).
    cbv -[k_locks cur lookup thread_wakeup Z.eqb]. change (k_locks _ !! l) with (k_locks k !! l). rewrite Hh.
    change (cur _) with (cur k). by rewrite (proj2 (Z.eqb_neq (cur k) t) Hc).
  - intros Hl. unfold lock_do_i_hold, assert_ptr. rewrite (proj2 (Z.eqb_neq _ _) Hl).
    cbv -[k_locks cur lookup Z.eqb]. change (k_locks _ !! l) with (k_locks k !! l). by rewrite Hh, Z.eqb_sym.
Qed.
End locks.

(** [C3] Mutual exclusion: when [lock_acquire] comes to its end, the calling
    thread holds the lock; it still holds it after any execution, whatever the
    other threads and the interrupts do, in which it does not itself release
    it, wait with it on a condition variable, or end as the menu's thread.  As
    long as it holds it, every [lock_acquire] of the lock goes to sleep,
    [lock_release] by another thread panics, and [lock_do_i_hold] is true of
    this thread alone. *)
Theorem lock_mutual_exclusion {E : Type} `{!KEnv E} {C : Type} (client : kstate E → C → action → C → Prop)
    (l s : Z) (k k1 : kstate E) st ls cf :
  locks_ok k → cur k ≠ 0 → l ≠ 0 →
  acquire_loop (C := C) l s k = Done ([], k1) →
  ksteps client (mkCfg k1 st) ls cf → Forall (not_given_up l (cur k)) ls →
  holds (cf_k cf) l (cur k) ∧
  (∀ s' fs k', acquire_loop (C := C) l s' (cf_k cf) = Done (fs, k') → fs = [FSwitch; FSleep; FAcquire l s']) ∧
  (cur (cf_k cf) ≠ cur k → lock_release l (cf_k cf) = Panic) ∧
  lock_do_i_hold l (cf_k cf) = Done (if cur (cf_k cf) =? cur k then 1 else 0, cf_k cf).
Proof.
  intros Hok Hc Hl Ha Hs Hno. destruct (acquire_holds l s k Hok [] k1 Ha eq_refl) as [Hok1 Hh].
  destruct (ksteps_kept client _ ls cf l (cur k) Hc Hs Hno Hok1 Hh) as [_ Hh'].
  destruct (holds_exclusive (C := C) l (cur k) (cf_k cf) Hh' Hc) as (Ha' & Hr & Hd). split_and!; auto.
Qed.

(** A thread takes a lock and yields to another one that wants it too. *)
Definition lock_demo (l : Z) : script :=
  SCall OpLockCreate (SFork (SCall (OpAcquire l) SEnd) (SCall (OpAcquire l) (SCall OpYield SEnd))).
Definition lock_demo_at (n : nat) : config :=
  from_option snd (started SEnd) (exec script_next (started (lock_demo 11)) (replicate n None)).
Definition lock_demo_taken : kstate unit :=
  match acquire_loop (C := script) 11 0 (cf_k (lock_demo_at 2)) with Done (_, k) => k | _ => kernel0 end.
Definition lock_demo_end : list (label (C := script)) * config :=
  from_option id ([], started SEnd)
    (exec script_next (mkCfg lock_demo_taken (cf_st (lock_demo_at 3))) (replicate 6 None)).

Definition quiet_label (lab : label (C := script)) : bool :=
  match lab.2 with LAct (ACall (OpRelease _)) | LAct (ACall (OpWait _ _)) | LFrame FExitMenu => false | _ => true end.

Lemma lock_mutual_exclusion_witness :
  let k := cf_k (lock_demo_at 2) in
  let cf := lock_demo_end.2 in
  holds (cf_k cf) 11 (cur k) ∧
  (∀ s' fs k', acquire_loop (C := script) 11 s' (cf_k cf) = Done (fs, k') → fs = [FSwitch; FSleep; FAcquire 11 s']) ∧
  (cur (cf_k cf) ≠ cur k → lock_release 11 (cf_k cf) = Panic) ∧
  lock_do_i_hold 11 (cf_k cf) = Done (if cur (cf_k cf) =? cur k then 1 else 0, cf_k cf).
Proof.
  intros k cf.
  apply (lock_mutual_exclusion (client_of script_next) 11 0 k lock_demo_taken (cf_st (lock_demo_at 3)) lock_demo_end.1).
  - intros l [x Hx]. assert (map_Forall (λ l _, l < k_next k) (k_locks k)) as H.
    { apply map_Forall_to_list. vm_compute. repeat constructor. }
    by apply (H l x).
  - by vm_compute.
  - done.
  - by vm_compute.
  - apply exec_sound with (iv := replicate 6 None). by vm_compute.
  - assert (forallb quiet_label lock_demo_end.1 = true) as Hq by by vm_compute.
    apply Forall_forall. intros lab Hin _ Hg. apply list_elem_of_In in Hin.
    apply (proj1 (forallb_forall _ _) Hq) in Hin. destruct lab as [t [[]|[[]| |]|]]; done.
Defined.
