(* ===== verification/ThreadInv.v ===== *)
(** * The thread lists

    What the run queue, the sleepers and the zombies hold in every state the
    kernel can reach, and what waking, switching and forking do to them. *)

From S2P Require Import Prelude Array Queue Thread Synch KPres SynchLock.

(** ** Waking sleepers, on lists *)

Section wake.
Context (P : Z → Prop) `{!∀ x, Decision (P x)}.

(** Who is woken, and who stays asleep: all that satisfy [P], or the first. *)
Fixpoint woken (one : bool) (l : list Z) : list Z :=
  match l with
  | [] => []
  | x :: l' => if decide (P x) then x :: (if one then [] else woken one l') else woken one l'
  end.
Fixpoint asleep (one : bool) (l : list Z) : list Z :=
  match l with
  | [] => []
  | x :: l' => if decide (P x) then (if one then l' else asleep one l') else x :: asleep one l'
  end.

Lemma woken_all l : woken false l = filter P l.
Proof. induction l as [|x l IH]; [done|]. rewrite filter_cons. cbn. by destruct (decide (P x)); rewrite IH. Qed.
Lemma asleep_all l : asleep false l = filter (λ x, ¬ P x) l.
Proof.
  induction l as [|x l IH]; [done|]. rewrite filter_cons. cbn.
  destruct (decide (P x)), (decide (¬ P x)); rewrite ?IH; done || by exfalso.
Qed.
Lemma woken_asleep one l : l ≡ₚ woken one l ++ asleep one l.
Proof.
  induction l as [|x l IH]; [done|]. cbn. destruct (decide (P x)).
  - destruct one; [done|]. cbn. by rewrite <-IH.
  - by rewrite <-Permutation_middle, <-IH.
Qed.
Lemma asleep_sub one l x : x ∈ asleep one l → x ∈ l.
Proof. intros. rewrite (woken_asleep one l). apply elem_of_app. by right. Qed.
Lemma woken_P one l x : x ∈ woken one l → P x.
Proof.
  induction l as [|y l IH]; cbn; [by intros ?%elem_of_nil|]. destruct (decide (P y)); [|done].
  intros [->|Hx]%elem_of_cons; [done|]. destruct one; [by apply elem_of_nil in Hx|auto].
Qed.
Lemma asleep_all_not l x : x ∈ asleep false l → ¬ P x.
Proof. rewrite asleep_all. by intros [? ?]%list_elem_of_filter. Qed.
Lemma woken_one l : (length (woken true l) ≤ 1)%nat.
Proof. induction l as [|x l IH]; cbn; [lia|]. destruct (decide (P x)); cbn; [lia|done]. Qed.
Lemma woken_none l one : filter P l = [] → woken one l = [] ∧ asleep one l = l.
Proof.
  induction l as [|x l IH]; [done|]. rewrite filter_cons. cbn. destruct (decide (P x)); [done|].
  intros [-> ->]%IH. done.
Qed.
Lemma woken_first l w l' :
  filter P l = w :: l' → ∃ l1 l2, l = l1 ++ w :: l2 ∧ (w ∉ l1) ∧ woken true l = [w] ∧ asleep true l = l1 ++ l2.
Proof.
  induction l as [|x l IH]; [done|]. rewrite filter_cons. cbn. destruct (decide (P x)) as [Hx|Hx].
  - intros [= <- _]. exists [], l. split_and!; [done|by intros ?%elem_of_nil|done..].
  - intros Hf. destruct (IH Hf) as (l1 & l2 & -> & Hw & -> & ->). exists (x :: l1), l2. split_and!; try done.
    intros [->|?]%elem_of_cons; [|done]. apply Hx. assert (x ∈ filter P (l1 ++ x :: l2)) as Hin by (rewrite Hf; by left).
    by apply list_elem_of_filter in Hin as [? _].
Qed.
End wake.

Section lists.
Context {E : Type} `{!KEnv E}.
Abbreviation kst := (kstate E).

(** A kernel that differs in its lists and in the allocator's answers. *)
Definition relist (l : lists) (m : list bool) (k : kst) : kst := set_lists l (set_alloc (k_next k) m k).

Lemma relist_relist l m l' m' k : relist l m (relist l' m' k) = relist l m k.
Proof. done. Qed.
Lemma relist_same k : relist (k_lists k) (k_mem k) k = k.
Proof. by destruct k. Qed.

Definition sleeps_on (k : kst) (addr p : Z) : Prop := t_sleepaddr <$> k_threads k !! p = Some addr.
#[export] Instance sleeps_on_dec k addr p : Decision (sleeps_on k addr p).
Proof. unfold sleeps_on. apply _. Defined.

Definition has_thread (k : kst) (p : Z) : Prop := is_Some (k_threads k !! p).

(** Lists short enough for the counters of arrays and queues. *)
Definition short (R S : list Z) : Prop := Z.of_nat (length R + length S) < 536870900.

Lemma k_answer_swp k (Q : bool → kst → Prop) :
  (∀ b m, Q b (set_alloc (k_next k) m k)) → swp k_answer k Q.
Proof.
  intros H. unfold k_answer, swp. destruct (k_mem k) as [|b m] eqn:Em; cbn; [|apply H].
  specialize (H false (k_mem k)). by destruct k.
Qed.

Lemma make_runnable_swp k l q R p :
  k_lists k = l → runqueue l = Some q → queue_repr q R → spl k > 0 → Z.of_nat (length R) < 536870910 →
  swp (make_runnable p) k (λ r k', ∃ q' m,
    k' = relist (mkLists (sleepers l) (zombies l) (Some q') (numthreads l)) m k ∧ q_size q ≤ q_size q' ∧
    (r = 0 ∧ queue_repr q' (R ++ [p]) ∨ r = ENOMEM ∧ q_size q ≤ Z.of_nat (length R) + 1 ∧ queue_repr q' R)).
Proof.
  intros Hl Hq Hr Hs Hlen. unfold make_runnable, assert_spl, get_runqueue, deref.
  apply swp_bind, swp_bind, swp_gets, swp_kassert; [unfold id; lia|].
  apply swp_bind, swp_bind, swp_gets. unfold id. rewrite Hl, Hq. apply swp_lift. cbn [wp].
  apply swp_bind, k_answer_swp. intros b m. apply swp_bind, swp_lift.
  eapply wp_mono; [by apply q_addtail_short_wp|]. intros [r q'] Hq'. apply swp_bind, swp_modify, swp_ret.
  exists q', m. split; [unfold relist, set_runqueue; cbn; by rewrite Hl|].
  unfold room_for in Hq'. case_bool_decide; [|destruct b]; cbn in Hq'.
  - destruct Hq' as (-> & ? & ?). split; [lia|]. by left.
  - destruct Hq' as (-> & ? & ?). split; [lia|]. by left.
  - destruct Hq' as [-> ->]. split; [lia|]. right. split_and!; [done|lia|done].
Qed.

(** The sleepers and the run queue of a kernel. *)
Definition queues (l : lists) (R S : list Z) : Prop :=
  ∃ q a, runqueue l = Some q ∧ sleepers l = Some a ∧ queue_repr q R ∧ array_repr a S.

(** What waking threads does to the lists: from [R] and [S] to [R'] and [S']. *)
Definition rewoken (k k' : kst) (R S : list Z) : Prop :=
  ∃ l m, k' = relist l m k ∧ queues l R S ∧ zombies l = zombies (k_lists k) ∧ numthreads l = numthreads (k_lists k).

Lemma rewoken_trans k1 k2 k3 R S R' S' : rewoken k1 k2 R S → rewoken k2 k3 R' S' → rewoken k1 k3 R' S'.
Proof.
  intros (l & m & -> & _ & Hz & Hn) (l' & m' & -> & Hq & Hz' & Hn'). exists l', m'. cbn in *.
  split_and!; [done|done|congruence|congruence].
Qed.

(** The size of the run queue, 0 when there is none. *)
Definition rq_size (k : kst) : Z := from_option q_size 0 (runqueue (k_lists k)).

Lemma wake_at_spec Pk addr k R S i p :
  queues (k_lists k) R S → spl k > 0 → short R S → S !! i = Some p → has_thread k p →
  (sleeps_on k addr p → rq_size k ≤ Z.of_nat (length R) + 1 → Pk) →
  swpp Pk (wake_at addr (Z.of_nat i)) k (λ b k',
    if (b : bool) then sleeps_on k addr p ∧ rewoken k k' (R ++ [p]) (delete i S) ∧ rq_size k ≤ rq_size k'
    else ¬ sleeps_on k addr p ∧ k' = k).
Proof.
  intros (q & a & Hq & Ha & Hqr & Har) Hs Hsh Hi [t Ht] HPk. unfold short in Hsh.
  unfold wake_at, get_sleepers, get_thread, deref. apply swpp_bind, swpp_bind, swpp_gets. unfold id. rewrite Ha.
  apply swpp_lift; cbn [wp]. apply swpp_bind, swpp_lift. rewrite (array_getguy_eq a S i p Har Hi). cbn [wp].
  apply swpp_bind, swpp_bind, swpp_gets. unfold id. rewrite Ht. apply swpp_lift; cbn [wp].
  assert (sleeps_on k addr p ↔ t_sleepaddr t = addr) as Hon.
  { unfold sleeps_on. rewrite Ht. cbn. split; congruence. }
  destruct (Z.eqb_spec (t_sleepaddr t) addr) as [He|He]; [|apply swpp_ret; by rewrite Hon].
  apply swpp_bind, swpp_lift. eapply wp_mono; [apply array_remove_wp; [done|by eapply lookup_lt_Some]|].
  intros a' [_ Ha']. apply swpp_bind, swpp_modify, swpp_bind, swpp_swp.
  eapply swp_mono; [eapply make_runnable_swp; [done|exact Hq|exact Hqr|done|lia]|].
  cbn. intros r k' (q' & m & -> & Hle & Hr). apply swpp_bind, swpp_kassert.
  - intros Hr0%Z.eqb_eq. apply swpp_ret. destruct Hr as [[_ Hq']|[-> _]]; [|done]. split_and!; [by apply Hon| |].
    + eexists _, m. split_and!; [reflexivity| |done|done]. by exists q', a'.
    + unfold rq_size. cbn. by rewrite Hq.
  - intros Hr0%Z.eqb_neq. destruct Hr as [[-> _]|(_ & Hfull & _)]; [done|]. apply HPk; [by apply Hon|].
    unfold rq_size. by rewrite Hq.
Qed.

(** The loop over the sleepers from index [|pre|] on. *)
Lemma wakeup_from_spec Pk one addr fuel k R pre post :
  queues (k_lists k) R (pre ++ post) → spl k > 0 → short R (pre ++ post) →
  (∀ p, p ∈ post → has_thread k p) → (length post ≤ fuel)%nat →
  (rq_size k ≤ Z.of_nat (length R + length (woken (sleeps_on k addr) one post)) → Pk) →
  swpp Pk (wakeup_from fuel one addr (Z.of_nat (length pre))) k (λ _ k',
    rewoken k k' (R ++ woken (sleeps_on k addr) one post) (pre ++ asleep (sleeps_on k addr) one post)).
Proof.
  revert k R pre post. induction fuel as [|fuel IH]; intros k R pre post Hq Hs Hsh Hth Hf HPk.
  all: pose proof Hq as (q & a & Hrq & Ha & Hqr & Har); pose proof (array_repr_num _ _ Har) as Hnum.
  all: cbn [wakeup_from]; unfold get_sleepers, deref; apply swpp_bind, swpp_bind, swpp_gets; unfold id; rewrite Ha;
    apply swpp_lift; cbn [wp]; unfold array_getnum; rewrite Hnum, length_app.
  all: destruct post as [|p post]; [rewrite (proj2 (Z.ltb_ge _ _)) by (cbn; lia); apply swpp_ret;
    exists (k_lists k), (k_mem k); rewrite relist_same, app_nil_r; by split_and!|].
  { cbn in Hf. lia. }
  rewrite (proj2 (Z.ltb_lt _ _)) by (cbn; lia). assert ((pre ++ p :: post) !! length pre = Some p) as Hp by (by apply list_lookup_middle).
  apply swpp_bind. eapply swpp_mono.
  { apply (wake_at_spec Pk addr k R (pre ++ p :: post) (length pre) p); try done; [apply Hth; set_solver|].
    intros Hon Hle. apply HPk. cbn. rewrite decide_True by done. cbn. lia. }
  intros b k1. rewrite delete_middle. cbn [woken asleep]. destruct b.
  - intros (Hon & Hrw & Hle). rewrite !decide_True by done. destruct one; cbn; [by apply swpp_ret|].
    destruct Hrw as (l & m & -> & Hql & Hz & Hn). eapply swpp_mono.
    + apply (IH (relist l m k) (R ++ [p]) pre post); try done.
      * unfold short in *. rewrite !length_app in *. cbn in *. lia.
      * intros p' Hp'. apply Hth. set_solver.
      * cbn in Hf. lia.
      * change (rq_size (relist l m k) ≤ Z.of_nat (length (R ++ [p]) + length (woken (sleeps_on k addr) false post)) → Pk).
        intros Hle'. apply HPk. cbn [woken]. rewrite decide_True by done. rewrite length_app in Hle'. cbn in *. lia.
    + intros [] k2 Hk2. rewrite <-app_assoc in Hk2. eapply rewoken_trans; [|exact Hk2]. by exists l, m.
  - intros [Hon ->]. rewrite !decide_False by done. cbn.
    replace (Z.of_nat (length pre) + 1) with (Z.of_nat (length (pre ++ [p]))) by (rewrite length_app; cbn; lia).
    rewrite (cons_middle p pre post) in *. rewrite (cons_middle p pre (asleep _ _ _)). rewrite app_assoc in *.
    apply IH; try done; [intros; apply Hth; set_solver|cbn in Hf; lia|]. intros Hle. apply HPk.
    cbn [woken]. by rewrite decide_False by done.
Qed.

(** [thread_wakeup] and [thread_onewakeup] on a kernel with interrupts off. *)
Definition wakeup (one : bool) (addr : Z) : stm kst unit :=
  if one then thread_onewakeup addr else thread_wakeup addr.

Lemma wakeup_spec Pk one addr k R S :
  queues (k_lists k) R S → spl k > 0 → short R S → (∀ p, p ∈ S → has_thread k p) →
  (rq_size k ≤ Z.of_nat (length R + length (woken (sleeps_on k addr) one S)) → Pk) →
  swpp Pk (wakeup one addr) k (λ _ k',
    rewoken k k' (R ++ woken (sleeps_on k addr) one S) (asleep (sleeps_on k addr) one S)).
Proof.
  intros Hq Hs Hsh Hth HPk. pose proof Hq as (q & a & Hrq & Ha & Hqr & Har).
  assert (swpp Pk (assert_spl;; a ← get_sleepers; wakeup_from (Z.to_nat (array_getnum a)) one addr 0) k (λ _ k',
    rewoken k k' (R ++ woken (sleeps_on k addr) one S) (asleep (sleeps_on k addr) one S))) as H.
  { unfold assert_spl, get_sleepers, deref. apply swpp_bind, swpp_bind, swpp_gets.
    apply swpp_kassert; [intros _|unfold id; lia]. apply swpp_bind, swpp_bind, swpp_gets. unfold id. rewrite Ha.
    apply swpp_lift; cbn [wp]. unfold array_getnum. rewrite (array_repr_num _ _ Har).
    by apply (wakeup_from_spec Pk one addr _ k R [] S); [| | | |lia|]. }
  by destruct one.
Qed.
End lists.
