(* ===== verification/ThreadStep.v ===== *)
(** * The invariant of the thread system

    Every live thread is the current one, or in the run queue, or asleep, and
    in one of these only; a thread asleep in [P] or [lock_acquire] has
    something to wait for.  Every step of every execution keeps this. *)

From S2P Require Import Prelude Array Queue Thread Synch KPres SynchLock ThreadInv.

Section inv.
Context {E : Type} `{!KEnv E} {C : Type}.
Abbreviation kst := (kstate E).
Abbreviation frames := (list (frame C)).

(** ** Definitions *)

(** The frames a thread starts with when it is dispatched. *)
Definition starts (f : frame C) : bool :=
  match f with FSwitch | FStart _ => true | _ => false end.

(** The frames below them; an interrupt came while interrupts were on. *)
Definition calm (f : frame C) : Prop :=
  starts f = false ∧ match f with FIrq _ s => s ≤ 0 | _ => True end.

(** What a sleeping thread waits for, by the code it sleeps in. *)
Definition waits (k : kst) (f : frame C) (addr : Z) : Prop :=
  match f with
  | FP s _ => addr = s ∧ ∃ sm, k_sems k !! s = Some sm ∧ sem_count sm = 0
  | FAcquire l _ => addr = l ∧ ∃ lk, k_locks k !! l = Some lk ∧ lock_owner lk ≠ 0
  | FPcat s _ _ | FPmouse s _ _ => addr = s
  | FCvWait _ _ => True
  | FClock _ _ => addr = lbolt
  | _ => False
  end.

(** The wait of those who sleep on [o] may be over. *)
Definition sleeping (o : option Z) (k : kst) (st : gmap Z frames) (t : Z) : Prop :=
  ∃ f fr th, st !! t = Some (FSwitch :: FSleep :: f :: fr) ∧ Forall calm (f :: fr) ∧
    k_threads k !! t = Some th ∧ (o = Some (t_sleepaddr th) ∨ waits k f (t_sleepaddr th)).

Definition ready (k : kst) (st : gmap Z frames) (t : Z) : Prop :=
  has_thread k t ∧ ∃ f fr, st !! t = Some (f :: fr) ∧ starts f = true ∧ Forall calm fr.

Definition slots (tb : list process) : nat := length (filter (λ e, occupied e ≠ 0) tb).

Definition live (k : kst) : nat := if decide (cur k = 0) then 0 else 1.

(** [x] threads besides the listed ones are counted in [numthreads]. *)
Record inv (o : option Z) (k : kst) (st : gmap Z frames) (x : Z) (R S Zl : list Z) : Prop := {
  inv_queues : queues (k_lists k) R S;
  inv_zombies : ∃ z, zombies (k_lists k) = Some z ∧ array_repr z Zl;
  inv_nodup : NoDup (cur k :: R ++ S ++ Zl);
  inv_zero : 0 ∉ R ++ S ++ Zl;
  inv_cur : cur k ≠ 0 → has_thread k (cur k);
  inv_num : numthreads (k_lists k) = x + Z.of_nat (length R + length S);
  inv_sleeping : ∀ t, t ∈ S → sleeping o k st t;
  inv_ready : ∀ t, t ∈ R → ready k st t;
  inv_fresh : ∀ p, has_thread k p ∨ is_Some (k_sems k !! p) ∨ is_Some (k_locks k !! p) ∨ p ∈ R ++ S ++ Zl ∨ p ≤ 0 →
    p < k_next k;
  inv_slots : length (k_table k) = 128%nat ∧ (live k + length (R ++ S ++ Zl) ≤ slots (k_table k))%nat;
  inv_ie : spl k > 0 → c_ie (k_cpu k) = false;
}.

(** ** Changes of the state that keep it *)

(** [x ≠ y] because one is on a list and the other is not. *)
Ltac notin :=
  intros ->; match goal with H : _ ∉ _ |- _ => apply H; rewrite ?elem_of_app; tauto end.

Lemma slots_le tb : (slots tb ≤ length tb)%nat.
Proof. apply length_filter. Qed.

Lemma inv_short o k st x R S Zl : inv o k st x R S Zl → Z.of_nat (length R + length S + length Zl) ≤ 128.
Proof.
  intros Hi. destruct (inv_slots _ _ _ _ _ _ _ Hi) as [Hl Hs]. pose proof (slots_le (k_table k)).
  rewrite !length_app in Hs. lia.
Qed.

Lemma inv_has_thread o k st x R S Zl t : inv o k st x R S Zl → t ∈ R ∨ t ∈ S → has_thread k t.
Proof.
  intros Hi [Ht|Ht].
  - by apply (inv_ready _ _ _ _ _ _ _ Hi).
  - destruct (inv_sleeping _ _ _ _ _ _ _ Hi t Ht) as (f & fr & th & _ & _ & Hth & _). by exists th.
Qed.

(** The stack of a thread on no list does not matter. *)
Lemma inv_stack o k st x R S Zl t fs : inv o k st x R S Zl → t ∉ R ++ S ++ Zl → inv o k (<[t := fs]> st) x R S Zl.
Proof.
  intros [] Ht. split; try done.
  - intros t' Ht'. destruct (inv_sleeping0 t' Ht') as (f & fr & th & ? & ? & ? & ?). exists f, fr, th.
    rewrite lookup_insert_ne by notin. done.
  - intros t' Ht'. destruct (inv_ready0 t' Ht') as (? & f & fr & ? & ? & ?). split; [done|]. exists f, fr.
    rewrite lookup_insert_ne by notin. done.
Qed.

Lemma inv_stack_cur o k st x R S Zl fs : inv o k st x R S Zl → inv o k (<[cur k := fs]> st) x R S Zl.
Proof. intros Hi. apply inv_stack; [done|]. pose proof (inv_nodup _ _ _ _ _ _ _ Hi) as Hn. by apply NoDup_cons in Hn as [? _]. Qed.

(** Nothing but the processor's state, the process table's other fields, the
    menu, the environment or the allocator's answers has changed. *)
Definition same_but_cpu (k k' : kst) : Prop :=
  k_lists k' = k_lists k ∧ k_threads k' = k_threads k ∧ k_table k' = k_table k ∧ k_sems k' = k_sems k ∧
  k_locks k' = k_locks k ∧ k_next k' = k_next k ∧ cur k' = cur k.

Lemma inv_same o k k' st x R S Zl :
  inv o k st x R S Zl → same_but_cpu k k' → (spl k' > 0 → c_ie (k_cpu k') = false) → inv o k' st x R S Zl.
Proof.
  intros [] (Hl & Ht & Htb & Hs & Hlk & Hn & Hc) Hie. unfold live, sleeping, ready, waits, has_thread in *.
  split; unfold sleeping, ready, waits, live, has_thread; rewrite ?Hl, ?Ht, ?Htb, ?Hs, ?Hlk, ?Hn, ?Hc; done.
Qed.

Ltac inv_same Hi :=
  eapply inv_same; [exact Hi|done|first [done | apply (inv_ie _ _ _ _ _ _ _ Hi)]].

(** A thread's fields. *)
Lemma inv_put_thread o k st x R S Zl p th :
  inv o k st x R S Zl → p < k_next k →
  (p ∈ S → ∀ th', k_threads k !! p = Some th' → t_sleepaddr th = t_sleepaddr th') →
  inv o (set_threads (<[p := th]> (k_threads k)) k) st x R S Zl.
Proof.
  intros [] Hp HpS.
  assert (∀ t, has_thread (set_threads (<[p := th]> (k_threads k)) k) t ↔ p = t ∨ has_thread k t) as Hh.
  { intros t. unfold has_thread. cbn. by rewrite lookup_insert_is_Some'. }
  split; try done.
  - intros Hc. apply Hh. auto.
  - intros t Ht. destruct (inv_sleeping0 t Ht) as (f & fr & th' & ? & ? & Hth & Hw).
    destruct (decide (p = t)) as [->|Hne].
    + exists f, fr, th. cbn. rewrite lookup_insert_eq. rewrite (HpS Ht th' Hth). done.
    + exists f, fr, th'. cbn. by rewrite lookup_insert_ne.
  - intros t Ht. destruct (inv_ready0 t Ht) as [? ?]. split; [apply Hh; auto|done].
  - intros t. rewrite Hh. intros [[<-|?]|?]; [done|apply inv_fresh0; auto..].
Qed.

Lemma thread_next o k st x R S Zl p th : inv o k st x R S Zl → k_threads k !! p = Some th → p < k_next k.
Proof. intros Hi Hp. apply (inv_fresh _ _ _ _ _ _ _ Hi). left. by exists th. Qed.

(** A thread that is on no list goes away. *)
Lemma inv_delete_thread o k st x R S Zl p :
  inv o k st x R S Zl → p ∉ R ++ S → p ≠ cur k → inv o (set_threads (delete p (k_threads k)) k) st x R S Zl.
Proof.
  intros [] HpS Hpc.
  assert (∀ t, has_thread (set_threads (delete p (k_threads k)) k) t ↔ p ≠ t ∧ has_thread k t) as Hh.
  { intros t. unfold has_thread. cbn. by rewrite lookup_delete_is_Some. }
  split; try done.
  - intros Hc. apply Hh. auto.
  - intros t Ht. destruct (inv_sleeping0 t Ht) as (f & fr & th' & ? & ? & ? & ?). exists f, fr, th'.
    cbn. rewrite lookup_delete_ne by notin. done.
  - intros t Ht. destruct (inv_ready0 t Ht) as [? ?]. split; [apply Hh; split; [notin|done]|done].
  - intros t. rewrite Hh. intros [[_ ?]|?]; apply inv_fresh0; auto.
Qed.

(** ** Semaphores and locks *)

Lemma inv_sem_over k st x R S Zl p sm :
  inv None k st x R S Zl → is_Some (k_sems k !! p) →
  inv (Some p) (set_sems (<[p := sm]> (k_sems k)) k) st x R S Zl.
Proof.
  intros [] Hp. split; try done.
  - intros t Ht. destruct (inv_sleeping0 t Ht) as (f & fr & th & ? & ? & ? & [?|Hw]); [done|].
    exists f, fr, th. split_and!; [done..|]. destruct f; try (by right). destruct Hw as [Ha Hw]. cbn.
    destruct (decide (sem = p)) as [->|Hne]; [left; congruence|right]. by rewrite lookup_insert_ne.
  - intros t. cbn. rewrite lookup_insert_is_Some'. intros [?|[[<-|?]|?]]; apply inv_fresh0; auto.
Qed.

Lemma inv_lock_over k st x R S Zl p lk :
  inv None k st x R S Zl → is_Some (k_locks k !! p) →
  inv (Some p) (set_locks (<[p := lk]> (k_locks k)) k) st x R S Zl.
Proof.
  intros [] Hp. split; try done.
  - intros t Ht. destruct (inv_sleeping0 t Ht) as (f & fr & th & ? & ? & ? & [?|Hw]); [done|].
    exists f, fr, th. split_and!; [done..|]. destruct f; try (by right). destruct Hw as [Ha Hw]. cbn.
    destruct (decide (lock = p)) as [->|Hne]; [left; congruence|right]. by rewrite lookup_insert_ne.
  - intros t. cbn. rewrite lookup_insert_is_Some'. intros [?|[?|[[<-|?]|?]]]; apply inv_fresh0; auto.
Qed.

(** A semaphore nobody waits for in [P], or a new one. *)
Lemma inv_put_sem o k st x R S Zl p sm :
  inv o k st x R S Zl → p < k_next k → (∀ sm', k_sems k !! p = Some sm' → sem_count sm' ≠ 0) →
  inv o (set_sems (<[p := sm]> (k_sems k)) k) st x R S Zl.
Proof.
  intros [] Hp Hc. split; try done.
  - intros t Ht. destruct (inv_sleeping0 t Ht) as (f & fr & th & ? & ? & ? & Hw).
    exists f, fr, th. split_and!; [done..|]. destruct Hw as [?|Hw]; [by left|right]. destruct f; try done.
    destruct Hw as (Ha & sm' & Hsm & H0'). split; [done|]. exists sm'. cbn. rewrite lookup_insert_ne; [done|].
    intros ->. by apply (Hc sm').
  - intros t. cbn. rewrite lookup_insert_is_Some'. intros [?|[[<-|?]|?]]; [|done| |]; apply inv_fresh0; auto.
Qed.

(** A lock that stays held or was free, or a new one. *)
Lemma inv_put_lock o k st x R S Zl p lk :
  inv o k st x R S Zl → p < k_next k → (∀ lk', k_locks k !! p = Some lk' → lock_owner lk' = 0) →
  inv o (set_locks (<[p := lk]> (k_locks k)) k) st x R S Zl.
Proof.
  intros [] Hp Hc. split; try done.
  - intros t Ht. destruct (inv_sleeping0 t Ht) as (f & fr & th & ? & ? & ? & Hw).
    exists f, fr, th. split_and!; [done..|]. destruct Hw as [?|Hw]; [by left|right]. destruct f; try done.
    destruct Hw as (Ha & sm' & Hsm & H0'). split; [done|]. exists sm'. cbn. rewrite lookup_insert_ne; [done|].
    intros ->. by apply H0', Hc.
  - intros t. cbn. rewrite lookup_insert_is_Some'. intros [?|[?|[[<-|?]|?]]]; [| |done| |]; apply inv_fresh0; auto.
Qed.

(** ** Waking *)

(** Some sleepers have become ready, at the end of the run queue. *)
Definition woke (o : option Z) (st : gmap Z frames) (x : Z) (R Zl : list Z) (k k' : kst) : Prop :=
  ∃ l m W S', k' = relist l m k ∧ inv o k' st x (R ++ W) S' Zl.

Lemma sleeping_ready o k st t : sleeping o k st t → ready k st t.
Proof.
  intros (f & fr & th & Hst & Hc & Hth & _). split; [by exists th|].
  exists FSwitch, (FSleep :: f :: fr). split_and!; [done..|]. by constructor.
Qed.

Lemma inv_wake o k st x R S Zl addr one l m :
  inv o k st x R S Zl → (o = None ∨ o = Some addr ∧ one = false) →
  let W := woken (sleeps_on k addr) one S in
  let S' := asleep (sleeps_on k addr) one S in
  queues l (R ++ W) S' → zombies l = zombies (k_lists k) → numthreads l = numthreads (k_lists k) →
  inv None (relist l m k) st x (R ++ W) S' Zl.
Proof.
  intros [] Ho W S' Hq Hz Hn. assert (W ++ S' ≡ₚ S) as Hperm by (symmetry; apply woken_asleep).
  assert (R ++ S ++ Zl ≡ₚ (R ++ W) ++ S' ++ Zl) as Hp.
  { rewrite <-Hperm, <-!app_assoc. done. }
  split; try done.
  - cbn. by rewrite Hz.
  - by rewrite <-Hp.
  - by rewrite <-Hp.
  - cbn. rewrite Hn, inv_num0. rewrite length_app, <-Nat.add_assoc, <-(length_app W S'), Hperm. done.
  - intros t Ht. destruct (inv_sleeping0 t) as (f & fr & th & ? & ? & Hth & Hw); [by eapply asleep_sub|].
    exists f, fr, th. split_and!; [done..|]. right. destruct Hw as [->|?]; [|done].
    destruct Ho as [?|[[= <-] ->]]; [done|]. exfalso. apply asleep_all_not in Ht. apply Ht. unfold sleeps_on. by rewrite Hth.
  - intros t [Ht|Ht]%elem_of_app; [by apply inv_ready0|].
    apply (sleeping_ready o), inv_sleeping0. rewrite <-Hperm. apply elem_of_app. by left.
  - intros t. rewrite <-Hp. apply inv_fresh0.
  - by rewrite <-Hp.
Qed.

Lemma wakeup_slp o k st x R S Zl addr one :
  inv o k st x R S Zl → (o = None ∨ o = Some addr ∧ one = false) →
  slp (wakeup one addr) k (λ _ k', woke None st x R Zl k k').
Proof.
  intros Hi Ho. destruct (decide (spl k > 0)) as [Hs|Hs].
  - pose proof (inv_short _ _ _ _ _ _ _ Hi). apply (swpp_slp True). eapply swpp_mono.
    + apply (wakeup_spec True one addr k R S); [apply Hi|done|unfold short; lia| |done].
      intros p Hp. eapply inv_has_thread; [exact Hi|by right].
    + intros [] k' (l & m & -> & Hq & Hz & Hn). eexists l, m, _, _. split; [done|]. by apply inv_wake with o.
  - unfold wakeup. destruct one; unfold thread_wakeup, thread_onewakeup, assert_spl.
    all: apply slp_bind, slp_bind, slp_gets, slp_kassert; unfold id; intros; lia.
Qed.

Lemma thread_wakeup_slp o k st x R S Zl addr :
  inv o k st x R S Zl → (o = None ∨ o = Some addr) →
  slp (thread_wakeup addr) k (λ _ k', woke None st x R Zl k k').
Proof. intros Hi Ho. apply (wakeup_slp o k st x R S Zl addr false Hi). destruct Ho as [->| ->]; auto. Qed.

(** ** The interrupt level *)

(** The state after [splx]. *)
Definition at_spl (s : Z) (k : kst) : kst :=
  let c := k_cpu k in
  set_cpu (mkCpu (curthread c) s (in_interrupt c) (curkstack c)
    (if s >? 0 then false else if s =? 0 then true else c_ie c)) k.

Lemma splx_eq s k : splx s k = Done (spl k, at_spl s k).
Proof. unfold splx, at_spl. destruct k as [[]]. by destruct (s >? 0), (s =? 0). Qed.

Lemma inv_spl o k st x R S Zl s : inv o k st x R S Zl → inv o (at_spl s k) st x R S Zl.
Proof.
  intros Hi. eapply inv_same; [exact Hi| |].
  - done.
  - cbn. destruct (Z.gtb_spec s 0); [done|]. intros; lia.
Qed.

Lemma splx_slp s k (Q : Z → kst → Prop) : Q (spl k) (at_spl s k) → slp (splx s) k Q.
Proof. intros HQ r k'. rewrite splx_eq. by intros [= <- <-]. Qed.

Lemma at_spl_eq s k : spl (at_spl s k) = s.
Proof. done. Qed.
Lemma at_spl_cur s k : cur (at_spl s k) = cur k.
Proof. done. Qed.

(** ** Functions that do not switch *)

Definition calmly (st : gmap Z frames) (x : Z) (R Zl : list Z) (k k' : kst) : Prop :=
  ∃ W S', inv None k' st x (R ++ W) S' Zl ∧ cur k' = cur k ∧ spl k' = spl k.

(** The common end: wake somebody and go back to the old level. *)
Lemma wake_end_slp o one addr s k st x R S Zl :
  inv o k st x R S Zl → (o = None ∨ o = Some addr ∧ one = false) →
  slp (wakeup one addr;; splx s;; mret tt) k (λ _ k',
    ∃ W S', inv None k' st x (R ++ W) S' Zl ∧ cur k' = cur k ∧ spl k' = s).
Proof.
  intros Hi Ho. apply slp_bind. eapply slp_mono; [by eapply wakeup_slp|]. intros [] k1 (l & m & W & S' & -> & Hi').
  apply slp_bind, splx_slp, slp_ret. exists W, S'. rewrite at_spl_cur, at_spl_eq. split_and!; [|done..].
  by apply inv_spl.
Qed.

Lemma get_sem_slp p k (Q : semaphore → kst → Prop) :
  (∀ sm, k_sems k !! p = Some sm → Q sm k) → slp (get_sem p) k Q.
Proof.
  intros H. unfold get_sem, deref. apply slp_bind, slp_gets, slp_lift. unfold id. intros sm.
  destruct (k_sems k !! p) as [sm'|]; [|done]. intros [= ->]. by apply H.
Qed.
Lemma get_lock_slp p k (Q : lock → kst → Prop) :
  (∀ lk, k_locks k !! p = Some lk → Q lk k) → slp (get_lock p) k Q.
Proof.
  intros H. unfold get_lock, deref. apply slp_bind, slp_gets, slp_lift. unfold id. intros lk.
  destruct (k_locks k !! p) as [lk'|]; [|done]. intros [= ->]. by apply H.
Qed.
Lemma get_thread_slp p k (Q : thread → kst → Prop) :
  (∀ th, k_threads k !! p = Some th → Q th k) → slp (get_thread p) k Q.
Proof.
  intros H. unfold get_thread, deref. apply slp_bind, slp_gets, slp_lift. unfold id. intros th.
  destruct (k_threads k !! p) as [th'|]; [|done]. intros [= ->]. by apply H.
Qed.

(** A semaphore is raised: [V], [Vcat] and [Vmouse]. *)
Lemma raise_slp p sm k s st x R S Zl :
  inv None k st x R S Zl → is_Some (k_sems k !! p) →
  slp (modify (λ k, set_sems (<[p := sm]> (k_sems k)) k);; lift (kassert (sem_count sm >? 0));;
       thread_wakeup p;; splx s;; mret tt) k (λ _ k',
    ∃ W S', inv None k' st x (R ++ W) S' Zl ∧ cur k' = cur k ∧ spl k' = s).
Proof.
  intros Hi Hp. apply slp_bind, slp_modify, slp_bind, slp_kassert. intros _.
  apply (wake_end_slp (Some p) false p s (set_sems _ k) st x R S Zl); [by apply inv_sem_over|auto].
Qed.

Lemma V_slp p k st x R S Zl : inv None k st x R S Zl → slp (V p) k (λ _ k', calmly st x R Zl k k').
Proof.
  intros Hi. unfold V, splhigh, deref. apply slp_bind, slp_kassert. intros _. apply slp_bind, splx_slp, slp_bind, slp_gets.
  unfold id. apply slp_bind, slp_lift. intros sm. destruct (k_sems _ !! p) as [sm'|] eqn:Hp; [|done]. intros [= ->].
  apply slp_bind, slp_lift. intros n _.
  eapply slp_mono; [apply (raise_slp p (mkSem n (isOccupiedByMice sm) (isOccupiedByCat sm)) (at_spl SPL_HIGH k) (spl k)
    st x R S Zl); [by apply inv_spl|by exists sm]|].
  intros [] k' (W & S' & Hi' & Hc & Hs). exists W, S'. by rewrite Hc, at_spl_cur.
Qed.

Lemma Vcat_slp p q k st x R S Zl : inv None k st x R S Zl → slp (Vcat p q) k (λ _ k', calmly st x R Zl k k').
Proof.
  intros Hi. unfold Vcat, assert_ptr, splhigh. apply slp_bind, slp_kassert. intros _. apply slp_bind, splx_slp, slp_bind, get_sem_slp.
  intros sm Hp. apply slp_bind, slp_lift. intros n _.
  eapply slp_mono; [apply (raise_slp p (mkSem n (isOccupiedByMice sm) 0) (at_spl SPL_HIGH k) (spl k)
    st x R S Zl); [by apply inv_spl|by exists sm]|].
  intros [] k' (W & S' & Hi' & Hc & Hs). exists W, S'. by rewrite Hc, at_spl_cur.
Qed.

Lemma Vmouse_slp p q k st x R S Zl : inv None k st x R S Zl → slp (Vmouse p q) k (λ _ k', calmly st x R Zl k k').
Proof.
  intros Hi. unfold Vmouse, assert_ptr, splhigh. apply slp_bind, slp_kassert. intros _. apply slp_bind, splx_slp, slp_bind, get_sem_slp.
  intros sm Hp. apply slp_bind, slp_lift. intros n _.
  eapply slp_mono; [apply (raise_slp p (mkSem n 0 (isOccupiedByCat sm)) (at_spl SPL_HIGH k) (spl k)
    st x R S Zl); [by apply inv_spl|by exists sm]|].
  intros [] k' (W & S' & Hi' & Hc & Hs). exists W, S'. by rewrite Hc, at_spl_cur.
Qed.

Lemma lock_release_slp p k st x R S Zl :
  inv None k st x R S Zl → slp (lock_release p) k (λ _ k', calmly st x R Zl k k').
Proof.
  intros Hi. unfold lock_release, assert_ptr, splhigh. apply slp_bind, slp_kassert. intros _.
  apply slp_bind, splx_slp, slp_bind, get_lock_slp. intros lk Hp.
  apply slp_bind, slp_gets, slp_bind, slp_kassert. intros _. apply slp_bind, slp_modify.
  eapply slp_mono; [apply (wake_end_slp (Some p) false p (spl k)
    (set_locks (<[p := mkLock 0]> (k_locks (at_spl SPL_HIGH k))) (at_spl SPL_HIGH k)) st x R S Zl);
    [apply inv_lock_over; [by apply inv_spl|by exists lk]|auto]|].
  cbn. intros [] k' (W & S' & Hi' & Hc & Hs). exists W, S'. rewrite Hc. split_and!; [done|apply (at_spl_cur SPL_HIGH k)|done].
Qed.

Lemma cv_wake_slp one cv k st x R S Zl l :
  inv None k st x R S Zl →
  slp (if (one : bool) then cv_signal cv l else cv_broadcast cv l) k (λ _ k', calmly st x R Zl k k').
Proof.
  intros Hi. assert (slp (assert_ptr cv;; assert_ptr l;; s ← splhigh; wakeup one cv;; splx s;; mret tt) k
    (λ _ k', calmly st x R Zl k k')) as H; [|by destruct one].
  unfold assert_ptr, splhigh. do 2 (apply slp_bind, slp_kassert; intros _). apply slp_bind, splx_slp.
  eapply slp_mono; [apply (wake_end_slp None one cv (spl k) (at_spl SPL_HIGH k) st x R S Zl); [by apply inv_spl|auto]|].
  intros [] k' (W & S' & Hi' & Hc & Hs). exists W, S'. by rewrite Hc, at_spl_cur.
Qed.

(** ** The idle loop and the scheduler *)

(** The tick of the clock before it yields. *)
Lemma hardclock_with_slp sched k st x R S Zl (Q : Z * bool → kst → Prop) :
  inv None k st x R S Zl →
  (∀ k1, calmly st x R Zl k k1 → slp (thread_yield_with sched) k1 Q) → slp (hardclock_with sched) k Q.
Proof.
  intros Hi HQ. unfold hardclock_with. apply slp_bind, slp_gets, slp_bind, slp_lift. unfold id. intros n _.
  apply slp_bind. eapply (slp_mono _ _ (λ _ k', calmly st x R Zl k k')); [|intros []; apply HQ].
  destruct (n >=? HZ); [apply slp_bind|]; apply slp_modify.
  - eapply slp_mono; [apply (thread_wakeup_slp None (set_lbolt 0 k) st x R S Zl); [inv_same Hi|auto]|].
    intros [] k' (l & m & W & S' & -> & Hi'). by exists W, S'.
  - exists [], S. rewrite app_nil_r. split_and!; [|done..]. inv_same Hi.
Qed.

Lemma hardclock_idle_slp sched k st x R S Zl :
  inv None k st x R S Zl → cur k = 0 → slp (hardclock_with sched) k (λ _ k', calmly st x R Zl k k').
Proof.
  intros Hi Hc. eapply hardclock_with_slp; [exact Hi|].
  intros k1 (W & S' & Hi1 & Hc1 & Hs1). unfold thread_yield_with, splhigh. apply slp_bind, splx_slp.
  apply slp_bind, slp_gets, slp_bind, slp_kassert. intros _. unfold mi_switch_with, assert_spl.
  apply slp_bind. eapply (slp_mono _ _ (λ b k', b = false ∧ k' = at_spl SPL_HIGH k1)).
  { apply slp_bind, slp_bind, slp_gets, slp_kassert. intros _. apply slp_bind, slp_gets. rewrite at_spl_cur, Hc1, Hc.
    cbn. apply slp_bind, slp_ret, slp_ret. done. }
  intros b k' [-> ->]. apply slp_bind, splx_slp, slp_ret. exists W, S'. rewrite at_spl_cur, at_spl_eq, at_spl_cur.
  split_and!; [|done..]. by do 2 apply inv_spl.
Qed.

Lemma idle_interrupt_slp i k st x R S Zl :
  inv None (set_ie false k) st x R S Zl → cur k = 0 → slp (idle_interrupt i) k (λ _ k', calmly st x R Zl k k').
Proof.
  intros Hi Hc. unfold idle_interrupt, assert_spl, splhigh. apply slp_bind, slp_gets. unfold id.
  do 3 apply slp_bind, slp_modify. apply slp_bind, slp_bind, slp_gets, slp_kassert. intros _.
  set (k1 := set_inint 1 _). assert (inv None k1 st x R S Zl) as Hi1 by inv_same Hi.
  apply slp_bind. eapply (slp_mono _ _ (λ _ k', calmly st x R Zl k1 k')).
  { destruct i; [|by eapply V_slp]. apply slp_bind. eapply slp_mono; [by eapply hardclock_idle_slp|].
    intros ? k' Hk'. by apply slp_ret. }
  intros [] k2 (W & S' & Hi2 & Hc2 & _). apply slp_bind, slp_modify, slp_bind, splx_slp, slp_modify.
  exists W, S'. split_and!; [|exact Hc2|done]. inv_same Hi2.
Qed.

Lemma cpu_idle_slp k st x R S Zl :
  inv None k st x R S Zl → cur k = 0 → slp cpu_idle k (λ _ k', calmly st x R Zl k k').
Proof.
  intros Hi Hc. unfold cpu_idle, assert_spl. apply slp_bind, slp_bind, slp_gets, slp_kassert. unfold id. intros Hs.
  apply slp_bind, slp_gets. unfold id. destruct (k_irqs k) as [|i il]; [by apply slp_lift|].
  apply slp_bind, slp_modify, slp_bind, slp_modify, slp_bind.
  eapply slp_mono; [apply (idle_interrupt_slp i _ st x R S Zl); [inv_same Hi|done]|].
  intros [] k1 (W & S' & Hi1 & Hc1 & Hs1). apply slp_modify. exists W, S'. split_and!; [|done..]. inv_same Hi1.
Qed.

Lemma idle_loop_slp fuel k st x R S Zl :
  inv None k st x R S Zl → cur k = 0 → slp (idle_loop fuel) k (λ _ k', calmly st x R Zl k k').
Proof.
  revert k R S. induction fuel as [|fuel IH]; intros k R S Hi Hc; cbn [idle_loop]; unfold get_runqueue, deref.
  all: apply slp_bind, slp_bind, slp_gets, slp_lift; unfold id; intros q _.
  all: assert (calmly st x R Zl k k) as Hk by (exists [], S; rewrite app_nil_r; done).
  - destruct (q_empty q); [by apply slp_lift|by apply slp_ret].
  - destruct (q_empty q); [|by apply slp_ret]. apply slp_bind. eapply slp_mono; [by eapply cpu_idle_slp|].
    intros [] k1 (W & S1 & Hi1 & Hc1 & Hs1). eapply slp_mono; [apply (IH k1 (R ++ W) S1 Hi1); congruence|].
    intros [] k2 (W2 & S2 & Hi2 & Hc2 & Hs2). exists (W ++ W2), S2. rewrite app_assoc. split_and!; congruence || done.
Qed.

Lemma queues_head l t R S : queues l (t :: R) S → ∃ q q',
  runqueue l = Some q ∧ q_remhead q = Done (t, q') ∧
  queues (mkLists (sleepers l) (zombies l) (Some q') (numthreads l)) R S.
Proof.
  intros (q & a & Hq & Ha & Hqr & Har). pose proof (q_remhead_wp q t R Hqr) as H.
  destruct (q_remhead q) as [[y q']| | |] eqn:Er; [|done..]. destruct H as (-> & _ & Hq').
  exists q, q'. split_and!; [done..|]. by exists q', a.
Qed.

(** The first thread of the run queue becomes the current one. *)
Lemma inv_pop k st x t R S Zl q' :
  inv None k st x (t :: R) S Zl → cur k = 0 →
  queues (mkLists (sleepers (k_lists k)) (zombies (k_lists k)) (Some q') (numthreads (k_lists k))) R S →
  let k' := set_cur t (set_runqueue (Some q') k) in
  inv None k' st (x + 1) R S Zl ∧ t ≠ 0 ∧ ready k' st t.
Proof.
  intros [] Hc Hq k'. split_and!.
  - split; try done.
    + by apply NoDup_cons in inv_nodup0 as [_ ?].
    + intros H0. apply inv_zero0. by right.
    + intros _. apply (inv_ready0 t). by left.
    + cbn in *. rewrite inv_num0. lia.
    + intros t' Ht'. apply inv_ready0. by right.
    + intros p Hp. apply inv_fresh0. destruct Hp as [?|[?|[?|[?|?]]]]; auto. do 3 right. left. by right.
    + destruct inv_slots0 as [? Hs]. split; [done|]. unfold live in *. rewrite decide_True in Hs by done. cbn in Hs.
      change (k_table k') with (k_table k). destruct (decide _); lia.
  - intros ->. apply inv_zero0. by left.
  - apply inv_ready0. by left.
Qed.

Lemma scheduler_slp k st x R S Zl :
  inv None k st x R S Zl → cur k = 0 → slp scheduler k (λ t k',
    ∃ W R' S', R ++ W = t :: R' ∧ let k1 := set_cur t k' in
      inv None k1 st (x + 1) R' S' Zl ∧ t ≠ 0 ∧ ready k1 st t ∧ spl k' = spl k).
Proof.
  intros Hi Hc. unfold scheduler, assert_spl, get_runqueue, deref. apply slp_bind, slp_bind, slp_gets, slp_kassert. intros _.
  apply slp_bind, slp_gets, slp_bind. eapply slp_mono; [by eapply idle_loop_slp|].
  intros [] k1 (W & S' & Hi1 & Hc1 & Hs1). apply slp_bind, slp_bind, slp_gets, slp_lift. unfold id. intros q Hq.
  apply slp_bind, slp_lift. intros [t q'] Hr. apply slp_bind, slp_modify, slp_ret.
  destruct (R ++ W) as [|t' R'] eqn:ER.
  - exfalso. destruct (inv_queues _ _ _ _ _ _ _ Hi1) as (q2 & a & Hq2 & _ & Hqr & _). rewrite Hq2 in Hq.
    injection Hq as ->. by rewrite (q_remhead_empty q Hqr) in Hr.
  - destruct (queues_head _ _ _ _ (inv_queues _ _ _ _ _ _ _ Hi1)) as (q2 & q2' & Hq2 & Hr2 & Hqs). rewrite Hq2 in Hq.
    injection Hq as ->. rewrite Hr2 in Hr. injection Hr as -> ->. exists W, R', S'. split; [done|].
    destruct (inv_pop k1 st x t R' S' Zl q' Hi1) as (? & ? & ?); [congruence|done|]. by split_and!.
Qed.

(** ** Switching *)

Definition may_stash (ns : threadstate_t) (k : kst) (st : gmap Z frames) (x : Z) : Prop :=
  match ns with
  | S_READY => x = 1 ∧ ready k st (cur k)
  | S_SLEEP => x = 1 ∧ sleeping None k st (cur k)
  | S_ZOMB => x = 0
  | S_RUN => True
  end.

Lemma array_add_short mem (a : array Z) l y :
  array_repr a l → Z.of_nat (length l) ≤ 128 →
  wp (array_add mem a y) (λ '(r, a'), r = 0 → array_repr a' (l ++ [y])).
Proof.
  intros Hr Hl. eapply wp_mono; [apply array_add_wp; [done|lia]|]. intros [r a'].
  destruct (_ || _); [by intros (_ & _ & ?)|by intros [-> _]].
Qed.

(** The current thread goes on a list. *)
Lemma inv_move k st x R S Zl l m R' S' Zl' z :
  inv None k st x R S Zl → cur k ≠ 0 → R' ++ S' ++ Zl' ≡ₚ cur k :: R ++ S ++ Zl →
  queues l R' S' → zombies l = Some z → array_repr z Zl' → numthreads l = numthreads (k_lists k) →
  x + Z.of_nat (length R + length S) = Z.of_nat (length R' + length S') →
  (∀ t, t ∈ S' → t ∈ S ∨ sleeping None k st t) → (∀ t, t ∈ R' → t ∈ R ∨ ready k st t) →
  inv None (relist l m (set_cur 0 k)) st 0 R' S' Zl'.
Proof.
  intros [] Hc Hp Hq Hz Hzr Hn Hx Hsl Hrd.
  assert (0 ∉ cur k :: R ++ S ++ Zl) as H0 by (by rewrite not_elem_of_cons).
  split; try done.
  - by exists z.
  - apply NoDup_cons. by rewrite Hp.
  - by rewrite Hp.
  - cbn in *. lia.
  - intros t Ht. destruct (Hsl t Ht) as [?|?]; [by apply inv_sleeping0|done].
  - intros t Ht. destruct (Hrd t Ht) as [?|?]; [by apply inv_ready0|done].
  - intros p. rewrite Hp. intros [?|[?|[?|[Hin|?]]]]; try (apply inv_fresh0; auto).
    apply elem_of_cons in Hin as [->|?]; [left; auto|auto].
  - destruct inv_slots0 as [? Hs]. split; [done|]. rewrite Hp. unfold live in *. rewrite decide_False in Hs by done.
    change (k_table (relist l m (set_cur 0 k))) with (k_table k). cbn [cur] in *. cbn. cbn in Hs. done.
Qed.

Lemma stash_slp ns k st x R S Zl :
  inv None k st x R S Zl → cur k ≠ 0 → may_stash ns k st x →
  slp (stash ns (cur k)) (set_cur 0 k) (λ r k', r = 0 →
    ∃ W S' Zl', inv None k' st 0 (R ++ W) S' Zl' ∧ cur k' = 0 ∧ spl k' = spl k).
Proof.
  intros Hi Hc Hm. pose proof (inv_short _ _ _ _ _ _ _ Hi) as Hsh.
  destruct (inv_queues _ _ _ _ _ _ _ Hi) as (q & a & Hq & Ha & Hqr & Har).
  destruct (inv_zombies _ _ _ _ _ _ _ Hi) as (z & Hz & Hzr).
  destruct ns; cbn [stash]; [by apply slp_lift|..].
  - destruct Hm as [-> Hm]. destruct (decide (spl k > 0)) as [Hs|Hs].
    + apply slp_swp. eapply swp_mono; [eapply (make_runnable_swp (set_cur 0 k)); [reflexivity|exact Hq|exact Hqr|exact Hs|lia]|].
      intros r k' (q' & m & -> & _ & Hr) ->. destruct Hr as [[_ Hr]|[Hr _]]; [|done].
      exists [cur k], S, Zl. split_and!; [|done..].
      eapply inv_move; try done; [|by exists q', a|rewrite length_app; cbn; lia|by left|].
      * rewrite <-app_assoc. cbn. by rewrite <-Permutation_middle.
      * intros t [Ht|Ht]%elem_of_app; [auto|]. apply list_elem_of_singleton in Ht as ->. auto.
    + unfold make_runnable, assert_spl. apply slp_bind, slp_bind, slp_gets, slp_kassert. unfold id. change (spl (set_cur 0 k)) with (spl k). intros; lia.
  - destruct Hm as [-> Hm]. unfold get_sleepers, deref. apply slp_swp, swp_bind, swp_bind, swp_gets, swp_lift. unfold id.
    change (sleepers (k_lists (set_cur 0 k))) with (sleepers (k_lists k)). rewrite Ha. cbn [wp].
    apply swp_bind, k_answer_swp. intros b m. apply swp_bind, swp_lift.
    eapply wp_mono; [apply array_add_short; [exact Har|lia]|]. intros [r a'] Hr.
    apply swp_bind, swp_modify, swp_ret. intros ->. exists [], (S ++ [cur k]), Zl. rewrite app_nil_r.
    split_and!; [|done..].
    change (inv None (relist (mkLists (Some a') (zombies (k_lists k)) (runqueue (k_lists k)) (numthreads (k_lists k))) m
      (set_cur 0 k)) st 0 R (S ++ [cur k]) Zl).
    eapply inv_move; try done; [|by exists q, a'; auto|rewrite length_app; cbn; lia| |by left].
    + rewrite <-(app_assoc S [cur k] Zl). cbn. by rewrite app_assoc, <-Permutation_middle, <-app_assoc.
    + intros t [Ht|Ht]%elem_of_app; [auto|]. apply list_elem_of_singleton in Ht as ->. auto.
  - cbn in Hm. subst x. unfold get_zombies, deref. apply slp_swp, swp_bind, swp_bind, swp_gets, swp_lift. unfold id.
    change (zombies (k_lists (set_cur 0 k))) with (zombies (k_lists k)). rewrite Hz. cbn [wp].
    apply swp_bind, k_answer_swp. intros b m. apply swp_bind, swp_lift.
    eapply wp_mono; [apply array_add_short; [exact Hzr|lia]|]. intros [r z'] Hr.
    apply swp_bind, swp_modify, swp_ret. intros ->. exists [], S, (Zl ++ [cur k]). rewrite app_nil_r.
    split_and!; [|done..].
    change (inv None (relist (mkLists (sleepers (k_lists k)) (Some z') (runqueue (k_lists k)) (numthreads (k_lists k))) m
      (set_cur 0 k)) st 0 R S (Zl ++ [cur k])).
    eapply inv_move; try done; [|by exists q, a|by apply Hr|by left|by left].
    by rewrite !app_assoc, <-Permutation_cons_append.
Qed.

Lemma md_switch_slp old nu k st x R S Zl :
  inv None k st x R S Zl → slp (md_switch old nu) k (λ _ k',
    inv None k' st x R S Zl ∧ cur k' = cur k ∧ spl k' = spl k ∧ (∀ t, ready k st t → ready k' st t)).
Proof.
  intros Hi. unfold md_switch. destruct (old =? nu); [by apply slp_ret|].
  apply slp_bind, get_thread_slp. intros th Hth. apply slp_bind, slp_gets. unfold id.
  apply slp_bind, slp_modify. set (k1 := set_threads _ k).
  assert (inv None k1 st x R S Zl) as Hi1.
  { apply inv_put_thread; [done|by eapply thread_next|]. intros _ th'. rewrite Hth. by intros [= <-]. }
  apply slp_bind, get_thread_slp. intros tn _. apply slp_bind, slp_modify, slp_modify. split_and!; [|done..|].
  - inv_same Hi1.
  - intros t [Ht ?]. split; [|done]. unfold has_thread. cbn. rewrite lookup_insert_is_Some'. by right.
Qed.

(** Another thread has the processor: the first of the run queue. *)
Definition switched (st : gmap Z frames) (R : list Z) (k' : kst) : Prop :=
  ∃ W R' S' Zl', R ++ W = cur k' :: R' ∧ inv None k' st 1 R' S' Zl' ∧ cur k' ≠ 0 ∧ ready k' st (cur k') ∧ spl k' > 0.

Lemma mi_switch_slp ns k st x R S Zl :
  inv None k st x R S Zl → cur k ≠ 0 → may_stash ns k st x →
  slp (mi_switch ns) k (λ b k', b = true ∧ switched st R k').
Proof.
  intros Hi Hc Hm. unfold mi_switch, mi_switch_with, assert_spl. apply slp_bind, slp_bind, slp_gets, slp_kassert.
  unfold id. intros Hs. apply slp_bind, slp_gets. rewrite (proj2 (Z.eqb_neq _ _) Hc).
  apply slp_bind, slp_bind, get_thread_slp. intros th _. apply slp_lift. intros _ _.
  apply slp_bind, slp_modify, slp_bind. eapply slp_mono; [by eapply stash_slp|]. intros r k1 Hk1.
  apply slp_bind, slp_kassert. intros Hr%Z.eqb_eq. destruct (Hk1 Hr) as (W & S1 & Zl1 & Hi1 & Hc1 & Hs1).
  apply slp_bind. eapply slp_mono; [by eapply scheduler_slp|].
  intros t k2 (W2 & R2 & S2 & HR & Hi2 & Ht0 & Hrd & Hs2). apply slp_bind, slp_modify, slp_bind.
  eapply slp_mono; [by eapply md_switch_slp|]. intros [] k3 (Hi3 & Hc3 & Hs3 & Hr3). apply slp_ret. split; [done|].
  exists (W ++ W2), R2, S2, Zl1. rewrite Hc3. cbn. rewrite app_assoc. split_and!; try done; [by apply Hr3|].
  rewrite Hs3. change (spl k2 > 0). rewrite Hs2, Hs1. lia.
Qed.

Lemma thread_sleep_slp addr k st R S Zl f fr :
  inv None k st 1 R S Zl → cur k ≠ 0 → st !! cur k = Some (FSwitch :: FSleep :: f :: fr) →
  Forall calm (f :: fr) → waits k f addr → slp (thread_sleep addr) k (λ _ k', switched st R k').
Proof.
  intros Hi Hc Hst Hcalm Hw. unfold thread_sleep, get_curthread, put_thread. apply slp_bind, slp_gets. unfold id.
  apply slp_bind, slp_kassert. intros _. apply slp_bind, slp_bind, slp_gets, get_thread_slp. intros th Hth.
  apply slp_bind, slp_modify, slp_bind. eapply slp_mono.
  { eapply (mi_switch_slp S_SLEEP _ st 1 R S Zl).
    - apply inv_put_thread; [done|by eapply thread_next|]. intros HS. exfalso.
      pose proof (inv_nodup _ _ _ _ _ _ _ Hi) as [Hn _]%NoDup_cons. apply Hn. rewrite !elem_of_app. auto.
    - done.
    - split; [done|]. exists f, fr, (set_sleepaddr addr th). split_and!; [done..| |by right]. cbn.
      change (<[cur k:=set_sleepaddr addr th]> (k_threads k) !! cur k = Some (set_sleepaddr addr th)). by rewrite lookup_insert_eq. }
  intros b k' [-> Hk']. by apply slp_ret.
Qed.

(** ** What the current thread does until it gives up the processor *)

(** The thread goes on with [fs]; it keeps the processor, or loses it. *)
Definition seg (st : gmap Z frames) (fr : frames) (R : list Z) (k : kst) (fs : frames) (k' : kst) : Prop :=
  let st' := <[cur k := fs ++ fr]> st in
  (∃ W S' Zl', inv None k' st' 1 (R ++ W) S' Zl' ∧ cur k' = cur k ∧ Forall calm fs) ∨
  ((fs = [FDead] ∨ ∃ fs', fs = FSwitch :: fs' ∧ Forall calm fs') ∧ switched st' R k').

(** The state while a thread runs. *)
Definition runs (k : kst) (st : gmap Z frames) (fr : frames) (R S Zl : list Z) : Prop :=
  inv None k st 1 R S Zl ∧ cur k ≠ 0 ∧ Forall calm fr.

Lemma seg_stay st fr R k fs k' W S' Zl' :
  inv None k' st 1 (R ++ W) S' Zl' → cur k' = cur k → Forall calm fs → seg st fr R k fs k'.
Proof.
  intros Hi Hc Hfs. left. exists W, S', Zl'. split_and!; [|done..]. rewrite <-Hc. by apply inv_stack_cur.
Qed.

Lemma seg_same st fr R k fs k' S' Zl' :
  inv None k' st 1 R S' Zl' → cur k' = cur k → Forall calm fs → seg st fr R k fs k'.
Proof. intros Hi. apply (seg_stay st fr R k fs k' [] S' Zl'). by rewrite app_nil_r. Qed.

Lemma seg_calmly st fr R k fs k' Zl :
  calmly st 1 R Zl k k' → Forall calm fs → seg st fr R k fs k'.
Proof. intros (W & S' & Hi & Hc & _) ?. by eapply seg_stay. Qed.

(** A thread goes to sleep. *)
Lemma sleep_seg addr f k st fr fs R S Zl :
  runs k st fr R S Zl → Forall calm (f :: fs) → waits k f addr →
  slp (thread_sleep addr) k (λ _ k', seg st fr R k (FSwitch :: FSleep :: f :: fs) k').
Proof.
  intros (Hi & Hc & Hfr) Hf Hw. eapply slp_mono.
  - eapply (thread_sleep_slp addr k (<[cur k := (FSwitch :: FSleep :: f :: fs) ++ fr]> st) R S Zl f (fs ++ fr)).
    + by apply inv_stack_cur.
    + done.
    + by rewrite lookup_insert_eq.
    + rewrite app_comm_cons. by apply Forall_app.
    + done.
  - intros [] k' Hk'. right. split; [|done]. right. eexists. split; [done|]. by constructor.
Qed.

Lemma runs_spl s k st fr R S Zl : runs k st fr R S Zl → runs (at_spl s k) st fr R S Zl.
Proof. intros (Hi & Hc & Hfr). split_and!; [by apply inv_spl|by rewrite at_spl_cur|done]. Qed.

(** A segment that begins with [splx] or another quiet change. *)
Lemma seg_from st fr R k k1 fs k' : cur k1 = cur k → seg st fr R k1 fs k' → seg st fr R k fs k'.
Proof. unfold seg. by intros ->. Qed.

Lemma sem_next o k st x R S Zl p sm : inv o k st x R S Zl → k_sems k !! p = Some sm → p < k_next k.
Proof. intros Hi Hp. apply (inv_fresh _ _ _ _ _ _ _ Hi). right. left. by exists sm. Qed.
Lemma lock_next o k st x R S Zl p lk : inv o k st x R S Zl → k_locks k !! p = Some lk → p < k_next k.
Proof. intros Hi Hp. apply (inv_fresh _ _ _ _ _ _ _ Hi). do 2 right. left. by exists lk. Qed.

(** The end of [P], [Pcat], [Pmouse]: the semaphore is taken. *)
Lemma take_seg p sm sm' s k st fr R S Zl :
  runs k st fr R S Zl → k_sems k !! p = Some sm → sem_count sm ≠ 0 →
  slp (lift (kassert (sem_count sm >? 0));; put_sem p sm';; splx s;; mret []) k (seg st fr R k).
Proof.
  intros (Hi & Hc & Hfr) Hp H0. unfold put_sem. apply slp_bind, slp_kassert. intros _. apply slp_bind, slp_modify, slp_bind, splx_slp, slp_ret.
  eapply seg_same; [|by rewrite at_spl_cur|done]. apply inv_spl, inv_put_sem; [done|by eapply sem_next|].
  intros ?. rewrite Hp. by intros [= <-].
Qed.

Lemma P_loop_seg p s k st fr R S Zl : runs k st fr R S Zl → slp (P_loop p s) k (seg st fr R k).
Proof.
  intros Hr. unfold P_loop. apply slp_bind, get_sem_slp. intros sm Hp. destruct (Z.eqb_spec (sem_count sm) 0) as [H0|H0].
  - apply slp_bind. eapply slp_mono; [apply (sleep_seg p (FP p s) k st fr [] R S Zl); [done|by repeat constructor|]|].
    + split; [done|]. by exists sm.
    + intros [] k' Hk'. by apply slp_ret.
  - by eapply take_seg.
Qed.

Lemma Pcat_loop_seg p q s k st fr R S Zl : runs k st fr R S Zl → slp (Pcat_loop p q s) k (seg st fr R k).
Proof.
  intros Hr. unfold Pcat_loop. apply slp_bind, get_sem_slp. intros sm Hp. apply slp_bind, get_sem_slp. intros so Hq.
  destruct (Z.eqb_spec (sem_count sm) 0) as [H0|H0]; [|destruct (isOccupiedByMice so =? 1)]; cbn [orb].
  1,2: apply slp_bind; eapply slp_mono; [apply (sleep_seg p (FPcat p q s) k st fr [] R S Zl); [done|by repeat constructor|done]|];
    intros [] k' Hk'; by apply slp_ret.
  by eapply take_seg.
Qed.

Lemma Pmouse_loop_seg p q s k st fr R S Zl : runs k st fr R S Zl → slp (Pmouse_loop p q s) k (seg st fr R k).
Proof.
  intros Hr. unfold Pmouse_loop. apply slp_bind, get_sem_slp. intros sm Hp. apply slp_bind, get_sem_slp. intros so Hq.
  destruct (Z.eqb_spec (sem_count sm) 0) as [H0|H0]; [|destruct (isOccupiedByCat so =? 1)]; cbn [orb].
  1,2: apply slp_bind; eapply slp_mono; [apply (sleep_seg p (FPmouse p q s) k st fr [] R S Zl); [done|by repeat constructor|done]|];
    intros [] k' Hk'; by apply slp_ret.
  by eapply take_seg.
Qed.

(** With more frames below. *)
Lemma acquire_loop_seg p s fs k st fr R S Zl :
  runs k st fr R S Zl → Forall calm fs →
  slp (acquire_loop p s) k (λ fs1 k', seg st fr R k (fs1 ++ fs) k').
Proof.
  intros Hr Hfs. pose proof Hr as (Hi & Hc & Hfr). unfold acquire_loop. apply slp_bind, get_lock_slp. intros lk Hp.
  destruct (Z.eqb_spec (lock_owner lk) 0) as [H0|H0]; cbn [negb].
  - unfold put_lock. apply slp_bind, slp_gets, slp_bind, slp_modify, slp_bind, splx_slp, slp_ret.
    eapply seg_same; [|by rewrite at_spl_cur|done]. apply inv_spl, inv_put_lock; [done|by eapply lock_next|].
    intros ?. rewrite Hp. by intros [= <-].
  - apply slp_bind. eapply slp_mono; [apply (sleep_seg p (FAcquire p s) k st fr fs R S Zl); [done|by constructor|]|].
    + split; [done|]. by exists lk.
    + intros [] k' Hk'. by apply slp_ret.
Qed.

Lemma clock_loop_seg n s k st fr R S Zl : runs k st fr R S Zl → slp (clock_loop n s) k (seg st fr R k).
Proof.
  intros Hr. pose proof Hr as (Hi & Hc & Hfr). unfold clock_loop. destruct (n >? 0).
  - apply slp_bind. eapply slp_mono; [apply (sleep_seg lbolt (FClock n s) k st fr [] R S Zl); [done|by repeat constructor|done]|].
    intros [] k' Hk'. by apply slp_ret.
  - apply slp_bind, splx_slp, slp_ret. eapply seg_same; [by apply inv_spl|by rewrite at_spl_cur|done].
Qed.

Lemma yield_seg fs k st fr R S Zl :
  runs k st fr R S Zl → Forall calm fs →
  slp thread_yield k (λ '(s, sw) k', sw = true ∧ seg st fr R k (FSwitch :: FSpl s :: fs) k').
Proof.
  intros (Hi & Hc & Hfr) Hfs. unfold thread_yield, thread_yield_with, splhigh. apply slp_bind, splx_slp.
  apply slp_bind, slp_gets, slp_bind, slp_kassert. intros _.
  set (st' := <[cur k := (FSwitch :: FSpl (spl k) :: fs) ++ fr]> st). apply slp_bind. eapply slp_mono.
  { apply (mi_switch_slp S_READY (at_spl SPL_HIGH k) st' 1 R S Zl).
    - apply inv_spl. by apply inv_stack_cur.
    - done.
    - split; [done|]. split; [by apply (inv_cur _ _ _ _ _ _ _ Hi)|]. exists FSwitch, (FSpl (spl k) :: fs ++ fr).
      unfold st'. rewrite at_spl_cur, lookup_insert_eq. split_and!; [done..|]. constructor; [done|by apply Forall_app]. }
  intros b k' [-> Hk']. apply slp_ret. split; [done|]. right. split; [|done]. right. eexists. split; [done|]. by constructor.
Qed.

Lemma yield_frames_seg fs k st fr R S Zl :
  runs k st fr R S Zl → Forall calm fs → slp yield_frames k (λ fs1 k', seg st fr R k (fs1 ++ fs) k').
Proof.
  intros Hr Hfs. unfold yield_frames. apply slp_bind. eapply slp_mono; [by eapply yield_seg|].
  intros [s sw] k' [-> Hk']. by apply slp_ret.
Qed.

(** More may have become ready before. *)
Lemma seg_wider st fr R W k k1 fs k' :
  seg st fr (R ++ W) k1 fs k' → cur k1 = cur k → seg st fr R k fs k'.
Proof.
  unfold seg. intros Hs Hc1. rewrite Hc1 in Hs. revert Hs. intros [(W' & S' & Zl' & Hi & Hc & Hf)|[Hf (W' & R' & S' & Zl' & HR & Hrest)]].
  - left. exists (W ++ W'), S', Zl'. by rewrite app_assoc.
  - right. split; [done|]. exists (W ++ W'), R', S', Zl'. by rewrite app_assoc.
Qed.

Lemma calmly_runs st fr R Zl k k1 :
  calmly st 1 R Zl k k1 → cur k ≠ 0 → Forall calm fr →
  ∃ W S', runs k1 st fr (R ++ W) S' Zl ∧ cur k1 = cur k ∧ spl k1 = spl k.
Proof. intros (W & S' & Hi & Hc & Hs) Hk Hfr. exists W, S'. split; [|done]. split_and!; [done|congruence|done]. Qed.

Lemma mips_interrupt_seg i k st fr R S Zl :
  runs k st fr R S Zl → c_ie (k_cpu k) = true → slp (mips_interrupt i) k (λ fs k',
    seg st fr R k fs k' ∧ (i = IrqTimer → ∃ fs', fs = FSwitch :: fs')).
Proof.
  intros (Hi & Hc & Hfr) Hie. assert (spl k ≤ 0) as Hspl.
  { apply Znot_gt_le. intros Hs. apply (inv_ie _ _ _ _ _ _ _ Hi) in Hs. congruence. }
  unfold mips_interrupt, assert_spl. apply slp_bind, slp_gets. unfold id. do 3 apply slp_bind, slp_modify.
  apply slp_bind, slp_bind, slp_gets, slp_kassert. intros _. set (k1 := set_inint 1 _).
  assert (inv None k1 st 1 R S Zl) as Hi1 by inv_same Hi.
  destruct i.
  - apply slp_bind. unfold hardclock. eapply hardclock_with_slp; [exact Hi1|]. intros k2 Hk2.
    destruct (calmly_runs st fr R Zl k1 k2 Hk2 Hc Hfr) as (W & S' & Hr2 & Hc2 & _).
    eapply slp_mono; [apply (yield_seg [FIrq (in_interrupt (k_cpu k)) (spl k)] k2 st fr _ _ _ Hr2); by repeat constructor|].
    intros [s sw] k' [-> Hk']. apply slp_ret. split; [|by eexists]. by eapply seg_wider.
  - apply slp_bind. eapply slp_mono; [by eapply V_slp|]. intros [] k2 (W & S' & Hi2 & Hc2 & _). apply slp_ret. split; [|done].
    eapply seg_stay; [exact Hi2|done|by repeat constructor].
Qed.

Lemma lock_acquire_seg p fs k st fr R S Zl :
  runs k st fr R S Zl → Forall calm fs → slp (lock_acquire p) k (λ fs1 k', seg st fr R k (fs1 ++ fs) k').
Proof.
  intros Hr Hfs. unfold lock_acquire, assert_ptr, splhigh. apply slp_bind, slp_kassert. intros _. apply slp_bind, splx_slp.
  eapply slp_mono; [eapply acquire_loop_seg; [by apply runs_spl|done]|]. intros fs1 k' Hk'.
  eapply seg_from; [|exact Hk']. apply at_spl_cur.
Qed.

Lemma cv_wait_seg cv l k st fr R S Zl : runs k st fr R S Zl → slp (cv_wait cv l) k (seg st fr R k).
Proof.
  intros Hr. unfold cv_wait, assert_ptr, splhigh. do 2 (apply slp_bind, slp_kassert; intros _). apply slp_bind, splx_slp.
  pose proof (runs_spl SPL_HIGH _ _ _ _ _ _ Hr) as (Hi & Hc & Hfr). apply slp_bind.
  eapply slp_mono; [by eapply lock_release_slp|]. intros [] k1 Hk1.
  destruct (calmly_runs st fr R Zl _ k1 Hk1 Hc Hfr) as (W & S' & Hr1 & Hc1 & _).
  apply slp_bind. eapply slp_mono; [apply (sleep_seg cv (FCvWait l (spl k)) k1 st fr [] _ _ _ Hr1); [by repeat constructor|done]|].
  intros [] k' Hk'. apply slp_ret. eapply seg_wider; [exact Hk'|]. by rewrite Hc1, at_spl_cur.
Qed.
End inv.

Ltac inv_same Hi :=
  eapply inv_same; [exact Hi|done|first [done | apply (inv_ie _ _ _ _ _ _ _ Hi)]].
