(* ===== verification/ThreadExec.v ===== *)
(** * The steps of the thread system keep its invariant

    Creating and ending threads, and every frame, call and interrupt of the
    step relation. *)

From S2P Require Import Prelude Array Queue Thread Synch KPres SynchLock ThreadInv ThreadStep.

Section exec.
Context {E : Type} `{!KEnv E} {C : Type}.
Abbreviation kst := (kstate E).
Abbreviation frames := (list (frame C)).
Implicit Types (st : gmap Z frames) (k : kst) (fr : frames).

(** ** Allocation *)

Lemma inv_alloc o k st x R S Zl n m :
  inv o k st x R S Zl → k_next k ≤ n → inv o (set_alloc n m k) st x R S Zl.
Proof. intros [] Hn. split; try done. intros p Hp. apply inv_fresh in Hp. cbn. lia. Qed.

(** A thread address that is not in use. *)
Definition unused k R S Zl (p : Z) : Prop :=
  p ≠ cur k ∧ (p ∉ R ++ S ++ Zl) ∧ 0 < p.

Lemma k_next_unused o k st x R S Zl : inv o k st x R S Zl → unused k R S Zl (k_next k).
Proof.
  intros Hi. pose proof (inv_fresh _ _ _ _ _ _ _ Hi) as Hf. split_and!.
  - intros He. destruct (decide (cur k = 0)) as [H0|H0].
    + assert (k_next k < k_next k); [|lia]. apply Hf. do 4 right. lia.
    + assert (k_next k < k_next k); [|lia]. apply Hf. left. rewrite He. by apply (inv_cur _ _ _ _ _ _ _ Hi).
  - intros Hin. assert (k_next k < k_next k); [|lia]. apply Hf. auto.
  - apply (Hf 0). do 4 right. lia.
Qed.

Lemma k_answer_slp k (Q : bool → kst → Prop) : (∀ b m, Q b (set_alloc (k_next k) m k)) → slp k_answer k Q.
Proof. intros H. by apply slp_swp, k_answer_swp. Qed.

(** What creating an object leaves alone. *)
Definition made k (k' : kst) : Prop :=
  cur k' = cur k ∧ spl k' = spl k ∧ k_table k' = k_table k ∧ k_threads k' = k_threads k ∧ k_next k ≤ k_next k' ∧
  noprocesses k' = noprocesses k.

(** An object and its name are allocated, and [store] puts it in its place. *)
Lemma create_slp k st x R S Zl (store : Z → kst → kst) :
  inv None k st x R S Zl →
  (∀ k1, inv None k1 st x R S Zl → made k k1 → k_sems k1 = k_sems k → k_locks k1 = k_locks k → k_next k < k_next k1 →
     inv None (store (k_next k) k1) st x R S Zl ∧ made k1 (store (k_next k) k1)) →
  slp (p ← k_malloc; if p =? 0 then mret 0 else
       name ← k_malloc; if name =? 0 then mret 0 else modify (store p);; mret p) k
    (λ p k', inv None k' st x R S Zl ∧ made k k').
Proof.
  intros Hi Hst. pose proof (k_next_unused _ _ _ _ _ _ _ Hi) as (_ & _ & Hn). apply slp_bind, k_malloc_split; intros m1.
  { apply slp_ret. split; [by apply inv_alloc|]. unfold made; cbn; split_and!; done || lia. }
  rewrite (proj2 (Z.eqb_neq _ _)) by lia. apply slp_bind, k_malloc_split; intros m2.
  { apply slp_ret. split; [apply inv_alloc; [apply inv_alloc; [done|lia]|done]|]. unfold made; cbn; split_and!; done || lia. }
  cbn. rewrite (proj2 (Z.eqb_neq _ _)) by lia. apply slp_bind, slp_modify, slp_ret.
  set (k1 := set_alloc _ _ _). assert (made k k1) as Hm by (unfold made; cbn; split_and!; done || lia).
  destruct (Hst k1) as [? Hm']; [|done..|cbn; lia|].
  - unfold k1. apply inv_alloc; [apply inv_alloc; [done|lia]|cbn; lia].
  - split; [done|]. unfold made in *. destruct Hm as (? & ? & ? & ? & ? & ?), Hm' as (? & ? & ? & ? & ? & ?).
    split_and!; try congruence. lia.
Qed.

Lemma lock_create_slp k st x R S Zl :
  inv None k st x R S Zl → slp lock_create k (λ p k', inv None k' st x R S Zl ∧ made k k').
Proof.
  intros Hi. apply (create_slp k st x R S Zl (λ p k, set_locks (<[p := mkLock 0]> (k_locks k)) k) Hi).
  intros k1 Hi1 _ _ Hl Hn. split; [|by unfold made; cbn; split_and!]. apply inv_put_lock; [done..|].
  rewrite Hl. intros lk Hlk. pose proof (lock_next _ _ _ _ _ _ _ _ _ Hi Hlk). lia.
Qed.

Lemma cv_create_slp k st x R S Zl :
  inv None k st x R S Zl → slp cv_create k (λ p k', inv None k' st x R S Zl ∧ made k k').
Proof.
  intros Hi. apply (create_slp k st x R S Zl (λ p k, set_cvs ({[p]} ∪ k_cvs k) k) Hi).
  intros k1 Hi1 _ _ _ _. split; [inv_same Hi1|by unfold made; cbn; split_and!].
Qed.

Lemma sem_create_slp n k st x R S Zl :
  inv None k st x R S Zl → slp (sem_create n) k (λ p k', inv None k' st x R S Zl ∧ made k k').
Proof.
  intros Hi. unfold sem_create. apply slp_bind, slp_kassert. intros _.
  apply (create_slp k st x R S Zl (λ p k, set_sems (<[p := mkSem n 0 0]> (k_sems k)) k) Hi).
  intros k1 Hi1 _ Hs _ Hn. split; [|by unfold made; cbn; split_and!]. apply inv_put_sem; [done..|].
  rewrite Hs. intros sm Hsm. pose proof (sem_next _ _ _ _ _ _ _ _ _ Hi Hsm). lia.
Qed.

(** ** The process table *)

Lemma find_slot_Some t tb i :
  find_slot t tb = Done (Some i) → ∃ e, 0 ≤ i ∧ tb !! Z.to_nat i = Some e ∧ occupied e = 0.
Proof.
  unfold find_slot. set (n := Z.to_nat _). set (body := λ (i : Z) (_ : unit), _).
  assert (∀ n j, for_loop n j body tt = Done (inr i) → ∃ e, 0 ≤ i ∧ tb !! Z.to_nat i = Some e ∧ occupied e = 0) as H.
  { clear n. intros n. induction n as [|n IH]; intros j; cbn [for_loop]; [done|].
    destruct (body j tt) as [[[]|y]| | |] eqn:Eb; cbn; try done; [apply IH|]. intros [= ->]. unfold body, arr_get in Eb.
    destruct (Z.ltb_spec j 0); [done|]. destruct (tb !! Z.to_nat j) as [e|] eqn:Ej; [|done]. cbn in Eb.
    destruct (Z.eqb_spec (occupied e) 0), (processthread e =? 0); try done. injection Eb as ->. by exists e. }
  unfold mbind, outcome_bind. destruct (for_loop n t body tt) as [[[]|j]| | |] eqn:El; cbn; try done.
  intros [= ->]. by eapply H.
Qed.

Lemma slots_take tb i e e' :
  tb !! i = Some e → occupied e = 0 → occupied e' ≠ 0 → slots (<[i := e']> tb) = S (slots tb).
Proof.
  intros Hi He He'. unfold slots. rewrite <-(take_drop_middle tb i e Hi) at 2.
  rewrite insert_take_drop by (by eapply lookup_lt_Some). rewrite !filter_app, !length_app, !filter_cons.
  rewrite decide_True by done. rewrite decide_False by naive_solver. cbn. lia.
Qed.

Lemma inv_table o k st x R S Zl tb n :
  inv o k st x R S Zl → length tb = length (k_table k) → (slots (k_table k) ≤ slots tb)%nat →
  inv o (set_procs tb n k) st x R S Zl.
Proof.
  intros [] Hl Hs. split; try done. destruct inv_slots as [H1 H2]. split; [cbn; congruence|].
  change (live k + length (R ++ S ++ Zl) ≤ slots tb)%nat. lia.
Qed.

(** [thread_create] finds room for one more thread. *)
Definition created k st x R S Zl (p : Z) (k' : kst) : Prop :=
  inv None k' st x R S Zl ∧ cur k' = cur k ∧ spl k' = spl k ∧
  (p ≠ 0 → has_thread k' p ∧ unused k' R S Zl p ∧ (live k + length (R ++ S ++ Zl) < slots (k_table k'))%nat).

Lemma put_thread_slp p th k st x R S Zl (Q : unit → kst → Prop) :
  inv None k st x R S Zl → p < k_next k → p ∉ S →
  (∀ k', inv None k' st x R S Zl → k' = set_threads (<[p := th]> (k_threads k)) k → Q tt k') →
  slp (put_thread p th) k Q.
Proof. intros Hi Hp HpS HQ. apply slp_modify, HQ; [|done]. by apply inv_put_thread. Qed.

Lemma unused_notin k R S Zl p : unused k R S Zl p → p ∉ S.
Proof. intros (_ & Hp & _) HS. apply Hp. rewrite !elem_of_app. auto. Qed.

(** The slot is filled in, with interrupts off. *)
Lemma fill_slot_slp i p e k st x R S Zl :
  inv None k st x R S Zl → p < k_next k → unused k R S Zl p → 0 ≤ i →
  k_table k !! Z.to_nat i = Some e → occupied e = 0 →
  slp (fill_slot i p) k (λ _ k',
    inv None k' st x R S Zl ∧ cur k' = cur k ∧ has_thread k' p ∧
    (live k + length (R ++ S ++ Zl) < slots (k_table k'))%nat).
Proof.
  intros Hi Hp Hu Hi0 He Ho. unfold fill_slot. apply slp_bind. eapply slp_mono; [by eapply lock_create_slp|].
  intros l k1 [Hi1 (Hc1 & _ & Ht1 & _ & Hn1 & _)]. apply slp_bind. eapply slp_mono; [by eapply cv_create_slp|].
  intros cv k2 [Hi2 (Hc2 & _ & Ht2 & _ & Hn2 & _)]. apply slp_bind.
  eapply put_thread_slp; [exact Hi2|lia|by eapply unused_notin|]. intros k3 Hi3 ->.
  apply slp_bind, slp_gets, slp_bind, slp_lift. unfold id. cbn. rewrite Ht2, Ht1. intros e' He'.
  unfold arr_get in He'. rewrite (proj2 (Z.ltb_ge _ _)), He in He' by lia. injection He' as <-.
  apply slp_bind, slp_lift. intros tb Htb. unfold arr_set in Htb. destruct (_ && _); [|done]. injection Htb as <-.
  assert (slots (<[Z.to_nat i := take_slot i p l cv e]> (k_table k)) = Datatypes.S (slots (k_table k))) as Hs.
  { by eapply slots_take. }
  pose proof (inv_slots _ _ _ _ _ _ _ Hi) as [_ Hsl].
  apply slp_modify. split_and!.
  - apply inv_table; [done|rewrite length_insert; cbn; congruence|].
    change (slots (k_table k2) ≤ slots (<[Z.to_nat i := take_slot i p l cv e]> (k_table k)))%nat. rewrite Ht2, Ht1. lia.
  - change (cur k2 = cur k). congruence.
  - unfold has_thread. cbn. by rewrite lookup_insert_eq.
  - cbn [k_table set_procs]. lia.
Qed.

Lemma thread_create_slp k st x R S Zl :
  inv None k st x R S Zl → slp thread_create k (created k st x R S Zl).
Proof.
  intros Hi. pose proof (k_next_unused _ _ _ _ _ _ _ Hi) as Hu. pose proof Hu as (_ & _ & Hn).
  unfold thread_create. apply slp_bind, k_malloc_split; intros m1.
  { apply slp_ret. split_and!; [by apply inv_alloc|done..]. }
  rewrite (proj2 (Z.eqb_neq _ _)) by lia. apply slp_bind, k_malloc_split; intros m2.
  { apply slp_ret. split_and!; [|done..]. apply inv_alloc; [apply inv_alloc; [done|lia]|done]. }
  cbn [k_next set_alloc]. rewrite (proj2 (Z.eqb_neq _ _)) by lia. set (k1 := set_alloc _ _ _).
  assert (inv None k1 st x R S Zl) as Hi1. { unfold k1. apply inv_alloc; [apply inv_alloc; [done|lia]|cbn; lia]. }
  apply slp_bind. eapply put_thread_slp; [exact Hi1|cbn; lia|by eapply unused_notin|]. intros k2 Hi2 Hk2.
  apply slp_bind, slp_gets, slp_bind. unfold id.
  eapply (slp_mono _ _ (λ _ k3, inv None k3 st x R S Zl ∧ cur k3 = cur k ∧ spl k3 = spl k ∧ k_table k3 = k_table k2 ∧
    k_next k < k_next k3)).
  { destruct (noprocesses k2 <? 2); [apply slp_modify|apply slp_ret]; subst k2; split_and!; try done; try (cbn; lia).
    by apply inv_table. }
  intros [] k3 (Hi3 & Hc3 & Hs3 & Ht3 & Hn3). unfold splhigh. apply slp_bind, splx_slp, slp_bind, slp_lift.
  intros [i|] Hslot.
  - apply find_slot_Some in Hslot as (e & Hi0 & He & Ho). rewrite <-Ht3 in He. apply slp_bind.
    assert (unused (at_spl SPL_HIGH k3) R S Zl (k_next k)) as Hu3.
    { destruct Hu as (? & ? & ?). split_and!; [|done..]. rewrite at_spl_cur. congruence. }
    eapply slp_mono; [eapply fill_slot_slp; [by apply inv_spl|done|exact Hu3|done..]|].
    intros [] k4 (Hi4 & Hc4 & Hh4 & Hl4). apply slp_bind, splx_slp, slp_ret. split_and!.
    + by apply inv_spl.
    + rewrite at_spl_cur, Hc4, at_spl_cur. done.
    + by rewrite at_spl_eq, Hs3.
    + intros _. split_and!; [done| |].
      * destruct Hu as (? & ? & ?). split_and!; [|done..]. rewrite at_spl_cur, Hc4, at_spl_cur. congruence.
      * assert (live (at_spl SPL_HIGH k3) = live k) as Hlv by (unfold live; by rewrite at_spl_cur, Hc3).
        by rewrite <-Hlv.
  - apply slp_bind, splx_slp, slp_ret. split_and!; [by do 2 apply inv_spl|by rewrite !at_spl_cur|by rewrite at_spl_eq|done].
Qed.

(** ** Forking *)

(** The lists may be stored elsewhere. *)
Lemma inv_relist o k st x R S Zl l m z :
  inv o k st x R S Zl → queues l R S → zombies l = Some z → array_repr z Zl → numthreads l = numthreads (k_lists k) →
  inv o (relist l m k) st x R S Zl.
Proof. intros [] Hq Hz Hzr Hn. split; try done; [by exists z|]. cbn in *. congruence. Qed.

(** A new thread enters the run queue, with its first frame. *)
Lemma inv_enter k st R S Zl p f fs l m :
  inv None k st 1 R S Zl → unused k R S Zl p → has_thread k p →
  (live k + length (R ++ S ++ Zl) < slots (k_table k))%nat → starts f = true → Forall calm fs →
  queues l (R ++ [p]) S → zombies l = zombies (k_lists k) → numthreads l = numthreads (k_lists k) →
  inv None (relist l m k) (<[p := f :: fs]> st) 0 (R ++ [p]) S Zl.
Proof.
  intros Hi (Hpc & Hpl & Hp0) Hh Hs Hf Hfs Hq Hz Hn.
  assert ((R ++ [p]) ++ S ++ Zl ≡ₚ p :: R ++ S ++ Zl) as Hp.
  { rewrite <-app_assoc. cbn. by rewrite <-Permutation_middle. }
  destruct (inv_stack _ _ _ _ _ _ _ p (f :: fs) Hi Hpl) as [Hq0 Hz0 Hnd H0 Hcur Hnum Hsl Hrd Hfr Hslots Hie].
  split; try done.
  - cbn. by rewrite Hz.
  - rewrite Hp. rewrite Permutation_swap. apply NoDup_cons. split; [|done]. by rewrite not_elem_of_cons.
  - rewrite Hp, not_elem_of_cons. split; [lia|done].
  - cbn in *. rewrite Hn, Hnum, length_app. cbn. lia.
  - intros t [Ht|Ht]%elem_of_app; [by apply Hrd|]. apply list_elem_of_singleton in Ht as ->. split; [done|].
    exists f, fs. by rewrite lookup_insert_eq.
  - intros t. rewrite Hp. intros [?|[?|[?|[Hin|?]]]]; try (apply Hfr; auto).
    apply elem_of_cons in Hin as [->|?]; [left; auto|auto].
  - split; [apply Hslots|]. rewrite Hp. change (live k + Datatypes.S (length (R ++ S ++ Zl)) ≤ slots (k_table k))%nat. lia.
Qed.

(** The part of [thread_fork] that reserves room and enters the thread. *)
Definition forked k st R S Zl (p : Z) (f : frame C) (fs : frames) (r : Z) (k' : kst) : Prop :=
  cur k' = cur k ∧ spl k' = spl k ∧
  if decide (r = 0) then inv None k' (<[p := f :: fs]> st) 0 (R ++ [p]) S Zl
  else inv None k' st 1 R S Zl ∧ p ∉ R ++ S ++ Zl.

Lemma scheduler_preallocate_slp k st x R S Zl n :
  inv None k st x R S Zl → n < 536870912 →
  slp (scheduler_preallocate n) k (λ _ k', inv None k' st x R S Zl ∧ spl k > 0 ∧ ∃ l m, k' = relist l m k).
Proof.
  intros Hi Hn. destruct (inv_queues _ _ _ _ _ _ _ Hi) as (q & a & Hq & Ha & Hqr & Har).
  destruct (inv_zombies _ _ _ _ _ _ _ Hi) as (z & Hz & Hzr). unfold scheduler_preallocate, assert_spl, get_runqueue, deref.
  apply slp_bind, slp_bind, slp_gets, slp_kassert. unfold id. intros Hs. apply slp_bind, slp_bind, slp_gets. unfold id. rewrite Hq.
  apply slp_lift. intros _ [= <-]. apply slp_bind, k_answer_slp. intros b m. apply slp_bind, slp_lift. intros [r q'] Hr.
  pose proof (q_preallocate_wp b q R n Hqr Hn) as Hw. rewrite Hr in Hw. destruct Hw as [Hqr' _].
  apply slp_bind, slp_modify, slp_ret. split_and!; [|lia|by eexists _, m].
  apply (inv_relist None k st x R S Zl (mkLists (sleepers (k_lists k)) (zombies (k_lists k)) (Some q') (numthreads (k_lists k))) m z);
    try done. by exists q', a.
Qed.

Lemma make_runnable_enter k st R S Zl p f fs :
  inv None k st 1 R S Zl → unused k R S Zl p → has_thread k p → spl k > 0 →
  (live k + length (R ++ S ++ Zl) < slots (k_table k))%nat → starts f = true → Forall calm fs →
  slp (make_runnable p) k (forked k st R S Zl p f fs).
Proof.
  intros Hi Hu Hh Hsp Hs Hf Hfs. pose proof (inv_short _ _ _ _ _ _ _ Hi) as Hsh.
  destruct (inv_queues _ _ _ _ _ _ _ Hi) as (q & a & Hq & Ha & Hqr & Har).
  destruct (inv_zombies _ _ _ _ _ _ _ Hi) as (z & Hz & Hzr).
  apply slp_swp. eapply swp_mono; [eapply make_runnable_swp; [reflexivity|exact Hq|exact Hqr|done|lia]|].
  intros r k' (q' & m & -> & _ & Hr). split_and!; [done..|]. destruct Hr as [[-> Hr]|(-> & _ & Hr)].
  - rewrite decide_True by done. apply inv_enter; try done. by exists q', a.
  - rewrite decide_False by done. split; [|apply Hu]. eapply inv_relist; try done. by exists q', a.
Qed.

Lemma fork_reserve_slp k st R S Zl p f fs :
  inv None k st 1 R S Zl → unused k R S Zl p → has_thread k p →
  (live k + length (R ++ S ++ Zl) < slots (k_table k))%nat → starts f = true → Forall calm fs →
  slp (fork_reserve p) k (forked k st R S Zl p f fs).
Proof.
  intros Hi Hu Hh Hs Hf Hfs. pose proof (inv_short _ _ _ _ _ _ _ Hi) as Hsh. pose proof (inv_num _ _ _ _ _ _ _ Hi) as Hnum.
  destruct (inv_queues _ _ _ _ _ _ _ Hi) as (q & a & Hq & Ha & Hqr & Har).
  destruct (inv_zombies _ _ _ _ _ _ _ Hi) as (z & Hz & Hzr).
  unfold fork_reserve, get_sleepers, get_zombies, deref.
  apply slp_bind, slp_bind, slp_gets. unfold id. rewrite Ha. apply slp_lift. intros _ [= <-].
  apply slp_bind, slp_gets, slp_bind, slp_lift. unfold id. intros n Hn.
  assert (n = numthreads (k_lists k) + 1) as ->.
  { revert Hn. unfold to_int. destruct (_ && _); [|done]. by intros [= <-]. }
  set (n := numthreads (k_lists k) + 1). assert (n < 536870912) by lia.
  apply slp_bind, k_answer_slp. intros b1 m1. apply slp_bind, slp_lift. intros [r1 a'] Hr1.
  pose proof (array_preallocate_wp b1 a S n Har ltac:(lia)) as Hw1. rewrite Hr1 in Hw1. destruct Hw1 as [Har' _].
  apply slp_bind, slp_modify. set (k1 := set_sleepers _ _).
  assert (inv None k1 st 1 R S Zl) as Hi1.
  { apply (inv_relist None k st 1 R S Zl (mkLists (Some a') (zombies (k_lists k)) (runqueue (k_lists k)) (numthreads (k_lists k))) m1 z);
      try done. by exists q, a'. }
  destruct (Z.eqb_spec r1 0) as [_|Hne]; cbn [negb]; [|apply slp_ret; split_and!; [done..|]; rewrite decide_False by done; split; [done|apply Hu]].
  apply slp_bind, slp_bind, slp_gets. unfold id. change (zombies (k_lists k1)) with (zombies (k_lists k)). rewrite Hz.
  apply slp_lift. intros _ [= <-]. apply slp_bind, k_answer_slp. intros b2 m2. apply slp_bind, slp_lift. intros [r2 z'] Hr2.
  pose proof (array_preallocate_wp b2 z Zl n Hzr ltac:(lia)) as Hw2. rewrite Hr2 in Hw2. destruct Hw2 as [Hzr' _].
  apply slp_bind, slp_modify. set (k2 := set_zombies _ _).
  assert (inv None k2 st 1 R S Zl) as Hi2.
  { apply (inv_relist None k st 1 R S Zl (mkLists (Some a') (Some z') (runqueue (k_lists k)) (numthreads (k_lists k))) m2 z');
      try done. by exists q, a'. }
  destruct (Z.eqb_spec r2 0) as [_|Hne]; cbn [negb]; [|apply slp_ret; split_and!; [done..|]; rewrite decide_False by done; split; [done|apply Hu]].
  apply slp_bind. eapply slp_mono; [by eapply scheduler_preallocate_slp|]. intros r3 k3 (Hi3 & Hsp & l3 & m3 & Hk3).
  destruct (Z.eqb_spec r3 0) as [_|Hne]; cbn [negb].
  - subst k3. by apply (make_runnable_enter (relist l3 m3 k2) st R S Zl p f fs).
  - subst k3. apply slp_ret. split_and!; [done..|]. rewrite decide_False by done. split; [done|apply Hu].
Qed.

Lemma on_env_slp g k st x R S Zl :
  inv None k st x R S Zl → slp (on_env g) k (λ _ k', inv None k' st x R S Zl ∧ ∃ e, k' = set_env e k).
Proof.
  intros Hi. unfold on_env. apply slp_bind, slp_gets, slp_bind, slp_lift. intros e _. apply slp_modify.
  split; [inv_same Hi|by exists e].
Qed.

(** After a fork: the thread is in the run queue, or everything is as before. *)
Definition fork_post k st R S Zl (f : frame C) (fs : frames) : Z * Z → kst → Prop := λ '(r, p) k',
  cur k' = cur k ∧
  if decide (r = 0) then inv None k' (<[p := f :: fs]> st) 1 (R ++ [p]) S Zl ∧ p ≠ cur k
  else inv None k' st 1 R S Zl.

Lemma inv_numthreads k st x R S Zl n :
  inv None k st x R S Zl → inv None (set_numthreads n k) st (n - Z.of_nat (length R + length S)) R S Zl.
Proof. intros []. split; try done. cbn. lia. Qed.

Lemma fork_enter_slp k st R S Zl p cwd f fs :
  inv None k st 1 R S Zl → unused k R S Zl p → has_thread k p →
  (live k + length (R ++ S ++ Zl) < slots (k_table k))%nat → starts f = true → Forall calm fs →
  slp (fork_enter p cwd) k (fork_post k st R S Zl f fs).
Proof.
  intros Hi Hu Hh Hsl Hf Hfs. unfold fork_enter, splhigh. apply slp_bind, splx_slp, slp_bind. eapply slp_mono.
  { by apply (fork_reserve_slp (at_spl SPL_HIGH k) st R S Zl p f fs (inv_spl _ _ _ _ _ _ _ _ Hi)). }
  intros r k1 (Hc1 & Hs1 & H1). destruct (Z.eqb_spec r 0) as [->|Hr]; cbn [negb].
  - rewrite decide_True in H1 by done. apply slp_bind, slp_gets, slp_bind, slp_lift. unfold id. intros n Hn.
    assert (n = numthreads (k_lists k1) + 1) as ->.
    { revert Hn. unfold to_int. destruct (_ && _); [|done]. by intros [= <-]. }
    apply slp_bind, slp_modify, slp_bind, splx_slp, slp_ret. split; [exact Hc1|]. rewrite decide_True by done.
    split; [|apply Hu]. apply inv_spl. pose proof (inv_num _ _ _ _ _ _ _ H1) as Hnum.
    apply (inv_numthreads _ _ _ _ _ _ (numthreads (k_lists k1) + 1)) in H1.
    by replace (numthreads (k_lists k1) + 1 - Z.of_nat (length (R ++ [p]) + length S)) with 1 in H1 by lia.
  - rewrite decide_False in H1 by done. destruct H1 as [H1 Hp]. apply slp_bind, splx_slp, slp_bind.
    eapply (slp_mono _ _ (λ _ k3, inv None k3 st 1 R S Zl ∧ cur k3 = cur k)).
    { destruct (cwd =? 0); [apply slp_ret; split; [by apply inv_spl|exact Hc1]|].
      eapply slp_mono; [by eapply on_env_slp, inv_spl|]. intros [] k3 [Hi3 [e ->]]. split; [done|exact Hc1]. }
    intros [] k3 [Hi3 Hc3]. unfold free_thread. apply slp_bind, slp_modify, slp_ret. split; [exact Hc3|]. rewrite decide_False by done.
    apply inv_delete_thread; [done|rewrite !elem_of_app in *; tauto|]. destruct Hu as [? _]. congruence.
Qed.

Lemma thread_fork_slp k st R S Zl f fs :
  inv None k st 1 R S Zl → cur k ≠ 0 → starts f = true → Forall calm fs →
  slp thread_fork k (fork_post k st R S Zl f fs).
Proof.
  intros Hi Hc Hf Hfs. unfold thread_fork. apply slp_bind. eapply slp_mono; [by eapply thread_create_slp|].
  intros p k1 (Hi1 & Hc1 & Hs1 & Hp). destruct (Z.eqb_spec p 0) as [->|Hp0]; [by apply slp_ret|].
  destruct (Hp Hp0) as (Hh & Hu & Hsl). clear Hp. pose proof Hu as (Hpc & Hpl & _).
  assert (∀ k', inv None k' st 1 R S Zl → cur k' = cur k → inv None (set_threads (delete p (k_threads k')) k') st 1 R S Zl) as Hdel.
  { intros k' Hi' Hc'. apply inv_delete_thread; [done| |congruence]. rewrite !elem_of_app in *. tauto. }
  apply slp_bind, k_malloc_split; intros m.
  { cbn [Z.eqb]. apply slp_bind, slp_modify, slp_ret. split; [done|]. rewrite decide_False by done.
    apply Hdel; [by apply inv_alloc|done]. }
  pose proof (k_next_unused _ _ _ _ _ _ _ Hi1) as (_ & _ & Hn1). rewrite (proj2 (Z.eqb_neq _ _)) by lia.
  set (k2 := set_alloc _ m k1). assert (inv None k2 st 1 R S Zl) as Hi2 by (apply inv_alloc; [done|lia]).
  apply slp_bind, get_thread_slp. intros t Ht. unfold get_curthread. apply slp_bind, slp_bind, slp_gets, get_thread_slp. intros me Hme.
  apply slp_bind. eapply (slp_mono _ _ (λ _ k3, inv None k3 st 1 R S Zl ∧ ∃ e, k3 = set_env e k2)).
  { destruct (t_cwd me =? 0); [apply slp_ret; split; [done|]; exists (k_env k2); by destruct k1|by eapply on_env_slp]. }
  intros [] k3 [Hi3 [e ->]]. apply slp_bind.
  eapply put_thread_slp; [exact Hi3|eapply (thread_next _ _ _ _ _ _ _ _ _ Hi2 Ht)|by eapply unused_notin|]. intros k4 Hi4 Hk4.
  assert (cur k4 = cur k ∧ spl k4 = spl k ∧ k_table k4 = k_table k1 ∧ has_thread k4 p) as (Hc4 & Hs4 & Ht4 & Hh4).
  { subst k4. split_and!; [done..|]. unfold has_thread. cbn. by rewrite lookup_insert_eq. }
  eapply slp_mono.
  - apply (fork_enter_slp k4 st R S Zl p (t_cwd me) f fs); try done; rewrite ?Ht4; [|unfold live in *; by rewrite Hc4].
    destruct Hu as (? & ? & ?). split_and!; [congruence|done..].
  - intros [r p'] k5. unfold fork_post. by rewrite Hc4.
Qed.

(** ** The frames *)

Lemma exorcise_slp k st x R S Zl :
  inv None k st x R S Zl → slp exorcise k (λ _ k', inv None k' st x R S [] ∧ cur k' = cur k).
Proof.
  intros Hi. unfold exorcise, assert_spl, get_zombies, deref. apply slp_bind, slp_bind, slp_gets, slp_kassert. intros _.
  destruct (inv_zombies _ _ _ _ _ _ _ Hi) as (z & Hz & Hzr). apply slp_bind, slp_bind, slp_gets. unfold id. rewrite Hz.
  apply slp_lift. intros _ [= <-]. apply slp_bind.
  set (Rel := λ k k' : kst, inv None k st x R S Zl ∧ zombies (k_lists k) = Some z →
    (inv None k' st x R S Zl ∧ zombies (k_lists k') = Some z) ∧ cur k' = cur k).
  assert (PreOrder Rel) as HRel.
  { split; [by intros k0|]. intros k1 k2 k3 H12 H23 H. destruct (H12 H) as [H2 Hc]. destruct (H23 H2) as [H3 Hc'].
    split; [done|congruence]. }
  eapply slp_mono.
  - apply (pres_for_stm Rel). intros j [] k1. unfold thread_destroy. apply slp_bind, slp_lift. intros p Hp.
    apply slp_bind, slp_gets, slp_bind, slp_kassert. intros Hne%negb_true_iff%Z.eqb_neq.
    apply slp_bind, slp_bind, slp_gets, slp_bind, slp_kassert. intros _. apply slp_bind, get_thread_slp. intros th _.
    do 2 (apply slp_bind, slp_kassert; intros _). apply slp_modify, slp_ret. intros [Hi1 Hz1]. split; [|done]. split; [|done].
    apply inv_delete_thread; [done| |done]. apply (array_getguy_elem _ _ _ _ Hzr) in Hp.
    pose proof (inv_nodup _ _ _ _ _ _ _ Hi1) as Hnd. apply NoDup_cons in Hnd as [_ Hnd].
    rewrite app_assoc in Hnd. apply NoDup_app in Hnd as (_ & Hd & _). intros Hin. by apply (Hd p).
  - intros r k1 Hk1. destruct (Hk1 (conj Hi Hz)) as [[Hi1 Hz1] Hc1]. apply slp_bind, k_answer_slp. intros b m.
    apply slp_bind, slp_lift. intros [r2 z'] Hr. pose proof (array_clear_wp b z Zl Hzr) as Hw. rewrite Hr in Hw.
    destruct Hw as (-> & Hzr' & _). apply slp_bind, slp_modify, slp_kassert. intros _. split; [|done].
    destruct Hi1 as [Hq _ Hnd H0 Hcur Hnum Hsl Hrd Hfr Hslots Hie].
    split; try done; rewrite ?app_nil_r; [by exists z'|..].
    + rewrite app_assoc, app_comm_cons in Hnd. by apply NoDup_app in Hnd as [? _].
    + rewrite app_assoc, elem_of_app in H0. tauto.
    + intros p Hp. apply Hfr. rewrite app_assoc, elem_of_app. tauto.
    + destruct Hslots as [? Hs]. split; [done|]. rewrite app_assoc, length_app in Hs.
      change (live k1 + length (R ++ S) ≤ slots (k_table k1))%nat. lia.
Qed.

Lemma mi_switch_end_slp k st x R S Zl :
  inv None k st x R S Zl → slp mi_switch_end k (λ _ k', inv None k' st x R S [] ∧ cur k' = cur k).
Proof.
  intros Hi. unfold mi_switch_end, get_curthread. apply slp_bind. eapply slp_mono; [by eapply exorcise_slp|].
  intros [] k1 [Hi1 Hc1]. apply slp_bind, slp_bind, slp_gets, get_thread_slp. intros th _.
  destruct (t_vmspace th =? 0); [by apply slp_ret|]. eapply slp_mono; [by eapply on_env_slp|].
  intros [] k2 [Hi2 [e ->]]. done.
Qed.

(** A quiet change of the current thread. *)
Lemma put_cur_slp (g : thread → thread) k st x R S Zl :
  inv None k st x R S Zl → slp (c ← gets cur; t ← get_thread c; put_thread c (g t)) k
    (λ _ k', inv None k' st x R S Zl ∧ cur k' = cur k).
Proof.
  intros Hi. apply slp_bind, slp_gets, slp_bind, get_thread_slp. intros th Hth.
  eapply put_thread_slp; [exact Hi|by eapply thread_next| |by intros k' Hi' ->].
  pose proof (inv_nodup _ _ _ _ _ _ _ Hi) as [Hn _]%NoDup_cons. rewrite !elem_of_app in Hn. tauto.
Qed.

Lemma exit_rest_seg k st fr R S Zl : runs k st fr R S Zl → slp exit_rest k (seg st fr R k).
Proof.
  intros (Hi & Hc & Hfr). unfold exit_rest, get_curthread.
  pose proof (inv_nodup _ _ _ _ _ _ _ Hi) as [Hn _]%NoDup_cons.
  assert (cur k ∉ S) as HcS by (rewrite !elem_of_app in Hn; tauto).
  apply slp_bind, slp_bind, slp_gets, get_thread_slp. intros t Ht. apply slp_bind, slp_gets, slp_bind.
  eapply (slp_mono _ _ (λ _ k1, inv None k1 st 1 R S Zl ∧ cur k1 = cur k)).
  { destruct (t_vmspace t =? 0); [by apply slp_ret|]. apply slp_bind.
    eapply put_thread_slp; [exact Hi|by eapply thread_next|done|]. intros k1 Hi1 ->.
    eapply slp_mono; [by eapply on_env_slp|]. by intros [] k2 [Hi2 [e ->]]. }
  intros [] k1 [Hi1 Hc1]. apply slp_bind, get_thread_slp. intros t1 Ht1. apply slp_bind.
  eapply (slp_mono _ _ (λ _ k2, inv None k2 st 1 R S Zl ∧ cur k2 = cur k)).
  { destruct (t_cwd t1 =? 0); [by apply slp_ret|]. apply slp_bind.
    eapply slp_mono; [by eapply on_env_slp|]. intros [] k2 [Hi2 [e ->]].
    eapply put_thread_slp; [exact Hi2|eapply (thread_next _ _ _ _ _ _ _ _ _ Hi1 Ht1)|done|]. by intros k3 Hi3 ->. }
  intros [] k2 [Hi2 Hc2]. apply slp_bind, slp_gets, slp_bind, slp_kassert. unfold id. intros _. apply slp_bind, slp_modify.
  pose proof (inv_num _ _ _ _ _ _ _ Hi2) as Hnum.
  apply (inv_numthreads _ _ _ _ _ _ (numthreads (k_lists k2) - 1)) in Hi2.
  replace (numthreads (k_lists k2) - 1 - Z.of_nat (length R + length S)) with 0 in Hi2 by lia.
  set (k3 := set_numthreads _ k2) in *. assert (cur k3 = cur k) as Hc3 by exact Hc2.
  apply slp_bind. eapply slp_mono.
  - apply (mi_switch_slp S_ZOMB k3 (<[cur k := [FDead] ++ fr]> st) 0 R S Zl).
    + rewrite <-Hc3. by apply inv_stack_cur.
    + congruence.
    + done.
  - intros b k' [_ Hk']. apply slp_ret. right. split; [by left|done].
Qed.

(** The first frame of a dispatched thread does not give up the processor. *)
Lemma start_seg f k st fr R S Zl :
  runs k st fr R S Zl → starts f = true → slp (resume f) k (λ (fs : frames) k',
    ∃ Zl', inv None k' st 1 R S Zl' ∧ cur k' = cur k ∧ Forall calm fs).
Proof.
  intros (Hi & Hc & Hfr) Hf. destruct f; try done; cbn [resume].
  - apply slp_bind. eapply slp_mono; [by eapply mi_switch_end_slp|]. intros [] k1 [Hi1 Hc1]. apply slp_ret. by exists [].
  - unfold mi_threadstart, get_curthread, spl0. apply slp_bind, slp_bind, slp_gets, get_thread_slp. intros t _. apply slp_bind.
    eapply (slp_mono _ _ (λ _ k1, inv None k1 st 1 R S Zl ∧ cur k1 = cur k)).
    { destruct (t_vmspace t =? 0); [by apply slp_ret|]. eapply slp_mono; [by eapply on_env_slp|]. by intros [] k2 [Hi2 [e ->]]. }
    intros [] k1 [Hi1 Hc1]. apply slp_bind, splx_slp, slp_ret. exists Zl. split_and!; [by apply inv_spl|done|by repeat constructor].
Qed.

Lemma exit_seg k st fr R S Zl : runs k st fr R S Zl → slp thread_exit k (seg st fr R k).
Proof.
  intros Hr. unfold thread_exit, get_curthread, splhigh. apply slp_bind, slp_bind, slp_gets, get_thread_slp. intros t _.
  apply slp_bind, slp_lift. intros _ _. apply slp_bind, splx_slp, slp_bind, slp_gets. unfold id.
  pose proof (runs_spl SPL_HIGH _ _ _ _ _ _ Hr) as Hr1. destruct (_ =? _).
  - apply slp_bind. eapply slp_mono; [apply (lock_acquire_seg _ [FExitMenu] _ st fr R S Zl Hr1); by repeat constructor|].
    intros fs k' Hk'. apply slp_ret. by eapply seg_from; [|exact Hk'].
  - eapply slp_mono; [by eapply exit_rest_seg|]. intros fs k' Hk'. by eapply seg_from; [|exact Hk'].
Qed.

Lemma exit_menu_seg k st fr R S Zl : runs k st fr R S Zl → slp (resume FExitMenu) k (seg st fr R k).
Proof.
  intros (Hi & Hc & Hfr). cbn [resume]. apply slp_bind, slp_gets. unfold id. apply slp_bind.
  eapply slp_mono; [by eapply (cv_wake_slp false)|]. intros [] k1 Hk1.
  destruct (calmly_runs st fr R Zl k k1 Hk1 Hc Hfr) as (W & S1 & (Hi1 & Hc1' & _) & Hc1 & _). apply slp_bind.
  eapply slp_mono; [by eapply lock_release_slp|]. intros [] k2 Hk2.
  destruct (calmly_runs st fr (R ++ W) Zl k1 k2 Hk2 Hc1' Hfr) as (W2 & S2 & Hr2 & Hc2 & _).
  eapply slp_mono; [by eapply exit_rest_seg|]. intros fs k' Hk'. eapply seg_wider; [|exact Hc1]. by eapply seg_wider.
Qed.

Lemma resume_seg f k st fr R S Zl :
  runs k st fr R S Zl → starts f = true ∨ calm f → slp (resume f) k (seg st fr R k).
Proof.
  intros Hr Hf. pose proof Hr as (Hi & Hc & Hfr). destruct (starts f) eqn:Est.
  { eapply slp_mono; [by eapply start_seg|]. intros fs k' (Zl' & Hi' & Hc' & Hfs). by eapply seg_same. }
  destruct Hf as [?|[_ Hf]]; [done|]. destruct f; try done; cbn [resume].
  - unfold thread_sleep_end. apply slp_bind. eapply slp_mono; [by eapply (put_cur_slp (set_sleepaddr 0))|].
    intros [] k1 [Hi1 Hc1]. apply slp_ret. by eapply seg_same.
  - apply slp_bind, splx_slp, slp_ret. eapply seg_same; [by apply inv_spl|done|done].
  - by eapply P_loop_seg.
  - by eapply Pcat_loop_seg.
  - by eapply Pmouse_loop_seg.
  - eapply slp_mono; [by eapply (acquire_loop_seg lock s [])|]. intros fs k'. cbn beta. by rewrite app_nil_r.
  - apply slp_bind. eapply slp_mono; [eapply (lock_acquire_seg lock [FSpl s]); [exact Hr|by repeat constructor]|].
    intros fs k' Hk'. by apply slp_ret.
  - by eapply clock_loop_seg.
  - unfold irq_end, splhigh. apply slp_bind, slp_bind, slp_modify, slp_bind, splx_slp, slp_bind, slp_modify, slp_modify, slp_ret.
    eapply (seg_same _ _ _ _ _ _ S Zl); [|done|done]. eapply inv_same; [exact Hi|done|]. cbn. intros; lia.
  - destruct yields as [|n]; [apply slp_ret; by eapply seg_same|]. apply slp_bind.
    eapply slp_mono; [eapply (yield_frames_seg [FYields n]); [exact Hr|by repeat constructor]|]. intros fs k' Hk'. by apply slp_ret.
  - apply slp_ret. eapply seg_same; [done..|by repeat constructor].
  - by eapply exit_seg.
  - by eapply exit_menu_seg.
Qed.

(** ** The calls *)

Lemma call_seg {A} (m : stm kst A) k st fr R S Zl :
  slp m k (λ _ k', calmly st 1 R Zl k k' ∨ inv None k' st 1 R S Zl ∧ cur k' = cur k) → slp (call m) k (seg st fr R k).
Proof.
  intros Hm. unfold call. apply slp_bind. eapply slp_mono; [exact Hm|]. intros a k' [H|[Hi Hc]]; apply slp_ret.
  - by eapply seg_calmly.
  - by eapply seg_same.
Qed.

(** A call that begins with [splhigh]. *)
Lemma high_seg (g : Z → stm kst frames) k st fr R S Zl :
  runs k st fr R S Zl → (∀ s k1, runs k1 st fr R S Zl → slp (g s) k1 (seg st fr R k1)) →
  slp (s ← splhigh; g s) k (seg st fr R k).
Proof.
  intros Hr Hg. unfold splhigh. apply slp_bind, splx_slp. eapply slp_mono; [apply Hg; by apply runs_spl|].
  intros fs k' Hk'. by eapply seg_from; [|exact Hk'].
Qed.

Lemma exec_op_seg o k st fr R S Zl : runs k st fr R S Zl → slp (exec_op o) k (seg st fr R k).
Proof.
  intros Hr. pose proof Hr as (Hi & Hc & Hfr). destruct o; cbn [exec_op].
  - unfold P, assert_ptr, assert_thread. apply slp_bind, slp_kassert. intros _.
    apply slp_bind, slp_bind, slp_gets, slp_kassert. intros _. eapply high_seg; [exact Hr|]. intros. by eapply P_loop_seg.
  - eapply (call_seg _ k st fr R S Zl), slp_mono; [by eapply V_slp|]. intros. by left.
  - unfold Pcat, assert_ptr, assert_thread. apply slp_bind, slp_kassert. intros _.
    apply slp_bind, slp_bind, slp_gets, slp_kassert. intros _. eapply high_seg; [exact Hr|]. intros. by eapply Pcat_loop_seg.
  - unfold Pmouse, assert_ptr, assert_thread. apply slp_bind, slp_kassert. intros _.
    apply slp_bind, slp_bind, slp_gets, slp_kassert. intros _. eapply high_seg; [exact Hr|]. intros. by eapply Pmouse_loop_seg.
  - eapply (call_seg _ k st fr R S Zl), slp_mono; [by eapply Vcat_slp|]. intros. by left.
  - eapply (call_seg _ k st fr R S Zl), slp_mono; [by eapply Vmouse_slp|]. intros. by left.
  - eapply slp_mono; [by eapply (lock_acquire_seg l [])|]. intros fs k'. cbn beta. by rewrite app_nil_r.
  - eapply (call_seg _ k st fr R S Zl), slp_mono; [by eapply lock_release_slp|]. intros. by left.
  - by eapply cv_wait_seg.
  - eapply (call_seg _ k st fr R S Zl), slp_mono; [by eapply (cv_wake_slp true)|]. intros. by left.
  - eapply (call_seg _ k st fr R S Zl), slp_mono; [by eapply (cv_wake_slp false)|]. intros. by left.
  - eapply high_seg; [exact Hr|]. intros. by eapply clock_loop_seg.
  - eapply slp_mono; [by eapply (yield_frames_seg [])|]. intros fs k'. cbn beta. by rewrite app_nil_r.
  - apply slp_bind, slp_gets, slp_bind, get_thread_slp. intros th Hth. apply slp_bind, slp_lift. intros n _.
    eapply (call_seg _ k st fr R S Zl). eapply put_thread_slp; [exact Hi|by eapply thread_next| |intros k' Hi' ->; by right].
    pose proof (inv_nodup _ _ _ _ _ _ _ Hi) as [Hn _]%NoDup_cons. rewrite !elem_of_app in Hn. tauto.
  - eapply (call_seg _ k st fr R S Zl), slp_mono; [by eapply sem_create_slp|]. intros ? k' [? (? & _)]. by right.
  - eapply (call_seg _ k st fr R S Zl), slp_mono; [by eapply lock_create_slp|]. intros ? k' [? (? & _)]. by right.
  - eapply (call_seg _ k st fr R S Zl), slp_mono; [by eapply cv_create_slp|]. intros ? k' [? (? & _)]. by right.
Qed.
End exec.
