(* ===== verification/ThreadThm.v ===== *)
(** * What the thread system guarantees

    The invariant holds in every reachable configuration; the scheduler is
    fair; whoever sleeps in [P] or [lock_acquire] has to wait. *)

From S2P Require Import Prelude Array Queue Thread Synch KPres SynchLock ThreadInv ThreadStep ThreadExec.

Section config.
Context {E : Type} `{!KEnv E} {C : Type}.
Abbreviation kst := (kstate E).
Abbreviation frames := (list (frame C)).
Abbreviation cfg := (config (E := E) (C := C)).
Context (client : kst → C → action (C := C) → C → Prop).
Implicit Types (k : kst) (st : gmap Z frames) (fr fs : frames) (cf : cfg).

(** The first frame of the current thread. *)
Definition top_ok (k : kst) (fs : frames) : Prop :=
  match fs with f :: _ => (starts f = true ∧ spl k > 0) ∨ calm f | [] => True end.

Definition kinv (cf : cfg) (R S Zl : list Z) : Prop :=
  inv None (cf_k cf) (cf_st cf) 1 R S Zl ∧ cur (cf_k cf) ≠ 0 ∧
  ∃ fs, cf_st cf !! cur (cf_k cf) = Some fs ∧ Forall calm (tail fs) ∧ top_ok (cf_k cf) fs.

(** The current thread has just been dispatched. *)
Definition dispatched (cf : cfg) : bool :=
  match cf_st cf !! cur (cf_k cf) with Some (f :: _) => starts f | _ => false end.

(** A step in which a dispatched thread takes up its work. *)
Definition takes_up (ev : event (C := C)) : bool := match ev with LFrame f => starts f | _ => false end.

Definition timer (ev : event (C := C)) : bool := match ev with LIrq IrqTimer => true | _ => false end.

(** The processor stays with the thread, or goes to the first of the queue. *)
Inductive sched (R : list Z) (cf : cfg) (ev : event (C := C)) (cf' : cfg) (R' : list Z) : Prop :=
| sched_stay W : cur (cf_k cf') = cur (cf_k cf) → R' = R ++ W → dispatched cf' = false → timer ev = false →
    dispatched cf = takes_up ev → sched R cf ev cf' R'
| sched_switch W : R ++ W = cur (cf_k cf') :: R' → dispatched cf' = true → dispatched cf = false →
    takes_up ev = false → sched R cf ev cf' R'.

Lemma stay_config k st k' fs R S Zl :
  inv None k' (<[cur k := fs]> st) 1 R S Zl → cur k' = cur k → cur k ≠ 0 → Forall calm fs →
  let cf' := mkCfg k' (<[cur k := fs]> st) in kinv cf' R S Zl ∧ dispatched cf' = false.
Proof.
  intros Hi Hc Hk Hfs cf'. unfold kinv, dispatched. cbn. rewrite Hc, lookup_insert_eq. split_and!; [done..| |].
  - exists fs. split_and!; [done|by apply Forall_tail|]. destruct Hfs; [done|by right].
  - by destruct Hfs as [|f fs [? _]].
Qed.

Lemma switch_config st R k' :
  switched st R k' → ∃ W R' S' Zl', R ++ W = cur k' :: R' ∧ kinv (mkCfg k' st) R' S' Zl' ∧ dispatched (mkCfg k' st) = true.
Proof.
  intros (W & R' & S' & Zl' & HR & Hi & Hc & (_ & f & fr & Hst & Hf & Hfr) & Hs). exists W, R', S', Zl'. split; [done|].
  unfold kinv, dispatched. cbn. rewrite Hst. split_and!; [done..| |done]. exists (f :: fr). split_and!; [done..|]. by left.
Qed.

(** A segment of a thread that had already taken up its work. *)
Lemma seg_config k st fr R fs k' ev :
  seg st fr R k fs k' → cur k ≠ 0 → Forall calm fr → takes_up ev = false →
  dispatched (mkCfg k st) = false → (timer ev = true → ∃ fs', fs = FSwitch :: fs') →
  let cf' := mkCfg k' (<[cur k := fs ++ fr]> st) in
  ∃ R' S' Zl', kinv cf' R' S' Zl' ∧ sched R (mkCfg k st) ev cf' R'.
Proof.
  intros Hs Hk Hfr Hev Hd Ht. destruct Hs as [(W & S' & Zl' & Hi & Hc & Hfs)|[_ Hsw]].
  - destruct (stay_config k st k' (fs ++ fr) (R ++ W) S' Zl' Hi Hc Hk) as [Hk' Hd']; [by apply Forall_app|].
    exists (R ++ W), S', Zl'. split; [done|]. eapply sched_stay; try done; [|congruence].
    destruct (timer ev); [|done]. destruct (Ht eq_refl) as [fs' ->]. by apply Forall_cons_1 in Hfs as [[? _] _].
  - destruct (switch_config _ _ _ Hsw) as (W & R' & S' & Zl' & HR & Hk' & Hd'). exists R', S', Zl'.
    split; [done|]. by eapply sched_switch.
Qed.

Lemma kinv_dispatched k st R S Zl f fr :
  kinv (mkCfg k st) R S Zl → st !! cur k = Some (f :: fr) →
  runs k st fr R S Zl ∧ dispatched (mkCfg k st) = starts f ∧ (starts f = true ∨ calm f).
Proof.
  intros (Hi & Hc & fs & Hst & Hcalm & Htop) Hst'. cbn in *. rewrite Hst' in Hst. injection Hst as <-.
  split_and!; [by split_and!|unfold dispatched; cbn; by rewrite Hst'|]. cbn in Htop. destruct Htop as [[? _]|?]; auto.
Qed.

Lemma kstep_kinv cf t ev cf' R S Zl :
  kinv cf R S Zl → kstep client cf (t, ev) cf' → t = cur (cf_k cf) ∧ ∃ R' S' Zl', kinv cf' R' S' Zl' ∧ sched R cf ev cf' R'.
Proof.
  intros Hk Hst. remember (t, ev) as lab eqn:Hlab. destruct Hst as [k st f fr fs k' Hst Hcl Hr|k st c c' o fr fs k' Hst Hcl Hr|
    k st c c' n cn fr r p k' Hst Hcl Hr|k st c c' fr Hst Hcl|k st i fr fs k' Hst Hie Hr]; injection Hlab as <- <-; (split; [done|]).
  - destruct (kinv_dispatched _ _ _ _ _ _ _ Hk Hst) as (Hrun & Hd & Hf). pose proof Hrun as (_ & Hc & Hfr).
    destruct (starts f) eqn:Hs.
    + destruct (start_seg f k st fr R S Zl Hrun Hs fs k' Hr) as (Zl' & Hi' & Hc' & Hfs).
      destruct (stay_config k st k' (fs ++ fr) R S Zl') as [Hk' Hd']; [rewrite <-Hc'; by apply inv_stack_cur|done|done|by apply Forall_app|].
      exists R, S, Zl'. split; [done|]. apply (sched_stay _ _ _ _ _ []); rewrite ?app_nil_r; try done. cbn [takes_up]. congruence.
    + destruct Hf as [?|Hf]; [done|]. eapply seg_config; try done.
      by apply (resume_seg f k st fr R S Zl Hrun (or_intror Hf)).
  - destruct (kinv_dispatched _ _ _ _ _ _ _ Hk Hst) as (Hrun & Hd & Hf). pose proof Hrun as (Hi & Hc & Hfr).
    assert (Forall calm (FClient c' :: fr)) as Hfr' by (constructor; [done|exact Hfr]).
    eapply seg_config; try done. by eapply (exec_op_seg o k st (FClient c' :: fr) R S Zl).
  - destruct (kinv_dispatched _ _ _ _ _ _ _ Hk Hst) as (Hrun & Hd & Hf). pose proof Hrun as (Hi & Hc & Hfr).
    pose proof (thread_fork_slp k st R S Zl (FStart n) [FClient cn; FExit] Hi Hc eq_refl ltac:(by repeat constructor) _ _ Hr) as [Hc' Hp].
    assert (Forall calm (FClient c' :: fr)) as Hfr' by (constructor; [done|exact Hfr]).
    destruct (Z.eqb_spec r 0) as [->|Hne]; [rewrite decide_True in Hp by done; destruct Hp as [Hi' Hpc]|rewrite decide_False in Hp by done].
    + destruct (stay_config k (<[p := [FStart n; FClient cn; FExit]]> st) k' (FClient c' :: fr) (R ++ [p]) S Zl) as [Hk' Hd'];
        [rewrite <-Hc'; by apply inv_stack_cur|done..|]. exists (R ++ [p]), S, Zl. split; [done|]. by eapply sched_stay.
    + destruct (stay_config k st k' (FClient c' :: fr) R S Zl) as [Hk' Hd']; [rewrite <-Hc'; by apply inv_stack_cur|done..|].
      exists R, S, Zl. split; [done|]. apply (sched_stay _ _ _ _ _ []); rewrite ?app_nil_r; done.
  - destruct (kinv_dispatched _ _ _ _ _ _ _ Hk Hst) as (Hrun & Hd & Hf). pose proof Hrun as (Hi & Hc & Hfr).
    destruct (stay_config k st k fr R S Zl) as [Hk' Hd']; [by apply inv_stack_cur|done..|].
    exists R, S, Zl. split; [done|]. apply (sched_stay _ _ _ _ _ []); rewrite ?app_nil_r; done.
  - destruct Hk as (Hi & Hc & fs0 & Hst0 & Hcalm & Htop). cbn in *. rewrite Hst in Hst0. injection Hst0 as <-.
    assert (Forall calm fr ∧ dispatched (mkCfg k st) = false) as [Hfr Hd].
    { unfold dispatched. cbn. rewrite Hst. destruct fr as [|f fr]; [done|]. destruct Htop as [[_ Hs]|Hf].
      - apply (inv_ie _ _ _ _ _ _ _ Hi) in Hs. congruence.
      - split; [constructor; [exact Hf|exact Hcalm]|apply Hf]. }
    destruct (mips_interrupt_seg i k st fr R S Zl) with (a := fs) (s' := k') as [Hseg Ht]; [by split_and!|done|done|].
    eapply seg_config; try done. cbn. destruct i; [intros _; by apply Ht|done].
Qed.

Lemma ksteps_kinv cf ls cf' R S Zl :
  kinv cf R S Zl → ksteps client cf ls cf' → ∃ R' S' Zl', kinv cf' R' S' Zl'.
Proof.
  intros Hk Hs. revert R S Zl Hk. induction Hs as [|cf [t ev] cf1 ls cf2 Hst _ IH]; intros R S Zl Hk; [by exists R, S, Zl|].
  destruct (kstep_kinv _ _ _ _ _ _ _ Hk Hst) as (_ & R' & S' & Zl' & Hk' & _). by eapply IH.
Qed.

(** ** Fairness *)

(** The clock interrupts that running threads take. *)
Definition ticks (ls : list (label (C := C))) : nat := length (filter (λ lab : label (C := C), timer lab.2 = true) ls).

Lemma ticks_cons t ev ls : ticks ((t, ev) :: ls) = ((if timer ev then 1 else 0) + ticks ls)%nat.
Proof. unfold ticks. rewrite filter_cons. cbn. destruct (timer ev); cbn; done. Qed.

Lemma queue_moves cf ls cf' pre t post S Zl :
  kinv cf (pre ++ t :: post) S Zl → ksteps client cf ls cf' →
  Forall (λ lab, lab.1 ≠ t) ls → cur (cf_k cf') ≠ t → (ticks ls ≤ length pre)%nat.
Proof.
  intros Hk Hs. revert pre post S Zl Hk. induction Hs as [cf|cf [u ev] cf1 ls cf2 Hst Hrest IH]; intros pre post S Zl Hk Hne Hcur.
  { cbn. lia. }
  apply Forall_cons_1 in Hne as [Hu Hne]. cbn in Hu. rewrite ticks_cons.
  destruct (kstep_kinv _ _ _ _ _ _ _ Hk Hst) as (-> & R' & S' & Zl' & Hk' & Hsched).
  destruct Hsched as [W Hc -> Hd Ht Hd0|W HR Hd Hd0 Hev].
  - rewrite Ht. rewrite <-app_assoc, <-app_comm_cons in Hk'. by apply (IH pre (post ++ W) S' Zl').
  - destruct pre as [|y pre]; cbn in HR; injection HR as HR HR'.
    + exfalso. destruct Hrest as [|cf1 [u' ev'] cf3 ls' cf4 Hst' _]; [done|].
      destruct (kstep_kinv _ _ _ _ _ _ _ Hk' Hst') as (-> & _). apply Forall_cons_1 in Hne as [Hne _]. cbn in Hne. congruence.
    + rewrite <-app_assoc, <-app_comm_cons in HR'. rewrite <-HR' in Hk'.
      specialize (IH pre (post ++ W) S' Zl' Hk' Hne Hcur). cbn. destruct (timer ev); lia.
Qed.

(** ** Boot *)

(** The kernel before it has threads: interrupts off, nothing allocated. *)
Definition powered_on k : Prop :=
  cur k = 0 ∧ k_threads k = ∅ ∧ k_sems k = ∅ ∧ k_locks k = ∅ ∧ 0 < k_next k ∧
  length (k_table k) = 128%nat ∧ c_ie (k_cpu k) = false.

(** The same with some locks. *)
Definition no_threads k : Prop :=
  cur k = 0 ∧ k_threads k = ∅ ∧ k_sems k = ∅ ∧ (∀ l, is_Some (k_locks k !! l) → l < k_next k) ∧ 0 < k_next k ∧
  length (k_table k) = 128%nat ∧ c_ie (k_cpu k) = false.

Lemma no_threads_alloc k m n : no_threads k → k_next k ≤ n → no_threads (set_alloc n m k).
Proof.
  intros (? & ? & ? & Hl & ? & ? & ?) Hn. split_and!; try done; cbn; [|lia]. intros l Hlk. specialize (Hl l Hlk). lia.
Qed.

Definition same_lists k k' : Prop := k_lists k' = k_lists k ∧ k_table k' = k_table k.

(** A lock or a condition variable. *)
Lemma create_boot k (store : Z → kst → kst) (Q : Z → kst → Prop) :
  no_threads k → (∀ p k1, no_threads k1 → p < k_next k1 → no_threads (store p k1) ∧ same_lists k1 (store p k1)) →
  (∀ p k', no_threads k' → same_lists k k' → Q p k') →
  slp (p ← k_malloc; if p =? 0 then mret 0 else
       name ← k_malloc; if name =? 0 then mret 0 else modify (store p);; mret p) k Q.
Proof.
  intros Hk Hst HQ. apply slp_bind, k_malloc_split; intros m1.
  { apply slp_ret. apply HQ; [|done]. by apply no_threads_alloc. }
  destruct (_ =? 0); [apply slp_ret, HQ; [apply no_threads_alloc; [done|lia]|done]|].
  apply slp_bind, k_malloc_split; intros m2.
  { apply slp_ret, HQ; [|done]. apply no_threads_alloc; [apply no_threads_alloc; [done|lia]|done]. }
  destruct (_ =? 0).
  { apply slp_ret, HQ; [|done]. apply no_threads_alloc; [apply no_threads_alloc; [done|lia]|lia]. }
  apply slp_bind, slp_modify, slp_ret. cbn [k_next set_alloc].
  destruct (Hst (k_next k) (set_alloc (k_next k + 1 + 1) m2 (set_alloc (k_next k + 1) m1 k))) as [H1 H2].
  - apply no_threads_alloc; [apply no_threads_alloc; [done|lia]|cbn; lia].
  - cbn. lia.
  - by apply HQ.
Qed.

Lemma boot_inv k q a z :
  no_threads k → runqueue (k_lists k) = Some q → sleepers (k_lists k) = Some a → zombies (k_lists k) = Some z →
  queue_repr q [] → array_repr a [] → array_repr z [] → slots (k_table k) = 0%nat →
  inv (C := C) None k ∅ (numthreads (k_lists k)) [] [] [].
Proof.
  intros (Hc & Ht & Hs & Hl & Hn & Htb & Hie) Hq Ha Hz Hqr Har Hzr Hsl. split; try done.
  - by exists q, a.
  - by exists z.
  - rewrite Hc. repeat constructor. by intros ?%elem_of_nil.
  - by intros ?%elem_of_nil.
  - cbn. lia.
  - by intros t ?%elem_of_nil.
  - by intros t ?%elem_of_nil.
  - unfold has_thread. rewrite Ht, Hs. intros p [[? ?]|[[? ?]|[?|[?|?]]]]; try done; [by apply Hl|by apply elem_of_nil in H|lia].
  - split; [done|]. unfold live. rewrite decide_True by done. cbn. lia.
Qed.

Lemma slots_cleared (tb : list process) : slots (clear_process <$> tb) = 0%nat.
Proof. unfold slots. induction tb as [|e tb IH]; [done|]. rewrite fmap_cons, filter_cons, decide_False; [done|]. cbn. lia. Qed.

Lemma thread_bootstrap_slp k q :
  no_threads k → runqueue (k_lists k) = Some q → queue_repr q [] → slots (k_table k) = 0%nat →
  slp thread_bootstrap k (λ me k', inv (C := C) None k' ∅ 1 [] [] [] ∧ cur k' = me ∧ me ≠ 0).
Proof.
  intros Hk Hq Hqr Hsl. unfold thread_bootstrap, put_thread. apply slp_bind.
  apply (create_boot k (λ p k, set_locks (<[p := mkLock 0]> (k_locks k)) k)); [done| |].
  { intros p k1 (? & ? & ? & Hl1 & ? & ? & ?) Hp. split; [|done]. split_and!; try done. cbn. intros l.
    rewrite lookup_insert_is_Some'. intros [<-|?]; [done|by apply Hl1]. }
  intros l k1 Hk1 [Hl1 Ht1]. apply slp_bind. apply (create_boot k1 (λ p k, set_cvs ({[p]} ∪ k_cvs k) k)); [done|done|].
  intros cv k2 Hk2 [Hl2 Ht2]. apply slp_bind, slp_modify, slp_bind, k_answer_slp. intros b1 m1.
  destruct b1; [|by apply slp_lift]. cbn [array_create]. apply slp_bind, slp_modify, slp_bind, k_answer_slp. intros b2 m2.
  destruct b2; [|by apply slp_lift]. cbn [array_create]. apply slp_bind, slp_modify, slp_bind.
  set (k3 := set_zombies _ _). assert (array_repr (mkArray (A := Z) 0 0 None) []) as Ha by (by repeat split).
  assert (inv (C := C) None k3 ∅ (numthreads (k_lists k3)) [] [] []) as Hi3.
  { apply (boot_inv k3 q (mkArray 0 0 None) (mkArray 0 0 None)); try done.
    - change (runqueue (k_lists k2) = Some q). by rewrite Hl2, Hl1.
    - change (slots (k_table k2) = 0%nat). by rewrite Ht2, Ht1. }
  eapply slp_mono; [by eapply thread_create_slp|]. intros me k4 (Hi4 & Hc4 & Hs4 & Hme).
  destruct (Z.eqb_spec me 0) as [->|Hne]; [by apply slp_lift|]. destruct (Hme Hne) as ([th Hth] & Hu & Hsl4).
  apply slp_bind, get_thread_slp. intros t Ht. apply slp_bind, slp_gets. unfold id. apply slp_bind.
  eapply put_thread_slp; [exact Hi4|by eapply thread_next|by intros ?%elem_of_nil|]. intros k5 Hi5 ->.
  apply slp_bind, slp_modify, slp_bind, slp_modify, slp_ret. split_and!; [|done..].
  apply (inv_numthreads _ _ _ _ _ _ 1) in Hi5. destruct Hi5 as [? ? ? ? _ ? ? ? Hfr Hslots Hie]. split; try done.
  - repeat constructor. by intros ?%elem_of_nil.
  - intros _. unfold has_thread. cbn. by rewrite lookup_insert_eq.
  - destruct Hslots as [? _]. split; [done|]. unfold live. cbn in *. destruct (decide _); [lia|].
    change (1 ≤ slots (k_table k4))%nat. lia.
Qed.

Lemma boot_slp k :
  powered_on k → slp boot_threads k (λ me k', inv (C := C) None k' ∅ 1 [] [] [] ∧ cur k' = me ∧ me ≠ 0).
Proof.
  intros (Hc & Ht & Hs & Hl & Hn & Htb & Hie). unfold boot_threads, init_processtable, scheduler_bootstrap.
  apply slp_bind, slp_modify. set (k1 := set_procs _ _ k).
  assert (no_threads k1 ∧ slots (k_table k1) = 0%nat) as [H1 Hsl].
  { split; [|apply slots_cleared]. split_and!; try done; cbn; [rewrite Hl; by intros l [? ?]|by rewrite length_fmap]. }
  apply slp_bind, slp_bind, k_answer_slp. intros b1 m1. apply slp_bind, k_answer_slp. intros b2 m2.
  destruct (q_create b1 b2 32) as [q|] eqn:Eq; [|by apply slp_lift].
  assert (queue_repr q []) as Hqr.
  { destruct b1, b2; try done. injection Eq as <-. apply queue_repr_new. lia. }
  apply slp_modify, slp_bind. set (k2 := set_runqueue _ _). assert (no_threads k2) as H2 by exact H1.
  eapply slp_mono; [by eapply (thread_bootstrap_slp k2 q)|].
  intros me k' (Hi & Hc' & Hme). apply slp_bind, splx_slp, slp_ret. split_and!; [by apply inv_spl|done..].
Qed.

(** ** Reachable configurations *)

(** The first thread runs [c] after boot. *)
Definition reachable cf : Prop :=
  ∃ k me k0 c ls, powered_on k ∧ boot_threads k = Done (me, k0) ∧
    ksteps client (mkCfg k0 {[ me := [FClient c; FExit] ]}) ls cf.

Lemma reachable_kinv cf : reachable cf → ∃ R S Zl, kinv cf R S Zl.
Proof.
  intros (k & me & k0 & c & ls & Hk & Hb & Hs). destruct (boot_slp k Hk me k0 Hb) as (Hi & Hc & Hme).
  eapply ksteps_kinv; [|exact Hs]. split_and!; cbn; [|congruence|].
  - rewrite <-insert_empty, <-Hc. by apply inv_stack_cur.
  - exists [FClient c; FExit]. rewrite <-Hc, lookup_singleton_eq. split_and!; [done|by repeat constructor|by right].
Qed.
End config.

(** ** A reachable configuration *)

Lemma exec_reachable c iv ls cf :
  exec script_next (started c) iv = Some (ls, cf) → reachable (client_of script_next) cf.
Proof.
  intros He. exists (kernel_off (replicate 200 true)), (cur kernel0), kernel0, c, ls. split_and!.
  - by vm_compute.
  - by vm_compute.
  - by apply exec_sound in He.
Qed.

(** Two threads want one lock; the second sleeps. *)
Definition demo_cfg : config := lock_demo_at 7.
Lemma demo_reachable : reachable (client_of script_next) demo_cfg.
Proof.
  apply (exec_reachable (lock_demo 11) (replicate 7 None)
    (from_option fst [] (exec script_next (started (lock_demo 11)) (replicate 7 None)))). by vm_compute.
Qed.

(** The first thread has forked the second. *)
Definition fork_cfg : config := lock_demo_at 2.
Lemma fork_reachable : reachable (client_of script_next) fork_cfg.
Proof.
  apply (exec_reachable (lock_demo 11) (replicate 2 None)
    (from_option fst [] (exec script_next (started (lock_demo 11)) (replicate 2 None)))). by vm_compute.
Qed.

(** [C21] Every live thread is in one place: in every configuration the kernel
    can reach from boot, whatever its threads call and whenever interrupts
    come, the run queue, the sleepers and the zombies are well-formed lists
    without duplicates, disjoint from each other and from the current thread;
    the current thread, the ready and the sleeping ones exist, and [numthreads]
    counts them. *)
Theorem threads_in_one_place {E : Type} `{!KEnv E} {C : Type} (client : kstate E → C → action → C → Prop) cf :
  reachable client cf →
  let k := cf_k cf in
  ∃ R S Zl, queues (k_lists k) R S ∧ (∃ z, zombies (k_lists k) = Some z ∧ array_repr z Zl) ∧
    NoDup (cur k :: R ++ S ++ Zl) ∧ numthreads (k_lists k) = 1 + Z.of_nat (length R + length S) ∧
    (∀ t, t ∈ cur k :: R ++ S → t ≠ 0 ∧ has_thread k t) ∧ Z.of_nat (length R + length S + length Zl) ≤ 128.
Proof.
  intros (R & S & Zl & Hi & Hc & _)%reachable_kinv k. exists R, S, Zl. split_and!; try apply Hi; [|by eapply inv_short].
  intros t [->|Ht]%elem_of_cons; [split; [done|by apply (inv_cur _ _ _ _ _ _ _ Hi)]|]. split.
  - intros ->. apply (inv_zero _ _ _ _ _ _ _ Hi). rewrite app_assoc, elem_of_app. by left.
  - eapply inv_has_thread; [exact Hi|]. by apply elem_of_app.
Qed.

Lemma threads_in_one_place_witness :
  let k := cf_k demo_cfg in
  ∃ R S Zl, queues (k_lists k) R S ∧ (∃ z, zombies (k_lists k) = Some z ∧ array_repr z Zl) ∧
    NoDup (cur k :: R ++ S ++ Zl) ∧ numthreads (k_lists k) = 1 + Z.of_nat (length R + length S) ∧
    (∀ t, t ∈ cur k :: R ++ S → t ≠ 0 ∧ has_thread k t) ∧ Z.of_nat (length R + length S + length Zl) ≤ 128.
Proof. apply (threads_in_one_place (client_of script_next)), demo_reachable. Defined.

(** The loops of thread/synch.c and clock.c in which a thread sleeps. *)
Definition waiting_loop {C} (f : frame C) : bool :=
  match f with FP _ _ | FAcquire _ _ | FPcat _ _ _ | FPmouse _ _ _ | FCvWait _ _ | FClock _ _ => true | _ => false end.

(** [C22] Semaphores and locks lose no wakeup.  In every configuration the kernel
    can reach from boot, whatever its threads call and whenever interrupts come, a
    thread on the sleepers list sleeps in one of the waiting loops.  One that
    sleeps in [P] sleeps on the address of its semaphore, and the count of that
    semaphore is 0; one that sleeps in [lock_acquire] sleeps on the address of its
    lock, and that lock has an owner.  So nobody sleeps in [P] on a semaphore that
    can be taken, nor in [lock_acquire] on a lock that is free.  (Of those that
    sleep in [cv_wait], [clocksleep] and the semaphores of the cats and mice it
    says no more than that.) *)
Theorem semaphores_locks_lose_no_wakeup {E : Type} `{!KEnv E} {C : Type} (client : kstate E → C → action → C → Prop) cf a S :
  reachable client cf → sleepers (k_lists (cf_k cf)) = Some a → array_repr a S →
  let k := cf_k cf in
  (∀ t, t ∈ S → ∃ f fr, cf_st cf !! t = Some (FSwitch :: FSleep :: f :: fr) ∧ waiting_loop f = true) ∧
  (∀ t s l fr, t ∈ S → cf_st cf !! t = Some (FSwitch :: FSleep :: FP s l :: fr) →
     t_sleepaddr <$> k_threads k !! t = Some s ∧ sem_count <$> k_sems k !! s = Some 0) ∧
  (∀ t l s fr, t ∈ S → cf_st cf !! t = Some (FSwitch :: FSleep :: FAcquire l s :: fr) →
     t_sleepaddr <$> k_threads k !! t = Some l ∧ ∃ lk, k_locks k !! l = Some lk ∧ lock_owner lk ≠ 0).
Proof.
  intros (R & S' & Zl & Hi & Hc & _)%reachable_kinv Ha Har k.
  destruct (inv_queues _ _ _ _ _ _ _ Hi) as (q & a' & _ & Ha' & _ & Har'). rewrite Ha in Ha'. injection Ha' as <-.
  rewrite (array_repr_det _ _ _ Har Har').
  assert (∀ t, t ∈ S' → ∃ f fr th, cf_st cf !! t = Some (FSwitch :: FSleep :: f :: fr) ∧ k_threads k !! t = Some th ∧ waits k f (t_sleepaddr th)) as H.
  { intros t Ht. destruct (inv_sleeping _ _ _ _ _ _ _ Hi t Ht) as (f & fr & th & ? & _ & ? & [?|?]); [done|]. by exists f, fr, th. }
  split_and!.
  - intros t Ht. destruct (H t Ht) as (f & fr & th & Hst & _ & Hw). exists f, fr. split; [done|]. by destruct f.
  - intros t s l fr Ht Hst. destruct (H t Ht) as (f & fr' & th & Hst' & Hth & Hw). rewrite Hst in Hst'. injection Hst' as <- <-.
    destruct Hw as (Haddr & sm & Hsm & Hcount). rewrite Hth, Hsm. cbn. by rewrite Haddr, Hcount.
  - intros t l s fr Ht Hst. destruct (H t Ht) as (f & fr' & th & Hst' & Hth & Hw). rewrite Hst in Hst'. injection Hst' as <- <-.
    destruct Hw as (Haddr & lk & Hlk & Howner). rewrite Hth. cbn. rewrite Haddr. eauto.
Qed.

Lemma semaphores_locks_lose_no_wakeup_witness :
  ∃ f fr, cf_st demo_cfg !! 13 = Some (FSwitch :: FSleep :: f :: fr) ∧ waiting_loop f = true.
Proof.
  refine (proj1 (semaphores_locks_lose_no_wakeup (client_of script_next) demo_cfg
    (from_option id (mkArray 0 0 None) (sleepers (k_lists (cf_k demo_cfg)))) [13] demo_reachable _ _) 13 _).
  - by vm_compute.
  - by vm_compute; repeat split.
  - by left.
Defined.

(** [C29] The scheduler is fair: in every execution from a reachable
    configuration, a thread with [n] threads before it in the run queue has got
    the processor by the time running threads have taken [n + 1] clock
    interrupts, whatever threads were forked or woken in between. *)
Theorem scheduler_round_robin {E : Type} `{!KEnv E} {C : Type} (client : kstate E → C → action → C → Prop)
    cf ls cf' pre t post S :
  reachable client cf → queues (k_lists (cf_k cf)) (pre ++ t :: post) S → ksteps client cf ls cf' →
  (length pre < ticks ls)%nat → (∃ ev, (t, ev) ∈ ls) ∨ cur (cf_k cf') = t.
Proof.
  intros (R & S' & Zl & Hk)%reachable_kinv Hq Hs Hn. destruct (decide (cur (cf_k cf') = t)) as [|Hc]; [by right|left].
  assert (R = pre ++ t :: post) as ->.
  { destruct Hk as [Hi _]. destruct (inv_queues _ _ _ _ _ _ _ Hi) as (q & a & Hq1 & _ & Hqr & _).
    destruct Hq as (q' & a' & Hq2 & _ & Hqr' & _). rewrite Hq1 in Hq2. injection Hq2 as <-. by eapply queue_repr_det. }
  destruct (decide (Exists (λ lab, lab.1 = t) ls)) as [He|He].
  - apply Exists_exists in He as ([u ev] & Hin & <-). by exists ev.
  - apply not_Exists_Forall in He; [|apply _]. pose proof (queue_moves client cf ls cf' pre t post S' Zl Hk Hs He Hc). lia.
Qed.

Definition tick_end : list (label (C := script)) * config :=
  from_option id ([], fork_cfg) (exec script_next fork_cfg [Some IrqTimer]).

Lemma scheduler_round_robin_witness : (∃ ev, (13, ev) ∈ tick_end.1) ∨ cur (cf_k tick_end.2) = 13.
Proof.
  apply (scheduler_round_robin (client_of script_next) fork_cfg tick_end.1 tick_end.2 [] 13 [] []).
  - apply fork_reachable.
  - set (l := k_lists (cf_k fork_cfg)).
    exists (from_option id (mkQueue 0 0 0 []) (runqueue l)), (from_option id (mkArray 0 0 None) (sleepers l)).
    split_and!; [by vm_compute..| |by vm_compute; repeat split]. vm_compute. repeat split; try done.
    intros [|n] x; [by intros [= <-]|done].
  - apply exec_sound with (iv := [Some IrqTimer]). by vm_compute.
  - vm_compute. lia.
Defined.

(** [thread_wakeup] makes exactly the threads that sleep on the address
    ready, in the order of the sleepers list, and [thread_onewakeup] the first
    of them; the others stay asleep, and nothing else changes.  They return,
    and never run into undefined behaviour; they panic only if the run queue
    has to grow and memory is out. *)
Theorem thread_wakeup_exact {E : Type} `{!KEnv E} (k : kstate E) R S addr :
  queues (k_lists k) R S → spl k > 0 → short R S → (∀ p, p ∈ S → has_thread k p) →
  let W := filter (sleeps_on k addr) S in
  swpp (rq_size k ≤ Z.of_nat (length R + length W)) (thread_wakeup addr) k (λ _ k',
    rewoken k k' (R ++ W) (filter (λ p, ¬ sleeps_on k addr p) S)) ∧
  swpp (rq_size k ≤ Z.of_nat (length R) + 1) (thread_onewakeup addr) k (λ _ k',
    match W with
    | [] => rewoken k k' R S
    | w :: _ => ∃ S1 S2, S = S1 ++ w :: S2 ∧ (w ∉ S1) ∧ rewoken k k' (R ++ [w]) (S1 ++ S2)
    end).
Proof.
  intros Hq Hs Hsh Hth W. split.
  - pose proof (wakeup_spec (rq_size k ≤ Z.of_nat (length R + length W)) false addr k R S Hq Hs Hsh Hth) as H.
    rewrite woken_all, asleep_all in H. by apply H.
  - eapply swpp_mono; [apply (wakeup_spec _ true addr k R S Hq Hs Hsh Hth)|].
    + intros Hle. assert (length (woken (sleeps_on k addr) true S) ≤ 1)%nat; [|lia]. apply woken_one.
    + intros [] k' Hk'. unfold W. destruct (filter _ S) as [|w l] eqn:Ef.
      * destruct (woken_none (sleeps_on k addr) S true Ef) as [Hw Ha]. by rewrite Hw, Ha, app_nil_r in Hk'.
      * destruct (woken_first (sleeps_on k addr) S w l Ef) as (S1 & S2 & HS & Hw1 & Hw & Ha). exists S1, S2.
        split_and!; [done..|]. by rewrite Hw, Ha in Hk'.
Qed.

