(* ===== verification/CatMouse.v ===== *)
(** * Cats and mice (asst1/catsem.c)

    The threads of the cat and mouse problem as the code that calls the
    primitives of Synch, and the property the two bowls are there for: a cat
    and a mouse never eat at the same time, and nobody shares a bowl. *)

From S2P Require Import Prelude Array Queue Thread Synch KPres.

Definition NCATS : Z := 6.
Definition NMICE : Z := 2.

Inductive animal := Cat | Mouse.

(** Where a thread is in [catsem] or [mousesem]; bowls are numbered 1 and 2. *)
Inductive position :=
| AtLoop
| AtSecond
| Eating (bowl : Z)
| Ate (bowl : Z)
| LeftBowl (bowl : Z).

(** An animal, or the thread that runs [catmousesem]. *)
Inductive cmcode :=
| Eater (a : animal) (number : Z) (p : position)
| Driver (index : Z).

Section catmouse.
Context {E : Type} `{!KEnv E}.
Abbreviation kst := (kstate E).
Abbreviation frames := (list (frame cmcode)).
Context (B1sem B2sem : Z).

Definition bowlSem (bowl : Z) : Z := if bowl =? 1 then B1sem else B2sem.
Definition anotherSem (bowl : Z) : Z := if bowl =? 1 then B2sem else B1sem.

(** [Pcat] or [Pmouse], [Vcat] or [Vmouse]. *)
Definition take_bowl (a : animal) (bowl : Z) : op :=
  match a with Cat => OpPcat (bowlSem bowl) (anotherSem bowl) | Mouse => OpPmouse (bowlSem bowl) (anotherSem bowl) end.
Definition leave_bowl (a : animal) (bowl : Z) : op :=
  match a with Cat => OpVcat (bowlSem bowl) (anotherSem bowl) | Mouse => OpVmouse (bowlSem bowl) (anotherSem bowl) end.

Definition sem_eat : op := OpClocksleep 1.

(** [catEatBowl] and [mouseEatBowl] from the moment the bowl is taken. *)
Definition eatBowl_step (a : animal) (p : position) (after : position) : option (op * position) :=
  match p with
  | Eating b => Some (sem_eat, Ate b)
  | Ate b => Some (leave_bowl a b, LeftBowl b)
  | LeftBowl _ => Some (OpIterate, after)
  | _ => None
  end.

(** Cats start with bowl 2, mice with bowl 1. *)
Definition first_bowl (a : animal) : Z := match a with Cat => 2 | Mouse => 1 end.
Definition second_bowl (a : animal) : Z := match a with Cat => 1 | Mouse => 2 end.

(** [catsem] and [mousesem]. *)
Definition eater_step (k : kst) (a : animal) (n : Z) (p : position) : option (action (C := cmcode) * cmcode) :=
  match p with
  | AtLoop =>
      match k_threads k !! cur k with
      | None => None
      | Some th =>
          if iteration th <? 3
          then Some (ACall (take_bowl a (first_bowl a)), Eater a n (Eating (first_bowl a)))
          else Some (AReturn, Eater a n AtLoop)
      end
  | AtSecond => Some (ACall (take_bowl a (second_bowl a)), Eater a n (Eating (second_bowl a)))
  | Eating b | Ate b | LeftBowl b =>
      '(o, p') ← eatBowl_step a p (if b =? first_bowl a then AtSecond else AtLoop);
      Some (ACall o, Eater a n p')
  end.

(** [catmousesem] after it has created the semaphores; [yields] is the random
    number of yields a new thread begins with. *)
Definition catmousesem_step (yields : nat) (index : Z) : action (C := cmcode) * cmcode :=
  if index <? NCATS then (AFork yields (Eater Cat index AtLoop), Driver (index + 1))
  else if index <? NCATS + NMICE then (AFork yields (Eater Mouse (index - NCATS) AtLoop), Driver (index + 1))
  else (AReturn, Driver index).

Definition cm_client (k : kst) (c : cmcode) (act : action (C := cmcode)) (c' : cmcode) : Prop :=
  match c with
  | Eater a n p => eater_step k a n p = Some (act, c')
  | Driver i => ∃ yields, catmousesem_step yields i = (act, c')
  end.

Definition catmousesem_init : stm kst (Z * Z) :=
  b1 ← sem_create 1; b2 ← sem_create 1; mret (b1, b2).

(** ** Who is at a bowl *)

(** Decided by the topmost frame of a bowl operation or of the thread's code. *)
Fixpoint at_bowl (fs : frames) : option (animal * Z) :=
  match fs with
  | [] => None
  | FClient (Eater a _ (Eating b)) :: _ | FClient (Eater a _ (Ate b)) :: _ => Some (a, b)
  | FClient _ :: _ | FPcat _ _ _ :: _ | FPmouse _ _ _ :: _ => None
  | _ :: fs' => at_bowl fs'
  end.

(** A frame of neither. *)
Definition other_frame (f : frame cmcode) : Prop :=
  match f with FClient _ | FP _ _ | FPcat _ _ _ | FPmouse _ _ _ => False | _ => True end.

Definition bowl_number (b : Z) : Prop := b = 1 ∨ b = 2.

Definition good_code (c : cmcode) : Prop :=
  match c with Eater _ _ (Eating b) | Eater _ _ (Ate b) | Eater _ _ (LeftBowl b) => bowl_number b | _ => True end.

(** Waiting for a bowl, a thread is in the call that takes it. *)
Fixpoint good_stack (fs : frames) : Prop :=
  match fs with
  | [] => True
  | FClient c :: fs' => good_code c ∧ Forall other_frame fs'
  | FP _ _ :: _ => False
  | FPcat x y _ :: fs' => ∃ n b fs'', fs' = FClient (Eater Cat n (Eating b)) :: fs'' ∧ bowl_number b ∧
      x = bowlSem b ∧ y = anotherSem b ∧ Forall other_frame fs''
  | FPmouse x y _ :: fs' => ∃ n b fs'', fs' = FClient (Eater Mouse n (Eating b)) :: fs'' ∧ bowl_number b ∧
      x = bowlSem b ∧ y = anotherSem b ∧ Forall other_frame fs''
  | _ :: fs' => good_stack fs'
  end.

Lemma at_bowl_app pre fs : Forall other_frame pre → at_bowl (pre ++ fs) = at_bowl fs.
Proof. induction 1 as [|f pre Hf _ IH]; [done|]. by destruct f. Qed.
Lemma good_stack_app pre fs : Forall other_frame pre → good_stack (pre ++ fs) ↔ good_stack fs.
Proof. induction 1 as [|f pre Hf _ IH]; [done|]. by destruct f. Qed.
Lemma at_bowl_none fs : Forall other_frame fs → at_bowl fs = None.
Proof. intros H. rewrite <-(app_nil_r fs). by rewrite at_bowl_app. Qed.
Lemma good_stack_none fs : Forall other_frame fs → good_stack fs.
Proof. intros H. rewrite <-(app_nil_r fs). by rewrite good_stack_app. Qed.

(** ** The invariant *)

(** The semaphore of a bowl, by who is at it. *)
Definition bowl_sem (o : option (Z * animal)) : semaphore :=
  match o with None => mkSem 1 0 0 | Some (_, Cat) => mkSem 0 0 1 | Some (_, Mouse) => mkSem 0 1 0 end.

Definition driver_irqs (k : kst) : Prop := ∀ s, IrqV s ∈ k_irqs k → s ≠ B1sem ∧ s ≠ B2sem.

(** [w b] is the thread at bowl [b]. *)
Record bowls (k : kst) (st : gmap Z frames) (w : Z → option (Z * animal)) : Prop := {
  bowls_sem b : bowl_number b → k_sems k !! bowlSem b = Some (bowl_sem (w b));
  bowls_who t fs a b : st !! t = Some fs → bowl_number b → at_bowl fs = Some (a, b) ↔ w b = Some (t, a);
  bowls_at t a b : bowl_number b → w b = Some (t, a) → is_Some (st !! t);
  bowls_excl t u b : bowl_number b → w b = Some (t, Cat) → w (3 - b) ≠ Some (u, Mouse);
  bowls_stack t fs : st !! t = Some fs → good_stack fs;
  bowls_next t : is_Some (st !! t) → t < k_next k;
  bowls_irqs : driver_irqs k;
}.

(** ** What the rest of the kernel leaves alone *)

Definition same_bowls : relation kst := λ k k', driver_irqs k →
  driver_irqs k' ∧ k_sems k' !! B1sem = k_sems k !! B1sem ∧ k_sems k' !! B2sem = k_sems k !! B2sem ∧ k_next k ≤ k_next k'.

Lemma same_bowls_intro k k' :
  k_irqs k' = k_irqs k → k_sems k' = k_sems k → k_next k' = k_next k → same_bowls k k'.
Proof. intros Hi Hs Hn Hd. unfold driver_irqs. rewrite Hi, Hs, Hn. by split_and!. Qed.
#[local] Hint Extern 1 (same_bowls _ _) => (apply same_bowls_intro; reflexivity) : core.

#[local] Instance same_bowls_quiet : Quiet same_bowls.
Proof.
  split; auto. split; [by intros k Hd|]. intros k1 k2 k3 H12 H23 Hd.
  destruct (H12 Hd) as (Hd2 & E1 & E2 & Hn). destruct (H23 Hd2) as (Hd3 & E1' & E2' & Hn'). split_and!; [done|congruence..|lia].
Qed.
#[local] Instance same_bowls_switch : Switch same_bowls.
Proof. split; auto using same_bowls_quiet. Qed.

(** A semaphore that is not a bowl's. *)
Lemma put_sem_same p sm k : p ≠ B1sem → p ≠ B2sem → same_bowls k (set_sems (<[p := sm]> (k_sems k)) k).
Proof. intros H1 H2 Hd. cbn. rewrite !lookup_insert_ne by done. split_and!; done. Qed.

Lemma V_same s : s ≠ B1sem → s ≠ B2sem → pres same_bowls (V s).
Proof.
  intros H1 H2. unfold V, splhigh, deref. pres_step; [pres_solve|]. pres_step; [pres_solve|].
  intros k. apply slp_bind, slp_gets. apply slp_bind, slp_lift. intros sm _. apply slp_bind, slp_lift. intros n _.
  apply slp_bind, slp_modify.
  match goal with |- slp ?m _ _ => assert (pres same_bowls m) as H by pres_solve end.
  eapply slp_mono; [apply H|]. intros ? k' Hk'. etrans; [|exact Hk']. by apply put_sem_same.
Qed.

#[local] Instance same_bowls_idle : Idle same_bowls.
Proof.
  intros k a k' H Hd. revert a k' H. unfold cpu_idle, assert_spl.
  cut (slp (assert_spl;; k ← get_k; match k_irqs k with
    | [] => lift NoFuel
    | i :: l => modify (set_irqs l);; modify (set_ie true);; idle_interrupt i;; modify (set_ie false) end) k
    (λ _ k', same_bowls k k')); [intros Hs a k' H; by apply (Hs a k' H)|].
  unfold assert_spl. apply slp_bind, slp_bind, slp_gets, slp_kassert. intros _. apply slp_bind, slp_gets. unfold id.
  destruct (k_irqs k) as [|i l] eqn:Ei; [by apply slp_lift|]. apply slp_bind, slp_modify.
  assert (pres same_bowls (idle_interrupt i)) as Hi.
  { apply switch_idle_interrupt; [apply _|]. intros s ->. destruct (Hd s); [rewrite Ei; by left|]. by apply V_same. }
  assert (same_bowls k (set_irqs l k)) as Hl.
  { intros _. split_and!; [|done..]. intros s Hs. apply Hd. rewrite Ei. by right. }
  match goal with |- slp ?m ?k1 _ => assert (pres same_bowls m) as H by pres_solve end.
  eapply slp_mono; [apply H|]. intros ? k' Hk'. by etrans.
Qed.

Lemma same_bowls_alloc k n m : k_next k ≤ n → same_bowls k (set_alloc n m k).
Proof. intros Hn Hd. by split_and!. Qed.
Lemma same_k_malloc : pres same_bowls k_malloc.
Proof. intros k. apply k_malloc_split; intros m; apply same_bowls_alloc; lia. Qed.
#[local] Hint Resolve same_k_malloc : pres.
Lemma same_lock_create : pres same_bowls lock_create.
Proof. unfold lock_create, put_lock. pres_solve. Qed.
Lemma same_cv_create : pres same_bowls cv_create.
Proof. unfold cv_create. pres_solve. Qed.
#[local] Hint Resolve same_lock_create same_cv_create : pres.
Lemma same_acquire_loop l s : pres same_bowls (acquire_loop (C := cmcode) l s).
Proof. unfold acquire_loop, get_lock, put_lock, deref. pres_solve. Qed.
#[local] Hint Resolve same_acquire_loop : pres.
Lemma same_lock_acquire l : pres same_bowls (lock_acquire (C := cmcode) l).
Proof. unfold lock_acquire, assert_ptr, splhigh. pres_solve. Qed.
Lemma same_lock_release l : pres same_bowls (lock_release l).
Proof. unfold lock_release, assert_ptr, splhigh, get_lock, put_lock, deref. pres_solve. Qed.
#[local] Hint Resolve same_lock_acquire same_lock_release : pres.
Lemma same_thread_fork : pres same_bowls thread_fork.
Proof.
  unfold thread_fork, thread_create, fill_slot, fork_enter, fork_reserve, scheduler_preallocate, assert_spl, splhigh,
    free_thread, on_env, get_curthread, get_thread, put_thread, get_sleepers, get_zombies, get_runqueue, deref. pres_solve.
Qed.

(** The frames that do not concern the bowls. *)
Lemma same_resume f : other_frame f → pres same_bowls (resume f).
Proof.
  intros Hf. destruct f as [| | | | | | | | | |n|[|n]| | | |]; try done; cbn [resume];
    unfold thread_exit, splhigh, get_curthread, get_thread, deref; pres_solve.
Qed.

Ltac frames_solve := repeat returns_step; repeat case_match; repeat constructor.

Lemma frames_acquire_loop l s : returns (Forall other_frame) (acquire_loop (C := cmcode) l s).
Proof. unfold acquire_loop. frames_solve. Qed.
Lemma frames_lock_acquire l : returns (Forall other_frame) (lock_acquire (C := cmcode) l).
Proof. unfold lock_acquire. do 2 returns_step. apply frames_acquire_loop. Qed.
Lemma frames_yield : returns (Forall other_frame) (yield_frames (C := cmcode)).
Proof. unfold yield_frames. frames_solve. Qed.
Lemma frames_clock_loop n s : returns (Forall other_frame) (clock_loop (C := cmcode) n s).
Proof. unfold clock_loop. frames_solve. Qed.
Lemma frames_interrupt i : returns (Forall other_frame) (mips_interrupt (C := cmcode) i).
Proof. unfold mips_interrupt. frames_solve. Qed.

Lemma frames_resume f : other_frame f → returns (Forall other_frame) (resume f).
Proof.
  intros Hf. destruct f as [| | | | | | | | | |n|[|n]| | | |]; try done; cbn [resume].
  all: try solve [frames_solve].
  - apply frames_acquire_loop.
  - eapply returns_bind'; [apply frames_lock_acquire|]. intros fs Hfs. apply returns_ret, Forall_app. split; [done|by repeat constructor].
  - apply frames_clock_loop.
  - unfold mi_threadstart. frames_solve.
  - eapply returns_bind'; [apply frames_yield|]. intros fs Hfs. apply returns_ret, Forall_app. split; [done|by repeat constructor].
  - unfold thread_exit. do 4 (apply returns_bind; intros ?). destruct (_ =? _); [|unfold exit_rest; frames_solve].
    eapply returns_bind'; [apply frames_lock_acquire|]. intros fs Hfs. apply returns_ret, Forall_app. split; [done|by repeat constructor].
  - unfold exit_rest. frames_solve.
Qed.

(** ** The steps keep the invariant *)

Context (HB : B1sem ≠ B2sem).
Implicit Types (k : kst) (st : gmap Z frames) (fs fr : frames) (w : Z → option (Z * animal)).

Lemma bowl_other b : bowl_number b → bowl_number (3 - b) ∧ anotherSem b = bowlSem (3 - b) ∧ bowlSem b ≠ bowlSem (3 - b).
Proof. intros [-> | ->]; cbn; unfold bowl_number; split_and!; auto. Qed.

Lemma same_bowls_sem k k' b :
  same_bowls k k' → driver_irqs k → bowl_number b → k_sems k' !! bowlSem b = k_sems k !! bowlSem b.
Proof. intros H Hd Hb. destruct (H Hd) as (_ & H1 & H2 & _). by destruct Hb as [-> | ->]. Qed.

(** The stack of one thread changes, and who is where not. *)
Lemma bowls_quiet k k' st w t fs fs' :
  bowls k st w → same_bowls k k' → st !! t = Some fs → at_bowl fs' = at_bowl fs → good_stack fs' →
  bowls k' (<[t := fs']> st) w.
Proof.
  intros [Hsem Hwho Hat Hex Hstk Hnx Hirq] Hs Ht Hab Hg. destruct (Hs Hirq) as (Hirq' & _ & _ & Hn). split.
  - intros b Hb. rewrite (same_bowls_sem k k') by done. by apply Hsem.
  - intros u fs0 a b Hu Hb. destruct (decide (u = t)) as [->|Hne].
    + rewrite lookup_insert_eq in Hu. injection Hu as <-. rewrite Hab. by apply Hwho.
    + rewrite lookup_insert_ne in Hu by done. by apply Hwho.
  - intros u a b Hb Hw. apply lookup_insert_is_Some'. right. by eapply Hat.
  - done.
  - intros u fs0 Hu. destruct (decide (u = t)) as [->|Hne].
    + rewrite lookup_insert_eq in Hu. by injection Hu as <-.
    + rewrite lookup_insert_ne in Hu by done. by eapply Hstk.
  - intros u Hu. apply lookup_insert_is_Some' in Hu. assert (u < k_next k); [|lia]. apply Hnx. destruct Hu as [->|?]; [by rewrite Ht|done].
  - done.
Qed.

(** A new thread. *)
Lemma bowls_new k st w t fs :
  bowls k st w → st !! t = None → t < k_next k → at_bowl fs = None → good_stack fs → bowls k (<[t := fs]> st) w.
Proof.
  intros [Hsem Hwho Hat Hex Hstk Hnx Hirq] Ht Hlt Hab Hg. split; try done.
  - intros u fs0 a b Hu Hb. destruct (decide (u = t)) as [->|Hne].
    + rewrite lookup_insert_eq in Hu. injection Hu as <-. rewrite Hab. split; [done|].
      intros Hw. destruct (Hat t a b Hb Hw) as [x Hx]. congruence.
    + rewrite lookup_insert_ne in Hu by done. by apply Hwho.
  - intros u a b Hb Hw. apply lookup_insert_is_Some'. right. by eapply Hat.
  - intros u fs0 Hu. destruct (decide (u = t)) as [->|Hne].
    + rewrite lookup_insert_eq in Hu. by injection Hu as <-.
    + rewrite lookup_insert_ne in Hu by done. by eapply Hstk.
  - intros u Hu. apply lookup_insert_is_Some' in Hu as [->|?]; [done|by apply Hnx].
Qed.

(** Bowl [b] is taken or left by [t]: [x] is there now. *)
Definition set_bowl w (b : Z) (x : option (Z * animal)) : Z → option (Z * animal) :=
  λ c, if decide (c = b) then x else w c.

Lemma bowls_change k k' st w t fs fs' b x :
  bowls k st w → bowl_number b → st !! t = Some fs → good_stack fs' →
  same_bowls (set_sems (<[bowlSem b := bowl_sem x]> (k_sems k)) k) k' →
  (∀ a c, bowl_number c → at_bowl fs' = Some (a, c) ↔ set_bowl w b x c = Some (t, a)) →
  (∀ u a, x = Some (u, a) → u = t) → (∀ u a, w b = Some (u, a) → u = t) →
  (∀ u a v a', x = Some (u, a) → w (3 - b) = Some (v, a') → a' = a) →
  bowls k' (<[t := fs']> st) (set_bowl w b x).
Proof.
  intros [Hsem Hwho Hat Hex Hstk Hnx Hirq] Hb Ht Hg Hs Hab Hx Hwb Hkind.
  destruct (Hs Hirq) as (Hirq' & _ & _ & Hn). cbn in Hn. destruct (bowl_other b Hb) as (Hb' & _ & Hne). unfold set_bowl in *. split.
  - intros c Hc. rewrite (same_bowls_sem _ k' c Hs Hirq Hc). cbn. destruct (decide (c = b)) as [->|Hcb].
    + by rewrite lookup_insert_eq.
    + assert (c = 3 - b) as -> by (destruct Hb, Hc; lia). rewrite lookup_insert_ne by done. by apply Hsem.
  - intros u fs0 a c Hu Hc. destruct (decide (u = t)) as [->|Hut].
    + rewrite lookup_insert_eq in Hu. injection Hu as <-. by apply Hab.
    + rewrite lookup_insert_ne in Hu by done. rewrite (Hwho u fs0 a c Hu Hc). destruct (decide (c = b)) as [->|]; [|done].
      split; [intros Hw; by destruct Hut; apply (Hwb u a)|]. intros ->. by destruct Hut; apply (Hx u a).
  - intros u a c Hc Hw. apply lookup_insert_is_Some'. destruct (decide (c = b)); [left; symmetry; by apply (Hx u a)|right; by eapply Hat].
  - intros u v c Hc. destruct (decide (c = b)) as [->|Hcb].
    + rewrite decide_False by lia. intros -> Hw. by specialize (Hkind u Cat v Mouse eq_refl Hw).
    + assert (c = 3 - b) as -> by (destruct Hb, Hc; lia). rewrite decide_True by lia. intros Hw ->.
      by specialize (Hkind v Mouse u Cat eq_refl Hw).
  - intros u fs0 Hu. destruct (decide (u = t)) as [->|].
    + rewrite lookup_insert_eq in Hu. by injection Hu as <-.
    + rewrite lookup_insert_ne in Hu by done. by eapply Hstk.
  - intros u Hu. apply lookup_insert_is_Some' in Hu. assert (u < k_next k); [|lia]. apply Hnx. destruct Hu as [->|?]; [by rewrite Ht|done].
  - done.
Qed.

(** The end of a taken bowl's [Pcat] or [Pmouse]. *)
Lemma taken_bowls a n b s k st w t fs fr :
  bowls k st w → bowl_number b → st !! t = Some fs → at_bowl fs = None → Forall other_frame fr →
  w b = None → (∀ v a', w (3 - b) = Some (v, a') → a' = a) →
  slp (put_sem (bowlSem b) (bowl_sem (Some (t, a)));; _ ← splx s; mret []) k (λ fs' k',
    ∃ w', bowls k' (<[t := fs' ++ FClient (Eater a n (Eating b)) :: fr]> st) w').
Proof.
  intros Hk Hb Ht Hab Hfr Hw Hkind. unfold put_sem. apply slp_bind, slp_modify, slp_bind.
  eapply slp_mono; [apply (quiet_splx same_bowls)|]. intros z k' Hs. apply slp_ret.
  exists (set_bowl w b (Some (t, a))). apply (bowls_change k k' st w t fs _ b (Some (t, a))); try done.
  - intros a' c Hc. cbn. unfold set_bowl. destruct (decide (c = b)) as [->|Hcb]; [split; congruence|]. split; [congruence|].
    intros Hwc. apply (bowls_who _ _ _ Hk t fs a' c Ht Hc) in Hwc. congruence.
  - by intros u a' [= <- _].
  - intros u a'. by rewrite Hw.
  - intros u a' v a'' [= _ <-]. by apply Hkind.
Qed.

Lemma bowl_sem_count x : sem_count (bowl_sem x) ≠ 0 → x = None.
Proof. by destruct x as [[? []]|]. Qed.

Lemma take_bowls a n b s k st w t fs fr :
  bowls k st w → bowl_number b → st !! t = Some fs → at_bowl fs = None → Forall other_frame fr →
  slp (match a with Cat => Pcat_loop (bowlSem b) (anotherSem b) s | Mouse => Pmouse_loop (bowlSem b) (anotherSem b) s end)
    k (λ fs' k', ∃ w', bowls k' (<[t := fs' ++ FClient (Eater a n (Eating b)) :: fr]> st) w').
Proof.
  intros Hk Hb Ht Hab Hfr. destruct (bowl_other b Hb) as (Hb' & Ho & _).
  pose proof (bowls_sem _ _ _ Hk b Hb) as Hs1. pose proof (bowls_sem _ _ _ Hk _ Hb') as Hs2. rewrite <-Ho in Hs2.
  assert (∀ f : frame cmcode, f = match a with Cat => FPcat (bowlSem b) (anotherSem b) s | Mouse => FPmouse (bowlSem b) (anotherSem b) s end →
    slp (thread_sleep (bowlSem b)) k (λ _ k', ∃ w', bowls k'
      (<[t := [FSwitch; FSleep; f] ++ FClient (Eater a n (Eating b)) :: fr]> st) w')) as Hsleep.
  { intros f ->. eapply slp_mono; [apply (switch_thread_sleep same_bowls)|]. intros [] k' Hs. exists w.
    eapply bowls_quiet; [exact Hk|exact Hs|exact Ht|rewrite Hab; by destruct a|]. destruct a; cbn; by exists n, b, fr. }
  destruct a; unfold Pcat_loop, Pmouse_loop, get_sem, deref.
  all: apply slp_bind, slp_bind, slp_gets; unfold id; rewrite Hs1; apply slp_lift; intros _ [= <-].
  all: apply slp_bind, slp_bind, slp_gets; unfold id; rewrite Hs2; apply slp_lift; intros _ [= <-].
  all: destruct (_ || _) eqn:Eor; [apply slp_bind; eapply slp_mono; [by apply Hsleep|]; intros [] k' Hk'; by apply slp_ret|].
  all: apply orb_false_iff in Eor as [H0%Z.eqb_neq H1%Z.eqb_neq]; apply bowl_sem_count in H0; rewrite H0; cbn [bowl_sem sem_count].
  all: apply slp_bind, slp_kassert; intros _.
  - eapply (taken_bowls Cat); try done. intros v a' Hw. by rewrite Hw in H1; destruct a'.
  - eapply (taken_bowls Mouse); try done. intros v a' Hw. by rewrite Hw in H1; destruct a'.
Qed.

(** The call that takes a bowl. *)
Lemma call_take_bowls a n b k st w t fs fr :
  bowls k st w → bowl_number b → st !! t = Some fs → at_bowl fs = None → Forall other_frame fr →
  slp (exec_op (take_bowl a b)) k (λ fs' k', ∃ w', bowls k' (<[t := fs' ++ FClient (Eater a n (Eating b)) :: fr]> st) w').
Proof.
  intros Hk Hb Ht Hab Hfr.
  assert (slp (assert_ptr (bowlSem b);; assert_thread;; s ← splhigh;
    match a with Cat => Pcat_loop (bowlSem b) (anotherSem b) s | Mouse => Pmouse_loop (bowlSem b) (anotherSem b) s end) k
    (λ fs' k', ∃ w', bowls k' (<[t := fs' ++ FClient (Eater a n (Eating b)) :: fr]> st) w')) as H; [|by destruct a].
  unfold assert_ptr, assert_thread, splhigh. apply slp_bind, slp_kassert. intros _.
  apply slp_bind, slp_bind, slp_gets, slp_kassert. intros _. apply slp_bind.
  eapply slp_mono; [apply (quiet_splx same_bowls)|]. intros s k1 Hs.
  assert (bowls k1 st w) as Hk1.
  { rewrite <-(insert_id st t fs Ht). eapply bowls_quiet; [exact Hk|exact Hs|exact Ht|done|by apply (bowls_stack _ _ _ Hk t)]. }
  by eapply take_bowls.
Qed.

(** Bowls do not see a change elsewhere. *)
Lemma bowls_same k k1 st w t fs : bowls k st w → same_bowls k k1 → st !! t = Some fs → bowls k1 st w.
Proof.
  intros Hk Hs Ht. rewrite <-(insert_id st t fs Ht).
  eapply bowls_quiet; [exact Hk|exact Hs|exact Ht|done|by apply (bowls_stack _ _ _ Hk t)].
Qed.

Lemma left_bowls a n b s k st w t fr :
  bowls k st w → bowl_number b → st !! t = Some (FClient (Eater a n (Ate b)) :: fr) → Forall other_frame fr →
  slp (put_sem (bowlSem b) (bowl_sem None);; lift (kassert true);; thread_wakeup (bowlSem b);; _ ← splx s; mret tt) k
    (λ _ k', ∃ w', bowls k' (<[t := FClient (Eater a n (LeftBowl b)) :: fr]> st) w').
Proof.
  intros Hk Hb Ht Hfr. assert (w b = Some (t, a)) as Hw by (by apply (bowls_who _ _ _ Hk t _ a b Ht Hb)).
  unfold put_sem. apply slp_bind, slp_modify.
  match goal with |- slp ?m _ _ => assert (pres same_bowls m) as H by pres_solve end.
  eapply slp_mono; [apply H|]. intros [] k' Hs. exists (set_bowl w b None).
  apply (bowls_change k k' st w t (FClient (Eater a n (Ate b)) :: fr) _ b None); try done.
  - intros a' c Hc. cbn. unfold set_bowl. split; [done|]. destruct (decide (c = b)) as [->|Hcb]; [done|].
    intros Hwc. apply (bowls_who _ _ _ Hk t _ a' c Ht Hc) in Hwc. cbn in Hwc. congruence.
  - intros u a'. rewrite Hw. by intros [= <- _].
Qed.

Lemma call_leave_bowls a n b k st w t fr :
  bowls k st w → bowl_number b → st !! t = Some (FClient (Eater a n (Ate b)) :: fr) → Forall other_frame fr →
  slp (exec_op (leave_bowl a b)) k (λ fs' k', ∃ w', bowls k' (<[t := fs' ++ FClient (Eater a n (LeftBowl b)) :: fr]> st) w').
Proof.
  intros Hk Hb Ht Hfr. assert (w b = Some (t, a)) as Hw by (by apply (bowls_who _ _ _ Hk t _ a b Ht Hb)).
  destruct a; cbn [leave_bowl exec_op]; unfold call, Vcat, Vmouse, assert_ptr, splhigh, get_sem, deref.
  all: apply slp_bind, slp_bind, slp_kassert; intros _; apply slp_bind; eapply slp_mono; [apply (quiet_splx same_bowls)|].
  all: intros s k1 Hs; pose proof (bowls_same k k1 st w t _ Hk Hs Ht) as Hk1.
  all: pose proof (bowls_sem _ _ _ Hk1 b Hb) as Hs1; rewrite Hw in Hs1.
  all: apply slp_bind, slp_bind, slp_gets; unfold id; rewrite Hs1; apply slp_lift; intros _ [= <-]; cbn [bowl_sem].
  all: apply slp_bind, slp_lift; intros m; cbn; intros [= <-].
  all: eapply slp_mono; [by eapply left_bowls|]; intros [] k' Hk'; by apply slp_ret.
Qed.

(** ** Executions *)

(** Interrupts do not raise the bowls' semaphores. *)
Definition driver_label (lab : label (C := cmcode)) : Prop :=
  match lab.2 with LIrq (IrqV s) => s ≠ B1sem ∧ s ≠ B2sem | _ => True end.

Lemma same_clocksleep n : pres same_bowls (clocksleep (C := cmcode) n).
Proof. unfold clocksleep, splhigh. pres_solve. Qed.
Lemma frames_clocksleep n : returns (Forall other_frame) (clocksleep (C := cmcode) n).
Proof. unfold clocksleep. apply returns_bind. intros s. apply frames_clock_loop. Qed.
Lemma same_iterate : pres same_bowls (exec_op (C := cmcode) OpIterate).
Proof. cbn [exec_op]. unfold call, get_thread, put_thread, deref. pres_solve. Qed.
Lemma frames_iterate : returns (Forall other_frame) (exec_op (C := cmcode) OpIterate).
Proof. cbn [exec_op]. unfold call. frames_solve. Qed.

(** A call that has nothing to do with the bowls. *)
Lemma call_quiet m k st w t c c' fr :
  pres same_bowls m → returns (Forall other_frame) m →
  bowls k st w → st !! t = Some (FClient c :: fr) → at_bowl [FClient c'] = at_bowl [FClient c] → good_code c' →
  Forall other_frame fr → slp m k (λ fs' k', ∃ w', bowls k' (<[t := fs' ++ FClient c' :: fr]> st) w').
Proof.
  intros Hm Hf Hk Ht Hab Hg Hfr fs' k' H. pose proof (Hm _ _ _ H) as Hs. apply Hf in H. exists w.
  eapply bowls_quiet; [exact Hk|exact Hs|exact Ht|rewrite at_bowl_app by done; by destruct c as [? ? []|], c' as [? ? []|]|].
  by apply good_stack_app.
Qed.

Lemma eater_call a n p o c' k st w t fr :
  bowls k st w → t = cur k → st !! t = Some (FClient (Eater a n p) :: fr) → eater_step k a n p = Some (ACall o, c') →
  slp (exec_op o) k (λ fs' k', ∃ w', bowls k' (<[t := fs' ++ FClient c' :: fr]> st) w').
Proof.
  intros Hk -> Ht Hst. destruct (bowls_stack _ _ _ Hk _ _ Ht) as [Hg Hfr]. cbn in Hg. unfold eater_step in Hst.
  assert (bowl_number (first_bowl a) ∧ bowl_number (second_bowl a)) as [Hb1 Hb2] by (unfold bowl_number; destruct a; cbn; auto).
  destruct p as [| |b|b|b].
  - destruct (k_threads k !! cur k) as [th|]; [|done]. destruct (iteration th <? 3); [|done]. injection Hst as <- <-.
    by eapply call_take_bowls.
  - injection Hst as <- <-. by eapply call_take_bowls.
  - cbn in Hst. injection Hst as <- <-. eapply call_quiet; try done; [apply same_clocksleep|apply frames_clocksleep].
  - cbn in Hst. injection Hst as <- <-. by eapply call_leave_bowls.
  - cbn in Hst. injection Hst as <- <-.
    eapply call_quiet; try done; [apply same_iterate|apply frames_iterate|by destruct (b =? _)|by destruct (b =? _)].
Qed.

Lemma kstep_bowls cf lab cf' w :
  bowls (cf_k cf) (cf_st cf) w → kstep cm_client cf lab cf' → driver_label lab → ∃ w', bowls (cf_k cf') (cf_st cf') w'.
Proof.
  intros Hk Hst Hlab. destruct Hst as [k st f fr fs k' Hst Hcl Hr|k st c c' o fr fs k' Hst Hcl Hr|
    k st c c' n cn fr r p k' Hst Hcl Hr|k st c c' fr Hst Hcl|k st i fr fs k' Hst Hie Hr]; cbn in *.
  - pose proof (bowls_stack _ _ _ Hk _ _ Hst) as Hg.
    assert (other_frame f → ∃ w', bowls k' (<[cur k := fs ++ fr]> st) w') as Hother.
    { intros Hf. pose proof (same_resume f Hf _ _ _ Hr) as Hs. apply (frames_resume f Hf) in Hr. exists w.
      eapply bowls_quiet; [exact Hk|exact Hs|exact Hst|rewrite at_bowl_app by done|apply good_stack_app; [done|]].
      - symmetry. apply (at_bowl_app [f]). by constructor.
      - apply (good_stack_app [f]); [by constructor|done]. }
    destruct f; try (by apply Hother).
    3: by destruct (Hcl c).
    + destruct Hg as (n & b & fr' & -> & Hb & -> & -> & Hfr). by eapply (take_bowls Cat) in Hr.
    + destruct Hg as (n & b & fr' & -> & Hb & -> & -> & Hfr). by eapply (take_bowls Mouse) in Hr.
  - destruct c as [a n p|i].
    + by eapply eater_call in Hr.
    + destruct Hcl as [y Hy]. unfold catmousesem_step in Hy. destruct (i <? NCATS), (i <? NCATS + NMICE); congruence.
  - destruct (bowls_stack _ _ _ Hk _ _ Hst) as [Hg Hfr]. destruct c as [a m q|i].
    { unfold cm_client, eater_step in Hcl. destruct q; cbn in Hcl; try done.
      destruct (k_threads k !! cur k) as [th|]; [|done]. by destruct (iteration th <? 3). }
    assert (good_code c' ∧ good_code cn ∧ at_bowl [FClient c'] = None ∧ at_bowl [FClient cn] = None) as (Hgc & Hgn & Hac & Han).
    { destruct Hcl as [y Hy]. unfold catmousesem_step in Hy. destruct (i <? NCATS); [|destruct (i <? NCATS + NMICE)]; by simplify_eq. }
    pose proof (thread_fork_fresh k _ _ Hr) as Hp. pose proof (same_thread_fork _ _ _ Hr) as Hs. cbn in Hp.
    pose proof (bowls_same k k' st w _ _ Hk Hs Hst) as Hk'. exists w.
    assert (∀ st', bowls k' st' w → st' !! cur k = Some (FClient (Driver i) :: fr) → bowls k' (<[cur k := FClient c' :: fr]> st') w) as Hcur.
    { intros st' Hk1 Hst'. eapply bowls_quiet; [exact Hk1|done|exact Hst'|by destruct c' as [? ? []|]|done]. }
    destruct (Z.eqb_spec r 0) as [->|Hne]; [|by apply Hcur]. apply Hcur.
    + apply bowls_new; [done| |lia|by destruct cn as [? ? []|]|cbn; split; [done|by repeat constructor]].
      destruct (st !! p) as [x|] eqn:Ex; [|done]. assert (p < k_next k); [|lia]. apply (bowls_next _ _ _ Hk). by rewrite Ex.
    + rewrite lookup_insert_ne; [done|]. intros ->. assert (cur k < k_next k); [|lia]. apply (bowls_next _ _ _ Hk). by rewrite Hst.
  - destruct (bowls_stack _ _ _ Hk _ _ Hst) as [Hg Hfr]. exists w.
    eapply bowls_quiet; [exact Hk|done|exact Hst| |by apply good_stack_none]. rewrite at_bowl_none by done.
    destruct c as [a m q|i]; [|done]. unfold cm_client, eater_step in Hcl. by destruct q.
  - pose proof (bowls_stack _ _ _ Hk _ _ Hst) as Hg. exists w.
    assert (pres same_bowls (mips_interrupt (C := cmcode) i)) as Hs.
    { apply switch_mips_interrupt; [apply _..|]. intros s ->. destruct Hlab. by apply V_same. }
    pose proof (Hs _ _ _ Hr) as Hsk. apply frames_interrupt in Hr.
    eapply bowls_quiet; [exact Hk|exact Hsk|exact Hst|by rewrite at_bowl_app|by apply good_stack_app].
Qed.

Lemma ksteps_bowls cf ls cf' w :
  bowls (cf_k cf) (cf_st cf) w → ksteps cm_client cf ls cf' → Forall driver_label ls → ∃ w', bowls (cf_k cf') (cf_st cf') w'.
Proof.
  intros Hk Hs. revert w Hk. induction Hs as [|cf lab cf1 ls cf2 Hst _ IH]; intros w Hk Hls; [by exists w|].
  apply Forall_cons_1 in Hls as [Hl Hls]. destruct (kstep_bowls _ _ _ _ Hk Hst Hl) as [w' Hk']. by eapply IH.
Qed.

Lemma at_bowl_number fs a b : good_stack fs → at_bowl fs = Some (a, b) → bowl_number b.
Proof.
  induction fs as [|f fs IH]; [done|]. destruct f; try exact IH; try done.
  destruct c as [a' n []|]; try done; cbn; by intros [? _] [= _ <-].
Qed.

(** The two semaphores [catmousesem] creates. *)
Lemma catmousesem_init_spec k b1 b2 k' :
  catmousesem_init k = Done ((b1, b2), k') → b1 ≠ 0 → b2 ≠ 0 →
  k_sems k' !! b1 = Some (mkSem 1 0 0) ∧ k_sems k' !! b2 = Some (mkSem 1 0 0) ∧ b1 ≠ b2 ∧
  k_next k ≤ k_next k' ∧ cur k' = cur k.
Proof.
  assert (∀ k, slp (sem_create 1) k (λ p k', cur k' = cur k ∧ k_next k ≤ k_next k' ∧
    (p ≠ 0 → k_next k ≤ p < k_next k' ∧ k_sems k' = <[p := mkSem 1 0 0]> (k_sems k)))) as Hsem.
  { clear. intros k. unfold sem_create, put_sem. apply slp_bind, slp_kassert. intros _. apply slp_bind, k_malloc_split; intros m1.
    { by apply slp_ret. }
    destruct (_ =? 0); [apply slp_ret; cbn; split_and!; done || lia|]. apply slp_bind, k_malloc_split; intros m2.
    { apply slp_ret. cbn. split_and!; done || lia. }
    cbn [k_next set_alloc]. destruct (_ =? 0); [apply slp_ret; cbn; split_and!; done || lia|].
    apply slp_bind, slp_modify, slp_ret. cbn. split_and!; [done|lia|]. intros _. split; [lia|done]. }
  intros Hinit H1 H2. assert (slp catmousesem_init k (λ '(b1, b2) k', b1 ≠ 0 → b2 ≠ 0 →
    k_sems k' !! b1 = Some (mkSem 1 0 0) ∧ k_sems k' !! b2 = Some (mkSem 1 0 0) ∧ b1 ≠ b2 ∧
    k_next k ≤ k_next k' ∧ cur k' = cur k)) as Hs; [|exact (Hs (b1, b2) k' Hinit H1 H2)]. clear -Hsem.
  unfold catmousesem_init. apply slp_bind. eapply slp_mono; [apply Hsem|]. intros p1 k1 (Hc1 & Hn1 & Hp1).
  apply slp_bind. eapply slp_mono; [apply Hsem|]. intros p2 k2 (Hc2 & Hn2 & Hp2). apply slp_ret. intros Hb1 Hb2.
  destruct (Hp1 Hb1) as [Hr1 Hs1], (Hp2 Hb2) as [Hr2 Hs2]. rewrite Hs2, lookup_insert_eq, lookup_insert_ne, Hs1, lookup_insert_eq by lia.
  split_and!; done || lia || congruence.
Qed.
End catmouse.

(** [C25] Cats and mice do not meet: in every execution of [catmousesem] on
    the kernel, however the threads interleave and whenever interrupts come, as
    long as no device raises the two semaphores, two threads that are eating
    are of the same kind, and eat from different bowls. *)
Theorem cat_mouse_exclusion {E : Type} `{!KEnv E} (k k0 : kstate E) B1sem B2sem ls cf t u fs gs a b a' c :
  catmousesem_init k = Done ((B1sem, B2sem), k0) → B1sem ≠ 0 → B2sem ≠ 0 → cur k < k_next k →
  driver_irqs B1sem B2sem k0 →
  ksteps (cm_client B1sem B2sem) (mkCfg k0 {[ cur k := [FClient (Driver 0); FExit] ]}) ls cf →
  Forall (driver_label B1sem B2sem) ls →
  cf_st cf !! t = Some fs → cf_st cf !! u = Some gs → t ≠ u →
  at_bowl fs = Some (a, b) → at_bowl gs = Some (a', c) → a = a' ∧ b ≠ c.
Proof.
  intros Hinit H1 H2 Hcur Hirq Hs Hls Ht Hu Htu Ha Hc.
  destruct (catmousesem_init_spec k B1sem B2sem k0 Hinit H1 H2) as (Hs1 & Hs2 & HB & Hn & Hck).
  assert (bowls B1sem B2sem k0 {[ cur k := [FClient (Driver 0); FExit] ]} (λ _, None)) as H0.
  { split; cbn; try done.
    - intros x [-> | ->]; [exact Hs1|exact Hs2].
    - intros x gs' y z Hx _. apply lookup_singleton_Some in Hx as [_ <-]. done.
    - intros x gs' Hx. apply lookup_singleton_Some in Hx as [_ <-]. by repeat constructor.
    - intros x [gs' Hx]. apply lookup_singleton_Some in Hx as [<- _]. lia. }
  destruct (ksteps_bowls B1sem B2sem HB (mkCfg k0 _) ls cf _ H0 Hs Hls) as [w Hw].
  pose proof (at_bowl_number _ _ _ _ _ (bowls_stack _ _ _ _ _ Hw t fs Ht) Ha) as Hb.
  pose proof (at_bowl_number _ _ _ _ _ (bowls_stack _ _ _ _ _ Hw u gs Hu) Hc) as Hc'.
  apply (bowls_who _ _ _ _ _ Hw t fs a b Ht Hb) in Ha. apply (bowls_who _ _ _ _ _ Hw u gs a' c Hu Hc') in Hc.
  assert (b ≠ c) as Hbc by congruence. split; [|done]. assert (c = 3 - b ∧ b = 3 - c) as [Hcb Hbc'] by (destruct Hb, Hc'; lia).
  pose proof (bowls_excl _ _ _ _ _ Hw t u b Hb) as Hx. pose proof (bowls_excl _ _ _ _ _ Hw u t c Hc') as Hy.
  rewrite <-Hcb in Hx. rewrite <-Hbc' in Hy. destruct a, a'; try done; exfalso; [by apply Hx|by apply Hy].
Qed.

(** ** Runs of [catmousesem] *)

Definition cm_next {E} `{!KEnv E} (b1 b2 : Z) (k : kstate E) (c : cmcode) : option (action (C := cmcode) * cmcode) :=
  match c with Eater a n p => eater_step b1 b2 k a n p | Driver i => Some (catmousesem_step 0 i) end.

Lemma cm_next_client {E} `{!KEnv E} b1 b2 (k : kstate E) c a c' :
  client_of (cm_next b1 b2) k c a c' → cm_client b1 b2 k c a c'.
Proof. unfold client_of, cm_next, cm_client. destruct c; [done|]. intros [= H]. by exists O. Qed.

(** A kernel with [n] clock interrupts to come while it is idle. *)
Definition cm_kernel (n : nat) : kstate unit :=
  set_irqs (replicate n IrqTimer) (booted (boot_threads (kernel_off (replicate 400 true)))).
Definition cm_kernel0 (n : nat) : kstate unit :=
  match catmousesem_init (cm_kernel n) with Done (_, k) => k | _ => cm_kernel n end.
Definition cm_start (n : nat) : config := mkCfg (cm_kernel0 n) {[ cur (cm_kernel n) := [FClient (Driver 0); FExit] ]}.

Definition cm_run : list (label (C := cmcode)) * config :=
  from_option id ([], cm_start 300) (exec (cm_next 11 13) (cm_start 300) (replicate 45 None)).

Lemma driver_irqs_timer n b1 b2 (k : kstate unit) : k_irqs k = replicate n IrqTimer → driver_irqs b1 b2 k.
Proof. intros H s Hs. rewrite H in Hs. by apply elem_of_replicate in Hs as [? _]. Qed.

Definition timer_label (lab : label (C := cmcode)) : bool := match lab.2 with LIrq (IrqV _) => false | _ => true end.

Lemma timer_labels b1 b2 ls : forallb timer_label ls = true → Forall (driver_label b1 b2) ls.
Proof.
  intros H. apply Forall_forall. intros [t ev] Hin%list_elem_of_In. apply (proj1 (forallb_forall _ _) H) in Hin.
  by destruct ev as [| |[]].
Qed.

(** Two cats eat at once, from different bowls. *)
Lemma cat_mouse_exclusion_witness : Cat = Cat ∧ 1 ≠ 2.
Proof.
  apply (cat_mouse_exclusion (cm_kernel 300) (cm_kernel0 300) 11 13 cm_run.1 cm_run.2 15 22
    (from_option id [] (cf_st cm_run.2 !! 15)) (from_option id [] (cf_st cm_run.2 !! 22))).
  - by vm_compute.
  - done.
  - done.
  - by vm_compute.
  - apply (driver_irqs_timer 300). by vm_compute.
  - apply (ksteps_mono (client_of (cm_next 11 13))); [apply cm_next_client|].
    apply exec_sound with (iv := replicate 45 None). by vm_compute.
  - apply timer_labels. by vm_compute.
  - by vm_compute.
  - by vm_compute.
  - done.
  - by vm_compute.
  - by vm_compute.
Defined.

(** A schedule that preempts threads now and then. *)
Fixpoint preempted (n : nat) (seed : Z) (cf : config (E := unit) (C := cmcode)) : list (option irq) :=
  match n with
  | O => []
  | S n' =>
      let seed := (seed * 1103515245 + 12345) mod 2147483648 in
      let i := if c_ie (k_cpu (cf_k cf)) && ((seed / 65536) mod 100 <? 20) then Some IrqTimer else None in
      match exec_step (cm_next 11 13) cf i with
      | Some (_, cf') => i :: preempted n' seed cf'
      | None => []
      end
  end.

Definition starved_run : list (label (C := cmcode)) * config :=
  from_option id ([], cm_start 2500) (exec (cm_next 11 13) (cm_start 2500) (preempted 700 1 (cm_start 2500))).

(** Asleep in [Pcat] or [Pmouse], or with nothing left to do but to end. *)
Definition hopeless (fs : list (frame cmcode)) : bool :=
  match fs with
  | FSwitch :: FSleep :: FPcat _ _ _ :: _ | FSwitch :: FSleep :: FPmouse _ _ _ :: _ => true
  | _ => forallb (λ f, match f with FExit | FDead => true | _ => false end) fs
  end.

(** An animal can starve: [Vcat] and [Vmouse] wake only those who sleep on the
    bowl that is left, while one who found the other kind at the other bowl
    sleeps on a free bowl.  In this execution two cats sleep on bowl 1, both
    bowls are free, and no thread is left that could wake them. *)
Theorem catmouse_starves :
  ∃ ls cf, ksteps (cm_client 11 13) (cm_start 2500) ls cf ∧ Forall (driver_label 11 13) ls ∧
    k_sems (cf_k cf) !! 11 = Some (mkSem 1 0 0) ∧ k_sems (cf_k cf) !! 13 = Some (mkSem 1 0 0) ∧
    (∃ s fr, cf_st cf !! 22 = Some (FSwitch :: FSleep :: FPcat 11 13 s :: FClient (Eater Cat 1 (Eating 1)) :: fr)) ∧
    forallb (λ x : Z * list (frame cmcode), hopeless x.2) (map_to_list (cf_st cf)) = true.
Proof.
  exists starved_run.1, starved_run.2. split_and!.
  - apply (ksteps_mono (client_of (cm_next 11 13))); [apply cm_next_client|].
    apply exec_sound with (iv := preempted 700 1 (cm_start 2500)). by vm_compute.
  - apply timer_labels. by vm_compute.
  - by vm_compute.
  - by vm_compute.
  - eexists _, _. vm_compute. reflexivity.
  - by vm_compute.
Qed.
