(* ===== verification/Stoplight.v ===== *)
(** * The intersection (asst1/stoplight.c)

    The cars as sequences of lock operations and messages, run on locks as
    SynchLock proves them: only a free lock is acquired, only its owner
    releases it.  Where a car is follows from the sides of the road it comes
    from and goes to and from the messages it has printed, not from its locks.
    Cars do not collide, and all of them get through. *)

From S2P Require Import Prelude.

Definition NCARS : nat := 20.

(** The locks [initialize] creates. *)
Inductive lockname := NW | NE | SW | SE | car1 | car2 | N | E | S | W.

#[export] Instance lockname_eq_dec : EqDecision lockname.
Proof. solve_decision. Defined.

(** A statement of a car's code; [Message] carries the message number and the
    destination. *)
Inductive carop := Acquire (l : lockname) | Release (l : lockname) | Message (msg_nr dest : Z).

(** ** The code *)

Definition gostraight (cardirection : Z) : list carop :=
  if cardirection =? 2 then
    [Message 0 0; Acquire car1; Acquire S; Acquire SE; Message 1 0; Release S; Acquire NE; Message 2 0; Release SE;
     Message 4 0; Release NE; Release car1]
  else if cardirection =? 3 then
    [Message 0 1; Acquire car2; Acquire W; Acquire SW; Message 1 1; Release W; Acquire SE; Message 2 1; Release SW;
     Message 4 1; Release SE; Release car2]
  else if cardirection =? 0 then
    [Message 0 2; Acquire car1; Acquire N; Acquire NW; Message 1 2; Release N; Acquire SW; Message 2 2; Release NW;
     Message 4 2; Release SW; Release car1]
  else if cardirection =? 1 then
    [Message 0 3; Acquire car2; Acquire E; Acquire NE; Message 1 3; Release E; Acquire NW; Message 2 3; Release NE;
     Message 4 3; Release NW; Release car2]
  else [].

Definition turnleft (cardirection : Z) : list carop :=
  if cardirection =? 0 then
    [Message 0 1; Acquire car1; Acquire N; Acquire NW; Message 1 1; Release N; Acquire SW; Message 2 1; Release NW;
     Acquire SE; Message 3 1; Release SW; Message 4 1; Release SE; Release car1]
  else if cardirection =? 1 then
    [Message 0 2; Acquire car2; Acquire E; Acquire NE; Message 1 2; Release E; Acquire NW; Message 2 2; Release NE;
     Acquire SW; Message 3 2; Release NW; Message 4 2; Release SW; Release car2]
  else if cardirection =? 2 then
    [Message 0 3; Acquire car1; Acquire S; Acquire SE; Message 1 3; Release S; Acquire NE; Message 2 3; Release SE;
     Acquire NW; Message 3 3; Release NE; Message 4 3; Release NW; Release car1]
  else if cardirection =? 3 then
    [Message 0 0; Acquire car2; Acquire W; Acquire SW; Message 1 0; Release W; Acquire SE; Message 2 0; Release SW;
     Acquire NE; Message 3 0; Release SE; Message 4 0; Release NE; Release car2]
  else [].

Definition turnright (cardirection : Z) : list carop :=
  if cardirection =? 2 then
    [Message 0 1; Acquire car1; Acquire S; Acquire SE; Message 1 1; Release S; Message 4 1; Release SE; Release car1]
  else if cardirection =? 3 then
    [Message 0 2; Acquire car2; Acquire W; Acquire SW; Message 1 2; Release W; Message 4 2; Release SW; Release car2]
  else if cardirection =? 0 then
    [Message 0 3; Acquire car1; Acquire N; Acquire NW; Message 1 3; Release N; Message 4 3; Release NW; Release car1]
  else if cardirection =? 1 then
    [Message 0 0; Acquire car2; Acquire E; Acquire NE; Message 1 0; Release E; Message 4 0; Release NE; Release car2]
  else [].

(** [random()%4] and [random()%3] are the arguments. *)
Definition approachintersection (cardirection turn : Z) : list carop :=
  if turn =? 0 then gostraight cardirection
  else if turn =? 1 then turnleft cardirection
  else turnright cardirection.

(** ** The cars on the road *)

(** A car: its direction and turn, and how much of its code it has run. *)
Record car := mkCar { c_dir : Z; c_turn : Z; c_pc : nat }.

Definition car_ok (c : car) : Prop := 0 ≤ c_dir c < 4 ∧ 0 ≤ c_turn c < 3.

Definition car_code (c : car) : list carop := approachintersection (c_dir c) (c_turn c).
Definition car_next (c : car) : option carop := car_code c !! c_pc c.
Definition car_step (c : car) : car := mkCar (c_dir c) (c_turn c) (c_pc c + 1).

Record road := mkRoad { cars : list car; owner : lockname → option nat }.

Definition set_owner (l : lockname) (o : option nat) (w : lockname → option nat) : lockname → option nat :=
  λ l', if decide (l' = l) then o else w l'.

(** One statement of car [i]; [RPanic] is the assertion of [lock_release]. *)
Inductive result := ROk (r : road) | RWait | RPanic | RDone.

Definition run_car (i : nat) (r : road) : result :=
  match cars r !! i with
  | None => RDone
  | Some c =>
      match car_next c with
      | None => RDone
      | Some o =>
          let cs := <[i := car_step c]> (cars r) in
          match o with
          | Message _ _ => ROk (mkRoad cs (owner r))
          | Acquire l =>
              match owner r l with
              | None => ROk (mkRoad cs (set_owner l (Some i) (owner r)))
              | Some _ => RWait
              end
          | Release l =>
              if decide (owner r l = Some i) then ROk (mkRoad cs (set_owner l None (owner r))) else RPanic
          end
      end
  end.

(** The threads [createcars] starts, with the random choices [choices]. *)
Definition createcars (choices : list (Z * Z)) : road :=
  mkRoad ((λ '(d, t), mkCar d t 0) <$> choices) (λ _, None).

Inductive drives : road → list nat → road → Prop :=
| drives_nil r : drives r [] r
| drives_cons r i r' sc r'' : run_car i r = ROk r' → drives r' sc r'' → drives r (i :: sc) r''.

(** ** Where the cars are, and what they hold *)

Definition hold (h : list lockname) (o : carop) : list lockname :=
  match o with Acquire l => l :: h | Release l => filter (λ l', l' ≠ l) h | Message _ _ => h end.
Definition held (c : car) : list lockname := foldl hold [] (take (c_pc c) (car_code c)).

(** ** The geometry of the intersection

    Independently of the code: a car keeps to the right, so it enters on the
    right-hand side of the road it comes from, and a turn to the left crosses the
    road.  A quadrant is the pair of the signs of its coordinates, east and
    north being positive; a direction is the one the car comes from, as the code
    numbers them (north 0, east 1, south 2, west 3). *)
Definition side (d : Z) : Z * Z :=
  if d =? 0 then (0, 1) else if d =? 1 then (1, 0) else if d =? 2 then (0, -1) else (-1, 0).
Definition ahead (v : Z * Z) : Z * Z := (- v.1, - v.2).
Definition leftwards (v : Z * Z) : Z * Z := (- v.2, v.1).
Definition rightwards (v : Z * Z) : Z * Z := (v.2, - v.1).
Definition move (p v : Z * Z) (n : Z) : Z * Z := (p.1 + n * v.1, p.2 + n * v.2).

(** The quadrants a car passes, and the side of the intersection it leaves by. *)
Definition route (d turn : Z) : list (Z * Z) :=
  let h := ahead (side d) in
  let q1 := move (side d) (rightwards h) 1 in
  let q2 := move q1 h 2 in
  if turn =? 0 then [q1; q2] else if turn =? 1 then [q1; q2; move q2 (leftwards h) 2] else [q1].
Definition exit_side (d turn : Z) : Z * Z :=
  let h := ahead (side d) in if turn =? 0 then h else if turn =? 1 then leftwards h else rightwards h.

(** Where a car is: the quadrant of its route whose region it announced last,
    from that message on until the next one. *)
Definition last_message (o : option Z) (op : carop) : option Z :=
  match op with Message m _ => Some m | _ => o end.
Definition position (c : car) : option (Z * Z) :=
  match foldl last_message None (take (c_pc c) (car_code c)) with
  | Some m => if (1 <=? m) && (m <=? 3) then route (c_dir c) (c_turn c) !! Z.to_nat (m - 1) else None
  | None => None
  end.

(** The messages of a car that follows its route. *)
Definition messages (code : list carop) : list (Z * Z) :=
  omap (λ op, match op with Message m d => Some (m, d) | _ => None end) code.
Definition itinerary (d turn dest : Z) : list (Z * Z) :=
  (0, dest) :: ((λ k, (Z.of_nat k, dest)) <$> seq 1 (length (route d turn))) ++ [(4, dest)].

(** The lock that guards a quadrant. *)
Definition quadrant_lock (q : Z * Z) : lockname :=
  if q.2 =? 1 then (if q.1 =? 1 then NE else NW) else (if q.1 =? 1 then SE else SW).
Definition is_quadrant (q : Z * Z) : bool := ((q.1 =? 1) || (q.1 =? -1)) && ((q.2 =? 1) || (q.2 =? -1)).

Definition gone (c : car) : Prop := car_next c = None.

(** The quadrants in the order cars pass them. *)
Definition next_quadrant (q : lockname) : option lockname :=
  match q with NW => Some SW | SW => Some SE | SE => Some NE | NE => Some NW | _ => None end.
Definition quadrant (l : lockname) : bool := match l with NW | NE | SW | SE => true | _ => false end.
Definition car_lock (c : car) : lockname := if (c_dir c =? 0) || (c_dir c =? 2) then car1 else car2.

(** ** Facts about the code of one car, by evaluation *)

Definition all_cars : list car :=
  flat_map (λ d, flat_map (λ t, (λ p, mkCar d t p) <$> seq 0 16) [0; 1; 2]) [0; 1; 2; 3].

Definition car_good (c : car) : Prop := car_ok c ∧ (c_pc c ≤ length (car_code c))%nat.

Lemma all_cars_elem c : car_good c → In c all_cars.
Proof.
  intros [[Hd Ht] Hp]. destruct c as [d t p]. cbn in Hd, Ht, Hp. assert (p < 16)%nat as Hp'.
  { unfold car_code, approachintersection, gostraight, turnleft, turnright in Hp. cbn in Hp. repeat case_match; cbn in Hp; lia. }
  refine (proj2 (in_flat_map _ _ _) _). exists d. split; [assert (d = 0 ∨ d = 1 ∨ d = 2 ∨ d = 3) as Hd' by lia; cbn; intuition congruence|].
  refine (proj2 (in_flat_map _ _ _) _). exists t. split; [assert (t = 0 ∨ t = 1 ∨ t = 2) as Ht' by lia; cbn; intuition congruence|].
  apply list_elem_of_In, list_elem_of_fmap. exists p. split; [done|]. apply elem_of_seq. lia.
Qed.

Lemma car_fact (f : car → bool) c : forallb f all_cars = true → car_good c → f c = true.
Proof. intros Hf Hc. apply (proj1 (forallb_forall f all_cars) Hf). by apply all_cars_elem. Qed.

Definition lane (l : lockname) : option lockname :=
  match l with N | S => Some car1 | E | W => Some car2 | _ => None end.

Definition holds (c : car) (l : lockname) : bool := bool_decide (l ∈ held c).

Definition code_ok (c : car) : bool :=
  match car_next c with
  | None => bool_decide (held c = [])
  | Some (Message _ _) => true
  | Some (Release l) => holds c l
  | Some (Acquire l) =>
      negb (holds c l) &&
      if quadrant l then
        holds c (car_lock c) && forallb (λ q, negb (quadrant q) || bool_decide (next_quadrant q = Some l)) (held c)
      else match lane l with
           | Some x => bool_decide (x = car_lock c) && holds c (car_lock c)
           | None => bool_decide (l = car_lock c)
           end
  end.

Definition held_ok (c : car) : bool :=
  (bool_decide (held c = []) || holds c (car_lock c)) &&
  forallb (λ l, match lane l with Some x => bool_decide (x = car_lock c) | None => quadrant l || bool_decide (l = car_lock c) end) (held c) &&
  match position c with Some q => holds c (quadrant_lock q) && is_quadrant q | None => true end.

Lemma code_ok_all c : car_good c → code_ok c = true.
Proof. apply car_fact. by vm_compute. Qed.
Lemma held_ok_all c : car_good c → held_ok c = true.
Proof. apply car_fact. by vm_compute. Qed.

Lemma next_release c l : car_good c → car_next c = Some (Release l) → l ∈ held c.
Proof. intros Hc Hn. pose proof (code_ok_all c Hc) as H. unfold code_ok in H. rewrite Hn in H. by apply bool_decide_eq_true in H. Qed.
Lemma gone_held c : car_good c → gone c → held c = [].
Proof. intros Hc Hn. pose proof (code_ok_all c Hc) as H. unfold code_ok in H. rewrite Hn in H. by apply bool_decide_eq_true in H. Qed.
Lemma next_acquire c l : car_good c → car_next c = Some (Acquire l) → l ∉ held c.
Proof.
  intros Hc Hn. pose proof (code_ok_all c Hc) as H. unfold code_ok in H. rewrite Hn in H.
  apply andb_true_iff in H as [H _]. by apply negb_true_iff, bool_decide_eq_false in H.
Qed.
Lemma next_quadrant_held c l :
  car_good c → car_next c = Some (Acquire l) → quadrant l = true →
  car_lock c ∈ held c ∧ ∀ q, q ∈ held c → quadrant q = true → next_quadrant q = Some l.
Proof.
  intros Hc Hn Hq. pose proof (code_ok_all c Hc) as H. unfold code_ok in H. rewrite Hn, Hq in H.
  apply andb_true_iff in H as [_ [H1%bool_decide_eq_true H2]%andb_true_iff]. split; [done|]. intros q Hin Hqq.
  pose proof (proj1 (forallb_forall _ _) H2 q (proj1 (list_elem_of_In _ _) Hin)) as Hf. cbv beta in Hf. rewrite Hqq in Hf.
  by apply bool_decide_eq_true in Hf.
Qed.
Lemma next_lane c l :
  car_good c → car_next c = Some (Acquire l) → quadrant l = false →
  match lane l with Some x => x = car_lock c ∧ car_lock c ∈ held c | None => l = car_lock c end.
Proof.
  intros Hc Hn Hq. pose proof (code_ok_all c Hc) as H. unfold code_ok in H. rewrite Hn, Hq in H.
  apply andb_true_iff in H as [_ H]. destruct (lane l); [|by apply bool_decide_eq_true in H].
  by apply andb_true_iff in H as [?%bool_decide_eq_true ?%bool_decide_eq_true].
Qed.
Lemma held_inside c l : car_good c → l ∈ held c → car_lock c ∈ held c.
Proof.
  intros Hc Hl. pose proof (held_ok_all c Hc) as H. unfold held_ok in H. apply andb_true_iff in H as [[H _]%andb_true_iff _].
  apply orb_true_iff in H as [H%bool_decide_eq_true|H%bool_decide_eq_true]; [|done]. rewrite H in Hl. by apply elem_of_nil in Hl.
Qed.
Lemma held_lane c l :
  car_good c → l ∈ held c → match lane l with Some x => x = car_lock c | None => quadrant l = true ∨ l = car_lock c end.
Proof.
  intros Hc Hl. pose proof (held_ok_all c Hc) as H. unfold held_ok in H. apply andb_true_iff in H as [[_ H]%andb_true_iff _].
  pose proof (proj1 (forallb_forall _ _) H l (proj1 (list_elem_of_In _ _) Hl)) as Hf. cbv beta in Hf.
  destruct (lane l); [by apply bool_decide_eq_true in Hf|]. apply orb_true_iff in Hf as [?|?%bool_decide_eq_true]; auto.
Qed.
Lemma position_held c q : car_good c → position c = Some q → quadrant_lock q ∈ held c.
Proof.
  intros Hc Hq. pose proof (held_ok_all c Hc) as H. unfold held_ok in H. rewrite Hq in H.
  by apply andb_true_iff in H as [_ [?%bool_decide_eq_true _]%andb_true_iff].
Qed.

(** A car announces every region of its route, in order, and leaves by the side
    it names. *)
Definition route_ok (c : car) : bool :=
  existsb (λ dest, bool_decide (messages (car_code c) = itinerary (c_dir c) (c_turn c) dest) &&
                   bool_decide (side dest = exit_side (c_dir c) (c_turn c))) [0; 1; 2; 3].

Lemma route_ok_all c : car_good c → route_ok c = true.
Proof. apply car_fact. by vm_compute. Qed.

Lemma car_lock_axis c d : car_good c → car_good d → Z.even (c_dir c) = Z.even (c_dir d) → car_lock c = car_lock d.
Proof.
  intros [[Hc _] _] [[Hd _] _] Heq. assert (∀ x, 0 ≤ x < 4 → (x =? 0) || (x =? 2) = Z.even x) as H.
  { intros x Hx. assert (x = 0 ∨ x = 1 ∨ x = 2 ∨ x = 3) as [->|[->|[->| ->]]] by lia; done. }
  unfold car_lock. by rewrite !H, Heq.
Qed.

Lemma held_step c o : car_next c = Some o → held (car_step c) = hold (held c) o.
Proof.
  intros Ho. unfold held, car_step, car_next, car_code in *. cbn. rewrite Nat.add_1_r, (take_S_r _ _ o) by done.
  by rewrite foldl_app.
Qed.
Lemma good_step c o : car_good c → car_next c = Some o → car_good (car_step c).
Proof.
  intros [Hok Hp] Ho. split; [done|]. apply lookup_lt_Some in Ho. unfold car_code, car_step in *. cbn in *. lia.
Qed.

(** ** The invariant of the road *)

Record rinv (r : road) : Prop := {
  rinv_good i c : cars r !! i = Some c → car_good c;
  rinv_owner l i : owner r l = Some i ↔ ∃ c, cars r !! i = Some c ∧ l ∈ held c;
}.

Lemma rinv_start choices : Forall (λ '(d, t), 0 ≤ d < 4 ∧ 0 ≤ t < 3) choices → rinv (createcars choices).
Proof.
  intros Hch. split; cbn.
  - intros i c Hc. apply list_lookup_fmap_Some in Hc as ([d t] & -> & Hi). rewrite Forall_lookup in Hch.
    specialize (Hch i (d, t) Hi). split; [done|]. cbn. lia.
  - intros l i. split; [done|]. intros (c & Hc & Hl). apply list_lookup_fmap_Some in Hc as ([d t] & -> & Hi).
    unfold held in Hl. cbn in Hl. rewrite take_0 in Hl. by apply elem_of_nil in Hl.
Qed.

(** What car [i] holds after its step, and what the locks say. *)
Lemma rinv_update r i c w :
  rinv r → cars r !! i = Some c → car_good (car_step c) →
  (∀ l j, j ≠ i → w l = Some j ↔ owner r l = Some j) → (∀ l, w l = Some i ↔ l ∈ held (car_step c)) →
  rinv (mkRoad (<[i := car_step c]> (cars r)) w).
Proof.
  intros [Hg Ho] Hi Hgood Hother Hself. pose proof (lookup_lt_Some _ _ _ Hi) as Hlt. split; cbn.
  - intros j d. destruct (decide (j = i)) as [->|Hne].
    + rewrite list_lookup_insert_eq by done. by intros [= <-].
    + rewrite list_lookup_insert_ne by done. apply Hg.
  - intros l j. destruct (decide (j = i)) as [->|Hne].
    + rewrite list_lookup_insert_eq, Hself by done. split; [eauto|]. by intros (? & [= <-] & ?).
    + rewrite list_lookup_insert_ne, Hother by done. apply Ho.
Qed.

Lemma rinv_owns r i c l : rinv r → cars r !! i = Some c → l ∈ held c ↔ owner r l = Some i.
Proof. intros Hr Hi. rewrite (rinv_owner r Hr). split; [eauto|]. intros (c' & Hc' & ?). by simplify_eq. Qed.

Lemma set_owner_eq l o w : set_owner l o w l = o.
Proof. unfold set_owner. by rewrite decide_True. Qed.
Lemma set_owner_ne l l' o w : l' ≠ l → set_owner l o w l' = w l'.
Proof. intros. unfold set_owner. by rewrite decide_False. Qed.

Lemma rinv_acquire r i c l :
  rinv r → cars r !! i = Some c → car_next c = Some (Acquire l) → owner r l = None →
  rinv (mkRoad (<[i := car_step c]> (cars r)) (set_owner l (Some i) (owner r))).
Proof.
  intros Hr Hi Hn Hl. apply rinv_update; [done|done|exact (good_step _ _ (rinv_good r Hr i c Hi) Hn)| |].
  - intros l' j Hj. destruct (decide (l' = l)) as [->|?]; [rewrite set_owner_eq, Hl|by rewrite set_owner_ne].
    split; congruence.
  - intros l'. rewrite (held_step _ _ Hn). cbn [hold]. rewrite elem_of_cons, (rinv_owns r i c) by done.
    destruct (decide (l' = l)) as [->|?]; [rewrite set_owner_eq|rewrite set_owner_ne by done]; intuition congruence.
Qed.

Lemma rinv_release r i c l :
  rinv r → cars r !! i = Some c → car_next c = Some (Release l) → owner r l = Some i →
  rinv (mkRoad (<[i := car_step c]> (cars r)) (set_owner l None (owner r))).
Proof.
  intros Hr Hi Hn Hl. apply rinv_update; [done|done|exact (good_step _ _ (rinv_good r Hr i c Hi) Hn)| |].
  - intros l' j Hj. destruct (decide (l' = l)) as [->|?]; [rewrite set_owner_eq, Hl|by rewrite set_owner_ne].
    split; congruence.
  - intros l'. rewrite (held_step _ _ Hn). cbn [hold]. rewrite list_elem_of_filter, (rinv_owns r i c) by done.
    destruct (decide (l' = l)) as [->|?]; [rewrite set_owner_eq|rewrite set_owner_ne by done]; intuition congruence.
Qed.

Lemma rinv_message r i c m d :
  rinv r → cars r !! i = Some c → car_next c = Some (Message m d) → rinv (mkRoad (<[i := car_step c]> (cars r)) (owner r)).
Proof.
  intros Hr Hi Hn. apply rinv_update; [done|done|exact (good_step _ _ (rinv_good r Hr i c Hi) Hn)|done|].
  intros l. by rewrite (held_step _ _ Hn), (rinv_owns r i c).
Qed.

Lemma run_car_rinv i r r' : rinv r → run_car i r = ROk r' → rinv r'.
Proof.
  intros Hr. unfold run_car. destruct (cars r !! i) as [c|] eqn:Hi; [|done]. destruct (car_next c) as [[l|l|m d]|] eqn:Hn; [| | |done].
  - destruct (owner r l) eqn:Hl; intros [= <-]. by apply rinv_acquire.
  - case_decide as Hl; intros [= <-]. by apply rinv_release.
  - intros [= <-]. by eapply rinv_message.
Qed.

Lemma drives_rinv r sc r' : drives r sc r' → rinv r → rinv r'.
Proof. induction 1; eauto using run_car_rinv. Qed.

Lemma run_car_no_panic i r : rinv r → run_car i r ≠ RPanic.
Proof.
  intros Hr. unfold run_car. destruct (cars r !! i) as [c|] eqn:Hi; [|done]. destruct (car_next c) as [[l|l|m d]|] eqn:Hn; [| |done..].
  - by case_match.
  - rewrite decide_True; [done|]. apply (rinv_owns r i c); [done..|]. exact (next_release _ _ (rinv_good r Hr i c Hi) Hn).
Qed.

Lemma held_unique r i j ci cj l :
  rinv r → cars r !! i = Some ci → cars r !! j = Some cj → l ∈ held ci → l ∈ held cj → i = j.
Proof.
  intros Hr Hi Hj Hl1%(rinv_owns r i ci) Hl2%(rinv_owns r j cj); [|done..]. congruence.
Qed.

(** ** No deadlock *)

Definition stuck (r : road) : Prop := ∀ i r', run_car i r ≠ ROk r'.

(** A car that is not through waits for a lock another car holds. *)
Lemma stuck_waits r i c :
  rinv r → stuck r → cars r !! i = Some c → ¬ gone c →
  ∃ l j cj, car_next c = Some (Acquire l) ∧ cars r !! j = Some cj ∧ l ∈ held cj ∧ ¬ gone cj ∧ (l ∉ held c).
Proof.
  intros Hr Hs Hi Hgone. pose proof (rinv_good r Hr i c Hi) as Hg. destruct (car_next c) as [[l|l|m d]|] eqn:Hn; [| | |done].
  - destruct (owner r l) as [j|] eqn:Hl.
    + pose proof (proj1 (rinv_owner r Hr l j) Hl) as (cj & Hj & Hlj). exists l, j, cj. do 3 (split; [done|]).
      split; [|by apply next_acquire]. intros Hgj. rewrite (gone_held cj) in Hlj; [|exact (rinv_good r Hr j cj Hj)|done].
      by apply elem_of_nil in Hlj.
    + destruct (Hs i (mkRoad (<[i := car_step c]> (cars r)) (set_owner l (Some i) (owner r)))).
      unfold run_car. by rewrite Hi, Hn, Hl.
  - destruct (Hs i (mkRoad (<[i := car_step c]> (cars r)) (set_owner l None (owner r)))).
    unfold run_car. rewrite Hi, Hn, decide_True; [done|]. apply (rinv_owns r i c); [done..|]. by apply next_release.
  - destruct (Hs i (mkRoad (<[i := car_step c]> (cars r)) (owner r))). unfold run_car. by rewrite Hi, Hn.
Qed.

(** A car inside waits for a quadrant that the other car inside holds. *)
Lemma stuck_inside r i c :
  rinv r → stuck r → cars r !! i = Some c → ¬ gone c → car_lock c ∈ held c →
  ∃ l j cj, car_next c = Some (Acquire l) ∧ quadrant l = true ∧ cars r !! j = Some cj ∧ l ∈ held cj ∧ ¬ gone cj ∧
    car_lock cj ∈ held cj ∧ car_lock cj ≠ car_lock c.
Proof.
  intros Hr Hs Hi Hgone Hin. destruct (stuck_waits r i c Hr Hs Hi Hgone) as (l & j & cj & Hn & Hj & Hlj & Hgj & Hl).
  pose proof (rinv_good r Hr i c Hi) as Hg. pose proof (rinv_good r Hr j cj Hj) as Hgdj.
  pose proof (held_inside cj l Hgdj Hlj) as Hinj.
  assert (car_lock cj ≠ car_lock c) as Hne.
  { intros Heq. rewrite Heq in Hinj. pose proof (held_unique r i j c cj _ Hr Hi Hj Hin Hinj) as <-. congruence. }
  exists l, j, cj. split; [done|]. split; [|done].
  destruct (quadrant l) eqn:Hq; [done|]. pose proof (next_lane c l Hg Hn Hq) as Hlane. pose proof (held_lane cj l Hgdj Hlj) as Hlj'.
  destruct (lane l); [destruct Hlane; congruence|]. subst l. congruence.
Qed.

Lemma car_lock_other c d e : car_lock d ≠ car_lock c → car_lock e ≠ car_lock d → car_lock e = car_lock c.
Proof. unfold car_lock. by repeat case_match. Qed.

Lemma next_quadrant_cycle l l' : next_quadrant l = Some l' → next_quadrant l' ≠ Some l.
Proof. by destruct l, l'. Qed.

(** Two cars inside cannot wait for each other: a car passes the quadrants
    counterclockwise and holds only the one before the one it asks for. *)
Lemma stuck_not_inside r i c : rinv r → stuck r → cars r !! i = Some c → ¬ gone c → car_lock c ∉ held c.
Proof.
  intros Hr Hs Hi Hgone Hin.
  destruct (stuck_inside r i c Hr Hs Hi Hgone Hin) as (l & j & cj & Hn & Hq & Hj & Hlj & Hgj & Hinj & Hne).
  destruct (stuck_inside r j cj Hr Hs Hj Hgj Hinj) as (l' & k & ck & Hn' & Hq' & Hk & Hlk & Hgk & Hink & Hne').
  pose proof (car_lock_other c cj ck Hne Hne') as Heq. rewrite Heq in Hink.
  pose proof (held_unique r i k c ck _ Hr Hi Hk Hin Hink) as <-. replace ck with c in * by congruence.
  destruct (next_quadrant_held c l (rinv_good r Hr i c Hi) Hn Hq) as [_ H1].
  destruct (next_quadrant_held cj l' (rinv_good r Hr j cj Hj) Hn' Hq') as [_ H2].
  exact (next_quadrant_cycle l' l (H1 l' Hlk Hq') (H2 l Hlj Hq)).
Qed.

Lemma stuck_all_gone r : rinv r → stuck r → Forall gone (cars r).
Proof.
  intros Hr Hs. apply Forall_lookup. intros i c Hi. destruct (decide (car_next c = None)) as [?|Hgone]; [done|].
  destruct (stuck_waits r i c Hr Hs Hi Hgone) as (l & j & cj & _ & Hj & Hlj & Hgj & _).
  destruct (stuck_not_inside r j cj Hr Hs Hj Hgj). by apply (held_inside cj l (rinv_good r Hr j cj Hj)).
Qed.

Lemma can_run i r : {r' | run_car i r = ROk r'} + {∀ r', run_car i r ≠ ROk r'}.
Proof. destruct (run_car i r) as [r'| | |] eqn:Hr; [left; by exists r'|right; by intros..]. Defined.

Lemma stuck_or_runs r : stuck r ∨ ∃ i r', run_car i r = ROk r'.
Proof.
  assert (∀ n, (∃ i r', run_car i r = ROk r') ∨ ∀ i, (i < n)%nat → ∀ r', run_car i r ≠ ROk r') as H.
  { induction n as [|n [?|IH]]; [right; lia|by left|]. destruct (can_run n r) as [[r' ?]|Hn]; [left; eauto|right].
    intros i Hi. destruct (decide (i = n)) as [->|?]; [done|apply IH; lia]. }
  destruct (H (length (cars r))) as [?|Hlt]; [by right|left]. intros i. destruct (decide (i < length (cars r))%nat) as [?|Hge]; [auto|].
  intros r'. unfold run_car. by rewrite (proj2 (lookup_ge_None (cars r) i)) by lia.
Qed.

(** ** Every run ends *)

(** The statements the cars have still to run. *)
Definition left_to_run (c : car) : nat := length (car_code c) - c_pc c.
Definition work (r : road) : nat := sum_list_with left_to_run (cars r).

Lemma sum_list_with_insert {A} (f : A → nat) l i x y :
  l !! i = Some x → (sum_list_with f (<[i := y]> l) + f x = sum_list_with f l + f y)%nat.
Proof. revert i. induction l as [|z l IH]; intros [|i] Hi; simplify_eq/=; [lia|]. specialize (IH i Hi). lia. Qed.

Lemma run_car_work i r r' : run_car i r = ROk r' → work r = Datatypes.S (work r').
Proof.
  unfold run_car. destruct (cars r !! i) as [c|] eqn:Hi; [|done]. destruct (car_next c) as [o|] eqn:Hn; [|done]. intros Hr.
  assert (cars r' = <[i := car_step c]> (cars r)) as Hc by (repeat case_match; by simplify_eq/=).
  unfold work. rewrite Hc. pose proof (sum_list_with_insert left_to_run (cars r) i c (car_step c) Hi) as Hsum.
  apply lookup_lt_Some in Hn. unfold left_to_run, car_code, car_step in *. cbn in *. lia.
Qed.

Lemma drives_work r sc r' : drives r sc r' → work r = (length sc + work r')%nat.
Proof. induction 1 as [|r i r' sc r'' Hr _ IH]; [done|]. rewrite (run_car_work _ _ _ Hr), IH. cbn. lia. Qed.

Lemma drives_app r sc r' sc' r'' : drives r sc r' → drives r' sc' r'' → drives r (sc ++ sc') r''.
Proof. induction 1; [done|]. intros. cbn. econstructor; eauto. Qed.

Lemma drives_finish r : rinv r → ∃ sc r', drives r sc r' ∧ Forall gone (cars r').
Proof.
  remember (work r) as n eqn:Hn. revert r Hn. induction n as [n IH] using lt_wf_ind. intros r -> Hr.
  destruct (stuck_or_runs r) as [Hs|(i & r' & Hi)].
  - exists [], r. split; [constructor|by apply stuck_all_gone].
  - destruct (IH (work r')) with (r := r') as (sc & r'' & Hd & Hg); [rewrite (run_car_work _ _ _ Hi); lia|done|by eapply run_car_rinv|].
    exists (i :: sc), r''. split; [by econstructor|done].
Qed.

Lemma work_start choices : (work (createcars choices) ≤ 15 * length choices)%nat.
Proof.
  unfold work, createcars. cbn. induction choices as [|[d t] cs IH]; [done|]. cbn.
  assert (left_to_run (mkCar d t 0) ≤ 15)%nat; [|lia].
  unfold left_to_run, car_code, approachintersection, gostraight, turnleft, turnright. cbn. repeat case_match; cbn; lia.
Qed.

(** The random choices a run of [createcars] can make. *)
Definition random_choices (choices : list (Z * Z)) : Prop :=
  length choices = NCARS ∧ Forall (λ '(d, t), 0 ≤ d < 4 ∧ 0 ≤ t < 3) choices.

Lemma drives_reach choices sc r : random_choices choices → drives (createcars choices) sc r → rinv r.
Proof. intros [_ Hc] Hd. exact (drives_rinv _ _ _ Hd (rinv_start _ Hc)). Qed.

(** ** Properties *)

(** [C13] Cars do not collide.  Whatever the cars choose and however they are
    scheduled: every car announces the regions of the route on which it turns as
    it has chosen, keeping to the right, and leaves by the side it names; two
    different cars are never in the same quadrant of the intersection, where a
    car is in the quadrant of its route whose region it has announced last; at
    most two cars are in the intersection, one that came from the north or south
    and one from the east or west; and no car fails the ownership assertion of
    [lock_release]. *)
Theorem cars_never_collide (choices : list (Z * Z)) (sc : list nat) (r : road) :
  random_choices choices → drives (createcars choices) sc r →
  (∀ i c, cars r !! i = Some c → ∃ dest, 0 ≤ dest < 4 ∧ side dest = exit_side (c_dir c) (c_turn c) ∧
     messages (car_code c) = itinerary (c_dir c) (c_turn c) dest) ∧
  (∀ i j ci cj q, cars r !! i = Some ci → cars r !! j = Some cj →
     position ci = Some q → position cj = Some q → i = j) ∧
  (∀ i j ci cj, cars r !! i = Some ci → cars r !! j = Some cj → is_Some (position ci) → is_Some (position cj) →
     Z.even (c_dir ci) = Z.even (c_dir cj) → i = j) ∧
  (∀ i, run_car i r ≠ RPanic).
Proof.
  intros Hch Hd. pose proof (drives_reach _ _ _ Hch Hd) as Hr. pose proof (rinv_good r Hr) as Hgood.
  assert (∀ i c, cars r !! i = Some c → is_Some (position c) → car_lock c ∈ held c) as Hin.
  { intros i c Hc [q Hq]. by eapply held_inside, position_held; [eapply Hgood..|]. }
  split_and!.
  - intros i c Hc. pose proof (route_ok_all c (Hgood i c Hc)) as H. apply existsb_exists in H as (dest & Hdest & H).
    apply andb_true_iff in H as [H1%bool_decide_eq_true H2%bool_decide_eq_true]. exists dest. split_and!; try done;
      cbn in Hdest; intuition lia.
  - intros i j ci cj q Hi Hj Hqi Hqj. apply (held_unique r i j ci cj (quadrant_lock q) Hr Hi Hj); (eapply position_held; [eapply Hgood|]; done).
  - intros i j ci cj Hi Hj Hpi Hpj Heq. apply (held_unique r i j ci cj (car_lock ci) Hr Hi Hj); [by eapply Hin|].
    rewrite (car_lock_axis ci cj) by (eauto || done). by eapply Hin.
  - intros i. by apply run_car_no_panic.
Qed.

(** [C26] Everybody gets through: no schedule of the cars is longer than
    15 statements per car, a state in which no car can take a step is one in
    which all are through, and every run can be continued until all are. *)
Theorem all_cars_get_through (choices : list (Z * Z)) (sc : list nat) (r : road) :
  random_choices choices → drives (createcars choices) sc r →
  (length sc ≤ 15 * NCARS)%nat ∧
  (Forall gone (cars r) ∨ ∃ i r', run_car i r = ROk r') ∧
  (∃ sc' r', drives (createcars choices) (sc ++ sc') r' ∧ Forall gone (cars r')).
Proof.
  intros Hch Hd. pose proof (drives_reach _ _ _ Hch Hd) as Hr. split; [|split].
  - pose proof (drives_work _ _ _ Hd). pose proof (work_start choices). destruct Hch as [<- _]. lia.
  - destruct (stuck_or_runs r) as [Hs|?]; [left|by right]. by apply stuck_all_gone.
  - destruct (drives_finish r Hr) as (sc' & r' & Hd' & Hg). exists sc', r'. split; [|done]. by eapply drives_app.
Qed.

(** ** Examples *)

(** Run a schedule, skipping cars that have to wait. *)
Fixpoint drive (sc : list nat) (r : road) : road * list nat :=
  match sc with
  | [] => (r, [])
  | i :: sc => match run_car i r with ROk r' => let '(r'', done) := drive sc r' in (r'', i :: done) | _ => drive sc r end
  end.

Lemma drive_sound sc r : drives r (drive sc r).2 (drive sc r).1.
Proof.
  revert r. induction sc as [|i sc IH]; intros r; cbn; [constructor|]. destruct (run_car i r) as [r'| | |] eqn:Hr; [|apply IH..].
  specialize (IH r'). destruct (drive sc r') as [r'' d]. econstructor; eauto.
Qed.

(** A car from the east that turns left, one from the south that turns right,
    and eighteen more behind them. *)
Definition rush_hour : list (Z * Z) := (λ n, (Z.of_nat n `mod` 4, Z.of_nat n `mod` 3)) <$> seq 1 20.
Definition rush_schedule : list nat := concat (replicate 5 (seq 0 20)).

Lemma rush_hour_ok : random_choices rush_hour.
Proof.
  split; [done|]. apply Forall_fmap, Forall_forall. intros n _. cbn.
  split; apply Z.mod_pos_bound; lia.
Qed.

Definition rush_road : road := (drive rush_schedule (createcars rush_hour)).1.

Lemma rush_inside : (position <$> take 3 (cars rush_road)) = [Some (1, 1); Some (1, -1); None].
Proof. by vm_compute. Qed.

Lemma cars_never_collide_witness :
  (position <$> take 3 (cars rush_road)) = [Some (1, 1); Some (1, -1); None] ∧ ∀ i, run_car i rush_road ≠ RPanic.
Proof.
  split; [exact rush_inside|].
  exact (proj2 (proj2 (proj2 (cars_never_collide rush_hour _ rush_road rush_hour_ok (drive_sound rush_schedule _))))).
Defined.

Lemma all_cars_get_through_witness :
  ∃ sc' r', drives (createcars rush_hour) ((drive rush_schedule (createcars rush_hour)).2 ++ sc') r' ∧ Forall gone (cars r').
Proof.
  exact (proj2 (proj2 (all_cars_get_through rush_hour _ rush_road rush_hour_ok (drive_sound rush_schedule _)))).
Defined.
