(* ===== verification/Kpages.v ===== *)
(** * Physical memory and pages for the kernel (ram.c, dumbvm.c, vm/addrspace.c)

    What the kernel heap asks of [alloc_kpages] and [free_kpages], as a class
    of operations and a class of laws; the constants of the machine's memory;
    the allocation of physical memory at boot (arch/mips/mips/ram.c) and the page allocator of
    arch/mips/mips/dumbvm.c, which satisfies the laws. *)

From S2P Require Import Prelude.

Definition PAGE_SIZE : Z := 4096.
Definition PAGE_FRAME : Z := 4294963200.
Definition MIPS_KSEG0 : Z := 2147483648.
Definition MIPS_KSEG1 : Z := 2684354560.
Definition PADDR_TO_KVADDR (paddr : Z) : Z := u32 (paddr + MIPS_KSEG0).

(** Page frame and offset of an address. *)
Lemma land_frame a : 0 ≤ a < 4294967296 → Z.land a PAGE_FRAME = a - a mod 4096.
Proof.
  intros Ha. change PAGE_FRAME with (Z.shiftl (Z.ones 20) 12).
  assert (a - a mod 4096 = Z.shiftl (Z.land (Z.shiftr a 12) (Z.ones 20)) 12) as ->.
  { rewrite Z.land_ones, Z.shiftr_div_pow2, Z.shiftl_mul_pow2 by lia. change (2 ^ 12) with 4096. change (2 ^ 20) with 1048576. dlia. }
  apply Z.bits_inj'. intros n Hn. rewrite Z.land_spec, !Z.shiftl_spec by done. destruct (decide (n < 12)).
  - rewrite !(Z.testbit_neg_r _ (n - 12)) by lia. by rewrite andb_false_r.
  - rewrite Z.land_spec, Z.shiftr_spec by lia. by replace (n - 12 + 12) with n by lia.
Qed.

Lemma land_low a : Z.land a (u32 (Z.lnot PAGE_FRAME)) = a mod 4096.
Proof. change (u32 (Z.lnot PAGE_FRAME)) with (Z.ones 12). by rewrite Z.land_ones by lia. Qed.

Lemma lor_low a b : 0 ≤ b < 4096 → a mod 4096 = 0 → Z.lor a b = a + b.
Proof.
  intros Hb Ha. assert (Z.land a b = 0) as H.
  { apply Z.bits_inj'. intros n Hn. rewrite Z.land_spec, Z.bits_0. destruct (decide (n < 12)).
    - replace a with (Z.shiftl (a / 4096) 12) by (rewrite Z.shiftl_mul_pow2 by lia; change (2 ^ 12) with 4096; dlia).
      by rewrite Z.shiftl_spec_low by lia.
    - destruct (decide (b = 0)) as [->|]; [by rewrite Z.bits_0, andb_false_r|].
      assert (Z.log2 b < n).
      { apply Z.log2_lt_pow2; [lia|]. apply Z.lt_le_trans with (2 ^ 12); [lia|]. apply Z.pow_le_mono_r; lia. }
      rewrite (Z.bits_above_log2 b n) by lia. by rewrite andb_false_r. }
  by rewrite (Z.add_nocarry_lxor _ _ H), (Z.lxor_lor _ _ H).
Qed.

(** ** The TLB and page faults *)

Definition USERSTACK : Z := MIPS_KSEG0.

Definition NUM_TLB : Z := 64.
Definition TLBLO_DIRTY : Z := 1024.
Definition TLBLO_VALID : Z := 512.
Definition TLBHI_INVALID (entryno : Z) : Z := u32 (Z.shiftl (524288 + entryno) 12).
Definition TLBLO_INVALID : Z := 0.

Definition VM_FAULT_READ : Z := 0.
Definition VM_FAULT_WRITE : Z := 1.
Definition VM_FAULT_READONLY : Z := 2.

(** The entry the fault handler writes. *)
Lemma tlb_entry pa :
  pa mod PAGE_SIZE = 0 → 0 ≤ pa < 4294963200 →
  let lo := Z.lor (Z.lor pa TLBLO_DIRTY) TLBLO_VALID in Z.land lo TLBLO_VALID ≠ 0 ∧ Z.land lo PAGE_FRAME = pa.
Proof.
  intros Hm Hr lo. unfold PAGE_SIZE in Hm. assert (lo = pa + 1536) as ->.
  { unfold lo, TLBLO_DIRTY, TLBLO_VALID. rewrite <- Z.lor_assoc. change (Z.lor 1024 512) with 1536. by apply lor_low. }
  split; [|rewrite land_frame by lia; dlia]. intros H. apply (f_equal (λ z, Z.testbit z 9)) in H. rewrite Z.land_spec, Z.bits_0 in H.
  rewrite <- (lor_low pa 1536), Z.lor_spec in H by (done || lia). cbn in H. by rewrite orb_true_r in H.
Qed.

Lemma aligned_frame a : a mod PAGE_SIZE = 0 → 0 ≤ a < 4294967296 → (Z.land a PAGE_FRAME =? a) = true.
Proof. intros Hm Ha. apply Z.eqb_eq. rewrite land_frame by done. unfold PAGE_SIZE in Hm. lia. Qed.

Lemma range_bool a b v : (a <=? v) && (v <? b) = bool_decide (a ≤ v < b).
Proof. case_bool_decide; destruct (Z.leb_spec a v), (Z.ltb_spec v b); cbn; (done || lia). Qed.

(** ** The interface *)

Class KPages (P : Type) := {
  alloc_kpages : Z → stm P Z;
  free_kpages : Z → stm P unit;
}.

(** Two runs of pages do not overlap. *)
Definition apart (a n b m : Z) : Prop := a + n * PAGE_SIZE ≤ b ∨ b + m * PAGE_SIZE ≤ a.

(** A run of [n] pages the kernel can use: aligned and in kseg0. *)
Definition page_run (a n : Z) : Prop :=
  a mod PAGE_SIZE = 0 ∧ 0 < n ∧ MIPS_KSEG0 < a ∧ a + n * PAGE_SIZE ≤ MIPS_KSEG1.

(** The runs that are handed out, by their first address. *)
Abbreviation runs := (gmap Z Z).

(** [alloc_kpages] hands out pages that are not in use or answers 0;
    [free_kpages] takes back the run that starts at the address, and no other. *)
Class KPagesLaws (P : Type) `{KPages P} := {
  kp_inv : P → runs → Prop;
  kp_alloc s A n :
    kp_inv s A → 0 < n ≤ 524288 →
    swp (alloc_kpages n) s (λ a s',
      (a = 0 ∧ kp_inv s' A) ∨
      (page_run a n ∧ (∀ b m, A !! b = Some m → apart a n b m) ∧ kp_inv s' (<[a := n]> A)));
  kp_free s A a n :
    kp_inv s A → A !! a = Some n → swp (free_kpages a) s (λ _ s', kp_inv s' (delete a A));
}.

(** ** Memory at boot (ram.c) *)

Record ram := mkRam { firstpaddr : Z; lastpaddr : Z }.

(** [firstfree] is set by start.S, [ramsize] is the answer of [mips_ramsize]. *)
Definition ram_bootstrap (firstfree ramsize : Z) : ram :=
  let ramsize := if ramsize >? 508 * 1024 * 1024 then 508 * 1024 * 1024 else ramsize in
  mkRam (u32 (firstfree - MIPS_KSEG0)) ramsize.

Definition ram_stealmem (npages : Z) : stm ram Z := λ r,
  let size := u32 (npages * PAGE_SIZE) in
  if u32 (firstpaddr r + size) >? lastpaddr r then Done (0, r)
  else Done (firstpaddr r, mkRam (u32 (firstpaddr r + size)) (lastpaddr r)).

Definition ram_getsize : stm ram (Z * Z) := λ r, Done ((firstpaddr r, lastpaddr r), mkRam 0 0).

(** ** The pages of dumbvm *)

Definition dumbvm_getppages (npages : Z) : stm ram Z := ram_stealmem npages.

Definition dumbvm_alloc_kpages (npages : Z) : stm ram Z :=
  pa ← dumbvm_getppages npages;
  if pa =? 0 then mret 0 else mret (PADDR_TO_KVADDR pa).

Definition dumbvm_free_kpages (addr : Z) : stm ram unit := mret tt.

#[export] Instance dumbvm_kpages : KPages ram :=
  { alloc_kpages := dumbvm_alloc_kpages; free_kpages := dumbvm_free_kpages }.

(** Free memory starts at a page boundary, past the exception handlers. *)
Definition ram_ok (r : ram) : Prop :=
  0 < firstpaddr r ∧ firstpaddr r mod PAGE_SIZE = 0 ∧ firstpaddr r ≤ lastpaddr r ≤ 508 * 1024 * 1024.

(** What is handed out lies below the memory that is left. *)
Definition dumbvm_inv (r : ram) (A : runs) : Prop :=
  ram_ok r ∧ ∀ a n, A !! a = Some n → page_run a n ∧ a + n * PAGE_SIZE ≤ MIPS_KSEG0 + firstpaddr r.

Lemma ram_stealmem_ok r n :
  ram_ok r → 0 < n ≤ 524288 →
  swp (ram_stealmem n) r (λ a r', (a = 0 ∧ r' = r) ∨
    (a = firstpaddr r ∧ firstpaddr r' = a + n * PAGE_SIZE ∧ ram_ok r')).
Proof.
  unfold ram_ok, ram_stealmem, swp, PAGE_SIZE. intros (H0 & Hm & Hl) Hn. rewrite (u32_small (n * 4096)) by lia.
  rewrite (u32_small (_ + _)) by lia. destruct (Z.gtb_spec (firstpaddr r + n * 4096) (lastpaddr r)); cbn; [by left|right].
  split; [done|]. split; [done|]. split; [lia|]. split; [|lia]. by rewrite Z_mod_plus_full.
Qed.

#[export] Program Instance dumbvm_laws : KPagesLaws ram := {| kp_inv := dumbvm_inv |}.
Next Obligation.
  intros r A n [Hr HA] Hn. cbn. unfold dumbvm_alloc_kpages, dumbvm_getppages. apply swp_bind.
  eapply swp_mono; [by apply ram_stealmem_ok|]. intros pa r' [[-> ->]|(-> & Hf & Hr')]; cbn; [by left; split|].
  destruct Hr as (H0 & Hm & Hl). rewrite (proj2 (Z.eqb_neq _ _)) by lia. apply swp_ret. right.
  assert (PADDR_TO_KVADDR (firstpaddr r) = firstpaddr r + MIPS_KSEG0) as ->.
  { apply u32_small. unfold MIPS_KSEG0. lia. }
  assert (page_run (firstpaddr r + MIPS_KSEG0) n) as Hrun.
  { destruct Hr' as (? & ? & ?). unfold page_run, PAGE_SIZE, MIPS_KSEG0, MIPS_KSEG1 in *. split; [dlia|lia]. }
  split; [done|]. split.
  - intros b m Hb. destruct (HA b m Hb). right. lia.
  - split; [done|]. intros a m. destruct (decide (a = firstpaddr r + MIPS_KSEG0)) as [->|?].
    + rewrite lookup_insert_eq. intros [= <-]. split; [done|lia].
    + rewrite lookup_insert_ne by done. intros Ha. destruct (HA a m Ha) as [? ?]. split; [done|].
      unfold PAGE_SIZE in *. lia.
Qed.
Next Obligation.
  intros r A a n [Hr HA] Ha. apply swp_ret. split; [done|]. intros b m Hb. apply lookup_delete_Some in Hb as [_ Hb]. by apply HA.
Qed.
