(* ===== verification/Kheap.v ===== *)
(** * The kernel heap (lib/kheap.c): data and operations

    The pool-based subpage allocator and [kmalloc]/[kfree], over the page
    allocator of the interface [KPages].  Pagerefs are named by their index in
    the array [pagerefs], the null pointer is [None].  Memory is a function
    from addresses to words, so that the free lists are where the code keeps
    them: in the first word of each free block. *)

From S2P Require Import Prelude Kpages.

(** ** Data *)

Definition sizes : list Z := [16; 32; 64; 128; 256; 512; 1024; 2048].
Definition NSIZES : Z := 8.
Definition LARGEST_SUBPAGE_SIZE : Z := 2048.

Record pageref := mkPageref {
  next_samesize : option nat;
  next_all : option nat;
  pageaddr_and_blocktype : Z;
  freelist_offset : Z;
  nfree : Z;
}.

#[export] Instance pageref_inhabited : Inhabited pageref := populate (mkPageref None None 0 0 0).

Definition INVALID_OFFSET : Z := 65535.
Definition PR_PAGEADDR (pr : pageref) : Z := Z.land (pageaddr_and_blocktype pr) PAGE_FRAME.
Definition PR_BLOCKTYPE (pr : pageref) : Z := Z.land (pageaddr_and_blocktype pr) (u32 (Z.lnot PAGE_FRAME)).
Definition MKPAB (pa blk : Z) : Z := Z.lor (Z.land pa PAGE_FRAME) (Z.land blk (u32 (Z.lnot PAGE_FRAME))).

(** A pageref has 16 bytes. *)
Definition NPAGEREFS : Z := PAGE_SIZE / 16.
Definition INUSE_WORDS : Z := NPAGEREFS / 32.

Record heap (P : Type) := mkHeap {
  pagerefs : list pageref;
  pagerefs_inuse : list Z;
  sizebases : list (option nat);
  allbase : option nat;
  h_mem : Z → Z;
  h_spl : Z;
  h_pages : P;
}.
Arguments mkHeap {P}.
Arguments pagerefs {P}.
Arguments pagerefs_inuse {P}.
Arguments sizebases {P}.
Arguments allbase {P}.
Arguments h_mem {P}.
Arguments h_spl {P}.
Arguments h_pages {P}.

Definition set_samesize (o : option nat) (pr : pageref) : pageref :=
  mkPageref o (next_all pr) (pageaddr_and_blocktype pr) (freelist_offset pr) (nfree pr).
Definition set_next_all (o : option nat) (pr : pageref) : pageref :=
  mkPageref (next_samesize pr) o (pageaddr_and_blocktype pr) (freelist_offset pr) (nfree pr).
Definition set_pab (z : Z) (pr : pageref) : pageref :=
  mkPageref (next_samesize pr) (next_all pr) z (freelist_offset pr) (nfree pr).
Definition set_offset (z : Z) (pr : pageref) : pageref :=
  mkPageref (next_samesize pr) (next_all pr) (pageaddr_and_blocktype pr) (u16 z) (nfree pr).
Definition set_nfree (z : Z) (pr : pageref) : pageref :=
  mkPageref (next_samesize pr) (next_all pr) (pageaddr_and_blocktype pr) (freelist_offset pr) (u16 z).

Section kheap.
Context {P : Type} `{!KPages P}.
Abbreviation st := (heap P).

Definition with_refs (l : list pageref) (h : st) : st :=
  mkHeap l (pagerefs_inuse h) (sizebases h) (allbase h) (h_mem h) (h_spl h) (h_pages h).
Definition with_inuse (l : list Z) (h : st) : st :=
  mkHeap (pagerefs h) l (sizebases h) (allbase h) (h_mem h) (h_spl h) (h_pages h).
Definition with_bases (l : list (option nat)) (h : st) : st :=
  mkHeap (pagerefs h) (pagerefs_inuse h) l (allbase h) (h_mem h) (h_spl h) (h_pages h).
Definition with_all (o : option nat) (h : st) : st :=
  mkHeap (pagerefs h) (pagerefs_inuse h) (sizebases h) o (h_mem h) (h_spl h) (h_pages h).
Definition with_mem (m : Z → Z) (h : st) : st :=
  mkHeap (pagerefs h) (pagerefs_inuse h) (sizebases h) (allbase h) m (h_spl h) (h_pages h).
Definition with_spl (n : Z) (h : st) : st :=
  mkHeap (pagerefs h) (pagerefs_inuse h) (sizebases h) (allbase h) (h_mem h) n (h_pages h).
Definition with_pages (p : P) (h : st) : st :=
  mkHeap (pagerefs h) (pagerefs_inuse h) (sizebases h) (allbase h) (h_mem h) (h_spl h) p.

(** Reads and writes; an index outside an array is undefined behaviour. *)
Definition get_pr (i : nat) : stm st pageref := λ h,
  match pagerefs h !! i with Some pr => Done (pr, h) | None => Undef end.
Definition upd_pr (i : nat) (f : pageref → pageref) : stm st unit := λ h,
  match pagerefs h !! i with Some pr => Done (tt, with_refs (<[i := f pr]> (pagerefs h)) h) | None => Undef end.
Definition get_base (t : Z) : stm st (option nat) := λ h,
  match sizebases h !! Z.to_nat t with Some o => Done (o, h) | None => Undef end.
Definition set_base (t : Z) (o : option nat) : stm st unit := modify (λ h, with_bases (<[Z.to_nat t := o]> (sizebases h)) h).
Definition get_word (a : Z) : stm st Z := gets (λ h, h_mem h a).
Definition set_word (a v : Z) : stm st unit := modify (λ h, with_mem (λ b, if b =? a then v else h_mem h b) h).
Definition on_pages {A} (m : stm P A) : stm st A := λ h,
  '(a, p) ← m (h_pages h); Done (a, with_pages p h).
Definition size_at (t : Z) : outcome Z := match sizes !! Z.to_nat t with Some z => Done z | None => Undef end.

Definition h_splhigh : stm st Z := s ← gets h_spl; modify (with_spl 15);; mret s.
Definition h_splx (s : Z) : stm st unit := modify (with_spl s).

(** ** Pagerefs *)

(** The loop over the bits of word [i], from bit [j]. *)
Fixpoint inuse_bit (n : nat) (w j : Z) : option Z :=
  match n with
  | O => None
  | S n => if Z.land w (Z.shiftl 1 j) =? 0 then Some j else inuse_bit n w (j + 1)
  end.

Fixpoint allocpageref_from (n : nat) (i : Z) : stm st (option nat) :=
  match n with
  | O => mret None
  | S n =>
      w ← gets (λ h, pagerefs_inuse h !!! Z.to_nat i);
      if w =? 4294967295 then allocpageref_from n (i + 1)
      else match inuse_bit 32 w 0 with
           | None => lift Panic
           | Some j =>
               modify (λ h, with_inuse (<[Z.to_nat i := Z.lor w (Z.shiftl 1 j)]> (pagerefs_inuse h)) h);;
               mret (Some (Z.to_nat (i * 32 + j)))
           end
  end.
Definition allocpageref : stm st (option nat) := allocpageref_from (Z.to_nat INUSE_WORDS) 0.

Definition freepageref (p : nat) : stm st unit :=
  let j := Z.of_nat p in
  lift (kassert (j <? NPAGEREFS));;
  let i := j / 32 in
  let k := Z.shiftl 1 (j mod 32) in
  w ← gets (λ h, pagerefs_inuse h !!! Z.to_nat i);
  lift (kassert (negb (Z.land w k =? 0)));;
  modify (λ h, with_inuse (<[Z.to_nat i := Z.land w (u32 (Z.lnot k))]> (pagerefs_inuse h)) h).

(** ** Consistency checks

    Compiled in with the options SLOW and SLOWER. *)

Fixpoint checkfreelist (fuel : nat) (prpage sz : Z) (fl : Z) (n : Z) : stm st Z :=
  match fuel with
  | O => lift NoFuel
  | S fuel =>
      if fl =? 0 then mret n
      else
        lift (kassert ((prpage <=? fl) && (fl <? prpage + PAGE_SIZE)));;
        lift (kassert ((fl - prpage) mod sz =? 0));;
        lift (kassert (MIPS_KSEG0 <=? fl));;
        lift (kassert (fl <? MIPS_KSEG1));;
        next ← get_word fl;
        checkfreelist fuel prpage sz next (n + 1)
  end.

Definition checksubpage (p : nat) : stm st unit :=
  s ← gets h_spl;
  lift (kassert (0 <? s));;
  pr ← get_pr p;
  if freelist_offset pr =? INVALID_OFFSET then lift (kassert (nfree pr =? 0))
  else
    sz ← lift (size_at (PR_BLOCKTYPE pr));
    lift (kassert (freelist_offset pr <? PAGE_SIZE));;
    lift (kassert (freelist_offset pr mod sz =? 0));;
    n ← checkfreelist 257 (PR_PAGEADDR pr) sz (PR_PAGEADDR pr + freelist_offset pr) 0;
    lift (kassert (n =? nfree pr)).

(** The loops over the list of a size and over all pages. *)
Fixpoint check_list (fuel : nat) (next : pageref → option nat) (o : option nat) (c : Z) : stm st Z :=
  match fuel with
  | O => lift NoFuel
  | S fuel =>
      match o with
      | None => mret c
      | Some p =>
          checksubpage p;;
          lift (kassert (c <? NPAGEREFS));;
          pr ← get_pr p;
          check_list fuel next (next pr) (c + 1)
      end
  end.

Fixpoint check_sizes (n : nat) (t : Z) (sc : Z) : stm st Z :=
  match n with
  | O => mret sc
  | S n => o ← get_base t; sc ← check_list 257 next_samesize o sc; check_sizes n (t + 1) sc
  end.

Definition checksubpages : stm st unit :=
  s ← gets h_spl;
  lift (kassert (0 <? s));;
  sc ← check_sizes (Z.to_nat NSIZES) 0 0;
  o ← gets allbase;
  ac ← check_list 257 next_all o 0;
  lift (kassert (sc =? ac)).

(** ** The subpage allocator *)

(** The loops of [remove_lists] walk a pointer to the link that leads to a
    pageref: the base of the list ([None]), or the link field of a pageref. *)
Fixpoint unlink (fuel : nat) (get : option nat → stm st (option nat)) (set : option nat → option nat → stm st unit)
    (guy : option nat) (pr : nat) : stm st unit :=
  match fuel with
  | O => lift NoFuel
  | S fuel =>
      o ← get guy;
      match o with
      | None => mret tt
      | Some p =>
          if decide (p = pr) then n ← get (Some pr); set guy n
          else unlink fuel get set (Some p) pr
      end
  end.

Definition get_samesize (t : Z) (guy : option nat) : stm st (option nat) :=
  match guy with None => get_base t | Some g => r ← get_pr g; mret (next_samesize r) end.
Definition put_samesize (t : Z) (guy o : option nat) : stm st unit :=
  match guy with None => set_base t o | Some g => upd_pr g (set_samesize o) end.
Definition get_all (guy : option nat) : stm st (option nat) :=
  match guy with None => gets allbase | Some g => r ← get_pr g; mret (next_all r) end.
Definition put_all (guy o : option nat) : stm st unit :=
  match guy with None => modify (with_all o) | Some g => upd_pr g (set_next_all o) end.

Definition remove_lists (pr : nat) (blktype : Z) : stm st unit :=
  lift (kassert ((0 <=? blktype) && (blktype <? NSIZES)));;
  unlink 257 (get_samesize blktype) (put_samesize blktype) None pr;;
  unlink 257 get_all put_all None pr.

Fixpoint blocktype_from (l : list Z) (i sz : Z) : outcome Z :=
  match l with
  | [] => Panic
  | s :: l => if sz <=? s then Done i else blocktype_from l (i + 1) sz
  end.
Definition blocktype (sz : Z) : outcome Z := blocktype_from sizes 0 sz.

Definition fill_deadbeef (vptr len : Z) : stm st unit :=
  for_stm (Z.to_nat (len / 4)) 0 (λ i _, set_word (vptr + 4 * i) 3735928559;; mret (inl tt : unit + unit)) tt;;
  mret tt.

(** The code from the label [doalloc] on. *)
Definition doalloc (p : nat) (spl : Z) : stm st Z :=
  pr ← get_pr p;
  lift (kassert (freelist_offset pr <? PAGE_SIZE));;
  let prpage := PR_PAGEADDR pr in
  let retptr := u32 (prpage + freelist_offset pr) in
  fl ← get_word retptr;
  upd_pr p (λ pr, set_nfree (nfree pr - 1) pr);;
  pr ← get_pr p;
  (if negb (fl =? 0) then
     lift (kassert (0 <? nfree pr));;
     lift (kassert (u32 (fl - prpage) <? PAGE_SIZE));;
     upd_pr p (set_offset (u32 (fl - prpage)))
   else
     lift (kassert (nfree pr =? 0));;
     upd_pr p (set_offset INVALID_OFFSET));;
  h_splx spl;;
  mret retptr.

(** The first page of the list with a free block. *)
Fixpoint find_page (fuel : nat) (blktype : Z) (o : option nat) : stm st (option nat) :=
  match fuel with
  | O => lift NoFuel
  | S fuel =>
      match o with
      | None => mret None
      | Some p =>
          pr ← get_pr p;
          lift (kassert (PR_BLOCKTYPE pr =? blktype));;
          if 0 <? nfree pr then mret (Some p) else find_page fuel blktype (next_samesize pr)
      end
  end.

(** A new page: every block on its free list, the last one first. *)
Definition fill_page (p : nat) (prpage blktype sz : Z) : stm st unit :=
  upd_pr p (set_pab (MKPAB prpage blktype));;
  upd_pr p (set_nfree (PAGE_SIZE / sz));;
  set_word prpage 0;;
  pr ← get_pr p;
  for_stm (Z.to_nat (nfree pr - 1)) 1 (λ i _,
    set_word (u32 (prpage + i * sz)) (u32 (prpage + (i - 1) * sz));;
    lift (kassert (negb (u32 (prpage + i * sz) =? u32 (prpage + (i - 1) * sz))));;
    mret (inl tt : unit + unit)) tt;;
  let fla := if 1 <? nfree pr then u32 (prpage + (nfree pr - 1) * sz) else prpage in
  upd_pr p (set_offset (u32 (fla - prpage)));;
  pr ← get_pr p;
  lift (kassert (freelist_offset pr =? (nfree pr - 1) * sz)).

Definition link_page (p : nat) (blktype : Z) : stm st unit :=
  o ← get_base blktype;
  upd_pr p (set_samesize o);;
  set_base blktype (Some p);;
  o ← gets allbase;
  upd_pr p (set_next_all o);;
  modify (with_all (Some p)).

Definition subpage_kmalloc (sz : Z) : stm st Z :=
  blktype ← lift (blocktype sz);
  sz ← lift (size_at blktype);
  spl ← h_splhigh;
  o ← get_base blktype;
  found ← find_page 257 blktype o;
  match found with
  | Some p => doalloc p spl
  | None =>
      o ← allocpageref;
      match o with
      | None => h_splx spl;; mret 0
      | Some p =>
          prpage ← on_pages (alloc_kpages 1);
          if prpage =? 0 then freepageref p;; h_splx spl;; mret 0
          else
            fill_page p prpage blktype sz;;
            link_page p blktype;;
            doalloc p spl
      end
  end.

(** The page a pointer lies on. *)
Fixpoint page_of (fuel : nat) (ptraddr : Z) (o : option nat) : stm st (option nat) :=
  match fuel with
  | O => lift NoFuel
  | S fuel =>
      match o with
      | None => mret None
      | Some p =>
          pr ← get_pr p;
          lift (kassert ((0 <=? PR_BLOCKTYPE pr) && (PR_BLOCKTYPE pr <? NSIZES)));;
          if (PR_PAGEADDR pr <=? ptraddr) && (ptraddr <? u32 (PR_PAGEADDR pr + PAGE_SIZE)) then mret (Some p)
          else page_of fuel ptraddr (next_all pr)
      end
  end.

(** Put the block on the free list of its page. *)
Definition push_free (p : nat) (offset : Z) : stm st unit :=
  pr ← get_pr p;
  let prpage := PR_PAGEADDR pr in
  let fla := u32 (prpage + offset) in
  (if freelist_offset pr =? INVALID_OFFSET then set_word fla 0
   else set_word fla (u32 (prpage + freelist_offset pr)));;
  upd_pr p (set_offset offset);;
  upd_pr p (λ pr, set_nfree (nfree pr + 1) pr).

Definition subpage_kfree (ptr : Z) : stm st Z :=
  spl ← h_splhigh;
  o ← gets allbase;
  found ← page_of 257 ptr o;
  match found with
  | None => h_splx spl;; mret (-1)
  | Some p =>
      pr ← get_pr p;
      let prpage := PR_PAGEADDR pr in
      let blktype := PR_BLOCKTYPE pr in
      sz ← lift (size_at blktype);
      let offset := u32 (ptr - prpage) in
      (if (PAGE_SIZE <=? offset) || negb (offset mod sz =? 0) then lift Panic else mret tt);;
      fill_deadbeef ptr sz;;
      push_free p offset;;
      pr ← get_pr p;
      lift (kassert (nfree pr <=? PAGE_SIZE / sz));;
      (if nfree pr =? PAGE_SIZE / sz then
         remove_lists p blktype;;
         on_pages (free_kpages prpage);;
         freepageref p
       else mret tt);;
      h_splx spl;;
      mret 0
  end.

(** ** kmalloc and kfree *)

Definition kmalloc (sz : Z) : stm st Z :=
  if sz >=? LARGEST_SUBPAGE_SIZE then
    let npages := u32 (sz + PAGE_SIZE - 1) / PAGE_SIZE in
    address ← on_pages (alloc_kpages npages);
    if address =? 0 then mret 0 else mret address
  else subpage_kmalloc sz.

Definition kfree (ptr : Z) : stm st unit :=
  if ptr =? 0 then mret tt
  else
    r ← subpage_kfree ptr;
    if negb (r =? 0) then
      lift (kassert (ptr mod PAGE_SIZE =? 0));;
      on_pages (free_kpages ptr)
    else mret tt.
End kheap.

(** The heap at boot: all of it is in the bss, and so zero. *)
Definition heap_start {P} (mem : Z → Z) (spl : Z) (p : P) : heap P :=
  mkHeap (replicate 256 (mkPageref None None 0 0 0)) (replicate 8 0) (replicate 8 None) None mem spl p.
