(* ===== verification/KheapInv.v ===== *)
(** * The kernel heap: representation invariant

    How the pagerefs, their two kinds of lists, the free lists in the pages and
    the runs of pages the heap holds represent a set of allocated blocks, and
    what the steps of [kmalloc] and [kfree] do to them. *)

From S2P Require Import Prelude Bitmap Kpages Kheap.

(** ** Page addresses and block types *)

Lemma pab_parts pr pa t :
  pageaddr_and_blocktype pr = MKPAB pa t → pa mod PAGE_SIZE = 0 → 0 ≤ pa < 4294967296 → 0 ≤ t < 8 →
  PR_PAGEADDR pr = pa ∧ PR_BLOCKTYPE pr = t.
Proof.
  unfold PR_PAGEADDR, PR_BLOCKTYPE, MKPAB, PAGE_SIZE. intros -> Hm Hpa Ht. rewrite !land_low, (land_frame pa) by done.
  rewrite (Z.mod_small t) by lia. rewrite (lor_low _ t) by dlia. rewrite land_frame by dlia. split; dlia.
Qed.

(** The size of the blocks of a page. *)
Definition bsize (pr : pageref) : Z := sizes !!! Z.to_nat (PR_BLOCKTYPE pr).

Definition is_size (z : Z) : Prop := z ∈ sizes.

Lemma is_size_cases z : is_size z → z = 16 ∨ z = 32 ∨ z = 64 ∨ z = 128 ∨ z = 256 ∨ z = 512 ∨ z = 1024 ∨ z = 2048.
Proof. unfold is_size, sizes. rewrite !elem_of_cons, elem_of_nil. lia. Qed.

Lemma is_size_at t : 0 ≤ t < 8 → is_size (sizes !!! Z.to_nat t) ∧ size_at t = Done (sizes !!! Z.to_nat t).
Proof.
  intros Ht. unfold size_at. destruct (lookup_lt_is_Some_2 sizes (Z.to_nat t)) as [z Hz]; [cbn; lia|].
  rewrite (list_lookup_total_correct _ _ _ Hz), Hz. split; [|done]. by eapply list_elem_of_lookup_2.
Qed.

Lemma blocktype_ok sz : 0 ≤ sz ≤ 2048 → ∃ t, blocktype sz = Done t ∧ 0 ≤ t < 8 ∧ sz ≤ sizes !!! Z.to_nat t.
Proof.
  intros Hsz. unfold blocktype, sizes. cbn.
  repeat match goal with
  | |- context [?a <=? ?b] =>
      destruct (Z.leb_spec a b); [eexists; split; [done|]; split; [lia|];
        match goal with |- _ ≤ ?x => let y := eval vm_compute in x in change (sz ≤ y) end; lia|]
  end. lia.
Qed.

(** ** Linked lists of pagerefs *)

Fixpoint linked (next : nat → option nat) (o : option nat) (l : list nat) : Prop :=
  match l with [] => o = None | i :: l => o = Some i ∧ linked next (next i) l end.

Lemma linked_ext next next' o l : (∀ i, i ∈ l → next' i = next i) → linked next o l → linked next' o l.
Proof.
  revert o. induction l as [|i l IH]; intros o Hn Hl; [done|]. destruct Hl as [-> Hl]. split; [done|].
  rewrite Hn by left. apply IH; [|done]. intros j Hj. apply Hn. by right.
Qed.

(** Where the link to the element after [l] is. *)
Fixpoint last_link (guy : option nat) (l : list nat) : option nat :=
  match l with [] => guy | i :: l => last_link (Some i) l end.

Lemma last_link_elem guy l : last_link guy l = guy ∨ ∃ i, last_link guy l = Some i ∧ i ∈ l.
Proof.
  revert guy. induction l as [|i l IH]; intros guy; [by left|]. cbn. right.
  destruct (IH (Some i)) as [->|(j & -> & ?)]; eexists; (split; [done|]); [by left|by right].
Qed.

(** Taking [p] out of a list by redirecting the link that leads to it. *)
Lemma linked_skip next next' (get get' : option nat → option nat) guy l1 p l2 :
  (∀ i, get (Some i) = next i) → (∀ i, get' (Some i) = next' i) →
  linked next (get guy) (l1 ++ p :: l2) → NoDup (l1 ++ p :: l2) → (∀ g, guy = Some g → g ∉ l1 ++ p :: l2) →
  (∀ x, x ≠ last_link guy l1 → get' x = get x) → get' (last_link guy l1) = next p →
  linked next' (get' guy) (l1 ++ l2).
Proof.
  intros Hg Hg'. revert guy. induction l1 as [|i l1 IH]; intros guy Hl Hnd Hguy Hsame Hlast; cbn in *.
  - destruct Hl as [Ho Hl]. rewrite Hlast. eapply linked_ext; [|exact Hl]. intros j Hj. rewrite <- Hg', <- Hg. apply Hsame.
    intros <-. apply (Hguy j eq_refl). by right.
  - destruct Hl as [Ho Hl]. apply NoDup_cons in Hnd as [Hni Hnd]. split.
    + rewrite Hsame; [done|]. intros Heq. destruct (last_link_elem (Some i) l1) as [E|(j & E & Hj)]; rewrite E in Heq.
      * apply (Hguy i Heq). by left.
      * apply (Hguy j Heq). right. apply elem_of_app. by left.
    + rewrite <- Hg'. apply IH; [by rewrite Hg|done| |done..]. intros g [= <-]. done.
Qed.

(** ** Free lists *)

Fixpoint chain (m : Z → Z) (pa : Z) (fl : list Z) : Prop :=
  match fl with
  | [] => True
  | o :: fl' => m (pa + o) = match fl' with [] => 0 | o' :: _ => pa + o' end ∧ chain m pa fl'
  end.

Lemma chain_ext m m' pa fl : (∀ o, o ∈ fl → m' (pa + o) = m (pa + o)) → chain m pa fl → chain m' pa fl.
Proof.
  induction fl as [|o fl IH]; [done|]. cbn. intros Hm [Ho Hc]. split; [rewrite Hm by left; done|].
  apply IH; [|done]. intros o' ?. apply Hm. by right.
Qed.

Definition is_block (pr : pageref) (o : Z) : Prop := 0 ≤ o < PAGE_SIZE ∧ o mod bsize pr = 0.

(** A page of the heap with the free blocks [fl]. *)
Record page_ok (m : Z → Z) (pr : pageref) (fl : list Z) : Prop := {
  pk_type : 0 ≤ PR_BLOCKTYPE pr < 8;
  pk_run : page_run (PR_PAGEADDR pr) 1;
  pk_nfree : nfree pr = Z.of_nat (length fl);
  pk_nodup : NoDup fl;
  pk_blocks o : o ∈ fl → is_block pr o;
  pk_head : freelist_offset pr = default INVALID_OFFSET (head fl);
  pk_chain : chain m (PR_PAGEADDR pr) fl;
}.

Lemma page_ok_size m pr fl : page_ok m pr fl → is_size (bsize pr) ∧ size_at (PR_BLOCKTYPE pr) = Done (bsize pr).
Proof. intros Hp. exact (is_size_at _ (pk_type _ _ _ Hp)). Qed.

(** The blocks of a page, and so how many can be free. *)
Definition blocks (sz : Z) : list Z := (λ k, Z.of_nat k * sz) <$> seq 0 (Z.to_nat (PAGE_SIZE / sz)).

Lemma blocks_spec pr o : is_size (bsize pr) → o ∈ blocks (bsize pr) ↔ is_block pr o.
Proof.
  intros Hs. unfold blocks, is_block, PAGE_SIZE. rewrite list_elem_of_fmap. split.
  - intros (k & -> & Hk). apply elem_of_seq in Hk. rewrite Z_mod_mult. apply is_size_cases in Hs. split; [|done].
    destruct Hs as [Hs|[Hs|[Hs|[Hs|[Hs|[Hs|[Hs|Hs]]]]]]]; rewrite Hs in *; dlia.
  - intros [Ho Hm]. exists (Z.to_nat (o / bsize pr)). rewrite elem_of_seq. apply is_size_cases in Hs.
    destruct Hs as [Hs|[Hs|[Hs|[Hs|[Hs|[Hs|[Hs|Hs]]]]]]]; rewrite Hs in *; split; dlia.
Qed.

Lemma blocks_length sz : length (blocks sz) = Z.to_nat (PAGE_SIZE / sz).
Proof. unfold blocks. by rewrite length_fmap, length_seq. Qed.

Lemma free_count pr fl :
  is_size (bsize pr) → NoDup fl → (∀ o, o ∈ fl → is_block pr o) →
  Z.of_nat (length fl) ≤ PAGE_SIZE / bsize pr ∧
  (Z.of_nat (length fl) = PAGE_SIZE / bsize pr → ∀ o, is_block pr o → o ∈ fl).
Proof.
  intros Hs Hnd Hb. assert (fl ⊆+ blocks (bsize pr)) as Hsub.
  { apply NoDup_submseteq; [done|]. intros o Ho. apply blocks_spec; auto. }
  assert (0 ≤ PAGE_SIZE / bsize pr) by (apply is_size_cases in Hs; unfold PAGE_SIZE; dlia).
  pose proof (submseteq_length _ _ Hsub) as Hlen. rewrite blocks_length in Hlen. split; [lia|]. intros Heq o Ho.
  assert (fl ≡ₚ blocks (bsize pr)) as Hp by (apply submseteq_length_Permutation; [done|rewrite blocks_length; lia]).
  rewrite Hp. by apply blocks_spec.
Qed.

(** ** The map of pagerefs in use *)

Definition bit_used (l : list Z) (i : nat) : bool := Z.testbit (l !!! Z.to_nat (Z.of_nat i / 32)) (Z.of_nat i mod 32).

Record inuse_ok (l : list Z) (U : list nat) : Prop := {
  iu_len : length l = 8%nat;
  iu_word k : (k < 8)%nat → 0 ≤ l !!! k < 4294967296;
  iu_bit i : (i < 256)%nat → bit_used l i = true ↔ i ∈ U;
}.

Lemma inuse_ok_equiv l U U' : (∀ i, i ∈ U' ↔ i ∈ U) → inuse_ok l U → inuse_ok l U'.
Proof. intros HU [? ? Hb]. split; [done..|]. intros i Hi. by rewrite HU, Hb. Qed.

Lemma inuse_bit_spec n w j : 0 ≤ j →
  match inuse_bit n w j with
  | Some k => j ≤ k < j + Z.of_nat n ∧ Z.testbit w k = false
  | None => ∀ k, j ≤ k < j + Z.of_nat n → Z.testbit w k = true
  end.
Proof.
  revert j. induction n as [|n IH]; intros j Hj; cbn; [lia|]. rewrite land_mask by done. destruct (Z.testbit w j) eqn:Hb; cbn.
  - specialize (IH (j + 1) ltac:(lia)). destruct (inuse_bit n w (j + 1)).
    + destruct IH. split; [lia|done].
    + intros k Hk. destruct (decide (k = j)) as [->|]; [done|]. apply IH. lia.
  - split; [lia|done].
Qed.

Lemma all_bits w : 0 ≤ w < 4294967296 → (∀ k, 0 ≤ k < 32 → Z.testbit w k = true) → w = 4294967295.
Proof.
  intros Hw Hb. change 4294967295 with (Z.ones 32). apply Z.bits_inj'. intros n Hn. destruct (decide (n < 32)).
  - by rewrite Hb, Z.ones_spec_low by lia.
  - rewrite Z.ones_spec_high by lia. destruct (decide (w = 0)) as [->|]; [apply Z.bits_0|].
    apply Z.bits_above_log2; [lia|]. apply Z.lt_le_trans with 32; [|lia]. apply Z.log2_lt_pow2; [lia|]. change (2 ^ 32) with 4294967296. lia.
Qed.

(** Pageref [32 * k + j] is bit [j] of word [k]. *)
Lemma bit_used_insert l k w i :
  (k < length l)%nat → (i < 256)%nat →
  bit_used (<[k := w]> l) i = if decide (Z.to_nat (Z.of_nat i / 32) = k) then Z.testbit w (Z.of_nat i mod 32) else bit_used l i.
Proof.
  intros Hk Hi. unfold bit_used. case_decide as H.
  - by rewrite H, list_lookup_total_insert_eq by done.
  - by rewrite list_lookup_total_insert_ne by done.
Qed.

Lemma set_bit_range w j : 0 ≤ w < 4294967296 → 0 ≤ j < 32 → 0 ≤ Z.lor w (Z.shiftl 1 j) < 4294967296.
Proof.
  intros Hw Hj. split; [apply Z.lor_nonneg; split; [lia|]; apply Z.shiftl_nonneg; lia|]. change 4294967296 with (2 ^ 32).
  destruct (decide (Z.lor w (Z.shiftl 1 j) = 0)) as [->|Hne]; [lia|].
  assert (0 ≤ Z.lor w (Z.shiftl 1 j)) by (apply Z.lor_nonneg; split; [lia|]; apply Z.shiftl_nonneg; lia).
  apply Z.log2_lt_pow2; [lia|]. rewrite Z.log2_lor by (try apply Z.shiftl_nonneg; lia). apply Z.max_lub_lt.
  - destruct (decide (w = 0)) as [->|]; [cbn; lia|]. apply Z.log2_lt_pow2; [lia|]. change (2 ^ 32) with 4294967296. lia.
  - rewrite Z.shiftl_1_l, Z.log2_pow2; lia.
Qed.

Lemma inuse_insert l U k w U' :
  inuse_ok l U → (k < 8)%nat → 0 ≤ w < 4294967296 →
  (∀ i, (i < 256)%nat → Z.to_nat (Z.of_nat i / 32) = k → Z.testbit w (Z.of_nat i mod 32) = true ↔ i ∈ U') →
  (∀ i, (i < 256)%nat → Z.to_nat (Z.of_nat i / 32) ≠ k → i ∈ U ↔ i ∈ U') →
  inuse_ok (<[k := w]> l) U'.
Proof.
  intros [Hl Hw Hb] Hk Hwr Hin Hout. split.
  - by rewrite length_insert.
  - intros k' Hk'. destruct (decide (k' = k)) as [->|]; [by rewrite list_lookup_total_insert_eq by lia|].
    rewrite list_lookup_total_insert_ne by done. auto.
  - intros i Hi. rewrite bit_used_insert by lia. case_decide; [by apply Hin|]. rewrite Hb by done. by apply Hout.
Qed.

(** ** The invariant *)

Record ghost := mkGhost {
  g_all : list nat;         (* the pagerefs in use, in the order of the list of all pages *)
  g_same : Z → list nat;    (* those of each size, in the order of the list of the size *)
  g_free : nat → list Z;    (* the offsets of the free blocks of each page *)
  g_runs : runs;            (* the runs of pages handed out by the page allocator *)
  g_big : runs;             (* those of them that are allocations of whole pages *)
}.

Definition fn_set {A B} `{EqDecision A} (f : A → B) (a : A) (b : B) : A → B := λ x, if decide (x = a) then b else f x.

Lemma fn_set_eq {A B} `{EqDecision A} (f : A → B) a b : fn_set f a b a = b.
Proof. unfold fn_set. by rewrite decide_True. Qed.
Lemma fn_set_ne {A B} `{EqDecision A} (f : A → B) a b x : x ≠ a → fn_set f a b x = f x.
Proof. intros. unfold fn_set. by rewrite decide_False. Qed.

Section inv.
Context {P : Type} `{!KPages P} `{!KPagesLaws P}.
Abbreviation st := (heap P).
Implicit Types (h : st) (g : ghost).

Definition prr h (i : nat) : pageref := pagerefs h !!! i.

Record rep h g : Prop := {
  rp_len : length (pagerefs h) = 256%nat;
  rp_bases : length (sizebases h) = 8%nat;
  rp_bound i : i ∈ g_all g → (i < 256)%nat;
  rp_nodup : NoDup (g_all g);
  rp_inuse : inuse_ok (pagerefs_inuse h) (g_all g);
  rp_all : linked (λ i, next_all (prr h i)) (allbase h) (g_all g);
  rp_same t : 0 ≤ t < 8 → linked (λ i, next_samesize (prr h i)) (sizebases h !!! Z.to_nat t) (g_same g t);
  rp_same_nodup t : 0 ≤ t < 8 → NoDup (g_same g t);
  rp_types t i : 0 ≤ t < 8 → i ∈ g_same g t ↔ i ∈ g_all g ∧ PR_BLOCKTYPE (prr h i) = t;
  rp_page i : i ∈ g_all g → page_ok (h_mem h) (prr h i) (g_free g i);
  rp_inj i j : i ∈ g_all g → j ∈ g_all g → PR_PAGEADDR (prr h i) = PR_PAGEADDR (prr h j) → i = j;
  rp_own i : i ∈ g_all g → g_runs g !! PR_PAGEADDR (prr h i) = Some 1 ∧ g_big g !! PR_PAGEADDR (prr h i) = None;
  rp_runs : kp_inv (h_pages h) (g_runs g);
  rp_big : g_big g ⊆ g_runs g;
  rp_run a n : g_runs g !! a = Some n → page_run a n;
  rp_apart a n b m : g_runs g !! a = Some n → g_runs g !! b = Some m → a ≠ b → apart a n b m;
}.

(** The block of [n] bytes at [p] is allocated. *)
Definition lives h g (p n : Z) : Prop :=
  (∃ i o, i ∈ g_all g ∧ is_block (prr h i) o ∧ (o ∉ g_free g i) ∧ p = PR_PAGEADDR (prr h i) + o ∧ n = bsize (prr h i)) ∨
  (∃ k, g_big g !! p = Some k ∧ n = k * PAGE_SIZE).

(** The heap [h] has allocated the blocks [live], given by address and size. *)
Definition hinv h (live : gmap Z Z) : Prop := ∃ g, rep h g ∧ ∀ p n, live !! p = Some n ↔ lives h g p n.

Lemma get_pr_eq h i : length (pagerefs h) = 256%nat → (i < 256)%nat → get_pr i h = Done (prr h i, h).
Proof.
  intros Hl Hi. unfold get_pr, prr. destruct (lookup_lt_is_Some_2 (pagerefs h) i) as [pr Hpr]; [lia|].
  by rewrite Hpr, (list_lookup_total_correct _ _ _ Hpr).
Qed.
Lemma upd_pr_eq h i f :
  length (pagerefs h) = 256%nat → (i < 256)%nat → upd_pr i f h = Done (tt, with_refs (<[i := f (prr h i)]> (pagerefs h)) h).
Proof.
  intros Hl Hi. unfold upd_pr, prr. destruct (lookup_lt_is_Some_2 (pagerefs h) i) as [pr Hpr]; [lia|].
  by rewrite Hpr, (list_lookup_total_correct _ _ _ Hpr).
Qed.
Lemma get_base_eq h t : length (sizebases h) = 8%nat → 0 ≤ t < 8 → get_base t h = Done (sizebases h !!! Z.to_nat t, h).
Proof.
  intros Hl Ht. unfold get_base. destruct (lookup_lt_is_Some_2 (sizebases h) (Z.to_nat t)) as [o Ho]; [lia|].
  by rewrite Ho, (list_lookup_total_correct _ _ _ Ho).
Qed.

Lemma prr_insert_eq h h' i pr :
  length (pagerefs h) = 256%nat → (i < 256)%nat → pagerefs h' = <[i := pr]> (pagerefs h) → prr h' i = pr.
Proof. intros Hl Hi E. unfold prr. rewrite E, list_lookup_total_insert_eq by lia. done. Qed.
Lemma prr_insert_ne h h' i j pr : pagerefs h' = <[i := pr]> (pagerefs h) → j ≠ i → prr h' j = prr h j.
Proof. intros E Hne. unfold prr. by rewrite E, list_lookup_total_insert_ne by done. Qed.

Lemma swp_get_pr h i (Q : pageref → st → Prop) :
  length (pagerefs h) = 256%nat → (i < 256)%nat → Q (prr h i) h → swp (get_pr i) h Q.
Proof. intros Hl Hi HQ. unfold swp. by rewrite get_pr_eq. Qed.
Lemma swp_upd_pr h i f (Q : unit → st → Prop) :
  length (pagerefs h) = 256%nat → (i < 256)%nat → Q tt (with_refs (<[i := f (prr h i)]> (pagerefs h)) h) → swp (upd_pr i f) h Q.
Proof. intros Hl Hi HQ. unfold swp. by rewrite upd_pr_eq. Qed.
Lemma swp_get_base h t (Q : option nat → st → Prop) :
  length (sizebases h) = 8%nat → 0 ≤ t < 8 → Q (sizebases h !!! Z.to_nat t) h → swp (get_base t) h Q.
Proof. intros Hl Hi HQ. unfold swp. by rewrite get_base_eq. Qed.
Lemma swp_on_pages {A} (m : stm P A) h (Q : A → st → Prop) :
  swp m (h_pages h) (λ a p, Q a (with_pages p h)) → swp (on_pages m) h Q.
Proof. unfold swp, on_pages. intros H. apply wp_bind. eapply wp_mono; [exact H|]. by intros [a p]. Qed.

(** *** Consequences *)

Lemma rep_length h g : rep h g → (length (g_all g) ≤ 256)%nat.
Proof.
  intros Hr. rewrite <- (length_seq 256 0). apply submseteq_length, NoDup_submseteq; [exact (rp_nodup _ _ Hr)|].
  intros i Hi. apply elem_of_seq. pose proof (rp_bound _ _ Hr i Hi). lia.
Qed.
Lemma rep_same_length h g t : rep h g → 0 ≤ t < 8 → (length (g_same g t) ≤ 256)%nat.
Proof.
  intros Hr Ht. etrans; [|exact (rep_length h g Hr)]. apply submseteq_length, NoDup_submseteq; [by eapply rp_same_nodup|].
  intros i Hi. by apply (rp_types _ _ Hr t i Ht).
Qed.

(** An address on a page names the page. *)
Lemma page_addr_inj h g i j o o' :
  rep h g → i ∈ g_all g → j ∈ g_all g → 0 ≤ o < PAGE_SIZE → 0 ≤ o' < PAGE_SIZE →
  PR_PAGEADDR (prr h i) + o = PR_PAGEADDR (prr h j) + o' → i = j ∧ o = o'.
Proof.
  intros Hr Hi Hj Ho Ho' E. destruct (pk_run _ _ _ (rp_page _ _ Hr i Hi)) as [Hmi _].
  destruct (pk_run _ _ _ (rp_page _ _ Hr j Hj)) as [Hmj _]. unfold PAGE_SIZE in *.
  assert (PR_PAGEADDR (prr h i) = PR_PAGEADDR (prr h j)) by dlia. split; [by eapply rp_inj|lia].
Qed.

(** An address in a block is on no other page. *)
Lemma run_addr h g a n i x :
  rep h g → i ∈ g_all g → g_runs g !! a = Some n → a ≠ PR_PAGEADDR (prr h i) → a ≤ x < a + n * PAGE_SIZE →
  x < PR_PAGEADDR (prr h i) ∨ PR_PAGEADDR (prr h i) + PAGE_SIZE ≤ x.
Proof.
  intros Hr Hi Ha Hne Hx. destruct (rp_own _ _ Hr i Hi) as [Hown _].
  destruct (rp_apart _ _ Hr _ _ _ _ Ha Hown Hne); unfold PAGE_SIZE in *; lia.
Qed.

Lemma lives_block h g p n i o :
  rep h g → lives h g p n → i ∈ g_all g → 0 ≤ o < PAGE_SIZE → p = PR_PAGEADDR (prr h i) + o →
  is_block (prr h i) o ∧ (o ∉ g_free g i) ∧ n = bsize (prr h i).
Proof.
  intros Hr [(j & o' & Hj & Hb & Hf & -> & ->)|(k & Hk & ->)] Hi Ho Hp.
  - destruct (page_addr_inj h g j i o' o Hr Hj Hi (proj1 Hb) Ho Hp) as [-> ->]. done.
  - destruct (rp_own _ _ Hr i Hi) as [Hown Hbig]. pose proof (lookup_weaken _ _ _ _ Hk (rp_big _ _ Hr)) as Hrun.
    destruct (rp_run _ _ Hr _ _ Hrun) as (? & ? & _). destruct (decide (p = PR_PAGEADDR (prr h i))) as [E|Hne]; [congruence|].
    destruct (run_addr h g p k i p Hr Hi Hrun Hne); unfold PAGE_SIZE in *; lia.
Qed.

Lemma block_fits m pr fl o : page_ok m pr fl → is_block pr o → o + bsize pr ≤ PAGE_SIZE.
Proof.
  intros Hp [Ho Hm]. destruct (page_ok_size _ _ _ Hp) as [Hs%is_size_cases _]. unfold PAGE_SIZE in *.
  destruct Hs as [Hs|[Hs|[Hs|[Hs|[Hs|[Hs|[Hs|Hs]]]]]]]; rewrite Hs in *; dlia.
Qed.
Lemma block_apart m pr fl o o' :
  page_ok m pr fl → is_block pr o → is_block pr o' → o ≠ o' → o + bsize pr ≤ o' ∨ o' + bsize pr ≤ o.
Proof.
  intros Hp [Ho Hm] [Ho' Hm'] Hne. destruct (page_ok_size _ _ _ Hp) as [Hs%is_size_cases _]. unfold PAGE_SIZE in *.
  destruct Hs as [Hs|[Hs|[Hs|[Hs|[Hs|[Hs|[Hs|Hs]]]]]]]; rewrite Hs in *; dlia.
Qed.

(** Where a live block is: on its page, or a run of its own. *)
Lemma lives_run h g p n :
  rep h g → lives h g p n → ∃ a k, g_runs g !! a = Some k ∧ a ≤ p ∧ p + n ≤ a + k * PAGE_SIZE ∧ 0 < n ∧
    ((∃ i, i ∈ g_all g ∧ a = PR_PAGEADDR (prr h i)) ∨ (g_big g !! a = Some k ∧ p = a)).
Proof.
  intros Hr [(i & o & Hi & Hb & Hf & -> & ->)|(k & Hk & ->)].
  - exists (PR_PAGEADDR (prr h i)), 1. destruct (rp_own _ _ Hr i Hi) as [Hown _]. split; [done|].
    pose proof (block_fits _ _ _ _ (rp_page _ _ Hr i Hi) Hb). destruct (page_ok_size _ _ _ (rp_page _ _ Hr i Hi)) as [Hs%is_size_cases _].
    destruct Hb as [Ho _]. split; [lia|]. split; [lia|]. split; [lia|]. left. eauto.
  - pose proof (lookup_weaken _ _ _ _ Hk (rp_big _ _ Hr)) as Hrun. destruct (rp_run _ _ Hr _ _ Hrun) as (? & ? & ? & ?).
    exists p, k. split; [done|]. split; [lia|]. split; [lia|]. split; [unfold PAGE_SIZE; lia|]. by right.
Qed.

Lemma live_apart h g p n q m :
  rep h g → lives h g p n → lives h g q m → p ≠ q → p + n ≤ q ∨ q + m ≤ p.
Proof.
  intros Hr Hp Hq Hne. destruct (lives_run _ _ _ _ Hr Hp) as (a & k & Ha & ? & ? & ? & Hpa).
  destruct (lives_run _ _ _ _ Hr Hq) as (b & l & Hb & ? & ? & ? & Hqb). destruct (decide (a = b)) as [->|Hab].
  - destruct Hpa as [(i & Hi & ->)|[Hbig ->]].
    + destruct (rp_own _ _ Hr i Hi) as [Hown Hnb]. replace k with 1 in * by congruence. replace l with 1 in * by congruence.
      destruct (lives_block h g p n i (p - PR_PAGEADDR (prr h i)) Hr Hp Hi) as (Hbp & _ & ->); [lia..|].
      destruct (lives_block h g q m i (q - PR_PAGEADDR (prr h i)) Hr Hq Hi) as (Hbq & _ & ->); [lia..|].
      destruct (block_apart _ _ _ _ _ (rp_page _ _ Hr i Hi) Hbp Hbq); lia.
    + destruct Hqb as [(i & Hi & ->)|[_ ->]]; [|done]. destruct (rp_own _ _ Hr i Hi). congruence.
  - destruct (rp_apart _ _ Hr _ _ _ _ Ha Hb Hab); lia.
Qed.
End inv.
