(* ===== verification/KheapOps.v ===== *)
(** * The kernel heap: what the operations do

    [kmalloc] and [kfree] on a heap that satisfies the invariant of KheapInv, and
    the page that [kfree] gives back. *)

From S2P Require Import Prelude Bitmap Kpages Kheap KheapInv.

Section ops.
Context {P : Type} `{!KPages P} `{!KPagesLaws P}.
Abbreviation st := (heap P).
Implicit Types (h : st) (g : ghost).

(** ** Changes of the representation *)

Definition same_refs h h' (i : nat) : Prop :=
  length (pagerefs h') = length (pagerefs h) ∧ ∀ j, j ≠ i → prr h' j = prr h j.

Definition off_page (pa : Z) (m m' : Z → Z) : Prop := ∀ a, a < pa ∨ pa + PAGE_SIZE ≤ a → m' a = m a.

Lemma page_ok_off pa m m' pr fl :
  off_page pa m m' → page_ok m pr fl → pa mod PAGE_SIZE = 0 → PR_PAGEADDR pr ≠ pa → page_ok m' pr fl.
Proof.
  intros Hoff [? [Hm ?] ? ? Hb ? ?] Hpa Hne. split; try done. eapply chain_ext; [|done]. intros o Ho. apply Hoff.
  destruct (Hb o Ho) as [? _]. unfold PAGE_SIZE in *. dlia.
Qed.

Definition set_free g (i : nat) (fl : list Z) : ghost := mkGhost (g_all g) (g_same g) (fn_set (g_free g) i fl) (g_runs g) (g_big g).

(** Other free blocks on one page. *)
Lemma rep_page h h' g i fl :
  rep h g → i ∈ g_all g → same_refs h h' i →
  next_samesize (prr h' i) = next_samesize (prr h i) → next_all (prr h' i) = next_all (prr h i) →
  pageaddr_and_blocktype (prr h' i) = pageaddr_and_blocktype (prr h i) →
  pagerefs_inuse h' = pagerefs_inuse h → sizebases h' = sizebases h → allbase h' = allbase h → h_pages h' = h_pages h →
  off_page (PR_PAGEADDR (prr h i)) (h_mem h) (h_mem h') → page_ok (h_mem h') (prr h' i) fl →
  rep h' (set_free g i fl).
Proof.
  intros Hr Hi [Hlen Hsame] Hns Hna Hpab Hiu Hb Ha Hp Hoff Hok.
  assert (∀ j, pageaddr_and_blocktype (prr h' j) = pageaddr_and_blocktype (prr h j)) as Hpabs.
  { intros j. destruct (decide (j = i)) as [->|?]; [done|by rewrite Hsame]. }
  assert (∀ j, PR_PAGEADDR (prr h' j) = PR_PAGEADDR (prr h j)) as Hpa by (intros j; unfold PR_PAGEADDR; by rewrite Hpabs).
  assert (∀ j, PR_BLOCKTYPE (prr h' j) = PR_BLOCKTYPE (prr h j)) as Hbt by (intros j; unfold PR_BLOCKTYPE; by rewrite Hpabs).
  destruct Hr as [H1 H2 H3 H4 H5 H6 H7 H8 H9 H10 H11 H12 H13 H14 H15 H16]. split; cbn; rewrite ?Hb, ?Hiu, ?Ha, ?Hp; try done.
  - by rewrite Hlen.
  - eapply linked_ext; [|exact H6]. intros j _. cbn. destruct (decide (j = i)) as [->|?]; [done|by rewrite Hsame].
  - intros t Ht. eapply linked_ext; [|by apply H7]. intros j _. cbn. destruct (decide (j = i)) as [->|?]; [done|by rewrite Hsame].
  - intros t j Ht. rewrite Hbt. auto.
  - intros j Hj. destruct (decide (j = i)) as [->|Hne]; [by rewrite fn_set_eq|]. rewrite fn_set_ne, Hsame by done.
    eapply page_ok_off; [done|by apply H10| |].
    + by destruct (pk_run _ _ _ (H10 i Hi)).
    + intros E. apply Hne. by apply H11.
  - intros j k Hj Hk. rewrite !Hpa. auto.
  - intros j Hj. rewrite Hpa. auto.
Qed.

(** A new page. *)
Definition add_page g (i : nat) (t pa : Z) (fl : list Z) : ghost :=
  mkGhost (i :: g_all g) (fn_set (g_same g) t (i :: g_same g t)) (fn_set (g_free g) i fl) (<[pa := 1]> (g_runs g)) (g_big g).

Lemma runs_add (A : runs) a n :
  (∀ b m, A !! b = Some m → page_run b m) → (∀ b n c m, A !! b = Some n → A !! c = Some m → b ≠ c → apart b n c m) →
  page_run a n → (∀ b m, A !! b = Some m → apart a n b m) →
  A !! a = None ∧ (∀ b m, <[a := n]> A !! b = Some m → page_run b m) ∧
  (∀ b k c m, <[a := n]> A !! b = Some k → <[a := n]> A !! c = Some m → b ≠ c → apart b k c m).
Proof.
  intros Hrun Hap Ha Hfresh. split_and!.
  - destruct (A !! a) as [m|] eqn:E; [|done]. destruct (Hrun a m E) as (? & ? & ?). destruct Ha as (? & ? & ?).
    destruct (Hfresh a m E); unfold PAGE_SIZE in *; lia.
  - intros b m. destruct (decide (b = a)) as [->|]; [rewrite lookup_insert_eq; by intros [= <-]|rewrite lookup_insert_ne by done; apply Hrun].
  - intros b k c m. destruct (decide (b = a)) as [->|], (decide (c = a)) as [->|]; rewrite ?lookup_insert_eq, ?lookup_insert_ne by done.
    + done.
    + intros [= <-] Hc _. by apply Hfresh.
    + intros Hb [= <-] _. destruct (Hfresh b k Hb); [by right|by left].
    + apply Hap.
Qed.

Lemma rep_add h h' g i t pa fl :
  rep h g → (i ∉ g_all g) → (i < 256)%nat → 0 ≤ t < 8 → same_refs h h' i →
  inuse_ok (pagerefs_inuse h') (i :: g_all g) → sizebases h' = <[Z.to_nat t := Some i]> (sizebases h) → allbase h' = Some i →
  next_samesize (prr h' i) = sizebases h !!! Z.to_nat t → next_all (prr h' i) = allbase h →
  PR_PAGEADDR (prr h' i) = pa → PR_BLOCKTYPE (prr h' i) = t →
  page_run pa 1 → (∀ b m, g_runs g !! b = Some m → apart pa 1 b m) → kp_inv (h_pages h') (<[pa := 1]> (g_runs g)) →
  off_page pa (h_mem h) (h_mem h') → page_ok (h_mem h') (prr h' i) fl →
  rep h' (add_page g i t pa fl).
Proof.
  intros Hr Hni Hi Ht [Hlen Hsame] Hiu Hb Ha Hns Hna Hpa Hbt Hrun Hap Hkp Hoff Hok.
  destruct Hr as [H1 H2 H3 H4 H5 H6 H7 H8 H9 H10 H11 H12 H13 H14 H15 H16].
  destruct (runs_add _ _ _ H15 H16 Hrun Hap) as (Hnew & Hruns & Haparts).
  assert (∀ j, j ∈ g_all g → prr h' j = prr h j) as Hs by (intros j Hj; apply Hsame; by intros ->).
  assert (∀ j, j ∈ g_all g → PR_PAGEADDR (prr h j) ≠ pa) as Hother.
  { intros j Hj E. destruct (H12 j Hj). congruence. }
  split; cbn; try done.
  - by rewrite Hlen.
  - by rewrite Hb, length_insert.
  - intros j [->|?]%elem_of_cons; [done|auto].
  - by constructor.
  - split; [done|]. rewrite Hna. eapply linked_ext; [|exact H6]. intros j Hj. cbn. by rewrite Hs.
  - intros t' Ht'. rewrite Hb. destruct (decide (t' = t)) as [->|Hne].
    + rewrite fn_set_eq, list_lookup_total_insert_eq by lia. split; [done|]. rewrite Hns. eapply linked_ext; [|by apply H7].
      intros j Hj. cbn. rewrite Hs; [done|]. by apply (H9 t j Ht).
    + rewrite fn_set_ne, list_lookup_total_insert_ne by lia. eapply linked_ext; [|by apply H7].
      intros j Hj. cbn. rewrite Hs; [done|]. by apply (H9 t' j Ht').
  - intros t' Ht'. destruct (decide (t' = t)) as [->|Hne]; [rewrite fn_set_eq|rewrite fn_set_ne by done; auto].
    constructor; [|auto]. by intros [? _]%(H9 t i Ht).
  - intros t' j Ht'. rewrite elem_of_cons. destruct (decide (j = i)) as [->|Hji].
    + rewrite Hbt. destruct (decide (t' = t)) as [->|Hne]; [rewrite fn_set_eq, elem_of_cons|rewrite fn_set_ne by done]; [by intuition|].
      rewrite (H9 t' i Ht'). intuition congruence.
    + rewrite Hsame by done. destruct (decide (t' = t)) as [->|Hne]; [rewrite fn_set_eq, elem_of_cons|rewrite fn_set_ne by done];
        rewrite (H9 _ j Ht'); intuition congruence.
  - intros j [->|Hj]%elem_of_cons; [by rewrite fn_set_eq|]. rewrite fn_set_ne by (by intros ->). rewrite Hs by done.
    eapply page_ok_off; [done|by apply H10|by destruct Hrun|auto].
  - intros j k [->|Hj]%elem_of_cons [->|Hk]%elem_of_cons; [done|..]; rewrite ?Hpa, ?Hs by done; intros E; [|by edestruct Hother|auto].
    by edestruct (Hother k Hk).
  - intros j [->|Hj]%elem_of_cons.
    + rewrite Hpa, lookup_insert_eq. split; [done|]. destruct (g_big g !! pa) as [m|] eqn:E; [|done].
      apply (lookup_weaken _ (g_runs g)) in E; [congruence|done].
    + rewrite Hs, lookup_insert_ne by (done || by apply not_eq_sym, Hother). auto.
  - etrans; [exact H14|]. by apply insert_subseteq.
Qed.

(** A page given back. *)
Definition drop_page g (i : nat) (t pa : Z) : ghost :=
  mkGhost (filter (λ j, j ≠ i) (g_all g)) (fn_set (g_same g) t (filter (λ j, j ≠ i) (g_same g t))) (g_free g)
    (delete pa (g_runs g)) (g_big g).

Lemma rep_drop h h' g i t pa :
  rep h g → i ∈ g_all g → t = PR_BLOCKTYPE (prr h i) → pa = PR_PAGEADDR (prr h i) →
  length (pagerefs h') = 256%nat → length (sizebases h') = 8%nat →
  (∀ j, pageaddr_and_blocktype (prr h' j) = pageaddr_and_blocktype (prr h j) ∧ freelist_offset (prr h' j) = freelist_offset (prr h j) ∧
        nfree (prr h' j) = nfree (prr h j)) →
  inuse_ok (pagerefs_inuse h') (filter (λ j, j ≠ i) (g_all g)) →
  linked (λ j, next_all (prr h' j)) (allbase h') (filter (λ j, j ≠ i) (g_all g)) →
  (∀ t', 0 ≤ t' < 8 → linked (λ j, next_samesize (prr h' j)) (sizebases h' !!! Z.to_nat t')
     (fn_set (g_same g) t (filter (λ j, j ≠ i) (g_same g t)) t')) →
  h_mem h' = h_mem h → kp_inv (h_pages h') (delete pa (g_runs g)) →
  rep h' (drop_page g i t pa).
Proof.
  intros Hr Hi -> -> Hlen Hb Hpr Hiu Hall Hsame Hm Hkp.
  destruct Hr as [H1 H2 H3 H4 H5 H6 H7 H8 H9 H10 H11 H12 H13 H14 H15 H16].
  assert (∀ j, PR_PAGEADDR (prr h' j) = PR_PAGEADDR (prr h j)) as Hpa by (intros j; unfold PR_PAGEADDR; by destruct (Hpr j) as [-> _]).
  assert (∀ j, PR_BLOCKTYPE (prr h' j) = PR_BLOCKTYPE (prr h j)) as Hbt by (intros j; unfold PR_BLOCKTYPE; by destruct (Hpr j) as [-> _]).
  assert (∀ j, bsize (prr h' j) = bsize (prr h j)) as Hbs by (intros j; unfold bsize; by rewrite Hbt).
  split; cbn; try done.
  - intros j [_ ?]%list_elem_of_filter. auto.
  - by apply NoDup_filter.
  - intros t Ht. destruct (decide (t = PR_BLOCKTYPE (prr h i))) as [->|]; [rewrite fn_set_eq; apply NoDup_filter|rewrite fn_set_ne by done]; auto.
  - intros t j Ht. rewrite Hbt, list_elem_of_filter. destruct (decide (t = PR_BLOCKTYPE (prr h i))) as [->|Hne].
    + rewrite fn_set_eq, list_elem_of_filter, (H9 _ j Ht). intuition.
    + rewrite fn_set_ne, (H9 _ j Ht) by done. intuition congruence.
  - intros j [_ Hj]%list_elem_of_filter. destruct (H10 j Hj) as [Q1 Q2 Q3 Q4 Q5 Q6 Q7]. destruct (Hpr j) as (_ & Ho & Hn).
    split; unfold is_block; rewrite ?Hbt, ?Hpa, ?Hbs, ?Ho, ?Hn, ?Hm; done.
  - intros j k [_ Hj]%list_elem_of_filter [_ Hk]%list_elem_of_filter. rewrite !Hpa. auto.
  - intros j [Hne Hj]%list_elem_of_filter. rewrite Hpa, lookup_delete_ne; [auto|]. intros E. apply Hne. symmetry. by apply H11.
  - apply map_subseteq_spec. intros a n Ha. rewrite lookup_delete_ne; [by eapply lookup_weaken|]. intros <-. destruct (H12 i Hi). congruence.
  - intros a n [_ Ha]%lookup_delete_Some. auto.
  - intros a n b m [_ Ha]%lookup_delete_Some [_ Hb']%lookup_delete_Some. auto.
Qed.

(** ** Allocation on a page *)

Definition same_pab h h' : Prop := ∀ j, pageaddr_and_blocktype (prr h' j) = pageaddr_and_blocktype (prr h j).

Lemma same_pab_parts h h' j : same_pab h h' →
  PR_PAGEADDR (prr h' j) = PR_PAGEADDR (prr h j) ∧ PR_BLOCKTYPE (prr h' j) = PR_BLOCKTYPE (prr h j) ∧ bsize (prr h' j) = bsize (prr h j).
Proof. intros H. unfold bsize, PR_PAGEADDR, PR_BLOCKTYPE. by rewrite (H j). Qed.

Lemma page_word pa o : page_run pa 1 → 0 ≤ o < PAGE_SIZE → u32 (pa + o) = pa + o.
Proof. intros (? & ? & ? & ?) ?. apply u32_small. unfold PAGE_SIZE, MIPS_KSEG0, MIPS_KSEG1 in *. lia. Qed.

Lemma page_count m pr fl : page_ok m pr fl → Z.of_nat (length fl) ≤ 256.
Proof.
  intros Hp. destruct (page_ok_size _ _ _ Hp) as [Hs _]. pose proof (proj1 (free_count pr fl Hs (pk_nodup _ _ _ Hp) (pk_blocks _ _ _ Hp))).
  apply is_size_cases in Hs. unfold PAGE_SIZE in *. dlia.
Qed.

(** The pageref after the first free block has been taken. *)
Lemma page_ok_pop m pr o r :
  page_ok m pr (o :: r) →
  page_ok m (set_offset (default INVALID_OFFSET (head r)) (set_nfree (nfree pr - 1) pr)) r.
Proof.
  intros Hok. pose proof (page_count _ _ _ Hok) as Hcnt. destruct Hok as [Ht Hrun Hn Hnd Hb Hh [Hm Hc]]. cbn in Hn, Hcnt.
  split; try done.
  - cbn. unfold u16. rewrite Z.mod_small; lia.
  - by apply NoDup_cons in Hnd as [_ ?].
  - intros o' Ho'. apply Hb. by right.
  - cbn. unfold u16. destruct r as [|o' r]; [done|]. cbn. destruct (Hb o') as [? _]; [right; by left|]. unfold PAGE_SIZE in *.
    apply Z.mod_small. lia.
Qed.

Lemma prr_refs_eq h h0 i pr :
  length (pagerefs h) = 256%nat → (i < 256)%nat → prr (with_refs (<[i := pr]> (pagerefs h)) h0) i = pr.
Proof. intros. by apply (prr_insert_eq h). Qed.

Lemma doalloc_wp h g i o r spl :
  rep h g → i ∈ g_all g → g_free g i = o :: r →
  swp (doalloc i spl) h (λ p h', p = PR_PAGEADDR (prr h i) + o ∧ rep h' (set_free g i r) ∧ h_mem h' = h_mem h ∧ h_spl h' = spl ∧
    same_pab h h').
Proof.
  intros Hr Hi Hf. pose proof (rp_page _ _ Hr i Hi) as Hok. rewrite Hf in Hok. pose proof (page_ok_pop _ _ _ _ Hok) as Hok'.
  pose proof (rp_len _ _ Hr) as Hlen. pose proof (rp_bound _ _ Hr i Hi) as Hb.
  destruct Hok as [Ht Hrun Hn Hnd Hblk Hh [Hw Hc]]. cbn in Hn, Hh, Hw. destruct (Hblk o) as [Ho _]; [by left|].
  unfold doalloc. apply swp_bind, swp_get_pr; [done..|]. apply swp_bind, swp_kassert; [rewrite Hh; lia|]. cbv zeta.
  rewrite Hh, page_word by done. apply swp_bind, swp_gets. apply swp_bind, swp_upd_pr; [done..|].
  apply swp_bind, swp_get_pr; [cbn; by rewrite length_insert|done|].
  rewrite prr_refs_eq by done.
  pose proof (pk_nfree _ _ _ Hok') as Hn'. cbn [set_offset nfree] in Hn'. rewrite Hn', Hw.
  assert (∀ z, u16 z = freelist_offset (set_offset (default INVALID_OFFSET (head r)) (set_nfree (nfree (prr h i) - 1) (prr h i))) →
    swp (upd_pr i (set_offset z)) (with_refs (<[i:=set_nfree (nfree (prr h i) - 1) (prr h i)]> (pagerefs h)) h)
      (λ _ h1, swp (h_splx spl;; mret (PR_PAGEADDR (prr h i) + o)) h1 (λ p h', p = PR_PAGEADDR (prr h i) + o ∧
         rep h' (set_free g i r) ∧ h_mem h' = h_mem h ∧ h_spl h' = spl ∧ same_pab h h'))) as Hend.
  { intros z Hz. apply swp_upd_pr; [cbn; by rewrite length_insert|done|]. apply swp_bind, swp_modify, swp_ret.
    rewrite prr_refs_eq by done. split; [done|].
    set (h' := with_spl _ _). assert (prr h' i = set_offset (default INVALID_OFFSET (head r)) (set_nfree (nfree (prr h i) - 1) (prr h i))) as Hi'.
    { unfold h', prr at 1. cbn. rewrite list_lookup_total_insert_eq by (rewrite length_insert; lia). unfold set_offset at 1. by rewrite Hz. }
    assert (same_refs h h' i) as Hs.
    { split; [unfold h'; cbn; by rewrite !length_insert|]. intros j Hj. unfold h', prr. cbn.
      by rewrite !list_lookup_total_insert_ne by done. }
    split; [|split_and!; try done].
    - eapply rep_page; try done; rewrite ?Hi'; done.
    - intros j. destruct (decide (j = i)) as [->|Hj]; [by rewrite Hi'|]. by rewrite (proj2 Hs). }
  destruct r as [|o' r]; cbn [head default from_option length] in *.
  - apply swp_bind. apply swp_bind, swp_kassert; [done|]. by apply Hend.
  - destruct (Hblk o') as [Ho' _]; [right; by left|].
    assert (u32 (PR_PAGEADDR (prr h i) + o' - PR_PAGEADDR (prr h i)) = o') as Hoff.
    { rewrite Z.add_simpl_l. apply u32_small. unfold PAGE_SIZE in *. lia. }
    destruct Hrun as (? & ? & ? & ?). rewrite (proj2 (Z.eqb_neq _ _)) by (unfold MIPS_KSEG0, PAGE_SIZE in *; lia). cbn [negb].
    apply swp_bind. apply swp_bind, swp_kassert; [apply Z.ltb_lt; lia|]. apply swp_bind, swp_kassert; [rewrite Hoff; lia|]. rewrite Hoff. by apply Hend.
Qed.

(** The allocated blocks when a block is taken from or put on a free list. *)
Lemma lives_pop h h' g i o r p n :
  rep h g → i ∈ g_all g → g_free g i = o :: r → same_pab h h' →
  lives h' (set_free g i r) p n ↔ (p = PR_PAGEADDR (prr h i) + o ∧ n = bsize (prr h i)) ∨ lives h g p n.
Proof.
  intros Hr Hi Hf Hpab. unfold lives, is_block. cbn. pose proof (rp_page _ _ Hr i Hi) as Hok. rewrite Hf in Hok.
  assert (is_block (prr h i) o) as Hbo by (apply (pk_blocks _ _ _ Hok); by left).
  assert (o ∉ r) as Hor by (by destruct (proj1 (NoDup_cons _ _) (pk_nodup _ _ _ Hok))). split.
  - intros [(j & o' & Hj & Hb & Hnf & -> & ->)|?]; [|by right; right]. destruct (same_pab_parts h h' j Hpab) as (-> & _ & E). rewrite E in *.
    destruct (decide (j = i)) as [->|Hne].
    + rewrite fn_set_eq in Hnf. destruct (decide (o' = o)) as [->|Ho]; [by left|right; left]. exists i, o'. rewrite Hf.
      split_and!; try done; try apply Hb. by intros [->|?]%elem_of_cons.
    + rewrite fn_set_ne in Hnf by done. right; left. by exists j, o'.
  - intros [[-> ->]|[(j & o' & Hj & Hb & Hnf & -> & ->)|?]]; [left|left|by right].
    + exists i, o. destruct (same_pab_parts h h' i Hpab) as (-> & _ & ->). by rewrite fn_set_eq.
    + exists j, o'. destruct (same_pab_parts h h' j Hpab) as (-> & _ & ->). destruct (decide (j = i)) as [->|Hne].
      * rewrite fn_set_eq. rewrite Hf, elem_of_cons in Hnf. split_and!; try done; try apply Hb. tauto.
      * by rewrite fn_set_ne.
Qed.

Lemma lives_push h h' g i o p n :
  rep h g → i ∈ g_all g → is_block (prr h i) o → same_pab h h' →
  lives h' (set_free g i (o :: g_free g i)) p n ↔ p ≠ PR_PAGEADDR (prr h i) + o ∧ lives h g p n.
Proof.
  intros Hr Hi Hbo Hpab. split.
  - intros [(j & o' & Hj & Hb & Hnf & -> & ->)|(k & Hk & ->)].
    + cbn in *. destruct (same_pab_parts h h' j Hpab) as (-> & _ & E). unfold is_block in Hb. rewrite E in *. split.
      * intros Heq. destruct (page_addr_inj h g j i o' o Hr Hj Hi (proj1 Hb) (proj1 Hbo) Heq) as [-> ->].
        rewrite fn_set_eq in Hnf. apply Hnf. by left.
      * left. exists j, o'. split_and!; try done; try apply Hb. intros Hin. apply Hnf. destruct (decide (j = i)) as [->|?].
        -- rewrite fn_set_eq. by right.
        -- by rewrite fn_set_ne.
    + cbn in Hk. assert (lives h g p (k * PAGE_SIZE)) as Hl by (right; eauto). split; [|done]. intros Hp.
      destruct (lives_block h g p _ i o Hr Hl Hi (proj1 Hbo) Hp) as (_ & _ & E). destruct (page_ok_size _ _ _ (rp_page _ _ Hr i Hi)) as [Hs%is_size_cases _].
      destruct (rp_run _ _ Hr p k) as (_ & ? & _); [exact (lookup_weaken _ _ _ _ Hk (rp_big _ _ Hr))|]. unfold PAGE_SIZE in *. lia.
  - intros [Hp [(j & o' & Hj & Hb & Hnf & -> & ->)|?]]; [left|by right]. exists j, o'. unfold is_block. cbn.
    destruct (same_pab_parts h h' j Hpab) as (-> & _ & ->). split_and!; try done; try apply Hb.
    destruct (decide (j = i)) as [->|?]; [rewrite fn_set_eq|by rewrite fn_set_ne]. intros [->|?]%elem_of_cons; done.
Qed.

(** ** Finding a page *)

Lemma find_page_wp h g t fuel l o :
  rep h g → 0 ≤ t < 8 → linked (λ i, next_samesize (prr h i)) o l → (∀ i, i ∈ l → i ∈ g_same g t) → (length l < fuel)%nat →
  swp (find_page fuel t o) h (λ r h', h' = h ∧ match r with Some i => i ∈ g_all g ∧ PR_BLOCKTYPE (prr h i) = t ∧ g_free g i ≠ [] | None => True end).
Proof.
  intros Hr Ht. revert o fuel. induction l as [|i l IH]; intros o [|fuel] Hl Hin Hfuel; [lia| |lia|]; cbn in Hl, Hfuel.
  - subst o. by apply swp_ret.
  - destruct Hl as [-> Hl]. cbn. pose proof (proj1 (rp_types _ _ Hr t i Ht) (Hin i ltac:(by left))) as [Hi Hbt].
    apply swp_bind, swp_get_pr; [exact (rp_len _ _ Hr)|exact (rp_bound _ _ Hr i Hi)|].
    apply swp_bind, swp_kassert; [by apply Z.eqb_eq|]. rewrite (pk_nfree _ _ _ (rp_page _ _ Hr i Hi)).
    destruct (g_free g i) as [|o r] eqn:Hf; cbn.
    + apply IH; [done| |lia]. intros j Hj. apply Hin. by right.
    + apply swp_ret. split; [done|]. by rewrite Hf.
Qed.

Lemma page_of_wp h g ptr fuel l o :
  rep h g → linked (λ i, next_all (prr h i)) o l → (∀ i, i ∈ l → i ∈ g_all g) → (length l < fuel)%nat →
  swp (page_of fuel ptr o) h (λ r h', h' = h ∧
    match r with
    | Some i => i ∈ l ∧ PR_PAGEADDR (prr h i) ≤ ptr < PR_PAGEADDR (prr h i) + PAGE_SIZE
    | None => ∀ i, i ∈ l → ptr < PR_PAGEADDR (prr h i) ∨ PR_PAGEADDR (prr h i) + PAGE_SIZE ≤ ptr
    end).
Proof.
  intros Hr. revert o fuel. induction l as [|i l IH]; intros o [|fuel] Hl Hin Hfuel; [lia| |lia|]; cbn in Hl, Hfuel.
  - subst o. apply swp_ret. split; [done|]. by intros i ?%elem_of_nil.
  - destruct Hl as [-> Hl]. cbn. assert (i ∈ g_all g) as Hi by (apply Hin; by left).
    destruct (rp_page _ _ Hr i Hi) as [Ht Hrun _ _ _ _ _].
    apply swp_bind, swp_get_pr; [exact (rp_len _ _ Hr)|exact (rp_bound _ _ Hr i Hi)|]. apply swp_bind, swp_kassert; [unfold NSIZES; lia|].
    rewrite (u32_small (PR_PAGEADDR (prr h i) + PAGE_SIZE)) by (destruct Hrun as (? & ? & ? & ?); unfold PAGE_SIZE, MIPS_KSEG0, MIPS_KSEG1 in *; lia).
    destruct (Z.leb_spec (PR_PAGEADDR (prr h i)) ptr), (Z.ltb_spec ptr (PR_PAGEADDR (prr h i) + PAGE_SIZE)); cbn.
    1: apply swp_ret; split; [done|]; split; [by left|lia].
    all: eapply swp_mono; [apply IH; [done| |lia]; intros j Hj; apply Hin; by right|].
    all: intros [j|] h' [-> Hp]; (split; [done|]); [destruct Hp; split; [by right|done]|].
    all: intros j [->|?]%elem_of_cons; [lia|auto].
Qed.

(** ** Pagerefs *)

Lemma clear_bit_range w k : 0 ≤ w < 4294967296 → 0 ≤ Z.land w (u32 (Z.lnot k)) < 4294967296.
Proof.
  intros Hw. assert (0 ≤ Z.land w (u32 (Z.lnot k))) as Hp by (apply Z.land_nonneg; lia). split; [done|].
  change 4294967296 with (2 ^ 32). apply Z.bounded_iff_bits_nonneg; [lia|done|]. intros l Hl. rewrite Z.land_spec.
  change 4294967296 with (2 ^ 32) in Hw. by rewrite (proj1 (Z.bounded_iff_bits_nonneg 32 w ltac:(lia) ltac:(lia)) (proj2 Hw) l Hl).
Qed.

Lemma nat_word i j k : Z.of_nat i / 32 = k → Z.of_nat i mod 32 = j → i = Z.to_nat (k * 32 + j).
Proof. intros <- <-. dlia. Qed.

Lemma allocpageref_from_wp h U n i :
  inuse_ok (pagerefs_inuse h) U → 0 ≤ i → i + Z.of_nat n = 8 →
  swp (allocpageref_from n i) h (λ r h', match r with
    | None => h' = h
    | Some p => (p < 256)%nat ∧ (p ∉ U) ∧ ∃ l, h' = with_inuse l h ∧ inuse_ok l (p :: U)
    end).
Proof.
  intros HU. revert i. induction n as [|n IH]; intros i Hi Hn; cbn [allocpageref_from]; [by apply swp_ret|]. apply swp_bind, swp_gets.
  set (w := pagerefs_inuse h !!! Z.to_nat i). pose proof (iu_word _ _ HU (Z.to_nat i) ltac:(lia)) as Hw. fold w in Hw.
  destruct (Z.eqb_spec w 4294967295) as [|Hne]; [apply IH; lia|]. pose proof (inuse_bit_spec 32 w 0 ltac:(lia)) as Hbit.
  destruct (inuse_bit 32 w 0) as [j|]; [|destruct Hne; apply all_bits; [done|intros; apply Hbit; lia]].
  destruct Hbit as [Hj Hfree]. apply swp_bind, swp_modify, swp_ret. set (p := Z.to_nat (i * 32 + j)).
  assert (Z.of_nat p / 32 = i ∧ Z.of_nat p mod 32 = j) as [Hpi Hpj] by (unfold p; split; dlia).
  assert (p < 256)%nat as Hp by (unfold p; lia). split; [done|]. split.
  { intros Hin. apply (iu_bit _ _ HU p Hp) in Hin. unfold bit_used in Hin. rewrite Hpi, Hpj in Hin. fold w in Hin. congruence. }
  eexists. split; [done|]. apply (inuse_insert _ U); [done|lia|apply set_bit_range; [done|lia]|..].
  - intros q Hq Hqk. rewrite Z.lor_spec, mask_testbit, elem_of_cons by lia. rewrite <- (iu_bit _ _ HU q Hq). unfold bit_used.
    rewrite Hqk. fold w. rewrite orb_true_iff, Z.eqb_eq. assert (j = Z.of_nat q mod 32 ↔ q = p) as ->; [|tauto]. split; [|intros ->; lia].
    intros Hqj. apply nat_word; [dlia|done].
  - intros q Hq Hqk. rewrite elem_of_cons. split; [by right|]. intros [->|?]; [|done]. lia.
Qed.

Lemma allocpageref_wp h U :
  inuse_ok (pagerefs_inuse h) U →
  swp allocpageref h (λ r h', match r with
    | None => h' = h
    | Some p => (p < 256)%nat ∧ (p ∉ U) ∧ ∃ l, h' = with_inuse l h ∧ inuse_ok l (p :: U)
    end).
Proof. intros HU. by apply allocpageref_from_wp. Qed.

Lemma freepageref_wp h U p :
  inuse_ok (pagerefs_inuse h) U → (p < 256)%nat → p ∈ U →
  swp (freepageref p) h (λ _ h', ∃ l, h' = with_inuse l h ∧ inuse_ok l (filter (λ q, q ≠ p) U)).
Proof.
  intros HU Hp Hin. unfold freepageref. cbv zeta. apply swp_bind, swp_kassert; [apply Z.ltb_lt; change NPAGEREFS with 256; lia|].
  apply swp_bind, swp_gets. set (k := Z.to_nat (Z.of_nat p / 32)). set (w := pagerefs_inuse h !!! k).
  assert (0 ≤ Z.of_nat p mod 32 < 32) as Hj by dlia. assert (k < 8)%nat as Hk by (unfold k; dlia).
  apply swp_bind, swp_kassert.
  { rewrite land_mask, negb_involutive by lia. by apply (iu_bit _ _ HU p Hp). }
  apply swp_modify. eexists. split; [done|]. apply (inuse_insert _ U); [done..|by apply clear_bit_range, (iu_word _ _ HU)| |].
  - intros q Hq Hqk. rewrite Z.land_spec. unfold u32. change 4294967296 with (2 ^ 32).
    rewrite Z.mod_pow2_bits_low, Z.lnot_spec, mask_testbit by dlia. rewrite list_elem_of_filter, <- (iu_bit _ _ HU q Hq). unfold bit_used.
    rewrite Hqk. fold w. rewrite andb_true_iff, negb_true_iff, Z.eqb_neq.
    assert (Z.of_nat p mod 32 = Z.of_nat q mod 32 ↔ q = p) as ->; [|tauto]. split; [|by intros ->]. intros Hm. unfold k in Hqk. dlia.
  - intros q Hq Hqk. rewrite list_elem_of_filter. split; [intros ?|by intros [_ ?]]. split; [|done]. by intros ->.
Qed.

(** ** A new page *)

(** The free list of a new page, from its last block down to offset 0. *)
Fixpoint fresh (n : nat) (sz : Z) : list Z := match n with O => [] | S n => Z.of_nat n * sz :: fresh n sz end.

Lemma fresh_elem n sz o : o ∈ fresh n sz ↔ ∃ k, (k < n)%nat ∧ o = Z.of_nat k * sz.
Proof.
  induction n as [|n IH]; cbn; [rewrite elem_of_nil; split; [done|]; intros (? & ? & _); lia|]. rewrite elem_of_cons, IH. split.
  - intros [->|(k & ? & ->)]; [exists n|exists k]; (split; [lia|done]).
  - intros (k & Hk & ->). destruct (decide (k = n)) as [->|]; [by left|right]. exists k. split; [lia|done].
Qed.
Lemma fresh_length n sz : length (fresh n sz) = n.
Proof. induction n; cbn; congruence. Qed.
Lemma fresh_nodup n sz : 0 < sz → NoDup (fresh n sz).
Proof.
  intros Hs. induction n as [|n IH]; cbn; constructor; [|done]. rewrite fresh_elem. intros (k & Hk & E). nia.
Qed.

(** The links the loop of [subpage_kmalloc] writes. *)
Lemma fill_loop_wp h pa sz n :
  page_run pa 1 → is_size sz → Z.of_nat n * sz ≤ PAGE_SIZE → (0 < n)%nat → h_mem h pa = 0 →
  swp (for_stm (n - 1) 1 (λ i _,
    set_word (u32 (pa + i * sz)) (u32 (pa + (i - 1) * sz));;
    lift (kassert (negb (u32 (pa + i * sz) =? u32 (pa + (i - 1) * sz))));;
    mret (inl tt : unit + unit)) tt) h
    (λ _ h', ∃ m, h' = with_mem m h ∧ off_page pa (h_mem h) m ∧ chain m pa (fresh n sz)).
Proof.
  intros Hrun Hs Hn Hn0 H0. apply is_size_cases in Hs. assert (0 < sz) as Hsz by lia.
  eapply swp_mono; [apply (swp_for_stm (λ i _ h', ∃ m, h' = with_mem m h ∧ off_page pa (h_mem h) m ∧ chain m pa (fresh (Z.to_nat i) sz))
    (λ _ _, False))|].
  - exists (h_mem h). split; [by destruct h|]. split; [by intros a _|]. cbn. split; [|done]. by rewrite Z.add_0_r.
  - intros j [] h' Hj (m & -> & Hoff & Hc). assert ((j + 1) * sz ≤ PAGE_SIZE) as Hle by nia.
    rewrite !page_word by (done || unfold PAGE_SIZE in *; nia). apply swp_bind, swp_modify.
    apply swp_bind, swp_kassert; [apply negb_true_iff, Z.eqb_neq; nia|]. apply swp_ret. eexists. split; [done|]. cbn. split.
    + intros a Ha. rewrite (proj2 (Z.eqb_neq _ _)) by (unfold PAGE_SIZE in *; nia). by apply Hoff.
    + replace (Z.to_nat (j + 1)) with (S (Z.to_nat j)) by lia. cbn. rewrite Z2Nat.id, Z.eqb_refl by lia. split.
      * replace (Z.to_nat j) with (S (Z.to_nat (j - 1))) by lia. cbn. by rewrite Z2Nat.id by lia.
      * eapply chain_ext; [|done]. intros o Ho. apply fresh_elem in Ho as (k & Hk & ->). rewrite (proj2 (Z.eqb_neq _ _)); [done|]. nia.
  - intros [[]|[]] h'; [|done]. replace (Z.to_nat (1 + Z.of_nat (n - 1))) with n by lia. done.
Qed.

Lemma fresh_blocks pr o : is_size (bsize pr) → o ∈ fresh (Z.to_nat (PAGE_SIZE / bsize pr)) (bsize pr) ↔ is_block pr o.
Proof.
  intros Hs. rewrite <- blocks_spec by done. unfold blocks. rewrite fresh_elem, list_elem_of_fmap. split.
  - intros (k & ? & ->). exists k. split; [done|]. apply elem_of_seq. lia.
  - intros (k & -> & Hk). apply elem_of_seq in Hk. exists k. split; [lia|done].
Qed.

Lemma page_ok_fresh m pr pa t :
  PR_PAGEADDR pr = pa → PR_BLOCKTYPE pr = t → 0 ≤ t < 8 → page_run pa 1 →
  nfree pr = PAGE_SIZE / bsize pr → freelist_offset pr = (nfree pr - 1) * bsize pr →
  chain m pa (fresh (Z.to_nat (PAGE_SIZE / bsize pr)) (bsize pr)) →
  page_ok m pr (fresh (Z.to_nat (PAGE_SIZE / bsize pr)) (bsize pr)).
Proof.
  intros Hpa Hbt Ht Hrun Hn Ho Hc. assert (is_size (bsize pr)) as Hs by (unfold bsize; rewrite Hbt; by apply is_size_at).
  pose proof (is_size_cases _ Hs) as Hcases. split.
  - by rewrite Hbt.
  - by rewrite Hpa.
  - rewrite fresh_length, Hn. unfold PAGE_SIZE. dlia.
  - apply fresh_nodup. lia.
  - intros o. by apply fresh_blocks.
  - assert (∃ n, Z.to_nat (PAGE_SIZE / bsize pr) = S n) as [n En] by (exists (Z.to_nat (PAGE_SIZE / bsize pr) - 1)%nat; unfold PAGE_SIZE; dlia).
    rewrite Ho, Hn, En. cbn. f_equal. lia.
  - by rewrite Hpa.
Qed.

Lemma fill_page_wp h p pa t :
  length (pagerefs h) = 256%nat → (p < 256)%nat → page_run pa 1 → 0 ≤ t < 8 →
  swp (fill_page p pa t (sizes !!! Z.to_nat t)) h (λ _ h', ∃ m pr,
    h' = with_mem m (with_refs (<[p := pr]> (pagerefs h)) h) ∧ off_page pa (h_mem h) m ∧
    PR_PAGEADDR pr = pa ∧ PR_BLOCKTYPE pr = t ∧ page_ok m pr (fresh (Z.to_nat (PAGE_SIZE / bsize pr)) (bsize pr))).
Proof.
  intros Hlen Hp Hrun Ht. set (sz := sizes !!! Z.to_nat t). destruct (is_size_at t Ht) as [Hs _]. fold sz in Hs.
  pose proof (is_size_cases _ Hs) as Hsz. set (n := Z.to_nat (PAGE_SIZE / sz)).
  assert (PAGE_SIZE / sz = Z.of_nat n ∧ 2 ≤ Z.of_nat n ≤ 256 ∧ Z.of_nat n * sz ≤ PAGE_SIZE) as (En & Hn & Hle).
  { unfold n, PAGE_SIZE. destruct Hsz as [Hz|[Hz|[Hz|[Hz|[Hz|[Hz|[Hz|Hz]]]]]]]; rewrite Hz; dlia. }
  unfold fill_page. apply swp_bind, swp_upd_pr; [done..|]. apply swp_bind, swp_upd_pr; [cbn; by rewrite length_insert|done|].
  rewrite prr_refs_eq by done. cbn [with_refs pagerefs]. rewrite list_insert_insert_eq.
  apply swp_bind, swp_modify. apply swp_bind, swp_get_pr; [cbn; by rewrite length_insert|done|].
  set (pr1 := set_nfree (PAGE_SIZE / sz) (set_pab (MKPAB pa t) (prr h p))). unfold set_word. cbn [with_refs with_mem h_mem].
  set (h1 := with_mem _ _). assert (prr h1 p = pr1) as -> by (by apply (prr_insert_eq h)).
  assert (nfree pr1 = Z.of_nat n) as Hn1 by (unfold pr1; cbn; rewrite En; unfold u16; apply Z.mod_small; lia). rewrite !Hn1.
  replace (Z.to_nat (Z.of_nat n - 1)) with (n - 1)%nat by lia.
  apply swp_bind. eapply swp_mono; [apply (fill_loop_wp h1 pa sz n); [done..|lia|]|].
  { unfold h1. cbn. by rewrite Z.eqb_refl. }
  intros r h2 (m & -> & Hoff & Hc). rewrite (proj2 (Z.ltb_lt _ _)) by lia. rewrite page_word by (done || nia).
  rewrite Z.add_simpl_l, (u32_small (_ * sz)) by (unfold PAGE_SIZE in *; nia).
  apply swp_bind, swp_upd_pr; [unfold h1; cbn; by rewrite length_insert|done|].
  assert (prr (with_mem m h1) p = pr1) as -> by (by apply (prr_insert_eq h)).
  apply swp_bind, swp_get_pr; [unfold h1; cbn; by rewrite !length_insert|done|].
  set (pr2 := set_offset ((Z.of_nat n - 1) * sz) pr1).
  assert (freelist_offset pr2 = (Z.of_nat n - 1) * sz) as Ho by (unfold pr2; cbn; unfold u16; apply Z.mod_small; unfold PAGE_SIZE in *; nia).
  destruct (pab_parts pr2 pa t) as [Hpa Hbt]; [done|by destruct Hrun|destruct Hrun as (? & ? & ? & ?); unfold MIPS_KSEG0, MIPS_KSEG1, PAGE_SIZE in *; lia|done|].
  set (h3 := with_refs _ _). assert (h3 = with_mem m (with_refs (<[p := pr2]> (pagerefs h)) h)) as ->.
  { unfold h3, h1. cbn. unfold with_mem, with_refs. cbn. by rewrite list_insert_insert_eq. }
  assert (prr (with_mem m (with_refs (<[p:=pr2]> (pagerefs h)) h)) p = pr2) as -> by (by apply (prr_insert_eq h)).
  apply swp_kassert; [apply Z.eqb_eq; rewrite Ho; unfold pr2; cbn [nfree set_offset]; by rewrite Hn1|].
  assert (bsize pr2 = sz) as Hb by (unfold bsize; by rewrite Hbt). exists m, pr2. split_and!; try done.
  - intros a Ha. rewrite Hoff by done. unfold h1. cbn. rewrite (proj2 (Z.eqb_neq _ _)); [done|]. unfold PAGE_SIZE in *. lia.
  - apply page_ok_fresh with pa t; rewrite ?Hb; try done; [by rewrite En|].
    rewrite Ho. unfold pr2. cbn [nfree set_offset]. by rewrite Hn1.
Qed.

Lemma link_page_wp h p t :
  length (pagerefs h) = 256%nat → length (sizebases h) = 8%nat → (p < 256)%nat → 0 ≤ t < 8 →
  swp (link_page p t) h (λ _ h', h' = with_all (Some p) (with_bases (<[Z.to_nat t := Some p]> (sizebases h))
    (with_refs (<[p := set_next_all (allbase h) (set_samesize (sizebases h !!! Z.to_nat t) (prr h p))]> (pagerefs h)) h))).
Proof.
  intros Hlen Hb Hp Ht. unfold link_page. apply swp_bind, swp_get_base; [done..|]. apply swp_bind, swp_upd_pr; [done..|].
  apply swp_bind, swp_modify. apply swp_bind, swp_gets. apply swp_bind, swp_upd_pr; [cbn; by rewrite length_insert|done|].
  apply swp_modify.
  match goal with |- context [set_next_all _ (prr ?h' p)] =>
    rewrite (prr_insert_eq h h' p (set_samesize (sizebases h !!! Z.to_nat t) (prr h p))) by done end.
  cbn. by rewrite list_insert_insert_eq.
Qed.

(** No block of the new page is allocated. *)
Lemma lives_add h h' g i t pa q n :
  rep h g → (i ∉ g_all g) → same_refs h h' i → is_size (bsize (prr h' i)) →
  lives h' (add_page g i t pa (fresh (Z.to_nat (PAGE_SIZE / bsize (prr h' i))) (bsize (prr h' i)))) q n ↔ lives h g q n.
Proof.
  intros Hr Hni [_ Hsame] Hs. unfold lives. cbn. apply or_iff_compat_r. split.
  - intros (j & o & [->|Hj]%elem_of_cons & Hb & Hnf & -> & ->).
    + rewrite fn_set_eq in Hnf. destruct Hnf. by apply fresh_blocks.
    + assert (j ≠ i) as Hne by (by intros ->). rewrite fn_set_ne in Hnf by done. rewrite Hsame in * by done. exists j, o. done.
  - intros (j & o & Hj & Hb & Hnf & -> & ->). assert (j ≠ i) as Hne by (by intros ->). exists j, o.
    rewrite fn_set_ne, Hsame by done. split; [by right|done].
Qed.
End ops.

(** ** The kernel heap: giving pages back

    [remove_lists] takes a page off both of its lists. *)

Section free.
Context {P : Type} `{!KPages P} `{!KPagesLaws P}.
Abbreviation st := (heap P).
Implicit Types (h : st) (g : ghost).

(** The loop ends at the link to [p] and redirects it. *)
Lemma unlink_eq (get : option nat → stm st (option nat)) put (gf : option nat → option nat) h guy l1 p l2 fuel :
  get guy h = Done (gf guy, h) → (∀ i, i ∈ l1 ++ [p] → get (Some i) h = Done (gf (Some i), h)) →
  linked (λ i, gf (Some i)) (gf guy) (l1 ++ p :: l2) → (p ∉ l1) → (length l1 < fuel)%nat →
  unlink fuel get put guy p h = put (last_link guy l1) (gf (Some p)) h.
Proof.
  revert guy fuel. induction l1 as [|i l1 IH]; intros guy [|fuel] Hguy Hget Hl Hp Hfuel; cbn in *; try lia; destruct Hl as [Ho Hl].
  - unfold mbind, stm_bind, mbind, outcome_bind. rewrite Hguy, Ho. rewrite decide_True by done. rewrite Hget; [done|by left].
  - unfold mbind at 1, stm_bind at 1, mbind at 1, outcome_bind at 1. rewrite Hguy, Ho. apply not_elem_of_cons in Hp as [Hpi Hp].
    rewrite decide_False by done. apply IH; [apply Hget; by left|intros; apply Hget; by right|done|done|lia].
Qed.

(** Only links change. *)
Record links_only h h' : Prop := {
  lo_len : length (pagerefs h') = length (pagerefs h);
  lo_bases : length (sizebases h') = length (sizebases h);
  lo_inuse : pagerefs_inuse h' = pagerefs_inuse h;
  lo_mem : h_mem h' = h_mem h;
  lo_spl : h_spl h' = h_spl h;
  lo_pages : h_pages h' = h_pages h;
  lo_refs j : pageaddr_and_blocktype (prr h' j) = pageaddr_and_blocktype (prr h j) ∧
    freelist_offset (prr h' j) = freelist_offset (prr h j) ∧ nfree (prr h' j) = nfree (prr h j);
}.

Lemma links_only_trans h1 h2 h3 : links_only h1 h2 → links_only h2 h3 → links_only h1 h3.
Proof.
  intros [? ? ? ? ? ? Hr] [? ? ? ? ? ? Hr']. split; try congruence. intros j. destruct (Hr j) as (? & ? & ?), (Hr' j) as (? & ? & ?).
  split_and!; congruence.
Qed.

Lemma links_only_upd h i f :
  (∀ pr, pageaddr_and_blocktype (f pr) = pageaddr_and_blocktype pr ∧ freelist_offset (f pr) = freelist_offset pr ∧ nfree (f pr) = nfree pr) →
  links_only h (with_refs (<[i := f (prr h i)]> (pagerefs h)) h).
Proof.
  intros Hf. split; cbn; rewrite ?length_insert; try done. intros j. unfold prr. cbn.
  destruct (decide (j = i)) as [->|Hne]; [|by rewrite list_lookup_total_insert_ne].
  destruct (decide (i < length (pagerefs h))%nat); [rewrite list_lookup_total_insert_eq by done; apply Hf|].
  by rewrite list_insert_ge by lia.
Qed.

Definition samesize_at h (t : Z) (x : option nat) : option nat :=
  match x with None => sizebases h !!! Z.to_nat t | Some i => next_samesize (prr h i) end.
Definition all_at h (x : option nat) : option nat := match x with None => allbase h | Some i => next_all (prr h i) end.

Lemma get_samesize_eq h g t x :
  rep h g → 0 ≤ t < 8 → match x with None => True | Some i => i ∈ g_all g end → get_samesize t x h = Done (samesize_at h t x, h).
Proof.
  intros Hr Ht Hx. destruct x as [i|]; cbn.
  - unfold mbind, stm_bind, mbind, outcome_bind. by rewrite (get_pr_eq h i (rp_len _ _ Hr) (rp_bound _ _ Hr i Hx)).
  - apply get_base_eq; [exact (rp_bases _ _ Hr)|done].
Qed.

Lemma put_samesize_wp h t x o :
  length (pagerefs h) = 256%nat → length (sizebases h) = 8%nat → 0 ≤ t < 8 → match x with None => True | Some i => (i < 256)%nat end →
  swp (put_samesize t x o) h (λ _ h', links_only h h' ∧ allbase h' = allbase h ∧ (∀ j, next_all (prr h' j) = next_all (prr h j)) ∧
    samesize_at h' t x = o ∧ (∀ y, y ≠ x → samesize_at h' t y = samesize_at h t y) ∧
    (∀ t', 0 ≤ t' < 8 → t' ≠ t → sizebases h' !!! Z.to_nat t' = sizebases h !!! Z.to_nat t')).
Proof.
  intros Hlen Hb Ht Hx. destruct x as [i|]; cbn.
  - apply swp_upd_pr; [done..|]. split; [by apply links_only_upd|]. split; [done|].
    assert (prr (with_refs (<[i:=set_samesize o (prr h i)]> (pagerefs h)) h) i = set_samesize o (prr h i)) as Hi by (by apply prr_refs_eq).
    assert (∀ j, j ≠ i → prr (with_refs (<[i:=set_samesize o (prr h i)]> (pagerefs h)) h) j = prr h j) as Hne.
    { intros j Hj. by apply (prr_insert_ne h _ i j (set_samesize o (prr h i))). }
    split; [|split_and!].
    + intros j. destruct (decide (j = i)) as [->|?]; [by rewrite Hi|by rewrite Hne].
    + by rewrite Hi.
    + intros [j|] Hj; cbn; [|done]. rewrite Hne; [done|congruence].
    + done.
  - split; [by split; cbn; rewrite ?length_insert|]. split_and!; try done.
    + rewrite list_lookup_total_insert_eq by lia. done.
    + by intros [j|] Hj.
    + intros t' Ht' Hne. by rewrite list_lookup_total_insert_ne by lia.
Qed.

Lemma put_all_wp h x o :
  length (pagerefs h) = 256%nat → match x with None => True | Some i => (i < 256)%nat end →
  swp (put_all x o) h (λ _ h', links_only h h' ∧ sizebases h' = sizebases h ∧ (∀ j, next_samesize (prr h' j) = next_samesize (prr h j)) ∧
    all_at h' x = o ∧ (∀ y, y ≠ x → all_at h' y = all_at h y)).
Proof.
  intros Hlen Hx. destruct x as [i|]; cbn.
  - apply swp_upd_pr; [done..|]. split; [by apply links_only_upd|]. split; [done|].
    assert (prr (with_refs (<[i:=set_next_all o (prr h i)]> (pagerefs h)) h) i = set_next_all o (prr h i)) as Hi by (by apply prr_refs_eq).
    assert (∀ j, j ≠ i → prr (with_refs (<[i:=set_next_all o (prr h i)]> (pagerefs h)) h) j = prr h j) as Hne.
    { intros j Hj. by apply (prr_insert_ne h _ i j (set_next_all o (prr h i))). }
    split; [|split].
    + intros j. destruct (decide (j = i)) as [->|?]; [by rewrite Hi|by rewrite Hne].
    + by rewrite Hi.
    + intros [j|] Hj; cbn; [|done]. rewrite Hne; [done|congruence].
  - split; [by split|]. split_and!; try done. by intros [j|] Hj.
Qed.

(** A list without one of its elements. *)
Lemma filter_notin (l : list nat) p : (p ∉ l) → filter (λ j, j ≠ p) l = l.
Proof.
  induction l as [|i l IH]; [done|]. intros [Hi Hl]%not_elem_of_cons. rewrite filter_cons_True by done. by rewrite IH.
Qed.

Lemma filter_split (l1 : list nat) p l2 : NoDup (l1 ++ p :: l2) → filter (λ j, j ≠ p) (l1 ++ p :: l2) = l1 ++ l2.
Proof.
  intros Hnd. apply NoDup_app in Hnd as (_ & Hd & Hnd). apply NoDup_cons in Hnd as [Hp _].
  rewrite filter_app, filter_cons_False by (intros H; by apply H). rewrite !filter_notin; [done..|].
  intros ?. apply (Hd p); [done|by left].
Qed.

Lemma last_link_in l1 (Q : nat → Prop) :
  (∀ i, i ∈ l1 → Q i) → match last_link None l1 with None => True | Some i => Q i end.
Proof. intros HQ. destruct (last_link_elem None l1) as [->|(i & -> & Hi)]; [done|auto]. Qed.

Lemma unlink_samesize_wp h g i t :
  rep h g → i ∈ g_all g → t = PR_BLOCKTYPE (prr h i) →
  swp (unlink 257 (get_samesize t) (put_samesize t) None i) h (λ _ h', links_only h h' ∧ allbase h' = allbase h ∧
    (∀ j, next_all (prr h' j) = next_all (prr h j)) ∧
    ∀ t', 0 ≤ t' < 8 → linked (λ j, next_samesize (prr h' j)) (sizebases h' !!! Z.to_nat t')
      (fn_set (g_same g) t (filter (λ j, j ≠ i) (g_same g t)) t')).
Proof.
  intros Hr Hi Et. assert (0 ≤ t < 8) as Ht by (subst t; exact (pk_type _ _ _ (rp_page _ _ Hr i Hi))).
  assert (i ∈ g_same g t) as Hin by (by apply (rp_types _ _ Hr t i Ht)). apply list_elem_of_split in Hin as (l1 & l2 & El).
  pose proof (rp_same_nodup _ _ Hr t Ht) as Hnd. pose proof (rp_same _ _ Hr t Ht) as Hl. rewrite El in Hnd, Hl.
  assert (∀ j, j ∈ l1 ++ [i] → j ∈ g_all g ∧ PR_BLOCKTYPE (prr h j) = t) as Hall.
  { intros j Hj. apply (rp_types _ _ Hr t j Ht). rewrite El. rewrite elem_of_app in *. rewrite list_elem_of_singleton in Hj.
    rewrite elem_of_cons. tauto. }
  unfold swp. erewrite (unlink_eq _ _ (samesize_at h t) h None l1 i l2).
  2: by apply (get_samesize_eq h g). 2: intros j Hj; apply (get_samesize_eq h g); [done..|by apply Hall].
  2: exact Hl. 2: { apply NoDup_app in Hnd as (_ & Hd & _). intros ?. apply (Hd i); [done|by left]. }
  2: { pose proof (rep_same_length h g t Hr Ht) as Hle. rewrite El, length_app in Hle. cbn in Hle. lia. }
  eapply wp_mono; [apply put_samesize_wp; [exact (rp_len _ _ Hr)|exact (rp_bases _ _ Hr)|done|]|].
  { apply last_link_in. intros j Hj. apply (rp_bound _ _ Hr). apply Hall, elem_of_app. by left. }
  intros [[] h'] (Hlo & Ha & Hna & Hset & Hsame & Hbases). split; [done|]. split; [done|]. split; [done|]. intros t' Ht'.
  destruct (decide (t' = t)) as [->|Hne].
  - rewrite fn_set_eq, El, filter_split by done.
    by apply (linked_skip (λ j, next_samesize (prr h j)) _ (samesize_at h t) (samesize_at h' t) None l1 i l2).
  - rewrite fn_set_ne, Hbases by done. eapply linked_ext; [|by apply (rp_same _ _ Hr)]. intros j Hj. cbn.
    apply (Hsame (Some j)). intros E. destruct (last_link_elem None l1) as [E'|(k & E' & Hk)]; [congruence|].
    assert (j = k) as -> by congruence. destruct (Hall k) as [_ Hk']; [apply elem_of_app; by left|].
    apply (rp_types _ _ Hr t' k Ht') in Hj as [_ ?]. congruence.
Qed.

Lemma unlink_all_wp h (l : list nat) i :
  length (pagerefs h) = 256%nat → (∀ j, j ∈ l → (j < 256)%nat) → NoDup l → i ∈ l → (length l ≤ 256)%nat →
  linked (λ j, next_all (prr h j)) (allbase h) l →
  swp (unlink 257 get_all put_all None i) h (λ _ h', links_only h h' ∧ sizebases h' = sizebases h ∧
    (∀ j, next_samesize (prr h' j) = next_samesize (prr h j)) ∧
    linked (λ j, next_all (prr h' j)) (allbase h') (filter (λ j, j ≠ i) l)).
Proof.
  intros Hlen Hb Hnd Hin Hle Hl. apply list_elem_of_split in Hin as (l1 & l2 & ->).
  assert (∀ j, j ∈ l1 ++ [i] → (j < 256)%nat) as Hb'.
  { intros j Hj. apply Hb. rewrite elem_of_app in *. rewrite list_elem_of_singleton in Hj. rewrite elem_of_cons. tauto. }
  unfold swp. erewrite (unlink_eq _ _ (all_at h) h None l1 i l2); [|done| |exact Hl| |].
  2: { intros j Hj. cbn. unfold mbind, stm_bind, mbind, outcome_bind. rewrite get_pr_eq; [done..|]. by apply Hb'. }
  2: { apply NoDup_app in Hnd as (_ & Hd & _). intros ?. apply (Hd i); [done|by left]. }
  2: { rewrite length_app in Hle. cbn in Hle. lia. }
  eapply wp_mono; [apply put_all_wp; [done|]|].
  { apply last_link_in. intros j Hj. apply Hb', elem_of_app. by left. }
  intros [[] h'] (Hlo & Hbs & Hns & Hset & Hsame). split; [done|]. split; [done|]. split; [done|].
  rewrite filter_split by done. by apply (linked_skip (λ j, next_all (prr h j)) _ (all_at h) (all_at h') None l1 i l2).
Qed.

Lemma remove_lists_wp h g i t :
  rep h g → i ∈ g_all g → t = PR_BLOCKTYPE (prr h i) →
  swp (remove_lists i t) h (λ _ h', links_only h h' ∧
    linked (λ j, next_all (prr h' j)) (allbase h') (filter (λ j, j ≠ i) (g_all g)) ∧
    ∀ t', 0 ≤ t' < 8 → linked (λ j, next_samesize (prr h' j)) (sizebases h' !!! Z.to_nat t')
      (fn_set (g_same g) t (filter (λ j, j ≠ i) (g_same g t)) t')).
Proof.
  intros Hr Hi Et. pose proof (pk_type _ _ _ (rp_page _ _ Hr i Hi)) as Ht. rewrite <- Et in Ht. unfold remove_lists.
  apply swp_bind, swp_kassert; [unfold NSIZES; lia|]. apply swp_bind. eapply swp_mono; [by apply unlink_samesize_wp|].
  intros _ h1 (Hlo & Ha & Hna & Hl). eapply swp_mono; [apply (unlink_all_wp h1 (g_all g))|].
  - rewrite (lo_len _ _ Hlo). exact (rp_len _ _ Hr).
  - exact (rp_bound _ _ Hr).
  - exact (rp_nodup _ _ Hr).
  - done.
  - by apply (rep_length h).
  - rewrite Ha. eapply linked_ext; [|exact (rp_all _ _ Hr)]. intros j _. cbn. apply Hna.
  - intros _ h2 (Hlo2 & Hb & Hns & Hl2). split; [by eapply links_only_trans|]. split; [done|]. intros t' Ht'. rewrite Hb.
    eapply linked_ext; [|by apply Hl]. intros j _. cbn. apply Hns.
Qed.
End free.
