(* ===== verification/KheapThm.v ===== *)
(** * The kernel heap: correctness of kmalloc and kfree

    The heap hands out disjoint blocks and never touches the content of a block
    that is allocated; its consistency checks always pass. *)

From S2P Require Import Prelude Kpages Kheap KheapInv KheapOps.

Section thm.
Context {P : Type} `{!KPages P} `{!KPagesLaws P}.
Abbreviation st := (heap P).
Implicit Types (h : st) (g : ghost) (live : gmap Z Z).

(** The content of the allocated blocks is the same. *)
Definition same_content live h h' : Prop := ∀ p n a, live !! p = Some n → p ≤ a < p + n → h_mem h' a = h_mem h a.

(** What [kmalloc sz] has done when it returns [p]. *)
Definition allocated live h (sz p : Z) h' : Prop :=
  h_spl h' = h_spl h ∧ same_content live h h' ∧
  ((p = 0 ∧ hinv h' live) ∨
   ∃ n, sz ≤ n ∧ p mod 16 = 0 ∧ MIPS_KSEG0 < p ∧ p + n ≤ MIPS_KSEG1 ∧
     (∀ q m, live !! q = Some m → p + n ≤ q ∨ q + m ≤ p) ∧ hinv h' (<[p := n]> live)).

Lemma rep_spl h g s : rep h g → rep (with_spl s h) g.
Proof. intros []. by split. Qed.

(** A client may write to the blocks it has allocated. *)
Lemma hinv_write h live p n (m : Z → Z) :
  hinv h live → live !! p = Some n → (∀ a, a < p ∨ p + n ≤ a → m a = h_mem h a) → hinv (with_mem m h) live.
Proof.
  intros (g & Hr & Hl) Hp Hm. exists g. split; [|done]. pose proof (proj1 (Hl p n) Hp) as Hlp.
  destruct Hr as [H1 H2 H3 H4 H5 H6 H7 H8 H9 H10 H11 H12 H13 H14 H15 H16]. split; try done.
  intros i Hi. change (prr (with_mem m h) i) with (prr h i). cbn. destruct (H10 i Hi) as [Q1 Q2 Q3 Q4 Q5 Q6 Q7]. split; try done.
  eapply chain_ext; [|done]. intros o Ho. apply Hm. destruct (Q5 o Ho) as [Hob Hom].
  assert (rep h g) as Hr by (by split). destruct (lives_run h g p n Hr Hlp) as (a & k & Ha & ? & ? & ? & _).
  destruct (decide (a = PR_PAGEADDR (prr h i))) as [->|Hne].
  - destruct (H12 i Hi) as [Hown _]. replace k with 1 in * by congruence. rewrite Z.mul_1_l in *.
    destruct (lives_block h g p n i (p - PR_PAGEADDR (prr h i)) Hr Hlp Hi) as (Hb & Hnf & ->); [lia..|].
    assert (o ≠ p - PR_PAGEADDR (prr h i)) as Hno by (by intros ->).
    destruct (block_apart _ _ _ o (p - PR_PAGEADDR (prr h i)) (H10 i Hi) (Q5 o Ho) Hb Hno); [|lia].
    destruct (page_ok_size _ _ _ (H10 i Hi)) as [Hs%is_size_cases _]. lia.
  - destruct (rp_own _ _ Hr i Hi) as [Hown _]. destruct (H16 _ _ _ _ Ha Hown Hne); unfold PAGE_SIZE in *; lia.
Qed.

(** ** kmalloc *)

Lemma pop_hinv h h' g live i o r :
  rep h g → (∀ p n, live !! p = Some n ↔ lives h g p n) → i ∈ g_all g → g_free g i = o :: r →
  rep h' (set_free g i r) → same_pab h h' →
  (∀ q m, live !! q = Some m → PR_PAGEADDR (prr h i) + o + bsize (prr h i) ≤ q ∨ q + m ≤ PR_PAGEADDR (prr h i) + o) ∧
  hinv h' (<[PR_PAGEADDR (prr h i) + o := bsize (prr h i)]> live).
Proof.
  intros Hr Hl Hi Hf Hr' Hpab. set (p := PR_PAGEADDR (prr h i) + o).
  pose proof (rp_page _ _ Hr i Hi) as Hok. assert (is_block (prr h i) o) as Hb by (apply (pk_blocks _ _ _ Hok); rewrite Hf; by left).
  assert (∀ q m, lives h' (set_free g i r) q m ↔ (q = p ∧ m = bsize (prr h i)) ∨ lives h g q m) as Hl'.
  { intros q m. by apply lives_pop. }
  assert (∀ n, ¬ lives h g p n) as Hnew.
  { intros n Hn. destruct (lives_block h g p n i o Hr Hn Hi (proj1 Hb) eq_refl) as (_ & Hnf & _). apply Hnf. rewrite Hf. by left. }
  split.
  - intros q m Hq%Hl. apply (live_apart h' (set_free g i r)); [done|apply Hl'; by left|apply Hl'; by right|].
    intros <-. by eapply Hnew.
  - exists (set_free g i r). split; [done|]. intros q m. rewrite Hl', <- Hl. destruct (decide (q = p)) as [->|Hne].
    + rewrite lookup_insert_eq. split; [intros [= <-]; by left|]. intros [[_ ->]|Hq%Hl]; [done|]. by edestruct Hnew.
    + rewrite lookup_insert_ne by done. tauto.
Qed.

Lemma sizes_aligned pa o sz : page_run pa 1 → is_size sz → o mod sz = 0 → (pa + o) mod 16 = 0.
Proof.
  intros [Hm _] Hs%is_size_cases Ho. unfold PAGE_SIZE in *.
  destruct Hs as [Hs|[Hs|[Hs|[Hs|[Hs|[Hs|[Hs|Hs]]]]]]]; rewrite Hs in *; dlia.
Qed.

(** From the label [doalloc] on, with a free block on page [i]. *)
Lemma doalloc_hinv h0 h g live i spl sz :
  rep h g → (∀ p n, live !! p = Some n ↔ lives h g p n) → i ∈ g_all g → g_free g i ≠ [] → sz ≤ bsize (prr h i) →
  spl = h_spl h0 → same_content live h0 h → swp (doalloc i spl) h (allocated live h0 sz).
Proof.
  intros Hr Hl Hi Hne Hsz -> Hsame. destruct (g_free g i) as [|o r] eqn:Hf; [done|].
  eapply swp_mono; [by apply (doalloc_wp h g i o r)|]. intros p h' (-> & Hr' & Hm & Hs & Hpab). split; [done|].
  split; [intros q n a Hq Ha; rewrite Hm; by eapply Hsame|right]. pose proof (rp_page _ _ Hr i Hi) as Hok.
  assert (is_block (prr h i) o) as Hb by (apply (pk_blocks _ _ _ Hok); rewrite Hf; by left).
  destruct (page_ok_size _ _ _ Hok) as [Hsize _]. pose proof (block_fits _ _ _ _ Hok Hb) as Hfit. pose proof (pk_run _ _ _ Hok) as Hrun.
  destruct (pop_hinv h h' g live i o r) as [Hap Hinv]; [done..|]. exists (bsize (prr h i)). split; [done|].
  split; [by eapply sizes_aligned; [..|apply Hb]|]. destruct Hrun as (? & ? & ? & ?). destruct Hb as [? _].
  split; [lia|]. split; [lia|]. done.
Qed.

(** A fresh page for blocks of type [t], from the pageref [p]. *)
Lemma new_page_wp h g live p pa t l :
  rep h g → (p ∉ g_all g) → (p < 256)%nat → inuse_ok l (p :: g_all g) → 0 ≤ t < 8 →
  page_run pa 1 → (∀ b m, g_runs g !! b = Some m → apart pa 1 b m) →
  (∀ q n, live !! q = Some n ↔ lives h g q n) →
  ∀ pg, kp_inv pg (<[pa := 1]> (g_runs g)) →
  swp (fill_page p pa t (sizes !!! Z.to_nat t)) (with_pages pg (with_inuse l h)) (λ _ h1, swp (link_page p t) h1 (λ _ h', ∃ g',
    rep h' g' ∧ (∀ q n, live !! q = Some n ↔ lives h' g' q n) ∧ p ∈ g_all g' ∧ g_free g' p ≠ [] ∧
    bsize (prr h' p) = sizes !!! Z.to_nat t ∧ same_content live h h')).
Proof.
  intros Hr Hni Hp Hiu Ht Hrun Hap Hl pg Hkp. pose proof (rp_len _ _ Hr) as Hlen.
  eapply swp_mono; [by apply fill_page_wp|]. intros _ h1 (m & pr & -> & Hoff & Hpa & Hbt & Hok).
  eapply swp_mono; [apply link_page_wp; [cbn; by rewrite length_insert|exact (rp_bases _ _ Hr)|done..]|].
  set (fl := fresh _ _) in Hok. intros _ h' ->. set (h' := with_all _ _). set (pr' := set_next_all (allbase h) (set_samesize (sizebases h !!! Z.to_nat t) pr)).
  assert (prr h' p = pr') as Hp'.
  { unfold h', prr at 1. cbn. rewrite list_lookup_total_insert_eq by (rewrite length_insert; lia). unfold pr'. do 2 f_equal.
    unfold prr. cbn. by rewrite list_lookup_total_insert_eq by lia. }
  assert (same_refs h h' p) as Hsame.
  { split; [unfold h'; cbn; by rewrite !length_insert|]. intros j Hj. unfold h', prr. cbn. by rewrite !list_lookup_total_insert_ne by done. }
  assert (page_ok m pr' fl) as Hok' by (destruct Hok; by split). assert (bsize pr' = bsize pr) as Hb by done.
  assert (is_size (bsize pr)) as Hs by (by destruct (page_ok_size _ _ _ Hok)).
  exists (add_page g p t pa fl). split_and!.
  - apply (rep_add h); try done; rewrite ?Hp'; try done.
  - intros q n. rewrite Hl. unfold fl. rewrite <- Hb, <- Hp'. symmetry. apply lives_add; [done..|]. by rewrite Hp', Hb.
  - by left.
  - cbn. rewrite fn_set_eq. unfold fl. intros E%(f_equal length). rewrite fresh_length in E. apply is_size_cases in Hs.
    cbn in E. unfold PAGE_SIZE in E. dlia.
  - rewrite Hp', Hb. unfold bsize. by rewrite Hbt.
  - intros q n a Hq%Hl Ha. unfold h'. cbn. apply Hoff. destruct (lives_run h g q n Hr Hq) as (b & k & Hbk & ? & ? & ? & _).
    destruct (Hap b k Hbk); unfold PAGE_SIZE in *; lia.
Qed.

Lemma inuse_ok_drop l p (U : list nat) : (p ∉ U) → inuse_ok l (filter (λ q, q ≠ p) (p :: U)) → inuse_ok l U.
Proof.
  intros Hp. apply inuse_ok_equiv. intros i. rewrite list_elem_of_filter, elem_of_cons. split; [|tauto].
  intros Hi. split; [|by right]. by intros ->.
Qed.

Lemma rep_other h h' g :
  rep h g → pagerefs h' = pagerefs h → sizebases h' = sizebases h → allbase h' = allbase h → h_mem h' = h_mem h →
  inuse_ok (pagerefs_inuse h') (g_all g) → kp_inv (h_pages h') (g_runs g) → rep h' g.
Proof.
  destruct h, h'. cbn. intros [] -> -> -> -> ? ?. by split.
Qed.

Lemma subpage_kmalloc_wp h live sz :
  hinv h live → 0 ≤ sz ≤ 2048 → swp (subpage_kmalloc sz) h (allocated live h sz).
Proof.
  intros (g & Hr & Hl) Hsz. unfold subpage_kmalloc. destruct (blocktype_ok sz Hsz) as (t & Et & Ht & Hle).
  destruct (is_size_at t Ht) as [_ Es]. apply swp_bind, swp_lift. rewrite Et. cbn. apply swp_bind, swp_lift. rewrite Es. cbn.
  apply swp_bind. unfold h_splhigh. apply swp_bind, swp_gets, swp_bind, swp_modify, swp_ret.
  pose proof (rep_spl h g 15 Hr) as Hr1. set (h1 := with_spl 15 h) in *.
  apply swp_bind, swp_get_base; [exact (rp_bases _ _ Hr1)|done|]. apply swp_bind.
  eapply swp_mono; [apply (find_page_wp h1 g t 257 (g_same g t)); [done..|by apply (rp_same _ _ Hr1)|done|]|].
  { pose proof (rep_same_length h1 g t Hr1 Ht). lia. }
  intros [i|] h2 [-> Hfound].
  - destruct Hfound as (Hi & Hbt & Hne). apply (doalloc_hinv h h1 g live i); try done. unfold bsize. by rewrite Hbt.
  - apply swp_bind. eapply swp_mono; [by apply allocpageref_wp, (rp_inuse _ _ Hr1)|]. intros [p|] h2.
    2: { intros ->. apply swp_bind, swp_modify, swp_ret. split; [done|]. split; [by intros q n a|]. left. split; [done|].
         exists g. split; [by apply rep_spl|done]. }
    intros (Hp & Hni & l & -> & Hiu). apply swp_bind, swp_on_pages.
    eapply swp_mono; [apply (kp_alloc _ _ 1 (rp_runs _ _ Hr1)); lia|]. intros pa pg [[-> Hkp]|(Hrun & Hap & Hkp)].
    + cbn. apply swp_bind. eapply swp_mono; [apply (freepageref_wp _ (p :: g_all g)); [done..|by left]|].
      intros _ h3 (l' & -> & Hiu'). apply swp_bind, swp_modify, swp_ret. split; [done|]. split; [by intros q n a|]. left. split; [done|].
      exists g. split; [|done]. apply (rep_other h1); try done. by apply inuse_ok_drop in Hiu'.
    + rewrite (proj2 (Z.eqb_neq _ _)) by (destruct Hrun as (? & ? & ? & ?); unfold MIPS_KSEG0 in *; lia).
      apply swp_bind. eapply swp_mono; [by apply (new_page_wp h1 g live p pa t l)|]. intros [] h2 Hlink. apply swp_bind.
      eapply swp_mono; [exact Hlink|]. intros _ h3 (g' & Hr' & Hl' & Hp' & Hne & Hb & Hsame).
      apply (doalloc_hinv h h3 g' live p); try done. by rewrite Hb.
Qed.

(** Whole pages. *)
Lemma rep_add_big h g a n pg :
  rep h g → page_run a n → (∀ b m, g_runs g !! b = Some m → apart a n b m) → kp_inv pg (<[a := n]> (g_runs g)) →
  rep (with_pages pg h) (mkGhost (g_all g) (g_same g) (g_free g) (<[a := n]> (g_runs g)) (<[a := n]> (g_big g))).
Proof.
  intros [H1 H2 H3 H4 H5 H6 H7 H8 H9 H10 H11 H12 H13 H14 H15 H16] Hrun Hap Hkp.
  destruct (runs_add _ _ _ H15 H16 Hrun Hap) as (Hnew & ? & ?). split; cbn; try done.
  - intros i Hi. destruct (H12 i Hi) as [Hown Hb]. change (prr (with_pages pg h) i) with (prr h i).
    rewrite !lookup_insert_ne; [done|..]; intros ->; congruence.
  - by apply insert_mono.
Qed.

Lemma kmalloc_wp h live sz :
  hinv h live → 0 ≤ sz ≤ 2147483648 → swp (kmalloc sz) h (allocated live h sz).
Proof.
  intros Hinv Hsz. unfold kmalloc. destruct (Z.geb_spec sz LARGEST_SUBPAGE_SIZE) as [Hbig|]; unfold LARGEST_SUBPAGE_SIZE in *.
  2: by apply subpage_kmalloc_wp; [done|lia].
  destruct Hinv as (g & Hr & Hl). rewrite u32_small by (unfold PAGE_SIZE; lia). set (n := (sz + PAGE_SIZE - 1) / PAGE_SIZE).
  assert (0 < n ≤ 524288 ∧ sz ≤ n * PAGE_SIZE) as [Hn Hle] by (unfold n, PAGE_SIZE; split; dlia).
  apply swp_bind, swp_on_pages. eapply swp_mono; [apply (kp_alloc _ _ n (rp_runs _ _ Hr)); lia|].
  intros a pg [[-> Hkp]|(Hrun & Hap & Hkp)]; cbn.
  - apply swp_ret. split; [done|]. split; [by intros q m x|]. left. split; [done|]. exists g. split; [|done].
    by apply (rep_other h); try apply Hr.
  - pose proof Hrun as (Hal & _ & Hlo & Hhi). rewrite (proj2 (Z.eqb_neq _ _)) by (unfold MIPS_KSEG0 in *; lia). apply swp_ret.
    split; [done|]. split; [by intros q m x|]. right. exists (n * PAGE_SIZE). split; [done|].
    split; [unfold PAGE_SIZE in *; dlia|]. split; [done|]. split; [done|]. split.
    + intros q m Hq%Hl. destruct (lives_run h g q m Hr Hq) as (b & k & Hb & ? & ? & ? & _). destruct (Hap b k Hb); lia.
    + pose proof (rep_add_big h g a n pg Hr Hrun Hap Hkp) as Hr'. destruct (runs_add _ _ _ (rp_run _ _ Hr) (rp_apart _ _ Hr) Hrun Hap) as (Hnew & _).
      eexists. split; [exact Hr'|]. intros q m. unfold lives. cbn. change (prr (with_pages pg h)) with (prr h).
      destruct (decide (q = a)) as [->|Hne].
      * rewrite !lookup_insert_eq. split; [intros [= <-]; right; by exists n|]. intros [Hb|(k & [= <-] & ->)]; [|done].
        destruct (lives_run h g a m Hr ltac:(by left)) as (b & k & Hb' & ? & ? & ? & _).
        destruct (Hap b k Hb'); unfold PAGE_SIZE in *; lia.
      * rewrite !lookup_insert_ne by done. apply Hl.
Qed.

(** ** kfree *)

Lemma fill_deadbeef_wp h p sz :
  0 ≤ sz → swp (fill_deadbeef p sz) h (λ _ h', ∃ m, h' = with_mem m h ∧ ∀ a, a < p ∨ p + sz ≤ a → m a = h_mem h a).
Proof.
  intros Hsz. unfold fill_deadbeef. apply swp_bind.
  eapply swp_mono; [apply (swp_for_stm (λ _ _ h', ∃ m, h' = with_mem m h ∧ ∀ a, a < p ∨ p + sz ≤ a → m a = h_mem h a) (λ _ _, False))|].
  - exists (h_mem h). split; [by destruct h|done].
  - intros j [] h' Hj (m & -> & Hm). apply swp_bind, swp_modify, swp_ret. eexists. split; [done|]. cbn. intros a Ha.
    rewrite (proj2 (Z.eqb_neq _ _)) by dlia. by apply Hm.
  - intros [[]|[]] h'; [|done]. done.
Qed.

(** The page after the block at [o] has been freed. *)
Lemma page_ok_push m m' pr o fl :
  page_ok m pr fl → is_block pr o → (o ∉ fl) →
  (∀ a, a < PR_PAGEADDR pr + o ∨ PR_PAGEADDR pr + o + bsize pr ≤ a → m' a = m a) →
  m' (PR_PAGEADDR pr + o) = match fl with [] => 0 | o' :: _ => PR_PAGEADDR pr + o' end →
  page_ok m' (set_nfree (nfree pr + 1) (set_offset o pr)) (o :: fl).
Proof.
  intros Hok Hb Hnf Hm Hw. assert (∀ o', o' ∈ o :: fl → is_block pr o') as Hbs.
  { intros o' [->|Ho']%elem_of_cons; [done|by apply (pk_blocks _ _ _ Hok)]. }
  destruct (page_ok_size _ _ _ Hok) as [Hs _]. assert (NoDup (o :: fl)) as Hnd by (constructor; [done|exact (pk_nodup _ _ _ Hok)]).
  destruct (free_count pr (o :: fl) Hs Hnd Hbs) as [Hcnt _]. pose proof (is_size_cases _ Hs) as Hsz. destruct (Hb) as [Ho _].
  pose proof Hok as [Q1 Q2 Q3 Q4 Q5 Q6 Q7]. split; try done.
  - cbn in *. rewrite Q3. unfold u16. rewrite Z.mod_small; [lia|]. unfold PAGE_SIZE in *. dlia.
  - cbn. unfold u16. apply Z.mod_small. unfold PAGE_SIZE in *. lia.
  - split; [done|]. eapply chain_ext; [|exact Q7]. intros o' Ho'. apply Hm. change (PR_PAGEADDR (set_nfree _ _)) with (PR_PAGEADDR pr).
    assert (o ≠ o') as Hne by (by intros ->). destruct (block_apart _ _ _ o o' Hok Hb (Q5 o' Ho') Hne); lia.
Qed.

Lemma push_free_wp h g i o m :
  rep h g → i ∈ g_all g → is_block (prr h i) o → (o ∉ g_free g i) →
  (∀ a, a < PR_PAGEADDR (prr h i) + o ∨ PR_PAGEADDR (prr h i) + o + bsize (prr h i) ≤ a → m a = h_mem h a) →
  swp (push_free i o) (with_mem m h) (λ _ h', rep h' (set_free g i (o :: g_free g i)) ∧ same_pab h h' ∧ h_spl h' = h_spl h ∧
    ∀ a, a < PR_PAGEADDR (prr h i) + o ∨ PR_PAGEADDR (prr h i) + o + bsize (prr h i) ≤ a → h_mem h' a = h_mem h a).
Proof.
  intros Hr Hi Hb Hnf Hm. pose proof (rp_page _ _ Hr i Hi) as Hok. pose proof (rp_len _ _ Hr) as Hlen. pose proof (rp_bound _ _ Hr i Hi) as Hbd.
  unfold push_free. apply swp_bind, swp_get_pr; [done..|]. change (prr (with_mem m h) i) with (prr h i). cbv zeta.
  rewrite page_word by (apply (pk_run _ _ _ Hok) || apply Hb). set (pa := PR_PAGEADDR (prr h i)) in *.
  set (v := match g_free g i with [] => 0 | o' :: _ => pa + o' end).
  assert ((if freelist_offset (prr h i) =? INVALID_OFFSET then set_word (pa + o) 0
    else set_word (pa + o) (u32 (pa + freelist_offset (prr h i)))) = set_word (P := P) (pa + o) v) as ->.
  { rewrite (pk_head _ _ _ Hok). unfold v. destruct (g_free g i) as [|o' r] eqn:Hf; cbn; [done|].
    destruct (pk_blocks _ _ _ Hok o') as [Ho' _]; [rewrite ?Hf; by left|].
    rewrite (proj2 (Z.eqb_neq _ _)) by (unfold INVALID_OFFSET, PAGE_SIZE in *; lia). f_equal. apply page_word; [exact (pk_run _ _ _ Hok)|done]. }
  apply swp_bind, swp_modify. apply swp_bind, swp_upd_pr; [done..|]. apply swp_upd_pr; [cbn; by rewrite length_insert|done|].
  rewrite prr_refs_eq by done. set (h' := with_refs _ _). set (pr' := set_nfree (nfree (prr h i) + 1) (set_offset o (prr h i))).
  assert (prr h' i = pr') as Hi'.
  { unfold h', prr at 1. cbn. by rewrite list_lookup_total_insert_eq by (rewrite length_insert; lia). }
  assert (same_refs h h' i) as Hsame.
  { split; [unfold h'; cbn; by rewrite !length_insert|]. intros j Hj. unfold h', prr. cbn. by rewrite !list_lookup_total_insert_ne by done. }
  destruct (page_ok_size _ _ _ Hok) as [Hs%is_size_cases _].
  assert (∀ a, a < pa + o ∨ pa + o + bsize (prr h i) ≤ a → h_mem h' a = h_mem h a) as Hmem.
  { intros a Ha. unfold h'. cbn. rewrite (proj2 (Z.eqb_neq _ _)) by lia. by apply Hm. }
  split; [|split; [|split; [done|exact Hmem]]].
  - apply (rep_page h); try done; rewrite ?Hi'; try done.
    + intros a Ha. apply Hmem. pose proof (block_fits _ _ _ _ Hok Hb). destruct Hb as [? _]. fold pa in Ha. lia.
    + eapply page_ok_push; try done. unfold h'. cbn. by rewrite Z.eqb_refl.
  - intros j. destruct (decide (j = i)) as [->|Hj]; [by rewrite Hi'|by rewrite (proj2 Hsame)].
Qed.

Lemma lives_drop h h' g i t pa q n :
  rep h g → i ∈ g_all g → same_pab h h' → (∀ o, is_block (prr h i) o → o ∈ g_free g i) →
  lives h' (drop_page g i t pa) q n ↔ lives h g q n.
Proof.
  intros Hr Hi Hpab Hfree. unfold lives. cbn. apply or_iff_compat_r. split.
  - intros (j & o & [Hne Hj]%list_elem_of_filter & Hb & Hnf & -> & ->). exists j, o. unfold is_block in *.
    destruct (same_pab_parts h h' j Hpab) as (-> & _ & E). rewrite E in *. done.
  - intros (j & o & Hj & Hb & Hnf & -> & ->). exists j, o. unfold is_block. destruct (same_pab_parts h h' j Hpab) as (-> & _ & ->).
    split; [|done]. apply list_elem_of_filter. split; [|done]. intros ->. by apply Hnf, Hfree.
Qed.

(** A page whose blocks are all free goes back to the page allocator. *)
Lemma drop_page_wp h g live i :
  rep h g → i ∈ g_all g → (∀ p n, live !! p = Some n ↔ lives h g p n) → (∀ o, is_block (prr h i) o → o ∈ g_free g i) →
  swp (remove_lists i (PR_BLOCKTYPE (prr h i));; on_pages (free_kpages (PR_PAGEADDR (prr h i)));; freepageref i) h (λ _ h',
    hinv h' live ∧ h_mem h' = h_mem h ∧ h_spl h' = h_spl h).
Proof.
  intros Hr Hi Hl Hfree. apply swp_bind. eapply swp_mono; [by apply remove_lists_wp|]. intros _ h1 (Hlo & Hall & Hsame).
  apply swp_bind, swp_on_pages. rewrite (lo_pages _ _ Hlo). destruct (rp_own _ _ Hr i Hi) as [Hown _].
  eapply swp_mono; [by apply (kp_free _ _ _ 1 (rp_runs _ _ Hr))|]. intros [] pg Hkp.
  eapply swp_mono; [apply (freepageref_wp _ (g_all g)); [cbn; rewrite (lo_inuse _ _ Hlo); exact (rp_inuse _ _ Hr)|exact (rp_bound _ _ Hr i Hi)|done]|].
  intros _ h2 (l & -> & Hiu). split; [|split; [exact (lo_mem _ _ Hlo)|exact (lo_spl _ _ Hlo)]].
  set (h2 := with_inuse l (with_pages pg h1)).
  exists (drop_page g i (PR_BLOCKTYPE (prr h i)) (PR_PAGEADDR (prr h i))). split.
  - apply (rep_drop h); try done.
    + cbn. rewrite (lo_len _ _ Hlo). exact (rp_len _ _ Hr).
    + cbn. rewrite (lo_bases _ _ Hlo). exact (rp_bases _ _ Hr).
    + exact (lo_refs _ _ Hlo).
    + exact (lo_mem _ _ Hlo).
  - intros p n. rewrite Hl. symmetry. apply lives_drop; try done. intros j. by destruct (lo_refs _ _ Hlo j).
Qed.

Definition freed live h (p : Z) h' : Prop :=
  hinv h' (delete p live) ∧ h_spl h' = h_spl h ∧ same_content (delete p live) h h'.

Lemma hinv_spl h live s : hinv h live → hinv (with_spl s h) live.
Proof. intros (g & Hr & Hl). exists g. split; [by apply rep_spl|done]. Qed.

Lemma free_block_content h g live i o h' :
  rep h g → (∀ p n, live !! p = Some n ↔ lives h g p n) → i ∈ g_all g → is_block (prr h i) o → (o ∉ g_free g i) →
  (∀ a, a < PR_PAGEADDR (prr h i) + o ∨ PR_PAGEADDR (prr h i) + o + bsize (prr h i) ≤ a → h_mem h' a = h_mem h a) →
  same_content (delete (PR_PAGEADDR (prr h i) + o) live) h h'.
Proof.
  intros Hr Hl Hi Hb Hnf Hm q n a [Hne Hq]%lookup_delete_Some Ha. apply Hm. apply Hl in Hq.
  assert (lives h g (PR_PAGEADDR (prr h i) + o) (bsize (prr h i))) as Hp by (left; by exists i, o).
  destruct (live_apart h g _ _ _ _ Hr Hp Hq Hne); lia.
Qed.

(** The block at offset [o] of page [i], from the alignment check on. *)
Lemma free_block_wp h0 h g live i o :
  rep h g → (∀ p n, live !! p = Some n ↔ lives h g p n) → i ∈ g_all g → is_block (prr h i) o → (o ∉ g_free g i) →
  h_mem h = h_mem h0 →
  swp (fill_deadbeef (PR_PAGEADDR (prr h i) + o) (bsize (prr h i));;
       push_free i o;;
       pr ← get_pr i;
       lift (kassert (nfree pr <=? PAGE_SIZE / bsize (prr h i)));;
       (if nfree pr =? PAGE_SIZE / bsize (prr h i) then
          remove_lists i (PR_BLOCKTYPE (prr h i));;
          on_pages (free_kpages (PR_PAGEADDR (prr h i)));;
          freepageref i
        else mret tt);;
       h_splx (h_spl h0);;
       mret 0) h (λ r h', r = 0 ∧ freed live h0 (PR_PAGEADDR (prr h i) + o) h').
Proof.
  intros Hr Hl Hi Hb Hnf Hm0. destruct (page_ok_size _ _ _ (rp_page _ _ Hr i Hi)) as [Hsz _]. pose proof (is_size_cases _ Hsz) as Hcs.
  apply swp_bind. eapply swp_mono; [apply fill_deadbeef_wp; lia|]. intros _ h1 (m & -> & Hm).
  apply swp_bind. eapply swp_mono; [by apply (push_free_wp h g i o m)|]. intros _ h2 (Hr2 & Hpab & Hspl & Hm2).
  destruct (same_pab_parts h h2 i Hpab) as (Epa & Ebt & Ebs). set (g2 := set_free g i (o :: g_free g i)) in *.
  assert (∀ p n, delete (PR_PAGEADDR (prr h i) + o) live !! p = Some n ↔ lives h2 g2 p n) as Hl2.
  { intros p n. unfold g2. rewrite (lives_push h h2 g i o p n Hr Hi Hb Hpab), lookup_delete_Some, Hl. intuition congruence. }
  pose proof (free_block_content h g live i o h2 Hr Hl Hi Hb Hnf Hm2) as Hsame.
  pose proof (rp_page _ _ Hr2 i Hi) as Hok2. unfold g2 in Hok2. cbn in Hok2. rewrite fn_set_eq in Hok2.
  destruct (free_count (prr h2 i) _ ltac:(by rewrite Ebs) (pk_nodup _ _ _ Hok2) (pk_blocks _ _ _ Hok2)) as [Hcnt Hfull].
  apply swp_bind, swp_get_pr; [exact (rp_len _ _ Hr2)|exact (rp_bound _ _ Hr2 i Hi)|]. rewrite (pk_nfree _ _ _ Hok2), <- Ebs, <- Ebt, <- Epa.
  apply swp_bind, swp_kassert; [by apply Z.leb_le|]. apply swp_bind.
  assert (∀ h3, hinv h3 (delete (PR_PAGEADDR (prr h i) + o) live) → h_mem h3 = h_mem h2 →
    swp (h_splx (h_spl h0);; mret 0) h3 (λ r h', r = 0 ∧ freed live h0 (PR_PAGEADDR (prr h2 i) + o) h')) as Hend.
  { intros h3 Hinv Hm3. apply swp_bind, swp_modify, swp_ret. split; [done|]. rewrite Epa. split; [by apply hinv_spl|]. split; [done|].
    intros q n a Hq Ha. cbn. rewrite Hm3, <- Hm0. by eapply Hsame. }
  destruct (Z.eqb_spec (Z.of_nat (length (o :: g_free g i))) (PAGE_SIZE / bsize (prr h2 i))) as [Heq|Hne].
  - eapply swp_mono; [apply (drop_page_wp h2 g2 (delete (PR_PAGEADDR (prr h i) + o) live) i Hr2 Hi Hl2)|].
    { intros o' Ho'. unfold g2. cbn. rewrite fn_set_eq. by apply Hfull. }
    intros [] h3 (Hinv & Hm3 & _). by apply Hend.
  - apply swp_ret, Hend; [by exists g2|done].
Qed.

Lemma subpage_kfree_wp h live p n :
  hinv h live → live !! p = Some n →
  swp (subpage_kfree p) h (λ r h', (r = 0 ∧ freed live h p h') ∨ (r = -1 ∧ h' = h ∧
    ∃ g, rep h g ∧ (∀ q m, live !! q = Some m ↔ lives h g q m) ∧ is_Some (g_big g !! p))).
Proof.
  intros (g & Hr & Hl) Hp. pose proof (proj1 (Hl p n) Hp) as Hlp. unfold subpage_kfree. apply swp_bind. unfold h_splhigh.
  apply swp_bind, swp_gets, swp_bind, swp_modify, swp_ret. pose proof (rep_spl h g 15 Hr) as Hr1. set (h1 := with_spl 15 h) in *.
  apply swp_bind, swp_gets, swp_bind.
  eapply swp_mono; [apply (page_of_wp h1 g p 257 (g_all g)); [done|exact (rp_all _ _ Hr1)|done|pose proof (rep_length h1 g Hr1); lia]|].
  intros [i|] h2 [-> Hpage].
  - destruct Hpage as [Hi Hrange]. set (o := p - PR_PAGEADDR (prr h1 i)).
    destruct (lives_block h1 g p n i o Hr1 Hlp Hi) as (Hb & Hnf & ->); [unfold o; lia..|].
    apply swp_bind, swp_get_pr; [exact (rp_len _ _ Hr1)|exact (rp_bound _ _ Hr1 i Hi)|]. cbv zeta.
    destruct (page_ok_size _ _ _ (rp_page _ _ Hr1 i Hi)) as [Hsz Es]. apply swp_bind, swp_lift. rewrite Es. cbn [wp].
    assert (u32 (p - PR_PAGEADDR (prr h1 i)) = o) as -> by (apply u32_small; unfold o, PAGE_SIZE in *; lia).
    rewrite (proj2 (Z.leb_gt _ _)) by (unfold o; lia). rewrite (proj2 Hb). cbn [orb negb Z.eqb]. apply swp_bind, swp_ret.
    replace p with (PR_PAGEADDR (prr h1 i) + o) by (unfold o; lia).
    eapply swp_mono; [by apply (free_block_wp h h1 g live i o)|]. intros r h' [-> Hfr]. by left.
  - apply swp_bind, swp_modify, swp_ret. right. split; [done|]. split; [unfold h1; by destruct h|]. exists g. split; [done|]. split; [done|].
    destruct Hlp as [(i & o & Hi & [Ho _] & _ & -> & _)|(k & Hk & _)]; [|by exists k].
    destruct (Hpage i Hi) as [?|?]; change (prr h1 i) with (prr h i) in *; lia.
Qed.

Lemma free_big_wp h g live p k :
  rep h g → (∀ q m, live !! q = Some m ↔ lives h g q m) → g_big g !! p = Some k →
  swp (on_pages (free_kpages p)) h (λ _ h', freed live h p h').
Proof.
  intros Hr Hl Hk. pose proof (lookup_weaken _ _ _ _ Hk (rp_big _ _ Hr)) as Hrun. apply swp_on_pages.
  eapply swp_mono; [by apply (kp_free _ _ _ k (rp_runs _ _ Hr))|]. intros [] pg Hkp. split; [|split; [done|by intros q m a]].
  exists (mkGhost (g_all g) (g_same g) (g_free g) (delete p (g_runs g)) (delete p (g_big g))).
  assert (∀ i, i ∈ g_all g → PR_PAGEADDR (prr h i) ≠ p) as Hne.
  { intros i Hi E. destruct (rp_own _ _ Hr i Hi). congruence. }
  split.
  - pose proof Hr as [H1 H2 H3 H4 H5 H6 H7 H8 H9 H10 H11 H12 H13 H14 H15 H16]. split; cbn; try done.
    + intros i Hi. change (prr (with_pages pg h) i) with (prr h i). rewrite !lookup_delete_ne by (by apply not_eq_sym, Hne). auto.
    + by apply delete_mono.
    + intros a n [_ Ha]%lookup_delete_Some. auto.
    + intros a n b m [_ Ha]%lookup_delete_Some [_ Hb']%lookup_delete_Some. auto.
  - intros q m. rewrite lookup_delete_Some, Hl. unfold lives. cbn. change (prr (with_pages pg h)) with (prr h). setoid_rewrite lookup_delete_Some. split.
    + intros [Hq [Hsub|(k' & Hk' & ->)]]; [by left|right]. by exists k'.
    + intros [Hsub|(k' & [Hq Hk'] & ->)]; [|split; [done|right; eauto]]. split; [|by left]. intros <-.
      destruct Hsub as (i & o & Hi & Hb & Hnf & E & _). destruct (rp_own _ _ Hr i Hi) as [Hown _].
      destruct (rp_run _ _ Hr p k Hrun) as (_ & ? & _). destruct Hb as [? _].
      destruct (rp_apart _ _ Hr _ _ _ _ Hown Hrun (Hne i Hi)); unfold PAGE_SIZE in *; lia.
Qed.

Lemma kfree_wp h live p n : hinv h live → live !! p = Some n → swp (kfree p) h (λ _ h', freed live h p h').
Proof.
  intros Hinv Hp. unfold kfree. assert (p ≠ 0) as Hp0.
  { destruct Hinv as (g & Hr & Hl). destruct (lives_run h g p n Hr (proj1 (Hl p n) Hp)) as (a & k & Ha & ? & _).
    destruct (rp_run _ _ Hr _ _ Ha) as (? & ? & ? & ?). unfold MIPS_KSEG0 in *. lia. }
  rewrite (proj2 (Z.eqb_neq _ _)) by done. apply swp_bind. eapply swp_mono; [by apply (subpage_kfree_wp h live p n)|].
  intros r h' [[-> Hfr]|(-> & -> & g & Hr & Hl & k & Hk)]; [by apply swp_ret|]. cbn.
  destruct (rp_run _ _ Hr p k) as [Hal _]; [exact (lookup_weaken _ _ _ _ Hk (rp_big _ _ Hr))|].
  apply swp_bind, swp_kassert; [by apply Z.eqb_eq|]. by apply (free_big_wp h g live p k).
Qed.

(** ** The consistency checks *)

Definition gives {A} (x : A) h : A → st → Prop := λ r h', r = x ∧ h' = h.

Lemma checkfreelist_wp h pa sz fl n fuel :
  chain (h_mem h) pa fl → page_run pa 1 → (∀ o, o ∈ fl → 0 ≤ o < PAGE_SIZE ∧ o mod sz = 0) → (length fl < fuel)%nat →
  swp (checkfreelist fuel pa sz (match fl with [] => 0 | o :: _ => pa + o end) n) h (gives (n + Z.of_nat (length fl)) h).
Proof.
  revert n fuel. induction fl as [|o fl IH]; intros n [|fuel] Hc Hrun Hb Hf; cbn in Hf; [lia| |lia|]; cbn [checkfreelist].
  - apply swp_ret. cbn. by rewrite Z.add_0_r.
  - destruct Hc as [Hw Hc]. destruct (Hb o ltac:(by left)) as [Ho Hm]. pose proof Hrun as (? & ? & ? & ?).
    unfold PAGE_SIZE, MIPS_KSEG0, MIPS_KSEG1 in *. rewrite (proj2 (Z.eqb_neq (pa + o) 0)) by lia.
    apply swp_bind, swp_kassert; [lia|]. apply swp_bind, swp_kassert; [by rewrite Z.add_simpl_l, Hm|].
    apply swp_bind, swp_kassert; [lia|]. apply swp_bind, swp_kassert; [lia|]. apply swp_bind, swp_gets. rewrite Hw.
    eapply swp_mono; [apply IH; [done|done| |lia]; intros o' Ho'; apply Hb; by right|]. intros r h' [-> ->]. split; [cbn; lia|done].
Qed.

Lemma checksubpage_wp h g i : rep h g → i ∈ g_all g → 0 < h_spl h → swp (checksubpage i) h (gives tt h).
Proof.
  intros Hr Hi Hspl. pose proof (rp_page _ _ Hr i Hi) as Hok. pose proof (page_count _ _ _ Hok) as Hcnt.
  destruct (page_ok_size _ _ _ Hok) as [_ Es]. unfold checksubpage. apply swp_bind, swp_gets, swp_bind, swp_kassert; [by apply Z.ltb_lt|].
  apply swp_bind, swp_get_pr; [exact (rp_len _ _ Hr)|exact (rp_bound _ _ Hr i Hi)|].
  rewrite (pk_head _ _ _ Hok), (pk_nfree _ _ _ Hok). destruct (g_free g i) as [|o r] eqn:Hf; [by apply swp_kassert|].
  destruct (pk_blocks _ _ _ Hok o) as [Ho Hm]; [by left|]. change (default INVALID_OFFSET (head (o :: r))) with o.
  rewrite (proj2 (Z.eqb_neq o INVALID_OFFSET)) by (unfold INVALID_OFFSET, PAGE_SIZE in *; lia).
  apply swp_bind, swp_lift. rewrite Es. cbn [wp]. apply swp_bind, swp_kassert; [apply Z.ltb_lt; lia|].
  apply swp_bind, swp_kassert; [by apply Z.eqb_eq|]. apply swp_bind.
  eapply swp_mono; [apply (checkfreelist_wp h _ _ (o :: r) 0 257 (pk_chain _ _ _ Hok) (pk_run _ _ _ Hok) (pk_blocks _ _ _ Hok)); lia|].
  intros n h' [-> ->]. apply swp_kassert; [by apply Z.eqb_eq|done].
Qed.

Lemma check_list_wp h g next l o c fuel :
  rep h g → 0 < h_spl h → linked (λ i, next (prr h i)) o l → (∀ i, i ∈ l → i ∈ g_all g) → (length l < fuel)%nat →
  c + Z.of_nat (length l) ≤ 256 → swp (check_list fuel next o c) h (gives (c + Z.of_nat (length l)) h).
Proof.
  intros Hr Hspl. revert o c fuel. induction l as [|i l IH]; intros o c [|fuel] Hl Hin Hf Hc; cbn in Hf, Hl; [lia| |lia|]; cbn [check_list].
  - subst o. apply swp_ret. cbn. by rewrite Z.add_0_r.
  - destruct Hl as [-> Hl]. assert (i ∈ g_all g) as Hi by (apply Hin; by left). cbn [length] in Hc.
    apply swp_bind. eapply swp_mono; [by apply (checksubpage_wp h g i)|]. intros u h' [_ ->].
    apply swp_bind, swp_kassert; [apply Z.ltb_lt; change NPAGEREFS with 256; lia|].
    apply swp_bind, swp_get_pr; [exact (rp_len _ _ Hr)|exact (rp_bound _ _ Hr i Hi)|].
    eapply swp_mono; [apply IH; [done| |lia|lia]; intros j Hj; apply Hin; by right|]. intros r h' [-> ->]. split; [cbn; lia|done].
Qed.

(** The pages of each size add up to all pages. *)
Lemma filter_lt_length (f : nat → Z) (l : list nat) t :
  length (filter (λ i, f i < t + 1) l) = (length (filter (λ i, (f i < t)%Z) l) + length (filter (λ i, f i = t) l))%nat.
Proof.
  induction l as [|i l IH]; [done|]. rewrite !filter_cons. repeat case_decide; cbn; rewrite ?IH; lia.
Qed.

Lemma same_length_eq h g t : rep h g → 0 ≤ t < 8 → length (g_same g t) = length (filter (λ i, PR_BLOCKTYPE (prr h i) = t) (g_all g)).
Proof.
  intros Hr Ht. apply Permutation_length, NoDup_Permutation.
  - by apply (rp_same_nodup _ _ Hr).
  - by apply NoDup_filter, (rp_nodup _ _ Hr).
  - intros i. rewrite (rp_types _ _ Hr t i Ht), list_elem_of_filter. tauto.
Qed.

Lemma check_sizes_wp h g n t :
  rep h g → 0 < h_spl h → 0 ≤ t → t + Z.of_nat n = 8 →
  swp (check_sizes n t (Z.of_nat (length (filter (λ i, PR_BLOCKTYPE (prr h i) < t) (g_all g))))) h
    (gives (Z.of_nat (length (g_all g))) h).
Proof.
  intros Hr Hspl. revert t. induction n as [|n IH]; intros t Ht Hn; cbn [check_sizes].
  - apply swp_ret. split; [|done]. f_equal. apply Permutation_length, NoDup_Permutation.
    + by apply NoDup_filter, (rp_nodup _ _ Hr).
    + exact (rp_nodup _ _ Hr).
    + intros i. rewrite list_elem_of_filter. split; [tauto|]. intros Hi. split; [|done].
      pose proof (pk_type _ _ _ (rp_page _ _ Hr i Hi)). lia.
  - apply swp_bind, swp_get_base; [exact (rp_bases _ _ Hr)|lia|]. pose proof (rep_same_length h g t Hr ltac:(lia)) as Hsl.
    pose proof (filter_lt_length (λ i, PR_BLOCKTYPE (prr h i)) (g_all g) t) as Hadd. pose proof (same_length_eq h g t Hr ltac:(lia)) as Heq.
    pose proof (rep_length h g Hr). pose proof (length_filter (λ i, PR_BLOCKTYPE (prr h i) < t + 1) (g_all g)).
    apply swp_bind. eapply swp_mono; [apply (check_list_wp h g _ (g_same g t)); [done..|by apply (rp_same _ _ Hr); lia| |lia|lia]|].
    { intros i Hi. by apply (rp_types _ _ Hr t i ltac:(lia)). }
    intros r h' [-> ->]. rewrite Heq, <- Nat2Z.inj_add, <- Hadd. apply IH; lia.
Qed.

Lemma checksubpages_wp h live : hinv h live → 0 < h_spl h → swp checksubpages h (gives tt h).
Proof.
  intros (g & Hr & _) Hspl. unfold checksubpages. apply swp_bind, swp_gets, swp_bind, swp_kassert; [by apply Z.ltb_lt|].
  assert (filter (λ i, PR_BLOCKTYPE (prr h i) < 0) (g_all g) = []) as H0.
  { destruct (filter _ _) as [|i l] eqn:E; [done|]. assert (i ∈ i :: l) as Hi by left. rewrite <- E in Hi.
    apply list_elem_of_filter in Hi as [? Hi]. pose proof (pk_type _ _ _ (rp_page _ _ Hr i Hi)). lia. }
  apply swp_bind. pose proof (check_sizes_wp h g (Z.to_nat NSIZES) 0 Hr Hspl ltac:(done) ltac:(done)) as Hs. rewrite H0 in Hs.
  eapply swp_mono; [exact Hs|]. intros sc h' [-> ->]. apply swp_bind, swp_gets, swp_bind. pose proof (rep_length h g Hr).
  eapply swp_mono; [apply (check_list_wp h g next_all (g_all g)); [done..|exact (rp_all _ _ Hr)|done|lia|lia]|].
  intros ac h' [-> ->]. apply swp_kassert; [by apply Z.eqb_eq|done].
Qed.

(** ** Properties *)

(** The heap at boot has nothing allocated. *)
Lemma hinv_start mem spl (p : P) : kp_inv p ∅ → hinv (heap_start mem spl p) ∅.
Proof.
  intros Hp. exists (mkGhost [] (λ _, []) (λ _, []) ∅ ∅). split.
  - split; try done; cbn.
    + by intros i ?%elem_of_nil.
    + constructor.
    + split; [done|..].
      * intros k Hk. unfold heap_start. cbn. do 8 (destruct k; [done|]). lia.
      * intros i Hi. rewrite elem_of_nil. split; [|done]. unfold bit_used. cbn. set (k := Z.to_nat _). set (j := _ mod 32).
        assert (k < 8)%nat by (unfold k; dlia). do 8 (destruct k; [by rewrite Z.bits_0|]). lia.
    + intros t Ht. assert (Z.to_nat t < 8)%nat by lia. destruct (Z.to_nat t) as [|k]; [done|]. do 7 (destruct k as [|k]; [done|]). lia.
    + intros t Ht. constructor.
    + intros t i Ht. rewrite elem_of_nil. tauto.
    + by intros i ?%elem_of_nil.
    + by intros i j ?%elem_of_nil.
    + by intros i ?%elem_of_nil.
  - intros q n. rewrite lookup_empty. split; [done|]. intros [(i & o & Hi & _)|(k & Hk & _)]; [by apply elem_of_nil in Hi|].
    cbn in Hk. by rewrite lookup_empty in Hk.
Qed.

(** [C1] The kernel heap is correct over every page allocator that satisfies
    the laws of [KPages]: at boot nothing is allocated; allocated blocks do not
    overlap; [kmalloc] returns for every size up to 2 GB, with NULL and nothing
    changed for its clients or with a block of at least the size, aligned to 16
    bytes, in kseg0 and disjoint from all others; [kfree] of an allocated block
    returns and frees exactly it; neither touches the content of other blocks
    or changes the interrupt level; a client may write anywhere in its blocks;
    and the consistency checks of the allocator pass. *)
Theorem kheap_allocates :
  (∀ mem spl (p : P), kp_inv p ∅ → hinv (heap_start mem spl p) ∅) ∧
  ∀ h live, hinv h live →
    (∀ p n q m, live !! p = Some n → live !! q = Some m → p ≠ q → p + n ≤ q ∨ q + m ≤ p) ∧
    (∀ sz, 0 ≤ sz ≤ 2147483648 → swp (kmalloc sz) h (allocated live h sz)) ∧
    (∀ p n, live !! p = Some n → swp (kfree p) h (λ _ h', freed live h p h')) ∧
    kfree 0 h = Done (tt, h) ∧
    (∀ p n m, live !! p = Some n → (∀ a, a < p ∨ p + n ≤ a → m a = h_mem h a) → hinv (with_mem m h) live) ∧
    (0 < h_spl h → checksubpages h = Done (tt, h)).
Proof.
  split; [apply hinv_start|]. intros h live Hinv. split_and!.
  - destruct Hinv as (g & Hr & Hl). intros p n q m Hp%Hl Hq%Hl. by apply (live_apart h g).
  - intros sz. by apply kmalloc_wp.
  - intros p n. by apply kfree_wp.
  - done.
  - intros p n m. by apply hinv_write.
  - intros Hs. pose proof (checksubpages_wp h live Hinv Hs) as H. apply swp_Done in H as (u & h' & E & _ & ->). by destruct u.
Qed.
End thm.

(** A machine with 1 MB of memory, 64 KB of which hold the kernel. *)
Definition small_ram : ram := ram_bootstrap (MIPS_KSEG0 + 65536) 1048576.
Definition small_heap : heap ram := heap_start (λ _, 0) 0 small_ram.

Lemma small_ram_inv : kp_inv small_ram ∅.
Proof. split; [done|]. intros a n. by rewrite lookup_empty. Qed.

Lemma kheap_allocates_witness :
  hinv small_heap ∅ ∧ swp (kmalloc 100) small_heap (allocated ∅ small_heap 100) ∧
  (match kmalloc 100 small_heap with Done (p, _) => Some p | _ => None end) = Some 2147553152 ∧ checksubpages (with_spl 15 small_heap) = Done (tt, with_spl 15 small_heap).
Proof.
  pose proof (proj1 kheap_allocates (λ _, 0) 0 small_ram small_ram_inv) as H0. split; [exact H0|].
  split; [exact (proj1 (proj2 (proj2 kheap_allocates small_heap ∅ H0)) 100 ltac:(lia))|]. split; [by vm_compute|].
  assert (hinv (with_spl 15 small_heap) ∅) as H1 by exact (hinv_spl small_heap ∅ 15 H0).
  by apply (proj2 (proj2 (proj2 (proj2 (proj2 (proj2 kheap_allocates _ _ H1)))))).
Defined.
