(* ===== verification/Dumbvm.v ===== *)
(** * Address spaces and page faults under dumbvm (arch/mips/mips/dumbvm.c)

    Address spaces with two regions and a stack, loaded into contiguous
    physical memory taken from ram.c; the page fault handler fills the TLB. *)

From S2P Require Import Prelude Kpages.

(** ** Data *)

Definition DUMBVM_STACKPAGES : Z := 12.
Record addrspace := mkAs {
  as_vbase1 : Z; as_pbase1 : Z; as_npages1 : Z;
  as_vbase2 : Z; as_pbase2 : Z; as_npages2 : Z;
  as_stackpbase : Z;
}.

(** The memory the physical allocator has left, the memory as seen through
    kseg0, the TLB, and the interrupt level. *)
Record dvm := mkDvm { d_ram : ram; d_mem : Z → Z; d_tlb : list (Z * Z); d_spl : Z }.

Definition set_ram (r : ram) (d : dvm) : dvm := mkDvm r (d_mem d) (d_tlb d) (d_spl d).
Definition set_dmem (m : Z → Z) (d : dvm) : dvm := mkDvm (d_ram d) m (d_tlb d) (d_spl d).
Definition set_tlb (l : list (Z * Z)) (d : dvm) : dvm := mkDvm (d_ram d) (d_mem d) l (d_spl d).
Definition set_dspl (s : Z) (d : dvm) : dvm := mkDvm (d_ram d) (d_mem d) (d_tlb d) s.

Definition d_splhigh : stm dvm Z := s ← gets d_spl; modify (set_dspl 15);; mret s.
Definition d_splx (s : Z) : stm dvm unit := modify (set_dspl s).

Definition TLB_Write (ehi elo index : Z) : stm dvm unit := modify (λ d, set_tlb (<[Z.to_nat index := (ehi, elo)]> (d_tlb d)) d).
Definition TLB_Read (index : Z) : stm dvm (Z * Z) := gets (λ d, d_tlb d !!! Z.to_nat index).

(** ** The code *)

Definition getppages (npages : Z) : stm dvm Z :=
  spl ← d_splhigh;
  addr ← (λ d, '(a, r) ← ram_stealmem npages (d_ram d); Done (a, set_ram r d));
  d_splx spl;;
  mret addr.

(** The search for a TLB entry that is not in use. *)
Fixpoint tlb_fill (n : nat) (i ehi elo : Z) : stm dvm bool :=
  match n with
  | O => mret false
  | S n =>
      e ← TLB_Read i;
      if negb (Z.land (snd e) TLBLO_VALID =? 0) then tlb_fill n (i + 1) ehi elo
      else TLB_Write ehi elo i;; mret true
  end.

Definition vm_fault (faulttype faultaddress : Z) (t_vmspace : option addrspace) : stm dvm Z :=
  spl ← d_splhigh;
  let faultaddress := Z.land faultaddress PAGE_FRAME in
  if faulttype =? VM_FAULT_READONLY then lift Panic
  else if negb ((faulttype =? VM_FAULT_READ) || (faulttype =? VM_FAULT_WRITE)) then d_splx spl;; mret EINVAL
  else
    match t_vmspace with
    | None => mret EFAULT
    | Some as_ =>
        lift (kassert (negb (as_vbase1 as_ =? 0)));;
        lift (kassert (negb (as_pbase1 as_ =? 0)));;
        lift (kassert (negb (as_npages1 as_ =? 0)));;
        lift (kassert (negb (as_vbase2 as_ =? 0)));;
        lift (kassert (negb (as_pbase2 as_ =? 0)));;
        lift (kassert (negb (as_npages2 as_ =? 0)));;
        lift (kassert (negb (as_stackpbase as_ =? 0)));;
        lift (kassert (Z.land (as_vbase1 as_) PAGE_FRAME =? as_vbase1 as_));;
        lift (kassert (Z.land (as_pbase1 as_) PAGE_FRAME =? as_pbase1 as_));;
        lift (kassert (Z.land (as_vbase2 as_) PAGE_FRAME =? as_vbase2 as_));;
        lift (kassert (Z.land (as_pbase2 as_) PAGE_FRAME =? as_pbase2 as_));;
        lift (kassert (Z.land (as_stackpbase as_) PAGE_FRAME =? as_stackpbase as_));;
        let vbase1 := as_vbase1 as_ in
        let vtop1 := u32 (vbase1 + u32 (as_npages1 as_ * PAGE_SIZE)) in
        let vbase2 := as_vbase2 as_ in
        let vtop2 := u32 (vbase2 + u32 (as_npages2 as_ * PAGE_SIZE)) in
        let stackbase := USERSTACK - DUMBVM_STACKPAGES * PAGE_SIZE in
        let stacktop := USERSTACK in
        let paddr :=
          if (vbase1 <=? faultaddress) && (faultaddress <? vtop1) then Some (u32 (faultaddress - vbase1 + as_pbase1 as_))
          else if (vbase2 <=? faultaddress) && (faultaddress <? vtop2) then Some (u32 (faultaddress - vbase2 + as_pbase2 as_))
          else if (stackbase <=? faultaddress) && (faultaddress <? stacktop) then Some (u32 (faultaddress - stackbase + as_stackpbase as_))
          else None in
        match paddr with
        | None => d_splx spl;; mret EFAULT
        | Some paddr =>
            lift (kassert (Z.land paddr PAGE_FRAME =? paddr));;
            found ← tlb_fill (Z.to_nat NUM_TLB) 0 faultaddress (Z.lor (Z.lor paddr TLBLO_DIRTY) TLBLO_VALID);
            d_splx spl;;
            mret (if (found : bool) then 0 else EFAULT)
        end
    end.

(** [ok] is the answer of [kmalloc]. *)
Definition as_create (ok : bool) : option addrspace := if ok then Some (mkAs 0 0 0 0 0 0 0) else None.

Definition as_activate : stm dvm unit :=
  spl ← d_splhigh;
  for_stm (Z.to_nat NUM_TLB) 0 (λ i _, TLB_Write (TLBHI_INVALID i) TLBLO_INVALID i;; mret (inl tt : unit + unit)) tt;;
  d_splx spl.

Definition as_define_region (as_ : addrspace) (vaddr sz : Z) : Z * addrspace :=
  let sz := u32 (sz + Z.land vaddr (u32 (Z.lnot PAGE_FRAME))) in
  let vaddr := Z.land vaddr PAGE_FRAME in
  let sz := Z.land (u32 (sz + PAGE_SIZE - 1)) PAGE_FRAME in
  let npages := sz / PAGE_SIZE in
  if as_vbase1 as_ =? 0 then
    (0, mkAs vaddr (as_pbase1 as_) npages (as_vbase2 as_) (as_pbase2 as_) (as_npages2 as_) (as_stackpbase as_))
  else if as_vbase2 as_ =? 0 then
    (0, mkAs (as_vbase1 as_) (as_pbase1 as_) (as_npages1 as_) vaddr (as_pbase2 as_) npages (as_stackpbase as_))
  else (EUNIMP, as_).

Definition as_prepare_load (as_ : addrspace) : stm dvm (Z * addrspace) :=
  lift (kassert (as_pbase1 as_ =? 0));;
  lift (kassert (as_pbase2 as_ =? 0));;
  lift (kassert (as_stackpbase as_ =? 0));;
  p1 ← getppages (as_npages1 as_);
  let as_ := mkAs (as_vbase1 as_) p1 (as_npages1 as_) (as_vbase2 as_) (as_pbase2 as_) (as_npages2 as_) (as_stackpbase as_) in
  if p1 =? 0 then mret (ENOMEM, as_) else
  p2 ← getppages (as_npages2 as_);
  let as_ := mkAs (as_vbase1 as_) (as_pbase1 as_) (as_npages1 as_) (as_vbase2 as_) p2 (as_npages2 as_) (as_stackpbase as_) in
  if p2 =? 0 then mret (ENOMEM, as_) else
  p3 ← getppages DUMBVM_STACKPAGES;
  let as_ := mkAs (as_vbase1 as_) (as_pbase1 as_) (as_npages1 as_) (as_vbase2 as_) (as_pbase2 as_) (as_npages2 as_) p3 in
  if p3 =? 0 then mret (ENOMEM, as_) else mret (0, as_).

Definition as_define_stack (as_ : addrspace) : outcome Z :=
  kassert (negb (as_stackpbase as_ =? 0));; mret USERSTACK.

(** [memmove] of the C library. *)
Definition memmove (dst src len : Z) : stm dvm unit :=
  modify (λ d, set_dmem (λ a, if (dst <=? a) && (a <? dst + len) then d_mem d (src + (a - dst)) else d_mem d a) d).

Definition as_copy (old : addrspace) (ok : bool) : stm dvm (res addrspace) :=
  match as_create ok with
  | None => mret (Err ENOMEM)
  | Some new =>
      let new := mkAs (as_vbase1 old) (as_pbase1 new) (as_npages1 old) (as_vbase2 old) (as_pbase2 new) (as_npages2 old) (as_stackpbase new) in
      '(e, new) ← as_prepare_load new;
      if negb (e =? 0) then mret (Err ENOMEM)
      else
        lift (kassert (negb (as_pbase1 new =? 0)));;
        lift (kassert (negb (as_pbase2 new =? 0)));;
        lift (kassert (negb (as_stackpbase new =? 0)));;
        memmove (PADDR_TO_KVADDR (as_pbase1 new)) (PADDR_TO_KVADDR (as_pbase1 old)) (u32 (as_npages1 old * PAGE_SIZE));;
        memmove (PADDR_TO_KVADDR (as_pbase2 new)) (PADDR_TO_KVADDR (as_pbase2 old)) (u32 (as_npages2 old * PAGE_SIZE));;
        memmove (PADDR_TO_KVADDR (as_stackpbase new)) (PADDR_TO_KVADDR (as_stackpbase old)) (DUMBVM_STACKPAGES * PAGE_SIZE);;
        mret (Ok new)
  end.

(** ** What the TLB should say *)

(** The region an address belongs to (0, 1, or 2 for the stack), and the offset
    of its page there. *)
Definition segment (as_ : addrspace) (va : Z) : option (nat * Z) :=
  let v := va - va mod PAGE_SIZE in
  let stackbase := USERSTACK - DUMBVM_STACKPAGES * PAGE_SIZE in
  if bool_decide (as_vbase1 as_ ≤ v < as_vbase1 as_ + as_npages1 as_ * PAGE_SIZE) then Some (0%nat, v - as_vbase1 as_)
  else if bool_decide (as_vbase2 as_ ≤ v < as_vbase2 as_ + as_npages2 as_ * PAGE_SIZE) then Some (1%nat, v - as_vbase2 as_)
  else if bool_decide (stackbase ≤ v < USERSTACK) then Some (2%nat, v - stackbase)
  else None.

(** The physical memory of each region. *)
Definition seg_run (as_ : addrspace) (k : nat) : Z * Z :=
  match k with
  | O => (as_pbase1 as_, as_npages1 as_)
  | 1%nat => (as_pbase2 as_, as_npages2 as_)
  | _ => (as_stackpbase as_, DUMBVM_STACKPAGES)
  end.

(** The frame an address is mapped to. *)
Definition translate (as_ : addrspace) (va : Z) : option Z := '(k, off) ← segment as_ va; Some ((seg_run as_ k).1 + off).

(** Regions as an executable defines them: page-aligned, not empty, in user space. *)
Definition regions_ok (as_ : addrspace) : Prop :=
  as_vbase1 as_ mod PAGE_SIZE = 0 ∧ as_vbase2 as_ mod PAGE_SIZE = 0 ∧ 0 < as_vbase1 as_ ∧ 0 < as_vbase2 as_ ∧
  0 < as_npages1 as_ ∧ 0 < as_npages2 as_ ∧
  as_vbase1 as_ + as_npages1 as_ * PAGE_SIZE ≤ USERSTACK ∧ as_vbase2 as_ + as_npages2 as_ * PAGE_SIZE ≤ USERSTACK.

Definition same_regions (a b : addrspace) : Prop :=
  as_vbase1 a = as_vbase1 b ∧ as_npages1 a = as_npages1 b ∧ as_vbase2 a = as_vbase2 b ∧ as_npages2 a = as_npages2 b.

Lemma same_regions_segment a b va : same_regions a b → segment a va = segment b va.
Proof. intros (H1 & H2 & H3 & H4). unfold segment. by rewrite H1, H2, H3, H4. Qed.

(** ** The invariant *)

(** The physical runs of an address space, the last one allocated first. *)
Definition as_runs (as_ : addrspace) : list (Z * Z) := [seg_run as_ 2; seg_run as_ 1; seg_run as_ 0].

Definition run_apart (x y : Z * Z) : Prop := x.1 + x.2 * PAGE_SIZE ≤ y.1 ∨ y.1 + y.2 * PAGE_SIZE ≤ x.1.

(** Disjoint runs of pages below [top]. *)
Fixpoint runs_ok (top : Z) (l : list (Z * Z)) : Prop :=
  match l with
  | [] => True
  | x :: l => (0 < x.1 ∧ x.1 mod PAGE_SIZE = 0 ∧ 0 < x.2 ∧ x.1 + x.2 * PAGE_SIZE ≤ top) ∧ Forall (run_apart x) l ∧ runs_ok top l
  end.

Lemma runs_ok_mono top top' l : top ≤ top' → runs_ok top l → runs_ok top' l.
Proof. intros Ht. induction l as [|x l IH]; [done|]. cbn. intros ((? & ? & ? & ?) & ? & ?). split; [|auto]. split_and!; lia. Qed.

Lemma runs_ok_elem top l x : runs_ok top l → x ∈ l → 0 < x.1 ∧ x.1 mod PAGE_SIZE = 0 ∧ 0 < x.2 ∧ x.1 + x.2 * PAGE_SIZE ≤ top.
Proof. induction l as [|y l IH]; [by intros _ ?%elem_of_nil|]. cbn. intros (? & _ & ?) [->|?]%elem_of_cons; auto. Qed.

(** Memory taken from the top. *)
Lemma runs_ok_push top n l :
  runs_ok top l → 0 < top → top mod PAGE_SIZE = 0 → 0 < n → runs_ok (top + n * PAGE_SIZE) ((top, n) :: l).
Proof.
  intros Hl Ht Hm Hn. cbn. split; [lia|]. split; [|eapply runs_ok_mono; [|done]; unfold PAGE_SIZE; lia].
  apply Forall_forall. intros x Hx. right. by destruct (runs_ok_elem _ _ _ Hl Hx) as (? & ? & ? & ?).
Qed.

Lemma runs_ok_apart top l i j x y : runs_ok top l → l !! i = Some x → l !! j = Some y → i ≠ j → run_apart x y.
Proof.
  revert i j. induction l as [|z l IH]; intros i j Hl Hi Hj Hne; [done|]. cbn in Hl. destruct Hl as (_ & Hz & Hl). rewrite Forall_forall in Hz.
  destruct i as [|i], j as [|j]; simplify_eq/=.
  - by apply Hz; eapply list_elem_of_lookup_2.
  - destruct (Hz x); [by eapply list_elem_of_lookup_2|by right|by left].
  - eapply IH; [done..|congruence].
Qed.

(** The address spaces [L] are loaded: each has memory of its own. *)
Record dvm_ok (d : dvm) (L : list addrspace) : Prop := {
  do_ram : ram_ok (d_ram d);
  do_tlb : length (d_tlb d) = 64%nat;
  do_regions as_ : as_ ∈ L → regions_ok as_;
  do_runs : runs_ok (firstpaddr (d_ram d)) (concat (as_runs <$> L));
}.

(** Every valid entry of the TLB is a translation of the address space. *)
Definition tlb_ok (d : dvm) (as_ : addrspace) : Prop :=
  ∀ hi lo, (hi, lo) ∈ d_tlb d → Z.land lo TLBLO_VALID ≠ 0 → translate as_ hi = Some (Z.land lo PAGE_FRAME).

Lemma seg_run_elem as_ k : seg_run as_ k ∈ as_runs as_.
Proof. unfold as_runs. destruct k as [|[|k]]; cbn; rewrite !elem_of_cons; tauto. Qed.

Lemma do_run d L as_ k : dvm_ok d L → as_ ∈ L →
  0 < (seg_run as_ k).1 ∧ (seg_run as_ k).1 mod PAGE_SIZE = 0 ∧ 0 < (seg_run as_ k).2 ∧
  (seg_run as_ k).1 + (seg_run as_ k).2 * PAGE_SIZE ≤ firstpaddr (d_ram d).
Proof.
  intros Hd Hin. eapply runs_ok_elem; [exact (do_runs _ _ Hd)|]. apply list_elem_of_In, in_concat. exists (as_runs as_).
  rewrite <- !list_elem_of_In. split; [by apply list_elem_of_fmap_2|apply seg_run_elem].
Qed.

Lemma segment_fits as_ va k off :
  segment as_ va = Some (k, off) → regions_ok as_ → 0 ≤ va → 0 ≤ off ∧ off + PAGE_SIZE ≤ (seg_run as_ k).2 * PAGE_SIZE ∧ off mod PAGE_SIZE = 0.
Proof.
  unfold segment, regions_ok, USERSTACK, MIPS_KSEG0, DUMBVM_STACKPAGES, PAGE_SIZE. intros Hs (? & ? & ? & ? & ? & ? & ? & ?) Hva.
  repeat case_bool_decide; simplify_eq/=; unfold DUMBVM_STACKPAGES; dlia.
Qed.

Lemma translate_range d L as_ va pa :
  dvm_ok d L → as_ ∈ L → 0 ≤ va → translate as_ va = Some pa → 0 < pa ∧ pa mod PAGE_SIZE = 0 ∧ pa + PAGE_SIZE ≤ firstpaddr (d_ram d).
Proof.
  intros Hd Hin Hva. unfold translate. destruct (segment as_ va) as [[k off]|] eqn:Hs; [|done]. intros [= <-].
  destruct (segment_fits _ _ _ _ Hs (do_regions _ _ Hd _ Hin) Hva) as (? & ? & ?). destruct (do_run d L as_ k Hd Hin) as (? & ? & ? & ?).
  unfold PAGE_SIZE in *. split; [lia|]. split; [dlia|lia].
Qed.

(** ** Isolation *)

Lemma concat_runs_lookup L i as_ k :
  L !! i = Some as_ → (k < 3)%nat → concat (as_runs <$> L) !! (3 * i + k)%nat = Some (seg_run as_ (2 - k)).
Proof.
  revert i. induction L as [|a L IH]; intros i Hi Hk; [done|].
  change (concat (as_runs <$> a :: L)) with (as_runs a ++ concat (as_runs <$> L)). destruct i as [|i].
  - injection Hi as ->. rewrite lookup_app_l by (cbn; lia). destruct k as [|[|[|k]]]; [done..|lia].
  - rewrite lookup_app_r by (cbn; lia). rewrite <- (IH i Hi Hk). f_equal. cbn. lia.
Qed.

Lemma seg_apart d L i j a b k l :
  dvm_ok d L → L !! i = Some a → L !! j = Some b → (k < 3)%nat → (l < 3)%nat → (i, k) ≠ (j, l) → run_apart (seg_run a k) (seg_run b l).
Proof.
  intros Hd Hi Hj Hk Hl Hne. replace k with (2 - (2 - k))%nat by lia. replace l with (2 - (2 - l))%nat by lia.
  eapply runs_ok_apart; [exact (do_runs _ _ Hd)|by apply concat_runs_lookup; [exact Hi|lia]|by apply concat_runs_lookup; [exact Hj|lia]|].
  intros E. apply Hne. f_equal; lia.
Qed.

Lemma segment_lt as_ va k off : segment as_ va = Some (k, off) → (k < 3)%nat.
Proof. unfold segment. intros H. repeat case_bool_decide; simplify_eq; lia. Qed.

Lemma translate_apart d L i j a b va vb p q :
  dvm_ok d L → L !! i = Some a → L !! j = Some b → 0 ≤ va → 0 ≤ vb → i ≠ j →
  translate a va = Some p → translate b vb = Some q → p + PAGE_SIZE ≤ q ∨ q + PAGE_SIZE ≤ p.
Proof.
  intros Hd Hi Hj Hva Hvb Hne Hp Hq. unfold translate in *. destruct (segment a va) as [[k off]|] eqn:Hs; [|done].
  destruct (segment b vb) as [[l off']|] eqn:Hs'; [|done]. cbn in Hp, Hq. injection Hp as <-. injection Hq as <-.
  pose proof (do_regions _ _ Hd a ltac:(by eapply list_elem_of_lookup_2)) as Hra. pose proof (do_regions _ _ Hd b ltac:(by eapply list_elem_of_lookup_2)) as Hrb.
  destruct (segment_fits _ _ _ _ Hs Hra Hva) as (? & ? & ?). destruct (segment_fits _ _ _ _ Hs' Hrb Hvb) as (? & ? & ?).
  destruct (seg_apart d L i j a b k l Hd Hi Hj (segment_lt _ _ _ _ Hs) (segment_lt _ _ _ _ Hs')); [congruence|lia..].
Qed.

(** ** The TLB *)

(** The entries the hardware uses. *)
Definition entry_valid (e : Z * Z) : bool := negb (Z.land e.2 TLBLO_VALID =? 0).

Lemma tlb_fill_wp d ehi elo n i :
  length (d_tlb d) = 64%nat → 0 ≤ i → i + Z.of_nat n = 64 → (∀ k, (k < Z.to_nat i)%nat → entry_valid (d_tlb d !!! k) = true) →
  swp (tlb_fill n i ehi elo) d (λ r d',
    if r : bool then ∃ k, (k < 64)%nat ∧ entry_valid (d_tlb d !!! k) = false ∧ d' = set_tlb (<[k := (ehi, elo)]> (d_tlb d)) d
    else d' = d ∧ ∀ k, (k < 64)%nat → entry_valid (d_tlb d !!! k) = true).
Proof.
  intros Hl. revert i. induction n as [|n IH]; intros i Hi Hn Hv; cbn [tlb_fill].
  - apply swp_ret. split; [done|]. intros k Hk. apply Hv. lia.
  - apply swp_bind, swp_gets. fold (entry_valid (d_tlb d !!! Z.to_nat i)). destruct (entry_valid (d_tlb d !!! Z.to_nat i)) eqn:Hi'.
    + apply IH; [lia..|]. intros k Hk. destruct (decide (k = Z.to_nat i)) as [->|]; [done|]. apply Hv. lia.
    + apply swp_bind, swp_modify, swp_ret. exists (Z.to_nat i). split; [lia|done].
Qed.

Lemma tlb_ok_insert d as_ k hi lo pa :
  tlb_ok d as_ → translate as_ hi = Some pa → Z.land lo PAGE_FRAME = pa → tlb_ok (set_tlb (<[k := (hi, lo)]> (d_tlb d)) d) as_.
Proof.
  intros Htlb Ht <- hi' lo' Hin Hv. cbn in Hin. apply list_elem_of_lookup in Hin as (j & Hj).
  destruct (decide (j = k)) as [->|Hne].
  - destruct (decide (k < length (d_tlb d))%nat) as [Hlt|Hge].
    + rewrite list_lookup_insert_eq in Hj by done. by simplify_eq.
    + rewrite list_insert_ge in Hj by lia. apply Htlb; [by eapply list_elem_of_lookup_2|done].
  - rewrite list_lookup_insert_ne in Hj by done. apply Htlb; [by eapply list_elem_of_lookup_2|done].
Qed.

Lemma as_activate_wp d : length (d_tlb d) = 64%nat →
  swp as_activate d (λ _ d', ∃ l, d' = set_tlb l d ∧ length l = 64%nat ∧ ∀ k, (k < 64)%nat → entry_valid (l !!! k) = false).
Proof.
  intros Hl. unfold as_activate, d_splhigh. apply swp_bind, swp_bind, swp_gets, swp_bind, swp_modify, swp_ret, swp_bind.
  eapply swp_mono; [apply (swp_for_stm (λ i _ d', ∃ l, d' = set_tlb l (set_dspl 15 d) ∧ length l = 64%nat ∧
    ∀ k, (k < Z.to_nat i)%nat → entry_valid (l !!! k) = false) (λ _ _, False))|].
  - exists (d_tlb d). split; [done|]. split; [done|]. cbn. lia.
  - intros j [] d' Hj (l & -> & Hlen & Hv). apply swp_bind, swp_modify, swp_ret. eexists. split; [done|]. cbn. split; [by rewrite length_insert|].
    intros k Hk. destruct (decide (k = Z.to_nat j)) as [->|Hne].
    + rewrite list_lookup_total_insert_eq by (unfold NUM_TLB in Hj; lia). done.
    + rewrite list_lookup_total_insert_ne by done. apply Hv. lia.
  - intros [[]|[]] d'; [|done]. intros (l & -> & Hlen & Hv). apply swp_modify. exists l. split; [by destruct d|]. split; [done|].
    intros k Hk. apply Hv. unfold NUM_TLB. lia.
Qed.

Lemma invalid_tlb_ok d as_ : length (d_tlb d) = 64%nat → (∀ k, (k < 64)%nat → entry_valid (d_tlb d !!! k) = false) → tlb_ok d as_.
Proof.
  intros Hl Hv hi lo Hin Hval. apply list_elem_of_lookup in Hin as (k & Hk). specialize (Hv k ltac:(apply lookup_lt_Some in Hk; lia)).
  rewrite (list_lookup_total_correct _ _ _ Hk) in Hv. unfold entry_valid in Hv. cbn in Hv. apply negb_false_iff, Z.eqb_eq in Hv. done.
Qed.

(** ** The fault handler *)

Definition fault_post (d : dvm) (as_ : addrspace) (va r : Z) (d' : dvm) : Prop :=
  match translate as_ va with
  | None => r = EFAULT ∧ d' = d
  | Some pa =>
      (r = 0 ∧ ∃ k lo, (k < 64)%nat ∧ entry_valid (d_tlb d !!! k) = false ∧
         d' = set_tlb (<[k := (va - va mod PAGE_SIZE, lo)]> (d_tlb d)) d ∧
         Z.land lo TLBLO_VALID ≠ 0 ∧ Z.land lo PAGE_FRAME = pa) ∨
      (r = EFAULT ∧ d' = d ∧ ∀ k, (k < 64)%nat → entry_valid (d_tlb d !!! k) = true)
  end.

Lemma segment_paddr as_ va :
  regions_ok as_ → 0 ≤ va < 4294967296 →
  (∀ k, 0 < (seg_run as_ k).1 ∧ (seg_run as_ k).1 + (seg_run as_ k).2 * PAGE_SIZE ≤ 508 * 1024 * 1024) →
  let v := Z.land va PAGE_FRAME in
  (if (as_vbase1 as_ <=? v) && (v <? u32 (as_vbase1 as_ + u32 (as_npages1 as_ * PAGE_SIZE))) then Some (u32 (v - as_vbase1 as_ + as_pbase1 as_))
   else if (as_vbase2 as_ <=? v) && (v <? u32 (as_vbase2 as_ + u32 (as_npages2 as_ * PAGE_SIZE))) then Some (u32 (v - as_vbase2 as_ + as_pbase2 as_))
   else if (USERSTACK - DUMBVM_STACKPAGES * PAGE_SIZE <=? v) && (v <? USERSTACK)
        then Some (u32 (v - (USERSTACK - DUMBVM_STACKPAGES * PAGE_SIZE) + as_stackpbase as_))
   else None) = translate as_ va.
Proof.
  intros Hreg Hva Hruns v. unfold v. rewrite land_frame by done. fold PAGE_SIZE. pose proof (segment_fits as_ va) as Hfit.
  pose proof (Hruns 0%nat) as [R0 R0']. pose proof (Hruns 1%nat) as [R1 R1']. pose proof (Hruns 2%nat) as [R2 R2'].
  unfold translate, segment in *. destruct Hreg as (? & ? & ? & ? & ? & ? & ? & ?). unfold USERSTACK, MIPS_KSEG0, DUMBVM_STACKPAGES, PAGE_SIZE in *.
  rewrite !(u32_small (_ * 4096)), !(u32_small (_ + _ * 4096)) by lia. cbn [seg_run fst snd] in *. rewrite !range_bool.
  repeat case_bool_decide; cbn; [..|done]; f_equal; rewrite u32_small by (unfold DUMBVM_STACKPAGES in *; dlia); lia.
Qed.

Lemma dumbvm_fault_wp d L as_ ft va :
  dvm_ok d L → as_ ∈ L → 0 ≤ va < 4294967296 → ft = VM_FAULT_READ ∨ ft = VM_FAULT_WRITE →
  swp (vm_fault ft va (Some as_)) d (fault_post d as_ va).
Proof.
  intros Hd Hin Hva Hft. pose proof (do_regions _ _ Hd as_ Hin) as Hreg. destruct (do_ram _ _ Hd) as (_ & _ & Hram).
  pose proof (do_run d L as_ 0 Hd Hin) as R0. pose proof (do_run d L as_ 1 Hd Hin) as R1. pose proof (do_run d L as_ 2 Hd Hin) as R2.
  cbn [seg_run fst snd] in R0, R1, R2. pose proof Hreg as (? & ? & ? & ? & ? & ? & ? & ?). unfold USERSTACK, MIPS_KSEG0, DUMBVM_STACKPAGES in *.
  unfold vm_fault, d_splhigh. apply swp_bind, swp_bind, swp_gets, swp_bind, swp_modify, swp_ret. cbv zeta.
  assert ((ft =? VM_FAULT_READONLY) = false ∧ (ft =? VM_FAULT_READ) || (ft =? VM_FAULT_WRITE) = true) as [-> ->] by (by destruct Hft as [->| ->]).
  cbn [negb]. do 7 (apply swp_bind, swp_kassert; [apply negb_true_iff, Z.eqb_neq; lia|]).
  do 5 (apply swp_bind, swp_kassert; [apply aligned_frame; [tauto|unfold PAGE_SIZE in *; lia]|]).
  rewrite (segment_paddr as_ va Hreg Hva).
  2: { intros k. destruct (do_run d L as_ k Hd Hin) as (? & ? & ? & ?). split; [done|]. lia. }
  unfold fault_post. destruct (translate as_ va) as [pa|] eqn:Ht.
  2: { apply swp_bind, swp_modify, swp_ret. split; [done|by destruct d]. }
  destruct (translate_range d L as_ va pa Hd Hin (proj1 Hva) Ht) as (? & ? & ?).
  apply swp_bind, swp_kassert; [apply aligned_frame; [done|unfold PAGE_SIZE in *; lia]|]. apply swp_bind.
  eapply swp_mono; [apply (tlb_fill_wp (set_dspl 15 d)); [exact (do_tlb _ _ Hd)|done|done|cbn; lia]|].
  intros [] d'.
  - rewrite land_frame by done. fold PAGE_SIZE. intros (k & Hk & Hv & ->). apply swp_bind, swp_modify, swp_ret. left. split; [done|].
    exists k, (Z.lor (Z.lor pa TLBLO_DIRTY) TLBLO_VALID). destruct (tlb_entry pa) as [He1 He2]; [done|unfold PAGE_SIZE in *; lia|].
    split_and!; try done.
  - intros [-> Hv]. apply swp_bind, swp_modify, swp_ret. right. split; [done|]. split; [by destruct d|done].
Qed.

(** ** Loading and copying *)

(** Nothing but the memory left has changed. *)
Definition same_but_ram (d d' : dvm) : Prop := d_mem d' = d_mem d ∧ d_tlb d' = d_tlb d ∧ d_spl d' = d_spl d.

Lemma getppages_wp d n :
  ram_ok (d_ram d) → 0 < n ≤ 524288 →
  swp (getppages n) d (λ a d', same_but_ram d d' ∧ ram_ok (d_ram d') ∧
    ((a = 0 ∧ d_ram d' = d_ram d) ∨ (a = firstpaddr (d_ram d) ∧ a ≠ 0 ∧ firstpaddr (d_ram d') = a + n * PAGE_SIZE))).
Proof.
  intros Hr Hn. unfold getppages, d_splhigh. apply swp_bind, swp_bind, swp_gets, swp_bind, swp_modify, swp_ret, swp_bind.
  unfold swp at 1. pose proof (ram_stealmem_ok (d_ram d) n Hr Hn) as Hs. apply swp_Done in Hs as (a & r & E & Hpost).
  change (d_ram (set_dspl 15 d)) with (d_ram d). rewrite E. cbn. apply swp_bind, swp_modify, swp_ret. split; [done|]. cbn.
  destruct Hpost as [[-> ->]|(-> & Hf & Hr')]; [split; [done|by left]|]. split; [done|]. right. split; [done|]. destruct Hr. split; [lia|done].
Qed.

(** An address space whose regions are defined and which is not loaded. *)
Definition unloaded (as_ : addrspace) : Prop := regions_ok as_ ∧ as_pbase1 as_ = 0 ∧ as_pbase2 as_ = 0 ∧ as_stackpbase as_ = 0.

Definition loaded (d : dvm) (L : list addrspace) (as_ : addrspace) (x : Z * addrspace) (d' : dvm) : Prop :=
  same_but_ram d d' ∧ firstpaddr (d_ram d) ≤ firstpaddr (d_ram d') ∧
  ((x.1 = 0 ∧ same_regions x.2 as_ ∧ dvm_ok d' (x.2 :: L) ∧ ∀ k, firstpaddr (d_ram d) ≤ (seg_run x.2 k).1) ∨ (x.1 = ENOMEM ∧ dvm_ok d' L)).

Lemma dvm_ok_runs d d' L : dvm_ok d L → same_but_ram d d' → ram_ok (d_ram d') → firstpaddr (d_ram d) ≤ firstpaddr (d_ram d') → dvm_ok d' L.
Proof. intros [? ? ? Hr] (_ & Ht & _) Hram Hle. split; [done|by rewrite Ht|done|]. by eapply runs_ok_mono. Qed.

Lemma same_but_ram_trans d1 d2 d3 : same_but_ram d1 d2 → same_but_ram d2 d3 → same_but_ram d1 d3.
Proof. intros (? & ? & ?) (? & ? & ?). split_and!; congruence. Qed.

Lemma dumbvm_prepare_load_wp d L as_ : dvm_ok d L → unloaded as_ → swp (as_prepare_load as_) d (loaded d L as_).
Proof.
  intros Hd (Hreg & H1 & H2 & H3). pose proof Hreg as (? & ? & ? & ? & ? & ? & ? & ?). unfold as_prepare_load. rewrite H1, H2, H3.
  do 3 (apply swp_bind, swp_kassert; [done|]). unfold USERSTACK, MIPS_KSEG0, PAGE_SIZE in *.
  apply swp_bind. eapply swp_mono; [apply getppages_wp; [exact (do_ram _ _ Hd)|lia]|]. intros p1 d1 (S1 & R1 & C1). cbv zeta. cbn [as_npages2 as_vbase1 as_pbase1 as_npages1 as_vbase2 as_pbase2 as_stackpbase].
  destruct C1 as [[-> E1]|(-> & Hn1 & E1)].
  { apply swp_ret. split; [done|]. rewrite E1. split; [done|]. right. split; [done|]. eapply dvm_ok_runs; [done..|]. by rewrite E1. }
  rewrite (proj2 (Z.eqb_neq _ _)) by done.
  apply swp_bind. eapply swp_mono; [apply getppages_wp; [done|lia]|]. intros p2 d2 (S2 & R2 & C2). unfold PAGE_SIZE in *.
  destruct C2 as [[-> E2]|(-> & Hn2 & E2)].
  { apply swp_ret. split; [by eapply same_but_ram_trans|]. rewrite E2. split; [lia|]. right. split; [done|].
    eapply dvm_ok_runs; [done|by eapply same_but_ram_trans|by rewrite E2|rewrite E2; lia]. }
  rewrite (proj2 (Z.eqb_neq _ _)) by done.
  apply swp_bind. eapply swp_mono; [apply getppages_wp; [done|unfold DUMBVM_STACKPAGES; lia]|]. intros p3 d3 (S3 & R3 & C3). unfold PAGE_SIZE, DUMBVM_STACKPAGES in *.
  pose proof (same_but_ram_trans _ _ _ (same_but_ram_trans _ _ _ S1 S2) S3) as S123.
  destruct C3 as [[-> E3]|(-> & Hn3 & E3)].
  { apply swp_ret. split; [done|]. rewrite E3. split; [lia|]. right. split; [done|].
    eapply dvm_ok_runs; [done|done|by rewrite E3|rewrite E3; lia]. }
  rewrite (proj2 (Z.eqb_neq _ _)) by done. apply swp_ret. split; [done|]. split; [lia|]. left. split; [done|]. split; [done|].
  split; [|intros [|[|k]]; cbn; lia]. split; [done| |..].
  - destruct S123 as (_ & -> & _). exact (do_tlb _ _ Hd).
  - intros b [->|Hb]%elem_of_cons; [done|by apply (do_regions _ _ Hd)].
  - destruct (do_ram _ _ Hd) as (? & ? & _). destruct R1 as (? & ? & _), R2 as (? & ? & _). cbn [fmap list_fmap concat as_runs seg_run app].
    rewrite E3. apply (runs_ok_push _ 12); [|done..|lia]. rewrite E2 at 1. apply (runs_ok_push _ _); [|done..|cbn; lia].
    rewrite E1 at 1. apply (runs_ok_push _ _); [|done..|cbn; lia]. exact (do_runs _ _ Hd).
Qed.

Definition move (m : Z → Z) (dst src len : Z) : Z → Z := λ a, if (dst <=? a) && (a <? dst + len) then m (src + (a - dst)) else m a.

Lemma move_in m dst src len x : 0 ≤ x < len → move m dst src len (dst + x) = m (src + x).
Proof. intros Hx. unfold move. rewrite range_bool, bool_decide_true by lia. f_equal. lia. Qed.
Lemma move_out m dst src len a : a < dst ∨ dst + len ≤ a → move m dst src len a = m a.
Proof. intros Ha. unfold move. rewrite range_bool, bool_decide_false by lia. done. Qed.

(** Three copies from runs to runs that overlap neither each other nor the sources. *)
Lemma moves_spec m (dst src : nat → Z) (len : nat → Z) :
  (∀ k, (k < 3)%nat → 0 ≤ len k) →
  (∀ k l, (k < 3)%nat → (l < 3)%nat → k ≠ l → dst k + len k ≤ dst l ∨ dst l + len l ≤ dst k) →
  (∀ k l, (k < 3)%nat → (l < 3)%nat → dst k + len k ≤ src l ∨ src l + len l ≤ dst k) →
  let m' := move (move (move m (dst 0%nat) (src 0%nat) (len 0%nat)) (dst 1%nat) (src 1%nat) (len 1%nat)) (dst 2%nat) (src 2%nat) (len 2%nat) in
  (∀ k x, (k < 3)%nat → 0 ≤ x < len k → m' (dst k + x) = m (src k + x)) ∧
  (∀ a, (∀ k, (k < 3)%nat → a < dst k ∨ dst k + len k ≤ a) → m' a = m a).
Proof.
  intros Hlen Hdd Hds m'. pose proof (Hdd 0%nat 1%nat ltac:(lia) ltac:(lia) ltac:(lia)). pose proof (Hdd 0%nat 2%nat ltac:(lia) ltac:(lia) ltac:(lia)).
  pose proof (Hdd 1%nat 2%nat ltac:(lia) ltac:(lia) ltac:(lia)). pose proof (Hds 0%nat 1%nat ltac:(lia) ltac:(lia)).
  pose proof (Hds 0%nat 2%nat ltac:(lia) ltac:(lia)). pose proof (Hds 1%nat 2%nat ltac:(lia) ltac:(lia)).
  pose proof (Hlen 0%nat ltac:(lia)). pose proof (Hlen 1%nat ltac:(lia)). pose proof (Hlen 2%nat ltac:(lia)). split.
  - intros [|[|[|k]]] x Hk Hx; [..|lia]; unfold m'.
    + by rewrite (move_out _ (dst 2%nat)), (move_out _ (dst 1%nat)), move_in by lia.
    + rewrite (move_out _ (dst 2%nat)), move_in by lia. by rewrite move_out by lia.
    + rewrite move_in by lia. by rewrite !move_out by lia.
  - intros a Ha. unfold m'. pose proof (Ha 0%nat ltac:(lia)). pose proof (Ha 1%nat ltac:(lia)). pose proof (Ha 2%nat ltac:(lia)).
    by rewrite !move_out by lia.
Qed.

(** What [as_copy] has done. *)
Definition copied (d : dvm) (L : list addrspace) (old : addrspace) (r : res addrspace) (d' : dvm) : Prop :=
  d_tlb d' = d_tlb d ∧ d_spl d' = d_spl d ∧
  match r with
  | Err e => e = ENOMEM ∧ dvm_ok d' L ∧ d_mem d' = d_mem d
  | Ok new =>
      same_regions new old ∧ dvm_ok d' (new :: L) ∧
      (∀ va p off, 0 ≤ va → 0 ≤ off < PAGE_SIZE → translate old va = Some p →
         ∃ q, translate new va = Some q ∧ d_mem d' (MIPS_KSEG0 + q + off) = d_mem d (MIPS_KSEG0 + p + off)) ∧
      (∀ as_ va p off, as_ ∈ L → 0 ≤ va → 0 ≤ off < PAGE_SIZE → translate as_ va = Some p →
         d_mem d' (MIPS_KSEG0 + p + off) = d_mem d (MIPS_KSEG0 + p + off))
  end.

Lemma seg_kvaddr d L as_ k : dvm_ok d L → as_ ∈ L → PADDR_TO_KVADDR (seg_run as_ k).1 = MIPS_KSEG0 + (seg_run as_ k).1.
Proof.
  intros Hd Hin. destruct (do_run d L as_ k Hd Hin) as (? & ? & ? & ?). destruct (do_ram _ _ Hd) as (_ & _ & ?).
  unfold PADDR_TO_KVADDR. rewrite u32_small by (unfold PAGE_SIZE, MIPS_KSEG0 in *; lia). lia.
Qed.

Lemma copy_segments d d' L old new :
  dvm_ok d L → dvm_ok d' (new :: L) → same_regions new old → old ∈ L →
  let dst k := MIPS_KSEG0 + (seg_run new k).1 in let src k := MIPS_KSEG0 + (seg_run old k).1 in
  let len k := (seg_run old k).2 * PAGE_SIZE in
  let m' := move (move (move (d_mem d) (dst 0%nat) (src 0%nat) (len 0%nat)) (dst 1%nat) (src 1%nat) (len 1%nat)) (dst 2%nat) (src 2%nat) (len 2%nat) in
  (∀ va p off, 0 ≤ va → 0 ≤ off < PAGE_SIZE → translate old va = Some p →
     ∃ q, translate new va = Some q ∧ m' (MIPS_KSEG0 + q + off) = d_mem d (MIPS_KSEG0 + p + off)) ∧
  (∀ as_ va p off, as_ ∈ L → 0 ≤ va → 0 ≤ off < PAGE_SIZE → translate as_ va = Some p →
     m' (MIPS_KSEG0 + p + off) = d_mem d (MIPS_KSEG0 + p + off)).
Proof.
  intros Hd Hd' Hsame Hold dst src len m'. apply list_elem_of_lookup in Hold as (j & Hj). pose proof Hsame as (_ & Hn1 & _ & Hn2).
  assert (∀ k, (seg_run new k).2 = (seg_run old k).2) as Hlen by (intros [|[|k]]; cbn; done).
  assert (old ∈ L) as Hold by (by eapply list_elem_of_lookup_2).
  destruct (moves_spec (d_mem d) dst src len) as [Hin Hout].
  - intros k _. unfold len. destruct (do_run d L old k Hd Hold) as (? & ? & ? & ?). unfold PAGE_SIZE. lia.
  - intros k l Hk Hl Hne. unfold dst, len. destruct (seg_apart d' (new :: L) 0 0 new new k l Hd' eq_refl eq_refl Hk Hl) as [E|E]; [congruence|..];
      rewrite ?Hlen in *; lia.
  - intros k l Hk Hl. unfold dst, src, len. destruct (seg_apart d' (new :: L) 0 (S j) new old k l Hd' eq_refl Hj Hk Hl) as [E|E]; [congruence|..];
      rewrite ?Hlen in *; lia.
  - split.
    + intros va p off Hva Hoff Ht. unfold translate in *. rewrite (same_regions_segment new old va Hsame).
      destruct (segment old va) as [[k o]|] eqn:Hs; [|done]. injection Ht as <-. eexists. split; [done|].
      destruct (segment_fits _ _ _ _ Hs (do_regions _ _ Hd _ Hold) Hva) as (? & ? & ?).
      specialize (Hin k (o + off) (segment_lt _ _ _ _ Hs) ltac:(unfold len; lia)). unfold dst, src in Hin. rewrite <- !Z.add_assoc in *. exact Hin.
    + intros a va p off Ha Hva Hoff Ht. apply Hout. intros k Hk. apply list_elem_of_lookup in Ha as (i & Hi).
      unfold translate in Ht. destruct (segment a va) as [[l o]|] eqn:Hs; [|done]. injection Ht as <-.
      destruct (segment_fits _ _ _ _ Hs (do_regions _ _ Hd a ltac:(by eapply list_elem_of_lookup_2)) Hva) as (? & ? & ?).
      destruct (seg_apart d' (new :: L) 0 (S i) new a k l Hd' eq_refl Hi Hk (segment_lt _ _ _ _ Hs)) as [E|E]; [congruence|..];
        unfold dst, len; rewrite ?Hlen in *; lia.
Qed.

Lemma as_copy_wp d L old ok : dvm_ok d L → old ∈ L → swp (as_copy old ok) d (copied d L old).
Proof.
  intros Hd Hold. unfold as_copy. destruct ok; cbn [as_create]; [|by apply swp_ret]. cbv zeta. cbn [as_pbase1 as_pbase2 as_stackpbase].
  set (new0 := mkAs _ _ _ _ _ _ _). assert (unloaded new0) as Hun by (split; [exact (do_regions _ _ Hd _ Hold)|done]).
  apply swp_bind. eapply swp_mono; [by apply (dumbvm_prepare_load_wp d L)|].
  intros [e new] d1 ((Hm & Ht & Hs) & Hle & [(He & Hsame & Hd1 & Hnew)|[He Hd1]]); cbn in He; subst e; cbn [Z.eqb negb].
  2: { apply swp_ret. by split_and!. }
  assert (new ∈ new :: L) as Hin by left.
  pose proof (do_run d1 _ new 0 Hd1 Hin) as (N0 & _). pose proof (do_run d1 _ new 1 Hd1 Hin) as (N1 & _). pose proof (do_run d1 _ new 2 Hd1 Hin) as (N2 & _).
  cbn [seg_run fst] in N0, N1, N2. do 3 (apply swp_bind, swp_kassert; [apply negb_true_iff, Z.eqb_neq; lia|]).
  pose proof (seg_kvaddr d1 _ new 0 Hd1 Hin) as K0. pose proof (seg_kvaddr d1 _ new 1 Hd1 Hin) as K1. pose proof (seg_kvaddr d1 _ new 2 Hd1 Hin) as K2.
  pose proof (seg_kvaddr d L old 0 Hd Hold) as O0. pose proof (seg_kvaddr d L old 1 Hd Hold) as O1. pose proof (seg_kvaddr d L old 2 Hd Hold) as O2.
  cbn [seg_run fst] in K0, K1, K2, O0, O1, O2. rewrite K0, K1, K2, O0, O1, O2.
  destruct (do_regions _ _ Hd _ Hold) as (_ & _ & ? & ? & ? & ? & ? & ?).
  rewrite !(u32_small (_ * PAGE_SIZE)) by (unfold USERSTACK, MIPS_KSEG0, PAGE_SIZE in *; lia).
  apply swp_bind, swp_modify, swp_bind, swp_modify, swp_bind, swp_modify, swp_ret. split; [done|]. split; [done|].
  assert (same_regions new old) as Hso by exact Hsame.
  destruct (copy_segments d d1 L old new Hd Hd1 Hso Hold) as [Hc1 Hc2]. cbv zeta in Hc1, Hc2.
  rewrite <- Hm in Hc1, Hc2. rewrite <- Hm. split; [done|]. split; [by destruct Hd1; split|]. split; [exact Hc1|exact Hc2].
Qed.

(** ** Properties *)

(** [C9] Under dumbvm address spaces are isolated.  Distinct loaded address
    spaces have no frame in common.  [as_activate] leaves no valid entry in the
    TLB, so every entry is a translation of the new address space, and
    [vm_fault] keeps it so: a fault inside a region writes the right translation
    to a free entry, a fault outside answers EFAULT and changes nothing.
    [as_prepare_load] gives an address space memory nobody has, and [as_copy]
    makes a copy with the same content in memory of its own, leaving the memory
    of all address spaces as it was; both fail only with ENOMEM. *)
Theorem dumbvm_isolates (d : dvm) (L : list addrspace) :
  dvm_ok d L →
  (∀ i j a b va vb p q, L !! i = Some a → L !! j = Some b → i ≠ j → 0 ≤ va → 0 ≤ vb →
     translate a va = Some p → translate b vb = Some q → p + PAGE_SIZE ≤ q ∨ q + PAGE_SIZE ≤ p) ∧
  swp as_activate d (λ _ d', dvm_ok d' L ∧ d_mem d' = d_mem d ∧ ∀ as_, tlb_ok d' as_) ∧
  (∀ as_ ft va, as_ ∈ L → 0 ≤ va < 4294967296 → ft = VM_FAULT_READ ∨ ft = VM_FAULT_WRITE → tlb_ok d as_ →
     swp (vm_fault ft va (Some as_)) d (λ r d', fault_post d as_ va r d' ∧ dvm_ok d' L ∧ tlb_ok d' as_)) ∧
  (∀ as_, unloaded as_ → swp (as_prepare_load as_) d (loaded d L as_)) ∧
  (∀ old ok, old ∈ L → swp (as_copy old ok) d (copied d L old)).
Proof.
  intros Hd. split_and!.
  - intros. by eapply (translate_apart d L i j a b va vb).
  - eapply swp_mono; [by apply as_activate_wp, (do_tlb _ _ Hd)|]. intros _ d' (l & -> & Hl & Hv).
    split; [by destruct Hd; split|]. split; [done|]. intros as_. by apply invalid_tlb_ok.
  - intros as_ ft va Hin Hva Hft Htlb. eapply swp_mono; [by apply (dumbvm_fault_wp d L)|]. intros r d' Hp. split; [done|].
    unfold fault_post in Hp. destruct (translate as_ va) as [pa|] eqn:Ht; [|by destruct Hp as [_ ->]].
    destruct Hp as [(_ & k & lo & Hk & _ & -> & Hval & Hfr)|(_ & -> & _)]; [|done]. split.
    + destruct Hd. split; try done. cbn. by rewrite length_insert.
    + apply (tlb_ok_insert d as_ k _ lo pa); [done| |done]. rewrite <- Ht. unfold translate, segment.
      assert ((va - va mod PAGE_SIZE) mod PAGE_SIZE = 0) as -> by (unfold PAGE_SIZE; dlia). by rewrite Z.sub_0_r.
  - intros as_. by apply dumbvm_prepare_load_wp.
  - intros old ok. by apply as_copy_wp.
Qed.

(** A machine with 1 MB, and the address space of a program with a text region of
    two pages at 0x400000 and a data region of one page at 0x10000000. *)
Definition dvm0 : dvm := mkDvm (ram_bootstrap (MIPS_KSEG0 + 65536) 1048576) (λ a, a) (replicate 64 (0, 0)) 0.
Definition prog : addrspace := snd (as_define_region (snd (as_define_region (mkAs 0 0 0 0 0 0 0) 4194304 5000)) 268435456 100).
Definition dvm_loaded : addrspace * dvm :=
  match as_prepare_load prog dvm0 with Done ((_, a), d) => (a, d) | _ => (prog, dvm0) end.

Lemma dvm_loaded_ok : dvm_ok dvm_loaded.2 [dvm_loaded.1].
Proof.
  assert (dvm_ok dvm0 []) as H0 by (split; [done..|by intros ? ?%elem_of_nil|done]).
  assert (unloaded prog) as Hun by (by vm_compute).
  pose proof (dumbvm_prepare_load_wp dvm0 [] prog H0 Hun) as Hw. unfold swp in Hw. unfold dvm_loaded.
  destruct (as_prepare_load prog dvm0) as [[[e a] d]| | |] eqn:E; [|done..]. cbn in Hw.
  destruct Hw as (_ & _ & [(_ & _ & Hok & _)|[He _]]); [done|]. cbn in He. exfalso.
  assert ((match as_prepare_load prog dvm0 with Done ((e, _), _) => e | _ => 1 end) = 0) as Hz by (by vm_compute).
  rewrite E in Hz. cbn in Hz. by rewrite Hz in He.
Qed.

Lemma dumbvm_isolates_witness :
  translate dvm_loaded.1 4198399 = Some 65536 ∧ translate dvm_loaded.1 2147483647 = Some (65536 + 14 * 4096) ∧
  swp (as_copy dvm_loaded.1 true) dvm_loaded.2 (copied dvm_loaded.2 [dvm_loaded.1] dvm_loaded.1).
Proof.
  split; [by vm_compute|]. split; [by vm_compute|].
  exact (proj2 (proj2 (proj2 (proj2 (dumbvm_isolates dvm_loaded.2 [dvm_loaded.1] dvm_loaded_ok)))) dvm_loaded.1 true ltac:(by left)).
Defined.
