(* ===== verification/Coremap.v ===== *)
(** * The coremap (vm/addrspace.c)

    The page frames of the machine under the kernel's own virtual memory
    system: their map, the first-fit search for free frames, and the pages of
    the kernel heap.  All functions run with interrupts off and leave the
    interrupt level as it was. *)

From S2P Require Import Prelude Kpages.

(** ** Data *)

Record coremapEntry := mkEntry { allocated : Z; paddr_base : Z }.

#[export] Instance coremapEntry_inhabited : Inhabited coremapEntry := populate (mkEntry 0 0).

Record cmap := mkCmap {
  coremap : list coremapEntry;
  numCoremapEntry : Z;
  pageFrameStart_pa : Z;
  pageFrameEnd_pa : Z;
  beforeVM : Z;
  NPAGES : Z;
  cm_ram : ram;
}.

Definition set_coremap (l : list coremapEntry) (c : cmap) : cmap :=
  mkCmap l (numCoremapEntry c) (pageFrameStart_pa c) (pageFrameEnd_pa c) (beforeVM c) (NPAGES c) (cm_ram c).
Definition set_NPAGES (n : Z) (c : cmap) : cmap :=
  mkCmap (coremap c) (numCoremapEntry c) (pageFrameStart_pa c) (pageFrameEnd_pa c) (beforeVM c) n (cm_ram c).
Definition set_cm_ram (r : ram) (c : cmap) : cmap :=
  mkCmap (coremap c) (numCoremapEntry c) (pageFrameStart_pa c) (pageFrameEnd_pa c) (beforeVM c) (NPAGES c) r.

(** Before the virtual memory system is up. *)
Definition cmap0 (r : ram) : cmap := mkCmap [] 0 0 0 1 0 r.

Definition ROUND_DOWN (address size : Z) : Z := u32 (address - address mod size).
Definition ROUND_UP (address size : Z) : Z := u32 (address - address mod size + size).

(** ** The code *)

(** A coremap entry has 8 bytes. *)
Definition vm_bootstrap : stm cmap unit := λ c,
  '((low, high), r) ← ram_getsize (cm_ram c);
  divisibleAddr_incl_cm ← to_int (ROUND_DOWN (u32 (high - low)) PAGE_SIZE);
  let nFrames_pre := divisibleAddr_incl_cm / PAGE_SIZE in
  coremapSize ← to_int (nFrames_pre * 8);
  let pageFrameStart := ROUND_UP (u32 (low + coremapSize)) PAGE_SIZE in
  totalPageFrameSize ← to_int (ROUND_DOWN (u32 (high - pageFrameStart)) PAGE_SIZE);
  let totalPageFrameNum := totalPageFrameSize / PAGE_SIZE in
  Done (tt, mkCmap ((λ i, mkEntry 0 (u32 (pageFrameStart + Z.of_nat i * PAGE_SIZE))) <$> seq 0 (Z.to_nat totalPageFrameNum))
              totalPageFrameNum pageFrameStart (u32 (pageFrameStart + totalPageFrameSize)) 0 (NPAGES c) r).

(** The loop of [getppages] from frame [i] on: the count that is left, and the
    frames found; the two indices are not initialised before the loop. *)
Fixpoint getppages_scan (l : list coremapEntry) (i npages count : Z) : Z * option (Z * Z) :=
  match l with
  | [] => (count, None)
  | e :: l =>
      if count =? 0 then (count, Some (i - npages, i - 1))
      else if allocated e =? 0 then getppages_scan l (i + 1) npages (count - 1)
      else getppages_scan l (i + 1) npages npages
  end.

Fixpoint mark_frames (n : nat) (i : Z) (l : list coremapEntry) : outcome (list coremapEntry) :=
  match n with
  | O => Done l
  | S n =>
      if i <? 0 then Undef
      else match l !! Z.to_nat i with
           | None => Undef
           | Some e => mark_frames n (i + 1) (<[Z.to_nat i := mkEntry 1 (paddr_base e)]> l)
           end
  end.

Definition getppages (npages : Z) : stm cmap Z := λ c,
  if beforeVM c =? 1 then
    '(a, r) ← ram_stealmem npages (cm_ram c); Done (a, set_cm_ram r c)
  else
    match getppages_scan (take (Z.to_nat (numCoremapEntry c)) (coremap c)) 0 npages npages with
    | (_, None) => Undef
    | (count, Some (startPageFrameInd, endPageFrameInd)) =>
        l ← (if negb (count =? 0) then Done (coremap c)
             else mark_frames (Z.to_nat (endPageFrameInd + 1 - startPageFrameInd)) startPageFrameInd (coremap c));
        match l !! Z.to_nat startPageFrameInd with
        | None => Undef
        | Some e => Done (paddr_base e, set_NPAGES npages (set_coremap l c))
        end
    end.

Definition cm_alloc_kpages (npages : Z) : stm cmap Z :=
  pa ← getppages npages;
  if pa =? 0 then mret 0 else mret (PADDR_TO_KVADDR pa).

Definition alloc_upages (npages : Z) : stm cmap Z :=
  pa ← getppages npages;
  if pa =? 0 then mret 0 else mret pa.

(** The first [numCoremapEntry] entries are marked free. *)
Definition clear_coremap (c : cmap) : cmap :=
  set_coremap (((λ e, mkEntry 0 (paddr_base e)) <$> take (Z.to_nat (numCoremapEntry c)) (coremap c)) ++
               drop (Z.to_nat (numCoremapEntry c)) (coremap c)) c.

Definition cm_free_kpages (addr : Z) : stm cmap unit := modify clear_coremap.
Definition free_coremap : stm cmap unit := modify clear_coremap.

#[export] Instance coremap_kpages : KPages cmap :=
  { alloc_kpages := cm_alloc_kpages; free_kpages := cm_free_kpages }.

(** [num_empty_cm] counts in a variable that is not initialised. *)
Definition num_empty_cm : stm cmap Z := lift Undef.

(** ** First fit *)

Definition is_free (l : list coremapEntry) (i : nat) : Prop := ∃ e, l !! i = Some e ∧ allocated e = 0.

(** [n] free frames from [s] on, with one more frame behind them. *)
Definition free_run (l : list coremapEntry) (s n : nat) : Prop :=
  (s + n < length l)%nat ∧ ∀ i, (s ≤ i < s + n)%nat → is_free l i.

(** The search after [i] frames: the last [n - count] of them are free, and no
    run that starts before those is free. *)
Definition scanned (l : list coremapEntry) (n i count : nat) : Prop :=
  (count ≤ n)%nat ∧ (n - count ≤ i)%nat ∧ (∀ k, (i - (n - count) ≤ k < i)%nat → is_free l k) ∧
  (∀ s, (s < i - (n - count))%nat → ∃ k, (s ≤ k < s + n)%nat ∧ (k < i)%nat ∧ ¬ is_free l k).

Lemma scan_spec l n i count :
  scanned l n i count → (i ≤ length l)%nat →
  match getppages_scan (drop i l) (Z.of_nat i) (Z.of_nat n) (Z.of_nat count) with
  | (c, Some (a, b)) => c = 0 ∧ ∃ s, a = Z.of_nat s ∧ b = Z.of_nat s + Z.of_nat n - 1 ∧ free_run l s n ∧ ∀ s', (s' < s)%nat → ¬ free_run l s' n
  | (_, None) => ∀ s, ¬ free_run l s n
  end.
Proof.
  remember (length l - i)%nat as m eqn:Hm. revert i count Hm. induction m as [|m IH]; intros i count Hm (H1 & H2 & H3 & H4) Hi.
  - rewrite drop_ge by lia. cbn. intros s [Hlt Hs]. destruct (decide (s < i - (n - count))%nat) as [Hb|]; [|lia].
    destruct (H4 s Hb) as (k & Hk & _ & Hnf). by apply Hnf, Hs.
  - destruct (lookup_lt_is_Some_2 l i) as [e He]; [lia|]. rewrite (drop_S _ _ _ He). cbn [getppages_scan].
    replace (Z.of_nat i + 1) with (Z.of_nat (S i)) by lia. destruct (Z.eqb_spec (Z.of_nat count) 0) as [H0|H0].
    + split; [done|]. exists (i - n)%nat. split; [lia|]. split; [lia|]. split.
      * split; [lia|]. intros k Hk. apply H3. lia.
      * intros s' Hs' [_ Hf]. destruct (H4 s') as (k & Hk & _ & Hnf); [lia|]. by apply Hnf, Hf.
    + destruct (Z.eqb_spec (allocated e) 0) as [Ha|Ha].
      * replace (Z.of_nat count - 1) with (Z.of_nat (count - 1)) by lia. apply IH; [lia| |lia]. split; [lia|]. split; [lia|]. split.
        -- intros k Hk. destruct (decide (k = i)) as [->|]; [by exists e|]. apply H3. lia.
        -- intros s Hs. destruct (H4 s) as (k & ? & ? & ?); [lia|]. exists k. split; [done|]. split; [lia|done].
      * apply IH; [lia| |lia]. split; [done|]. split; [lia|]. split; [intros k Hk; lia|]. intros s Hs.
        destruct (decide (s < i - (n - count))%nat) as [Hb|Hb].
        -- destruct (H4 s Hb) as (k & ? & ? & ?). exists k. split; [done|]. split; [lia|done].
        -- exists i. split; [lia|]. split; [lia|]. intros (e' & He' & ?). congruence.
Qed.

Lemma mark_frames_spec n s l :
  (s + n ≤ length l)%nat →
  ∃ l', mark_frames n (Z.of_nat s) l = Done l' ∧ length l' = length l ∧
    (∀ k, (s ≤ k < s + n)%nat → ∃ e, l !! k = Some e ∧ l' !! k = Some (mkEntry 1 (paddr_base e))) ∧
    (∀ k, (k < s ∨ s + n ≤ k)%nat → l' !! k = l !! k).
Proof.
  revert s l. induction n as [|n IH]; intros s l Hn; cbn [mark_frames].
  - exists l. split; [done|]. split; [done|]. split; [intros k; lia|done].
  - rewrite (proj2 (Z.ltb_ge _ _)), Nat2Z.id by lia. destruct (lookup_lt_is_Some_2 l s) as [e He]; [lia|]. rewrite He.
    replace (Z.of_nat s + 1) with (Z.of_nat (S s)) by lia.
    destruct (IH (S s) (<[s := mkEntry 1 (paddr_base e)]> l)) as (l' & E & Hl & Hin & Hout); [rewrite length_insert; lia|].
    exists l'. split; [done|]. split; [by rewrite Hl, length_insert|]. split.
    + intros k Hk. destruct (decide (k = s)) as [->|Hne].
      * exists e. split; [done|]. rewrite Hout by lia. by rewrite list_lookup_insert_eq by lia.
      * destruct (Hin k) as (e' & He' & Hk'); [lia|]. rewrite list_lookup_insert_ne in He' by done. eauto.
    + intros k Hk. rewrite Hout by lia. by rewrite list_lookup_insert_ne by lia.
Qed.

(** ** The invariant of the coremap *)

Definition frame_addr (c : cmap) (i : nat) : Z := pageFrameStart_pa c + Z.of_nat i * PAGE_SIZE.

(** The frames are consecutive pages between the coremap and the end of memory. *)
Record cm_ok (c : cmap) : Prop := {
  co_vm : beforeVM c = 0;
  co_len : Z.of_nat (length (coremap c)) = numCoremapEntry c;
  co_addr i e : coremap c !! i = Some e → paddr_base e = frame_addr c i;
  co_flag i e : coremap c !! i = Some e → allocated e = 0 ∨ allocated e = 1;
  co_start : 0 < pageFrameStart_pa c ∧ pageFrameStart_pa c mod PAGE_SIZE = 0 ∧
    pageFrameStart_pa c + numCoremapEntry c * PAGE_SIZE ≤ 508 * 1024 * 1024;
}.

(** A frame that is handed out. *)
Definition used_frame (c : cmap) (i : nat) : Prop := ∃ e, coremap c !! i = Some e ∧ allocated e = 1.

(** What [getppages n] has done: it took the first [n] free frames in a row. *)
Definition took (c : cmap) (n s : nat) (c' : cmap) : Prop :=
  cm_ok c' ∧ pageFrameStart_pa c' = pageFrameStart_pa c ∧ numCoremapEntry c' = numCoremapEntry c ∧ free_run (coremap c) s n ∧
  (∀ s', (s' < s)%nat → ¬ free_run (coremap c) s' n) ∧
  (∀ i, used_frame c' i ↔ used_frame c i ∨ (s ≤ i < s + n)%nat).

Lemma getppages_scan_eq c n :
  cm_ok c → getppages_scan (take (Z.to_nat (numCoremapEntry c)) (coremap c)) 0 (Z.of_nat n) (Z.of_nat n) =
            getppages_scan (drop 0 (coremap c)) (Z.of_nat 0) (Z.of_nat n) (Z.of_nat n).
Proof. intros Hc. rewrite <- (co_len _ Hc), Nat2Z.id, take_ge by lia. done. Qed.

Lemma scanned_start l n : scanned l n 0 n.
Proof. split; [done|]. split; [lia|]. split; intros ? ?; lia. Qed.

Lemma getppages_took c n s0 :
  cm_ok c → (0 < n)%nat → free_run (coremap c) s0 n →
  swp (getppages (Z.of_nat n)) c (λ a c', ∃ s, a = frame_addr c s ∧ took c n s c').
Proof.
  intros Hc Hn Hfree. unfold getppages, swp. rewrite (co_vm _ Hc). cbn [Z.eqb].
  rewrite getppages_scan_eq by done. pose proof (scan_spec (coremap c) n 0 n (scanned_start _ n) ltac:(lia)) as Hscan.
  destruct (getppages_scan _ _ _ _) as [cnt [[a b]|]]; [|by destruct (Hscan s0)].
  destruct Hscan as (-> & s & -> & -> & Hrun & Hfirst). cbn [Z.eqb negb].
  replace (Z.to_nat (Z.of_nat s + Z.of_nat n - 1 + 1 - Z.of_nat s)) with n by lia. destruct Hrun as [Hlt Hall].
  destruct (mark_frames_spec n s (coremap c)) as (l & E & Hl & Hin & Hout); [lia|]. rewrite E. cbn. rewrite Nat2Z.id.
  destruct (Hin s) as (e & He & He'); [lia|]. rewrite He'. cbn. exists s. split; [by apply (co_addr _ Hc)|].
  destruct Hc as [H1 H2 H3 H4 H5].
  assert (∀ i e, l !! i = Some e → ∃ e', coremap c !! i = Some e' ∧ paddr_base e = paddr_base e' ∧ (allocated e = 1 ∨ allocated e = allocated e')) as Hl'.
  { intros i e0 Hi. destruct (decide (s ≤ i < s + n)%nat) as [Hr|Hr].
    - destruct (Hin i Hr) as (e' & ? & Hi'). rewrite Hi' in Hi. injection Hi as <-. exists e'. split; [done|]. split; [done|by left].
    - rewrite Hout in Hi by lia. exists e0. split; [done|]. split; [done|by right]. }
  split_and!; try done.
  - split; cbn; try done; [by rewrite Hl|..].
    + intros i e0 (e' & He0 & -> & _)%Hl'. by apply H3.
    + intros i e0 (e' & He0 & _ & Ha)%Hl'. destruct (H4 i e' He0); lia.
  - intros i. unfold used_frame. cbn. destruct (decide (s ≤ i < s + n)%nat) as [Hr|Hr].
    + destruct (Hin i Hr) as (e' & Hi & Hi'). split; [by right|]. intros _. rewrite Hi'. eauto.
    + rewrite Hout by lia. intuition lia.
Qed.

Lemma free_not_used c k : cm_ok c → is_free (coremap c) k ↔ (k < length (coremap c))%nat ∧ ¬ used_frame c k.
Proof.
  intros Hc. split.
  - intros (e & He & Ha). split; [by eapply lookup_lt_Some|]. intros (e' & He' & Ha'). congruence.
  - intros [Hlt Hnu]. destruct (lookup_lt_is_Some_2 _ _ Hlt) as [e He]. exists e. split; [done|].
    destruct (co_flag _ Hc k e He); [done|]. destruct Hnu. by exists e.
Qed.

(** Taking the first [n] frames leaves the rest of a run that was free. *)
Lemma took_leaves c n m s i c' : cm_ok c → took c n i c' → free_run (coremap c) s (n + m) → free_run (coremap c') (s + n) m.
Proof.
  intros Hc (Hc' & _ & Hnum & [Hlt Hall] & Hfirst & Hused) [Hlt' Hall'].
  assert (i ≤ s)%nat as Hle.
  { destruct (decide (i ≤ s)%nat) as [?|Hgt]; [done|]. destruct (Hfirst s); [lia|]. split; [lia|]. intros k Hk. apply Hall'. lia. }
  pose proof (co_len _ Hc) as Hl. pose proof (co_len _ Hc') as Hl'.
  split; [lia|]. intros k Hk. apply (free_not_used c' k Hc'). split; [lia|]. rewrite Hused. intros [Hu|?]; [|lia].
  destruct (proj1 (free_not_used c k Hc)); [apply Hall'; lia|done].
Qed.

(** With no such run the code uses an index it never set. *)
Lemma getppages_none c n : cm_ok c → (∀ s, ¬ free_run (coremap c) s n) → getppages (Z.of_nat n) c = Undef.
Proof.
  intros Hc Hnone. unfold getppages. rewrite (co_vm _ Hc). cbn [Z.eqb]. rewrite getppages_scan_eq by done.
  pose proof (scan_spec (coremap c) n 0 n (scanned_start _ n) ltac:(lia)) as Hscan. destruct (getppages_scan _ _ _ _) as [cnt [[a b]|]]; [|done].
  destruct Hscan as (_ & s & _ & _ & Hrun & _). by destruct (Hnone s).
Qed.

(** ** Boot *)

Lemma vm_bootstrap_wp c :
  ram_ok (cm_ram c) → lastpaddr (cm_ram c) mod PAGE_SIZE = 0 → firstpaddr (cm_ram c) + 3 * PAGE_SIZE ≤ lastpaddr (cm_ram c) →
  swp vm_bootstrap c (λ _ c', cm_ok c' ∧ (∀ i, ¬ used_frame c' i) ∧
    firstpaddr (cm_ram c) + 8 * numCoremapEntry c' ≤ pageFrameStart_pa c' ∧
    pageFrameStart_pa c' + numCoremapEntry c' * PAGE_SIZE ≤ lastpaddr (cm_ram c) ∧ 0 < numCoremapEntry c').
Proof.
  intros (Hlo & Hm & Hhi) Hlast Hroom. set (low := firstpaddr (cm_ram c)) in *. set (high := lastpaddr (cm_ram c)) in *.
  unfold swp, vm_bootstrap, ROUND_DOWN, ROUND_UP, PAGE_SIZE in *. cbn [ram_getsize mbind outcome_bind]. fold low high.
  rewrite (u32_small (high - low)) by lia. assert ((high - low) mod 4096 = 0) as -> by dlia. rewrite Z.sub_0_r, (u32_small (high - low)) by lia.
  set (nf := (high - low) / 4096). assert (high - low = nf * 4096) as Enf by (unfold nf; dlia).
  apply wp_bind, wp_to_int; [unfold INT_MIN, INT_MAX; lia|]. cbv zeta. fold nf. apply wp_bind, wp_to_int; [unfold INT_MIN, INT_MAX; lia|].
  cbv zeta.
  rewrite (u32_small (low + nf * 8)) by lia. set (st := low + nf * 8 - (low + nf * 8) mod 4096 + 4096).
  assert (low + nf * 8 < st ≤ low + nf * 8 + 4096 ∧ st mod 4096 = 0) as [Hst Hst'] by (unfold st; dlia).
  rewrite (u32_small st) by lia. rewrite (u32_small (high - st)) by lia. assert ((high - st) mod 4096 = 0) as -> by dlia.
  rewrite Z.sub_0_r, (u32_small (high - st)) by lia. apply wp_bind, wp_to_int; [unfold INT_MIN, INT_MAX; lia|]. cbv zeta.
  set (tot := (high - st) / 4096). assert (high - st = tot * 4096) as Etot by (unfold tot; dlia). cbn.
  assert (∀ i e, ((λ i, mkEntry 0 (u32 (st + Z.of_nat i * 4096))) <$> seq 0 (Z.to_nat tot)) !! i = Some e →
    e = mkEntry 0 (st + Z.of_nat i * 4096)) as Hent.
  { intros i e Hi. apply list_lookup_fmap_Some in Hi as (j & -> & Hj). apply lookup_seq in Hj as [-> Hj]. f_equal. apply u32_small. lia. }
  split_and!; try lia.
  - split; cbn; unfold PAGE_SIZE; try done; try lia.
    + rewrite length_fmap, length_seq. lia.
    + intros i e ->%Hent. done.
    + intros i e ->%Hent. by left.
  - intros i (e & Hi & Ha). cbn in Hi. apply Hent in Hi as ->. done.
Qed.

(** A machine with 1 MB. *)
Definition cm_boot : cmap :=
  match vm_bootstrap (cmap0 (ram_bootstrap (MIPS_KSEG0 + 65536) 1048576)) with Done (_, c) => c | _ => cmap0 (mkRam 0 0) end.

(** [free_kpages] does not look at its argument: after pages [a] and [b] have
    been allocated and [b] freed, the next allocation hands out [a] again. *)
Theorem free_kpages_frees_all :
  ∃ a b c, a ≠ b ∧
    (a ← alloc_kpages 1; b ← alloc_kpages 1; free_kpages b;; a' ← alloc_kpages 1; mret (a, b, a')) cm_boot = Done ((a, b, a), c).
Proof. eexists _, _, _. split; [|by vm_compute]. by vm_compute. Qed.
