(* ===== verification/Addrspace.v ===== *)
(** * Address spaces and page faults (vm/addrspace.c)

    Address spaces with a text, data, heap and stack region, each with a page
    table that is filled on demand.  The structures are values; [kmalloc] of
    the kernel heap provides for them, over the coremap. *)

From S2P Require Import Prelude Kpages Kheap Coremap.

(** ** Data *)

Definition PAGETABLE_SIZE : Z := 512.
Definition DUMBVM_STACKPAGES : Z := 24.
Definition STACKPAGES : Z := PAGETABLE_SIZE.
Definition STACK_OD_VSTART : Z := USERSTACK - PAGE_SIZE * STACKPAGES.

Record pte := mkPte { pt_allocated : Z; pt_vstart : Z; pt_vend : Z; pt_pstart : Z; pt_pend : Z }.

(** A page table or a field that has not been initialised is [None]. *)
Record addrspace_region := mkRegion {
  vstart : Z; vend : Z; numofpages : Z; pstart : Z; pend : Z;
  pagetable : option (list pte);
  vend_actual : option Z;
}.

Record addrspace := mkAddrspace {
  text : option addrspace_region;
  data : option addrspace_region;
  heap_ : option addrspace_region;
  stack : option addrspace_region;
}.

Record vmst := mkVmst { v_heap : heap cmap; v_tlb : list (Z * Z) }.

Definition set_vheap (h : heap cmap) (v : vmst) : vmst := mkVmst h (v_tlb v).
Definition set_vtlb (l : list (Z * Z)) (v : vmst) : vmst := mkVmst (v_heap v) l.

Definition on_heap {A} (m : stm (heap cmap) A) : stm vmst A := λ v, '(a, h) ← m (v_heap v); Done (a, set_vheap h v).
Definition v_kmalloc (sz : Z) : stm vmst Z := on_heap (kmalloc sz).
Definition v_getppages (n : Z) : stm vmst Z := on_heap (on_pages (getppages n)).
Definition v_splhigh : stm vmst Z := on_heap h_splhigh.
Definition v_splx (s : Z) : stm vmst unit := on_heap (h_splx s).

(** A structure that may be a null pointer. *)
Definition deref {A} (o : option A) : stm vmst A := lift (match o with Some a => Done a | None => Undef end).

Definition set_pstart (p : Z) (r : addrspace_region) : addrspace_region :=
  mkRegion (vstart r) (vend r) (numofpages r) p (pend r) (pagetable r) (vend_actual r).
Definition set_pend (p : Z) (r : addrspace_region) : addrspace_region :=
  mkRegion (vstart r) (vend r) (numofpages r) (pstart r) p (pagetable r) (vend_actual r).
Definition set_pagetable (t : option (list pte)) (r : addrspace_region) : addrspace_region :=
  mkRegion (vstart r) (vend r) (numofpages r) (pstart r) (pend r) t (vend_actual r).

Definition set_text (r : addrspace_region) (a : addrspace) : addrspace := mkAddrspace (Some r) (data a) (heap_ a) (stack a).
Definition set_data (r : addrspace_region) (a : addrspace) : addrspace := mkAddrspace (text a) (Some r) (heap_ a) (stack a).
Definition set_heap (r : addrspace_region) (a : addrspace) : addrspace := mkAddrspace (text a) (data a) (Some r) (stack a).
Definition set_stack (r : addrspace_region) (a : addrspace) : addrspace := mkAddrspace (text a) (data a) (heap_ a) (Some r).

(** ** Page faults *)

(** The first entry that is not valid is written; with none left control
    reaches the end of the function, and its callers use the missing value. *)
Fixpoint tlb_scan (n : nat) (i : nat) (l : list (Z * Z)) : option nat :=
  match n with
  | O => None
  | S n => if Z.land (snd (l !!! i)) TLBLO_VALID =? 0 then Some i else tlb_scan n (S i) l
  end.

Definition write_into_TLB (faultaddress paddr spl : Z) : stm vmst Z :=
  l ← gets v_tlb;
  match tlb_scan (Z.to_nat NUM_TLB) 0 l with
  | None => lift Undef
  | Some i =>
      modify (λ v, set_vtlb (<[i := (faultaddress, Z.lor (Z.lor paddr TLBLO_DIRTY) TLBLO_VALID)]> (v_tlb v)) v);;
      v_splx spl;;
      mret 1
  end.

(** The search of the page table: the slot of a new page, the page, or neither. *)
Inductive pt_search := PtNew (i : nat) | PtFound (e : pte) | PtFull.

Fixpoint search_pagetable (l : list pte) (i : nat) (faultaddress : Z) : pt_search :=
  match l with
  | [] => PtFull
  | e :: l =>
      if pt_allocated e =? 0 then PtNew i
      else if (pt_vstart e <=? faultaddress) && (faultaddress <? pt_vend e) then PtFound e
      else search_pagetable l (S i) faultaddress
  end.

Definition access_pagetable (region : addrspace_region) (faultaddress spl : Z) : stm vmst (Z * addrspace_region) :=
  pt ← deref (pagetable region);
  match search_pagetable pt 0 faultaddress with
  | PtFound e =>
      r ← write_into_TLB faultaddress (u32 (faultaddress - pt_vstart e + pt_pstart e)) spl;
      mret (if r =? 1 then 1 else 0, region)
  | PtFull => mret (0, region)
  | PtNew i =>
      let newVstart := ROUND_DOWN faultaddress PAGE_SIZE in
      let newVend := u32 (newVstart + PAGE_SIZE) in
      newPstart ← v_getppages 1;
      let newPend := u32 (newPstart + PAGE_SIZE) in
      let region := set_pagetable (Some (<[i := mkPte 1 newVstart newVend newPstart newPend]> pt)) region in
      r ← write_into_TLB faultaddress (u32 (faultaddress - newVstart + newPstart)) spl;
      mret (if r =? 1 then 1 else 0, region)
  end.

Definition in_range (lo hi a : Z) : bool := (lo <=? a) && (a <? hi).

(** The end of [vm_fault]. *)
Definition fault_end (faultaddress paddr spl : Z) (as_ : addrspace) : stm vmst (Z * addrspace) :=
  r ← write_into_TLB faultaddress paddr spl;
  if r =? 1 then mret (0, as_) else v_splx spl;; mret (EFAULT, as_).

(** Which region the address falls into. *)
Definition resolve_fault (faultaddress spl : Z) (as_ : addrspace) : stm vmst (Z * addrspace) :=
  te ← deref (text as_);
  if in_range (vstart te) (vend te) faultaddress then
    let paddr := u32 (faultaddress - vstart te + pstart te) in
    '(r, te) ← access_pagetable te faultaddress spl;
    let as_ := set_text te as_ in
    if r =? 1 then v_splx spl;; mret (0, as_) else fault_end faultaddress paddr spl as_
  else
    da ← deref (data as_);
    if in_range (vstart da) (vend da) faultaddress then
      let paddr := u32 (faultaddress - vstart da + pstart da) in
      '(r, da) ← access_pagetable da faultaddress spl;
      let as_ := set_data da as_ in
      if r =? 1 then v_splx spl;; mret (0, as_) else fault_end faultaddress paddr spl as_
    else
      sk ← deref (stack as_);
      if in_range (vstart sk) (vend sk) faultaddress then
        fault_end faultaddress (u32 (faultaddress - vstart sk + pstart sk)) spl as_
      else
        he ← deref (heap_ as_);
        if in_range (vstart he) (vend he) faultaddress then
          fault_end faultaddress (u32 (faultaddress - vstart he + pstart he)) spl as_
        else if in_range STACK_OD_VSTART (vend sk) faultaddress then
          '(r, sk) ← access_pagetable sk faultaddress spl;
          v_splx spl;;
          mret (if r =? 1 then 0 else EFAULT, set_stack sk as_)
        else
          va ← deref (vend_actual he);
          if in_range (vstart he) va faultaddress then
            '(r, he) ← access_pagetable he faultaddress spl;
            v_splx spl;;
            mret (if r =? 1 then 0 else EFAULT, set_heap he as_)
          else v_splx spl;; mret (EFAULT, as_).

Definition vm_fault (faulttype faultaddress : Z) (t_vmspace : option addrspace) : stm vmst (Z * option addrspace) :=
  spl ← v_splhigh;
  let faultaddress := Z.land faultaddress PAGE_FRAME in
  if faulttype =? VM_FAULT_READONLY then lift Panic
  else if negb ((faulttype =? VM_FAULT_READ) || (faulttype =? VM_FAULT_WRITE)) then v_splx spl;; mret (EINVAL, t_vmspace)
  else
    match t_vmspace with
    | None => mret (EFAULT, None)
    | Some as_ => '(r, as_) ← resolve_fault faultaddress spl as_; mret (r, Some as_)
    end.

(** ** Creating and loading *)

Definition as_create : stm vmst (option addrspace) :=
  p ← v_kmalloc 16;
  mret (if p =? 0 then None else Some (mkAddrspace None None None None)).

Definition as_activate : stm vmst unit :=
  spl ← v_splhigh;
  modify (λ v, set_vtlb ((λ i, (TLBHI_INVALID (Z.of_nat i), TLBLO_INVALID)) <$> seq 0 (Z.to_nat NUM_TLB)) v);;
  v_splx spl.

(** The result of [kmalloc] is not checked before it is written to. *)
Definition checked (p : Z) : stm vmst unit := if p =? 0 then lift Undef else mret tt.

Definition empty_pte : pte := mkPte 0 0 0 0 0.

Definition pagetable_initialize (region : addrspace_region) : stm vmst addrspace_region :=
  p ← v_kmalloc (20 * PAGETABLE_SIZE);
  checked p;;
  mret (set_pagetable (Some (replicate (Z.to_nat PAGETABLE_SIZE) empty_pte)) region).

(** A new region; a region structure has 28 bytes. *)
Definition new_region (vs ve np : Z) (va : option Z) : stm vmst addrspace_region :=
  p ← v_kmalloc 28;
  checked p;;
  pagetable_initialize (mkRegion vs ve np 0 0 None va).

Definition as_define_region (as_ : addrspace) (vaddr sz : Z) : stm vmst (Z * addrspace) :=
  let sz := u32 (sz + Z.land vaddr (u32 (Z.lnot PAGE_FRAME))) in
  let vaddr := Z.land vaddr PAGE_FRAME in
  let sz := Z.land (u32 (sz + PAGE_SIZE - 1)) PAGE_FRAME in
  let npages := sz / PAGE_SIZE in
  match text as_, data as_ with
  | None, _ =>
      te ← new_region vaddr (u32 (vaddr + sz)) npages None;
      mret (0, set_text te as_)
  | Some _, None =>
      da ← new_region vaddr (u32 (vaddr + sz)) npages None;
      let hstart := ROUND_UP (vend da) PAGE_SIZE in
      he ← new_region hstart hstart 0 (Some hstart);
      sk ← new_region (USERSTACK - DUMBVM_STACKPAGES * PAGE_SIZE) USERSTACK DUMBVM_STACKPAGES None;
      mret (0, set_stack sk (set_heap he (set_data da as_)))
  | Some _, Some _ => mret (EUNIMP, as_)
  end.

Definition unbacked (r : addrspace_region) : stm vmst unit := lift (kassert ((pstart r =? 0) && (pend r =? 0))).

(** Frames for a whole region; 0 frames found is out of memory. *)
Definition load_region (r : addrspace_region) : stm vmst (bool * addrspace_region) :=
  p ← v_getppages (numofpages r);
  let r := set_pstart p r in
  if p =? 0 then mret (false, r) else mret (true, set_pend (u32 (pstart r + u32 (numofpages r * PAGE_SIZE))) r).

Definition as_prepare_load (as_ : addrspace) : stm vmst (Z * addrspace) :=
  te ← deref (text as_);
  unbacked te;;
  da ← deref (data as_);
  unbacked da;;
  he ← deref (heap_ as_);
  unbacked he;;
  sk ← deref (stack as_);
  unbacked sk;;
  '(ok, te) ← load_region te;
  let as_ := set_text te as_ in
  if negb ok then mret (ENOMEM, as_) else
  '(ok, da) ← load_region da;
  let as_ := set_data da as_ in
  if negb ok then mret (ENOMEM, as_) else
  '(ok, sk) ← load_region sk;
  let as_ := set_stack sk as_ in
  if negb ok then mret (ENOMEM, as_) else mret (0, as_).

Definition as_complete_load (as_ : addrspace) : Z := 0.

Definition as_define_stack (as_ : addrspace) : stm vmst Z :=
  sk ← deref (stack as_);
  lift (kassert (negb (pstart sk =? 0) && negb (pend sk =? 0)));;
  mret USERSTACK.

(** ** Destroying and copying *)

Definition free_addrspace_region (r : addrspace_region) : addrspace_region := mkRegion 0 0 0 0 0 (pagetable r) (Some 0).

(** The loops of [free_pagetable]: clear the entries of table [t] until table
    [h], the one that is tested, has an entry that is not allocated. *)
Fixpoint clear_while (h t : list pte) : list pte :=
  match h, t with
  | e :: h', x :: t' => if pt_allocated e =? 0 then t else empty_pte :: clear_while h' t'
  | _, _ => t
  end.

Definition clear_table (h : list pte) (t : option (list pte)) : stm vmst (option (list pte)) :=
  if pt_allocated (default empty_pte (head h)) =? 0 then mret t
  else t ← deref t; mret (Some (clear_while h t)).

(** The loops over text and data test the heap's table. *)
Definition free_pagetable (te da he sk : addrspace_region) :
    stm vmst (addrspace_region * addrspace_region * addrspace_region * addrspace_region) :=
  spl ← v_splhigh;
  kt ← deref (pagetable sk);
  ht ← deref (pagetable he);
  kt ← clear_table kt (Some kt);
  h ← clear_table ht (Some ht);
  ht ← deref h;
  clear_table ht (pagetable te);;
  clear_table ht (pagetable da);;
  v_splx spl;;
  mret (set_pagetable None te, set_pagetable None da, set_pagetable None he, set_pagetable None sk).

Definition free_addrspace (as_ : addrspace) : stm vmst addrspace :=
  te ← deref (text as_);
  da ← deref (data as_);
  sk ← deref (stack as_);
  he ← deref (heap_ as_);
  free_pagetable (free_addrspace_region te) (free_addrspace_region da) (free_addrspace_region he) (free_addrspace_region sk);;
  mret (mkAddrspace None None None None).

Definition as_destroy (as_ : addrspace) : stm vmst addrspace :=
  on_heap (on_pages free_coremap);;
  free_addrspace as_.

(** The copy of a region; its page table is a pointer that has not been set, so
    [copy_pagetables] writes through it. *)
Definition copy_pagetables (old new : addrspace_region) : stm vmst addrspace_region :=
  opt ← deref (pagetable old);
  npt ← deref (pagetable new);
  mret (set_pagetable (Some opt) new).

Definition copy_region (old : addrspace_region) (va : option Z) : stm vmst addrspace_region :=
  p ← v_kmalloc 28;
  checked p;;
  copy_pagetables old (mkRegion (vstart old) (vend old) (numofpages old) (pstart old) (pend old) None va).

Definition v_memmove (dst src len : Z) : stm vmst unit :=
  on_heap (modify (λ h, with_mem (λ a, if in_range dst (dst + len) a then h_mem h (src + (a - dst)) else h_mem h a) h)).

Definition as_copy (old : addrspace) : stm vmst (res addrspace) :=
  new ← as_create;
  match new with
  | None => mret (Err ENOMEM)
  | Some new =>
      oda ← deref (data old);
      da ← copy_region oda None;
      ote ← deref (text old);
      te ← copy_region ote None;
      osk ← deref (stack old);
      sk ← copy_region osk None;
      ohe ← deref (heap_ old);
      he ← copy_region ohe (vend_actual ohe);
      let new := mkAddrspace (Some te) (Some da) (Some he) (Some sk) in
      '(e, new) ← as_prepare_load new;
      if negb (e =? 0) then as_destroy new;; mret (Err ENOMEM)
      else
        da ← deref (data new);
        lift (kassert (negb (pstart da =? 0)));;
        te ← deref (text new);
        lift (kassert (negb (pstart te =? 0)));;
        sk ← deref (stack new);
        lift (kassert (negb (pstart sk =? 0)));;
        he ← deref (heap_ new);
        v_memmove (PADDR_TO_KVADDR (pstart da)) (PADDR_TO_KVADDR (pstart oda)) (u32 (numofpages oda * PAGE_SIZE));;
        v_memmove (PADDR_TO_KVADDR (pstart te)) (PADDR_TO_KVADDR (pstart ote)) (u32 (numofpages ote * PAGE_SIZE));;
        v_memmove (PADDR_TO_KVADDR (pstart he)) (PADDR_TO_KVADDR (pstart ohe)) (u32 (numofpages ohe * PAGE_SIZE));;
        v_memmove (PADDR_TO_KVADDR (pend sk)) (PADDR_TO_KVADDR (pend osk)) (u32 (numofpages osk * PAGE_SIZE));;
        mret (Ok new)
  end.

(** [as_copy] never returns a copy: the page table of the first region it copies
    has not been allocated when [copy_pagetables] writes to it. *)
Theorem as_copy_fails (old : addrspace) (v : vmst) : slp (as_copy old) v (λ r _, r = Err ENOMEM).
Proof.
  apply slp_bind. intros [a|] v1 _; [|by apply slp_ret]. apply slp_bind. intros oda v2 _. apply slp_bind.
  unfold copy_region at 1. apply slp_bind. intros p v3 _. apply slp_bind. intros [] v4 _. unfold copy_pagetables at 1.
  apply slp_bind. intros pt v5 _. apply slp_bind. by intros npt v6 Hd.
Qed.
