(* ===== verification/AddrspaceInv.v ===== *)
(** * Page tables filled on demand (vm/addrspace.c): invariant

    The page tables of an address space stay well-formed under page faults: each
    page has one frame, no frame has two pages, and a translation once made
    stays. *)

From S2P Require Import Prelude Kpages Kheap Coremap Addrspace.

(** ** Page tables *)

(** The entry of the page [v]. *)
Fixpoint pt_find (used : list pte) (v : Z) : option (nat * pte) :=
  match used with
  | [] => None
  | e :: used => if pt_vstart e =? v then Some (0%nat, e) else '(i, e) ← pt_find used v; Some (S i, e)
  end.

Lemma pt_find_Some used v i e : pt_find used v = Some (i, e) → used !! i = Some e ∧ pt_vstart e = v.
Proof.
  revert i. induction used as [|x used IH]; intros i; [done|]. cbn. destruct (Z.eqb_spec (pt_vstart x) v); [by intros [= <- <-]|].
  destruct (pt_find used v) as [[j y]|]; [|done]. intros [= <- <-]. by apply IH.
Qed.

Lemma pt_find_snoc used e v :
  pt_find (used ++ [e]) v = match pt_find used v with Some x => Some x | None => if pt_vstart e =? v then Some (length used, e) else None end.
Proof.
  induction used as [|x used IH]; cbn; [by destruct (pt_vstart e =? v)|]. destruct (pt_vstart x =? v); [done|]. rewrite IH.
  destruct (pt_find used v) as [[j y]|]; [done|]. by destruct (pt_vstart e =? v).
Qed.

(** An entry maps one page to one frame. *)
Definition pte_ok (e : pte) : Prop :=
  pt_allocated e = 1 ∧ 0 ≤ pt_vstart e ∧ pt_vstart e mod PAGE_SIZE = 0 ∧ pt_vend e = pt_vstart e + PAGE_SIZE ∧ pt_pend e = pt_pstart e + PAGE_SIZE.

(** The entries in use come first. *)
Definition pt_ok (pt used : list pte) : Prop :=
  length pt = Z.to_nat PAGETABLE_SIZE ∧ Forall pte_ok used ∧ ∃ rest, pt = used ++ rest ∧ Forall (λ e, pt_allocated e = 0) rest.

Lemma search_eq used rest v i :
  Forall pte_ok used → Forall (λ e, pt_allocated e = 0) rest → v mod PAGE_SIZE = 0 →
  search_pagetable (used ++ rest) i v =
    match pt_find used v with
    | Some (_, e) => PtFound e
    | None => match rest with [] => PtFull | _ => PtNew (i + length used) end
    end.
Proof.
  intros Hu Hr Hv. revert i. induction Hu as [|e used (Ha & H0 & Hm & He & _) _ IH]; intros i.
  - cbn. destruct rest as [|x rest]; [done|]. inversion_clear Hr as [|?? Hx]. cbn. rewrite Hx. cbn. by rewrite Nat.add_0_r.
  - cbn. rewrite Ha. cbn [Z.eqb]. rewrite range_bool. destruct (Z.eqb_spec (pt_vstart e) v) as [<-|Hne].
    + rewrite bool_decide_true by (unfold PAGE_SIZE in *; lia). done.
    + rewrite bool_decide_false by (rewrite He; unfold PAGE_SIZE in *; dlia). rewrite IH. destruct (pt_find used v) as [[j y]|]; [done|].
      destruct rest; [done|]. by rewrite Nat.add_succ_r.
Qed.

Lemma pt_ok_snoc pt used e : pt_ok pt used → pte_ok e → (length used < Z.to_nat PAGETABLE_SIZE)%nat → pt_ok (<[length used := e]> pt) (used ++ [e]).
Proof.
  intros (Hl & Hu & rest & -> & Hr) He Hlt. rewrite length_app in Hl. destruct rest as [|x rest]; [cbn in Hl; lia|].
  inversion_clear Hr as [|?? Hx Hrest].
  split; [rewrite length_insert, length_app; cbn in *; lia|]. split; [apply Forall_app; by split; [|constructor]|].
  exists rest. split; [|done]. rewrite insert_app_r_alt, Nat.sub_diag by lia. by rewrite <- app_assoc.
Qed.

(** ** Regions *)

(** The pages and frames of a region: those loaded in one piece, then those of
    its page table. *)
Definition rpages (r : addrspace_region) (used : list pte) : list Z :=
  ((λ i, vstart r + Z.of_nat i * PAGE_SIZE) <$> seq 0 (Z.to_nat (numofpages r))) ++ (pt_vstart <$> used).
Definition rframes (r : addrspace_region) (used : list pte) : list Z :=
  ((λ i, pstart r + Z.of_nat i * PAGE_SIZE) <$> seq 0 (Z.to_nat (numofpages r))) ++ (pt_pstart <$> used).

Record region_ok (r : addrspace_region) (used : list pte) : Prop := {
  ro_vstart : 0 ≤ vstart r ∧ vstart r mod PAGE_SIZE = 0;
  ro_pages : 0 ≤ numofpages r ∧ vend r = vstart r + numofpages r * PAGE_SIZE ∧ vend r ≤ USERSTACK;
  ro_table : ∃ pt, pagetable r = Some pt ∧ pt_ok pt used;
}.

Lemma rframes_loaded r used i : (i < Z.to_nat (numofpages r))%nat →
  rpages r used !! i = Some (vstart r + Z.of_nat i * PAGE_SIZE) ∧ rframes r used !! i = Some (pstart r + Z.of_nat i * PAGE_SIZE).
Proof.
  intros Hi. unfold rpages, rframes. rewrite !lookup_app_l by (by rewrite length_fmap, length_seq).
  rewrite !list_lookup_fmap, !lookup_seq_lt by done. done.
Qed.
Lemma rframes_table r used i e : used !! i = Some e →
  rpages r used !! (Z.to_nat (numofpages r) + i)%nat = Some (pt_vstart e) ∧ rframes r used !! (Z.to_nat (numofpages r) + i)%nat = Some (pt_pstart e).
Proof.
  intros Hi. unfold rpages, rframes. rewrite !lookup_app_r by (rewrite length_fmap, length_seq; lia). rewrite !length_fmap, !length_seq.
  replace (_ + i - _)%nat with i by lia. by rewrite !list_lookup_fmap, Hi.
Qed.
Lemma rframes_snoc r used e : rframes r (used ++ [e]) = rframes r used ++ [pt_pstart e] ∧ rpages r (used ++ [e]) = rpages r used ++ [pt_vstart e].
Proof. unfold rframes, rpages. by rewrite !fmap_app, <- !app_assoc. Qed.
Lemma length_rframes r used : length (rframes r used) = length (rpages r used).
Proof. unfold rframes, rpages. by rewrite !length_app, !length_fmap. Qed.

(** ** Address spaces *)

(** The regions by number. *)
Definition region_at (as_ : addrspace) (k : nat) : option addrspace_region :=
  match k with 0%nat => text as_ | 1%nat => data as_ | 2%nat => heap_ as_ | 3%nat => stack as_ | _ => None end.
Definition set_region (k : nat) (r : addrspace_region) (as_ : addrspace) : addrspace :=
  match k with 0%nat => set_text r as_ | 1%nat => set_data r as_ | 2%nat => set_heap r as_ | _ => set_stack r as_ end.

Lemma region_at_set k k' r as_ : (k < 4)%nat → region_at (set_region k r as_) k' = if decide (k' = k) then Some r else region_at as_ k'.
Proof. intros Hk. destruct k as [|[|[|[|k]]]], k' as [|[|[|[|k']]]]; cbn; try done; lia. Qed.

(** Slot [j] of region [k] holds the page [v] in the frame [f]. *)
Definition holds (as_ : addrspace) (u : nat → list pte) (k j : nat) (v f : Z) : Prop :=
  ∃ r, region_at as_ k = Some r ∧ rpages r (u k) !! j = Some v ∧ rframes r (u k) !! j = Some f.

Definition cm (v : vmst) : cmap := h_pages (v_heap v).

Record vm_ok (v : vmst) (as_ : addrspace) (u : nat → list pte) : Prop := {
  vo_cm : cm_ok (cm v);
  vo_tlb : length (v_tlb v) = Z.to_nat NUM_TLB;
  vo_region k : (k < 4)%nat → ∃ r, region_at as_ k = Some r ∧ region_ok r (u k);
  vo_inj k j p k' j' p' f : holds as_ u k j p f → holds as_ u k' j' p' f → k = k' ∧ j = j';
  vo_used k j p f : holds as_ u k j p f → ∃ i, f = frame_addr (cm v) i ∧ used_frame (cm v) i;
  vo_heap : ∃ he va, heap_ as_ = Some he ∧ vend_actual he = Some va ∧ va ≤ USERSTACK;
}.

(** The region and the kind of its pages that [vm_fault] chooses. *)
Inductive where_ := Table (k : nat) (fallback : bool) | Loaded (k : nat) | Nowhere.

Definition place (as_ : addrspace) (v : Z) : where_ :=
  match text as_, data as_, heap_ as_, stack as_ with
  | Some te, Some da, Some he, Some sk =>
      if in_range (vstart te) (vend te) v then Table 0 true
      else if in_range (vstart da) (vend da) v then Table 1 true
      else if in_range (vstart sk) (vend sk) v then Loaded 3
      else if in_range (vstart he) (vend he) v then Loaded 2
      else if in_range STACK_OD_VSTART (vend sk) v then Table 3 false
      else if in_range (vstart he) (default 0 (vend_actual he)) v then Table 2 false
      else Nowhere
  | _, _, _, _ => Nowhere
  end.

(** The frame of the page [v], if it has one; with a full table the text and
    data regions fall back to the frames loaded in one piece. *)
Definition frame_of (as_ : addrspace) (u : nat → list pte) (v : Z) : option Z :=
  match place as_ v with
  | Nowhere => None
  | Loaded k => r ← region_at as_ k; Some (v - vstart r + pstart r)
  | Table k fallback =>
      r ← region_at as_ k;
      match pt_find (u k) v with
      | Some (_, e) => Some (pt_pstart e)
      | None => if decide (fallback = true ∧ ¬ (length (u k) < Z.to_nat PAGETABLE_SIZE)%nat) then Some (v - vstart r + pstart r) else None
      end
  end.

(** ** The TLB *)

Definition tlb_free (l : list (Z * Z)) : Prop := ∃ i, (i < 64)%nat ∧ Z.land (snd (l !!! i)) TLBLO_VALID = 0.

(** The page [v] has been entered with the frame [f] in place of an entry that
    was not in use. *)
Definition tlb_wrote (l : list (Z * Z)) (v f : Z) (l' : list (Z * Z)) : Prop :=
  ∃ i lo, (i < 64)%nat ∧ Z.land (snd (l !!! i)) TLBLO_VALID = 0 ∧ l' = <[i := (v, lo)]> l ∧
    Z.land lo TLBLO_VALID ≠ 0 ∧ Z.land lo PAGE_FRAME = f.

Lemma tlb_scan_spec n i l j :
  (i ≤ j < i + n)%nat → Z.land (snd (l !!! j)) TLBLO_VALID = 0 →
  ∃ k, tlb_scan n i l = Some k ∧ (k < i + n)%nat ∧ Z.land (snd (l !!! k)) TLBLO_VALID = 0.
Proof.
  revert i. induction n as [|n IH]; intros i Hj Hv; [lia|]. cbn [tlb_scan]. destruct (Z.eqb_spec (Z.land (snd (l !!! i)) TLBLO_VALID) 0) as [H0|H0].
  - exists i. split; [done|]. split; [lia|done].
  - destruct (IH (S i)) as (k & ? & ? & ?); [|done|exists k; split; [done|]; split; [lia|done]].
    destruct (decide (j = i)) as [->|]; [done|lia].
Qed.

Lemma write_into_TLB_wp vm fa f spl :
  tlb_free (v_tlb vm) → f mod PAGE_SIZE = 0 → 0 ≤ f < 4294963200 →
  swp (write_into_TLB fa f spl) vm (λ r vm', r = 1 ∧ cm vm' = cm vm ∧ tlb_wrote (v_tlb vm) fa f (v_tlb vm') ∧ h_spl (v_heap vm') = spl).
Proof.
  intros (j & Hj & Hv) Hm Hf. unfold write_into_TLB. apply swp_bind, swp_gets.
  destruct (tlb_scan_spec (Z.to_nat NUM_TLB) 0 (v_tlb vm) j) as (k & -> & Hk & Hkv); [change (Z.to_nat NUM_TLB) with 64%nat; lia|done|].
  apply swp_bind, swp_modify. apply swp_bind. unfold v_splx, on_heap, swp. cbn. split; [done|]. split; [done|]. split; [|done].
  destruct (tlb_entry f Hm Hf) as [H1 H2]. exists k, (Z.lor (Z.lor f TLBLO_DIRTY) TLBLO_VALID). split_and!; try done.
Qed.

(** ** Frames *)

Lemma frame_range c i : cm_ok c → used_frame c i → 0 < frame_addr c i ∧ frame_addr c i mod PAGE_SIZE = 0 ∧ frame_addr c i + PAGE_SIZE ≤ 508 * 1024 * 1024.
Proof.
  intros Hc (e & He & _). apply lookup_lt_Some in He. destruct (co_start _ Hc) as (? & ? & ?). rewrite <- (co_len _ Hc) in *.
  unfold frame_addr, PAGE_SIZE in *. split; [lia|]. split; [dlia|lia].
Qed.

Lemma frame_addr_inj c i j : frame_addr c i = frame_addr c j → i = j.
Proof. unfold frame_addr, PAGE_SIZE. lia. Qed.

Lemma holds_range vm as_ u k j v f : vm_ok vm as_ u → holds as_ u k j v f → 0 < f ∧ f mod PAGE_SIZE = 0 ∧ f + PAGE_SIZE ≤ 508 * 1024 * 1024.
Proof. intros Hv Hh. destruct (vo_used _ _ _ Hv _ _ _ _ Hh) as (i & -> & Hu). by apply frame_range; [exact (vo_cm _ _ _ Hv)|]. Qed.

Lemma holds_loaded as_ u k r v :
  region_at as_ k = Some r → region_ok r (u k) → v mod PAGE_SIZE = 0 → vstart r ≤ v < vend r →
  holds as_ u k (Z.to_nat ((v - vstart r) / PAGE_SIZE)) v (v - vstart r + pstart r).
Proof.
  intros Hr [[H0 Hm] (Hn & Hend & _) _] Hv Hin. exists r. split; [done|].
  destruct (rframes_loaded r (u k) (Z.to_nat ((v - vstart r) / PAGE_SIZE))) as [-> ->]; [unfold PAGE_SIZE in *; dlia|].
  rewrite Z2Nat.id by (unfold PAGE_SIZE in *; dlia). unfold PAGE_SIZE in *. split; f_equal; dlia.
Qed.

Lemma holds_table as_ u k r i e :
  region_at as_ k = Some r → (u k) !! i = Some e → holds as_ u k (Z.to_nat (numofpages r) + i) (pt_vstart e) (pt_pstart e).
Proof. intros Hr He. exists r. split; [done|]. by apply rframes_table. Qed.

Lemma in_range_spec lo hi a : in_range lo hi a = true ↔ lo ≤ a < hi.
Proof. unfold in_range. rewrite range_bool. apply bool_decide_eq_true. Qed.

(** The four regions of an address space in order. *)
Lemma vm_regions vm as_ u : vm_ok vm as_ u → ∃ te da he sk va,
  text as_ = Some te ∧ data as_ = Some da ∧ heap_ as_ = Some he ∧ stack as_ = Some sk ∧ vend_actual he = Some va ∧ va ≤ USERSTACK ∧
  region_ok te (u 0%nat) ∧ region_ok da (u 1%nat) ∧ region_ok he (u 2%nat) ∧ region_ok sk (u 3%nat).
Proof.
  intros Hv. destruct (vo_region _ _ _ Hv 0%nat ltac:(lia)) as (te & ? & ?), (vo_region _ _ _ Hv 1%nat ltac:(lia)) as (da & ? & ?),
    (vo_region _ _ _ Hv 2%nat ltac:(lia)) as (he & Hhe & ?), (vo_region _ _ _ Hv 3%nat ltac:(lia)) as (sk & ? & ?).
  destruct (vo_heap _ _ _ Hv) as (he' & va & Hhe' & ? & ?). cbn in Hhe. simplify_eq. by exists te, da, he, sk, va.
Qed.

(** Where [place] puts an address, it is in the region. *)
Lemma place_spec vm as_ u v :
  vm_ok vm as_ u →
  match place as_ v with
  | Table k fb => (k < 4)%nat ∧ v < USERSTACK ∧ ∃ r, region_at as_ k = Some r ∧ region_ok r (u k) ∧ (fb = true → vstart r ≤ v < vend r)
  | Loaded k => (k < 4)%nat ∧ ∃ r, region_at as_ k = Some r ∧ region_ok r (u k) ∧ vstart r ≤ v < vend r
  | Nowhere => True
  end.
Proof.
  intros Hv. destruct (vm_regions _ _ _ Hv) as (te & da & he & sk & va & Ht & Hd & Hh & Hs & Hva & Hle & R0 & R1 & R2 & R3).
  unfold place. rewrite Ht, Hd, Hh, Hs, Hva. change (default 0 (Some va)) with va.
  destruct (ro_pages _ _ R0) as (_ & _ & ?), (ro_pages _ _ R1) as (_ & _ & ?), (ro_pages _ _ R3) as (_ & _ & ?).
  destruct (in_range (vstart te) _ v) eqn:E0; [apply in_range_spec in E0; split; [lia|]; split; [lia|]; by exists te|].
  destruct (in_range (vstart da) _ v) eqn:E1; [apply in_range_spec in E1; split; [lia|]; split; [lia|]; by exists da|].
  destruct (in_range (vstart sk) _ v) eqn:E3; [apply in_range_spec in E3; split; [lia|]; by exists sk|].
  destruct (in_range (vstart he) (vend he) v) eqn:E2; [apply in_range_spec in E2; split; [lia|]; by exists he|].
  destruct (in_range STACK_OD_VSTART _ v) eqn:E4; [apply in_range_spec in E4; split; [lia|]; split; [lia|]; by exists sk|].
  destruct (in_range (vstart he) va v) eqn:E5; [apply in_range_spec in E5; split; [lia|]; split; [lia|]; by exists he|done].
Qed.

Lemma frame_of_holds vm as_ u v f :
  vm_ok vm as_ u → v mod PAGE_SIZE = 0 → frame_of as_ u v = Some f → ∃ k j, holds as_ u k j v f.
Proof.
  intros Hv Hm. unfold frame_of. pose proof (place_spec vm as_ u v Hv) as Hp. destruct (place as_ v) as [k fb|k|]; [| |done].
  - destruct Hp as (Hk & _ & r & Hr & Hok & Hin). rewrite Hr. cbn. destruct (pt_find (u k) v) as [[i e]|] eqn:E.
    + intros [= <-]. apply pt_find_Some in E as [E <-]. eexists k, _. by apply holds_table.
    + case_decide as Hfb; [|done]. intros [= <-]. eexists k, _. apply holds_loaded; [done..|]. apply Hin, Hfb.
  - destruct Hp as (Hk & r & Hr & Hok & Hin). rewrite Hr. cbn. intros [= <-]. eexists k, _. by apply holds_loaded.
Qed.

(** No frame has two pages. *)
Lemma frame_of_inj vm as_ u v v' f :
  vm_ok vm as_ u → v mod PAGE_SIZE = 0 → v' mod PAGE_SIZE = 0 → frame_of as_ u v = Some f → frame_of as_ u v' = Some f → v = v'.
Proof.
  intros Hv Hm Hm' H1 H2. destruct (frame_of_holds _ _ _ _ _ Hv Hm H1) as (k & j & Hh). destruct (frame_of_holds _ _ _ _ _ Hv Hm' H2) as (k' & j' & Hh').
  destruct (vo_inj _ _ _ Hv _ _ _ _ _ _ _ Hh Hh') as [-> ->]. destruct Hh as (r & Hr & Hp & _), Hh' as (r' & Hr' & Hp' & _). congruence.
Qed.

(** ** A new page *)

Definition same_shape (r r' : addrspace_region) : Prop :=
  vstart r' = vstart r ∧ vend r' = vend r ∧ numofpages r' = numofpages r ∧ pstart r' = pstart r ∧ vend_actual r' = vend_actual r.

Lemma place_shape as_ k r r' v : (k < 4)%nat → region_at as_ k = Some r → same_shape r r' → place (set_region k r' as_) v = place as_ v.
Proof.
  intros Hk Hr (E1 & E2 & _ & _ & E5). unfold place. destruct k as [|[|[|[|k]]]]; [..|lia]; cbn in *; rewrite Hr, ?E1, ?E2, ?E5; done.
Qed.

Definition upd (u : nat → list pte) (k : nat) (l : list pte) : nat → list pte := λ k', if decide (k' = k) then l else u k'.

(** The new page is the last of its region. *)
Lemma holds_add as_ u k r r' e k' j v f :
  (k < 4)%nat → region_at as_ k = Some r → same_shape r r' →
  holds (set_region k r' as_) (upd u k (u k ++ [e])) k' j v f →
  holds as_ u k' j v f ∨ (k' = k ∧ j = length (rframes r (u k)) ∧ v = pt_vstart e ∧ f = pt_pstart e).
Proof.
  intros Hk Hr (E1 & _ & E3 & E4 & _) (r0 & Hr0 & Hp & Hf). rewrite region_at_set in Hr0 by done. unfold upd in Hp, Hf. case_decide as Hkk.
  - injection Hr0 as <-. subst k'. destruct (rframes_snoc r' (u k) e) as [Ef Ep]. rewrite Ef in Hf. rewrite Ep in Hp.
    assert (rframes r' (u k) = rframes r (u k) ∧ rpages r' (u k) = rpages r (u k)) as [Er Er'] by (unfold rframes, rpages; by rewrite E1, E3, E4).
    rewrite Er in Hf. rewrite Er' in Hp. destruct (decide (j < length (rframes r (u k)))%nat) as [Hlt|Hge].
    + left. exists r. split; [done|]. rewrite lookup_app_l in Hf by done. rewrite lookup_app_l in Hp by (by rewrite <- length_rframes). done.
    + right. pose proof (lookup_lt_Some _ _ _ Hf) as Hb. rewrite length_app in Hb. cbn in Hb. assert (j = length (rframes r (u k))) as -> by lia.
      rewrite lookup_app_r, Nat.sub_diag in Hf by lia. rewrite length_rframes, lookup_app_r, Nat.sub_diag in Hp by lia. cbn in Hf, Hp.
      injection Hf as <-. injection Hp as <-. done.
  - left. by exists r0.
Qed.

Lemma vm_ok_add vm vm' as_ u k r pt' e :
  vm_ok vm as_ u → (k < 4)%nat → region_at as_ k = Some r → pt_ok pt' (u k ++ [e]) →
  cm_ok (cm vm') → length (v_tlb vm') = Z.to_nat NUM_TLB → pageFrameStart_pa (cm vm') = pageFrameStart_pa (cm vm) →
  (∀ i, used_frame (cm vm) i → used_frame (cm vm') i) →
  (∃ i, pt_pstart e = frame_addr (cm vm) i ∧ ¬ used_frame (cm vm) i ∧ used_frame (cm vm') i) →
  vm_ok vm' (set_region k (set_pagetable (Some pt') r) as_) (upd u k (u k ++ [e])).
Proof.
  intros Hv Hk Hr Hpt Hcm Htlb Hst Hmono (i & Hi & Hnu & Hu). assert (same_shape r (set_pagetable (Some pt') r)) as Hsh by done.
  assert (∀ j, frame_addr (cm vm') j = frame_addr (cm vm) j) as Hfa by (intros j; unfold frame_addr; by rewrite Hst).
  assert (∀ k' j v, ¬ holds as_ u k' j v (pt_pstart e)) as Hfresh.
  { intros k' j v Hh. destruct (vo_used _ _ _ Hv _ _ _ _ Hh) as (i' & E & Hu'). rewrite Hi in E. apply frame_addr_inj in E as ->. done. }
  destruct Hv as [_ _ Hreg Hinj Hus Hheap]. split; try done.
  - intros k' Hk'. rewrite region_at_set by done. destruct (Hreg k' Hk') as (r0 & Hr0 & Hok0). unfold upd. case_decide as Hkk; [|eauto].
    subst k'. rewrite Hr in Hr0. injection Hr0 as <-. eexists. split; [done|]. destruct Hok0 as [H1 H2 _]. split; [done..|]. by exists pt'.
  - intros k1 j1 p1 k2 j2 p2 f Hh1 Hh2. apply (holds_add as_ u k r) in Hh1; [|done..]. apply (holds_add as_ u k r) in Hh2; [|done..].
    destruct Hh1 as [Hh1|(-> & -> & -> & ->)], Hh2 as [Hh2|(-> & -> & -> & E)].
    + by eapply Hinj.
    + subst f. by destruct (Hfresh _ _ _ Hh1).
    + by destruct (Hfresh _ _ _ Hh2).
    + done.
  - intros k1 j1 p1 f Hh1. apply (holds_add as_ u k r) in Hh1; [|done..]. destruct Hh1 as [Hh1|(_ & _ & _ & ->)].
    + destruct (Hus _ _ _ _ Hh1) as (i' & -> & Hu'). exists i'. rewrite Hfa. auto.
    + exists i. rewrite Hfa. done.
  - destruct Hheap as (he & va & Hhe & Hva & Hle). destruct k as [|[|[|[|k]]]]; [..|lia]; cbn; try (by exists he, va).
    cbn in Hr. rewrite Hhe in Hr. injection Hr as <-. by eexists _, va.
Qed.

Lemma vm_ok_same vm vm' as_ u : vm_ok vm as_ u → cm vm' = cm vm → length (v_tlb vm') = length (v_tlb vm) → vm_ok vm' as_ u.
Proof. intros [] Hc Ht. split; rewrite ?Hc, ?Ht; done. Qed.
