(* ===== verification/AddrspaceThm.v ===== *)
(** * Page tables filled on demand (vm/addrspace.c): page faults

    [vm_fault] finds or makes the translation of a page and enters it in the TLB. *)

From S2P Require Import Prelude Kpages Kheap Coremap Addrspace AddrspaceInv.

Implicit Types (vm : vmst) (u : nat → list pte).

(** The page [v] has to be made. *)
Definition needs_frame (as_ : addrspace) u (v : Z) : Prop :=
  ∃ k fb, place as_ v = Table k fb ∧ pt_find (u k) v = None ∧ (length (u k) < Z.to_nat PAGETABLE_SIZE)%nat.

(** There is an entry of the TLB for the translation of [v], and a frame where
    one is needed. *)
Definition served vm (as_ : addrspace) u (v : Z) : Prop :=
  (is_Some (frame_of as_ u v) ∨ needs_frame as_ u v → tlb_free (v_tlb vm)) ∧
  (needs_frame as_ u v → ∃ s, free_run (coremap (cm vm)) s 1).

(** The entry or the frame is missing. *)
Definition stuck vm (as_ : addrspace) u (v : Z) : Prop :=
  (is_Some (frame_of as_ u v) ∨ needs_frame as_ u v) ∧ ¬ tlb_free (v_tlb vm) ∨
  needs_frame as_ u v ∧ ∀ s, ¬ free_run (coremap (cm vm)) s 1.

Lemma set_region_same k r as_ : (k < 4)%nat → region_at as_ k = Some r → set_region k r as_ = as_.
Proof. intros Hk Hr. destruct as_, k as [|[|[|[|k]]]]; [..|lia]; cbn in *; by rewrite Hr. Qed.

Lemma v_getppages_wp vm n s :
  cm_ok (cm vm) → (0 < n)%nat → free_run (coremap (cm vm)) s n →
  swp (v_getppages (Z.of_nat n)) vm (λ f vm', ∃ i, f = frame_addr (cm vm) i ∧ took (cm vm) n i (cm vm') ∧ v_tlb vm' = v_tlb vm ∧
    h_spl (v_heap vm') = h_spl (v_heap vm)).
Proof.
  intros Hc Hn Hf. pose proof (getppages_took (cm vm) n s Hc Hn Hf) as Hw. apply swp_Done in Hw as (a & c' & E & i & -> & Ht).
  unfold v_getppages, on_heap, on_pages, swp. unfold cm in E. cbn [mbind outcome_bind]. rewrite E. cbn.
  exists i. split; [done|]. split; [exact Ht|done].
Qed.

(** What [access_pagetable] has done for the page [v] of region [k]. *)
Definition accessed vm as_ u (k : nat) (r : addrspace_region) (v spl : Z) (x : Z * addrspace_region) vm' : Prop :=
  (x.1 = 1 ∧ same_shape r x.2 ∧ h_spl (v_heap vm') = spl ∧ ∃ u' i e,
     vm_ok vm' (set_region k x.2 as_) u' ∧ tlb_wrote (v_tlb vm) v (pt_pstart e) (v_tlb vm') ∧ pt_find (u' k) v = Some (i, e) ∧
     (∀ k', k' ≠ k → u' k' = u k') ∧ (∀ w y, pt_find (u k) w = Some y → pt_find (u' k) w = Some y) ∧
     (u' k = u k ∨ (length (u k) < Z.to_nat PAGETABLE_SIZE)%nat)) ∨
  (x = (0, r) ∧ vm' = vm ∧ pt_find (u k) v = None ∧ ¬ (length (u k) < Z.to_nat PAGETABLE_SIZE)%nat).

Lemma tlb_wrote_length l v f l' : tlb_wrote l v f l' → length l' = length l.
Proof. intros (i & lo & _ & _ & -> & _). by rewrite length_insert. Qed.

Lemma access_found_wp vm as_ u k r v spl i e :
  vm_ok vm as_ u → (k < 4)%nat → region_at as_ k = Some r → tlb_free (v_tlb vm) → pt_find (u k) v = Some (i, e) →
  swp (x ← write_into_TLB v (u32 (v - pt_vstart e + pt_pstart e)) spl; mret (if x =? 1 then 1 else 0, r)) vm (accessed vm as_ u k r v spl).
Proof.
  intros Hv Hk Hr Htlb Hf. pose proof (pt_find_Some _ _ _ _ Hf) as [He <-].
  pose proof (holds_range _ _ _ _ _ _ _ Hv (holds_table as_ u k r i e Hr He)) as (? & ? & ?). unfold PAGE_SIZE in *.
  rewrite Z.sub_diag, Z.add_0_l, u32_small by lia. apply swp_bind.
  eapply swp_mono; [apply write_into_TLB_wp; [done|done|lia]|]. intros x vm' (-> & Hc & Hw & Hs). apply swp_ret. left.
  split; [done|]. split; [done|]. split; [done|]. exists u, i, e. rewrite set_region_same by done.
  split; [apply (vm_ok_same vm); [done..|by eapply tlb_wrote_length]|]. split; [done|]. split; [done|]. split; [done|]. split; [done|by left].
Qed.

Lemma access_new_wp vm as_ u k r v spl pt s :
  vm_ok vm as_ u → (k < 4)%nat → region_at as_ k = Some r → tlb_free (v_tlb vm) → v mod PAGE_SIZE = 0 → 0 ≤ v < USERSTACK →
  pt_find (u k) v = None → pt_ok pt (u k) → (length (u k) < Z.to_nat PAGETABLE_SIZE)%nat → free_run (coremap (cm vm)) s 1 →
  swp (newPstart ← v_getppages 1;
       let region := set_pagetable (Some (<[length (u k) := mkPte 1 (ROUND_DOWN v PAGE_SIZE) (u32 (ROUND_DOWN v PAGE_SIZE + PAGE_SIZE)) newPstart (u32 (newPstart + PAGE_SIZE))]> pt)) r in
       x ← write_into_TLB v (u32 (v - ROUND_DOWN v PAGE_SIZE + newPstart)) spl;
       mret (if x =? 1 then 1 else 0, region)) vm (accessed vm as_ u k r v spl).
Proof.
  intros Hv Hk Hr Htlb Hm Hlt Hnf Hpt Hlen Hfree. apply swp_bind.
  eapply swp_mono; [apply (v_getppages_wp vm 1 s); [exact (vo_cm _ _ _ Hv)|lia|done]|].
  intros f vm1 (i & -> & (Hc1 & Hst & _ & (_ & Hi) & _ & Hused) & Ht1 & Hs1). cbv zeta.
  assert (ROUND_DOWN v PAGE_SIZE = v) as -> by (unfold ROUND_DOWN; rewrite Hm, Z.sub_0_r; apply u32_small; unfold USERSTACK, MIPS_KSEG0 in *; lia).
  assert (used_frame (cm vm1) i) as Hu1 by (apply Hused; right; lia).
  assert (frame_addr (cm vm1) i = frame_addr (cm vm) i) as Hfa by (unfold frame_addr; by rewrite Hst).
  pose proof (frame_range (cm vm1) i Hc1 Hu1) as (? & ? & ?). rewrite Hfa in *. set (f := frame_addr (cm vm) i) in *.
  unfold USERSTACK, MIPS_KSEG0, PAGE_SIZE in *. rewrite Z.sub_diag, Z.add_0_l, !u32_small by lia.
  apply swp_bind. eapply swp_mono; [apply write_into_TLB_wp; [by rewrite Ht1|done|lia]|]. intros x vm' (-> & Hc & Hw & Hs). apply swp_ret. left.
  rewrite Ht1 in Hw. set (e := mkPte 1 v (v + 4096) f (f + 4096)).
  split; [done|]. split; [done|]. split; [done|]. exists (upd u k (u k ++ [e])), (length (u k)), e. unfold upd. rewrite decide_True by done. split_and!.
  - apply (vm_ok_add vm); try done.
    + apply pt_ok_snoc; [done| |done]. unfold pte_ok, PAGE_SIZE. cbn. split_and!; try done; lia.
    + by rewrite Hc.
    + rewrite (tlb_wrote_length _ _ _ _ Hw). exact (vo_tlb _ _ _ Hv).
    + by rewrite Hc.
    + rewrite Hc. intros j Hj. apply Hused. by left.
    + exists i. split; [done|]. rewrite Hc. split; [|done]. intros (e0 & He0 & Ha). destruct (Hi i) as (e1 & He1 & Ha1); [lia|]. congruence.
  - done.
  - rewrite pt_find_snoc, Hnf. cbn. by rewrite Z.eqb_refl.
  - intros k' Hk'. by rewrite decide_False.
  - intros w y Hy. by rewrite pt_find_snoc, Hy.
  - by right.
Qed.

(** What the page table says of a page. *)
Lemma access_cases vm as_ u k r v spl :
  vm_ok vm as_ u → v mod PAGE_SIZE = 0 → (k < 4)%nat → region_at as_ k = Some r →
  match pt_find (u k) v with
  | Some (_, e) => access_pagetable r v spl = (x ← write_into_TLB v (u32 (v - pt_vstart e + pt_pstart e)) spl; mret (if x =? 1 then 1 else 0, r))
  | None => ((length (u k) < Z.to_nat PAGETABLE_SIZE)%nat ∧ ∃ pt, pt_ok pt (u k) ∧
      access_pagetable r v spl = (newPstart ← v_getppages 1;
        let region := set_pagetable (Some (<[length (u k) := mkPte 1 (ROUND_DOWN v PAGE_SIZE) (u32 (ROUND_DOWN v PAGE_SIZE + PAGE_SIZE)) newPstart (u32 (newPstart + PAGE_SIZE))]> pt)) r in
        x ← write_into_TLB v (u32 (v - ROUND_DOWN v PAGE_SIZE + newPstart)) spl;
        mret (if x =? 1 then 1 else 0, region))) ∨
    ¬ (length (u k) < Z.to_nat PAGETABLE_SIZE)%nat ∧ access_pagetable r v spl = mret (0, r)
  end.
Proof.
  intros Hv Hm Hk Hr. destruct (vo_region _ _ _ Hv k Hk) as (r' & Hr' & [_ _ (pt & Hpt & Hok)]). rewrite Hr in Hr'. injection Hr' as <-.
  unfold access_pagetable. rewrite Hpt. pose proof Hok as (Hl & Hu & rest & -> & Hrest). rewrite length_app in Hl.
  change (deref (Some (u k ++ rest)) ≫= ?f) with (f (u k ++ rest)). cbv beta.
  rewrite search_eq by done. destruct (pt_find (u k) v) as [[i e]|] eqn:Hf; [done|]. destruct rest as [|x rest]; cbn in Hl.
  - right. split; [lia|done].
  - left. split; [lia|]. by exists (u k ++ x :: rest).
Qed.

Lemma access_pagetable_wp vm as_ u k fb r v spl :
  vm_ok vm as_ u → (k < 4)%nat → region_at as_ k = Some r → v mod PAGE_SIZE = 0 → 0 ≤ v < USERSTACK → place as_ v = Table k fb →
  served vm as_ u v → swp (access_pagetable r v spl) vm (accessed vm as_ u k r v spl).
Proof.
  intros Hv Hk Hr Hm Hlt Hpl [Htlb Hfree]. pose proof (access_cases vm as_ u k r v spl Hv Hm Hk Hr) as Hc.
  destruct (pt_find (u k) v) as [[i e]|] eqn:Hf.
  - rewrite Hc. eapply access_found_wp; try done. apply Htlb. left. unfold frame_of. rewrite Hpl, Hr. cbn. rewrite Hf. by eexists.
  - destruct Hc as [(Hl & pt & Hpt & ->)|[Hl ->]]; [|apply swp_ret; by right].
    assert (needs_frame as_ u v) as Hn by (by exists k, fb). destruct (Hfree Hn) as [s Hs]. eapply access_new_wp; try done. apply Htlb. by right.
Qed.

(** ** vm_fault *)

(** Translations are only added. *)
Lemma frame_of_stable as_ u u' k r r' w f :
  (k < 4)%nat → region_at as_ k = Some r → same_shape r r' → (∀ k', k' ≠ k → u' k' = u k') →
  (∀ w y, pt_find (u k) w = Some y → pt_find (u' k) w = Some y) → (u' k = u k ∨ (length (u k) < Z.to_nat PAGETABLE_SIZE)%nat) →
  frame_of as_ u w = Some f → frame_of (set_region k r' as_) u' w = Some f.
Proof.
  intros Hk Hr Hsh Hother Hsame Hlen. unfold frame_of. rewrite (place_shape as_ k r r' w Hk Hr Hsh). pose proof Hsh as (E1 & _ & _ & E4 & _).
  destruct (place as_ w) as [k' fb|k'|]; [| |done]; rewrite region_at_set by done; (destruct (decide (k' = k)) as [->|Hne]); [| |..]; rewrite ?Hr; cbn.
  - rewrite E1, E4. destruct (pt_find (u k) w) as [y|] eqn:Hf; [by rewrite (Hsame w y Hf)|].
    case_decide as Hfb; [|done]. intros [= <-]. destruct Hlen as [->|Hlt]; [|by destruct Hfb]. rewrite Hf, decide_True; done.
  - by rewrite Hother.
  - by rewrite E1, E4.
  - done.
Qed.

Definition fault_post vm as_ u (v : Z) (x : Z * addrspace) vm' : Prop :=
  h_spl (v_heap vm') = h_spl (v_heap vm) ∧
  ((x.1 = 0 ∧ ∃ u' f, vm_ok vm' x.2 u' ∧ frame_of x.2 u' v = Some f ∧ tlb_wrote (v_tlb vm) v f (v_tlb vm') ∧
      ∀ w g, frame_of as_ u w = Some g → frame_of x.2 u' w = Some g) ∨
   (x = (EFAULT, as_) ∧ vm_ok vm' as_ u ∧ v_tlb vm' = v_tlb vm ∧ frame_of as_ u v = None ∧ ¬ needs_frame as_ u v)).

(** A page found or made in the table of region [k]. *)
Lemma accessed_post vm0 vm as_ u k fb r v spl x vm' vm2 :
  vm_ok vm as_ u → v_tlb vm = v_tlb vm0 → spl = h_spl (v_heap vm0) → (k < 4)%nat → region_at as_ k = Some r → place as_ v = Table k fb →
  accessed vm as_ u k r v spl x vm' → x.1 = 1 → v_tlb vm2 = v_tlb vm' → cm vm2 = cm vm' → h_spl (v_heap vm2) = spl →
  fault_post vm0 as_ u v (0, set_region k x.2 as_) vm2.
Proof.
  intros Hv Ht -> Hk Hr Hpl Hacc Hx Ht2 Hc2 Hs2. split; [done|]. left. split; [done|].
  destruct Hacc as [(_ & Hsh & Hs & u' & i & e & Hv' & Hw & Hf & Ho & Hsame & Hlen)|(-> & _)]; [|done].
  exists u', (pt_pstart e). split_and!.
  - apply (vm_ok_same vm'); [done..|by rewrite Ht2].
  - unfold frame_of. cbn [fst snd]. rewrite (place_shape as_ k r x.2 v Hk Hr Hsh), Hpl, region_at_set, decide_True by done. cbn. by rewrite Hf.
  - by rewrite Ht2, <- Ht.
  - intros w g. by eapply frame_of_stable.
Qed.

(** A page of the frames loaded in one piece. *)
Lemma fault_end_wp vm0 vm as_ u v spl k r :
  vm_ok vm as_ u → v_tlb vm = v_tlb vm0 → spl = h_spl (v_heap vm0) → tlb_free (v_tlb vm) → (k < 4)%nat → region_at as_ k = Some r →
  v mod PAGE_SIZE = 0 → vstart r ≤ v < vend r → frame_of as_ u v = Some (v - vstart r + pstart r) →
  swp (fault_end v (u32 (v - vstart r + pstart r)) spl as_) vm (fault_post vm0 as_ u v).
Proof.
  intros Hv Ht -> Htlb Hk Hr Hm Hin Hfr. destruct (vo_region _ _ _ Hv k Hk) as (r' & Hr' & Hok). rewrite Hr in Hr'. injection Hr' as <-.
  pose proof (holds_range _ _ _ _ _ _ _ Hv (holds_loaded as_ u k r v Hr Hok Hm Hin)) as (? & ? & ?). unfold fault_end. unfold PAGE_SIZE in *.
  rewrite u32_small by lia. apply swp_bind. eapply swp_mono; [apply write_into_TLB_wp; [done|done|lia]|].
  intros x vm' (-> & Hc & Hw & Hs). cbn [Z.eqb]. apply swp_ret. split; [done|]. left. split; [done|]. exists u, (v - vstart r + pstart r).
  split; [apply (vm_ok_same vm); [done..|by eapply tlb_wrote_length]|]. split; [done|]. by rewrite <- Ht.
Qed.

Lemma swp_v_splx vm s (Q : unit → vmst → Prop) : Q tt (set_vheap (with_spl s (v_heap vm)) vm) → swp (v_splx s) vm Q.
Proof. done. Qed.

(** The text and data regions. *)
Lemma fault_table_wp vm0 vm as_ u v spl k r :
  vm_ok vm as_ u → v_tlb vm = v_tlb vm0 → spl = h_spl (v_heap vm0) → served vm as_ u v → (k < 4)%nat → region_at as_ k = Some r →
  v mod PAGE_SIZE = 0 → 0 ≤ v → vstart r ≤ v < vend r → place as_ v = Table k true →
  swp ('(x, r') ← access_pagetable r v spl;
       let as' := set_region k r' as_ in
       if x =? 1 then v_splx spl;; mret (0, as') else fault_end v (u32 (v - vstart r + pstart r)) spl as') vm (fault_post vm0 as_ u v).
Proof.
  intros Hv Ht Hspl Hsv Hk Hr Hm H0 Hin Hpl. destruct (vo_region _ _ _ Hv k Hk) as (r' & Hr' & Hok). rewrite Hr in Hr'. injection Hr' as <-.
  destruct (ro_pages _ _ Hok) as (_ & _ & Hend). apply swp_bind. eapply swp_mono; [apply (access_pagetable_wp vm as_ u k true r v spl); try done; lia|].
  intros [x r'] vm' Hacc. cbv zeta. destruct (Z.eqb_spec x 1) as [->|Hx].
  - apply swp_bind, swp_v_splx, swp_ret. by apply (accessed_post vm0 vm as_ u k true r v spl (1, r') vm').
  - destruct Hacc as [(Hx1 & _)|([= -> ->] & -> & Hnf & Hfull)]; [done|]. rewrite set_region_same by done.
    assert (frame_of as_ u v = Some (v - vstart r + pstart r)) as Hfr by (unfold frame_of; rewrite Hpl, Hr; cbn; rewrite Hnf, decide_True; done).
    eapply fault_end_wp; try done. apply Hsv. left. by rewrite Hfr.
Qed.

(** The stack below its first pages, and the heap. *)
Lemma fault_demand_wp vm0 vm as_ u v spl k r :
  vm_ok vm as_ u → v_tlb vm = v_tlb vm0 → spl = h_spl (v_heap vm0) → served vm as_ u v → (k < 4)%nat → region_at as_ k = Some r →
  v mod PAGE_SIZE = 0 → 0 ≤ v < USERSTACK → place as_ v = Table k false →
  swp ('(x, r') ← access_pagetable r v spl; v_splx spl;; mret (if x =? 1 then 0 else EFAULT, set_region k r' as_)) vm (fault_post vm0 as_ u v).
Proof.
  intros Hv Ht Hspl Hsv Hk Hr Hm H0 Hpl. apply swp_bind. eapply swp_mono; [by apply (access_pagetable_wp vm as_ u k false r v spl)|].
  intros [x r'] vm' Hacc. apply swp_bind, swp_v_splx, swp_ret. destruct (Z.eqb_spec x 1) as [->|Hx].
  - by apply (accessed_post vm0 vm as_ u k false r v spl (1, r') vm').
  - destruct Hacc as [(Hx1 & _)|([= -> ->] & -> & Hnf & Hfull)]; [done|]. rewrite set_region_same by done. split; [done|]. right. split; [done|].
    split; [by apply (vm_ok_same vm)|]. split; [done|]. split.
    + unfold frame_of. rewrite Hpl, Hr. cbn. rewrite Hnf, decide_False; [done|]. by intros [? _].
    + intros (k' & fb & Hpl' & _ & Hl). rewrite Hpl in Hpl'. by injection Hpl' as <- <-.
Qed.

(** The regions of an address space whose tables are in order. *)
Lemma vm_places vm as_ u v :
  vm_ok vm as_ u → ∃ te da he sk hva,
    text as_ = Some te ∧ data as_ = Some da ∧ heap_ as_ = Some he ∧ stack as_ = Some sk ∧ vend_actual he = Some hva ∧
    hva ≤ USERSTACK ∧ vend sk ≤ USERSTACK ∧
    place as_ v = if in_range (vstart te) (vend te) v then Table 0 true else if in_range (vstart da) (vend da) v then Table 1 true
      else if in_range (vstart sk) (vend sk) v then Loaded 3 else if in_range (vstart he) (vend he) v then Loaded 2
      else if in_range STACK_OD_VSTART (vend sk) v then Table 3 false else if in_range (vstart he) hva v then Table 2 false else Nowhere.
Proof.
  intros Hv. destruct (vm_regions _ _ _ Hv) as (te & da & he & sk & hva & Ht & Hd & Hh & Hs & Hhv & Hle & R0 & R1 & R2 & R3).
  destruct (ro_pages _ _ R3) as (_ & _ & Hske). exists te, da, he, sk, hva. split_and!; try done. unfold place. by rewrite Ht, Hd, Hh, Hs, Hhv.
Qed.

Lemma resolve_fault_wp vm0 vm as_ u v spl :
  vm_ok vm as_ u → v_tlb vm = v_tlb vm0 → spl = h_spl (v_heap vm0) → served vm as_ u v → v mod PAGE_SIZE = 0 → 0 ≤ v →
  swp (resolve_fault v spl as_) vm (fault_post vm0 as_ u v).
Proof.
  intros Hv Htl Hspl Hsv Hm H0. destruct (vm_places vm as_ u v Hv) as (te & da & he & sk & hva & Ht & Hd & Hh & Hs & Hhv & Hle & Hske & Hpl).
  assert (∀ k r, place as_ v = Loaded k → region_at as_ k = Some r → frame_of as_ u v = Some (v - vstart r + pstart r)) as Hld.
  { intros k r E Hr. unfold frame_of. by rewrite E, Hr. }
  unfold resolve_fault. apply swp_bind, swp_lift. rewrite Ht. cbn [wp].
  destruct (in_range (vstart te) (vend te) v) eqn:E0; [apply (fault_table_wp vm0 vm as_ u v spl 0 te); try done; [lia|by apply in_range_spec]|].
  apply swp_bind, swp_lift. rewrite Hd. cbn [wp].
  destruct (in_range (vstart da) (vend da) v) eqn:E1; [apply (fault_table_wp vm0 vm as_ u v spl 1 da); try done; [lia|by apply in_range_spec]|].
  apply swp_bind, swp_lift. rewrite Hs. cbn [wp].
  destruct (in_range (vstart sk) (vend sk) v) eqn:E3.
  { pose proof (Hld 3%nat sk Hpl Hs) as Hfr. apply (fault_end_wp vm0 vm as_ u v spl 3 sk); try done; [|lia|by apply in_range_spec]. apply Hsv. left. by rewrite Hfr. }
  apply swp_bind, swp_lift. rewrite Hh. cbn [wp].
  destruct (in_range (vstart he) (vend he) v) eqn:E2.
  { pose proof (Hld 2%nat he Hpl Hh) as Hfr. apply (fault_end_wp vm0 vm as_ u v spl 2 he); try done; [|lia|by apply in_range_spec]. apply Hsv. left. by rewrite Hfr. }
  destruct (in_range STACK_OD_VSTART (vend sk) v) eqn:E4.
  { apply in_range_spec in E4. apply (fault_demand_wp vm0 vm as_ u v spl 3 sk); try done; lia. }
  apply swp_bind, swp_lift. rewrite Hhv. cbn [wp].
  destruct (in_range (vstart he) hva v) eqn:E5.
  { apply in_range_spec in E5. apply (fault_demand_wp vm0 vm as_ u v spl 2 he); try done; lia. }
  apply swp_bind, swp_v_splx, swp_ret. split; [done|]. right. split; [done|]. split; [by apply (vm_ok_same vm)|]. split; [done|].
  split; [unfold frame_of; by rewrite Hpl|]. intros (k & fb & E & _). by rewrite Hpl in E.
Qed.

(** The address of the page, and the switch on the kind of fault. *)
Lemma vm_fault_eq vm as_ ft va :
  0 ≤ va < 4294967296 → ft = VM_FAULT_READ ∨ ft = VM_FAULT_WRITE →
  vm_fault ft va (Some as_) vm =
    ('(r, as') ← resolve_fault (va - va mod PAGE_SIZE) (h_spl (v_heap vm)) as_; mret (r, Some as')) (set_vheap (with_spl 15 (v_heap vm)) vm).
Proof.
  intros Hva Hft. unfold vm_fault. rewrite land_frame by done.
  by destruct Hft as [->| ->].
Qed.

Lemma vm_fault_wp vm as_ u ft va :
  vm_ok vm as_ u → 0 ≤ va < 4294967296 → ft = VM_FAULT_READ ∨ ft = VM_FAULT_WRITE → served vm as_ u (va - va mod PAGE_SIZE) →
  swp (vm_fault ft va (Some as_)) vm (λ x vm', ∃ as', x.2 = Some as' ∧ fault_post vm as_ u (va - va mod PAGE_SIZE) (x.1, as') vm').
Proof.
  intros Hv Hva Hft Hsv. unfold swp. rewrite vm_fault_eq by done. set (v := va - va mod PAGE_SIZE) in *.
  assert (v mod PAGE_SIZE = 0 ∧ 0 ≤ v) as [Hm H0] by (unfold v, PAGE_SIZE; dlia).
  match goal with |- wp (?m ?s) _ => change (swp m s (λ x vm', ∃ as', x.2 = Some as' ∧ fault_post vm as_ u v (x.1, as') vm')) end.
  apply swp_bind. eapply swp_mono; [apply (resolve_fault_wp vm _ as_ u v _); try done; by apply (vm_ok_same vm)|].
  intros [r as'] vm' Hp. apply swp_ret. by exists as'.
Qed.

(** ** Without a TLB entry or a frame *)

Definition fails {A} (m : stm vmst A) vm : Prop := m vm = Undef.

Lemma fails_bind {A B} (m : stm vmst A) (f : A → stm vmst B) vm : fails m vm → fails (m ≫= f) vm.
Proof. unfold fails, mbind, stm_bind. by intros ->. Qed.

Lemma fails_after {A B} (m : stm vmst A) (f : A → stm vmst B) vm a vm' : m vm = Done (a, vm') → fails (f a) vm' → fails (m ≫= f) vm.
Proof. unfold fails, mbind, stm_bind. by intros ->. Qed.

Lemma tlb_scan_valid n i l k : tlb_scan n i l = Some k → (k < i + n)%nat ∧ Z.land (snd (l !!! k)) TLBLO_VALID = 0.
Proof.
  revert i. induction n as [|n IH]; intros i; cbn [tlb_scan]; [done|]. destruct (Z.eqb_spec (Z.land (snd (l !!! i)) TLBLO_VALID) 0) as [H|H].
  - intros [= <-]. split; [lia|done].
  - intros [? ?]%IH. split; [lia|done].
Qed.

Lemma write_into_TLB_full vm fa f spl : ¬ tlb_free (v_tlb vm) → fails (write_into_TLB fa f spl) vm.
Proof.
  intros Hn. unfold write_into_TLB. eapply fails_after; [done|]. unfold id. destruct (tlb_scan (Z.to_nat NUM_TLB) 0 (v_tlb vm)) as [k|] eqn:E; [|done].
  destruct Hn. apply tlb_scan_valid in E as [Hk H]. exists k. by split.
Qed.

Lemma v_getppages_none vm n : cm_ok (cm vm) → (∀ s, ¬ free_run (coremap (cm vm)) s n) → fails (v_getppages (Z.of_nat n)) vm.
Proof.
  intros Hc Hn. pose proof (getppages_none (cm vm) n Hc Hn) as E. unfold fails, v_getppages, on_heap, on_pages. unfold cm in E. cbn [mbind outcome_bind]. by rewrite E.
Qed.

(** The frame is taken before the TLB is found to be full. *)
Lemma v_getppages_full {B} vm (f : Z → stm vmst B) :
  cm_ok (cm vm) → (∀ a vm', v_tlb vm' = v_tlb vm → fails (f a) vm') → fails (v_getppages 1 ≫= f) vm.
Proof.
  intros Hc Hf. pose proof (scan_spec (coremap (cm vm)) 1 0 1 (scanned_start _ 1) ltac:(lia)) as Hscan.
  destruct (getppages_scan _ _ _ _) as [c [[a b]|]].
  - destruct Hscan as (_ & s & _ & _ & Hrun & _). pose proof (v_getppages_wp vm 1 s Hc ltac:(lia) Hrun) as Hw.
    apply swp_Done in Hw as (x & vm' & E & i & _ & _ & Ht & _). eapply fails_after; [exact E|]. by apply Hf.
  - apply fails_bind. by apply (v_getppages_none vm 1).
Qed.

Lemma access_stuck vm as_ u k fb r v spl :
  vm_ok vm as_ u → v mod PAGE_SIZE = 0 → (k < 4)%nat → region_at as_ k = Some r → place as_ v = Table k fb → stuck vm as_ u v →
  fails (access_pagetable r v spl) vm ∨
  access_pagetable r v spl vm = Done ((0, r), vm) ∧ ¬ tlb_free (v_tlb vm) ∧ is_Some (frame_of as_ u v) ∧ pt_find (u k) v = None.
Proof.
  intros Hv Hm Hk Hr Hpl Hst. pose proof (access_cases vm as_ u k r v spl Hv Hm Hk Hr) as Hc. unfold stuck, needs_frame in Hst. rewrite Hpl in Hst.
  destruct (pt_find (u k) v) as [[i e]|] eqn:Hf.
  - left. rewrite Hc. apply fails_bind, write_into_TLB_full. destruct Hst as [[_ ?]|[(k' & fb' & [= <- <-] & E & _) _]]; congruence.
  - destruct Hc as [(Hl & pt & Hpt & ->)|[Hl ->]].
    + left. destruct Hst as [[_ Hn]|[_ Hn]].
      * apply v_getppages_full; [apply Hv|]. intros a vm' E. apply fails_bind, write_into_TLB_full. by rewrite E.
      * apply fails_bind. by apply (v_getppages_none vm 1); [apply Hv|].
    + right. split; [done|]. destruct Hst as [[[H|(k' & fb' & [= <- <-] & _ & ?)] Hn]|[(k' & fb' & [= <- <-] & _ & ?) _]]; done.
Qed.

Lemma fault_table_stuck vm as_ u v spl k r :
  vm_ok vm as_ u → v mod PAGE_SIZE = 0 → (k < 4)%nat → region_at as_ k = Some r → place as_ v = Table k true → stuck vm as_ u v →
  fails ('(x, r') ← access_pagetable r v spl;
         let as' := set_region k r' as_ in
         if x =? 1 then v_splx spl;; mret (0, as') else fault_end v (u32 (v - vstart r + pstart r)) spl as') vm.
Proof.
  intros Hv Hm Hk Hr Hpl Hst. destruct (access_stuck vm as_ u k true r v spl Hv Hm Hk Hr Hpl Hst) as [H|(E & Hn & _)]; [by apply fails_bind|].
  eapply fails_after; [exact E|]. cbn [Z.eqb]. apply fails_bind. by apply write_into_TLB_full.
Qed.

Lemma fault_demand_stuck vm as_ u v spl k r :
  vm_ok vm as_ u → v mod PAGE_SIZE = 0 → (k < 4)%nat → region_at as_ k = Some r → place as_ v = Table k false → stuck vm as_ u v →
  fails ('(x, r') ← access_pagetable r v spl; v_splx spl;; mret (if x =? 1 then 0 else EFAULT, set_region k r' as_)) vm.
Proof.
  intros Hv Hm Hk Hr Hpl Hst.
  destruct (access_stuck vm as_ u k false r v spl Hv Hm Hk Hr Hpl Hst) as [H|(_ & _ & [f Hf] & Hnf)]; [by apply fails_bind|]. exfalso.
  unfold frame_of in Hf. rewrite Hpl, Hr in Hf. cbn in Hf. rewrite Hnf, decide_False in Hf; [done|]. by intros [? _].
Qed.

Lemma fault_end_stuck vm as_ u v paddr spl k :
  place as_ v = Loaded k → stuck vm as_ u v → fails (fault_end v paddr spl as_) vm.
Proof.
  intros Hpl Hst. apply fails_bind, write_into_TLB_full. unfold stuck, needs_frame in Hst. rewrite Hpl in Hst.
  by destruct Hst as [[_ ?]|[(? & ? & ? & _) _]].
Qed.

Lemma resolve_fault_stuck vm as_ u v spl : vm_ok vm as_ u → v mod PAGE_SIZE = 0 → stuck vm as_ u v → fails (resolve_fault v spl as_) vm.
Proof.
  intros Hv Hm Hst. destruct (vm_places vm as_ u v Hv) as (te & da & he & sk & hva & Ht & Hd & Hh & Hs & Hhv & _ & _ & Hpl).
  unfold resolve_fault. eapply fails_after; [by rewrite Ht|].
  destruct (in_range (vstart te) (vend te) v); [by apply (fault_table_stuck vm as_ u v spl 0 te Hv Hm); [lia|..]|].
  eapply fails_after; [by rewrite Hd|].
  destruct (in_range (vstart da) (vend da) v); [by apply (fault_table_stuck vm as_ u v spl 1 da Hv Hm); [lia|..]|].
  eapply fails_after; [by rewrite Hs|]. destruct (in_range (vstart sk) (vend sk) v); [by eapply fault_end_stuck|].
  eapply fails_after; [by rewrite Hh|]. destruct (in_range (vstart he) (vend he) v); [by eapply fault_end_stuck|].
  destruct (in_range STACK_OD_VSTART (vend sk) v); [by apply (fault_demand_stuck vm as_ u v spl 3 sk Hv Hm); [lia|..]|].
  eapply fails_after; [by rewrite Hhv|]. destruct (in_range (vstart he) hva v); [by apply (fault_demand_stuck vm as_ u v spl 2 he Hv Hm); [lia|..]|].
  exfalso. unfold stuck, needs_frame, frame_of in Hst. rewrite Hpl in Hst. destruct Hst as [[[[? ?]|(? & ? & ? & _)] _]|[(? & ? & ? & _) _]]; done.
Qed.

Lemma vm_fault_stuck vm as_ u ft va :
  vm_ok vm as_ u → 0 ≤ va < 4294967296 → ft = VM_FAULT_READ ∨ ft = VM_FAULT_WRITE → stuck vm as_ u (va - va mod PAGE_SIZE) →
  vm_fault ft va (Some as_) vm = Undef.
Proof.
  intros Hv Hva Hft Hst. rewrite vm_fault_eq by done.
  apply fails_bind, (resolve_fault_stuck _ as_ u); [by apply (vm_ok_same vm)|unfold PAGE_SIZE; dlia|exact Hst].
Qed.

(** ** Loading *)

(** The frames of a region loaded at [f]. *)
Definition backed (r : addrspace_region) (f : Z) : addrspace_region := set_pend (f + numofpages r * PAGE_SIZE) (set_pstart f r).

Lemma load_region_wp vm r s :
  cm_ok (cm vm) → 0 < numofpages r → free_run (coremap (cm vm)) s (Z.to_nat (numofpages r)) →
  swp (load_region r) vm (λ x vm', ∃ i, x = (true, backed r (frame_addr (cm vm) i)) ∧ took (cm vm) (Z.to_nat (numofpages r)) i (cm vm') ∧
    v_tlb vm' = v_tlb vm ∧ h_spl (v_heap vm') = h_spl (v_heap vm)).
Proof.
  intros Hc Hn Hf. unfold load_region. apply swp_bind. rewrite <- (Z2Nat.id (numofpages r)) at 1 by lia.
  eapply swp_mono; [apply (v_getppages_wp vm _ s); [done|lia|done]|]. intros f vm' (i & -> & Ht & Htl & Hsp).
  pose proof Ht as (_ & Hst & Hnum & [Hlt _] & _). destruct (co_start _ Hc) as (H0 & Hm & Hend). pose proof (co_len _ Hc) as Hlen.
  assert (0 < frame_addr (cm vm) i ∧ frame_addr (cm vm) i + numofpages r * PAGE_SIZE ≤ 508 * 1024 * 1024) as [Hp Hb].
  { unfold frame_addr, PAGE_SIZE in *. lia. }
  cbv zeta. rewrite (proj2 (Z.eqb_neq _ _)) by lia. apply swp_ret. exists i. split; [|by split_and!]. f_equal. unfold backed. f_equal.
  cbn [pstart set_pstart numofpages]. unfold PAGE_SIZE in *. rewrite (u32_small (_ * 4096)) by lia. by rewrite u32_small by lia.
Qed.

Lemma load_region_none vm r :
  cm_ok (cm vm) → 0 < numofpages r → (∀ s, ¬ free_run (coremap (cm vm)) s (Z.to_nat (numofpages r))) → fails (load_region r) vm.
Proof.
  intros Hc Hn Hf. unfold load_region. apply fails_bind. rewrite <- (Z2Nat.id (numofpages r)) by lia. by apply v_getppages_none.
Qed.

(** An address space with its regions defined and not yet loaded. *)
Record unloaded (as_ : addrspace) (te da he sk : addrspace_region) (va : Z) : Prop := {
  ul_text : text as_ = Some te; ul_data : data as_ = Some da; ul_heap : heap_ as_ = Some he; ul_stack : stack as_ = Some sk;
  ul_ok : Forall (λ r, region_ok r [] ∧ pstart r = 0 ∧ pend r = 0) [te; da; he; sk];
  ul_pages : 0 < numofpages te ∧ 0 < numofpages da ∧ 0 < numofpages sk ∧ numofpages he = 0;
  ul_va : vend_actual he = Some va ∧ va ≤ USERSTACK;
}.

(** The frames of the three loaded regions, as indices of the coremap. *)
Definition loads (te da he sk : addrspace_region) (i1 i2 i3 : nat) (c : cmap) : addrspace :=
  mkAddrspace (Some (backed te (frame_addr c i1))) (Some (backed da (frame_addr c i2))) (Some he) (Some (backed sk (frame_addr c i3))).

Lemma holds_loads te da he sk i1 i2 i3 c k j v f :
  numofpages he = 0 → holds (loads te da he sk i1 i2 i3 c) (λ _, []) k j v f →
  ∃ r i, (k, r, i) ∈ [(0%nat, te, i1); (1%nat, da, i2); (3%nat, sk, i3)] ∧ (j < Z.to_nat (numofpages r))%nat ∧ f = frame_addr c (i + j).
Proof.
  intros Hhe (r & Hr & _ & Hf).
  assert (∀ r0 i, rframes (backed r0 (frame_addr c i)) [] !! j = Some f → (j < Z.to_nat (numofpages r0))%nat ∧ f = frame_addr c (i + j)) as Hb.
  { intros r0 i H. unfold rframes in H. cbn in H. rewrite app_nil_r in H. apply list_lookup_fmap_Some in H as (x & -> & Hx).
    apply lookup_seq in Hx as [-> Hx]. split; [done|]. unfold frame_addr. lia. }
  destruct k as [|[|[|[|k]]]]; cbn in Hr; [..|done]; injection Hr as <-.
  - exists te, i1. split; [by left|by apply Hb].
  - exists da, i2. split; [right; by left|by apply Hb].
  - unfold rframes in Hf. rewrite Hhe in Hf. done.
  - exists sk, i3. split; [do 2 right; by left|by apply Hb].
Qed.

Lemma region_ok_backed r f : region_ok r [] → region_ok (backed r f) [].
Proof. intros [? ? ?]. by split. Qed.

Lemma as_prepare_load_wp vm as_ te da he sk va s :
  cm_ok (cm vm) → length (v_tlb vm) = Z.to_nat NUM_TLB → unloaded as_ te da he sk va →
  free_run (coremap (cm vm)) s (Z.to_nat (numofpages te) + (Z.to_nat (numofpages da) + Z.to_nat (numofpages sk))) →
  swp (as_prepare_load as_) vm (λ x vm', x.1 = 0 ∧ vm_ok vm' x.2 (λ _, []) ∧ v_tlb vm' = v_tlb vm ∧ h_spl (v_heap vm') = h_spl (v_heap vm)).
Proof.
  intros Hc Htlb [Ht Hd Hh Hs Hok (Nt & Nd & Ns & Nh) (Hva & Hle)] Hfree. unfold as_prepare_load.
  rewrite !Forall_cons in Hok. destruct Hok as ((Ot & Pt & Qt) & (Od & Pd & Qd) & (Oh & Ph & Qh) & (Os & Ps & Qs) & _).
  apply swp_bind, swp_lift. rewrite Ht. cbn [wp]. apply swp_bind, swp_kassert; [by rewrite Pt, Qt|].
  apply swp_bind, swp_lift. rewrite Hd. cbn [wp]. apply swp_bind, swp_kassert; [by rewrite Pd, Qd|].
  apply swp_bind, swp_lift. rewrite Hh. cbn [wp]. apply swp_bind, swp_kassert; [by rewrite Ph, Qh|].
  apply swp_bind, swp_lift. rewrite Hs. cbn [wp]. apply swp_bind, swp_kassert; [by rewrite Ps, Qs|].
  assert (∀ c s n m, free_run (coremap c) s (n + m) → free_run (coremap c) s n) as Hpre.
  { intros c s0 n m [? Ha]. split; [lia|]. intros k Hk. apply Ha. lia. }
  apply swp_bind. eapply swp_mono; [eapply load_region_wp; [done..|by eapply Hpre]|]. intros x vm1 (i1 & -> & T1 & Tl1 & Sp1).
  pose proof (took_leaves _ _ _ _ _ _ Hc T1 Hfree) as Hfree1. pose proof (proj1 T1) as Hc1. cbn [negb]. cbv zeta.
  apply swp_bind. eapply swp_mono; [eapply load_region_wp; [done..|by eapply Hpre]|]. intros x vm2 (i2 & -> & T2 & Tl2 & Sp2).
  pose proof (took_leaves _ _ _ _ _ _ Hc1 T2 Hfree1) as Hfree2. pose proof (proj1 T2) as Hc2. cbn [negb]. cbv zeta.
  apply swp_bind. eapply swp_mono; [eapply load_region_wp; [done..|exact Hfree2]|]. intros x vm3 (i3 & -> & T3 & Tl3 & Sp3).
  cbn [negb]. apply swp_ret. split; [done|]. split; [|split; congruence]. cbn [snd].
  destruct T1 as (_ & S1 & _ & [_ F1] & _ & U1), T2 as (_ & S2 & _ & [_ F2] & _ & U2), T3 as (Hc3 & S3 & _ & [_ F3] & _ & U3).
  assert (∀ c c' i, pageFrameStart_pa c' = pageFrameStart_pa c → frame_addr c i = frame_addr c' i) as Hfa by (intros ? ? ? E; unfold frame_addr; by rewrite E).
  rewrite (Hfa (cm vm) (cm vm3)), (Hfa (cm vm1) (cm vm3)), (Hfa (cm vm2) (cm vm3)) by congruence.
  change (vm_ok vm3 (set_stack (backed sk (frame_addr (cm vm3) i3)) (set_data (backed da (frame_addr (cm vm3) i2)) (set_text (backed te (frame_addr (cm vm3) i1)) as_))) (λ _, [])).
  assert (set_stack (backed sk (frame_addr (cm vm3) i3)) (set_data (backed da (frame_addr (cm vm3) i2)) (set_text (backed te (frame_addr (cm vm3) i1)) as_)) =
    loads te da he sk i1 i2 i3 (cm vm3)) as -> by (unfold loads, set_stack, set_data, set_text; cbn; by rewrite Hh).
  assert (∀ k, (i2 ≤ k < i2 + Z.to_nat (numofpages da))%nat → (i1 ≤ k < i1 + Z.to_nat (numofpages te))%nat → False) as D12.
  { intros k Hk Hk'. destruct (proj1 (free_not_used _ k Hc1) (F2 k Hk)) as [_ Hnu]. apply Hnu, U1. by right. }
  assert (∀ k, (i3 ≤ k < i3 + Z.to_nat (numofpages sk))%nat → (i1 ≤ k < i1 + Z.to_nat (numofpages te))%nat ∨ (i2 ≤ k < i2 + Z.to_nat (numofpages da))%nat → False) as D3.
  { intros k Hk Hk'. destruct (proj1 (free_not_used _ k Hc2) (F3 k Hk)) as [_ Hnu]. apply Hnu, U2. destruct Hk'; [left; apply U1; by right|by right]. }
  split; [done|congruence|..].
  - intros [|[|[|[|k]]]] Hk; [..|lia]; cbn; eexists; (split; [done|]); try apply region_ok_backed; done.
  - intros k j p k' j' p' f Hh1 Hh2. apply holds_loads in Hh1 as (r & i & Hr & Hj & ->); [|done]. apply holds_loads in Hh2 as (r' & i' & Hr' & Hj' & E); [|done].
    apply frame_addr_inj in E. rewrite !elem_of_cons, elem_of_nil in Hr, Hr'.
    destruct Hr as [[= -> -> ->]|[[= -> -> ->]|[[= -> -> ->]|[]]]], Hr' as [[= -> -> ->]|[[= -> -> ->]|[[= -> -> ->]|[]]]];
      try (split; [done|lia]); exfalso; first [eapply (D12 (i2 + j)%nat); lia|eapply (D12 (i2 + j')%nat); lia|eapply (D3 (i3 + j)%nat); lia|eapply (D3 (i3 + j')%nat); lia].
  - intros k j p f Hh1. apply holds_loads in Hh1 as (r & i & Hr & Hj & ->); [|done]. exists (i + j)%nat. split; [done|].
    rewrite !elem_of_cons, elem_of_nil in Hr. apply U3. destruct Hr as [[= -> -> ->]|[[= -> -> ->]|[[= -> -> ->]|[]]]].
    + left. apply U2. left. apply U1. right. lia.
    + left. apply U2. right. lia.
    + right. lia.
  - by exists he, va.
Qed.

Lemma as_prepare_load_none vm as_ te da he sk va :
  cm_ok (cm vm) → unloaded as_ te da he sk va → (∀ s, ¬ free_run (coremap (cm vm)) s (Z.to_nat (numofpages te))) →
  as_prepare_load as_ vm = Undef.
Proof.
  intros Hc [Ht Hd Hh Hs Hok (Nt & _) _] Hn. rewrite !Forall_cons in Hok.
  destruct Hok as ((_ & Pt & Qt) & (_ & Pd & Qd) & (_ & Ph & Qh) & (_ & Ps & Qs) & _). change (fails (as_prepare_load as_) vm). unfold as_prepare_load.
  eapply fails_after; [by rewrite Ht|]. eapply fails_after; [unfold unbacked; by rewrite Pt, Qt|].
  eapply fails_after; [by rewrite Hd|]. eapply fails_after; [unfold unbacked; by rewrite Pd, Qd|].
  eapply fails_after; [by rewrite Hh|]. eapply fails_after; [unfold unbacked; by rewrite Ph, Qh|].
  eapply fails_after; [by rewrite Hs|]. eapply fails_after; [unfold unbacked; by rewrite Ps, Qs|].
  apply fails_bind. by apply load_region_none.
Qed.

Lemma vm_fault_other vm as_ ft va :
  ¬ (ft = VM_FAULT_READ ∨ ft = VM_FAULT_WRITE) →
  vm_fault ft va (Some as_) vm = if ft =? VM_FAULT_READONLY then Panic else Done ((EINVAL, Some as_), vm).
Proof.
  intros Hft. unfold vm_fault. destruct (Z.eqb_spec ft VM_FAULT_READONLY); [done|].
  rewrite (proj2 (Z.eqb_neq ft VM_FAULT_READ)), (proj2 (Z.eqb_neq ft VM_FAULT_WRITE)) by naive_solver.
  by destruct vm as [[] ?].
Qed.

(** ** Properties *)

(** [C8] Page tables stay well-formed.  Loading an address space whose regions
    are defined puts its tables in order when the coremap has enough free frames
    in a row for text, data and stack; when it has not even enough for the text,
    [getppages] uses an index it never set.  In an address space whose tables are
    in order no frame has two pages and every frame is taken in the coremap.  A
    read or write fault on a page that has a translation, or that gets one, needs
    an entry of the TLB that is not in use, and a new page needs a free frame.
    With these, [vm_fault] answers 0, has entered the translation of the page in
    the TLB, keeps the tables in order and all translations that were there; a
    page that has no translation and gets none is answered with EFAULT and
    nothing changes, whatever the TLB and the coremap hold; the interrupt level
    is restored.  Without them the call has no defined result: [write_into_TLB]
    runs off its end when the TLB is full, and [getppages] uses the unset index.
    A fault on a page that is read-only panics, and other kinds of fault give
    EINVAL. *)
Theorem pagetables_well_formed (vm : vmst) (as_ : addrspace) (u : nat → list pte) :
  (∀ as0 te da he sk va, cm_ok (cm vm) → length (v_tlb vm) = Z.to_nat NUM_TLB → unloaded as0 te da he sk va →
     (∀ s, free_run (coremap (cm vm)) s (Z.to_nat (numofpages te) + (Z.to_nat (numofpages da) + Z.to_nat (numofpages sk))) →
        swp (as_prepare_load as0) vm (λ x vm', x.1 = 0 ∧ vm_ok vm' x.2 (λ _, []) ∧ v_tlb vm' = v_tlb vm)) ∧
     ((∀ s, ¬ free_run (coremap (cm vm)) s (Z.to_nat (numofpages te))) → as_prepare_load as0 vm = Undef)) ∧
  (vm_ok vm as_ u →
  (∀ v v' f, v mod PAGE_SIZE = 0 → v' mod PAGE_SIZE = 0 → frame_of as_ u v = Some f → frame_of as_ u v' = Some f → v = v') ∧
  (∀ v f, v mod PAGE_SIZE = 0 → frame_of as_ u v = Some f → ∃ i, f = frame_addr (cm vm) i ∧ used_frame (cm vm) i) ∧
  (∀ ft va, 0 ≤ va < 4294967296 → let v := va - va mod PAGE_SIZE in
     if decide (ft = VM_FAULT_READ ∨ ft = VM_FAULT_WRITE) then
       (served vm as_ u v →
        swp (vm_fault ft va (Some as_)) vm (λ x vm', ∃ as', x.2 = Some as' ∧ fault_post vm as_ u v (x.1, as') vm')) ∧
       (is_Some (frame_of as_ u v) ∨ needs_frame as_ u v → ¬ tlb_free (v_tlb vm) → vm_fault ft va (Some as_) vm = Undef) ∧
       (needs_frame as_ u v → (∀ s, ¬ free_run (coremap (cm vm)) s 1) → vm_fault ft va (Some as_) vm = Undef)
     else
       vm_fault ft va (Some as_) vm = if ft =? VM_FAULT_READONLY then Panic else Done ((EINVAL, Some as_), vm))).
Proof.
  split.
  { intros as0 te da he sk va Hc Hl Hu. split.
    - intros s Hf. eapply swp_mono; [by eapply as_prepare_load_wp|]. by intros x vm' (? & ? & ? & _).
    - intros Hn. by eapply as_prepare_load_none. }
  intros Hv. split_and!.
  - intros v v' f. by apply (frame_of_inj vm).
  - intros v f Hm Hf. destruct (frame_of_holds _ _ _ _ _ Hv Hm Hf) as (k & j & Hh). by eapply vo_used.
  - intros ft va Hva v. case_decide as Hft; [|by apply vm_fault_other]. split_and!.
    + by apply vm_fault_wp.
    + intros ? ?. eapply vm_fault_stuck; [done..|by left].
    + intros ? ?. eapply vm_fault_stuck; [done..|by right].
Qed.

(** ** Example *)

(** The program of two regions, on a machine with 1 MB. *)
Definition vm_boot : vmst := mkVmst (heap_start (λ _, 0) 0 cm_boot) (replicate 64 (0, 0)).
Definition prog : stm vmst addrspace :=
  a ← as_create;
  a ← deref a;
  '(_, a) ← as_define_region a 4194304 5000;
  '(_, a) ← as_define_region a 268435456 100;
  mret a.
Definition prog_vm : addrspace * vmst := match prog vm_boot with Done x => x | _ => (mkAddrspace None None None None, vm_boot) end.

Definition cm_okb (c : cmap) : bool :=
  (beforeVM c =? 0) && (Z.of_nat (length (coremap c)) =? numCoremapEntry c) &&
  forallb (λ i, let e := coremap c !!! i in (paddr_base e =? frame_addr c i) && ((allocated e =? 0) || (allocated e =? 1))) (seq 0 (length (coremap c))) &&
  (0 <? pageFrameStart_pa c) && (pageFrameStart_pa c mod PAGE_SIZE =? 0) &&
  (pageFrameStart_pa c + numCoremapEntry c * PAGE_SIZE <=? 508 * 1024 * 1024).

Lemma cm_okb_ok c : cm_okb c = true → cm_ok c.
Proof.
  unfold cm_okb. rewrite !andb_true_iff. intros [[[[[H1 H2] H3] H4] H5] H6].
  assert (∀ i e, coremap c !! i = Some e → paddr_base e = frame_addr c i ∧ (allocated e = 0 ∨ allocated e = 1)) as He.
  { intros i e Hi. pose proof (proj1 (forallb_forall _ _) H3 i) as Hf. cbv beta zeta in Hf. rewrite (list_lookup_total_correct _ _ _ Hi) in Hf.
    apply lookup_lt_Some in Hi. specialize (Hf ltac:(apply in_seq; lia)). lia. }
  split; try lia; intros i e Hi; by destruct (He i e Hi).
Qed.

Lemma free_runb l s n :
  (s + n < length l)%nat → forallb (λ e, allocated e =? 0) (take n (drop s l)) = true → free_run l s n.
Proof.
  intros Hl Hf. split; [done|]. intros i Hi. destruct (lookup_lt_is_Some_2 l i) as [e He]; [lia|]. exists e. split; [done|].
  apply Z.eqb_eq, (proj1 (forallb_forall _ _) Hf e), list_elem_of_In, (list_elem_of_lookup_2 _ (i - s)).
  rewrite lookup_take_lt by lia. rewrite lookup_drop. by replace (s + (i - s))%nat with i by lia.
Qed.

Definition region_or (o : option addrspace_region) : addrspace_region := default (mkRegion 0 0 0 0 0 None None) o.

Lemma region_okb r : region_ok r [] ↔ (0 ≤ vstart r ∧ vstart r mod PAGE_SIZE = 0) ∧ (0 ≤ numofpages r ∧ vend r = vstart r + numofpages r * PAGE_SIZE ∧ vend r ≤ USERSTACK) ∧ ∃ pt, pagetable r = Some pt ∧ pt_ok pt [].
Proof. split; [intros [? ? ?]; done|]. intros (? & ? & ?). by split. Qed.

Lemma fresh_table : pt_ok (replicate 512 empty_pte) [].
Proof. split; [done|]. split; [done|]. exists (replicate 512 empty_pte). split; [done|]. apply Forall_replicate. done. Qed.

Lemma prog_unloaded :
  unloaded prog_vm.1 (region_or (text prog_vm.1)) (region_or (data prog_vm.1)) (region_or (heap_ prog_vm.1)) (region_or (stack prog_vm.1)) 268443648.
Proof.
  assert (∀ r, pagetable r = Some (replicate 512 empty_pte) → pstart r = 0 → pend r = 0 → 0 ≤ vstart r → vstart r mod PAGE_SIZE = 0 →
    0 ≤ numofpages r → vend r = vstart r + numofpages r * PAGE_SIZE → vend r ≤ USERSTACK → region_ok r [] ∧ pstart r = 0 ∧ pend r = 0) as Hr.
  { intros. split; [|done]. apply region_okb. split_and!; try done. eexists. split; [done|exact fresh_table]. }
  split; try by vm_compute. repeat (apply Forall_cons; split); [..|by apply Forall_nil]; apply Hr; by vm_compute.
Qed.

(** An address space once its pages are loaded. *)
Definition load (p : addrspace * vmst) : addrspace * vmst :=
  match as_prepare_load p.1 p.2 with Done (x, vm') => (x.2, vm') | _ => p end.

Lemma load_ok p te da he sk va s :
  cm_ok (cm p.2) → length (v_tlb p.2) = Z.to_nat NUM_TLB → unloaded p.1 te da he sk va →
  free_run (coremap (cm p.2)) s (Z.to_nat (numofpages te) + (Z.to_nat (numofpages da) + Z.to_nat (numofpages sk))) →
  vm_ok (load p).2 (load p).1 (λ _, []) ∧ v_tlb (load p).2 = v_tlb p.2.
Proof.
  intros H1 H2 H3 H4. pose proof (as_prepare_load_wp _ _ _ _ _ _ _ _ H1 H2 H3 H4) as H.
  apply swp_Done in H as (x & vm' & E & _ & Ho & Ht & _). unfold load. by rewrite E.
Qed.

Definition loaded : addrspace * vmst := load prog_vm.

Lemma prog_cm_ok : cm_ok (cm prog_vm.2).
Proof. apply cm_okb_ok. by vm_compute. Qed.

Lemma prog_tlb : length (v_tlb prog_vm.2) = Z.to_nat NUM_TLB.
Proof. by vm_compute. Qed.

Lemma prog_free : free_run (coremap (cm prog_vm.2)) 30 (Z.to_nat (numofpages (region_or (text prog_vm.1))) +
  (Z.to_nat (numofpages (region_or (data prog_vm.1))) + Z.to_nat (numofpages (region_or (stack prog_vm.1))))).
Proof. apply free_runb; [apply Nat.ltb_lt; by vm_compute|by vm_compute]. Qed.

Lemma loaded_ok : vm_ok loaded.2 loaded.1 (λ _, []) ∧ v_tlb loaded.2 = v_tlb prog_vm.2.
Proof. exact (load_ok prog_vm _ _ _ _ _ _ prog_cm_ok prog_tlb prog_unloaded prog_free). Qed.

Lemma loaded_tlb_free : tlb_free (v_tlb loaded.2).
Proof. rewrite (proj2 loaded_ok). exists 0%nat. split; [lia|by vm_compute]. Qed.

Lemma loaded_free_run : free_run (coremap (cm loaded.2)) 100 1.
Proof. apply free_runb; [apply Nat.ltb_lt; by vm_compute|by vm_compute]. Qed.

Lemma loaded_served v : served loaded.2 loaded.1 (λ _, []) v.
Proof. split; intros _; [exact loaded_tlb_free|]. exists 100%nat. exact loaded_free_run. Qed.

Lemma pagetables_well_formed_witness :
  swp (vm_fault VM_FAULT_WRITE 4194310 (Some loaded.1)) loaded.2 (λ x vm', ∃ as', x.2 = Some as' ∧
    fault_post loaded.2 loaded.1 (λ _, []) (4194310 - 4194310 mod PAGE_SIZE) (x.1, as') vm').
Proof.
  pose proof (proj2 (proj2 (proj2 (pagetables_well_formed loaded.2 loaded.1 (λ _, [])) (proj1 loaded_ok)))
    VM_FAULT_WRITE 4194310 ltac:(lia)) as H. cbv zeta in H. rewrite decide_True in H by (by right).
  exact (proj1 H (loaded_served _)).
Defined.
