(* ===== verification/SfsSuper.v ===== *)
(** * The superblock in memory

    No operation on a mounted SFS volume changes the superblock, so the size
    and the name of the volume are fixed. *)

From S2P Require Import Prelude Array Bitmap Copyinout Uio SfsDisk Dev Vnode SfsIo SfsDir SfsVnode SfsFs.

Ltac super := repeat pres_step; auto with pres.

Section super.
Context {D : Type} `{!BlockDev D} {cs : CurSpace}.

Definition same_super (fs fs' : sfs_fs D) : Prop := sfs_super_of fs' = sfs_super_of fs.
Definition f_super (s s' : fstate D) : Prop := same_super (f_fs s) (f_fs s').
Definition w_super (w w' : world D) : Prop := same_super (w_fs w) (w_fs w').

#[export] Instance same_super_pre : PreOrder same_super.
Proof. split; [done|]. unfold same_super. intros ? ? ? ? ?. congruence. Qed.
#[export] Instance f_super_pre : PreOrder f_super.
Proof. split; [done|]. intros ? ? ?. unfold f_super. apply same_super_pre. Qed.
#[export] Instance w_super_pre : PreOrder w_super.
Proof. split; [done|]. intros ? ? ?. unfold w_super. apply same_super_pre. Qed.

(** ** Lifting *)

Lemma super_on_fs {A} (m : stm (sfs_fs D) A) : pres same_super m → pres f_super (on_fs m).
Proof.
  intros Hm s a s'. unfold on_fs, mbind, outcome_bind. destruct (m (f_fs s)) as [[x fs]| | |] eqn:E; [|done..].
  intros [= <- <-]. by apply Hm in E.
Qed.

Lemma super_w_on_fs {A} (m : stm (sfs_fs D) A) : pres same_super m → pres w_super (w_on_fs m).
Proof.
  intros Hm w a w'. unfold w_on_fs, mbind, outcome_bind. destruct (m (w_fs w)) as [[x fs]| | |] eqn:E; [|done..].
  intros [= <- <-]. by apply Hm in E.
Qed.

Lemma super_w_get p : pres w_super (w_get p).
Proof. intros w a w'. unfold w_get. by destruct (w_heap w !! p); [intros [= <- <-]|]. Qed.
Lemma super_w_put p sv : pres w_super (w_put p sv).
Proof. intros w a w'. unfold w_put. by destruct (w_heap w !! p); [intros [= <- <-]|]. Qed.
Lemma super_w_new sv : pres w_super (w_new sv).
Proof. intros w a w'. by intros [= <- <-]. Qed.
Lemma super_w_kfree p : pres w_super (w_kfree p).
Proof. intros w a w'. unfold w_kfree. by destruct (w_heap w !! p); [intros [= <- <-]|]. Qed.
Lemma super_w_kmalloc : pres w_super w_kmalloc.
Proof. intros w a w'. unfold w_kmalloc. by destruct (w_mem w); intros [= <- <-]. Qed.
#[local] Hint Resolve super_on_fs super_w_on_fs super_w_get super_w_put super_w_new super_w_kfree super_w_kmalloc : pres.
#[local] Hint Extern 1 (same_super _ _) => reflexivity : pres.
#[local] Hint Extern 1 (f_super _ _) => reflexivity : pres.
#[local] Hint Extern 1 (w_super _ _) => reflexivity : pres.

Lemma super_with_file {A} p (m : stm (fstate D) A) : pres f_super m → pres w_super (with_file p m).
Proof.
  intros Hm. unfold with_file. intros w. apply slp_bind. eapply slp_mono; [apply super_w_get|]. intros sv w1 H1.
  apply slp_bind, slp_gets, slp_bind, slp_lift. intros [x s] E. apply Hm in E. apply slp_bind.
  intros [] w2 [= <-]. apply slp_bind. eapply slp_mono; [apply super_w_put|]. intros [] w3 H3. apply slp_ret.
  unfold w_super, f_super, same_super in *. cbn in *. congruence.
Qed.
#[local] Hint Resolve super_with_file : pres.

(** ** The functions *)

Lemma super_rwblock u : pres same_super (sfs_rwblock u).
Proof.
  intros fs a fs'. unfold sfs_rwblock. generalize 12%nat as n. generalize 0 as tries.
  intros tries n. revert tries u fs. induction n as [|n IH]; intros tries u fs; cbn [while_loop]; [done|].
  unfold mbind, outcome_bind. destruct (d_io (sfs_device fs) u) as [[[r u'] d']| | |]; [|done..].
  destruct (r =? EINVAL); [done|]. destruct ((r =? EIO) && (tries <? 10)); [|by intros [= <- <-]].
  intros H%IH. exact H.
Qed.
#[local] Hint Resolve super_rwblock : pres.

Lemma super_rblock data b : pres same_super (sfs_rblock data b).
Proof. unfold sfs_rblock. super. Qed.
Lemma super_wblock data b : pres same_super (sfs_wblock data b).
Proof. unfold sfs_wblock. super. Qed.
#[local] Hint Resolve super_rblock super_wblock : pres.
Lemma super_balloc : pres same_super sfs_balloc.
Proof. unfold sfs_balloc, sfs_clearblock. super. Qed.
Lemma super_bfree b : pres same_super (sfs_bfree b).
Proof. unfold sfs_bfree. super. Qed.
Lemma super_bused b : pres same_super (sfs_bused b).
Proof. unfold sfs_bused. super. Qed.
#[local] Hint Resolve super_balloc super_bfree super_bused : pres.

Lemma super_put_inode i : pres f_super (put_inode i).
Proof. unfold put_inode. super. Qed.
#[local] Hint Resolve super_put_inode : pres.
Lemma super_sync_inode : pres f_super sfs_sync_inode.
Proof. unfold sfs_sync_inode. super. Qed.
Lemma super_check_used b : pres f_super (check_used b).
Proof. unfold check_used. super. Qed.
#[local] Hint Resolve super_sync_inode super_check_used : pres.
Lemma super_bmap fileblock doalloc : pres f_super (sfs_bmap fileblock doalloc).
Proof. unfold sfs_bmap, sfs_bmap_direct, sfs_bmap_idblock. super. Qed.
#[local] Hint Resolve super_bmap : pres.
Lemma super_partialio u skipstart len : pres f_super (sfs_partialio u skipstart len).
Proof. unfold sfs_partialio. super. Qed.
Lemma super_blockio u : pres f_super (sfs_blockio u).
Proof. unfold sfs_blockio. super. Qed.
#[local] Hint Resolve super_partialio super_blockio : pres.

Lemma super_blocks n i u :
  pres f_super (λ s,
     r ← for_loop n i
       (λ _ '(u, s), '((result, u'), s') ← sfs_blockio u s;
          Done (if negb (result =? 0) then inr (result, u', s') else inl (u', s'))) (u, s);
     Done (match r with
           | inl (u', s') => ((0, u'), s')
           | inr (result, u', s') => ((result, u'), s')
           end)).
Proof.
  intros s a s'. unfold mbind at 1, outcome_bind at 1.
  destruct (for_loop _ _ _ _) as [x| | |] eqn:El; [|done..].
  assert (match x with inl (_, t) => f_super s t | inr (_, _, t) => f_super s t end) as Hx.
  { revert i u s El. induction n as [|n IH]; intros i u s; cbn [for_loop]; [by intros [= <-]|].
    unfold mbind, outcome_bind. destruct (sfs_blockio u s) as [[[r u'] s1]| | |] eqn:E; [|done..]. apply super_blockio in E.
    destruct (negb (r =? 0)); [by intros [= <-]|]. intros El. apply IH in El. destruct x as [[? ?]|[[? ?] ?]]; by transitivity s1. }
  destruct x as [[? ?]|[[? ?] ?]]; by intros [= <- <-].
Qed.
#[local] Hint Resolve super_blocks : pres.

Lemma super_io u : pres f_super (sfs_io u).
Proof. unfold sfs_io, sfs_io_transfer, sfs_io_aligned. super. Qed.
#[local] Hint Resolve super_io : pres.
Lemma super_readdir slot : pres f_super (sfs_readdir slot).
Proof. unfold sfs_readdir. super. Qed.
Lemma super_writedir sd slot : pres f_super (sfs_writedir sd slot).
Proof. unfold sfs_writedir. super. Qed.
Lemma super_nentries : pres f_super (sfs_dir_nentries (D := D)).
Proof. unfold sfs_dir_nentries. super. Qed.
#[local] Hint Resolve super_readdir super_writedir super_nentries : pres.
Lemma super_findname name : pres f_super (sfs_dir_findname name).
Proof. unfold sfs_dir_findname. super. Qed.
#[local] Hint Resolve super_findname : pres.
Lemma super_dir_link name ino : pres f_super (sfs_dir_link name ino).
Proof. unfold sfs_dir_link. super. Qed.
Lemma super_dir_unlink slot : pres f_super (sfs_dir_unlink slot).
Proof. unfold sfs_dir_unlink. super. Qed.
Lemma super_truncate_direct blocklen : pres f_super (sfs_truncate_direct (D := D) blocklen).
Proof. unfold sfs_truncate_direct. super. Qed.
Lemma super_truncate_entries blocklen idbuf : pres same_super (sfs_truncate_entries (D := D) blocklen idbuf).
Proof. unfold sfs_truncate_entries. super. Qed.
#[local] Hint Resolve super_dir_link super_dir_unlink super_truncate_direct super_truncate_entries : pres.
Lemma super_truncate_indirect blocklen idblock : pres f_super (sfs_truncate_indirect blocklen idblock).
Proof. unfold sfs_truncate_indirect. super. Qed.
#[local] Hint Resolve super_truncate_indirect : pres.
Lemma super_truncate len : pres f_super (sfs_truncate len).
Proof. unfold sfs_truncate. super. Qed.
#[local] Hint Resolve super_truncate : pres.

Lemma super_open flags : pres f_super (sfs_open (D := D) flags).
Proof. unfold sfs_open. super. Qed.
Lemma super_opendir flags : pres f_super (sfs_opendir (D := D) flags).
Proof. unfold sfs_opendir. super. Qed.
Lemma super_gettype : pres f_super (sfs_gettype (D := D)).
Proof. unfold sfs_gettype. super. Qed.
Lemma super_namefile u : pres f_super (sfs_namefile (D := D) u).
Proof. unfold sfs_namefile. super. Qed.
(** ** Vnodes *)

Lemma super_getv p : pres w_super (w_getv (D := D) p).
Proof. unfold w_getv. super. Qed.
Lemma super_putv p v : pres w_super (w_putv (D := D) p v).
Proof. unfold w_putv. super. Qed.
Lemma super_addlink p d dirty : pres w_super (w_addlink (D := D) p d dirty).
Proof. unfold w_addlink. super. Qed.
#[local] Hint Resolve super_getv super_putv super_addlink : pres.
Lemma super_VOP {A} p reclaim (call : sfs_ops → stm (world D) A) :
  (∀ ops, pres w_super (call ops)) → pres w_super (VOP (w_getv p) reclaim call).
Proof. intros H. unfold VOP. super. Qed.
#[local] Hint Resolve super_VOP : pres.
#[local] Hint Extern 2 (pres _ (modify _)) => apply pres_modify; intros ? : pres.
Lemma super_set_vnodes a : pres w_super (w_set_vnodes (D := D) a).
Proof. unfold w_set_vnodes. super. Qed.
#[local] Hint Resolve super_set_vnodes : pres.
Lemma super_vop_fsync p ops : pres w_super (sfs_vop_fsync p ops).
Proof. unfold sfs_vop_fsync, sfs_fsync. super. Qed.
Lemma super_vop_truncate p len ops : pres w_super (sfs_vop_truncate p len ops).
Proof. unfold sfs_vop_truncate. super. Qed.
#[local] Hint Resolve super_vop_fsync super_vop_truncate : pres.
Lemma super_close p : pres w_super (sfs_close p).
Proof. unfold sfs_close. super. Qed.
Lemma super_reclaim p : pres w_super (sfs_reclaim p).
Proof. unfold sfs_reclaim, sfs_drop_vnode, sfs_find_vnode. super. Qed.
#[local] Hint Resolve super_close super_reclaim : pres.
Lemma super_decref p : pres w_super (sfs_decref p).
Proof. unfold sfs_decref, vnode_decref. super. Qed.
Lemma super_incref p : pres w_super (sfs_incref (D := D) p).
Proof. unfold sfs_incref. super. Qed.
#[local] Hint Resolve super_decref super_incref : pres.
Lemma super_loadvnode ino forcetype : pres w_super (sfs_loadvnode ino forcetype).
Proof. unfold sfs_loadvnode, sfs_find_loaded, sfs_addvnode. super. Qed.
#[local] Hint Resolve super_loadvnode : pres.
Lemma super_getroot : pres w_super sfs_getroot.
Proof. unfold sfs_getroot. super. Qed.
Lemma super_lookonce p name : pres w_super (sfs_lookonce p name).
Proof. unfold sfs_lookonce. super. Qed.
#[local] Hint Resolve super_lookonce : pres.
Lemma super_creat p name excl : pres w_super (sfs_creat p name excl).
Proof. unfold sfs_creat, sfs_makeobj. super. Qed.
Lemma super_link p name f : pres w_super (sfs_link p name f).
Proof. unfold sfs_link. super. Qed.
Lemma super_remove p name : pres w_super (sfs_remove p name).
Proof. unfold sfs_remove. super. Qed.
Lemma super_rename d1 n1 d2 n2 : pres w_super (sfs_rename d1 n1 d2 n2).
Proof. unfold sfs_rename. super. Qed.
Lemma super_lookparent p path buflen : pres w_super (sfs_lookparent (D := D) p path buflen).
Proof. unfold sfs_lookparent. super. Qed.
Lemma super_lookup p path : pres w_super (sfs_lookup p path).
Proof. unfold sfs_lookup. super. Qed.
#[local] Hint Resolve super_getroot super_creat super_link super_remove super_rename super_lookparent super_lookup : pres.

(** ** Syncing *)

Lemma super_mapio rw : pres same_super (sfs_mapio rw).
Proof. unfold sfs_mapio. super. Qed.
#[local] Hint Resolve super_mapio : pres.
Lemma super_sync_map : pres same_super sfs_sync_map.
Proof. unfold sfs_sync_map. super. Qed.
#[local] Hint Resolve super_sync_map : pres.
Lemma super_sync : pres w_super sfs_sync.
Proof. unfold sfs_sync, sfs_sync_vnodes. super. Qed.
#[local] Hint Resolve super_sync : pres.
End super.

#[export] Hint Resolve super_open super_opendir super_gettype super_namefile super_on_fs super_w_on_fs super_w_get super_w_put super_w_new super_w_kfree super_w_kmalloc super_with_file super_rwblock
  super_rblock super_wblock super_balloc super_bfree super_bused super_put_inode super_sync_inode super_check_used super_bmap super_partialio super_blockio
  super_blocks super_io super_readdir super_writedir super_nentries super_findname super_dir_link super_dir_unlink super_truncate_direct super_truncate_entries super_truncate_indirect super_truncate super_getv super_putv
  super_addlink super_VOP super_set_vnodes super_vop_fsync super_vop_truncate super_close super_reclaim super_decref super_incref super_loadvnode super_getroot super_lookonce super_creat super_link super_remove super_rename super_lookparent super_lookup super_mapio super_sync_map super_sync : pres.
#[export] Hint Extern 1 (same_super _ _) => reflexivity : pres.
#[export] Hint Extern 1 (f_super _ _) => reflexivity : pres.
#[export] Hint Extern 1 (w_super _ _) => reflexivity : pres.
#[export] Hint Extern 2 (pres _ (modify _)) => apply pres_modify; intros ? : pres.
