(* ===== verification/Device.v ===== *)
(** * kern/include/fs.h, kern/fs/vfs/device.c, kern/fs/vfs/devnull.c

    What the VFS layer finds in memory: vnodes, filesystems and devices, each
    with its table of functions, in a world [W] that the filesystems and the
    drivers share.  Then the vnodes of devices, and the null device.  Strings are
    lists of bytes without the terminator. *)

From Stdlib Require Import Strings.String Strings.Ascii.
From S2P Require Import Prelude Uio Vnode.

Definition str (s : string) : list Z := (λ a, Z.of_N (N_of_ascii a)) <$> list_ascii_of_string s.

(** struct fs: its functions; the volume name may be missing. *)
Record fs_ops (W : Type) := mkFsOps {
  fs_sync : stm W Z;
  fs_getvolname : stm W (option (list Z));
  fs_getroot : stm W Z;
  fs_unmount : stm W Z;
}.
Arguments mkFsOps {W} _ _ _ _.
Arguments fs_sync {W} _.
Arguments fs_getvolname {W} _.
Arguments fs_getroot {W} _.
Arguments fs_unmount {W} _.

(** struct device: its functions and its size in blocks. *)
Record device (W : Type) := mkDevice {
  dv_open : Z → stm W Z;
  dv_close : stm W Z;
  dv_io : uio → stm W (Z * uio);
  dv_ioctl : Z → Z → stm W Z;
  dv_blocks : Z;
  dv_blocksize : Z;
}.
Arguments mkDevice {W} _ _ _ _ _ _.
Arguments dv_open {W} _.
Arguments dv_close {W} _.
Arguments dv_io {W} _.
Arguments dv_ioctl {W} _.
Arguments dv_blocks {W} _.
Arguments dv_blocksize {W} _.

(** A world with vnodes, filesystems and devices, by their addresses: a vnode's
    counts and function table, its filesystem ([None] for NULL), and the device
    a device vnode stands for; the allocator; and memory for a new device
    vnode. *)
Class VnodeWorld (W Ops : Type) := {
  vw_get : Z → stm W (vnode Ops);
  vw_put : Z → vnode Ops → stm W unit;
  vw_table : Ops → vnode_ops W;
  vw_vnfs : Z → stm W (option Z);
  vw_fsops : Z → stm W (fs_ops W);
  vw_kmalloc : stm W bool;
  vw_devops : Ops;
  vw_newdev : vnode Ops → option Z → stm W Z;
  vw_freedev : Z → stm W unit;
}.

(** ** The macros of vnode.h and fs.h *)

Section macros.
Context {W Ops : Type} `{!VnodeWorld W Ops}.

Definition VOP_ {A} (p : Z) (call : vnode_ops W → stm W A) : stm W A :=
  VOP (vw_get p) false (λ ops, call (vw_table ops)).

Definition VOP_INCREF (p : Z) : stm W unit :=
  v ← vw_get p; v' ← lift (vnode_incref v); vw_put p v'.
Definition VOP_INCOPEN (p : Z) : stm W unit :=
  v ← vw_get p; v' ← lift (vnode_incopen v); vw_put p v'.
Definition VOP_DECREF (p : Z) : stm W unit :=
  vnode_decref (vw_get p) (vw_put p) (λ ops, vop_reclaim (vw_table ops) p).
Definition VOP_DECOPEN (p : Z) : stm W unit :=
  vnode_decopen (vw_get p) (vw_put p) (λ ops, vop_close (vw_table ops) p).

Definition FSOP {A} (fs : Z) (call : fs_ops W → stm W A) : stm W A :=
  ops ← vw_fsops fs; call ops.
End macros.

(** ** Device vnodes *)

Section device.
Context {W Ops : Type} (getv : Z → stm W (vnode Ops)) (incref : Z → stm W unit) (vn_data : Z → stm W (device W)).

Definition dev_open (v flags : Z) : stm W Z :=
  d ← vn_data v;
  if negb (Z.land flags (Z.lor O_CREAT (Z.lor O_TRUNC (Z.lor O_EXCL O_APPEND))) =? 0) then mret EINVAL
  else dv_open d flags.

Definition dev_close (v : Z) : stm W Z := d ← vn_data v; dv_close d.

(** Devices stay when they are not in use. *)
Definition dev_reclaim (v : Z) : stm W Z := mret 0.

Definition dev_read (v : Z) (u : uio) : stm W (Z * uio) :=
  d ← vn_data v; lift (kassert (bool_decide (uio_rw_of u = UIO_READ)));; dv_io d u.

Definition null_io (v : Z) (u : uio) : stm W (Z * uio) := mret (EINVAL, u).

Definition dev_write (v : Z) (u : uio) : stm W (Z * uio) :=
  d ← vn_data v; lift (kassert (bool_decide (uio_rw_of u = UIO_WRITE)));; dv_io d u.

Definition dev_ioctl (v op data : Z) : stm W Z := d ← vn_data v; dv_ioctl d op data.

(** A device with a known length is a block device. *)
Definition dev_gettype (v : Z) : stm W (Z * Z) :=
  d ← vn_data v; mret (0, if dv_blocks d >? 0 then S_IFBLK else S_IFCHR).

Definition dev_stat (v : Z) : stm W (Z * stat) :=
  d ← vn_data v;
  '(result, mode) ← VOP (getv v) false (λ _, dev_gettype v);
  if negb (result =? 0) then mret (result, mkStat mode 0 0 0) else
  mret (0, mkStat mode 1 (if dv_blocks d >? 0 then s32 (dv_blocks d * dv_blocksize d) else 0) (dv_blocks d)).

(** [pos] is signed and the block size unsigned, so both are compared and
    divided as unsigned numbers; the test for a negative position comes second. *)
Definition dev_tryseek (v pos : Z) : stm W Z :=
  d ← vn_data v;
  if dv_blocks d >? 0 then
    r ← lift (c_rem (u32 pos) (dv_blocksize d));
    if negb (r =? 0) then mret EINVAL else
    if pos <? 0 then mret EINVAL else
    if dv_blocks d <=? u32 pos / dv_blocksize d then mret EINVAL else mret 0
  else mret ESPIPE.

Definition null_fsync (v : Z) : stm W Z := mret 0.

Definition dev_mmap (v : Z) : stm W Z := mret EUNIMP.

Definition dev_truncate (v len : Z) : stm W Z :=
  d ← vn_data v;
  mret (if (dv_blocks d >? 0) && (s32 (dv_blocks d * dv_blocksize d) =? len) then 0 else EINVAL).

Definition dev_namefile (v : Z) (u : uio) : stm W (Z * uio) := mret (0, u).

Definition null_creat (v : Z) (name : list Z) (excl : bool) : stm W (Z * Z) := mret (ENOTDIR, 0).
Definition null_symlink (v : Z) (contents name : list Z) : stm W Z := mret ENOTDIR.
Definition null_nameop (v : Z) (name : list Z) : stm W Z := mret ENOTDIR.
Definition null_link (v : Z) (name : list Z) (file : Z) : stm W Z := mret ENOTDIR.
Definition null_rename (v : Z) (n1 : list Z) (v2 : Z) (n2 : list Z) : stm W Z := mret ENOTDIR.

Definition dev_lookup (dir : Z) (pathname : list Z) : stm W (Z * Z) :=
  if (0 <? Z.of_nat (length pathname)) then mret (ENOENT, 0) else incref dir;; mret (0, dir).

Definition dev_lookparent (dir : Z) (pathname : list Z) (buflen : Z) : stm W (Z * Z * list Z) :=
  mret (ENOTDIR, 0, []).

Definition dev_vnode_ops : vnode_ops W := {|
  vop_open := dev_open;
  vop_close := dev_close;
  vop_reclaim := dev_reclaim;
  vop_read := dev_read;
  vop_readlink := null_io;
  vop_getdirentry := null_io;
  vop_write := dev_write;
  vop_ioctl := dev_ioctl;
  vop_stat := dev_stat;
  vop_gettype := dev_gettype;
  vop_tryseek := dev_tryseek;
  vop_fsync := null_fsync;
  vop_mmap := dev_mmap;
  vop_truncate := dev_truncate;
  vop_namefile := dev_namefile;
  vop_creat := null_creat;
  vop_symlink := null_symlink;
  vop_mkdir := null_nameop;
  vop_link := null_link;
  vop_remove := null_nameop;
  vop_rmdir := null_nameop;
  vop_rename := null_rename;
  vop_lookup := dev_lookup;
  vop_lookparent := dev_lookparent;
|}.
End device.

(** A vnode for a device, NULL (0) when there is no memory; a vnode that cannot
    be initialised stops the kernel. *)
Definition dev_create_vnode {W Ops} `{!VnodeWorld W Ops} (dev : option Z) : stm W Z :=
  m ← vw_kmalloc;
  if negb m then mret 0 else
  m ← vw_kmalloc;
  let '(result, v) := vnode_init m vw_devops in
  if negb (result =? 0) then lift Panic else vw_newdev v dev.

(** ** null: *)

Section null.
Context {W : Type}.

Definition nullopen (openflags : Z) : stm W Z := mret 0.
Definition nullclose : stm W Z := mret 0.

(** A write is discarded, a read finds the end of the file. *)
Definition nullio (u : uio) : stm W (Z * uio) :=
  mret (0, match uio_rw_of u with
           | UIO_WRITE => mkUio (iov_base u) (iov_len u) (uio_offset u) 0 (uio_segflg u) (uio_rw_of u) (uio_space u)
           | UIO_READ => u
           end).

Definition nullioctl (op data : Z) : stm W Z := mret EINVAL.

Definition null_device : device W := mkDevice nullopen nullclose nullio nullioctl 0 1.
End null.
