(* ===== verification/Vfs.v ===== *)
(** * kern/fs/vfs: named devices, path names and the current directory

    vfslist.c, vfslookup.c, vfscwd.c and vfspath.c.  The state is the world the
    vnodes live in, the table of named devices with its lock, the vnode that path
    names starting with a slash begin at, with its lock, and the current directory
    of the current thread.  Everything here is called by one thread at a time; a
    lock is held or free, and a thread that takes a lock it holds waits for ever
    ([NoFuel]).  Path names are lists of bytes without the terminator; the code
    cuts the device name off inside the buffer of its caller, the model hands back
    the rest of the path as a list of its own. *)

From Stdlib Require Import Strings.String.
From S2P Require Import Prelude Array Copyinout Uio Vnode Device.

Definition NAME_MAX : Z := 255.

Definition COLON : Z := 58.
Definition SLASH : Z := 47.

(** A named device. *)
Record knowndev := mkKnown {
  kd_name : list Z;
  kd_rawname : option (list Z);
  kd_device : option Z;
  kd_vnode : Z;
  kd_fs : option Z;
}.

Definition kd_set_fs (fs : option Z) (kd : knowndev) : knowndev :=
  mkKnown (kd_name kd) (kd_rawname kd) (kd_device kd) (kd_vnode kd) fs.

Section vfs.
Context {W Ops : Type} `{!VnodeWorld W Ops} {cs : CurSpace}.

Record vfs := mkVfs {
  vfs_w : W;
  knowndevs : array knowndev;
  knowndevs_lock : bool;
  bootfs_vnode : option Z;
  bootfs_lock : bool;
  t_cwd : option Z;
}.

(** ** Access to the state *)

Definition on_w {A} (m : stm W A) : stm vfs A := λ s,
  '(a, w) ← m (vfs_w s);
  Done (a, mkVfs w (knowndevs s) (knowndevs_lock s) (bootfs_vnode s) (bootfs_lock s) (t_cwd s)).

Definition set_knowndevs (a : array knowndev) : stm vfs unit :=
  modify (λ s, mkVfs (vfs_w s) a (knowndevs_lock s) (bootfs_vnode s) (bootfs_lock s) (t_cwd s)).
Definition set_bootfs (v : option Z) : stm vfs unit :=
  modify (λ s, mkVfs (vfs_w s) (knowndevs s) (knowndevs_lock s) v (bootfs_lock s) (t_cwd s)).
Definition set_cwd (v : option Z) : stm vfs unit :=
  modify (λ s, mkVfs (vfs_w s) (knowndevs s) (knowndevs_lock s) (bootfs_vnode s) (bootfs_lock s) v).

(** [lock_acquire] and [lock_release] of the two locks; releasing a lock that is
    not held fails an assertion. *)
Definition set_devlock (b : bool) : stm vfs unit :=
  modify (λ s, mkVfs (vfs_w s) (knowndevs s) b (bootfs_vnode s) (bootfs_lock s) (t_cwd s)).
Definition set_bootlock (b : bool) : stm vfs unit :=
  modify (λ s, mkVfs (vfs_w s) (knowndevs s) (knowndevs_lock s) (bootfs_vnode s) b (t_cwd s)).
Definition acquire_devs : stm vfs unit :=
  h ← gets knowndevs_lock; if h : bool then lift NoFuel else set_devlock true.
Definition release_devs : stm vfs unit :=
  h ← gets knowndevs_lock; lift (kassert h);; set_devlock false.
Definition acquire_boot : stm vfs unit :=
  h ← gets bootfs_lock; if h : bool then lift NoFuel else set_bootlock true.
Definition release_boot : stm vfs unit :=
  h ← gets bootfs_lock; lift (kassert h);; set_bootlock false.

(** A loop over the table of devices; [inr] leaves it. *)
Definition each_dev {R} (body : Z → knowndev → stm vfs (unit + R)) : stm vfs (unit + R) :=
  num ← gets (λ s, array_getnum (knowndevs s));
  for_stm (Z.to_nat num) 0
    (λ i _, devs ← gets knowndevs; kd ← lift (array_getguy devs i); body i kd) tt.

Definition put_dev (i : Z) (kd : knowndev) : stm vfs unit :=
  devs ← gets knowndevs; devs' ← lift (array_setguy devs i kd); set_knowndevs devs'.

Definition incref (p : Z) : stm vfs unit := on_w (VOP_INCREF p).
Definition decref (p : Z) : stm vfs unit := on_w (VOP_DECREF p).
Definition vop {A} (p : Z) (call : vnode_ops W → stm W A) : stm vfs A := on_w (VOP_ p call).
Definition fsop {A} (fs : Z) (call : fs_ops W → stm W A) : stm vfs A := on_w (FSOP fs call).

(** ** vfslist.c: the named devices *)

Definition vfs_sync : stm vfs Z :=
  acquire_devs;;
  _ ← each_dev (R := unit) (λ _ dev,
    match kd_fs dev with
    | Some fs => _ ← fsop fs fs_sync; mret (inl tt)
    | None => mret (inl tt)
    end);
  release_devs;;
  mret 0.

Definition isname (name : list Z) (s : option (list Z)) : bool := bool_decide (s = Some name).

(** The search of [vfs_getroot]: the result and the vnode when the device has the
    name.  The tests for the device itself, the last ones of a round. *)
Definition getroot_dev (devname : list Z) (kd : knowndev) : stm vfs (unit + Z * Z) :=
  if bool_decide (kd_name kd = devname) then
    lift (kassert (bool_decide (kd_fs kd = None)));;
    lift (kassert (bool_decide (kd_rawname kd = None)));;
    lift (kassert (bool_decide (kd_device kd ≠ None)));;
    incref (kd_vnode kd);;
    mret (inr (0, kd_vnode kd))
  else if isname devname (kd_rawname kd) then
    lift (kassert (bool_decide (kd_device kd ≠ None)));;
    incref (kd_vnode kd);;
    mret (inr (0, kd_vnode kd))
  else mret (inl tt).

Definition getroot_step (devname : list Z) (kd : knowndev) : stm vfs (unit + Z * Z) :=
  match kd_fs kd with
  | Some fs =>
      volname ← fsop fs fs_getvolname;
      if bool_decide (kd_name kd = devname) || isname devname volname then
        p ← fsop fs fs_getroot; mret (inr (0, p))
      else getroot_dev devname kd
  | None =>
      if bool_decide (kd_rawname kd ≠ None) && bool_decide (kd_name kd = devname)
      then mret (inr (ENXIO, 0)) else getroot_dev devname kd
  end.

Definition vfs_getroot (devname : list Z) : stm vfs (Z * Z) :=
  acquire_devs;;
  r ← each_dev (λ _ kd, getroot_step devname kd);
  release_devs;;
  mret (match r with inl _ => (ENODEV, 0) | inr x => x end).

Definition vfs_getdevname (fs : Z) : stm vfs (option (list Z)) :=
  acquire_devs;;
  r ← each_dev (λ _ kd,
    if bool_decide (kd_fs kd = Some fs) then mret (inr (kd_name kd)) else mret (inl tt));
  release_devs;;
  mret (match r with inl _ => None | inr name => Some name end).

(** NULL when there is no memory. *)
Definition mkrawname (name : list Z) : stm vfs (option (list Z)) :=
  m ← on_w vw_kmalloc; mret (if m : bool then Some (name ++ str "raw") else None).

Definition samestring (a b : option (list Z)) : bool :=
  match a, b with Some a, Some b => bool_decide (a = b) | _, _ => false end.
Definition samestring3 (a b c d : option (list Z)) : bool :=
  samestring a b || samestring a c || samestring a d.

Definition badnames (n1 n2 n3 : option (list Z)) : stm vfs bool :=
  h ← gets knowndevs_lock;
  lift (kassert h);;
  r ← each_dev (λ _ kd,
    volbad ←
      match kd_fs kd with
      | Some fs => volname ← fsop fs fs_getvolname; mret (samestring3 volname n1 n2 n3)
      | None => mret false
      end;
    mret (if volbad || (samestring3 (kd_rawname kd) n1 n2 n3 || samestring3 (Some (kd_name kd)) n1 n2 n3)
          then inr tt else inl tt));
  mret (match r with inl _ => false | inr _ => true end).

Definition vfs_doadd (dname : list Z) (mountable : bool) (dev fs : option Z) : stm vfs Z :=
  m ← on_w vw_kmalloc;
  if negb m then mret ENOMEM else
  let name := dname in
  rawname ← (if mountable then mkrawname name else mret None);
  if mountable && bool_decide (rawname = None) then mret ENOMEM else
  vnode ← on_w (dev_create_vnode dev);
  if vnode =? 0 then mret ENOMEM else
  m ← on_w vw_kmalloc;
  if negb m then on_w (vw_freedev vnode);; mret ENOMEM else
  let kd := mkKnown name rawname dev vnode fs in
  volname ← match fs with Some fs => fsop fs fs_getvolname | None => mret None end;
  acquire_devs;;
  bad ← badnames (Some name) rawname volname;
  err ←
    (if bad : bool then mret EEXIST else
     devs ← gets knowndevs;
     m ← on_w vw_kmalloc;
     '(err, devs') ← lift (array_add m devs kd);
     set_knowndevs devs';;
     mret err);
  release_devs;;
  mret err.

Definition vfs_adddev (devname : list Z) (dev : option Z) (mountable : bool) : stm vfs Z :=
  vfs_doadd devname mountable dev None.
Definition vfs_addfs (devname : list Z) (fs : Z) : stm vfs Z :=
  vfs_doadd devname false None (Some fs).

(** The result and the place of the device in the table. *)
Definition findmount (devname : list Z) : stm vfs (Z * (Z * knowndev)) :=
  h ← gets knowndevs_lock;
  lift (kassert h);;
  r ← each_dev (λ i dev,
    mret (match kd_rawname dev with
          | None => inl tt
          | Some _ => if bool_decide (devname = kd_name dev) then inr (i, dev) else inl tt
          end));
  mret (match r with inl _ => (ENODEV, (0, mkKnown [] None None 0 None)) | inr x => (0, x) end).

(** [mountfunc] gets the device and hands back a filesystem. *)
Definition vfs_mount (devname : list Z) (mountfunc : Z → stm W (Z * option Z)) : stm vfs Z :=
  acquire_devs;;
  '(result, (i, kd)) ← findmount devname;
  result ←
    (if negb (result =? 0) then mret result else
     if bool_decide (kd_fs kd ≠ None) then mret EBUSY else
     lift (kassert (bool_decide (kd_rawname kd ≠ None)));;
     dev ← lift (match kd_device kd with Some dev => Done dev | None => Panic end);
     '(result, fs) ← on_w (mountfunc dev);
     if negb (result =? 0) then mret result else
     fs ← lift (match fs with Some fs => Done fs | None => Panic end);
     put_dev i (kd_set_fs (Some fs) kd);;
     _ ← fsop fs fs_getvolname;
     mret 0);
  release_devs;;
  mret result.

Definition vfs_unmount (devname : list Z) : stm vfs Z :=
  acquire_devs;;
  '(result, (i, kd)) ← findmount devname;
  result ←
    (if negb (result =? 0) then mret result else
     match kd_fs kd with
     | None => mret EINVAL
     | Some fs =>
         lift (kassert (bool_decide (kd_rawname kd ≠ None)));;
         lift (kassert (bool_decide (kd_device kd ≠ None)));;
         result ← fsop fs fs_sync;
         if negb (result =? 0) then mret result else
         result ← fsop fs fs_unmount;
         if negb (result =? 0) then mret result else
         put_dev i (kd_set_fs None kd);;
         mret 0
     end);
  release_devs;;
  mret result.

(** One round of [vfs_unmountall]. *)
Definition unmount_step (i : Z) (dev : knowndev) : stm vfs unit :=
  match kd_rawname dev, kd_fs dev with
  | None, _ | _, None => mret tt
  | Some _, Some fs =>
      result ← fsop fs fs_sync;
      result ← (if negb (result =? 0) then fsop fs fs_sync else mret result);
      if negb (result =? 0) then mret tt else
      result ← fsop fs fs_unmount;
      if negb (result =? 0) then mret tt else
      put_dev i (kd_set_fs None dev)
  end.

Definition vfs_unmountall : stm vfs Z :=
  acquire_devs;;
  _ ← each_dev (R := unit) (λ i dev, unmount_step i dev;; mret (inl tt));
  release_devs;;
  mret 0.

(** ** vfscwd.c: the current directory *)

Definition vfs_getcurdir : stm vfs (Z * Z) :=
  c ← gets t_cwd;
  match c with
  | Some p => incref p;; mret (0, p)
  | None => mret (ENOENT, 0)
  end.

Definition S_ISDIR (mode : Z) : bool := Z.land mode S_IFMT =? S_IFDIR.

Definition vfs_setcurdir (dir : Z) : stm vfs Z :=
  '(result, vtype) ← vop dir (λ ops, vop_gettype ops dir);
  if negb (result =? 0) then mret result else
  if negb (S_ISDIR vtype) then mret ENOTDIR else
  incref dir;;
  old ← gets t_cwd;
  set_cwd (Some dir);;
  (match old with Some old => decref old | None => mret tt end);;
  mret 0.

Definition vfs_clearcurdir : stm vfs Z :=
  old ← gets t_cwd;
  set_cwd None;;
  (match old with Some old => decref old | None => mret tt end);;
  mret 0.

(** ** vfslookup.c: path names *)

(** [path[i]], the terminator included. *)
Definition char_at (path : list Z) (i : Z) : outcome Z :=
  if (0 <=? i) && (i <=? Z.of_nat (length path))
  then Done (default 0 (path !! Z.to_nat i)) else Undef.

(** The position of the first colon or slash: the colon's and the slash's, -1
    for the one that is not it. *)
Fixpoint first_sep (path : list Z) (i : Z) : Z * Z :=
  match path with
  | [] => (-1, -1)
  | c :: path' =>
      if c =? COLON then (i, -1) else
      if c =? SLASH then (-1, i) else first_sep path' (i + 1)
  end.

(** [while (path[i+1]=='/') i++] *)
Definition skip_slashes (path : list Z) (i : Z) : outcome Z :=
  while_loop (S (length path))
    (λ i, c ← char_at path (i + 1); Done (if c =? SLASH then inl (i + 1) else inr i)) i.

(** The result, the rest of the path and the vnode it starts at; after a failure
    the last two are not used. *)
Definition getdevice (path : list Z) : stm vfs (Z * list Z * Z) :=
  let '(colon, slash) := first_sep path 0 in
  if (colon <? 0) && negb (slash =? 0) then
    '(result, vn) ← vfs_getcurdir;
    if negb (result =? 0) then mret (result, [], 0) else mret (0, path, vn)
  else if 0 <? colon then
    colon' ← lift (skip_slashes path colon);
    '(result, vn) ← vfs_getroot (take (Z.to_nat colon) path);
    if negb (result =? 0) then mret (result, [], 0) else
    mret (0, drop (Z.to_nat (colon' + 1)) path, vn)
  else
    lift (kassert ((colon =? 0) || (slash =? 0)));;
    c ← lift (char_at path 0);
    '(result, vn) ←
      (if c =? SLASH then
         acquire_boot;;
         b ← gets bootfs_vnode;
         match b with
         | None => release_boot;; mret (ENOENT, 0)
         | Some p => incref p;; release_boot;; mret (0, p)
         end
       else
         lift (kassert (c =? COLON));;
         '(result, vn) ← vfs_getcurdir;
         if negb (result =? 0) then mret (result, 0) else
         fs ← on_w (vw_vnfs vn);
         fs ← lift (match fs with Some fs => Done fs | None => Panic end);
         root ← fsop fs fs_getroot;
         decref vn;;
         mret (0, root));
    if negb (result =? 0) then mret (result, [], 0) else
    i ← lift (skip_slashes path 0);
    mret (0, drop (Z.to_nat (i + 1)) path, vn).

Definition vfs_lookparent (path : list Z) (buflen : Z) : stm vfs (Z * Z * list Z) :=
  '(result, path, startvn) ← getdevice path;
  if negb (result =? 0) then mret (result, 0, []) else
  r ←
    (if Z.of_nat (length path) =? 0 then mret (EINVAL, 0, [])
     else vop startvn (λ ops, vop_lookparent ops startvn path buflen));
  decref startvn;;
  mret r.

Definition vfs_lookup (path : list Z) : stm vfs (Z * Z) :=
  '(result, path, startvn) ← getdevice path;
  if negb (result =? 0) then mret (result, 0) else
  if Z.of_nat (length path) =? 0 then mret (0, startvn) else
  r ← vop startvn (λ ops, vop_lookup ops startvn path);
  decref startvn;;
  mret r.

Definition vfs_chdir (path : list Z) : stm vfs Z :=
  '(result, vn) ← vfs_lookup path;
  if negb (result =? 0) then mret result else
  result ← vfs_setcurdir vn;
  decref vn;;
  mret result.

Definition vfs_getcwd (u : uio) : stm vfs (Z * uio) :=
  lift (kassert (bool_decide (uio_rw_of u = UIO_READ)));;
  '(result, cwd) ← vfs_getcurdir;
  if negb (result =? 0) then mret (result, u) else
  fs ← on_w (vw_vnfs cwd);
  fs ← lift (match fs with Some fs => Done fs | None => Panic end);
  name ← fsop fs fs_getvolname;
  name ← match name with Some name => mret (Some name) | None => vfs_getdevname fs end;
  name ← lift (match name with Some name => Done name | None => Panic end);
  '(result, _, u) ← lift (uiomove name 0 (Z.of_nat (length name)) u);
  '(result, u) ←
    (if negb (result =? 0) then mret (result, u) else
     '(result, _, u) ← lift (uiomove [COLON] 0 1 u);
     if negb (result =? 0) then mret (result, u) else
     vop cwd (λ ops, vop_namefile ops cwd u));
  decref cwd;;
  mret (result, u).

Definition change_bootfs (newguy : option Z) : stm vfs unit :=
  acquire_boot;;
  oldguy ← gets bootfs_vnode;
  set_bootfs newguy;;
  release_boot;;
  match oldguy with Some old => decref old | None => mret tt end.

(** [strchr]: the string from the first [c] on. *)
Fixpoint strchr (s : list Z) (c : Z) : option (list Z) :=
  match s with
  | [] => None
  | x :: s' => if x =? c then Some s else strchr s' c
  end.

(** [snprintf] into a buffer of [NAME_MAX] bytes cuts the name off. *)
Definition vfs_setbootfs (fsname : list Z) : stm vfs Z :=
  let tmp := take (Z.to_nat (NAME_MAX - 1)) fsname in
  let s := strchr tmp COLON in
  if match s with Some s => 0 <? Z.of_nat (length s) | None => false end then mret EINVAL else
  result ← vfs_chdir (match s with Some _ => tmp | None => tmp ++ [COLON] end);
  if negb (result =? 0) then mret result else
  '(result, newguy) ← vfs_getcurdir;
  if negb (result =? 0) then mret result else
  change_bootfs (Some newguy);;
  mret 0.

Definition vfs_clearbootfs : stm vfs unit := change_bootfs None.

(** ** vfspath.c: operations on path names *)

(** The truncation [vfs_open] does for [O_TRUNC], and its failure. *)
Definition open_trunc (vn : Z) (canwrite : bool) : stm vfs Z :=
  result ← (if negb canwrite then mret EINVAL else vop vn (λ ops, vop_truncate ops vn 0));
  if negb (result =? 0) then
    on_w (VOP_DECOPEN vn);;
    decref vn;;
    mret result
  else mret 0.

Definition vfs_open (path : list Z) (openflags : Z) : stm vfs (Z * Z) :=
  let how := Z.land openflags O_ACCMODE in
  if negb (how =? O_RDONLY) && negb (how =? O_WRONLY) && negb (how =? O_RDWR) then mret (EINVAL, 0) else
  let canwrite := negb (how =? O_RDONLY) in
  '(result, vn) ←
    (if negb (Z.land openflags O_CREAT =? 0) then
       let excl := negb (Z.land openflags O_EXCL =? 0) in
       '(result, dir, name) ← vfs_lookparent path (NAME_MAX + 1);
       if negb (result =? 0) then mret (result, 0) else
       r ← vop dir (λ ops, vop_creat ops dir name excl);
       decref dir;;
       mret r
     else vfs_lookup path);
  if negb (result =? 0) then mret (result, 0) else
  result ← vop vn (λ ops, vop_open ops vn openflags);
  if negb (result =? 0) then
    decref vn;;
    mret (result, 0)
  else
  on_w (VOP_INCOPEN vn);;
  result ← (if negb (Z.land openflags O_TRUNC =? 0) then open_trunc vn canwrite else mret 0);
  if negb (result =? 0) then mret (result, 0) else mret (0, vn).

Definition vfs_close (vn : Z) : stm vfs unit :=
  on_w (VOP_DECOPEN vn);;
  decref vn.

Definition vfs_remove (path : list Z) : stm vfs Z :=
  '(result, dir, name) ← vfs_lookparent path (NAME_MAX + 1);
  if negb (result =? 0) then mret result else
  result ← vop dir (λ ops, vop_remove ops dir name);
  decref dir;;
  mret result.

(** Both vnodes are of one filesystem. *)
Definition same_fs (a b : option Z) : bool := bool_decide (a ≠ None) && bool_decide (a = b).

Definition vfs_rename (oldpath newpath : list Z) : stm vfs Z :=
  '(result, olddir, oldname) ← vfs_lookparent oldpath (NAME_MAX + 1);
  if negb (result =? 0) then mret result else
  '(result, newdir, newname) ← vfs_lookparent newpath (NAME_MAX + 1);
  if negb (result =? 0) then
    decref olddir;;
    mret result
  else
  f1 ← on_w (vw_vnfs olddir);
  f2 ← on_w (vw_vnfs newdir);
  if negb (same_fs f1 f2) then
    decref newdir;;
    decref olddir;;
    mret EXDEV
  else
  result ← vop olddir (λ ops, vop_rename ops olddir oldname newdir newname);
  decref newdir;;
  decref olddir;;
  mret result.

Definition vfs_link (oldpath newpath : list Z) : stm vfs Z :=
  '(result, oldfile) ← vfs_lookup oldpath;
  if negb (result =? 0) then mret result else
  '(result, newdir, newname) ← vfs_lookparent newpath (NAME_MAX + 1);
  if negb (result =? 0) then
    decref oldfile;;
    mret result
  else
  f1 ← on_w (vw_vnfs oldfile);
  f2 ← on_w (vw_vnfs newdir);
  if negb (same_fs f1 f2) then
    decref newdir;;
    decref oldfile;;
    mret EXDEV
  else
  result ← vop newdir (λ ops, vop_link ops newdir newname oldfile);
  decref newdir;;
  decref oldfile;;
  mret result.

(** The table declares the contents as the first string; the macro passes the
    name first. *)
Definition vfs_symlink (contents path : list Z) : stm vfs Z :=
  '(result, newdir, newname) ← vfs_lookparent path (NAME_MAX + 1);
  if negb (result =? 0) then mret result else
  result ← vop newdir (λ ops, vop_symlink ops newdir newname contents);
  decref newdir;;
  mret result.

Definition vfs_readlink (path : list Z) (u : uio) : stm vfs (Z * uio) :=
  '(result, vn) ← vfs_lookup path;
  if negb (result =? 0) then mret (result, u) else
  r ← vop vn (λ ops, vop_readlink ops vn u);
  decref vn;;
  mret r.

Definition vfs_mkdir (path : list Z) : stm vfs Z :=
  '(result, parent, name) ← vfs_lookparent path (NAME_MAX + 1);
  if negb (result =? 0) then mret result else
  result ← vop parent (λ ops, vop_mkdir ops parent name);
  decref parent;;
  mret result.

Definition vfs_rmdir (path : list Z) : stm vfs Z :=
  '(result, parent, name) ← vfs_lookparent path (NAME_MAX + 1);
  if negb (result =? 0) then mret result else
  result ← vop parent (λ ops, vop_rmdir ops parent name);
  decref parent;;
  mret result.

(** ** Initialisation *)

(** The tables start empty; the boot process stops without memory for them.
    [devnull_create] adds the null device, which is at the address [dev]. *)
Definition devnull_create (dev : Z) : stm vfs unit :=
  m ← on_w vw_kmalloc;
  if negb m then lift Panic else
  result ← vfs_adddev (str "null") (Some dev) false;
  if negb (result =? 0) then lift Panic else mret tt.

Definition vfs_initbootfs : stm vfs unit :=
  m ← on_w vw_kmalloc; if negb m then lift Panic else set_bootlock false.

Definition vfs_bootstrap (null_dev : Z) : stm vfs unit :=
  m ← on_w vw_kmalloc;
  devs ← lift (match array_create m with Some a => Done a | None => Panic end);
  set_knowndevs devs;;
  m ← on_w vw_kmalloc;
  if negb m then lift Panic else
  set_devlock false;;
  vfs_initbootfs;;
  devnull_create null_dev.
End vfs.
Arguments vfs _ : clear implicits.
