(* ===== verification/VfsLaws.v ===== *)
(** * What the VFS layer relies on

    The contract of kern/include/vnode.h and kern/include/fs.h, as far as the
    reference counts go: which operations hand back a vnode with one more
    reference, and that all others leave the counts alone.  [FSOP_GETROOT] must
    not fail, so a filesystem that cannot load its root panics; [Pk] says whether
    the filesystems may do that.  A filesystem is unmounted only when it is
    [synced], right after [FSOP_SYNC] has succeeded.  The vnode [vfs_addfs] makes
    for the device NULL is never used and does not count; it is [hollow]. *)

From S2P Require Import Prelude Array Copyinout Uio Vnode Device Vfs.

(** A vnode in memory: its counts, its filesystem, whether it is a directory. *)
Record vinfo := mkInfo { i_ref : Z; i_open : Z; i_fs : option Z; i_dir : bool }.

Definition addref (n : Z) (i : vinfo) : vinfo := mkInfo (i_ref i + n) (i_open i) (i_fs i) (i_dir i).
Definition addopen (n : Z) (i : vinfo) : vinfo := mkInfo (i_ref i) (i_open i + n) (i_fs i) (i_dir i).

(** A reference to [q], a vnode of the filesystem [f], has been taken: one more,
    or the first one on a vnode that has just been loaded. *)
Definition took (f : option Z) (c : gmap Z vinfo) (q : Z) (c' : gmap Z vinfo) : Prop :=
  match c !! q with
  | Some i => i_fs i = f ∧ c' = <[q := addref 1 i]> c
  | None => is_Some f ∧ ∃ d, c' = <[q := mkInfo 1 0 f d]> c
  end.

(** Every count leaves room for [n] more. *)
Definition room (n : Z) (c : gmap Z vinfo) : Prop :=
  ∀ p i, c !! p = Some i → i_ref i + n ≤ INT_MAX ∧ i_open i + n ≤ INT_MAX.

(** A C string. *)
Definition cstr (s : list Z) : Prop := Forall (λ b, 0 < b < 256) s.

Class VnodeLaws (W Ops : Type) `{!VnodeWorld W Ops} (Pk : Prop) := {
  vw_ok : W → Prop;
  counts : W → gmap Z vinfo;
  fses : W → gmap Z (option (list Z));
  synced : Z → W → Prop;
  hollow : Z → W → Prop;
  step (w w' : W) : Prop := vw_ok w' ∧ fses w' = fses w;
  quiet {A} (m : stm W A) (w : W) : Prop := swp m w (λ _ w', step w w' ∧ counts w' = counts w);
  takes (f : option Z) (w : W) (r q : Z) (w' : W) : Prop :=
    step w w' ∧ if r =? 0 then took f (counts w) q (counts w') else counts w' = counts w;
  law_range w p i : vw_ok w → counts w !! p = Some i →
    1 ≤ i_ref i ∧ 0 ≤ i_open i ∧ (i_dir i = true → is_Some (i_fs i)) ∧ ∀ fs, i_fs i = Some fs → is_Some (fses w !! fs);
  law_get w p i : vw_ok w → counts w !! p = Some i →
    ∃ v, vw_get p w = Done (v, w) ∧ vn_refcount v = i_ref i ∧ vn_opencount v = i_open i ∧ is_Some (vn_ops v);
  law_put w p i v r o : vw_ok w → counts w !! p = Some i → vw_get p w = Done (v, w) →
    1 ≤ r → 0 ≤ o →
    swp (vw_put p (mkVnode r o (vn_countlock v) (vn_ops v))) w (λ _ w',
      step w w' ∧ counts w' = <[p := mkInfo r o (i_fs i) (i_dir i)]> (counts w));
  law_vnfs w p i : vw_ok w → counts w !! p = Some i → vw_vnfs p w = Done (i_fs i, w);
  law_reclaim w p f d v ops : vw_ok w → counts w !! p = Some (mkInfo 1 0 (Some f) d) →
    vw_get p w = Done (v, w) → vn_ops v = Some ops →
    swp (vop_reclaim (vw_table ops) p) w (λ _ w', step w w' ∧ counts w' = delete p (counts w));
  law_close w p v ops : vw_ok w → is_Some (counts w !! p) → vw_get p w = Done (v, w) → vn_ops v = Some ops →
    quiet (vop_close (vw_table ops) p) w;
  law_open w p flags : vw_ok w → is_Some (counts w !! p) → quiet (VOP_ p (λ ops, vop_open ops p flags)) w;
  law_truncate w p : vw_ok w → is_Some (counts w !! p) → quiet (VOP_ p (λ ops, vop_truncate ops p 0)) w;
  law_gettype w p i : vw_ok w → counts w !! p = Some i →
    swp (VOP_ p (λ ops, vop_gettype ops p)) w (λ '(r, t) w', step w w' ∧ counts w' = counts w ∧
      (r = 0 → S_ISDIR t = i_dir i));
  law_namefile w p u : vw_ok w → is_Some (counts w !! p) → uio_rw_of u = UIO_READ →
    quiet (VOP_ p (λ ops, vop_namefile ops p u)) w;
  law_readlink w p u : vw_ok w → is_Some (counts w !! p) → quiet (VOP_ p (λ ops, vop_readlink ops p u)) w;
  law_symlink w p a b : vw_ok w → is_Some (counts w !! p) → quiet (VOP_ p (λ ops, vop_symlink ops p a b)) w;
  law_mkdir w p a : vw_ok w → is_Some (counts w !! p) → quiet (VOP_ p (λ ops, vop_mkdir ops p a)) w;
  law_rmdir w p a : vw_ok w → is_Some (counts w !! p) → quiet (VOP_ p (λ ops, vop_rmdir ops p a)) w;
  law_remove w p a : vw_ok w → is_Some (counts w !! p) → room 1 (counts w) → cstr a →
    quiet (VOP_ p (λ ops, vop_remove ops p a)) w;
  law_rename w p q i j a b fs : vw_ok w → counts w !! p = Some i → counts w !! q = Some j →
    i_fs i = Some fs → i_fs j = Some fs → i_dir i = true → i_dir j = true → room 1 (counts w) → cstr a → cstr b →
    quiet (VOP_ p (λ ops, vop_rename ops p a q b)) w;
  law_link w p q i j a fs : vw_ok w → counts w !! p = Some i → counts w !! q = Some j →
    i_fs i = Some fs → i_fs j = Some fs → i_dir j = false → cstr a →
    quiet (VOP_ p (λ ops, vop_link ops p a q)) w;
  law_creat w p i a excl : vw_ok w → counts w !! p = Some i → room 1 (counts w) → cstr a →
    swp (VOP_ p (λ ops, vop_creat ops p a excl)) w (λ '(r, q) w', takes (i_fs i) w r q w');
  law_lookup w p i path : vw_ok w → counts w !! p = Some i → room 1 (counts w) → cstr path →
    swp (VOP_ p (λ ops, vop_lookup ops p path)) w (λ '(r, q) w', takes (i_fs i) w r q w');
  law_lookparent w p i path len : vw_ok w → counts w !! p = Some i → room 1 (counts w) → cstr path →
    swp (VOP_ p (λ ops, vop_lookparent ops p path len)) w (λ '(r, q, name) w',
      takes (i_fs i) w r q w' ∧ cstr name ∧ (r = 0 → ∀ j, counts w' !! q = Some j → i_dir j = true));
  law_volname w fs nm : vw_ok w → fses w !! fs = Some nm → FSOP fs fs_getvolname w = Done (nm, w);
  law_getroot w fs : vw_ok w → is_Some (fses w !! fs) → room 1 (counts w) →
    swpp Pk (FSOP fs fs_getroot) w (λ q w', step w w' ∧ took (Some fs) (counts w) q (counts w'));
  law_sync w fs : vw_ok w → is_Some (fses w !! fs) →
    swp (FSOP fs fs_sync) w (λ r w', step w w' ∧ counts w' = counts w ∧ (r = 0 → synced fs w'));
  law_unmount w fs : vw_ok w → is_Some (fses w !! fs) → synced fs w →
    swp (FSOP fs fs_unmount) w (λ r w', vw_ok w' ∧ counts w' = counts w ∧
      fses w' = (if r =? 0 then delete fs (fses w) else fses w) ∧
      (r = 0 ∨ ∃ p i, counts w !! p = Some i ∧ i_fs i = Some fs));
  law_kmalloc w : vw_ok w →
    swp vw_kmalloc w (λ _ w', step w w' ∧ counts w' = counts w ∧ ∀ p, hollow p w → hollow p w');
  law_newdev w dev : vw_ok w →
    swp (vw_newdev (mkVnode 1 0 true (Some vw_devops)) dev) w (λ p w', p ≠ 0 ∧ step w w' ∧
      match dev with
      | Some _ => counts w !! p = None ∧ counts w' = <[p := mkInfo 1 0 None false]> (counts w)
      | None => counts w' = counts w ∧ hollow p w'
      end);
  law_freedev w p : vw_ok w → counts w !! p = Some (mkInfo 1 0 None false) →
    swp (vw_freedev p) w (λ _ w', step w w' ∧ counts w' = delete p (counts w));
  law_freehollow w p : vw_ok w → hollow p w → quiet (vw_freedev p) w;
}.

(** ** Reference counts through the VFS layer

    How the counts of the vnodes move: [moved c δ c'] says that from [c] to [c']
    every vnode gained [δ] references and nothing else changed; a vnode whose
    count reaches 0 is gone, one that was not in memory has been loaded.  The
    macros of vnode.h move the counts as they should, for every filesystem that
    keeps the contract of VfsLaws. *)

(** [δ] for one reference to [q], and for one to each vnode of a list. *)
Definition one (q p : Z) : Z := if p =? q then 1 else 0.
Fixpoint cnt (L : list Z) (p : Z) : Z :=
  match L with [] => 0 | q :: L' => one q p + cnt L' p end.

Definition moved (c : gmap Z vinfo) (δ : Z → Z) (c' : gmap Z vinfo) : Prop := ∀ p,
  match c !! p with
  | Some i => c' !! p = if i_ref i + δ p =? 0 then None else Some (addref (δ p) i)
  | None => if δ p =? 0 then c' !! p = None else ∃ f d, c' !! p = Some (mkInfo (δ p) 0 (Some f) d)
  end.

(** The counts of vnodes in memory are positive. *)
Definition positive (c : gmap Z vinfo) : Prop := ∀ p i, c !! p = Some i → 1 ≤ i_ref i.

Lemma one_eq q : one q q = 1.
Proof. unfold one. by rewrite Z.eqb_refl. Qed.

Lemma one_ne q p : p ≠ q → one q p = 0.
Proof. unfold one. by intros ->%Z.eqb_neq. Qed.

Lemma cnt_nonneg L p : 0 ≤ cnt L p.
Proof. induction L as [|q L IH]; cbn; [done|]. unfold one. destruct (p =? q); lia. Qed.

Lemma cnt_length L p : cnt L p ≤ Z.of_nat (length L).
Proof. induction L as [|q L IH]; cbn; [done|]. unfold one. destruct (p =? q); lia. Qed.

Lemma cnt_elem L p : p ∈ L → 1 ≤ cnt L p.
Proof.
  intros H. induction H as [p L|p q L _ IH]; cbn.
  - rewrite one_eq. pose proof (cnt_nonneg L p). lia.
  - unfold one. destruct (p =? q); lia.
Qed.

Lemma cnt_pos L p : 1 ≤ cnt L p → p ∈ L.
Proof.
  induction L as [|q L IH]; cbn; [lia|]. intros H. destruct (decide (p = q)) as [->|Hne]; [by left|].
  rewrite one_ne in H by done. right. by apply IH.
Qed.

Lemma cnt_app L M p : cnt (L ++ M) p = cnt L p + cnt M p.
Proof. induction L as [|q L IH]; cbn; [done|]. rewrite IH. lia. Qed.

Lemma cnt_perm L L' p : L ≡ₚ L' → cnt L p = cnt L' p.
Proof. induction 1; cbn; lia. Qed.

Lemma moved_ext c δ δ' c' : (∀ p, δ p = δ' p) → moved c δ c' → moved c δ' c'.
Proof. intros H Hm p. specialize (Hm p). by rewrite H in Hm. Qed.

Lemma moved_refl c : positive c → moved c (λ _, 0) c.
Proof.
  intros Hp p. destruct (c !! p) as [i|] eqn:Hi; [|done].
  destruct (Z.eqb_spec (i_ref i + 0) 0); [specialize (Hp p i Hi); lia|]. f_equal. destruct i. unfold addref; cbn. f_equal. lia.
Qed.

Lemma moved_none c c' : positive c → moved c (λ _, 0) c' → c' = c.
Proof.
  intros Hp Hm. apply map_eq. intros p. specialize (Hm p). destruct (c !! p) as [i|] eqn:Hi; [|done].
  rewrite Hm. destruct (Z.eqb_spec (i_ref i + 0) 0); [specialize (Hp p i Hi); lia|].
  destruct i. unfold addref; cbn. do 2 f_equal. lia.
Qed.

Lemma moved_took c δ c' f q c'' :
  positive c → (∀ p, 0 ≤ δ p) → moved c δ c' → took f c' q c'' → moved c (λ p, one q p + δ p) c''.
Proof.
  intros Hpos Hδ Hm Ht p. unfold took in Ht. specialize (Hm p). destruct (decide (p = q)) as [->|Hne].
  - rewrite one_eq. destruct (c !! q) as [i|] eqn:Hi.
    + specialize (Hpos q i Hi). specialize (Hδ q). destruct (Z.eqb_spec (i_ref i + δ q) 0); [lia|]. rewrite Hm in Ht.
      destruct Ht as [_ ->]. rewrite lookup_insert_eq. destruct (Z.eqb_spec (i_ref i + (1 + δ q)) 0); [lia|].
      unfold addref; cbn. do 2 f_equal. lia.
    + destruct (Z.eqb_spec (δ q) 0) as [E|E].
      * rewrite Hm in Ht. destruct Ht as ([g ->] & d & ->). rewrite E, lookup_insert_eq. cbn [Z.add Z.eqb]. by exists g, d.
      * destruct Hm as (g & d & Hm). rewrite Hm in Ht. destruct Ht as [_ ->]. rewrite lookup_insert_eq.
        specialize (Hδ q). destruct (Z.eqb_spec (1 + δ q) 0); [lia|]. exists g, d. unfold addref; cbn. do 2 f_equal. lia.
  - rewrite one_ne by done. assert (c'' !! p = c' !! p) as ->; [|done].
    destruct (c' !! q); [destruct Ht as [_ ->]|destruct Ht as (_ & d & ->)]; by rewrite lookup_insert_ne by done.
Qed.

(** Giving up a reference: the vnode stays with one less, or goes. *)
Lemma moved_dec c δ c' q i :
  moved c δ c' → c' !! q = Some i →
  moved c (λ p, δ p - one q p) (if i_ref i =? 1 then delete q c' else <[q := addref (-1) i]> c').
Proof.
  intros Hm Hi p. specialize (Hm p). destruct (decide (p = q)) as [->|Hne].
  - rewrite one_eq. destruct (c !! q) as [j|] eqn:Hj.
    + rewrite Hm in Hi. destruct (Z.eqb_spec (i_ref j + δ q) 0); [done|]. injection Hi as <-. cbn [addref i_ref].
      destruct (Z.eqb_spec (i_ref j + δ q) 1).
      * rewrite lookup_delete_eq. by destruct (Z.eqb_spec (i_ref j + (δ q - 1)) 0); [|lia].
      * rewrite lookup_insert_eq. destruct (Z.eqb_spec (i_ref j + (δ q - 1)) 0); [lia|]. unfold addref; cbn. do 2 f_equal. lia.
    + destruct (Z.eqb_spec (δ q) 0); [congruence|]. destruct Hm as (f & d & Hm). rewrite Hm in Hi. injection Hi as <-.
      cbn [i_ref]. destruct (Z.eqb_spec (δ q) 1).
      * rewrite lookup_delete_eq. by destruct (Z.eqb_spec (δ q - 1) 0); [|lia].
      * rewrite lookup_insert_eq. destruct (Z.eqb_spec (δ q - 1) 0); [lia|]. exists f, d. unfold addref; cbn. do 2 f_equal.
  - rewrite one_ne, Z.sub_0_r by done. replace ((if i_ref i =? 1 then delete q c' else <[q := addref (-1) i]> c') !! p) with (c' !! p); [done|].
    destruct (i_ref i =? 1); [by rewrite lookup_delete_ne|by rewrite lookup_insert_ne].
Qed.

(** The other facts about a vnode stay. *)
Lemma dec_same (c : gmap Z vinfo) q i p a b :
  c !! q = Some i → c !! p = Some a →
  (if i_ref i =? 1 then delete q c else <[q := addref (-1) i]> c) !! p = Some b →
  i_fs b = i_fs a ∧ i_dir b = i_dir a.
Proof.
  intros Hi Ha. destruct (decide (p = q)) as [->|Hne].
  - rewrite Hi in Ha. injection Ha as <-. destruct (i_ref i =? 1); [by rewrite lookup_delete_eq|].
    rewrite lookup_insert_eq. by intros [= <-].
  - destruct (i_ref i =? 1); [rewrite lookup_delete_ne by done|rewrite lookup_insert_ne by done]; rewrite Ha; by intros [= <-].
Qed.

Lemma moved_live c δ c' p i :
  positive c → moved c δ c' → c !! p = Some i → 0 ≤ δ p → c' !! p = Some (addref (δ p) i).
Proof.
  intros Hpos Hm Hi Hδ. specialize (Hm p). rewrite Hi in Hm. specialize (Hpos p i Hi).
  by destruct (Z.eqb_spec (i_ref i + δ p) 0); [lia|].
Qed.

(** A vnode on which a reference has been taken. *)
Lemma moved_temp c δ c' q :
  positive c → moved c δ c' → 1 ≤ δ q →
  ∃ i, c' !! q = Some i ∧ (i_ref i = 1 → i_open i = 0 ∧ is_Some (i_fs i)) ∧
    (c !! q = None → i_open i = 0 ∧ is_Some (i_fs i)) ∧ ∀ j, c !! q = Some j → i = addref (δ q) j.
Proof.
  intros Hpos Hm Hδ. specialize (Hm q). destruct (c !! q) as [j|] eqn:Hj.
  - specialize (Hpos q j Hj). destruct (Z.eqb_spec (i_ref j + δ q) 0); [lia|]. exists (addref (δ q) j).
    split; [done|]. split; [cbn; lia|]. split; [done|]. by intros j' [= <-].
  - destruct (Z.eqb_spec (δ q) 0); [lia|]. destruct Hm as (f & d & Hm). exists (mkInfo (δ q) 0 (Some f) d). cbn. split_and!; [done|by eauto..|done].
Qed.

Lemma moved_room c δ c' n m :
  positive c → moved c δ c' → (∀ p, 0 ≤ δ p ≤ m) → 0 ≤ n → n + m ≤ 1000 → room (n + m) c → room n c'.
Proof.
  intros Hpos Hm Hδ Hn Hb Hr p i Hi. specialize (Hm p). specialize (Hδ p). destruct (c !! p) as [j|] eqn:Hj.
  - destruct (Hr p j Hj). rewrite Hm in Hi. destruct (i_ref j + δ p =? 0); [done|]. injection Hi as <-. cbn. lia.
  - destruct (Z.eqb_spec (δ p) 0); [congruence|]. destruct Hm as (f & d & Hm). rewrite Hm in Hi. injection Hi as <-.
    cbn. unfold INT_MAX. lia.
Qed.

Lemma moved_trans c δ c' δ' c'' :
  positive c → (∀ p, 0 ≤ δ p) → (∀ p, 0 ≤ δ' p) → moved c δ c' → moved c' δ' c'' → moved c (λ p, δ p + δ' p) c''.
Proof.
  intros Hpos Hδ Hδ' Hm Hm' p. specialize (Hm p). specialize (Hm' p). specialize (Hδ p). specialize (Hδ' p).
  destruct (c !! p) as [i|] eqn:Hi.
  - specialize (Hpos p i Hi). destruct (Z.eqb_spec (i_ref i + δ p) 0); [lia|]. rewrite Hm in Hm'. cbn [addref i_ref] in Hm'.
    rewrite Hm'. destruct (Z.eqb_spec (i_ref i + δ p + δ' p) 0), (Z.eqb_spec (i_ref i + (δ p + δ' p)) 0); try lia.
    unfold addref; cbn. do 2 f_equal. lia.
  - destruct (Z.eqb_spec (δ p) 0) as [E|E].
    + rewrite Hm in Hm'. by rewrite E.
    + destruct Hm as (f & d & Hm). rewrite Hm in Hm'. cbn [i_ref] in Hm'.
      destruct (Z.eqb_spec (δ p + δ' p) 0); [lia|]. exists f, d. rewrite Hm'. unfold addref; cbn. done.
Qed.

(** ** The macros *)

Section macros.
Context {W Ops : Type} `{!VnodeWorld W Ops} {Pk : Prop} `{!VnodeLaws W Ops Pk}.
Implicit Types (w : W).

Lemma step_refl w : vw_ok w → step w w.
Proof. done. Qed.

Lemma step_trans w1 w2 w3 : step w1 w2 → step w2 w3 → step w1 w3.
Proof. intros [_ H1] [? H2]. split; [done|]. by rewrite H2. Qed.

Lemma ok_positive w : vw_ok w → positive (counts w).
Proof. intros Hok p i Hi. by destruct (law_range w p i Hok Hi). Qed.

Lemma VOP_INCREF_wp w p i :
  vw_ok w → counts w !! p = Some i → i_ref i + 1 ≤ INT_MAX →
  swp (VOP_INCREF p) w (λ _ w', step w w' ∧ counts w' = <[p := addref 1 i]> (counts w)).
Proof.
  intros Hok Hi Hmax. destruct (law_get w p i Hok Hi) as (v & Hv & Hr & Ho & _). destruct (law_range w p i Hok Hi) as (? & ? & _).
  unfold VOP_INCREF. apply swp_bind. unfold swp at 1. rewrite Hv. cbn [wp]. apply swp_bind, swp_lift. unfold vnode_incref.
  apply wp_bind, wp_to_int; [unfold INT_MIN, INT_MAX in *; lia|]. rewrite Hr, Ho. cbn [wp].
  eapply law_put; [done|done|done|lia|lia].
Qed.

Lemma VOP_INCOPEN_wp w p i :
  vw_ok w → counts w !! p = Some i → i_open i + 1 ≤ INT_MAX →
  swp (VOP_INCOPEN p) w (λ _ w', step w w' ∧ counts w' = <[p := addopen 1 i]> (counts w)).
Proof.
  intros Hok Hi Hmax. destruct (law_get w p i Hok Hi) as (v & Hv & Hr & Ho & _). destruct (law_range w p i Hok Hi) as (? & ? & _).
  unfold VOP_INCOPEN. apply swp_bind. unfold swp at 1. rewrite Hv. cbn [wp]. apply swp_bind, swp_lift. unfold vnode_incopen.
  apply wp_bind, wp_to_int; [unfold INT_MIN, INT_MAX in *; lia|]. rewrite Hr, Ho. cbn [wp].
  eapply law_put; [done|done|done|lia|lia].
Qed.

(** The last reference makes the filesystem reclaim the vnode. *)
Lemma VOP_DECREF_wp w p i :
  vw_ok w → counts w !! p = Some i → (i_ref i = 1 → i_open i = 0 ∧ is_Some (i_fs i)) →
  swp (VOP_DECREF p) w (λ _ w', step w w' ∧
    counts w' = if i_ref i =? 1 then delete p (counts w) else <[p := addref (-1) i]> (counts w)).
Proof.
  intros Hok Hi Hlast. destruct (law_get w p i Hok Hi) as (v & Hv & Hr & Ho & [ops Hops]). destruct (law_range w p i Hok Hi) as (? & ? & _).
  unfold VOP_DECREF, vnode_decref. apply swp_bind. unfold swp at 1. rewrite Hv. cbn [wp].
  apply swp_bind, swp_kassert; [rewrite Hr; apply Z.gtb_lt; lia|]. rewrite Hr.
  destruct (Z.gtb_spec (i_ref i) 1) as [Hgt|Hle].
  - rewrite (proj2 (Z.eqb_neq _ _)) by lia. rewrite Ho. eapply swp_mono; [eapply law_put; [done|done|done|lia|lia]|].
    intros _ w' [? ->]. done.
  - assert (i_ref i = 1) as E by lia. destruct (Hlast E) as [E0 [f Ef]].
    assert (i = mkInfo 1 0 (Some f) (i_dir i)) as Ei by (clear -E E0 Ef; destruct i; cbn in *; congruence). rewrite E. cbn [Z.eqb Pos.eqb].
    unfold VOP. apply swp_bind, swp_bind. unfold swp at 1. rewrite Hv. cbn [wp]. apply swp_bind, swp_lift. unfold vnode_check.
    rewrite Hops, Hr, Ho, E, E0. cbn [wp andb Z.ltb Z.compare Z.eqb].
    eapply swp_mono; [apply (law_reclaim w p f (i_dir i) v ops); [done|by rewrite Hi; f_equal|done|done]|].
    intros r w' ?. by apply swp_ret.
Qed.

(** The last close calls the filesystem. *)
Lemma VOP_DECOPEN_wp w p i :
  vw_ok w → counts w !! p = Some i → 1 ≤ i_open i →
  swp (VOP_DECOPEN p) w (λ _ w', step w w' ∧ counts w' = <[p := addopen (-1) i]> (counts w)).
Proof.
  intros Hok Hi Hopen. destruct (law_get w p i Hok Hi) as (v & Hv & Hr & Ho & [ops Hops]). destruct (law_range w p i Hok Hi) as (? & ? & _).
  unfold VOP_DECOPEN, vnode_decopen. apply swp_bind. unfold swp at 1. rewrite Hv. cbn [wp].
  apply swp_bind, swp_kassert; [rewrite Ho; apply Z.gtb_lt; lia|]. rewrite Hr, Ho. apply swp_bind.
  eapply swp_mono; [eapply law_put; [done|done|done|lia|lia]|]. intros _ w1 [Hst Hc]. cbn beta.
  destruct (i_open i - 1 >? 0); [by apply swp_ret|].
  assert (counts w1 !! p = Some (addopen (-1) i)) as Hi1 by by rewrite Hc, lookup_insert_eq.
  destruct (law_get w1 p _ (proj1 Hst) Hi1) as (v1 & Hv1 & Hr1 & Ho1 & [ops1 Hops1]). destruct (law_range _ _ _ (proj1 Hst) Hi1) as (Hp1 & Hp2 & _).
  unfold VOP. apply swp_bind, swp_bind. unfold swp at 1. rewrite Hv1. cbn [wp]. apply swp_bind, swp_lift. unfold vnode_check.
  rewrite Hops1, Hr1, Ho1. cbn in Hp1, Hp2. rewrite (proj2 (Z.ltb_ge _ _)), (proj2 (Z.eqb_neq _ _)), (proj2 (Z.ltb_ge _ _)) by (cbn; lia). cbn [andb wp].
  eapply swp_mono; [eapply law_close; [apply Hst|by rewrite Hi1|done|done]|].
  intros r w2 [Hst2 Hc2]. apply swp_ret. split; [by eapply step_trans|]. by rewrite Hc2, Hc.
Qed.

Lemma decref_moved w c δ p :
  vw_ok w → positive c → moved c δ (counts w) → 1 ≤ δ p →
  swp (VOP_DECREF p) w (λ _ w', step w w' ∧ moved c (λ q, δ q - one p q) (counts w')).
Proof.
  intros Hok Hpos Hm Hδ. destruct (moved_temp _ _ _ _ Hpos Hm Hδ) as (i & Hi & Hlast & _).
  eapply swp_mono; [by apply (VOP_DECREF_wp w p i)|]. intros _ w' [? ->]. split; [done|]. by apply moved_dec.
Qed.
End macros.
