(* ===== verification/VfsPath.v ===== *)
(** * Path names

    A reference definition of the syntax of path names, [parse_path], and the
    proof that [getdevice] of vfslookup.c, which scans and cuts the buffer in
    place, is the same function. *)

From S2P Require Import Prelude Array Copyinout Uio Vnode Device Vfs VfsLaws.

(** Where a path starts: at the current directory, at the root of a named device,
    at the root of the boot filesystem, at the root of the current filesystem. *)
Inductive start := AtCwd | AtDevice (name : list Z) | AtBoot | AtCurRoot.

Definition is_sep (c : Z) : bool := (c =? COLON) || (c =? SLASH).

(** The part before the first separator, and the rest. *)
Fixpoint span_sep (path : list Z) : list Z * list Z :=
  match path with
  | [] => ([], [])
  | c :: path' => if is_sep c then ([], path) else let '(a, b) := span_sep path' in (c :: a, b)
  end.

Fixpoint drop_slashes (path : list Z) : list Z :=
  match path with
  | c :: path' => if c =? SLASH then drop_slashes path' else path
  | [] => []
  end.

Definition parse_path (path : list Z) : start * list Z :=
  match span_sep path with
  | (name, c :: rest) =>
      if c =? COLON then (match name with [] => AtCurRoot | _ => AtDevice name end, drop_slashes rest)
      else match name with [] => (AtBoot, drop_slashes rest) | _ => (AtCwd, path) end
  | (_, []) => (AtCwd, path)
  end.

(** ** The scan *)

Lemma span_sep_app path :
  let '(a, b) := span_sep path in path = a ++ b ∧ ∀ c b', b = c :: b' → is_sep c = true.
Proof.
  induction path as [|c path IH]; cbn; [done|]. destruct (is_sep c) eqn:E; [by split; [|intros ? ? [= <- _]]|].
  destruct (span_sep path) as [a b]. destruct IH as [-> ?]. done.
Qed.

Lemma first_sep_span path i :
  first_sep path i =
    match span_sep path with
    | (a, c :: _) => if c =? COLON then (i + Z.of_nat (length a), -1) else (-1, i + Z.of_nat (length a))
    | (_, []) => (-1, -1)
    end.
Proof.
  revert i. induction path as [|c path IH]; intros i; cbn [first_sep span_sep]; [done|]. unfold is_sep.
  destruct (c =? COLON) eqn:Ec; cbn [orb]; [rewrite Ec; f_equal; cbn; lia|].
  destruct (c =? SLASH) eqn:Es; [rewrite Ec; f_equal; cbn; lia|].
  rewrite IH. destruct (span_sep path) as [a [|x b]]; [done|]. cbn [length].
  destruct (x =? COLON); f_equal; lia.
Qed.

Lemma char_at_app a b i : i = Z.of_nat (length a) → char_at (a ++ b) i = Done (default 0 (head b)).
Proof.
  intros ->. unfold char_at. rewrite length_app, (proj2 (Z.leb_le 0 _)), (proj2 (Z.leb_le _ _)) by lia. cbn [andb].
  rewrite Nat2Z.id, lookup_app_r, Nat.sub_diag by lia. by destruct b.
Qed.

(** Skipping the slashes after position [i], the last one of [a]. *)
Lemma skip_slashes_spec a b i :
  cstr b → Z.of_nat (length a) = i + 1 → 0 ≤ i →
  ∃ j, skip_slashes (a ++ b) i = Done j ∧ drop (Z.to_nat (j + 1)) (a ++ b) = drop_slashes b.
Proof.
  intros Hb Ha Hi. unfold skip_slashes.
  assert (length b < S (length (a ++ b)))%nat as Hf by (rewrite length_app; lia).
  revert Hf. generalize (S (length (a ++ b))) as fuel. revert a i Ha Hi.
  induction b as [|c b IH]; intros a i Ha Hi [|fuel] Hf; cbn [length] in Hf; [lia| |lia|]; cbn [while_loop]; rewrite char_at_app by lia.
  - cbn. exists i. split; [done|]. rewrite app_nil_r, <-Ha, Nat2Z.id. by apply drop_all.
  - apply Forall_cons in Hb as [Hc Hb]. cbn [head drop_slashes]. unfold mbind, outcome_bind. change (default 0 (Some c)) with c.
    destruct (c =? SLASH) eqn:Ec.
    + destruct (IH Hb (a ++ [c]) (i + 1) ltac:(rewrite length_app; cbn; lia) ltac:(lia) fuel ltac:(lia)) as (j & Hj & Hd).
      rewrite <- app_assoc in Hj, Hd. exists j. done.
    + exists i. split; [done|]. rewrite <-Ha, Nat2Z.id. by rewrite drop_app_length.
Qed.

Section getdevice.
Context {W Ops : Type} `{!VnodeWorld W Ops} {cs : CurSpace}.

(** The vnode a path starts at. *)
Definition start_vnode (st : start) : stm (vfs W) (Z * Z) :=
  match st with
  | AtCwd => vfs_getcurdir
  | AtDevice name => vfs_getroot name
  | AtBoot =>
      acquire_boot;;
      b ← gets bootfs_vnode;
      match b with
      | None => release_boot;; mret (ENOENT, 0)
      | Some p => incref p;; release_boot;; mret (0, p)
      end
  | AtCurRoot =>
      '(result, vn) ← vfs_getcurdir;
      if negb (result =? 0) then mret (result, 0) else
      fs ← on_w (vw_vnfs vn);
      fs ← lift (match fs with Some fs => Done fs | None => Panic end);
      root ← fsop fs fs_getroot;
      decref vn;;
      mret (0, root)
  end.

Definition getdevice_ref (path : list Z) : stm (vfs W) (Z * list Z * Z) :=
  let '(st, rest) := parse_path path in
  '(result, vn) ← start_vnode st;
  if negb (result =? 0) then mret (result, [], 0) else mret (0, rest, vn).

Lemma bind_ext {St A B} (m : stm St A) (f g : A → stm St B) s :
  (∀ a s', f a s' = g a s') → (m ≫= f) s = (m ≫= g) s.
Proof. intros H. unfold mbind, stm_bind. cbn. unfold mbind, outcome_bind. destruct (m s) as [[a s']| | |]; auto. Qed.

Lemma lift_done {St A B} (a : A) (f : A → stm St B) s : (lift (Done a) ≫= f) s = f a s.
Proof. done. Qed.

Lemma lift_true {St B} (f : unit → stm St B) s : (lift (kassert true) ≫= f) s = f tt s.
Proof. done. Qed.

(** A path that begins with a separator. *)
Lemma getdevice_root c rest s :
  cstr rest → is_sep c = true → getdevice (c :: rest) s = getdevice_ref (c :: rest) s.
Proof.
  intros Hr Hs. unfold getdevice, getdevice_ref, parse_path. cbn [first_sep span_sep]. rewrite Hs.
  destruct (skip_slashes_spec [c] rest 0 Hr ltac:(done) ltac:(lia)) as (j & Hj & Hd). cbn [app] in Hj, Hd.
  assert (char_at (c :: rest) 0 = Done c) as Hc by apply (char_at_app [] (c :: rest) 0 eq_refl).
  unfold is_sep in Hs. destruct (c =? COLON) eqn:Ec.
  - apply Z.eqb_eq in Ec as ->. cbn [Z.ltb Z.compare Z.eqb negb andb orb]. rewrite lift_true, Hc, lift_done.
    change (COLON =? SLASH) with false. change (COLON =? COLON) with true. rewrite Hj.
    apply (bind_ext (start_vnode AtCurRoot)). intros [r vn] s'. cbn beta iota. destruct (negb (r =? 0)); [done|].
    rewrite lift_done. by rewrite Hd.
  - cbn [orb] in Hs. rewrite Hs. cbn [Z.ltb Z.compare Z.eqb negb andb orb]. rewrite lift_true, Hc, lift_done, Hs, Hj.
    unfold start_vnode. apply bind_ext. intros [r vn] s'. cbn beta iota. destruct (negb (r =? 0)); [done|].
    rewrite lift_done. by rewrite Hd.
Qed.

(** A path with a part before the first separator. *)
Lemma getdevice_name x a c rest s :
  cstr rest → span_sep ((x :: a) ++ c :: rest) = (x :: a, c :: rest) →
  getdevice ((x :: a) ++ c :: rest) s = getdevice_ref ((x :: a) ++ c :: rest) s.
Proof.
  intros Hr Hs. unfold getdevice, getdevice_ref, parse_path. rewrite first_sep_span, Hs.
  destruct (skip_slashes_spec ((x :: a) ++ [c]) rest (Z.of_nat (length (x :: a))) Hr
    ltac:(rewrite length_app; cbn; lia) ltac:(lia)) as (j & Hj & Hd).
  rewrite <-app_assoc in Hj, Hd. change ((x :: a) ++ [c] ++ rest) with ((x :: a) ++ c :: rest) in Hj, Hd.
  assert (0 < Z.of_nat (length (x :: a))) as Hl by (cbn; lia). rewrite !Z.add_0_l. destruct (c =? COLON).
  - rewrite (proj2 (Z.ltb_ge _ _)), (proj2 (Z.ltb_lt _ _)) by lia. cbn [andb]. rewrite Hj, lift_done, Hd, Nat2Z.id, take_app_length.
    done.
  - assert ((Z.of_nat (length (x :: a)) =? 0) = false) as -> by (apply Z.eqb_neq; lia). done.
Qed.

Lemma getdevice_parses path s : cstr path → getdevice path s = getdevice_ref path s.
Proof.
  intros Hp. pose proof (span_sep_app path) as E. destruct (span_sep path) as [a [|c rest]] eqn:Hs; destruct E as [-> Hsep].
  - unfold getdevice, getdevice_ref, parse_path. by rewrite first_sep_span, Hs.
  - apply Forall_app in Hp as [_ Hp]. apply Forall_cons in Hp as [_ Hr]. destruct a as [|x a].
    + apply getdevice_root; [done|by eapply Hsep].
    + by apply getdevice_name.
Qed.
End getdevice.
