(* ===== verification/VfsInv.v ===== *)
(** * The invariant of the VFS layer

    The table of devices, the current directory and the boot filesystem hold
    references to vnodes in memory; every open file has a reference of its own. *)

From S2P Require Import Prelude Array Copyinout Uio Vnode Device Vfs VfsLaws VfsPath.

(** A filesystem that has a volume name, or is in the table under a name. *)
Definition named (f : gmap Z (option (list Z))) (l : list knowndev) (fs : Z) : Prop :=
  (∃ nm, f !! fs = Some (Some nm)) ∨ ∃ kd, kd ∈ l ∧ kd_fs kd = Some fs.

(** The vnodes the VFS layer holds a reference to. *)
Definition dev_vnode (kd : knowndev) : option Z := match kd_device kd with Some _ => Some (kd_vnode kd) | None => None end.

Definition held_list (l : list knowndev) (cwd boot : option Z) : list Z :=
  omap dev_vnode l ++ option_list cwd ++ option_list boot.

Definition dev_ok (f : gmap Z (option (list Z))) (c : gmap Z vinfo) (kd : knowndev) : Prop :=
  (kd_fs kd = None → is_Some (kd_device kd)) ∧ (is_Some (kd_rawname kd) → is_Some (kd_device kd)) ∧
  (∀ fs, kd_fs kd = Some fs → is_Some (f !! fs)) ∧ ∀ p i, dev_vnode kd = Some p → c !! p = Some i → i_fs i = None.

(** A vnode of a filesystem that has a name. *)
Definition start_ok f l (i : vinfo) : Prop := ∀ fs, i_fs i = Some fs → named f l fs.

Record held (f : gmap Z (option (list Z))) (c : gmap Z vinfo) (l : list knowndev) (cwd boot : option Z) : Prop := {
  h_dev kd : kd ∈ l → dev_ok f c kd;
  h_live p : p ∈ held_list l cwd boot → is_Some (c !! p);
  h_refs p i : c !! p = Some i →
    i_open i + cnt (held_list l cwd boot) p ≤ i_ref i ∧ (i_fs i = None → i_open i < i_ref i);
  h_start p i : cwd = Some p ∨ boot = Some p → c !! p = Some i → is_Some (i_fs i) ∧ start_ok f l i;
}.

Lemma moved_same c δ c' p i j : moved c δ c' → c !! p = Some i → c' !! p = Some j → j = addref (δ p) i.
Proof. intros Hm Hi Hj. specialize (Hm p). rewrite Hi in Hm. destruct (i_ref i + δ p =? 0); congruence. Qed.

(** The references change hands. *)
Lemma held_moved f c l cwd boot δ c' cwd' boot' :
  held f c l cwd boot → moved c δ c' → (∀ p i, c !! p = Some i → 0 ≤ i_open i) →
  (∀ p, cnt (held_list l cwd' boot') p ≤ cnt (held_list l cwd boot) p + δ p) →
  (∀ p i, c !! p = Some i → i_fs i = None → 0 ≤ δ p) →
  (∀ p i, cwd' = Some p ∨ boot' = Some p → c' !! p = Some i → is_Some (i_fs i) ∧ start_ok f l i) →
  held f c' l cwd' boot'.
Proof.
  intros [Hdev Hlive Hrefs Hstart] Hm Hopen Hcnt Hnone Hstart'.
  assert (∀ p, c !! p = None → cnt (held_list l cwd boot) p = 0) as Hzero.
  { intros p Hp. pose proof (cnt_nonneg (held_list l cwd boot) p). destruct (decide (1 ≤ cnt (held_list l cwd boot) p)) as [H1|]; [|lia].
    apply cnt_pos, Hlive in H1. rewrite Hp in H1. by destruct H1. }
  assert (∀ p i, c' !! p = Some i → i_open i + cnt (held_list l cwd' boot') p ≤ i_ref i ∧ (i_fs i = None → i_open i < i_ref i)) as Hrefs'.
  { intros p i Hi. specialize (Hcnt p). destruct (c !! p) as [j|] eqn:Hj.
    - rewrite (moved_same _ _ _ _ _ _ Hm Hj Hi). destruct (Hrefs p j Hj) as [H1 H2]. cbn. split; [lia|].
      intros E. specialize (Hnone p j Hj E). specialize (H2 E). lia.
    - specialize (Hm p). rewrite Hj in Hm. specialize (Hzero p Hj). destruct (Z.eqb_spec (δ p) 0); [congruence|].
      destruct Hm as (g & d & Hm). rewrite Hm in Hi. injection Hi as <-. cbn. split; [lia|done]. }
  split; [|..|done|done].
  - intros kd Hkd. destruct (Hdev kd Hkd) as (H1 & H2 & H3 & H4). split_and!; [done..|]. intros p i Hp Hi.
    destruct (Hlive p) as [j Hj]. { unfold held_list. apply elem_of_app. left. by apply (list_elem_of_omap dev_vnode); exists kd. }
    rewrite (moved_same _ _ _ _ _ _ Hm Hj Hi). cbn. by apply (H4 p).
  - intros p Hp. apply cnt_elem in Hp. specialize (Hcnt p). specialize (Hm p). destruct (c !! p) as [j|] eqn:Hj.
    + destruct (Hrefs p j Hj) as [H1 H2]. rewrite Hm. destruct (Z.eqb_spec (i_ref j + δ p) 0) as [E|]; [|by eexists].
      specialize (Hopen p j Hj). lia.
    + specialize (Hzero p Hj). destruct (Z.eqb_spec (δ p) 0); [lia|]. destruct Hm as (g & d & ->). by eexists.
Qed.

(** ** What a name stands for *)

(** The root of a filesystem, a device, or a device that should have a
    filesystem and has none. *)
Inductive target := TRoot (fs : Z) | TDevice (v : Z) | TNothing.

(** The rules for the names of a device, as the comment on [struct knowndev]
    gives them: its name or the name of the volume stands for the filesystem that
    is mounted; without one the name of a mountable device stands for nothing; the
    name of another device, and the raw name, stand for the device. *)
Definition answers (f : gmap Z (option (list Z))) (kd : knowndev) (name : list Z) : option target :=
  match kd_fs kd with
  | Some fs =>
      if bool_decide (kd_name kd = name) || bool_decide (f !! fs = Some (Some name)) then Some (TRoot fs) else
      if bool_decide (kd_rawname kd = Some name) then Some (TDevice (kd_vnode kd)) else None
  | None =>
      if bool_decide (kd_rawname kd ≠ None) && bool_decide (kd_name kd = name) then Some TNothing else
      if bool_decide (kd_name kd = name) || bool_decide (kd_rawname kd = Some name) then Some (TDevice (kd_vnode kd)) else None
  end.

(** The first device of the table that knows the name. *)
Fixpoint resolve (f : gmap Z (option (list Z))) (l : list knowndev) (name : list Z) : option target :=
  match l with
  | [] => None
  | kd :: l' => match answers f kd name with Some t => Some t | None => resolve f l' name end
  end.

Lemma resolve_app f l l' name : resolve f (l ++ l') name = match resolve f l name with Some t => Some t | None => resolve f l' name end.
Proof. induction l as [|kd l IH]; cbn; [done|]. by destruct (answers f kd name). Qed.

Lemma resolve_elem f l name t : resolve f l name = Some t → ∃ kd, kd ∈ l ∧ answers f kd name = Some t.
Proof.
  induction l as [|kd l IH]; cbn; [done|]. destruct (answers f kd name) eqn:E; [intros [= <-]; exists kd; by split; [left|]|].
  intros (kd' & ? & ?)%IH. exists kd'. by split; [right|].
Qed.

Lemma answers_root f kd name fs : answers f kd name = Some (TRoot fs) → kd_fs kd = Some fs.
Proof. unfold answers. destruct (kd_fs kd); repeat case_match; congruence. Qed.

(** No filesystem is in the table twice. *)
Definition distinct_fs (l : list knowndev) : Prop := ∀ i j a b fs,
  l !! i = Some a → l !! j = Some b → kd_fs a = Some fs → kd_fs b = Some fs → i = j.

Section inv.
Context {W Ops : Type} `{!VnodeWorld W Ops} {Pk : Prop} `{!VnodeLaws W Ops Pk} {cs : CurSpace}.
Implicit Types (s : vfs W) (w : W) (l : list knowndev).

Record vfs_inv s l : Prop := {
  vi_ok : vw_ok (vfs_w s);
  vi_locks : knowndevs_lock s = false ∧ bootfs_lock s = false;
  vi_devs : array_repr (knowndevs s) l;
  vi_fs : distinct_fs l;
  vi_held : held (fses (vfs_w s)) (counts (vfs_w s)) l (t_cwd s) (bootfs_vnode s);
}.

Definition with_w s w : vfs W :=
  mkVfs w (knowndevs s) (knowndevs_lock s) (bootfs_vnode s) (bootfs_lock s) (t_cwd s).

Lemma with_w_id s : with_w s (vfs_w s) = s.
Proof. by destruct s. Qed.

(** In the course of a call that began in [s], with references to the vnodes of
    [L] taken and not yet given back. *)
Definition during s (L : list Z) s' : Prop :=
  s' = with_w s (vfs_w s') ∧ step (vfs_w s) (vfs_w s') ∧
  moved (counts (vfs_w s)) (cnt L) (counts (vfs_w s')).

Section during.
Context (s : vfs W) (l : list knowndev) (Hinv : vfs_inv s l) (Hroom : room 8 (counts (vfs_w s))).
Implicit Types (L : list Z).

Lemma base_positive : positive (counts (vfs_w s)).
Proof. apply ok_positive, Hinv. Qed.

Lemma during_refl : during s [] s.
Proof.
  split; [by rewrite with_w_id|]. split; [apply step_refl, Hinv|]. by apply moved_refl, base_positive.
Qed.

Lemma during_end s1 : during s [] s1 → counts (vfs_w s1) = counts (vfs_w s).
Proof. intros (_ & _ & Hm). by apply moved_none; [apply base_positive|]. Qed.

Lemma during_perm L L' s1 : L ≡ₚ L' → during s L s1 → during s L' s1.
Proof.
  intros HL (? & ? & Hm). split_and!; [done..|]. eapply moved_ext; [|done]. intros p. by apply cnt_perm.
Qed.

Lemma during_ok L s1 : during s L s1 → vw_ok (vfs_w s1).
Proof. by intros (_ & [? _] & _). Qed.

Lemma during_fses L s1 : during s L s1 → fses (vfs_w s1) = fses (vfs_w s).
Proof. by intros (_ & [_ ?] & _). Qed.

Lemma during_live L s1 p i :
  during s L s1 → counts (vfs_w s) !! p = Some i → counts (vfs_w s1) !! p = Some (addref (cnt L p) i).
Proof. intros (_ & _ & Hm) Hi. eapply moved_live; [apply base_positive|done|done|apply cnt_nonneg]. Qed.

Lemma during_temp L s1 p : during s L s1 → p ∈ L → is_Some (counts (vfs_w s1) !! p).
Proof.
  intros (_ & _ & Hm) Hp. destruct (moved_temp _ _ _ p base_positive Hm (cnt_elem _ _ Hp)) as (i & Hi & _). by exists i.
Qed.

Lemma during_room L s1 : during s L s1 → (length L ≤ 7)%nat → room 1 (counts (vfs_w s1)).
Proof.
  intros (_ & _ & Hm) HL. apply (moved_room _ _ _ 1 7 base_positive Hm); [|lia|lia|done].
  intros p. pose proof (cnt_nonneg L p). pose proof (cnt_length L p). lia.
Qed.

Lemma base_open p i : counts (vfs_w s) !! p = Some i → 0 ≤ i_open i.
Proof. intros Hi. by destruct (law_range _ _ _ (vi_ok _ _ Hinv) Hi) as (_ & ? & _). Qed.

(** With more references taken the invariant still holds. *)
Lemma during_inv L s1 : during s L s1 → vfs_inv s1 l.
Proof.
  intros Hd. pose proof Hd as (Es & [Hok Hf] & Hm). rewrite Es. pose proof (vi_held _ _ Hinv) as Hh. split; cbn; [done|apply Hinv..|].
  rewrite Hf. eapply held_moved; [done|done|apply base_open|..].
  - intros p. pose proof (cnt_nonneg L p). lia.
  - intros p i _ _. apply cnt_nonneg.
  - intros p i Hp Hi. destruct (h_live _ _ _ _ _ Hh p) as [j Hj].
    { unfold held_list. rewrite !elem_of_app. right. destruct Hp as [->| ->]; [left|right]; by left. }
    rewrite (moved_same _ _ _ _ _ _ Hm Hj Hi). cbn. by apply (h_start _ _ _ _ _ Hh p j).
Qed.

(** A call into the world. *)
Lemma on_w_wp {A} (m : stm W A) s1 (Q : A → vfs W → Prop) :
  swpp Pk m (vfs_w s1) (λ a w', Q a (with_w s1 w')) → swpp Pk (on_w m) s1 Q.
Proof. unfold swpp, on_w, mbind, outcome_bind. by destruct (m (vfs_w s1)) as [[a w']| | |]. Qed.

Lemma during_with L L' s1 w' :
  during s L s1 → step (vfs_w s1) w' → moved (counts (vfs_w s)) (cnt L') (counts w') → during s L' (with_w s1 w').
Proof. intros (-> & ? & _) Hst Hm. split; [done|]. split; [by eapply step_trans|done]. Qed.

Lemma quiet_wp {A} (m : stm W A) L s1 :
  during s L s1 → quiet m (vfs_w s1) → swpp Pk (on_w m) s1 (λ _ s2, during s L s2).
Proof.
  intros Hd Hq. apply on_w_wp, swpp_swp. eapply swp_mono; [exact Hq|]. intros a w' [Hst Hc].
  eapply during_with; [done|done|]. rewrite Hc. apply Hd.
Qed.

Lemma took_during L s1 f q w' :
  during s L s1 → step (vfs_w s1) w' → took f (counts (vfs_w s1)) q (counts w') →
  during s (q :: L) (with_w s1 w') ∧ ∃ i, counts w' !! q = Some i ∧ i_fs i = f.
Proof.
  intros Hd Hst Ht. split.
  - eapply during_with; [done|done|]. eapply (moved_took _ (cnt L)); [apply base_positive|apply cnt_nonneg|apply Hd|done].
  - unfold took in Ht. destruct (counts (vfs_w s1) !! q) as [i|]; [destruct Ht as [? ->]|destruct Ht as (? & d & ->)];
      rewrite lookup_insert_eq; eauto.
Qed.

(** An operation that hands back a vnode of the filesystem [f]. *)
Definition taken f L (r q : Z) s2 : Prop :=
  if r =? 0 then during s (q :: L) s2 ∧ ∃ i, counts (vfs_w s2) !! q = Some i ∧ i_fs i = f else during s L s2.

Lemma takes_during L s1 f r q w' :
  during s L s1 → takes f (vfs_w s1) r q w' → taken f L r q (with_w s1 w').
Proof.
  intros Hd [Hst Ht]. unfold taken. destruct (r =? 0); [by apply took_during|].
  eapply during_with; [done|done|]. rewrite Ht. apply Hd.
Qed.

Lemma incref_wp L s1 p i :
  during s L s1 → (length L ≤ 7)%nat → counts (vfs_w s1) !! p = Some i →
  swpp Pk (incref p) s1 (λ _ s2, taken (i_fs i) L 0 p s2).
Proof.
  intros Hd HL Hi. apply on_w_wp, swpp_swp. destruct (during_room _ _ Hd HL p i Hi) as [Hr _].
  eapply swp_mono; [apply (VOP_INCREF_wp _ p i (during_ok _ _ Hd) Hi Hr)|].
  intros _ w' [Hst Hc]. apply (takes_during L); [done|]. split; [done|]. cbn. unfold took. by rewrite Hi.
Qed.

(** A vnode that is in memory before and after is the same file. *)
Definition kept s1 s2 : Prop := ∀ p i j,
  counts (vfs_w s1) !! p = Some i → counts (vfs_w s2) !! p = Some j → i_fs j = i_fs i ∧ i_dir j = i_dir i.

Lemma decref_wp L s1 q :
  during s (q :: L) s1 → swpp Pk (decref q) s1 (λ _ s2, during s L s2 ∧ kept s1 s2).
Proof.
  intros Hd. apply on_w_wp, swpp_swp. pose proof Hd as (_ & _ & Hm).
  destruct (moved_temp _ _ _ q base_positive Hm) as (i & Hi & Hlast & _); [apply cnt_elem; by left|].
  eapply swp_mono; [apply (VOP_DECREF_wp _ q i); [by eapply during_ok|done|done]|]. intros _ w' [Hst Hc]. split.
  - eapply during_with; [done|done|]. rewrite Hc. eapply moved_ext; [|by apply moved_dec]. intros p. cbn. lia.
  - intros p j j' Hj. cbn [with_w vfs_w]. rewrite Hc. by apply dec_same.
Qed.

Lemma decref_2_wp L s1 q p :
  during s (p :: q :: L) s1 → swpp Pk (decref q) s1 (λ _ s2, during s (p :: L) s2 ∧ kept s1 s2).
Proof. intros Hd. apply decref_wp. eapply during_perm; [|done]. by constructor. Qed.

(** ** The current directory *)

Lemma cwd_live p : t_cwd s = Some p ∨ bootfs_vnode s = Some p →
  ∃ i, counts (vfs_w s) !! p = Some i ∧ is_Some (i_fs i) ∧ start_ok (fses (vfs_w s)) l i.
Proof.
  intros Hp. pose proof (vi_held _ _ Hinv) as Hh. destruct (h_live _ _ _ _ _ Hh p) as [i Hi].
  { unfold held_list. rewrite !elem_of_app. right. destruct Hp as [->| ->]; [left|right]; by left. }
  exists i. split; [done|]. by eapply h_start.
Qed.

(** What path lookup starts from. *)
Definition started L (r q : Z) s2 : Prop :=
  if r =? 0 then during s (q :: L) s2 ∧
    ∃ i, counts (vfs_w s2) !! q = Some i ∧ start_ok (fses (vfs_w s)) l i
  else during s L s2.

Lemma vfs_getcurdir_wp L s1 :
  during s L s1 → (length L ≤ 7)%nat →
  swpp Pk vfs_getcurdir s1 (λ '(r, q) s2, started L r q s2 ∧
    (r = 0 → t_cwd s = Some q)).
Proof.
  intros Hd HL. unfold vfs_getcurdir. apply swpp_bind, swpp_gets.
  assert (t_cwd s1 = t_cwd s) as -> by (destruct Hd as (-> & _); done).
  destruct (t_cwd s) as [p|] eqn:Hc; [|by apply swpp_ret].
  destruct (cwd_live p (or_introl Hc)) as (i & Hi & _ & Hok). apply swpp_bind.
  eapply swpp_mono; [eapply (incref_wp L); [done|done|by eapply during_live]|].
  intros _ s2 [Hd2 (j & Hj & Ej)]. apply swpp_ret. split; [|done]. split; [done|]. exists j. split; [done|].
  intros fs Hfs. apply Hok. by rewrite Ej in Hfs.
Qed.

(** ** Loops over the table *)

Lemma each_dev_wp {R} (P : nat → vfs W → Prop) (Q : R → vfs W → Prop) body s1 n :
  a_num (knowndevs s1) = Z.of_nat n → P 0%nat s1 →
  (∀ i s2, (i < n)%nat → P i s2 → ∃ l' kd, array_repr (knowndevs s2) l' ∧ l' !! i = Some kd ∧
     swpp Pk (body (Z.of_nat i) kd) s2 (λ r s3, match r with inl _ => P (S i) s3 | inr x => Q x s3 end)) →
  swpp Pk (each_dev body) s1 (λ r s3, match r with inl _ => P n s3 | inr x => Q x s3 end).
Proof.
  intros Hnum HP Hbody. unfold each_dev. apply swpp_bind, swpp_gets. unfold array_getnum. rewrite Hnum, Nat2Z.id.
  eapply swpp_mono; [apply (swpp_for_stm Pk (λ j (_ : unit) s2, P (Z.to_nat j) s2) Q); [done|]|].
  - intros j [] s2 Hj HP2. destruct (Hbody (Z.to_nat j) s2 ltac:(lia) HP2) as (l' & kd & Hr & Hkd & Hb).
    apply swpp_bind, swpp_gets, swpp_bind, swpp_lift. rewrite Z2Nat.id in Hb by lia.
    rewrite <-(Z2Nat.id j) at 1 by lia. rewrite (array_getguy_eq _ _ _ _ Hr Hkd). cbn [wp].
    eapply swpp_mono; [exact Hb|]. intros [[]|x] s3 H3; [|done]. by rewrite Z2Nat.inj_add, Nat.add_comm by lia.
  - intros [[]|x] s3 H3; [|done]. by rewrite Z.add_0_l, Nat2Z.id in H3.
Qed.

Lemma knowndevs_num L s1 : during s L s1 → a_num (knowndevs s1) = Z.of_nat (length l) ∧ array_repr (knowndevs s1) l.
Proof. intros (-> & _). split; [apply (array_repr_num _ _ (vi_devs _ _ Hinv))|apply Hinv]. Qed.

(** ** vfs_getroot *)

Definition locked s1 : vfs W := mkVfs (vfs_w s1) (knowndevs s1) true (bootfs_vnode s1) (bootfs_lock s1) (t_cwd s1).

Lemma locked_with s1 w : locked (with_w s1 w) = with_w (locked s1) w.
Proof. done. Qed.

(** Holding the lock on the table. *)
Lemma devs_locked_wp {A B} L s1 (m : stm (vfs W) A) (g : A → B) (Q : B → vfs W → Prop) :
  during s L s1 →
  swpp Pk m (locked s1) (λ a s2, ∃ s3 L', s2 = locked s3 ∧ during s L' s3 ∧ Q (g a) s3) →
  swpp Pk (acquire_devs;; a ← m; release_devs;; mret (g a)) s1 Q.
Proof.
  intros (Es & _) Hm. destruct (vi_locks _ _ Hinv) as [Hl1 Hl2]. unfold acquire_devs. apply swpp_bind, swpp_bind, swpp_gets.
  rewrite Es at 1. cbn [with_w knowndevs_lock]. rewrite Hl1. apply swpp_modify, swpp_bind. fold (locked s1).
  eapply swpp_mono; [exact Hm|]. intros a s2 (s3 & L' & -> & (Es3 & _) & HQ). unfold release_devs.
  apply swpp_bind, swpp_bind, swpp_gets, swpp_bind, swpp_lift. cbn [wp kassert locked knowndevs_lock].
  apply swpp_modify, swpp_ret. cbn [locked vfs_w knowndevs bootfs_vnode bootfs_lock t_cwd].
  assert (mkVfs (vfs_w s3) (knowndevs s3) false (bootfs_vnode s3) (bootfs_lock s3) (t_cwd s3) = s3) as ->; [|done].
  rewrite Es3. cbn. unfold with_w. by rewrite Hl1.
Qed.

Lemma on_w_locked {A} (m : stm W A) s1 (Q : A → vfs W → Prop) :
  swpp Pk (on_w m) s1 (λ a s2, Q a (locked s2)) → swpp Pk (on_w m) (locked s1) Q.
Proof. unfold swpp, on_w, mbind, outcome_bind. cbn. by destruct (m (vfs_w s1)) as [[a w']| | |]. Qed.

(** Holding the lock on the boot filesystem. *)
Definition boot_locked s1 : vfs W := mkVfs (vfs_w s1) (knowndevs s1) (knowndevs_lock s1) (bootfs_vnode s1) true (t_cwd s1).

Lemma acquire_boot_wp L s1 (Q : unit → vfs W → Prop) :
  during s L s1 → Q tt (boot_locked s1) → swpp Pk acquire_boot s1 Q.
Proof.
  intros (Es & _) HQ. destruct (vi_locks _ _ Hinv) as [_ Hl]. unfold acquire_boot. apply swpp_bind, swpp_gets.
  rewrite Es at 1. cbn [with_w bootfs_lock]. rewrite Hl. by apply swpp_modify.
Qed.

Lemma release_boot_wp L s1 (Q : unit → vfs W → Prop) :
  during s L s1 → Q tt s1 → swpp Pk release_boot (boot_locked s1) Q.
Proof.
  intros (Es & _) HQ. destruct (vi_locks _ _ Hinv) as [_ Hl]. unfold release_boot.
  apply swpp_bind, swpp_gets, swpp_bind, swpp_lift. cbn [wp kassert boot_locked bootfs_lock]. apply swpp_modify.
  cbn [boot_locked vfs_w knowndevs knowndevs_lock bootfs_vnode t_cwd].
  assert (mkVfs (vfs_w s1) (knowndevs s1) (knowndevs_lock s1) (bootfs_vnode s1) false (t_cwd s1) = s1) as ->; [|done].
  rewrite Es. unfold with_w; cbn. by rewrite Hl.
Qed.

Lemma on_w_boot {A} (m : stm W A) s1 (Q : A → vfs W → Prop) :
  swpp Pk (on_w m) s1 (λ a s2, Q a (boot_locked s2)) → swpp Pk (on_w m) (boot_locked s1) Q.
Proof. unfold swpp, on_w, mbind, outcome_bind. cbn. by destruct (m (vfs_w s1)) as [[a w']| | |]. Qed.

(** The search for [devname] ended at something with the answer [t]. *)
Definition hit L s1 (t : target) (r q : Z) s3 : Prop :=
  match t with
  | TRoot fs => r = 0 ∧ during s (q :: L) s3 ∧ ∃ i, counts (vfs_w s3) !! q = Some i ∧ i_fs i = Some fs
  | TDevice v => r = 0 ∧ q = v ∧ during s (q :: L) s3 ∧ ∃ i, counts (vfs_w s3) !! q = Some i ∧ i_fs i = None
  | TNothing => r = ENXIO ∧ s3 = s1
  end.

(** After a round of the search that began in [s1]. *)
Definition round_post L s1 (a : option target) (x : unit + Z * Z) s2 : Prop :=
  match a with
  | None => x = inl tt ∧ s2 = locked s1
  | Some t => ∃ r q s3, x = inr (r, q) ∧ s2 = locked s3 ∧ hit L s1 t r q s3
  end.

(** The device itself is handed back. *)
Lemma getroot_vnode_wp L s1 kd :
  during s L s1 → (length L ≤ 7)%nat → kd ∈ l → is_Some (kd_device kd) →
  swpp Pk (incref (kd_vnode kd);; mret (inr (0, kd_vnode kd))) (locked s1) (round_post L s1 (Some (TDevice (kd_vnode kd)))).
Proof.
  intros Hd HL Hkd [d Ed]. destruct (h_dev _ _ _ _ _ (vi_held _ _ Hinv) kd Hkd) as (_ & _ & _ & Hdev).
  assert (dev_vnode kd = Some (kd_vnode kd)) as Ekd by (unfold dev_vnode; by rewrite Ed).
  destruct (h_live _ _ _ _ _ (vi_held _ _ Hinv) (kd_vnode kd)) as [i Hi].
  { unfold held_list. rewrite elem_of_app. left. by apply (list_elem_of_omap dev_vnode); exists kd. }
  apply swpp_bind, on_w_locked. eapply swpp_mono; [eapply (incref_wp L); [done|done|by eapply during_live]|].
  intros _ s2 [Hd2 (j & Hj & Ej)]. apply swpp_ret. exists 0, (kd_vnode kd), s2. split; [done|]. split; [done|]. cbn [hit]. split_and!; [done..|]. exists j. split; [done|].
  cbn in Ej. by rewrite (Hdev _ i Ekd Hi) in Ej.
Qed.

Lemma getroot_dev_wp L s1 devname kd :
  during s L s1 → (length L ≤ 7)%nat → kd ∈ l → kd_name kd ≠ devname ∨ kd_fs kd = None ∧ kd_rawname kd = None →
  swpp Pk (getroot_dev devname kd) (locked s1) (round_post L s1
    (if bool_decide (kd_name kd = devname) || bool_decide (kd_rawname kd = Some devname) then Some (TDevice (kd_vnode kd)) else None)).
Proof.
  intros Hd HL Hkd Hc. destruct (h_dev _ _ _ _ _ (vi_held _ _ Hinv) kd Hkd) as (Hdev & Hraw & _ & _). unfold getroot_dev, isname.
  case_bool_decide as Hn; cbn [orb].
  - destruct Hc as [?|[Hf Hrw]]; [done|]. rewrite Hf, Hrw. apply swpp_bind, swpp_lift. cbn [wp].
    apply swpp_bind, swpp_lift. cbn [wp]. destruct (Hdev Hf) as [d Ed]. rewrite Ed. apply swpp_bind, swpp_lift. cbn [wp].
    apply getroot_vnode_wp; [done..|by rewrite Ed].
  - case_bool_decide as Hrn; [|by apply swpp_ret]. destruct (Hraw ltac:(by rewrite Hrn)) as [d Ed]. rewrite Ed.
    apply swpp_bind, swpp_lift. cbn [wp]. apply getroot_vnode_wp; [done..|by rewrite Ed].
Qed.

(** The root of a filesystem of the table. *)
Lemma getroot_fs_wp L s1 kd fs :
  during s L s1 → (length L ≤ 7)%nat → kd ∈ l → kd_fs kd = Some fs →
  swpp Pk (p ← fsop fs fs_getroot; mret (inr (0, p))) (locked s1) (round_post L s1 (Some (TRoot fs))).
Proof.
  intros Hd HL Hkd Ef. destruct (h_dev _ _ _ _ _ (vi_held _ _ Hinv) kd Hkd) as (_ & _ & Hfs & _).
  specialize (Hfs fs Ef). rewrite <-(during_fses _ _ Hd) in Hfs. apply swpp_bind, on_w_wp. cbn [locked vfs_w].
  eapply swpp_mono; [apply law_getroot; [by eapply during_ok|done|by eapply during_room]|].
  intros q w' [Hst Ht]. apply swpp_ret. exists 0, q, (with_w s1 w'). destruct (took_during _ _ _ _ _ Hd Hst Ht) as [Hd2 Hi]. done.
Qed.

Lemma getroot_step_wp L s1 devname kd :
  during s L s1 → (length L ≤ 7)%nat → kd ∈ l →
  swpp Pk (getroot_step devname kd) (locked s1) (round_post L s1 (answers (fses (vfs_w s)) kd devname)).
Proof.
  intros Hd HL Hkd. destruct (h_dev _ _ _ _ _ (vi_held _ _ Hinv) kd Hkd) as (_ & _ & Hfs & _).
  unfold getroot_step, answers. destruct (kd_fs kd) as [fs|] eqn:Ef.
  - destruct (Hfs fs eq_refl) as [nm Hnm]. apply swpp_bind, on_w_wp. unfold swpp at 1. rewrite Hnm.
    rewrite <-(during_fses _ _ Hd) in Hnm. cbn [locked vfs_w]. rewrite (law_volname _ _ _ (during_ok _ _ Hd) Hnm).
    change (with_w (locked s1) (vfs_w s1)) with (locked s1). change (isname devname nm) with (bool_decide (nm = Some devname)).
    assert (bool_decide (Some nm = Some (Some devname)) = bool_decide (nm = Some devname)) as -> by (apply bool_decide_ext; naive_solver).
    destruct (bool_decide (kd_name kd = devname)) eqn:En; cbn [orb]; [by eapply getroot_fs_wp|].
    destruct (bool_decide (nm = Some devname)); [by eapply getroot_fs_wp|]. apply bool_decide_eq_false in En.
    eapply swpp_mono; [apply (getroot_dev_wp L s1 devname kd); [done..|by left]|]. by rewrite (bool_decide_eq_false_2 _ En).
  - destruct (bool_decide (kd_rawname kd ≠ None) && bool_decide (kd_name kd = devname)) eqn:E.
    + apply swpp_ret. by exists ENXIO, 0, s1.
    + apply getroot_dev_wp; [done..|]. apply andb_false_iff in E as [E%bool_decide_eq_false|E%bool_decide_eq_false]; [|by left].
      destruct (kd_rawname kd); [by destruct E|]. by right.
Qed.

Definition root_post L s1 (o : option target) (r q : Z) s2 : Prop :=
  match o with Some t => hit L s1 t r q s2 | None => r = ENODEV ∧ s2 = s1 end.

Lemma vfs_getroot_exact_wp L s1 devname :
  during s L s1 → (length L ≤ 7)%nat →
  swpp Pk (vfs_getroot devname) s1 (λ '(r, q) s2, root_post L s1 (resolve (fses (vfs_w s)) l devname) r q s2).
Proof.
  intros Hd HL. destruct (knowndevs_num _ _ Hd) as [Hnum Hrep]. unfold vfs_getroot.
  eapply (devs_locked_wp L); [done|]. set (ans := λ kd, answers (fses (vfs_w s)) kd devname).
  eapply swpp_mono; [apply (each_dev_wp (λ i s2, s2 = locked s1 ∧ resolve (fses (vfs_w s)) (take i l) devname = None)
    (λ x s2, ∃ t, resolve (fses (vfs_w s)) l devname = Some t ∧ round_post L s1 (Some t) (inr x) s2) _ _ (length l)); [done|done|]|].
  - intros i s2 Hi [-> Hno]. destruct (lookup_lt_is_Some_2 l i Hi) as [kd Hkd]. exists l, kd. split_and!; [done|done|].
    eapply swpp_mono; [apply (getroot_step_wp L); [done..|by eapply list_elem_of_lookup_2]|]. intros x s3 Hx.
    destruct (answers (fses (vfs_w s)) kd devname) as [t|] eqn:Ea; cbn [round_post] in Hx.
    + pose proof Hx as (r & q & s4 & -> & _). exists t. split; [|done]. rewrite <-(take_drop_middle l i kd Hkd), resolve_app, Hno. cbn. by rewrite Ea.
    + destruct Hx as [-> ->]. split; [done|]. rewrite (take_S_r _ _ kd Hkd), resolve_app, Hno. cbn. by rewrite Ea.
  - intros [[]|[r q]] s2.
    + intros [-> Hno]. rewrite take_ge in Hno by done. exists s1, L. rewrite Hno. done.
    + intros (t & -> & r' & q' & s3 & [= <- <-] & -> & Hhit). exists s3, (if r =? 0 then q :: L else L). split_and!; [done| |done].
      destruct t; [by destruct Hhit as (-> & ? & _)|by destruct Hhit as (-> & -> & ? & _)|by destruct Hhit as (-> & ->)].
Qed.

Lemma vfs_getroot_wp L s1 devname :
  during s L s1 → (length L ≤ 7)%nat →
  swpp Pk (vfs_getroot devname) s1 (λ '(r, q) s2, started L r q s2).
Proof.
  intros Hd HL. eapply swpp_mono; [by apply (vfs_getroot_exact_wp L)|]. intros [r q] s2 H. unfold root_post, hit in H.
  destruct (resolve (fses (vfs_w s)) l devname) as [[fs|v| ]|] eqn:Er.
  - destruct H as (-> & Hd2 & i & Hi & Ei). split; [done|]. exists i. split; [done|]. intros fs' Hfs'. right.
    destruct (resolve_elem _ _ _ _ Er) as (kd & Hkd & Ha). exists kd. split; [done|]. rewrite Ei in Hfs'. injection Hfs' as <-. by eapply answers_root.
  - destruct H as (-> & -> & Hd2 & i & Hi & Ei). split; [done|]. exists i. split; [done|]. intros fs' Hfs'. congruence.
  - by destruct H as [-> ->].
  - by destruct H as [-> ->].
Qed.
End during.

Lemma during_trans s l L L' s1 s2 :
  vfs_inv s l → during s L s1 → during s1 L' s2 → during s (L' ++ L) s2.
Proof.
  intros Hinv (E1 & Hst & Hm) (E2 & Hst' & Hm'). split; [by rewrite E2, E1|]. split; [by eapply step_trans|].
  eapply moved_ext; [|by eapply moved_trans; [apply (base_positive s l Hinv)|apply cnt_nonneg|apply cnt_nonneg|..]].
  intros p. clear. induction L' as [|q L' IH]; cbn; lia.
Qed.
End inv.
