(* ===== verification/VfsOps.v ===== *)
(** * Reference counts: path names, the current directory and the boot filesystem *)

From S2P Require Import Prelude Array Copyinout Uio Vnode Device Vfs VfsLaws VfsPath VfsInv.

Lemma swpp_eq {St A} Pk (m m' : stm St A) s (Q : A → St → Prop) :
  m s = m' s → swpp Pk m' s Q → swpp Pk m s Q.
Proof. unfold swpp. by intros ->. Qed.

Lemma drop_slashes_cstr path : cstr path → cstr (drop_slashes path).
Proof. induction 1 as [|c path Hc Hp IH]; cbn; [constructor|]. destruct (c =? SLASH); [done|by constructor]. Qed.

Lemma parse_path_cstr path : cstr path → cstr (parse_path path).2.
Proof.
  intros Hp. unfold parse_path. pose proof (span_sep_app path) as Hs.
  destruct (span_sep path) as [a [|c b]]; [done|]. destruct Hs as [-> _].
  pose proof Hp as [_ [_ Hb]%Forall_cons]%Forall_app. apply drop_slashes_cstr in Hb.
  destruct (c =? COLON), a; done.
Qed.

Section ops.
Context {W Ops : Type} `{!VnodeWorld W Ops} {Pk : Prop} `{!VnodeLaws W Ops Pk} {cs : CurSpace}.
Context (s : vfs W) (l : list knowndev) (Hinv : vfs_inv s l) (Hroom : room 8 (counts (vfs_w s))).
Implicit Types (L : list Z).

(** Giving the vnode [p] back while [q] is kept. *)
Lemma started_decref_dir_wp L s1 p q r i :
  (if r =? 0 then during s (q :: p :: L) s1 ∧ counts (vfs_w s1) !! q = Some i ∧ start_ok (fses (vfs_w s)) l i
   else during s (p :: L) s1) →
  swpp Pk (decref p) s1 (λ _ s2, started s l L r q s2 ∧ (r = 0 → ∀ j, counts (vfs_w s2) !! q = Some j → i_dir j = i_dir i)).
Proof.
  unfold started. destruct (Z.eqb_spec r 0).
  - intros (Hd & Hi & Hok). eapply swpp_mono; [by apply (decref_2_wp s l Hinv)|]. intros _ s2 [Hd2 Hk].
    split; [|intros _ j Hj; by apply (Hk _ _ _ Hi Hj)]. split; [done|].
    destruct (during_temp s l Hinv _ _ q Hd2 ltac:(by left)) as [j Hj]. exists j. split; [done|].
    destruct (Hk _ _ _ Hi Hj) as [E _]. intros fs Hfs. apply Hok. congruence.
  - intros Hd. eapply swpp_mono; [by apply (decref_wp s l Hinv)|]. by intros _ s2 [? _].
Qed.

Lemma started_decref_wp L s1 p q r i :
  (if r =? 0 then during s (q :: p :: L) s1 ∧ counts (vfs_w s1) !! q = Some i ∧ start_ok (fses (vfs_w s)) l i
   else during s (p :: L) s1) →
  swpp Pk (decref p) s1 (λ _ s2, started s l L r q s2).
Proof. intros H. eapply swpp_mono; [by apply (started_decref_dir_wp L s1 p q r i)|]. by intros _ s2 [? _]. Qed.

Lemma start_boot_wp L s1 :
  during s L s1 → (length L ≤ 6)%nat →
  swpp Pk (start_vnode AtBoot) s1 (λ '(r, q) s2, started s l L r q s2).
Proof.
  intros Hd HL. cbn [start_vnode]. apply swpp_bind. eapply (acquire_boot_wp s l Hinv); [done|].
  apply swpp_bind, swpp_gets. assert (bootfs_vnode (boot_locked s1) = bootfs_vnode s) as -> by (destruct Hd as (-> & _); done).
  destruct (bootfs_vnode s) as [p|] eqn:Hb.
  - destruct (cwd_live s l Hinv p (or_intror Hb)) as (i & Hi & _ & Hok). apply swpp_bind, on_w_boot.
    eapply swpp_mono; [apply (incref_wp s l Hinv Hroom L s1 p (addref (cnt L p) i) Hd); [lia|by apply (during_live s l Hinv L)]|].
    intros _ s2 [Hd2 (j & Hj & Ej)]. apply swpp_bind. eapply (release_boot_wp s l Hinv); [done|]. apply swpp_ret.
    split; [done|]. exists j. split; [done|]. intros fs Hfs. apply Hok. by rewrite Ej in Hfs.
  - apply swpp_bind. eapply (release_boot_wp s l Hinv); [done|]. by apply swpp_ret.
Qed.

Lemma start_curroot_wp L s1 :
  during s L s1 → (length L ≤ 6)%nat →
  swpp Pk (start_vnode AtCurRoot) s1 (λ '(r, q) s2, started s l L r q s2).
Proof.
  intros Hd HL. cbn [start_vnode].
  apply swpp_bind. eapply swpp_mono; [apply (vfs_getcurdir_wp s l Hinv Hroom L); [done|lia]|].
  intros [r q] s2 [Hst Hcwd]. unfold started in Hst. destruct (Z.eqb_spec r 0) as [->|Hr]; cbn [negb].
  2: { apply swpp_ret. unfold started. by rewrite (proj2 (Z.eqb_neq _ _) Hr). }
  destruct Hst as [Hd2 (i & Hi & Hok)]. pose proof (during_ok s _ _ Hd2) as Hok2.
  destruct (cwd_live s l Hinv q (or_introl (Hcwd eq_refl))) as (i0 & Hi0 & [fs Hfs] & _).
  pose proof (during_live s l Hinv _ _ _ _ Hd2 Hi0) as Hi1. rewrite Hi in Hi1. injection Hi1 as ->. cbn in Hfs, Hok.
  apply swpp_bind, on_w_wp. unfold swpp at 1. rewrite (law_vnfs _ _ _ Hok2 Hi). cbn [addref i_fs]. rewrite Hfs.
  apply swpp_bind, swpp_lift. cbn [wp]. 
  rewrite with_w_id.
  apply swpp_bind, on_w_wp. destruct (law_range _ _ _ Hok2 Hi) as (_ & _ & _ & Hfl).
  eapply swpp_mono; [apply law_getroot; [done|by apply Hfl|apply (during_room s l Hinv Hroom _ _ Hd2); cbn; lia]|].
  intros root w' [Hst Ht]. destruct (took_during s l Hinv _ _ _ _ _ Hd2 Hst Ht) as [Hd3 (j & Hj & Ej)].
  apply swpp_bind. eapply swpp_mono; [apply (started_decref_wp L _ q root 0 j); cbn; split_and!; [done|done|]|].
  - intros fs' Hfs'. apply Hok. cbn. congruence.
  - intros [] s3 H3. by apply swpp_ret.
Qed.

Lemma start_vnode_wp L s1 st :
  during s L s1 → (length L ≤ 6)%nat →
  swpp Pk (start_vnode st) s1 (λ '(r, q) s2, started s l L r q s2).
Proof.
  intros Hd HL. destruct st as [|name| |]; cbn [start_vnode].
  - eapply swpp_mono; [apply (vfs_getcurdir_wp s l Hinv Hroom L); [done|lia]|]. by intros [r q] s2 [? _].
  - apply (vfs_getroot_wp s l Hinv Hroom); [done|lia].
  - by apply start_boot_wp.
  - by apply start_curroot_wp.
Qed.

Lemma getdevice_wp L s1 path :
  during s L s1 → (length L ≤ 6)%nat → cstr path →
  swpp Pk (getdevice path) s1 (λ '(r, sub, q) s2, started s l L r q s2 ∧ cstr sub).
Proof.
  intros Hd HL Hp. eapply swpp_eq; [by apply getdevice_parses|]. unfold getdevice_ref.
  pose proof (parse_path_cstr path Hp) as Hrest. destruct (parse_path path) as [st rest]. cbn in Hrest.
  apply swpp_bind. eapply swpp_mono; [by apply (start_vnode_wp L)|]. intros [r q] s2 Hst. cbn beta iota.
  destruct (Z.eqb_spec r 0) as [->|Hr]; cbn [negb]; apply swpp_ret; [done|]. split; [|constructor].
  unfold started in *. by rewrite (proj2 (Z.eqb_neq _ _) Hr) in *.
Qed.

Lemma takes_started L s1 p i r q w' :
  during s (p :: L) s1 → counts (vfs_w s1) !! p = Some i → start_ok (fses (vfs_w s)) l i →
  takes (i_fs i) (vfs_w s1) r q w' →
  ∃ j, if r =? 0 then during s (q :: p :: L) (with_w s1 w') ∧ counts w' !! q = Some j ∧ start_ok (fses (vfs_w s)) l j
   else during s (p :: L) (with_w s1 w').
Proof.
  intros Hd Hi Hok Ht. pose proof (takes_during s l Hinv _ _ _ _ _ _ Hd Ht) as Htk. unfold taken in Htk.
  destruct (r =? 0); [|by exists i]. destruct Htk as [Hd2 (j & Hj & Ej)]. exists j. split_and!; [done|done|].
  intros fs Hfs. apply Hok. congruence.
Qed.

Lemma vfs_lookup_wp L s1 path :
  during s L s1 → (length L ≤ 6)%nat → cstr path →
  swpp Pk (vfs_lookup path) s1 (λ '(r, q) s2, started s l L r q s2).
Proof.
  intros Hd HL Hp. unfold vfs_lookup. apply swpp_bind. eapply swpp_mono; [by apply (getdevice_wp L)|].
  intros [[r sub] p] s2 [Hst Hsub]. cbn beta iota. unfold started in Hst.
  destruct (Z.eqb_spec r 0) as [->|Hr]; cbn [negb].
  2: { apply swpp_ret. unfold started. by rewrite (proj2 (Z.eqb_neq _ _) Hr). }
  destruct (Z.of_nat (length sub) =? 0); [by apply swpp_ret|].
  destruct Hst as [Hd2 (i & Hi & Hok)]. apply swpp_bind, on_w_wp, swpp_swp.
  eapply swp_mono; [apply (law_lookup _ p i); [by eapply during_ok|done|apply (during_room s l Hinv Hroom _ _ Hd2); cbn; lia|done]|].
  intros [r q] w' Ht. destruct (takes_started _ _ _ _ _ _ _ Hd2 Hi Hok Ht) as [j Hj]. apply swpp_bind.
  eapply swpp_mono; [by apply (started_decref_wp L _ p q r j)|]. intros [] s3 H3. by apply swpp_ret.
Qed.

Lemma vfs_lookparent_wp L s1 path len :
  during s L s1 → (length L ≤ 6)%nat → cstr path →
  swpp Pk (vfs_lookparent path len) s1 (λ '(r, q, name) s2, started s l L r q s2 ∧ cstr name ∧
    (r = 0 → ∀ j, counts (vfs_w s2) !! q = Some j → i_dir j = true)).
Proof.
  intros Hd HL Hp. unfold vfs_lookparent. apply swpp_bind. eapply swpp_mono; [by apply (getdevice_wp L)|].
  intros [[r sub] p] s2 [Hst Hsub]. cbn beta iota. unfold started in Hst.
  destruct (Z.eqb_spec r 0) as [->|Hr]; cbn [negb].
  2: { apply swpp_ret. unfold started. rewrite (proj2 (Z.eqb_neq _ _) Hr). split; [done|]. split; [constructor|done]. }
  destruct Hst as [Hd2 (i & Hi & Hok)]. apply swpp_bind. destruct (Z.of_nat (length sub) =? 0).
  - apply swpp_ret, swpp_bind. eapply swpp_mono; [by apply (started_decref_wp L _ p 0 EINVAL i)|].
    intros [] s3 H3. apply swpp_ret. split; [done|]. split; [constructor|done].
  - apply on_w_wp, swpp_swp.
    eapply swp_mono; [apply (law_lookparent _ p i); [by eapply during_ok|done|apply (during_room s l Hinv Hroom _ _ Hd2); cbn; lia|done]|].
    intros [[r q] name] w' (Ht & Hn & Hdir). destruct (takes_started _ _ _ _ _ _ _ Hd2 Hi Hok Ht) as [j Hj]. apply swpp_bind.
    eapply swpp_mono; [by apply (started_decref_dir_wp L _ p q r j)|]. intros [] s3 [H3 Hd3]. apply swpp_ret. split; [done|]. split; [done|].
    intros -> k Hk. rewrite (Hd3 eq_refl k Hk). destruct Hj as (_ & Hj & _). by apply (Hdir eq_refl j).
Qed.

(** ** Operations on the parent directory of a path *)

Lemma parent_op_wp {A} L s1 path (bad : Z → A) (m : Z → list Z → stm (vfs W) A) :
  during s L s1 → (length L ≤ 5)%nat → cstr path →
  (∀ dir name s2, during s (dir :: L) s2 → cstr name →
     swpp Pk (m dir name) s2 (λ _ s3, during s (dir :: L) s3)) →
  swpp Pk ('(result, dir, name) ← vfs_lookparent path (NAME_MAX + 1);
           if negb (result =? 0) then mret (bad result) else
           r ← m dir name; decref dir;; mret r) s1 (λ _ s2, during s L s2).
Proof.
  intros Hd HL Hp Hm. apply swpp_bind. eapply swpp_mono; [apply (vfs_lookparent_wp L); [done|lia|done]|].
  intros [[r dir] name] s2 (Hst & Hn & _). unfold started in Hst. destruct (r =? 0); cbn [negb]; [|by apply swpp_ret].
  destruct Hst as [Hd2 _]. apply swpp_bind. eapply swpp_mono; [by apply Hm|]. intros a s3 Hd3. cbn beta in Hd3. apply swpp_bind.
  eapply swpp_mono; [by apply (decref_wp s l Hinv)|]. intros [] s4 [Hd4 _]. by apply swpp_ret.
Qed.

(** An operation on a vnode whose reference we have. *)
Lemma vop_quiet_wp {A} L s1 p (call : vnode_ops W → stm W A) :
  during s L s1 → p ∈ L →
  (vw_ok (vfs_w s1) → is_Some (counts (vfs_w s1) !! p) → room 1 (counts (vfs_w s1)) → quiet (VOP_ p call) (vfs_w s1)) →
  (length L ≤ 7)%nat → swpp Pk (vop p call) s1 (λ _ s2, during s L s2).
Proof.
  intros Hd Hp Hq HL. apply quiet_wp; [done|]. apply Hq; [by eapply during_ok|by eapply (during_temp s l Hinv)|by eapply (during_room s l Hinv Hroom)].
Qed.

Ltac parent_op := intros dir name s2 Hd2 Hn; eapply vop_quiet_wp; [done|by left| |cbn; lia].

Lemma vfs_remove_wp s1 path :
  during s [] s1 → cstr path → swpp Pk (vfs_remove path) s1 (λ _ s2, during s [] s2).
Proof. intros Hd Hp. apply (parent_op_wp [] s1 path id); [done|cbn; lia|done|]. parent_op. intros. by apply law_remove. Qed.

Lemma vfs_symlink_wp s1 contents path :
  during s [] s1 → cstr path → swpp Pk (vfs_symlink contents path) s1 (λ _ s2, during s [] s2).
Proof. intros Hd Hp. apply (parent_op_wp [] s1 path id); [done|cbn; lia|done|]. parent_op. intros. by apply law_symlink. Qed.

Lemma vfs_mkdir_wp s1 path :
  during s [] s1 → cstr path → swpp Pk (vfs_mkdir path) s1 (λ _ s2, during s [] s2).
Proof. intros Hd Hp. apply (parent_op_wp [] s1 path id); [done|cbn; lia|done|]. parent_op. intros. by apply law_mkdir. Qed.

Lemma vfs_rmdir_wp s1 path :
  during s [] s1 → cstr path → swpp Pk (vfs_rmdir path) s1 (λ _ s2, during s [] s2).
Proof. intros Hd Hp. apply (parent_op_wp [] s1 path id); [done|cbn; lia|done|]. parent_op. intros. by apply law_rmdir. Qed.

Lemma vfs_readlink_wp s1 path u :
  during s [] s1 → cstr path → swpp Pk (vfs_readlink path u) s1 (λ _ s2, during s [] s2).
Proof.
  intros Hd Hp. unfold vfs_readlink. apply swpp_bind. eapply swpp_mono; [apply (vfs_lookup_wp []); [done|cbn; lia|done]|].
  intros [r p] s2 Hst. unfold started in Hst. destruct (r =? 0); cbn [negb]; [|by apply swpp_ret].
  destruct Hst as [Hd2 _]. apply swpp_bind. eapply swpp_mono; [eapply vop_quiet_wp; [done|by left| |cbn; lia]|].
  { intros. by apply law_readlink. }
  intros a s3 Hd3. cbn beta in Hd3. apply swpp_bind. eapply swpp_mono; [by apply (decref_wp s l Hinv)|]. intros [] s4 [Hd4 _]. by apply swpp_ret.
Qed.

(** ** Operations on two paths *)

(** Both references are given back, [q] first. *)
Lemma decref_both_wp {A} s1 p q (a : A) :
  during s [q; p] s1 → swpp Pk (decref q;; decref p;; mret a) s1 (λ _ s2, during s [] s2).
Proof.
  intros Hd. apply swpp_bind. eapply swpp_mono; [by apply (decref_wp s l Hinv)|]. intros [] s2 [Hd2 _].
  apply swpp_bind. eapply swpp_mono; [by apply (decref_wp s l Hinv)|]. intros [] s3 [Hd3 _]. by apply swpp_ret.
Qed.

Lemma vnfs_wp L s1 p i (Q : option Z → vfs W → Prop) :
  during s L s1 → counts (vfs_w s1) !! p = Some i → Q (i_fs i) s1 → swpp Pk (on_w (vw_vnfs p)) s1 Q.
Proof.
  intros Hd Hi HQ. apply on_w_wp. unfold swpp. rewrite (law_vnfs _ _ _ (during_ok s _ _ Hd) Hi).
  by rewrite with_w_id.
Qed.

Lemma same_fs_true a b : same_fs a b = true → ∃ fs, a = Some fs ∧ b = Some fs.
Proof. unfold same_fs. intros [H1%bool_decide_eq_true <-%bool_decide_eq_true]%andb_true_iff. destruct a; [eauto|done]. Qed.

(** The end of [vfs_rename] and [vfs_link]. *)
Lemma same_fs_op_wp s1 p q (call : vnode_ops W → stm W Z) v :
  during s [q; p] s1 →
  (∀ i j fs, counts (vfs_w s1) !! p = Some i → counts (vfs_w s1) !! q = Some j → i_fs i = Some fs → i_fs j = Some fs →
     quiet (VOP_ v call) (vfs_w s1)) →
  swpp Pk (f1 ← on_w (vw_vnfs p);
           f2 ← on_w (vw_vnfs q);
           if negb (same_fs f1 f2) then decref q;; decref p;; mret EXDEV
           else result ← vop v call; decref q;; decref p;; mret result) s1 (λ _ s2, during s [] s2).
Proof.
  intros Hd Hq. destruct (during_temp s l Hinv _ _ p Hd ltac:(by right; left)) as [i Hi].
  destruct (during_temp s l Hinv _ _ q Hd ltac:(by left)) as [j Hj].
  apply swpp_bind. eapply vnfs_wp; [done|done|]. apply swpp_bind. eapply vnfs_wp; [done|done|].
  destruct (same_fs (i_fs i) (i_fs j)) eqn:E; cbn [negb]; [|by apply decref_both_wp].
  apply same_fs_true in E as (fs & Efi & Efj). apply swpp_bind.
  eapply swpp_mono; [apply quiet_wp; [done|by eapply Hq]|]. intros r s2 Hd2. cbn beta in Hd2. by apply decref_both_wp.
Qed.

(** ** Opening *)

(** One more reference to [p], and one more open file on it. *)
Definition opened c p c' : Prop :=
  ∃ c1 i, moved c (cnt [p]) c1 ∧ c1 !! p = Some i ∧ c' = <[p := addopen 1 i]> c1.

Definition open_post (r p : Z) s2 : Prop :=
  if r =? 0 then s2 = with_w s (vfs_w s2) ∧ step (vfs_w s) (vfs_w s2) ∧ opened (counts (vfs_w s)) p (counts (vfs_w s2))
  else during s [] s2.

(** The vnode to open, looked up or created. *)
Lemma open_vnode_wp path openflags :
  cstr path →
  swpp Pk (if negb (Z.land openflags O_CREAT =? 0) then
             let excl := negb (Z.land openflags O_EXCL =? 0) in
             '(result, dir, name) ← vfs_lookparent path (NAME_MAX + 1);
             if negb (result =? 0) then mret (result, 0) else
             r ← vop dir (λ ops, vop_creat ops dir name excl);
             decref dir;;
             mret r
           else vfs_lookup path) s (λ '(r, q) s2, started s l [] r q s2).
Proof.
  intros Hp. pose proof (during_refl s l Hinv) as Hd. destruct (negb (Z.land openflags O_CREAT =? 0)); [|apply (vfs_lookup_wp []); [done|cbn; lia|done]]. cbv zeta.
  apply swpp_bind. eapply swpp_mono; [apply (vfs_lookparent_wp []); [done|cbn; lia|done]|].
  intros [[r dir] name] s2 (Hst & Hn & _). unfold started in Hst. destruct (Z.eqb_spec r 0) as [->|Hr]; cbn [negb].
  2: { apply swpp_ret. unfold started. by rewrite (proj2 (Z.eqb_neq _ _) Hr). }
  destruct Hst as [Hd2 (i & Hi & Hok)]. apply swpp_bind, on_w_wp, swpp_swp.
  eapply swp_mono; [apply (law_creat _ dir i); [by eapply during_ok|done|apply (during_room s l Hinv Hroom _ _ Hd2); cbn; lia|done]|].
  intros [r q] w' Ht. destruct (takes_started _ _ _ _ _ _ _ Hd2 Hi Hok Ht) as [j Hj]. apply swpp_bind.
  eapply swpp_mono; [by apply (started_decref_wp [] _ dir q r j)|]. intros [] s3 H3. by apply swpp_ret.
Qed.

(** Undoing the open after a truncation that failed. *)
Lemma open_trunc_wp s2 p canwrite w3 i :
  during s [p] s2 → counts (vfs_w s2) !! p = Some i → step (vfs_w s2) w3 → counts w3 = <[p := addopen 1 i]> (counts (vfs_w s2)) →
  swpp Pk (open_trunc p canwrite) (with_w s2 w3) (λ r s4, open_post r p s4).
Proof.
  intros Hd Hi Hst Hc. unfold open_trunc. apply swpp_bind.
  assert (swpp Pk (if negb canwrite then mret EINVAL else vop p (λ ops, vop_truncate ops p 0)) (with_w s2 w3)
    (λ _ s4, ∃ w4, s4 = with_w s2 w4 ∧ step (vfs_w s2) w4 ∧ counts w4 = counts w3)) as Ht.
  { destruct canwrite; cbn [negb]; [|by apply swpp_ret; exists w3]. apply on_w_wp, swpp_swp. cbn [with_w vfs_w].
    eapply swp_mono; [apply law_truncate; [apply Hst|by rewrite Hc, lookup_insert_eq]|].
    intros a w4 [Hst4 Hc4]. exists w4. split; [done|]. split; [by eapply step_trans|done]. }
  eapply swpp_mono; [exact Ht|]. intros r s4 (w4 & -> & Hst4 & Hc4). rewrite Hc in Hc4.
  destruct (Z.eqb_spec r 0) as [->|Hr]; cbn [negb].
  - apply swpp_ret. unfold open_post; cbn. destruct Hd as (Es & Hs & Hm). split; [by rewrite Es|]. split; [by eapply step_trans|].
    by exists (counts (vfs_w s2)), i.
  - apply swpp_bind, on_w_wp, swpp_swp. cbn [with_w vfs_w].
    destruct (law_range _ _ _ (during_ok s _ _ Hd) Hi) as (_ & Ho & _).
    eapply swp_mono; [apply (VOP_DECOPEN_wp w4 p (addopen 1 i)); [apply Hst4|by rewrite Hc4, lookup_insert_eq|cbn; lia]|].
    intros _ w5 [Hst5 Hc5]. assert (counts w5 = counts (vfs_w s2)) as E5.
    { rewrite Hc5, Hc4, insert_insert_eq. apply insert_id. rewrite Hi. f_equal. destruct i; unfold addopen; cbn. f_equal. lia. }
    assert (during s [p] (with_w s2 w5)) as Hd5.
    { eapply during_with; [done|by eapply step_trans|]. rewrite E5. apply Hd. }
    apply swpp_bind. eapply swpp_mono; [apply (decref_wp s l Hinv [] _ p Hd5)|]. intros [] s6 [Hd6 _]. apply swpp_ret.
    unfold open_post. by rewrite (proj2 (Z.eqb_neq _ _) Hr).
Qed.

Lemma vfs_open_wp path openflags :
  cstr path → swpp Pk (vfs_open path openflags) s (λ '(r, p) s2, open_post r p s2).
Proof.
  intros Hp. pose proof (during_refl s l Hinv) as Hd. unfold vfs_open. cbv zeta.
  destruct (negb _ && negb _ && negb _); [by apply swpp_ret|]. apply swpp_bind.
  eapply swpp_mono; [by apply open_vnode_wp|]. intros [r p] s2 Hst. unfold started in Hst.
  destruct (Z.eqb_spec r 0) as [->|Hr]; cbn [negb].
  2: { apply swpp_ret. unfold open_post. by rewrite (proj2 (Z.eqb_neq _ _) Hr). }
  destruct Hst as [Hd2 _]. apply swpp_bind. eapply swpp_mono; [eapply vop_quiet_wp; [done|by left| |cbn; lia]|].
  { intros. by apply law_open. }
  intros r s3 Hd3. cbn beta in Hd3. destruct (Z.eqb_spec r 0) as [->|Hr]; cbn [negb].
  2: { apply swpp_bind. eapply swpp_mono; [by apply (decref_wp s l Hinv)|]. intros [] s4 [Hd4 _]. apply swpp_ret.
       unfold open_post. by rewrite (proj2 (Z.eqb_neq _ _) Hr). }
  destruct (during_temp s l Hinv _ _ p Hd3 ltac:(by left)) as [i Hi]. apply swpp_bind, on_w_wp, swpp_swp.
  destruct (during_room s l Hinv Hroom _ _ Hd3 ltac:(cbn; lia) p i Hi) as [_ Ho].
  eapply swp_mono; [apply (VOP_INCOPEN_wp _ p i (during_ok s _ _ Hd3) Hi Ho)|]. intros _ w4 [Hst4 Hc4]. apply swpp_bind.
  eapply (swpp_mono _ _ _ (λ r s5, open_post r p s5)).
  - destruct (negb _).
    + by eapply open_trunc_wp.
    + apply swpp_ret. destruct Hd3 as (Es & Hs & Hm). split; [by rewrite Es|]. split; [by eapply step_trans|]. by exists (counts (vfs_w s3)), i.
  - intros r s5 H5. cbn beta in H5. destruct (Z.eqb_spec r 0) as [->|Hr]; cbn [negb]; apply swpp_ret; [done|].
    unfold open_post in *. by rewrite (proj2 (Z.eqb_neq _ _) Hr) in *.
Qed.

(** ** Closing *)

Definition closed c p i : gmap Z vinfo :=
  if i_ref i =? 1 then delete p c else <[p := addref (-1) (addopen (-1) i)]> c.

Lemma vfs_close_wp p i :
  counts (vfs_w s) !! p = Some i → 1 ≤ i_open i →
  swpp Pk (vfs_close p) s (λ _ s2, s2 = with_w s (vfs_w s2) ∧ step (vfs_w s) (vfs_w s2) ∧
    counts (vfs_w s2) = closed (counts (vfs_w s)) p i).
Proof.
  intros Hi Ho. unfold vfs_close. apply swpp_bind, on_w_wp, swpp_swp.
  destruct (h_refs _ _ _ _ _ (vi_held _ _ Hinv) p i Hi) as [Hr Hn]. pose proof (cnt_nonneg (held_list l (t_cwd s) (bootfs_vnode s)) p).
  eapply swp_mono; [apply (VOP_DECOPEN_wp _ p i (vi_ok _ _ Hinv) Hi Ho)|]. intros _ w1 [Hst Hc]. apply on_w_wp, swpp_swp.
  cbn [with_w vfs_w]. eapply swp_mono; [apply (VOP_DECREF_wp w1 p (addopen (-1) i)); [apply Hst|by rewrite Hc, lookup_insert_eq|]|].
  - cbn. intros E. split; [lia|]. destruct (i_fs i); [done|]. specialize (Hn eq_refl). lia.
  - intros _ w2 [Hst2 Hc2]. split; [done|]. split; [by eapply step_trans|]. cbn [with_w vfs_w]. rewrite Hc2, Hc. unfold closed.
    cbn [addopen i_ref]. destruct (i_ref i =? 1); [by rewrite delete_insert_eq|by rewrite insert_insert_eq].
Qed.
End ops.

Section cwd.
Context {W Ops : Type} `{!VnodeWorld W Ops} {Pk : Prop} `{!VnodeLaws W Ops Pk} {cs : CurSpace}.
Implicit Types (s : vfs W) (l : list knowndev).

(** ** Links *)

Lemma room_during s l L s1 :
  vfs_inv s l → room 16 (counts (vfs_w s)) → during s L s1 → (length L ≤ 8)%nat → room 8 (counts (vfs_w s1)).
Proof.
  intros Hinv Hr (_ & _ & Hm) HL. apply (moved_room _ _ _ 8 8 (base_positive s l Hinv) Hm); [|lia|lia|done].
  intros p. pose proof (cnt_nonneg L p). pose proof (cnt_length L p). lia.
Qed.

Lemma room_weaken c n m : room m c → n ≤ m → room n c.
Proof. intros Hr Hle p i Hi. destruct (Hr p i Hi). lia. Qed.

(** A hard link to a directory is not refused here. *)
Lemma vfs_link_wp s l oldpath newpath :
  vfs_inv s l → room 16 (counts (vfs_w s)) → cstr oldpath → cstr newpath →
  (∀ q s2 i, vfs_lookup oldpath s = Done ((0, q), s2) → counts (vfs_w s2) !! q = Some i → i_dir i = false) →
  swpp Pk (vfs_link oldpath newpath) s (λ _ s2, during s [] s2).
Proof.
  intros Hinv Hroom Ho Hn Hdir. assert (room 8 (counts (vfs_w s))) as Hroom8 by (eapply room_weaken; [done|lia]).
  unfold vfs_link. apply swpp_bind.
  pose proof (vfs_lookup_wp s l Hinv Hroom8 [] s oldpath (during_refl s l Hinv) ltac:(cbn; lia) Ho) as Hl.
  unfold swpp at 1 in Hl. unfold swpp at 1.
  destruct (vfs_lookup oldpath s) as [[[r p] s2]| | |] eqn:El; [|done..]. unfold started in Hl.
  destruct (Z.eqb_spec r 0) as [->|]; cbn [negb]; [|by apply swpp_ret].
  destruct Hl as [Hd2 (i & Hi & _)]. specialize (Hdir p s2 i eq_refl Hi).
  pose proof (during_inv s l Hinv _ _ Hd2) as Hinv2. apply swpp_bind.
  eapply swpp_mono; [apply (vfs_lookparent_wp s2 l Hinv2); [apply (room_during s l [p] s2 Hinv Hroom Hd2); cbn; lia|by apply (during_refl s2 l)|cbn; lia|done]|].
  intros [[r' q] b] s3 (Hst & Hb & _). unfold started in Hst. destruct (r' =? 0); cbn [negb].
  - destruct Hst as [Hd3 _]. pose proof (during_trans s l _ _ _ _ Hinv Hd2 Hd3) as Hd3'. cbn [app] in Hd3'.
    apply (same_fs_op_wp s l Hinv s3 p q); [done|]. intros i' j fs Hi' Hj Ei Ej.
    pose proof (during_live s2 l Hinv2 _ _ _ _ Hd3 Hi) as Hi3. rewrite Hi3 in Hi'. injection Hi' as <-.
    eapply (law_link _ q p); [by eapply during_ok|done|done|done|done|done|done].
  - pose proof (during_trans s l _ _ _ _ Hinv Hd2 Hst) as Hd3. apply swpp_bind.
    eapply swpp_mono; [by apply (decref_wp s l Hinv)|]. intros [] s4 [Hd4 _]. by apply swpp_ret.
Qed.

Lemma vfs_rename_wp s l oldpath newpath :
  vfs_inv s l → room 16 (counts (vfs_w s)) → cstr oldpath → cstr newpath →
  swpp Pk (vfs_rename oldpath newpath) s (λ _ s2, during s [] s2).
Proof.
  intros Hinv Hroom Ho Hn. assert (room 8 (counts (vfs_w s))) as Hroom8 by (eapply room_weaken; [done|lia]).
  unfold vfs_rename. apply swpp_bind.
  eapply swpp_mono; [apply (vfs_lookparent_wp s l Hinv Hroom8 [] s); [by apply (during_refl s l)|cbn; lia|done]|].
  intros [[r p] a] s2 (Hst & Ha & Hdp). unfold started in Hst. destruct (Z.eqb_spec r 0) as [->|]; cbn [negb]; [|by apply swpp_ret].
  destruct Hst as [Hd2 (i & Hi & _)]. specialize (Hdp eq_refl i Hi). pose proof (during_inv s l Hinv _ _ Hd2) as Hinv2.
  assert (room 8 (counts (vfs_w s2))) as Hroom2 by (apply (room_during s l [p] s2 Hinv Hroom Hd2); cbn; lia). apply swpp_bind.
  eapply swpp_mono; [apply (vfs_lookparent_wp s2 l Hinv2 Hroom2 [] s2); [by apply (during_refl s2 l)|cbn; lia|done]|].
  intros [[r' q] b] s3 (Hst & Hb & Hdq). unfold started in Hst. destruct (Z.eqb_spec r' 0) as [->|]; cbn [negb].
  - destruct Hst as [Hd3 (j & Hj & _)]. specialize (Hdq eq_refl j Hj). pose proof (during_trans s l _ _ _ _ Hinv Hd2 Hd3) as Hd3'. cbn [app] in Hd3'.
    apply (same_fs_op_wp s l Hinv s3 p q); [done|]. intros i' j' fs Hi' Hj' Ei Ej.
    pose proof (during_live s2 l Hinv2 _ _ _ _ Hd3 Hi) as Hi3. rewrite Hi3 in Hi'. injection Hi' as <-. rewrite Hj in Hj'. injection Hj' as <-.
    eapply (law_rename _ p q); [by eapply during_ok|done..|apply (during_room s2 l Hinv2 Hroom2 [q] _ Hd3); cbn; lia|done|done].
  - pose proof (during_trans s l _ _ _ _ Hinv Hd2 Hst) as Hd3. apply swpp_bind.
    eapply swpp_mono; [by apply (decref_wp s l Hinv)|]. intros [] s4 [Hd4 _]. by apply swpp_ret.
Qed.

(** ** Changing directory *)

(** The references of a vnode that is or is not there. *)
Definition ones (o : option Z) (p : Z) : Z := cnt (option_list o) p.

(** The state after the current directory has become [q]. *)
Definition new_cwd s s' (q : Z) : Prop :=
  s' = mkVfs (vfs_w s') (knowndevs s) (knowndevs_lock s) (bootfs_vnode s) (bootfs_lock s) (Some q) ∧
  step (vfs_w s) (vfs_w s') ∧
  moved (counts (vfs_w s)) (λ p, one q p - ones (t_cwd s) p) (counts (vfs_w s')).

(** Giving up what the current directory or the boot filesystem held: the vnode
    [old] has the reference, and perhaps others. *)
Lemma drop_held_wp s l w δ old :
  vfs_inv s l → vw_ok w → moved (counts (vfs_w s)) δ (counts w) → (∀ p, 0 ≤ δ p) →
  t_cwd s = Some old ∨ bootfs_vnode s = Some old →
  swp (VOP_DECREF old) w (λ _ w', step w w' ∧ moved (counts (vfs_w s)) (λ p, δ p - one old p) (counts w') ∧
    ∀ p i j, counts w !! p = Some i → counts w' !! p = Some j → i_fs j = i_fs i).
Proof.
  intros Hinv Hok Hm Hδ Hold. destruct (cwd_live s l Hinv old Hold) as (i & Hi & Hf & _).
  pose proof (moved_live _ _ _ _ _ (base_positive s l Hinv) Hm Hi (Hδ old)) as Hi'.
  eapply swp_mono; [apply (VOP_DECREF_wp w old _ Hok Hi')|].
  - cbn. intros E. split; [|done]. destruct (h_refs _ _ _ _ _ (vi_held _ _ Hinv) old i Hi) as [Hr _].
    assert (1 ≤ cnt (held_list l (t_cwd s) (bootfs_vnode s)) old) as Hc.
    { apply cnt_elem. unfold held_list. rewrite !elem_of_app. right. destruct Hold as [->| ->]; [left|right]; by left. }
    pose proof (base_open s l Hinv old i Hi). specialize (Hδ old). lia.
  - intros _ w' [Hst Hc]. split; [done|]. rewrite Hc. split; [by apply moved_dec|].
    intros p a b Ha Hb. by destruct (dec_same _ _ _ _ _ _ Hi' Ha Hb).
Qed.

Lemma vfs_setcurdir_wp s l L dir s1 i :
  vfs_inv s l → room 8 (counts (vfs_w s)) → during s L s1 → (length L ≤ 7)%nat → counts (vfs_w s1) !! dir = Some i →
  swpp Pk (vfs_setcurdir dir) s1 (λ r s2,
    if r =? 0 then
      is_Some (i_fs i) ∧
      s2 = mkVfs (vfs_w s2) (knowndevs s) (knowndevs_lock s) (bootfs_vnode s) (bootfs_lock s) (Some dir) ∧
      step (vfs_w s) (vfs_w s2) ∧ moved (counts (vfs_w s)) (λ p, cnt (dir :: L) p - ones (t_cwd s) p) (counts (vfs_w s2)) ∧
      ∀ j, counts (vfs_w s2) !! dir = Some j → i_fs j = i_fs i
    else during s L s2).
Proof.
  intros Hinv Hroom Hd HL Hi. unfold vfs_setcurdir. apply swpp_bind, on_w_wp, swpp_swp.
  eapply swp_mono; [apply (law_gettype _ dir i); [by eapply during_ok|done]|]. intros [r t] w2 (Hst & Hc & Hdir).
  assert (during s L (with_w s1 w2)) as Hd2 by (eapply during_with; [done|done|]; rewrite Hc; apply Hd).
  destruct (Z.eqb_spec r 0) as [->|Hr]; cbn [negb].
  2: { apply swpp_ret. by rewrite (proj2 (Z.eqb_neq _ _) Hr). }
  rewrite (Hdir eq_refl). destruct (i_dir i) eqn:Ed; cbn [negb]; [|by apply swpp_ret].
  destruct (law_range _ _ _ (during_ok s _ _ Hd) Hi) as (_ & _ & Hfs & _). specialize (Hfs Ed).
  apply swpp_bind. eapply swpp_mono; [apply (incref_wp s l Hinv Hroom L _ dir i Hd2); [done|cbn; by rewrite Hc]|].
  intros [] s3 [Hd3 (i3 & Hi3 & Ef3)]. cbn beta in Hd3. apply swpp_bind, swpp_gets.
  assert (t_cwd s3 = t_cwd s) as -> by (destruct Hd3 as (-> & _); done). apply swpp_bind, swpp_modify.
  destruct Hd3 as (Es & Hst3 & Hm3). rewrite Es. cbn [with_w knowndevs knowndevs_lock bootfs_vnode bootfs_lock vfs_w].
  destruct (t_cwd s) as [old|] eqn:Hold.
  - apply swpp_bind, on_w_wp, swpp_swp. cbn [vfs_w].
    eapply swp_mono; [eapply (drop_held_wp s l _ (cnt (dir :: L)) old Hinv); [apply Hst3|done|apply cnt_nonneg|by left]|].
    intros [] w4 (Hst4 & Hm4 & Hk). apply swpp_ret. cbn [Z.eqb]. split; [done|]. split; [done|]. split; [by eapply step_trans|].
    split; [eapply moved_ext; [|exact Hm4]; intros p; cbn; lia|]. intros j Hj. by rewrite (Hk _ _ _ Hi3 Hj).
  - apply swpp_bind, swpp_ret, swpp_ret. cbn [Z.eqb]. split; [done|]. split; [done|]. split; [done|].
    split; [eapply moved_ext; [|exact Hm3]; intros p; cbn; lia|]. intros j Hj. cbn in Hj. congruence.
Qed.

Lemma held_list_cwd l cwd cwd' boot p :
  cnt (held_list l cwd' boot) p = cnt (held_list l cwd boot) p + ones cwd' p - ones cwd p.
Proof. unfold held_list, ones. rewrite !cnt_app. lia. Qed.

(** The new current directory. *)
Lemma new_cwd_inv s l s' q i :
  vfs_inv s l → new_cwd s s' q → counts (vfs_w s') !! q = Some i → is_Some (i_fs i) → start_ok (fses (vfs_w s)) l i →
  vfs_inv s' l.
Proof.
  intros Hinv (Es & [Hok Hf] & Hm) Hi Hfs Hst. pose proof (vi_held _ _ Hinv) as Hh. rewrite Es. split; cbn; [done|apply Hinv..|].
  rewrite Hf. eapply held_moved; [exact Hh|exact Hm|apply (base_open s l Hinv)|..].
  - intros p. rewrite (held_list_cwd l (t_cwd s)). cbn. lia.
  - intros p j Hj En. unfold one, ones. destruct (t_cwd s) as [old|] eqn:Hold; cbn; [|destruct (p =? q); lia].
    assert (p ≠ old) as Hne. { intros ->. destruct (cwd_live s l Hinv old (or_introl Hold)) as (j' & Hj' & [? ?] & _). congruence. }
    rewrite (one_ne old p) by done. destruct (p =? q); lia.
  - intros p j [[= <-]|Hb] Hj; [rewrite Hi in Hj; by injection Hj as <-|].
    destruct (cwd_live s l Hinv p (or_intror Hb)) as (j0 & Hj0 & Hf0 & Hs0).
    rewrite (moved_same _ _ _ _ _ _ Hm Hj0 Hj). done.
Qed.

Lemma new_cwd_live s l s' q : vfs_inv s l → new_cwd s s' q → is_Some (counts (vfs_w s') !! q).
Proof.
  intros Hinv (_ & _ & Hm). pose proof (cnt_length (option_list (t_cwd s)) q) as Hle. pose proof (cnt_nonneg (option_list (t_cwd s)) q).
  assert (cnt (option_list (t_cwd s)) q ≤ 1) by (destruct (t_cwd s); cbn in *; lia).
  destruct (counts (vfs_w s) !! q) as [i|] eqn:Hi.
  - rewrite (moved_live _ _ _ _ _ (base_positive s l Hinv) Hm Hi); [by eexists|]. rewrite one_eq. unfold ones. lia.
  - destruct (moved_temp _ _ _ q (base_positive s l Hinv) Hm) as (j & Hj & _); [|by exists j].
    rewrite one_eq. unfold ones. destruct (t_cwd s) as [old|] eqn:Hold; [|done]. cbn. rewrite one_ne; [done|].
    intros ->. destruct (cwd_live s l Hinv old (or_introl Hold)) as (j' & Hj' & _). congruence.
Qed.

Lemma vfs_chdir_wp s l path :
  vfs_inv s l → room 8 (counts (vfs_w s)) → cstr path →
  swpp Pk (vfs_chdir path) s (λ r s', vfs_inv s' l ∧ if r =? 0 then ∃ q, new_cwd s s' q else during s [] s').
Proof.
  intros Hinv Hroom Hp. unfold vfs_chdir. apply swpp_bind.
  eapply swpp_mono; [apply (vfs_lookup_wp s l Hinv Hroom [] s); [by apply (during_refl s l)|cbn; lia|done]|].
  intros [r q] s1 Hst. unfold started in Hst. destruct (Z.eqb_spec r 0) as [->|Hr]; cbn [negb].
  2: { apply swpp_ret. split; [by eapply (during_inv s l)|]. by rewrite (proj2 (Z.eqb_neq _ _) Hr). }
  destruct Hst as [Hd1 (i & Hi & Hok)]. apply swpp_bind.
  eapply swpp_mono; [apply (vfs_setcurdir_wp s l [q] q s1 i); try done; cbn; lia|]. intros r s2 H2. cbn beta in H2.
  destruct (Z.eqb_spec r 0) as [->|Hr].
  2: { apply swpp_bind. eapply swpp_mono; [by apply (decref_wp s l Hinv)|]. intros [] s3 [Hd3 _]. apply swpp_ret.
       split; [by eapply (during_inv s l)|]. by rewrite (proj2 (Z.eqb_neq _ _) Hr). }
  destruct H2 as (Hfs & Es & Hst & Hm & Hq). apply swpp_bind, on_w_wp, swpp_swp.
  assert (1 ≤ cnt [q; q] q - ones (t_cwd s) q) as Hδ.
  { cbn. rewrite one_eq. unfold ones. pose proof (cnt_length (option_list (t_cwd s)) q). destruct (t_cwd s); cbn in *; lia. }
  destruct (moved_temp _ _ _ q (base_positive s l Hinv) Hm Hδ) as (j & Hj & Hlast & Hfresh & Hbase).
  eapply swp_mono; [apply (VOP_DECREF_wp _ q j (proj1 Hst) Hj Hlast)|]. intros _ w3 [Hst3 Hc3]. apply swpp_ret.
  assert (new_cwd s (with_w s2 w3) q) as Hnew.
  { rewrite Es. split; [done|]. split; [by eapply step_trans|]. cbn [with_w vfs_w]. rewrite Hc3.
    eapply moved_ext; [|by eapply moved_dec]. intros p. cbn. lia. }
  split; [|cbn; by exists q]. destruct (new_cwd_live s l _ q Hinv Hnew) as [k Hk].
  assert (i_fs k = i_fs i) as Ek.
  { cbn in Hk. rewrite Hc3 in Hk. destruct (dec_same _ _ _ _ _ _ Hj Hj Hk) as [-> _]. by apply Hq. }
  eapply (new_cwd_inv s l _ q k); [done|done|done|by rewrite Ek|]. intros fs Hf. apply Hok. congruence.
Qed.

Lemma vfs_clearcurdir_wp s l :
  vfs_inv s l →
  swpp Pk vfs_clearcurdir s (λ r s', r = 0 ∧ vfs_inv s' l ∧
    s' = mkVfs (vfs_w s') (knowndevs s) (knowndevs_lock s) (bootfs_vnode s) (bootfs_lock s) None ∧
    moved (counts (vfs_w s)) (λ p, - ones (t_cwd s) p) (counts (vfs_w s'))).
Proof.
  intros Hinv. unfold vfs_clearcurdir. apply swpp_bind, swpp_gets, swpp_bind, swpp_modify. pose proof (vi_held _ _ Hinv) as Hh.
  destruct (t_cwd s) as [old|] eqn:Hold.
  - apply swpp_bind, on_w_wp, swpp_swp. cbn [vfs_w].
    eapply swp_mono; [eapply (drop_held_wp s l _ (λ _, 0) old Hinv); [apply Hinv|by apply moved_refl, (base_positive s l)|done|by left]|].
    intros [] w' ([Hok Hf] & Hm & _). apply swpp_ret. split; [done|]. cbn [with_w vfs_w knowndevs knowndevs_lock bootfs_vnode bootfs_lock].
    assert (moved (counts (vfs_w s)) (λ p, - ones (Some old) p) (counts w')) as Hm' by (eapply moved_ext; [|exact Hm]; intros p; cbn; lia).
    split; [|done]. split; cbn; [done|apply Hinv..|]. rewrite Hf.
    eapply held_moved; [exact Hh|exact Hm'|apply (base_open s l Hinv)|..].
    + intros p. rewrite (held_list_cwd l (t_cwd s) None), Hold. cbn. lia.
    + intros p j Hj En. cbn. rewrite one_ne; [lia|]. intros ->.
      destruct (cwd_live s l Hinv old (or_introl Hold)) as (j' & Hj' & [? ?] & _). congruence.
    + intros p j [[=]|Hb] Hj. destruct (cwd_live s l Hinv p (or_intror Hb)) as (j0 & Hj0 & Hf0 & Hs0).
      by rewrite (moved_same _ _ _ _ _ _ Hm' Hj0 Hj).
  - apply swpp_bind, swpp_ret, swpp_ret. split; [done|]. cbn [vfs_w]. split; [|split; [done|by apply moved_refl, (base_positive s l)]].
    split; cbn; [apply Hinv..|]. exact Hh.
Qed.


(** ** The name of the current directory *)

Lemma vfs_getdevname_wp s l L s1 fs :
  vfs_inv s l → during s L s1 →
  swpp Pk (vfs_getdevname fs) s1 (λ r s2, s2 = s1 ∧ ((∃ kd, kd ∈ l ∧ kd_fs kd = Some fs) → is_Some r)).
Proof.
  intros Hinv Hd. destruct (knowndevs_num s l Hinv _ _ Hd) as [Hnum Hrep]. unfold vfs_getdevname.
  eapply (devs_locked_wp s l Hinv L); [done|].
  eapply swpp_mono; [apply (each_dev_wp (λ i s2, s2 = locked s1 ∧ ∀ kd, kd ∈ take i l → kd_fs kd ≠ Some fs)
    (λ _ s2, s2 = locked s1) _ _ (length l)); [done|split; [done|intros kd Hkd; by apply elem_of_nil in Hkd]|]|].
  - intros i s2 Hi [-> Hno]. destruct (lookup_lt_is_Some_2 l i Hi) as [kd Hkd]. exists l, kd. split_and!; [done|done|].
    case_bool_decide as Hf; apply swpp_ret; [done|]. split; [done|]. intros kd' Hkd'.
    rewrite (take_S_r _ _ kd Hkd), elem_of_app, list_elem_of_singleton in Hkd'. destruct Hkd' as [Hkd'| ->]; [by apply Hno|done].
  - intros [[]|name] s2.
    + intros [-> Hno]. exists s1, L. split_and!; [done|done|done|]. intros (kd & Hkd & Hf). exfalso. apply (Hno kd); [|done].
      by rewrite take_ge.
    + intros ->. exists s1, L. split_and!; [done|done|done|]. by eexists.
Qed.

Lemma vfs_getcwd_wp s l u :
  vfs_inv s l → room 8 (counts (vfs_w s)) → uio_rw_of u = UIO_READ → uio_ok u →
  swpp Pk (vfs_getcwd u) s (λ _ s', during s [] s').
Proof.
  intros Hinv Hroom Hrw Hu. unfold vfs_getcwd. apply swpp_bind, swpp_lift. rewrite Hrw. cbn [wp]. apply swpp_bind.
  eapply swpp_mono; [apply (vfs_getcurdir_wp s l Hinv Hroom [] s); [by apply (during_refl s l)|cbn; lia]|].
  intros [r q] s1 [Hst Hcwd]. unfold started in Hst. destruct (Z.eqb_spec r 0) as [->|Hr]; cbn [negb]; [|by apply swpp_ret].
  specialize (Hcwd eq_refl). destruct Hst as [Hd1 (i & Hi & Hok)]. pose proof (during_ok s _ _ Hd1) as Hok1.
  destruct (cwd_live s l Hinv q (or_introl Hcwd)) as (i0 & Hi0 & [fs Hfs] & _).
  pose proof (during_live s l Hinv _ _ _ _ Hd1 Hi0) as Hi1. rewrite Hi in Hi1. injection Hi1 as ->. cbn in Hok.
  destruct (law_range _ _ _ Hok1 Hi) as (_ & _ & _ & Hfl). destruct (Hfl fs Hfs) as [nm Hnm].
  apply swpp_bind. eapply (vnfs_wp s); [done|done|]. cbn [addref i_fs]. rewrite Hfs. apply swpp_bind, swpp_lift. cbn [wp].
  apply swpp_bind, on_w_wp. unfold swpp at 1. rewrite (law_volname _ _ _ Hok1 Hnm), with_w_id. apply swpp_bind.
  eapply (swpp_mono _ _ _ (λ name s2, s2 = s1 ∧ is_Some name)).
  { destruct nm as [nm|]; [apply swpp_ret; split; [done|by eexists]|].
    eapply swpp_mono; [by apply (vfs_getdevname_wp s l [q])|]. intros name s2 [-> Hsome]. split; [done|]. apply Hsome.
    destruct (Hok fs Hfs) as [[nm Hn]|?]; [|done]. rewrite (during_fses s _ _ Hd1) in Hnm. congruence. }
  intros name s2 (-> & [name' ->]). apply swpp_bind, swpp_lift. cbn [wp]. apply swpp_bind, swpp_lift.
  eapply wp_mono; [apply uiomove_out; [done|done|lia|lia|lia]|]. intros [[r buf'] u'] (_ & Hrw' & Hu').
  assert (∀ a : Z * uio, swpp Pk (decref q;; mret a) s1 (λ _ s', during s [] s')) as Hend.
  { intros a. apply swpp_bind. eapply swpp_mono; [by apply (decref_wp s l Hinv)|]. intros [] s4 [Hd4 _]. by apply swpp_ret. }
  apply swpp_bind. destruct (negb (r =? 0)); [apply swpp_ret; by apply Hend|].
  apply swpp_bind, swpp_lift. eapply wp_mono; [apply uiomove_out; [done|done|lia|lia|cbn; lia]|].
  intros [[r2 buf2] u2] (_ & Hrw2 & Hu2). destruct (negb (r2 =? 0)); [apply swpp_ret; by apply Hend|].
  eapply swpp_mono; [apply (vop_quiet_wp s l Hinv Hroom [q]); [done|by left| |cbn; lia]|].
  { intros. by apply law_namefile. }
  intros [r3 u3] s3 Hd3. cbn beta in Hd3. cbn beta iota. apply swpp_bind.
  eapply swpp_mono; [by apply (decref_wp s l Hinv)|]. intros [] s4 [Hd4 _]. by apply swpp_ret.
Qed.

(** ** The boot filesystem *)

Lemma held_list_boot l cwd boot boot' p :
  cnt (held_list l cwd boot') p = cnt (held_list l cwd boot) p + ones boot' p - ones boot p.
Proof. unfold held_list, ones. rewrite !cnt_app. lia. Qed.

(** The state after the boot filesystem has become [new]; the caller had a
    reference to it. *)
Definition new_boot s s' (new : option Z) : Prop :=
  s' = mkVfs (vfs_w s') (knowndevs s) (knowndevs_lock s) new (bootfs_lock s) (t_cwd s) ∧
  step (vfs_w s) (vfs_w s') ∧
  moved (counts (vfs_w s)) (λ p, ones new p - ones (bootfs_vnode s) p) (counts (vfs_w s')).

Lemma change_bootfs_wp s l s1 new :
  vfs_inv s l → during s (option_list new) s1 →
  (∀ p i, new = Some p → counts (vfs_w s1) !! p = Some i → is_Some (i_fs i) ∧ start_ok (fses (vfs_w s)) l i) →
  swpp Pk (change_bootfs new) s1 (λ _ s', vfs_inv s' l ∧ new_boot s s' new).
Proof.
  intros Hinv Hd Hnew. pose proof (vi_held _ _ Hinv) as Hh. unfold change_bootfs. apply swpp_bind.
  eapply (acquire_boot_wp s l Hinv); [done|]. apply swpp_bind, swpp_gets, swpp_bind, swpp_modify.
  unfold release_boot. apply swpp_bind, swpp_bind, swpp_gets, swpp_bind, swpp_lift. cbn [wp kassert bootfs_lock boot_locked].
  apply swpp_modify. cbn [boot_locked vfs_w knowndevs knowndevs_lock bootfs_vnode t_cwd].
  destruct (vi_locks _ _ Hinv) as [Hl1 Hl2]. pose proof Hd as (Es & Hst & Hm).
  assert (∀ w', step (vfs_w s1) w' → moved (counts (vfs_w s)) (λ p, ones new p - ones (bootfs_vnode s) p) (counts w') →
    (∀ p i j, counts (vfs_w s1) !! p = Some i → counts w' !! p = Some j → i_fs j = i_fs i) →
    let s' := mkVfs w' (knowndevs s1) (knowndevs_lock s1) new false (t_cwd s1) in vfs_inv s' l ∧ new_boot s s' new) as Hend.
  { intros w' Hst' Hm' Hk s'. split; [|split; [unfold s'; rewrite Es; cbn; by rewrite Hl2|split; [by eapply step_trans|done]]].
    unfold s'. rewrite Es. cbn. split; cbn; [apply Hst'|done|apply Hinv..|]. destruct Hst' as [_ Hf']. destruct Hst as [_ Hf]. rewrite Hf', Hf.
    eapply held_moved; [exact Hh|exact Hm'|apply (base_open s l Hinv)|..].
    - intros p. rewrite (held_list_boot l _ (bootfs_vnode s)). cbn. lia.
    - intros p j Hj En. unfold ones. pose proof (cnt_nonneg (option_list new) p).
      destruct (bootfs_vnode s) as [old|] eqn:Hold; cbn; [|lia]. rewrite one_ne; [lia|]. intros ->.
      destruct (cwd_live s l Hinv old (or_intror Hold)) as (j' & Hj' & [? ?] & _). congruence.
    - intros p j [Hc| ->] Hj.
      + destruct (cwd_live s l Hinv p (or_introl Hc)) as (j0 & Hj0 & Hf0 & Hs0). by rewrite (moved_same _ _ _ _ _ _ Hm' Hj0 Hj).
      + destruct (during_temp s l Hinv _ _ p Hd ltac:(by left)) as [i1 Hi1]. destruct (Hnew p i1 eq_refl Hi1) as [H1 H2].
        rewrite (Hk _ _ _ Hi1 Hj). split; [done|]. intros fs Hfs. apply H2. by rewrite <-(Hk _ _ _ Hi1 Hj). }
  assert (bootfs_vnode s1 = bootfs_vnode s) as -> by by rewrite Es. destruct (bootfs_vnode s) as [old|] eqn:Hold.
  - apply on_w_wp, swpp_swp. cbn [vfs_w].
    eapply swp_mono; [eapply (drop_held_wp s l _ (cnt (option_list new)) old Hinv); [apply Hst|done|apply cnt_nonneg|by right]|].
    intros [] w' (Hst' & Hm' & Hk). apply Hend; [done| |done]. eapply moved_ext; [|exact Hm']. intros p. cbn. unfold ones. lia.
  - apply swpp_ret. apply Hend; [by split; [apply Hst|]| |congruence]. eapply moved_ext; [|exact Hm]. intros p. unfold ones. cbn. lia.
Qed.

Lemma vfs_clearbootfs_wp s l :
  vfs_inv s l → swpp Pk vfs_clearbootfs s (λ _ s', vfs_inv s' l ∧ new_boot s s' None).
Proof. intros Hinv. apply (change_bootfs_wp s l s None Hinv); [by apply (during_refl s l)|done]. Qed.
End cwd.
