(* ===== verification/VfsTable.v ===== *)
(** * The device table and the boot filesystem

    Mounting, unmounting, adding devices and setting the boot filesystem: each
    keeps the invariant of the VFS layer, and the table changes as it should. *)

From S2P Require Import Prelude Array Copyinout Uio Vnode Device Vfs VfsLaws VfsPath VfsInv VfsOps.

(** The same devices, perhaps with other filesystems mounted. *)
Definition same_devs (l l' : list knowndev) : Prop := kd_set_fs None <$> l' = kd_set_fs None <$> l.

Lemma same_devs_insert l n kd o : l !! n = Some kd → same_devs l (<[n := kd_set_fs o kd]> l).
Proof.
  intros Hn. unfold same_devs. rewrite list_fmap_insert. apply list_insert_id. by rewrite list_lookup_fmap, Hn.
Qed.

Lemma same_devs_vnodes l l' : same_devs l l' → omap dev_vnode l' = omap dev_vnode l.
Proof.
  intros H. assert (∀ m : list knowndev, omap dev_vnode m = omap dev_vnode (kd_set_fs None <$> m)) as E.
  { intros m. induction m as [|kd m IH]; [done|]. cbn in *. rewrite IH. done. }
  by rewrite (E l'), H, <-E.
Qed.

Lemma same_devs_length l l' : same_devs l l' → length l' = length l.
Proof. intros H. apply (f_equal length) in H. by rewrite !length_fmap in H. Qed.

Lemma insert_elem {A} (l : list A) n x y z : l !! n = Some x → z ∈ l → z ≠ x → z ∈ <[n := y]> l.
Proof.
  intros Hn Hz Hne. apply list_elem_of_lookup in Hz as [j Hj]. apply list_elem_of_lookup. exists j.
  rewrite list_lookup_insert_ne; [done|]. intros ->. congruence.
Qed.

Lemma insert_elem_inv {A} (l : list A) n y z : z ∈ <[n := y]> l → z = y ∨ ∃ j, j ≠ n ∧ l !! j = Some z.
Proof.
  intros Hz. apply list_elem_of_lookup in Hz as [j Hj]. destruct (decide (j = n)) as [->|Hne].
  - left. destruct (decide (n < length l)%nat).
    + rewrite list_lookup_insert_eq in Hj by done. congruence.
    + rewrite list_insert_ge in Hj by lia. apply lookup_lt_Some in Hj. lia.
  - right. exists j. by rewrite list_lookup_insert_ne in Hj by done.
Qed.

(** Unmounting [fs], no vnode of which is in memory. *)
Lemma held_unmount f c l cwd boot n kd fs :
  held f c l cwd boot → l !! n = Some kd → kd_fs kd = Some fs → distinct_fs l → is_Some (kd_device kd) →
  (∀ p i, c !! p = Some i → i_fs i ≠ Some fs) →
  held (delete fs f) c (<[n := kd_set_fs None kd]> l) cwd boot.
Proof.
  intros [Hdev Hlive Hrefs Hstart] Hn Hfs Hdist Hd Hno.
  assert (held_list (<[n := kd_set_fs None kd]> l) cwd boot = held_list l cwd boot) as E.
  { unfold held_list. by rewrite (same_devs_vnodes l) by by apply same_devs_insert. }
  split; [|by rewrite E|by rewrite E|].
  - intros k [->|(j & Hj & Hk)]%insert_elem_inv.
    + destruct (Hdev kd) as (_ & _ & _ & H4); [by eapply list_elem_of_lookup_2|]. split_and!; [done|done|done|exact H4].
    + destruct (Hdev k) as (H1 & H2 & H3 & H4); [by eapply list_elem_of_lookup_2|]. split_and!; [done|done| |done].
      intros fs' Hfs'. rewrite lookup_delete_ne; [by apply H3|]. intros <-. apply Hj. by eapply Hdist.
  - intros p i Hp Hi. destruct (Hstart p i Hp Hi) as [H1 H2]. split; [done|]. intros fs' Hf. destruct (H2 fs' Hf) as [[nm Hnm]|(k & Hk & Ek)].
    + left. exists nm. rewrite lookup_delete_ne; [done|]. intros <-. by eapply Hno.
    + right. exists k. split; [|done]. eapply insert_elem; [done|done|]. intros ->. eapply (Hno p i); [done|congruence].
Qed.

(** Mounting a filesystem that was not there. *)
Lemma held_mount f c l cwd boot n kd fs nm :
  held f c l cwd boot → l !! n = Some kd → kd_fs kd = None → f !! fs = None →
  held (<[fs := nm]> f) c (<[n := kd_set_fs (Some fs) kd]> l) cwd boot.
Proof.
  intros [Hdev Hlive Hrefs Hstart] Hn Hfs Hnew.
  assert (held_list (<[n := kd_set_fs (Some fs) kd]> l) cwd boot = held_list l cwd boot) as E.
  { unfold held_list. by rewrite (same_devs_vnodes l) by by apply same_devs_insert. }
  split; [|by rewrite E|by rewrite E|].
  - intros k [->|(j & Hj & Hk)]%insert_elem_inv.
    + destruct (Hdev kd) as (H1 & H2 & _ & H4); [by eapply list_elem_of_lookup_2|]. split_and!; [by intros _; apply H1|exact H2| |exact H4].
      cbn. intros fs' [= <-]. rewrite lookup_insert_eq. by eexists.
    + destruct (Hdev k) as (H1 & H2 & H3 & H4); [by eapply list_elem_of_lookup_2|]. split_and!; [done|done| |done].
      intros fs' Hfs'. rewrite lookup_insert_is_Some. destruct (decide (fs = fs')); [by left|right]. split; [done|]. by apply H3.
  - intros p i Hp Hi. destruct (Hstart p i Hp Hi) as [H1 H2]. split; [done|]. intros fs' Hf. destruct (H2 fs' Hf) as [[nm' Hnm]|(k & Hk & Ek)].
    + left. exists nm'. rewrite lookup_insert_ne; [done|congruence].
    + right. exists k. split; [|done]. eapply insert_elem; [done|done|]. congruence.
Qed.

Lemma distinct_insert l n kd o :
  distinct_fs l → l !! n = Some kd → (∀ fs kd', o = Some fs → kd' ∈ l → kd_fs kd' ≠ Some fs) → distinct_fs (<[n := kd_set_fs o kd]> l).
Proof.
  intros Hdist Hn Ho. assert (n < length l)%nat by by eapply lookup_lt_Some.
  intros i j a b fs Hi Hj Ha Hb. destruct (decide (i = n)) as [->|Hin], (decide (j = n)) as [->|Hjn]; [done|..].
  - rewrite list_lookup_insert_eq in Hi by done. injection Hi as <-. rewrite list_lookup_insert_ne in Hj by done.
    exfalso. by apply (Ho fs b); [|eapply list_elem_of_lookup_2|].
  - rewrite list_lookup_insert_eq in Hj by done. injection Hj as <-. rewrite list_lookup_insert_ne in Hi by done.
    exfalso. by apply (Ho fs a); [|eapply list_elem_of_lookup_2|].
  - rewrite !list_lookup_insert_ne in Hi, Hj by done. by eapply Hdist.
Qed.

(** One vnode changes, in its counts only. *)
Lemma held_update f c l cwd boot p i i' :
  held f c l cwd boot → c !! p = Some i → i_fs i' = i_fs i →
  i_open i' + cnt (held_list l cwd boot) p ≤ i_ref i' → (i_fs i' = None → i_open i' < i_ref i') →
  held f (<[p := i']> c) l cwd boot.
Proof.
  intros [Hdev Hlive Hrefs Hstart] Hi Ef Hr Hn.
  assert (∀ q j, <[p := i']> c !! q = Some j → ∃ j0, c !! q = Some j0 ∧ i_fs j = i_fs j0) as Hold.
  { intros q j. destruct (decide (q = p)) as [->|]; [rewrite lookup_insert_eq; intros [= <-]; by exists i|].
    rewrite lookup_insert_ne by done. by exists j. }
  split.
  - intros kd Hkd. destruct (Hdev kd Hkd) as (H1 & H2 & H3 & H4). split_and!; [done..|].
    intros q j Hq Hj. destruct (Hold _ _ Hj) as (j0 & Hj0 & ->). by apply (H4 q).
  - intros q Hq. rewrite lookup_insert_is_Some. destruct (decide (p = q)); [by left|right]. split; [done|]. by apply Hlive.
  - intros q j. destruct (decide (q = p)) as [->|]; [rewrite lookup_insert_eq; by intros [= <-]|].
    rewrite lookup_insert_ne by done. apply Hrefs.
  - intros q j Hq Hj. destruct (Hold _ _ Hj) as (j0 & Hj0 & E). unfold start_ok. rewrite E. by apply (Hstart q).
Qed.

(** A vnode nothing refers to any more goes. *)
Lemma held_delete f c l cwd boot p :
  held f c l cwd boot → cnt (held_list l cwd boot) p = 0 → held f (delete p c) l cwd boot.
Proof.
  intros [Hdev Hlive Hrefs Hstart] H0.
  assert (∀ q j, delete p c !! q = Some j → c !! q = Some j) as Hold by (intros q j [_ ?]%lookup_delete_Some; done).
  split.
  - intros kd Hkd. destruct (Hdev kd Hkd) as (H1 & H2 & H3 & H4). split_and!; [done..|]. intros q j Hq Hj. by apply (H4 q), Hold.
  - intros q Hq. rewrite lookup_delete_ne; [by apply Hlive|]. intros <-. apply cnt_elem in Hq. lia.
  - intros q j Hj. by apply Hrefs, Hold.
  - intros q j Hq Hj. by apply (Hstart q), Hold.
Qed.

(** A new vnode of a device, which the table may or may not hold. *)
Lemma held_fresh f c l cwd boot p :
  held f c l cwd boot → c !! p = None → held f (<[p := mkInfo 1 0 None false]> c) l cwd boot.
Proof.
  intros [Hdev Hlive Hrefs Hstart] Hp. assert (∀ q, is_Some (c !! q) → q ≠ p) as Hne by (intros q [j Hj] ->; congruence).
  assert (cnt (held_list l cwd boot) p = 0) as H0.
  { pose proof (cnt_nonneg (held_list l cwd boot) p). destruct (decide (1 ≤ cnt (held_list l cwd boot) p)) as [H1|]; [|lia].
    apply cnt_pos, Hlive in H1. rewrite Hp in H1. by destruct H1. }
  split.
  - intros kd Hkd. destruct (Hdev kd Hkd) as (H1 & H2 & H3 & H4). split_and!; [done..|].
    intros q j Hq. destruct (decide (q = p)) as [->|]; [rewrite lookup_insert_eq; by intros [= <-]|].
    rewrite lookup_insert_ne by done. by apply H4.
  - intros q Hq. rewrite lookup_insert_ne by (apply not_eq_sym; by apply Hne, Hlive). by apply Hlive.
  - intros q j. destruct (decide (q = p)) as [->|]; [rewrite lookup_insert_eq; intros [= <-]; cbn; lia|].
    rewrite lookup_insert_ne by done. apply Hrefs.
  - intros q j Hq. assert (q ≠ p) as Hqp.
    { apply Hne, Hlive. unfold held_list. rewrite !elem_of_app. right. destruct Hq as [->| ->]; [left|right]; by left. }
    rewrite lookup_insert_ne by done. by apply Hstart.
Qed.

(** A device enters the table; the reference to its vnode is the table's. *)
Lemma held_add f c l cwd boot kd :
  held f c l cwd boot → (∀ v, dev_vnode kd = Some v → c !! v = Some (mkInfo 1 0 None false) ∧ cnt (held_list l cwd boot) v = 0) →
  dev_ok f c kd → held f c (l ++ [kd]) cwd boot.
Proof.
  intros [Hdev Hlive Hrefs Hstart] Hv Hkd.
  assert (∀ p, cnt (held_list (l ++ [kd]) cwd boot) p = cnt (held_list l cwd boot) p + cnt (option_list (dev_vnode kd)) p) as E.
  { intros p. unfold held_list. rewrite omap_app, !cnt_app. cbn. destruct (dev_vnode kd); cbn; lia. }
  assert (∀ p, dev_vnode kd ≠ Some p → cnt (option_list (dev_vnode kd)) p = 0) as Hne.
  { intros p Hp. destruct (dev_vnode kd); cbn; [|done]. rewrite one_ne; [done|congruence]. }
  split.
  - intros k [Hk|Hk]%elem_of_app; [by apply Hdev|]. apply list_elem_of_singleton in Hk as ->. done.
  - intros p Hp%cnt_elem. rewrite E in Hp. destruct (decide (dev_vnode kd = Some p)) as [Ep|Ep]; [by destruct (Hv p Ep) as [-> _]|].
    rewrite (Hne p Ep) in Hp. apply Hlive, cnt_pos. lia.
  - intros p i Hi. destruct (Hrefs p i Hi) as [H1 H2]. split; [|done]. rewrite E. destruct (decide (dev_vnode kd = Some p)) as [Ep|Ep].
    + destruct (Hv p Ep) as [Hp H0]. rewrite Hp in Hi. injection Hi as <-. rewrite Ep, H0. cbn. rewrite one_eq. lia.
    + rewrite (Hne p Ep). lia.
  - intros p i Hp Hi. destruct (Hstart p i Hp Hi) as [H1 H2]. split; [done|]. intros fs Hf. destruct (H2 fs Hf) as [Hn|(k & Hk & Ek)]; [by left|].
    right. exists k. split; [|done]. apply elem_of_app. by left.
Qed.

Section table.
Context {W Ops : Type} `{!VnodeWorld W Ops} {Pk : Prop} `{!VnodeLaws W Ops Pk} {cs : CurSpace}.
Implicit Types (s : vfs W) (l : list knowndev).

(** The functions that do not ask a filesystem for its root do not panic. *)
Context {Pq : Prop}.

Lemma acquire_devs_wp s1 (Q : unit → vfs W → Prop) :
  knowndevs_lock s1 = false → Q tt (locked s1) → swpp Pq acquire_devs s1 Q.
Proof. intros Hl HQ. unfold acquire_devs. apply swpp_bind, swpp_gets. rewrite Hl. by apply swpp_modify. Qed.

Lemma release_devs_wp s1 (Q : unit → vfs W → Prop) :
  knowndevs_lock s1 = false → Q tt s1 → swpp Pq release_devs (locked s1) Q.
Proof.
  intros Hl HQ. unfold release_devs. apply swpp_bind, swpp_gets, swpp_bind, swpp_lift. cbn [wp kassert locked knowndevs_lock].
  apply swpp_modify. cbn [locked vfs_w knowndevs bootfs_vnode bootfs_lock t_cwd].
  replace (mkVfs (vfs_w s1) (knowndevs s1) false (bootfs_vnode s1) (bootfs_lock s1) (t_cwd s1)) with s1; [done|].
  destruct s1; cbn in *; congruence.
Qed.

(** ** Opening and closing keep the invariant *)

Lemma opened_inv s l p s2 :
  vfs_inv s l → s2 = with_w s (vfs_w s2) → step (vfs_w s) (vfs_w s2) →
  opened (counts (vfs_w s)) p (counts (vfs_w s2)) → vfs_inv s2 l.
Proof.
  intros Hinv Es [Hok Hf] (c1 & i & Hm & Hi & Hc). pose proof (vi_held _ _ Hinv) as Hh. rewrite Es. split; cbn; [done|apply Hinv..|].
  rewrite Hf, Hc. assert (held (fses (vfs_w s)) c1 l (t_cwd s) (bootfs_vnode s)) as Hh1.
  { eapply held_moved; [done|done|apply (base_open s l Hinv)|..].
    - intros q. pose proof (cnt_nonneg [p] q). lia.
    - intros q j _ _. apply cnt_nonneg.
    - intros q j Hq Hj. destruct (cwd_live s l Hinv q Hq) as (j0 & Hj0 & Hs). by rewrite (moved_same _ _ _ _ _ _ Hm Hj0 Hj). }
  specialize (Hm p). cbn in Hm. rewrite one_eq in Hm. cbn in Hm.
  pose proof (cnt_nonneg (held_list l (t_cwd s) (bootfs_vnode s)) p) as Hnn.
  destruct (counts (vfs_w s) !! p) as [j|] eqn:Hj.
  - destruct (h_refs _ _ _ _ _ Hh p j Hj) as [H1 H2]. rewrite Z.add_0_r in Hm. destruct (i_ref j + 1 =? 0); [congruence|].
    rewrite Hm in Hi. injection Hi as <-. eapply held_update; [done|exact Hm|done|cbn; lia|cbn; intros E; specialize (H2 E); lia].
  - destruct Hm as (g & d & Hm). rewrite Hm in Hi. injection Hi as <-.
    eapply held_update; [done|exact Hm|done| |cbn; done]. cbn.
    destruct (decide (1 ≤ cnt (held_list l (t_cwd s) (bootfs_vnode s)) p)) as [Hc1|]; [|lia].
    apply cnt_pos, (h_live _ _ _ _ _ Hh) in Hc1. rewrite Hj in Hc1. by destruct Hc1.
Qed.

Lemma closed_inv s l p i s2 :
  vfs_inv s l → s2 = with_w s (vfs_w s2) → step (vfs_w s) (vfs_w s2) → counts (vfs_w s) !! p = Some i → 1 ≤ i_open i →
  counts (vfs_w s2) = closed (counts (vfs_w s)) p i → vfs_inv s2 l.
Proof.
  intros Hinv Es [Hok Hf] Hi Ho Hc. pose proof (vi_held _ _ Hinv) as Hh. rewrite Es. split; cbn; [done|apply Hinv..|].
  rewrite Hf, Hc. destruct (h_refs _ _ _ _ _ Hh p i Hi) as [H1 H2].
  pose proof (cnt_nonneg (held_list l (t_cwd s) (bootfs_vnode s)) p) as Hnn. unfold closed. destruct (Z.eqb_spec (i_ref i) 1).
  - apply held_delete; [done|lia].
  - eapply held_update; [done|done|done|cbn; lia|cbn; intros E; specialize (H2 E); lia].
Qed.

(** ** The boot filesystem *)

Lemma new_cwd_room s l s' q :
  vfs_inv s l → room 16 (counts (vfs_w s)) → new_cwd s s' q → room 8 (counts (vfs_w s')).
Proof.
  intros Hinv Hr (_ & _ & Hm) p i Hi. specialize (Hm p). pose proof (cnt_nonneg (option_list (t_cwd s)) p) as H1.
  assert (one q p ≤ 1) by (unfold one; destruct (p =? q); lia). unfold ones in Hm.
  destruct (counts (vfs_w s) !! p) as [j|] eqn:Hj.
  - destruct (Hr p j Hj). rewrite Hm in Hi. destruct (_ =? 0); [done|]. injection Hi as <-. cbn. lia.
  - destruct (Z.eqb_spec (one q p - cnt (option_list (t_cwd s)) p) 0); [congruence|]. destruct Hm as (f & d & Hm).
    rewrite Hm in Hi. injection Hi as <-. cbn. unfold INT_MAX. lia.
Qed.

Lemma vfs_setbootfs_wp s l fsname :
  vfs_inv s l → room 16 (counts (vfs_w s)) → cstr fsname →
  swpp Pk (vfs_setbootfs fsname) s (λ r s', vfs_inv s' l ∧
    if r =? 0 then ∃ q s1, new_cwd s s1 q ∧ vfs_inv s1 l ∧ new_boot s1 s' (Some q) else during s [] s').
Proof.
  intros Hinv Hroom Hp. unfold vfs_setbootfs.
  assert (cstr (take (Z.to_nat (NAME_MAX - 1)) fsname)) as Ht by by apply Forall_take.
  destruct (match strchr _ COLON with Some s => _ | None => false end).
  { apply swpp_ret. split; [done|]. by apply (during_refl s l). }
  apply swpp_bind. eapply swpp_mono; [apply (vfs_chdir_wp s l); [done|by eapply room_weaken|]|].
  { destruct (strchr _ _); [done|]. apply Forall_app. split; [done|]. repeat constructor; unfold COLON; lia. }
  intros r s1 [Hinv1 H1]. destruct (Z.eqb_spec r 0) as [->|Hr]; cbn [negb].
  2: { apply swpp_ret. rewrite (proj2 (Z.eqb_neq _ _) Hr). done. }
  destruct H1 as [q Hq]. pose proof (new_cwd_room s l s1 q Hinv Hroom Hq) as Hroom1. apply swpp_bind.
  assert (t_cwd s1 = Some q) as E1 by by destruct Hq as (-> & _).
  destruct (cwd_live s1 l Hinv1 q (or_introl E1)) as (i & Hi & Hfs & Hok).
  unfold vfs_getcurdir. apply swpp_bind, swpp_gets. rewrite E1. apply swpp_bind.
  eapply swpp_mono; [apply (incref_wp s1 l Hinv1 Hroom1 [] s1 q i); [by apply (during_refl s1 l)|cbn; lia|done]|].
  intros [] s2 [Hd2 (j & Hj & Ej)]. apply swpp_ret. cbn [Z.eqb negb]. apply swpp_bind.
  eapply swpp_mono; [apply (change_bootfs_wp s1 l s2 (Some q) Hinv1); [done|]|].
  { intros p k [= <-] Hk. rewrite Hj in Hk. injection Hk as <-. unfold start_ok. rewrite Ej. done. }
  intros [] s3 [Hinv3 Hb]. apply swpp_ret. split; [done|]. cbn. by exists q, s1.
Qed.

(** ** Mounting and unmounting *)

(** The table after filesystems have been mounted or unmounted. *)
Definition retabled s l s' l' : Prop :=
  vfs_inv s' l' ∧ counts (vfs_w s') = counts (vfs_w s) ∧
  t_cwd s' = t_cwd s ∧ bootfs_vnode s' = bootfs_vnode s ∧ same_devs l l'.

Lemma retabled_refl s l : vfs_inv s l → retabled s l s l.
Proof. done. Qed.

Lemma retabled_trans s l s1 l1 s2 l2 : retabled s l s1 l1 → retabled s1 l1 s2 l2 → retabled s l s2 l2.
Proof.
  intros (_ & E1 & E2 & E3 & E4) (H & F1 & F2 & F3 & F4). split; [done|].
  split_and!; [congruence..|]. unfold same_devs in *. congruence.
Qed.

Lemma retabled_with s l w' :
  vfs_inv s l → step (vfs_w s) w' → counts w' = counts (vfs_w s) → retabled s l (with_w s w') l.
Proof.
  intros Hinv [Hok Hf] Hc. split; [|done]. split; cbn; [done|apply Hinv..|]. rewrite Hf, Hc. apply Hinv.
Qed.

(** Nothing has changed that a client of the VFS layer sees. *)
Definition unchanged s l s' : Prop := retabled s l s' l ∧ fses (vfs_w s') = fses (vfs_w s).

Lemma unchanged_refl s l : vfs_inv s l → unchanged s l s.
Proof. done. Qed.

Lemma unchanged_trans s l s1 s2 : unchanged s l s1 → unchanged s1 l s2 → unchanged s l s2.
Proof. intros [H1 E1] [H2 E2]. split; [by eapply retabled_trans|congruence]. Qed.

Lemma fs_sync_wp s l fs :
  vfs_inv s l → is_Some (fses (vfs_w s) !! fs) →
  swpp Pq (fsop fs fs_sync) (locked s) (λ r s2, ∃ s3, s2 = locked s3 ∧ unchanged s l s3 ∧ (r = 0 → synced fs (vfs_w s3)) ∧
    FSOP fs fs_sync (vfs_w s) = Done (r, vfs_w s3)).
Proof.
  intros Hinv Hfs. apply on_w_locked, on_w_wp, swpp_swp. eapply swp_mono; [apply swp_eq, law_sync; [apply Hinv|done]|].
  intros r w' [E (Hst & Hc & Hsync)]. eexists. split; [done|]. split; [|done]. split; [by apply retabled_with|apply Hst].
Qed.

Lemma vfs_sync_wp s l : vfs_inv s l → swpp Pq vfs_sync s (λ r s', r = 0 ∧ unchanged s l s').
Proof.
  intros Hinv. unfold vfs_sync. apply swpp_bind. apply acquire_devs_wp; [apply Hinv|]. apply swpp_bind.
  eapply swpp_mono; [apply (each_dev_wp (λ _ s2, ∃ s3, s2 = locked s3 ∧ unchanged s l s3) (λ _ _, False) _ _ (length l))|].
  - apply (array_repr_num _ _ (vi_devs _ _ Hinv)).
  - by exists s.
  - intros i s2 Hi (s3 & -> & H3). destruct (lookup_lt_is_Some_2 l i Hi) as [kd Hkd]. pose proof H3 as ((Hinv3 & _) & _).
    exists l, kd. split_and!; [apply Hinv3|done|]. destruct (kd_fs kd) as [fs|] eqn:Hfs; [|apply swpp_ret; by exists s3].
    apply swpp_bind. destruct (h_dev _ _ _ _ _ (vi_held _ _ Hinv3) kd) as (_ & _ & Hl & _); [by eapply list_elem_of_lookup_2|].
    eapply swpp_mono; [apply (fs_sync_wp s3 l); [done|by apply Hl]|].
    intros r s4 (s5 & -> & H5 & _). apply swpp_ret. exists s5. split; [done|]. by eapply unchanged_trans.
  - intros [[]|[]] s2; [|done]. intros (s3 & -> & H3). apply swpp_bind, release_devs_wp; [apply H3|]. by apply swpp_ret.
Qed.

Lemma findmount_wp s l devname :
  vfs_inv s l →
  swpp Pq (findmount devname) (locked s) (λ '(r, (i, kd)) s2, s2 = locked s ∧
    if r =? 0 then ∃ n, i = Z.of_nat n ∧ l !! n = Some kd ∧ kd_name kd = devname ∧ is_Some (kd_rawname kd)
    else r = ENODEV ∧ ∀ kd, kd ∈ l → kd_name kd = devname → kd_rawname kd = None).
Proof.
  intros Hinv. unfold findmount. apply swpp_bind, swpp_gets, swpp_bind, swpp_lift. cbn [wp kassert locked knowndevs_lock].
  apply swpp_bind. eapply swpp_mono; [apply (each_dev_wp (λ j s2, s2 = locked s ∧ ∀ kd, kd ∈ take j l → kd_name kd = devname → kd_rawname kd = None)
    (λ '(i, kd) s2, s2 = locked s ∧ ∃ n, i = Z.of_nat n ∧ l !! n = Some kd ∧ kd_name kd = devname ∧ is_Some (kd_rawname kd)) _ _ (length l))|].
  - apply (array_repr_num _ _ (vi_devs _ _ Hinv)).
  - split; [done|]. intros kd Hkd. by apply elem_of_nil in Hkd.
  - intros i s2 Hi [-> Hno]. destruct (lookup_lt_is_Some_2 l i Hi) as [kd Hkd]. exists l, kd. split_and!; [apply Hinv|done|].
    assert (kd_name kd ≠ devname ∨ kd_rawname kd = None →
      ∀ kd', kd' ∈ take (S i) l → kd_name kd' = devname → kd_rawname kd' = None) as Hstep.
    { intros Hc kd'. rewrite (take_S_r _ _ kd Hkd), elem_of_app, list_elem_of_singleton. intros [Hk| ->] Hn; [by apply Hno|]. by destruct Hc. }
    apply swpp_ret. destruct (kd_rawname kd) as [raw|] eqn:Hraw; [|by auto]. case_bool_decide as Hn; [|by auto].
    split; [done|]. exists i. by eauto.
  - intros [[]|[i kd]] s2; [intros [-> Hno]; apply swpp_ret; by rewrite take_ge in Hno|]. intros [-> H]. by apply swpp_ret.
Qed.

(** The table after the filesystem of an entry has changed. *)
Definition with_devs s (devs : array knowndev) : vfs W :=
  mkVfs (vfs_w s) devs (knowndevs_lock s) (bootfs_vnode s) (bootfs_lock s) (t_cwd s).

Lemma put_dev_wp s l n kd (Q : unit → vfs W → Prop) :
  array_repr (knowndevs s) l → (n < length l)%nat →
  (∀ devs', array_repr devs' (<[n := kd]> l) →
    Q tt (locked (with_devs s devs'))) →
  swpp Pq (put_dev (Z.of_nat n) kd) (locked s) Q.
Proof.
  intros Hr Hn HQ. unfold put_dev. apply swpp_bind, swpp_gets, swpp_bind, swpp_lift.
  eapply wp_mono; [by apply (array_setguy_wp _ l)|]. intros devs' [_ Hr']. by apply swpp_modify, HQ.
Qed.

(** Unmounting the filesystem of an entry: all that is left is to clear the entry. *)
Lemma fs_unmount_wp s l n kd fs :
  vfs_inv s l → l !! n = Some kd → kd_fs kd = Some fs → is_Some (kd_device kd) → synced fs (vfs_w s) →
  swpp Pq (fsop fs fs_unmount) (locked s) (λ r s2, ∃ s3, s2 = locked s3 ∧ array_repr (knowndevs s3) l ∧
    FSOP fs fs_unmount (vfs_w s) = Done (r, vfs_w s3) ∧
    if r =? 0 then fses (vfs_w s3) = delete fs (fses (vfs_w s)) ∧
      ∀ devs', array_repr devs' (<[n := kd_set_fs None kd]> l) → retabled s l (with_devs s3 devs') (<[n := kd_set_fs None kd]> l)
    else unchanged s l s3 ∧ ∃ p i, counts (vfs_w s) !! p = Some i ∧ i_fs i = Some fs).
Proof.
  intros Hinv Hn Hfs Hd Hsync. pose proof (vi_held _ _ Hinv) as Hh. apply on_w_locked, on_w_wp, swpp_swp.
  destruct (h_dev _ _ _ _ _ Hh kd) as (_ & _ & Hl & _); [by eapply list_elem_of_lookup_2|].
  eapply swp_mono; [apply swp_eq, law_unmount; [apply Hinv|by apply Hl|done]|]. intros r w' [Eq (Hok & Hc & Hf & Hbusy)].
  eexists. split; [done|]. split; [apply Hinv|]. split; [done|]. destruct (Z.eqb_spec r 0) as [->|Hr].
  - split; [done|]. intros devs' Hr'. split; [|split_and!; [done..|by apply same_devs_insert]].
    split; cbn; [done|apply Hinv|done|apply distinct_insert; [apply Hinv|done|done]|]. rewrite Hf, Hc.
    eapply held_unmount; [done|done|done|apply Hinv|done|]. intros p i Hi Ei. rewrite <-Hc in Hi.
    destruct (law_range _ _ _ Hok Hi) as (_ & _ & _ & Hlive). destruct (Hlive _ Ei) as [nm Hnm].
    rewrite Hf, lookup_delete_eq in Hnm. done.
  - split; [split; [by apply retabled_with|done]|]. by destruct Hbusy.
Qed.

(** Why [vfs_unmount] fails: no such mountable device, nothing mounted, the sync
    fails, or a file of the filesystem is in use. *)
Definition unmount_error s l devname r : Prop :=
  (r = ENODEV ∧ ∀ kd, kd ∈ l → kd_name kd = devname → kd_rawname kd = None) ∨
  ∃ kd, kd ∈ l ∧ kd_name kd = devname ∧ is_Some (kd_rawname kd) ∧
    match kd_fs kd with
    | None => r = EINVAL
    | Some fs => (∃ w', FSOP fs fs_sync (vfs_w s) = Done (r, w')) ∨ ∃ p i, counts (vfs_w s) !! p = Some i ∧ i_fs i = Some fs
    end.

(** After [vfs_unmount]: the filesystem is gone from the table, or nothing changed. *)
Definition unmounted s l devname r s' : Prop :=
  if r =? 0 then ∃ n kd fs, l !! n = Some kd ∧ kd_name kd = devname ∧ kd_fs kd = Some fs ∧
    retabled s l s' (<[n := kd_set_fs None kd]> l) ∧ fses (vfs_w s') = delete fs (fses (vfs_w s)) ∧
    ∃ w1, FSOP fs fs_sync (vfs_w s) = Done (0, w1) ∧ FSOP fs fs_unmount w1 = Done (0, vfs_w s')
  else unchanged s l s' ∧ unmount_error s l devname r.

Lemma vfs_unmount_wp s l devname : vfs_inv s l → swpp Pq (vfs_unmount devname) s (λ r s', unmounted s l devname r s').
Proof.
  intros Hinv. unfold vfs_unmount. apply swpp_bind. apply acquire_devs_wp; [apply Hinv|]. apply swpp_bind.
  eapply swpp_mono; [by apply findmount_wp|]. intros [r [i kd]] s2 [-> Hfound]. apply swpp_bind.
  eapply (swpp_mono _ _ _ (λ r s2, ∃ s3, s2 = locked s3 ∧ unmounted s l devname r s3)).
  2: { intros r' s2 (s3 & -> & H3). apply swpp_bind, release_devs_wp; [|by apply swpp_ret].
       unfold unmounted in H3. destruct (r' =? 0); [destruct H3 as (n & k & fs & _ & _ & _ & H3 & _)|destruct H3 as [H3 _]]; apply H3. }
  destruct (Z.eqb_spec r 0) as [->|Hr]; cbn [negb].
  2: { apply swpp_ret. exists s. split; [done|]. unfold unmounted. rewrite (proj2 (Z.eqb_neq _ _) Hr). split; [by apply unchanged_refl|by left]. }
  destruct Hfound as (n & -> & Hn & Hname & Hraw).
  destruct (h_dev _ _ _ _ _ (vi_held _ _ Hinv) kd) as (_ & Hd & Hl & _); [by eapply list_elem_of_lookup_2|].
  specialize (Hd Hraw). destruct (kd_fs kd) as [fs|] eqn:Hfs.
  2: { apply swpp_ret. exists s. split; [done|]. split; [by apply unchanged_refl|]. right. exists kd. rewrite Hfs. split_and!; [|done..]. by eapply list_elem_of_lookup_2. }
  assert (kd ∈ l) as Hin by by eapply list_elem_of_lookup_2.
  apply swpp_bind, swpp_lift. rewrite bool_decide_eq_true_2 by (intros E; rewrite E in Hraw; by destruct Hraw). cbn [wp kassert].
  apply swpp_bind, swpp_lift. rewrite bool_decide_eq_true_2 by (intros E; rewrite E in Hd; by destruct Hd). cbn [wp kassert].
  apply swpp_bind. eapply swpp_mono; [apply (fs_sync_wp s l); [done|by apply Hl]|].
  intros r s2 (s3 & -> & [H3 Hf3] & Hsync & Eq). destruct (Z.eqb_spec r 0) as [->|Hr]; cbn [negb].
  2: { apply swpp_ret. exists s3. split; [done|]. unfold unmounted. rewrite (proj2 (Z.eqb_neq _ _) Hr). split; [done|]. right. exists kd. rewrite Hfs. by eauto 6. }
  apply swpp_bind. eapply swpp_mono; [apply (fs_unmount_wp s3 l n kd fs (proj1 H3)); auto|]. intros r s2 (s4 & -> & Hr4 & Eq4 & H4).
  destruct (Z.eqb_spec r 0) as [->|Hr]; cbn [negb].
  - destruct H4 as [Hf4 H4]. apply swpp_bind. eapply (put_dev_wp _ l); [done|by eapply lookup_lt_Some|]. intros devs' Hd'.
    apply swpp_ret. eexists. split; [done|]. unfold unmounted. cbn [Z.eqb]. exists n, kd, fs. split_and!; [done..| | |].
    + eapply retabled_trans; [done|by apply H4].
    + cbn. by rewrite Hf4, Hf3.
    + by exists (vfs_w s3).
  - destruct H4 as [H4 Hbusy]. apply swpp_ret. exists s4. split; [done|]. unfold unmounted. rewrite (proj2 (Z.eqb_neq _ _) Hr).
    split; [by eapply unchanged_trans|]. right. exists kd. rewrite Hfs. split_and!; [done..|]. right. by rewrite (proj1 (proj2 H3)) in Hbusy.
Qed.

Lemma unmount_step_wp s l n kd :
  vfs_inv s l → l !! n = Some kd →
  swpp Pq (unmount_step (Z.of_nat n) kd) (locked s) (λ _ s2, ∃ s3 l3, s2 = locked s3 ∧ retabled s l s3 l3).
Proof.
  intros Hinv Hn. destruct (h_dev _ _ _ _ _ (vi_held _ _ Hinv) kd) as (_ & Hd & Hl & _); [by eapply list_elem_of_lookup_2|].
  unfold unmount_step. destruct (kd_rawname kd) as [raw|]; [|apply swpp_ret; by exists s, l]. specialize (Hd ltac:(by eexists)).
  destruct (kd_fs kd) as [fs|] eqn:Hfs; [|apply swpp_ret; by exists s, l]. specialize (Hl fs eq_refl).
  apply swpp_bind. eapply swpp_mono; [by apply (fs_sync_wp s l)|].
  intros r s2 (s3 & -> & H3 & Hsync & _). apply swpp_bind.
  eapply (swpp_mono _ _ _ (λ r s2, ∃ s3, s2 = locked s3 ∧ retabled s l s3 l ∧ (r = 0 → synced fs (vfs_w s3)))).
  { destruct (negb (r =? 0)); [|apply swpp_ret; exists s3; by split; [|split; [apply H3|]]].
    eapply swpp_mono; [apply (fs_sync_wp s3 l); [apply H3|by rewrite (proj2 H3)]|].
    intros r2 s2 (s4 & -> & H4 & Hs4 & _). exists s4. split; [done|]. split; [|done]. eapply retabled_trans; [apply H3|apply H4]. }
  intros r2 s2 (s4 & -> & H4 & Hs4). destruct (Z.eqb_spec r2 0) as [->|]; cbn [negb]; [|apply swpp_ret; by exists s4, l].
  apply swpp_bind. eapply swpp_mono; [apply (fs_unmount_wp s4 l n kd fs (proj1 H4)); auto|]. intros r3 s2 (s5 & -> & Hr5 & _ & H5).
  destruct (r3 =? 0); cbn [negb].
  - destruct H5 as [_ H5]. eapply (put_dev_wp _ l); [done|by eapply lookup_lt_Some|]. intros devs' Hd'.
    eexists _, _. split; [done|]. eapply retabled_trans; [done|by apply H5].
  - apply swpp_ret. exists s5, l. split; [done|]. eapply retabled_trans; [done|apply (proj1 H5)].
Qed.

Lemma vfs_unmountall_wp s l :
  vfs_inv s l → swpp Pq vfs_unmountall s (λ r s', r = 0 ∧ ∃ l', retabled s l s' l').
Proof.
  intros Hinv. unfold vfs_unmountall. apply swpp_bind. apply acquire_devs_wp; [apply Hinv|]. apply swpp_bind.
  eapply swpp_mono; [apply (each_dev_wp (λ _ s2, ∃ s3 l3, s2 = locked s3 ∧ retabled s l s3 l3) (λ _ _, False) _ _ (length l))|].
  - apply (array_repr_num _ _ (vi_devs _ _ Hinv)).
  - by exists s, l.
  - intros i s2 Hi (s3 & l3 & -> & H3). pose proof H3 as (Hinv3 & _ & _ & _ & Hsame).
    destruct (lookup_lt_is_Some_2 l3 i) as [kd Hkd]; [by rewrite (same_devs_length _ _ Hsame)|].
    exists l3, kd. split_and!; [apply Hinv3|done|]. apply swpp_bind.
    eapply swpp_mono; [by apply (unmount_step_wp s3 l3)|]. intros [] s4 (s5 & l5 & -> & H5). apply swpp_ret.
    exists s5, l5. split; [done|]. by eapply retabled_trans.
  - intros [[]|[]] s2; [|done]. intros (s3 & l3 & -> & H3). apply swpp_bind, release_devs_wp; [apply H3|]. apply swpp_ret. eauto.
Qed.

(** A mount routine hands back a new filesystem, or fails and changes nothing. *)
Definition mount_done (w : W) (r : Z) (fs : option Z) (w' : W) : Prop :=
  vw_ok w' ∧ counts w' = counts w ∧
  if r =? 0 then ∃ f nm, fs = Some f ∧ fses w !! f = None ∧ fses w' = <[f := nm]> (fses w)
  else fses w' = fses w.

(** [mountfunc] does so on the device [devname], if nothing is mounted there. *)
Definition mounts s l devname (mountfunc : Z → stm W (Z * option Z)) : Prop := ∀ kd dev,
  kd ∈ l → kd_name kd = devname → kd_fs kd = None → kd_device kd = Some dev →
  swp (mountfunc dev) (vfs_w s) (λ '(r, fs) w', mount_done (vfs_w s) r fs w').

(** Why [vfs_mount] fails: no such mountable device, one in use, or [mountfunc] fails. *)
Definition mount_error s l devname (mountfunc : Z → stm W (Z * option Z)) r s' : Prop :=
  (r = ENODEV ∧ ∀ kd, kd ∈ l → kd_name kd = devname → kd_rawname kd = None) ∨
  ∃ kd, kd ∈ l ∧ kd_name kd = devname ∧
    ((r = EBUSY ∧ is_Some (kd_fs kd)) ∨ ∃ dev o, kd_device kd = Some dev ∧ mountfunc dev (vfs_w s) = Done ((r, o), vfs_w s')).

(** After [vfs_mount]: the device has a filesystem, or nothing changed. *)
Definition mounted s l devname (mountfunc : Z → stm W (Z * option Z)) r s' : Prop :=
  if r =? 0 then ∃ n kd fs, l !! n = Some kd ∧ kd_name kd = devname ∧ kd_fs kd = None ∧
    retabled s l s' (<[n := kd_set_fs (Some fs) kd]> l) ∧ is_Some (fses (vfs_w s') !! fs) ∧
    ∃ dev, kd_device kd = Some dev ∧ mountfunc dev (vfs_w s) = Done ((0, Some fs), vfs_w s')
  else unchanged s l s' ∧ mount_error s l devname mountfunc r s'.

(** The device has a filesystem now. *)
Lemma mounted_retabled s l n kd fs nm w' devs' :
  vfs_inv s l → l !! n = Some kd → kd_fs kd = None → vw_ok w' → counts w' = counts (vfs_w s) →
  fses (vfs_w s) !! fs = None → fses w' = <[fs := nm]> (fses (vfs_w s)) →
  array_repr devs' (<[n := kd_set_fs (Some fs) kd]> l) →
  retabled s l (with_devs (with_w s w') devs') (<[n := kd_set_fs (Some fs) kd]> l).
Proof.
  intros Hinv Hn Hfs Hok Hc Hnew Hf Hr. pose proof (vi_held _ _ Hinv) as Hh.
  split; [|split_and!; [done..|by apply same_devs_insert]]. split; cbn; [done|apply Hinv|done|..].
  - apply distinct_insert; [apply Hinv|done|]. intros f kd' [= <-] Hkd' Ef.
    destruct (h_dev _ _ _ _ _ Hh kd' Hkd') as (_ & _ & Hl & _). destruct (Hl _ Ef). congruence.
  - rewrite Hf, Hc. by eapply held_mount.
Qed.

Lemma vfs_mount_wp s l devname mountfunc :
  vfs_inv s l → mounts s l devname mountfunc → swpp Pq (vfs_mount devname mountfunc) s (λ r s', mounted s l devname mountfunc r s').
Proof.
  intros Hinv Hmf. unfold vfs_mount. apply swpp_bind. apply acquire_devs_wp; [apply Hinv|]. apply swpp_bind.
  eapply swpp_mono; [by apply findmount_wp|]. intros [r [i kd]] s2 [-> Hfound]. apply swpp_bind.
  eapply (swpp_mono _ _ _ (λ r s2, ∃ s3, s2 = locked s3 ∧ mounted s l devname mountfunc r s3)).
  2: { intros r' s2 (s3 & -> & H3). apply swpp_bind, release_devs_wp; [|by apply swpp_ret].
       unfold mounted in H3. destruct (r' =? 0); [destruct H3 as (n & k & fs & _ & _ & _ & H3 & _)|destruct H3 as [H3 _]]; apply H3. }
  destruct (Z.eqb_spec r 0) as [->|Hr]; cbn [negb].
  2: { apply swpp_ret. exists s. split; [done|]. unfold mounted. rewrite (proj2 (Z.eqb_neq _ _) Hr). split; [done|by left]. }
  destruct Hfound as (n & -> & Hn & Hname & Hraw).
  destruct (h_dev _ _ _ _ _ (vi_held _ _ Hinv) kd) as (_ & Hd & _); [by eapply list_elem_of_lookup_2|].
  destruct (Hd Hraw) as [dev Hdev]. assert (kd ∈ l) as Hin by by eapply list_elem_of_lookup_2. case_bool_decide as Hb.
  { apply swpp_ret. exists s. split; [done|]. split; [done|]. right. exists kd. split_and!; [done..|]. left. split; [done|]. by destruct (kd_fs kd). }
  assert (kd_fs kd = None) as Hfs by by destruct (kd_fs kd).
  apply swpp_bind, swpp_lift. rewrite bool_decide_eq_true_2 by (intros E; rewrite E in Hraw; by destruct Hraw). cbn [wp kassert].
  rewrite Hdev. apply swpp_bind, swpp_lift. cbn [wp]. apply swpp_bind, on_w_locked, on_w_wp, swpp_swp.
  eapply swp_mono; [apply swp_eq, (Hmf kd dev); done|]. intros [r fs] w' [Eq (Hok & Hc & Hf)].
  destruct (Z.eqb_spec r 0) as [->|Hr]; cbn [negb].
  - destruct Hf as (f & nm & -> & Hnew & Hf). apply swpp_bind, swpp_lift. cbn [wp]. apply swpp_bind.
    eapply (put_dev_wp _ l); [apply Hinv|by eapply lookup_lt_Some|]. intros devs' Hr'.
    assert (fses w' !! f = Some nm) as Hnm by by rewrite Hf, lookup_insert_eq.
    apply swpp_bind, on_w_locked, on_w_wp. unfold swpp at 1. cbn [with_devs with_w vfs_w].
    rewrite (law_volname _ _ _ Hok Hnm). apply swpp_ret. eexists. split; [done|]. unfold mounted. cbn [Z.eqb].
    exists n, kd, f. split_and!; [done..| |cbn; by rewrite Hnm|by exists dev]. by apply (mounted_retabled _ _ _ _ _ nm).
  - apply swpp_ret. eexists. split; [done|]. unfold mounted. rewrite (proj2 (Z.eqb_neq _ _) Hr). split; [split; [by apply retabled_with|done]|].
    right. exists kd. split_and!; [done..|]. right. by exists dev, fs.
Qed.
End table.
