(* ===== verification/VfsAdd.v ===== *)
(** * Adding devices to the table *)

From Stdlib Require Import Strings.String.
From S2P Require Import Prelude Array Copyinout Uio Vnode Device Vfs VfsLaws VfsPath VfsInv VfsOps VfsTable.

(** The names of a device. *)
Definition kd_names (kd : knowndev) : list (list Z) := kd_name kd :: option_list (kd_rawname kd).

(** No name belongs to two devices. *)
Definition names_distinct (l : list knowndev) : Prop := ∀ i j a b n,
  l !! i = Some a → l !! j = Some b → n ∈ kd_names a → n ∈ kd_names b → i = j.

Lemma elem_option_list {A} (x : A) o : x ∈ option_list o ↔ o = Some x.
Proof. destruct o as [y|]; cbn; rewrite ?list_elem_of_singleton; [split; congruence|]. split; [by intros ?%elem_of_nil|done]. Qed.

Lemma names_distinct_same l l' : same_devs l l' → names_distinct l → names_distinct l'.
Proof.
  intros Hs Hd i j a b n Hi Hj. assert (∀ k x, l' !! k = Some x → ∃ y, l !! k = Some y ∧ kd_names y = kd_names x) as Hold.
  { intros k x Hk. pose proof (f_equal (.!! k) Hs) as E. rewrite !list_lookup_fmap, Hk in E. destruct (l !! k) as [y|]; [|done].
    exists y. split; [done|]. injection E as E1 E2 _ _. unfold kd_names. by rewrite E1, E2. }
  destruct (Hold _ _ Hi) as (a' & Ha & <-), (Hold _ _ Hj) as (b' & Hb & <-). by eapply Hd.
Qed.

Lemma names_distinct_app l kd :
  names_distinct l → (∀ k n, k ∈ l → n ∈ kd_names k → n ∉ kd_names kd) → names_distinct (l ++ [kd]).
Proof.
  intros Hd Hn i j a b n Hi Hj Ha Hb. rewrite lookup_app in Hi, Hj.
  destruct (l !! i) as [x|] eqn:Ei, (l !! j) as [y|] eqn:Ej.
  - injection Hi as <-. injection Hj as <-. by eapply Hd.
  - injection Hi as <-. apply list_lookup_singleton_Some in Hj as [_ <-]. exfalso. eapply Hn; [by eapply list_elem_of_lookup_2|done|done].
  - injection Hj as <-. apply list_lookup_singleton_Some in Hi as [_ <-]. exfalso. eapply Hn; [by eapply list_elem_of_lookup_2|done|done].
  - apply list_lookup_singleton_Some in Hi as [Hi _]. apply list_lookup_singleton_Some in Hj as [Hj _].
    apply lookup_ge_None in Ei, Ej. lia.
Qed.

Lemma distinct_app l kd :
  distinct_fs l → (∀ fs k, kd_fs kd = Some fs → k ∈ l → kd_fs k ≠ Some fs) → distinct_fs (l ++ [kd]).
Proof.
  intros Hd Hn i j a b fs Hi Hj Ha Hb. rewrite lookup_app in Hi, Hj.
  destruct (l !! i) as [x|] eqn:Ei, (l !! j) as [y|] eqn:Ej.
  - injection Hi as <-. injection Hj as <-. by eapply Hd.
  - injection Hi as <-. apply list_lookup_singleton_Some in Hj as [_ <-]. exfalso. by eapply Hn; [|eapply list_elem_of_lookup_2|].
  - injection Hj as <-. apply list_lookup_singleton_Some in Hi as [_ <-]. exfalso. by eapply Hn; [|eapply list_elem_of_lookup_2|].
  - apply list_lookup_singleton_Some in Hi as [Hi _]. apply list_lookup_singleton_Some in Hj as [Hj _].
    apply lookup_ge_None in Ei, Ej. lia.
Qed.

Lemma samestring3_false o n1 n2 n3 n :
  samestring3 o n1 n2 n3 = false → o = Some n → n1 ≠ Some n ∧ n2 ≠ Some n ∧ n3 ≠ Some n.
Proof.
  unfold samestring3, samestring. intros H ->. apply orb_false_iff in H as [H H3]. apply orb_false_iff in H as [H1 H2].
  split_and!; intros ->; by rewrite bool_decide_eq_true_2 in *.
Qed.

Section add.
Context {W Ops : Type} `{!VnodeWorld W Ops} {Pk : Prop} `{!VnodeLaws W Ops Pk} {cs : CurSpace}.
Implicit Types (s : vfs W) (l : list knowndev).

(** What [badnames] has found when it finds nothing. *)
Definition unused (f : gmap Z (option (list Z))) l (n : list Z) : Prop := ∀ kd, kd ∈ l →
  (n ∉ kd_names kd) ∧ ∀ fs, kd_fs kd = Some fs → f !! fs ≠ Some (Some n).

Lemma badnames_wp s l n1 n2 n3 :
  vfs_inv s l →
  swpp Pk (badnames n1 n2 n3) (locked s) (λ b s2, s2 = locked s ∧
    (b = false → ∀ n, n ∈ option_list n1 ++ option_list n2 ++ option_list n3 → unused (fses (vfs_w s)) l n)).
Proof.
  intros Hinv. unfold badnames. apply swpp_bind, swpp_gets, swpp_bind, swpp_lift. cbn [wp kassert locked knowndevs_lock].
  apply swpp_bind. eapply swpp_mono; [apply (each_dev_wp (λ i s2, s2 = locked s ∧
    ∀ n, n ∈ option_list n1 ++ option_list n2 ++ option_list n3 → unused (fses (vfs_w s)) (take i l) n) (λ _ s2, s2 = locked s) _ _ (length l))|].
  - apply (array_repr_num _ _ (vi_devs _ _ Hinv)).
  - split; [done|]. intros n _ kd Hkd. by apply elem_of_nil in Hkd.
  - intros i s2 Hi [-> Hun]. destruct (lookup_lt_is_Some_2 l i Hi) as [kd Hkd]. exists l, kd. split_and!; [apply Hinv|done|].
    destruct (h_dev _ _ _ _ _ (vi_held _ _ Hinv) kd) as (_ & _ & Hl & _); [by eapply list_elem_of_lookup_2|]. apply swpp_bind.
    eapply (swpp_mono _ _ _ (λ b s2, s2 = locked s ∧ (b = false → ∀ fs nm, kd_fs kd = Some fs → fses (vfs_w s) !! fs = Some (Some nm) →
      n1 ≠ Some nm ∧ n2 ≠ Some nm ∧ n3 ≠ Some nm))).
    { destruct (kd_fs kd) as [fs|]; [|by apply swpp_ret]. destruct (Hl fs eq_refl) as [nm Hnm]. apply swpp_bind, on_w_locked, on_w_wp.
      unfold swpp at 1. rewrite (law_volname _ _ _ (vi_ok _ _ Hinv) Hnm), with_w_id. apply swpp_ret. split; [done|].
      intros Hb fs' nm' [= <-] Hnm'. eapply samestring3_false; [done|congruence]. }
    intros volbad s2 [-> Hvol]. apply swpp_ret. destruct (volbad || _) eqn:E; [done|].
    apply orb_false_iff in E as [Ev E]. apply orb_false_iff in E as [Er En]. split; [done|].
    intros n Hn k Hk. rewrite (take_S_r _ _ kd Hkd), elem_of_app, list_elem_of_singleton in Hk. destruct Hk as [Hk| ->]; [by apply Hun|].
    assert (¬ (n1 ≠ Some n ∧ n2 ≠ Some n ∧ n3 ≠ Some n)) as Hin.
    { intros (H1 & H2 & H3). rewrite !elem_of_app, !elem_option_list in Hn. tauto. }
    split; [|intros fs Hfs Hv; by apply Hin, (Hvol Ev fs)]. intros [Hk|Hk]%elem_of_cons; apply Hin.
    + eapply samestring3_false; [done|congruence].
    + apply (samestring3_false _ _ _ _ _ Er). by apply elem_option_list.
  - intros [[]|[]] s2.
    + intros [-> Hun]. apply swpp_ret. split; [done|]. intros _. by rewrite take_ge in Hun.
    + intros ->. by apply swpp_ret.
Qed.

(** Only the allocator has been called. *)
Definition idle s s' : Prop :=
  s' = with_w s (vfs_w s') ∧ step (vfs_w s) (vfs_w s') ∧ counts (vfs_w s') = counts (vfs_w s) ∧
  ∀ p, hollow p (vfs_w s) → hollow p (vfs_w s').

Lemma idle_trans s s1 s2 : idle s s1 → idle s1 s2 → idle s s2.
Proof.
  intros (E1 & H1 & C1 & L1) (E2 & H2 & C2 & L2). rewrite E1 in E2. split; [done|]. split; [by eapply step_trans|].
  split; [congruence|auto].
Qed.

Lemma idle_retabled s l s1 : vfs_inv s l → idle s s1 → retabled s l s1 l.
Proof. intros Hinv (-> & Hst & Hc & _). by apply retabled_with. Qed.

Lemma vw_kmalloc_wp s l : vfs_inv s l → swpp True (on_w vw_kmalloc) s (λ _ s', idle s s').
Proof. intros Hinv. apply on_w_wp, swpp_swp. eapply swp_mono; [by apply law_kmalloc, Hinv|]. intros m w' (Hst & Hc & Hh). done. Qed.

(** The counts with the vnode [v] of a new device; no device, no vnode that counts. *)
Definition grown (c : gmap Z vinfo) (dev : option Z) (v : Z) (c' : gmap Z vinfo) : Prop :=
  match dev with Some _ => c !! v = None ∧ c' = <[v := mkInfo 1 0 None false]> c | None => c' = c end.

Definition fresh s (dev : option Z) (v : Z) s' : Prop :=
  s' = with_w s (vfs_w s') ∧ step (vfs_w s) (vfs_w s') ∧ grown (counts (vfs_w s)) dev v (counts (vfs_w s')) ∧
  (dev = None → hollow v (vfs_w s')).

Lemma fresh_inv s l dev v s' : vfs_inv s l → fresh s dev v s' → vfs_inv s' l.
Proof.
  intros Hinv (Es & [Hok Hf] & Hg & _). rewrite Es. split; cbn; [done|apply Hinv..|]. rewrite Hf. unfold grown in Hg.
  destruct dev; [|rewrite Hg; apply Hinv]. destruct Hg as [Hv ->]. apply held_fresh; [apply Hinv|done].
Qed.

Lemma fresh_held s l d v s' : vfs_inv s l → fresh s (Some d) v s' → cnt (held_list l (t_cwd s) (bootfs_vnode s)) v = 0.
Proof.
  intros Hinv (_ & _ & [Hv _] & _). pose proof (cnt_nonneg (held_list l (t_cwd s) (bootfs_vnode s)) v).
  destruct (decide (1 ≤ cnt (held_list l (t_cwd s) (bootfs_vnode s)) v)) as [H1|]; [|lia].
  apply cnt_pos, (h_live _ _ _ _ _ (vi_held _ _ Hinv)) in H1. rewrite Hv in H1. by destruct H1.
Qed.

Lemma fresh_trans s s1 dev v s2 : idle s s1 → fresh s1 dev v s2 → fresh s dev v s2.
Proof.
  intros (Es & Hst & Hc & _) (Es2 & Hst2 & Hg & Hh). rewrite Es in Es2. split; [done|]. split; [by eapply step_trans|]. by rewrite <-Hc.
Qed.

Lemma fresh_idle s dev v s1 s2 : fresh s dev v s1 → idle s1 s2 → fresh s dev v s2.
Proof.
  intros (Es & Hst & Hg & Hh) (Es2 & Hst2 & Hc2 & Hl). rewrite Es in Es2. split; [done|]. split; [by eapply step_trans|]. rewrite Hc2. auto.
Qed.

Lemma dev_create_vnode_wp s l dev :
  vfs_inv s l → swpp True (on_w (dev_create_vnode dev)) s (λ v s', if v =? 0 then idle s s' else fresh s dev v s').
Proof.
  intros Hinv. apply on_w_wp. unfold dev_create_vnode. apply swpp_bind, swpp_swp.
  eapply swp_mono; [by apply law_kmalloc, Hinv|]. intros m w1 (Hst1 & Hc1 & Hh1). destruct m; cbn [negb]; [|by apply swpp_ret].
  apply swpp_bind, swpp_swp. eapply swp_mono; [by apply law_kmalloc, Hst1|]. intros [] w2 (Hst2 & Hc2 & Hh2); cbn [vnode_init negb]; [|done].
  cbn [Z.eqb]. apply swpp_swp. eapply swp_mono; [apply law_newdev, Hst2|]. intros v w3 (Hv & Hst3 & Hnew).
  rewrite (proj2 (Z.eqb_neq _ _) Hv). split; [done|]. split; [eapply step_trans; [|done]; by eapply step_trans|].
  cbn [with_w vfs_w]. rewrite Hc2, Hc1 in Hnew. destruct dev; [done|]. by destruct Hnew.
Qed.

(** Giving the new vnode back. *)
Lemma freedev_wp s l dev v s1 :
  vfs_inv s l → fresh s dev v s1 → swpp True (on_w (vw_freedev v)) s1 (λ _ s2,
    s2 = with_w s (vfs_w s2) ∧ step (vfs_w s) (vfs_w s2) ∧ counts (vfs_w s2) = counts (vfs_w s)).
Proof.
  intros Hinv (Es & Hst & Hg & Hh). apply on_w_wp, swpp_swp. rewrite Es. cbn [with_w vfs_w]. destruct dev as [d|]; cbn in Hg.
  - destruct Hg as [Hnew Hc]. eapply swp_mono; [apply law_freedev; [apply Hst|by rewrite Hc, lookup_insert_eq]|].
    intros [] w' [Hst' Hc']. split; [done|]. split; [by eapply step_trans|]. cbn. rewrite Hc', Hc. by rewrite delete_insert_id.
  - eapply swp_mono; [apply law_freehollow; [apply Hst|by apply Hh]|].
    intros [] w' [Hst' Hc']. split; [done|]. split; [by eapply step_trans|]. cbn. by rewrite Hc', Hg.
Qed.

(** What [vfs_doadd] is called with: a device, or a filesystem that is not in the table. *)
Definition add_ok s l (mountable : bool) (dev fs : option Z) : Prop :=
  Z.of_nat (length l) < 536870911 ∧ (fs = None → is_Some dev) ∧ (mountable = true → is_Some dev) ∧
  ∀ f, fs = Some f → is_Some (fses (vfs_w s) !! f) ∧ ∀ kd, kd ∈ l → kd_fs kd ≠ Some f.

(** After [vfs_doadd]: a new entry at the end of the table; or no new entry,
    and the device's vnode left over when its name was taken or the table could
    not grow. *)
Definition added s l dname (mountable : bool) (dev fs : option Z) r s' : Prop :=
  fses (vfs_w s') = fses (vfs_w s) ∧ t_cwd s' = t_cwd s ∧ bootfs_vnode s' = bootfs_vnode s ∧
  if r =? 0 then ∃ v,
    let kd := mkKnown dname (if mountable then Some (dname ++ str "raw") else None) dev v fs in
    vfs_inv s' (l ++ [kd]) ∧ grown (counts (vfs_w s)) dev v (counts (vfs_w s')) ∧
    (∀ n, n ∈ kd_names kd → unused (fses (vfs_w s)) l n)
  else vfs_inv s' l ∧ (counts (vfs_w s') = counts (vfs_w s) ∨ ∃ v, grown (counts (vfs_w s)) dev v (counts (vfs_w s'))).

Lemma idle_added s l dname mountable dev fs s' :
  vfs_inv s l → s' = with_w s (vfs_w s') → step (vfs_w s) (vfs_w s') → counts (vfs_w s') = counts (vfs_w s) →
  added s l dname mountable dev fs ENOMEM s'.
Proof.
  intros Hinv Es Hst Hc. assert (vfs_inv s' l) as Hinv' by (rewrite Es; by apply retabled_with). destruct Hst as [_ Hf].
  split_and!; [done|by rewrite Es|by rewrite Es|]. cbn. auto.
Qed.

(** The new entry. *)
Lemma doadd_entered s l dname mountable dev fs v s2 devs' :
  vfs_inv s l → add_ok s l mountable dev fs → fresh s dev v s2 →
  let kd := mkKnown dname (if mountable then Some (dname ++ str "raw") else None) dev v fs in
  array_repr devs' (l ++ [kd]) → (∀ n, n ∈ kd_names kd → unused (fses (vfs_w s)) l n) →
  added s l dname mountable dev fs 0 (with_devs s2 devs').
Proof.
  intros Hinv (_ & Hdev & Hmt & Hfs) Hv kd Hr Hun. pose proof (fresh_inv s l dev v s2 Hinv Hv) as Hinv2.
  pose proof Hv as (Es2 & [_ Hf2] & Hg & _).
  split_and!; [done|by rewrite Es2|by rewrite Es2|]. cbn [Z.eqb]. exists v. fold kd. split; [|done].
  assert (∀ p, dev_vnode kd = Some p → p = v ∧ is_Some dev) as Hkd.
  { intros p. unfold dev_vnode. cbn. destruct dev; [|done]. intros [= <-]. by eauto. }
  split; cbn; [apply Hinv2..|done| |].
  - apply distinct_app; [apply Hinv|]. intros f k Hf Hk. cbn in Hf. by apply (Hfs f).
  - assert (∀ p, dev_vnode kd = Some p → counts (vfs_w s2) !! p = Some (mkInfo 1 0 None false)) as Hnew.
    { intros p Hp. destruct (Hkd p Hp) as [-> [d ->]]. destruct Hg as [_ ->]. by rewrite lookup_insert_eq. }
    apply held_add; [apply Hinv2| |split_and!; [done|..]].
    + intros p Hp. split; [by apply Hnew|]. destruct (Hkd p Hp) as [-> [d Ed]]. rewrite Ed in Hv. rewrite Es2. by apply (fresh_held s l d v s2).
    + cbn. destruct mountable; [by auto|]. by intros [? ?].
    + cbn. intros f Hf. rewrite Hf2. by apply (Hfs f).
    + intros p i Hp. rewrite (Hnew p Hp). by intros [= <-].
Qed.

(** The vnode is there; the table is searched and extended. *)
Lemma doadd_insert_wp s l dname mountable dev fs v s1 volname :
  vfs_inv s l → add_ok s l mountable dev fs → fresh s dev v s1 →
  let rawname := if mountable then Some (dname ++ str "raw") else None in
  swpp True (acquire_devs;;
    bad ← badnames (Some dname) rawname volname;
    err ← (if bad : bool then mret EEXIST else
      devs ← gets knowndevs;
      m ← on_w vw_kmalloc;
      '(err, devs') ← lift (array_add m devs (mkKnown dname rawname dev v fs));
      set_knowndevs devs';;
      mret err);
    release_devs;;
    mret err) s1 (added s l dname mountable dev fs).
Proof.
  intros Hinv Hadd Hv rawname. pose proof (fresh_inv s l dev v s1 Hinv Hv) as Hinv1. pose proof Hv as (Es1 & [Hok1 Hf1] & _).
  apply swpp_bind. apply acquire_devs_wp; [apply Hinv1|].
  apply swpp_bind, (swpp_panics Pk); [done|]. eapply swpp_mono; [by apply (badnames_wp s1 l)|]. intros bad s2 [-> Hun].
  assert (∀ err s2, added s l dname mountable dev fs err s2 → knowndevs_lock s2 = false →
    swpp True (release_devs;; mret err) (locked s2) (added s l dname mountable dev fs)) as Hend.
  { intros err s2 Ha Hl. apply swpp_bind. apply release_devs_wp; [done|]. by apply swpp_ret. }
  assert (∀ err s2, err ≠ 0 → fresh s dev v s2 → added s l dname mountable dev fs err s2) as Hleak.
  { intros err s2 Herr Hv2. pose proof (fresh_inv s l dev v s2 Hinv Hv2) as Hinv2. pose proof Hv2 as (Es2 & [_ Hf2] & Hg2 & _).
    split_and!; [done|by rewrite Es2|by rewrite Es2|]. rewrite (proj2 (Z.eqb_neq _ _) Herr). eauto. }
  destruct bad; [apply swpp_bind, swpp_ret, Hend; [by apply Hleak|apply Hinv1]|]. specialize (Hun eq_refl). rewrite Hf1 in Hun.
  apply swpp_bind, swpp_bind, swpp_gets, swpp_bind, on_w_locked.
  eapply swpp_mono; [by apply (vw_kmalloc_wp s1 l)|]. intros m s2 Hi2. pose proof (fresh_idle _ _ _ _ _ Hv Hi2) as Hv2.
  apply swpp_bind, swpp_lift. eapply wp_mono; [apply (array_add_wp _ _ l); [apply Hinv1|apply Hadd]|]. intros [err devs'] Harr.
  change (knowndevs (locked s1)) with (knowndevs s1) in Harr. cbn beta iota in Harr.
  apply swpp_bind, swpp_modify, swpp_ret. fold (with_devs (locked s2) devs'). change (with_devs (locked s2) devs') with (locked (with_devs s2 devs')).
  pose proof Hi2 as (Es2 & _). assert (knowndevs_lock s2 = false) as Hl2 by (rewrite Es2; apply Hinv1). apply Hend; [|done].
  destruct (bool_decide (a_num (knowndevs s1) < a_max (knowndevs s1)) || m).
  - destruct Harr as (-> & _ & Hr). apply (doadd_entered s l dname mountable dev fs v s2 devs'); [done..|].
    intros n Hn. apply Hun. rewrite app_assoc. apply elem_of_app. by left.
  - destruct Harr as [-> ->]. apply Hleak; [done|]. change (knowndevs (locked s1)) with (knowndevs s1).
    replace (with_devs s2 (knowndevs s1)) with s2; [done|]. by rewrite Es2.
Qed.

Lemma vfs_doadd_wp s l dname mountable dev fs :
  vfs_inv s l → add_ok s l mountable dev fs →
  swpp True (vfs_doadd dname mountable dev fs) s (added s l dname mountable dev fs).
Proof.
  intros Hinv Hadd. unfold vfs_doadd. apply swpp_bind. eapply swpp_mono; [by apply (vw_kmalloc_wp s l)|]. intros m s1 Hi1. cbn beta in Hi1.
  destruct m; cbn [negb]; [|apply swpp_ret; by destruct Hi1 as (? & ? & ? & _); apply idle_added].
  assert (vfs_inv s1 l) as Hinv1 by by apply (idle_retabled s l s1). apply swpp_bind.
  eapply (swpp_mono _ _ _ (λ raw s2, idle s s2 ∧ (raw = if mountable then Some (dname ++ str "raw") else None) ∨
    idle s s2 ∧ mountable = true ∧ raw = None)).
  { destruct mountable; [|apply swpp_ret; by left]. unfold mkrawname. apply swpp_bind.
    eapply swpp_mono; [by apply (vw_kmalloc_wp s1 l)|]. intros [] s2 Hi2; apply swpp_ret; [left|right]; (split; [by eapply idle_trans|done]). }
  intros raw s2 [[Hi2 Hraw]|(Hi2 & -> & ->)]; [|apply swpp_ret; by destruct Hi2 as (? & ? & ? & _); apply idle_added].
  assert (mountable && bool_decide (raw = None) = false) as -> by (subst raw; by destruct mountable). subst raw.
  assert (vfs_inv s2 l) as Hinv2 by by apply (idle_retabled s l s2). apply swpp_bind.
  eapply swpp_mono; [by apply (dev_create_vnode_wp s2 l)|]. intros v s3 Hv. cbn beta in Hv.
  destruct (v =? 0). { apply swpp_ret. destruct (idle_trans _ _ _ Hi2 Hv) as (? & ? & ? & _). by apply idle_added. }
  pose proof (fresh_trans _ _ _ _ _ Hi2 Hv) as Hv3. pose proof (fresh_inv s l dev v s3 Hinv Hv3) as Hinv3. apply swpp_bind.
  eapply swpp_mono; [by apply (vw_kmalloc_wp s3 l)|]. intros m s4 Hi4. cbn beta in Hi4. pose proof (fresh_idle _ _ _ _ _ Hv3 Hi4) as Hv4.
  pose proof Hv4 as (Es4 & Hst4 & _). destruct m; cbn [negb].
  - apply swpp_bind. eapply (swpp_mono _ _ _ (λ _ s5, s5 = s4)).
    { destruct fs as [f|]; [|by apply swpp_ret]. destruct Hadd as (_ & _ & _ & Hf). destruct (Hf f eq_refl) as [[nm Hnm] _].
      apply on_w_wp. unfold swpp. destruct Hst4 as [Hok4 Hf4]. rewrite <-Hf4 in Hnm. rewrite (law_volname _ _ _ Hok4 Hnm). by rewrite with_w_id. }
    intros vol s5 ->. by apply doadd_insert_wp.
  - apply swpp_bind. eapply swpp_mono; [by apply (freedev_wp s l dev v s4)|]. intros [] s5 (E5 & Hst5 & Hc5). apply swpp_ret. by apply idle_added.
Qed.
End add.
