(* ===== verification/VfsRun.v ===== *)
(** * Runs of the VFS layer

    The kernel calls the functions of vfs.h one after the other, closes the files
    it has opened and gives back the vnodes it was handed.  The references to a
    vnode are then exactly those of the open files, the vnodes handed out, the
    table of devices, the current directory and the boot filesystem, and of the
    devices [vfs_doadd] failed to enter. *)

From S2P Require Import Prelude Array Copyinout Uio Vnode Device Vfs VfsLaws VfsPath VfsInv VfsOps VfsTable VfsAdd.

(** What the callers have: the open files, and the vnodes they were handed with
    a reference they must give back. *)
Record client := mkClient { files_of : list Z; refs_of : list Z }.

Definition add_file (p : Z) (F : client) : client := mkClient (p :: files_of F) (refs_of F).
Definition add_ref (p : Z) (F : client) : client := mkClient (files_of F) (p :: refs_of F).

Definition no_client : client := mkClient [] [].

Fixpoint drop_one (p : Z) (L : list Z) : list Z :=
  match L with [] => [] | q :: L' => if p =? q then L' else q :: drop_one p L' end.

Definition drop_file (p : Z) (F : client) : client := mkClient (drop_one p (files_of F)) (refs_of F).
Definition drop_ref (p : Z) (F : client) : client := mkClient (files_of F) (drop_one p (refs_of F)).

Section run.
Context {W Ops : Type} `{!VnodeWorld W Ops} {Pk : Prop} `{!VnodeLaws W Ops Pk} {cs : CurSpace}.
Implicit Types (s : vfs W) (l : list knowndev) (F : client) (K : list Z).

(** A call of vfs.h, or the macros of vnode.h that take a reference and give it
    back. *)
Inductive call :=
  | COpen (path : list Z) (openflags : Z)
  | CClose (vn : Z)
  | CRemove (path : list Z)
  | CRename (oldpath newpath : list Z)
  | CLink (oldpath newpath : list Z)
  | CSymlink (contents path : list Z)
  | CReadlink (path : list Z) (u : uio)
  | CMkdir (path : list Z)
  | CRmdir (path : list Z)
  | CChdir (path : list Z)
  | CClearcurdir
  | CGetcwd (u : uio)
  | CSetbootfs (fsname : list Z)
  | CClearbootfs
  | CSync
  | CMount (devname : list Z) (mountfunc : Z → stm W (Z * option Z))
  | CUnmount (devname : list Z)
  | CUnmountall
  | CAdddev (devname : list Z) (dev : option Z) (mountable : bool)
  | CAddfs (devname : list Z) (fs : Z)
  | CLookup (path : list Z)
  | CLookparent (path : list Z) (buflen : Z)
  | CGetroot (devname : list Z)
  | CGetdevname (fs : Z)
  | CGetcurdir
  | CSetcurdir (dir : Z)
  | CIncref (vn : Z)
  | CDecref (vn : Z).

(** A vnode that is handed out. *)
Definition handed F (m : stm (vfs W) (Z * Z)) : stm (vfs W) (Z * client) :=
  '(r, vn) ← m; mret (r, if r =? 0 then add_ref vn F else F).

(** The result of a call, and what the callers have after it. *)
Definition do_call (c : call) F : stm (vfs W) (Z * client) :=
  match c with
  | COpen path openflags => '(r, vn) ← vfs_open path openflags; mret (r, if r =? 0 then add_file vn F else F)
  | CClose vn => vfs_close vn;; mret (0, drop_file vn F)
  | CRemove path => r ← vfs_remove path; mret (r, F)
  | CRename oldpath newpath => r ← vfs_rename oldpath newpath; mret (r, F)
  | CLink oldpath newpath => r ← vfs_link oldpath newpath; mret (r, F)
  | CSymlink contents path => r ← vfs_symlink contents path; mret (r, F)
  | CReadlink path u => '(r, _) ← vfs_readlink path u; mret (r, F)
  | CMkdir path => r ← vfs_mkdir path; mret (r, F)
  | CRmdir path => r ← vfs_rmdir path; mret (r, F)
  | CChdir path => r ← vfs_chdir path; mret (r, F)
  | CClearcurdir => r ← vfs_clearcurdir; mret (r, F)
  | CGetcwd u => '(r, _) ← vfs_getcwd u; mret (r, F)
  | CSetbootfs fsname => r ← vfs_setbootfs fsname; mret (r, F)
  | CClearbootfs => vfs_clearbootfs;; mret (0, F)
  | CSync => r ← vfs_sync; mret (r, F)
  | CMount devname mountfunc => r ← vfs_mount devname mountfunc; mret (r, F)
  | CUnmount devname => r ← vfs_unmount devname; mret (r, F)
  | CUnmountall => r ← vfs_unmountall; mret (r, F)
  | CAdddev devname dev mountable => r ← vfs_adddev devname dev mountable; mret (r, F)
  | CAddfs devname fs => r ← vfs_addfs devname fs; mret (r, F)
  | CLookup path => handed F (vfs_lookup path)
  | CLookparent path buflen => handed F ('(r, dir, _) ← vfs_lookparent path buflen; mret (r, dir))
  | CGetroot devname => handed F (vfs_getroot devname)
  | CGetdevname fs => vfs_getdevname fs;; mret (0, F)
  | CGetcurdir => handed F vfs_getcurdir
  | CSetcurdir dir => r ← vfs_setcurdir dir; mret (r, F)
  | CIncref vn => incref vn;; mret (0, add_ref vn F)
  | CDecref vn => decref vn;; mret (0, drop_ref vn F)
  end.

Definition adds (c : call) : bool := match c with CAdddev _ _ _ | CAddfs _ _ => true | _ => false end.

(** ** Where the references are *)

Definition balanced s l F K : Prop := ∀ p,
  let held := cnt (held_list l (t_cwd s) (bootfs_vnode s)) p in
  match counts (vfs_w s) !! p with
  | Some i => i_open i = cnt (files_of F) p ∧ i_ref i = cnt (files_of F) p + cnt (refs_of F) p + held + cnt K p ∧
      (1 ≤ cnt K p → i_fs i = None) ∧ (i_fs i = None → 1 ≤ cnt (omap dev_vnode l) p + cnt K p)
  | None => cnt (files_of F) p = 0 ∧ cnt (refs_of F) p = 0 ∧ held = 0 ∧ cnt K p = 0
  end.

Record vfs_ok s l F K : Prop := {
  vo_inv : vfs_inv s l;
  vo_balanced : balanced s l F K;
  vo_names : names_distinct l;
}.

Lemma cnts_nonneg F K s l p :
  0 ≤ cnt (files_of F) p ∧ 0 ≤ cnt (refs_of F) p ∧ 0 ≤ cnt K p ∧ 0 ≤ cnt (held_list l (t_cwd s) (bootfs_vnode s)) p.
Proof. split_and!; apply cnt_nonneg. Qed.

(** References change hands. *)
Lemma balanced_moves s l F K δ s' F' :
  balanced s l F K → moved (counts (vfs_w s)) δ (counts (vfs_w s')) → files_of F' = files_of F →
  (∀ p, cnt (refs_of F') p + cnt (held_list l (t_cwd s') (bootfs_vnode s')) p =
    cnt (refs_of F) p + cnt (held_list l (t_cwd s) (bootfs_vnode s)) p + δ p) →
  balanced s' l F' K.
Proof.
  intros Hb Hm HF Hh p. specialize (Hb p). specialize (Hm p). specialize (Hh p). cbv zeta in *. rewrite HF.
  pose proof (cnts_nonneg F K s l p). pose proof (cnts_nonneg F' K s' l p).
  destruct (counts (vfs_w s) !! p) as [i|].
  - destruct Hb as (Ho & Hr & Hk & Hd). rewrite Hm. destruct (Z.eqb_spec (i_ref i + δ p) 0); cbn; split_and!; try done; rewrite ?HF in *; lia.
  - destruct (Z.eqb_spec (δ p) 0); [rewrite Hm; lia|]. destruct Hm as (f & d & ->). cbn. split_and!; done || lia.
Qed.

Lemma balanced_moved s l F K δ s' :
  balanced s l F K → moved (counts (vfs_w s)) δ (counts (vfs_w s')) →
  (∀ p, cnt (held_list l (t_cwd s') (bootfs_vnode s')) p = cnt (held_list l (t_cwd s) (bootfs_vnode s)) p + δ p) →
  balanced s' l F K.
Proof. intros Hb Hm Hh. eapply balanced_moves; [done..|]. intros p. rewrite Hh. lia. Qed.

Lemma balanced_same s l F K s' l' :
  balanced s l F K → retabled s l s' l' → balanced s' l' F K.
Proof.
  intros Hb (_ & Hc & Hcwd & Hboot & Hs) p. unfold held_list. rewrite Hc, Hcwd, Hboot, (same_devs_vnodes _ _ Hs). apply Hb.
Qed.

Lemma balanced_opened s l F K p s' :
  balanced s l F K → s' = with_w s (vfs_w s') → opened (counts (vfs_w s)) p (counts (vfs_w s')) → balanced s' l (add_file p F) K.
Proof.
  intros Hb Es (c1 & i & Hm & Hi & Hc) q. rewrite Hc, Es. cbn [with_w t_cwd bootfs_vnode add_file files_of refs_of cnt]. specialize (Hb q). specialize (Hm q).
  cbv zeta in *. cbn [cnt] in *. pose proof (cnts_nonneg F K s l q). destruct (decide (q = p)) as [->|Hne].
  - rewrite one_eq in *. rewrite lookup_insert_eq. destruct (counts (vfs_w s) !! p) as [j|].
    + destruct (Z.eqb_spec (i_ref j + (1 + 0)) 0); [congruence|]. rewrite Hi in Hm. injection Hm as ->. cbn. destruct Hb as (? & ? & ? & ?). split_and!; try done; lia.
    + destruct Hm as (f & d & Hm). rewrite Hi in Hm. injection Hm as ->. cbn. split_and!; done || lia.
  - rewrite one_ne in * by done. rewrite lookup_insert_ne by done. destruct (counts (vfs_w s) !! q) as [j|].
    + destruct Hb as (? & ? & ? & ?). rewrite Hm. destruct (Z.eqb_spec (i_ref j + (0 + 0)) 0); cbn; split_and!; try done; lia.
    + cbn in Hm. rewrite Hm. lia.
Qed.

Lemma cnt_drop_one p L q : p ∈ L → cnt (drop_one p L) q = cnt L q - one p q.
Proof.
  induction L as [|x L IH]; intros Hp; [by apply elem_of_nil in Hp|]. cbn. destruct (Z.eqb_spec p x) as [->|Hne]; [lia|].
  apply elem_of_cons in Hp as [?|Hp]; [done|]. cbn. rewrite IH by done. lia.
Qed.

Lemma balanced_closed s l F K p i s' :
  balanced s l F K → s' = with_w s (vfs_w s') → p ∈ files_of F → counts (vfs_w s) !! p = Some i →
  counts (vfs_w s') = closed (counts (vfs_w s)) p i → balanced s' l (drop_file p F) K.
Proof.
  intros Hb Es Hp Hi Hc q. rewrite Hc, Es. cbn [with_w t_cwd bootfs_vnode drop_file files_of refs_of]. rewrite cnt_drop_one by done.
  specialize (Hb q). unfold closed. cbv zeta in *. pose proof (cnt_elem _ p Hp). pose proof (cnts_nonneg F K s l q).
  destruct (decide (q = p)) as [->|Hne].
  - rewrite one_eq. rewrite Hi in Hb. destruct (Z.eqb_spec (i_ref i) 1); [rewrite lookup_delete_eq|rewrite lookup_insert_eq];
      destruct Hb as (? & ? & ? & ?); cbn; split_and!; try done; lia.
  - rewrite one_ne, Z.sub_0_r by done. destruct (i_ref i =? 1); [rewrite lookup_delete_ne by done|rewrite lookup_insert_ne by done]; exact Hb.
Qed.

(** A new device vnode, for the table or lost. *)
Lemma balanced_grown s l F K dev v s' :
  balanced s l F K → grown (counts (vfs_w s)) dev v (counts (vfs_w s')) →
  t_cwd s' = t_cwd s → bootfs_vnode s' = bootfs_vnode s → ∀ l' K',
  (∀ p, cnt (omap dev_vnode l') p + cnt K' p = cnt (omap dev_vnode l) p + cnt K p + match dev with Some _ => one v p | None => 0 end) →
  (∀ p, p ≠ v → cnt K' p ≤ cnt K p) → (dev = None → K' = K) →
  balanced s' l' F K'.
Proof.
  intros Hb Hg Hcwd Hboot l' K' Hcnt HK HK0 q. specialize (Hb q). specialize (Hcnt q). specialize (HK q). cbv zeta in *.
  pose proof (cnts_nonneg F K s l q) as Hn. pose proof (cnts_nonneg F K' s l' q) as Hn'.
  rewrite Hcwd, Hboot. unfold held_list in *. rewrite !cnt_app in *.
  pose proof (cnt_nonneg (omap dev_vnode l') q). pose proof (cnt_nonneg (omap dev_vnode l) q).
  pose proof (cnt_nonneg (option_list (t_cwd s)) q). pose proof (cnt_nonneg (option_list (bootfs_vnode s)) q).
  destruct dev as [d|]; cbn in Hg.
  - destruct Hg as [Hv ->]. destruct (decide (q = v)) as [->|Hne].
    + rewrite one_eq in Hcnt. rewrite lookup_insert_eq. rewrite Hv in Hb. cbn. split_and!; done || lia.
    + rewrite one_ne in Hcnt by done. rewrite lookup_insert_ne by done. specialize (HK Hne).
      destruct (counts (vfs_w s) !! q); [|lia]. destruct Hb as (? & ? & Hk & Hd). split_and!; [lia|lia|intros ?; apply Hk; lia|intros ?%Hd; lia].
  - rewrite Hg. rewrite (HK0 eq_refl) in *. destruct (counts (vfs_w s) !! q); [|lia]. destruct Hb as (? & ? & Hk & Hd).
    split_and!; [lia|lia|done|intros ?%Hd; lia].
Qed.

(** ** One call *)

(** What a caller sees to. *)
Definition admissible s l F (c : call) : Prop :=
  match c with
  | COpen path _ | CRemove path | CSymlink _ path | CReadlink path _ | CMkdir path | CRmdir path | CChdir path
  | CLookup path | CLookparent path _ => cstr path
  | CClose vn => vn ∈ files_of F
  | CRename oldpath newpath => cstr oldpath ∧ cstr newpath
  | CLink oldpath newpath => cstr oldpath ∧ cstr newpath ∧
      ∀ q s2 i, vfs_lookup oldpath s = Done ((0, q), s2) → counts (vfs_w s2) !! q = Some i → i_dir i = false
  | CGetcwd u => uio_rw_of u = UIO_READ ∧ uio_ok u
  | CSetbootfs fsname => cstr fsname
  | CMount devname mountfunc => mounts s l devname mountfunc
  | CAdddev _ dev mountable => add_ok s l mountable dev None
  | CAddfs _ fs => add_ok s l false None (Some fs)
  | CSetcurdir dir => dir ∈ files_of F ++ refs_of F ∧
      ∀ i, counts (vfs_w s) !! dir = Some i → start_ok (fses (vfs_w s)) l i
  | CIncref vn => vn ∈ files_of F ++ refs_of F
  | CDecref vn => vn ∈ refs_of F
  | CClearcurdir | CClearbootfs | CSync | CUnmount _ | CUnmountall | CGetroot _ | CGetdevname _ | CGetcurdir => True
  end.

(** The call makes a vnode for a device and then fails to enter it. *)
Definition loses (c : call) (r : Z) : bool :=
  match c with CAdddev _ (Some _) _ => negb (r =? 0) | _ => false end.

(** The lost devices: only such a call adds to them, and only the vnode it has
    made. *)
Definition lost_by (c : call) (r : Z) s K K' : Prop :=
  K' = K ∨ loses c r = true ∧ ∃ v, K' = v :: K ∧ counts (vfs_w s) !! v = None.

Definition call_post (c : call) s l F K (r : Z) F' s' : Prop := ∃ l' K',
  vfs_ok s' l' F' K' ∧ lost_by c r s K K' ∧ (adds c = false → K' = K ∧ same_devs l l') ∧
  (r ≠ 0 → F' = F ∧ l' = l ∧ (adds c = false → unchanged s l s')).

Lemma kept_post c s l F K r F' s' l' :
  vfs_ok s' l' F' K → same_devs l l' → (r ≠ 0 → F' = F ∧ l' = l ∧ unchanged s l s') → call_post c s l F K r F' s'.
Proof. intros Hok Hs He. exists l', K. split; [done|]. split; [by left|]. split; [done|]. intros Hr. by destruct (He Hr) as (-> & -> & ?). Qed.

Lemma retabled_post c s l F K r s' l' :
  vfs_ok s l F K → retabled s l s' l' → (r ≠ 0 → l' = l ∧ unchanged s l s') → call_post c s l F K r F s'.
Proof.
  intros [Hinv Hb Hn] Hr He. pose proof Hr as (Hinv' & _ & _ & _ & Hs). eapply kept_post; [split; [done|by eapply balanced_same|by eapply names_distinct_same]|done|].
  intros H. by destruct (He H).
Qed.

Lemma unchanged_post c s l F K r s' : vfs_ok s l F K → unchanged s l s' → call_post c s l F K r F s'.
Proof. intros Hok Hu. eapply retabled_post; [done|apply Hu|done]. Qed.

Lemma during_unchanged s l s' : vfs_inv s l → during s [] s' → unchanged s l s'.
Proof.
  intros Hinv Hd. pose proof (during_end s l Hinv s' Hd) as Hc. pose proof (during_inv s l Hinv _ _ Hd) as Hinv'.
  destruct Hd as (Es & [_ Hf] & _). split; [|done]. split; [done|]. split; [done|]. rewrite Es. done.
Qed.

Lemma during_post c s l F K r s' : vfs_ok s l F K → during s [] s' → call_post c s l F K r F s'.
Proof. intros Hok Hd. apply unchanged_post; [done|]. apply during_unchanged; [apply Hok|done]. Qed.

Lemma added_post c s l F K dname mountable dev fs r s' :
  vfs_ok s l F K → c = CAdddev dname dev mountable ∨ dev = None → adds c = true → added s l dname mountable dev fs r s' →
  call_post c s l F K r F s'.
Proof.
  intros [Hinv Hb Hn] Hdev Hc (Hf & Hcwd & Hboot & H). unfold call_post. rewrite Hc. destruct (Z.eqb_spec r 0) as [->|Hr].
  - destruct H as (v & Hinv' & Hg & Hun). eexists _, K. split; [|by split; [left|]]. split; [exact Hinv'| |].
    + eapply (balanced_grown s l F K dev v); [done..| |done|done]. intros p. rewrite omap_app, cnt_app. cbn. unfold dev_vnode. cbn. destruct dev; cbn; lia || done.
    + apply names_distinct_app; [done|]. intros k n Hk Hn1 Hn2. by apply (Hun n Hn2 k Hk).
  - destruct H as [Hinv' [Hcnt|(v & Hg)]].
    + exists l, K. split; [|by split; [left|]]. split; [done| |done]. eapply (balanced_same s l); [done|]. done.
    + exists l, (match dev with Some _ => v :: K | None => K end). split; [|split; [|done]].
      * split; [done| |done]. eapply (balanced_grown s l F K dev v); [done..| | |by intros ->].
        -- intros p. destruct dev; cbn; lia.
        -- intros p Hp. destruct dev; cbn; rewrite ?one_ne by done; lia.
      * destruct dev as [d|]; [|by left]. right. destruct Hdev as [->|[=]]. cbn. rewrite (proj2 (Z.eqb_neq _ _) Hr).
        split; [done|]. exists v. by destruct Hg.
Qed.

(** A vnode is handed out. *)
Lemma took_post c s l F K q s' : vfs_ok s l F K → during s [q] s' → call_post c s l F K 0 (add_ref q F) s'.
Proof.
  intros [Hinv Hb Hn] Hd. pose proof (during_inv s l Hinv _ _ Hd). destruct Hd as (Es & _ & Hm). eapply (kept_post _ _ l); [|done|done].
  split; [done| |done]. eapply balanced_moves; [done|done|done|]. intros p. rewrite Es. cbn. lia.
Qed.

Lemma cwd_post c s l F K s1 q : vfs_ok s l F K → vfs_inv s1 l → new_cwd s s1 q → call_post c s l F K 0 F s1.
Proof.
  intros [Hinv Hb Hn] Hinv1 (Es & _ & Hm). eapply (kept_post _ _ l); [|done|done]. split; [done| |done].
  eapply balanced_moved; [done|done|]. intros p. rewrite Es. cbn [t_cwd bootfs_vnode].
  rewrite (held_list_cwd l (t_cwd s) (Some q)). cbn. lia.
Qed.

Lemma boot_post c s l F K s1 new : vfs_ok s l F K → vfs_inv s1 l → new_boot s s1 new → call_post c s l F K 0 F s1.
Proof.
  intros [Hinv Hb Hn] Hinv1 (Es & _ & Hm). eapply (kept_post _ _ l); [|done|done]. split; [done| |done].
  eapply balanced_moved; [done|done|]. intros p. rewrite Es. cbn [t_cwd bootfs_vnode].
  rewrite (held_list_boot l (t_cwd s) (bootfs_vnode s) new). lia.
Qed.

Lemma open_call_wp s l F K path openflags :
  vfs_ok s l F K → room 16 (counts (vfs_w s)) → cstr path →
  swpp Pk (do_call (COpen path openflags) F) s (λ '(r, F') s', call_post (COpen path openflags) s l F K r F' s').
Proof.
  intros Hok Hroom16 Hp. pose proof Hok as [Hinv Hb Hn]. pose proof (room_weaken _ 8 _ Hroom16 ltac:(lia)) as Hroom.
  cbn [do_call]. apply swpp_bind. eapply swpp_mono; [by apply (vfs_open_wp s l Hinv Hroom)|]. intros [r p] s2 H2. unfold open_post in H2.
  apply swpp_ret. destruct (Z.eqb_spec r 0) as [->|Hr]; [|by apply during_post]. destruct H2 as (Es & Hst & Ho).
  eapply (kept_post _ _ l); [|done|done]. split; [by eapply opened_inv|by eapply balanced_opened|done].
Qed.

Lemma close_call_wp s l F K vn :
  vfs_ok s l F K → vn ∈ files_of F → swpp Pk (do_call (CClose vn) F) s (λ '(r, F') s', call_post (CClose vn) s l F K r F' s').
Proof.
  intros Hok Hv. pose proof Hok as [Hinv Hb Hn]. pose proof (Hb vn) as Hv2. pose proof (cnt_elem _ vn Hv). cbv zeta in Hv2.
  destruct (counts (vfs_w s) !! vn) as [i|] eqn:Hi; [|lia]. cbn [do_call]. apply swpp_bind.
  eapply swpp_mono; [apply (vfs_close_wp s l Hinv vn i Hi); lia|]. intros [] s2 (Es & Hst & Hc). apply swpp_ret.
  eapply (kept_post _ _ l); [|done|done]. split; [eapply closed_inv; try done; lia|by eapply balanced_closed|done].
Qed.

(** What a caller has is in memory. *)
Lemma client_live s l F K p :
  vfs_ok s l F K → p ∈ files_of F ++ refs_of F → ∃ i, counts (vfs_w s) !! p = Some i.
Proof.
  intros [_ Hb _] Hp. specialize (Hb p). cbv zeta in Hb. destruct (counts (vfs_w s) !! p) as [i|]; [by exists i|].
  apply elem_of_app in Hp as [Hp%cnt_elem|Hp%cnt_elem]; lia.
Qed.

(** When the books balance, the invariant holds. *)
Lemma balanced_inv s l F K δ s' :
  vfs_inv s l → s' = with_w s (vfs_w s') → step (vfs_w s) (vfs_w s') → moved (counts (vfs_w s)) δ (counts (vfs_w s')) →
  balanced s' l F K → vfs_inv s' l.
Proof.
  intros Hinv Es [Hok Hf] Hm Hb. pose proof (vi_held _ _ Hinv) as Hh. rewrite Es in *. cbn [with_w vfs_w] in *. split; cbn; [done|apply Hinv..|]. rewrite Hf.
  assert (∀ p i, p ∈ held_list l (t_cwd s) (bootfs_vnode s) → counts (vfs_w s') !! p = Some i →
    ∃ j, counts (vfs_w s) !! p = Some j ∧ i = addref (δ p) j) as Hsame.
  { intros p i Hp Hi. destruct (h_live _ _ _ _ _ Hh p Hp) as [j Hj]. exists j. split; [done|]. by eapply moved_same. }
  split.
  - intros kd Hkd. destruct (h_dev _ _ _ _ _ Hh kd Hkd) as (H1 & H2 & H3 & H4). split_and!; [done..|]. intros p i Hp Hi.
    destruct (Hsame p i) as (j & Hj & ->); [|done|by apply (H4 p j)]. unfold held_list. apply elem_of_app. left. apply (list_elem_of_omap dev_vnode). by exists kd.
  - intros p Hp%cnt_elem. specialize (Hb p). cbn in Hb. destruct (counts (vfs_w s') !! p); [by eexists|lia].
  - intros p i Hi. specialize (Hb p). cbn in Hb. rewrite Hi in Hb. destruct Hb as (Ho & Hr & _ & Hd). pose proof (cnts_nonneg F K s l p).
    split; [lia|]. intros Hn%Hd. unfold held_list in *. rewrite !cnt_app in *.
    pose proof (cnt_nonneg (option_list (t_cwd s)) p). pose proof (cnt_nonneg (option_list (bootfs_vnode s)) p). lia.
  - intros p i Hp Hi. destruct (Hsame p i) as (j & Hj & ->); [|done|].
    + unfold held_list. rewrite !elem_of_app. right. destruct Hp as [->| ->]; [left|right]; by left.
    + by apply (h_start _ _ _ _ _ Hh p j).
Qed.

(** Giving back a vnode: only a vnode of a filesystem can go away. *)
Lemma decref_call_wp s l F K vn :
  vfs_ok s l F K → vn ∈ refs_of F → swpp Pk (do_call (CDecref vn) F) s (λ '(r, F') s', call_post (CDecref vn) s l F K r F' s').
Proof.
  intros Hok Hv. pose proof Hok as [Hinv Hb Hn]. destruct (client_live s l F K vn Hok) as [i Hi]; [by apply elem_of_app; right|].
  pose proof (Hb vn) as Hbv. cbv zeta in Hbv. rewrite Hi in Hbv. destruct Hbv as (Ho & Hr & _ & Hd). pose proof (cnt_elem _ vn Hv). pose proof (cnts_nonneg F K s l vn).
  cbn [do_call]. apply swpp_bind, on_w_wp, swpp_swp. eapply swp_mono; [apply (VOP_DECREF_wp _ vn i); [apply Hinv|done|]|].
  - intros E. split; [lia|]. destruct (i_fs i) as [fs|] eqn:Ef; [by eexists|]. specialize (Hd eq_refl). unfold held_list in *. rewrite !cnt_app in *.
    pose proof (cnt_nonneg (option_list (t_cwd s)) vn). pose proof (cnt_nonneg (option_list (bootfs_vnode s)) vn). lia.
  - intros _ w' [Hst Hc]. apply swpp_ret.
    assert (moved (counts (vfs_w s)) (λ p, - one vn p) (counts w')) as Hm.
    { rewrite Hc. eapply moved_ext; [|apply (moved_dec _ (λ _, 0)); [apply moved_refl, (base_positive s l Hinv)|done]]. intros p. cbn. lia. }
    assert (balanced (with_w s w') l (drop_ref vn F) K) as Hb'.
    { eapply balanced_moves; [exact Hb|exact Hm|done|]. intros p. cbn. rewrite cnt_drop_one by done. lia. }
    eapply (kept_post _ _ l); [|done|done]. split; [by eapply (balanced_inv s)|done|done].
Qed.

(** The calls that hand out a vnode. *)
Lemma handed_call_wp s l F K c m :
  vfs_ok s l F K → do_call c F = handed F m → swpp Pk m s (λ '(r, q) s', started s l [] r q s') →
  swpp Pk (do_call c F) s (λ '(r, F') s', call_post c s l F K r F' s').
Proof.
  intros Hok -> Hm. apply swpp_bind. eapply swpp_mono; [exact Hm|]. intros [r q] s' Hs. apply swpp_ret. unfold started in Hs.
  destruct (Z.eqb_spec r 0) as [->|Hr]; [by apply took_post; [|apply Hs]|by apply during_post].
Qed.

Lemma low_call_wp s l F K c :
  vfs_ok s l F K → room 16 (counts (vfs_w s)) → admissible s l F c →
  match c with
  | CLookup _ | CLookparent _ _ | CGetroot _ | CGetdevname _ | CGetcurdir | CSetcurdir _ | CIncref _ | CDecref _ => True | _ => False
  end →
  swpp Pk (do_call c F) s (λ '(r, F') s', call_post c s l F K r F' s').
Proof.
  intros Hok Hroom16 Hadm Hc. pose proof Hok as [Hinv Hb Hn]. pose proof (room_weaken _ 8 _ Hroom16 ltac:(lia)) as Hroom.
  pose proof (during_refl s l Hinv) as Hd. destruct c; try done; cbn [admissible] in Hadm.
  - eapply handed_call_wp; [done..|]. apply (vfs_lookup_wp s l Hinv Hroom []); [done|cbn; lia|done].
  - eapply handed_call_wp; [done..|]. apply swpp_bind. eapply swpp_mono; [apply (vfs_lookparent_wp s l Hinv Hroom []); [done|cbn; lia|done]|].
    intros [[r q] name] s' [Hs _]. by apply swpp_ret.
  - eapply handed_call_wp; [done..|]. apply (vfs_getroot_wp s l Hinv Hroom []); [done|cbn; lia].
  - cbn [do_call]. apply swpp_bind. eapply swpp_mono; [by apply (vfs_getdevname_wp s l [])|]. intros o s' [-> _]. apply swpp_ret. by apply during_post.
  - eapply handed_call_wp; [done..|]. eapply swpp_mono; [apply (vfs_getcurdir_wp s l Hinv Hroom []); [done|cbn; lia]|]. by intros [r q] s' [? _].
  - destruct Hadm as [Hdir Hst]. destruct (client_live s l F K dir Hok Hdir) as [i Hi]. cbn [do_call]. apply swpp_bind.
    eapply swpp_mono; [apply (vfs_setcurdir_wp s l [] dir s i); [done|done|done|cbn; lia|done]|]. intros r s' H. cbv beta in H. apply swpp_ret.
    destruct (Z.eqb_spec r 0) as [->|Hr]; [|by apply during_post]. destruct H as (Hfs & Es & Hstep & Hm & Hsame).
    assert (new_cwd s s' dir) as Hnew. { split; [done|]. split; [done|]. eapply moved_ext; [|exact Hm]. intros p. cbn. lia. }
    destruct (new_cwd_live s l s' dir Hinv Hnew) as [j Hj]. eapply cwd_post; [done| |done].
    eapply (new_cwd_inv s l s' dir j); [done..|by rewrite (Hsame j Hj)|]. intros fs Ef. apply (Hst i Hi). by rewrite <-(Hsame j Hj).
  - destruct (client_live s l F K vn Hok Hadm) as [i Hi]. cbn [do_call]. apply swpp_bind.
    eapply swpp_mono; [apply (incref_wp s l Hinv Hroom [] s vn i); [done|cbn; lia|done]|]. intros [] s' [Hd' _]. apply swpp_ret. by apply took_post.
  - by apply decref_call_wp.
Qed.

(** The calls that leave the references as they are. *)
Lemma quiet_call {A} (m : stm (vfs W) A) s l F K c (f : A → Z) :
  vfs_ok s l F K → swpp Pk m s (λ _ s', during s [] s') →
  swpp Pk (a ← m; mret (f a, F)) s (λ '(r, F') s', call_post c s l F K r F' s').
Proof.
  intros Hok Hm. apply swpp_bind. eapply swpp_mono; [exact Hm|]. intros a s' Hd. apply swpp_ret. by apply during_post.
Qed.

Lemma cwd_call_wp s l F K c :
  vfs_ok s l F K → room 16 (counts (vfs_w s)) → admissible s l F c →
  match c with CChdir _ | CClearcurdir | CSetbootfs _ | CClearbootfs => True | _ => False end →
  swpp Pk (do_call c F) s (λ '(r, F') s', call_post c s l F K r F' s').
Proof.
  intros Hok Hroom Hadm Hc. pose proof Hok as [Hinv Hb Hn].
  destruct c; try done; cbn [do_call admissible] in *; apply swpp_bind.
  - eapply swpp_mono; [apply (vfs_chdir_wp s l); [done|by eapply room_weaken|done]|]. intros r s1 [Hinv1 H1]. apply swpp_ret.
    destruct (Z.eqb_spec r 0) as [->|Hr]; [destruct H1 as [q Hq]; by eapply cwd_post|by apply during_post].
  - eapply swpp_mono; [by apply (vfs_clearcurdir_wp s l)|]. intros r s1 (-> & Hinv1 & Es & Hm). apply swpp_ret.
    eapply (kept_post _ _ l); [|done|done]. split; [done| |done]. eapply balanced_moved; [done|done|]. intros p. rewrite Es. cbn [t_cwd bootfs_vnode].
    rewrite (held_list_cwd l (t_cwd s) None). cbn. lia.
  - eapply swpp_mono; [by apply (vfs_setbootfs_wp s l)|]. intros r s1 [Hinv1 H1]. apply swpp_ret.
    destruct (Z.eqb_spec r 0) as [->|Hr]; [|by apply during_post]. destruct H1 as (q & s2 & Hq & Hinv2 & Hb2).
    eapply (kept_post _ _ l); [|done|done]. split; [done| |done]. pose proof Hq as (Eq & _). destruct Hb2 as (Eb & _ & Hmb).
    eapply (balanced_moved s2); [|exact Hmb|].
    + destruct Hq as (_ & _ & Hm). eapply balanced_moved; [done|done|]. intros p. rewrite Eq. cbn [t_cwd bootfs_vnode].
      rewrite (held_list_cwd l (t_cwd s) (Some q)). cbn. lia.
    + intros p. rewrite Eb. cbn [t_cwd bootfs_vnode]. rewrite (held_list_boot l (t_cwd s2) (bootfs_vnode s2) (Some q)). cbn. lia.
  - eapply swpp_mono; [by apply (vfs_clearbootfs_wp s l)|]. intros [] s1 [Hinv1 H1]. apply swpp_ret. by eapply boot_post.
Qed.

Lemma table_call_wp s l F K c :
  vfs_ok s l F K → admissible s l F c →
  match c with CSync | CMount _ _ | CUnmount _ | CUnmountall => True | _ => False end →
  swpp Pk (do_call c F) s (λ '(r, F') s', call_post c s l F K r F' s').
Proof.
  intros Hok Hadm Hc. pose proof (vo_inv _ _ _ _ Hok) as Hinv. destruct c; try done; cbn [do_call admissible] in *; apply swpp_bind.
  - eapply swpp_mono; [by apply (vfs_sync_wp s l)|]. intros r s1 [-> Hu]. apply swpp_ret. by apply unchanged_post.
  - eapply swpp_mono; [by apply (vfs_mount_wp s l)|]. intros r s1 Hu. apply swpp_ret. unfold mounted in Hu.
    destruct (Z.eqb_spec r 0) as [->|Hr]; [|apply unchanged_post; [done|apply Hu]]. destruct Hu as (n & kd & fs & _ & _ & _ & Hr & _). by eapply retabled_post.
  - eapply swpp_mono; [by apply (vfs_unmount_wp s l)|]. intros r s1 Hu. apply swpp_ret. unfold unmounted in Hu.
    destruct (Z.eqb_spec r 0) as [->|Hr]; [|apply unchanged_post; [done|apply Hu]]. destruct Hu as (n & kd & fs & _ & _ & _ & Hr & _). by eapply retabled_post.
  - eapply swpp_mono; [by apply (vfs_unmountall_wp s l)|]. intros r s1 [-> [l' Hr]]. apply swpp_ret. by eapply retabled_post.
Qed.

Lemma do_call_wp s l F K c :
  vfs_ok s l F K → room 16 (counts (vfs_w s)) → admissible s l F c →
  swpp (Pk ∨ adds c = true) (do_call c F) s (λ '(r, F') s', call_post c s l F K r F' s').
Proof.
  intros Hok Hroom16 Hadm. pose proof Hok as [Hinv Hb _].
  pose proof (room_weaken _ 8 _ Hroom16 ltac:(lia)) as Hroom. pose proof (during_refl s l Hinv) as Hd.
  destruct (adds c) eqn:Ha.
  { apply (swpp_panics True); [by right|].
    destruct c; try done; cbn [do_call admissible] in *; unfold vfs_adddev, vfs_addfs;
      apply swpp_bind; (eapply swpp_mono; [by apply (vfs_doadd_wp s l)|]); intros r s1 H1; apply swpp_ret; (eapply added_post; [done| |done|done]); first [by left|by right]. }
  apply (swpp_panics Pk); [by left|]. destruct c; try done; cbn [admissible] in Hadm;
    try (by apply cwd_call_wp); try (by apply table_call_wp); try (by apply low_call_wp).
  - by apply open_call_wp.
  - by apply close_call_wp.
  - apply (quiet_call _ _ _ _ _ _ id); [done|by apply (vfs_remove_wp s l Hinv Hroom)].
  - destruct Hadm. apply (quiet_call _ _ _ _ _ _ id); [done|by apply (vfs_rename_wp s l)].
  - destruct Hadm as (? & ? & ?). apply (quiet_call _ _ _ _ _ _ id); [done|by apply (vfs_link_wp s l)].
  - apply (quiet_call _ _ _ _ _ _ id); [done|by apply (vfs_symlink_wp s l Hinv Hroom)].
  - cbn [do_call]. apply swpp_bind. eapply swpp_mono; [by apply (vfs_readlink_wp s l Hinv Hroom)|]. intros [r u'] s' Hd'. apply swpp_ret. by apply during_post.
  - apply (quiet_call _ _ _ _ _ _ id); [done|by apply (vfs_mkdir_wp s l Hinv Hroom)].
  - apply (quiet_call _ _ _ _ _ _ id); [done|by apply (vfs_rmdir_wp s l Hinv Hroom)].
  - destruct Hadm. cbn [do_call]. apply swpp_bind. eapply swpp_mono; [by apply (vfs_getcwd_wp s l u Hinv Hroom)|]. intros [r u'] s' Hd'. apply swpp_ret. by apply during_post.
Qed.
End run.
