(* ===== verification/KernWorld.v ===== *)
(** * A kernel with one SFS volume and devices

    The world the VFS layer runs in: the disk of the SFS volume, mounted or not,
    and the vnodes of devices.  A vnode of the volume has an even address, a vnode
    of a device an odd one.  The functions of SFS and of device.c are called
    through the function tables; this world keeps the contract of VfsLaws. *)

From S2P Require Import Prelude Array Bitmap Copyinout Uio SfsDisk Dev Vnode SfsIo SfsFile Lhd SfsRw.
From S2P Require Import SfsDir SfsNames SfsVnode SfsFs SfsTrunc SfsVol SfsOps SfsExample SfsApi SfsSync SfsSuper.
From S2P Require Import Device Vfs VfsLaws.

(** The function tables. *)
Inductive kops := KSfs (ops : sfs_ops) | KDev.

(** The disk, and the answers the allocator will give SFS, while the volume is
    not mounted; the mounted volume. *)
Inductive volume (D : Type) := Off (disk : D) (mem : list bool) | On (w : world D).
Arguments Off {D} _ _.
Arguments On {D} _.

Record kworld (D : Type) := mkKw {
  kw_vol : volume D;
  kw_devs : gmap Z (vnode kops * option Z);
  kw_next : Z;
  kw_mem : list bool;
}.
Arguments mkKw {D} _ _ _ _.
Arguments kw_vol {D} _.
Arguments kw_devs {D} _.
Arguments kw_next {D} _.
Arguments kw_mem {D} _.

(** The address of the filesystem, and the device it is on. *)
Definition SFSFS : Z := 1.
Definition DISK : Z := 1.

(** What an address is the address of. *)
Definition who (p : Z) : Z + Z := if Z.even p then inl (p / 2) else inr (p / 2).

Section kworld.
Context {D : Type} `{!BlockDev D} {cs : CurSpace} (devices : Z → device (kworld D)).
Abbreviation kw := (kworld D).

Definition set_vol (v : volume D) (k : kw) : kw := mkKw v (kw_devs k) (kw_next k) (kw_mem k).
Definition set_devs (m : gmap Z (vnode kops * option Z)) (k : kw) : kw := mkKw (kw_vol k) m (kw_next k) (kw_mem k).

Definition on_sfs {A} (m : stm (world D) A) : stm kw A := λ k,
  match kw_vol k with
  | On w => '(a, w') ← m w; Done (a, set_vol (On w') k)
  | Off _ _ => Undef
  end.

Definition up (v : vnode sfs_ops) : vnode kops :=
  mkVnode (vn_refcount v) (vn_opencount v) (vn_countlock v) (KSfs <$> vn_ops v).
Definition down (v : vnode kops) : vnode sfs_ops :=
  mkVnode (vn_refcount v) (vn_opencount v) (vn_countlock v)
    (match vn_ops v with Some (KSfs ops) => Some ops | _ => None end).

Definition kget (p : Z) : stm kw (vnode kops) :=
  match who p with
  | inl q => v ← on_sfs (w_getv q); mret (up v)
  | inr j => λ k, match kw_devs k !! j with Some (v, _) => Done (v, k) | None => Undef end
  end.

Definition kput (p : Z) (v : vnode kops) : stm kw unit :=
  match who p with
  | inl q => on_sfs (w_putv q (down v))
  | inr j => λ k,
      match kw_devs k !! j with
      | Some (_, d) => Done (tt, set_devs (<[j := (v, d)]> (kw_devs k)) k)
      | None => Undef
      end
  end.

Definition kincref (p : Z) : stm kw unit := v ← kget p; v' ← lift (vnode_incref v); kput p v'.

(** [v->vn_data] of a device vnode. *)
Definition kdata (p : Z) : stm kw (device kw) := λ k,
  match who p with
  | inr j => match kw_devs k !! j with Some (_, Some d) => Done (devices d, k) | _ => Undef end
  | inl _ => Undef
  end.

(** A vnode argument of a function of SFS is a vnode of the volume. *)
Definition at_sfs {A} (p : Z) (m : Z → stm kw A) : stm kw A :=
  match who p with inl q => m q | inr _ => lift Undef end.

(** The functions of SFS, on the addresses of this world. *)
Definition sfs_kops (t : vnode_ops (world D)) : vnode_ops kw := {|
  vop_open p flags := at_sfs p (λ q, on_sfs (vop_open t q flags));
  vop_close p := at_sfs p (λ q, on_sfs (vop_close t q));
  vop_reclaim p := at_sfs p (λ q, on_sfs (vop_reclaim t q));
  vop_read p u := at_sfs p (λ q, on_sfs (vop_read t q u));
  vop_readlink p u := at_sfs p (λ q, on_sfs (vop_readlink t q u));
  vop_getdirentry p u := at_sfs p (λ q, on_sfs (vop_getdirentry t q u));
  vop_write p u := at_sfs p (λ q, on_sfs (vop_write t q u));
  vop_ioctl p op data := at_sfs p (λ q, on_sfs (vop_ioctl t q op data));
  vop_stat p := at_sfs p (λ q, on_sfs (vop_stat t q));
  vop_gettype p := at_sfs p (λ q, on_sfs (vop_gettype t q));
  vop_tryseek p pos := at_sfs p (λ q, on_sfs (vop_tryseek t q pos));
  vop_fsync p := at_sfs p (λ q, on_sfs (vop_fsync t q));
  vop_mmap p := at_sfs p (λ q, on_sfs (vop_mmap t q));
  vop_truncate p len := at_sfs p (λ q, on_sfs (vop_truncate t q len));
  vop_namefile p u := at_sfs p (λ q, on_sfs (vop_namefile t q u));
  vop_creat p name excl := at_sfs p (λ q, '(r, f) ← on_sfs (vop_creat t q name excl); mret (r, 2 * f));
  vop_symlink p name contents := at_sfs p (λ q, on_sfs (vop_symlink t q name contents));
  vop_mkdir p name := at_sfs p (λ q, on_sfs (vop_mkdir t q name));
  vop_link p name f := at_sfs p (λ q, at_sfs f (λ f, on_sfs (vop_link t q name f)));
  vop_remove p name := at_sfs p (λ q, on_sfs (vop_remove t q name));
  vop_rmdir p name := at_sfs p (λ q, on_sfs (vop_rmdir t q name));
  vop_rename p n1 p2 n2 := at_sfs p (λ q, at_sfs p2 (λ q2, on_sfs (vop_rename t q n1 q2 n2)));
  vop_lookup p path := at_sfs p (λ q, '(r, f) ← on_sfs (vop_lookup t q path); mret (r, 2 * f));
  vop_lookparent p path len := at_sfs p (λ q,
    '(r, f, name) ← on_sfs (vop_lookparent t q path len); mret (r, 2 * f, name));
|}.

Definition kfsops : fs_ops kw := {|
  fs_sync := on_sfs sfs_sync;
  fs_getvolname := on_sfs (gets (λ w, Some (sfs_getvolname (w_fs w))));
  fs_getroot := q ← on_sfs sfs_getroot; mret (2 * q);
  fs_unmount := λ k,
    match kw_vol k with
    | On w =>
        r ← sfs_unmount (w_fs w);
        Done (r, if r =? 0 then set_vol (Off (sfs_device (w_fs w)) (w_mem w)) k else k)
    | Off _ _ => Undef
    end;
|}.

#[export] Instance kern_world : VnodeWorld kw kops := {|
  vw_get := kget;
  vw_put := kput;
  vw_table ops := match ops with KSfs o => sfs_kops (sfs_table o) | KDev => dev_vnode_ops kget kincref kdata end;
  vw_vnfs p := match who p with inl _ => mret (Some SFSFS) | inr _ => mret None end;
  vw_fsops fs := if fs =? SFSFS then mret kfsops else lift Undef;
  vw_kmalloc := λ k,
    match kw_mem k with
    | [] => Done (false, k)
    | b :: mem => Done (b, mkKw (kw_vol k) (kw_devs k) (kw_next k) mem)
    end;
  vw_devops := KDev;
  vw_newdev v dev := λ k,
    Done (2 * kw_next k + 1, mkKw (kw_vol k) (<[kw_next k := (v, dev)]> (kw_devs k)) (kw_next k + 1) (kw_mem k));
  vw_freedev p := λ k,
    match who p with
    | inr j => match kw_devs k !! j with Some _ => Done (tt, set_devs (delete j (kw_devs k)) k) | None => Undef end
    | inl _ => Undef
    end;
|}.

(** [sfs_mount] on the disk; a device that is not the disk is no block device
    with blocks of 512 bytes. *)
Definition kmount (garbage : sfs_super) (dev : Z) : stm kw (Z * option Z) := λ k,
  if negb (dev =? DISK) then
    if negb (dv_blocksize (devices dev) =? SFS_BLOCKSIZE) then Done ((ENXIO, None), k) else Undef
  else
  match kw_vol k with
  | Off disk mem =>
      let answer n := default false (mem !! n) in
      '(r, ofs, disk') ← sfs_domount (answer 0%nat) (answer 1%nat) (answer 2%nat) (answer 3%nat) garbage disk;
      Done (match ofs with
            | Some fs => ((r, Some SFSFS), set_vol (On (mkW fs ∅ 0 (drop 4 mem))) k)
            | None => ((r, None), set_vol (Off disk' (drop 4 mem)) k)
            end)
  | On _ => Undef
  end.
Definition sfs_mount (garbage : sfs_super) (devname : list Z) : stm (vfs kw) Z :=
  vfs_mount devname (kmount garbage).
End kworld.

(** ** The SFS volume and the devices keep the contract of the VFS layer *)

(** ** Addresses *)

Lemma who_even q : who (2 * q) = inl q.
Proof. unfold who. rewrite Z.even_mul. cbn [Z.even orb]. f_equal. rewrite Z.mul_comm. by apply Z.div_mul. Qed.

Lemma who_odd j : who (2 * j + 1) = inr j.
Proof.
  unfold who. rewrite Z.even_add, Z.even_mul. cbn [Z.even orb Bool.eqb]. f_equal. dlia.
Qed.

Lemma who_cases p : (∃ q, p = 2 * q) ∨ ∃ j, p = 2 * j + 1.
Proof. pose proof (Z.div_mod p 2 ltac:(lia)). destruct (decide (p mod 2 = 0)); [left|right]; exists (p / 2); dlia. Qed.

#[local] Instance even_inj : Inj (=) (=) (λ q : Z, 2 * q).
Proof. intros x y. lia. Qed.
#[local] Instance odd_inj : Inj (=) (=) (λ j : Z, 2 * j + 1).
Proof. intros x y. lia. Qed.

(** A function of a device that touches no vnode. *)
Class Inert {D} (devices : Z → device (kworld D)) : Prop := {
  inert_open d flags k : ∃ r, dv_open (devices d) flags k = Done (r, k);
  inert_close d k : ∃ r, dv_close (devices d) k = Done (r, k);
}.

Lemma swp_pres {St A} (R : relation St) (m : stm St A) s (Q : A → St → Prop) :
  pres R m → swp m s Q → swp m s (λ a s', Q a s' ∧ R s s').
Proof. unfold swp. intros Hm H. destruct (m s) as [[a s']| | |] eqn:E; [|done..]. split; [done|]. by apply Hm in E. Qed.

Section laws.
Context {D : Type} `{!BlockDev D} `{!Disk D} {cs : CurSpace} (devices : Z → device (kworld D)) `{!Inert devices}.
Implicit Types (k : kworld D) (w : world D).

Definition sinfo (v : vnode sfs_ops) : vinfo :=
  mkInfo (vn_refcount v) (vn_opencount v) (Some SFSFS) (match vn_ops v with Some SfsDirOps => true | _ => false end).
Definition dinfo (x : vnode kops * option Z) : option vinfo :=
  match x.2 with Some _ => Some (mkInfo (vn_refcount x.1) (vn_opencount x.1) None false) | None => None end.

Definition sfs_counts k : gmap Z vinfo := match kw_vol k with On w => sinfo <$> refs w | Off _ _ => ∅ end.
Definition dev_counts k : gmap Z vinfo := omap dinfo (kw_devs k).
Definition kcounts k : gmap Z vinfo :=
  kmap (λ q, 2 * q) (sfs_counts k) ∪ kmap (λ j, 2 * j + 1) (dev_counts k).

(** A disk that holds a consistent volume, or no volume. *)
Definition image (d : D) : Prop :=
  d_ok d ∧ 0 < d_blocks d ∧ (sp_magic (disk_super d) = SFS_MAGIC → fits_device d) ∧
  ∀ fs mem, sp_magic (disk_super d) = SFS_MAGIC → mount_post d fs → ∃ I, vol (mkW fs ∅ 0 mem) I (λ _, 0).

Definition kok k : Prop :=
  match kw_vol k with On w => ∃ I, vol w I (λ _, 0) | Off d _ => image d end ∧
  ∀ j v o, kw_devs k !! j = Some (v, o) → j < kw_next k ∧ 1 ≤ vn_refcount v ∧ 0 ≤ vn_opencount v ∧ vn_ops v = Some KDev.

Definition kfses k : gmap Z (option (list Z)) :=
  match kw_vol k with On w => {[SFSFS := Some (sfs_getvolname (w_fs w))]} | Off _ _ => ∅ end.

Definition ksynced (fs : Z) k : Prop :=
  match kw_vol k with
  | On w => sfs_superdirty (w_fs w) = false ∧ sfs_freemapdirty (w_fs w) = false ∧
      ∃ I, vol w I (λ _, 0) ∧ ∀ n i, I !! n = Some i → sect (dsk (w_fs w)) n = encode_inode i
  | Off _ _ => False
  end.

Definition khollow (p : Z) k : Prop := ∃ j v, who p = inr j ∧ kw_devs k !! j = Some (v, None).

Definition kstep k k' : Prop := kok k' ∧ kfses k' = kfses k.

(** ** The counts *)

Lemma kcounts_even k q : kcounts k !! (2 * q) = sfs_counts k !! q.
Proof.
  unfold kcounts. rewrite lookup_union, (lookup_kmap (λ q, 2 * q)).
  rewrite (proj2 (lookup_kmap_None (λ j, 2 * j + 1) _ _)); [by destruct (sfs_counts k !! q)|]. intros j. lia.
Qed.

Lemma kcounts_odd k j : kcounts k !! (2 * j + 1) = dev_counts k !! j.
Proof.
  unfold kcounts. rewrite lookup_union, (lookup_kmap (λ j, 2 * j + 1)).
  rewrite (proj2 (lookup_kmap_None (λ q, 2 * q) _ _)); [by destruct (dev_counts k !! j)|]. intros q. lia.
Qed.

Lemma kcounts_ext k (c : gmap Z vinfo) :
  (∀ q, c !! (2 * q) = sfs_counts k !! q) → (∀ j, c !! (2 * j + 1) = dev_counts k !! j) → kcounts k = c.
Proof.
  intros He Ho. apply map_eq. intros p. destruct (who_cases p) as [[q ->]|[j ->]]; [rewrite kcounts_even|rewrite kcounts_odd]; done.
Qed.

Lemma sfs_counts_on k w q : kw_vol k = On w → sfs_counts k !! q = (λ sv, sinfo (sv_v sv)) <$> w_heap w !! q.
Proof. intros E. unfold sfs_counts, refs. rewrite E, !lookup_fmap. by destruct (w_heap w !! q). Qed.

Lemma kcounts_refs k w w' : kw_vol k = On w → refs w' = refs w → kcounts (set_vol (On w') k) = kcounts k.
Proof. intros E Hr. unfold kcounts, sfs_counts, dev_counts. cbn. by rewrite E, Hr. Qed.

(** A vnode of the volume, or of a device. *)
Lemma kcounts_cases k p i :
  kok k → kcounts k !! p = Some i →
  (∃ q w sv I, p = 2 * q ∧ kw_vol k = On w ∧ vol w I (λ _, 0) ∧ w_heap w !! q = Some sv ∧ vnode_ok sv ∧ i = sinfo (sv_v sv)) ∨
  (∃ j v d, p = 2 * j + 1 ∧ kw_devs k !! j = Some (v, Some d) ∧ vn_ops v = Some KDev ∧
     1 ≤ vn_refcount v ∧ 0 ≤ vn_opencount v ∧ i = mkInfo (vn_refcount v) (vn_opencount v) None false).
Proof.
  intros [Hv Hd] Hi. destruct (who_cases p) as [[q ->]|[j ->]]; [left|right].
  - rewrite kcounts_even in Hi. unfold sfs_counts in Hi. destruct (kw_vol k) as [|w] eqn:E; [done|].
    unfold refs in Hi. rewrite !lookup_fmap in Hi. destruct (w_heap w !! q) as [sv|] eqn:Hq; [|done]. injection Hi as <-.
    destruct Hv as [I Hv]. exists q, w, sv, I. destruct (v_heap _ _ _ Hv q sv Hq) as (_ & ? & _). done.
  - rewrite kcounts_odd in Hi. unfold dev_counts in Hi. rewrite lookup_omap in Hi.
    destruct (kw_devs k !! j) as [[v [d|]]|] eqn:Hj; [|done..]. injection Hi as <-.
    destruct (Hd j v _ Hj) as (_ & ? & ? & ?). by exists j, v, d.
Qed.

(** ** Calls into SFS *)

Lemma getvolname_super w w' : w_super w w' → sfs_getvolname (w_fs w') = sfs_getvolname (w_fs w).
Proof. unfold w_super, same_super, sfs_getvolname. by intros ->. Qed.

Lemma kstep_on k w w' I :
  kok k → kw_vol k = On w → vol w' I (λ _, 0) → w_super w w' → kstep k (set_vol (On w') k).
Proof.
  intros [_ Hd] E Hv Hs. split; [split; cbn; [by exists I|done]|]. unfold kfses. cbn. by rewrite E, (getvolname_super w w').
Qed.

Lemma sfs_wp {A} (m : stm (world D) A) k w (R : A → world D → Prop) :
  kok k → kw_vol k = On w → pres w_super m →
  swp m w (λ a w', (∃ I, vol w' I (λ _, 0)) ∧ R a w') →
  swp (on_sfs m) k (λ a k', kstep k k' ∧ ∃ w', k' = set_vol (On w') k ∧ R a w').
Proof.
  intros Hok E Hs Hm. pose proof (swp_pres _ _ _ _ Hs Hm) as H. unfold swp, on_sfs in *. rewrite E.
  destruct (m w) as [[a w']| | |]; [|done..]. cbn in *. destruct H as [[[I Hv] HR] Hsup].
  split; [by eapply kstep_on|]. by exists w'.
Qed.

(** Operations that keep the reference counts. *)
Lemma sfs_quiet_wp {A} (m : stm (world D) A) k w :
  kok k → kw_vol k = On w → pres w_super m →
  swp m w (λ a w', (∃ I, vol w' I (λ _, 0)) ∧ refs w' = refs w) →
  swp (on_sfs m) k (λ _ k', kstep k k' ∧ kcounts k' = kcounts k).
Proof.
  intros Hok E Hs Hm. eapply swp_mono; [by apply (sfs_wp m k w (λ _ w', refs w' = refs w))|].
  intros a k' (Hst & w' & -> & Hr). split; [done|]. by eapply kcounts_refs.
Qed.

(** Operations that hand back a vnode. *)
Definition ktakes k (f : option Z) (r q : Z) k' : Prop :=
  kstep k k' ∧ if r =? 0 then VfsLaws.took f (kcounts k) q (kcounts k') else kcounts k' = kcounts k.

Lemma ktook k w w' q :
  kw_vol k = On w → SfsApi.took w q w' →
  VfsLaws.took (Some SFSFS) (kcounts k) (2 * q) (kcounts (set_vol (On w') k)).
Proof.
  intros E (v' & Hr & Hc). unfold VfsLaws.took. rewrite kcounts_even. unfold sfs_counts at 1. rewrite E, lookup_fmap.
  assert (∀ i, sinfo v' = i → kcounts (set_vol (On w') k) = <[2 * q := i]> (kcounts k)) as Hi.
  { intros i <-. apply kcounts_ext.
    - intros q'. unfold sfs_counts at 1. cbn. rewrite Hr, fmap_insert. destruct (decide (q' = q)) as [->|Hne]; [by rewrite !lookup_insert_eq|].
      rewrite !lookup_insert_ne by (done || lia). rewrite kcounts_even. unfold sfs_counts. by rewrite E.
    - intros j. rewrite lookup_insert_ne by lia. by rewrite kcounts_odd. }
  destruct (refs w !! q) as [v|]; cbn [fmap option_fmap option_map].
  - destruct Hc as [-> _]. split; [done|]. by apply Hi.
  - destruct Hc as [H1 H2]. split; [by eexists|]. eexists. apply Hi. unfold sinfo. by rewrite H1, H2.
Qed.

Lemma sfs_takes_wp (m : stm (world D) (Z * Z)) k w :
  kok k → kw_vol k = On w → pres w_super m →
  swp m w (λ '(r, q) w', (∃ I, vol w' I (λ _, 0)) ∧ if r =? 0 then SfsApi.took w q w' else refs w' = refs w) →
  swp ('(r, f) ← on_sfs m; mret (r, 2 * f)) k (λ '(r, q) k', ktakes k (Some SFSFS) r q k').
Proof.
  intros Hok E Hs Hm. apply swp_bind.
  eapply swp_mono; [apply (sfs_wp m k w (λ '(r, q) w', if r =? 0 then SfsApi.took w q w' else refs w' = refs w)); [done..|]|].
  { eapply swp_mono; [exact Hm|]. intros [r q] w' H. exact H. }
  intros [r q] k' (Hst & w' & -> & HR). apply swp_ret. split; [done|]. destruct (r =? 0); [by eapply ktook|by eapply kcounts_refs].
Qed.

(** ** The macros *)

Lemma kget_sfs k w q sv : kw_vol k = On w → w_heap w !! q = Some sv → kget (2 * q) k = Done (up (sv_v sv), k).
Proof.
  intros E Hq. unfold kget. rewrite who_even. unfold on_sfs, mbind, stm_bind, mbind, outcome_bind. rewrite E.
  unfold w_getv, mbind, stm_bind, w_get, mbind, outcome_bind. rewrite Hq. cbn. f_equal. f_equal. unfold set_vol. rewrite <-E. by destruct k.
Qed.

Lemma kget_dev k j v o : kw_devs k !! j = Some (v, o) → kget (2 * j + 1) k = Done (v, k).
Proof. intros Hj. unfold kget. by rewrite who_odd, Hj. Qed.

Lemma kVOP_sfs {A} k w q sv (call : vnode_ops (kworld D) → stm (kworld D) A) (Q : A → kworld D → Prop) :
  kw_vol k = On w → w_heap w !! q = Some sv → vnode_ok sv →
  swp (call (sfs_kops (sfs_table (ops_of (sv_i sv))))) k Q →
  swp (VOP_ (VnodeWorld0 := kern_world devices) (2 * q) call) k Q.
Proof.
  intros E Hq (Hr & Ho & _ & Hops) HQ. unfold VOP_, VOP. apply swp_bind. unfold swp at 1. change (vw_get (2 * q)) with (kget (D := D) (2 * q)).
  rewrite (kget_sfs k w q sv E Hq). cbn [wp]. apply swp_bind, swp_lift. unfold vnode_check, up. cbn. rewrite Hops. cbn.
  rewrite (proj2 (Z.ltb_ge _ _)), (proj2 (Z.eqb_neq _ _)), (proj2 (Z.ltb_ge _ _)) by lia. exact HQ.
Qed.

Lemma kVOP_dev {A} k j v o (call : vnode_ops (kworld D) → stm (kworld D) A) (Q : A → kworld D → Prop) :
  kw_devs k !! j = Some (v, o) → vn_ops v = Some KDev → 1 ≤ vn_refcount v → 0 ≤ vn_opencount v →
  swp (call (dev_vnode_ops kget kincref (kdata devices))) k Q →
  swp (VOP_ (VnodeWorld0 := kern_world devices) (2 * j + 1) call) k Q.
Proof.
  intros Hj Hops Hr Ho HQ. unfold VOP_, VOP. apply swp_bind. unfold swp at 1. change (vw_get (2 * j + 1)) with (kget (D := D) (2 * j + 1)).
  rewrite (kget_dev k j v o Hj). cbn [wp]. apply swp_bind, swp_lift. unfold vnode_check. rewrite Hops.
  rewrite (proj2 (Z.ltb_ge _ _)), (proj2 (Z.eqb_neq _ _)), (proj2 (Z.ltb_ge _ _)) by lia. exact HQ.
Qed.

Lemma at_sfs_wp {A} q (m : Z → stm (kworld D) A) k (Q : A → kworld D → Prop) : swp (m q) k Q → swp (at_sfs (2 * q) m) k Q.
Proof. unfold at_sfs. by rewrite who_even. Qed.

Lemma kstep_refl k : kok k → kstep k k.
Proof. done. Qed.

(** ** The operations *)

Lemma pure_wp {A} (m : stm (fstate D) A) w I q sv :
  vol w I (λ _, 0) → w_heap w !! q = Some sv → swp m (mkF (w_fs w) sv) (λ _ s', s' = mkF (w_fs w) sv) →
  swp (with_file q m) w (λ _ w', (∃ I, vol w' I (λ _, 0)) ∧ refs w' = refs w).
Proof.
  intros Hv Hq Hm. eapply with_file_wp; [done|]. eapply swp_mono; [exact Hm|]. intros a s' ->. cbn [f_fs f_sv]. rewrite put_file_id by done.
  split; [by exists I|done].
Qed.

Lemma ret_wp {A} (a : A) w I : vol w I (λ _, 0) → swp (mret a) w (λ _ w', (∃ I, vol w' I (λ _, 0)) ∧ refs w' = refs w).
Proof. intros Hv. apply swp_ret. split; [by exists I|done]. Qed.

(** The only directory is the root. *)
Lemma dirops_root w I q sv :
  vol w I (λ _, 0) → w_heap w !! q = Some sv → ops_of (sv_i sv) = SfsDirOps → root_vnode w q sv.
Proof.
  intros Hv Hq Ho. split; [done|]. destruct (v_heap _ _ _ Hv q sv Hq) as (_ & _ & HI).
  destruct (decide (sv_ino sv = SFS_ROOT_LOCATION)) as [|Hne]; [done|]. pose proof (v_types _ _ _ Hv _ _ HI Hne) as Ht.
  unfold ops_of in Ho. by rewrite Ht in Ho.
Qed.

Lemma fileops_notroot w I q sv :
  vol w I (λ _, 0) → w_heap w !! q = Some sv → ops_of (sv_i sv) = SfsFileOps → sv_ino sv ≠ SFS_ROOT_LOCATION.
Proof.
  intros Hv Hq Ho Hn. pose proof (root_type _ _ _ _ _ Hv (conj Hq Hn)) as Ht. unfold ops_of in Ho. by rewrite Ht in Ho.
Qed.

Definition kquiet {A} (m : stm (kworld D) A) k : Prop := swp m k (λ _ k', kstep k k' ∧ kcounts k' = kcounts k).

Lemma kquiet_ret {A} (a : A) k : kok k → kquiet (mret a) k.
Proof. intros Hok. by apply swp_ret. Qed.

(** An operation on a vnode, by the kind of the vnode. *)
Lemma k_cases {A} k p i (call : vnode_ops (kworld D) → stm (kworld D) A) (Q : A → kworld D → Prop) :
  kok k → kcounts k !! p = Some i →
  (∀ q w sv I, p = 2 * q → kw_vol k = On w → vol w I (λ _, 0) → w_heap w !! q = Some sv → i = sinfo (sv_v sv) →
     vn_ops (sv_v sv) = Some (ops_of (sv_i sv)) →
     swp (call (sfs_kops (sfs_table (ops_of (sv_i sv))))) k Q) →
  (∀ j v d, p = 2 * j + 1 → kw_devs k !! j = Some (v, Some d) → i = mkInfo (vn_refcount v) (vn_opencount v) None false →
     swp (call (dev_vnode_ops kget kincref (kdata devices))) k Q) →
  swp (VOP_ (VnodeWorld0 := kern_world devices) p call) k Q.
Proof.
  intros Hok Hi Hs Hd. destruct (kcounts_cases k p i Hok Hi) as [(q & w & sv & I & -> & E & Hv & Hq & Hvok & Ei)|(j & v & d & -> & Hj & Ho & Hr & Hc & Ei)].
  - eapply kVOP_sfs; [done..|]. pose proof Hvok as (_ & _ & _ & Hops). by eapply Hs.
  - eapply kVOP_dev; [done..|]. by eapply Hd.
Qed.

Lemma kdata_wp k j v d (Q : device (kworld D) → kworld D → Prop) :
  kw_devs k !! j = Some (v, Some d) → Q (devices d) k → swp (kdata devices (2 * j + 1)) k Q.
Proof. intros Hj HQ. unfold swp, kdata. by rewrite who_odd, Hj. Qed.

Ltac tables := cbn [sfs_table sfs_kops sfs_fileops sfs_dirops vop_open vop_close vop_reclaim vop_readlink vop_gettype vop_truncate
  vop_namefile vop_creat vop_symlink vop_mkdir vop_link vop_remove vop_rmdir vop_rename vop_lookup vop_lookparent].
Ltac sfs_op := tables; apply at_sfs_wp; eapply sfs_quiet_wp; [done|done|by super|].

Lemma k_open k p i flags :
  kok k → kcounts k !! p = Some i → kquiet (VOP_ (VnodeWorld0 := kern_world devices) p (λ ops, vop_open ops p flags)) k.
Proof.
  intros Hok Hi. eapply k_cases; [done|done|..].
  - intros q w sv I -> E Hv Hq _ _. destruct (ops_of (sv_i sv)); cbn [sfs_table sfs_kops sfs_fileops sfs_dirops vop_open].
    + sfs_op. eapply pure_wp; [done|done|]. unfold sfs_open. destruct (negb _); by apply swp_ret.
    + sfs_op. eapply pure_wp; [done|done|]. unfold sfs_opendir. repeat (destruct (negb _); [by apply swp_ret|]). by apply swp_ret.
  - intros j v d -> Hj _. cbn [dev_vnode_ops vop_open]. unfold dev_open. apply swp_bind. eapply kdata_wp; [done|].
    destruct (negb _); [by apply kquiet_ret|]. unfold swp. destruct (inert_open d flags k) as [r ->]. done.
Qed.

Lemma k_truncate k p i :
  kok k → kcounts k !! p = Some i → kquiet (VOP_ (VnodeWorld0 := kern_world devices) p (λ ops, vop_truncate ops p 0)) k.
Proof.
  intros Hok Hi. eapply k_cases; [done|done|..].
  - intros q w sv I -> E Hv Hq _ _. destruct (ops_of (sv_i sv)) eqn:Eo; cbn [sfs_table sfs_kops sfs_fileops sfs_dirops vop_truncate]; sfs_op.
    + eapply swp_mono; [apply (vol_truncate0_wp w I q sv Hv Hq); by eapply fileops_notroot|].
      intros r w' (_ & s' & -> & Ht & Hv' & _). split; [by eexists|].
      destruct Ht as ((_ & (_ & Hsv & _) & _) & _). by eapply refs_put.
    + by eapply ret_wp.
  - intros j v d -> Hj _. cbn [dev_vnode_ops vop_truncate]. unfold dev_truncate. apply swp_bind. eapply kdata_wp; [done|]. by apply kquiet_ret.
Qed.

Lemma k_gettype k p i :
  kok k → kcounts k !! p = Some i →
  swp (VOP_ (VnodeWorld0 := kern_world devices) p (λ ops, vop_gettype ops p)) k (λ '(r, t) k',
    kstep k k' ∧ kcounts k' = kcounts k ∧ (r = 0 → S_ISDIR t = i_dir i)).
Proof.
  intros Hok Hi. eapply k_cases; [done|done|..].
  - intros q w sv I -> E Hv Hq -> Hops.
    assert (swp (on_sfs (with_file q sfs_gettype)) k (λ '(r, t) k', kstep k k' ∧ kcounts k' = kcounts k ∧
      (r = 0 → S_ISDIR t = i_dir (sinfo (sv_v sv))))) as H; [|destruct (ops_of (sv_i sv)); by apply at_sfs_wp].
    eapply swp_mono; [eapply (sfs_wp _ k w (λ '(r, t) w', w' = w ∧ S_ISDIR t = i_dir (sinfo (sv_v sv)))); [done|done|by super|]|].
    + eapply with_file_wp; [done|]. unfold sfs_gettype. apply swp_bind, swp_gets. cbn [f_sv sinfo i_dir]. rewrite Hops. unfold ops_of.
      destruct (Z.eqb_spec (sfi_type (sv_i sv)) SFS_TYPE_FILE) as [Et|Et].
      * apply swp_ret. cbn [f_fs f_sv]. rewrite put_file_id by done. split; [by exists I|done].
      * assert (ops_of (sv_i sv) = SfsDirOps) as Eo by (unfold ops_of; by rewrite (proj2 (Z.eqb_neq _ _) Et)).
        rewrite (root_type _ _ _ _ _ Hv (dirops_root _ _ _ _ Hv Hq Eo)). apply swp_ret. cbn [f_fs f_sv]. rewrite put_file_id by done. split; [by exists I|done].
    + intros [r t] k' (Hst & w' & -> & -> & Ht). split; [done|]. split; [by eapply kcounts_refs|]. done.
  - intros j v d -> Hj ->. cbn [dev_vnode_ops vop_gettype]. unfold dev_gettype. apply swp_bind. eapply kdata_wp; [done|].
    apply swp_ret. split; [done|]. split; [done|]. intros _. by destruct (dv_blocks (devices d) >? 0).
Qed.

(** Operations the file table or both tables refuse. *)
Ltac sfs_refuse := tables; apply at_sfs_wp; eapply sfs_quiet_wp; [done|done|by super|by eapply ret_wp].

Lemma k_namefile k p i u :
  kok k → kcounts k !! p = Some i → kquiet (VOP_ (VnodeWorld0 := kern_world devices) p (λ ops, vop_namefile ops p u)) k.
Proof.
  intros Hok Hi. eapply k_cases; [done|done|..].
  - intros q w sv I -> E Hv Hq _ _. destruct (ops_of (sv_i sv)) eqn:Eo; [sfs_refuse|]. sfs_op.
    eapply pure_wp; [done|done|]. unfold sfs_namefile. apply swp_bind, swp_gets, swp_bind, swp_kassert; [|by apply swp_ret].
    destruct (dirops_root _ _ _ _ Hv Hq Eo) as [_ Hn]. cbn. by rewrite Hn.
  - intros j v d -> Hj _. by apply kquiet_ret.
Qed.

Lemma k_refused {A} k p i (call : vnode_ops (kworld D) → stm (kworld D) A) (a b c : A) :
  kok k → kcounts k !! p = Some i →
  (∀ q, p = 2 * q → call (sfs_kops sfs_fileops) = at_sfs p (λ _, on_sfs (mret a)) ∧
    call (sfs_kops sfs_dirops) = at_sfs p (λ _, on_sfs (mret b))) →
  call (dev_vnode_ops kget kincref (kdata devices)) = mret c →
  kquiet (VOP_ (VnodeWorld0 := kern_world devices) p call) k.
Proof.
  intros Hok Hi Hs Hd. eapply k_cases; [done|done|..].
  - intros q w sv I -> E Hv Hq _ _. destruct (Hs q eq_refl) as [H1 H2]. destruct (ops_of (sv_i sv)); cbn [sfs_table]; [rewrite H1|rewrite H2]; sfs_refuse.
  - intros j v d -> Hj _. rewrite Hd. by apply kquiet_ret.
Qed.

Lemma k_readlink k p i u :
  kok k → kcounts k !! p = Some i → kquiet (VOP_ (VnodeWorld0 := kern_world devices) p (λ ops, vop_readlink ops p u)) k.
Proof. intros Hok Hi. by eapply k_refused. Qed.
Lemma k_symlink k p i a b :
  kok k → kcounts k !! p = Some i → kquiet (VOP_ (VnodeWorld0 := kern_world devices) p (λ ops, vop_symlink ops p a b)) k.
Proof. intros Hok Hi. by eapply k_refused. Qed.
Lemma k_mkdir k p i a :
  kok k → kcounts k !! p = Some i → kquiet (VOP_ (VnodeWorld0 := kern_world devices) p (λ ops, vop_mkdir ops p a)) k.
Proof. intros Hok Hi. by eapply k_refused. Qed.
Lemma k_rmdir k p i a :
  kok k → kcounts k !! p = Some i → kquiet (VOP_ (VnodeWorld0 := kern_world devices) p (λ ops, vop_rmdir ops p a)) k.
Proof. intros Hok Hi. by eapply k_refused. Qed.

Lemma room_sfs k w : kw_vol k = On w → VfsLaws.room 1 (kcounts k) → SfsOps.room w.
Proof.
  intros E Hr q sv Hq. destruct (Hr (2 * q) (sinfo (sv_v sv))) as [H _]; [|cbn in H; lia].
  rewrite kcounts_even, (sfs_counts_on k w q E), Hq. done.
Qed.

Lemma k_remove k p i a :
  kok k → kcounts k !! p = Some i → VfsLaws.room 1 (kcounts k) → kquiet (VOP_ (VnodeWorld0 := kern_world devices) p (λ ops, vop_remove ops p a)) k.
Proof.
  intros Hok Hi Hr. eapply k_cases; [done|done|..].
  - intros q w sv I -> E Hv Hq _ _. destruct (ops_of (sv_i sv)) eqn:Eo; [sfs_refuse|]. sfs_op.
    eapply swp_mono; [apply (sfs_remove_wp w I q sv); [done|by eapply room_sfs|by eapply dirops_root]|].
    intros r w' (I' & Hv' & Hrefs & _). split; [by exists I'|done].
  - intros j v d -> Hj _. by apply kquiet_ret.
Qed.

Lemma k_rename k p1 p2 i j a b :
  kok k → kcounts k !! p1 = Some i → kcounts k !! p2 = Some j → i_dir i = true → i_dir j = true →
  VfsLaws.room 1 (kcounts k) → cstr b →
  kquiet (VOP_ (VnodeWorld0 := kern_world devices) p1 (λ ops, vop_rename ops p1 a p2 b)) k.
Proof.
  intros Hok Hi Hj Hdi Hdj Hr Hb. eapply k_cases; [done|done|..].
  - intros q w sv I -> E Hv Hq -> Hops. destruct (ops_of (sv_i sv)) eqn:Eo; [cbn in Hdi; by rewrite Hops in Hdi|].
    destruct (kcounts_cases k p2 j Hok Hj) as [(q2 & w2 & sv2 & I2 & -> & E2 & _ & Hq2 & (_ & _ & _ & Hops2) & ->)|(? & ? & ? & -> & _ & _ & _ & _ & ->)]; [|done].
    rewrite E in E2. injection E2 as <-. cbn in Hdj. rewrite Hops2 in Hdj. destruct (ops_of (sv_i sv2)) eqn:Eo2; [done|].
    destruct (dirops_root _ _ _ _ Hv Hq Eo) as [_ Hn]. destruct (dirops_root _ _ _ _ Hv Hq2 Eo2) as [_ Hn2].
    assert (q = q2) as <- by (eapply (v_inj _ _ _ Hv); [done|done|congruence]). tables. apply at_sfs_wp. sfs_op.
    eapply swp_mono; [apply (sfs_rename_wp w I q sv); [done|by eapply room_sfs|done|done]|].
    intros r w' (I' & Hv' & Hrefs & _). split; [by exists I'|done].
  - intros j' v d -> Hj' ->. done.
Qed.

Lemma k_link k p1 p2 i j a :
  kok k → kcounts k !! p1 = Some i → kcounts k !! p2 = Some j → i_fs i = Some SFSFS → i_fs j = Some SFSFS → i_dir j = false → cstr a →
  kquiet (VOP_ (VnodeWorld0 := kern_world devices) p1 (λ ops, vop_link ops p1 a p2)) k.
Proof.
  intros Hok Hi Hj Hfi Hfj Hdj Ha. eapply k_cases; [done|done|..].
  - intros q w sv I -> E Hv Hq -> Hops.
    destruct (kcounts_cases k p2 j Hok Hj) as [(q2 & w2 & sv2 & I2 & -> & E2 & _ & Hq2 & (_ & _ & _ & Hops2) & ->)|(? & ? & ? & -> & _ & _ & _ & _ & ->)]; [|done].
    rewrite E in E2. injection E2 as <-. cbn in Hdj. rewrite Hops2 in Hdj. destruct (ops_of (sv_i sv2)) eqn:Eo2; [|done].
    destruct (ops_of (sv_i sv)) eqn:Eo; [tables; apply at_sfs_wp; sfs_refuse|]. tables. apply at_sfs_wp. sfs_op.
    eapply swp_mono; [apply (sfs_link_wp w I q sv a q2 sv2); [done|by eapply dirops_root|done|done|by eapply fileops_notroot]|].
    intros r w' (I' & Hv' & _ & Hrefs & _). split; [by exists I'|done].
  - intros j' v d -> Hj' ->. done.
Qed.

(** ** The counts of a vnode *)

Lemma k_get k p i :
  kok k → kcounts k !! p = Some i →
  ∃ v, kget p k = Done (v, k) ∧ vn_refcount v = i_ref i ∧ vn_opencount v = i_open i ∧ is_Some (vn_ops v).
Proof.
  intros Hok Hi. destruct (kcounts_cases k p i Hok Hi) as [(q & w & sv & I & -> & E & Hv & Hq & (_ & _ & _ & Hops) & ->)|(j & v & d & -> & Hj & Ho & Hr & Hc & ->)].
  - exists (up (sv_v sv)). rewrite (kget_sfs k w q sv E Hq). split_and!; [done..|]. cbn. by rewrite Hops.
  - exists v. rewrite (kget_dev k j v _ Hj). split_and!; [done..|]. by rewrite Ho.
Qed.

Lemma kcounts_set k w w' q i :
  kw_vol k = On w → sinfo <$> refs w' = <[q := i]> (sinfo <$> refs w) →
  kcounts (set_vol (On w') k) = <[2 * q := i]> (kcounts k).
Proof.
  intros E Hr. apply kcounts_ext.
  - intros q'. unfold sfs_counts at 1. cbn. rewrite Hr. destruct (decide (q' = q)) as [->|Hne]; [by rewrite !lookup_insert_eq|].
    rewrite !lookup_insert_ne by (done || lia). rewrite kcounts_even. unfold sfs_counts. by rewrite E.
  - intros j. rewrite lookup_insert_ne by lia. by rewrite kcounts_odd.
Qed.

Lemma k_put k p i v r o :
  kok k → kcounts k !! p = Some i → kget p k = Done (v, k) → 1 ≤ r → 0 ≤ o →
  swp (kput p (mkVnode r o (vn_countlock v) (vn_ops v))) k (λ _ k',
    kstep k k' ∧ kcounts k' = <[p := mkInfo r o (i_fs i) (i_dir i)]> (kcounts k)).
Proof.
  intros Hok Hi Hg Hr Ho. destruct (kcounts_cases k p i Hok Hi) as [(q & w & sv & I & -> & E & Hv & Hq & (_ & _ & Hlk & Hops) & ->)|(j & u & d & -> & Hj & Hops & _ & _ & ->)].
  - rewrite (kget_sfs k w q sv E Hq) in Hg. injection Hg as <-. unfold kput. rewrite who_even. cbn [up vn_countlock vn_ops]. rewrite Hops, Hlk.
    eapply swp_mono; [eapply (sfs_wp _ k w (λ _ w', sinfo <$> refs w' = <[q := mkInfo r o (Some SFSFS) (i_dir (sinfo (sv_v sv)))]> (sinfo <$> refs w))); [done|done|by super|]|].
    + unfold w_putv. apply swp_bind. eapply w_get_wp; [done|]. eapply w_put_wp; [done|]. split.
      * exists I. apply (vol_setv w I (λ _, 0) q sv); [done|done|]. by split_and!.
      * unfold refs, put_file. cbn. rewrite !fmap_insert. unfold sinfo. cbn. by rewrite Hops.
    + intros [] k' (Hst & w' & -> & HR). split; [done|]. cbn. by apply (kcounts_set k w).
  - rewrite (kget_dev k j u _ Hj) in Hg. injection Hg as <-. unfold swp, kput. rewrite who_odd, Hj. cbn [wp]. split.
    + destruct Hok as [Hv Hd]. split; [|done]. split; [done|]. cbn. intros j' v' o' Hj'.
      destruct (decide (j' = j)) as [->|Hne]; [|rewrite lookup_insert_ne in Hj' by done; by eapply Hd].
      rewrite lookup_insert_eq in Hj'. injection Hj' as <- <-. destruct (Hd j u _ Hj) as (? & _). done.
    + cbn. apply kcounts_ext.
      * intros q. rewrite lookup_insert_ne by lia. by rewrite kcounts_even.
      * intros j'. unfold dev_counts. cbn. rewrite lookup_omap. destruct (decide (j' = j)) as [->|Hne]; [by rewrite !lookup_insert_eq|].
        rewrite !lookup_insert_ne by (done || lia). rewrite kcounts_odd. unfold dev_counts. by rewrite lookup_omap.
Qed.

Lemma k_incref k p i :
  kok k → kcounts k !! p = Some i → i_ref i + 1 ≤ INT_MAX →
  swp (kincref p) k (λ _ k', kstep k k' ∧ kcounts k' = <[p := VfsLaws.addref 1 i]> (kcounts k)).
Proof.
  intros Hok Hi Hmax. destruct (k_get k p i Hok Hi) as (v & Hv & Hr & Ho & _).
  assert (1 ≤ i_ref i ∧ 0 ≤ i_open i) as [H1 H2].
  { destruct (kcounts_cases k p i Hok Hi) as [(q & w & sv & I & -> & _ & _ & _ & (? & ? & _) & ->)|(j & u & d & -> & _ & _ & ? & ? & ->)]; done. }
  unfold kincref. apply swp_bind. unfold swp at 1. rewrite Hv. cbn [wp]. apply swp_bind, swp_lift. unfold vnode_incref.
  apply wp_bind, wp_to_int; [unfold INT_MIN, INT_MAX in *; lia|]. rewrite Hr, Ho. cbn [wp]. apply (k_put k p i v); [done|done|done|lia|lia].
Qed.

(** ** Operations that hand back a vnode *)

Lemma refused_takes k w I (f : option Z) r q :
  kok k → kw_vol k = On w → vol w I (λ _, 0) → r ≠ 0 →
  swp ('(r, f) ← on_sfs (mret (r, q)); mret (r, 2 * f)) k (λ '(r, q) k', ktakes k (Some SFSFS) r q k').
Proof.
  intros Hok E Hv Hr. eapply sfs_takes_wp; [done|done|by super|]. apply swp_ret. rewrite (proj2 (Z.eqb_neq _ _) Hr). split; [by exists I|done].
Qed.

Lemma k_creat k p i a excl :
  kok k → kcounts k !! p = Some i → VfsLaws.room 1 (kcounts k) → cstr a →
  swp (VOP_ (VnodeWorld0 := kern_world devices) p (λ ops, vop_creat ops p a excl)) k (λ '(r, q) k', ktakes k (i_fs i) r q k').
Proof.
  intros Hok Hi Hr Ha. eapply k_cases; [done|done|..].
  - intros q w sv I -> E Hv Hq -> _. destruct (ops_of (sv_i sv)) eqn:Eo; tables; apply at_sfs_wp; [by eapply refused_takes|].
    eapply sfs_takes_wp; [done|done|by super|].
    eapply swp_mono; [apply (sfs_creat_wp w I q sv a excl); [done|by eapply room_sfs|by eapply dirops_root|done]|].
    intros [r f] w' (I' & Hv' & _ & Hc). split; [by exists I'|].
    destruct Hc as [(-> & _ & _ & _ & n & sv' & _ & _ & ?)|[(-> & _ & n & sv' & _ & _ & _ & _ & _ & _ & _ & ? & _)|(Hrefs & _ & _ & Hc)]]; [done|done|].
    destruct (Z.eqb_spec r 0) as [->|]; [|done]. by destruct Hc as [(? & _)|[?|(_ & [(? & _)|[?|?]])]].
  - intros j v d -> Hj ->. by apply swp_ret.
Qed.

Lemma k_lookup k p i a :
  kok k → kcounts k !! p = Some i → VfsLaws.room 1 (kcounts k) → cstr a →
  swp (VOP_ (VnodeWorld0 := kern_world devices) p (λ ops, vop_lookup ops p a)) k (λ '(r, q) k', ktakes k (i_fs i) r q k').
Proof.
  intros Hok Hi Hr Ha. eapply k_cases; [done|done|..].
  - intros q w sv I -> E Hv Hq -> _. destruct (ops_of (sv_i sv)) eqn:Eo; tables; apply at_sfs_wp; [by eapply refused_takes|].
    eapply sfs_takes_wp; [done|done|by super|].
    eapply swp_mono; [apply (sfs_lookup_wp w I q sv a); [done|by eapply room_sfs|by eapply dirops_root]|].
    intros [r f] w' (Hv' & _ & _ & Hc). split; [by exists I|].
    destruct Hc as [(-> & ? & _)|[(-> & ?)|(-> & n & sv' & _ & _ & ?)]]; done.
  - intros j v d -> Hj ->. cbn [dev_vnode_ops vop_lookup i_fs]. unfold dev_lookup. destruct (0 <? Z.of_nat (length a)); [by apply swp_ret|].
    apply swp_bind. destruct (Hr _ _ Hi) as [Hmax _]. eapply swp_mono; [by apply (k_incref k _ _ Hok Hi)|]. intros [] k' [Hst Hc].
    apply swp_ret. split; [done|]. cbn [Z.eqb]. unfold VfsLaws.took. by rewrite Hi.
Qed.

Lemma k_lookparent k p i a len :
  kok k → kcounts k !! p = Some i → VfsLaws.room 1 (kcounts k) → cstr a →
  swp (VOP_ (VnodeWorld0 := kern_world devices) p (λ ops, vop_lookparent ops p a len)) k (λ '(r, q, name) k',
    ktakes k (i_fs i) r q k' ∧ cstr name ∧ (r = 0 → ∀ j, kcounts k' !! q = Some j → i_dir j = true)).
Proof.
  intros Hok Hi Hr Ha. eapply k_cases; [done|done|..].
  - intros q w sv I -> E Hv Hq -> Hops. destruct (ops_of (sv_i sv)) eqn:Eo; tables; apply at_sfs_wp; apply swp_bind.
    { eapply swp_mono; [eapply (sfs_wp _ k w (λ '(r, q, name) w', r = ENOTDIR ∧ name = [] ∧ refs w' = refs w)); [done|done|by super|]|].
      - apply swp_ret. split; [by exists I|done].
      - intros [[r f] name] k' (Hst & w' & -> & -> & -> & Hrefs). apply swp_ret. split; [|by split; [constructor|]]. split; [done|]. by eapply kcounts_refs. }
    pose proof (dirops_root _ _ _ _ Hv Hq Eo) as Hroot. destruct (v_heap _ _ _ Hv q sv Hq) as (_ & Hvok & _).
    pose proof (room_sfs k w E Hr q sv Hq) as Hmax.
    eapply swp_mono; [eapply (sfs_wp _ k w (λ '(r, f, name) w', if r =? 0 then f = q ∧ name = a ∧ w' = put_file w (w_fs w) q (SfsOps.addref sv 1) else name = [] ∧ w' = w)); [done|done|by super|]|].
    + unfold sfs_lookparent. apply swp_bind. eapply w_get_wp; [done|]. rewrite (root_type _ _ _ _ _ Hv Hroot). cbn [negb Z.eqb Pos.eqb SFS_TYPE_DIR].
      destruct (_ >? len); [apply swp_ret; split; [by exists I|done]|]. apply swp_bind. eapply sfs_incref_wp; [done|done|done|].
      apply swp_ret. split; [|done]. exists I. apply (vol_setv w I (λ _, 0) q sv); [done|done|]. by apply addref_ok.
    + intros [[r f] name] k' (Hst & w' & -> & HR). apply swp_ret. destruct (Z.eqb_spec r 0) as [->|Hr0].
      * destruct HR as (-> & -> & ->). assert (kcounts (set_vol (On (put_file w (w_fs w) q (SfsOps.addref sv 1))) k) =
          <[2 * q := VfsLaws.addref 1 (sinfo (sv_v sv))]> (kcounts k)) as Hc.
        { apply (kcounts_set k w); [done|]. unfold refs, put_file. cbn. by rewrite !fmap_insert. }
        split; [split; [done|]; cbn [Z.eqb]; unfold VfsLaws.took; by rewrite Hi|]. split; [done|].
        intros _ j. rewrite Hc, lookup_insert_eq. intros [= <-]. cbn. by rewrite Hops.
      * destruct HR as [-> ->]. split; [split; [done|rewrite (proj2 (Z.eqb_neq _ _) Hr0); by eapply kcounts_refs]|]. by split; [constructor|].
  - intros j v d -> Hj ->. apply swp_ret. split; [done|]. by split; [constructor|].
Qed.

(** ** Closing and reclaiming *)

Lemma k_close k p i v ops :
  kok k → kcounts k !! p = Some i → kget p k = Done (v, k) → vn_ops v = Some ops →
  kquiet (vop_close (vw_table (VnodeWorld := kern_world devices) ops) p) k.
Proof.
  intros Hok Hi Hg Hv. destruct (kcounts_cases k p i Hok Hi) as [(q & w & sv & I & -> & E & Hvol & Hq & Hvok & ->)|(j & u & d & -> & Hj & Hops & _ & _ & ->)].
  - pose proof Hvok as (_ & _ & _ & Hops).
    rewrite (kget_sfs k w q sv E Hq) in Hg. injection Hg as <-. cbn in Hv. rewrite Hops in Hv. injection Hv as <-.
    assert (swp (sfs_close q) w (λ _ w', (∃ I, vol w' I (λ _, 0)) ∧ refs w' = refs w)) as H.
    { unfold sfs_close. apply (VOP_wp w q sv); [done|done|]. eapply swp_mono.
      { unfold sfs_vop_fsync, sfs_fsync. destruct (ops_of (sv_i sv)); exact (vol_sync_wp w I (λ _, 0) q sv Hvol Hq). }
      intros r w' (_ & fs' & -> & Hv' & _). split; [by exists I|]. by apply (refs_put w _ q sv (mkSv (sv_v sv) (sv_i sv) (sv_ino sv) false)). }
    destruct (ops_of (sv_i sv)); cbn [vw_table kern_world]; sfs_op; exact H.
  - rewrite (kget_dev k j u _ Hj) in Hg. injection Hg as <-. rewrite Hops in Hv. injection Hv as <-.
    cbn [vw_table kern_world dev_vnode_ops vop_close]. unfold dev_close. apply swp_bind. eapply kdata_wp; [done|].
    unfold swp. destruct (inert_close d k) as [r ->]. done.
Qed.

Lemma kcounts_del k w w' q :
  kw_vol k = On w → w_heap w' = delete q (w_heap w) → kcounts (set_vol (On w') k) = delete (2 * q) (kcounts k).
Proof.
  intros E Hh. apply kcounts_ext.
  - intros q'. unfold sfs_counts at 1, refs. cbn. rewrite Hh, !lookup_fmap. destruct (decide (q' = q)) as [->|Hne]; [by rewrite !lookup_delete_eq|].
    rewrite !lookup_delete_ne by (done || lia). rewrite kcounts_even. unfold sfs_counts, refs. by rewrite E, !lookup_fmap.
  - intros j. rewrite lookup_delete_ne by lia. by rewrite kcounts_odd.
Qed.

Lemma k_reclaim k p f d v ops :
  kok k → kcounts k !! p = Some (mkInfo 1 0 (Some f) d) → kget p k = Done (v, k) → vn_ops v = Some ops →
  swp (vop_reclaim (vw_table (VnodeWorld := kern_world devices) ops) p) k (λ _ k', kstep k k' ∧ kcounts k' = delete p (kcounts k)).
Proof.
  intros Hok Hi Hg Hv. destruct (kcounts_cases k p _ Hok Hi) as [(q & w & sv & I & -> & E & Hvol & Hq & Hvok & Ei)|(? & ? & ? & -> & _ & _ & _ & _ & ?)]; [|done].
  pose proof Hvok as (_ & _ & _ & Hops). injection Ei as Er Eo _ _.
  rewrite (kget_sfs k w q sv E Hq) in Hg. injection Hg as <-. cbn in Hv. rewrite Hops in Hv. injection Hv as <-.
  assert (swp (sfs_reclaim q) w (λ _ w', (∃ I, vol w' I (λ _, 0)) ∧ w_heap w' = delete q (w_heap w))) as H.
  { eapply (swp_mono _ _ (λ r w', r = 0 ∧ reclaim_post w I q sv w')).
    - destruct (decide (sfi_linkcount (sv_i sv) = 0)); [by apply reclaim_orphan_wp|by apply reclaim_named_wp].
    - intros r w' (_ & Hh & Hv' & _). split; [by eexists|done]. }
  assert (swp (on_sfs (sfs_reclaim q)) k (λ _ k', kstep k k' ∧ kcounts k' = delete (2 * q) (kcounts k))) as H2.
  { eapply swp_mono; [eapply (sfs_wp _ k w (λ _ w', w_heap w' = delete q (w_heap w))); [done|done|by super|exact H]|].
    intros r k' (Hst & w' & -> & Hh). split; [done|]. by eapply kcounts_del. }
  destruct (ops_of (sv_i sv)); by apply at_sfs_wp.
Qed.

(** ** The filesystem *)

Lemma kfses_on k fs : is_Some (kfses k !! fs) → ∃ w, kw_vol k = On w ∧ fs = SFSFS.
Proof.
  unfold kfses. destruct (kw_vol k) as [|w]; [by intros [? ?]|]. intros H%lookup_singleton_is_Some. by exists w.
Qed.

Lemma k_volname k fs nm : kok k → kfses k !! fs = Some nm → FSOP (VnodeWorld0 := kern_world devices) fs fs_getvolname k = Done (nm, k).
Proof.
  intros Hok Hf. destruct (kfses_on k fs) as (w & E & ->); [by rewrite Hf|]. unfold kfses in Hf. rewrite E, lookup_singleton_eq in Hf. injection Hf as <-.
  change (on_sfs (gets (λ w, Some (sfs_getvolname (w_fs w)))) k = Done (Some (sfs_getvolname (w_fs w)), k)).
  unfold on_sfs. rewrite E. cbn. f_equal. f_equal. unfold set_vol. rewrite <-E. by destruct k.
Qed.

Lemma k_getroot k fs :
  kok k → is_Some (kfses k !! fs) → VfsLaws.room 1 (kcounts k) →
  swpp True (FSOP (VnodeWorld0 := kern_world devices) fs fs_getroot) k (λ q k', kstep k k' ∧ VfsLaws.took (Some fs) (kcounts k) q (kcounts k')).
Proof.
  intros Hok Hf Hr. destruct (kfses_on k fs Hf) as (w & E & ->). pose proof Hok as [Hvol _]. rewrite E in Hvol. destruct Hvol as [I Hv].
  destruct (v_root _ _ _ Hv) as ([i Hi] & _). unfold FSOP. apply swpp_bind, swpp_ret. cbn [fs_getroot kfsops].
  apply swpp_bind. pose proof (sfs_loadvnode_wp w I (λ _, 0) _ i Hv (room_sfs k w E Hr) Hi) as Hl.
  pose proof (swp_pres w_super _ _ _ (super_loadvnode _ _) Hl) as Hl2. unfold swpp, on_sfs. rewrite E.
  unfold sfs_getroot, mbind, stm_bind, mbind, outcome_bind. unfold swp in Hl2.
  destruct (sfs_loadvnode SFS_ROOT_LOCATION SFS_TYPE_INVAL w) as [[[r q] w']| | |]; [|done..]. destruct Hl2 as [(Hv' & _ & Hpost) Hs].
  destruct (Z.eqb_spec r 0) as [->|]; cbn; [|done]. split; [by eapply kstep_on|]. eapply ktook; [done|]. by eapply load_took.
Qed.

Lemma k_sync k fs :
  kok k → is_Some (kfses k !! fs) →
  swp (FSOP (VnodeWorld0 := kern_world devices) fs fs_sync) k (λ r k', kstep k k' ∧ kcounts k' = kcounts k ∧ (r = 0 → ksynced fs k')).
Proof.
  intros Hok Hf. destruct (kfses_on k fs Hf) as (w & E & ->). pose proof Hok as [Hvol _]. rewrite E in Hvol. destruct Hvol as [I Hv].
  unfold FSOP. apply swp_bind, swp_ret. cbn [fs_sync kfsops].
  eapply swp_mono; [eapply (sfs_wp _ k w (λ _ w', refs w' = refs w ∧ sfs_superdirty (w_fs w') = false ∧ sfs_freemapdirty (w_fs w') = false ∧
    ∃ I, vol w' I (λ _, 0) ∧ ∀ n i, I !! n = Some i → sect (dsk (w_fs w')) n = encode_inode i)); [done|done|by super|]|].
  - eapply swp_mono; [by apply (sfs_sync_wp w I)|]. intros r w' (_ & Hv' & _ & Hrefs & Hsd & Hfd & Hd). split; [by exists I|]. by eauto 6.
  - intros r k' (Hst & w' & -> & Hrefs & Hsd & Hfd & HI). split; [done|]. split; [by eapply kcounts_refs|]. done.
Qed.

(** What an unmounted volume leaves on the disk can be mounted. *)
Lemma synced_image w I :
  vol w I (λ _, 0) → sfs_superdirty (w_fs w) = false → sfs_freemapdirty (w_fs w) = false →
  (∀ n i, I !! n = Some i → sect (dsk (w_fs w)) n = encode_inode i) → image (sfs_device (w_fs w)).
Proof.
  intros Hv Hsd Hfd Hdisk. destruct (synced_fits w I Hv Hsd) as (Hd & H0 & Hfit & _). split_and!; [done..|].
  intros fs mem _ Hp. exists (named I). apply (sync_survives w w I fs mem); done.
Qed.

Lemma k_unmount k fs :
  kok k → is_Some (kfses k !! fs) → ksynced fs k →
  swp (FSOP (VnodeWorld0 := kern_world devices) fs fs_unmount) k (λ r k', kok k' ∧ kcounts k' = kcounts k ∧
    kfses k' = (if r =? 0 then delete fs (kfses k) else kfses k) ∧
    (r = 0 ∨ ∃ p i, kcounts k !! p = Some i ∧ i_fs i = Some fs)).
Proof.
  intros Hok Hf Hsy. destruct (kfses_on k fs Hf) as (w & E & ->). unfold ksynced in Hsy. rewrite E in Hsy.
  destruct Hsy as (Hsd & Hfd & I & Hv & Hdisk). unfold FSOP. apply swp_bind, swp_ret. cbn [fs_unmount kfsops]. unfold swp. rewrite E.
  unfold sfs_unmount. destruct (v_table _ _ _ Hv) as (l & Hl & _ & Hin). unfold array_getnum. rewrite (array_repr_num _ _ Hl).
  destruct (Z.gtb_spec (Z.of_nat (length l)) 0).
  { split_and!; [done..|]. right. destruct l as [|p l]; [done|]. destruct (proj1 (Hin p) ltac:(by left)) as [sv Hsv].
    exists (2 * p), (sinfo (sv_v sv)). by rewrite kcounts_even, (sfs_counts_on k w p E), Hsv. }
  destruct l; [|cbn in *; lia]. rewrite Hsd, Hfd. cbn.
  assert (w_heap w = ∅) as Hh.
  { apply map_empty. intros p. apply eq_None_not_Some. rewrite <-Hin. apply not_elem_of_nil. }
  split; [split; [|apply Hok]; cbn; by eapply synced_image|]. split.
  - unfold kcounts, sfs_counts, refs, dev_counts. cbn. by rewrite E, Hh, !fmap_empty.
  - split; [|by left]. unfold kfses. rewrite E. symmetry. apply delete_singleton_eq.
Qed.

(** ** Device vnodes *)

Lemma dev_counts_insert k j x (m : gmap Z (vnode kops * option Z)) next mem :
  kw_devs k !! j = None → m = <[j := x]> (kw_devs k) →
  kcounts (mkKw (kw_vol k) m next mem) = match dinfo x with Some i => <[2 * j + 1 := i]> (kcounts k) | None => kcounts k end.
Proof.
  intros Hj ->. apply kcounts_ext.
  - intros q. destruct (dinfo x); [rewrite lookup_insert_ne by lia|]; by rewrite kcounts_even.
  - intros j'. unfold dev_counts. cbn. rewrite lookup_omap. destruct (decide (j' = j)) as [->|Hne].
    + rewrite lookup_insert_eq. cbn. destruct (dinfo x); [by rewrite lookup_insert_eq|]. rewrite kcounts_odd. unfold dev_counts. by rewrite lookup_omap, Hj.
    + rewrite lookup_insert_ne by done. destruct (dinfo x); [rewrite lookup_insert_ne by lia|]; rewrite kcounts_odd; unfold dev_counts; by rewrite lookup_omap.
Qed.

Lemma k_newdev k dev :
  kok k → swp (vw_newdev (VnodeWorld := kern_world devices) (mkVnode 1 0 true (Some KDev)) dev) k (λ p k', p ≠ 0 ∧ kstep k k' ∧
    match dev with
    | Some _ => kcounts k !! p = None ∧ kcounts k' = <[p := mkInfo 1 0 None false]> (kcounts k)
    | None => kcounts k' = kcounts k ∧ khollow p k'
    end).
Proof.
  intros [Hv Hd]. unfold swp. cbn [vw_newdev kern_world wp].
  assert (kw_devs k !! kw_next k = None) as Hnew.
  { destruct (kw_devs k !! kw_next k) as [[v o]|] eqn:E; [|done]. destruct (Hd _ _ _ E). lia. }
  split; [lia|]. split.
  - split; [|done]. split; [done|]. cbn. intros j v o Hj. destruct (decide (j = kw_next k)) as [->|Hne].
    + rewrite lookup_insert_eq in Hj. injection Hj as <- <-. cbn. split_and!; [lia..|done].
    + rewrite lookup_insert_ne in Hj by done. destruct (Hd _ _ _ Hj) as (? & ?). split; [lia|done].
  - pose proof (dev_counts_insert k (kw_next k) (mkVnode 1 0 true (Some KDev), dev) _ (kw_next k + 1) (kw_mem k) Hnew eq_refl) as Hc.
    destruct dev as [d|]; cbn in Hc.
    + split; [|done]. rewrite kcounts_odd. unfold dev_counts. by rewrite lookup_omap, Hnew.
    + split; [done|]. exists (kw_next k), (mkVnode 1 0 true (Some KDev)). rewrite who_odd. cbn. by rewrite lookup_insert_eq.
Qed.

Lemma kok_free k j : kok k → kstep k (set_devs (delete j (kw_devs k)) k).
Proof. intros [Hv Hd]. split; [|done]. split; [done|]. cbn. intros j' v o [_ Hj]%lookup_delete_Some. by eapply Hd. Qed.

Lemma k_freedev k p :
  kok k → kcounts k !! p = Some (mkInfo 1 0 None false) →
  swp (vw_freedev (VnodeWorld := kern_world devices) p) k (λ _ k', kstep k k' ∧ kcounts k' = delete p (kcounts k)).
Proof.
  intros Hok Hi. destruct (kcounts_cases k p _ Hok Hi) as [(? & ? & ? & ? & -> & _ & _ & _ & _ & ?)|(j & v & d & -> & Hj & _)]; [done|].
  unfold swp. cbn [vw_freedev kern_world]. rewrite who_odd, Hj. cbn [wp]. split; [by apply kok_free|]. apply kcounts_ext.
  - intros q. rewrite lookup_delete_ne by lia. by rewrite kcounts_even.
  - intros j'. unfold dev_counts. cbn. rewrite lookup_omap. destruct (decide (j' = j)) as [->|Hne]; [by rewrite !lookup_delete_eq|].
    rewrite !lookup_delete_ne by (done || lia). rewrite kcounts_odd. unfold dev_counts. by rewrite lookup_omap.
Qed.

Lemma k_freehollow k p : kok k → khollow p k → kquiet (vw_freedev (VnodeWorld := kern_world devices) p) k.
Proof.
  intros Hok (j & v & Hw & Hj). unfold kquiet, swp. cbn [vw_freedev kern_world]. rewrite Hw, Hj. cbn [wp]. split; [by apply kok_free|]. apply kcounts_ext.
  - intros q. by rewrite kcounts_even.
  - intros j'. rewrite kcounts_odd. unfold dev_counts. cbn. rewrite !lookup_omap. destruct (decide (j' = j)) as [->|Hne]; [by rewrite lookup_delete_eq, Hj|].
    by rewrite lookup_delete_ne by done.
Qed.

Lemma k_kmalloc k :
  kok k → swp (vw_kmalloc (VnodeWorld := kern_world devices)) k (λ _ k', kstep k k' ∧ kcounts k' = kcounts k ∧ ∀ p, khollow p k → khollow p k').
Proof. intros Hok. unfold swp. cbn [vw_kmalloc kern_world]. by destruct (kw_mem k). Qed.

Lemma k_range k p i :
  kok k → kcounts k !! p = Some i →
  1 ≤ i_ref i ∧ 0 ≤ i_open i ∧ (i_dir i = true → is_Some (i_fs i)) ∧ ∀ fs, i_fs i = Some fs → is_Some (kfses k !! fs).
Proof.
  intros Hok Hi. destruct (kcounts_cases k p i Hok Hi) as [(q & w & sv & I & -> & E & Hv & Hq & (? & ? & _ & _) & ->)|(j & v & d & -> & Hj & Ho & Hr & Hc & ->)].
  - split_and!; [done|done|by eexists|]. intros fs [= <-]. unfold kfses. rewrite E, lookup_singleton_eq. by eexists.
  - by split_and!.
Qed.

Lemma k_vnfs k p i : kok k → kcounts k !! p = Some i → vw_vnfs (VnodeWorld := kern_world devices) p k = Done (i_fs i, k).
Proof.
  intros Hok Hi. destruct (kcounts_cases k p i Hok Hi) as [(q & w & sv & I & -> & _ & _ & _ & _ & ->)|(j & v & d & -> & _ & _ & _ & _ & ->)];
    cbn [vw_vnfs kern_world]; [by rewrite who_even|by rewrite who_odd].
Qed.

#[export] Instance kern_laws : VnodeLaws (VnodeWorld0 := kern_world devices) (kworld D) kops True.
Proof.
  refine {| vw_ok := kok; counts := kcounts; fses := kfses; synced := ksynced; hollow := khollow |}.
  - apply k_range.
  - apply k_get.
  - apply k_put.
  - apply k_vnfs.
  - apply k_reclaim.
  - intros k p v ops Hok [i Hi]. by eapply k_close.
  - intros k p flags Hok [i Hi]. by eapply k_open.
  - intros k p Hok [i Hi]. by eapply k_truncate.
  - apply k_gettype.
  - intros k p u Hok [i Hi] _. by eapply k_namefile.
  - intros k p u Hok [i Hi]. by eapply k_readlink.
  - intros k p a b Hok [i Hi]. by eapply k_symlink.
  - intros k p a Hok [i Hi]. by eapply k_mkdir.
  - intros k p a Hok [i Hi]. by eapply k_rmdir.
  - intros k p a Hok [i Hi] Hr _. by eapply k_remove.
  - intros k p q i j a b fs Hok Hi Hj _ _ Hdi Hdj Hr _ Hb. by eapply k_rename.
  - intros k p q i j a fs Hok Hi Hj Hfi Hfj Hd Ha. destruct (k_range k p i Hok Hi) as (_ & _ & _ & Hfs).
    destruct (kfses_on k fs (Hfs fs Hfi)) as (w & _ & ->). by eapply k_link.
  - intros k p i a excl Hok Hi Hr Ha. by apply k_creat.
  - intros k p i a Hok Hi Hr Ha. by apply k_lookup.
  - intros k p i a len Hok Hi Hr Ha. by apply k_lookparent.
  - apply k_volname.
  - apply k_getroot.
  - apply k_sync.
  - apply k_unmount.
  - apply k_kmalloc.
  - apply k_newdev.
  - apply k_freedev.
  - apply k_freehollow.
Defined.
End laws.
