(* ===== verification/KernVfs.v ===== *)
(** * Mounting and unmounting through the VFS layer

    [vfs_unmount] and [vfs_mount] on a kernel with an SFS volume: when nothing
    uses the volume it is unmounted, and mounting it again gives it back.  A
    concrete kernel, with the null device and a mounted disk. *)

From S2P Require Import Prelude Array Bitmap Copyinout Uio SfsDisk Dev Vnode SfsIo SfsFile Lhd SfsRw.
From S2P Require Import SfsDir SfsNames SfsVnode SfsFs SfsTrunc SfsVol SfsOps SfsExample SfsApi SfsSync SfsSuper.
From S2P Require Import Device Vfs VfsLaws VfsPath VfsInv VfsOps VfsTable VfsAdd VfsRun KernWorld.

Section kvfs.
Context {D : Type} `{!BlockDev D} `{!Disk D} {cs : CurSpace} (devices : Z → device (kworld D)) `{!Inert devices}.
Implicit Types (k : kworld D) (w : world D) (s : vfs (kworld D)).
#[local] Instance this_world : VnodeWorld (kworld D) kops := kern_world devices.
#[local] Instance these_laws : VnodeLaws (kworld D) kops True := kern_laws devices.

(** Reading a disk leaves what is on it. *)
Lemma image_upd d d' : dev_upd d d' (d_data d) → image d → image d'.
Proof.
  intros (Hd' & Hdat & Hn) (Hd & H0 & Hfit & Hvol).
  assert (disk_super d' = disk_super d) as Hs by (unfold disk_super; by rewrite Hdat).
  split_and!; [done|lia|unfold fits_device in *; by rewrite Hs, Hn|]. intros fs mem Hm (P1 & P2 & P3 & P4).
  apply Hvol; [by rewrite <-Hs|]. split; [by rewrite <-Hs|]. split; [done|]. split; [|done].
  destruct P3 as (? & ? & ?). split_and!; congruence.
Qed.

(** [sfs_mount] on the disk, and on another device. *)
Lemma kmount_wp garbage k dev :
  kok k → (dev = DISK → ∃ d mem, kw_vol k = Off d mem) → (dev ≠ DISK → dv_blocksize (devices dev) ≠ SFS_BLOCKSIZE) →
  swp (kmount devices garbage dev) k (λ '(r, fs) k', mount_done k r fs k').
Proof.
  intros Hok Hoff Hbs. unfold swp, kmount. destruct (Z.eqb_spec dev DISK) as [->|Hne]; cbn [negb].
  2: { specialize (Hbs Hne). apply Z.eqb_neq in Hbs. rewrite Hbs. done. }
  destruct (Hoff eq_refl) as (d & mem & E). pose proof Hok as [Himg Hdevs]. rewrite E in Himg |- *.
  destruct Himg as (Hd & H0 & Hfit & Hvol). apply wp_bind. eapply wp_mono; [by apply sfs_domount_wp|].
  intros [[r ofs] d'] [Hupd H]. cbn [wp].
  assert (ofs = None → r ≠ 0 → mount_done k r None (set_vol (Off d' (drop 4 mem)) k)) as Hfail.
  { intros _ Hr. split; [split; [|exact Hdevs]; cbn; by eapply image_upd|].
    unfold kfses. cbn. rewrite (proj2 (Z.eqb_neq _ _) Hr). cbn. unfold kcounts, sfs_counts, kfses. cbn. by rewrite E. }
  destruct (negb _); [destruct H as [-> ->]; by apply Hfail|].
  case_decide as Hm; [|destruct H as [-> ->]; by apply Hfail].
  destruct (negb _); [destruct H as [-> ->]; by apply Hfail|].
  destruct H as (-> & fs & -> & <- & Hp). split; [|split].
  - split; [|exact Hdevs]. cbn. by eapply Hvol.
  - cbn. unfold kcounts, sfs_counts, refs, dev_counts. cbn. by rewrite E, !fmap_empty.
  - cbn. exists SFSFS, (Some (sfs_getvolname fs)). unfold kfses. cbn. by rewrite E.
Qed.

(** Unmounting: the sync succeeds, and so does [sfs_unmount] when no vnode is in memory. *)
Lemma k_sync_off k w I :
  kok k → kw_vol k = On w → vol w I (λ _, 0) →
  ∃ w', FSOP SFSFS fs_sync k = Done (0, set_vol (On w') k) ∧ vol w' I (λ _, 0) ∧ same_files ∅ w w' I I ∧
    sfs_superdirty (w_fs w') = false ∧ sfs_freemapdirty (w_fs w') = false ∧
    ∀ n i, I !! n = Some i → sect (dsk (w_fs w')) n = encode_inode i.
Proof.
  intros Hok E Hv. pose proof (sfs_sync_wp w I Hv) as Hs. unfold swp in Hs.
  change (FSOP SFSFS fs_sync k) with (on_sfs sfs_sync k). unfold on_sfs. rewrite E.
  destruct (sfs_sync w) as [[r w']| | |]; [|done..]. destruct Hs as (-> & Hv' & Hsf & _ & Hsd & Hfd & Hd). by exists w'.
Qed.

Lemma k_unmount_off k w k' :
  kw_vol k = On w → FSOP SFSFS fs_unmount k = Done (0, k') → kw_vol k' = Off (sfs_device (w_fs w)) (w_mem w).
Proof.
  intros E. change (FSOP SFSFS fs_unmount k) with (fs_unmount kfsops k). unfold kfsops. cbn [fs_unmount]. rewrite E.
  destruct (sfs_unmount (w_fs w)) as [r| | |]; [|done..]. cbn. intros [= -> <-]. done.
Qed.

Lemma kmount_off garbage k d mem r o k' :
  image d → sp_magic (disk_super d) = SFS_MAGIC → kw_vol k = Off d mem →
  kmount devices garbage DISK k = Done ((r, o), k') →
  if r =? 0 then ∃ fs mem', mount_post d fs ∧ kw_vol k' = On (mkW fs ∅ 0 mem') else r = ENOMEM.
Proof.
  intros (Hd & H0 & Hfit & _) Hmg E. unfold kmount. rewrite E. cbn [Z.eqb DISK Pos.eqb negb].
  pose proof (sfs_domount_wp (default false (mem !! 0%nat)) (default false (mem !! 1%nat)) (default false (mem !! 2%nat))
    (default false (mem !! 3%nat)) garbage d Hd H0 Hfit) as H.
  destruct (sfs_domount _ _ _ _ garbage d) as [[[r' ofs] d']| | |]; [|done..]. destruct H as [_ H].
  unfold mbind, outcome_bind. rewrite decide_True in H by done.
  destruct (negb _); [destruct H as [-> ->]; by intros [= <- <- <-]|].
  destruct (negb _); [destruct H as [-> ->]; by intros [= <- <- <-]|].
  destruct H as (-> & fs & -> & _ & Hp). intros [= <- <- <-]. cbn. eauto.
Qed.

(** An entry of the table is known by its name. *)
Lemma named_entry l kd kd' : names_distinct l → kd ∈ l → kd' ∈ l → kd_name kd = kd_name kd' → kd = kd'.
Proof.
  intros Hn [i Hi]%list_elem_of_lookup [j Hj]%list_elem_of_lookup E.
  assert (i = j) as -> by (eapply Hn; [done|done|left|rewrite E; left]). congruence.
Qed.

(** With no open file, no current directory and no boot filesystem only the
    devices are in memory. *)
Lemma idle_devices {W Ops} `{!VnodeWorld W Ops} {Pk} `{!VnodeLaws W Ops Pk} (s : vfs W) l K p i :
  vfs_ok s l no_client K → t_cwd s = None → bootfs_vnode s = None → counts (vfs_w s) !! p = Some i → i_fs i = None ∧ i_open i = 0.
Proof.
  intros [Hinv Hb _] Hcwd Hboot Hi. specialize (Hb p). rewrite Hi, Hcwd, Hboot in Hb. unfold held_list in Hb. cbn [option_list] in Hb.
  rewrite !app_nil_r in Hb. cbn [cnt no_client files_of refs_of] in Hb. destruct Hb as (Ho & Hr & Hk & _). split; [|done].
  destruct (law_range _ _ _ (vi_ok _ _ Hinv) Hi) as (H1 & _). destruct (decide (1 ≤ cnt K p)) as [|Hno]; [by apply Hk|].
  assert (p ∈ omap dev_vnode l) as (kd & Hkd & Hp)%list_elem_of_omap by (apply cnt_pos; pose proof (cnt_nonneg K p); lia).
  destruct (h_dev _ _ _ _ _ (vi_held _ _ Hinv) kd Hkd) as (_ & _ & _ & Hd). by eapply Hd.
Qed.

(** The unmount. *)
Lemma vfs_unmount_idle_wp s l K kd w I :
  vfs_ok s l no_client K → t_cwd s = None → bootfs_vnode s = None → kd ∈ l → is_Some (kd_rawname kd) → kd_fs kd = Some SFSFS →
  kw_vol (vfs_w s) = On w → vol w I (λ _, 0) →
  swp (vfs_unmount (kd_name kd)) s (λ r s', r = 0 ∧ ∃ w' l', kw_vol (vfs_w s') = Off (sfs_device (w_fs w')) (w_mem w') ∧
    vol w' I (λ _, 0) ∧ same_files ∅ w w' I I ∧ sfs_superdirty (w_fs w') = false ∧ sfs_freemapdirty (w_fs w') = false ∧
    (∀ n i, I !! n = Some i → sect (dsk (w_fs w')) n = encode_inode i) ∧
    vfs_ok s' l' no_client K ∧ kd_set_fs None kd ∈ l').
Proof.
  intros Hok Hcwd Hboot Hkd Hraw Hfs E Hv. pose proof Hok as [Hinv Hbal Hnames]. apply (swpp_total False); [by intros []|].
  eapply swpp_mono; [by apply (vfs_unmount_wp s l)|]. intros r s' H. unfold unmounted in H.
  destruct (k_sync_off _ w I (vi_ok _ _ Hinv) E Hv) as (w' & Es & Hv' & Hsf & Hsd & Hfd & Hd).
  destruct (Z.eqb_spec r 0) as [->|Hr].
  - split; [done|]. destruct H as (n & kd' & fs & Hn & Hname & Hfs' & Hret & _ & w1 & E1 & E2).
    assert (kd' = kd) as -> by (eapply named_entry; [done|by eapply list_elem_of_lookup_2|done|done]).
    rewrite Hfs in Hfs'. injection Hfs' as <-. rewrite Es in E1. injection E1 as <-.
    exists w', (<[n := kd_set_fs None kd]> l). split; [by apply (k_unmount_off (set_vol (On w') (vfs_w s)))|]. split_and!; try done.
    + split; [apply Hret|by eapply balanced_same|]. eapply names_distinct_same; [apply Hret|done].
    + eapply list_elem_of_lookup_2, list_lookup_insert_eq. by eapply lookup_lt_Some.
  - exfalso. destruct H as [_ [[_ Hno]|(kd' & Hkd' & Hname & _ & Herr)]].
    + specialize (Hno kd Hkd eq_refl). rewrite Hno in Hraw. by destruct Hraw.
    + rewrite (named_entry _ _ _ Hnames Hkd' Hkd Hname), Hfs in Herr. destruct Herr as [(w1 & E1)|(p & i & Hi & Hf)].
      * rewrite Es in E1. congruence.
      * destruct (idle_devices s l K p i Hok Hcwd Hboot Hi). congruence.
Qed.
(** Mounting the disk again. *)
Lemma vfs_remount_wp garbage s l K kd d mem :
  vfs_ok s l no_client K → kd ∈ l → is_Some (kd_rawname kd) → kd_fs kd = None → kd_device kd = Some DISK →
  kw_vol (vfs_w s) = Off d mem → sp_magic (disk_super d) = SFS_MAGIC →
  swp (vfs_mount (kd_name kd) (kmount devices garbage)) s (λ r s',
    if r =? 0 then ∃ fs mem', mount_post d fs ∧ kw_vol (vfs_w s') = On (mkW fs ∅ 0 mem') else r = ENOMEM ∧ unchanged s l s').
Proof.
  intros [Hinv _ Hnames] Hkd Hraw Hfs Hdev E Hmg. apply (swpp_total False); [by intros []|].
  assert (image d) as Himg by (pose proof (vi_ok _ _ Hinv) as [H _]; by rewrite E in H).
  eapply swpp_mono; [apply (vfs_mount_wp s l); [done|]|].
  - intros kd' dev Hkd' Hname _ Hdev'. rewrite (named_entry _ _ _ Hnames Hkd' Hkd Hname), Hdev in Hdev'. injection Hdev' as <-.
    apply kmount_wp; [apply Hinv|by eauto|done].
  - intros r s' H. unfold mounted in H. destruct (Z.eqb_spec r 0) as [->|Hr].
    + destruct H as (n & kd' & fs & Hn & Hname & _ & _ & _ & dev & Hdev' & Em).
      assert (kd' = kd) as -> by (eapply named_entry; [done|by eapply list_elem_of_lookup_2|done|done]).
      rewrite Hdev in Hdev'. injection Hdev' as <-. by eapply (kmount_off garbage _ d mem 0) in Em.
    + destruct H as [Hu H]. split; [|done]. destruct H as [[_ Hno]|(kd' & Hkd' & Hname & H)].
      { specialize (Hno kd Hkd eq_refl). rewrite Hno in Hraw. by destruct Hraw. }
      rewrite (named_entry _ _ _ Hnames Hkd' Hkd Hname) in H. destruct H as [[_ Hsome]|(dev & o & Hdev' & Em)].
      * rewrite Hfs in Hsome. by destruct Hsome.
      * rewrite Hdev in Hdev'. injection Hdev' as <-. eapply (kmount_off garbage _ d mem r) in Em; [|done..].
        by rewrite (proj2 (Z.eqb_neq _ _) Hr) in Em.
Qed.
End kvfs.

(** ** A kernel with the null device and a mounted disk *)

Section example.
#[local] Existing Instance no_space.

Definition exk_devices : Z → device (kworld (lhd (list (list Z)))) := λ _, null_device.

#[export] Instance exk_inert : Inert exk_devices.
Proof. by split; intros; eexists. Qed.

Definition exk_null : list Z := [110; 117; 108; 108].
Definition exk_lhd0 : list Z := [108; 104; 100; 48].
Definition exk_devs : list knowndev :=
  [mkKnown exk_null None (Some 7) 1 None; mkKnown exk_lhd0 (Some (exk_lhd0 ++ [114; 97; 119])) (Some DISK) 3 (Some SFSFS)].
Definition exk_table : array knowndev := mkArray 2 2 (Some (Some <$> exk_devs)).
Definition exk_world (w : world (lhd (list (list Z)))) : kworld (lhd (list (list Z))) :=
  mkKw (On w) {[0 := (mkVnode 1 0 true (Some KDev), Some 7); 1 := (mkVnode 1 0 true (Some KDev), Some DISK)]} 2 (replicate 16 true).

(** In the root directory of the volume, and with nothing in use. *)
Definition exk : vfs (kworld (lhd (list (list Z)))) := mkVfs (exk_world exv) exk_table false None false (Some 2).
Definition exk_idle : vfs (kworld (lhd (list (list Z)))) := mkVfs (exk_world exv0) exk_table false None false None.

#[export] Instance exk_ops : VnodeWorld (kworld (lhd (list (list Z)))) kops := kern_world exk_devices.
#[export] Instance exk_laws : VnodeLaws (kworld (lhd (list (list Z)))) kops True := kern_laws exk_devices.

Lemma exk_kok w I : vol w I (λ _, 0) → kok (exk_world w).
Proof.
  intros Hv. split; [by exists I|]. intros j v o. cbn [exk_world kw_devs kw_next].
  intros [[<- [= <- <-]]|[_ [<- [= <- <-]]%lookup_singleton_Some]]%lookup_insert_Some; split_and!; done || lia.
Qed.

Lemma exk_repr : array_repr exk_table exk_devs.
Proof. unfold array_repr. cbn. split_and!; done || lia. Qed.

Lemma exk_names : names_distinct exk_devs.
Proof.
  intros [|[|i]] [|[|j]] a b n [= <-] [= <-]; try done; unfold kd_names, exk_null, exk_lhd0; set_unfold; naive_solver.
Qed.

Lemma exk_fs : distinct_fs exk_devs.
Proof. by intros [|[|i]] [|[|j]] a b fs [= <-] [= <-]. Qed.

(** What is in memory: the devices, and the root directory if [h] has it. *)
Definition exk_counts (root : bool) : gmap Z vinfo :=
  let c := {[1 := mkInfo 1 0 None false; 3 := mkInfo 1 0 None false]} in
  if root then <[2 := mkInfo 1 0 (Some SFSFS) true]> c else c.

Lemma exk_counts_on : kcounts (exk_world exv) = exk_counts true.
Proof. by vm_compute. Qed.

Lemma exk_counts_idle : kcounts (exk_world exv0) = exk_counts false.
Proof. by vm_compute. Qed.

Lemma exk_cases root p i : exk_counts root !! p = Some i →
  (p = 1 ∧ i = mkInfo 1 0 None false) ∨ (p = 3 ∧ i = mkInfo 1 0 None false) ∨ (root = true ∧ p = 2 ∧ i = mkInfo 1 0 (Some SFSFS) true).
Proof.
  unfold exk_counts. destruct root; rewrite ?lookup_insert_Some, ?lookup_singleton_Some; naive_solver.
Qed.

Lemma exk_vfs_ok w I root :
  vol w I (λ _, 0) → kcounts (exk_world w) = exk_counts root →
  vfs_ok (mkVfs (exk_world w) exk_table false None false (if root then Some 2 else None)) exk_devs no_client [].
Proof.
  intros Hv Hc. assert (∀ p, cnt (held_list exk_devs (if root then Some 2 else None) None) p =
    match exk_counts root !! p with Some _ => 1 | None => 0 end) as Hcnt.
  { intros p. destruct (decide (p ∈ [1; 2; 3])) as [Hp|Hp].
    - rewrite !elem_of_cons, elem_of_nil in Hp. destruct root, Hp as [->|[->|[->|[]]]]; by vm_compute.
    - rewrite !not_elem_of_cons in Hp. destruct Hp as (H1 & H2 & H3 & _).
      assert (exk_counts root !! p = None) as ->.
      { destruct (exk_counts root !! p) eqn:E; [|done]. destruct (exk_cases _ _ _ E) as [[? _]|[[? _]|(_ & ? & _)]]; done. }
      destruct root; cbn; rewrite !one_ne by done; done. }
  split; [|..|apply exk_names].
  - split; cbn [vfs_w knowndevs knowndevs_lock bootfs_vnode bootfs_lock t_cwd]; [by eapply exk_kok|done|apply exk_repr|apply exk_fs|].
    change (counts (exk_world w)) with (kcounts (exk_world w)). rewrite Hc. split.
    + intros kd Hkd. assert (dev_ok (fses (exk_world w)) (exk_counts root) kd); [|done].
      unfold exk_devs in Hkd. rewrite !elem_of_cons, elem_of_nil in Hkd.
      destruct Hkd as [->|[->|[]]]; split_and!; cbn; try done; try (by eexists); try (by intros fs [= <-]; eexists);
        intros p i [= <-] Hi; by destruct (exk_cases _ _ _ Hi) as [[_ ->]|[[_ ->]|(_ & [=] & _)]].
    + intros p Hp%cnt_elem. rewrite Hcnt in Hp. destruct (exk_counts root !! p); [by eexists|lia].
    + intros p i Hi. rewrite Hcnt, Hi. by destruct (exk_cases _ _ _ Hi) as [[_ ->]|[[_ ->]|(_ & _ & ->)]].
    + intros p i [Hp|[=]] Hi. destruct root; [|done]. injection Hp as <-.
      destruct (exk_cases _ _ _ Hi) as [[[=] _]|[[[=] _]|(_ & _ & ->)]]. split; [by eexists|]. intros fs [= <-]. right.
      eexists. split; [by right; left|done].
  - intros p. cbn [vfs_w t_cwd bootfs_vnode]. change (counts (exk_world w)) with (kcounts (exk_world w)). rewrite Hc, Hcnt.
    destruct (exk_counts root !! p) as [i|] eqn:Hi; [|done].
    destruct (exk_cases _ _ _ Hi) as [[-> ->]|[[-> ->]|(_ & _ & ->)]]; split_and!; cbn; done || lia.
Qed.

Lemma exk_ok : vfs_ok exk exk_devs no_client [].
Proof. apply (exk_vfs_ok exv exv_inodes true); [apply exv_vol|apply exk_counts_on]. Qed.

Lemma exk_idle_ok : vfs_ok exk_idle exk_devs no_client [].
Proof. apply (exk_vfs_ok exv0 exv_inodes false); [apply exv0_vol|apply exk_counts_idle]. Qed.

Lemma exk_room : VfsLaws.room 16 (counts (vfs_w exk)).
Proof.
  change (VfsLaws.room 16 (kcounts (exk_world exv))). rewrite exk_counts_on. intros p i Hi.
  by destruct (exk_cases _ _ _ Hi) as [[_ ->]|[[_ ->]|(_ & _ & ->)]].
Qed.
End example.
