(* ===== verification/VfsThm.v ===== *)
(** * What the VFS layer promises

    Path names, device names, references, failures, and unmounting a volume and
    mounting it again.  The first four theorems hold in every world that keeps
    the contract of VfsLaws; they are applied to the kernel of KernVfs. *)

From S2P Require Import Prelude Array Bitmap Copyinout Uio SfsDisk Dev Vnode SfsIo SfsFile Lhd SfsRw.
From S2P Require Import SfsDir SfsNames SfsVnode SfsFs SfsTrunc SfsVol SfsOps SfsExample SfsApi SfsSync.
From S2P Require Import Device Vfs VfsLaws VfsPath VfsInv VfsOps VfsTable VfsAdd VfsRun KernWorld KernVfs.

(** ** The syntax of path names *)

Lemma span_sep_name name rest :
  Forall (λ c, is_sep c = false) name → match rest with [] => True | c :: _ => is_sep c = true end →
  span_sep (name ++ rest) = (name, rest).
Proof.
  induction 1 as [|c name Hc _ IH]; intros Hr; cbn.
  - destruct rest as [|c rest]; [done|]. cbn. by rewrite Hr.
  - by rewrite Hc, IH.
Qed.

Lemma drop_slashes_spec rest :
  (∃ n, rest = replicate n SLASH ++ drop_slashes rest) ∧ head (drop_slashes rest) ≠ Some SLASH.
Proof.
  induction rest as [|c rest [[n IH] Hh]]; cbn; [split; [by exists 0%nat|done]|].
  destruct (Z.eqb_spec c SLASH) as [->|Hc]; [|split; [by exists 0%nat|cbn; congruence]].
  split; [|done]. exists (S n). cbn. by rewrite <-IH.
Qed.

Lemma parse_forms name rest :
  Forall (λ c, is_sep c = false) name →
  parse_path name = (AtCwd, name) ∧
  parse_path (name ++ COLON :: rest) = (match name with [] => AtCurRoot | _ => AtDevice name end, drop_slashes rest) ∧
  parse_path (name ++ SLASH :: rest) = match name with [] => (AtBoot, drop_slashes rest) | _ => (AtCwd, name ++ SLASH :: rest) end.
Proof.
  intros Hn. unfold parse_path. rewrite <-(app_nil_r name) at 1. by rewrite !span_sep_name.
Qed.

(** [C28] Path names.  [getdevice], which looks for the first colon and slash of
    the path, cuts the buffer and skips slashes, is the same function as finding
    where the path starts and what is left of it: "name:rest" starts at the root
    of the named device, ":rest" at the root of the current filesystem, "/rest"
    at the boot filesystem, with all leading slashes of the rest skipped, and
    every other path, also one with a colon after a slash, starts at the current
    directory and is left whole. *)
Theorem getdevice_path_forms {W Ops} `{!VnodeWorld W Ops} {cs : CurSpace} path (s : vfs W) :
  cstr path →
  getdevice path s = getdevice_ref path s ∧
  ∀ name rest, Forall (λ c, is_sep c = false) name →
    parse_path name = (AtCwd, name) ∧
    parse_path (name ++ COLON :: rest) = (match name with [] => AtCurRoot | _ => AtDevice name end, drop_slashes rest) ∧
    parse_path (name ++ SLASH :: rest) = match name with [] => (AtBoot, drop_slashes rest) | _ => (AtCwd, name ++ SLASH :: rest) end ∧
    (∃ n, rest = replicate n SLASH ++ drop_slashes rest) ∧ head (drop_slashes rest) ≠ Some SLASH.
Proof.
  intros Hp. split; [by apply getdevice_parses|]. intros name rest Hn.
  destruct (parse_forms name rest Hn) as (? & ? & ?). by split_and!; try apply drop_slashes_spec.
Qed.

(** The path "lhd0:/a" in the example. *)
Lemma getdevice_path_forms_witness :
  let cs : CurSpace := None in
  let path := exk_lhd0 ++ [COLON; SLASH; 97] in
  getdevice path exk = getdevice_ref path exk ∧
  ∀ name rest, Forall (λ c, is_sep c = false) name →
    parse_path name = (AtCwd, name) ∧
    parse_path (name ++ COLON :: rest) = (match name with [] => AtCurRoot | _ => AtDevice name end, drop_slashes rest) ∧
    parse_path (name ++ SLASH :: rest) = match name with [] => (AtBoot, drop_slashes rest) | _ => (AtCwd, name ++ SLASH :: rest) end ∧
    (∃ n, rest = replicate n SLASH ++ drop_slashes rest) ∧ head (drop_slashes rest) ≠ Some SLASH.
Proof. intros cs path. apply getdevice_path_forms. repeat constructor. Defined.

(** ** Device names *)

Lemma answers_other f kd name :
  name ∉ kd_names kd → (∀ fs, kd_fs kd = Some fs → f !! fs ≠ Some (Some name)) → answers f kd name = None.
Proof.
  unfold kd_names, answers. rewrite elem_of_cons, elem_option_list. intros Hn Hf.
  destruct (kd_fs kd) as [fs|]; repeat case_bool_decide; cbn in *; naive_solver.
Qed.

Lemma answers_own f kd name : name ∈ kd_names kd → answers f kd name ≠ None.
Proof.
  unfold kd_names, answers. rewrite elem_of_cons, elem_option_list. intros Hn.
  destruct (kd_fs kd) as [fs|]; repeat case_bool_decide; cbn in *; naive_solver.
Qed.

Lemma resolve_own f l kd name :
  names_distinct l → kd ∈ l → name ∈ kd_names kd →
  (∀ fs kd', kd' ∈ l → kd' ≠ kd → kd_fs kd' = Some fs → f !! fs ≠ Some (Some name)) →
  resolve f l name = answers f kd name.
Proof.
  intros Hd [n Hn]%list_elem_of_lookup Hname Hvol. rewrite <-(take_drop_middle l n kd Hn), resolve_app.
  assert (resolve f (take n l) name = None) as ->; [|by cbn; destruct (answers f kd name) eqn:E; [|destruct (answers_own f kd name Hname)]].
  destruct (resolve f (take n l) name) as [t|] eqn:E; [|done]. apply resolve_elem in E as (kd' & [m Hm]%list_elem_of_lookup & Ha).
  apply lookup_take_Some in Hm as [Hm Hlt]. rewrite answers_other in Ha; [done|..].
  - intros Hin. assert (m = n) by by eapply Hd. lia.
  - intros fs. apply Hvol; [by eapply list_elem_of_lookup_2|]. intros ->. assert (m = n) by by eapply Hd. lia.
Qed.

(** Device names.  [vfs_getroot] goes through the table and does what the
    rules of vfslist.c for names say: the name of a device and the name of the
    volume stand for the filesystem mounted there, and the root of it is handed
    back with one new reference; the name of a mountable device with nothing
    mounted gives ENXIO; the raw name, and the name of a device that is not
    mountable, give the device's own vnode with a new reference; an unknown name
    gives ENODEV.  Errors leave the state as it was.  A name of a device stands
    for that device, unless a volume mounted elsewhere is called the same. *)
Theorem vfs_getroot_exact {W Ops} `{!VnodeWorld W Ops} {Pk} `{!VnodeLaws W Ops Pk} {cs : CurSpace} (s : vfs W) l F K devname :
  vfs_ok s l F K → VfsLaws.room 8 (counts (vfs_w s)) →
  swpp Pk (vfs_getroot devname) s (λ '(r, q) s',
    match resolve (fses (vfs_w s)) l devname with
    | Some (TRoot fs) => r = 0 ∧ during s [q] s' ∧ ∃ i, counts (vfs_w s') !! q = Some i ∧ i_fs i = Some fs
    | Some (TDevice v) => r = 0 ∧ q = v ∧ during s [q] s' ∧ ∃ i, counts (vfs_w s') !! q = Some i ∧ i_fs i = None
    | Some TNothing => r = ENXIO ∧ s' = s
    | None => r = ENODEV ∧ s' = s
    end) ∧
  ∀ kd, kd ∈ l → devname ∈ kd_names kd →
    (∀ fs kd', kd' ∈ l → kd' ≠ kd → kd_fs kd' = Some fs → fses (vfs_w s) !! fs ≠ Some (Some devname)) →
    resolve (fses (vfs_w s)) l devname = answers (fses (vfs_w s)) kd devname.
Proof.
  intros [Hinv _ Hn] Hroom. split; [|intros; by apply resolve_own].
  eapply swpp_mono; [apply (vfs_getroot_exact_wp s l Hinv Hroom [] s); [by eapply during_refl|cbn; lia]|].
  intros [r q] s' H. unfold root_post, hit in H. by destruct (resolve _ l devname) as [[fs|v| ]|].
Qed.

(** ** References *)

Section steps.
Context {W Ops : Type} `{!VnodeWorld W Ops} {Pk : Prop} `{!VnodeLaws W Ops Pk} {cs : CurSpace}.

(** A call with which its caller keeps the rules, and which returns [r]; the
    state and what the callers have. *)
Definition vstep (c : call) (r : Z) (x y : vfs W * client) : Prop := ∃ l,
  array_repr (knowndevs x.1) l ∧ VfsLaws.room 16 (counts (vfs_w x.1)) ∧ admissible x.1 l x.2 c ∧
  do_call c x.2 x.1 = Done ((r, y.2), y.1).

(** A run, with the calls and their results. *)
Inductive vrun : vfs W * client → list (call * Z) → vfs W * client → Prop :=
  | vrun_nil x : vrun x [] x
  | vrun_cons x y z c r cs : vstep c r x y → vrun y cs z → vrun x ((c, r) :: cs) z.

(** How often a device was lost. *)
Definition losses (cs : list (call (W:=W) * Z)) : nat := length (List.filter (λ x, loses x.1 x.2) cs).

Lemma vstep_ok c r x y l K : vfs_ok x.1 l x.2 K → vstep c r x y → ∃ l' K', vfs_ok y.1 l' y.2 K' ∧ lost_by c r x.1 K K'.
Proof.
  intros Hok (l1 & Hl & Hroom & Hadm & E).
  rewrite <-(array_repr_det _ _ _ (vi_devs _ _ (vo_inv _ _ _ _ Hok)) Hl) in Hadm.
  pose proof (do_call_wp _ _ _ _ c Hok Hroom Hadm) as H. unfold swpp in H. rewrite E in H.
  destruct H as (l' & K' & H & HK & _). by exists l', K'.
Qed.

Lemma run_ok x calls y l K :
  vfs_ok x.1 l x.2 K → vrun x calls y → ∃ l' N, vfs_ok y.1 l' y.2 (N ++ K) ∧ (length N ≤ losses calls)%nat.
Proof.
  intros Hok Hrun. revert l K Hok. induction Hrun as [x|x y z c r calls Hxy _ IH]; intros l K Hok; [exists l, []; split; [done|cbn; lia]|].
  destruct (vstep_ok _ _ _ _ _ _ Hok Hxy) as (l' & K' & Hok' & HK). destruct (IH l' K' Hok') as (l2 & N & Hok2 & HN).
  unfold losses in *. cbn [List.filter fst snd]. destruct HK as [->|(Hc & v & -> & _)].
  - exists l2, N. split; [done|]. destruct (loses c r); cbn; lia.
  - exists l2, (N ++ [v]). rewrite <-app_assoc. split; [done|]. rewrite Hc, length_app. cbn. lia.
Qed.
End steps.

(** [C2] References.  In a run of the kernel a caller opens and closes files,
    looks up paths, parents, roots of devices and the current directory, takes
    more references and gives them back, removes, renames, links, changes
    directories, mounts, unmounts and adds devices, and some of these calls fail.
    The callers keep the rules of vfs.h: paths are strings, only what is open is
    closed and only what was handed out is given back, and before each call every
    count leaves room for 16 more.  Then the open count of every vnode is the
    number of times it is open, and its reference count is that number plus the
    number of times it is handed out, plus the entries of the device table, the
    current directory and the boot filesystem that refer to it, plus the devices
    that were lost before the run or in it.  A device is lost only by a call of
    [vfs_adddev] that made its vnode and then failed, one for each such call at
    most, so that a run without one loses none.  All these vnodes are in memory.
    The next call does not run into a vnode that has gone or wait for a lock for
    ever; it returns, or panics because a root directory cannot be loaded or the
    names of devices clash.  And when no file is open, no vnode is handed out and
    there is no current directory and no boot filesystem, no vnode of a
    filesystem is in memory. *)
Theorem vfs_references_balanced {W Ops} `{!VnodeWorld W Ops} {Pk} `{!VnodeLaws W Ops Pk} {cs : CurSpace}
    (s : vfs W) l F K calls (s' : vfs W) F' :
  vfs_ok s l F K → vrun (s, F) calls (s', F') →
  ∃ l' N, array_repr (knowndevs s') l' ∧ (length N ≤ losses calls)%nat ∧
    (∀ p i, counts (vfs_w s') !! p = Some i →
      i_open i = cnt (files_of F') p ∧
      i_ref i = cnt (files_of F') p + cnt (refs_of F') p + cnt (held_list l' (t_cwd s') (bootfs_vnode s')) p + cnt (N ++ K) p) ∧
    (∀ p, p ∈ (files_of F' ++ refs_of F') ++ held_list l' (t_cwd s') (bootfs_vnode s') ++ N ++ K → is_Some (counts (vfs_w s') !! p)) ∧
    (∀ p i, p ∈ N ++ K → counts (vfs_w s') !! p = Some i → i_fs i = None) ∧
    (∀ c, VfsLaws.room 16 (counts (vfs_w s')) → admissible s' l' F' c →
      swpp (Pk ∨ adds c = true) (do_call c F') s' (λ _ _, True)) ∧
    (F' = no_client → t_cwd s' = None → bootfs_vnode s' = None → ∀ p i, counts (vfs_w s') !! p = Some i → i_fs i = None).
Proof.
  intros Hok Hrun. destruct (run_ok (s, F) calls (s', F') l K Hok Hrun) as (l' & N & Hok' & HN). cbn [fst snd] in Hok'.
  pose proof Hok' as [Hinv Hb _]. exists l', N. split_and!; [apply Hinv|done|..].
  - intros p i Hi. specialize (Hb p). cbv zeta in Hb. rewrite Hi in Hb. by destruct Hb as (? & ? & _).
  - intros p Hp. rewrite elem_of_app in Hp. destruct Hp as [Hp|Hp]; [by eapply client_live|].
    specialize (Hb p). cbv zeta in Hb. destruct (counts (vfs_w s') !! p); [by eexists|].
    apply elem_of_app in Hp as [Hp%cnt_elem|Hp%cnt_elem]; lia.
  - intros p i Hp%cnt_elem Hi. specialize (Hb p). cbv zeta in Hb. rewrite Hi in Hb. by apply Hb.
  - intros c Hroom Hadm. eapply swpp_mono; [by apply do_call_wp|]. done.
  - intros -> Hcwd Hboot p i Hi. by apply (idle_devices s' l' (N ++ K) p i).
Qed.

(** The current directory of the example is cleared. *)
Section clear.
#[local] Existing Instance no_space.

Definition exk_cleared : vfs (kworld (lhd (list (list Z)))) :=
  match do_call CClearcurdir no_client exk with Done (_, s) => s | _ => exk end.

Lemma exk_clears : vstep CClearcurdir 0 (exk, no_client) (exk_cleared, no_client).
Proof.
  exists exk_devs. split; [apply exk_repr|]. split; [apply exk_room|]. split; [done|].
  assert (match do_call CClearcurdir no_client exk with Done ((r, F), _) => r = 0 ∧ F = no_client | _ => False end) as E
    by (vm_compute; split; reflexivity).
  unfold exk_cleared. cbn [fst snd]. destruct (do_call CClearcurdir no_client exk) as [[[r F] s]| | |]; [|done..]. by destruct E as [-> ->].
Qed.
End clear.

Lemma vfs_references_balanced_witness :
  let cs : CurSpace := None in let s' := exk_cleared in
  ∃ l' N, array_repr (knowndevs s') l' ∧ (length N ≤ 0)%nat ∧
    (∀ p i, counts (vfs_w s') !! p = Some i →
      i_open i = cnt [] p ∧ i_ref i = cnt [] p + cnt [] p + cnt (held_list l' (t_cwd s') (bootfs_vnode s')) p + cnt (N ++ []) p) ∧
    (∀ p, p ∈ ([] ++ []) ++ held_list l' (t_cwd s') (bootfs_vnode s') ++ N ++ [] → is_Some (counts (vfs_w s') !! p)) ∧
    (∀ p i, p ∈ N ++ [] → counts (vfs_w s') !! p = Some i → i_fs i = None) ∧
    (∀ c, VfsLaws.room 16 (counts (vfs_w s')) → admissible s' l' no_client c →
      swpp (True ∨ adds c = true) (do_call c no_client) s' (λ _ _, True)) ∧
    (no_client = no_client → t_cwd s' = None → bootfs_vnode s' = None → ∀ p i, counts (vfs_w s') !! p = Some i → i_fs i = None).
Proof.
  intros cs s'. apply (vfs_references_balanced exk exk_devs no_client [] [(CClearcurdir, 0)] s' no_client); [apply exk_ok|].
  econstructor; [apply exk_clears|constructor].
Defined.

(** [C27] Failures leave no trace.  A call of the VFS layer, adding a device
    apart, that returns an error has changed nothing a later call could see: the
    open files, the vnodes handed out, the table of devices, the mounted filesystems, the current
    directory, the boot filesystem, and every reference and open count are what
    they were, and no lock is left held. *)
Theorem vfs_failure_harmless {W Ops} `{!VnodeWorld W Ops} {Pk} `{!VnodeLaws W Ops Pk} {cs : CurSpace} (s : vfs W) l F K c :
  vfs_ok s l F K → VfsLaws.room 16 (counts (vfs_w s)) → admissible s l F c → adds c = false →
  swpp Pk (do_call c F) s (λ '(r, F') s', r ≠ 0 →
    F' = F ∧ array_repr (knowndevs s') l ∧ fses (vfs_w s') = fses (vfs_w s) ∧ counts (vfs_w s') = counts (vfs_w s) ∧
    t_cwd s' = t_cwd s ∧ bootfs_vnode s' = bootfs_vnode s ∧ knowndevs_lock s' = false ∧ bootfs_lock s' = false ∧ vfs_ok s' l F K).
Proof.
  intros Hok Hroom Hadm Ha. apply (swpp_panics (Pk ∨ adds c = true)); [by intros [?|E]; [|rewrite Ha in E]|].
  eapply swpp_mono; [by apply do_call_wp|]. intros [r F'] s' (l' & K' & Hok' & _ & HK & He) Hr.
  destruct (He Hr) as (-> & -> & Hu). destruct (HK Ha) as [-> _]. destruct (Hu Ha) as [(Hinv & Hc & Hcwd & Hb & _) Hf].
  split_and!; try done; apply Hinv.
Qed.

(** Opening "x:" in the example, where no device has that name. *)
Lemma vfs_failure_harmless_witness :
  let cs : CurSpace := None in
  swpp True (do_call (COpen [120; COLON] 0) no_client) exk (λ '(r, F') s', r ≠ 0 →
    F' = no_client ∧ array_repr (knowndevs s') exk_devs ∧ fses (vfs_w s') = fses (vfs_w exk) ∧ counts (vfs_w s') = counts (vfs_w exk) ∧
    t_cwd s' = t_cwd exk ∧ bootfs_vnode s' = bootfs_vnode exk ∧ knowndevs_lock s' = false ∧ bootfs_lock s' = false ∧
    vfs_ok s' exk_devs no_client []) ∧
  match do_call (COpen [120; COLON] 0) no_client exk with Done ((r, _), _) => r = ENODEV | _ => False end.
Proof.
  intros cs. split; [|by vm_compute]. apply (vfs_failure_harmless exk exk_devs no_client []); [apply exk_ok|apply exk_room| |reflexivity].
  cbn. repeat constructor.
Defined.

(** ** Unmounting and mounting again *)

(** [C4] A volume comes back.  In a kernel with an SFS volume, when no file is
    open, no vnode is handed out and there is no current directory and no boot filesystem, [vfs_unmount]
    of its device succeeds: it does not fail, panic or wait.  The disk it leaves
    can be mounted: [sfs_mount] on the device succeeds, or fails with ENOMEM and
    changes nothing; and the volume that is mounted then has every named file of
    the old one, under the same names, with the same size, type and bytes. *)
Theorem unmount_mount_durable {D} `{!BlockDev D} `{!Disk D} {cs : CurSpace} (devices : Z → device (kworld D)) `{!Inert devices}
    (s : vfs (kworld D)) l K kd w I garbage :
  let _ := kern_world devices in let _ := kern_laws devices in
  vfs_ok s l no_client K → t_cwd s = None → bootfs_vnode s = None →
  kd ∈ l → is_Some (kd_rawname kd) → kd_device kd = Some DISK → kd_fs kd = Some SFSFS →
  kw_vol (vfs_w s) = On w → vol w I (λ _, 0) →
  swp (vfs_unmount (kd_name kd)) s (λ r s1, r = 0 ∧ (∃ d mem, kw_vol (vfs_w s1) = Off d mem) ∧
    swp (sfs_mount devices garbage (kd_name kd)) s1 (λ r s2,
      if r =? 0 then ∃ w2, kw_vol (vfs_w s2) = On w2 ∧ survives w I w2 else r = ENOMEM ∧ counts (vfs_w s2) = counts (vfs_w s1))).
Proof.
  intros W1 L1 Hok Hcwd Hboot Hkd Hraw Hdev Hfs E Hv.
  eapply swp_mono; [by apply (vfs_unmount_idle_wp devices s l K kd w I)|].
  intros r s1 (-> & w' & l' & E1 & Hv' & Hsf & Hsd & Hfd & Hd & Hok1 & Hkd1). split; [done|]. split; [by eauto|].
  destruct (synced_fits w' I Hv' Hsd) as (_ & _ & _ & Hmg).
  eapply swp_mono; [by apply (vfs_remount_wp devices garbage s1 l' K (kd_set_fs None kd) (sfs_device (w_fs w')) (w_mem w'))|].
  intros r s2 H2. cbv beta in H2. destruct (r =? 0).
  - destruct H2 as (fs & mem' & Hp & E2). eexists. split; [exact E2|]. by apply (sync_survives w w').
  - destruct H2 as (-> & [H2 _]). split; [done|]. apply H2.
Qed.

Lemma unmount_mount_durable_witness :
  let cs : CurSpace := None in
  let _ := kern_world exk_devices in let _ := kern_laws exk_devices in
  swp (vfs_unmount exk_lhd0) exk_idle (λ r s1, r = 0 ∧ (∃ d mem, kw_vol (vfs_w s1) = Off d mem) ∧
    swp (sfs_mount exk_devices ex_super exk_lhd0) s1 (λ r s2,
      if r =? 0 then ∃ w2, kw_vol (vfs_w s2) = On w2 ∧ survives exv0 exv_inodes w2
      else r = ENOMEM ∧ counts (vfs_w s2) = counts (vfs_w s1))).
Proof.
  intros cs W1 L1.
  apply (unmount_mount_durable exk_devices exk_idle exk_devs []
    (mkKnown exk_lhd0 (Some (exk_lhd0 ++ [114; 97; 119])) (Some DISK) 3 (Some SFSFS)) exv0 exv_inodes ex_super);
    [apply exk_idle_ok|reflexivity|reflexivity|right; left|by eexists|reflexivity|reflexivity|reflexivity|apply exv0_vol].
Defined.
