(* ===== verification/Emu.v ===== *)
(** * kern/dev/lamebus/emu.c: the passthrough filesystem

    The card accepts a request in its registers and its buffer, and interrupts
    when it is done.  The card is hardware, a parameter of the model: what it
    answers to a request ([emu_run]).  The filesystem on top of it keeps a table
    of the vnodes in memory, one for each file handle that is open on the card.
    Vnodes are known by their addresses; reading one that has been freed is
    undefined.  The code runs in one thread; [e_lock] is held by it or free, and
    taking it twice waits for ever. *)

From S2P Require Import Prelude Array Copyinout Uio Lhd Vnode Device.

Definition EMU_MAXIO : Z := 16384.
Definition EMU_ROOTHANDLE : Z := 0.

Definition EMU_OP_OPEN : Z := 1.
Definition EMU_OP_CREATE : Z := 2.
Definition EMU_OP_EXCLCREATE : Z := 3.
Definition EMU_OP_CLOSE : Z := 4.
Definition EMU_OP_READ : Z := 5.
Definition EMU_OP_READDIR : Z := 6.
Definition EMU_OP_WRITE : Z := 7.
Definition EMU_OP_GETSIZE : Z := 8.
Definition EMU_OP_TRUNC : Z := 9.

Definition EMU_RES_SUCCESS : Z := 1.
Definition EMU_RES_BADHANDLE : Z := 2.
Definition EMU_RES_BADOP : Z := 3.
Definition EMU_RES_BADPATH : Z := 4.
Definition EMU_RES_BADSIZE : Z := 5.
Definition EMU_RES_EXISTS : Z := 6.
Definition EMU_RES_ISDIR : Z := 7.
Definition EMU_RES_MEDIA : Z := 8.
Definition EMU_RES_NOHANDLES : Z := 9.
Definition EMU_RES_NOSPACE : Z := 10.
Definition EMU_RES_NOTDIR : Z := 11.
Definition EMU_RES_UNKNOWN : Z := 12.
Definition EMU_RES_UNSUPP : Z := 13.

Definition ENFILE : Z := 22.

(** The registers of the card the driver reads and writes, and its buffer. *)
Record emu_regs := mkRegs {
  reg_handle : Z;
  reg_offset : Z;
  reg_iolen : Z;
  reg_result : Z;
  emu_buffer : list Z;
}.

(** The hardware: an operation, with its arguments in the registers and the
    buffer, leaves its answer there. *)
Class EmuHw (H : Type) := emu_run : H → Z → emu_regs → emu_regs * H.

(** struct emu_softc with the card. *)
Record emu (H : Type) := mkEmu {
  e_lock : bool;
  e_sem : Z;
  e_result : Z;
  e_regs : emu_regs;
  e_hw : H;
}.
Arguments mkEmu {H} _ _ _ _ _.
Arguments e_lock {H} _.
Arguments e_sem {H} _.
Arguments e_result {H} _.
Arguments e_regs {H} _.
Arguments e_hw {H} _.

Section emu.
Context {H : Type} `{!EmuHw H} {cs : CurSpace}.

(** ** Access to the card *)

Definition rreg (reg : emu_regs → Z) : stm (emu H) Z := gets (λ e, reg (e_regs e)).
Definition set_regs (f : emu_regs → emu_regs) : stm (emu H) unit :=
  modify (λ e, mkEmu (e_lock e) (e_sem e) (e_result e) (f (e_regs e)) (e_hw e)).
Definition wreg_handle (v : Z) : stm (emu H) unit :=
  set_regs (λ r, mkRegs (u32 v) (reg_offset r) (reg_iolen r) (reg_result r) (emu_buffer r)).
Definition wreg_offset (v : Z) : stm (emu H) unit :=
  set_regs (λ r, mkRegs (reg_handle r) (u32 v) (reg_iolen r) (reg_result r) (emu_buffer r)).
Definition wreg_iolen (v : Z) : stm (emu H) unit :=
  set_regs (λ r, mkRegs (reg_handle r) (reg_offset r) (u32 v) (reg_result r) (emu_buffer r)).
Definition wreg_result (v : Z) : stm (emu H) unit :=
  set_regs (λ r, mkRegs (reg_handle r) (reg_offset r) (reg_iolen r) (u32 v) (emu_buffer r)).
Definition set_iobuf (b : list Z) : stm (emu H) unit :=
  set_regs (λ r, mkRegs (reg_handle r) (reg_offset r) (reg_iolen r) (reg_result r) b).

Definition lock_emu : stm (emu H) unit := λ e,
  if e_lock e then NoFuel else Done (tt, mkEmu true (e_sem e) (e_result e) (e_regs e) (e_hw e)).
Definition unlock_emu : stm (emu H) unit := λ e,
  if e_lock e then Done (tt, mkEmu false (e_sem e) (e_result e) (e_regs e) (e_hw e)) else Panic.

(** ** Hardware operations *)

Definition emu_irq : stm (emu H) unit :=
  result ← rreg reg_result;
  modify (λ e, mkEmu (e_lock e) (e_sem e) result (e_regs e) (e_hw e));;
  wreg_result 0;;
  sem ← gets e_sem;
  sem' ← lift (sem_V sem);
  modify (λ e, mkEmu (e_lock e) sem' (e_result e) (e_regs e) (e_hw e)).

(** Writing [op] to REG_OPER: the card does the operation and interrupts. *)
Definition wreg_oper (op : Z) : stm (emu H) unit :=
  modify (λ e, let '(regs, hw) := emu_run (e_hw e) op (e_regs e) in
    mkEmu (e_lock e) (e_sem e) (e_result e) regs hw);;
  emu_irq.

Definition translate_err (code : Z) : outcome Z :=
  if code =? EMU_RES_SUCCESS then Done 0 else
  if (code =? EMU_RES_BADHANDLE) || (code =? EMU_RES_BADOP) || (code =? EMU_RES_BADSIZE) then Panic else
  if code =? EMU_RES_BADPATH then Done ENOENT else
  if code =? EMU_RES_EXISTS then Done EEXIST else
  if code =? EMU_RES_ISDIR then Done EISDIR else
  if code =? EMU_RES_MEDIA then Done EIO else
  if code =? EMU_RES_NOHANDLES then Done ENFILE else
  if code =? EMU_RES_NOSPACE then Done ENOSPC else
  if code =? EMU_RES_NOTDIR then Done ENOTDIR else
  if code =? EMU_RES_UNKNOWN then Done EIO else
  if code =? EMU_RES_UNSUPP then Done EUNIMP else
  Done EAGAIN.

Definition emu_waitdone : stm (emu H) Z :=
  sem ← gets e_sem;
  sem' ← lift (sem_P sem);
  modify (λ e, mkEmu (e_lock e) sem' (e_result e) (e_regs e) (e_hw e));;
  result ← gets e_result;
  lift (translate_err result).

(** [strcpy(sc->e_iobuf, name)]. *)
Definition strcpy_iobuf (name : list Z) : stm (emu H) unit :=
  b ← gets (λ e, emu_buffer (e_regs e));
  set_iobuf (buf_write b 0 (name ++ [0])).

(** The result, the new handle, and whether it is a directory. *)
Definition emu_open (handle : Z) (name : list Z) (create excl : bool) : stm (emu H) (Z * Z * bool) :=
  if Z.of_nat (length name) + 1 >? EMU_MAXIO then mret (ENAMETOOLONG, 0, false) else
  let op := if create && excl then EMU_OP_EXCLCREATE else if create then EMU_OP_CREATE else EMU_OP_OPEN in
  lock_emu;;
  strcpy_iobuf name;;
  wreg_iolen (Z.of_nat (length name));;
  wreg_handle handle;;
  wreg_oper op;;
  result ← emu_waitdone;
  '(newhandle, newisdir) ←
    (if result =? 0 then h ← rreg reg_handle; n ← rreg reg_iolen; mret (h, n >? 0) else mret (0, false));
  unlock_emu;;
  mret (result, newhandle, newisdir).

(** The loop of [emu_close]: eleven tries. *)
Definition emu_close_loop (handle : Z) : stm (emu H) Z :=
  r ← for_stm 11 0
    (λ retries _,
       wreg_handle handle;;
       wreg_oper EMU_OP_CLOSE;;
       result ← emu_waitdone;
       mret (if (result =? EIO) && (retries <? 10) then inl tt else inr result)) tt;
  match r with inl _ => lift NoFuel | inr result => mret result end.

Definition emu_close (handle : Z) : stm (emu H) Z :=
  mine ← gets e_lock;
  (if mine : bool then mret tt else lock_emu);;
  result ← emu_close_loop handle;
  (if mine : bool then mret tt else unlock_emu);;
  mret result.

Definition with_offset (off : Z) (u : uio) : uio :=
  mkUio (iov_base u) (iov_len u) off (uio_resid u) (uio_segflg u) (uio_rw_of u) (uio_space u).

Definition emu_doread (handle len op : Z) (u : uio) : stm (emu H) (Z * uio) :=
  lift (kassert (bool_decide (uio_rw_of u = UIO_READ)));;
  lock_emu;;
  wreg_handle handle;;
  wreg_iolen len;;
  wreg_offset (uio_offset u);;
  wreg_oper op;;
  result ← emu_waitdone;
  '(result, u) ←
    (if negb (result =? 0) then mret (result, u) else
     b ← gets (λ e, emu_buffer (e_regs e));
     n ← rreg reg_iolen;
     '(result, b', u) ← lift (uiomove b 0 n u);
     set_iobuf b';;
     off ← rreg reg_offset;
     mret (result, with_offset (s32 off) u));
  unlock_emu;;
  mret (result, u).

Definition emu_read (handle len : Z) (u : uio) : stm (emu H) (Z * uio) := emu_doread handle len EMU_OP_READ u.
Definition emu_readdir (handle len : Z) (u : uio) : stm (emu H) (Z * uio) := emu_doread handle len EMU_OP_READDIR u.

Definition emu_write (handle len : Z) (u : uio) : stm (emu H) (Z * uio) :=
  lift (kassert (bool_decide (uio_rw_of u = UIO_WRITE)));;
  lock_emu;;
  wreg_handle handle;;
  wreg_iolen len;;
  wreg_offset (uio_offset u);;
  b ← gets (λ e, emu_buffer (e_regs e));
  '(result, b', u) ← lift (uiomove b 0 len u);
  set_iobuf b';;
  result ← (if negb (result =? 0) then mret result else wreg_oper EMU_OP_WRITE;; emu_waitdone);
  unlock_emu;;
  mret (result, u).

Definition emu_getsize (handle : Z) : stm (emu H) (Z * Z) :=
  lock_emu;;
  wreg_handle handle;;
  wreg_oper EMU_OP_GETSIZE;;
  result ← emu_waitdone;
  size ← (if result =? 0 then n ← rreg reg_iolen; mret (s32 n) else mret 0);
  unlock_emu;;
  mret (result, size).

Definition emu_trunc (handle len : Z) : stm (emu H) Z :=
  lock_emu;;
  wreg_handle handle;;
  wreg_iolen len;;
  wreg_oper EMU_OP_TRUNC;;
  result ← emu_waitdone;
  unlock_emu;;
  mret result.
End emu.
