(* ===== verification/Emufs.v ===== *)
(** * kern/dev/lamebus/emu.c: the vnodes and the filesystem *)

From stdpp Require Import strings pretty.
From S2P Require Import Prelude Array Copyinout Uio Vnode Device Vfs Emu.

(** The two function tables. *)
Inductive emufs_ops := EmuFileOps | EmuDirOps.

(** struct emufs_vnode; there is one card. *)
Record emufs_vnode := mkEv { ev_v : vnode emufs_ops; ev_handle : Z }.

Section emufs.
Context {H : Type} `{!EmuHw H} {cs : CurSpace}.

(** struct emufs_fs with the card, the vnodes in memory by their addresses, and
    the answers of the allocator. *)
Record eworld := mkEw {
  ef_emu : emu H;
  ef_root : option Z;
  ef_vnodes : array Z;
  ew_heap : gmap Z emufs_vnode;
  ew_next : Z;
  ew_mem : list bool;
}.

(** ** Access to the state *)

Definition on_emu {A} (m : stm (emu H) A) : stm eworld A := λ w,
  '(a, e) ← m (ef_emu w); Done (a, mkEw e (ef_root w) (ef_vnodes w) (ew_heap w) (ew_next w) (ew_mem w)).

Definition ew_kmalloc : stm eworld bool := λ w,
  match ew_mem w with
  | [] => Done (false, w)
  | b :: mem => Done (b, mkEw (ef_emu w) (ef_root w) (ef_vnodes w) (ew_heap w) (ew_next w) mem)
  end.

Definition ew_get (p : Z) : stm eworld emufs_vnode := λ w,
  match ew_heap w !! p with Some ev => Done (ev, w) | None => Undef end.
Definition set_heap (h : gmap Z emufs_vnode) : stm eworld unit :=
  modify (λ w, mkEw (ef_emu w) (ef_root w) (ef_vnodes w) h (ew_next w) (ew_mem w)).
Definition ew_put (p : Z) (ev : emufs_vnode) : stm eworld unit :=
  _ ← ew_get p; h ← gets ew_heap; set_heap (<[p := ev]> h).
Definition ew_kfree (p : Z) : stm eworld unit :=
  _ ← ew_get p; h ← gets ew_heap; set_heap (delete p h).
Definition ew_new (ev : emufs_vnode) : stm eworld Z := λ w,
  Done (ew_next w, mkEw (ef_emu w) (ef_root w) (ef_vnodes w) (<[ew_next w := ev]> (ew_heap w)) (ew_next w + 1) (ew_mem w)).
Definition set_vnodes (a : array Z) : stm eworld unit :=
  modify (λ w, mkEw (ef_emu w) (ef_root w) a (ew_heap w) (ew_next w) (ew_mem w)).
Definition set_root (r : option Z) : stm eworld unit :=
  modify (λ w, mkEw (ef_emu w) r (ef_vnodes w) (ew_heap w) (ew_next w) (ew_mem w)).

Definition ew_getv (p : Z) : stm eworld (vnode emufs_ops) := ev ← ew_get p; mret (ev_v ev).
Definition ew_putv (p : Z) (v : vnode emufs_ops) : stm eworld unit := ev ← ew_get p; ew_put p (mkEv v (ev_handle ev)).
Definition emufs_incref (p : Z) : stm eworld unit := v ← ew_getv p; v' ← lift (vnode_incref v); ew_putv p v'.

(** ** Vnode functions *)

Definition emufs_open (p openflags : Z) : stm eworld Z :=
  mret (if negb (Z.land openflags O_APPEND =? 0) then EUNIMP else 0).

Definition emufs_opendir (p openflags : Z) : stm eworld Z :=
  mret (if negb (Z.land openflags O_ACCMODE =? O_RDONLY) then EISDIR else
        if negb (Z.land openflags O_APPEND =? 0) then EISDIR else 0).

Definition emufs_close (p : Z) : stm eworld Z := mret 0.

(** The search for the vnode in the table; -1 when it is not there. *)
Definition emufs_find (p : Z) : stm eworld Z :=
  vnodes ← gets ef_vnodes;
  r ← for_stm (Z.to_nat (array_getnum vnodes)) 0
    (λ i _, evx ← lift (array_getguy vnodes i); mret (if evx =? p then inr i else inl tt)) tt;
  mret (match r with inl _ => -1 | inr ix => ix end).

Definition emufs_reclaim (p : Z) : stm eworld Z :=
  on_emu lock_emu;;
  ev ← ew_get p;
  if negb (vn_refcount (ev_v ev) =? 1) then on_emu unlock_emu;; mret EBUSY else
  result ← on_emu (emu_close (ev_handle ev));
  if negb (result =? 0) then on_emu unlock_emu;; mret result else
  ix ← emufs_find p;
  if ix <? 0 then lift Panic else
  vnodes ← gets ef_vnodes;
  vnodes' ← lift (array_remove vnodes ix);
  set_vnodes vnodes';;
  on_emu unlock_emu;;
  v' ← lift (vnode_kill (ev_v ev));
  ew_putv p v';;
  ew_kfree p;;
  mret 0.

(** The loops of [emufs_read] and [emufs_write]; every round but the last moves
    at least one byte. *)
Definition emu_amt (u : uio) : Z := if uio_resid u >? EMU_MAXIO then EMU_MAXIO else uio_resid u.

Definition emufs_rw_loop (io : Z → uio → stm (emu H) (Z * uio)) (u : uio) : stm eworld (Z * uio) :=
  r ← for_stm (S (Z.to_nat (uio_resid u))) 0
    (λ _ u,
       if negb (uio_resid u >? 0) then mret (inr (0, u)) else
       let oldresid := uio_resid u in
       '(result, u) ← on_emu (io (emu_amt u) u);
       if negb (result =? 0) then mret (inr (result, u)) else
       mret (if uio_resid u =? oldresid then inr (0, u) else inl u)) u;
  match r with inl _ => lift NoFuel | inr x => mret x end.

Definition emufs_read (p : Z) (u : uio) : stm eworld (Z * uio) :=
  ev ← ew_get p;
  lift (kassert (bool_decide (uio_rw_of u = UIO_READ)));;
  emufs_rw_loop (emu_read (ev_handle ev)) u.

Definition emufs_write (p : Z) (u : uio) : stm eworld (Z * uio) :=
  ev ← ew_get p;
  lift (kassert (bool_decide (uio_rw_of u = UIO_WRITE)));;
  emufs_rw_loop (emu_write (ev_handle ev)) u.

Definition emufs_getdirentry (p : Z) (u : uio) : stm eworld (Z * uio) :=
  ev ← ew_get p;
  lift (kassert (bool_decide (uio_rw_of u = UIO_READ)));;
  on_emu (emu_readdir (ev_handle ev) (emu_amt u) u).

Definition emufs_ioctl (p op data : Z) : stm eworld Z := mret EINVAL.

Definition emufs_file_gettype (p : Z) : stm eworld (Z * Z) := mret (0, S_IFREG).
Definition emufs_dir_gettype (p : Z) : stm eworld (Z * Z) := mret (0, S_IFDIR).

Definition emufs_gettype_of (ops : emufs_ops) (p : Z) : stm eworld (Z * Z) :=
  match ops with EmuFileOps => emufs_file_gettype p | EmuDirOps => emufs_dir_gettype p end.

Definition emufs_stat (p : Z) : stm eworld (Z * stat) :=
  ev ← ew_get p;
  '(result, mode) ← VOP (ew_getv p) false (λ ops, emufs_gettype_of ops p);
  if negb (result =? 0) then mret (result, mkStat 0 0 0 0) else
  '(result, size) ← on_emu (emu_getsize (ev_handle ev));
  if negb (result =? 0) then mret (result, mkStat mode 1 0 0) else
  mret (0, mkStat mode 1 size 0).

Definition emufs_tryseek (p pos : Z) : stm eworld Z := mret (if pos <? 0 then EINVAL else 0).
Definition emufs_fsync (p : Z) : stm eworld Z := mret 0.

Definition emufs_truncate (p len : Z) : stm eworld Z :=
  ev ← ew_get p; on_emu (emu_trunc (ev_handle ev) len).

(** The search of [emufs_loadvnode] for a vnode with the handle. *)
Definition emufs_lookfor (handle : Z) : stm eworld (option Z) :=
  vnodes ← gets ef_vnodes;
  r ← for_stm (Z.to_nat (array_getnum vnodes)) 0
    (λ i _, p ← lift (array_getguy vnodes i); ev ← ew_get p;
       mret (if ev_handle ev =? handle then inr p else inl tt)) tt;
  mret (match r with inl _ => None | inr p => Some p end).

(** Its second half: a new vnode. *)
Definition emufs_newvnode (handle : Z) (isdir : bool) : stm eworld (Z * Z) :=
  mem ← ew_kmalloc;
  if negb mem then on_emu unlock_emu;; mret (ENOMEM, 0) else
  mem ← ew_kmalloc;
  let '(result, v) := vnode_init mem (if isdir : bool then EmuDirOps else EmuFileOps) in
  if negb (result =? 0) then on_emu unlock_emu;; mret (result, 0) else
  p ← ew_new (mkEv v handle);
  vnodes ← gets ef_vnodes;
  mem ← ew_kmalloc;
  '(result, vnodes') ← lift (array_add mem vnodes p);
  set_vnodes vnodes';;
  if negb (result =? 0) then
    on_emu unlock_emu;;
    v' ← lift (vnode_kill v);
    ew_putv p v';;
    ew_kfree p;;
    mret (result, 0)
  else
  on_emu unlock_emu;;
  mret (0, p).

Definition emufs_loadvnode (handle : Z) (isdir : bool) : stm eworld (Z * Z) :=
  on_emu lock_emu;;
  found ← emufs_lookfor handle;
  match found with
  | Some p => emufs_incref p;; on_emu unlock_emu;; mret (0, p)
  | None => emufs_newvnode handle isdir
  end.

(** The common part of [emufs_creat] and [emufs_lookup]. *)
Definition emufs_openfile (p : Z) (name : list Z) (create excl : bool) : stm eworld (Z * Z) :=
  ev ← ew_get p;
  '(result, handle, isdir) ← on_emu (emu_open (ev_handle ev) name create excl);
  if negb (result =? 0) then mret (result, 0) else
  '(result, newguy) ← emufs_loadvnode handle isdir;
  if negb (result =? 0) then _ ← on_emu (emu_close handle); mret (result, 0) else
  mret (0, newguy).

Definition emufs_creat (p : Z) (name : list Z) (excl : bool) : stm eworld (Z * Z) := emufs_openfile p name true excl.
Definition emufs_lookup (p : Z) (pathname : list Z) : stm eworld (Z * Z) := emufs_openfile p pathname false false.

(** [strrchr(pathname, '/')]: what is before the last slash and what is after. *)
Fixpoint split_last (path : list Z) : option (list Z * list Z) :=
  match path with
  | [] => None
  | c :: path' =>
      match split_last path' with
      | Some (a, b) => Some (c :: a, b)
      | None => if c =? SLASH then Some ([], path') else None
      end
  end.

Definition emufs_lookparent (p : Z) (pathname : list Z) (len : Z) : stm eworld (Z * Z * list Z) :=
  match split_last pathname with
  | None =>
      if Z.of_nat (length pathname) + 1 >? len then mret (ENAMETOOLONG, 0, []) else
      emufs_incref p;; mret (0, p, pathname)
  | Some (dirpart, s) =>
      if Z.of_nat (length s) + 1 >? len then mret (ENAMETOOLONG, 0, []) else
      '(result, q) ← emufs_lookup p dirpart;
      mret (result, q, s)
  end.

Definition emufs_namefile (p : Z) (u : uio) : stm eworld (Z * uio) :=
  root ← gets ef_root;
  mret (if bool_decide (root = Some p) then 0 else EUNIMP, u).

Definition emufs_notdir : Z := ENOTDIR.
Definition emufs_isdir : Z := EISDIR.
Definition emufs_unimp : Z := EUNIMP.

Definition emufs_fileops : vnode_ops eworld := {|
  vop_open := emufs_open;
  vop_close := emufs_close;
  vop_reclaim := emufs_reclaim;
  vop_read := emufs_read;
  vop_readlink _ u := mret (emufs_notdir, u);
  vop_getdirentry _ u := mret (emufs_notdir, u);
  vop_write := emufs_write;
  vop_ioctl := emufs_ioctl;
  vop_stat := emufs_stat;
  vop_gettype := emufs_file_gettype;
  vop_tryseek := emufs_tryseek;
  vop_fsync := emufs_fsync;
  vop_mmap _ := mret emufs_unimp;
  vop_truncate := emufs_truncate;
  vop_namefile _ u := mret (emufs_notdir, u);
  vop_creat _ _ _ := mret (emufs_notdir, 0);
  vop_symlink _ _ _ := mret emufs_notdir;
  vop_mkdir _ _ := mret emufs_notdir;
  vop_link _ _ _ := mret emufs_notdir;
  vop_remove _ _ := mret emufs_notdir;
  vop_rmdir _ _ := mret emufs_notdir;
  vop_rename _ _ _ _ := mret emufs_notdir;
  vop_lookup _ _ := mret (emufs_notdir, 0);
  vop_lookparent _ _ _ := mret (emufs_notdir, 0, []);
|}.

Definition emufs_dirops : vnode_ops eworld := {|
  vop_open := emufs_opendir;
  vop_close := emufs_close;
  vop_reclaim := emufs_reclaim;
  vop_read _ u := mret (emufs_isdir, u);
  vop_readlink _ u := mret (emufs_isdir, u);
  vop_getdirentry := emufs_getdirentry;
  vop_write _ u := mret (emufs_isdir, u);
  vop_ioctl := emufs_ioctl;
  vop_stat := emufs_stat;
  vop_gettype := emufs_dir_gettype;
  vop_tryseek _ _ := mret emufs_unimp;
  vop_fsync _ := mret emufs_isdir;
  vop_mmap _ := mret emufs_isdir;
  vop_truncate _ _ := mret emufs_isdir;
  vop_namefile := emufs_namefile;
  vop_creat := emufs_creat;
  vop_symlink _ _ _ := mret emufs_unimp;
  vop_mkdir _ _ := mret emufs_unimp;
  vop_link _ _ _ := mret emufs_unimp;
  vop_remove _ _ := mret emufs_unimp;
  vop_rmdir _ _ := mret emufs_unimp;
  vop_rename _ _ _ _ := mret emufs_unimp;
  vop_lookup := emufs_lookup;
  vop_lookparent := emufs_lookparent;
|}.

Definition emufs_table (ops : emufs_ops) : vnode_ops eworld :=
  match ops with EmuFileOps => emufs_fileops | EmuDirOps => emufs_dirops end.

(** [VOP_X(vn, ...)] and [VOP_DECREF(vn)] on a vnode of the filesystem. *)
Definition emufs_VOP {A} (p : Z) (op : vnode_ops eworld → stm eworld A) : stm eworld A :=
  VOP (ew_getv p) false (λ ops, op (emufs_table ops)).
Definition emufs_decref (p : Z) : stm eworld unit :=
  vnode_decref (ew_getv p) (ew_putv p) (λ ops, vop_reclaim (emufs_table ops) p).

(** ** Filesystem functions *)

Definition emufs_sync : stm eworld Z := mret 0.
Definition emufs_getvolname : stm eworld (option (list Z)) := mret None.
Definition emufs_getroot : stm eworld Z :=
  root ← gets ef_root;
  p ← lift (match root with Some p => Done p | None => Panic end);
  emufs_incref p;;
  mret p.
Definition emufs_unmount : stm eworld Z := mret EBUSY.

(** The root vnode of a new filesystem. *)
Definition emufs_loadroot : stm eworld Z :=
  '(result, p) ← emufs_loadvnode EMU_ROOTHANDLE true;
  if negb (result =? 0) then mret result else
  set_root (Some p);; mret 0.

(** The abstract filesystem set up by [emufs_addtovfs]. *)
Definition emufs_fsops : fs_ops eworld := {|
  fs_sync := emufs_sync;
  fs_getvolname := emufs_getvolname;
  fs_getroot := emufs_getroot;
  fs_unmount := emufs_unmount;
|}.
End emufs.
Arguments eworld _ : clear implicits.

(** ** Adding the filesystem to the VFS layer *)

Section addtovfs.
Context {H : Type} `{!EmuHw H} {cs : CurSpace}.
Context {W Ops : Type} `{!VnodeWorld W Ops}.

(** The part of the world the filesystem at the address [ef] has for itself. *)
Context (on_emufs : ∀ A, stm (eworld H) A → stm W A) (ef : Z).
Arguments on_emufs {A} _.

Definition in_emufs {A} (m : stm (eworld H) A) : stm (vfs W) A := on_w (on_emufs m).

Definition emufs_addtovfs (devname : list Z) : stm (vfs W) Z :=
  mem ← in_emufs ew_kmalloc;
  if negb mem then mret ENOMEM else
  in_emufs (set_root None);;
  mem ← in_emufs ew_kmalloc;
  match array_create mem with
  | None => mret ENOMEM
  | Some vnodes =>
      in_emufs (set_vnodes vnodes);;
      result ← in_emufs emufs_loadroot;
      if negb (result =? 0) then mret result else
      result ← vfs_addfs devname ef;
      if negb (result =? 0) then in_emufs (root ← gets ef_root; p ← lift (match root with Some p => Done p | None => Undef end); emufs_decref p);; mret result else
      mret result
  end.

(** [mem1] and [mem2]: the answers of [lock_create] and [sem_create]. *)
Definition config_emu (mem1 mem2 : bool) (emuno : Z) : stm (vfs W) Z :=
  if negb mem1 then mret ENOMEM else
  if negb mem2 then mret ENOMEM else
  in_emufs (on_emu (modify (λ e, mkEmu false 0 (e_result e) (e_regs e) (e_hw e))));;
  emufs_addtovfs (str ("emu" +:+ pretty emuno)).
End addtovfs.
