(* ===== verification/EmuLaws.v ===== *)
(** * What the card promises, and the operations of the driver on it *)

From S2P Require Import Prelude Array Copyinout Uio Lhd Vnode Device Vfs Emu Emufs.

(** The result codes that report a mistake of the driver. *)
Definition fatal (code : Z) : bool :=
  (code =? EMU_RES_BADHANDLE) || (code =? EMU_RES_BADOP) || (code =? EMU_RES_BADSIZE).

Definition opens (op : Z) : bool := (op =? EMU_OP_OPEN) || (op =? EMU_OP_CREATE) || (op =? EMU_OP_EXCLCREATE).

(** [d] written over [b] at [off], with zeros in a gap. *)
Definition write_at (b : list Z) (off : Z) (d : list Z) : list Z :=
  buf_write (b ++ replicate (Z.to_nat (off + Z.of_nat (length d)) - length b) 0) off d.

(** Without mistakes: an open handle, an operation the card knows, and no more
    bytes than its buffer has.  Then the card never reports a mistake.  An
    operation changes the open handles and the files as its name says. *)
Class EmuLaws (H : Type) `{!EmuHw H} := {
  hw_ok : H → Prop;
  hw_open : H → gset Z;
  hw_file : H → Z → Z;
  hw_bytes : H → Z → list Z;
  request (h : H) (op : Z) (r : emu_regs) : Prop :=
    reg_handle r ∈ hw_open h ∧ 1 ≤ op ≤ 9 ∧ Z.of_nat (length (emu_buffer r)) = EMU_MAXIO ∧
    (op ≤ 3 ∨ 5 ≤ op ≤ 7 → 0 ≤ reg_iolen r ≤ EMU_MAXIO) ∧ (op = EMU_OP_TRUNC → 0 ≤ reg_iolen r ≤ INT_MAX) ∧
    (5 ≤ op ≤ 7 → 0 ≤ reg_offset r ≤ INT_MAX);
  law_emu h op r : hw_ok h → request h op r →
    let '(r', h') := emu_run h op r in
    hw_ok h' ∧ length (emu_buffer r') = length (emu_buffer r) ∧ fatal (reg_result r') = false ∧
    (∀ x, x ∈ hw_open h → hw_file h' x = hw_file h x) ∧
    hw_open h' =
      (if reg_result r' =? EMU_RES_SUCCESS then
         if opens op then {[reg_handle r']} ∪ hw_open h else
         if op =? EMU_OP_CLOSE then hw_open h ∖ {[reg_handle r]} else hw_open h
       else hw_open h) ∧
    (reg_result r' = EMU_RES_SUCCESS → opens op = true → 0 ≤ reg_handle r' < 4294967296);
  law_emu_bytes h op r f : hw_ok h → request h op r →
    (op = EMU_OP_WRITE ∨ op = EMU_OP_TRUNC → f ≠ hw_file h (reg_handle r)) →
    hw_bytes (emu_run h op r).2 f = hw_bytes h f;
  law_emu_read h r : hw_ok h → request h EMU_OP_READ r →
    let b := hw_bytes h (hw_file h (reg_handle r)) in
    let '(r', _) := emu_run h EMU_OP_READ r in
    reg_result r' = EMU_RES_SUCCESS →
    0 ≤ reg_iolen r' ≤ reg_iolen r ∧ slice (emu_buffer r') 0 (reg_iolen r') = slice b (reg_offset r) (reg_iolen r') ∧
    (reg_iolen r' = 0 ∨ reg_offset r + reg_iolen r' ≤ Z.of_nat (length b)) ∧
    (reg_iolen r' = 0 → reg_iolen r = 0 ∨ Z.of_nat (length b) ≤ reg_offset r) ∧
    reg_offset r' = reg_offset r + reg_iolen r';
  law_emu_readdir h r : hw_ok h → request h EMU_OP_READDIR r →
    let '(r', _) := emu_run h EMU_OP_READDIR r in
    reg_result r' = EMU_RES_SUCCESS → 0 ≤ reg_iolen r' ≤ reg_iolen r;
  law_emu_write h r : hw_ok h → request h EMU_OP_WRITE r →
    let f := hw_file h (reg_handle r) in
    let '(r', h') := emu_run h EMU_OP_WRITE r in
    reg_result r' = EMU_RES_SUCCESS →
    hw_bytes h' f = write_at (hw_bytes h f) (reg_offset r) (slice (emu_buffer r) 0 (reg_iolen r));
}.

(** A card that always closes a file. *)
Definition reliable {H} `{!EmuHw H} `{!EmuLaws H} : Prop := ∀ h r,
  hw_ok h → request h EMU_OP_CLOSE r → reg_result (emu_run h EMU_OP_CLOSE r).1 = EMU_RES_SUCCESS.

Section card.
Context {H : Type} `{!EmuHw H} `{!EmuLaws H} {cs : CurSpace}.
Implicit Types (e : emu H) (w : eworld H).

Lemma translate_wp code : fatal code = false →
  wp (translate_err code) (λ r, r = 0 ↔ code = EMU_RES_SUCCESS).
Proof.
  unfold fatal, translate_err. intros Hf. destruct (Z.eqb_spec code EMU_RES_SUCCESS); [done|]. rewrite Hf.
  repeat (case_match; [done|]). done.
Qed.

(** Between two requests. *)
Definition idle (lk : bool) e : Prop :=
  e_lock e = lk ∧ e_sem e = 0 ∧ Z.of_nat (length (emu_buffer (e_regs e))) = EMU_MAXIO ∧ hw_ok (e_hw e).

(** The files of the handles that were open stay. *)
Definition same_handles (h h' : H) : Prop := ∀ x, x ∈ hw_open h → hw_file h' x = hw_file h x.
Definition same_bytes (h h' : H) : Prop := ∀ f, hw_bytes h' f = hw_bytes h f.

(** After a request [op], with the arguments [r], that ended with the error [res]. *)
Record served (h : H) (op : Z) (r : emu_regs) (res : Z) e' : Prop := {
  s_idle : idle true e';
  s_run : ∃ r', emu_run h op r = (r', e_hw e') ∧ (res = 0 ↔ reg_result r' = EMU_RES_SUCCESS) ∧
    e_regs e' = mkRegs (reg_handle r') (reg_offset r') (reg_iolen r') 0 (emu_buffer r');
  s_files : same_handles h (e_hw e');
  s_bytes f : (op = EMU_OP_WRITE ∨ op = EMU_OP_TRUNC → f ≠ hw_file h (reg_handle r)) → hw_bytes (e_hw e') f = hw_bytes h f;
  s_open : hw_open (e_hw e') =
    if res =? 0 then
      if opens op then {[reg_handle (e_regs e')]} ∪ hw_open h else
      if op =? EMU_OP_CLOSE then hw_open h ∖ {[reg_handle r]} else hw_open h
    else hw_open h;
  s_fresh : res = 0 → opens op = true → 0 ≤ reg_handle (e_regs e') < 4294967296;
}.

Lemma oper_wp op e :
  idle true e → request (e_hw e) op (e_regs e) →
  swp (wreg_oper op;; emu_waitdone) e (λ res e', served (e_hw e) op (e_regs e) res e').
Proof.
  intros (Hl & Hs & Hb & Hok) Hreq. pose proof (law_emu _ _ _ Hok Hreq) as Hlaw.
  pose proof (λ f, law_emu_bytes _ _ _ f Hok Hreq) as Hbytes.
  destruct (emu_run (e_hw e) op (e_regs e)) as [r' h'] eqn:E. destruct Hlaw as (Hok' & Hlen & Hf & Hsame & Hopen & Hfresh).
  unfold wreg_oper, emu_irq, emu_waitdone, rreg, wreg_result, set_regs. apply swp_bind, swp_bind, swp_modify. rewrite E.
  repeat (apply swp_bind, swp_gets || apply swp_bind, swp_modify). cbn [e_sem]. rewrite Hs.
  apply swp_bind, swp_lift. cbn [wp sem_V to_int]. apply swp_modify. cbn [e_sem e_lock e_result e_regs e_hw reg_handle reg_offset reg_iolen reg_result emu_buffer].
  apply swp_bind, swp_gets. cbn [e_sem]. apply swp_bind, swp_lift. cbn [wp sem_P Z.gtb Z.compare].
  apply swp_bind, swp_modify, swp_bind, swp_gets, swp_lift. cbn [e_result]. eapply wp_mono; [by apply translate_wp|].
  intros r Hr. assert ((r =? 0) = (reg_result r' =? EMU_RES_SUCCESS)) as Hb2 by (apply eq_iff_eq_true; by rewrite !Z.eqb_eq).
  split; cbn [e_lock e_sem e_result e_regs e_hw reg_handle reg_offset reg_iolen reg_result emu_buffer].
  - split_and!; cbn; [done|done|by rewrite Hlen|done].
  - by exists r'.
  - exact Hsame.
  - intros f Hf'. by apply Hbytes.
  - by rewrite Hopen, Hb2.
  - intros H0 Ho. apply Hfresh; [by apply Hr|done].
Qed.

Lemma oper_bind_wp {A} op (f : Z → stm (emu H) A) e (Q : A → emu H → Prop) :
  idle true e → request (e_hw e) op (e_regs e) →
  (∀ res e', served (e_hw e) op (e_regs e) res e' → swp (f res) e' Q) →
  swp (wreg_oper op;; res ← emu_waitdone; f res) e Q.
Proof.
  intros Hi Hreq HQ. pose proof (oper_wp op e Hi Hreq) as Ho. unfold swp, mbind, stm_bind, mbind, outcome_bind in *.
  destruct (wreg_oper op e) as [[[] e1]| | |]; [|done..]. destruct (emu_waitdone e1) as [[res e2]| | |]; [|done..]. by apply HQ.
Qed.

Lemma lock_wp e (Q : unit → emu H → Prop) :
  idle false e → (idle true (mkEmu true 0 (e_result e) (e_regs e) (e_hw e)) → Q tt (mkEmu true 0 (e_result e) (e_regs e) (e_hw e))) → swp lock_emu e Q.
Proof. intros (Hl & Hs & Hb & Hok) HQ. unfold swp, lock_emu. rewrite Hl, Hs. by apply HQ. Qed.

Lemma unlock_wp e (Q : unit → emu H → Prop) :
  idle true e → (∀ e', idle false e' → e_hw e' = e_hw e → e_regs e' = e_regs e → Q tt e') → swp unlock_emu e Q.
Proof. intros (Hl & Hs & Hb & Hok) HQ. unfold swp, unlock_emu. rewrite Hl. cbn [wp]. by apply HQ. Qed.

(** ** The operations *)

(** Handles and offsets the driver has are values of the registers. *)
Definition is_handle (h : Z) : Prop := 0 ≤ h < 4294967296.

Ltac regs := unfold wreg_handle, wreg_iolen, wreg_offset, set_iobuf, set_regs;
  repeat (apply swp_bind, swp_modify; cbn [e_lock e_sem e_result e_regs e_hw reg_handle reg_offset reg_iolen reg_result emu_buffer]).

Lemma emu_open_wp handle name create excl e :
  idle false e → handle ∈ hw_open (e_hw e) → is_handle handle →
  swp (emu_open handle name create excl) e (λ '(r, h, _) e', idle false e' ∧ same_handles (e_hw e) (e_hw e') ∧ same_bytes (e_hw e) (e_hw e') ∧
    if r =? 0 then is_handle h ∧ hw_open (e_hw e') = {[h]} ∪ hw_open (e_hw e)
    else hw_open (e_hw e') = hw_open (e_hw e)).
Proof.
  intros Hi Hh Hr. unfold emu_open. destruct (Z.gtb_spec (Z.of_nat (length name) + 1) EMU_MAXIO) as [|Hlen]; [by apply swp_ret|].
  apply swp_bind, lock_wp; [done|]. intros (_ & _ & Hb & Hok).
  unfold strcpy_iobuf. apply swp_bind, swp_bind, swp_gets. cbn [e_regs]. unfold set_iobuf, set_regs. apply swp_modify. regs.
  set (op := if create && excl then EMU_OP_EXCLCREATE else if create then EMU_OP_CREATE else EMU_OP_OPEN).
  assert (opens op = true ∧ 1 ≤ op ≤ 3) as [Hop Hop3] by (unfold op; destruct create, excl; by split).
  assert (Z.of_nat (length (buf_write (emu_buffer (e_regs e)) 0 (name ++ [0]))) = EMU_MAXIO) as Hbw.
  { cbn in Hb. rewrite length_buf_write; [done|]. rewrite length_app. cbn [length]. unfold EMU_MAXIO in *. lia. }
  assert (EMU_MAXIO = 16384) as Hmax by done.
  apply oper_bind_wp; [done|split_and!; cbn; unfold EMU_OP_TRUNC; rewrite ?u32_small by (unfold is_handle in Hr; lia); try done; lia|].
  intros res e1 Hsv. pose proof (s_open _ _ _ _ _ Hsv) as Hopen. pose proof (s_fresh _ _ _ _ _ Hsv) as Hfresh. rewrite Hop in Hopen.
  assert (same_bytes (e_hw e) (e_hw e1)) as Hbytes.
  { intros f. apply (s_bytes _ _ _ _ _ Hsv). unfold EMU_OP_WRITE, EMU_OP_TRUNC. lia. }
  apply swp_bind. destruct (Z.eqb_spec res 0) as [->|Hres].
  - unfold rreg. apply swp_bind, swp_gets, swp_bind, swp_gets, swp_ret, swp_bind, unlock_wp; [apply Hsv|].
    intros e' Hi' Eh Er. apply swp_ret. rewrite Eh. split_and!; [done|apply Hsv|done|]. cbn [Z.eqb].
    split; [by apply Hfresh|done].
  - apply swp_ret, swp_bind, unlock_wp; [apply Hsv|]. intros e' Hi' Eh Er. apply swp_ret. rewrite Eh, (proj2 (Z.eqb_neq _ _) Hres).
    split_and!; [done|apply Hsv|done|done].
Qed.

(** Closing, with the lock held. *)
Lemma emu_close_loop_wp handle e :
  idle true e → handle ∈ hw_open (e_hw e) → is_handle handle →
  swp (emu_close_loop handle) e (λ r e', idle true e' ∧ same_handles (e_hw e) (e_hw e') ∧ same_bytes (e_hw e) (e_hw e') ∧
    hw_open (e_hw e') = (if r =? 0 then hw_open (e_hw e) ∖ {[handle]} else hw_open (e_hw e)) ∧ (reliable → r = 0)).
Proof.
  intros Hi Hh Hr. unfold emu_close_loop. apply swp_bind.
  set (Q r e' := idle true e' ∧ same_handles (e_hw e) (e_hw e') ∧ same_bytes (e_hw e) (e_hw e') ∧
    hw_open (e_hw e') = (if r =? 0 then hw_open (e_hw e) ∖ {[handle]} else hw_open (e_hw e)) ∧ (reliable → r = 0)).
  eapply swp_mono; [apply (swp_for_stm (λ j (_ : unit) e', j ≤ 10 ∧ idle true e' ∧ same_handles (e_hw e) (e_hw e') ∧ same_bytes (e_hw e) (e_hw e') ∧
    hw_open (e_hw e') = hw_open (e_hw e)) Q 11 0); [by split_and!|]|].
  - intros j [] e1 Hj (_ & Hi1 & Hsame & Hby & Ho). regs.
    assert (request (e_hw e1) EMU_OP_CLOSE (mkRegs (u32 handle) (reg_offset (e_regs e1)) (reg_iolen (e_regs e1)) (reg_result (e_regs e1)) (emu_buffer (e_regs e1)))) as Hreq.
    { unfold is_handle in Hr. split_and!; cbn; rewrite ?u32_small, ?Ho by lia; try done; unfold EMU_OP_CLOSE, EMU_OP_TRUNC; lia || apply Hi1. }
    apply oper_bind_wp; [done|done|]. cbn [e_hw e_regs]. intros res e2 Hsv. apply swp_ret.
    assert (same_handles (e_hw e) (e_hw e2)) as Hsame2.
    { intros x Hx. rewrite (s_files _ _ _ _ _ Hsv) by by rewrite Ho. by apply Hsame. }
    assert (same_bytes (e_hw e) (e_hw e2)) as Hby2. { intros f. rewrite <-Hby. apply (s_bytes _ _ _ _ _ Hsv). by intros [[=]|[=]]. }
    pose proof (s_open _ _ _ _ _ Hsv) as Ho2. cbn in Ho2. rewrite u32_small, Ho in Ho2 by done.
    destruct (Z.eqb_spec res EIO) as [->|Hne]; destruct (Z.ltb_spec j 10); cbn [andb]; [split_and!; [lia|apply Hsv|done..]|..];
      (split_and!; [apply Hsv|done|done|exact Ho2|]; intros Hrel; destruct (s_run _ _ _ _ _ Hsv) as (r' & E & Hres & _); apply Hres;
       pose proof (Hrel _ _ (proj2 (proj2 (proj2 Hi1))) Hreq) as Hok; by rewrite E in Hok).
  - intros [[]|res] e1; [intros (Hj & _); lia|]. intros HQ. by apply swp_ret.
Qed.

Lemma emu_close_wp handle lk e :
  idle lk e → handle ∈ hw_open (e_hw e) → is_handle handle →
  swp (emu_close handle) e (λ r e', idle lk e' ∧ same_handles (e_hw e) (e_hw e') ∧ same_bytes (e_hw e) (e_hw e') ∧
    hw_open (e_hw e') = (if r =? 0 then hw_open (e_hw e) ∖ {[handle]} else hw_open (e_hw e)) ∧ (reliable → r = 0)).
Proof.
  intros Hi Hh Hr. unfold emu_close. apply swp_bind, swp_gets. pose proof Hi as (Hl & _). rewrite Hl. destruct lk; apply swp_bind.
  - apply swp_ret, swp_bind. eapply swp_mono; [by apply emu_close_loop_wp|]. intros r e' H'. apply swp_bind, swp_ret. by apply swp_ret.
  - apply lock_wp; [done|]. intros Hi1. apply swp_bind. eapply swp_mono; [by apply emu_close_loop_wp|]. cbn [e_hw].
    intros r e' (Hi' & H'). apply swp_bind, unlock_wp; [done|]. intros e2 Hi2 Eh _. apply swp_ret. by rewrite Eh.
Qed.

(** What a request that only looks leaves as it was. *)
Definition same_card (h h' : H) : Prop := hw_open h' = hw_open h ∧ same_handles h h' ∧ same_bytes h h'.

Lemma same_card_refl h : same_card h h.
Proof. done. Qed.

Lemma same_card_trans h1 h2 h3 : same_card h1 h2 → same_card h2 h3 → same_card h1 h3.
Proof.
  intros (O1 & F1 & B1) (O2 & F2 & B2). split; [congruence|]. split.
  - intros x Hx. rewrite F2 by by rewrite O1. by apply F1.
  - intros f. by rewrite B2.
Qed.

Lemma served_card h op r res e' :
  served h op r res e' → opens op = false → op ≠ EMU_OP_CLOSE → op ≠ EMU_OP_WRITE → op ≠ EMU_OP_TRUNC → same_card h (e_hw e').
Proof.
  intros Hs Ho Hc Hw Ht. pose proof (s_open _ _ _ _ _ Hs) as E. rewrite Ho, (proj2 (Z.eqb_neq _ _) Hc) in E. split; [by destruct (res =? 0)|].
  split; [apply Hs|]. intros f. apply (s_bytes _ _ _ _ _ Hs). by intros [?|?].
Qed.

Definition read_regs handle len (u : uio) e : emu_regs :=
  mkRegs handle (uio_offset u) len (reg_result (e_regs e)) (emu_buffer (e_regs e)).

(** The request of a read, and where its answer goes. *)
Lemma emu_doread_core handle len op u e (Q : Z * uio → emu H → Prop) :
  idle false e → handle ∈ hw_open (e_hw e) → is_handle handle → uio_rw_of u = UIO_READ →
  op = EMU_OP_READ ∨ op = EMU_OP_READDIR → 0 ≤ len ≤ EMU_MAXIO → 0 ≤ uio_offset u ≤ INT_MAX →
  (∀ res e1, served (e_hw e) op (read_regs handle len u e) res e1 →
     if res =? 0 then wp (uiomove (emu_buffer (e_regs e1)) 0 (reg_iolen (e_regs e1)) u) (λ '(r, b', u'),
       Z.of_nat (length b') = EMU_MAXIO ∧
       ∀ e2, idle false e2 → e_hw e2 = e_hw e1 → Q (r, with_offset (s32 (reg_offset (e_regs e1))) u') e2)
     else ∀ e2, idle false e2 → e_hw e2 = e_hw e1 → Q (res, u) e2) →
  swp (emu_doread handle len op u) e Q.
Proof.
  intros Hi Hh Hr Hrw Hop Hlen Hoff HQ. unfold emu_doread. apply swp_bind, swp_lift. rewrite bool_decide_eq_true_2 by done. cbn [wp kassert].
  apply swp_bind, lock_wp; [done|]. intros (_ & _ & Hb & Hok). cbn in Hb, Hok. regs. unfold is_handle, EMU_MAXIO, INT_MAX in *.
  rewrite !u32_small by lia. apply oper_bind_wp; [done| |].
  { unfold EMU_OP_READ, EMU_OP_READDIR in *. split_and!; cbn; unfold EMU_OP_TRUNC, EMU_MAXIO, INT_MAX; try done; lia. }
  cbn [e_hw e_regs]. intros res e1 Hs. specialize (HQ res e1 Hs). apply swp_bind. destruct (Z.eqb_spec res 0) as [->|Hres]; cbn [negb].
  - unfold rreg. apply swp_bind, swp_gets, swp_bind, swp_gets, swp_bind, swp_lift. eapply wp_mono; [exact HQ|].
    intros [[r b'] u'] [Hb' HQ']. regs. apply swp_bind, swp_gets. cbn [e_regs reg_offset]. apply swp_ret, swp_bind, unlock_wp.
    + destruct (s_idle _ _ _ _ _ Hs) as (? & ? & ? & ?). by split_and!.
    + intros e2 Hi2 Eh _. apply swp_ret. by apply HQ'.
  - apply swp_ret, swp_bind, unlock_wp; [apply Hs|]. intros e2 Hi2 Eh _. apply swp_ret. by apply HQ.
Qed.

(** A uio that leaves the offsets in range. *)
Definition uio_in (u : uio) : Prop := uio_ok u ∧ 0 ≤ uio_offset u ∧ uio_offset u + uio_resid u ≤ INT_MAX.

Lemma served_run h op r res e' : served h op r res e' →
  ∃ r', emu_run h op r = (r', e_hw e') ∧ (res = 0 ↔ reg_result r' = EMU_RES_SUCCESS) ∧
    reg_offset (e_regs e') = reg_offset r' ∧ reg_iolen (e_regs e') = reg_iolen r' ∧ emu_buffer (e_regs e') = emu_buffer r'.
Proof. intros Hs. destruct (s_run _ _ _ _ _ Hs) as (r' & E & Hres & ->). by exists r'. Qed.

Lemma read_request handle len u e :
  handle ∈ hw_open (e_hw e) → idle false e → 0 ≤ len ≤ EMU_MAXIO → 0 ≤ uio_offset u ≤ INT_MAX →
  ∀ op, op = EMU_OP_READ ∨ op = EMU_OP_READDIR ∨ op = EMU_OP_WRITE → request (e_hw e) op (read_regs handle len u e).
Proof.
  intros Hh (_ & _ & Hb & _) Hlen Hoff op Hop. unfold EMU_OP_READ, EMU_OP_READDIR, EMU_OP_WRITE in Hop.
  split_and!; cbn; unfold EMU_OP_TRUNC; try done; lia.
Qed.

Lemma emu_readdir_wp handle len u e :
  idle false e → handle ∈ hw_open (e_hw e) → is_handle handle → uio_rw_of u = UIO_READ → 0 ≤ len ≤ EMU_MAXIO → uio_in u →
  swp (emu_readdir handle len u) e (λ _ e', idle false e' ∧ same_card (e_hw e) (e_hw e')).
Proof.
  intros Hi Hh Hr Hrw Hlen (Hu & Hoff & Hmax). destruct Hu as (Hres & Hl & Hb).
  apply emu_doread_core; try done; [by right|lia|]. intros res e1 Hs.
  assert (same_card (e_hw e) (e_hw e1)) as Hsame by by eapply served_card. destruct (Z.eqb_spec res 0) as [->|]; [|by intros e2 Hi2 ->].
  assert (request (e_hw e) EMU_OP_READDIR (read_regs handle len u e)) as Hreq by (apply read_request; auto; lia).
  pose proof (law_emu_readdir _ _ (proj2 (proj2 (proj2 Hi))) Hreq) as Hlaw.
  destruct (served_run _ _ _ _ _ Hs) as (r' & E & Hsucc & Eo & En & Eb). rewrite E in Hlaw. specialize (Hlaw (proj1 Hsucc eq_refl)). cbn in Hlaw.
  destruct (s_idle _ _ _ _ _ Hs) as (_ & _ & Hbuf & _).
  eapply wp_mono; [apply uiomove_wp; [done|lia|lia|lia]|]. intros [[r b'] u'] (Hlb & _). split; [lia|]. by intros e2 Hi2 ->.
Qed.

(** A read moves some bytes of the file, and none only at its end. *)
Lemma emu_read_wp handle len u e :
  idle false e → handle ∈ hw_open (e_hw e) → is_handle handle → uio_rw_of u = UIO_READ →
  0 ≤ len ≤ EMU_MAXIO → len ≤ uio_resid u → uio_in u →
  swp (emu_read handle len u) e (λ '(r, u') e', idle false e' ∧ same_card (e_hw e) (e_hw e') ∧ uio_rw_of u' = UIO_READ ∧
    (r = 0 → uio_in u' ∧ uio_resid u' ≤ uio_resid u)).
Proof.
  intros Hi Hh Hr Hrw Hlen Hle (Hu & Hoff & Hmax). pose proof Hu as (Hres & Hl & _).
  apply emu_doread_core; try done; [by left|lia|]. intros res e1 Hs.
  assert (same_card (e_hw e) (e_hw e1)) as Hsame by by eapply served_card. destruct (Z.eqb_spec res 0) as [->|]; [|by intros e2 Hi2 ->].
  assert (request (e_hw e) EMU_OP_READ (read_regs handle len u e)) as Hreq by (apply read_request; auto; lia).
  pose proof (law_emu_read _ _ (proj2 (proj2 (proj2 Hi))) Hreq) as Hlaw. cbv zeta in Hlaw.
  destruct (served_run _ _ _ _ _ Hs) as (r' & E & Hsucc & Eo & En & Eb). rewrite E in Hlaw. destruct (Hlaw (proj1 Hsucc eq_refl)) as (Hn & _ & _ & _ & Ho).
  cbn in Hn, Ho. destruct (s_idle _ _ _ _ _ Hs) as (_ & _ & Hbuf & _).
  eapply wp_mono; [apply uiomove_wp; [done|lia|lia|lia]|]. intros [[r b'] u'] (Hlb & _ & Hrw' & Hu' & Hrs & _). split; [lia|]. intros e2 Hi2 ->.
  split_and!; try done; [cbn; congruence|]. intros ->. specialize (Hrs eq_refl). rewrite Eo, Ho, s32_small by (unfold INT_MIN, INT_MAX in *; lia).
  split; [|cbn; lia]. split; [exact Hu'|]. cbn. lia.
Qed.

Lemma emu_read_kuio_wp handle len mem pos ln off resid e :
  let b := hw_bytes (e_hw e) (hw_file (e_hw e) handle) in
  idle false e → handle ∈ hw_open (e_hw e) → is_handle handle → 0 ≤ len ≤ EMU_MAXIO → len ≤ resid → kuio_ok mem pos ln off resid →
  swp (emu_read handle len (kuio UIO_READ mem pos ln off resid)) e (λ '(r, u') e', idle false e' ∧ same_card (e_hw e) (e_hw e') ∧
    ∃ n, 0 ≤ n ≤ len ∧ u' = kuio UIO_READ (buf_write mem pos (slice b off n)) (pos + n) (ln - n) (off + n) (resid - n) ∧
      (n = 0 ∨ off + n ≤ Z.of_nat (length b)) ∧ (r = 0 → n = 0 → len = 0 ∨ Z.of_nat (length b) ≤ off)).
Proof.
  intros b Hi Hh Hr Hlen Hle Hk. pose proof Hk as (Hp & Hm & Hrs & Hl & Hoff & Hmax).
  apply emu_doread_core; try done; [by left|cbn; lia|]. intros res e1 Hs.
  assert (same_card (e_hw e) (e_hw e1)) as Hsame by by eapply served_card. destruct (Z.eqb_spec res 0) as [->|Hres].
  2: { intros e2 Hi2 ->. split_and!; [done..|]. exists 0. rewrite !Z.add_0_r, !Z.sub_0_r. change (slice b off 0) with (@nil Z). rewrite buf_write_nil.
       split_and!; [lia|lia|done|by left|done]. }
  assert (request (e_hw e) EMU_OP_READ (read_regs handle len (kuio UIO_READ mem pos ln off resid) e)) as Hreq by (apply read_request; cbn; auto; lia).
  pose proof (law_emu_read _ _ (proj2 (proj2 (proj2 Hi))) Hreq) as Hlaw. cbv zeta in Hlaw.
  destruct (served_run _ _ _ _ _ Hs) as (r' & E & Hsucc & Eo & En & Eb). rewrite E in Hlaw. destruct (Hlaw (proj1 Hsucc eq_refl)) as (Hn & Hd & Hend & Hz & Ho).
  cbn in Hn, Hd, Hend, Hz, Ho. fold b in Hd, Hend, Hz. destruct (s_idle _ _ _ _ _ Hs) as (_ & _ & Hbuf & _).
  rewrite En, Eb in *. rewrite uiomove_kuio by (done || lia). cbn [wp]. split; [lia|]. intros e2 Hi2 ->. split_and!; [done..|].
  exists (reg_iolen r'). rewrite Eo, Ho, Hd, s32_small by (unfold INT_MIN, INT_MAX in *; lia). split_and!; [lia|lia|done|done|by intros _].
Qed.

(** A write; without an error all the bytes are in the file. *)
Lemma emu_write_core handle len u e (Q : Z * uio → emu H → Prop) :
  idle false e → handle ∈ hw_open (e_hw e) → is_handle handle → uio_rw_of u = UIO_WRITE →
  0 ≤ len ≤ EMU_MAXIO → 0 ≤ uio_offset u ≤ INT_MAX →
  wp (uiomove (emu_buffer (e_regs e)) 0 len u) (λ '(r, b', u'), Z.of_nat (length b') = EMU_MAXIO ∧
    if r =? 0 then
      let r1 := mkRegs handle (uio_offset u) len (reg_result (e_regs e)) b' in
      request (e_hw e) EMU_OP_WRITE r1 →
      ∀ res e1 e2, served (e_hw e) EMU_OP_WRITE r1 res e1 → idle false e2 → e_hw e2 = e_hw e1 → Q (res, u') e2
    else ∀ e2, idle false e2 → e_hw e2 = e_hw e → Q (r, u') e2) →
  swp (emu_write handle len u) e Q.
Proof.
  intros Hi Hh Hr Hrw Hlen Hoff HQ. unfold emu_write. apply swp_bind, swp_lift. rewrite bool_decide_eq_true_2 by done. cbn [wp kassert].
  apply swp_bind, lock_wp; [done|]. intros (_ & _ & Hb & Hok). cbn in Hb, Hok. regs. unfold is_handle, INT_MAX in *.
  assert (EMU_MAXIO = 16384) as Hmax by done. rewrite !u32_small by lia. apply swp_bind, swp_gets. cbn [e_regs emu_buffer].
  apply swp_bind, swp_lift. eapply wp_mono; [exact HQ|]. intros [[r b'] u'] [Hb' HQ']. regs. apply swp_bind.
  destruct (Z.eqb_spec r 0) as [->|Hne]; cbn [negb].
  - assert (request (e_hw e) EMU_OP_WRITE (mkRegs handle (uio_offset u) len (reg_result (e_regs e)) b')) as Hreq.
    { split_and!; cbn; unfold EMU_OP_WRITE, EMU_OP_TRUNC, INT_MAX; try done; lia. }
    eapply swp_mono; [apply oper_wp; [done|exact Hreq]|]. cbn [e_hw e_regs]. intros res e1 Hs.
    apply swp_bind, unlock_wp; [apply Hs|]. intros e2 Hi2 Eh _. apply swp_ret. by eapply HQ'.
  - apply swp_ret, swp_bind, unlock_wp; [done|]. intros e2 Hi2 Eh _. apply swp_ret. by apply HQ'.
Qed.

(** Only the file of the handle may have changed. *)
Definition wrote_to (handle : Z) (h h' : H) : Prop :=
  hw_open h' = hw_open h ∧ same_handles h h' ∧ ∀ f, f ≠ hw_file h handle → hw_bytes h' f = hw_bytes h f.

Lemma served_wrote h op r res e' :
  served h op r res e' → op = EMU_OP_WRITE ∨ op = EMU_OP_TRUNC → wrote_to (reg_handle r) h (e_hw e').
Proof.
  intros Hs Hop. pose proof (s_open _ _ _ _ _ Hs) as E. split; [|split; [apply Hs|]].
  - destruct Hop as [-> | ->], (res =? 0); exact E.
  - intros f Hf. by apply (s_bytes _ _ _ _ _ Hs).
Qed.

Lemma emu_write_wp handle len u e :
  idle false e → handle ∈ hw_open (e_hw e) → is_handle handle → uio_rw_of u = UIO_WRITE →
  0 ≤ len ≤ EMU_MAXIO → len ≤ uio_resid u → uio_in u →
  swp (emu_write handle len u) e (λ '(r, u') e', idle false e' ∧ wrote_to handle (e_hw e) (e_hw e') ∧ uio_rw_of u' = UIO_WRITE ∧
    (r = 0 → uio_in u' ∧ uio_resid u' = uio_resid u - len)).
Proof.
  intros Hi Hh Hr Hrw Hlen Hle (Hu & Hoff & Hmax). pose proof Hu as (Hres & Hl & _). pose proof Hi as (_ & _ & Hbuf & _).
  apply emu_write_core; try done; [lia|]. eapply wp_mono; [apply uiomove_wp; [done|lia|lia|lia]|].
  intros [[r b'] u'] (Hlb & _ & Hrw' & Hu' & Hrs & Hof). split; [lia|]. specialize (Hof Hoff Hmax). destruct (Z.eqb_spec r 0) as [->|Hne].
  - intros r1 _ res e1 e2 Hs Hi2 ->. specialize (Hrs eq_refl). split_and!; [done| |congruence|].
    + apply (served_wrote _ _ _ _ _ Hs). by left.
    + intros _. split; [split; [exact Hu'|lia]|lia].
  - intros e2 Hi2 ->. split_and!; [done|done|congruence|done].
Qed.

Lemma slice_buf_write b d n : Z.of_nat (length d) = n → slice (buf_write b 0 d) 0 n = d.
Proof.
  intros <-. unfold buf_write, slice. change (Z.to_nat 0) with 0%nat. rewrite drop_0, take_0, Nat2Z.id. cbn [app]. apply take_app_length.
Qed.

Lemma emu_write_kuio_wp handle len mem pos ln off resid e :
  let f := hw_file (e_hw e) handle in
  idle false e → handle ∈ hw_open (e_hw e) → is_handle handle → 0 ≤ len ≤ EMU_MAXIO → len ≤ resid → kuio_ok mem pos ln off resid →
  swp (emu_write handle len (kuio UIO_WRITE mem pos ln off resid)) e (λ '(r, u') e', idle false e' ∧ wrote_to handle (e_hw e) (e_hw e') ∧
    u' = kuio UIO_WRITE mem (pos + len) (ln - len) (off + len) (resid - len) ∧
    (r = 0 → hw_bytes (e_hw e') f = write_at (hw_bytes (e_hw e) f) off (slice mem pos len))).
Proof.
  intros f Hi Hh Hr Hlen Hle Hk. pose proof Hk as (Hp & Hm & Hrs & Hl & Hoff & Hmax). pose proof Hi as (_ & _ & Hbuf & Hok).
  apply emu_write_core; try done; [cbn; lia|]. rewrite uiomove_kuio by (done || lia). cbn [wp].
  assert (Z.of_nat (length (slice mem pos len)) = len) as Hsl by (apply length_slice; lia).
  assert (length (buf_write (emu_buffer (e_regs e)) 0 (slice mem pos len)) = length (emu_buffer (e_regs e))) as Hbw by (apply length_buf_write; lia).
  split; [by rewrite Hbw|]. cbn [Z.eqb]. intros Hreq res e1 e2 Hs Hi2 ->. split_and!; [done| |done|].
  - apply (served_wrote _ _ _ _ _ Hs). by left.
  - intros ->. pose proof (law_emu_write _ _ Hok Hreq) as Hlaw. cbv zeta in Hlaw.
    destruct (served_run _ _ _ _ _ Hs) as (r' & E & Hsucc & _). rewrite E in Hlaw.
    specialize (Hlaw (proj1 Hsucc eq_refl)). cbn [reg_handle reg_offset reg_iolen emu_buffer kuio uio_offset] in Hlaw. fold f in Hlaw. rewrite Hlaw. f_equal.
    by apply slice_buf_write.
Qed.

Lemma emu_getsize_wp handle e :
  idle false e → handle ∈ hw_open (e_hw e) → is_handle handle →
  swp (emu_getsize handle) e (λ _ e', idle false e' ∧ same_card (e_hw e) (e_hw e')).
Proof.
  intros Hi Hh Hr. unfold emu_getsize. apply swp_bind, lock_wp; [done|]. intros (_ & _ & Hb & Hok). cbn in Hb, Hok. regs.
  unfold is_handle in Hr. rewrite u32_small by lia. apply oper_bind_wp; [done|split_and!; cbn; unfold EMU_OP_GETSIZE, EMU_OP_TRUNC; done || lia|].
  cbn [e_hw e_regs]. intros res e1 Hs. assert (same_card (e_hw e) (e_hw e1)) as Hsame by by eapply served_card. apply swp_bind.
  destruct (res =? 0).
  - unfold rreg. apply swp_bind, swp_gets, swp_ret, swp_bind, unlock_wp; [apply Hs|]. intros e2 Hi2 Eh _. apply swp_ret. by rewrite Eh.
  - apply swp_ret, swp_bind, unlock_wp; [apply Hs|]. intros e2 Hi2 Eh _. apply swp_ret. by rewrite Eh.
Qed.

Lemma emu_trunc_wp handle len e :
  idle false e → handle ∈ hw_open (e_hw e) → is_handle handle → 0 ≤ len ≤ INT_MAX →
  swp (emu_trunc handle len) e (λ _ e', idle false e' ∧ wrote_to handle (e_hw e) (e_hw e')).
Proof.
  intros Hi Hh Hr Hlen. unfold emu_trunc. apply swp_bind, lock_wp; [done|]. intros (_ & _ & Hb & Hok). cbn in Hb, Hok. regs.
  unfold is_handle, INT_MAX in *. rewrite !u32_small by lia. apply oper_bind_wp; [done|split_and!; cbn; unfold EMU_OP_TRUNC, INT_MAX; done || lia|].
  cbn [e_hw e_regs]. intros res e1 Hs. apply swp_bind, unlock_wp; [apply Hs|]. intros e2 Hi2 Eh _. apply swp_ret. rewrite Eh. split; [done|].
  apply (served_wrote _ _ _ _ _ Hs). by right.
Qed.
End card.
