(* ===== verification/EmuInv.v ===== *)
(** * The vnodes of the passthrough filesystem and the handles on the card

    Every vnode in memory has a handle of its own that is open on the card, and
    every open handle belongs to a vnode, but for those ([L]) the card has
    refused to close.  The operations keep this. *)

From S2P Require Import Prelude Array Copyinout Uio Lhd Vnode Device Vfs Emu Emufs EmuLaws.

Definition vfine (v : vnode emufs_ops) : Prop :=
  1 ≤ vn_refcount v ∧ 0 ≤ vn_opencount v ∧ vn_countlock v = true ∧ is_Some (vn_ops v).

Section inv.
Context {H : Type} `{!EmuHw H} `{!EmuLaws H} {cs : CurSpace}.
Implicit Types (e : emu H) (w : eworld H) (L : gset Z) (m : gmap Z emufs_vnode).

Record handles (h : H) m L : Prop := {
  hd_vnode p ev : m !! p = Some ev → is_handle (ev_handle ev) ∧ ev_handle ev ∈ hw_open h ∧ (ev_handle ev ∉ L) ∧ vfine (ev_v ev);
  hd_inj p p' ev ev' : m !! p = Some ev → m !! p' = Some ev' → ev_handle ev = ev_handle ev' → p = p';
  hd_open x : x ∈ hw_open h → x ∈ L ∨ ∃ p ev, m !! p = Some ev ∧ ev_handle ev = x;
}.

Record pool (vnodes : array Z) m (root : option Z) (next : Z) : Prop := {
  pl_table : ∃ l, array_repr vnodes l ∧ NoDup l ∧ ∀ p, p ∈ l ↔ is_Some (m !! p);
  pl_next p : is_Some (m !! p) → p < next;
  pl_root p : root = Some p → is_Some (m !! p);
}.

Record emufs_ok L w : Prop := {
  ek_idle : idle false (ef_emu w);
  ek_handles : handles (e_hw (ef_emu w)) (ew_heap w) L;
  ek_pool : pool (ef_vnodes w) (ew_heap w) (ef_root w) (ew_next w);
}.

Definition with_emu w e : eworld H := mkEw e (ef_root w) (ef_vnodes w) (ew_heap w) (ew_next w) (ew_mem w).

Lemma on_emu_wp {A} (m : stm (emu H) A) w (Q : A → eworld H → Prop) :
  swp m (ef_emu w) (λ a e, Q a (with_emu w e)) → swp (on_emu m) w Q.
Proof. unfold swp, on_emu, mbind, outcome_bind. by destruct (m (ef_emu w)) as [[a e]| | |]. Qed.

Lemma ew_get_wp p ev w (Q : emufs_vnode → eworld H → Prop) : ew_heap w !! p = Some ev → Q ev w → swp (ew_get p) w Q.
Proof. intros E HQ. unfold swp, ew_get. by rewrite E. Qed.

Definition with_heap w m : eworld H := mkEw (ef_emu w) (ef_root w) (ef_vnodes w) m (ew_next w) (ew_mem w).

Lemma ew_putv_wp p ev v w (Q : unit → eworld H → Prop) :
  ew_heap w !! p = Some ev → Q tt (with_heap w (<[p := mkEv v (ev_handle ev)]> (ew_heap w))) → swp (ew_putv p v) w Q.
Proof.
  intros E HQ. unfold ew_putv, ew_put, set_heap. apply swp_bind. eapply ew_get_wp; [done|]. apply swp_bind. eapply ew_get_wp; [done|].
  by apply swp_bind, swp_gets, swp_modify.
Qed.

Lemma VOP_wp_emu {A} w p ev ops (call : emufs_ops → stm (eworld H) A) reclaim (Q : A → eworld H → Prop) :
  ew_heap w !! p = Some ev → vfine (ev_v ev) → vn_ops (ev_v ev) = Some ops → swp (call ops) w Q →
  swp (VOP (ew_getv p) reclaim call) w Q.
Proof.
  intros E (Hr & Ho & _ & _) Hops HQ. unfold VOP, ew_getv. apply swp_bind, swp_bind. eapply ew_get_wp; [done|]. apply swp_ret, swp_bind, swp_lift.
  unfold vnode_check. rewrite Hops. destruct (Z.ltb_spec (vn_refcount (ev_v ev)) 0); [lia|].
  destruct (Z.eqb_spec (vn_refcount (ev_v ev)) 0); [lia|]. destruct (Z.ltb_spec (vn_opencount (ev_v ev)) 0); [lia|]. done.
Qed.

(** ** Changes the invariant survives *)

(** The card has done something with the files. *)
Lemma handles_card h h' m L : handles h m L → hw_open h' = hw_open h → handles h' m L.
Proof.
  intros [Hv Hi Ho] E. split; rewrite ?E; done.
Qed.

Lemma ok_card L w e : emufs_ok L w → idle false e → hw_open (e_hw e) = hw_open (e_hw (ef_emu w)) → emufs_ok L (with_emu w e).
Proof. intros [Hi Hh Hp] Hi' E. split; [done| |done]. by eapply handles_card. Qed.

(** A vnode gets other counts. *)
Lemma handles_put h m L p ev v :
  handles h m L → m !! p = Some ev → vfine v → handles h (<[p := mkEv v (ev_handle ev)]> m) L.
Proof.
  intros [Hv Hi Ho] Hp Hf.
  assert (∀ q ev', <[p := mkEv v (ev_handle ev)]> m !! q = Some ev' → ∃ ev0, m !! q = Some ev0 ∧ ev_handle ev' = ev_handle ev0 ∧ (vfine (ev_v ev0) → vfine (ev_v ev'))) as Hold.
  { intros q ev' [[<- <-]|[Hne Hq]]%lookup_insert_Some; [by exists ev|by exists ev']. }
  split.
  - intros q ev' Hq. destruct (Hold q ev' Hq) as (ev0 & H0 & -> & Hf0). destruct (Hv q ev0 H0) as (? & ? & ? & ?). split_and!; auto.
  - intros q q' a b Ha Hb E. destruct (Hold q a Ha) as (a0 & Ha0 & Ea & _), (Hold q' b Hb) as (b0 & Hb0 & Eb & _).
    eapply Hi; [done|done|congruence].
  - intros x Hx. destruct (Ho x Hx) as [?|(q & ev0 & Hq & <-)]; [by left|]. right. destruct (decide (q = p)) as [->|Hne].
    + exists p, (mkEv v (ev_handle ev)). rewrite lookup_insert_eq. split; [done|]. cbn. congruence.
    + exists q, ev0. by rewrite lookup_insert_ne.
Qed.

Lemma pool_put vnodes m root next p ev v :
  pool vnodes m root next → m !! p = Some ev → pool vnodes (<[p := mkEv v (ev_handle ev)]> m) root next.
Proof.
  intros [(l & Hl & Hnd & Hin) Hn Hr] Hp.
  assert (∀ q, is_Some (<[p := mkEv v (ev_handle ev)]> m !! q) ↔ is_Some (m !! q)) as E.
  { intros q. rewrite lookup_insert_is_Some'. split; [|auto]. intros [<-|?]; [by rewrite Hp|done]. }
  split; [|intros q; rewrite E; apply Hn|intros q; rewrite E; apply Hr]. exists l. split_and!; [done|done|]. intros q. rewrite E. apply Hin.
Qed.

Lemma ok_put L w p ev v :
  emufs_ok L w → ew_heap w !! p = Some ev → vfine v → emufs_ok L (with_heap w (<[p := mkEv v (ev_handle ev)]> (ew_heap w))).
Proof. intros [Hi Hh Hp] E Hf. split; [done|by apply handles_put|by apply pool_put]. Qed.

(** A new vnode for a handle nobody has. *)
Lemma handles_new h m L p x ops :
  handles h m L → m !! p = None → x ∈ L → x ∈ hw_open h → is_handle x →
  handles h (<[p := mkEv (mkVnode 1 0 true (Some ops)) x]> m) (L ∖ {[x]}).
Proof.
  intros [Hv Hi Ho] Hp Hx Hox Hh. split.
  - intros q ev [[<- <-]|[Hne Hq]]%lookup_insert_Some.
    + cbn. split_and!; [done|done|set_solver|]. split_and!; cbn; [lia|lia|done|by eexists].
    + destruct (Hv q ev Hq) as (? & ? & ? & ?). split_and!; [done|done|set_solver|done].
  - intros q q' a b [[<- <-]|[Hne Hq]]%lookup_insert_Some [[<- <-]|[Hne' Hq']]%lookup_insert_Some; cbn; intros E; [done|..|by eapply Hi].
    + destruct (Hv q' b Hq') as (_ & _ & Hb & _). rewrite <-E in Hb. done.
    + destruct (Hv q a Hq) as (_ & _ & Ha & _). rewrite E in Ha. done.
  - intros y Hy. destruct (decide (y = x)) as [->|Hne]; [right; exists p; eexists; by rewrite lookup_insert_eq|].
    destruct (Ho y Hy) as [?|(q & ev & Hq & <-)]; [left; set_solver|]. right. exists q, ev. split; [|done]. rewrite lookup_insert_ne; [done|]. congruence.
Qed.

Lemma pool_new vnodes vnodes' l m root next p ev :
  pool vnodes m root next → array_repr vnodes l → array_repr vnodes' (l ++ [p]) → m !! p = None → p < next + 1 →
  pool vnodes' (<[p := ev]> m) root (next + 1).
Proof.
  intros [(l0 & Hl0 & Hnd & Hin) Hn Hr] Hl Hl' Hp Hlt. assert (l0 = l) as -> by by eapply array_repr_det. split.
  - exists (l ++ [p]). split_and!; [done| |].
    + apply NoDup_app. split_and!; [done| |apply NoDup_singleton]. intros q Hq. rewrite list_elem_of_singleton. intros ->.
      apply Hin in Hq as [? Hq]. congruence.
    + intros q. rewrite elem_of_app, list_elem_of_singleton, lookup_insert_is_Some', Hin. naive_solver.
  - intros q. rewrite lookup_insert_is_Some'. intros [<-|Hq]; [done|]. specialize (Hn q Hq). lia.
  - intros q Hq. rewrite lookup_insert_is_Some'. right. by apply Hr.
Qed.

(** A vnode and its handle go. *)
Lemma handles_del h h' m L p ev :
  handles h m L → m !! p = Some ev → hw_open h' = hw_open h ∖ {[ev_handle ev]} → handles h' (delete p m) L.
Proof.
  intros [Hv Hi Ho] Hp E. split.
  - intros q ev' [Hne Hq]%lookup_delete_Some. destruct (Hv q ev' Hq) as (? & ? & ? & ?). split_and!; [done| |done|done]. rewrite E.
    assert (ev_handle ev' ≠ ev_handle ev) by (intros E'; apply Hne; by eapply Hi). set_solver.
  - intros q q' a b [_ Ha]%lookup_delete_Some [_ Hb]%lookup_delete_Some. by eapply Hi.
  - intros x Hx. rewrite E in Hx. destruct (Ho x ltac:(set_solver)) as [?|(q & ev' & Hq & <-)]; [by left|]. right. exists q, ev'.
    split; [|done]. rewrite lookup_delete_ne; [done|]. intros <-. rewrite Hp in Hq. injection Hq as <-. set_solver.
Qed.

Lemma pool_del vnodes vnodes' l m root next p k :
  pool vnodes m root next → array_repr vnodes l → l !! k = Some p → array_repr vnodes' (delete k l) → root ≠ Some p →
  pool vnodes' (delete p m) root next.
Proof.
  intros [(l0 & Hl0 & Hnd & Hin) Hn Hr] Hl Hk Hl' Hroot. assert (l0 = l) as -> by by eapply array_repr_det. split.
  - exists (delete k l). split_and!; [done| |].
    + rewrite (delete_Permutation l k p Hk) in Hnd. by apply NoDup_cons in Hnd as [_ ?].
    + intros q. rewrite lookup_delete_is_Some, <-Hin. assert (q ∈ l ↔ q = p ∨ q ∈ delete k l) as ->.
      { rewrite <-elem_of_cons. by rewrite <-(delete_Permutation l k p Hk). }
      rewrite (delete_Permutation l k p Hk) in Hnd. apply NoDup_cons in Hnd as [Hno _].
      split; [intros Hq; split; [congruence|auto]|]. by intros [Hne [?|?]].
  - intros q [_ Hq]%lookup_delete_is_Some. by apply Hn.
  - intros q Hq. apply lookup_delete_is_Some. split; [congruence|by apply Hr].
Qed.
End inv.

(** ** The operations of the passthrough filesystem keep its invariant *)

Section ops.
Context {H : Type} `{!EmuHw H} `{!EmuLaws H} {cs : CurSpace}.
Implicit Types (e : emu H) (w : eworld H) (L : gset Z) (m : gmap Z emufs_vnode).

(** The counts leave room for one more reference, the table for one more vnode. *)
Definition eroom w : Prop :=
  (∀ p ev, ew_heap w !! p = Some ev → vn_refcount (ev_v ev) < INT_MAX) ∧
  ∀ l, array_repr (ef_vnodes w) l → Z.of_nat (length l) < 536870911.

(** A reference to [q] has been taken. *)
Definition ereferenced m q m' : Prop :=
  match m !! q with
  | Some ev => m' = <[q := mkEv (mkVnode (vn_refcount (ev_v ev) + 1) (vn_opencount (ev_v ev)) (vn_countlock (ev_v ev)) (vn_ops (ev_v ev))) (ev_handle ev)]> m
  | None => ∃ ops x, m' = <[q := mkEv (mkVnode 1 0 true (Some ops)) x]> m
  end.

Lemma emufs_incref_wp w p ev (Q : unit → eworld H → Prop) :
  ew_heap w !! p = Some ev → eroom w →
  (∀ m', ereferenced (ew_heap w) p m' → (∀ h L, handles h (ew_heap w) L → handles h m' L) →
    (∀ vnodes root next, pool vnodes (ew_heap w) root next → pool vnodes m' root next) → vfine (ev_v ev) → Q tt (with_heap w m')) →
  vfine (ev_v ev) → swp (emufs_incref p) w Q.
Proof.
  intros E [Hroom _] HQ Hf. pose proof Hf as (Hr & Ho & Hc & Hops). specialize (Hroom p ev E). unfold emufs_incref. apply swp_bind. unfold ew_getv.
  apply swp_bind. eapply ew_get_wp; [done|]. apply swp_ret, swp_bind, swp_lift. unfold vnode_incref.
  apply wp_bind, wp_to_int; [unfold INT_MIN; lia|]. cbn [wp]. eapply ew_putv_wp; [done|]. apply HQ; [|..|done].
  - unfold ereferenced. by rewrite E.
  - intros h L Hh. apply handles_put; [done|done|]. split_and!; cbn; done || lia.
  - intros vnodes root next Hp. by apply pool_put.
Qed.

(** ** Reclaiming *)

Lemma emufs_find_wp w l p :
  array_repr (ef_vnodes w) l → p ∈ l →
  swp (emufs_find p) w (λ ix w', w' = w ∧ ∃ k : nat, ix = Z.of_nat k ∧ l !! k = Some p).
Proof.
  intros Hl Hin. unfold emufs_find. apply swp_bind, swp_gets, swp_bind. eapply swp_mono.
  { apply (array_search_wp _ l (λ i evx, mret (if evx =? p then inr i else inl tt)) (λ i evx, if evx =? p then Some i else None)); [done|].
    intros k x _. by destruct (x =? p). }
  intros [[]|ix] w' [-> Hx]; apply swp_ret; split; [done| |done|].
  - apply list_elem_of_lookup in Hin as [k Hk]. specialize (Hx _ _ Hk). by rewrite Z.eqb_refl in Hx.
  - destruct Hx as (k & x & Hk & E). destruct (Z.eqb_spec x p) as [->|]; [|done]. injection E as <-. by exists k.
Qed.

(** The vnode has left the table: its memory goes. *)
Lemma emufs_drop_wp {A} w p ev (a : A) (Q : A → eworld H → Prop) :
  ew_heap w !! p = Some ev → vn_refcount (ev_v ev) = 1 → vn_opencount (ev_v ev) = 0 → vn_countlock (ev_v ev) = true →
  Q a (with_heap w (delete p (ew_heap w))) →
  swp (v' ← lift (vnode_kill (ev_v ev)); ew_putv p v';; ew_kfree p;; mret a) w Q.
Proof.
  intros E Hr Ho Hc HQ. apply swp_bind, swp_lift. unfold vnode_kill. rewrite Hr, Ho, Hc. cbn [kassert Z.eqb]. apply wp_bind, wp_done, wp_bind, wp_done, wp_bind, wp_done, wp_done.
  apply swp_bind. eapply ew_putv_wp; [done|]. unfold ew_kfree, set_heap. apply swp_bind, swp_bind.
  eapply ew_get_wp; [apply lookup_insert_eq|]. apply swp_bind, swp_gets, swp_modify, swp_ret. cbn. by rewrite delete_insert_eq.
Qed.

Lemma emufs_reclaim_wp L w p ev :
  emufs_ok L w → ew_heap w !! p = Some ev → vn_refcount (ev_v ev) = 1 → vn_opencount (ev_v ev) = 0 → ef_root w ≠ Some p →
  swp (emufs_reclaim p) w (λ r w', emufs_ok L w' ∧ ew_heap w' = (if r =? 0 then delete p (ew_heap w) else ew_heap w) ∧ ef_root w' = ef_root w ∧ (reliable → r = 0)).
Proof.
  intros [Hi Hh Hp] E Hr Ho Hroot. destruct (hd_vnode _ _ _ Hh p ev E) as (Hhd & Hopen & _ & Hf). pose proof Hf as (_ & _ & Hc & _).
  unfold emufs_reclaim. apply swp_bind, on_emu_wp, lock_wp; [done|]. intros Hi1. apply swp_bind. eapply ew_get_wp; [done|].
  rewrite Hr. cbn [Z.eqb Pos.eqb negb]. apply swp_bind, on_emu_wp. cbn [with_emu ef_emu].
  eapply swp_mono; [apply emu_close_wp; [done|done|done]|]. cbn [e_hw]. intros r e2 (Hi2 & _ & _ & Hop & Hrel).
  destruct (Z.eqb_spec r 0) as [->|Hne]; cbn [negb].
  - destruct (pl_table _ _ _ _ Hp) as (l & Hl & Hnd & Hin). apply swp_bind.
    eapply swp_mono; [apply (emufs_find_wp _ l); [done|]; apply Hin; by rewrite E|]. intros ix w2 (-> & k & -> & Hk).
    destruct (Z.ltb_spec (Z.of_nat k) 0); [lia|]. apply swp_bind, swp_gets, swp_bind, swp_lift. cbn [with_emu ef_vnodes].
    eapply wp_mono; [apply (array_remove_wp _ l k); [done|by eapply lookup_lt_Some]|]. intros a' [_ Ha].
    apply swp_bind. unfold set_vnodes. apply swp_modify, swp_bind, on_emu_wp, unlock_wp; [done|]. intros e3 Hi3 Eh _.
    eapply emufs_drop_wp; [done|done|done|done|]. cbn. split_and!; [|done..|done]. split; cbn; [done| |].
    + eapply handles_del; [done|done|by rewrite Eh].
    + by eapply pool_del.
  - apply swp_bind, on_emu_wp, unlock_wp; [done|]. intros e3 Hi3 Eh _. apply swp_ret. rewrite (proj2 (Z.eqb_neq _ _) Hne). split_and!; [|done..|done].
    split; cbn; [done| |done]. eapply handles_card; [done|]. by rewrite Eh.
Qed.

Lemma emufs_decref_wp L w p ev :
  emufs_ok L w → ew_heap w !! p = Some ev →
  (vn_refcount (ev_v ev) = 1 → vn_opencount (ev_v ev) = 0 ∧ ef_root w ≠ Some p) →
  swp (emufs_decref p) w (λ _ w', emufs_ok L w' ∧ ef_root w' = ef_root w).
Proof.
  intros Hok E Hlast. destruct (hd_vnode _ _ _ (ek_handles _ _ Hok) p ev E) as (_ & _ & _ & Hf). pose proof Hf as (Hr & Ho & Hc & ops & Hops).
  unfold emufs_decref, vnode_decref. apply swp_bind. unfold ew_getv at 1. apply swp_bind. eapply ew_get_wp; [done|]. apply swp_ret, swp_bind, swp_lift.
  destruct (Z.gtb_spec (vn_refcount (ev_v ev)) 0); [|lia]. cbn [wp kassert]. destruct (Z.gtb_spec (vn_refcount (ev_v ev)) 1).
  - eapply ew_putv_wp; [done|]. split; [|done]. apply ok_put; [done|done|]. split_and!; cbn; [lia|lia|done|by rewrite Hops].
  - destruct (Hlast ltac:(lia)) as [Ho0 Hroot]. apply swp_bind. eapply VOP_wp_emu; [done|done|done|].
    eapply swp_mono; [|intros r w' Hw'; apply swp_ret; exact Hw'].
    eapply swp_mono; [destruct ops; apply (emufs_reclaim_wp L w p ev); done || lia|]. by intros r w' (? & _ & ? & _).
Qed.

(** ** Loading *)

(** The state with the lock on the card taken. *)
Definition elocked w : eworld H :=
  with_emu w (mkEmu true 0 (e_result (ef_emu w)) (e_regs (ef_emu w)) (e_hw (ef_emu w))).

Lemma emufs_lookfor_wp w L x :
  emufs_ok L w →
  swp (emufs_lookfor x) (elocked w) (λ r w', w' = elocked w ∧
    match r with
    | Some p => ∃ ev, ew_heap w !! p = Some ev ∧ ev_handle ev = x
    | None => ∀ p ev, ew_heap w !! p = Some ev → ev_handle ev ≠ x
    end).
Proof.
  intros [_ _ Hp]. destruct (pl_table _ _ _ _ Hp) as (l & Hl & _ & Hin). unfold emufs_lookfor. apply swp_bind, swp_gets, swp_bind.
  set (g (_ : Z) p := match ew_heap w !! p with Some ev => if ev_handle ev =? x then Some p else None | None => None end).
  eapply swp_mono; [apply (array_search_wp _ l _ g); [done|]|].
  - intros k p Hk. unfold ew_get, g, mbind, stm_bind, mbind, outcome_bind. cbn [elocked with_emu ew_heap].
    destruct (proj1 (Hin p) ltac:(by eapply list_elem_of_lookup_2)) as [ev E]. rewrite E. by destruct (ev_handle ev =? x).
  - intros [[]|p] w' [-> Hx]; apply swp_ret; (split; [done|]).
    + intros p ev E. assert (p ∈ l) as [k Hk]%list_elem_of_lookup by (apply Hin; by rewrite E). specialize (Hx k p Hk). unfold g in Hx. rewrite E in Hx.
      by destruct (Z.eqb_spec (ev_handle ev) x).
    + destruct Hx as (k & q & _ & E). unfold g in E. destruct (ew_heap w !! q) as [ev|] eqn:Eq; [|done].
      destruct (Z.eqb_spec (ev_handle ev) x); [|done]. injection E as <-. by exists ev.
Qed.

(** The memory an allocation leaves. *)
Lemma ew_kmalloc_wp w (Q : bool → eworld H → Prop) :
  (∀ b mem, Q b (mkEw (ef_emu w) (ef_root w) (ef_vnodes w) (ew_heap w) (ew_next w) mem)) → swp ew_kmalloc w Q.
Proof. intros HQ. unfold swp, ew_kmalloc. destruct w as [e r v h n [|b mem]]; apply (HQ _ _). Qed.

(** After [emufs_loadvnode] of the handle [x]: its vnode with one more reference,
    or an error and a handle nobody has. *)
Definition loaded L w x (r q : Z) w' : Prop :=
  ef_root w' = ef_root w ∧ e_hw (ef_emu w') = e_hw (ef_emu w) ∧
  if r =? 0 then emufs_ok (L ∖ {[x]}) w' ∧ ereferenced (ew_heap w) q (ew_heap w') ∧ (∃ ev, ew_heap w' !! q = Some ev ∧ ev_handle ev = x)
  else emufs_ok L w' ∧ ew_heap w' = ew_heap w ∧ x ∈ L.

Lemma load_failed_wp L w x r mem next :
  emufs_ok L w → x ∈ L → r ≠ 0 → ew_next w ≤ next →
  swp (on_emu unlock_emu;; mret (r, 0)) (mkEw (ef_emu (elocked w)) (ef_root w) (ef_vnodes w) (ew_heap w) next mem) (λ '(r, q) w', loaded L w x r q w').
Proof.
  intros [Hi Hh Hp] HL Hr Hn. apply swp_bind, on_emu_wp, unlock_wp; [destruct Hi as (_ & _ & ? & ?); by split_and!|]. intros e2 Hi2 Eh _. apply swp_ret.
  split_and!; [done|exact Eh|]. rewrite (proj2 (Z.eqb_neq _ _) Hr). split_and!; [|done|done]. split; cbn; [done|by rewrite Eh|].
  destruct Hp as [? Hnext ?]. split; [done| |done]. intros p Hs. specialize (Hnext p Hs). lia.
Qed.

Lemma emufs_newvnode_wp L w x isdir :
  emufs_ok L w → eroom w → is_handle x → x ∈ hw_open (e_hw (ef_emu w)) → x ∈ L →
  swp (emufs_newvnode x isdir) (elocked w) (λ '(r, q) w', loaded L w x r q w').
Proof.
  intros Hok Hroom Hx Hopen HL. pose proof Hok as [Hi Hh Hp]. unfold emufs_newvnode.
  assert (idle true (ef_emu (elocked w))) as Hi1 by (destruct Hi as (_ & _ & ? & ?); by split_and!).
  apply swp_bind, ew_kmalloc_wp. intros b mem. destruct b; cbn [negb]; [|by apply (load_failed_wp L w x)].
  apply swp_bind, ew_kmalloc_wp. intros b mem2. unfold vnode_init. destruct b; cbn [negb Z.eqb]; [|by apply (load_failed_wp L w x)].
  apply swp_bind. unfold ew_new, swp at 1. cbn [wp ef_emu ef_root ef_vnodes ew_heap ew_next ew_mem].
  destruct (pl_table _ _ _ _ Hp) as (l & Hl & Hnd & Hin).
  assert (ew_heap w !! ew_next w = None) as Hnew. { apply eq_None_not_Some. intros Hs. pose proof (pl_next _ _ _ _ Hp _ Hs). lia. }
  apply swp_bind, swp_gets, swp_bind, ew_kmalloc_wp. intros b mem3. cbn [ef_emu ef_root ef_vnodes ew_heap ew_next elocked with_emu].
  apply swp_bind, swp_lift. eapply wp_mono; [apply (array_add_wp b _ l); [done|by apply Hroom]|]. intros [r a'] Hadd.
  apply swp_bind. unfold set_vnodes. apply swp_modify. cbn [ef_emu ef_root ef_vnodes ew_heap ew_next ew_mem].
  destruct (bool_decide _ || b); destruct Hadd as [-> Hadd]; cbn [Z.eqb negb].
  - destruct Hadd as [_ Ha]. apply swp_bind, on_emu_wp, unlock_wp; [done|]. intros e2 Hi2 Eh _. apply swp_ret. split_and!; [done|exact Eh|]. cbn [Z.eqb].
    split_and!; [|unfold ereferenced; rewrite Hnew; by eexists _, _|cbn; rewrite lookup_insert_eq; by eexists]. split; cbn; [done| |].
    + rewrite Eh. by apply handles_new.
    + eapply pool_new; try done. lia.
  - subst a'. apply swp_bind, on_emu_wp, unlock_wp; [done|]. intros e2 Hi2 Eh _.
    eapply (emufs_drop_wp _ (ew_next w) (mkEv (mkVnode 1 0 true (Some _)) x)); [apply lookup_insert_eq|done|done|done|].
    split_and!; [done|exact Eh|]. cbn. rewrite delete_insert_id by done. split_and!; [|done|done]. split; cbn; [done|by rewrite Eh|].
    destruct Hp as [? Hnext ?]. split; [done| |done]. intros p Hs. specialize (Hnext p Hs). lia.
Qed.

Lemma emufs_loadvnode_wp L w x isdir :
  emufs_ok L w → eroom w → is_handle x → x ∈ hw_open (e_hw (ef_emu w)) →
  swp (emufs_loadvnode x isdir) w (λ '(r, q) w', loaded L w x r q w').
Proof.
  intros Hok Hroom Hx Hopen. pose proof Hok as [Hi Hh Hp]. unfold emufs_loadvnode. apply swp_bind, on_emu_wp, lock_wp; [done|]. intros Hi1.
  change (with_emu w _) with (elocked w). apply swp_bind. eapply swp_mono; [by apply (emufs_lookfor_wp w L x)|]. intros [p|] w2 [-> Hfound].
  - destruct Hfound as (ev & E & <-). destruct (hd_vnode _ _ _ Hh p ev E) as (_ & _ & Hno & Hf). apply swp_bind.
    eapply emufs_incref_wp; [exact E|exact Hroom| |done]. intros m' Hm Hhm Hpm _.
    apply swp_bind, on_emu_wp, unlock_wp; [done|]. intros e2 Hi2 Eh _. apply swp_ret. split_and!; [done|exact Eh|]. cbn [Z.eqb].
    assert (L ∖ {[ev_handle ev]} = L) as -> by set_solver. split_and!; [|exact Hm|].
    + split; cbn; [done| |by apply Hpm]. rewrite Eh. by apply Hhm.
    + unfold ereferenced in Hm. cbn in Hm, E. rewrite E in Hm. cbn. rewrite Hm, lookup_insert_eq. by eexists.
  - apply emufs_newvnode_wp; try done. destruct (hd_open _ _ _ Hh x Hopen) as [?|(p & ev & E & Ex)]; [done|]. by destruct (Hfound p ev E).
Qed.

(** ** Lookup and creation *)

(** After an operation that hands back a vnode, with no handle lost if the card
    closes what it is told to. *)
Definition opened L w (r q : Z) w' : Prop :=
  ef_root w' = ef_root w ∧ same_bytes (e_hw (ef_emu w)) (e_hw (ef_emu w')) ∧
  (∃ L', emufs_ok L' w' ∧ (reliable → L' ⊆ L)) ∧
  if r =? 0 then ereferenced (ew_heap w) q (ew_heap w') else ew_heap w' = ew_heap w.

(** A handle that has just been opened is in the hands of the driver. *)
Lemma ok_opened L w e x :
  emufs_ok L w → idle false e → is_handle x → hw_open (e_hw e) = {[x]} ∪ hw_open (e_hw (ef_emu w)) →
  ∃ L1, emufs_ok L1 (with_emu w e) ∧ L1 ∖ {[x]} ⊆ L.
Proof.
  intros [Hi [Hv Hinj Ho] Hp] Hi' Hx Eo. destruct (decide (map_Exists (λ _ ev, ev_handle ev = x) (ew_heap w))) as [(p0 & ev0 & E0 & Ex)|Hno].
  - exists L. split; [|set_solver]. split; [done| |done]. split; cbn; [|done|].
    + intros p ev E. destruct (Hv p ev E) as (? & ? & ? & ?). split_and!; [done|rewrite Eo; set_solver|done..].
    + intros y. rewrite Eo. intros [->%elem_of_singleton|Hy]%elem_of_union; [by eauto|by apply Ho].
  - assert (∀ p ev, ew_heap w !! p = Some ev → ev_handle ev ≠ x) as Hne by (intros p ev E Ex; apply Hno; by exists p, ev).
    exists ({[x]} ∪ L). split; [|set_solver]. split; [done| |done]. split; cbn; [|done|].
    + intros p ev E. destruct (Hv p ev E) as (? & ? & ? & ?). specialize (Hne p ev E). split_and!; [done|rewrite Eo; set_solver|set_solver|done].
    + intros y. rewrite Eo. intros [->%elem_of_singleton|Hy]%elem_of_union; [left; set_solver|]. destruct (Ho y Hy) as [?|?]; [left; set_solver|by right].
Qed.

(** Closing a handle nobody has. *)
Lemma ok_closed L w e x :
  emufs_ok L w → idle false e → x ∈ L → hw_open (e_hw e) = hw_open (e_hw (ef_emu w)) ∖ {[x]} → emufs_ok (L ∖ {[x]}) (with_emu w e).
Proof.
  intros [Hi [Hv Hinj Ho] Hp] Hi' Hx Eo. split; [done| |done]. split; cbn; [|done|].
  - intros p ev E. destruct (Hv p ev E) as (? & ? & ? & ?). assert (ev_handle ev ≠ x) by congruence. split_and!; [done|rewrite Eo; set_solver|set_solver|done].
  - intros y. rewrite Eo. intros [Hy Hne]%elem_of_difference. destruct (Ho y Hy) as [?|?]; [left; set_solver|by right].
Qed.

Lemma emufs_openfile_wp L w p ev name create excl :
  emufs_ok L w → eroom w → ew_heap w !! p = Some ev →
  swp (emufs_openfile p name create excl) w (λ '(r, q) w', opened L w r q w').
Proof.
  intros Hok Hroom E. pose proof Hok as [Hi Hh Hp]. destruct (hd_vnode _ _ _ Hh p ev E) as (Hhd & Hopen & _ & Hf).
  unfold emufs_openfile. apply swp_bind. eapply ew_get_wp; [done|]. apply swp_bind, on_emu_wp.
  eapply swp_mono; [by apply emu_open_wp|]. intros [[r x] isdir] e1 (Hi1 & _ & Hby & Hr). destruct (Z.eqb_spec r 0) as [->|Hne]; cbn [negb].
  2: { apply swp_ret. unfold opened. rewrite (proj2 (Z.eqb_neq _ _) Hne). split_and!; [done|done| |done]. exists L. split; [by apply ok_card|done]. }
  destruct Hr as [Hx Eo]. destruct (ok_opened L w e1 x Hok Hi1 Hx Eo) as (L1 & Hok1 & HL1). apply swp_bind.
  eapply swp_mono; [apply (emufs_loadvnode_wp L1 (with_emu w e1) x isdir); [done|done|done|cbn; rewrite Eo; set_solver]|].
  intros [r q] w2 (Hroot & Ehw & H2). cbn [with_emu ef_emu ef_root ew_heap] in *. destruct (Z.eqb_spec r 0) as [->|Hne]; cbn [negb].
  - destruct H2 as (Hok2 & Href & _). apply swp_ret. split_and!; [done|by rewrite Ehw| |done]. exists (L1 ∖ {[x]}). done.
  - destruct H2 as (Hok2 & Eh & HxL). apply swp_bind, on_emu_wp.
    eapply swp_mono; [apply (emu_close_wp x false); [apply Hok2|rewrite Ehw, Eo; set_solver|done]|].
    intros r2 e3 (Hi3 & _ & Hby3 & Eo3 & Hrel). apply swp_ret. unfold opened. rewrite (proj2 (Z.eqb_neq _ _) Hne). cbn.
    split_and!; [done|intros f; rewrite Hby3, Ehw; apply Hby| |done]. destruct (Z.eqb_spec r2 0) as [->|Hne2].
    + exists (L1 ∖ {[x]}). split; [by apply ok_closed|done].
    + exists L1. split; [by apply ok_card|]. intros Hr. by specialize (Hrel Hr).
Qed.

Lemma emufs_lookparent_wp L w p ev path len :
  emufs_ok L w → eroom w → ew_heap w !! p = Some ev →
  swp (emufs_lookparent p path len) w (λ '(r, q, _) w', opened L w r q w').
Proof.
  intros Hok Hroom E. destruct (hd_vnode _ _ _ (ek_handles _ _ Hok) p ev E) as (_ & _ & _ & Hf).
  assert (opened L w ENAMETOOLONG 0 w) as Herr by (split_and!; [done|done|by exists L|done]).
  unfold emufs_lookparent. destruct (split_last path) as [[dirpart s]|].
  - destruct (_ >? len); [by apply swp_ret|]. apply swp_bind. eapply swp_mono; [by apply (emufs_openfile_wp L w p ev)|].
    intros [r q] w' Hw'. by apply swp_ret.
  - destruct (_ >? len); [by apply swp_ret|]. apply swp_bind. eapply emufs_incref_wp; [done|done| |done].
    intros m' Hm Hhm Hpm _. apply swp_ret. split_and!; [done|done| |done]. exists L. split; [|done]. destruct Hok. split; cbn; auto.
Qed.

Lemma emufs_getroot_wp L w :
  emufs_ok L w → eroom w → is_Some (ef_root w) →
  swp emufs_getroot w (λ q w', ef_root w = Some q ∧ opened L w 0 q w').
Proof.
  intros Hok Hroom [p Hp]. destruct (pl_root _ _ _ _ (ek_pool _ _ Hok) p Hp) as [ev E].
  destruct (hd_vnode _ _ _ (ek_handles _ _ Hok) p ev E) as (_ & _ & _ & Hf). unfold emufs_getroot. apply swp_bind, swp_gets, swp_bind, swp_lift. rewrite Hp. cbn [wp].
  apply swp_bind. eapply emufs_incref_wp; [done|done| |done]. intros m' Hm Hhm Hpm _. apply swp_ret. split; [done|].
  split_and!; [done|done| |done]. exists L. split; [|done]. destruct Hok. split; cbn; auto.
Qed.
End ops.
