(* ===== verification/EmuIo.v ===== *)
(** * Reading and writing files of the passthrough filesystem, and a card with a file *)

From S2P Require Import Prelude Array Copyinout Uio Lhd Vnode Device Vfs Emu Emufs EmuLaws EmuInv.

(** ** Writing in pieces *)

Lemma buf_write_more b c off d : 0 ≤ off → off + Z.of_nat (length d) ≤ Z.of_nat (length b) → buf_write b off d ++ c = buf_write (b ++ c) off d.
Proof.
  intros Ho Hl. unfold buf_write. rewrite take_app_le, drop_app_le by lia. by rewrite <-!app_assoc.
Qed.

Lemma length_write_at b off d :
  0 ≤ off → length (write_at b off d) = Nat.max (length b) (Z.to_nat (off + Z.of_nat (length d))).
Proof.
  intros Ho. unfold write_at. rewrite length_buf_write; rewrite length_app, length_replicate; lia.
Qed.

Lemma write_at_app b off d1 d2 :
  0 ≤ off → write_at (write_at b off d1) (off + Z.of_nat (length d1)) d2 = write_at b off (d1 ++ d2).
Proof.
  intros Ho. unfold write_at at 1. rewrite length_write_at by done. unfold write_at.
  rewrite buf_write_more, buf_write_app by (rewrite ?length_app, ?length_replicate; lia). f_equal.
  rewrite <-app_assoc, <-replicate_add. f_equal. f_equal. rewrite length_app. lia.
Qed.

Lemma write_at_nil b off : 0 ≤ off ≤ Z.of_nat (length b) → write_at b off [] = b.
Proof. intros Ho. unfold write_at. rewrite buf_write_nil. cbn. replace (_ - _)%nat with 0%nat by lia. by rewrite app_nil_r. Qed.

Section io.
Context {H : Type} `{!EmuHw H} `{!EmuLaws H} {cs : CurSpace}.
Implicit Types (e : emu H) (w : eworld H) (L : gset Z).

(** A loop whose rounds leave the vnodes alone. *)
Lemma emufs_rw_loop_wp (io : Z → uio → stm (emu H) (Z * uio)) (P : uio → Z → emu H → Prop) (Q : Z → uio → emu H → Prop) u w :
  uio_ok u → P u 0 (ef_emu w) →
  (∀ u' k e, P u' k e → uio_resid u' = uio_resid u - k ∧ 0 ≤ k ≤ uio_resid u) →
  (∀ u' k e, P u' k e → uio_resid u' = 0 → Q 0 u' e) →
  (∀ u' k e, P u' k e → 0 < uio_resid u' → swp (io (emu_amt u') u') e (λ '(r, u2) e2,
     if r =? 0 then (uio_resid u2 = uio_resid u' → Q 0 u2 e2) ∧ (uio_resid u2 ≠ uio_resid u' → P u2 (uio_resid u - uio_resid u2) e2 ∧ uio_resid u2 < uio_resid u')
     else Q r u2 e2)) →
  swp (emufs_rw_loop io u) w (λ '(r, u') w', ∃ e', w' = with_emu w e' ∧ Q r u' e').
Proof.
  intros Hu HP Hres Hend Hio. pose proof Hu as (Hrl & Hl & _). unfold emufs_rw_loop. apply swp_bind.
  eapply swp_mono; [apply (swp_for_stm (λ j u' w', ∃ e' k, w' = with_emu w e' ∧ P u' k e' ∧ j ≤ k)
    (λ '(r, u') w', ∃ e', w' = with_emu w e' ∧ Q r u' e'))|].
  - exists (ef_emu w), 0. split_and!; [by destruct w|done|lia].
  - intros j u' w' Hj (e' & k & -> & HP' & Hk). destruct (Hres _ _ _ HP') as [Er Hk2]. destruct (Z.gtb_spec (uio_resid u') 0); cbn [negb].
    2: { apply swp_ret. exists e'. split; [done|]. eapply Hend; [done|]. lia. }
    apply swp_bind, on_emu_wp. cbn [with_emu ef_emu]. eapply swp_mono; [by eapply Hio|]. intros [r u2] e2 H2.
    destruct (Z.eqb_spec r 0) as [->|Hne]; cbn [negb]; [|apply swp_ret; by exists e2].
    apply swp_ret. destruct H2 as [Hsame Hless]. destruct (Z.eqb_spec (uio_resid u2) (uio_resid u')) as [Eq|Hd]; [exists e2; auto|].
    destruct (Hless Hd) as [HP2 Hlt]. exists e2, (uio_resid u - uio_resid u2). split_and!; [done|done|lia].
  - intros [u'|[r u']] w'; [|intros HQ; by apply swp_ret]. intros (e' & k & _ & HP' & Hk). destruct (Hres _ _ _ HP'). lia.
Qed.

Lemma emu_amt_range u : uio_ok u → 0 ≤ emu_amt u ≤ EMU_MAXIO ∧ emu_amt u ≤ uio_resid u ∧ (0 < uio_resid u → 0 < emu_amt u).
Proof. intros (E & Hl & _). unfold emu_amt, EMU_MAXIO. destruct (Z.gtb_spec (uio_resid u) 16384); lia. Qed.

(** Any buffer: what can happen to the card. *)
Lemma emufs_read_loop_wp handle u w :
  idle false (ef_emu w) → handle ∈ hw_open (e_hw (ef_emu w)) → is_handle handle → uio_rw_of u = UIO_READ → uio_in u →
  swp (emufs_rw_loop (emu_read handle) u) w (λ _ w', ∃ e', w' = with_emu w e' ∧ idle false e' ∧ same_card (e_hw (ef_emu w)) (e_hw e')).
Proof.
  intros Hi Hh Hr Hrw Hu. set (h := e_hw (ef_emu w)).
  eapply swp_mono; [apply (emufs_rw_loop_wp _
    (λ u' k e, idle false e ∧ same_card h (e_hw e) ∧ uio_in u' ∧ uio_rw_of u' = UIO_READ ∧ uio_resid u' = uio_resid u - k ∧ 0 ≤ k)
    (λ _ _ e, idle false e ∧ same_card h (e_hw e)))|intros [r u'] w' Hw'; exact Hw'].
  - apply Hu.
  - split_and!; try done; lia.
  - intros u' k e (_ & _ & Hu' & _ & E & Hk). destruct Hu' as ((? & ? & _) & _). lia.
  - by intros u' k e (? & ? & _).
  - intros u' k e (Hi' & Hc & Hu' & Hrw' & E & Hk) Hpos. destruct (emu_amt_range u') as (? & ? & ?); [apply Hu'|].
    eapply swp_mono; [apply emu_read_wp; try done; by rewrite (proj1 Hc)|]. intros [r u2] e2 (Hi2 & Hc2 & Hrw2 & Hu2).
    assert (same_card h (e_hw e2)) by by eapply same_card_trans. destruct (Z.eqb_spec r 0) as [->|]; [|done]. destruct (Hu2 eq_refl) as [Hin2 Hle].
    split; [done|]. intros Hne. split_and!; try done; lia.
Qed.

Lemma wrote_trans handle h1 h2 h3 : handle ∈ hw_open h1 → wrote_to handle h1 h2 → wrote_to handle h2 h3 → wrote_to handle h1 h3.
Proof.
  intros Hh (O1 & F1 & B1) (O2 & F2 & B2). split_and!; [congruence| |].
  - intros x Hx. rewrite F2 by by rewrite O1. by apply F1.
  - intros f Hf. rewrite B2, B1; [done|done|]. by rewrite F1.
Qed.

Lemma emufs_write_loop_wp handle u w :
  idle false (ef_emu w) → handle ∈ hw_open (e_hw (ef_emu w)) → is_handle handle → uio_rw_of u = UIO_WRITE → uio_in u →
  swp (emufs_rw_loop (emu_write handle) u) w (λ _ w', ∃ e', w' = with_emu w e' ∧ idle false e' ∧ wrote_to handle (e_hw (ef_emu w)) (e_hw e')).
Proof.
  intros Hi Hh Hr Hrw Hu. set (h := e_hw (ef_emu w)).
  eapply swp_mono; [apply (emufs_rw_loop_wp _
    (λ u' k e, idle false e ∧ wrote_to handle h (e_hw e) ∧ uio_in u' ∧ uio_rw_of u' = UIO_WRITE ∧ uio_resid u' = uio_resid u - k ∧ 0 ≤ k)
    (λ _ _ e, idle false e ∧ wrote_to handle h (e_hw e)))|intros [r u'] w' Hw'; exact Hw'].
  - apply Hu.
  - split_and!; try done; lia.
  - intros u' k e (_ & _ & Hu' & _ & E & Hk). destruct Hu' as ((? & ? & _) & _). lia.
  - by intros u' k e (? & ? & _).
  - intros u' k e (Hi' & Hc & Hu' & Hrw' & E & Hk) Hpos. destruct (emu_amt_range u') as (? & ? & Hamt); [apply Hu'|].
    eapply swp_mono; [apply emu_write_wp; try done; by rewrite (proj1 Hc)|]. intros [r u2] e2 (Hi2 & Hc2 & Hrw2 & Hu2).
    assert (wrote_to handle h (e_hw e2)) by (by eapply (wrote_trans handle)). destruct (Z.eqb_spec r 0) as [->|]; [|done]. destruct (Hu2 eq_refl) as [Hin2 Hle].
    split; [done|]. intros Hne. split_and!; try done; lia.
Qed.

(** A buffer of the kernel: all the bytes up to the end of the file. *)
Lemma emufs_read_kuio_wp handle mem pos len off w :
  let b := hw_bytes (e_hw (ef_emu w)) (hw_file (e_hw (ef_emu w)) handle) in
  idle false (ef_emu w) → handle ∈ hw_open (e_hw (ef_emu w)) → is_handle handle → kuio_ok mem pos len off len →
  swp (emufs_rw_loop (emu_read handle) (kuio UIO_READ mem pos len off len)) w (λ '(r, u') w',
    ∃ e', w' = with_emu w e' ∧ idle false e' ∧ same_card (e_hw (ef_emu w)) (e_hw e') ∧
    ∃ n, 0 ≤ n ≤ len ∧ (n = 0 ∨ off + n ≤ Z.of_nat (length b)) ∧ u' = kuio UIO_READ (buf_write mem pos (slice b off n)) (pos + n) (len - n) (off + n) (len - n) ∧
      (r = 0 → n = len ∨ Z.of_nat (length b) ≤ off + n)).
Proof.
  intros b Hi Hh Hr Hk. set (h := e_hw (ef_emu w)).
  set (st n u' := 0 ≤ n ≤ len ∧ (n = 0 ∨ off + n ≤ Z.of_nat (length b)) ∧ u' = kuio UIO_READ (buf_write mem pos (slice b off n)) (pos + n) (len - n) (off + n) (len - n)).
  assert (kuio_ok mem pos len off len) as (Hp & Hm & Hrs & Hl & Ho & Hmx) by done.
  eapply swp_mono; [apply (emufs_rw_loop_wp _ (λ u' k e, idle false e ∧ same_card h (e_hw e) ∧ st k u')
    (λ r u' e, idle false e ∧ same_card h (e_hw e) ∧ ∃ n, st n u' ∧ (r = 0 → n = len ∨ Z.of_nat (length b) ≤ off + n)))|].
  - unfold uio_ok; cbn. split_and!; done || lia.
  - split_and!; [done|done|]. unfold st. split_and!; [lia|lia|by left|]. change (slice b off 0) with (@nil Z). by rewrite buf_write_nil, !Z.add_0_r, !Z.sub_0_r.
  - intros u' k e (_ & _ & Hkr & _ & ->). cbn. lia.
  - intros u' k e (? & ? & Hst) E. split_and!; try done. exists k. split; [done|]. intros _. left. destruct Hst as (_ & _ & ->). cbn in E. lia.
  - intros u' k e (Hi' & Hc & Hst) Hpos. pose proof Hst as (Hkr & Hkb & ->). cbn [kuio uio_resid] in Hpos |- *.
    set (u' := kuio _ _ _ _ _ _). assert (emu_amt u' = Z.min 16384 (len - k)) as Ea.
    { unfold emu_amt, u', EMU_MAXIO. cbn. destruct (Z.gtb_spec (len - k) 16384); lia. }
    destruct Hc as (Ho1 & Hf1 & Hb1). assert (hw_bytes (e_hw e) (hw_file (e_hw e) handle) = b) as Eb by by rewrite Hf1, Hb1.
    assert (Z.of_nat (length (slice b off k)) = k) as Hsl. { destruct (decide (k = 0)) as [->|]; [done|]. apply length_slice; lia. }
    assert (length (buf_write mem pos (slice b off k)) = length mem) as Hbl by (apply length_buf_write; lia).
    eapply swp_mono; [apply emu_read_kuio_wp; try done; [by rewrite Ho1|rewrite Ea; unfold EMU_MAXIO; lia|lia|]|].
    { unfold kuio_ok. rewrite Hbl. lia. }
    intros [r u2] e2 (Hi2 & Hc2 & n & Hn & -> & Hnb & Hz). rewrite Eb in Hnb, Hz |- *.
    assert (same_card h (e_hw e2)) as Hc3 by by eapply same_card_trans.
    assert (st (k + n) (kuio UIO_READ (buf_write (buf_write mem pos (slice b off k)) (pos + k) (slice b (off + k) n)) (pos + k + n) (len - k - n) (off + k + n) (len - k - n))) as Hst2.
    { rewrite Ea in Hn. unfold st. split_and!; [lia|lia|lia|]. rewrite slice_app by lia. rewrite <-buf_write_app; [|lia|].
      - rewrite Hsl. f_equal; lia.
      - assert (Z.of_nat (length (slice b (off + k) n)) = n); [|lia]. destruct (decide (n = 0)) as [->|Hn0]; [done|]. apply length_slice; lia. }
    destruct (Z.eqb_spec r 0) as [->|Hr0]; [|split_and!; try done; exists (k + n); by split].
    cbn [kuio uio_resid]. split.
    + intros E. assert (n = 0) as -> by lia. split_and!; try done. exists (k + 0). split; [done|]. intros _. specialize (Hz eq_refl eq_refl). rewrite Ea in Hz. lia.
    + intros Hne. replace (len - (len - k - n)) with (k + n) by lia. split_and!; try done. lia.
  - intros [r u'] w' (e' & -> & Hi' & Hc & n & (Hn & Hb' & ->) & Hfin). exists e'. split_and!; try done. exists n. split; [exact Hn|]. split; [exact Hb'|]. split; [done|exact Hfin].
Qed.

Lemma emufs_write_kuio_wp handle mem pos len off w :
  let f := hw_file (e_hw (ef_emu w)) handle in
  idle false (ef_emu w) → handle ∈ hw_open (e_hw (ef_emu w)) → is_handle handle → kuio_ok mem pos len off len → 0 < len →
  swp (emufs_rw_loop (emu_write handle) (kuio UIO_WRITE mem pos len off len)) w (λ '(r, u') w',
    ∃ e', w' = with_emu w e' ∧ idle false e' ∧ wrote_to handle (e_hw (ef_emu w)) (e_hw e') ∧
      (r = 0 → hw_bytes (e_hw e') f = write_at (hw_bytes (e_hw (ef_emu w)) f) off (slice mem pos len))).
Proof.
  intros f Hi Hh Hr Hk Hlen. set (h := e_hw (ef_emu w)).
  set (st n u' e := 0 ≤ n ≤ len ∧ u' = kuio UIO_WRITE mem (pos + n) (len - n) (off + n) (len - n) ∧
    (0 < n → hw_bytes (e_hw e) f = write_at (hw_bytes h f) off (slice mem pos n)) ∧ (n = 0 → hw_bytes (e_hw e) f = hw_bytes h f)).
  assert (kuio_ok mem pos len off len) as (Hp & Hm & Hrs & Hl & Ho & Hmx) by done.
  eapply swp_mono; [apply (emufs_rw_loop_wp _ (λ u' k e, idle false e ∧ wrote_to handle h (e_hw e) ∧ st k u' e)
    (λ r u' e, idle false e ∧ wrote_to handle h (e_hw e) ∧ (r = 0 → hw_bytes (e_hw e) f = write_at (hw_bytes h f) off (slice mem pos len))))|].
  - unfold uio_ok; cbn. split_and!; done || lia.
  - split_and!; [done|done|]. unfold st. split_and!; try done; [lia|]. by rewrite !Z.add_0_r, !Z.sub_0_r.
  - intros u' k e (_ & _ & Hkr & -> & _). cbn. lia.
  - intros u' k e (? & ? & Hkr & -> & Hb & _) E. split_and!; try done. intros _. cbn in E. assert (k = len) as -> by lia. by apply Hb.
  - intros u' k e (Hi' & Hc & Hkr & -> & Hbk & Hb0) Hpos. cbn [kuio uio_resid] in Hpos |- *.
    set (u' := kuio _ _ _ _ _ _). assert (emu_amt u' = Z.min 16384 (len - k)) as Ea.
    { unfold emu_amt, u', EMU_MAXIO. cbn. destruct (Z.gtb_spec (len - k) 16384); lia. }
    pose proof Hc as (Ho1 & Hf1 & Hb1). assert (hw_file (e_hw e) handle = f) as Ef by by apply Hf1.
    eapply swp_mono; [apply emu_write_kuio_wp; try done; [by rewrite Ho1|rewrite Ea; unfold EMU_MAXIO; lia|lia|unfold kuio_ok; lia]|].
    rewrite Ef, Ea. set (n := Z.min 16384 (len - k)). intros [r u2] e2 (Hi2 & Hc2 & -> & Hb2).
    assert (wrote_to handle h (e_hw e2)) as Hc3 by (by eapply (wrote_trans handle)).
    destruct (Z.eqb_spec r 0) as [->|Hr0]; [|by split_and!]. cbn [kuio uio_resid]. split; [lia|]. intros _.
    replace (len - (len - k - n)) with (k + n) by lia. split; [|lia]. split_and!; [done|done|]. unfold st. split_and!; [lia|lia|f_equal; lia| |lia].
    intros _. rewrite Hb2 by done. destruct (decide (k = 0)) as [->|Hk0]; [rewrite Hb0 by done; f_equal; [lia|f_equal; lia]|].
    rewrite Hbk, slice_app by lia. rewrite <-write_at_app by done. f_equal. rewrite length_slice; lia.
  - intros [r u'] w' (e' & -> & Hi' & Hc & Hfin). exists e'. by split_and!.
Qed.
End io.

(** ** A card with an empty directory tree and one file

    The card of the witnesses: whatever name is opened below the root, it is the
    same file. *)

Record card := mkCard { c_next : Z; c_open : gset Z; c_data : list Z }.

Definition answer (r : emu_regs) (code : Z) : emu_regs := mkRegs (reg_handle r) (reg_offset r) (reg_iolen r) code (emu_buffer r).

#[export] Instance card_hw : EmuHw card := λ h op r,
  if (op =? EMU_OP_OPEN) || (op =? EMU_OP_CREATE) then
    if c_next h >=? 4294967296 then (answer r EMU_RES_NOHANDLES, h) else
    (mkRegs (c_next h) (reg_offset r) 0 EMU_RES_SUCCESS (emu_buffer r), mkCard (c_next h + 1) ({[c_next h]} ∪ c_open h) (c_data h))
  else if op =? EMU_OP_EXCLCREATE then (answer r EMU_RES_EXISTS, h)
  else if op =? EMU_OP_CLOSE then (answer r EMU_RES_SUCCESS, mkCard (c_next h) (c_open h ∖ {[reg_handle r]}) (c_data h))
  else if reg_handle r =? EMU_ROOTHANDLE then (answer r EMU_RES_ISDIR, h)
  else if op =? EMU_OP_READ then
    let n := Z.min (reg_iolen r) (Z.max 0 (Z.of_nat (length (c_data h)) - reg_offset r)) in
    (mkRegs (reg_handle r) (reg_offset r + n) n EMU_RES_SUCCESS (buf_write (emu_buffer r) 0 (slice (c_data h) (reg_offset r) n)), h)
  else if op =? EMU_OP_WRITE then
    (answer r EMU_RES_SUCCESS, mkCard (c_next h) (c_open h) (write_at (c_data h) (reg_offset r) (slice (emu_buffer r) 0 (reg_iolen r))))
  else if op =? EMU_OP_GETSIZE then
    (mkRegs (reg_handle r) (reg_offset r) (Z.of_nat (length (c_data h))) EMU_RES_SUCCESS (emu_buffer r), h)
  else if op =? EMU_OP_TRUNC then
    (answer r EMU_RES_SUCCESS, mkCard (c_next h) (c_open h) (take (Z.to_nat (reg_iolen r)) (c_data h)))
  else (answer r EMU_RES_UNSUPP, h).

Definition card_file (x : Z) : Z := if x =? EMU_ROOTHANDLE then 0 else 1.

Lemma card_slice b l off n :
  0 ≤ off → n = 0 ∨ off + n ≤ Z.of_nat (length l) → 0 ≤ n ≤ Z.of_nat (length b) →
  slice (buf_write b 0 (slice l off n)) 0 n = slice l off n ∧ length (buf_write b 0 (slice l off n)) = length b.
Proof.
  intros Ho Hn Hb. assert (Z.of_nat (length (slice l off n)) = n) as Hl by (destruct (decide (n = 0)) as [->|]; [done|apply length_slice; lia]).
  split; [by apply slice_buf_write|]. apply length_buf_write. lia.
Qed.

(** The operations one by one. *)
Ltac each_op op := unfold emu_run, card_hw, EMU_OP_OPEN, EMU_OP_CREATE, EMU_OP_EXCLCREATE, EMU_OP_CLOSE, EMU_OP_READ, EMU_OP_READDIR, EMU_OP_WRITE,
    EMU_OP_GETSIZE, EMU_OP_TRUNC in *;
  let E := fresh in
  assert (op = 1 ∨ op = 2 ∨ op = 3 ∨ op = 4 ∨ op = 5 ∨ op = 6 ∨ op = 7 ∨ op = 8 ∨ op = 9) as E by lia;
  destruct E as [->|[->|[->|[->|[->|[->|[->|[->| ->]]]]]]]]; cbn [Z.eqb Pos.eqb orb];
  repeat match goal with |- context [if ?b then _ else _] => lazymatch b with reg_handle _ =? _ => destruct b eqn:? | _ >=? _ => destruct b eqn:? end end.

#[export] Program Instance card_laws : EmuLaws card := {|
  hw_ok h := 1 ≤ c_next h;
  hw_open := c_open;
  hw_file _ x := card_file x;
  hw_bytes h f := if f =? 1 then c_data h else [];
|}.
Next Obligation.
  intros h op r Hok (Ho & Hop & Hb & Hlen & _ & Hoff). unfold EMU_MAXIO in *.
  each_op op; (split; [cbn; lia|]); (split; [try done|]); try (by split_and!).
  - split_and!; try done. intros _ _. cbn. lia.
  - split_and!; try done. intros _ _. cbn. lia.
  - cbn [emu_buffer]. apply card_slice; lia.
Qed.
Next Obligation.
  intros h op r f Hok (Ho & Hop & _) Hf. each_op op; cbn [snd c_data]; try done.
  - destruct (Z.eqb_spec f 1) as [->|]; [|done]. destruct Hf; [by left|]. unfold card_file. by rewrite Heqb.
  - destruct (Z.eqb_spec f 1) as [->|]; [|done]. destruct Hf; [by right|]. unfold card_file. by rewrite Heqb.
Qed.
Next Obligation.
  intros h r Hok (Ho & _ & Hb & Hlen & _ & Hoff). cbn -[slice buf_write]. unfold emu_run, card_hw, card_file, EMU_OP_READ, EMU_MAXIO in *. cbn [Z.eqb Pos.eqb orb EMU_OP_OPEN EMU_OP_CREATE EMU_OP_EXCLCREATE EMU_OP_CLOSE].
  destruct (Z.eqb_spec (reg_handle r) EMU_ROOTHANDLE) as [E|E]; [done|]. intros _. cbn [reg_iolen emu_buffer reg_offset Z.eqb Pos.eqb].
  split_and!; try lia. apply card_slice; lia.
Qed.
Next Obligation.
  intros h r Hok _. unfold emu_run, card_hw. cbn [Z.eqb Pos.eqb orb EMU_OP_OPEN EMU_OP_CREATE EMU_OP_EXCLCREATE EMU_OP_CLOSE EMU_OP_READDIR EMU_OP_READ EMU_OP_WRITE EMU_OP_GETSIZE EMU_OP_TRUNC].
  by destruct (reg_handle r =? EMU_ROOTHANDLE).
Qed.
Next Obligation.
  intros h r Hok _. unfold emu_run, card_hw, card_file. cbn [Z.eqb Pos.eqb orb EMU_OP_OPEN EMU_OP_CREATE EMU_OP_EXCLCREATE EMU_OP_CLOSE EMU_OP_READDIR EMU_OP_READ EMU_OP_WRITE EMU_OP_GETSIZE EMU_OP_TRUNC].
  by destruct (reg_handle r =? EMU_ROOTHANDLE).
Qed.

Lemma card_reliable : reliable (H := card).
Proof. done. Qed.
