(* ===== verification/EmuThm.v ===== *)
(** * The passthrough filesystem as a whole *)

From S2P Require Import Prelude Array Copyinout Uio Lhd Vnode Device Vfs Emu Emufs EmuLaws EmuInv EmuIo.

(** The calls the rest of the kernel makes, on vnodes it has references to. *)
Inductive ecall :=
| EOpen (p flags : Z) | EClose (p : Z) | ERead (p : Z) (u : uio) | EWrite (p : Z) (u : uio) | EGetdirentry (p : Z) (u : uio)
| EIoctl (p op data : Z) | EStat (p : Z) | EGettype (p : Z) | ETryseek (p pos : Z) | EFsync (p : Z) | ETruncate (p len : Z)
| ENamefile (p : Z) (u : uio) | ECreat (p : Z) (name : list Z) (excl : bool) | ELookup (p : Z) (path : list Z)
| ELookparent (p : Z) (path : list Z) (len : Z) | EIncref (p : Z) | EDecref (p : Z) | EGetroot | ESync | EUnmount.

Section thm.
Context {H : Type} `{!EmuHw H} `{!EmuLaws H} {cs : CurSpace}.
Implicit Types (e : emu H) (w : eworld H) (L : gset Z) (c : ecall).

Definition ignore {A} (m : stm (eworld H) A) : stm (eworld H) unit := m;; mret tt.

Definition do_ecall c : stm (eworld H) unit :=
  match c with
  | EOpen p flags => ignore (emufs_VOP p (λ t, vop_open t p flags))
  | EClose p => ignore (emufs_VOP p (λ t, vop_close t p))
  | ERead p u => ignore (emufs_VOP p (λ t, vop_read t p u))
  | EWrite p u => ignore (emufs_VOP p (λ t, vop_write t p u))
  | EGetdirentry p u => ignore (emufs_VOP p (λ t, vop_getdirentry t p u))
  | EIoctl p op data => ignore (emufs_VOP p (λ t, vop_ioctl t p op data))
  | EStat p => ignore (emufs_VOP p (λ t, vop_stat t p))
  | EGettype p => ignore (emufs_VOP p (λ t, vop_gettype t p))
  | ETryseek p pos => ignore (emufs_VOP p (λ t, vop_tryseek t p pos))
  | EFsync p => ignore (emufs_VOP p (λ t, vop_fsync t p))
  | ETruncate p len => ignore (emufs_VOP p (λ t, vop_truncate t p len))
  | ENamefile p u => ignore (emufs_VOP p (λ t, vop_namefile t p u))
  | ECreat p name excl => ignore (emufs_VOP p (λ t, vop_creat t p name excl))
  | ELookup p path => ignore (emufs_VOP p (λ t, vop_lookup t p path))
  | ELookparent p path len => ignore (emufs_VOP p (λ t, vop_lookparent t p path len))
  | EIncref p => emufs_incref p
  | EDecref p => emufs_decref p
  | EGetroot => ignore emufs_getroot
  | ESync => ignore emufs_sync
  | EUnmount => ignore emufs_unmount
  end.

Definition ecall_vnode c : option Z :=
  match c with
  | EOpen p _ | EClose p | ERead p _ | EWrite p _ | EGetdirentry p _ | EIoctl p _ _ | EStat p | EGettype p | ETryseek p _
  | EFsync p | ETruncate p _ | ENamefile p _ | ECreat p _ _ | ELookup p _ | ELookparent p _ _ | EIncref p | EDecref p => Some p
  | EGetroot | ESync | EUnmount => None
  end.

(** What a caller sees to: the vnode is there, a buffer is within the limits of
    the offsets, and the filesystem keeps its own reference to the root. *)
Definition ecall_ok w c : Prop :=
  (∀ p, ecall_vnode c = Some p → is_Some (ew_heap w !! p)) ∧ eroom w ∧
  match c with
  | ERead _ u | EGetdirentry _ u => uio_rw_of u = UIO_READ ∧ uio_in u
  | EWrite _ u => uio_rw_of u = UIO_WRITE ∧ uio_in u
  | ETruncate _ len => 0 ≤ len ≤ INT_MAX
  | EDecref p => ∀ ev, ew_heap w !! p = Some ev → vn_refcount (ev_v ev) = 1 → vn_opencount (ev_v ev) = 0 ∧ ef_root w ≠ Some p
  | _ => True
  end.

Definition estep w w' : Prop := ∃ c, ecall_ok w c ∧ do_ecall c w = Done (tt, w').

(** The invariant after a call; handles are lost only if the card refuses to
    close them. *)
Definition ekept L w : Prop := (∃ L', emufs_ok L' w ∧ (reliable → L' ⊆ L)) ∧ is_Some (ef_root w).

Lemma ignore_wp {A} (m : stm (eworld H) A) w (Q : eworld H → Prop) : swp m w (λ _ w', Q w') → swp (ignore m) w (λ _ w', Q w').
Proof. intros Hm. apply swp_bind. eapply swp_mono; [exact Hm|]. intros a w' Hw'. by apply swp_ret. Qed.

(** A call through the function table. *)
Lemma vop_wp {A} L w p ev (op : vnode_ops (eworld H) → stm (eworld H) A) (Q : eworld H → Prop) :
  emufs_ok L w → ew_heap w !! p = Some ev →
  swp (op emufs_fileops) w (λ _ w', Q w') → swp (op emufs_dirops) w (λ _ w', Q w') →
  swp (ignore (emufs_VOP p op)) w (λ _ w', Q w').
Proof.
  intros Hok E Hf Hd. destruct (hd_vnode _ _ _ (ek_handles _ _ Hok) p ev E) as (_ & _ & _ & Hv). pose proof Hv as (_ & _ & _ & ops & Hops).
  apply ignore_wp. eapply VOP_wp_emu; [done|done|done|]. by destruct ops.
Qed.

Lemma ekept_refl L w : emufs_ok L w → is_Some (ef_root w) → ekept L w.
Proof. intros Hok Hr. split; [by exists L|done]. Qed.

Lemma ekept_card L w e :
  emufs_ok L w → is_Some (ef_root w) → idle false e → hw_open (e_hw e) = hw_open (e_hw (ef_emu w)) → ekept L (with_emu w e).
Proof. intros Hok Hr Hi E. apply ekept_refl; [by apply ok_card|done]. Qed.

Lemma opened_kept L w r q w' : is_Some (ef_root w) → opened L w r q w' → ekept L w'.
Proof. intros Hr (E & _ & Hok & _). split; [done|by rewrite E]. Qed.

Lemma emufs_stat_wp L w p ev :
  emufs_ok L w → ew_heap w !! p = Some ev → is_Some (ef_root w) → swp (emufs_stat p) w (λ _ w', ekept L w').
Proof.
  intros Hok E Hr. destruct (hd_vnode _ _ _ (ek_handles _ _ Hok) p ev E) as (Hh & Ho & _ & Hv). pose proof Hv as (_ & _ & _ & ops & Hops).
  unfold emufs_stat. apply swp_bind. eapply ew_get_wp; [done|]. apply swp_bind. eapply VOP_wp_emu; [done|done|done|].
  assert (∀ mode, swp ('(result, size) ← on_emu (emu_getsize (ev_handle ev));
    if negb (result =? 0) then mret (result, mkStat mode 1 0 0) else mret (0, mkStat mode 1 size 0)) w (λ _ w', ekept L w')) as Hget.
  { intros mode. apply swp_bind, on_emu_wp. eapply swp_mono; [by apply emu_getsize_wp; [apply Hok|..]|]. intros [r size] e (Hi & Hc & _).
    destruct (negb _); apply swp_ret; by apply ekept_card. }
  destruct ops; apply swp_ret; apply Hget.
Qed.

Lemma rw_kept L w (m : stm (eworld H) (Z * uio)) h :
  emufs_ok L w → is_Some (ef_root w) →
  swp m w (λ _ w', ∃ e', w' = with_emu w e' ∧ idle false e' ∧ wrote_to h (e_hw (ef_emu w)) (e_hw e')) → swp m w (λ _ w', ekept L w').
Proof. intros Hok Hr Hm. eapply swp_mono; [exact Hm|]. intros _ w' (e' & -> & Hi & Hc & _). by apply ekept_card. Qed.

Lemma card_wrote h (x y : H) : same_card x y → wrote_to h x y.
Proof. intros (? & ? & Hb). split_and!; [done|done|]. intros f _. apply Hb. Qed.

(** Every call keeps the invariant. *)
Lemma do_ecall_wp L w c :
  emufs_ok L w → is_Some (ef_root w) → ecall_ok w c → swp (do_ecall c) w (λ _ w', ekept L w').
Proof.
  intros Hok Hroot (Hp & Hroom & Hc). pose proof (ekept_refl L w Hok Hroot) as Hsame.
  assert (∀ p, ecall_vnode c = Some p → ∃ ev, ew_heap w !! p = Some ev ∧ is_handle (ev_handle ev) ∧ ev_handle ev ∈ hw_open (e_hw (ef_emu w)) ∧ vfine (ev_v ev)) as Hev.
  { intros p Hpc. destruct (Hp p Hpc) as [ev E]. exists ev. by destruct (hd_vnode _ _ _ (ek_handles _ _ Hok) p ev E) as (? & ? & _ & ?). }
  pose proof (ek_idle _ _ Hok) as Hi.
  destruct c; cbn [do_ecall]; try (destruct (Hev p eq_refl) as (ev & E & Hh & Ho & Hf)); try (eapply (vop_wp L); [done|done|..]);
    cbn [vop_open vop_close vop_read vop_write vop_getdirentry vop_ioctl vop_stat vop_gettype vop_tryseek vop_fsync vop_truncate vop_namefile
      vop_creat vop_lookup vop_lookparent emufs_fileops emufs_dirops]; try (by apply swp_ret); try (by eapply emufs_stat_wp).
  - destruct Hc as [Hrw Hu]. unfold emufs_read. apply swp_bind. eapply ew_get_wp; [done|]. apply swp_bind, swp_lift. rewrite bool_decide_eq_true_2 by done.
    apply (rw_kept _ _ _ (ev_handle ev)); [done|done|]. eapply swp_mono; [by apply emufs_read_loop_wp|]. intros _ w' (e' & -> & Hi' & Hs).
    exists e'. split_and!; try done. by apply card_wrote.
  - destruct Hc as [Hrw Hu]. unfold emufs_write. apply swp_bind. eapply ew_get_wp; [done|]. apply swp_bind, swp_lift. rewrite bool_decide_eq_true_2 by done.
    apply (rw_kept _ _ _ (ev_handle ev)); [done|done|]. by apply emufs_write_loop_wp.
  - destruct Hc as [Hrw Hu]. unfold emufs_getdirentry. apply swp_bind. eapply ew_get_wp; [done|]. apply swp_bind, swp_lift. rewrite bool_decide_eq_true_2 by done.
    apply on_emu_wp. destruct (emu_amt_range u) as (Ha & _); [apply Hu|]. eapply swp_mono; [by apply emu_readdir_wp|]. intros _ e' (Hi' & Hs & _). by apply ekept_card.
  - unfold emufs_truncate. apply swp_bind. eapply ew_get_wp; [done|]. apply on_emu_wp. eapply swp_mono; [by apply emu_trunc_wp|].
    intros _ e' (Hi' & Hs & _). by apply ekept_card.
  - eapply swp_mono; [by eapply emufs_openfile_wp|]. intros [r q] w' Ho'. by eapply opened_kept.
  - eapply swp_mono; [by eapply emufs_openfile_wp|]. intros [r q] w' Ho'. by eapply opened_kept.
  - eapply swp_mono; [by eapply emufs_lookparent_wp|]. intros [[r q] s] w' Ho'. by eapply opened_kept.
  - eapply emufs_incref_wp; [done|done| |done]. intros m' _ Hhm Hpm _. apply ekept_refl; [|done]. destruct Hok. split; cbn; auto.
  - eapply swp_mono; [eapply emufs_decref_wp; [done|done|]|]. { intros H1. by eapply Hc. }
    intros _ w' [Hok' E']. split; [by exists L|by rewrite E'].
  - apply ignore_wp. eapply swp_mono; [by apply emufs_getroot_wp|]. intros q w' [_ Ho']. by eapply opened_kept.
Qed.

(** A filesystem before its root vnode is loaded: the card has the root open. *)
Definition efresh w : Prop :=
  idle false (ef_emu w) ∧ hw_open (e_hw (ef_emu w)) = {[EMU_ROOTHANDLE]} ∧ ew_heap w = ∅ ∧ ef_root w = None ∧ array_repr (ef_vnodes w) [].

Lemma efresh_ok w : efresh w → emufs_ok {[EMU_ROOTHANDLE]} w ∧ eroom w.
Proof.
  intros (Hi & Ho & Hh & Hr & Ha). split; [split; [done| |]|].
  - rewrite Hh. split; [done|done|]. intros x Hx. left. by rewrite Ho in Hx.
  - rewrite Hh, Hr. split; [|by intros p [ev Hev]|done]. exists []. split_and!; [done|constructor|]. intros p. rewrite lookup_empty, elem_of_nil, is_Some_alt. done.
  - split; [by rewrite Hh|]. intros l Hl. by rewrite (array_repr_det _ _ _ Hl Ha).
Qed.

Lemma emufs_loadroot_kept w0 w1 : efresh w0 → emufs_loadroot w0 = Done (0, w1) → ekept ∅ w1.
Proof.
  intros Hf E. destruct (efresh_ok w0 Hf) as [Hok Hroom].
  assert (swp emufs_loadroot w0 (λ r w', r = 0 → ekept ∅ w')) as Hw; [|unfold swp in Hw; rewrite E in Hw; by apply Hw].
  unfold emufs_loadroot. apply swp_bind. eapply swp_mono; [apply (emufs_loadvnode_wp {[EMU_ROOTHANDLE]}); try done|].
  { destruct Hf as (_ & -> & _). set_solver. }
  intros [r p] w2 (_ & _ & H2). destruct (Z.eqb_spec r 0) as [->|Hne]; cbn [negb]; [|apply swp_ret; by intros ->].
  destruct H2 as (Hok2 & _ & ev & Ev & _). apply swp_bind. unfold set_root. apply swp_modify, swp_ret. intros _. split; [|by eexists].
  replace (_ ∖ _) with (∅ : gset Z) in Hok2 by set_solver. exists ∅. split; [|done]. destruct Hok2 as [? ? [? ? ?]]. split; [done|done|].
  split; [done|done|]. cbn. intros q [= <-]. by rewrite Ev.
Qed.

Lemma estep_kept w w' : estep w w' → ekept ∅ w → ekept ∅ w'.
Proof.
  intros (c & Hc & E) [(L & Hok & HL) Hr]. pose proof (do_ecall_wp L w c Hok Hr Hc) as Hw. unfold swp in Hw. rewrite E in Hw.
  destruct Hw as [(L' & Hok' & HL') Hr']. split; [|done]. exists L'. split; [done|]. set_solver.
Qed.

(** [C10] Handles on the card.  Take any sequence of calls on the passthrough
    filesystem after it has been set up.  Every vnode in memory then has a handle
    of its own, open on the card, and at least one reference.  If the card closes
    what it is told to close, every open handle is the handle of a vnode: none
    leaks.  Every further call returns: the card never gets a bad handle, a bad
    operation or a bad size, on which the driver would panic, and no lock is left
    held. *)
Theorem emufs_handles_owned w0 w1 w :
  efresh w0 → emufs_loadroot w0 = Done (0, w1) → rtc estep w1 w →
  (∀ p ev, ew_heap w !! p = Some ev → ev_handle ev ∈ hw_open (e_hw (ef_emu w)) ∧ 1 ≤ vn_refcount (ev_v ev) ∧
     ∀ p' ev', ew_heap w !! p' = Some ev' → ev_handle ev' = ev_handle ev → p' = p) ∧
  (reliable → ∀ x, x ∈ hw_open (e_hw (ef_emu w)) → ∃ p ev, ew_heap w !! p = Some ev ∧ ev_handle ev = x) ∧
  (∀ c, ecall_ok w c → ∃ w', do_ecall c w = Done (tt, w') ∧ e_lock (ef_emu w') = false).
Proof.
  intros Hf E Hrun. pose proof (emufs_loadroot_kept w0 w1 Hf E) as Hk. clear E.
  assert (ekept ∅ w) as [(L & Hok & HL) Hr] by (induction Hrun; eauto using estep_kept).
  pose proof (ek_handles _ _ Hok) as [Hv Hinj Ho]. split_and!.
  - intros p ev Ev. destruct (Hv p ev Ev) as (_ & Hop & _ & Hfine). split_and!; [done|apply Hfine|]. intros p' ev' Ev' Eq. by eapply Hinj.
  - intros Hrel x Hx. specialize (HL Hrel). destruct (Ho x Hx) as [?|?]; [set_solver|done].
  - intros c Hc. pose proof (do_ecall_wp L w c Hok Hr Hc) as Hw. unfold swp in Hw. destruct (do_ecall c w) as [[[] w']| | |]; [|done..].
    destruct Hw as [(L' & Hok' & _) _]. exists w'. split; [done|]. apply Hok'.
Qed.

(** [C24] Reading and writing a file of the passthrough filesystem, in pieces of
    at most the size of the card's buffer.  A read into a buffer of the kernel
    changes no file and puts a prefix of the bytes of the file from the offset on
    into the buffer; without an error it is all of them, up to the length asked
    for or the end of the file.  A write that succeeds has put all the bytes into
    the file, at the offset; no other file has changed. *)
Theorem emufs_io_exact L w p ev mem pos len off :
  emufs_ok L w → ew_heap w !! p = Some ev → vn_ops (ev_v ev) = Some EmuFileOps → kuio_ok mem pos len off len → 0 < len →
  let f := hw_file (e_hw (ef_emu w)) (ev_handle ev) in
  let b := hw_bytes (e_hw (ef_emu w)) f in
  (∃ r n w', emufs_VOP p (λ t, vop_read t p (kuio UIO_READ mem pos len off len)) w =
       Done ((r, kuio UIO_READ (buf_write mem pos (slice b off n)) (pos + n) (len - n) (off + n) (len - n)), w') ∧
     0 ≤ n ≤ len ∧ (r = 0 → n = Z.min len (Z.max 0 (Z.of_nat (length b) - off))) ∧
     ∀ f', hw_bytes (e_hw (ef_emu w')) f' = hw_bytes (e_hw (ef_emu w)) f') ∧
  (∃ r u' w', emufs_VOP p (λ t, vop_write t p (kuio UIO_WRITE mem pos len off len)) w = Done ((r, u'), w') ∧
     (r = 0 → hw_bytes (e_hw (ef_emu w')) f = write_at b off (slice mem pos len)) ∧
     ∀ f', f' ≠ f → hw_bytes (e_hw (ef_emu w')) f' = hw_bytes (e_hw (ef_emu w)) f').
Proof.
  intros Hok E Hops Hk Hlen f b. destruct (hd_vnode _ _ _ (ek_handles _ _ Hok) p ev E) as (Hh & Ho & _ & Hv). split.
  - assert (swp (emufs_VOP p (λ t, vop_read t p (kuio UIO_READ mem pos len off len))) w (λ '(r, u') w',
      ∃ e', w' = with_emu w e' ∧ idle false e' ∧ same_card (e_hw (ef_emu w)) (e_hw e') ∧ ∃ n, 0 ≤ n ≤ len ∧ (n = 0 ∨ off + n ≤ Z.of_nat (length b)) ∧
      u' = kuio UIO_READ (buf_write mem pos (slice b off n)) (pos + n) (len - n) (off + n) (len - n) ∧ (r = 0 → n = len ∨ Z.of_nat (length b) ≤ off + n))) as Hw.
    { eapply VOP_wp_emu; [done|done|done|]. cbn [emufs_table vop_read emufs_fileops]. unfold emufs_read. apply swp_bind. eapply ew_get_wp; [done|].
      apply swp_bind, swp_lift. cbn [wp kassert bool_decide]. apply emufs_read_kuio_wp; [apply Hok|done..]. }
    unfold swp in Hw. destruct (emufs_VOP p _ w) as [[[r u'] w']| | |]; [|done..]. destruct Hw as (e' & -> & _ & (_ & _ & Hb) & n & Hn & Hnb & -> & Hr).
    exists r, n, (with_emu w e'). split_and!; [done|lia|lia|intros H0; specialize (Hr H0); lia|exact Hb].
  - assert (swp (emufs_VOP p (λ t, vop_write t p (kuio UIO_WRITE mem pos len off len))) w (λ '(r, u') w',
      ∃ e', w' = with_emu w e' ∧ idle false e' ∧ wrote_to (ev_handle ev) (e_hw (ef_emu w)) (e_hw e') ∧
      (r = 0 → hw_bytes (e_hw e') f = write_at (hw_bytes (e_hw (ef_emu w)) f) off (slice mem pos len)))) as Hw.
    { eapply VOP_wp_emu; [done|done|done|]. cbn [emufs_table vop_write emufs_fileops]. unfold emufs_write. apply swp_bind. eapply ew_get_wp; [done|].
      apply swp_bind, swp_lift. cbn [wp kassert bool_decide]. apply emufs_write_kuio_wp; [apply Hok|done..]. }
    unfold swp in Hw. destruct (emufs_VOP p _ w) as [[[r u'] w']| | |]; [|done..]. destruct Hw as (e' & -> & _ & (_ & _ & Hb) & Hr).
    exists r, u', (with_emu w e'). by split_and!.
Qed.
End thm.

(** ** An example *)

#[local] Instance kernel_only : CurSpace := None.

Definition exe_card : card := mkCard 1 {[EMU_ROOTHANDLE]} [104; 105].
Definition exe0 : eworld card :=
  mkEw (mkEmu false 0 0 (mkRegs 0 0 0 0 (replicate 16384 0)) exe_card) None (mkArray 0 0 None) ∅ 1 (replicate 20 true).
Definition after {A} (m : stm (eworld card) A) (w : eworld card) : eworld card := match m w with Done (_, w') => w' | _ => w end.

(** The root, a file looked up and written to, its vnode dropped and loaded again. *)
Definition exe1 : eworld card := after emufs_loadroot exe0.
Definition exe2 : eworld card := after (do_ecall (ELookup 1 [102])) exe1.
Definition exe3 : eworld card := after (do_ecall (EDecref 2)) exe2.
Definition exe4 : eworld card := after (do_ecall (ECreat 1 [102] false)) exe3.

(** A decidable form of [eroom]. *)
Definition eroom_check {H} (w : eworld H) : bool :=
  bool_decide (map_Forall (λ _ ev, vn_refcount (ev_v ev) < INT_MAX) (ew_heap w)) && (a_num (ef_vnodes w) <? 536870911).

Lemma eroom_check_ok {H} (w : eworld H) : eroom_check w = true → eroom w.
Proof.
  intros [Hh Hn%Z.ltb_lt]%andb_prop. apply bool_decide_eq_true in Hh. split; [exact Hh|]. intros l (E & _). lia.
Qed.

Lemma exe_fresh : efresh exe0.
Proof. split_and!; done. Qed.

Lemma exe_step w c : eroom_check w = true → (∀ p, ecall_vnode c = Some p → is_Some (ew_heap w !! p)) →
  match c with ELookup _ _ | ECreat _ _ _ => True | EDecref p => ef_root w ≠ Some p ∧ (vn_opencount ∘ ev_v) <$> ew_heap w !! p = Some 0 | _ => False end →
  (if do_ecall c w is Done _ then true else false) = true → estep w (after (do_ecall c) w).
Proof.
  intros Hr Hp Hc Hd. exists c. split.
  - split_and!; [done|by apply eroom_check_ok|]. destruct c; try done. destruct Hc as [Hroot Hopen]. intros ev E _. rewrite E in Hopen. by injection Hopen.
  - unfold after. by destruct (do_ecall c w) as [[[] w']| | |].
Qed.

Lemma exe_run : rtc estep exe1 exe4.
Proof.
  assert (∀ (w : eworld card) p, (if ew_heap w !! p is Some _ then true else false) = true → ∀ c : ecall, ecall_vnode c = Some p → ∀ q, ecall_vnode c = Some q → is_Some (ew_heap w !! q)) as Hin.
  { intros w p E c Hc q Hq. rewrite Hc in Hq. injection Hq as <-. by destruct (ew_heap w !! p). }
  apply rtc_l with exe2; [|apply rtc_l with exe3; [|apply rtc_once]]; apply exe_step; try (vm_compute; reflexivity).
  - apply (Hin exe1 1); [vm_compute; reflexivity|done].
  - apply (Hin exe2 2); [vm_compute; reflexivity|done].
  - split; [vm_compute; discriminate|vm_compute; reflexivity].
  - apply (Hin exe3 1); [vm_compute; reflexivity|done].
Qed.

Lemma exe_root : emufs_loadroot exe0 = Done (0, exe1).
Proof. vm_compute. reflexivity. Qed.

Lemma emufs_handles_owned_witness :
  size (hw_open (e_hw (ef_emu exe4))) = 2%nat ∧
  (∀ x, x ∈ hw_open (e_hw (ef_emu exe4)) → ∃ p ev, ew_heap exe4 !! p = Some ev ∧ ev_handle ev = x).
Proof.
  split; [vm_compute; reflexivity|].
  exact (proj1 (proj2 (emufs_handles_owned exe0 exe1 exe4 exe_fresh exe_root exe_run)) card_reliable).
Defined.

Lemma exe_ok : ∃ L, emufs_ok L exe4.
Proof.
  pose proof (emufs_loadroot_kept exe0 exe1 exe_fresh exe_root) as Hk. pose proof exe_run as Hrun.
  assert (ekept ∅ exe4) as [(L & Hok & _) _]; [|by exists L]. generalize dependent exe1. generalize exe4. clear. intros w4 w1 Hk Hrun. induction Hrun; eauto using estep_kept.
Qed.

Lemma exe_file : match ew_heap exe4 !! 3 with Some ev => vn_ops (ev_v ev) = Some EmuFileOps ∧ ev_handle ev = 2 | None => False end.
Proof. vm_compute. split; reflexivity. Qed.

Lemma emufs_io_exact_witness :
  ∃ r u' w', emufs_VOP 3 (λ t, vop_write t 3 (kuio UIO_WRITE [1; 2; 3; 4] 1 3 1 3)) exe4 = Done ((r, u'), w') ∧
    (r = 0 → hw_bytes (e_hw (ef_emu w')) 1 = [104; 2; 3; 4]).
Proof.
  pose proof exe_file as Hf. destruct (ew_heap exe4 !! 3) as [ev|] eqn:E; [|destruct Hf]. destruct Hf as [Hops Hh]. destruct exe_ok as [L Hok].
  destruct (emufs_io_exact L exe4 3 ev [1; 2; 3; 4] 1 3 1 Hok E Hops) as [_ (r & u' & w' & Ew & Hr & _)]; [unfold kuio_ok, INT_MAX; cbn; lia|lia|].
  exists r, u', w'. split; [exact Ew|]. intros H0. specialize (Hr H0). rewrite Hh in Hr. etransitivity; [exact Hr|vm_compute; reflexivity].
Defined.
