(* ===== verification/Mksfs.v ===== *)
(** * sbin/mksfs: making an SFS volume

    The program as it is built for OS/161.  The disk is the file it has open, a
    list of bytes, together with the answers of the system calls: a [write] may
    be short, may have to be repeated, or may fail.  [err], [errx] and a failed
    [assert] end the process: the outcome [Panic]. *)

From S2P Require Import Prelude Bitmap Copyinout Uio SfsDisk Device.

(** ** disk.c *)

Definition BLOCKSIZE : Z := 512.

(** What a [read] or [write] does: it moves at most [k] bytes (0 or the end of
    the device is an error to the caller), fails with EINTR or EAGAIN, or fails
    for good.  When the list of answers ends, everything asked for is done. *)
Inductive io_answer := IoSome (k : Z) | IoAgain | IoFail.

(** [fd], [nblocks] and, outside the program, the bytes of the disk and the
    answers to come. *)
Record disk := mkDisk { d_fd : bool; d_nblocks : Z; d_bytes : list Z; d_answers : list io_answer }.

Definition set_bytes (b : list Z) (ans : list io_answer) (d : disk) : disk := mkDisk (d_fd d) (d_nblocks d) b ans.

(** [can_open], [can_stat]: [open] and [fstat] succeed. *)
Definition opendisk (can_open can_stat : bool) : stm disk unit :=
  fd ← gets d_fd;
  lift (kassert (negb fd));;
  lift (kassert can_open);;
  lift (kassert can_stat);;
  modify (λ d, mkDisk true (u32 (Z.of_nat (length (d_bytes d)) / BLOCKSIZE)) (d_bytes d) (d_answers d)).

Definition diskblocksize : stm disk Z := fd ← gets d_fd; lift (kassert fd);; mret BLOCKSIZE.
Definition diskblocks : stm disk Z := fd ← gets d_fd; lift (kassert fd);; gets d_nblocks.

(** The answer to a transfer of [n] bytes at the position [pos]: how many are
    moved, or [None] for EINTR and EAGAIN.  No byte can be moved beyond the end of the
    disk. *)
Definition transfer (pos n : Z) : stm disk (option Z) := λ d,
  let room := Z.max 0 (Z.of_nat (length (d_bytes d)) - pos) in
  match d_answers d with
  | [] => if Z.min n room =? 0 then Panic else Done (Some (Z.min n room), d)
  | a :: ans =>
      let d' := set_bytes (d_bytes d) ans d in
      match a with
      | IoSome k => let len := Z.min (Z.min k n) room in if len <=? 0 then Panic else Done (Some len, d')
      | IoAgain => Done (None, d')
      | IoFail => Panic
      end
  end.

(** [lseek(fd, block*BLOCKSIZE, SEEK_SET)]. *)
Definition seekdisk (block : Z) : outcome Z :=
  let pos := s32 (u32 (block * BLOCKSIZE)) in
  if pos <? 0 then Panic else Done pos.

(** The loops end: every round takes an answer away or moves a byte. *)
Definition io_fuel (d : disk) : nat := length (d_answers d) + 513.

Definition diskwrite (data : list Z) (block : Z) : stm disk unit :=
  fd ← gets d_fd;
  lift (kassert fd);;
  pos ← lift (seekdisk block);
  fuel ← gets io_fuel;
  r ← for_stm fuel 0
    (λ _ tot,
       if negb (tot <? BLOCKSIZE) then mret (inr tt) else
       len ← transfer (pos + tot) (BLOCKSIZE - tot);
       match len with
       | None => mret (inl tot)
       | Some len =>
           modify (λ d, set_bytes (buf_write (d_bytes d) (pos + tot) (slice data tot len)) (d_answers d) d);;
           mret (inl (tot + len))
       end) 0;
  match r with inl _ => lift NoFuel | inr _ => mret tt end.

Definition diskread (data : list Z) (block : Z) : stm disk (list Z) :=
  fd ← gets d_fd;
  lift (kassert fd);;
  pos ← lift (seekdisk block);
  fuel ← gets io_fuel;
  r ← for_stm fuel 0
    (λ _ '(tot, data),
       if negb (tot <? BLOCKSIZE) then mret (inr data) else
       len ← transfer (pos + tot) (BLOCKSIZE - tot);
       match len with
       | None => mret (inl (tot, data))
       | Some len => bytes ← gets d_bytes; mret (inl (tot + len, buf_write data tot (slice bytes (pos + tot) len)))
       end) (0, data);
  match r with inl _ => lift NoFuel | inr data => mret data end.

Definition closedisk (can_close : bool) : stm disk unit :=
  fd ← gets d_fd;
  lift (kassert fd);;
  lift (kassert can_close);;
  modify (λ d, mkDisk false (d_nblocks d) (d_bytes d) (d_answers d)).

(** ** mksfs.c *)

Definition MAXBITBLOCKS : Z := 32.

(** A field of [n] bytes that was zeroed before [strcpy]. *)
Definition zero_padded (n : nat) (s : list Z) : list Z := s ++ replicate (n - length s) 0.

Definition mk_super (volname : list Z) (nblocks : Z) : sfs_super :=
  mkSuper SFS_MAGIC nblocks (zero_padded 32 volname) (replicate 118 0).
Definition mk_rootdir : sfs_inode := mkInode 0 SFS_TYPE_DIR 1 (replicate 15 0) 0 (replicate 110 0).

Definition writesuper (volname : list Z) (nblocks : Z) : stm disk unit :=
  if Z.of_nat (length volname) >=? SFS_VOLNAME_SIZE then lift Panic else
  diskwrite (encode_super (mk_super volname nblocks)) SFS_SB_LOCATION.

Definition writerootdir : stm disk unit := diskwrite (encode_inode mk_rootdir) SFS_ROOT_LOCATION.

(** [bitbuf] before the program has touched it. *)
Definition bitbuf0 : list Z := replicate (Z.to_nat (MAXBITBLOCKS * SFS_BLOCKSIZE)) 0.

Definition doallocbit (bitbuf : list Z) (bit : Z) : outcome (list Z) :=
  let byte := bit / 8 in
  let mask := Z.shiftl 1 (bit mod 8) in
  b ← arr_get bitbuf byte;
  kassert (Z.land b mask =? 0);;
  word_or bitbuf byte mask.

(** [for (i=first; i<first+n; i++) doallocbit(i)]. *)
Fixpoint doallocbits (bitbuf : list Z) (first : Z) (n : nat) : outcome (list Z) :=
  match n with
  | O => Done bitbuf
  | S n' => bitbuf ← doallocbit bitbuf first; doallocbits bitbuf (first + 1) n'
  end.

Definition writebitmap (fsblocks : Z) : stm disk unit :=
  let nbits := SFS_BITMAPSIZE fsblocks in
  let nblocks := SFS_BITBLOCKS fsblocks in
  if nblocks >? MAXBITBLOCKS then lift Panic else
  bitbuf ← lift (doallocbit bitbuf0 SFS_SB_LOCATION);
  bitbuf ← lift (doallocbit bitbuf SFS_ROOT_LOCATION);
  bitbuf ← lift (doallocbits bitbuf SFS_MAP_LOCATION (Z.to_nat nblocks));
  bitbuf ← lift (doallocbits bitbuf fsblocks (Z.to_nat (nbits - fsblocks)));
  r ← for_stm (Z.to_nat nblocks) 0
    (λ i _, diskwrite (slice bitbuf (i * SFS_BLOCKSIZE) SFS_BLOCKSIZE) (SFS_MAP_LOCATION + i);; mret (inl tt : () + ())) tt;
  mret tt.

(** The volume name: one trailing colon goes, slashes and other colons are refused. *)
Fixpoint strchr_at (s : list Z) (c : Z) : option nat :=
  match s with
  | [] => None
  | x :: s' => if x =? c then Some 0%nat else S <$> strchr_at s' c
  end.

Definition volname_arg (arg : list Z) : outcome (list Z) :=
  volname ← match strchr_at arg 58 with
            | Some k => if negb (Z.of_nat (length (drop k arg)) =? 1) then Panic else Done (take k arg)
            | None => Done arg
            end;
  match strchr_at volname 47 with Some _ => Panic | None => Done volname end.

(** [argv] is the device and the volume name, without the name of the program. *)
Definition mksfs (argv : list (list Z)) (can_open can_stat can_close : bool) : stm disk Z :=
  match argv with
  | [_; arg] =>
      volname ← lift (volname_arg arg);
      opendisk can_open can_stat;;
      blocksize ← diskblocksize;
      if negb (blocksize =? SFS_BLOCKSIZE) then lift Panic else
      size ← diskblocks;
      writesuper volname size;;
      writerootdir;;
      writebitmap size;;
      closedisk can_close;;
      mret 0
  | _ => lift Panic
  end.
