(* ===== verification/MksfsThm.v ===== *)
(** * What mksfs makes is an empty SFS volume the kernel can mount *)

From S2P Require Import Prelude Array Bitmap Copyinout Uio SfsDisk Dev Vnode SfsIo SfsFile Lhd SfsRw.
From S2P Require Import SfsDir SfsNames SfsVnode SfsFs SfsTrunc SfsVol SfsOps Device Mksfs.

(** ** Writing a block *)

(** The system calls to come do not fail. *)
Definition answers_ok (ans : list io_answer) : Prop := Forall (λ a, match a with IoSome k => 0 < k | IoAgain => True | IoFail => False end) ans.

Lemma transfer_wp pos n d (Q : option Z → disk → Prop) :
  answers_ok (d_answers d) → 0 ≤ pos → 0 < n → pos + n ≤ Z.of_nat (length (d_bytes d)) →
  (∀ ans, answers_ok ans → (length ans < length (d_answers d))%nat → Q None (set_bytes (d_bytes d) ans d)) →
  (∀ ans len, answers_ok ans → (length ans ≤ length (d_answers d))%nat → 0 < len ≤ n → Q (Some len) (set_bytes (d_bytes d) ans d)) →
  swp (transfer pos n) d Q.
Proof.
  intros Ha Hp Hn Hl HN HS. unfold swp, transfer. destruct (d_answers d) as [|a ans] eqn:E.
  - destruct (Z.eqb_spec (Z.min n (Z.max 0 (Z.of_nat (length (d_bytes d)) - pos))) 0); [lia|].
    replace d with (set_bytes (d_bytes d) [] d) at 2 by (destruct d; cbn in *; by subst). apply HS; [done|cbn; lia|lia].
  - inversion Ha as [|? ? Hk Hans]; subst. destruct a as [k| |]; [|apply HN; [done|cbn; lia]|done].
    destruct (Z.leb_spec (Z.min (Z.min k n) (Z.max 0 (Z.of_nat (length (d_bytes d)) - pos))) 0); [lia|]. apply HS; [done|cbn; lia|lia].
Qed.

(** A block within the disk. *)
Lemma diskwrite_wp data block d :
  d_fd d = true → answers_ok (d_answers d) → length data = 512%nat → 0 ≤ block → block * 512 + 512 ≤ Z.of_nat (length (d_bytes d)) → block < 4194303 →
  swp (diskwrite data block) d (λ _ d', d_fd d' = true ∧ answers_ok (d_answers d') ∧ d_nblocks d' = d_nblocks d ∧
    d_bytes d' = buf_write (d_bytes d) (block * 512) data).
Proof.
  intros Hfd Ha Hdata Hb Hl Hmax. unfold diskwrite. apply swp_bind, swp_gets. rewrite Hfd. apply swp_bind, swp_lift, wp_done.
  apply swp_bind, swp_lift. unfold seekdisk, BLOCKSIZE. rewrite u32_small, s32_small by (unfold INT_MIN, INT_MAX; lia).
  destruct (Z.ltb_spec (block * 512) 0); [lia|]. cbn [wp]. set (pos := block * 512) in *. apply swp_bind, swp_gets, swp_bind.
  set (P (j : Z) tot d' := d_fd d' = true ∧ answers_ok (d_answers d') ∧ d_nblocks d' = d_nblocks d ∧ 0 ≤ tot ≤ 512 ∧
    d_bytes d' = buf_write (d_bytes d) pos (slice data 0 tot) ∧ j ≤ tot + (Z.of_nat (length (d_answers d)) - Z.of_nat (length (d_answers d')))
    ∧ (length (d_answers d') ≤ length (d_answers d))%nat).
  set (Q (_ : unit) d' := d_fd d' = true ∧ answers_ok (d_answers d') ∧ d_nblocks d' = d_nblocks d ∧ d_bytes d' = buf_write (d_bytes d) pos data).
  eapply swp_mono; [apply (swp_for_stm P Q)|].
  - unfold P. change (slice data 0 0) with (@nil Z). rewrite buf_write_nil. split_and!; done || lia.
  - intros j tot d1 Hj (Hfd1 & Ha1 & Hn1 & Ht & Hb1 & Hjt & Hle). destruct (Z.ltb_spec tot 512) as [Hlt|Hge]; cbn [negb].
    2: { apply swp_ret. unfold Q. split_and!; try done. rewrite Hb1. f_equal. assert (tot = 512) as -> by lia. unfold slice. rewrite drop_0. by apply take_ge; lia. }
    assert (Z.of_nat (length (slice data 0 tot)) = tot) as Hsl by (apply length_slice; lia).
    assert (length (d_bytes d1) = length (d_bytes d)) as Hl1 by (rewrite Hb1; apply length_buf_write; lia).
    apply swp_bind, transfer_wp; [done|lia|lia|lia|..].
    + intros ans Hans Hla. apply swp_ret. unfold P. cbn. split_and!; done || lia.
    + intros ans len Hans Hla Hlen. apply swp_bind, swp_modify, swp_ret. unfold P. cbn. split_and!; try done; try lia.
      rewrite Hb1. rewrite slice_app by lia. rewrite <-buf_write_app; [|lia|].
      * rewrite Hsl. f_equal.
      * rewrite Nat2Z.inj_add, Hsl, length_slice; lia.
  - intros [tot|[]] d1; [|intros HQ; by apply swp_ret]. intros (_ & _ & _ & Ht & _ & Hj & _). unfold io_fuel in Hj. lia.
Qed.

(** ** The free map *)

Definition as_bitmap (bb : list Z) : bitmap := mkBitmap 131072 bb.

Lemma doallocbit_mark bb bit : 0 ≤ bit < 131072 → bitmap_mark (as_bitmap bb) bit = (bb' ← doallocbit bb bit; Done (as_bitmap bb')).
Proof.
  intros Hb. unfold bitmap_mark, doallocbit, bitmap_translate, BITS_PER_WORD. cbn [bm_nbits as_bitmap bm_v].
  destruct (Z.ltb_spec bit 131072); [|lia]. cbn [kassert mbind outcome_bind].
  destruct (arr_get bb (bit / 8)) as [w| | |]; cbn [mbind outcome_bind]; [|done..]. destruct (kassert _); cbn [mbind outcome_bind]; [|done..].
  by destruct (word_or _ _ _).
Qed.

(** The bits [S] of the buffer are set. *)
Definition bits_are (bb : list Z) (S : Z → bool) : Prop :=
  bitmap_wf (as_bitmap bb) ∧ ∀ j, 0 ≤ j < 131072 → bm_used (as_bitmap bb) j = S j.

Lemma doallocbit_wp bb S bit :
  bits_are bb S → 0 ≤ bit < 131072 → S bit = false → wp (doallocbit bb bit) (λ bb', bits_are bb' (λ j, (j =? bit) || S j)).
Proof.
  intros [Hwf HS] Hb Hfree. pose proof (bitmap_mark_wp (as_bitmap bb) bit Hwf Hb) as Hw. rewrite HS in Hw by done. specialize (Hw Hfree).
  rewrite doallocbit_mark in Hw by done. destruct (doallocbit bb bit) as [bb'| | |]; [|done..]. destruct Hw as [Hwf' [_ Hset]].
  split; [done|]. intros j Hj. rewrite Hset by lia. by rewrite HS.
Qed.

Lemma doallocbits_wp bb S first n :
  bits_are bb S → 0 ≤ first → first + Z.of_nat n ≤ 131072 → (∀ j, first ≤ j < first + Z.of_nat n → S j = false) →
  wp (doallocbits bb first n) (λ bb', bits_are bb' (λ j, (first <=? j) && (j <? first + Z.of_nat n) || S j)).
Proof.
  revert bb S first. induction n as [|n IH]; intros bb S first HS H0 Hn Hfree; cbn [doallocbits].
  - destruct HS as [Hwf HS]. split; [done|]. intros j Hj. rewrite HS by done. destruct (Z.leb_spec first j), (Z.ltb_spec j (first + Z.of_nat 0)); cbn; done || lia.
  - apply wp_bind. eapply wp_mono; [apply doallocbit_wp; [done|lia|apply Hfree; lia]|]. intros bb1 H1.
    eapply wp_mono; [apply (IH _ _ _ H1); [lia|lia|]|].
    + intros j Hj. rewrite Hfree by lia. by destruct (Z.eqb_spec j first); [lia|].
    + intros bb2 [Hwf2 H2]. split; [done|]. intros j Hj. rewrite H2 by done. rewrite orb_assoc. f_equal.
      destruct (Z.leb_spec first j), (Z.leb_spec (first + 1) j), (Z.ltb_spec j (first + 1 + Z.of_nat n)), (Z.ltb_spec j (first + Z.of_nat (Datatypes.S n))), (Z.eqb_spec j first); cbn; done || lia.
Qed.

Lemma bitbuf0_are : bits_are bitbuf0 (λ _, false).
Proof.
  unfold bitbuf0. set (n := Z.to_nat (MAXBITBLOCKS * SFS_BLOCKSIZE)). assert (Z.of_nat n = 16384) as Hn by done. clearbody n. split.
  - unfold bitmap_wf. cbn [bm_nbits as_bitmap bm_v]. rewrite length_replicate. split_and!; [lia|lia|dlia|apply Forall_replicate; lia|]. intros i Hi. lia.
  - intros j Hj. unfold bm_used, bit_of. cbn [bm_v as_bitmap]. rewrite lookup_replicate_2 by dlia. apply Z.testbit_0_l.
Qed.

(** ** The image *)

Definition sec (bytes : list Z) (b : Z) : list Z := slice bytes (b * 512) 512.

Lemma sec_write bytes block data b :
  0 ≤ block → block * 512 + 512 ≤ Z.of_nat (length bytes) → length data = 512%nat → 0 ≤ b →
  sec (buf_write bytes (block * 512) data) b = if decide (b = block) then data else sec bytes b.
Proof.
  intros Hb Hl Hd Hb0. unfold sec. case_decide as E; [subst b; by apply slice_buf_write_eq; lia|].
  apply list_eq. intros k. destruct (decide (k < 512)%nat).
  - rewrite !slice_lookup by lia. replace (Z.to_nat (b * 512) + k)%nat with (Z.to_nat (b * 512 + Z.of_nat k)) by lia.
    rewrite buf_write_lookup by lia. rewrite decide_False by lia. done.
  - rewrite !lookup_ge_None_2; [done|..]; unfold slice; rewrite length_take; lia.
Qed.

(** Between the writes: the disk is open, nothing will fail, the size stays. *)
Definition writing (n : Z) (d : disk) : Prop :=
  d_fd d = true ∧ answers_ok (d_answers d) ∧ d_nblocks d = n ∧ Z.of_nat (length (d_bytes d)) = n * 512 ∧ 0 ≤ n ≤ 131072.

Lemma write_block_wp n data block d :
  writing n d → length data = 512%nat → 0 ≤ block < n →
  swp (diskwrite data block) d (λ _ d', writing n d' ∧
    ∀ b, 0 ≤ b → sec (d_bytes d') b = if decide (b = block) then data else sec (d_bytes d) b).
Proof.
  intros (Hfd & Ha & Hn & Hl & Hm) Hd Hb. eapply swp_mono; [apply diskwrite_wp; try done; lia|].
  intros _ d' (Hfd' & Ha' & Hn' & Hb'). split.
  - split_and!; try done; [congruence|rewrite Hb', length_buf_write; lia|lia|lia].
  - intros b H0. rewrite Hb'. apply sec_write; lia || done.
Qed.

(** The bits of the free map of a new volume. *)
Definition new_bits (n j : Z) : bool := (j <? 2 + SFS_BITBLOCKS n) || (n <=? j).

Lemma writebitmap_wp n d :
  writing n d → 2 + SFS_BITBLOCKS n ≤ n →
  swp (writebitmap n) d (λ _ d', writing n d' ∧ ∃ bb, bitmap_wf (as_bitmap bb) ∧
    (∀ j, 0 ≤ j < SFS_BITMAPSIZE n → bm_used (as_bitmap bb) j = new_bits n j) ∧
    ∀ b, 0 ≤ b → sec (d_bytes d') b =
      if decide (2 ≤ b < 2 + SFS_BITBLOCKS n) then sec bb (b - 2) else sec (d_bytes d) b).
Proof.
  intros Hw Hfit. pose proof Hw as (_ & _ & _ & _ & Hn). destruct (bitblocks_eq n) as [EB ES]; [lia|]. unfold writebitmap.
  set (B := SFS_BITBLOCKS n) in *. assert (0 ≤ B ≤ 32 ∧ n ≤ B * 4096) as [HB HnB] by dlia. rewrite ES, <-EB.
  destruct (Z.gtb_spec B MAXBITBLOCKS) as [|_]; [unfold MAXBITBLOCKS in *; lia|].
  apply swp_bind, swp_lift. eapply wp_mono; [apply (doallocbit_wp _ _ _ bitbuf0_are); [unfold SFS_SB_LOCATION; lia|done]|]. intros b1 H1.
  apply swp_bind, swp_lift. eapply wp_mono; [apply (doallocbit_wp _ _ _ H1); [unfold SFS_ROOT_LOCATION; lia|done]|]. intros b2 H2.
  apply swp_bind, swp_lift. eapply wp_mono; [apply (doallocbits_wp _ _ _ _ H2); unfold SFS_MAP_LOCATION; [lia|lia|]|].
  { intros j Hj. unfold SFS_ROOT_LOCATION, SFS_SB_LOCATION. destruct (Z.eqb_spec j 1), (Z.eqb_spec j 0); lia || done. }
  intros b3 H3. apply swp_bind, swp_lift. eapply wp_mono; [apply (doallocbits_wp _ _ _ _ H3); unfold SFS_MAP_LOCATION; [lia|lia|]|].
  { intros j Hj. unfold SFS_ROOT_LOCATION, SFS_SB_LOCATION. destruct (Z.eqb_spec j 1), (Z.eqb_spec j 0), (Z.leb_spec 2 j), (Z.ltb_spec j (2 + Z.of_nat (Z.to_nat B))); lia || done. }
  intros bb [Hwf Hbits]. assert (Z.of_nat (length bb) = 16384) as Hbl by (destruct Hwf as (_ & E & _); cbn in E; rewrite E; done).
  apply swp_bind. eapply swp_mono; [apply (swp_for_stm (λ j _ d', writing n d' ∧ ∀ b, 0 ≤ b → sec (d_bytes d') b =
      if decide (2 ≤ b < 2 + j) then sec bb (b - 2) else sec (d_bytes d) b) (λ _ _, False))|].
  - split; [done|]. intros b _. by rewrite decide_False by lia.
  - intros j [] d1 Hj [Hw1 Hs1]. apply swp_bind. unfold SFS_BLOCKSIZE, SFS_MAP_LOCATION.
    eapply swp_mono; [apply (write_block_wp n); [done| |lia]|].
    { pose proof (length_slice bb (j * 512) 512). lia. }
    intros _ d2 [Hw2 Hs2]. apply swp_ret. split; [done|]. intros b H0. rewrite Hs2 by done. case_decide as E.
    + subst b. rewrite decide_True by lia. unfold sec. by replace (2 + j - 2) with j by lia.
    + rewrite Hs1 by done. destruct (decide (2 ≤ b < 2 + j)); [by rewrite decide_True by lia|by rewrite decide_False by lia].
  - intros [[]|[]] d1; [|done]. rewrite Z.add_0_l, Z2Nat.id by lia. intros [Hw1 Hs1]. apply swp_ret. split; [done|]. exists bb. split_and!; [done| |done].
    intros j Hj. rewrite Hbits by lia. unfold new_bits, SFS_MAP_LOCATION, SFS_ROOT_LOCATION, SFS_SB_LOCATION. fold B.
    destruct (Z.leb_spec n j), (Z.ltb_spec j (n + Z.of_nat (Z.to_nat (B * 4096 - n)))), (Z.leb_spec 2 j), (Z.ltb_spec j (2 + Z.of_nat (Z.to_nat B))),
      (Z.eqb_spec j 1), (Z.eqb_spec j 0), (Z.ltb_spec j (2 + B)); cbn; done || lia.
Qed.

Definition plain (c : Z) : Prop := 0 < c < 256.

Lemma mk_super_wf volname n : (length volname < 32)%nat → Forall plain volname → 0 ≤ n ≤ 131072 → super_wf (mk_super volname n).
Proof.
  intros Hl Hv Hn. unfold super_wf, mk_super, zero_padded. cbn [sp_magic sp_nblocks sp_volname sp_reserved]. split_and!; try done; try (cbn beta; lia).
  - rewrite length_app, length_replicate. lia.
  - apply Forall_app_2; [|apply Forall_replicate; cbn beta; lia]. eapply Forall_impl; [exact Hv|]. unfold plain. lia.
  - apply Forall_replicate. lia.
Qed.

Lemma mk_rootdir_wf : inode_wf mk_rootdir.
Proof. unfold inode_wf, mk_rootdir, SFS_TYPE_DIR. cbn [sfi_size sfi_type sfi_linkcount sfi_direct sfi_indirect sfi_waste]. split_and!; try done; try (apply Forall_replicate); lia. Qed.

(** What is on the disk when mksfs is done. *)
Definition formatted (volname : list Z) (n : Z) (bytes : list Z) : Prop :=
  Z.of_nat (length bytes) = n * 512 ∧ sec bytes 0 = encode_super (mk_super volname n) ∧ sec bytes 1 = encode_inode mk_rootdir ∧
  ∃ bb, bitmap_wf (as_bitmap bb) ∧ (∀ j, 0 ≤ j < SFS_BITMAPSIZE n → bm_used (as_bitmap bb) j = new_bits n j) ∧
    ∀ j, 0 ≤ j < SFS_BITBLOCKS n → sec bytes (2 + j) = sec bb j.

Lemma mksfs_wp dev arg volname n d :
  d_fd d = false → answers_ok (d_answers d) → Z.of_nat (length (d_bytes d)) = n * 512 → 2 + SFS_BITBLOCKS n ≤ n ≤ 131072 →
  volname_arg arg = Done volname → (length volname < 32)%nat → Forall plain volname →
  swp (mksfs [dev; arg] true true true) d (λ r d', r = 0 ∧ formatted volname n (d_bytes d')).
Proof.
  intros Hfd Ha Hl Hn Harg Hvl Hv. unfold mksfs. rewrite Harg. apply swp_bind, swp_lift, wp_done. apply swp_bind. unfold opendisk.
  apply swp_bind, swp_gets. rewrite Hfd. apply swp_bind, swp_lift, wp_done, swp_bind, swp_lift, wp_done, swp_bind, swp_lift, wp_done, swp_modify.
  assert (0 ≤ SFS_BITBLOCKS n) as HB. { destruct (bitblocks_eq n); [|dlia]. destruct (decide (0 ≤ n)); [lia|]. lia. }
  assert (u32 (Z.of_nat (length (d_bytes d)) / BLOCKSIZE) = n) as ->. { unfold BLOCKSIZE. rewrite Hl, Z.div_mul by lia. apply u32_small. lia. }
  assert (writing n (mkDisk true n (d_bytes d) (d_answers d))) as Hw by (split_and!; done || lia). set (d0 := mkDisk _ _ _ _) in *.
  unfold diskblocksize, diskblocks. apply swp_bind, swp_bind, swp_gets, swp_bind, swp_lift, wp_done, swp_ret. cbn [Z.eqb negb BLOCKSIZE SFS_BLOCKSIZE Pos.eqb].
  apply swp_bind, swp_bind, swp_gets, swp_bind, swp_lift, wp_done, swp_gets. cbn [d_nblocks d0].
  apply swp_bind. unfold writesuper. destruct (Z.geb_spec (Z.of_nat (length volname)) SFS_VOLNAME_SIZE) as [|_]; [unfold SFS_VOLNAME_SIZE in *; lia|].
  eapply swp_mono; [apply (write_block_wp n); [done|apply encode_super_ok, mk_super_wf; done || lia|unfold SFS_SB_LOCATION; lia]|]. intros _ d1 [Hw1 Hs1].
  apply swp_bind. unfold writerootdir. eapply swp_mono; [apply (write_block_wp n); [done|apply encode_inode_ok, mk_rootdir_wf|unfold SFS_ROOT_LOCATION; lia]|].
  intros _ d2 [Hw2 Hs2]. apply swp_bind. eapply swp_mono; [apply writebitmap_wp; [done|lia]|]. intros _ d3 (Hw3 & bb & Hwf & Hbits & Hs3).
  apply swp_bind. unfold closedisk. apply swp_bind, swp_gets. pose proof Hw3 as (Hfd3 & _ & _ & Hl3 & _). rewrite Hfd3.
  apply swp_bind, swp_lift, wp_done, swp_bind, swp_lift, wp_done, swp_modify, swp_ret. split; [done|]. cbn [d_bytes]. split_and!; [done|..].
  - rewrite Hs3, decide_False, Hs2, decide_False, Hs1 by (unfold SFS_ROOT_LOCATION; lia). done.
  - rewrite Hs3, decide_False, Hs2 by lia. done.
  - exists bb. split_and!; [done|done|]. intros j Hj. rewrite Hs3, decide_True by lia. by replace (2 + j - 2) with j by lia.
Qed.

(** ** Mounting it *)

Section mount.
Context {D : Type} `{!BlockDev D} `{!Disk D} {cs : CurSpace}.

(** The device has these bytes. *)
Definition device_holds (dev : D) (n : Z) (bytes : list Z) : Prop :=
  d_ok dev ∧ d_blocks dev = n ∧ ∀ b, 0 ≤ b < n → sect (d_data dev) b = sec bytes b.

Definition new_inodes : gmap Z sfs_inode := {[SFS_ROOT_LOCATION := mk_rootdir]}.

Lemma formatted_super dev volname n bytes :
  device_holds dev n bytes → formatted volname n bytes → (length volname < 32)%nat → Forall plain volname → 0 < n ≤ 131072 →
  disk_super dev = mk_super volname n ∧ terminate (disk_super dev) = mk_super volname n.
Proof.
  intros (_ & _ & Hsec) (_ & Hs & _) Hl Hv Hn.
  assert (disk_super dev = mk_super volname n) as ->.
  { unfold disk_super, SFS_SB_LOCATION. rewrite Hsec, Hs by lia. apply decode_encode_super, mk_super_wf; done || lia. }
  split; [done|]. unfold terminate, mk_super. cbn [sp_magic sp_nblocks sp_volname sp_reserved]. f_equal. apply list_insert_id.
  unfold zero_padded. rewrite lookup_app_r by lia. apply lookup_replicate. split; [done|lia].
Qed.

(** The free map read from the device. *)
Lemma formatted_map dev volname n bytes (fs : sfs_fs D) b :
  device_holds dev n bytes → formatted volname n bytes → mount_post dev fs → sfs_super_of fs = mk_super volname n →
  2 + SFS_BITBLOCKS n ≤ n ≤ 131072 → 0 ≤ b < SFS_BITMAPSIZE n → used fs b = new_bits n b.
Proof.
  intros (_ & _ & Hsec) (Hlen & _ & _ & bb & Hwf & Hbits & Hmap) (_ & _ & (_ & Hd & _) & Hnb & Hbm & Hon & _) Hs Hn Hb.
  destruct (bitblocks_eq n) as [EB ES]; [lia|].
  rewrite <-Hbits by done. unfold used, bm_used, bit_of. do 2 f_equal. cbn [bm_v as_bitmap].
  unfold map_on_disk, SFS_FS_BITBLOCKS in Hon. rewrite Hs in Hon. cbn [sp_nblocks mk_super] in Hon.
  specialize (Hon (b / 4096) ltac:(dlia)). unfold dsk in Hon. rewrite Hd in Hon. unfold SFS_MAP_LOCATION in Hon. rewrite Hsec, Hmap in Hon by dlia.
  assert (Z.to_nat (b / 8) = (Z.to_nat (b / 4096 * 512) + Z.to_nat (b / 8 mod 512))%nat) as -> by dlia.
  rewrite <-!(slice_lookup _ _ 512) by dlia. by rewrite <-Hon.
Qed.

Lemma new_blocks (fs : sfs_fs D) n i k b :
  i = mk_rootdir → allblocks (at_inode fs n i) !! k = Some b → b ≠ 0 → k = 0%nat ∧ b = n.
Proof.
  intros ->. destruct k as [|[|k]]; [by intros [= <-]|by intros [= <-]|].
  change (allblocks (at_inode fs n mk_rootdir) !! S (S k)) with (replicate 143 0 !! k). by intros [-> _]%lookup_replicate.
Qed.

Lemma formatted_vol dev volname n bytes (fs : sfs_fs D) :
  device_holds dev n bytes → formatted volname n bytes → mount_post dev fs → 2 + SFS_BITBLOCKS n ≤ n ≤ 131072 →
  (length volname < 32)%nat → Forall plain volname →
  vol (mkW fs ∅ 0 []) new_inodes (λ _, 0) ∧ (∀ name k, ¬ dir_maps (rootdir fs new_inodes) name k).
Proof.
  intros Hdev Hf Hp Hn Hl Hv. assert (0 < n) as Hn0 by (destruct Hf as [Hlen _]; destruct (bitblocks_eq n); [lia|dlia]).
  destruct (formatted_super dev volname n bytes Hdev Hf Hl Hv) as [Hds Hterm]; [lia|].
  pose proof (mk_super_wf volname n Hl Hv ltac:(lia)) as Hswf. pose proof Hp as (Hs & Hvn & (Hd & Hdat & Hblk) & Hnb & Hbm & Hon & Hsd & Hfd).
  rewrite Hterm in Hs. pose proof (λ b, formatted_map dev volname n bytes fs b Hdev Hf Hp Hs Hn) as Hused.
  destruct (bitblocks_eq n) as [EB ES]; [lia|]. assert (n ≤ SFS_BITMAPSIZE n) as Hnb2 by (rewrite ES; dlia). pose proof Hdev as (Hdok & Hbn & Hsec).
  assert (nblk fs = n) as En by (unfold nblk; by rewrite Hs). assert (SFS_FS_BITBLOCKS fs = SFS_BITBLOCKS n) as EBB by (unfold SFS_FS_BITBLOCKS; by rewrite Hs).
  assert (bm_nbits (sfs_freemap fs) = SFS_BITMAPSIZE n) as Ebits by (rewrite Hnb; unfold SFS_FS_BITMAPSIZE; by rewrite Hs).
  assert (0 ≤ SFS_BITBLOCKS n) as HB0 by dlia.
  assert (fs_ok fs) as Hfs.
  { split_and!; try done; try lia.
    - rewrite Hused by lia. unfold new_bits. by destruct (Z.ltb_spec 0 (2 + SFS_BITBLOCKS n)); [|lia].
    - intros b Hb. rewrite Hused by lia. unfold new_bits. destruct (Z.leb_spec n b); [apply orb_true_r|lia]. }
  assert (mounted fs) as Hm.
  { split_and!; try done.
    - by rewrite Hs.
    - by rewrite Hs.
    - rewrite Hs. cbn [sp_volname mk_super]. unfold zero_padded. rewrite lookup_app_r by lia. apply lookup_replicate. split; [done|lia].
    - lia.
    - rewrite EBB. unfold SFS_MAP_LOCATION. lia.
    - intros _. unfold super_on_disk, dsk, SFS_SB_LOCATION. rewrite Hdat, Hsec, Hs by lia. apply Hf. }
  assert (file_ok (at_inode fs 1 mk_rootdir)) as Hfile.
  { split_and!; [done|apply mk_rootdir_wf|done|]. split.
    - intros k b Hk Hb. destruct (new_blocks fs 1 mk_rootdir k b eq_refl Hk Hb) as [_ ->]. cbn. rewrite En. split; [lia|]. rewrite Hused by lia.
      unfold new_bits. by destruct (Z.ltb_spec 1 (2 + SFS_BITBLOCKS n)); [|lia].
    - intros k k' b Hk Hk' Hb. destruct (new_blocks fs 1 mk_rootdir k b eq_refl Hk Hb) as [-> _], (new_blocks fs 1 mk_rootdir k' b eq_refl Hk' Hb) as [-> _]. done. }
  assert (∀ name k, ¬ dir_maps (rootdir fs new_inodes) name k) as Hno.
  { intros name k (j & (Hj & _) & _). change (nent (rootdir fs new_inodes)) with 0 in Hj. lia. }
  assert (∀ m i, new_inodes !! m = Some i → m = 1 ∧ i = mk_rootdir) as HI by (unfold new_inodes; by intros m i [<- <-]%lookup_singleton_Some).
  split; [|done]. constructor; cbn [w_fs w_heap w_next]; try done.
  - exists []. split_and!; [done|constructor|]. intros p. rewrite lookup_empty, elem_of_nil. split; [done|by intros [? ?]].
  - intros m i [-> ->]%HI. left. unfold dsk. rewrite Hdat, Hsec by lia. apply Hf.
  - by intros m i [-> ->]%HI.
  - intros m m' i j b Hne [-> ->]%HI [-> ->]%HI. done.
  - rewrite EBB, En. unfold SFS_MAP_LOCATION. lia.
  - intros b Hb. rewrite EBB in Hb. unfold SFS_MAP_LOCATION in Hb. split.
    + rewrite Hused by lia. unfold new_bits. by destruct (Z.ltb_spec b (2 + SFS_BITBLOCKS n)); [|lia].
    + intros m i [-> ->]%HI [k Hk]%list_elem_of_lookup. destruct (new_blocks fs 1 mk_rootdir k b eq_refl Hk) as [_ ->]; lia.
  - split_and!; [done| |done]. split_and!; try done. intros i j name (Hi & _). change (nent (rootdir fs new_inodes)) with 0 in Hi. lia.
  - by intros m i [-> ->]%HI.
  - intros name k Hk. by destruct (Hno name k).
  - by intros m i [-> ->]%HI.
  - by intros m i [-> ->]%HI.
Qed.
End mount.

(** [C11] mksfs and the kernel agree.  Run on a disk of n blocks, at least as many
    as the metadata needs and at most what its bitmap buffer covers, with a volume
    name that is not too long, and with system calls that may be cut short or
    interrupted but do not fail, mksfs succeeds.  Any block device with the
    resulting bytes can then be mounted by [sfs_domount]: the volume has the name
    that was given, is consistent, has no file but the root directory and no name
    in it, and exactly the superblock, the root inode and the free map are in use. *)
Theorem mksfs_makes_volume {D} `{!BlockDev D} `{!Disk D} {cs : CurSpace} path arg volname n d (dev : D) garbage :
  d_fd d = false → answers_ok (d_answers d) → Z.of_nat (length (d_bytes d)) = n * 512 → 2 + SFS_BITBLOCKS n ≤ n ≤ 131072 →
  volname_arg arg = Done volname → (length volname < 32)%nat → Forall plain volname →
  swp (mksfs [path; arg] true true true) d (λ r d', r = 0 ∧
    (device_holds dev n (d_bytes d') →
     wp (sfs_domount true true true true garbage dev) (λ '(r, ofs, _), r = 0 ∧ ∃ fs, ofs = Some fs ∧
       sp_volname (sfs_super_of fs) = zero_padded 32 volname ∧ nblk fs = n ∧
       vol (mkW fs ∅ 0 []) {[SFS_ROOT_LOCATION := mk_rootdir]} (λ _, 0) ∧
       (∀ name k, ¬ dir_maps (rootdir fs {[SFS_ROOT_LOCATION := mk_rootdir]}) name k) ∧
       ∀ b, 0 ≤ b < n → used fs b = (b <? 2 + SFS_BITBLOCKS n)))).
Proof.
  intros Hfd Ha Hl Hn Harg Hvl Hv. eapply swp_mono; [by apply (mksfs_wp path arg volname n)|]. intros r d' [-> Hf]. split; [done|]. intros Hdev.
  assert (0 < n) as Hn0 by (destruct (bitblocks_eq n); [lia|dlia]).
  destruct (formatted_super dev volname n _ Hdev Hf Hvl Hv) as [Hds Hterm]; [lia|]. pose proof Hdev as (Hdok & Hblk & _).
  eapply wp_mono; [apply sfs_domount_wp; [done|lia|]|].
  { intros _. unfold fits_device. rewrite Hds. cbn [sp_nblocks mk_super]. unfold SFS_MAP_LOCATION. lia. }
  intros [[r ofs] dd] [_ H1]. rewrite Hds, decide_True in H1 by done. cbn [negb andb] in H1. destruct H1 as (-> & fs & -> & _ & Hpost). split; [done|].
  exists fs. pose proof (proj1 Hpost) as Hs. rewrite Hterm in Hs. destruct (formatted_vol dev volname n _ fs Hdev Hf Hpost Hn Hvl Hv) as [Hvol Hno].
  split_and!; [done|by rewrite Hs|unfold nblk; by rewrite Hs|exact Hvol|exact Hno|].
  intros b Hb. destruct (bitblocks_eq n) as [EB ES]; [lia|]. rewrite (formatted_map dev volname n _ fs b Hdev Hf Hpost Hs Hn) by (rewrite ES; dlia).
  unfold new_bits. destruct (Z.leb_spec n b); [lia|]. apply orb_false_r.
Qed.

(** ** An example: eight blocks, with writes that are cut short or repeated *)

#[local] Existing Instance no_space.

Definition exm_disk : disk := mkDisk false 0 (replicate 4096 7) [IoSome 100; IoAgain; IoSome 600; IoAgain].
Definition exm_arg : list Z := [118; 111; 108; 58].
Definition disk_after (m : stm disk Z) (d : disk) : disk := match m d with Done (_, d') => d' | _ => d end.
Definition exm_done : disk := disk_after (mksfs [[]; exm_arg] true true true) exm_disk.
(** A disk with these bytes. *)
Definition dev_of (bytes : list Z) : lhd (list (list Z)) := mkLhd zero_block 0 1 0 8 0 0 (sec bytes <$> seqZ 0 8).

Definition sector_check (s : list Z) : bool := (length s =? 512)%nat && forallb (λ x, (0 <=? x) && (x <? 256)) s.

Lemma sector_check_ok s : sector_check s = true → sector_ok s.
Proof.
  intros [Hl%Nat.eqb_eq Hb]%andb_prop. split; [done|]. apply Forall_forall. intros x Hx. rewrite forallb_forall in Hb.
  specialize (Hb x (proj1 (list_elem_of_In _ _) Hx)). lia.
Qed.

Lemma dev_of_holds bytes : forallb sector_check (sec bytes <$> seqZ 0 8) = true → device_holds (dev_of bytes) 8 bytes.
Proof.
  intros H. split_and!; [|done|].
  - change (lhd_ok (dev_of bytes)). split_and!; try done. apply Forall_forall. intros s Hs. rewrite forallb_forall in H. by apply sector_check_ok, H, list_elem_of_In.
  - intros b Hb. change (d_data (dev_of bytes)) with (sec bytes <$> seqZ 0 8). unfold sect. rewrite list_lookup_fmap, lookup_seqZ_lt by lia. cbn. f_equal. lia.
Qed.

Lemma exm_holds : device_holds (dev_of (d_bytes exm_done)) 8 (d_bytes exm_done).
Proof. apply dev_of_holds. vm_compute. reflexivity. Qed.

Lemma exm_answers : answers_ok (d_answers exm_disk).
Proof. repeat constructor. Qed.

Lemma exm_size : Z.of_nat (length (d_bytes exm_disk)) = 8 * 512.
Proof. vm_compute. reflexivity. Qed.

Lemma exm_run : mksfs [[]; exm_arg] true true true exm_disk = Done (0, exm_done).
Proof. vm_compute. reflexivity. Qed.

Lemma exm_step (P : Z → disk → Prop) : swp (mksfs [[]; exm_arg] true true true) exm_disk P → P 0 exm_done.
Proof. unfold swp. rewrite exm_run. done. Qed.

Lemma exm_premises : 2 + SFS_BITBLOCKS 8 ≤ 8 ≤ 131072 ∧ volname_arg exm_arg = Done [118; 111; 108] ∧ (length [118; 111; 108] < 32)%nat ∧ Forall plain [118; 111; 108].
Proof. split_and!; [by vm_compute|lia|by vm_compute|cbn; lia|]. unfold plain. repeat constructor; lia. Qed.

Lemma mksfs_makes_volume_witness :
  wp (sfs_domount true true true true (mk_super [] 0) (dev_of (d_bytes exm_done))) (λ '(r, ofs, _), r = 0 ∧ ∃ fs, ofs = Some fs ∧
    sp_volname (sfs_super_of fs) = zero_padded 32 [118; 111; 108] ∧ nblk fs = 8 ∧
    vol (mkW fs ∅ 0 []) {[SFS_ROOT_LOCATION := mk_rootdir]} (λ _, 0) ∧
    (∀ name k, ¬ dir_maps (rootdir fs {[SFS_ROOT_LOCATION := mk_rootdir]}) name k) ∧
    ∀ b, 0 ≤ b < 8 → used fs b = (b <? 2 + SFS_BITBLOCKS 8)).
Proof.
  destruct exm_premises as (Hn & Ha & Hl & Hp).
  exact (proj2 (exm_step _ (mksfs_makes_volume [] exm_arg [118; 111; 108] 8 exm_disk (dev_of (d_bytes exm_done)) (mk_super [] 0)
    eq_refl exm_answers exm_size Hn Ha Hl Hp)) exm_holds).
Defined.
