(* ===== verification/Sort.v ===== *)
(** * testbin/sort: sorting a large array

    The program sorts by merging through a static buffer of the size of the
    whole array, although its comment speaks of quicksort.  [random] is a stream
    of integers; [errx] ends the process. *)

From S2P Require Import Prelude Copyinout Uio.

Definition SIZE : Z := 147456.

(** The array that is sorted and the static buffer [tmp]. *)
Record sortst := mkSort { s_arr : list Z; s_tmp : list Z }.

(** [tmp[k] = arr[src]]. *)
Definition copy_tmp (src k : Z) : stm sortst unit :=
  a ← gets s_arr;
  x ← lift (arr_get a src);
  t ← gets s_tmp;
  t' ← lift (arr_set t k x);
  modify (λ s, mkSort (s_arr s) t').

(** The three loops of [sort], on [arr + off]. *)
Definition merge_both (off pivot size : Z) : stm sortst (Z * Z * Z) :=
  r ← for_stm (S (Z.to_nat size)) 0
    (λ _ '(i, j, k),
       if negb ((i <? pivot) && (j <? size)) then mret (inr (i, j, k)) else
       a ← gets s_arr;
       x ← lift (arr_get a (off + i));
       y ← lift (arr_get a (off + j));
       if x <? y then copy_tmp (off + i) k;; mret (inl (i + 1, j, k + 1))
       else copy_tmp (off + j) k;; mret (inl (i, j + 1, k + 1))) (0, pivot, 0);
  match r with inl _ => lift NoFuel | inr x => mret x end.

Definition copy_rest (off stop : Z) (i k : Z) : stm sortst (Z * Z) :=
  r ← for_stm (S (Z.to_nat (stop - i))) 0
    (λ _ '(i, k), if negb (i <? stop) then mret (inr (i, k)) else copy_tmp (off + i) k;; mret (inl (i + 1, k + 1))) (i, k);
  match r with inl _ => lift NoFuel | inr x => mret x end.

(** [memcpy(arr, tmp, size*sizeof(int))]. *)
Definition copy_back (off size : Z) : stm sortst unit :=
  s ← gets id;
  if (Z.of_nat (length (s_tmp s)) <? size) || (Z.of_nat (length (s_arr s)) <? off + size) then lift Undef else
  modify (λ s, mkSort (buf_write (s_arr s) off (take (Z.to_nat size) (s_tmp s))) (s_tmp s)).

Fixpoint sort (fuel : nat) (off size : Z) : stm sortst unit :=
  match fuel with
  | O => lift NoFuel
  | S fuel' =>
      if size <? 2 then mret tt else
      let pivot := Z.quot size 2 in
      sort fuel' off pivot;;
      sort fuel' (off + pivot) (size - pivot);;
      '(i, j, k) ← merge_both off pivot size;
      '(_, k) ← copy_rest off pivot i k;
      '(_, _) ← copy_rest off size j k;
      copy_back off size
  end.

(** [check]: the first descent ends the process. *)
Definition check (a : list Z) : outcome unit :=
  r ← for_loop (Z.to_nat (SIZE - 1)) 0
    (λ i _, x ← arr_get a i; y ← arr_get a (i + 1); if x >? y then Panic else Done (inl tt : () + ())) tt;
  Done tt.

(** [initarray] fills [A] from the stream. *)
Definition initarray (random : nat → Z) : list Z := random <$> seq 0 (Z.to_nat SIZE).

Definition sort_main (random : nat → Z) : outcome Z :=
  '(_, s) ← sort (S (Z.to_nat SIZE)) 0 SIZE (mkSort (initarray random) (replicate (Z.to_nat SIZE) 0));
  check (s_arr s);;
  Done 0.

(** ** Merging *)

Fixpoint merge (l1 : list Z) : list Z → list Z :=
  fix aux l2 :=
    match l1, l2 with
    | [], _ => l2
    | _, [] => l1
    | x :: l1', y :: l2' => if x <? y then x :: merge l1' l2 else y :: aux l2'
    end.

Lemma merge_nil_r l : merge l [] = l.
Proof. by destruct l. Qed.

Lemma merge_nil_l l : merge [] l = l.
Proof. by destruct l. Qed.

Lemma merge_cons x l1 y l2 : merge (x :: l1) (y :: l2) = if x <? y then x :: merge l1 (y :: l2) else y :: merge (x :: l1) l2.
Proof. done. Qed.

Lemma merge_perm l1 l2 : merge l1 l2 ≡ₚ l1 ++ l2.
Proof.
  revert l2. induction l1 as [|x l1 IH1]; intros l2; [by destruct l2|]. induction l2 as [|y l2 IH2]; [by rewrite merge_nil_r, app_nil_r|].
  rewrite merge_cons. destruct (x <? y); [by rewrite IH1|]. rewrite IH2. apply (Permutation_middle (x :: l1)).
Qed.

Lemma merge_sorted l1 l2 : StronglySorted Z.le l1 → StronglySorted Z.le l2 → StronglySorted Z.le (merge l1 l2).
Proof.
  revert l2. induction l1 as [|x l1 IH1]; intros l2 H1 H2; [by destruct l2|]. induction l2 as [|y l2 IH2]; [by rewrite merge_nil_r|].
  apply StronglySorted_inv in H1 as [H1 Hx]. apply StronglySorted_inv in H2 as [H2 Hy]. rewrite merge_cons. destruct (Z.ltb_spec x y).
  - constructor; [apply IH1; [done|by constructor]|]. rewrite merge_perm. apply Forall_app. split; [done|]. constructor; [lia|].
    eapply Forall_impl; [exact Hy|]. cbv beta. lia.
  - constructor; [by apply IH2|]. rewrite merge_perm. apply Forall_app. split; [|done]. constructor; [lia|].
    eapply Forall_impl; [exact Hx|]. cbv beta. lia.
Qed.

(** ** The loops *)

Lemma slice_cons l i n x : l !! Z.to_nat i = Some x → 0 ≤ i → 0 < n → slice l i n = x :: slice l (i + 1) (n - 1).
Proof.
  intros Hx Hi Hn. unfold slice. rewrite (drop_S _ _ _ Hx). replace (Z.to_nat n) with (S (Z.to_nat (n - 1))) by lia. cbn [take]. do 3 f_equal. lia.
Qed.

Lemma slice_nil l i : slice l i 0 = [].
Proof. done. Qed.

Lemma take_insert_next (t : list Z) k x : (k < length t)%nat → take (S k) (<[k := x]> t) = take k t ++ [x].
Proof. intros Hk. rewrite (take_S_r _ _ x) by (by apply list_lookup_insert_eq). by rewrite take_insert_ge by lia. Qed.

Lemma copy_tmp_wp src k x s (Q : unit → sortst → Prop) :
  s_arr s !! Z.to_nat src = Some x → 0 ≤ src → 0 ≤ k < Z.of_nat (length (s_tmp s)) →
  Q tt (mkSort (s_arr s) (<[Z.to_nat k := x]> (s_tmp s))) → swp (copy_tmp src k) s Q.
Proof.
  intros Hx Hs Hk HQ. unfold copy_tmp. apply swp_bind, swp_gets, swp_bind, swp_lift. unfold arr_get. destruct (Z.ltb_spec src 0); [lia|]. rewrite Hx. cbn [wp].
  apply swp_bind, swp_gets, swp_bind, swp_lift. unfold arr_set. destruct (Z.leb_spec 0 k), (Z.ltb_spec k (Z.of_nat (length (s_tmp s)))); try lia. cbn [andb wp].
  by apply swp_modify.
Qed.

Lemma arr_get_wp {A} (l : list A) i (Q : A → Prop) : 0 ≤ i < Z.of_nat (length l) → (∀ x, l !! Z.to_nat i = Some x → Q x) → wp (arr_get l i) Q.
Proof.
  intros Hi HQ. unfold arr_get. destruct (Z.ltb_spec i 0); [lia|]. destruct (lookup_lt_is_Some_2 l (Z.to_nat i)) as [x Hx]; [lia|]. rewrite Hx. by apply HQ.
Qed.

(** Between two steps of the merge: the buffer has [k] elements of the result,
    which the rest of the two halves completes. *)
Definition merging (s0 : sortst) (off pivot size i j k : Z) (s : sortst) : Prop :=
  s_arr s = s_arr s0 ∧ length (s_tmp s) = length (s_tmp s0) ∧ 0 ≤ i ≤ pivot ∧ pivot ≤ j ≤ size ∧ k = i + (j - pivot) ∧
  take (Z.to_nat k) (s_tmp s) ++ merge (slice (s_arr s0) (off + i) (pivot - i)) (slice (s_arr s0) (off + j) (size - j)) =
    merge (slice (s_arr s0) off pivot) (slice (s_arr s0) (off + pivot) (size - pivot)).

Section loops.
Context (s0 : sortst) (off pivot size : Z).
Context (Hoff : 0 ≤ off) (Hpivot : 0 ≤ pivot ≤ size) (Hlen : off + size ≤ Z.of_nat (length (s_arr s0))) (Htmp : size ≤ Z.of_nat (length (s_tmp s0))).

(** One element moves. *)
Lemma merging_put i j k i' j' x s :
  merging s0 off pivot size i j k s → 0 ≤ k < size → 0 ≤ i' ≤ pivot → pivot ≤ j' ≤ size → k + 1 = i' + (j' - pivot) →
  merge (slice (s_arr s0) (off + i) (pivot - i)) (slice (s_arr s0) (off + j) (size - j)) =
    x :: merge (slice (s_arr s0) (off + i') (pivot - i')) (slice (s_arr s0) (off + j') (size - j')) →
  merging s0 off pivot size i' j' (k + 1) (mkSort (s_arr s) (<[Z.to_nat k := x]> (s_tmp s))).
Proof.
  intros (Ha & Ht & Hi & Hj & Hk & Hm) Hks Hi' Hj' Hk' Hx. split_and!; cbn; try done; try lia; [by rewrite length_insert|].
  rewrite <-Hm, Hx. replace (Z.to_nat (k + 1)) with (S (Z.to_nat k)) by lia. rewrite take_insert_next by lia. by rewrite <-app_assoc.
Qed.

Lemma merge_both_wp s :
  merging s0 off pivot size 0 pivot 0 s →
  swp (merge_both off pivot size) s (λ '(i, j, k) s', merging s0 off pivot size i j k s' ∧ (i = pivot ∨ j = size)).
Proof.
  intros Hs. unfold merge_both. apply swp_bind.
  eapply swp_mono; [apply (swp_for_stm (λ n '(i, j, k) s', merging s0 off pivot size i j k s' ∧ n = k) (λ '(i, j, k) s', merging s0 off pivot size i j k s' ∧ (i = pivot ∨ j = size)))|].
  - done.
  - intros n [[i j] k] s1 Hn [Hs1 ->]. pose proof Hs1 as (Ha & Ht & Hi & Hj & Hk & Hm).
    destruct (Z.ltb_spec i pivot), (Z.ltb_spec j size); cbn [andb negb]; try (apply swp_ret; split; [done|lia]).
    apply swp_bind, swp_gets, swp_bind, swp_lift. rewrite Ha. apply arr_get_wp; [lia|]. intros x Hx.
    apply swp_bind, swp_lift, arr_get_wp; [lia|]. intros y Hy.
    pose proof (slice_cons _ (off + i) (pivot - i) x Hx) as EL. pose proof (slice_cons _ (off + j) (size - j) y Hy) as ER.
    destruct (x <? y) eqn:Exy; apply swp_bind; (eapply copy_tmp_wp; [rewrite Ha; done|lia|lia|]); apply swp_ret; (split; [|lia]);
      (apply (merging_put i j); [done|lia|lia|lia|lia|]); rewrite EL, ER, merge_cons, Exy by lia; f_equal.
    + rewrite <-ER by lia. do 2 f_equal; lia.
    + rewrite <-EL by lia. do 2 f_equal; lia.
  - intros [[[i j] k]|[[i j] k]] s1; [|intros H; by apply swp_ret]. intros [(_ & _ & Hi & Hj & Hk & _) E]. lia.
Qed.

Lemma copy_left_wp i j k s :
  merging s0 off pivot size i j k s → i = pivot ∨ j = size →
  swp (copy_rest off pivot i k) s (λ '(i', k') s', merging s0 off pivot size pivot j k' s').
Proof.
  intros Hs Hend. unfold copy_rest. apply swp_bind.
  eapply swp_mono; [apply (swp_for_stm (λ n '(i', k') s', merging s0 off pivot size i' j k' s' ∧ n = i' - i ∧ (i' = pivot ∨ j = size))
    (λ '(i', k') s', merging s0 off pivot size pivot j k' s'))|].
  - split_and!; [done|lia|done].
  - intros n [i1 k1] s1 Hn (Hs1 & -> & Hend1). pose proof Hs1 as (Ha & Ht & Hi & Hj & Hk & Hm).
    destruct (Z.ltb_spec i1 pivot); cbn [negb]; [|apply swp_ret; by replace i1 with pivot in Hs1 by lia].
    destruct Hend1 as [|Hend1]; [lia|]. destruct (lookup_lt_is_Some_2 (s_arr s1) (Z.to_nat (off + i1))) as [x Hx]; [rewrite Ha; lia|].
    apply swp_bind. eapply copy_tmp_wp; [done|lia|lia|]. apply swp_ret. split_and!; [|lia|auto]. apply (merging_put i1 j); [done|lia|lia|lia|lia|].
    rewrite Ha in Hx. rewrite (slice_cons _ (off + i1) (pivot - i1) x Hx) by lia. replace (size - j) with 0 by lia. rewrite !slice_nil, !merge_nil_r.
    f_equal. f_equal; lia.
  - intros [[i1 k1]|[i1 k1]] s1; [|intros H; by apply swp_ret]. intros ((_ & _ & Hi & _) & E & _). lia.
Qed.

Lemma copy_right_wp j k s :
  merging s0 off pivot size pivot j k s →
  swp (copy_rest off size j k) s (λ _ s', ∃ k', merging s0 off pivot size pivot size k' s').
Proof.
  intros Hs. unfold copy_rest. apply swp_bind.
  eapply swp_mono; [apply (swp_for_stm (λ n '(j', k') s', merging s0 off pivot size pivot j' k' s' ∧ n = j' - j)
    (λ '(j', k') s', merging s0 off pivot size pivot size k' s'))|].
  - split; [done|lia].
  - intros n [j1 k1] s1 Hn (Hs1 & ->). pose proof Hs1 as (Ha & Ht & Hi & Hj & Hk & Hm).
    destruct (Z.ltb_spec j1 size); cbn [negb]; [|apply swp_ret; by replace j1 with size in Hs1 by lia].
    destruct (lookup_lt_is_Some_2 (s_arr s1) (Z.to_nat (off + j1))) as [x Hx]; [rewrite Ha; lia|].
    apply swp_bind. eapply copy_tmp_wp; [done|lia|lia|]. apply swp_ret. split_and!; [|lia]. apply (merging_put pivot j1); [done|lia|lia|lia|lia|].
    rewrite Ha in Hx. rewrite (slice_cons _ (off + j1) (size - j1) x Hx) by lia. rewrite !Z.sub_diag, !slice_nil, !merge_nil_l.
    replace (off + (j1 + 1)) with (off + j1 + 1) by lia. replace (size - (j1 + 1)) with (size - j1 - 1) by lia. done.
  - intros [[j1 k1]|[j1 k1]] s1; [|intros H; apply swp_ret; by exists k1]. intros ((_ & _ & _ & Hj & _) & E). lia.
Qed.
End loops.

(** ** The parts of an array that has been written to *)

Lemma slice_write b off l k n :
  0 ≤ off ≤ Z.of_nat (length b) → 0 ≤ k →
  slice (buf_write b off l) (off + k) n = take (Z.to_nat n) (drop (Z.to_nat k) (l ++ drop (Z.to_nat off + length l) b)).
Proof.
  intros Ho Hk. unfold slice, buf_write. f_equal. rewrite Z2Nat.inj_add, <-drop_drop by lia. f_equal.
  rewrite drop_app_length' by (rewrite length_take; lia). done.
Qed.

Lemma buf_write_again b off l l' :
  0 ≤ off ≤ Z.of_nat (length b) → length l' = length l → buf_write (buf_write b off l) off l' = buf_write b off l'.
Proof.
  intros Ho Hl. unfold buf_write. rewrite take_app_length' by (rewrite length_take; lia). do 2 f_equal. rewrite Hl.
  rewrite <-drop_drop, drop_app_length' by (rewrite length_take; lia). by rewrite drop_app_length.
Qed.

(** ** The whole sort *)

Definition sorted (l : list Z) : Prop := StronglySorted Z.le l.

Lemma sort_wp fuel off size s :
  0 ≤ off → 0 ≤ size < Z.of_nat fuel → off + size ≤ Z.of_nat (length (s_arr s)) → size ≤ Z.of_nat (length (s_tmp s)) →
  swp (sort fuel off size) s (λ _ s', length (s_tmp s') = length (s_tmp s) ∧
    ∃ l, s_arr s' = buf_write (s_arr s) off l ∧ Z.of_nat (length l) = size ∧ l ≡ₚ slice (s_arr s) off size ∧ sorted l).
Proof.
  revert off size s. induction fuel as [|fuel IH]; intros off size s Ho Hs Hl Ht; [lia|]. cbn [sort].
  assert (Z.of_nat (length (slice (s_arr s) off size)) = size) as Hsl by (apply length_slice; lia).
  destruct (Z.ltb_spec size 2).
  - apply swp_ret. split; [done|]. exists (slice (s_arr s) off size). split_and!; [|done|done|].
    + unfold buf_write, slice in *. rewrite length_take, length_drop, Nat.min_l by lia. rewrite <-drop_drop, take_drop. symmetry. apply take_drop.
    + destruct (slice (s_arr s) off size) as [|x [|]]; [constructor|repeat constructor|cbn in Hsl; lia].
  - rewrite Z.quot_div_nonneg by lia. set (pivot := size / 2). assert (0 < pivot < size) as Hp by (unfold pivot; dlia).
    apply swp_bind. eapply swp_mono; [apply IH; lia|]. intros [] s1 (Ht1 & l1 & E1 & Hl1 & Hp1 & Hs1).
    assert (length (s_arr s1) = length (s_arr s)) as Hla1 by (rewrite E1; apply length_buf_write; lia).
    apply swp_bind. eapply swp_mono; [apply IH; lia|]. intros [] s2 (Ht2 & l2 & E2 & Hl2 & Hp2 & Hs2).
    assert (slice (s_arr s1) (off + pivot) (size - pivot) = slice (s_arr s) (off + pivot) (size - pivot)) as Er.
    { rewrite E1, slice_write by lia. rewrite drop_app_length' by lia. unfold slice. do 2 f_equal. lia. }
    rewrite Er in Hp2. assert (s_arr s2 = buf_write (s_arr s) off (l1 ++ l2)) as E2'.
    { rewrite E2, E1, <-Hl1. apply buf_write_app; lia. }
    assert (slice (s_arr s2) off pivot = l1 ∧ slice (s_arr s2) (off + pivot) (size - pivot) = l2) as [EL ER].
    { rewrite E2'. split.
      - pose proof (slice_write (s_arr s) off (l1 ++ l2) 0 pivot) as Hw. rewrite Z.add_0_r in Hw. rewrite Hw by lia. rewrite drop_0, <-app_assoc. apply take_app_length'; lia.
      - rewrite slice_write by lia. rewrite <-app_assoc, drop_app_length' by lia. apply take_app_length'; lia. }
    assert (length (s_arr s2) = length (s_arr s)) as Hla2 by (rewrite E2'; apply length_buf_write; rewrite length_app; lia).
    assert (merging s2 off pivot size 0 pivot 0 s2) as Hm0.
    { split_and!; try done; try lia. cbn [Z.to_nat take app]. by rewrite Z.add_0_r, Z.sub_0_r. }
    apply swp_bind. eapply swp_mono; [apply (merge_both_wp s2); lia || done|]. intros [[i j] k] s3 [Hm3 Hend].
    apply swp_bind. eapply swp_mono; [eapply (copy_left_wp s2 off pivot size); try lia; [exact Hm3|done]|]. intros [i4 k4] s4 Hm4.
    apply swp_bind. eapply swp_mono; [eapply (copy_right_wp s2 off pivot size); try lia; exact Hm4|]. intros [j5 k5] s5 (k6 & Ha5 & Ht5 & _ & _ & Hk & Hm5).
    rewrite !Z.sub_diag, slice_nil, merge_nil_l, slice_nil, app_nil_r, EL, ER in Hm5. assert (k6 = size) as -> by lia.
    unfold copy_back. apply swp_bind, swp_gets. unfold id. rewrite Ha5, Hla2.
    destruct (Z.ltb_spec (Z.of_nat (length (s_tmp s5))) size); [lia|]. destruct (Z.ltb_spec (Z.of_nat (length (s_arr s))) (off + size)); [lia|]. cbn [orb].
    apply swp_modify. cbn [s_tmp s_arr]. split; [lia|]. exists (merge l1 l2). rewrite Ha5, Hm5, E2'.
    assert (length (merge l1 l2) = length (l1 ++ l2)) as Hlm by by rewrite merge_perm. split_and!.
    + apply buf_write_again; [lia|done].
    + rewrite Hlm, length_app. lia.
    + rewrite merge_perm, Hp1, Hp2. replace size with (pivot + (size - pivot)) at 2 by lia. by rewrite slice_app by lia.
    + by apply merge_sorted.
Qed.

Lemma check_wp a : Z.of_nat (length a) = SIZE → sorted a → wp (check a) (λ _, True).
Proof.
  intros Hl Hs. unfold check. apply wp_bind. eapply wp_mono; [apply (wp_for_loop (λ _ _, True) (λ _, False)); [done|]|].
  - intros i [] Hi _. apply wp_bind, arr_get_wp; [lia|]. intros x Hx. apply wp_bind, arr_get_wp; [lia|]. intros y Hy.
    assert (x ≤ y); [|by destruct (Z.gtb_spec x y); [lia|]].
    replace (Z.to_nat (i + 1)) with (S (Z.to_nat i)) in Hy by lia.
    rewrite <-(take_drop_middle _ _ _ Hx) in Hs. apply StronglySorted_app_1_r in Hs.
    rewrite (drop_S _ _ _ Hy) in Hs. apply StronglySorted_inv in Hs as [_ Hs]. by inversion Hs.
  - by intros [[]|[]].
Qed.

(** The program on an array of any size. *)
Lemma sort_init_wp (a : list Z) n :
  length a = n → wp (sort (S n) 0 (Z.of_nat n) (mkSort a (replicate n 0))) (λ '(_, s), length (s_arr s) = n ∧ sorted (s_arr s)).
Proof.
  intros Ha. eapply wp_mono; [apply sort_wp; cbn [s_arr s_tmp]; rewrite ?length_replicate; lia|].
  intros [[] s'] (_ & l & Ea & Hll & _ & Hsort). cbn [s_arr] in Ea.
  assert (s_arr s' = l) as ->; [|split; [lia|done]].
  rewrite Ea. unfold buf_write. cbn [Z.to_nat take app]. rewrite drop_ge by lia. apply app_nil_r.
Qed.

(** [C35] The test program sorts.  [sort] on any part of an array, of at most the
    size of the static buffer, returns without an access outside the array or the
    buffer; it leaves the rest of the array alone and puts a sorted permutation of
    the elements into the part.  The program passes its own check whatever
    [random] delivers. *)
Theorem sort_sorts off size s random :
  0 ≤ off → 0 ≤ size ≤ SIZE → off + size ≤ Z.of_nat (length (s_arr s)) → Z.of_nat (length (s_tmp s)) = SIZE →
  swp (sort (S (Z.to_nat size)) off size) s (λ _ s',
    ∃ l, s_arr s' = buf_write (s_arr s) off l ∧ Z.of_nat (length l) = size ∧ l ≡ₚ slice (s_arr s) off size ∧ StronglySorted Z.le l) ∧
  sort_main random = Done 0.
Proof.
  intros Ho Hs Hl Ht. split.
  - eapply swp_mono; [apply sort_wp; lia|]. by intros [] s' [_ H].
  - assert (wp (sort_main random) (λ r, r = 0)) as H; [|by destruct (sort_main random) as [?| | |]; [cbn in H; subst|..]].
    unfold sort_main, initarray. assert (Z.of_nat (Z.to_nat SIZE) = SIZE) as Hn by (apply Z2Nat.id; unfold SIZE; lia).
    rewrite <-Hn at 2. generalize dependent (Z.to_nat SIZE). intros n Hn. apply wp_bind.
    eapply wp_mono; [apply sort_init_wp; by rewrite length_fmap, length_seq|]. intros [[] s'] [Hls Hsort]. apply wp_bind.
    eapply wp_mono; [apply check_wp; [by rewrite Hls|done]|]. done.
Qed.

Lemma sort_sorts_witness :
  swp (sort 4 1 3) (mkSort [9; 3; 1; 2; 0] (replicate (Z.to_nat SIZE) 0)) (λ _ s',
    ∃ l, s_arr s' = buf_write [9; 3; 1; 2; 0] 1 l ∧ Z.of_nat (length l) = 3 ∧ l ≡ₚ [3; 1; 2] ∧ StronglySorted Z.le l) ∧
  sort_main (λ n, Z.of_nat n mod 7) = Done 0.
Proof.
  apply (sort_sorts 1 3); [lia|unfold SIZE; lia|cbn; lia|]. cbn [s_tmp]. rewrite length_replicate. apply Z2Nat.id. unfold SIZE. lia.
Defined.
