(* ===== verification/KernTest.v ===== *)
(** * kern/test: the array test and the bitmap test of the kernel menu

    The messages are not modelled.  [random] is a stream of 32-bit numbers. *)

From S2P Require Import Prelude Array Bitmap.

(** ** arraytest.c *)

Module ArrayTest.
Definition TESTSIZE : Z := 73.

(** A pointer the array holds: an element of [testarray] by its index, or NULL. *)
Definition ptr : Type := option Z.

(** Following a pointer, to [testarray] as the first loop fills it. *)
Definition deref (p : ptr) : outcome Z :=
  match p with Some i => if (0 <=? i) && (i <? TESTSIZE) then Done i else Undef | None => Undef end.

(** [array_getguy(a, i)] is asserted to point to [v]. *)
Definition expect (a : array ptr) (i v : Z) : outcome unit :=
  p ← array_getguy a i; x ← deref p; kassert (x =? v).

Definition expect_null (a : array ptr) (i : Z) : outcome unit :=
  p ← array_getguy a i; kassert (bool_decide (p = None)).

Definition expect_all (a : array ptr) (first n : Z) (f : Z → Z) : outcome unit :=
  for_each (Z.to_nat n) first (λ i _, expect a i (f i)) tt.

(** [testa] up to the random probes, the probes, and the rest. *)
Definition testa_fill (a : array ptr) : outcome (array ptr) :=
  kassert (array_getnum a =? 0);;
  a ← for_each (Z.to_nat TESTSIZE) 0
    (λ i a, '(r, a) ← array_add true a (Some i); kassert (r =? 0);; kassert (array_getnum a =? i + 1);; Done a) a;
  kassert (array_getnum a =? TESTSIZE);;
  expect_all a 0 TESTSIZE id;;
  kassert (array_getnum a =? TESTSIZE);;
  Done a.

Definition testa_probe (a : array ptr) (random : nat → Z) : outcome unit :=
  for_each (Z.to_nat (TESTSIZE * 4)) 0 (λ j _, let i := random (Z.to_nat j) mod TESTSIZE in expect a i i) tt;;
  kassert (array_getnum a =? TESTSIZE).

Definition testa_rest (a : array ptr) : outcome (array ptr) :=
  a ← for_each (Z.to_nat TESTSIZE) 0 (λ i a, array_setguy a i (Some (TESTSIZE - i - 1))) a;
  expect_all a 0 TESTSIZE (λ i, TESTSIZE - i - 1);;
  '(r, a) ← array_setsize true a (TESTSIZE / 2);
  kassert (r =? 0);;
  expect_all a 0 (TESTSIZE / 2) (λ i, TESTSIZE - i - 1);;
  a ← array_remove a 1;
  expect_all a 1 (TESTSIZE / 2 - 2) (λ i, TESTSIZE - i - 2);;
  expect a 0 (TESTSIZE - 1);;
  '(_, a) ← array_setsize true a 2;
  expect a 0 (TESTSIZE - 1);;
  expect a 1 (TESTSIZE - 3);;
  a ← array_setguy a 1 None;
  '(_, a) ← array_setsize true a 2;
  expect a 0 (TESTSIZE - 1);;
  expect_null a 1;;
  '(_, a) ← array_setsize true a (TESTSIZE * 10);
  expect a 0 (TESTSIZE - 1);;
  expect_null a 1;;
  Done a.

Definition testa (a : array ptr) (random : nat → Z) : outcome (array ptr) :=
  a ← testa_fill a; testa_probe a random;; testa_rest a.

(** The memory the test needs is there. *)
Definition arraytest (random : nat → Z) : outcome Z :=
  a ← match array_create true with Some a => Done a | None => Panic end;
  a ← testa a random;
  '(_, a) ← array_setsize true a 0;
  a ← testa a (λ n, random (n + Z.to_nat (TESTSIZE * 4))%nat);
  Done 0.

Definition filled : array ptr := match testa_fill (mkArray 0 0 None) with Done a => a | _ => mkArray 0 0 None end.

Lemma filled_probe random : testa_probe filled random = Done tt.
Proof.
  assert (∀ i, 0 ≤ i < TESTSIZE → expect filled i i = Done tt) as He.
  { intros i Hi. assert (forallb (λ i, if expect filled i i is Done _ then true else false) (seqZ 0 TESTSIZE) = true) as H by (vm_compute; reflexivity).
    rewrite forallb_forall in H. specialize (H i). destruct (expect filled i i) as [[]| | |]; [done|..];
      by discriminate (H (proj1 (list_elem_of_In _ _) (proj2 (elem_of_seqZ _ _ _) Hi))). }
  assert (wp (testa_probe filled random) (λ _, True)) as H; [|by destruct (testa_probe filled random) as [[]| | |]].
  unfold testa_probe. apply wp_bind. eapply wp_mono; [apply (wp_for_each (λ _ _, True)); [done|]|intros [] _; by vm_compute].
  intros j [] _ _. cbv zeta. rewrite He; [done|]. unfold TESTSIZE. dlia.
Qed.

Lemma testa_new random : testa (mkArray 0 0 None) random = testa_rest filled.
Proof.
  assert (testa_fill (mkArray 0 0 None) = Done filled) as E by (vm_compute; reflexivity).
  unfold testa. rewrite E. cbn [mbind outcome_bind]. by rewrite filled_probe.
Qed.

Definition rested : array ptr := match testa_rest filled with Done a => a | _ => filled end.

Lemma rested_eq : testa_rest filled = Done rested ∧ array_setsize true rested 0 = Done (0, mkArray 0 0 None).
Proof. split; vm_compute; reflexivity. Qed.

Lemma arraytest_passes random : arraytest random = Done 0.
Proof.
  destruct rested_eq as [E1 E2]. unfold arraytest. cbn [array_create mbind outcome_bind]. rewrite testa_new, E1. cbn [mbind outcome_bind].
  rewrite E2. cbn [mbind outcome_bind]. by rewrite testa_new, E1.
Qed.
End ArrayTest.

(** ** bitmaptest.c *)

Module BitmapTest.
Definition TESTSIZE : Z := 533.
Implicit Types (b : bitmap) (data : list Z).

(** [data[i] = random()%2]. *)
Definition fill_data (random : nat → Z) : list Z := (λ n, random n mod 2) <$> seq 0 (Z.to_nat TESTSIZE).

Definition each (f : Z → bitmap → outcome bitmap) b : outcome bitmap := for_each (Z.to_nat TESTSIZE) 0 f b.

(** A loop of assertions on all bits. *)
Definition assert_bits b (want : Z → outcome bool) : outcome unit :=
  for_each (Z.to_nat TESTSIZE) 0 (λ i _, w ← want i; r ← bitmap_isset b i; kassert (eqb (negb (r =? 0)) w)) tt.

Definition is_one data (i : Z) : outcome bool := x ← arr_get data i; Done (negb (x =? 0)).

Definition mark_ones data : bitmap → outcome bitmap :=
  each (λ i b, d ← is_one data i; if d : bool then bitmap_mark b i else Done b).

Definition flip data : bitmap → outcome bitmap :=
  each (λ i b, d ← is_one data i; if d : bool then bitmap_unmark b i else bitmap_mark b i).

(** The loop that allocates until nothing is left; at most [TESTSIZE] rounds succeed. *)
Definition alloc_all b data : outcome (bitmap * list Z) :=
  while_loop (S (Z.to_nat TESTSIZE))
    (λ '(b, data),
       '(r, b) ← bitmap_alloc b;
       match r with
       | Err _ => Done (inr (b, data))
       | Ok x =>
           kassert (x <? TESTSIZE);;
           s ← bitmap_isset b x;
           kassert (negb (s =? 0));;
           d ← arr_get data x;
           kassert (d =? 1);;
           data ← arr_set data x 0;
           Done (inl (b, data))
       end) (b, data).

Definition bitmaptest (mem1 mem2 : bool) (random : nat → Z) : outcome Z :=
  let data := fill_data random in
  ob ← bitmap_create mem1 mem2 TESTSIZE;
  b ← match ob with Some b => Done b | None => Panic end;
  assert_bits b (λ _, Done false);;
  b ← mark_ones data b;
  assert_bits b (is_one data);;
  b ← flip data b;
  assert_bits b (λ i, d ← is_one data i; Done (negb d));;
  '(b, data) ← alloc_all b data;
  assert_bits b (λ i, x ← arr_get data i; kassert (x =? 0);; Done true);;
  Done 0.

(** The map holds exactly the bits [S]. *)
Definition has_bits (S : Z → bool) b : Prop := bitmap_wf b ∧ bm_nbits b = TESTSIZE ∧ ∀ i, 0 ≤ i < TESTSIZE → bm_used b i = S i.

Lemma assert_bits_wp b S want :
  has_bits S b → (∀ i, 0 ≤ i < TESTSIZE → wp (want i) (λ w, w = S i)) → wp (assert_bits b want) (λ _, True).
Proof.
  intros (Hwf & Hn & HS) Hw. eapply wp_mono; [apply (wp_for_each (λ _ _, True)); [done|]|done]. intros i [] Hi _. unfold TESTSIZE in Hi.
  apply wp_bind. eapply wp_mono; [apply Hw; unfold TESTSIZE; lia|]. intros w ->. apply wp_bind.
  eapply wp_mono; [apply bitmap_isset_wp; [done|unfold TESTSIZE in Hn; lia]|]. intros r Hr. rewrite Hr, HS by (unfold TESTSIZE; lia). by rewrite eqb_reflx.
Qed.

(** A loop that changes bit [i] in round [i]. *)
Lemma each_wp (f : Z → bitmap → outcome bitmap) (S S' : Z → bool) b :
  has_bits S b →
  (∀ i b, 0 ≤ i < TESTSIZE → bitmap_wf b → bm_nbits b = TESTSIZE → bm_used b i = S i →
     wp (f i b) (λ b', bitmap_wf b' ∧ bm_nbits b' = TESTSIZE ∧ ∀ j, 0 ≤ j → bm_used b' j = if j =? i then S' i else bm_used b j)) →
  wp (each f b) (has_bits S').
Proof.
  intros (Hwf & Hn & HS) Hf. unfold each.
  eapply wp_mono; [apply (wp_for_each (λ i b, has_bits (λ j, if j <? i then S' j else S j) b))|].
  - split_and!; [done|done|]. intros i Hi. rewrite HS by done. by destruct (Z.ltb_spec i 0); [lia|].
  - intros i b1 Hi (Hwf1 & Hn1 & HS1). unfold TESTSIZE in Hi. assert (0 ≤ i < TESTSIZE) as Hi' by (unfold TESTSIZE; lia).
    eapply wp_mono; [apply (Hf i b1); [done|done|done|]|].
    + rewrite HS1 by done. by rewrite Z.ltb_irrefl.
    + intros b2 (Hwf2 & Hn2 & Hj). split_and!; [done|done|]. intros j Hj'. rewrite Hj by lia. destruct (Z.eqb_spec j i) as [->|Hne].
      * by destruct (Z.ltb_spec i (i + 1)); [|lia].
      * rewrite HS1 by done. destruct (Z.ltb_spec j i), (Z.ltb_spec j (i + 1)); done || lia.
  - intros b1 (Hwf1 & Hn1 & HS1). split_and!; [done|done|]. intros i Hi. rewrite HS1 by done. unfold TESTSIZE in *.
    by destruct (Z.ltb_spec i (0 + Z.of_nat (Z.to_nat 533))); [|lia].
Qed.

Definition ones data (i : Z) : bool := negb (default 0 (data !! Z.to_nat i) =? 0).

(** [data] holds [TESTSIZE] zeros and ones. *)
Definition data_ok data : Prop := Z.of_nat (length data) = TESTSIZE ∧ Forall (λ x, x = 0 ∨ x = 1) data.

Lemma data_get data i : data_ok data → 0 ≤ i < TESTSIZE → ∃ x, data !! Z.to_nat i = Some x ∧ arr_get data i = Done x ∧ (x = 0 ∨ x = 1).
Proof.
  intros [Hl Hd] Hi. destruct (lookup_lt_is_Some_2 data (Z.to_nat i)) as [x Hx]; [lia|]. exists x. split_and!; [done| |by eapply (Forall_lookup_1 _ _ _ _ Hd)].
  unfold arr_get. rewrite Hx. by destruct (Z.ltb_spec i 0); [lia|].
Qed.

Lemma is_one_wp data i : data_ok data → 0 ≤ i < TESTSIZE → is_one data i = Done (ones data i).
Proof. intros Hd Hi. destruct (data_get data i Hd Hi) as (x & Hx & Hg & _). unfold is_one, ones. rewrite Hg, Hx. done. Qed.

Lemma mark_ones_wp data b : data_ok data → has_bits (λ _, false) b → wp (mark_ones data b) (has_bits (ones data)).
Proof.
  intros Hd Hb. apply (each_wp _ (λ _, false)); [done|]. intros i b1 Hi Hwf Hn Hu. rewrite is_one_wp by done. cbn [mbind outcome_bind]. destruct (ones data i) eqn:Eo.
  - eapply wp_mono; [apply bitmap_mark_wp; [done|lia|done]|]. intros b2 (Hwf2 & Hn2 & Hs). split_and!; [done|lia|]. intros j Hj. rewrite Hs by done. by destruct (j =? i).
  - split_and!; [done|done|]. intros j _. by destruct (Z.eqb_spec j i) as [->|].
Qed.

Lemma flip_wp data b : data_ok data → has_bits (ones data) b → wp (flip data b) (has_bits (λ i, negb (ones data i))).
Proof.
  intros Hd Hb. apply (each_wp _ (ones data)); [done|]. intros i b1 Hi Hwf Hn Hu. rewrite is_one_wp by done. cbn [mbind outcome_bind]. destruct (ones data i) eqn:Eo.
  - eapply wp_mono; [apply bitmap_unmark_wp; [done|lia|done]|]. intros b2 (Hwf2 & Hn2 & Hs). split_and!; [done|lia|]. intros j Hj. rewrite Hs by done. by destruct (j =? i).
  - eapply wp_mono; [apply bitmap_mark_wp; [done|lia|done]|]. intros b2 (Hwf2 & Hn2 & Hs). split_and!; [done|lia|]. intros j Hj. rewrite Hs by done. by destruct (j =? i).
Qed.

(** How many ones are left. *)
Definition nones data : Z := Z.of_nat (length (filter (λ x, x = 1) data)).

Lemma nones_clear data i : data !! i = Some 1 → nones (<[i := 0]> data) = nones data - 1.
Proof.
  intros Hi. unfold nones. rewrite <-(take_drop_middle data i 1 Hi) at 2. rewrite (insert_take_drop data i 0) by (by eapply lookup_lt_Some).
  rewrite !filter_app, !filter_cons, !length_app. rewrite decide_False, decide_True by done. cbn [length]. lia.
Qed.

Lemma alloc_all_wp b data :
  data_ok data → has_bits (λ i, negb (ones data i)) b →
  wp (alloc_all b data) (λ '(b', data'), data_ok data' ∧ has_bits (λ _, true) b' ∧ ∀ i, 0 ≤ i < TESTSIZE → ones data' i = false).
Proof.
  intros Hd Hb. unfold alloc_all. apply (wp_while_loop (λ '(b, data), data_ok data ∧ has_bits (λ i, negb (ones data i)) b) _ (λ '(_, data), nones data)).
  - done.
  - pose proof (length_filter (λ x, x = 1) data). destruct Hd as [Hl _]. unfold nones, TESTSIZE in *. lia.
  - intros [b1 data1] _. unfold nones. lia.
  - intros [b1 data1] [Hd1 (Hwf1 & Hn1 & HS1)]. apply wp_bind. eapply wp_mono; [by apply bitmap_alloc_wp|]. intros [[x|e] b2].
    + intros (Hx & Hfree & _ & Hwf2 & Hn2 & Hset). rewrite Hn1 in Hx. apply wp_bind, wp_kassert; [apply Z.ltb_lt; lia|].
      apply wp_bind. eapply wp_mono; [apply bitmap_isset_wp; [done|lia]|]. intros s Hs. rewrite Hset, Z.eqb_refl in Hs by lia. cbn in Hs.
      apply wp_bind, wp_kassert; [by rewrite Hs|]. destruct (data_get data1 x Hd1 Hx) as (d & Hdx & Hg & Hd01). rewrite Hg. cbn [mbind outcome_bind].
      rewrite HS1 in Hfree by done. unfold ones in Hfree. rewrite Hdx in Hfree. cbn in Hfree. assert (d = 1) as -> by (destruct Hd01 as [->|]; done).
      apply wp_bind, wp_kassert; [done|]. destruct Hd1 as [Hl1 Hall1]. unfold arr_set. destruct (Z.leb_spec 0 x), (Z.ltb_spec x (Z.of_nat (length data1))); try lia.
      cbn [andb mbind outcome_bind wp loop_post]. split_and!; [split; [by rewrite length_insert|by apply Forall_insert; auto]| |rewrite nones_clear by done; lia].
      split_and!; [done|congruence|]. intros j Hj. rewrite Hset by lia. unfold ones. destruct (Z.eqb_spec j x) as [->|Hne].
      * by rewrite list_lookup_insert_eq by lia.
      * rewrite list_lookup_insert_ne by lia. cbn [orb]. by apply HS1.
    + intros (_ & -> & Hall). cbn [wp loop_post]. split; [done|]. split; [split; [done|split; [done|]]|].
      * intros i Hi. apply Hall. lia.
      * intros i Hi. specialize (Hall i ltac:(lia)). rewrite HS1 in Hall by done. by apply negb_true_iff in Hall.
Qed.

Lemma fill_data_ok random : data_ok (fill_data random).
Proof.
  split; [unfold fill_data; by rewrite length_fmap, length_seq|]. apply Forall_fmap, Forall_true. intros n. cbn. pose proof (Z.mod_pos_bound (random n) 2 ltac:(lia)). lia.
Qed.

Lemma bitmaptest_passes random : bitmaptest true true random = Done 0.
Proof.
  assert (wp (bitmaptest true true random) (λ r, r = 0)) as H; [|by destruct (bitmaptest true true random) as [?| | |]; [cbn in H; subst|..]].
  pose proof (fill_data_ok random) as Hd. unfold bitmaptest. generalize dependent (fill_data random). intros data Hd. apply wp_bind.
  eapply wp_mono; [apply bitmap_create_wp; unfold TESTSIZE; lia|]. cbn [andb]. intros ob (b & -> & Hn & Hwf & Hclear). cbn [mbind outcome_bind].
  apply wp_bind. eapply wp_mono; [apply (assert_bits_wp b (λ _, false)); [by split_and!|done]|]. intros [] _.
  apply wp_bind. eapply wp_mono; [by apply mark_ones_wp|]. intros b1 H1. apply wp_bind. eapply wp_mono; [apply (assert_bits_wp _ _ _ H1)|].
  { intros i Hi. by rewrite is_one_wp. }
  intros [] _. apply wp_bind. eapply wp_mono; [by apply flip_wp|]. intros b2 H2. apply wp_bind. eapply wp_mono; [apply (assert_bits_wp _ _ _ H2)|].
  { intros i Hi. by rewrite is_one_wp. }
  intros [] _. apply wp_bind. eapply wp_mono; [by apply alloc_all_wp|]. intros [b3 data3] (Hd3 & H3 & Hz). apply wp_bind.
  eapply wp_mono; [apply (assert_bits_wp _ _ _ H3)|]; [|done]. intros i Hi. destruct (data_get data3 i Hd3 Hi) as (x & Hx & Hg & _). rewrite Hg. cbn [mbind outcome_bind].
  specialize (Hz i Hi). unfold ones in Hz. rewrite Hx in Hz. cbn in Hz. apply negb_false_iff in Hz. by rewrite Hz.
Qed.
End BitmapTest.

(** The self tests of the kernel pass: [arraytest] and [bitmaptest], run
    with enough memory, end with 0 and none of their assertions fails, whatever
    [random] delivers. *)
Theorem kernel_selftests_pass random :
  ArrayTest.arraytest random = Done 0 ∧ BitmapTest.bitmaptest true true random = Done 0.
Proof. split; [apply ArrayTest.arraytest_passes|apply BitmapTest.bitmaptest_passes]. Qed.
