(* ===== verification/Lamebus.v ===== *)
(** * kern/dev/lamebus/lamebus.c and arch/mips/mips/lamebus_mips.c: the bus

    Slots, probing, and the dispatch of interrupts to device drivers.  The
    devices are behind memory-mapped registers, a parameter of the model, and so
    are the interrupt handlers the drivers register.  Interrupts that would be
    taken when the interrupt level falls are not part of this file. *)

From stdpp Require Import list_numbers.
From S2P Require Import Prelude.

Definition LB_CONTROLLER_SLOT : Z := 31.
Definition LB_NSLOTS : Z := 32.
Definition LB_CONFIG_SIZE : Z := 1024.
Definition LB_SLOT_SIZE : Z := 65536.
(** [MIPS_KSEG1 + 0x1fe00000]. *)
Definition LB_BASEADDR : Z := 3219128320.

Definition CFGREG_VID : Z := 0.
Definition CFGREG_DID : Z := 4.
Definition CFGREG_DRL : Z := 8.
Definition CTLREG_RAMSZ : Z := 512.
Definition CTLREG_IRQS : Z := 516.
Definition CTLREG_PWR : Z := 520.

(** The machine: 32-bit loads and stores in the uncached segment, the interrupt
    handlers by their names, and the power. *)
Class Machine (W F : Type) := {
  mmio_read : Z → stm W Z;
  mmio_write : Z → Z → stm W unit;
  run_irq : F → Z → stm W unit;
}.

(** struct lamebus_softc; a handler and its argument are there or not (NULL). *)
Record lamebus_softc (F : Type) := mkLb {
  ls_slotsinuse : Z;
  ls_devdata : list (option Z);
  ls_irqfuncs : list (option F);
}.
Arguments mkLb {F} _ _ _.
Arguments ls_slotsinuse {F} _.
Arguments ls_devdata {F} _.
Arguments ls_irqfuncs {F} _.

Section lamebus.
Context {W F : Type} `{!Machine W F}.

(** The bus with [curspl], the static counter [duds] and the machine. *)
Record busst := mkBus { b_sc : lamebus_softc F; b_spl : Z; b_duds : Z; b_w : W }.

Definition on_machine {A} (m : stm W A) : stm busst A := λ b,
  '(a, w) ← m (b_w b); Done (a, mkBus (b_sc b) (b_spl b) (b_duds b) w).
Definition set_sc (sc : lamebus_softc F) : stm busst unit := modify (λ b, mkBus sc (b_spl b) (b_duds b) (b_w b)).
Definition set_level (s : Z) : stm busst unit := modify (λ b, mkBus (b_sc b) s (b_duds b) (b_w b)).
Definition set_duds (n : Z) : stm busst unit := modify (λ b, mkBus (b_sc b) (b_spl b) n (b_w b)).
Definition raise_level : stm busst Z := s ← gets b_spl; set_level 15;; mret s.

(** ** Registers *)

Definition lamebus_map_area (slot offset : Z) : outcome Z :=
  kassert ((0 <=? slot) && (slot <? LB_NSLOTS));;
  Done (u32 (LB_BASEADDR + slot * LB_SLOT_SIZE + offset)).

Definition lamebus_read_register (slot offset : Z) : stm busst Z :=
  ptr ← lift (lamebus_map_area slot offset); on_machine (mmio_read ptr).
Definition lamebus_write_register (slot offset val : Z) : stm busst unit :=
  ptr ← lift (lamebus_map_area slot offset); on_machine (mmio_write ptr val).

Definition read_cfg_register (slot offset : Z) : stm busst Z :=
  lamebus_read_register LB_CONTROLLER_SLOT (u32 (offset + LB_CONFIG_SIZE * slot)).
Definition write_cfg_register (slot offset val : Z) : stm busst unit :=
  lamebus_write_register LB_CONTROLLER_SLOT (u32 (offset + LB_CONFIG_SIZE * slot)) val.
Definition read_ctl_register (offset : Z) : stm busst Z := read_cfg_register LB_CONTROLLER_SLOT offset.
Definition write_ctl_register (offset val : Z) : stm busst unit := write_cfg_register LB_CONTROLLER_SLOT offset val.

(** ** Slots *)

(** [((u_int32_t)1) << slot], before the slot has been checked. *)
Definition slot_mask (slot : Z) : outcome Z :=
  if (0 <=? slot) && (slot <? 32) then Done (Z.shiftl 1 slot) else Undef.

Definition lamebus_probe (vendorid deviceid lowver highver : Z) : stm busst Z :=
  spl ← raise_level;
  r ← for_stm (Z.to_nat LB_NSLOTS) 0
    (λ slot _,
       sc ← gets b_sc;
       mask ← lift (slot_mask slot);
       if negb (Z.land (ls_slotsinuse sc) mask =? 0) then mret (inl tt) else
       val ← read_cfg_register slot CFGREG_VID;
       if negb (val =? vendorid) then mret (inl tt) else
       val ← read_cfg_register slot CFGREG_DID;
       if negb (val =? deviceid) then mret (inl tt) else
       val ← read_cfg_register slot CFGREG_DRL;
       if (val <? lowver) || (val >? highver) then mret (inl tt) else
       set_level spl;;
       mret (inr slot)) tt;
  match r with
  | inr slot => mret slot
  | inl _ => set_level spl;; mret (-1)
  end.

(** The head of the four functions below: [want] is whether the slot has to be
    marked in use already. *)
Definition claim (slot : Z) (want : bool) : stm busst (Z * Z) :=
  mask ← lift (slot_mask slot);
  lift (kassert ((0 <=? slot) && (slot <? LB_NSLOTS)));;
  spl ← raise_level;
  sc ← gets b_sc;
  if Bool.eqb (negb (Z.land (ls_slotsinuse sc) mask =? 0)) want then mret (mask, spl) else lift Panic.

Definition lamebus_mark (slot : Z) : stm busst unit :=
  '(mask, spl) ← claim slot false;
  sc ← gets b_sc;
  set_sc (mkLb (Z.lor (ls_slotsinuse sc) mask) (ls_devdata sc) (ls_irqfuncs sc));;
  set_level spl.

Definition lamebus_unmark (slot : Z) : stm busst unit :=
  '(mask, spl) ← claim slot true;
  sc ← gets b_sc;
  set_sc (mkLb (Z.land (ls_slotsinuse sc) (Z.lxor mask 4294967295)) (ls_devdata sc) (ls_irqfuncs sc));;
  set_level spl.

Definition lamebus_attach_interrupt (slot : Z) (devdata : option Z) (irqfunc : F) : stm busst unit :=
  '(mask, spl) ← claim slot true;
  sc ← gets b_sc;
  d ← lift (arr_get (ls_devdata sc) slot);
  lift (match d with None => Done tt | Some _ => Panic end);;
  f ← lift (arr_get (ls_irqfuncs sc) slot);
  lift (match f with None => Done tt | Some _ => Panic end);;
  d' ← lift (arr_set (ls_devdata sc) slot devdata);
  f' ← lift (arr_set (ls_irqfuncs sc) slot (Some irqfunc));
  set_sc (mkLb (ls_slotsinuse sc) d' f');;
  set_level spl.

Definition lamebus_detach_interrupt (slot : Z) : stm busst unit :=
  '(mask, spl) ← claim slot true;
  sc ← gets b_sc;
  f ← lift (arr_get (ls_irqfuncs sc) slot);
  lift (match f with None => Panic | Some _ => Done tt end);;
  d' ← lift (arr_set (ls_devdata sc) slot None);
  f' ← lift (arr_set (ls_irqfuncs sc) slot None);
  set_sc (mkLb (ls_slotsinuse sc) d' f');;
  set_level spl.

(** ** Interrupts *)

(** [duds++; duds_this_time++;] on ints. *)
Definition dud (this_time : Z) : stm busst Z :=
  duds ← gets b_duds;
  duds' ← lift (to_int (duds + 1));
  set_duds duds';;
  lift (to_int (this_time + 1)).

(** One slot of the loop: the interrupts that are pending and the duds. *)
Definition irq_slot (slot irqs this_time : Z) : stm busst (Z * Z) :=
  let mask := Z.shiftl 1 slot in
  if Z.land irqs mask =? 0 then mret (irqs, this_time) else
  sc ← gets b_sc;
  if Z.land (ls_slotsinuse sc) mask =? 0 then t ← dud this_time; mret (irqs, t) else
  f ← lift (arr_get (ls_irqfuncs sc) slot);
  match f with
  | None => t ← dud this_time; mret (irqs, t)
  | Some f =>
      d ← lift (arr_get (ls_devdata sc) slot);
      on_machine (run_irq f (default 0 d));;
      irqs ← read_ctl_register CTLREG_IRQS;
      mret (irqs, this_time)
  end.

Definition lamebus_interrupt : stm busst unit :=
  spl ← gets b_spl;
  lift (kassert (spl >? 0));;
  irqs ← read_ctl_register CTLREG_IRQS;
  if irqs =? 0 then _ ← dud 0; mret tt else
  r ← for_stm (Z.to_nat LB_NSLOTS) 0
    (λ slot '(irqs, t), x ← irq_slot slot irqs t; mret (inl x : Z * Z + ())) (irqs, 0);
  match r with
  | inr _ => mret tt
  | inl (_, this_time) =>
      duds ← gets b_duds;
      (if (this_time =? 0) && (duds >? 0) then set_duds 0 else mret tt);;
      duds ← gets b_duds;
      if duds >? 10000 then lift Panic else mret tt
  end.

(** ** The rest *)

(** Writing 0 to the power register; [cpu_halt] does not return. *)
Definition lamebus_poweroff : stm busst unit := raise_level;; write_ctl_register CTLREG_PWR 0.
Definition lamebus_ramsize : stm busst Z := read_ctl_register CTLREG_RAMSZ.

Definition lamebus_init (mem : bool) : outcome (lamebus_softc F) :=
  if negb mem then Panic else
  Done (mkLb (Z.shiftl 1 LB_CONTROLLER_SLOT) (replicate (Z.to_nat LB_NSLOTS) None) (replicate (Z.to_nat LB_NSLOTS) None)).

(** ** arch/mips/mips/lamebus_mips.c: the one bus of the system *)

(** The static pointer [lamebus] is to [b_sc] from here on; the devices attach
    themselves in generated code. *)
Definition machdep_dev_bootstrap (mem : bool) (autoconf_lamebus : stm busst unit) : stm busst unit :=
  spl ← gets b_spl;
  lift (kassert (spl >? 0));;
  sc ← lift (lamebus_init mem);
  set_sc sc;;
  set_level 0;;
  autoconf_lamebus.

(** Up to [cpu_halt]. *)
Definition md_poweroff : stm busst unit := lamebus_poweroff.
Definition md_reboot : stm busst unit := md_poweroff.
Definition md_panic : stm busst unit := md_poweroff.
Definition mips_ramsize : stm busst Z := lamebus_ramsize.
Definition mips_lamebus_interrupt : stm busst unit := lamebus_interrupt.
End lamebus.
Arguments busst _ _ : clear implicits.

(** ** What the bus does for the drivers *)

(** The address of the interrupt register. *)
Definition IRQ_ADDR : Z := 3221192196.

(** The controller: the interrupt register and the configuration area, which
    reading does not change.  These are the registers the LAMEbus documentation
    describes. *)
Class MachineLaws (W F : Type) `{!Machine W F} := {
  irqs : W → Z;
  irqs_nonneg w : 0 ≤ irqs w;
  read_irqs w : mmio_read IRQ_ADDR w = Done (irqs w, w);
}.

Section dispatch.
Context {W F : Type} `{!Machine W F} `{!MachineLaws W F}.
Implicit Types (sc : lamebus_softc F) (b : busst W F) (w : W) (l : list Z).

Definition lb_ok sc : Prop :=
  0 ≤ ls_slotsinuse sc < 4294967296 ∧ length (ls_devdata sc) = 32%nat ∧ length (ls_irqfuncs sc) = 32%nat.

(** The handler of a slot with its argument, when there is one. *)
Definition driver sc (s : Z) : option (F * Z) :=
  if Z.testbit (ls_slotsinuse sc) s then
    f ← mjoin (ls_irqfuncs sc !! Z.to_nat s); Some (f, default 0 (mjoin (ls_devdata sc !! Z.to_nat s)))
  else None.

(** A handler comes back; it may change any slot's request. *)
Definition handlers_ok sc : Prop :=
  ∀ s f d w, driver sc s = Some (f, d) → ∃ w', run_irq f d w = Done (tt, w').

(** The handlers of slots below [s] leave the request of [s] alone. *)
Definition undisturbed sc (s : Z) : Prop :=
  ∀ t f d w w', t < s → driver sc t = Some (f, d) → run_irq f d w = Done (tt, w') →
    Z.testbit (irqs w') s = Z.testbit (irqs w) s.

(** A pass over the slots below [j]: those in [l] were served in turn and those in
    [o] had nobody to serve them, each because it asked when its turn came. *)
Inductive pass sc (w : W) : Z → list Z → list Z → W → Prop :=
| pass_start : pass sc w 0 [] [] w
| pass_quiet j l o w1 :
    pass sc w j l o w1 → Z.testbit (irqs w1) j = false → pass sc w (j + 1) l o w1
| pass_served j l o w1 f d w2 :
    pass sc w j l o w1 → Z.testbit (irqs w1) j = true → driver sc j = Some (f, d) →
    run_irq f d w1 = Done (tt, w2) → pass sc w (j + 1) (l ++ [j]) o w2
| pass_dud j l o w1 :
    pass sc w j l o w1 → Z.testbit (irqs w1) j = true → driver sc j = None →
    pass sc w (j + 1) l (o ++ [j]) w1.

Lemma pass_bound sc w j l o w1 :
  pass sc w j l o w1 → 0 ≤ j ∧ Z.of_nat (length o) ≤ j ∧ Forall (λ t, t < j) l.
Proof.
  assert (∀ j, Forall (λ t, t < j) l → Forall (λ t, t < j + 1) l) as Hw.
  { intros i Hf. eapply Forall_impl; [exact Hf|cbn; lia]. }
  intros Hp. revert Hw. induction Hp as [|j l o w1 _ IH _|j l o w1 f d w2 _ IH _ _ _|j l o w1 _ IH _ _]; intros Hw; [by split_and!|..].
  - destruct (IH Hw) as (? & ? & ?). split_and!; [lia|lia|by apply Hw].
  - destruct IH as (? & ? & Hf); [intros i Hf; eapply Forall_impl; [exact Hf|cbn; lia]|].
    split_and!; [lia|lia|]. apply Forall_app. split; [eapply Forall_impl; [exact Hf|cbn; lia]|]. apply Forall_singleton. lia.
  - destruct (IH Hw) as (? & ? & ?). rewrite length_app. cbn [length]. split_and!; [lia|lia|by apply Hw].
Qed.

(** In the order of the slots, each at most once. *)
Lemma pass_order sc w j l o w1 : pass sc w j l o w1 → StronglySorted Z.lt l.
Proof.
  induction 1 as [| |j l o w1 f d w2 Hp IH _ _ _|]; [constructor|done| |done].
  apply pass_bound in Hp as (_ & _ & Hf). clear -IH Hf.
  induction IH as [|x l Hs IH Hx]; cbn; [repeat constructor|]. apply Forall_cons in Hf as [Hx' Hf].
  constructor; [by apply IH|]. apply Forall_app. split; [done|]. constructor; [lia|constructor].
Qed.

(** A request that no handler withdraws is served, or counted. *)
Lemma pass_keeps sc w j l o w1 s :
  pass sc w j l o w1 → undisturbed sc s → j ≤ s → Z.testbit (irqs w1) s = Z.testbit (irqs w) s.
Proof.
  intros Hp Hu. induction Hp as [| |j l o w1 f d w2 Hp IH _ Hd Hr|]; intros Hs; [done|apply IHHp; lia| |apply IHHp; lia].
  rewrite (Hu j f d w1 w2 ltac:(lia) Hd Hr). apply IH. lia.
Qed.

Lemma pass_serves sc w j l o w1 s :
  pass sc w j l o w1 → undisturbed sc s → 0 ≤ s < j → Z.testbit (irqs w) s = true →
  if driver sc s then s ∈ l else s ∈ o.
Proof.
  intros Hp Hu Hs Hb. induction Hp as [|j l o w1 Hp IH Hq|j l o w1 f d w2 Hp IH Hq Hd Hr|j l o w1 Hp IH Hq Hd]; [lia|..];
    (destruct (decide (s = j)) as [->|]; [|try specialize (IH ltac:(lia)); destruct (driver sc s); rewrite ?elem_of_app; auto]).
  - rewrite (pass_keeps _ _ _ _ _ _ _ Hp Hu) in Hq by lia. congruence.
  - rewrite Hd. apply elem_of_app. right. by apply list_elem_of_singleton.
  - rewrite Hd. apply elem_of_app. right. by apply list_elem_of_singleton.
Qed.

Lemma land_bit a s : 0 ≤ s → (Z.land a (Z.shiftl 1 s) =? 0) = negb (Z.testbit a s).
Proof.
  intros Hs. rewrite Z.shiftl_1_l. destruct (Z.testbit a s) eqn:E; cbn.
  - apply Z.eqb_neq. intros H. apply (f_equal (λ z, Z.testbit z s)) in H.
    by rewrite Z.land_spec, E, Z.pow2_bits_true, Z.bits_0 in H.
  - apply Z.eqb_eq, Z.bits_inj_iff'. intros n Hn. rewrite Z.land_spec, Z.bits_0.
    destruct (decide (n = s)) as [->|]; [by rewrite E|]. by rewrite Z.pow2_bits_false, andb_false_r by lia.
Qed.

Lemma read_pending b : (read_ctl_register CTLREG_IRQS : stm (busst W F) Z) b = Done (irqs (b_w b), b).
Proof.
  unfold read_ctl_register, read_cfg_register, lamebus_read_register.
  change (lift (lamebus_map_area _ _) : stm (busst W F) Z) with (mret IRQ_ADDR : stm (busst W F) Z).
  unfold mbind, stm_bind, mret, stm_ret, on_machine. cbn [mbind outcome_bind].
  unfold mbind, outcome_bind. rewrite read_irqs. by destruct b.
Qed.

(** The state of the loop at slot [j]. *)
Definition dispatching b0 (j : Z) (x : Z * Z) b : Prop :=
  b_sc b = b_sc b0 ∧ b_spl b = b_spl b0 ∧ x.1 = irqs (b_w b) ∧
  ∃ l o, pass (b_sc b0) (b_w b0) j l o (b_w b) ∧ x.2 = Z.of_nat (length o) ∧ b_duds b = b_duds b0 + x.2.

Lemma dud_swp b t (Q : Z → busst W F → Prop) :
  0 ≤ b_duds b < INT_MAX → 0 ≤ t < INT_MAX →
  Q (t + 1) (mkBus (b_sc b) (b_spl b) (b_duds b + 1) (b_w b)) → swp (dud t) b Q.
Proof.
  intros Hd Ht HQ. unfold dud. apply swp_bind, swp_gets, swp_bind, swp_lift, wp_to_int; [unfold INT_MIN in *; lia|].
  apply swp_bind, swp_modify, swp_lift, wp_to_int; [unfold INT_MIN in *; lia|done].
Qed.

Lemma driver_None_fun sc s f :
  driver sc s = None → Z.testbit (ls_slotsinuse sc) s = true → ls_irqfuncs sc !! Z.to_nat s = Some f → f = None.
Proof. unfold driver. intros H Hu Hf. rewrite Hu, Hf in H. by destruct f. Qed.

(** A slot nobody serves is counted. *)
Lemma irq_slot_orphan b j x t :
  lb_ok (b_sc b) → 0 ≤ j < 32 → Z.testbit x j = true → driver (b_sc b) j = None →
  0 ≤ b_duds b < INT_MAX → 0 ≤ t < INT_MAX →
  swp (irq_slot j x t) b (λ y b', y = (x, t + 1) ∧ b' = mkBus (b_sc b) (b_spl b) (b_duds b + 1) (b_w b)).
Proof.
  intros (Hu & Hd & Hf) Hj Hx Hn Hdd Ht. unfold irq_slot. rewrite land_bit, Hx by lia. cbn [negb].
  apply swp_bind, swp_gets. rewrite land_bit by lia. destruct (Z.testbit (ls_slotsinuse _) j) eqn:Eu; cbn [negb].
  2:{ apply swp_bind, dud_swp; [done..|]. by apply swp_ret. }
  destruct (lookup_lt_is_Some_2 (ls_irqfuncs (b_sc b)) (Z.to_nat j) ltac:(lia)) as [f Hlf].
  apply swp_bind, swp_lift. rewrite (arr_get_Some _ _ f) by (done || lia). apply wp_done.
  rewrite (driver_None_fun _ _ _ Hn Eu Hlf). apply swp_bind, dud_swp; [done..|]. by apply swp_ret.
Qed.

(** A slot with a driver is served. *)
Lemma irq_slot_driver b j x t f d w' :
  lb_ok (b_sc b) → 0 ≤ j < 32 → Z.testbit x j = true → driver (b_sc b) j = Some (f, d) →
  run_irq f d (b_w b) = Done (tt, w') →
  swp (irq_slot j x t) b (λ y b', y = (irqs w', t) ∧ b' = mkBus (b_sc b) (b_spl b) (b_duds b) w').
Proof.
  intros (Hu & Hd & Hf) Hj Hx Hn Hr. unfold irq_slot. rewrite land_bit, Hx by lia. cbn [negb].
  apply swp_bind, swp_gets. rewrite land_bit by lia. unfold driver in Hn.
  destruct (Z.testbit (ls_slotsinuse _) j) eqn:Eu; cbn [negb]; [|done].
  destruct (lookup_lt_is_Some_2 (ls_irqfuncs (b_sc b)) (Z.to_nat j) ltac:(lia)) as [f' Hlf].
  destruct (lookup_lt_is_Some_2 (ls_devdata (b_sc b)) (Z.to_nat j) ltac:(lia)) as [d' Hld].
  rewrite Hlf, Hld in Hn. destruct f' as [f'|]; cbn in Hn; [|done]. injection Hn as -> <-.
  apply swp_bind, swp_lift. rewrite (arr_get_Some _ _ (Some f)) by (done || lia). apply wp_done.
  apply swp_bind, swp_lift. rewrite (arr_get_Some _ _ d') by (done || lia). apply wp_done.
  apply swp_bind, swp_Done. exists tt, (mkBus (b_sc b) (b_spl b) (b_duds b) w'). split.
  { unfold on_machine, mbind, outcome_bind. by rewrite Hr. }
  apply swp_bind, swp_Done. rewrite read_pending. eexists _, _. split; [done|]. by apply swp_ret.
Qed.

Lemma dispatch_step b0 j x b :
  lb_ok (b_sc b0) → handlers_ok (b_sc b0) → 0 ≤ b_duds b0 < INT_MAX - 32 → 0 ≤ j < 32 →
  dispatching b0 j x b → swp (irq_slot j x.1 x.2) b (dispatching b0 (j + 1)).
Proof.
  intros Hok Hh Hd Hj (Esc & Espl & Ex1 & l & o & Hp & Ex2 & Ed). pose proof (pass_bound _ _ _ _ _ _ Hp) as (_ & Hb & _).
  destruct (Z.testbit x.1 j) eqn:Ep.
  - destruct (driver (b_sc b0) j) as [[f d]|] eqn:Edr.
    + destruct (Hh j f d (b_w b) Edr) as (w' & Hr).
      eapply swp_mono; [apply (irq_slot_driver b j x.1 x.2 f d w'); rewrite ?Esc; done|].
      intros y b' [-> ->]. split_and!; [done..|]. cbn [fst snd b_w b_duds]. exists (l ++ [j]), o.
      split_and!; [|done|done]. eapply pass_served; [done|by rewrite <-Ex1|done..].
    + eapply swp_mono; [apply (irq_slot_orphan b j x.1 x.2); rewrite ?Esc; done || lia|].
      intros y b' [-> ->]. split_and!; [done..|]. cbn [fst snd b_w b_duds]. exists l, (o ++ [j]).
      rewrite length_app. cbn [length]. split_and!; [|lia|lia]. eapply pass_dud; [done|by rewrite <-Ex1|done].
  - unfold irq_slot. rewrite land_bit, Ep by lia. cbn [negb]. apply swp_ret. split_and!; [done..|].
    exists l, o. split_and!; [|done|done]. eapply pass_quiet; [done|by rewrite <-Ex1].
Qed.

Lemma dispatch_loop b :
  lb_ok (b_sc b) → handlers_ok (b_sc b) → 0 ≤ b_duds b < INT_MAX - 32 →
  ∃ x b', for_stm (Z.to_nat LB_NSLOTS) 0
    (λ slot '(irqs, t), x ← irq_slot slot irqs t; mret (inl x : Z * Z + ())) (irqs (b_w b), 0) b = Done (inl x, b') ∧
    dispatching b 32 x b'.
Proof.
  intros Hok Hh Hd. assert (swp (for_stm (Z.to_nat LB_NSLOTS) 0
    (λ slot '(irqs, t), x ← irq_slot slot irqs t; mret (inl x : Z * Z + ())) (irqs (b_w b), 0)) b
    (λ r b', match r with inl x => dispatching b 32 x b' | inr _ => False end)) as H.
  { apply (swp_for_stm (dispatching b) (λ _ _, False)).
    - split_and!; [done..|]. exists [], []. split_and!; [constructor|done|cbn; lia].
    - intros j [x t] b' Hj HP. apply swp_bind.
      eapply swp_mono; [apply (dispatch_step b j (x, t) b'); done || (unfold LB_NSLOTS in Hj; lia)|].
      intros y b2 H2. by apply swp_ret. }
  apply swp_Done in H as ([x|[]] & b' & H & Hb); [|done]. eauto.
Qed.

(** How the handler ends, given the number of duds after the loop. *)
Definition interrupt_end (b : busst W F) (o : list Z) (w : W) : outcome (unit * busst W F) :=
  let duds := if decide (o = []) then 0 else b_duds b + Z.of_nat (length o) in
  if duds >? 10000 then Panic else Done (tt, mkBus (b_sc b) (b_spl b) duds w).

Lemma dispatch_done b0 this_time b o :
  0 ≤ b_duds b0 → b_sc b = b_sc b0 → b_spl b = b_spl b0 → this_time = Z.of_nat (length o) → b_duds b = b_duds b0 + this_time →
  (duds ← gets b_duds;
   (if (this_time =? 0) && (duds >? 0) then set_duds 0 else mret tt);;
   duds ← gets b_duds;
   if duds >? 10000 then lift Panic else mret tt : stm (busst W F) unit) b = interrupt_end b0 o (b_w b).
Proof.
  intros Hd Esc Espl -> Ed. unfold interrupt_end, gets, set_duds, modify, lift, mret, stm_ret, mbind, stm_bind. cbn.
  destruct b as [sc spl duds w]. cbn in *. subst. destruct o as [|j o]; cbn [length].
  - rewrite decide_True by done. change (Z.of_nat 0) with 0. rewrite Z.add_0_r. cbn [Z.eqb andb].
    destruct (Z.gtb_spec (b_duds b0) 0); cbn; [done|]. assert (b_duds b0 = 0) as -> by lia. done.
  - rewrite decide_False by done. rewrite (proj2 (Z.eqb_neq (Z.of_nat (S (length o))) 0)) by lia. cbn [andb].
    cbn. by destruct (_ >? 10000).
Qed.

(** [C14] The bus interrupt, for handlers that come back and may change any
    request.  When no slot asks, the interrupt is counted as a dud and nothing
    else happens.  Otherwise the bus makes one pass over the slots: a slot that
    asks when its turn comes (the requests being read again after every handler)
    is served by its driver, in the order of the slots and each at most once, or
    counted as a dud when it has none.  A slot that asked at the start, and whose
    request the handlers before it leave alone, is served or counted.  The dud
    count is reset when the pass found none; the kernel panics exactly when the
    count is then above 10000, and otherwise returns with the slot table and the
    interrupt level as before. *)
Theorem lamebus_interrupt_serves b :
  lb_ok (b_sc b) → handlers_ok (b_sc b) → 0 < b_spl b → 0 ≤ b_duds b < INT_MAX - 32 →
  (irqs (b_w b) = 0 → lamebus_interrupt b = Done (tt, mkBus (b_sc b) (b_spl b) (b_duds b + 1) (b_w b))) ∧
  (irqs (b_w b) ≠ 0 → ∃ l o w, pass (b_sc b) (b_w b) 32 l o w ∧
     lamebus_interrupt b = interrupt_end b o w ∧ StronglySorted Z.lt l ∧
     ∀ s, 0 ≤ s < 32 → Z.testbit (irqs (b_w b)) s = true → undisturbed (b_sc b) s →
       if driver (b_sc b) s then s ∈ l else s ∈ o).
Proof.
  intros Hok Hh Hspl Hd. split; intros Hi.
  - assert (swp lamebus_interrupt b (λ _ b', b' = mkBus (b_sc b) (b_spl b) (b_duds b + 1) (b_w b))) as H.
    { unfold lamebus_interrupt. apply swp_bind, swp_gets, swp_bind, swp_kassert; [by apply Z.gtb_lt|].
      apply swp_bind, swp_Done. rewrite read_pending. eexists _, _. split; [done|]. rewrite Hi. cbn [Z.eqb].
      apply swp_bind, dud_swp; [lia|unfold INT_MAX; lia|]. by apply swp_ret. }
    apply swp_Done in H as ([] & b' & H & ->). done.
  - destruct (dispatch_loop b Hok Hh Hd) as ([x t] & b' & Hloop & Esc & Espl & _ & l & o & Hp & Ex2 & Ed).
    exists l, o, (b_w b'). split_and!; [done| |by eapply pass_order|intros s Hs Hb Hu; by eapply pass_serves].
    rewrite <-(dispatch_done b t b' o) by (done || lia). unfold lamebus_interrupt.
    set (loop := for_stm _ _ _) in *. unfold mbind, stm_bind, gets, lift, kassert, mbind, outcome_bind. cbn.
    rewrite (proj2 (Z.gtb_lt _ _) Hspl), read_pending, (proj2 (Z.eqb_neq _ _) Hi). fold loop. by rewrite Hloop.
Qed.

(** ** Finding devices *)

(** The configuration area of the slots, when reading it is pure. *)
Definition cfg_area (cfg : Z → Z → Z) : Prop :=
  ∀ s off w, 0 ≤ s < 32 → off ∈ [CFGREG_VID; CFGREG_DID; CFGREG_DRL] →
    mmio_read (LB_BASEADDR + 31 * LB_SLOT_SIZE + 1024 * s + off) w = Done (cfg s off, w).

(** A slot nobody uses yet, with the wanted device in it. *)
Definition matches (cfg : Z → Z → Z) sc (vid did lo hi s : Z) : Prop :=
  Z.testbit (ls_slotsinuse sc) s = false ∧ cfg s CFGREG_VID = vid ∧ cfg s CFGREG_DID = did ∧ lo ≤ cfg s CFGREG_DRL ≤ hi.

Lemma read_cfg cfg s off b :
  cfg_area cfg → 0 ≤ s < 32 → off ∈ [CFGREG_VID; CFGREG_DID; CFGREG_DRL] →
  (read_cfg_register s off : stm (busst W F) Z) b = Done (cfg s off, b).
Proof.
  intros Hc Hs Ho. unfold read_cfg_register, lamebus_read_register.
  assert (0 ≤ off < 12). { set_unfold in Ho. unfold CFGREG_VID, CFGREG_DID, CFGREG_DRL in Ho. lia. }
  assert (Ha : lamebus_map_area LB_CONTROLLER_SLOT (u32 (off + LB_CONFIG_SIZE * s)) =
          Done (LB_BASEADDR + 31 * LB_SLOT_SIZE + 1024 * s + off)).
  { unfold lamebus_map_area. cbn. f_equal. unfold LB_CONFIG_SIZE, LB_BASEADDR, LB_SLOT_SIZE, LB_CONTROLLER_SLOT.
    rewrite (u32_small (off + _)), u32_small by lia. lia. }
  unfold mbind, stm_bind, lift, mbind, outcome_bind. rewrite Ha. unfold on_machine, mbind, outcome_bind.
  rewrite Hc by done. by destruct b.
Qed.

(** The probe finds the first such slot, and says -1 when there is none. *)
Lemma lamebus_probe_first cfg vid did lo hi b :
  cfg_area cfg →
  swp (lamebus_probe vid did lo hi) b (λ r b', b' = b ∧
    ((0 ≤ r < 32 ∧ matches cfg (b_sc b) vid did lo hi r ∧ ∀ s, 0 ≤ s < r → ¬ matches cfg (b_sc b) vid did lo hi s) ∨
     (r = -1 ∧ ∀ s, 0 ≤ s < 32 → ¬ matches cfg (b_sc b) vid did lo hi s))).
Proof.
  intros Hc. unfold lamebus_probe, raise_level.
  apply swp_bind, swp_bind, swp_gets, swp_bind, swp_modify, swp_ret, swp_bind.
  set (b1 := mkBus (b_sc b) 15 (b_duds b) (b_w b)).
  assert (Hrd : ∀ s off (Q : Z → busst W F → Prop), 0 ≤ s < 32 → off ∈ [CFGREG_VID; CFGREG_DID; CFGREG_DRL] →
                  Q (cfg s off) b1 → swp (read_cfg_register s off) b1 Q).
  { intros s off Q Hs Ho HQ. apply swp_Done. rewrite (read_cfg cfg) by done. eauto. }
  eapply swp_mono; [apply (swp_for_stm
    (λ j _ b', b' = b1 ∧ ∀ s, 0 ≤ s < j → ¬ matches cfg (b_sc b) vid did lo hi s)
    (λ r b', b' = b ∧ 0 ≤ r < 32 ∧ matches cfg (b_sc b) vid did lo hi r ∧ ∀ s, 0 ≤ s < r → ¬ matches cfg (b_sc b) vid did lo hi s))|].
  - split; [done|intros; lia].
  - intros j [] ? Hj [-> Hn]. unfold LB_NSLOTS in Hj.
    assert (Hskip : ¬ matches cfg (b_sc b) vid did lo hi j → ∀ s, 0 ≤ s < j + 1 → ¬ matches cfg (b_sc b) vid did lo hi s).
    { intros Hj' s Hs. destruct (decide (s = j)) as [->|]; [done|apply Hn; lia]. }
    apply swp_bind, swp_gets, swp_bind, swp_lift. unfold slot_mask.
    rewrite (proj2 (Z.leb_le _ _)), (proj2 (Z.ltb_lt _ _)) by lia. apply wp_done. rewrite land_bit by lia. change (b_sc b1) with (b_sc b).
    destruct (Z.testbit _ j) eqn:Eu; cbn [negb]; [apply swp_ret; split; [done|apply Hskip; intros (?&?&?&?); congruence]|].
    apply swp_bind, Hrd; [lia|set_solver|]. destruct (Z.eqb_spec (cfg j CFGREG_VID) vid); cbn [negb];
      [|apply swp_ret; split; [done|apply Hskip; intros (?&?&?&?); congruence]].
    apply swp_bind, Hrd; [lia|set_solver|]. destruct (Z.eqb_spec (cfg j CFGREG_DID) did); cbn [negb];
      [|apply swp_ret; split; [done|apply Hskip; intros (?&?&?&?); congruence]].
    apply swp_bind, Hrd; [lia|set_solver|].
    destruct (Z.ltb_spec (cfg j CFGREG_DRL) lo); cbn [orb];
      [apply swp_ret; split; [done|apply Hskip; intros (?&?&?&?); lia]|].
    destruct (Z.gtb_spec (cfg j CFGREG_DRL) hi);
      [apply swp_ret; split; [done|apply Hskip; intros (?&?&?&?); lia]|].
    apply swp_bind, swp_modify, swp_ret. split; [by destruct b|]. unfold matches. split_and!; done || lia.
  - intros [[]|r] b'; [intros [-> Hn]|intros (-> & ? & ? & ?)].
    + apply swp_bind, swp_modify, swp_ret. split; [by destruct b|]. by right.
    + apply swp_ret. split; [done|]. by left.
Qed.

(** ** Drivers come and go *)

Lemma claim_swp s want b (Q : Z * Z → busst W F → Prop) :
  0 ≤ s < 32 → Z.testbit (ls_slotsinuse (b_sc b)) s = want →
  Q (Z.shiftl 1 s, b_spl b) (mkBus (b_sc b) 15 (b_duds b) (b_w b)) → swp (claim s want) b Q.
Proof.
  intros Hs Hu HQ. unfold claim, slot_mask, raise_level, LB_NSLOTS.
  assert (Hr : (0 <=? s) && (s <? 32) = true) by (by rewrite (proj2 (Z.leb_le _ _)), (proj2 (Z.ltb_lt _ _)) by lia).
  rewrite Hr. apply swp_bind, swp_lift, wp_done, swp_bind, swp_kassert; [done|].
  apply swp_bind, swp_bind, swp_gets, swp_bind, swp_modify, swp_ret, swp_bind, swp_gets.
  cbn [b_sc]. rewrite land_bit, Hu, negb_involutive, Bool.eqb_reflx by lia. by apply swp_ret.
Qed.

(** The slot table with one more slot in use, and with a handler in a slot. *)
Definition marked sc (s : Z) : lamebus_softc F :=
  mkLb (Z.lor (ls_slotsinuse sc) (Z.shiftl 1 s)) (ls_devdata sc) (ls_irqfuncs sc).
Definition hooked sc (s : Z) (d : option Z) (f : F) : lamebus_softc F :=
  mkLb (ls_slotsinuse sc) (<[Z.to_nat s := d]> (ls_devdata sc)) (<[Z.to_nat s := Some f]> (ls_irqfuncs sc)).

Lemma lamebus_mark_swp s b :
  0 ≤ s < 32 → Z.testbit (ls_slotsinuse (b_sc b)) s = false →
  lamebus_mark s b = Done (tt, mkBus (marked (b_sc b) s) (b_spl b) (b_duds b) (b_w b)).
Proof.
  intros Hs Hu. assert (swp (lamebus_mark s) b (λ _ b', b' = mkBus (marked (b_sc b) s) (b_spl b) (b_duds b) (b_w b))) as H.
  { unfold lamebus_mark. apply swp_bind, claim_swp; [done..|]. by apply swp_bind, swp_gets, swp_bind, swp_modify, swp_modify. }
  apply swp_Done in H as ([] & b' & H & ->). done.
Qed.

Lemma lamebus_attach_swp s d f b :
  lb_ok (b_sc b) → 0 ≤ s < 32 → Z.testbit (ls_slotsinuse (b_sc b)) s = true →
  ls_irqfuncs (b_sc b) !! Z.to_nat s = Some None → ls_devdata (b_sc b) !! Z.to_nat s = Some None →
  lamebus_attach_interrupt s d f b = Done (tt, mkBus (hooked (b_sc b) s d f) (b_spl b) (b_duds b) (b_w b)).
Proof.
  intros (_ & Hd & Hf) Hs Hu Hlf Hld.
  assert (swp (lamebus_attach_interrupt s d f) b (λ _ b', b' = mkBus (hooked (b_sc b) s d f) (b_spl b) (b_duds b) (b_w b))) as H.
  { unfold lamebus_attach_interrupt. apply swp_bind, claim_swp; [done..|]. apply swp_bind, swp_gets. cbn [b_sc].
    apply swp_bind, swp_lift. rewrite (arr_get_Some _ _ None) by (done || lia). apply wp_done, swp_bind, swp_lift, wp_done.
    apply swp_bind, swp_lift. rewrite (arr_get_Some _ _ None) by (done || lia). apply wp_done, swp_bind, swp_lift, wp_done.
    apply swp_bind, swp_lift. rewrite arr_set_in by lia. apply wp_done.
    apply swp_bind, swp_lift. rewrite arr_set_in by lia. by apply wp_done, swp_bind, swp_modify, swp_modify. }
  apply swp_Done in H as ([] & b' & H & ->). done.
Qed.

Lemma marked_bit sc s t :
  0 ≤ s → 0 ≤ t → Z.testbit (ls_slotsinuse (marked sc s)) t = Z.testbit (ls_slotsinuse sc) t || bool_decide (t = s).
Proof.
  intros Hs Ht. cbn. rewrite Z.lor_spec, Z.shiftl_1_l. f_equal. case_bool_decide as Et; [subst; by apply Z.pow2_bits_true|].
  apply Z.pow2_bits_false. lia.
Qed.

Lemma lor_bound a c n : 0 ≤ a < 2 ^ n → 0 ≤ c < 2 ^ n → 0 ≤ n → 0 ≤ Z.lor a c < 2 ^ n.
Proof.
  intros Ha Hc Hn. assert (0 ≤ Z.lor a c) by (apply Z.lor_nonneg; lia). split; [done|].
  destruct (decide (Z.lor a c = 0)) as [->|]; [lia|]. apply Z.log2_lt_pow2; [lia|]. rewrite Z.log2_lor by lia.
  assert (∀ x, 0 ≤ x < 2 ^ n → Z.log2 x < n ∨ x = 0).
  { intros x Hx. destruct (decide (x = 0)); [by right|left]. apply Z.log2_lt_pow2; lia. }
  pose proof (Z.log2_nonneg a). pose proof (Z.log2_nonneg c).
  destruct (H0 a Ha) as [?| ->], (H0 c Hc) as [?| ->]; change (Z.log2 0) with 0 in *; try lia; done.
Qed.

Lemma marked_ok sc s : 0 ≤ s < 32 → lb_ok sc → lb_ok (marked sc s).
Proof.
  intros Hs (Hu & Hd & Hf). split; [|done]. cbn. apply (lor_bound _ _ 32); [lia| |lia]. rewrite Z.shiftl_1_l. split; [lia|].
  apply Z.pow_lt_mono_r; lia.
Qed.

Lemma hooked_ok sc s d f : lb_ok sc → lb_ok (hooked sc s d f).
Proof. intros (Hu & Hd & Hf). split_and!; cbn; rewrite ?length_insert; done || lia. Qed.

(** Drivers of the other slots are not disturbed. *)
Lemma driver_marked sc s t : 0 ≤ s → 0 ≤ t → t ≠ s → driver (marked sc s) t = driver sc t.
Proof. intros. unfold driver. rewrite marked_bit, bool_decide_eq_false_2, orb_false_r by done. done. Qed.

Lemma driver_hooked_ne sc s d f t : 0 ≤ s → 0 ≤ t → t ≠ s → driver (hooked sc s d f) t = driver sc t.
Proof. intros. unfold driver. cbn. rewrite !list_lookup_insert_ne by lia. done. Qed.

Lemma driver_hooked sc s d f :
  lb_ok sc → 0 ≤ s < 32 → Z.testbit (ls_slotsinuse sc) s = true → driver (hooked sc s d f) s = Some (f, default 0 d).
Proof. intros (_ & Hd & Hf) Hs Hu. unfold driver. cbn. rewrite Hu, !list_lookup_insert_eq by lia. done. Qed.
End dispatch.

(** ** A machine with two drivers *)

Module BusExample.

(** A device stops asking when its handler, named by its slot, runs. *)
#[local] Instance example_machine : Machine N N := {
  mmio_read _ w := Done (Z.of_N w, w);
  mmio_write _ _ w := Done (tt, w);
  run_irq f _ w := Done (tt, N.clearbit w f);
}.

#[local,refine] Instance example_laws : MachineLaws N N := { irqs := Z.of_N }.
Proof. - intros. lia. - done. Defined.

(** Slots 3 and 5 have drivers, slot 7 asks for service and has none. *)
Definition example_softc : lamebus_softc N :=
  mkLb (Z.lor (Z.shiftl 1 31) 40) (replicate 32 None) (<[5%nat := Some 5%N]> (<[3%nat := Some 3%N]> (replicate 32 None))).
Definition example_bus : busst N N := mkBus example_softc 15 7 168%N.

Lemma example_handlers : handlers_ok example_softc.
Proof. intros s f d w _. by eexists. Qed.

Lemma lamebus_interrupt_serves_witness :
  ∃ l o w, pass example_softc 168%N 32 l o w ∧
    lamebus_interrupt example_bus = interrupt_end example_bus o w ∧ StronglySorted Z.lt l ∧
    ∀ s, 0 ≤ s < 32 → Z.testbit 168 s = true → undisturbed example_softc s →
      if driver example_softc s then s ∈ l else s ∈ o.
Proof.
  refine (proj2 (lamebus_interrupt_serves example_bus _ example_handlers _ _) _); [|cbn; lia|vm_compute; split; congruence|done].
  vm_compute. split_and!; congruence.
Defined.
End BusExample.
