(* ===== verification/LbDev.v ===== *)
(** * The small LAMEbus devices: attaching drivers, the timer, the trace device

    kern/dev/lamebus/*_att.c, ltimer.c, ltrace.c and lnet.c, with the generic
    clock and beep devices of kern/dev/generic on top.  The softc structures are
    their addresses and the fields the code reads; an allocation gives an
    address or NULL.  What is printed is not modelled. *)

From S2P Require Import Prelude Lamebus.

Definition LB_VENDOR_CS161 : Z := 1.
Definition LBCS161_TIMER : Z := 2.
Definition LBCS161_DISK : Z := 3.
Definition LBCS161_SERIAL : Z := 4.
Definition LBCS161_SCREEN : Z := 5.
Definition LBCS161_NET : Z := 6.
Definition LBCS161_EMUFS : Z := 7.
Definition LBCS161_TRACE : Z := 8.
Definition LBCS161_RANDOM : Z := 9.

(** The interrupt handlers the drivers register. *)
Inductive irqfunc := irq_emu | irq_lhd | irq_lscreen | irq_lser | irq_ltimer.

Section lbdev.
Context {W : Type} `{!Machine W irqfunc}.
Abbreviation bus := (busst W irqfunc).

(** ** Attaching drivers *)

(** A driver found: where its softc is, and its slot. *)
Record attached := mkAttached { at_softc : Z; at_buspos : Z }.

(** The body the attach functions have in common: probe, allocate, mark, and
    hook the interrupt when there is a handler. *)
Definition attach_driver (device low high : Z) (irq : option irqfunc) (kmalloc : option Z) : stm bus (option attached) :=
  slot ← lamebus_probe LB_VENDOR_CS161 device low high;
  if slot <? 0 then mret None else
  match kmalloc with
  | None => mret None
  | Some p =>
      lamebus_mark slot;;
      (match irq with Some f => lamebus_attach_interrupt slot (Some p) f | None => mret tt end);;
      mret (Some (mkAttached p slot))
  end.

Definition attach_emu_to_lamebus : option Z → stm bus (option attached) := attach_driver LBCS161_EMUFS 1 1 (Some irq_emu).
Definition attach_lhd_to_lamebus : option Z → stm bus (option attached) := attach_driver LBCS161_DISK 2 2 (Some irq_lhd).
Definition attach_lrandom_to_lamebus : option Z → stm bus (option attached) := attach_driver LBCS161_RANDOM 1 1 None.
Definition attach_lscreen_to_lamebus : option Z → stm bus (option attached) := attach_driver LBCS161_SCREEN 1 1 (Some irq_lscreen).
Definition attach_lser_to_lamebus : option Z → stm bus (option attached) := attach_driver LBCS161_SERIAL 1 1 (Some irq_lser).
Definition attach_ltimer_to_lamebus : option Z → stm bus (option attached) := attach_driver LBCS161_TIMER 1 1 (Some irq_ltimer).
Definition attach_ltrace_to_lamebus : option Z → stm bus (option attached) := attach_driver LBCS161_TRACE 1 1 None.

(** The network card is recognised and left alone. *)
Definition attach_lnet_to_lamebus : stm bus (option attached) :=
  slot ← lamebus_probe LB_VENDOR_CS161 LBCS161_NET 1 1; mret None.
Definition config_lnet : Z := ENODEV.

(** ** ltimer.c *)

Definition LT_REG_SEC : Z := 0.
Definition LT_REG_NSEC : Z := 4.
Definition LT_REG_ROE : Z := 8.
Definition LT_REG_IRQ : Z := 12.
Definition LT_REG_COUNT : Z := 16.
Definition LT_REG_SPKR : Z := 20.
Definition LT_GRANULARITY : Z := 1000000.

Record ltimer_softc := mkLtimer { lt_hardclock : Z; lt_buspos : Z }.

(** The static flag [haveclock] goes in and out. *)
Definition config_ltimer (HZ haveclock : Z) (lt : ltimer_softc) : stm bus (Z * Z * ltimer_softc) :=
  if haveclock =? 0 then
    lamebus_write_register (lt_buspos lt) LT_REG_ROE 1;;
    count ← lift (if HZ =? 0 then Undef else Done (Z.quot LT_GRANULARITY HZ));
    lamebus_write_register (lt_buspos lt) LT_REG_COUNT (u32 count);;
    mret (0, 1, mkLtimer 1 (lt_buspos lt))
  else mret (0, haveclock, mkLtimer 0 (lt_buspos lt)).

(** Whether the interrupt calls [hardclock]. *)
Definition ltimer_irq (lt : ltimer_softc) : stm bus bool :=
  val ← lamebus_read_register (lt_buspos lt) LT_REG_IRQ;
  mret (negb (val =? 0) && negb (lt_hardclock lt =? 0)).

Definition ltimer_beep (lt : ltimer_softc) : stm bus unit := lamebus_write_register (lt_buspos lt) LT_REG_SPKR 440.

(** Seconds and nanoseconds; [time_t] is a 32-bit int. *)
Definition ltimer_gettime (lt : ltimer_softc) : stm bus (Z * Z) :=
  secs1 ← lamebus_read_register (lt_buspos lt) LT_REG_SEC;
  nsecs ← lamebus_read_register (lt_buspos lt) LT_REG_NSEC;
  secs2 ← lamebus_read_register (lt_buspos lt) LT_REG_SEC;
  mret (if nsecs <? 5000000 then s32 secs2 else s32 secs1, nsecs).

(** ** The generic clock and beep devices: rtclock.c, beep.c, and the glue *)

(** [the_clock] and [the_beep], NULL or the timer behind the device. *)
Definition attach_rtclock_to_ltimer (mem : bool) (lt : ltimer_softc) : option ltimer_softc := if mem then Some lt else None.
Definition attach_beep_to_ltimer (mem : bool) (lt : ltimer_softc) : option ltimer_softc := if mem then Some lt else None.

Definition config_rtclock (the_clock : option ltimer_softc) (rtc : ltimer_softc) (unit : Z) : outcome (Z * option ltimer_softc) :=
  if negb (unit =? 0) then Done (ENODEV, the_clock) else
  match the_clock with Some _ => Panic | None => Done (0, Some rtc) end.

Definition config_beep (the_beep : option ltimer_softc) (bs : ltimer_softc) (unit : Z) : outcome (Z * option ltimer_softc) :=
  if negb (unit =? 0) then Done (ENODEV, the_beep) else
  match the_beep with Some _ => Panic | None => Done (0, Some bs) end.

Definition gettime (the_clock : option ltimer_softc) : stm bus (Z * Z) :=
  match the_clock with Some rtc => ltimer_gettime rtc | None => lift Panic end.

Definition beep (the_beep : option ltimer_softc) : stm bus unit :=
  match the_beep with Some bs => ltimer_beep bs | None => mret tt end.

(** ** ltrace.c *)

Definition trace_write (reg : Z) (the_trace : option Z) (code : Z) : stm bus unit :=
  match the_trace with Some slot => lamebus_write_register slot reg code | None => mret tt end.
Definition ltrace_on : option Z → Z → stm bus unit := trace_write 0.
Definition ltrace_off : option Z → Z → stm bus unit := trace_write 4.
Definition ltrace_debug : option Z → Z → stm bus unit := trace_write 8.
Definition ltrace_dump : option Z → Z → stm bus unit := trace_write 12.
Definition config_ltrace (sc : Z) : Z * option Z := (0, Some sc).
End lbdev.

(** ** Attaching takes the first free card *)

Section attach.
Context {W : Type} `{!Machine W irqfunc} `{!MachineLaws W irqfunc}.
Implicit Types b : busst W irqfunc.

(** Slots that are free have no handler: what [lamebus_init] starts with. *)
Definition free_clean (sc : lamebus_softc irqfunc) : Prop :=
  ∀ s, 0 ≤ s < 32 → Z.testbit (ls_slotsinuse sc) s = false →
    ls_irqfuncs sc !! Z.to_nat s = Some None ∧ ls_devdata sc !! Z.to_nat s = Some None.

Definition same_machine b b' : Prop := b_spl b' = b_spl b ∧ b_duds b' = b_duds b ∧ b_w b' = b_w b.

(** What a successful attach does to the slot table. *)
Definition attached_at (irq : option irqfunc) (p s : Z) (sc sc' : lamebus_softc irqfunc) : Prop :=
  (∀ t, 0 ≤ t → Z.testbit (ls_slotsinuse sc') t = Z.testbit (ls_slotsinuse sc) t || bool_decide (t = s)) ∧
  driver sc' s = (f ← irq; Some (f, p)) ∧ ∀ t, 0 ≤ t → t ≠ s → driver sc' t = driver sc t.

Lemma marked_clean sc s : 0 ≤ s < 32 → free_clean sc → free_clean (marked sc s).
Proof. intros Hs Hc t Ht. rewrite marked_bit by lia. intros [Hb _]%orb_false_iff. by apply Hc. Qed.

Lemma hooked_clean sc s d f :
  0 ≤ s < 32 → Z.testbit (ls_slotsinuse sc) s = true → free_clean sc → free_clean (hooked sc s d f).
Proof.
  intros Hs Hu Hc t Ht Hb. cbn in Hb |- *. assert (t ≠ s) by congruence.
  rewrite !list_lookup_insert_ne by lia. by apply Hc.
Qed.

Lemma attach_driver_swp cfg device low high irq p b :
  cfg_area cfg → lb_ok (b_sc b) → free_clean (b_sc b) →
  let ok := matches cfg (b_sc b) LB_VENDOR_CS161 device low high in
  swp (attach_driver device low high irq (Some p)) b (λ r b', lb_ok (b_sc b') ∧ free_clean (b_sc b') ∧ same_machine b b' ∧
    ((r = None ∧ b' = b ∧ ∀ s, 0 ≤ s < 32 → ¬ ok s) ∨
     (∃ s, r = Some (mkAttached p s) ∧ 0 ≤ s < 32 ∧ ok s ∧ (∀ t, 0 ≤ t < s → ¬ ok t) ∧
        attached_at irq p s (b_sc b) (b_sc b')))).
Proof.
  intros Hcfg Hok Hc ok. unfold attach_driver. apply swp_bind.
  eapply swp_mono; [by apply lamebus_probe_first|]. intros s b' [-> [(Hs & Hm & Hfirst)|[-> Hn]]].
  2:{ cbn. apply swp_ret. split_and!; [done..|]. by left. }
  destruct (Z.ltb_spec s 0); [lia|]. pose proof Hm as [Hfree _].
  destruct (Hc s Hs Hfree) as [Hlf Hld].
  apply swp_bind, swp_Done. rewrite lamebus_mark_swp by done. eexists _, _. split; [done|].
  assert (Hmb : Z.testbit (ls_slotsinuse (marked (b_sc b) s)) s = true).
  { by rewrite marked_bit, bool_decide_eq_true_2, orb_true_r by lia. }
  assert (Hmok : lb_ok (marked (b_sc b) s)) by (by apply marked_ok).
  assert (Hmc : free_clean (marked (b_sc b) s)) by (by apply marked_clean).
  destruct irq as [f|]; apply swp_bind.
  - apply swp_Done. rewrite lamebus_attach_swp by done. eexists _, _. split; [done|]. apply swp_ret. cbn [b_sc].
    split_and!; [by apply hooked_ok|by apply hooked_clean|done|]. right. exists s. split_and!; [done|lia..|done|done|].
    split_and!; [intros t Ht; apply marked_bit; lia|by apply (driver_hooked _ _ (Some p))|].
    intros t Ht Hne. rewrite driver_hooked_ne, driver_marked by lia. done.
  - apply swp_ret, swp_ret. cbn [b_sc]. split_and!; [done..|]. right. exists s. split_and!; [done|lia..|done|done|].
    split_and!; [intros t Ht; apply marked_bit; lia| |intros t Ht Hne; apply driver_marked; lia].
    unfold driver. rewrite Hmb. cbn. by rewrite Hlf.
Qed.
End attach.

(** ** The time of day *)

(** The clock of the card: [now] is the time in nanoseconds that a register shows
    when it is read, and time goes on while the processor reads. *)
Class ClockLaws (W F : Type) `{!Machine W F} := {
  clk_slot : Z;
  clk_slot_range : 0 ≤ clk_slot < 32;
  now : W → Z;
  now_range w : 0 ≤ now w < 2147483648 * 1000000000;
  read_sec w : ∃ w', mmio_read (LB_BASEADDR + clk_slot * LB_SLOT_SIZE + LT_REG_SEC) w = Done (now w' / 1000000000, w') ∧ now w ≤ now w';
  read_nsec w : ∃ w', mmio_read (LB_BASEADDR + clk_slot * LB_SLOT_SIZE + LT_REG_NSEC) w = Done (now w' mod 1000000000, w') ∧ now w ≤ now w';
}.

Section gettime.
Context {W : Type} `{!Machine W irqfunc} `{!ClockLaws W irqfunc}.
Implicit Types b : busst W irqfunc.

Lemma read_reg b off v w' :
  0 ≤ off < 65536 → mmio_read (LB_BASEADDR + clk_slot * LB_SLOT_SIZE + off) (b_w b) = Done (v, w') →
  lamebus_read_register clk_slot off b = Done (v, mkBus (b_sc b) (b_spl b) (b_duds b) w').
Proof.
  intros Ho Hr. pose proof clk_slot_range as Hs. unfold lamebus_read_register.
  assert (lamebus_map_area clk_slot off = Done (LB_BASEADDR + clk_slot * LB_SLOT_SIZE + off)) as Ha.
  { unfold lamebus_map_area, LB_NSLOTS. rewrite (proj2 (Z.leb_le _ _)), (proj2 (Z.ltb_lt _ _)) by lia. cbn. f_equal.
    apply u32_small. unfold LB_BASEADDR, LB_SLOT_SIZE. lia. }
  unfold mbind, stm_bind, lift, mbind, outcome_bind. rewrite Ha. unfold on_machine, mbind, outcome_bind. by rewrite Hr.
Qed.

(** The time of day is right although it takes three reads to get: unless
    more than 5 milliseconds pass between the first read and the last, what
    [gettime] returns is the time of the card at the moment of the second one. *)
Theorem gettime_is_a_time b (hc : Z) :
  swp (gettime (Some (mkLtimer hc clk_slot))) b (λ '(secs, nsecs) b',
    b_sc b' = b_sc b ∧ now (b_w b) ≤ now (b_w b') ∧
    ∃ t1 t2, now (b_w b) ≤ t1 ≤ t2 ∧ t2 ≤ now (b_w b') ∧ nsecs = t2 mod 1000000000 ∧
      (now (b_w b') - t1 ≤ 5000000 → secs * 1000000000 + nsecs = t2)).
Proof.
  destruct (read_sec (b_w b)) as (w1 & E1 & H1), (read_nsec w1) as (w2 & E2 & H2), (read_sec w2) as (w3 & E3 & H3).
  pose proof (now_range w1) as R1. pose proof (now_range w3) as R3. pose proof (now_range w2) as R2.
  unfold gettime, ltimer_gettime. cbn [lt_buspos].
  apply swp_bind, swp_Done. erewrite read_reg; [|done|exact E1]. eexists _, _. split; [done|].
  apply swp_bind, swp_Done. erewrite read_reg; [|done|exact E2]. eexists _, _. split; [done|].
  apply swp_bind, swp_Done. erewrite read_reg; [|done|exact E3]. eexists _, _. split; [done|].
  apply swp_ret. cbn [b_sc b_w]. split; [done|]. split; [lia|]. exists (now w1), (now w2). split_and!; [lia..|done|].
  intros Hd. destruct (Z.ltb_spec (now w2 mod 1000000000) 5000000); rewrite s32_small by (unfold INT_MIN, INT_MAX; dlia); dlia.
Qed.
End gettime.

(** A machine with a timer card in slot 2, whose clock moves on by 10 ns at each
    read until it stops at the end of time. *)
Module ClockExample.
Definition clock (w : Z) : Z := Z.max 0 (Z.min w (2147483648 * 1000000000 - 1)).

#[local] Instance clock_machine : Machine Z irqfunc := {
  mmio_read a w :=
    Done (if a =? LB_BASEADDR + 2 * LB_SLOT_SIZE + LT_REG_SEC then clock (w + 10) / 1000000000 else clock (w + 10) mod 1000000000, w + 10);
  mmio_write _ _ w := Done (tt, w);
  run_irq _ _ w := Done (tt, w);
}.

#[local,refine] Instance clock_laws : ClockLaws Z irqfunc := { clk_slot := 2; now := clock }.
Proof.
  - lia.
  - intros w. unfold clock. lia.
  - intros w. exists (w + 10). split; [done|unfold clock; lia].
  - intros w. exists (w + 10). split; [done|unfold clock; lia].
Defined.

(** Half past five, 4 ns before the second turns over. *)
Definition clock_bus : busst Z irqfunc := mkBus (mkLb 2147483648 (replicate 32 None) (replicate 32 None)) 0 0 19799999999986.
End ClockExample.
