(* ===== verification/Random.v ===== *)
(** * The random devices: dev/generic/random.c, pseudorand.c and lamebus/lrandom.c

    The generic device remembers one source, here the pseudorandom generator or
    the random card, and hands requests on to it.  The theorem is that the
    generator is the one of Park and Miller: the multiplication modulo 2^31-1 is
    computed without overflow, and a read through VFS delivers its bits. *)

From S2P Require Import Prelude Copyinout Uio Lamebus LbDev.

(** ** pseudorand.c *)

Definition MULTIPLIER : Z := 16807.
Definition MODULUS : Z := 2147483647.
Definition K1 : Z := 127773.
Definition K2 : Z := 2836.

(** The number and the new [ps_seed]; [hi], [lo] and [tmp] are 32-bit ints. *)
Definition pseudorand_random (ps_seed : Z) : outcome (Z * Z) :=
  let hi := s32 (ps_seed / K1) in
  let lo := s32 (ps_seed mod K1) in
  a ← to_int (MULTIPLIER * lo);
  b ← to_int (K2 * hi);
  tmp ← to_int (a - b);
  tmp ← (if tmp <=? 0 then to_int (tmp + MODULUS) else Done tmp);
  Done (u32 (u32 tmp - 1), u32 tmp).

Definition pseudorand_randmax : Z := MODULUS - 2.

Definition pseudoattach_pseudorand (mem : bool) : option Z := if mem then Some 305824 else None.

(** 24 of the bits. *)
Definition rand_bytes (val : Z) : list Z :=
  [Z.shiftr (Z.land val 4080) 4; Z.shiftr (Z.land val 1044480) 12; Z.shiftr (Z.land val 267386880) 20].

Section random.
Context {cs : CurSpace}.

Definition pseudorand_read (ps_seed : Z) (u : uio) : outcome (Z * Z * uio) :=
  while_loop (S (Z.to_nat (uio_resid u)))
    (λ '(seed, u),
       if uio_resid u >? 0 then
         '(val, seed) ← pseudorand_random seed;
         '(result, _, u) ← uiomove (rand_bytes val) 0 3 u;
         Done (if negb (result =? 0) then inr (result, seed, u) else inl (seed, u))
       else Done (inr (0, seed, u))) (ps_seed, u).

(** ** lrandom.c *)

Section lrandom.
Context {W : Type} `{!Machine W irqfunc}.

Definition LR_REG_RAND : Z := 0.
Definition LR_RANDMAX : Z := 4294967295.

Definition config_lrandom : Z := 0.
Definition lrandom_random (lr_buspos : Z) : stm (busst W irqfunc) Z := lamebus_read_register lr_buspos LR_REG_RAND.
Definition lrandom_randmax : Z := LR_RANDMAX.

(** The bytes of the union, most significant first. *)
Definition val_bytes (val : Z) : list Z :=
  [Z.shiftr val 24; Z.land (Z.shiftr val 16) 255; Z.land (Z.shiftr val 8) 255; Z.land val 255].

Definition lrandom_read (lr_buspos : Z) (u : uio) : stm (busst W irqfunc) (Z * uio) := λ b,
  '(r, u, b) ← while_loop (S (Z.to_nat (uio_resid u)))
    (λ '(u, b),
       if uio_resid u >? 0 then
         '(val, b) ← lrandom_random lr_buspos b;
         '(result, _, u) ← uiomove (val_bytes val) 0 4 u;
         Done (if negb (result =? 0) then inr (result, u, b) else inl (u, b))
       else Done (inr (0, u, b))) (u, b);
  Done (r, u, b).

(** ** random.c: one source for the kernel *)

(** struct random_softc: the source behind it. *)
Inductive random_softc := RsPseudo | RsCard (buspos : Z).

(** The sources: the seed and the bus. *)
Record rsrc := mkRsrc { r_seed : Z; r_bus : busst W irqfunc }.

Definition rs_random (rs : random_softc) : stm rsrc Z := λ s,
  match rs with
  | RsPseudo => '(v, seed) ← pseudorand_random (r_seed s); Done (v, mkRsrc seed (r_bus s))
  | RsCard slot => '(v, b) ← lrandom_random slot (r_bus s); Done (v, mkRsrc (r_seed s) b)
  end.
Definition rs_randmax (rs : random_softc) : Z :=
  match rs with RsPseudo => pseudorand_randmax | RsCard _ => lrandom_randmax end.
Definition rs_read (rs : random_softc) (u : uio) : stm rsrc (Z * uio) := λ s,
  match rs with
  | RsPseudo => '(r, seed, u) ← pseudorand_read (r_seed s) u; Done ((r, u), mkRsrc seed (r_bus s))
  | RsCard slot => '(ru, b) ← lrandom_read slot u (r_bus s); Done (ru, mkRsrc (r_seed s) b)
  end.

Definition attach_random_to_pseudorand (mem : bool) : option random_softc := if mem then Some RsPseudo else None.
Definition attach_random_to_lrandom (mem : bool) (slot : Z) : option random_softc := if mem then Some (RsCard slot) else None.

Definition O_RDONLY : Z := 0.
Definition randopen (openflags : Z) : Z := if negb (openflags =? O_RDONLY) then EIO else 0.
Definition randclose : Z := 0.
Definition randioctl (op data : Z) : Z := EIOCTL.
Definition randio (rs : random_softc) (u : uio) : stm rsrc (Z * uio) :=
  if decide (uio_rw_of u = UIO_READ) then rs_read rs u else mret (EIO, u).

(** [adddev] is the answer of [vfs_adddev]. *)
Definition config_random (the_random : option random_softc) (rs : random_softc) (unit adddev : Z) : outcome (Z * option random_softc) :=
  if negb (unit =? 0) then Done (ENODEV, the_random) else
  match the_random with
  | Some _ => Panic
  | None => Done (adddev, Some rs)
  end.

Definition random (the_random : option random_softc) : stm rsrc Z :=
  match the_random with None => lift Panic | Some rs => rs_random rs end.
Definition randmax (the_random : option random_softc) : outcome Z :=
  match the_random with None => Panic | Some rs => Done (rs_randmax rs) end.
End lrandom.

(** ** The generator *)

(** The sequence of Park and Miller. *)
Definition park_miller (seed : Z) : Z := (MULTIPLIER * seed) mod MODULUS.

Definition seed_ok (seed : Z) : Prop := 0 < seed < MODULUS.

Lemma park_miller_ok seed : seed_ok seed → seed_ok (park_miller seed).
Proof.
  unfold seed_ok, park_miller. intros Hs. pose proof (Z.mod_pos_bound (MULTIPLIER * seed) MODULUS ltac:(unfold MODULUS; lia)) as Hb.
  split; [|lia]. destruct (decide ((MULTIPLIER * seed) mod MODULUS = 0)) as [H0|]; [|lia].
  apply Z.mod_divide in H0; [|unfold MODULUS; lia]. apply Z.gauss in H0; [|done].
  apply Z.divide_pos_le in H0; lia.
Qed.

(** Schrage's method. *)
Lemma pseudorand_random_eq seed :
  seed_ok seed → pseudorand_random seed = Done (park_miller seed - 1, park_miller seed).
Proof.
  intros Hs. pose proof (park_miller_ok seed Hs) as Hok. unfold seed_ok, MODULUS in *. unfold pseudorand_random.
  assert (Hhi : 0 ≤ seed / K1 ≤ 16807) by (unfold K1; dlia). assert (Hlo : 0 ≤ seed mod K1 < 127773) by (apply Z.mod_pos_bound; done).
  rewrite !s32_small by (unfold INT_MIN, INT_MAX; lia).
  assert (Heq : seed = K1 * (seed / K1) + seed mod K1) by (apply Z.div_mod; done).
  set (hi := seed / K1) in *. set (lo := seed mod K1) in *.
  assert (Hti : ∀ z, INT_MIN ≤ z ≤ INT_MAX → to_int z = Done z).
  { intros z Hz. apply wp_eq. by apply wp_to_int. }
  unfold INT_MIN, INT_MAX in Hti. rewrite !Hti by (unfold MULTIPLIER, K2; lia). cbn [mbind outcome_bind].
  rewrite Hti by (unfold MULTIPLIER, K2; lia). cbn [mbind outcome_bind].
  assert (Hpm : park_miller seed = if MULTIPLIER * lo - K2 * hi <=? 0 then MULTIPLIER * lo - K2 * hi + MODULUS else MULTIPLIER * lo - K2 * hi).
  { unfold park_miller in *. unfold MULTIPLIER, K2, K1, MODULUS in *. destruct (Z.leb_spec (16807 * lo - 2836 * hi) 0).
    - rewrite Heq. replace (16807 * (127773 * hi + lo)) with (16807 * lo - 2836 * hi + 2147483647 + (hi - 1) * 2147483647) by lia.
      rewrite Z.mod_add, Z.mod_small by lia. done.
    - rewrite Heq. replace (16807 * (127773 * hi + lo)) with (16807 * lo - 2836 * hi + hi * 2147483647) by lia.
      rewrite Z.mod_add, Z.mod_small by lia. done. }
  destruct (Z.leb_spec (MULTIPLIER * lo - K2 * hi) 0).
  - rewrite Hti by (unfold MULTIPLIER, K2, MODULUS in *; lia). cbn [mbind outcome_bind]. rewrite <-Hpm, !u32_small; [done|lia..| |]; rewrite ?u32_small; lia.
  - cbn [mbind outcome_bind]. rewrite <-Hpm, !u32_small; [done|lia..| |]; rewrite ?u32_small; lia.
Qed.

(** The bytes that [n] numbers from a seed give, and the seed after them. *)
Fixpoint rand_stream (n : nat) (seed : Z) : list Z :=
  match n with O => [] | S n => rand_bytes (park_miller seed - 1) ++ rand_stream n (park_miller seed) end.

Fixpoint seed_after (n : nat) (seed : Z) : Z :=
  match n with O => seed | S n => seed_after n (park_miller seed) end.

(** A move of up to [n] bytes into a kernel buffer that ends before. *)
Lemma uiomove_short buf n mem pos off r :
  kuio_ok mem pos r off r → 0 < r → 0 < n ≤ Z.of_nat (length buf) →
  uiomove buf 0 n (kuio UIO_READ mem pos r off r) =
    let k := Z.min n r in
    Done (0, buf, kuio UIO_READ (buf_write mem pos (slice buf 0 k)) (pos + k) (r - k) (off + k) (r - k)).
Proof.
  intros Hok Hr Hn. cbn zeta. destruct (decide (n ≤ r)) as [Hle|Hgt].
  { rewrite Z.min_l by lia. apply (uiomove_kuio UIO_READ); [done|lia..]. }
  rewrite Z.min_r by lia. destruct Hok as (Hp & Hm & _ & Hl & Ho & Hmax). unfold uiomove, kuio at 1. simpl.
  assert ((n >? 0) && (r >? 0) = true) as -> by lia. assert ((r >? n) = false) as -> by lia.
  rewrite (proj2 (Z.eqb_neq r 0)) by lia. assert (Z.to_nat n = S (Z.to_nat (n - 1))) as Hfuel by lia.
  unfold uiomove_chunk. simpl. unfold INT_MAX in *. rewrite kmemcpy_wp by lia. simpl. rewrite Hfuel. simpl.
  rewrite Z.sub_diag, s32_small by (unfold INT_MIN, INT_MAX; lia). simpl. rewrite andb_false_r. done.
Qed.

Lemma pseudorand_read_eq n seed mem pos off r fuel :
  seed_ok seed → kuio_ok mem pos r off r → r ≤ 3 * Z.of_nat n → 3 * Z.of_nat n < r + 3 → (n < fuel)%nat →
  while_loop fuel
    (λ '(seed, u),
       if uio_resid u >? 0 then
         '(val, seed) ← pseudorand_random seed;
         '(result, _, u) ← uiomove (rand_bytes val) 0 3 u;
         Done (if negb (result =? 0) then inr (result, seed, u) else inl (seed, u))
       else Done (inr (0, seed, u))) (seed, kuio UIO_READ mem pos r off r) =
  Done (0, seed_after n seed, kuio UIO_READ (buf_write mem pos (take (Z.to_nat r) (rand_stream n seed))) (pos + r) 0 (off + r) 0).
Proof.
  revert seed mem pos off r fuel. induction n as [|n IH]; intros seed mem pos off r fuel Hs Hok Hr1 Hr2 Hf;
    (destruct fuel as [|fuel]; [lia|]); cbn [while_loop kuio uio_resid]; pose proof Hok as (Hp & Hm & Hr & Hl & Ho & Hmax).
  - assert (r = 0) as -> by lia. cbn. by rewrite !Z.add_0_r, buf_write_nil.
  - destruct (Z.gtb_spec r 0); [|lia]. rewrite pseudorand_random_eq by done. cbn [mbind outcome_bind].
    change (mkUio (KBase mem pos) r off r UIO_SYSSPACE UIO_READ None) with (kuio UIO_READ mem pos r off r).
    rewrite (uiomove_short _ 3) by (done || cbn; lia). cbn [mbind outcome_bind negb Z.eqb].
    set (k := Z.min 3 r). assert (Hk : Z.of_nat (length (slice (rand_bytes (park_miller seed - 1)) 0 k)) = k) by (apply length_slice; cbn; lia).
    rewrite IH; [|by apply park_miller_ok| |lia..].
    2:{ apply (kuio_ok_advance mem _ pos r off r); [done|lia|]. apply length_buf_write. lia. }
    cbn [seed_after rand_stream]. f_equal. f_equal.
    replace (pos + k + (r - k)) with (pos + r) by lia. replace (off + k + (r - k)) with (off + r) by lia. f_equal.
    set (x := slice (rand_bytes (park_miller seed - 1)) 0 k) in *.
    rewrite <-Hk at 1. rewrite buf_write_app by (rewrite ?length_take; lia). subst x.
    f_equal. unfold slice. change (Z.to_nat 0) with 0%nat. rewrite drop_0. rewrite take_app. f_equal; [|f_equal; cbn; lia].
    destruct (decide (r ≤ 3)); [f_equal; lia|]. rewrite !(take_ge (rand_bytes _)); [done|unfold rand_bytes; cbn [length]; subst k; lia..].
Qed.

(** [C39] The pseudorandom device.  From a seed between 1 and 2^31-2, as the one it
    starts with, [pseudorand_random] returns without overflow the next number of
    the sequence of Park and Miller (minus one), at most [randmax], and leaves such
    a seed; a read of the device fills the whole request with the 24 middle bits of
    the numbers that follow. *)
Theorem pseudorand_park_miller seed mem pos off r :
  seed_ok seed → kuio_ok mem pos r off r →
  let n := Z.to_nat ((r + 2) / 3) in
  pseudorand_random seed = Done (park_miller seed - 1, park_miller seed) ∧
  0 ≤ park_miller seed - 1 ≤ pseudorand_randmax ∧ seed_ok (park_miller seed) ∧
  pseudorand_read seed (kuio UIO_READ mem pos r off r) =
    Done (0, seed_after n seed, kuio UIO_READ (buf_write mem pos (take (Z.to_nat r) (rand_stream n seed))) (pos + r) 0 (off + r) 0).
Proof.
  intros Hs Hok n. pose proof (park_miller_ok seed Hs) as Hpm. pose proof Hok as (_ & _ & Hr & _).
  split_and!; [by apply pseudorand_random_eq|unfold seed_ok, pseudorand_randmax in *; lia..|apply Hpm|].
  apply pseudorand_read_eq; [done..| | |]; cbn [kuio uio_resid]; subst n; dlia.
Qed.
End random.

Lemma pseudorand_park_miller_witness :
  pseudorand_random 305824 = Done (park_miller 305824 - 1, park_miller 305824) ∧
  0 ≤ park_miller 305824 - 1 ≤ pseudorand_randmax ∧ seed_ok (park_miller 305824) ∧
  pseudorand_read (cs := None) 305824 (kuio UIO_READ (replicate 8 0) 1 5 0 5) =
    Done (0, seed_after 2 305824, kuio UIO_READ (buf_write (replicate 8 0) 1 (take 5 (rand_stream 2 305824))) 6 0 5 0).
Proof.
  apply (pseudorand_park_miller (cs := None) 305824 (replicate 8 0) 1 0 5); [unfold seed_ok, MODULUS; lia|].
  unfold kuio_ok, INT_MAX. cbn. lia.
Defined.
