(* ===== verification/Console.v ===== *)
(** * The console: dev/generic/console.c over dev/lamebus/lser.c

    The serial card is a parameter, known by its registers.  Output goes to the
    card by interrupts, or by polling when interrupts are off; the two must not
    get in each other's way.  The driver functions are run here by any number of
    threads and interrupt handlers: a step is what one of them does between two
    points where another can come in ([P] that succeeds, one driver call, one
    interrupt), and the theorem is about every sequence of steps. *)

From S2P Require Import Prelude.

Definition LSER_REG_CHAR : Z := 0.
Definition LSER_REG_WIRQ : Z := 4.
Definition LSER_REG_RIRQ : Z := 8.
Definition LSER_IRQ_ENABLE : Z := 1.
Definition LSER_IRQ_ACTIVE : Z := 2.
Definition DELAYBUFSIZE : Z := 1024.

(** The serial card: its registers, the passing of time, and a bound on the number
    of reads of the status register that a character takes. *)
Class SerHw (W : Type) := {
  reg_read : Z → W → Z * W;
  reg_write : Z → Z → W → W;
  hw_wait : W → W;
  polls : nat;
}.

(** struct lser_softc and struct con_softc, attached to each other, with the
    semaphores by their counts, the interrupt level, the static variables of
    console.c and the card. *)
Record con (W : Type) := mkCon {
  ls_wbusy : Z;
  cs_rsem : Z;
  cs_wsem : Z;
  cs_gotchar : Z;
  c_spl : Z;
  c_inint : Z;
  the_console : bool;
  delayed_outbuf : list Z;
  c_w : W;
}.
Arguments mkCon {W} _ _ _ _ _ _ _ _ _.
Arguments ls_wbusy {W} _.
Arguments cs_rsem {W} _.
Arguments cs_wsem {W} _.
Arguments cs_gotchar {W} _.
Arguments c_spl {W} _.
Arguments c_inint {W} _.
Arguments the_console {W} _.
Arguments delayed_outbuf {W} _.
Arguments c_w {W} _.

Section console.
Context {W : Type} `{!SerHw W}.
Implicit Types c : con W.

Definition set_wbusy (b : Z) : stm (con W) unit :=
  modify (λ c, mkCon b (cs_rsem c) (cs_wsem c) (cs_gotchar c) (c_spl c) (c_inint c) (the_console c) (delayed_outbuf c) (c_w c)).
Definition set_rsem (n : Z) : stm (con W) unit :=
  modify (λ c, mkCon (ls_wbusy c) n (cs_wsem c) (cs_gotchar c) (c_spl c) (c_inint c) (the_console c) (delayed_outbuf c) (c_w c)).
Definition set_wsem (n : Z) : stm (con W) unit :=
  modify (λ c, mkCon (ls_wbusy c) (cs_rsem c) n (cs_gotchar c) (c_spl c) (c_inint c) (the_console c) (delayed_outbuf c) (c_w c)).
Definition set_gotchar (ch : Z) : stm (con W) unit :=
  modify (λ c, mkCon (ls_wbusy c) (cs_rsem c) (cs_wsem c) ch (c_spl c) (c_inint c) (the_console c) (delayed_outbuf c) (c_w c)).
Definition set_level (s : Z) : stm (con W) unit :=
  modify (λ c, mkCon (ls_wbusy c) (cs_rsem c) (cs_wsem c) (cs_gotchar c) s (c_inint c) (the_console c) (delayed_outbuf c) (c_w c)).
Definition set_delayed (l : list Z) : stm (con W) unit :=
  modify (λ c, mkCon (ls_wbusy c) (cs_rsem c) (cs_wsem c) (cs_gotchar c) (c_spl c) (c_inint c) (the_console c) l (c_w c)).
Definition set_w (w : W) c : con W :=
  mkCon (ls_wbusy c) (cs_rsem c) (cs_wsem c) (cs_gotchar c) (c_spl c) (c_inint c) (the_console c) (delayed_outbuf c) w.

Definition raise_level : stm (con W) Z := s ← gets c_spl; set_level 15;; mret s.
Definition bus_read_register (reg : Z) : stm (con W) Z := λ c,
  let '(v, w) := reg_read reg (c_w c) in Done (v, set_w w c).
Definition bus_write_register (reg v : Z) : stm (con W) unit := modify (λ c, set_w (reg_write reg v (c_w c)) c).

(** ** Upcalls of the card's driver: console.c *)

Definition con_start : stm (con W) unit := n ← gets cs_wsem; n ← lift (to_int (n + 1)); set_wsem n.
Definition con_input (ch : Z) : stm (con W) unit := set_gotchar ch;; n ← gets cs_rsem; n ← lift (to_int (n + 1)); set_rsem n.

(** ** lser.c *)

Definition active (x : Z) : bool := negb (Z.land x LSER_IRQ_ACTIVE =? 0).

Definition lser_irq : stm (con W) unit :=
  spl ← gets c_spl;
  lift (kassert (spl >? 0));;
  x ← bus_read_register LSER_REG_WIRQ;
  clear_to_write ← (if active x then
                      set_wbusy 0;; bus_write_register LSER_REG_WIRQ LSER_IRQ_ENABLE;; mret true
                    else mret false);
  x ← bus_read_register LSER_REG_RIRQ;
  got_a_read ← (if active x then
                  ch ← bus_read_register LSER_REG_CHAR;
                  bus_write_register LSER_REG_RIRQ LSER_IRQ_ENABLE;;
                  mret (Some ch)
                else mret None);
  (if clear_to_write : bool then con_start else mret tt);;
  match got_a_read with Some ch => con_input (s32 ch) | None => mret tt end.

Definition lser_write (ch : Z) : stm (con W) unit :=
  spl ← raise_level;
  busy ← gets ls_wbusy;
  if negb (busy =? 0) then lift Panic else
  set_wbusy 1;;
  bus_write_register LSER_REG_CHAR (u32 ch);;
  set_level spl.

(** The loop; it reads at most [polls + 2] times. *)
Definition spin : stm (con W) unit := λ c,
  while_loop (S (S polls))
    (λ c, '(val, c) ← bus_read_register LSER_REG_WIRQ c;
          Done (if Z.land val LSER_IRQ_ACTIVE =? 0 then inl c else inr (tt, c))) c.

Definition lser_spin_until_write : stm (con W) unit :=
  spl ← gets c_spl;
  lift (kassert (spl >? 0));;
  spin.

Definition lser_writepolled (ch : Z) : stm (con W) unit :=
  spl ← raise_level;
  busy ← gets ls_wbusy;
  irqpending ← (if negb (busy =? 0) then
                  lser_spin_until_write;; bus_write_register LSER_REG_WIRQ LSER_IRQ_ENABLE;; mret true
                else mret false);
  bus_write_register LSER_REG_CHAR (u32 ch);;
  lser_spin_until_write;;
  (if irqpending : bool then mret tt else bus_write_register LSER_REG_WIRQ LSER_IRQ_ENABLE);;
  set_level spl.

Definition config_lser : stm (con W) Z :=
  set_wbusy 0;;
  bus_write_register LSER_REG_RIRQ LSER_IRQ_ENABLE;;
  bus_write_register LSER_REG_WIRQ LSER_IRQ_ENABLE;;
  mret 0.

(** ** console.c: output and input of characters *)

(** An [int] stored into a [char], which is signed. *)
Definition to_char (ch : Z) : Z := let b := Z.land ch 255 in if b <? 128 then b else b - 256.

Definition putch_delayed (ch : Z) : stm (con W) unit :=
  l ← gets delayed_outbuf;
  lift (kassert (Z.of_nat (length l) <? DELAYBUFSIZE));;
  set_delayed (l ++ [to_char ch]).

Definition putch_polled (ch : Z) : stm (con W) unit := lser_writepolled ch.

(** An interrupt of the card while a thread waits. *)
Definition interrupt : stm (con W) unit :=
  modify (λ c, set_w (hw_wait (c_w c)) c);;
  spl ← raise_level; lser_irq;; set_level spl.

(** [P]: when the count is 0 the thread sleeps until an interrupt of the card has
    raised it; [fuel] bounds the number of interrupts. *)
Fixpoint sem_P (fuel : nat) (get : con W → Z) (set : Z → stm (con W) unit) : stm (con W) unit :=
  n ← gets get;
  if n >? 0 then set (n - 1) else
  match fuel with O => lift NoFuel | S fuel => interrupt;; sem_P fuel get set end.

Definition putch_intr (ch : Z) : stm (con W) unit := sem_P 1 cs_wsem set_wsem;; lser_write ch.
Definition getch_intr (fuel : nat) : stm (con W) Z := sem_P fuel cs_rsem set_rsem;; gets cs_gotchar.

Definition putch (ch : Z) : stm (con W) unit :=
  c ← gets id;
  if negb (the_console c) then putch_delayed ch
  else if negb (c_inint c =? 0) || (c_spl c >? 0) then putch_polled ch
  else putch_intr ch.

Definition getch (fuel : nat) : stm (con W) Z :=
  c ← gets id;
  lift (kassert (the_console c));;
  lift (kassert ((c_inint c =? 0) && (c_spl c =? 0)));;
  getch_intr fuel.

Fixpoint putchs (l : list Z) : stm (con W) unit :=
  match l with [] => mret tt | ch :: l => putch ch;; putchs l end.

Definition flush_delay_buf : stm (con W) unit := l ← gets delayed_outbuf; putchs l;; set_delayed [].

(** [mem] says whether the four allocations succeed, [adddev] is what making the
    VFS device gives. *)
Definition config_con (unit : Z) (mem : list bool) (adddev : Z) : stm (con W) Z :=
  there ← gets the_console;
  if unit >? 0 then lift (kassert there);; mret ENODEV else
  lift (kassert (negb there));;
  if negb (forallb id mem) then mret ENOMEM else
  modify (λ c, mkCon (ls_wbusy c) 0 1 0 (c_spl c) (c_inint c) true (delayed_outbuf c) (c_w c));;
  flush_delay_buf;;
  mret adddev.
End console.

(** ** The card *)

(** The transmitter is idle, busy for some reads of its status register yet, or
    done and asking for an interrupt. *)
Inductive wstate := WIdle | WSending (n : nat) | WDone.

Definition wnext (x : wstate) : wstate :=
  match x with WSending (S n) => WSending n | WSending O => WDone | x => x end.

Definition is_done (x : wstate) : bool := match x with WDone => true | _ => false end.

(** The documented behaviour: what is written to the character register when the
    transmitter is not busy is sent; when it has been sent the active bit of the
    write status is set, until the status register is written; the other registers
    have nothing to do with the transmitter. *)
Class SerLaws (W : Type) `{!SerHw W} := {
  sent : W → list Z;
  wst : W → wstate;
  wst_bound w n : wst w = WSending n → (n ≤ polls)%nat;
  send_char w v : (∀ n, wst w ≠ WSending n) →
    sent (reg_write LSER_REG_CHAR v w) = sent w ++ [v] ∧ ∃ n, wst (reg_write LSER_REG_CHAR v w) = WSending n;
  read_wirq w : let '(x, w') := reg_read LSER_REG_WIRQ w in
    active x = is_done (wst w') ∧ sent w' = sent w ∧ wst w' = wnext (wst w);
  clear_wirq w : sent (reg_write LSER_REG_WIRQ LSER_IRQ_ENABLE w) = sent w ∧
    wst (reg_write LSER_REG_WIRQ LSER_IRQ_ENABLE w) = match wst w with WDone => WIdle | x => x end;
  read_other w reg : reg ≠ LSER_REG_WIRQ → let '(_, w') := reg_read reg w in sent w' = sent w ∧ wst w' = wst w;
  write_rirq w v : sent (reg_write LSER_REG_RIRQ v w) = sent w ∧ wst (reg_write LSER_REG_RIRQ v w) = wst w;
  wait_sends w : sent (hw_wait w) = sent w ∧ wst (hw_wait w) = match wst w with WSending _ => WDone | x => x end;
}.

(** ** Every interleaving *)

Section interleaving.
Context {W : Type} `{!SerHw W} `{!SerLaws W}.
Implicit Types (c : con W) (l : list Z).

(** The console and the characters of the threads that have passed [P(cs_wsem)]
    and have not called [cs_send] yet. *)
Record conf := mkConf { cf_con : con W; cf_ready : list Z }.

(** Time passes: the transmitter gets on with its character. *)
Definition elapses (w w' : W) : Prop :=
  sent w' = sent w ∧ (wst w' = wst w ∨ ∃ n, wst w = WSending n ∧ (wst w' = WDone ∨ ∃ m, (m ≤ n)%nat ∧ wst w' = WSending m)).

(** One step, with the characters it hands to the card.  There are never 2^31
    characters that nobody has read. *)
Inductive cstep : conf → list Z → conf → Prop :=
| step_pass c r ch :
    cs_wsem c > 0 →
    cstep (mkConf c r) [] (mkConf (mkCon (ls_wbusy c) (cs_rsem c) (cs_wsem c - 1) (cs_gotchar c) (c_spl c) (c_inint c) (the_console c) (delayed_outbuf c) (c_w c)) (r ++ [ch]))
| step_send c c' r r' ch :
    lser_write ch c = Done (tt, c') → cstep (mkConf c (r ++ ch :: r')) [u32 ch] (mkConf c' (r ++ r'))
| step_polled c c' r ch :
    putch_polled ch c = Done (tt, c') → cstep (mkConf c r) [u32 ch] (mkConf c' r)
| step_irq c c' r :
    cs_rsem c < INT_MAX →
    (spl ← raise_level; lser_irq;; set_level spl) c = Done (tt, c') → cstep (mkConf c r) [] (mkConf c' r)
| step_input c c' r :
    sem_P 0 cs_rsem set_rsem c = Done (tt, c') → cstep (mkConf c r) [] (mkConf c' r)
| step_time c r w :
    elapses (c_w c) w → cstep (mkConf c r) [] (mkConf (set_w w c) r).

Inductive csteps : conf → list Z → conf → Prop :=
| csteps_refl x : csteps x [] x
| csteps_next x l y l' z : csteps x l y → cstep y l' z → csteps x (l ++ l') z.

(** What the driver keeps: the semaphore, the threads that have passed it and the
    character in the card make one. *)
Definition con_inv (x : conf) : Prop :=
  let c := cf_con x in
  the_console c = true ∧ 0 ≤ cs_wsem c ∧ 0 ≤ cs_rsem c ∧ (ls_wbusy c = 0 ∨ ls_wbusy c = 1) ∧
  cs_wsem c + Z.of_nat (length (cf_ready x)) + ls_wbusy c = 1 ∧
  (if ls_wbusy c =? 0 then wst (c_w c) = WIdle else wst (c_w c) ≠ WIdle).

(** What output leaves alone. *)
Definition same_input c c' : Prop :=
  cs_rsem c' = cs_rsem c ∧ cs_gotchar c' = cs_gotchar c ∧ c_spl c' = c_spl c ∧ c_inint c' = c_inint c ∧
  the_console c' = the_console c ∧ delayed_outbuf c' = delayed_outbuf c.

Lemma lser_write_wp c ch :
  ls_wbusy c = 0 → wst (c_w c) = WIdle →
  swp (lser_write ch) c (λ _ c', same_input c c' ∧ cs_wsem c' = cs_wsem c ∧ ls_wbusy c' = 1 ∧
    sent (c_w c') = sent (c_w c) ++ [u32 ch] ∧ ∃ n, wst (c_w c') = WSending n).
Proof.
  intros Hb Hw. unfold lser_write, raise_level. apply swp_bind, swp_bind, swp_gets, swp_bind, swp_modify, swp_ret, swp_bind, swp_gets.
  cbn [ls_wbusy]. rewrite Hb. cbn [Z.eqb negb].
  apply swp_bind, swp_modify, swp_bind, swp_modify, swp_modify. unfold set_w. cbn. unfold same_input. cbn.
  destruct (send_char (c_w c) (u32 ch)) as [Hs Hn]; [by rewrite Hw|]. split_and!; done.
Qed.

(** Spinning brings a busy transmitter to its end. *)
Lemma spin_wp c : wst (c_w c) ≠ WIdle →
  swp spin c (λ _ c', ∃ w', c' = set_w w' c ∧ sent w' = sent (c_w c) ∧ wst w' = WDone).
Proof.
  intros Hw. unfold swp, spin.
  set (m := λ x, match wst (c_w x) with WSending n => Z.of_nat n + 1 | _ => 0 end : Z).
  apply (wp_while_loop (λ x, (∃ w', x = set_w w' c ∧ sent w' = sent (c_w c)) ∧ wst (c_w x) ≠ WIdle) _ m).
  - split; [|done]. exists (c_w c). split; [by destruct c|done].
  - unfold m. destruct (wst (c_w c)) as [|n|] eqn:E; [done| |lia]. pose proof (wst_bound _ _ E). lia.
  - intros x _. unfold m. destruct (wst (c_w x)); lia.
  - intros x [(w' & -> & Hs) Hx]. unfold bus_read_register. cbn [set_w c_w] in *. pose proof (read_wirq w') as Hr.
    destruct (reg_read LSER_REG_WIRQ w') as [v w2]. destruct Hr as (Ha & Hs2 & Hn). cbn [mbind outcome_bind].
    unfold active in Ha. destruct (Z.land v LSER_IRQ_ACTIVE =? 0); cbn [negb] in Ha; cbn.
    + split; [split; [by exists w2; split; [|congruence]|]|]; unfold m; cbn; rewrite Hn in *; destruct (wst w') as [|[|n]|]; cbn in *; done || lia.
    + exists w2. split_and!; [done|congruence|]. by destruct (wst w2).
Qed.

Lemma lser_spin_wp c : 0 < c_spl c → wst (c_w c) ≠ WIdle →
  swp lser_spin_until_write c (λ _ c', ∃ w', c' = set_w w' c ∧ sent w' = sent (c_w c) ∧ wst w' = WDone).
Proof.
  intros Hs Hw. unfold lser_spin_until_write. apply swp_bind, swp_gets, swp_bind, swp_kassert; [by apply Z.gtb_lt|].
  by apply spin_wp.
Qed.

Lemma lser_writepolled_wp c ch :
  (if ls_wbusy c =? 0 then wst (c_w c) = WIdle else wst (c_w c) ≠ WIdle) →
  swp (lser_writepolled ch) c (λ _ c', same_input c c' ∧ cs_wsem c' = cs_wsem c ∧ ls_wbusy c' = ls_wbusy c ∧
    sent (c_w c') = sent (c_w c) ++ [u32 ch] ∧ wst (c_w c') = if ls_wbusy c =? 0 then WIdle else WDone).
Proof.
  intros Hinv. unfold lser_writepolled, raise_level. apply swp_bind, swp_bind, swp_gets, swp_bind, swp_modify, swp_ret, swp_bind, swp_gets.
  cbn [ls_wbusy]. destruct (ls_wbusy c =? 0) eqn:Eb; cbn [negb].
  - apply swp_bind, swp_ret, swp_bind, swp_modify, swp_bind.
    destruct (send_char (c_w c) (u32 ch)) as [Hs [n Hn]]; [by rewrite Hinv|].
    eapply swp_mono; [apply lser_spin_wp; [done|cbn; by rewrite Hn]|]. intros _ ? (w' & -> & Hs' & Hw'). cbn in Hs', Hw'.
    apply swp_bind, swp_modify, swp_modify. unfold same_input. cbn.
    destruct (clear_wirq w') as [-> ->]. rewrite Hw', Hs', Hs. done.
  - apply swp_bind, swp_bind. eapply swp_mono; [apply lser_spin_wp; done|]. intros _ ? (w1 & -> & Hs1 & Hw1). cbn in Hs1.
    apply swp_bind, swp_modify, swp_ret, swp_bind, swp_modify, swp_bind. cbn.
    destruct (clear_wirq w1) as [Hs2 Hw2]. rewrite Hw1 in Hw2.
    destruct (send_char (reg_write LSER_REG_WIRQ LSER_IRQ_ENABLE w1) (u32 ch)) as [Hs3 [n Hn]]; [by rewrite Hw2|].
    eapply swp_mono; [apply lser_spin_wp; [done|cbn; by rewrite Hn]|]. intros _ ? (w' & -> & Hs' & Hw'). cbn in Hs', Hw'.
    apply swp_bind, swp_ret, swp_modify. unfold same_input. cbn. split_and!; try done. congruence.
Qed.

(** What an interrupt does to the output side. *)
Definition irq_post c c' : Prop :=
  let d := is_done (wnext (wst (c_w c))) in
  c_spl c' = c_spl c ∧ c_inint c' = c_inint c ∧ the_console c' = the_console c ∧ delayed_outbuf c' = delayed_outbuf c ∧
  cs_rsem c ≤ cs_rsem c' ≤ cs_rsem c + 1 ∧ cs_wsem c' = (if d then cs_wsem c + 1 else cs_wsem c) ∧ ls_wbusy c' = (if d then 0 else ls_wbusy c) ∧
  sent (c_w c') = sent (c_w c) ∧ wst (c_w c') = if d then WIdle else wnext (wst (c_w c)).

Lemma read_rirq_wp c (Q : Z → con W → Prop) reg :
  reg ≠ LSER_REG_WIRQ → (∀ v w', sent w' = sent (c_w c) → wst w' = wst (c_w c) → Q v (set_w w' c)) → swp (bus_read_register reg) c Q.
Proof.
  intros Hne HQ. unfold swp, bus_read_register. pose proof (read_other (c_w c) reg Hne) as Hr.
  destruct (reg_read reg (c_w c)) as [v w']. destruct Hr. by apply HQ.
Qed.

(** The second half of the handler: input, and the upcalls. *)
Definition irq_input (clear : bool) : stm (con W) unit :=
  x ← bus_read_register LSER_REG_RIRQ;
  got_a_read ← (if active x then
                  ch ← bus_read_register LSER_REG_CHAR;
                  bus_write_register LSER_REG_RIRQ LSER_IRQ_ENABLE;;
                  mret (Some ch)
                else mret None);
  (if clear then con_start else mret tt);;
  match got_a_read with Some ch => con_input (s32 ch) | None => mret tt end.

Lemma irq_input_wp clear c :
  0 ≤ cs_rsem c < INT_MAX → 0 ≤ cs_wsem c < INT_MAX →
  swp (irq_input clear) c (λ _ c', c_spl c' = c_spl c ∧ c_inint c' = c_inint c ∧ the_console c' = the_console c ∧
    delayed_outbuf c' = delayed_outbuf c ∧ cs_rsem c ≤ cs_rsem c' ≤ cs_rsem c + 1 ∧ cs_wsem c' = (if clear then cs_wsem c + 1 else cs_wsem c) ∧
    ls_wbusy c' = ls_wbusy c ∧ sent (c_w c') = sent (c_w c) ∧ wst (c_w c') = wst (c_w c)).
Proof.
  intros Hr Hw. unfold irq_input. apply swp_bind, read_rirq_wp; [done|]. intros x w1 Hs1 Hw1. apply swp_bind.
  set (c1 := set_w w1 c).
  assert (swp (if active x then ch ← bus_read_register LSER_REG_CHAR; bus_write_register LSER_REG_RIRQ LSER_IRQ_ENABLE;; mret (Some ch) else mret None) c1
    (λ _ c2, ∃ w2, c2 = set_w w2 c ∧ sent w2 = sent (c_w c) ∧ wst w2 = wst (c_w c))) as Hin.
  { destruct (active x); [|apply swp_ret; exists w1; done]. apply swp_bind, read_rirq_wp; [done|]. intros ch w2 Hs2 Hw2.
    apply swp_bind, swp_modify, swp_ret. cbn. eexists. split; [done|]. destruct (write_rirq w2 LSER_IRQ_ENABLE) as [-> ->].
    split; [rewrite Hs2|rewrite Hw2]; done. }
  eapply swp_mono; [exact Hin|]. intros got c2 (w2 & -> & Hs2 & Hw2). apply swp_bind.
  assert (Hti : ∀ z (Q : Z → Prop), 0 ≤ z < INT_MAX → Q (z + 1) → wp (to_int (z + 1)) Q) by (intros; apply wp_to_int; [unfold INT_MIN in *; lia|done]).
  destruct clear.
  - unfold con_start. apply swp_bind, swp_gets, swp_bind, swp_lift, Hti; [done|]. apply swp_modify. destruct got as [ch|]; cbn.
    + unfold con_input. apply swp_bind, swp_modify, swp_bind, swp_gets, swp_bind, swp_lift, Hti; [done|]. apply swp_modify. cbn. split_and!; done || lia.
    + apply swp_ret. cbn. split_and!; done || lia.
  - apply swp_ret. destruct got as [ch|]; cbn.
    + unfold con_input. apply swp_bind, swp_modify, swp_bind, swp_gets, swp_bind, swp_lift, Hti; [done|]. apply swp_modify. cbn. split_and!; done || lia.
    + apply swp_ret. cbn. split_and!; done || lia.
Qed.

Lemma interrupt_wp c :
  0 ≤ cs_rsem c < INT_MAX → 0 ≤ cs_wsem c < INT_MAX →
  swp (spl ← raise_level; lser_irq;; set_level spl) c (λ _ c', irq_post c c').
Proof.
  intros Hr Hw. unfold raise_level. apply swp_bind, swp_bind, swp_gets, swp_bind, swp_modify, swp_ret, swp_bind.
  unfold lser_irq. apply swp_bind, swp_gets, swp_bind, swp_kassert; [done|]. apply swp_bind. unfold swp at 1, bus_read_register at 1. cbn [c_w].
  pose proof (read_wirq (c_w c)) as Hrd. destruct (reg_read LSER_REG_WIRQ (c_w c)) as [x w1]. destruct Hrd as (Ha & Hs1 & Hw1).
  cbn [wp]. apply swp_bind. rewrite Ha, Hw1. destruct (is_done (wnext (wst (c_w c)))) eqn:Ed.
  - apply swp_bind, swp_modify, swp_bind, swp_modify, swp_ret. eapply swp_mono; [apply (irq_input_wp true); done|].
    intros _ c' (? & ? & ? & ? & ? & ? & ? & Hs' & Hw'). apply swp_modify. unfold irq_post. rewrite Ed. cbn in *.
    destruct (clear_wirq w1) as [E1 E2]. rewrite E1 in Hs'. rewrite E2 in Hw'. split_and!; try (done || lia); [congruence|].
    rewrite Hw', Hw1. by destruct (wnext _).
  - apply swp_ret. eapply swp_mono; [apply (irq_input_wp false); done|].
    intros _ c' (? & ? & ? & ? & ? & ? & ? & Hs' & Hw'). apply swp_modify. unfold irq_post. rewrite Ed. cbn in *. split_and!; try (done || lia); congruence.
Qed.

Lemma con_inv_irq c c' r : con_inv (mkConf c r) → irq_post c c' → con_inv (mkConf c' r).
Proof.
  intros (Hc & Hw & Hr & Hb & Hsum & Hst) (E1 & E2 & E3 & E4 & E5 & E6 & E7 & E8 & E9). unfold con_inv. cbn [cf_con cf_ready] in *.
  rewrite E3, E6, E7, E9. destruct Hb as [Hb|Hb]; rewrite Hb in *; cbn [Z.eqb] in *.
  - rewrite Hst. cbn. split_and!; (done || lia || auto).
  - destruct (is_done (wnext (wst (c_w c)))) eqn:Ed; cbn [Z.eqb]; split_and!; try (done || lia || auto).
    by destruct (wst (c_w c)) as [|[|n]|].
Qed.

Lemma con_inv_time c r w : con_inv (mkConf c r) → elapses (c_w c) w → con_inv (mkConf (set_w w c) r).
Proof.
  intros (Hc & Hw & Hr & Hb & Hsum & Hst) (_ & He). unfold con_inv. cbn [cf_con cf_ready set_w the_console cs_wsem cs_rsem ls_wbusy c_w] in *.
  split_and!; try done. destruct (ls_wbusy c =? 0).
  - destruct He as [->|(n & He & _)]; [done|congruence].
  - destruct He as [->|(n & _ & [->|(m & _ & ->)])]; done.
Qed.

Lemma cstep_inv x l y : con_inv x → cstep x l y → con_inv y ∧ sent (c_w (cf_con y)) = sent (c_w (cf_con x)) ++ l.
Proof.
  intros Hinv Hst. pose proof Hinv as (Hc & Hw & Hr & Hb & Hsum & Hws).
  destruct Hst as [c r ch Hp|c c' r r' ch E|c c' r ch E|c c' r Hmax E|c c' r E|c r w He]; cbn [cf_con cf_ready] in *.
  - rewrite app_nil_r. split; [|done]. unfold con_inv. cbn [cf_con cf_ready] in *. cbn. rewrite length_app. cbn. split_and!; (done || lia || auto).
  - rewrite length_app in Hsum. cbn in Hsum. assert (ls_wbusy c = 0) as Hb0 by lia. rewrite Hb0 in Hws. cbn in Hws.
    pose proof (lser_write_wp c ch Hb0 Hws) as H. unfold swp in H. rewrite E in H. cbn in H.
    destruct H as ((E1 & _ & _ & _ & E2 & _) & E3 & E4 & E5 & n & E6). split; [|done]. unfold con_inv. cbn [cf_con cf_ready]. rewrite E1, E2, E3, E4, E6, length_app.
    cbn. split_and!; (done || lia || auto).
  - pose proof (lser_writepolled_wp c ch Hws) as H. unfold putch_polled in E. unfold swp in H. rewrite E in H. cbn in H.
    destruct H as ((E1 & _ & _ & _ & E2 & _) & E3 & E4 & E5 & E6). split; [|done]. unfold con_inv. cbn [cf_con cf_ready]. rewrite E1, E2, E3, E4, E6.
    destruct (ls_wbusy c =? 0); split_and!; (done || lia || auto).
  - pose proof (interrupt_wp c) as H. unfold swp in H. rewrite E in H. specialize (H ltac:(lia) ltac:(unfold INT_MAX; lia)). cbn [wp] in H.
    rewrite app_nil_r. split; [by eapply con_inv_irq|]. by destruct H as (_ & _ & _ & _ & _ & _ & _ & ? & _).
  - unfold sem_P, mbind, stm_bind, gets in E. cbn in E. destruct (Z.gtb_spec (cs_rsem c) 0); [|done]. injection E as <-.
    rewrite app_nil_r. split; [|done]. unfold con_inv. cbn. split_and!; (done || lia || auto).
  - rewrite app_nil_r. split; [by apply con_inv_time|]. by destruct He.
Qed.

Lemma csteps_inv x l y : con_inv x → csteps x l y → con_inv y ∧ sent (c_w (cf_con y)) = sent (c_w (cf_con x)) ++ l.
Proof.
  intros Hinv. induction 1 as [x|x l y l' z Hs IH Hst]; [by rewrite app_nil_r|]. destruct (IH Hinv) as [Hy Ey].
  destruct (cstep_inv _ _ _ Hy Hst) as [Hz Ez]. split; [done|]. by rewrite Ez, Ey, app_assoc.
Qed.

(** Nobody is stuck: a thread past [P] can send, polling always works, and while
    all wait for the card its interrupt lets the next one through. *)
Definition con_progress (x : conf) : Prop :=
  let c := cf_con x in
  (∀ ch, ch ∈ cf_ready x → ∃ c', lser_write ch c = Done (tt, c')) ∧
  (∀ ch, ∃ c', putch_polled ch c = Done (tt, c')) ∧
  (cs_rsem c < INT_MAX → cs_wsem c = 0 → cf_ready x = [] → swp interrupt c (λ _ c', cs_wsem c' = 1)).

Lemma wait_elapses w : elapses w (hw_wait w).
Proof. destruct (wait_sends w) as [Hs Hw]. split; [done|]. rewrite Hw. destruct (wst w) as [|n|]; [by left| |by left]. right. eauto. Qed.

Lemma con_inv_progress x : con_inv x → con_progress x.
Proof.
  destruct x as [c r]. intros Hinv. pose proof Hinv as (Hc & Hw & Hr & Hb & Hsum & Hws). unfold con_progress. cbn [cf_con cf_ready] in *. split_and!.
  - intros ch Hch. destruct r as [|x r]; [by apply elem_of_nil in Hch|]. cbn in Hsum.
    assert (ls_wbusy c = 0) as Hb0 by lia. rewrite Hb0 in Hws. cbn in Hws.
    pose proof (lser_write_wp c ch Hb0 Hws) as H. apply swp_Done in H as ([] & c' & H & _). eauto.
  - intros ch. pose proof (lser_writepolled_wp c ch Hws) as H. apply swp_Done in H as ([] & c' & H & _). eauto.
  - intros Hmax Hw0 ->. cbn in Hsum. assert (Hb1 : ls_wbusy c = 1) by lia. unfold interrupt. apply swp_bind, swp_modify.
    eapply swp_mono; [apply interrupt_wp; cbn; unfold INT_MAX in *; lia|].
    intros _ c' (_ & _ & _ & _ & _ & Hw' & _). cbn in Hw'. rewrite Hw', Hw0. rewrite Hb1 in Hws. cbn in Hws.
    destruct (wait_sends (c_w c)) as [_ ->]. by destruct (wst (c_w c)).
Qed.

(** Printing one character while no other thread does. *)
Lemma send_wp c ch :
  con_inv (mkConf c [ch]) → swp (lser_write ch) c (λ _ c', con_inv (mkConf c' []) ∧ same_input c c' ∧ sent (c_w c') = sent (c_w c) ++ [u32 ch]).
Proof.
  intros Hinv. pose proof Hinv as (_ & ? & _ & Hb & Hsum & Hws). cbn in Hsum, Hws, Hb. assert (ls_wbusy c = 0) as Hb0 by (cbn in *; lia).
  rewrite Hb0 in Hws. cbn in Hws. eapply swp_mono; [apply swp_eq, lser_write_wp; done|]. intros [] c' (E & Hi & _ & _ & Hs & _).
  split_and!; [|apply Hi|done..]. apply (cstep_inv _ _ _ Hinv (step_send c c' [] [] ch E)).
Qed.

Definition printed (l : list Z) c c' : Prop :=
  con_inv (mkConf c' []) ∧ cs_rsem c' ≤ cs_rsem c + Z.of_nat (length l) ∧ c_spl c' = c_spl c ∧ c_inint c' = c_inint c ∧
  delayed_outbuf c' = delayed_outbuf c ∧ sent (c_w c') = sent (c_w c) ++ (u32 <$> l).

Definition passed c : con W :=
  mkCon (ls_wbusy c) (cs_rsem c) (cs_wsem c - 1) (cs_gotchar c) (c_spl c) (c_inint c) (the_console c) (delayed_outbuf c) (c_w c).

Lemma send_passed_wp c c1 ch :
  con_inv (mkConf c1 []) → 0 < cs_wsem c1 → cs_rsem c1 ≤ cs_rsem c + 1 → c_spl c1 = c_spl c → c_inint c1 = c_inint c →
  delayed_outbuf c1 = delayed_outbuf c → sent (c_w c1) = sent (c_w c) →
  swp (lser_write ch) (passed c1) (λ _ c', printed [ch] c c').
Proof.
  intros Hinv Hp E1 E2 E3 E4 E5. destruct (cstep_inv _ _ _ Hinv (step_pass c1 [] ch ltac:(lia))) as [Hp' _].
  eapply swp_mono; [apply send_wp; exact Hp'|]. intros [] c' (Hc' & (F1 & F2 & F3 & F4 & F5 & F6) & Hs). cbn in *.
  unfold printed. cbn. split_and!; [done|lia|congruence..].
Qed.

Lemma putch_wp c ch : con_inv (mkConf c []) → cs_rsem c < INT_MAX → swp (putch ch) c (λ _ c', printed [ch] c c').
Proof.
  intros Hinv Hmax. pose proof Hinv as (Hc & Hw & Hr & Hb & Hsum & Hws). cbn [cf_con cf_ready length] in *.
  unfold putch. apply swp_bind, swp_gets. unfold id. rewrite Hc. cbn [negb].
  destruct (negb (c_inint c =? 0) || (c_spl c >? 0)).
  - eapply swp_mono; [apply swp_eq, (lser_writepolled_wp c ch Hws)|]. intros [] c' (E & (F1 & F2 & F3 & F4 & F5 & F6) & _ & _ & Hs & _).
    destruct (cstep_inv _ _ _ Hinv (step_polled c c' [] ch E)) as [Hc' _]. unfold printed. cbn. split_and!; [done|lia|done..].
  - unfold putch_intr. apply swp_bind. cbn [sem_P]. apply swp_bind, swp_gets. destruct (Z.gtb_spec (cs_wsem c) 0).
    { apply swp_modify, (send_passed_wp c c); done || lia. }
    apply swp_bind. unfold interrupt. apply swp_bind, swp_modify. set (c1 := set_w (hw_wait (c_w c)) c).
    assert (Hc1 : con_inv (mkConf c1 [])) by (apply con_inv_time; [done|apply wait_elapses]).
    eapply swp_mono; [apply interrupt_wp; cbn; unfold INT_MAX in *; lia|]. intros [] c2 Hirq.
    assert (Hc2 : con_inv (mkConf c2 [])) by (by eapply con_inv_irq).
    destruct Hirq as (G1 & G2 & G3 & G4 & G5 & G6 & G7 & G8 & G9). cbn in G1, G2, G3, G4, G5, G6, G8. destruct (wait_sends (c_w c)) as [Hws1 Hws2].
    assert (Hw2 : cs_wsem c2 = 1).
    { rewrite G6, Hws2. assert (Hb1 : ls_wbusy c = 1) by lia. rewrite Hb1 in Hws. cbn in Hws. destruct (wst (c_w c)); cbn; done || lia. }
    apply swp_bind, swp_gets. destruct (Z.gtb_spec (cs_wsem c2) 0); [|lia]. apply swp_modify.
    apply (send_passed_wp c c2); done || lia || congruence.
Qed.

Lemma putchs_wp l c :
  con_inv (mkConf c []) → cs_rsem c + Z.of_nat (length l) ≤ INT_MAX → swp (putchs l) c (λ _ c', printed l c c').
Proof.
  revert c. induction l as [|ch l IH]; intros c Hinv Hmax; cbn [putchs].
  { apply swp_ret. unfold printed. cbn. rewrite app_nil_r. split_and!; done || lia. }
  cbn [length] in Hmax. apply swp_bind. eapply swp_mono; [apply putch_wp; [done|lia]|].
  intros [] c1 (Hc1 & H1 & H2 & H3 & H4 & H5). cbn in H1. eapply swp_mono; [apply IH; [done|lia]|].
  intros [] c2 (Hc2 & G1 & G2 & G3 & G4 & G5). unfold printed. split_and!; [done|cbn; lia|congruence..|].
  by rewrite G5, H5, <-app_assoc.
Qed.

(** Before the console is there its output is kept, as characters. *)
Lemma putch_delays c ch :
  the_console c = false → Z.of_nat (length (delayed_outbuf c)) < DELAYBUFSIZE →
  swp (putch ch) c (λ _ c', delayed_outbuf c' = delayed_outbuf c ++ [to_char ch] ∧ the_console c' = false ∧ c_w c' = c_w c).
Proof.
  intros Hc Hl. unfold putch. apply swp_bind, swp_gets. unfold id. rewrite Hc. cbn [negb]. unfold putch_delayed.
  apply swp_bind, swp_gets, swp_bind, swp_kassert; [by apply Z.ltb_lt|]. by apply swp_modify.
Qed.

(** [C17] Console output.  Once [config_con] has found memory, everything that was
    printed before is on the serial line.  From then on, whatever threads print by
    interrupts and whatever anybody prints by polling, with interrupts of the card
    and input in between, and however their steps are interleaved: the line carries
    exactly the characters that were handed to the card, in this order; the driver
    never finds the card busy when it must not be, polling ends, and when all
    threads wait, the interrupt of the card lets the next one through. *)
Theorem console_output_in_order c0 mem adddev :
  the_console c0 = false → ls_wbusy c0 = 0 → wst (c_w c0) = WIdle → forallb id mem = true →
  Z.of_nat (length (delayed_outbuf c0)) ≤ DELAYBUFSIZE →
  swp (config_con 0 mem adddev) c0 (λ r c1, r = adddev ∧ delayed_outbuf c1 = [] ∧
    ∀ l x, csteps (mkConf c1 []) l x →
      sent (c_w (cf_con x)) = sent (c_w c0) ++ (u32 <$> delayed_outbuf c0) ++ l ∧ con_progress x).
Proof.
  intros Hc Hb Hw Hm Hl. unfold config_con. apply swp_bind, swp_gets. cbn [Z.gtb Z.compare]. rewrite Hc, Hm.
  apply swp_bind, swp_kassert; [done|]. cbn [negb]. apply swp_bind, swp_modify. unfold flush_delay_buf.
  apply swp_bind, swp_bind, swp_gets, swp_bind. cbn [delayed_outbuf].
  eapply swp_mono; [apply putchs_wp|].
  - unfold con_inv. cbn. rewrite Hb. cbn. split_and!; (done || lia || auto).
  - cbn. unfold DELAYBUFSIZE, INT_MAX in *. lia.
  - intros [] c1 (Hc1 & _ & _ & _ & _ & Hs). apply swp_modify, swp_ret. split; [done|]. split; [done|]. intros l x Hx.
    eapply csteps_inv in Hx as [Hinv Hsent]; [|exact Hc1].
    split; [|by apply con_inv_progress]. rewrite Hsent. cbn [cf_con c_w]. rewrite Hs. cbn [c_w delayed_outbuf]. by rewrite <-app_assoc.
Qed.
End interleaving.

(** A serial card that needs two reads of its status register per character. *)
Module ConExample.
Inductive transmitter := TIdle | TBusy2 | TBusy1 | TDone.
Record card := mkCard { k_sent : list Z; k_t : transmitter }.

Definition t_next (t : transmitter) : transmitter := match t with TBusy2 => TBusy1 | TBusy1 => TDone | t => t end.
Definition t_wst (t : transmitter) : wstate := match t with TIdle => WIdle | TBusy2 => WSending 1 | TBusy1 => WSending 0 | TDone => WDone end.

#[local] Instance card_hw : SerHw card := {
  reg_read reg w :=
    if reg =? LSER_REG_WIRQ then
      (match t_next (k_t w) with TDone => 3 | _ => 1 end, mkCard (k_sent w) (t_next (k_t w)))
    else (1, w);
  reg_write reg v w :=
    if reg =? LSER_REG_CHAR then match k_t w with TBusy2 | TBusy1 => w | _ => mkCard (k_sent w ++ [v]) TBusy2 end
    else if reg =? LSER_REG_WIRQ then mkCard (k_sent w) (match k_t w with TDone => TIdle | t => t end)
    else w;
  hw_wait w := mkCard (k_sent w) (match k_t w with TIdle => TIdle | _ => TDone end);
  polls := 1;
}.

#[local,refine] Instance card_laws : SerLaws card := { sent := k_sent; wst w := t_wst (k_t w) }.
Proof.
  - intros w n. cbn. destruct (k_t w); cbn; intros [=]; lia.
  - intros w v Hn. cbn. destruct (k_t w); cbn in *; (split; [done|by eexists]) || by destruct (Hn _ eq_refl).
  - intros w. cbn. by destruct (k_t w).
  - intros w. cbn. by destruct (k_t w).
  - intros w reg Hr. cbn. by rewrite (proj2 (Z.eqb_neq _ _) Hr).
  - intros w v. done.
  - intros w. cbn. by destruct (k_t w).
Defined.

(** The boot message is waiting when the console is found. *)
Definition boot_con : con card := mkCon 0 0 0 0 15 0 false [79; 83; 10] (mkCard [] TIdle).

Lemma console_output_in_order_witness :
  swp (config_con 0 [true; true; true; true] 0) boot_con (λ r c1, r = 0 ∧ delayed_outbuf c1 = [] ∧
    ∀ l x, csteps (mkConf c1 []) l x →
      k_sent (c_w (cf_con x)) = [] ++ (u32 <$> [79; 83; 10]) ++ l ∧ con_progress x).
Proof. refine (console_output_in_order boot_con [true; true; true; true] 0 _ _ _ _ _); [done..|]. cbn. unfold DELAYBUFSIZE. lia. Defined.
End ConExample.
