(* ===== verification/Tty.v ===== *)
(** * Users of the console: con_io of dev/generic/console.c, and lib/kgets.c

    They go through [putch], [getch] and [beep], an interface with its laws: what is
    put comes out in order, what is got are the characters typed, in order.  The
    console driver keeps the law of [putch] (file Console); that of [getch] holds as
    long as nobody types faster than the kernel reads, since the driver has no
    buffer for input. *)

From S2P Require Import Prelude Copyinout Uio.

Class Tty (T : Type) := {
  putch : Z → stm T unit;
  getch : stm T Z;
  beep : stm T unit;
}.

Class TtyLaws (T : Type) `{!Tty T} := {
  tout : T → list Z;
  tin : T → list Z;
  putch_law t ch : swp (putch ch) t (λ _ t', tout t' = tout t ++ [ch] ∧ tin t' = tin t);
  getch_law t ch l : tin t = ch :: l → swp getch t (λ r t', r = ch ∧ tout t' = tout t ∧ tin t' = l);
  beep_law t : swp beep t (λ _ t', tout t' = tout t ∧ tin t' = tin t);
}.

Definition BS : Z := 8.
Definition LF : Z := 10.
Definition CR : Z := 13.

Section tty.
Context {T : Type} `{!Tty T}.

Fixpoint puts (l : list Z) : stm T unit := match l with [] => mret tt | ch :: l => putch ch;; puts l end.

(** ** kgets.c *)

Definition backsp : stm T unit := putch BS;; putch 32;; putch BS.

(** Erasing while [p] holds of the last character; the length of the line after. *)
Fixpoint erase (n : nat) (p : Z → bool) (buf : list Z) (pos : Z) : stm T Z :=
  match n with
  | O => mret pos
  | S n =>
      if pos >? 0 then
        ch ← lift (arr_get buf (pos - 1));
        if p ch then backsp;; erase n p buf (pos - 1) else mret pos
      else mret pos
  end.

(** The string in the buffer, for the reprint. *)
Fixpoint cstring (l : list Z) : outcome (list Z) :=
  match l with [] => Undef | c :: l => if c =? 0 then Done [] else s ← cstring l; Done (c :: s) end.

(** One character: the buffer and the length, or the end of the line. *)
Definition kgets_char (maxlen : Z) (buf : list Z) (pos : Z) : stm T (list Z * Z + list Z * Z) :=
  ch ← getch;
  if (ch =? LF) || (ch =? CR) then putch LF;; mret (inr (buf, pos)) else
  if (32 <=? ch) && (ch <? 127) && (pos <? u32 (maxlen - 1)) then
    putch ch;; buf ← lift (arr_set buf pos ch); mret (inl (buf, pos + 1))
  else if ((ch =? BS) || (ch =? 127)) && (pos >? 0) then backsp;; mret (inl (buf, pos - 1))
  else if ch =? 3 then puts [94; 67; LF];; mret (inr (buf, 0))
  else if ch =? 18 then
    buf ← lift (arr_set buf pos 0);
    s ← lift (cstring buf);
    puts ([94; 82; LF] ++ s);;
    mret (inl (buf, pos))
  else if ch =? 21 then pos ← erase (Z.to_nat pos) (λ _, true) buf pos; mret (inl (buf, pos))
  else if ch =? 23 then
    pos ← erase (Z.to_nat pos) (λ c, c =? 32) buf pos;
    pos ← erase (Z.to_nat pos) (λ c, negb (c =? 32)) buf pos;
    mret (inl (buf, pos))
  else beep;; mret (inl (buf, pos)).

(** [fuel] bounds the number of characters typed. *)
Fixpoint kgets_loop (fuel : nat) (maxlen : Z) (buf : list Z) (pos : Z) : stm T (list Z * Z) :=
  match fuel with
  | O => lift NoFuel
  | S fuel =>
      r ← kgets_char maxlen buf pos;
      match r with inl (buf, pos) => kgets_loop fuel maxlen buf pos | inr x => mret x end
  end.

Definition kgets (fuel : nat) (buf : list Z) (maxlen : Z) : stm T (list Z) :=
  '(buf, pos) ← kgets_loop fuel maxlen buf 0;
  lift (arr_set buf pos 0).

(** ** console.c: the VFS device *)

Definition con_open (openflags : Z) : Z := 0.
Definition con_close : Z := 0.
Definition con_ioctl (op data : Z) : Z := EINVAL.

(** The locks make the I/O of a thread atomic. *)
Definition con_io {cs : CurSpace} (u : uio) : stm T (Z * uio) := λ t,
  '(r, u, t) ← while_loop (S (Z.to_nat (uio_resid u)))
    (λ '(u, t),
       if uio_resid u >? 0 then
         if decide (uio_rw_of u = UIO_READ) then
           '(ch, t) ← getch t;
           let ch := if ch =? CR then LF else ch in
           '(result, _, u) ← uiomove [ch] 0 1 u;
           if negb (result =? 0) then Done (inr (result, u, t)) else
           if ch =? LF then Done (inr (0, u, t)) else Done (inl (u, t))
         else
           '(result, b, u) ← uiomove [0] 0 1 u;
           if negb (result =? 0) then Done (inr (result, u, t)) else
           ch ← arr_get b 0;
           '(_, t) ← (if ch =? LF then putch CR t else Done (tt, t));
           '(_, t) ← putch ch t;
           Done (inl (u, t))
       else Done (inr (0, u, t))) (u, t);
  Done ((r, u), t).
End tty.

(** ** The line editor *)

(** The line typed so far, and what a character does to it: [inr] ends the line. *)
Fixpoint lstrip (p : Z → bool) (l : list Z) : list Z := match l with [] => [] | c :: l' => if p c then lstrip p l' else l end.
Definition rstrip (p : Z → bool) (l : list Z) : list Z := reverse (lstrip p (reverse l)).

Definition edit (maxlen : Z) (line : list Z) (ch : Z) : list Z + list Z :=
  if (ch =? LF) || (ch =? CR) then inr line
  else if (32 <=? ch) && (ch <? 127) && (Z.of_nat (length line) <? maxlen - 1) then inl (line ++ [ch])
  else if ((ch =? BS) || (ch =? 127)) && (Z.of_nat (length line) >? 0) then inl (take (length line - 1) line)
  else if ch =? 3 then inr []
  else if ch =? 21 then inl []
  else if ch =? 23 then inl (rstrip (λ c, negb (c =? 32)) (rstrip (λ c, c =? 32) line))
  else inl line.

(** The line that a sequence of characters makes, and what is typed after it. *)
Fixpoint typed_line (maxlen : Z) (line : list Z) (keys : list Z) : option (list Z * list Z) :=
  match keys with
  | [] => None
  | ch :: keys => match edit maxlen line ch with inl line => typed_line maxlen line keys | inr line => Some (line, keys) end
  end.

Lemma rstrip_snoc p l c : rstrip p (l ++ [c]) = if p c then rstrip p l else l ++ [c].
Proof. unfold rstrip. rewrite reverse_snoc. cbn [lstrip]. destruct (p c); [done|]. by rewrite reverse_cons, reverse_involutive. Qed.

Lemma rstrip_all l : rstrip (λ _, true) l = [].
Proof. induction l as [|c l IH] using rev_ind; [done|]. by rewrite rstrip_snoc. Qed.

Lemma rstrip_prefix p l : rstrip p l `prefix_of` l.
Proof.
  induction l as [|c l IH] using rev_ind; [by exists []|]. rewrite rstrip_snoc. destruct (p c); [|done].
  etrans; [exact IH|]. by exists [c].
Qed.

Section kgets.
Context {T : Type} `{!Tty T} `{!TtyLaws T}.
Implicit Types (t : T) (buf line : list Z).

Lemma puts_wp l t : swp (puts l) t (λ _ t', tout t' = tout t ++ l ∧ tin t' = tin t).
Proof.
  revert t. induction l as [|ch l IH]; intros t; cbn [puts]; [apply swp_ret; by rewrite app_nil_r|].
  apply swp_bind. eapply swp_mono; [apply putch_law|]. intros [] t1 [H1 H2].
  eapply swp_mono; [apply IH|]. intros [] t2 [-> ->]. rewrite H1, <-app_assoc. done.
Qed.

(** What the terminal is asked for does not change what is typed. *)
Lemma putch_tin ch t (Q : unit → T → Prop) : (∀ t', tin t' = tin t → Q tt t') → swp (putch ch) t Q.
Proof. intros HQ. eapply swp_mono; [apply putch_law|]. intros [] t' [_ H]. by apply HQ. Qed.

Lemma backsp_tin t (Q : unit → T → Prop) : (∀ t', tin t' = tin t → Q tt t') → swp backsp t Q.
Proof.
  intros HQ. unfold backsp. apply swp_bind, putch_tin. intros t1 H1. apply swp_bind, putch_tin. intros t2 H2.
  apply putch_tin. intros t3 H3. apply HQ. congruence.
Qed.

(** The buffer holds the line. *)
Definition holds buf line : Prop := take (length line) buf = line ∧ (length line ≤ length buf)%nat.

Lemma holds_prefix buf line line' : holds buf line → line' `prefix_of` line → holds buf line'.
Proof.
  intros [Ht Hl] [k ->]. split; [|rewrite length_app in Hl; lia].
  apply (f_equal (take (length line'))) in Ht. rewrite take_take, take_app_length, Nat.min_l in Ht by (rewrite length_app; lia). done.
Qed.

Lemma holds_last buf line c : holds buf (line ++ [c]) → arr_get buf (Z.of_nat (length line)) = Done c.
Proof.
  intros [Ht Hl]. rewrite length_app in Hl. cbn in Hl. apply arr_get_Some; [lia|]. rewrite Nat2Z.id.
  rewrite <-(lookup_take_lt _ (length (line ++ [c]))) by (rewrite length_app; cbn; lia). rewrite Ht. by rewrite list_lookup_middle.
Qed.

Lemma erase_wp p buf line t (Q : Z → T → Prop) :
  holds buf line → (∀ t', tin t' = tin t → Q (Z.of_nat (length (rstrip p line))) t') →
  swp (erase (length line) p buf (Z.of_nat (length line))) t Q.
Proof.
  revert t. induction line as [|c line IH] using rev_ind; intros t Hh HQ; [by apply swp_ret, HQ|].
  rewrite length_app, Nat.add_comm. cbn [length Nat.add erase]. destruct (Z.gtb_spec (Z.of_nat (S (length line))) 0); [|lia].
  replace (Z.of_nat (S (length line)) - 1) with (Z.of_nat (length line)) by lia.
  apply swp_bind, swp_lift. rewrite (holds_last _ _ _ Hh). apply wp_done. rewrite rstrip_snoc in HQ. destruct (p c).
  - apply swp_bind, backsp_tin. intros t1 H1. apply IH; [by eapply holds_prefix; [exact Hh|exists [c]]|]. intros t' H'. apply HQ. congruence.
  - apply swp_ret. rewrite length_app, Nat.add_comm in HQ. by apply HQ.
Qed.

Lemma cstring_line line l : Forall (λ c, c ≠ 0) line → cstring (line ++ 0 :: l) = Done line.
Proof. induction 1 as [|c line Hc _ IH]; cbn; [done|]. rewrite (proj2 (Z.eqb_neq _ _) Hc), IH. done. Qed.

(** Storing a character at the end of the line. *)
Lemma holds_set buf line c :
  holds buf line → (length line < length buf)%nat →
  arr_set buf (Z.of_nat (length line)) c = Done (<[length line := c]> buf) ∧ holds (<[length line := c]> buf) (line ++ [c]) ∧
  <[length line := c]> buf = line ++ c :: drop (S (length line)) buf.
Proof.
  intros [Ht Hl] Hlt. assert (E : <[length line := c]> buf = line ++ c :: drop (S (length line)) buf).
  { rewrite insert_take_drop by done. by rewrite Ht. }
  split_and!; [rewrite arr_set_in, Nat2Z.id by lia; done| |done]. split; [|rewrite length_insert, length_app; cbn; lia].
  rewrite E, length_app. replace (line ++ c :: drop (S (length line)) buf) with ((line ++ [c]) ++ drop (S (length line)) buf) by (by rewrite <-app_assoc).
  rewrite <-length_app. by rewrite take_app_length.
Qed.

Definition line_ok (maxlen : Z) buf0 buf line : Prop :=
  holds buf line ∧ length buf = length buf0 ∧ Z.of_nat (length line) < maxlen ∧ Forall (λ c, c ≠ 0) line ∧
  drop (Z.to_nat maxlen) buf = drop (Z.to_nat maxlen) buf0.

Lemma line_ok_prefix maxlen buf0 buf line line' : line_ok maxlen buf0 buf line → line' `prefix_of` line → line_ok maxlen buf0 buf line'.
Proof.
  intros (Hh & Hl & Hm & Hf & Hd) Hp. pose proof (prefix_length _ _ Hp). split_and!; [by eapply holds_prefix|done|lia| |done].
  destruct Hp as [k ->]. by apply Forall_app in Hf as [? _].
Qed.

Lemma line_ok_set maxlen buf0 buf line c :
  line_ok maxlen buf0 buf line → maxlen ≤ Z.of_nat (length buf0) →
  arr_set buf (Z.of_nat (length line)) c = Done (<[length line := c]> buf) ∧ line_ok maxlen buf0 (<[length line := c]> buf) line ∧
  <[length line := c]> buf = line ++ c :: drop (S (length line)) buf ∧
  (c ≠ 0 → Z.of_nat (length line) < maxlen - 1 → line_ok maxlen buf0 (<[length line := c]> buf) (line ++ [c])).
Proof.
  intros (Hh & Hl & Hm & Hf & Hd) Hmax. destruct (holds_set buf line c Hh ltac:(lia)) as (E & Hh' & E').
  assert (Hd' : drop (Z.to_nat maxlen) (<[length line := c]> buf) = drop (Z.to_nat maxlen) buf0) by (rewrite drop_insert_lt by lia; done).
  split_and!; [done| |done|].
  - split_and!; [by eapply holds_prefix; [exact Hh'|exists [c]]|by rewrite length_insert|done..].
  - intros Hc Hlt. split_and!; [done|by rewrite length_insert|rewrite length_app; cbn; lia|apply Forall_app; auto|done].
Qed.

Lemma kgets_char_wp maxlen buf0 buf line t ch keys :
  1 ≤ maxlen ≤ Z.of_nat (length buf0) → maxlen < 4294967296 → line_ok maxlen buf0 buf line → tin t = ch :: keys →
  swp (kgets_char maxlen buf (Z.of_nat (length line))) t (λ r t', tin t' = keys ∧
    match r, edit maxlen line ch with
    | inl (buf', pos'), inl line' => pos' = Z.of_nat (length line') ∧ line_ok maxlen buf0 buf' line'
    | inr (buf', pos'), inr line' => pos' = Z.of_nat (length line') ∧ line_ok maxlen buf0 buf' line'
    | _, _ => False
    end).
Proof.
  intros Hmax Hm32 Hok Hin. unfold kgets_char, edit. apply swp_bind. eapply swp_mono; [by apply getch_law|]. intros r t1 (-> & _ & Ht1).
  destruct ((ch =? LF) || (ch =? CR)).
  { apply swp_bind, putch_tin. intros t2 H2. apply swp_ret. split; [congruence|done]. }
  rewrite u32_small by lia. destruct ((32 <=? ch) && (ch <? 127) && (Z.of_nat (length line) <? maxlen - 1)) eqn:E1.
  { apply andb_true_iff in E1 as [[E1 _]%andb_true_iff E2%Z.ltb_lt]. apply Z.leb_le in E1.
    apply swp_bind, putch_tin. intros t2 H2. destruct (line_ok_set maxlen buf0 buf line ch Hok ltac:(lia)) as (Es & _ & _ & Hok').
    apply swp_bind, swp_lift. rewrite Es. apply wp_done, swp_ret. split; [congruence|]. rewrite length_app. cbn. split; [lia|apply Hok'; lia]. }
  destruct (((ch =? BS) || (ch =? 127)) && (Z.of_nat (length line) >? 0)) eqn:E3.
  { apply andb_true_iff in E3 as [_ E3%Z.gtb_lt]. apply swp_bind, backsp_tin. intros t2 H2. apply swp_ret. split; [congruence|].
    rewrite length_take. split; [lia|]. eapply line_ok_prefix; [exact Hok|]. apply prefix_take. }
  destruct (ch =? 3).
  { apply swp_bind. eapply swp_mono; [apply puts_wp|]. intros [] t2 [_ H2]. apply swp_ret. split; [congruence|]. split; [done|].
    eapply line_ok_prefix; [exact Hok|]. apply prefix_nil. }
  destruct (ch =? 18) eqn:E4.
  { assert ((ch =? 21) = false ∧ (ch =? 23) = false) as [-> ->] by lia.
    destruct (line_ok_set maxlen buf0 buf line 0 Hok ltac:(lia)) as (Es & Hok' & Eb & _).
    apply swp_bind, swp_lift. rewrite Es. apply wp_done, swp_bind, swp_lift. rewrite Eb, cstring_line by apply Hok. apply wp_done.
    apply swp_bind. eapply swp_mono; [apply puts_wp|]. intros [] t2 [_ H2]. apply swp_ret. split; [congruence|]. split; [done|]. by rewrite <-Eb. }
  rewrite Nat2Z.id. destruct (ch =? 21).
  { apply swp_bind, erase_wp; [apply Hok|]. intros t2 H2. apply swp_ret. split; [congruence|].
    rewrite rstrip_all.
    split; [done|]. eapply line_ok_prefix; [exact Hok|]. apply prefix_nil. }
  destruct (ch =? 23).
  { apply swp_bind, erase_wp; [apply Hok|]. intros t2 H2. rewrite Nat2Z.id. set (l1 := rstrip (λ c, c =? 32) line).
    assert (Hok1 : line_ok maxlen buf0 buf l1) by (eapply line_ok_prefix; [exact Hok|apply rstrip_prefix]).
    apply swp_bind, erase_wp; [apply Hok1|]. intros t3 H3. apply swp_ret. split; [congruence|]. split; [done|].
    eapply line_ok_prefix; [exact Hok1|apply rstrip_prefix]. }
  apply swp_bind. eapply swp_mono; [apply beep_law|]. intros [] t2 [_ H2]. apply swp_ret. split; [congruence|done].
Qed.

Lemma kgets_loop_wp maxlen buf0 keys buf line t line' rest :
  1 ≤ maxlen ≤ Z.of_nat (length buf0) → maxlen < 4294967296 → line_ok maxlen buf0 buf line → tin t = keys →
  typed_line maxlen line keys = Some (line', rest) →
  swp (kgets_loop (S (length keys)) maxlen buf (Z.of_nat (length line))) t (λ '(buf', pos) t',
    tin t' = rest ∧ pos = Z.of_nat (length line') ∧ line_ok maxlen buf0 buf' line').
Proof.
  intros Hmax Hm32. revert buf line t. induction keys as [|ch keys IH]; intros buf line t Hok Hin Ht; [done|].
  cbn [length]. remember (S (length keys)) as fuel eqn:Ef. cbn [kgets_loop]. apply swp_bind.
  eapply swp_mono; [by apply kgets_char_wp|]. intros r t1 [Ht1 Hr]. cbn [typed_line] in Ht. destruct (edit maxlen line ch) as [l1|l1].
  - destruct r as [[b1 p1]|[b1 p1]]; [|done]. destruct Hr as [-> Hok1]. subst fuel. by apply IH.
  - destruct r as [[b1 p1]|[b1 p1]]; [done|]. destruct Hr as [-> Hok1]. injection Ht as -> ->. by apply swp_ret.
Qed.

(** [C19] Reading a line.  Whatever is typed up to the end of a line, [kgets] stores
    nothing outside the [maxlen] bytes of its buffer, reads no character past the
    end of the line, and leaves the line in the buffer, terminated, that the
    editing keys make of the characters: backspace, control-C, control-U and
    control-W as in [typed_line]; characters that do not fit are refused. *)
Theorem kgets_reads_line t buf maxlen keys line rest :
  1 ≤ maxlen ≤ Z.of_nat (length buf) → maxlen < 4294967296 → tin t = keys → typed_line maxlen [] keys = Some (line, rest) →
  swp (kgets (S (length keys)) buf maxlen) t (λ buf' t', tin t' = rest ∧ length buf' = length buf ∧
    Z.of_nat (length line) < maxlen ∧ take (S (length line)) buf' = line ++ [0] ∧
    drop (Z.to_nat maxlen) buf' = drop (Z.to_nat maxlen) buf).
Proof.
  intros Hmax Hm32 Hin Ht. unfold kgets. apply swp_bind. eapply swp_mono.
  { apply (kgets_loop_wp maxlen buf keys buf []); [done..| |done|exact Ht]. split_and!; [split; [done|cbn; lia]|done|cbn; lia|constructor|done]. }
  intros [buf' pos] t' (Ht' & -> & Hok). destruct (line_ok_set maxlen buf buf' line 0 Hok ltac:(lia)) as (Es & Hok' & Eb & _).
  apply swp_lift. rewrite Es. apply wp_done. destruct Hok' as (_ & Hl' & Hm' & _ & Hd'). split_and!; try done.
  rewrite Eb. replace (line ++ 0 :: drop (S (length line)) buf') with ((line ++ [0]) ++ drop (S (length line)) buf') by (by rewrite <-app_assoc).
  apply take_app_length'. rewrite length_app. cbn. lia.
Qed.
End kgets.

(** ** I/O on the console device *)

(** Output with a carriage return before every newline. *)
Definition crlf (l : list Z) : list Z := flat_map (λ c, if c =? LF then [CR; LF] else [c]) l.

(** The line a reader gets: up to [n] characters, up to and with the newline; a
    carriage return counts as one.  What is typed after it. *)
Fixpoint input_line (n : nat) (keys : list Z) : option (list Z * list Z) :=
  match n, keys with
  | O, _ => Some ([], keys)
  | S n, [] => None
  | S n, ch :: keys =>
      let ch := if ch =? CR then LF else ch in
      if ch =? LF then Some ([LF], keys)
      else '(l, r) ← input_line n keys; Some (ch :: l, r)
  end.

Section con_io.
Context {T : Type} `{!Tty T} `{!TtyLaws T} {cs : CurSpace}.
Implicit Types t : T.

(** The loop, on a kernel buffer. *)
Definition con_loop (fuel : nat) (u : uio) t : outcome (Z * uio * T) :=
  while_loop fuel
    (λ '(u, t),
       if uio_resid u >? 0 then
         if decide (uio_rw_of u = UIO_READ) then
           '(ch, t) ← getch t;
           let ch := if ch =? CR then LF else ch in
           '(result, _, u) ← uiomove [ch] 0 1 u;
           if negb (result =? 0) then Done (inr (result, u, t)) else
           if ch =? LF then Done (inr (0, u, t)) else Done (inl (u, t))
         else
           '(result, b, u) ← uiomove [0] 0 1 u;
           if negb (result =? 0) then Done (inr (result, u, t)) else
           ch ← arr_get b 0;
           '(_, t) ← (if ch =? LF then putch CR t else Done (tt, t));
           '(_, t) ← putch ch t;
           Done (inl (u, t))
       else Done (inr (0, u, t))) (u, t).

Lemma con_write_loop n mem pos off t :
  kuio_ok mem pos (Z.of_nat n) off (Z.of_nat n) →
  wp (con_loop (S n) (kuio UIO_WRITE mem pos (Z.of_nat n) off (Z.of_nat n)) t) (λ '(r, u, t'),
    r = 0 ∧ u = kuio UIO_WRITE mem (pos + Z.of_nat n) 0 (off + Z.of_nat n) 0 ∧
    tout t' = tout t ++ crlf (slice mem pos (Z.of_nat n)) ∧ tin t' = tin t).
Proof.
  unfold con_loop. revert pos off t. induction n as [|n IH]; intros pos off t Hok; pose proof Hok as (Hp & Hm & Hr & Hl & Ho & Hmax).
  { cbn. rewrite !Z.add_0_r, app_nil_r. done. }
  remember (S n) as fuel. cbn [while_loop]. subst fuel. cbn [kuio uio_resid uio_rw_of]. destruct (Z.gtb_spec (Z.of_nat (S n)) 0); [|lia].
  change (mkUio (KBase mem pos) (Z.of_nat (S n)) off (Z.of_nat (S n)) UIO_SYSSPACE UIO_WRITE None) with (kuio UIO_WRITE mem pos (Z.of_nat (S n)) off (Z.of_nat (S n))).
  rewrite decide_False by done. rewrite uiomove_kuio by (done || cbn; lia). cbn [mbind outcome_bind negb Z.eqb].
  destruct (lookup_lt_is_Some_2 mem (Z.to_nat pos)) as [ch Hch]; [lia|].
  assert (Hs1 : slice mem pos 1 = [ch]) by (unfold slice; change (Z.to_nat 1) with 1%nat; by rewrite (drop_S _ ch) by done).
  rewrite Hs1. change (arr_get (buf_write [0] 0 [ch]) 0) with (Done ch). cbn [mbind outcome_bind].
  replace (Z.of_nat (S n) - 1) with (Z.of_nat n) by lia.
  assert (Hcr : wp (if ch =? LF then putch CR t else Done (tt, t)) (λ '(_, t1), tout t1 = tout t ++ (if ch =? LF then [CR] else []) ∧ tin t1 = tin t)).
  { destruct (ch =? LF); [apply putch_law|]. cbn. by rewrite app_nil_r. }
  apply wp_bind, wp_bind. eapply wp_mono; [exact Hcr|]. intros [_ t1] [Ho1 Hi1].
  apply wp_bind. eapply wp_mono; [apply (putch_law t1 ch)|]. intros [_ t2] [Ho2 Hi2]. apply wp_done.
  eapply wp_mono; [apply (IH (pos + 1) (off + 1) t2)|].
  { pose proof (kuio_ok_advance mem mem pos _ off _ 1 Hok ltac:(lia) eq_refl) as H'. by replace (Z.of_nat (S n) - 1) with (Z.of_nat n) in H' by lia. }
  intros [[r u] t'] (-> & -> & Ho3 & Hi3). split_and!; [done|f_equal; lia| |congruence].
  replace (Z.of_nat (S n)) with (1 + Z.of_nat n) by lia. rewrite slice_app, Hs1 by lia. unfold crlf in *. rewrite flat_map_app.
  rewrite Ho3, Ho2, Ho1. cbn. rewrite app_nil_r. destruct (Z.eqb_spec ch LF) as [->|]; by rewrite <-!app_assoc.
Qed.

Lemma con_read_loop n mem pos off t line rest :
  kuio_ok mem pos (Z.of_nat n) off (Z.of_nat n) → input_line n (tin t) = Some (line, rest) →
  let k := Z.of_nat (length line) in
  wp (con_loop (S n) (kuio UIO_READ mem pos (Z.of_nat n) off (Z.of_nat n)) t) (λ '(r, u, t'),
    r = 0 ∧ u = kuio UIO_READ (buf_write mem pos line) (pos + k) (Z.of_nat n - k) (off + k) (Z.of_nat n - k) ∧
    (length line ≤ n)%nat ∧ tin t' = rest ∧ tout t' = tout t).
Proof.
  unfold con_loop. revert mem pos off t line. induction n as [|n IH]; intros mem pos off t line Hok Hin; pose proof Hok as (Hp & Hm & Hr & Hl & Ho & Hmax).
  { cbn in Hin. injection Hin as <- <-. cbn. by rewrite !Z.add_0_r, buf_write_nil. }
  cbn [input_line] in Hin. destruct (tin t) as [|key keys] eqn:Ek; [done|].
  remember (S n) as fuel. cbn [while_loop]. subst fuel. cbn [kuio uio_resid uio_rw_of]. destruct (Z.gtb_spec (Z.of_nat (S n)) 0); [|lia].
  change (mkUio (KBase mem pos) (Z.of_nat (S n)) off (Z.of_nat (S n)) UIO_SYSSPACE UIO_READ None) with (kuio UIO_READ mem pos (Z.of_nat (S n)) off (Z.of_nat (S n))).
  rewrite decide_True by done. apply wp_bind, wp_bind. eapply wp_mono; [by apply getch_law|]. intros [ch t1] (-> & Ho1 & Hi1).
  set (ch := if key =? CR then LF else key) in *. rewrite uiomove_kuio by (done || cbn; lia). cbn [mbind outcome_bind negb Z.eqb].
  change (slice [ch] 0 1) with [ch]. replace (Z.of_nat (S n) - 1) with (Z.of_nat n) by lia.
  assert (Hlen : length (buf_write mem pos [ch]) = length mem) by (apply length_buf_write; cbn; lia).
  destruct (Z.eqb_spec ch LF) as [Ech|Ech].
  { injection Hin as <- <-. cbn. rewrite Ech. split_and!; [done|f_equal; lia|lia|done..]. }
  destruct (input_line n keys) as [[l r]|] eqn:El; [|done]. cbn in Hin. injection Hin as <- <-. cbn [wp].
  eapply wp_mono; [apply (IH _ (pos + 1) (off + 1) t1 l)|].
  { pose proof (kuio_ok_advance mem _ pos _ off _ 1 Hok ltac:(lia) Hlen) as H'. by replace (Z.of_nat (S n) - 1) with (Z.of_nat n) in H' by lia. }
  { by rewrite Hi1. }
  intros [[r' u] t'] (-> & -> & Hll & Hi & Hot). cbn [length]. split_and!; [done| |lia|done|congruence].
  change (pos + 1) with (pos + Z.of_nat (length [ch])) at 1. rewrite buf_write_app by (cbn; lia). cbn [app]. f_equal; lia.
Qed.

Lemma con_io_loop u t : con_io u t = '(r, u, t) ← con_loop (S (Z.to_nat (uio_resid u))) u t; Done ((r, u), t).
Proof. done. Qed.

(** The console device.  A write sends every byte of the buffer, with a
    carriage return before each newline, and reads nothing; a read delivers the
    characters typed, carriage returns as newlines, up to the length asked for or
    the end of the line, which is part of it, takes no more from the input, and
    the residual count tells how many are missing. *)
Theorem con_io_exact t mem pos off n line rest :
  0 ≤ n → kuio_ok mem pos n off n →
  swp (con_io (kuio UIO_WRITE mem pos n off n)) t (λ '(r, u) t',
    r = 0 ∧ u = kuio UIO_WRITE mem (pos + n) 0 (off + n) 0 ∧ tout t' = tout t ++ crlf (slice mem pos n) ∧ tin t' = tin t) ∧
  (input_line (Z.to_nat n) (tin t) = Some (line, rest) →
   let k := Z.of_nat (length line) in
   swp (con_io (kuio UIO_READ mem pos n off n)) t (λ '(r, u) t',
     r = 0 ∧ u = kuio UIO_READ (buf_write mem pos line) (pos + k) (n - k) (off + k) (n - k) ∧ k ≤ n ∧ tin t' = rest ∧ tout t' = tout t)).
Proof.
  intros Hn Hok. rewrite <-(Z2Nat.id n Hn) in Hok |- *. rewrite Nat2Z.id. generalize dependent (Z.to_nat n). intros m Hok. split; [|intros Hin k].
  - unfold swp. rewrite con_io_loop. cbn [kuio uio_resid]. rewrite Nat2Z.id. apply wp_bind. eapply wp_mono; [by apply con_write_loop|]. by intros [[r u] t'].
  - unfold swp. rewrite con_io_loop. cbn [kuio uio_resid]. rewrite Nat2Z.id. apply wp_bind.
    eapply wp_mono; [by apply (con_read_loop m mem pos off t line rest)|]. intros [[r u] t'] (? & ? & ? & ? & ?). cbn. split_and!; done || lia.
Qed.
End con_io.

(** ** A terminal *)

Module TtyExample.
(** What has come out and what will be typed. *)
Record term := mkTerm { o_chars : list Z; i_chars : list Z }.

#[local] Instance term_tty : Tty term := {
  putch ch t := Done (tt, mkTerm (o_chars t ++ [ch]) (i_chars t));
  getch t := match i_chars t with [] => NoFuel | ch :: l => Done (ch, mkTerm (o_chars t) l) end;
  beep t := Done (tt, t);
}.

#[local,refine] Instance term_laws : TtyLaws term := { tout := o_chars; tin := i_chars }.
Proof.
  - done.
  - intros t ch l E. unfold swp. cbn. by rewrite E.
  - done.
Defined.

(** "ls  xx", control-W, "sx", backspace, return, and the start of the next line. *)
Definition keys : list Z := [108; 115; 32; 32; 120; 120; 23; 115; 120; 8; 13; 113].

Lemma kgets_reads_line_witness :
  typed_line 8 [] keys = Some ([108; 115; 32; 32; 115], [113]) ∧
  swp (kgets 13 (replicate 10 7) 8) (mkTerm [] keys) (λ buf' t', i_chars t' = [113] ∧ length buf' = length (replicate 10 7) ∧
    Z.of_nat 5 < 8 ∧ take 6 buf' = [108; 115; 32; 32; 115] ++ [0] ∧ drop (Z.to_nat 8) buf' = drop (Z.to_nat 8) (replicate 10 7)).
Proof.
  split; [vm_compute; reflexivity|].
  refine (kgets_reads_line (mkTerm [] keys) (replicate 10 7) 8 keys [108; 115; 32; 32; 115] [113] _ _ _ _);
    [cbn; lia|lia|done|vm_compute; reflexivity].
Defined.
End TtyExample.
