(* ===== verification/Exec.v ===== *)
(** * arch/mips/mips/syscall.c: the execv system call

    The argument strings are copied from the old image into the kernel, the new
    image is loaded, and the strings and the argument vector are laid out on its
    stack.  Opening and loading the program, which are other parts of the kernel,
    are parameters.  The kernel also reads the arguments directly, without copyin;
    such a read of an address that is not mapped panics. *)

From S2P Require Import Prelude Copyinout.

Definition KERN_PTR : Z := 2147483648.
Definition INVAL_PTR : Z := 1073741824.
Definition NAME_MAX : Z := 255.

(** The process: its memory, whether a fault in the kernel is caught, the interrupt
    level, and the answers of [kmalloc] to come. *)
Record proc := mkProc { p_mem : umem; p_bff : bool; p_spl : Z; p_kmalloc : list bool }.

Definition set_bff (b : bool) : stm proc unit := modify (λ p, mkProc (p_mem p) b (p_spl p) (p_kmalloc p)).
Definition set_mem (m : umem) (b : bool) : stm proc unit := modify (λ p, mkProc m b (p_spl p) (p_kmalloc p)).
Definition set_spl (s : Z) : stm proc unit := modify (λ p, mkProc (p_mem p) (p_bff p) s (p_kmalloc p)).
Definition splhigh : stm proc Z := s ← gets p_spl; set_spl 15;; mret s.
Definition kmalloc : stm proc bool := λ p,
  match p_kmalloc p with
  | [] => Done (false, p)
  | a :: l => Done (a, mkProc (p_mem p) (p_bff p) (p_spl p) l)
  end.

(** The calls of copyinout.c, on the memory of the process. *)
Definition p_copyin (usersrc : Z) (dest : list Z) (len : Z) : stm proc (Z * list Z) :=
  p ← gets id; '(r, d, b) ← lift (copyin (p_mem p) (p_bff p) usersrc dest 0 len); set_bff b;; mret (r, d).
Definition p_copyinstr (usersrc : Z) (dest : list Z) (len : Z) : stm proc (Z * list Z) :=
  p ← gets id; '(r, _, d, b) ← lift (copyinstr (p_mem p) (p_bff p) usersrc dest len); set_bff b;; mret (r, d).
Definition p_copyout (src : list Z) (userdest len : Z) : stm proc Z :=
  p ← gets id; '(r, m, b) ← lift (copyout (p_mem p) (p_bff p) src 0 userdest len); set_mem m b;; mret r.
Definition p_copyoutstr (src : list Z) (userdest len : Z) : stm proc Z :=
  p ← gets id; '(r, _, m, b) ← lift (copyoutstr (p_mem p) (p_bff p) src userdest len); set_mem m b;; mret r.

(** A load from user space in the kernel's own code. *)
Definition load8 (a : Z) : stm proc Z :=
  p ← gets id;
  lift (c ← user_load (p_mem p) a; match c with Some v => Done v | None => fatal_kernel_fault (p_bff p);; Undef end).

Fixpoint word_of (bs : list Z) (acc : Z) : Z := match bs with [] => acc | b :: bs => word_of bs (acc * 256 + b) end.
Definition bytes_of (w : Z) : list Z := [w / 16777216 mod 256; w / 65536 mod 256; w / 256 mod 256; w mod 256].

Definition load32 (a : Z) : stm proc Z :=
  if negb (a mod 4 =? 0) then lift Panic else
  b0 ← load8 a; b1 ← load8 (a + 1); b2 ← load8 (a + 2); b3 ← load8 (a + 3);
  mret (word_of [b0; b1; b2; b3] 0).

(** [strlen] of a string of the user, and the number of arguments; [fuel] bounds
    both. *)
Fixpoint ustrlen (fuel : nat) (a n : Z) : stm proc Z :=
  match fuel with
  | O => lift NoFuel
  | S fuel => c ← load8 (a + n); if c =? 0 then mret n else ustrlen fuel a (n + 1)
  end.

Fixpoint count_args (fuel : nat) (args i : Z) : stm proc Z :=
  match fuel with
  | O => lift NoFuel
  | S fuel => w ← load32 (args + 4 * i); if w =? 0 then mret i else count_args fuel args (i + 1)
  end.

(** [strlen] of a string in the kernel. *)
Fixpoint kstrlen (b : list Z) : outcome Z :=
  match b with [] => Undef | c :: b => if c =? 0 then Done 0 else n ← kstrlen b; Done (n + 1) end.

(** The rest of the kernel: what opening the program of this name gives, whether
    an address space can be made, what loading gives with the entry point, and what
    defining the stack gives with its top; and the memory of the new image. *)
Record loader := mkLoader {
  ld_open : list Z → Z;
  ld_as_create : bool;
  ld_elf : Z * Z;
  ld_stack : Z * Z;
  ld_mem : umem;
}.

(** How the call ends: with an error, or in the new program, given [argc], [argv],
    the stack pointer and the entry point. *)
Inductive exec_end := ExecErr (retval err : Z) | ExecUser (argc argv sp entry : Z).

(** The tests on the pointers; [inl] is the error. *)
Definition exec_check (fuel : nat) (program args : Z) : stm proc (exec_end + Z) :=
  if (program =? 0) || (args =? 0) then mret (inl (ExecErr (-1) EFAULT)) else
  errK ← kmalloc;
  '(result, _) ← (if errK : bool then p_copyin program [0; 0; 0; 0] 4 else lift Undef);
  if negb (result =? 0) then mret (inl (ExecErr (-1) result)) else
  '(result, _) ← p_copyin args [0; 0; 0; 0] 4;
  if negb (result =? 0) then mret (inl (ExecErr (-1) result)) else
  if (program =? INVAL_PTR) || (args =? INVAL_PTR) then mret (inl (ExecErr (-1) EFAULT)) else
  if (program =? KERN_PTR) || (args =? KERN_PTR) then mret (inl (ExecErr (-1) EFAULT)) else
  len ← ustrlen fuel program 0;
  if len =? 0 then mret (inl (ExecErr (-1) EINVAL)) else
  nArg ← count_args fuel args 0;
  w ← load32 (args + 4);
  if (w =? INVAL_PTR) || (w =? KERN_PTR) then mret (inl (ExecErr (-1) EFAULT)) else
  if w =? 0 then mret (inl (ExecErr (-1) EFAULT)) else
  mret (inr nArg).

(** The strings are copied into the kernel, from the [i]-th on. *)
Fixpoint copy_args (n fuel : nat) (args i : Z) : stm proc (exec_end + list (list Z)) :=
  match n with
  | O => mret (inr [])
  | S n =>
      a ← load32 (args + 4 * i);
      len ← ustrlen fuel a 0;
      let argLen := len + 1 in
      mem ← kmalloc;
      if negb mem then mret (inl (ExecErr (-1) ENOMEM)) else
      '(result, b) ← p_copyinstr a (replicate (Z.to_nat argLen) 0) argLen;
      if negb (result =? 0) then mret (inl (ExecErr (-1) result)) else
      r ← copy_args n fuel args (i + 1);
      mret (match r with inl e => inl e | inr l => inr (b :: l) end)
  end.

(** The strings onto the stack, the last one first: [argPtrTable] from that entry on
    and the stack pointer. *)
Fixpoint push_strings (argK : list (list Z)) (stackptr : Z) : stm proc (list Z * Z) :=
  match argK with
  | [] => mret ([], stackptr)
  | s :: argK =>
      '(tbl, sp) ← push_strings argK stackptr;
      len ← lift (kstrlen s);
      let argLen := len + 1 in
      let remainder := Z.rem argLen 4 in
      let memLen := if negb (remainder =? 0) then argLen + (4 - remainder) else argLen in
      let sp := u32 (sp - memLen) in
      _ ← p_copyoutstr s sp argLen;
      mret (sp :: tbl, sp)
  end.

(** The vector, the last entry first; the loop starts one past the table. *)
Fixpoint push_ptrs (tbl : list Z) (past stackptr : Z) : stm proc Z :=
  match tbl with
  | [] => let sp := u32 (stackptr - 4) in _ ← p_copyout (bytes_of past) sp 4; mret sp
  | w :: tbl =>
      sp ← push_ptrs tbl past stackptr;
      let sp := u32 (sp - 4) in
      _ ← p_copyout (bytes_of w) sp 4;
      mret sp
  end.

(** The new image: [as_destroy], after which the process has no memory,
    [as_create], [load_elf] and [as_define_stack]. *)
Definition exec_load (ld : loader) (spl : Z) : stm proc (exec_end + Z * Z) :=
  b ← gets p_bff;
  set_mem ∅ b;;
  if negb (ld_as_create ld) then set_spl spl;; mret (inl (ExecErr (-1) ENOMEM)) else
  set_mem (ld_mem ld) b;;
  let '(result, entrypoint) := ld_elf ld in
  if negb (result =? 0) then set_spl spl;; mret (inl (ExecErr (-1) result)) else
  let '(result, stackptr) := ld_stack ld in
  if negb (result =? 0) then set_spl spl;; mret (inl (ExecErr (-1) result)) else
  mret (inr (entrypoint, stackptr)).

(** [past] is the word that follows [argPtrTable] on the kernel stack. *)
Definition sys_execv (ld : loader) (past : Z) (fuel : nat) (program args : Z) : stm proc exec_end :=
  c ← exec_check fuel program args;
  match c with
  | inl e => mret e
  | inr _ =>
      spl ← splhigh;
      mem ← kmalloc;
      if negb mem then set_spl spl;; mret (ExecErr (-1) ENOMEM) else
      '(result, progName) ← p_copyinstr program (replicate (Z.to_nat NAME_MAX) 0) NAME_MAX;
      if negb (result =? 0) then set_spl spl;; mret (ExecErr (-1) EFAULT) else
      nArg ← count_args fuel args 0;
      mem ← kmalloc;
      if negb mem then set_spl spl;; mret (ExecErr (-1) ENOMEM) else
      r ← copy_args (Z.to_nat nArg) fuel args 0;
      match r with
      | inl e => set_spl spl;; mret e
      | inr argK =>
          len ← lift (kstrlen progName);
          let result := ld_open ld (take (Z.to_nat len) progName) in
          if negb (result =? 0) then set_spl spl;; mret (ExecErr (-1) result) else
          l ← exec_load ld spl;
          match l with
          | inl e => mret e
          | inr (entrypoint, stackptr) =>
              '(tbl, sp) ← push_strings argK stackptr;
              sp ← push_ptrs tbl past sp;
              set_spl spl;;
              mret (ExecUser nArg sp sp entrypoint)
          end
      end
  end.

(** ** Strings and words in user memory *)

Lemma user_bytes_app m a x y : user_bytes m a (x ++ y) ↔ user_bytes m a x ∧ user_bytes m (a + Z.of_nat (length x)) y.
Proof.
  unfold user_bytes. split.
  - intros H. split; intros k v Hk.
    + apply H. by apply lookup_app_l_Some.
    + rewrite <-Z.add_assoc, <-Nat2Z.inj_add. apply H. rewrite lookup_app_r by lia. by replace (length x + k - length x)%nat with k by lia.
  - intros [H1 H2] k v Hk. apply lookup_app_Some in Hk as [Hk|[Hge Hk]]; [by apply H1|].
    specialize (H2 _ _ Hk). by replace (a + Z.of_nat (length x) + Z.of_nat (k - length x)) with (a + Z.of_nat k) in H2 by lia.
Qed.

Lemma cstring_end m a s : user_cstring m a s → m !! (a + Z.of_nat (length s)) = Some 0.
Proof. intros (_ & H & _). apply user_bytes_app in H as [_ H]. rewrite <-(H 0%nat 0 eq_refl). f_equal. lia. Qed.

Lemma cstring_char m a s k v : user_cstring m a s → s !! k = Some v → m !! (a + Z.of_nat k) = Some v ∧ v ≠ 0.
Proof.
  intros (H0 & H & _) Hk. split; [apply H; by apply lookup_app_l_Some|]. intros ->. apply H0. by eapply list_elem_of_lookup_2.
Qed.

Lemma cstring_unique m a s s' : user_cstring m a s → user_cstring m a s' → s = s'.
Proof.
  assert (∀ s s', user_cstring m a s → user_cstring m a s' → (length s ≤ length s')%nat) as Hle.
  { intros x x' Hx Hx'. destruct (decide (length x ≤ length x')%nat) as [|Hgt]; [done|exfalso].
    destruct (lookup_lt_is_Some_2 x (length x')) as [v Hv]; [lia|]. destruct (cstring_char _ _ _ _ _ Hx Hv) as [H1 H2].
    rewrite (cstring_end _ _ _ Hx') in H1. congruence. }
  intros H H'. assert (length s = length s') as Hl by (apply Nat.le_antisymm; auto). apply list_eq. intros k.
  destruct (decide (k < length s)%nat) as [Hk|Hk]; [|by rewrite !lookup_ge_None_2 by lia].
  destruct (lookup_lt_is_Some_2 s k Hk) as [v Hv], (lookup_lt_is_Some_2 s' k ltac:(lia)) as [v' Hv'].
  destruct (cstring_char _ _ _ _ _ H Hv) as [E1 _], (cstring_char _ _ _ _ _ H' Hv') as [E2 _]. congruence.
Qed.

Lemma copyinstr_ok m a s d len :
  user_cstring m a s → 0 < a → Z.of_nat (length s) + 1 ≤ len → len ≤ Z.of_nat (length d) → a + len ≤ 4294967296 →
  ∃ got, copyinstr m false a d len = Done (0, got, buf_write d 0 (s ++ [0]), false).
Proof.
  intros Hs Ha Hl Hd Hmax. pose proof Hs as (_ & _ & Hu). unfold USERTOP in Hu.
  pose proof (copyinstr_wp m false a d len ltac:(lia) ltac:(lia) Hd) as H. apply wp_Done in H as ([[[r got] d'] b] & -> & Hb & Hp).
  assert (b = false) as -> by tauto. pose proof (cstring_end _ _ _ Hs) as He.
  assert (Hno : ∀ k, Z.of_nat (length s) < k → ¬ user_unterminated m a k).
  { intros k Hk Hun. destruct (Hun (Z.of_nat (length s)) ltac:(lia)) as (_ & v & Hv & Hv0). congruence. }
  destruct Hp as [(-> & s' & Hs' & _ & _ & ->)|[(_ & _ & Hun)|(_ & _ & [?|[?|(k & Hk & Hun & Hbad)]])]]; [|by destruct (Hno len ltac:(lia))|lia..|].
  - rewrite (cstring_unique _ _ _ _ Hs Hs'). eauto.
  - exfalso. destruct (decide (Z.of_nat (length s) < k)) as [|Hle]; [by eapply Hno|]. destruct Hbad as [|Hn]; [unfold USERTOP in *; lia|].
    destruct (decide (k = Z.of_nat (length s))) as [->|]; [congruence|].
    destruct (lookup_lt_is_Some_2 s (Z.to_nat k)) as [v Hv]; [lia|]. destruct (cstring_char _ _ _ _ _ Hs Hv) as [E _].
    rewrite Z2Nat.id in E by lia. congruence.
Qed.

Lemma copyin_ok m a d len :
  0 ≤ a → 0 < len → a + len ≤ USERTOP → user_mapped m a len → len ≤ Z.of_nat (length d) →
  ∃ d', copyin m false a d 0 len = Done (0, d', false).
Proof.
  intros Ha Hl Hu Hm Hd. unfold USERTOP in *. pose proof (copyin_wp m false a d 0 len ltac:(lia) ltac:(lia) ltac:(lia) ltac:(lia)) as H.
  apply wp_Done in H as ([[r d'] b] & -> & [(-> & -> & _)|(_ & _ & Hn & _)]); [eauto|]. destruct Hn. split; [|done]. split; [lia|unfold USERTOP; lia].
Qed.

Lemma copyout_ok m a bs :
  0 ≤ a → bs ≠ [] → a + Z.of_nat (length bs) ≤ USERTOP → user_mapped m a (Z.of_nat (length bs)) →
  copyout m false bs 0 a (Z.of_nat (length bs)) = Done (0, user_write m a bs, false).
Proof.
  intros Ha Hb Hu Hm. unfold USERTOP in *. assert (0 < Z.of_nat (length bs)) by (destruct bs; [done|cbn; lia]).
  pose proof (copyout_wp m false bs 0 a (Z.of_nat (length bs)) ltac:(lia) ltac:(lia) ltac:(lia) ltac:(lia)) as H1.
  apply wp_Done in H1 as ([[r m'] b] & -> & [(-> & -> & _ & _ & ->)|(_ & _ & Hn & _)]).
  - change (drop (Z.to_nat 0) bs) with bs. by rewrite Nat2Z.id, firstn_all.
  - destruct Hn. split; [|done]. split; [lia|unfold USERTOP; lia].
Qed.

Lemma copyoutstr_ok m a s :
  0 < a → (0 ∉ s) → a + Z.of_nat (length s) + 1 ≤ USERTOP → user_mapped m a (Z.of_nat (length s) + 1) →
  ∃ got, copyoutstr m false (s ++ [0]) a (Z.of_nat (length s) + 1) = Done (0, got, user_write m a (s ++ [0]), false).
Proof.
  intros Ha H0 Hu Hm. set (len := Z.of_nat (length s) + 1) in *. assert (Hlen : Z.of_nat (length (s ++ [0])) = len) by (rewrite length_app; cbn; lia).
  unfold copyoutstr. rewrite copycheck_pos by (unfold USERTOP in *; lia). rewrite bool_decide_eq_false_2 by (unfold USERTOP in *; lia).
  cbn [Z.eqb negb]. rewrite Z.min_l by lia.
  pose proof (copystr_wp _ _ _ _ _ len len ltac:(lia) ltac:(lia) ltac:(rewrite Z.min_id; apply (copyout_transfers m a (s ++ [0]) 0 len); lia)) as H.
  apply wp_Done in H as ([e m'] & E & k & Hk & Hkl & He). cbn [Z.to_nat take drop] in E.
  unfold mbind, outcome_bind. cbn beta in E. change (user_write m a []) with m in E. rewrite Z.min_id in *.
  assert (Hchar : ∀ i, 0 ≤ i < len - 1 → ∃ v, (s ++ [0]) !! Z.to_nat (0 + i) = Some v ∧ v ≠ 0).
  { intros i Hi. destruct (lookup_lt_is_Some_2 s (Z.to_nat i)) as [v Hv]; [lia|]. exists v. split; [by apply lookup_app_l_Some|].
    intros ->. apply H0. by eapply list_elem_of_lookup_2. }
  assert (Hlast : (s ++ [0]) !! Z.to_nat (0 + (len - 1)) = Some 0).
  { replace (Z.to_nat (0 + (len - 1))) with (length s) by lia. by rewrite list_lookup_middle. }
  assert (Hpass : ∀ i, 0 ≤ i < len → passes (λ i, (s ++ [0]) !! Z.to_nat (0 + i)) (λ i, bool_decide (is_Some (m !! (a + i)))) i).
  { intros i Hi. split; [apply lookup_lt_is_Some_2; lia|]. apply bool_decide_eq_true_2, Hm. lia. }
  assert (E' : copystr (λ _ i, kbuf_load (s ++ [0]) i) (λ m i v, user_store m (a + i) v) len len m = Done (e, m')) by exact E.
  cbn [fst snd]. rewrite E'. assert (Hend : ∀ k, k = len → user_write m a (take (Z.to_nat k) (drop (Z.to_nat 0) (s ++ [0]))) = user_write m a (s ++ [0])).
  { intros k' ->. change (drop (Z.to_nat 0) (s ++ [0])) with (s ++ [0]). by rewrite firstn_all2 by lia. }
  destruct e as [[|r|r] got|].
  - destruct He as (-> & Hk0 & Hz & _ & _). rewrite Hk, Hend; [eauto|].
    destruct (decide (k - 1 < len - 1)) as [Hlt|]; [|lia]. destruct (Hchar (k - 1) ltac:(lia)) as (v & Hv & Hv0). congruence.
  - exfalso. destruct He as (_ & _ & -> & Hall). destruct (Hall (len - 1) ltac:(lia)) as [_ Hn]. congruence.
  - exfalso. destruct He as (_ & _ & -> & Hall). destruct (Hall (len - 1) ltac:(lia)) as [_ Hn]. congruence.
  - exfalso. destruct He as (Hlt & Hn & _). apply Hn, Hpass. lia.
Qed.

(** What a write leaves and what it changes. *)
Lemma user_write_other m a bs b : b < a ∨ a + Z.of_nat (length bs) ≤ b → user_write m a bs !! b = m !! b.
Proof. intros H. rewrite user_write_lookup, decide_False by lia. done. Qed.

Lemma user_write_bytes m a bs : user_bytes (user_write m a bs) a bs.
Proof.
  intros k v Hk. pose proof (lookup_lt_Some _ _ _ Hk). rewrite user_write_lookup, decide_True by lia.
  by replace (Z.to_nat (a + Z.of_nat k - a)) with k by lia.
Qed.

Lemma user_write_mapped m a bs b : is_Some (m !! b) → is_Some (user_write m a bs !! b).
Proof. intros H. rewrite user_write_lookup. case_decide; [|done]. apply lookup_lt_is_Some_2. lia. Qed.

Lemma user_bytes_mono m m' a bs :
  (∀ b, a ≤ b < a + Z.of_nat (length bs) → m' !! b = m !! b) → user_bytes m a bs → user_bytes m' a bs.
Proof. intros H Hb k v Hk. pose proof (lookup_lt_Some _ _ _ Hk). rewrite H by lia. by apply Hb. Qed.

(** ** Reading the arguments *)

Definition is_word (w : Z) : Prop := 0 ≤ w < 4294967296.

Definition user_word (m : umem) (a w : Z) : Prop := is_word w ∧ user_bytes m a (bytes_of w) ∧ 0 ≤ a ∧ a + 4 ≤ USERTOP ∧ a mod 4 = 0.

Lemma word_of_bytes w : is_word w → word_of (bytes_of w) 0 = w.
Proof. unfold is_word. intros H. cbn. dlia. Qed.

Lemma load8_ok p a v : p_mem p !! a = Some v → 0 ≤ a < USERTOP → load8 a p = Done (v, p).
Proof.
  intros Hm Ha. unfold load8, mbind, stm_bind, gets, lift, id, user_load.
  destruct (Z.ltb_spec a 0); [lia|]. destruct (Z.leb_spec USERTOP a); [lia|]. cbn. unfold mbind, outcome_bind. by rewrite Hm.
Qed.

Lemma load32_swp p a w (Q : Z → proc → Prop) : user_word (p_mem p) a w → Q w p → swp (load32 a) p Q.
Proof.
  intros (Hw & Hb & Ha & Hu & Hal) HQ. unfold load32. rewrite Hal. cbn [Z.eqb negb].
  assert (Hl : ∀ k v (Q : Z → proc → Prop), bytes_of w !! k = Some v → (k < 4)%nat → Q v p → swp (load8 (a + Z.of_nat k)) p Q).
  { intros k v Q' Hk Hk4 HQ'. apply swp_Done. rewrite (load8_ok p _ v); [eauto|by apply Hb|lia]. }
  apply swp_bind. rewrite <-(Z.add_0_r a) at 1. apply (Hl 0%nat _ _ eq_refl); [lia|].
  apply swp_bind, (Hl 1%nat _ _ eq_refl); [lia|]. apply swp_bind, (Hl 2%nat _ _ eq_refl); [lia|]. apply swp_bind, (Hl 3%nat _ _ eq_refl); [lia|].
  apply swp_ret. change (word_of _ 0) with (word_of (bytes_of w) 0). by rewrite word_of_bytes.
Qed.

Lemma ustrlen_swp p a s n fuel (Q : Z → proc → Prop) :
  user_cstring (p_mem p) a s → 0 < a → (n ≤ length s < n + fuel)%nat → Q (Z.of_nat (length s)) p → swp (ustrlen fuel a (Z.of_nat n)) p Q.
Proof.
  intros Hs Ha. pose proof Hs as (_ & _ & Hu). revert n. induction fuel as [|fuel IH]; intros n Hn HQ; [lia|]. cbn [ustrlen]. apply swp_bind, swp_Done.
  destruct (decide (n = length s)) as [->|Hne].
  - rewrite (load8_ok p _ 0); [|by apply cstring_end|lia]. eexists _, _. split; [done|]. by apply swp_ret.
  - destruct (lookup_lt_is_Some_2 s n) as [v Hv]; [lia|]. destruct (cstring_char _ _ _ _ _ Hs Hv) as [Hm Hv0].
    rewrite (load8_ok p _ v) by (done || lia). eexists _, _. split; [done|]. rewrite (proj2 (Z.eqb_neq _ _) Hv0).
    replace (Z.of_nat n + 1) with (Z.of_nat (S n)) by lia. apply IH; [lia|done].
Qed.

(** The vector [args] holds the pointers [ptrs] and a null pointer. *)
Definition user_vector (m : umem) (args : Z) (ptrs : list Z) : Prop :=
  (∀ i w, ptrs !! i = Some w → user_word m (args + 4 * Z.of_nat i) w ∧ w ≠ 0) ∧ user_word m (args + 4 * Z.of_nat (length ptrs)) 0.

Lemma count_args_swp p args ptrs n fuel (Q : Z → proc → Prop) :
  user_vector (p_mem p) args ptrs → (n ≤ length ptrs < n + fuel)%nat → Q (Z.of_nat (length ptrs)) p → swp (count_args fuel args (Z.of_nat n)) p Q.
Proof.
  intros [Hv Hz]. revert n. induction fuel as [|fuel IH]; intros n Hn HQ; [lia|]. cbn [count_args]. apply swp_bind.
  destruct (decide (n = length ptrs)) as [->|Hne].
  - eapply load32_swp; [exact Hz|]. by apply swp_ret.
  - destruct (lookup_lt_is_Some_2 ptrs n) as [w Hw]; [lia|]. destruct (Hv _ _ Hw) as [Hword Hw0]. eapply load32_swp; [exact Hword|].
    rewrite (proj2 (Z.eqb_neq _ _) Hw0). replace (Z.of_nat n + 1) with (Z.of_nat (S n)) by lia. apply IH; [lia|done].
Qed.

(** The strings the vector points to. *)
Definition user_strings (m : umem) (ptrs : list Z) (ss : list (list Z)) : Prop :=
  Forall2 (λ a s, user_cstring m a s ∧ 0 < a) ptrs ss.

(** The process with [n] fewer answers of [kmalloc] to come. *)
Definition allocated (n : nat) (p : proc) : proc := mkProc (p_mem p) (p_bff p) (p_spl p) (drop n (p_kmalloc p)).

Lemma kmalloc_swp p l (Q : bool → proc → Prop) : p_kmalloc p = true :: l → Q true (allocated 1 p) → swp kmalloc p Q.
Proof. intros E HQ. unfold swp, kmalloc, allocated in *. rewrite E in *. apply HQ. Qed.

Lemma copyinstr_swp p a s d len (Q : Z * list Z → proc → Prop) :
  p_bff p = false → user_cstring (p_mem p) a s → 0 < a → Z.of_nat (length s) + 1 ≤ len → len ≤ Z.of_nat (length d) → a + len ≤ 4294967296 →
  Q (0, buf_write d 0 (s ++ [0])) p → swp (p_copyinstr a d len) p Q.
Proof.
  intros Hb Hs Ha Hl Hd Hm HQ. unfold p_copyinstr. apply swp_bind, swp_gets, swp_bind, swp_lift. unfold id. rewrite Hb.
  destruct (copyinstr_ok (p_mem p) a s d len Hs Ha Hl Hd Hm) as [got ->]. apply wp_done, swp_bind, swp_modify, swp_ret.
  destruct p; cbn in *. by subst.
Qed.

Lemma copyin_swp p a d len (Q : Z * list Z → proc → Prop) :
  p_bff p = false → 0 ≤ a → 0 < len → a + len ≤ USERTOP → user_mapped (p_mem p) a len → len ≤ Z.of_nat (length d) →
  (∀ d', Q (0, d') p) → swp (p_copyin a d len) p Q.
Proof.
  intros Hb Ha Hl Hu Hm Hd HQ. unfold p_copyin. apply swp_bind, swp_gets, swp_bind, swp_lift. unfold id. rewrite Hb.
  destruct (copyin_ok (p_mem p) a d len Ha Hl Hu Hm Hd) as [d' ->]. apply wp_done, swp_bind, swp_modify, swp_ret.
  destruct p; cbn in *. subst. apply HQ.
Qed.

Lemma copy_args_swp p args ptrs ss n fuel (Q : (exec_end + list (list Z)) → proc → Prop) :
  p_bff p = false → user_vector (p_mem p) args ptrs → user_strings (p_mem p) (drop n ptrs) ss →
  Forall (λ s, (length s < fuel)%nat) ss → take (length ss) (p_kmalloc p) = replicate (length ss) true →
  Q (inr ((λ s, s ++ [0]) <$> ss)) (allocated (length ss) p) → swp (copy_args (length ss) fuel args (Z.of_nat n)) p Q.
Proof.
  revert p n Q. induction ss as [|s ss IH]; intros p n Q Hb Hv Hs Hf Hk HQ; cbn [length copy_args].
  { apply swp_ret. destruct p. exact HQ. }
  pose proof Hs as Hs'. unfold user_strings in Hs'. destruct (drop n ptrs) as [|a rest] eqn:Ed; [by inversion Hs'|].
  apply Forall2_cons in Hs' as [[Hc Ha] Hrest]. apply Forall_cons in Hf as [Hf1 Hf].
  assert (Hn : ptrs !! n = Some a). { rewrite <-(Nat.add_0_r n), <-lookup_drop, Ed. done. }
  destruct Hv as [Hv Hz]. destruct (Hv _ _ Hn) as [Hw _]. apply swp_bind. eapply load32_swp; [exact Hw|].
  apply swp_bind. eapply (ustrlen_swp _ _ _ 0); [exact Hc|done|lia|]. destruct (p_kmalloc p) as [|b l] eqn:Ek; [done|]. cbn in Hk. injection Hk as -> Hk.
  apply swp_bind. eapply kmalloc_swp; [exact Ek|]. cbn [negb]. pose proof Hc as (_ & _ & Hu). unfold USERTOP in Hu.
  apply swp_bind. eapply (copyinstr_swp _ _ s); [done|exact Hc|done|lia|rewrite length_replicate; lia|lia|]. cbn [Z.eqb negb].
  replace (buf_write _ 0 (s ++ [0])) with (s ++ [0]).
  2:{ unfold buf_write. change (Z.to_nat 0) with 0%nat. rewrite drop_ge; [by rewrite app_nil_r|]. rewrite length_replicate, length_app. cbn. lia. }
  replace (Z.of_nat n + 1) with (Z.of_nat (S n)) by lia. apply swp_bind, IH; [done|done| |done| |].
  - apply (f_equal (drop 1)) in Ed. rewrite drop_drop, Nat.add_1_r in Ed. cbn in Ed. by rewrite Ed.
  - unfold allocated. cbn. rewrite Ek. done.
  - apply swp_ret. cbn [fmap list_fmap]. unfold allocated in HQ |- *. cbn in HQ |- *. rewrite Ek in *. exact HQ.
Qed.

(** ** The stack of the new program *)

(** The room a string takes, and all of them. *)
Definition room (s : list Z) : Z := let n := Z.of_nat (length s) + 1 in if negb (Z.rem n 4 =? 0) then n + (4 - Z.rem n 4) else n.
Fixpoint rooms (ss : list (list Z)) : Z := match ss with [] => 0 | s :: ss => room s + rooms ss end.

Lemma room_spec s : Z.of_nat (length s) + 1 ≤ room s ∧ room s mod 4 = 0.
Proof. unfold room. rewrite Z.rem_mod_nonneg by lia. destruct (Z.eqb_spec ((Z.of_nat (length s) + 1) mod 4) 0); cbn; dlia. Qed.

Lemma rooms_spec ss : 0 ≤ rooms ss ∧ rooms ss mod 4 = 0.
Proof. induction ss as [|s ss IH]; cbn; [done|]. pose proof (room_spec s). dlia. Qed.

Lemma kstrlen_ok s l : (0 ∉ s) → kstrlen (s ++ 0 :: l) = Done (Z.of_nat (length s)).
Proof.
  induction s as [|c s IH]; intros H; cbn; [done|]. apply not_elem_of_cons in H as [Hc H].
  rewrite (proj2 (Z.eqb_neq c 0)) by done. rewrite IH by done. cbn. f_equal. lia.
Qed.

(** The same process but for its memory, which is the same outside [lo, hi). *)
Definition writes (lo hi : Z) (p p' : proc) : Prop :=
  p_bff p' = false ∧ p_spl p' = p_spl p ∧ p_kmalloc p' = p_kmalloc p ∧
  (∀ b, is_Some (p_mem p !! b) → is_Some (p_mem p' !! b)) ∧ ∀ b, b < lo ∨ hi ≤ b → p_mem p' !! b = p_mem p !! b.

Lemma writes_trans lo mid hi p p1 p2 : lo ≤ mid ≤ hi → writes mid hi p p1 → writes lo mid p1 p2 → writes lo hi p p2.
Proof.
  intros Hle (B1 & S1 & K1 & M1 & O1) (B2 & S2 & K2 & M2 & O2). split_and!; [done|congruence..|auto|].
  intros b Hb. rewrite O2, O1 by lia. done.
Qed.

Lemma copyout_swp p a bs (Q : Z → proc → Prop) :
  p_bff p = false → 0 ≤ a → bs ≠ [] → a + Z.of_nat (length bs) ≤ USERTOP → user_mapped (p_mem p) a (Z.of_nat (length bs)) →
  (∀ p', writes a (a + Z.of_nat (length bs)) p p' → user_bytes (p_mem p') a bs → Q 0 p') →
  swp (p_copyout bs a (Z.of_nat (length bs))) p Q.
Proof.
  intros Hb Ha Hne Hu Hm HQ. unfold p_copyout. apply swp_bind, swp_gets, swp_bind, swp_lift. unfold id. rewrite Hb, copyout_ok by done.
  apply wp_done, swp_bind, swp_modify, swp_ret, HQ; [|apply user_write_bytes].
  split_and!; cbn; [done..|intros; by apply user_write_mapped|intros; by apply user_write_other].
Qed.

Lemma copyoutstr_swp p a s (Q : Z → proc → Prop) :
  p_bff p = false → 0 < a → (0 ∉ s) → a + Z.of_nat (length s) + 1 ≤ USERTOP → user_mapped (p_mem p) a (Z.of_nat (length s) + 1) →
  (∀ p', writes a (a + Z.of_nat (length s) + 1) p p' → user_bytes (p_mem p') a (s ++ [0]) → Q 0 p') →
  swp (p_copyoutstr (s ++ [0]) a (Z.of_nat (length s) + 1)) p Q.
Proof.
  intros Hb Ha H0 Hu Hm HQ. unfold p_copyoutstr. apply swp_bind, swp_gets, swp_bind, swp_lift. unfold id. rewrite Hb.
  destruct (copyoutstr_ok (p_mem p) a s Ha H0 Hu Hm) as [got ->].
  apply wp_done, swp_bind, swp_modify, swp_ret, HQ; [|apply user_write_bytes].
  split_and!; cbn; [done..|intros; by apply user_write_mapped|]. intros b Hb'. apply user_write_other. rewrite length_app. cbn. lia.
Qed.

Lemma writes_weaken lo hi lo' hi' p p' : lo' ≤ lo → hi ≤ hi' → writes lo hi p p' → writes lo' hi' p p'.
Proof. intros H1 H2 (B & S & K & M & O). split_and!; [done..|]. intros b Hb. apply O. lia. Qed.

(** The table of the strings: each entry points to its string. *)
Definition string_table (m : umem) (lo hi : Z) (tbl : list Z) (ss : list (list Z)) : Prop :=
  Forall2 (λ a s, user_bytes m a (s ++ [0]) ∧ lo ≤ a ∧ a + Z.of_nat (length s) + 1 ≤ hi) tbl ss.

Lemma push_strings_swp p ss top :
  p_bff p = false → Forall (λ s, 0 ∉ s) ss → top ≤ USERTOP → 0 < top - rooms ss → user_mapped (p_mem p) (top - rooms ss) (rooms ss) →
  swp (push_strings ((λ s, s ++ [0]) <$> ss) top) p (λ '(tbl, sp) p',
    sp = top - rooms ss ∧ writes sp top p p' ∧ string_table (p_mem p') sp top tbl ss).
Proof.
  intros Hb H0 Htop. induction ss as [|s ss IH]; intros Hpos Hm; cbn [fmap list_fmap push_strings rooms] in *.
  { apply swp_ret. split_and!; [lia| |constructor]. split_and!; done. }
  apply Forall_cons in H0 as [Hs0 H0]. pose proof (room_spec s) as [Hr _]. pose proof (rooms_spec ss) as [Hrs _].
  apply swp_bind. eapply swp_mono; [apply IH; [done|lia|]|].
  { intros i Hi. replace (top - rooms ss + i) with (top - (room s + rooms ss) + (room s + i)) by lia. apply Hm. lia. }
  intros [tbl sp] p1 (-> & Hw1 & Ht1). apply swp_bind, swp_lift. rewrite kstrlen_ok by done. apply wp_done.
  change (if negb (Z.rem (Z.of_nat (length s) + 1) 4 =? 0) then Z.of_nat (length s) + 1 + (4 - Z.rem (Z.of_nat (length s) + 1) 4) else Z.of_nat (length s) + 1) with (room s).
  rewrite u32_small by (unfold USERTOP in *; lia). set (a := top - rooms ss - room s). pose proof Hw1 as (Hb1 & _ & _ & Hm1 & Ho1).
  apply swp_bind, copyoutstr_swp; [done|lia|done|lia| |].
  { intros i Hi. apply Hm1. replace (a + i) with (top - (room s + rooms ss) + i) by lia. apply Hm. lia. }
  intros p2 Hw2 Hb2. apply swp_ret. split_and!; [lia| |].
  - replace a with (top - (room s + rooms ss)) in * by lia. apply (writes_trans _ (top - rooms ss) _ _ p1); [lia|done|].
    eapply writes_weaken; [..|exact Hw2]; lia.
  - constructor; [split_and!; [done|lia..]|]. eapply Forall2_impl; [exact Ht1|]. intros a' s' (Hu & Hlo & Hhi). split_and!; [|lia..].
    eapply user_bytes_mono; [|exact Hu]. intros b Hbb. apply Hw2. lia.
Qed.

Lemma push_ptrs_swp p tbl past sp0 :
  p_bff p = false → sp0 ≤ USERTOP → let sp := sp0 - 4 * (Z.of_nat (length tbl) + 1) in 0 < sp → user_mapped (p_mem p) sp (sp0 - sp) →
  swp (push_ptrs tbl past sp0) p (λ sp' p', sp' = sp ∧ writes sp sp0 p p' ∧
    (∀ i w, tbl !! i = Some w → user_bytes (p_mem p') (sp + 4 * Z.of_nat i) (bytes_of w)) ∧
    user_bytes (p_mem p') (sp0 - 4) (bytes_of past)).
Proof.
  intros Hb Htop. induction tbl as [|w tbl IH]; intros sp Hpos Hm; cbn [push_ptrs length] in *.
  { replace sp with (sp0 - 4) in * by lia. rewrite u32_small by (unfold USERTOP in *; lia).
    apply swp_bind, (copyout_swp _ _ (bytes_of past)); [done|lia|done|cbn; lia|intros i Hi; apply Hm; cbn in Hi; lia|].
    intros p' Hw Hby. apply swp_ret. split_and!; [done| |done|done]. eapply writes_weaken; [..|exact Hw]; cbn; lia. }
  set (sp1 := sp0 - 4 * (Z.of_nat (length tbl) + 1)) in *. apply swp_bind. eapply swp_mono; [apply IH; [lia|]|].
  { intros i Hi. replace (sp1 + i) with (sp + (4 + i)) by lia. apply Hm. lia. }
  intros ? p1 (-> & Hw1 & Ht1 & Hp1). rewrite u32_small by (unfold USERTOP in *; lia). replace (sp1 - 4) with sp by lia. pose proof Hw1 as (Hb1 & _ & _ & Hm1 & _).
  apply swp_bind, (copyout_swp _ _ (bytes_of w)); [done|lia|done|cbn; lia|intros i Hi; apply Hm1, Hm; cbn in Hi; lia|].
  intros p2 Hw2 Hby. pose proof Hw2 as (_ & _ & _ & _ & Ho2). cbn [length bytes_of] in Ho2.
  apply swp_ret. split_and!; [done| | |].
  - apply (writes_trans _ sp1 _ _ p1); [lia|done|]. eapply writes_weaken; [..|exact Hw2]; cbn; lia.
  - intros [|i] w' Hi; cbn in Hi; [injection Hi as <-; by rewrite Z.add_0_r|].
    eapply user_bytes_mono; [|replace (sp + 4 * Z.of_nat (S i)) with (sp1 + 4 * Z.of_nat i) by lia; by apply Ht1]. intros b Hbb. apply Ho2. lia.
  - eapply user_bytes_mono; [|exact Hp1]. intros b Hbb. apply Ho2. cbn in Hbb. lia.
Qed.

(** ** The call *)

(** A proper call: a program name shorter than 255 bytes, four bytes of which can
    be read, and a vector of at least one argument in the memory of the process,
    enough memory in the kernel, a program that loads, and room for the arguments
    on its stack, which ends at [top]. *)
Record exec_ready (p : proc) (ld : loader) (fuel : nat) (program args : Z) (name : list Z) (ptrs : list Z) (ss : list (list Z)) (entry top : Z) : Prop := {
  er_bff : p_bff p = false;
  er_name : user_cstring (p_mem p) program name;
  er_name_len : 0 < Z.of_nat (length name) < NAME_MAX;
  er_program : 0 < program ∧ program + 4 ≤ USERTOP ∧ program ≠ INVAL_PTR ∧ user_mapped (p_mem p) program 4;
  er_args : 0 < args ∧ args ≠ INVAL_PTR;
  er_vector : user_vector (p_mem p) args ptrs;
  er_strings : user_strings (p_mem p) ptrs ss;
  er_nonempty : ptrs ≠ [];
  er_fuel : (length ptrs < fuel)%nat ∧ (length name < fuel)%nat ∧ Forall (λ s, (length s < fuel)%nat) ss;
  er_kmalloc : take (3 + length ss) (p_kmalloc p) = replicate (3 + length ss) true;
  er_load : ld_open ld name = 0 ∧ ld_as_create ld = true ∧ ld_elf ld = (0, entry) ∧ ld_stack ld = (0, top);
  er_top : top ≤ USERTOP ∧ top mod 4 = 0;
  er_room : let size := rooms ss + 4 * (Z.of_nat (length ss) + 1) in 0 < top - size ∧ user_mapped (ld_mem ld) (top - size) size;
}.

Lemma word_mapped m a w : user_word m a w → user_mapped m a 4.
Proof.
  intros (_ & Hb & _) i Hi. destruct (lookup_lt_is_Some_2 (bytes_of w) (Z.to_nat i)) as [v Hv]; [cbn; lia|].
  specialize (Hb _ _ Hv). rewrite Z2Nat.id in Hb by lia. eauto.
Qed.

(** What the code looks at in [args[1]]. *)
Definition second_ok (ptrs : list Z) : bool :=
  match ptrs !! 1%nat with Some w => negb ((w =? INVAL_PTR) || (w =? KERN_PTR)) | None => false end.

Lemma exec_check_swp p ld fuel program args name ptrs ss entry top (Q : exec_end + Z → proc → Prop) :
  exec_ready p ld fuel program args name ptrs ss entry top →
  Q (if second_ok ptrs then inr (Z.of_nat (length ptrs)) else inl (ExecErr (-1) EFAULT)) (allocated 1 p) →
  swp (exec_check fuel program args) p Q.
Proof.
  intros [Hb Hn Hnl (Hp0 & Hp4 & Hpi & Hpm) [Ha0 Hai] Hv Hs Hne (Hf1 & Hf2 & Hf3) Hk _ _ _] HQ. unfold exec_check.
  pose proof Hv as [Hv1 Hv2]. unfold USERTOP in *.
  destruct (lookup_lt_is_Some_2 ptrs 0) as [w0 Hw0]; [destruct ptrs; [done|cbn; lia]|]. destruct (Hv1 _ _ Hw0) as [Hword0 _]. rewrite Z.add_0_r in Hword0.
  pose proof Hword0 as (_ & _ & _ & Hau & _).
  destruct (p_kmalloc p) as [|b l] eqn:Ek; [done|]. cbn in Hk. injection Hk as -> Hk.
  rewrite (proj2 (Z.eqb_neq program 0)), (proj2 (Z.eqb_neq args 0)) by lia. cbn [orb].
  apply swp_bind. eapply kmalloc_swp; [exact Ek|]. apply swp_bind, copyin_swp; [done|lia|lia|unfold USERTOP; lia|done|cbn; lia|].
  intros d1. cbn [Z.eqb negb]. apply swp_bind, copyin_swp; [done|lia|lia|exact Hau|by eapply word_mapped|cbn; lia|]. intros d2. cbn [Z.eqb negb].
  rewrite (proj2 (Z.eqb_neq program INVAL_PTR)), (proj2 (Z.eqb_neq args INVAL_PTR)) by done. cbn [orb].
  unfold USERTOP in Hau. rewrite (proj2 (Z.eqb_neq program KERN_PTR)), (proj2 (Z.eqb_neq args KERN_PTR)) by (unfold KERN_PTR; lia). cbn [orb].
  apply swp_bind, (ustrlen_swp _ _ name 0); [done|done|lia|]. rewrite (proj2 (Z.eqb_neq _ 0)) by lia.
  apply swp_bind, (count_args_swp _ _ ptrs 0); [done|lia|]. apply swp_bind. unfold second_ok in HQ.
  destruct (ptrs !! 1%nat) as [w|] eqn:Ew.
  - destruct (Hv1 _ _ Ew) as [Hword Hw1]. eapply (load32_swp _ _ w); [exact Hword|].
    destruct ((w =? INVAL_PTR) || (w =? KERN_PTR)); [by apply swp_ret|]. rewrite (proj2 (Z.eqb_neq w 0)) by done. by apply swp_ret.
  - apply lookup_ge_None_1 in Ew. assert (length ptrs = 1%nat) as Hl by (destruct ptrs; [done|cbn in *; lia]). rewrite Hl in Hv2.
    eapply (load32_swp _ _ 0); [exact Hv2|]. cbn. by apply swp_ret.
Qed.

(** What the new program finds: [argc], [argv] and the strings. *)
Definition exec_image (m : umem) (ld : loader) (past : Z) (ss : list (list Z)) (top sp : Z) : Prop :=
  sp = top - (rooms ss + 4 * (Z.of_nat (length ss) + 1)) ∧ sp mod 4 = 0 ∧
  (∀ i s, ss !! i = Some s → ∃ a, user_bytes m (sp + 4 * Z.of_nat i) (bytes_of a) ∧ user_bytes m a (s ++ [0]) ∧
     sp + 4 * (Z.of_nat (length ss) + 1) ≤ a ∧ a + Z.of_nat (length s) + 1 ≤ top) ∧
  user_bytes m (sp + 4 * Z.of_nat (length ss)) (bytes_of past) ∧
  ∀ b, b < sp ∨ top ≤ b → m !! b = ld_mem ld !! b.

Lemma exec_stack_swp p past ss top :
  p_bff p = false → Forall (λ s, 0 ∉ s) ss → top ≤ USERTOP → top mod 4 = 0 →
  let size := rooms ss + 4 * (Z.of_nat (length ss) + 1) in
  0 < top - size → user_mapped (p_mem p) (top - size) size →
  swp ('(tbl, sp) ← push_strings ((λ s, s ++ [0]) <$> ss) top; push_ptrs tbl past sp) p (λ sp p',
    p_spl p' = p_spl p ∧ ∀ ld, ld_mem ld = p_mem p → exec_image (p_mem p') ld past ss top sp).
Proof.
  intros Hb H0 Htop Hal size Hpos Hm. pose proof (rooms_spec ss) as [Hr1 Hr2]. apply swp_bind.
  eapply swp_mono; [apply push_strings_swp; [done..|lia|]|].
  { intros i Hi. replace (top - rooms ss + i) with (top - size + (size - rooms ss + i)) by lia. apply Hm. lia. }
  intros [tbl sp1] p1 (-> & Hw1 & Ht1). pose proof (Forall2_length _ _ _ Ht1) as Hlen. pose proof Hw1 as (Hb1 & Hs1 & _ & Hm1 & Ho1).
  eapply swp_mono; [apply push_ptrs_swp; [done|lia| |]|]; rewrite ?Hlen.
  { lia. }
  { intros i Hi. apply Hm1. replace (top - rooms ss - 4 * (Z.of_nat (length ss) + 1) + i) with (top - size + i) by lia. apply Hm. lia. }
  intros sp p2 (Hsp & Hw2 & Ht2 & Hp2). pose proof Hw2 as (_ & Hs2 & _ & _ & Ho2). split; [congruence|]. intros ld Hld.
  split_and!; [lia|dlia| | |].
  - intros i s Hi. destruct (Forall2_lookup_r _ _ _ _ _ Ht1 Hi) as (a & Ha & Hu & Hlo & Hhi). exists a. rewrite Hsp in *. split_and!; [by apply Ht2| |lia..].
    eapply user_bytes_mono; [|exact Hu]. intros b Hbb. rewrite length_app in Hbb. cbn in Hbb. apply Ho2. lia.
  - by replace (sp + 4 * Z.of_nat (length ss)) with (top - rooms ss - 4) by lia.
  - intros b Hbb. rewrite Hld. rewrite Ho2, Ho1 by lia. done.
Qed.

(** [C18] Arguments of the new program.  Let execv be called with the name of a
    program that can be loaded (not empty, shorter than 255 bytes, the first four
    bytes at its address mapped) and a vector of at least one string, with memory
    in the kernel and room on the new stack.  With two strings or more, the second
    pointer not being the address 0x40000000, it enters the program with [argc] the number of
    strings and [argv] pointing, word aligned, below all of them to a vector whose
    entries point to copies of the strings, complete and terminated, none of which
    overlaps the vector; nothing else of the new image is touched and the interrupt
    level is as before.  The word after the last entry, which a program expects to
    be null, is whatever follows the table on the kernel stack.  With one string
    only, the call fails with EFAULT and the process is as it was. *)
Theorem execv_passes_arguments p ld past fuel program args name ptrs ss entry top :
  exec_ready p ld fuel program args name ptrs ss entry top →
  if second_ok ptrs then
    swp (sys_execv ld past fuel program args) p (λ r p', ∃ sp,
      r = ExecUser (Z.of_nat (length ss)) sp sp entry ∧ p_spl p' = p_spl p ∧ exec_image (p_mem p') ld past ss top sp)
  else
    swp (sys_execv ld past fuel program args) p (λ r p',
      r = ExecErr (-1) EFAULT ∧ p_spl p' = p_spl p ∧ p_mem p' = p_mem p).
Proof.
  intros Her. destruct (second_ok ptrs) eqn:Esec.
  2:{ unfold sys_execv. apply swp_bind. eapply exec_check_swp; [exact Her|]. rewrite Esec. by apply swp_ret. }
  unfold sys_execv. apply swp_bind. eapply exec_check_swp; [exact Her|]. rewrite Esec.
  destruct Her as [Hb Hn Hnl Hp [Ha0 Hai] Hv Hs _ (Hf1 & Hf2 & Hf3) Hk (Hopen & Hcre & Helf & Hstk) [Htop Hal] [Hpos Hm]].
  pose proof (Forall2_length _ _ _ Hs) as Hlen. pose proof Hn as (Hn0 & _ & Hnu). unfold NAME_MAX, USERTOP in *.
  destruct (p_kmalloc p) as [|[] [|[] [|[] l]]] eqn:Ek; cbn in Hk; try discriminate. injection Hk as Hk.
  apply swp_bind. unfold splhigh. apply swp_bind, swp_gets, swp_bind, swp_modify, swp_ret.
  apply swp_bind. eapply kmalloc_swp; [unfold allocated; cbn; by rewrite Ek|]. cbn [negb].
  apply swp_bind, (copyinstr_swp _ _ name); [done|done|lia|lia|done|lia|]. cbn [Z.eqb negb].
  apply swp_bind, (count_args_swp _ _ ptrs 0); [done|lia|].
  apply swp_bind. eapply kmalloc_swp; [unfold allocated; cbn; by rewrite Ek|]. cbn [negb]. rewrite Nat2Z.id, Hlen.
  apply swp_bind, (copy_args_swp _ _ ptrs ss 0); [done..| |].
  { unfold allocated. cbn. by rewrite Ek. }
  assert (Hname : buf_write (replicate (Z.to_nat 255) 0) 0 (name ++ [0]) = name ++ 0 :: drop (length name + 1) (replicate (Z.to_nat 255) 0)).
  { unfold buf_write. rewrite length_app. cbn [length take app Z.to_nat]. by rewrite <-app_assoc. }
  rewrite Hname. apply swp_bind, swp_lift. rewrite kstrlen_ok by done. apply wp_done. rewrite Nat2Z.id, take_app_length, Hopen. cbn [Z.eqb negb].
  apply swp_bind. unfold exec_load. rewrite Hcre, Helf, Hstk. cbn [negb Z.eqb].
  apply swp_bind, swp_gets, swp_bind, swp_modify, swp_bind, swp_modify, swp_ret.
  assert (H0 : Forall (λ s, 0 ∉ s) ss).
  { apply Forall_forall. intros s Hin. apply list_elem_of_lookup in Hin as [i Hi]. by destruct (Forall2_lookup_r _ _ _ _ _ Hs Hi) as (a & _ & (H & _) & _). }
  set (p1 := mkProc _ _ _ _). pose proof (exec_stack_swp p1 past ss top Hb H0 Htop Hal Hpos Hm) as Hst.
  apply swp_Done in Hst as (sp & p2 & E & Hspl & Himg). apply swp_Done. cbn in E.
  unfold mbind, stm_bind in E |- *. unfold mbind, outcome_bind in E |- *. destruct (push_strings _ top p1) as [[[tbl sp1] p3]| | |]; try discriminate.
  rewrite E. eexists _, _. split; [done|]. exists sp. split_and!; [done|done|]. apply Himg. done.
Qed.

(** ** An example *)

Module ExecExample.
Definition check_bytes (m : umem) (a : Z) (bs : list Z) : bool :=
  forallb (λ k, bool_decide (m !! (a + Z.of_nat k) = bs !! k)) (seq 0 (length bs)).

Lemma check_bytes_ok m a bs : check_bytes m a bs = true → user_bytes m a bs.
Proof.
  intros H k v Hk. unfold check_bytes in H. rewrite forallb_forall in H. pose proof (lookup_lt_Some _ _ _ Hk).
  specialize (H k ltac:(apply in_seq; lia)). apply bool_decide_eq_true in H. congruence.
Qed.

Lemma check_mapped_ok m a bs : check_bytes m a bs = true → user_mapped m a (Z.of_nat (length bs)).
Proof.
  intros H i Hi. destruct (lookup_lt_is_Some_2 bs (Z.to_nat i)) as [v Hv]; [lia|].
  apply (check_bytes_ok _ _ _ H) in Hv. rewrite Z2Nat.id in Hv by lia. eauto.
Qed.

(** The image of a shell that calls execv("/cp", {"cp", "a", NULL}), and a new image
    with 64 bytes of stack. *)
Definition old_mem : umem :=
  user_write (user_write (user_write (user_write ∅ 1000 [47; 99; 112; 0]) 2000 (bytes_of 3000 ++ bytes_of 3004 ++ bytes_of 0)) 3000 [99; 112; 0; 0]) 3004 [97; 0].
Definition new_mem : umem := user_write ∅ 2147483584 (replicate 64 0).
Definition example_proc : proc := mkProc old_mem false 0 (replicate 5 true).
Definition example_loader : loader :=
  mkLoader (λ name, if decide (name = [47; 99; 112]) then 0 else ENOENT) true (0, 4194304) (0, 2147483648) new_mem.

Lemma example_word a w : check_bytes old_mem a (bytes_of w) = true → 0 ≤ w < 4294967296 → 0 ≤ a → a + 4 ≤ USERTOP → a mod 4 = 0 → user_word old_mem a w.
Proof. intros. split_and!; try done. by apply check_bytes_ok. Qed.

Lemma example_string a s : check_bytes old_mem a (s ++ [0]) = true → (0 ∉ s) → a + Z.of_nat (length s) + 1 ≤ USERTOP → user_cstring old_mem a s.
Proof. intros. split_and!; try done. by apply check_bytes_ok. Qed.

Lemma example_ready :
  exec_ready example_proc example_loader 10 1000 2000 [47; 99; 112] [3000; 3004] [[99; 112]; [97]] 4194304 2147483648.
Proof.
  split; try done.
  - apply example_string; [vm_compute; reflexivity|set_solver by lia|done].
  - split_and!; try done. by apply (check_mapped_ok _ _ [47; 99; 112; 0]).
  - split; [|apply example_word; done || (vm_compute; reflexivity)]. intros [|[|i]] w Hi; cbn in Hi; simplify_eq; (split; [|done]); apply example_word; done || (vm_compute; reflexivity).
  - unfold user_strings. apply Forall2_cons. split; [split; [apply example_string; [vm_compute; reflexivity|set_solver by lia|done]|done]|].
    apply Forall2_cons. split; [split; [apply example_string; [vm_compute; reflexivity|set_solver by lia|done]|done]|]. constructor.
  - split_and!; [cbn; lia..|]. repeat constructor; cbn; lia.
  - split; [done|]. apply (check_mapped_ok _ _ (replicate 20 0)). vm_compute. reflexivity.
Qed.

Lemma execv_passes_arguments_witness :
  swp (sys_execv example_loader 77 10 1000 2000) example_proc (λ r p', ∃ sp,
    r = ExecUser 2 sp sp 4194304 ∧ p_spl p' = 0 ∧ exec_image (p_mem p') example_loader 77 [[99; 112]; [97]] 2147483648 sp).
Proof.
  exact (execv_passes_arguments example_proc example_loader 77 10 1000 2000 [47; 99; 112] [3000; 3004] [[99; 112]; [97]] 4194304 2147483648 example_ready).
Defined.
End ExecExample.
