(* ===== verification/Process.v ===== *)
(** * arch/mips/mips/syscall.c: exit and waitpid

    The two calls as the processes run them, statement by statement: a step is one
    statement on the process table or one call of a lock or condition variable, which
    behave as thread/synch.c implements them ([lock_acquire] goes on when the lock is
    free; [cv_wait] gives the lock up and sleeps in one step; [cv_broadcast] wakes all
    sleepers, who then take the lock again).  Every interleaving of the steps is
    considered.  The rest of a process, and the end of the thread, are not part of
    this file. *)

From stdpp Require Import gmap.
From S2P Require Import Prelude.

Definition TOTAL_PROCESSES : Z := 128.

(** struct process; [exitpermission] is the owner of the lock, if any. *)
Record process := mkProcess {
  processthread : bool;
  exited : Z;
  exitcode : Z;
  waiting : Z;
  parentPID : Z;
  exitpermission : option Z;
}.

(** Where a process is: in a call of waitpid for [pid], or of exit with [code]. *)
Inductive pos :=
| Running
| WTestExited (pid : Z)
| WSeenExited (pid : Z)
| WAcquire (pid : Z)
| WWait (pid : Z)
| WSleep (pid : Z)
| WWoken (pid : Z)
| WHeld (pid : Z)
| WReadCode (pid : Z)
| WSetWaiting (pid status : Z)
| WReturned (pid status : Z)
| XAcquire (code : Z)
| XHeld (code : Z)
| XBroadcast (code : Z)
| XReleased (code : Z)
| XExited (code : Z)
| XDone (code : Z).

(** The process table and the processes, by their PID. *)
Record psys := mkPsys { table : gmap Z process; at_pos : gmap Z pos }.

Definition set_entry (i : Z) (e : process) (s : psys) : psys := mkPsys (<[i := e]> (table s)) (at_pos s).
Definition set_pos (t : Z) (p : pos) (s : psys) : psys := mkPsys (table s) (<[t := p]> (at_pos s)).

Definition set_owner (o : option Z) (e : process) : process :=
  mkProcess (processthread e) (exited e) (exitcode e) (waiting e) (parentPID e) o.
Definition set_exited (e : process) : process :=
  mkProcess (processthread e) 1 (exitcode e) (waiting e) (parentPID e) (exitpermission e).
Definition set_exitcode (c : Z) (e : process) : process :=
  mkProcess (processthread e) (exited e) c (waiting e) (parentPID e) (exitpermission e).
Definition set_waiting (e : process) : process :=
  mkProcess (processthread e) (exited e) (exitcode e) 1 (parentPID e) (exitpermission e).

(** The tests at the start of [sys_waitpid]: the error, or [None] to go on.
    [copyin] is its result for the status pointer; the call for process 0 writes
    through the pointer before it fails. *)
Definition waitpid_check (s : psys) (me PID status options copyin : Z) : outcome (option Z) :=
  if negb (options =? 0) then Done (Some EINVAL) else
  if status =? 0 then Done (Some EFAULT) else
  if (PID <? 0) || (PID >=? TOTAL_PROCESSES) then Done (Some EINVAL) else
  if PID =? 0 then Done (Some EINVAL) else
  if negb (copyin =? 0) then Done (Some copyin) else
  if negb (Z.rem (s32 status) 4 =? 0) then Done (Some EINVAL) else
  match table s !! PID, table s !! me with
  | Some e, Some m =>
      Done (if negb (processthread e) then Some EINVAL
            else if waiting e =? 1 then Some EINVAL
            else if PID =? me then Some EINVAL
            else if PID =? parentPID m then Some EINVAL
            else None)
  | _, _ => Undef
  end.

(** All that sleep on the condition variable of [pid] wake up. *)
Definition wake (pid : Z) (p : pos) : pos := match p with WSleep q => if q =? pid then WWoken q else p | _ => p end.
Definition broadcast (pid : Z) (s : psys) : psys := mkPsys (table s) (wake pid <$> at_pos s).

(** [sys_waitpid] after the tests, one statement at a time; [None] waits. *)
Definition sys_waitpid (t : Z) (p : pos) (s : psys) : option psys :=
  match p with
  | WTestExited pid =>
      e ← table s !! pid;
      Some (set_pos t (if exited e =? 1 then WSeenExited pid else WAcquire pid) s)
  | WSeenExited pid => e ← table s !! pid; Some (set_pos t (WReturned pid (exitcode e)) s)
  | WAcquire pid =>
      e ← table s !! pid;
      match exitpermission e with
      | None => Some (set_pos t (WWait pid) (set_entry pid (set_owner (Some t) e) s))
      | Some _ => None
      end
  | WWait pid => e ← table s !! pid; Some (set_pos t (WSleep pid) (set_entry pid (set_owner None e) s))
  | WWoken pid =>
      e ← table s !! pid;
      match exitpermission e with
      | None => Some (set_pos t (WHeld pid) (set_entry pid (set_owner (Some t) e) s))
      | Some _ => None
      end
  | WHeld pid => e ← table s !! pid; Some (set_pos t (WReadCode pid) (set_entry pid (set_owner None e) s))
  | WReadCode pid => e ← table s !! pid; Some (set_pos t (WSetWaiting pid (exitcode e)) s)
  | WSetWaiting pid v => e ← table s !! pid; Some (set_pos t (WReturned pid v) (set_entry pid (set_waiting e) s))
  | _ => None
  end.

(** [sys_exit], up to [thread_exit]. *)
Definition sys_exit (t : Z) (p : pos) (s : psys) : option psys :=
  match p with
  | XAcquire c =>
      e ← table s !! t;
      match exitpermission e with
      | None => Some (set_pos t (XHeld c) (set_entry t (set_owner (Some t) e) s))
      | Some _ => None
      end
  | XHeld c => Some (set_pos t (XBroadcast c) (broadcast t s))
  | XBroadcast c => e ← table s !! t; Some (set_pos t (XReleased c) (set_entry t (set_owner None e) s))
  | XReleased c => e ← table s !! t; Some (set_pos t (XExited c) (set_entry t (set_exited e) s))
  | XExited c => e ← table s !! t; Some (set_pos t (XDone c) (set_entry t (set_exitcode c e) s))
  | _ => None
  end.

Inductive pstep : psys → psys → Prop :=
| step_call_wait s t pid status options copyin :
    at_pos s !! t = Some Running → waitpid_check s t pid status options copyin = Done None → pstep s (set_pos t (WTestExited pid) s)
| step_call_exit s t code : at_pos s !! t = Some Running → pstep s (set_pos t (XAcquire code) s)
| step_wait s s' t p : at_pos s !! t = Some p → sys_waitpid t p s = Some s' → pstep s s'
| step_exit s s' t p : at_pos s !! t = Some p → sys_exit t p s = Some s' → pstep s s'
| step_return s t pid v : at_pos s !! t = Some (WReturned pid v) → pstep s (set_pos t Running s).

Definition psteps : psys → psys → Prop := rtc pstep.

(** Before anybody exits: every process has an entry, with its lock free. *)
Definition fresh (s : psys) : Prop :=
  (∀ t e, table s !! t = Some e → exited e = 0 ∧ exitpermission e = None) ∧
  (∀ t p, at_pos s !! t = Some p → p = Running ∧ is_Some (table s !! t)).

(** ** What exit has done *)

(** Past its broadcast in [sys_exit]. *)
Definition exit_code (p : pos) : option Z :=
  match p with XBroadcast c | XReleased c | XExited c | XDone c => Some c | _ => None end.

(** The process this one has been told about. *)
Definition told (p : pos) : option Z :=
  match p with WSeenExited q | WWoken q | WHeld q | WReadCode q | WSetWaiting q _ | WReturned q _ => Some q | _ => None end.

Definition status_of (p : pos) : option (Z * Z) :=
  match p with WSetWaiting q v | WReturned q v => Some (q, v) | _ => None end.

(** The entry as the exiting process has left it; [code0] is the exit code it had. *)
Definition entry_ok (code0 : Z) (p : option pos) (e : process) : Prop :=
  match p with
  | Some (XExited c) => exited e = 1 ∧ exitcode e = code0
  | Some (XDone c) => exited e = 1 ∧ exitcode e = c
  | _ => exited e = 0 ∧ exitcode e = code0
  end.

Definition proc_inv (code0 : Z → Z) (s : psys) : Prop :=
  (∀ t p q, at_pos s !! t = Some p → told p = Some q → ∃ p' c, at_pos s !! q = Some p' ∧ exit_code p' = Some c) ∧
  (∀ t p q v, at_pos s !! t = Some p → status_of p = Some (q, v) → ∃ p' c, at_pos s !! q = Some p' ∧ exit_code p' = Some c ∧ (v = c ∨ v = code0 q)) ∧
  (∀ t e, table s !! t = Some e → entry_ok (code0 t) (at_pos s !! t) e).

(** [q] is past its broadcast, with code [c]. *)
Definition exiting (s : psys) (q c : Z) : Prop := ∃ p, at_pos s !! q = Some p ∧ exit_code p = Some c.

(** A process moves on, and changes at most what is its own in the table. *)
Lemma pinv_move code0 s s' t p p' :
  proc_inv code0 s → at_pos s !! t = Some p → at_pos s' = <[t := p']> (at_pos s) →
  (∀ c, exit_code p = Some c → exit_code p' = Some c) →
  (∀ q, told p' = Some q → told p = Some q ∨ ∃ c, exiting s q c) →
  (∀ q v, status_of p' = Some (q, v) → status_of p = Some (q, v) ∨ ∃ c, exiting s q c ∧ (v = c ∨ v = code0 q)) →
  (∀ u e', table s' !! u = Some e' → ∃ e, table s !! u = Some e ∧
     (u ≠ t → exited e' = exited e ∧ exitcode e' = exitcode e) ∧ (u = t → entry_ok (code0 t) (Some p) e → entry_ok (code0 t) (Some p') e')) →
  proc_inv code0 s'.
Proof.
  intros (I1 & I2 & I3) Hp Hs' Hexit Htold Hstat Htab. unfold proc_inv. rewrite Hs'.
  assert (Hmono : ∀ q c, exiting s q c → ∃ p'' c, <[t := p']> (at_pos s) !! q = Some p'' ∧ exit_code p'' = Some c).
  { intros q c (p'' & Hq & Hc). destruct (decide (q = t)) as [->|].
    - rewrite lookup_insert_eq. simplify_eq. eauto.
    - rewrite lookup_insert_ne by done. eauto. }
  assert (Hmono2 : ∀ q c, exiting s q c → ∃ p'', <[t := p']> (at_pos s) !! q = Some p'' ∧ exit_code p'' = Some c).
  { intros q c (p'' & Hq & Hc). destruct (decide (q = t)) as [->|]; [rewrite lookup_insert_eq|rewrite lookup_insert_ne by done]; simplify_eq; eauto. }
  split_and!.
  - intros u pu q Hu Hq. destruct (decide (u = t)) as [->|].
    + rewrite lookup_insert_eq in Hu. injection Hu as <-. destruct (Htold q Hq) as [Ho|[c Hc]]; [|by eapply Hmono].
      destruct (I1 t p q Hp Ho) as (p'' & c & H1 & H2). eapply Hmono. exists p''. eauto.
    + rewrite lookup_insert_ne in Hu by done. destruct (I1 u pu q Hu Hq) as (p'' & c & H1 & H2). eapply Hmono. exists p''. eauto.
  - intros u pu q v Hu Hq. destruct (decide (u = t)) as [->|].
    + rewrite lookup_insert_eq in Hu. injection Hu as <-. destruct (Hstat q v Hq) as [Ho|(c & Hc & Hv)].
      * destruct (I2 t p q v Hp Ho) as (p'' & c & H1 & H2 & H3). destruct (Hmono2 q c) as (x & ? & ?); [by exists p''|]. eauto 6.
      * destruct (Hmono2 q c Hc) as (x & ? & ?). eauto 6.
    + rewrite lookup_insert_ne in Hu by done. destruct (I2 u pu q v Hu Hq) as (p'' & c & H1 & H2 & H3).
      destruct (Hmono2 q c) as (x & ? & ?); [by exists p''|]. eauto 6.
  - intros u e' He'. destruct (Htab u e' He') as (e & He & Hne & Heq). specialize (I3 u e He). destruct (decide (u = t)) as [->|].
    + rewrite lookup_insert_eq. rewrite Hp in I3. auto.
    + rewrite lookup_insert_ne by done. destruct (Hne ltac:(done)) as [E1 E2]. unfold entry_ok in *. rewrite E1, E2. done.
Qed.

(** A step that does not touch the table. *)
Lemma table_same code0 s t p p' :
  (∀ e, entry_ok (code0 t) (Some p) e → entry_ok (code0 t) (Some p') e) →
  ∀ u e', table s !! u = Some e' → ∃ e, table s !! u = Some e ∧
     (u ≠ t → exited e' = exited e ∧ exitcode e' = exitcode e) ∧ (u = t → entry_ok (code0 t) (Some p) e → entry_ok (code0 t) (Some p') e').
Proof. intros H u e' He. exists e'. split_and!; [done|done|]. intros ->. apply H. Qed.

(** A step that changes one entry but not what exit leaves in it. *)
Lemma table_entry code0 s t p p' i e g :
  table s !! i = Some e → exited (g e) = exited e → exitcode (g e) = exitcode e →
  (∀ e, entry_ok (code0 t) (Some p) e → entry_ok (code0 t) (Some p') e) →
  ∀ u e', <[i := g e]> (table s) !! u = Some e' → ∃ e, table s !! u = Some e ∧
     (u ≠ t → exited e' = exited e ∧ exitcode e' = exitcode e) ∧ (u = t → entry_ok (code0 t) (Some p) e → entry_ok (code0 t) (Some p') e').
Proof.
  intros Hi E1 E2 H u e' He. destruct (decide (u = i)) as [->|].
  - rewrite lookup_insert_eq in He. injection He as <-. exists e. split_and!; [done|done|]. intros -> Ho. apply H in Ho.
    unfold entry_ok in *. rewrite E1, E2. done.
  - rewrite lookup_insert_ne in He by done. by apply (table_same code0 s t p p').
Qed.

(** The code in the entry of a process that one has been told about. *)
Lemma read_code code0 s t p q e :
  proc_inv code0 s → at_pos s !! t = Some p → told p = Some q → table s !! q = Some e →
  ∃ c, exiting s q c ∧ (exitcode e = c ∨ exitcode e = code0 q).
Proof.
  intros (I1 & _ & I3) Hp Hq He. destruct (I1 t p q Hp Hq) as (p' & c & Hp' & Hc). exists c. split; [by exists p'|].
  specialize (I3 _ _ He). rewrite Hp' in I3. destruct p'; cbn in Hc, I3; simplify_eq; tauto.
Qed.

Lemma waitpid_inv code0 s s' t p : proc_inv code0 s → at_pos s !! t = Some p → sys_waitpid t p s = Some s' → proc_inv code0 s'.
Proof.
  intros Hinv Hp Hst. pose proof Hinv as (I1 & I2 & I3).
  destruct p as [|pid|pid|pid|pid|pid|pid|pid|pid|pid v|pid v|c|c|c|c|c|c]; cbn in Hst; try discriminate;
    destruct (table s !! pid) as [e|] eqn:He; try discriminate; cbn in Hst.
  - injection Hst as <-. pose proof (I3 _ _ He) as Hok. destruct (Z.eqb_spec (exited e) 1) as [Ee|Ee].
    + eapply (pinv_move _ _ _ t); [exact Hinv|exact Hp|done|done| |done|by apply (table_same _ s)].
      intros q [= <-]. right. unfold entry_ok in Hok. destruct (at_pos s !! pid) as [[]|] eqn:Ep; try (destruct Hok; congruence); eexists; by eexists.
    + eapply (pinv_move _ _ _ t); [exact Hinv|exact Hp|done|done|done|done|by apply (table_same _ s)].
  - injection Hst as <-. eapply (pinv_move _ _ _ t); [exact Hinv|exact Hp|done|done|by left| |by apply (table_same _ s)].
    intros q v [= <- <-]. right. by eapply read_code.
  - destruct (exitpermission e); [discriminate|]. injection Hst as <-.
    eapply (pinv_move _ _ _ t); [exact Hinv|exact Hp|done|done|done|done|by eapply (table_entry _ s _ _ _ pid e)].
  - injection Hst as <-. eapply (pinv_move _ _ _ t); [exact Hinv|exact Hp|done|done|done|done|by eapply (table_entry _ s _ _ _ pid e)].
  - destruct (exitpermission e); [discriminate|]. injection Hst as <-.
    eapply (pinv_move _ _ _ t); [exact Hinv|exact Hp|done|done|by left|done|by eapply (table_entry _ s _ _ _ pid e)].
  - injection Hst as <-. eapply (pinv_move _ _ _ t); [exact Hinv|exact Hp|done|done|by left|done|by eapply (table_entry _ s _ _ _ pid e)].
  - injection Hst as <-. eapply (pinv_move _ _ _ t); [exact Hinv|exact Hp|done|done|by left| |by apply (table_same _ s)].
    intros q v [= <- <-]. right. by eapply read_code.
  - injection Hst as <-. eapply (pinv_move _ _ _ t); [exact Hinv|exact Hp|done|done|by left|by left|by eapply (table_entry _ s _ _ _ pid e)].
Qed.

Lemma exit_inv code0 s s' t p : proc_inv code0 s → at_pos s !! t = Some p → sys_exit t p s = Some s' → proc_inv code0 s'.
Proof.
  intros Hinv Hp Hst. pose proof Hinv as (I1 & I2 & I3).
  destruct p as [|pid|pid|pid|pid|pid|pid|pid|pid|pid v|pid v|c|c|c|c|c|c]; cbn in Hst; try discriminate.
  - destruct (table s !! t) as [e|] eqn:He; [|discriminate]. cbn in Hst. destruct (exitpermission e); [discriminate|]. injection Hst as <-.
    eapply (pinv_move _ _ _ t); [exact Hinv|exact Hp|done|done|done|done|by eapply (table_entry _ s _ _ _ t e)].
  - injection Hst as <-.
    assert (Hnew : ∀ q p1, <[t := XBroadcast c]> (wake t <$> at_pos s) !! q = Some p1 →
              (q = t ∧ p1 = XBroadcast c) ∨ (q ≠ t ∧ ∃ p0, at_pos s !! q = Some p0 ∧ p1 = wake t p0)).
    { intros q p1 Hq. destruct (decide (q = t)) as [->|]; [rewrite lookup_insert_eq in Hq; left; split; congruence|].
      rewrite lookup_insert_ne, lookup_fmap in Hq by done. right. split; [done|]. apply fmap_Some in Hq as (p0 & ? & ->). eauto. }
    assert (Hex : ∀ q p1 c1, at_pos s !! q = Some p1 → exit_code p1 = Some c1 → ∃ p2, <[t := XBroadcast c]> (wake t <$> at_pos s) !! q = Some p2 ∧ exit_code p2 = Some c1).
    { intros q p1 c1 Hq Hc. destruct (decide (q = t)) as [->|]; [simplify_eq; done|]. rewrite lookup_insert_ne, lookup_fmap, Hq by done.
      eexists. split; [done|]. by destruct p1. }
    split_and!; cbn [set_pos broadcast table at_pos].
    + intros u pu q Hu Hq. destruct (Hnew u pu Hu) as [[-> ->]|(Hne & p0 & Hu0 & ->)]; [done|].
      destruct (told p0) as [q0|] eqn:E0.
      * assert (told (wake t p0) = told p0) as E1 by (by destruct p0). rewrite E1, E0 in Hq. injection Hq as ->.
        destruct (I1 u p0 q Hu0 E0) as (p'' & c1 & H1 & H2). destruct (Hex _ _ _ H1 H2) as (p2 & ? & ?). eauto.
      * destruct p0 as [|w1|w0|w2|w3|w4|w5|w6|w7|w8 v8|w9 v9|x1|x2|x3|x4|x5|x6]; cbn in E0, Hq; try done. destruct (Z.eqb_spec w4 t) as [Ew|Ew]; [|done]. cbn in Hq.
        assert (q = t) as -> by congruence. exists (XBroadcast c), c. by rewrite lookup_insert_eq.
    + intros u pu q v Hu Hq. destruct (Hnew u pu Hu) as [[-> ->]|(Hne & p0 & Hu0 & ->)]; [done|].
      assert (status_of p0 = Some (q, v)) as E0.
      { destruct p0 as [|w1|w0|w2|w3|w4|w5|w6|w7|w8 v8|w9 v9|x1|x2|x3|x4|x5|x6]; try done. cbn in Hq. by destruct (w4 =? t). }
      destruct (I2 u p0 q v Hu0 E0) as (p'' & c1 & H1 & H2 & H3). destruct (Hex _ _ _ H1 H2) as (p2 & ? & ?). eauto 6.
    + intros u e He. specialize (I3 u e He). destruct (decide (u = t)) as [->|].
      * rewrite lookup_insert_eq. rewrite Hp in I3. done.
      * rewrite lookup_insert_ne, lookup_fmap by done. destruct (at_pos s !! u) as [p0|]; [|done]. cbn. destruct p0 as [|w1|w0|w2|w3|w4|w5|w6|w7|w8 v8|w9 v9|x1|x2|x3|x4|x5|x6]; try done. cbn. by destruct (w4 =? t).
  - destruct (table s !! t) as [e|] eqn:He; [|discriminate]. injection Hst as <-.
    eapply (pinv_move _ _ _ t); [exact Hinv|exact Hp|done|done|done|done|by eapply (table_entry _ s _ _ _ t e)].
  - destruct (table s !! t) as [e|] eqn:He; [|discriminate]. injection Hst as <-.
    eapply (pinv_move _ _ _ t); [exact Hinv|exact Hp|done|done|done|done|]. intros u e' Hu. cbn in Hu. destruct (decide (u = t)) as [->|].
    + rewrite lookup_insert_eq in Hu. injection Hu as <-. exists e. split_and!; [done|done|]. intros _ [_ Hc]. done.
    + rewrite lookup_insert_ne in Hu by done. exists e'. done.
  - destruct (table s !! t) as [e|] eqn:He; [|discriminate]. injection Hst as <-.
    eapply (pinv_move _ _ _ t); [exact Hinv|exact Hp|done|done|done|done|]. intros u e' Hu. cbn in Hu. destruct (decide (u = t)) as [->|].
    + rewrite lookup_insert_eq in Hu. injection Hu as <-. exists e. split_and!; [done|done|]. intros _ [Hc _]. done.
    + rewrite lookup_insert_ne in Hu by done. exists e'. done.
Qed.

Lemma pstep_inv code0 s s' : proc_inv code0 s → pstep s s' → proc_inv code0 s'.
Proof.
  intros Hinv Hst. destruct Hst as [s t pid status options ci Hp _|s t code Hp|s s' t p Hp Hst|s s' t p Hp Hst|s t pid v Hp].
  - eapply (pinv_move _ _ _ t); [exact Hinv|exact Hp|done|done|done|done|by apply (table_same _ s)].
  - eapply (pinv_move _ _ _ t); [exact Hinv|exact Hp|done|done|done|done|by apply (table_same _ s)].
  - by eapply waitpid_inv.
  - by eapply exit_inv.
  - eapply (pinv_move _ _ _ t); [exact Hinv|exact Hp|done|done|done|done|by apply (table_same _ s)].
Qed.

(** The exit code a process has in the table before it exits. *)
Definition code_in (s : psys) (t : Z) : Z := match table s !! t with Some e => exitcode e | None => 0 end.

Lemma pfresh_inv s : fresh s → proc_inv (code_in s) s.
Proof.
  intros [Ht Hp]. split_and!.
  - intros t p q H. by destruct (Hp _ _ H) as [-> _].
  - intros t p q v H. by destruct (Hp _ _ H) as [-> _].
  - intros t e He. unfold code_in. rewrite He. destruct (at_pos s !! t) as [p|] eqn:Ep; [destruct (Hp _ _ Ep) as [-> _]|]; (split; [by eapply Ht|done]).
Qed.

Lemma psteps_inv code0 s s' : proc_inv code0 s → psteps s s' → proc_inv code0 s'.
Proof. intros Hinv. induction 1 as [|x y z H1 _ IH]; [done|]. by apply IH, (pstep_inv code0 x). Qed.

Lemma waitpid_moves t p s s' : sys_waitpid t p s = Some s' → ∃ p', at_pos s' = <[t := p']> (at_pos s).
Proof.
  destruct p as [|pid|pid|pid|pid|pid|pid|pid|pid|pid v|pid v|c|c|c|c|c|c]; cbn; try done; destruct (table s !! pid) as [e|]; cbn; try done;
    try destruct (exitpermission e); intros; simplify_eq; cbn; eauto.
Qed.

Lemma exit_moves t p s s' :
  sys_exit t p s = Some s' → ∃ p', at_pos s' = <[t := p']> (at_pos s) ∨ at_pos s' = <[t := p']> (wake t <$> at_pos s).
Proof.
  destruct p as [|pid|pid|pid|pid|pid|pid|pid|pid|pid v|pid v|c|c|c|c|c|c]; cbn; try done.
  2:{ intros [= <-]. cbn. eauto. }
  all: destruct (table s !! t) as [e|]; cbn; try done; try destruct (exitpermission e); intros; simplify_eq; cbn; eauto.
Qed.

(** A process that has finished exit takes no more steps of these calls. *)
Lemma done_stays s s' pid c : psteps s s' → at_pos s !! pid = Some (XDone c) → at_pos s' !! pid = Some (XDone c).
Proof.
  induction 1 as [|x y z Hst _ IH]; [done|]. intros Hx. apply IH. clear IH z.
  destruct Hst as [s t q status options ci Hp _|s t code Hp|s s'' t p Hp Hst|s s'' t p Hp Hst|s t q v Hp].
  1, 2, 5: cbn; by rewrite lookup_insert_ne by congruence.
  all: assert (t ≠ pid) as Hne by (intros ->; simplify_eq; done).
  - apply waitpid_moves in Hst as [p' ->]. by rewrite lookup_insert_ne.
  - apply exit_moves in Hst as [p' [->| ->]]; rewrite lookup_insert_ne by done; [done|]. by rewrite lookup_fmap, Hx.
Qed.

(** [C36] waitpid and exit.  However processes run, a call of waitpid returns success
    only once the process it waits for is past the broadcast in its call of exit.
    The status it delivers is then the code of that exit or the one the table
    had before.  When the other process has finished exit by the time waitpid
    tests it, waitpid takes the short way, the other process stays finished
    whatever happens until waitpid reads the status, and the status is then the
    code of that exit. *)
Theorem waitpid_after_exit s0 s :
  fresh s0 → psteps s0 s →
  (∀ t pid v, at_pos s !! t = Some (WReturned pid v) → ∃ c, exiting s pid c ∧ (v = c ∨ v = code_in s0 pid)) ∧
  (∀ pid c, at_pos s !! pid = Some (XDone c) →
    (∀ t s', sys_waitpid t (WTestExited pid) s = Some s' → at_pos s' !! t = Some (WSeenExited pid)) ∧
    (∀ s1, psteps s s1 → at_pos s1 !! pid = Some (XDone c)) ∧
    (∀ t s', sys_waitpid t (WSeenExited pid) s = Some s' → at_pos s' !! t = Some (WReturned pid c))).
Proof.
  intros Hf Hs. pose proof (psteps_inv _ _ _ (pfresh_inv _ Hf) Hs) as (_ & I2 & I3). split.
  - intros t pid v Hp. destruct (I2 t _ pid v Hp eq_refl) as (p & c & H1 & H2 & H3). exists c. split; [by exists p|done].
  - intros pid c Hx. split_and!.
    + intros t s' Hst. cbn in Hst. destruct (table s !! pid) as [e|] eqn:He; [|done]. specialize (I3 _ _ He).
      rewrite Hx in I3. destruct I3 as [E1 _]. cbn in Hst. rewrite E1 in Hst. injection Hst as <-. cbn. by rewrite lookup_insert_eq.
    + intros s1 Hs1. by eapply done_stays.
    + intros t s' Hst. cbn in Hst. destruct (table s !! pid) as [e|] eqn:He; [|done]. specialize (I3 _ _ He).
      rewrite Hx in I3. destruct I3 as [_ E2]. injection Hst as <-. cbn. by rewrite lookup_insert_eq, E2.
Qed.

(** ** Two schedules *)

Module Race.
(** What happens next: a call, or the next statement of a process. *)
Inductive move := MWait (t pid : Z) | MExit (t code : Z) | MGo (t : Z).

Definition drive1 (s : psys) (m : move) : option psys :=
  match m with
  | MWait t pid =>
      match at_pos s !! t, waitpid_check s t pid 4096 0 0 with
      | Some Running, Done None => Some (set_pos t (WTestExited pid) s)
      | _, _ => None
      end
  | MExit t code => match at_pos s !! t with Some Running => Some (set_pos t (XAcquire code) s) | _ => None end
  | MGo t =>
      match at_pos s !! t with
      | Some p => match sys_waitpid t p s with Some s' => Some s' | None => sys_exit t p s end
      | None => None
      end
  end.

Fixpoint drive (s : psys) (ms : list move) : option psys :=
  match ms with [] => Some s | m :: ms => s ← drive1 s m; drive s ms end.

Lemma drive1_sound s m s' : drive1 s m = Some s' → pstep s s'.
Proof.
  destruct m as [t pid|t code|t]; cbn [drive1]; intros H.
  - destruct (at_pos s !! t) as [[]|] eqn:Ep; try done. destruct (waitpid_check s t pid 4096 0 0) as [[?|]| | |] eqn:Ec; try done.
    simplify_eq. by eapply step_call_wait.
  - destruct (at_pos s !! t) as [[]|] eqn:Ep; try done. simplify_eq. by apply step_call_exit.
  - destruct (at_pos s !! t) as [p|] eqn:Ep; [|done]. destruct (sys_waitpid t p s) eqn:Ew; simplify_eq; [by eapply step_wait|by eapply step_exit].
Qed.

Lemma pdrive_sound s ms s' : drive s ms = Some s' → psteps s s'.
Proof.
  revert s. induction ms as [|m ms IH]; intros s H; cbn in H; [simplify_eq; apply rtc_refl|].
  destruct (drive1 s m) as [s1|] eqn:E; [|done]. eapply rtc_l; [by eapply drive1_sound|by apply IH].
Qed.

(** Process 2 and its child 3. *)
Definition family : psys :=
  mkPsys (<[2 := mkProcess true 0 0 0 0 None]> (<[3 := mkProcess true 0 0 0 2 None]> ∅)) (<[2 := Running]> (<[3 := Running]> ∅)).

Lemma family_fresh : fresh family.
Proof.
  split.
  - intros t e H. unfold family in H. cbn in H. apply lookup_insert_Some in H as [[_ <-]|[_ H]]; [done|].
    apply lookup_insert_Some in H as [[_ <-]|[_ H]]; [done|]. by rewrite lookup_empty in H.
  - intros t p H. unfold family in H |- *. cbn in H |- *. apply lookup_insert_Some in H as [[<- <-]|[_ H]]; [done|].
    apply lookup_insert_Some in H as [[<- <-]|[_ H]]; [done|]. by rewrite lookup_empty in H.
Qed.

(** The parent sleeps, the child exits with 7 and is interrupted after it has released the lock. *)
Definition stale_run : list move :=
  [MWait 2 3; MGo 2; MGo 2; MGo 2; MExit 3 7; MGo 3; MGo 3; MGo 3; MGo 2; MGo 2; MGo 2; MGo 2].

(** The parent finds the child alive and is interrupted; the child exits. *)
Definition lost_run : list move := [MWait 2 3; MGo 2; MExit 3 7; MGo 3; MGo 3; MGo 3; MGo 3; MGo 3; MGo 2; MGo 2].

Definition after (ms : list move) : psys := match drive family ms with Some s => s | None => family end.

Lemma stuck_forever s s' : at_pos s !! 2 = Some (WSleep 3) → at_pos s !! 3 = Some (XDone 7) → psteps s s' → at_pos s' !! 2 = Some (WSleep 3).
Proof.
  intros H2 H3 Hs. cut (at_pos s' !! 2 = Some (WSleep 3) ∧ at_pos s' !! 3 = Some (XDone 7)); [by intros [? _]|].
  induction Hs as [|x y z Hst _ IH]; [done|]. assert (at_pos y !! 2 = Some (WSleep 3) ∧ at_pos y !! 3 = Some (XDone 7)) as [? ?]; [|by apply IH]. clear IH z.
  destruct Hst as [s t pid status options ci Hp _|s t code Hp|s s'' t p Hp Hst|s s'' t p Hp Hst|s t pid v Hp].
  1, 2, 5: cbn; rewrite !lookup_insert_ne by congruence; done.
  all: assert (t ≠ 2 ∧ t ≠ 3) as [N2 N3] by (split; intros ->; simplify_eq; done).
  - apply waitpid_moves in Hst as [p' ->]. by rewrite !lookup_insert_ne by done.
  - apply exit_moves in Hst as [p' [->| ->]]; rewrite !lookup_insert_ne by done; [done|].
    assert (wake t (WSleep 3) = WSleep 3) as Ew by (unfold wake; by rewrite (proj2 (Z.eqb_neq 3 t)) by congruence).
    rewrite !lookup_fmap, H2, H3. split; [exact (f_equal Some Ew)|done].
Qed.

(** [C37] The order of the statements in exit leaves two windows.  There is a run in
    which the parent's waitpid returns success with status 0 although the child exits
    with 7, and a run in which the child has exited and the parent, whose waitpid
    found it alive, sleeps and is never woken. *)
Theorem exit_waitpid_races :
  (psteps family (after stale_run) ∧ at_pos (after stale_run) !! 2 = Some (WReturned 3 0) ∧ at_pos (after stale_run) !! 3 = Some (XReleased 7)) ∧
  (psteps family (after lost_run) ∧ at_pos (after lost_run) !! 3 = Some (XDone 7) ∧
   ∀ s, psteps (after lost_run) s → at_pos s !! 2 = Some (WSleep 3)).
Proof.
  assert (H : ∀ ms s, drive family ms = Some s → psteps family (after ms)).
  { intros ms s E. unfold after. rewrite E. by eapply pdrive_sound. }
  split; (split; [eapply H; vm_compute; reflexivity|]); (split; [vm_compute; reflexivity|]).
  - vm_compute. reflexivity.
  - intros s. apply stuck_forever; vm_compute; reflexivity.
Qed.

Lemma waitpid_after_exit_witness :
  (∀ t pid v, at_pos (after stale_run) !! t = Some (WReturned pid v) → ∃ c, exiting (after stale_run) pid c ∧ (v = c ∨ v = code_in family pid)) ∧
  (∀ pid c, at_pos (after stale_run) !! pid = Some (XDone c) →
    (∀ t s', sys_waitpid t (WTestExited pid) (after stale_run) = Some s' → at_pos s' !! t = Some (WSeenExited pid)) ∧
    (∀ s1, psteps (after stale_run) s1 → at_pos s1 !! pid = Some (XDone c)) ∧
    (∀ t s', sys_waitpid t (WSeenExited pid) (after stale_run) = Some s' → at_pos s' !! t = Some (WReturned pid c))).
Proof.
  apply (waitpid_after_exit family); [exact family_fresh|]. apply (pdrive_sound family stale_run). vm_compute. reflexivity.
Defined.
End Race.
