(* ===== verification/Syscall.v ===== *)
(** * arch/mips/mips/syscall.c: the system call handler and the calls on the console

    [mips_syscall] takes its arguments from the trapframe and puts the result there.
    The calls that write and read the console, the time, the heap and the process
    number are defined here, execv in file Exec; exit and waitpid (file Process),
    fork and reboot are operations of a class. *)

From S2P Require Import Prelude Copyinout Uio Tty Exec.

Definition SYS__exit : Z := 0.
Definition SYS_execv : Z := 1.
Definition SYS_fork : Z := 2.
Definition SYS_waitpid : Z := 3.
Definition SYS_read : Z := 5.
Definition SYS_write : Z := 6.
Definition SYS_reboot : Z := 8.
Definition SYS_sbrk : Z := 10.
Definition SYS_getpid : Z := 11.
Definition SYS___time : Z := 28.
Definition STDIN_FILENO : Z := 0.
Definition STDOUT_FILENO : Z := 1.
Definition STDERR_FILENO : Z := 2.
Definition PAGE_SIZE : Z := 4096.
(** [USERSTACK - PAGE_SIZE * STACKPAGES]. *)
Definition STACK_OD_VSTART : Z := 2147483648 - 4096 * 512.

(** struct trapframe: the registers the handler uses. *)
Record trapframe := mkTf { tf_v0 : Z; tf_a0 : Z; tf_a1 : Z; tf_a2 : Z; tf_a3 : Z; tf_epc : Z }.

(** The current process, the console, the start and the end of the heap, and the
    number of the process. *)
Record sys (T : Type) := mkSys { y_proc : proc; y_tty : T; y_heap : Z * Z; y_pid : Z }.
Arguments mkSys {T} _ _ _ _.
Arguments y_proc {T} _.
Arguments y_tty {T} _.
Arguments y_heap {T} _.
Arguments y_pid {T} _.

(** The calls that are not defined here; exit does not come back, and fork and
    waitpid answer with the error and the value. *)
Class Calls (T : Type) := {
  call_reboot : Z → stm (sys T) Z;
  call_fork : trapframe → stm (sys T) (Z * Z);
  call_exit : Z → stm (sys T) unit;
  call_waitpid : Z → Z → Z → stm (sys T) (Z * Z);
}.

Section syscall.
Context {T : Type} `{!Tty T} `{!Calls T}.

Definition on_proc {A} (m : stm proc A) : stm (sys T) A := λ s,
  '(a, p) ← m (y_proc s); Done (a, mkSys p (y_tty s) (y_heap s) (y_pid s)).
Definition on_tty {A} (m : stm T A) : stm (sys T) A := λ s,
  '(a, t) ← m (y_tty s); Done (a, mkSys (y_proc s) t (y_heap s) (y_pid s)).

(** A [char] is signed. *)
Definition schar (b : Z) : Z := if b <? 128 then b else b - 256.

(** [kmalloc] of [n] bytes that is not checked: nothing can be stored through NULL. *)
Definition kmalloc_bytes (n : Z) : stm (sys T) (list Z) := ok ← on_proc kmalloc; mret (if ok : bool then replicate (Z.to_nat n) 0 else []).

(** [putch(array[i])] for the characters from [i] on. *)
Definition put_array (n : nat) (array : list Z) : stm (sys T) unit :=
  _ ← for_stm n 0 (λ i _, c ← lift (arr_get array i); on_tty (putch (schar c));; mret (inl tt : unit + unit)) tt; mret tt.

Definition sys_write (fd buf nbytes : Z) : stm (sys T) Z :=
  if negb (fd =? STDOUT_FILENO) && negb (fd =? STDERR_FILENO) then mret EBADF else
  array ← kmalloc_bytes nbytes;
  '(result, array) ← on_proc (p_copyin buf array nbytes);
  if result =? EFAULT then mret EFAULT else
  put_array (Z.to_nat nbytes) array;;
  mret 0.

(** [array[i] = getch()] for every [i]. *)
Definition get_array (n : nat) (array : list Z) : stm (sys T) (list Z) :=
  r ← for_stm n 0 (λ i a, c ← on_tty getch; a ← lift (arr_set a i (Z.land c 255)); mret (inl a : list Z + unit)) array;
  match r with inl a => mret a | inr _ => mret [] end.

(** What is copied out is [sizeof (buf)] bytes: the size of a pointer. *)
Definition sys_read (fd buf buflen : Z) : stm (sys T) Z :=
  if negb (fd =? STDIN_FILENO) then mret EBADF else
  array ← kmalloc_bytes buflen;
  array ← get_array (Z.to_nat buflen) array;
  result ← on_proc (p_copyout array buf 4);
  if result =? EFAULT then mret EFAULT else
  mret 0.

Definition sys_getpid : stm (sys T) (Z * Z) := pid ← gets y_pid; mret (0, pid).

(** [gettime] gives the seconds and the nanoseconds; the error and the value. *)
Definition sys__time (gettime : Z * Z) (seconds nanoseconds : Z) : stm (sys T) (Z * Z) :=
  sec ← on_proc kmalloc;
  nsec ← on_proc kmalloc;
  lift (if (sec : bool) && (nsec : bool) then Done tt else Undef);;
  err ← (if seconds =? 0 then mret 0 else on_proc (p_copyout (bytes_of (u32 gettime.1)) seconds 4));
  if negb (err =? 0) then mret (EFAULT, 0) else
  err ← (if nanoseconds =? 0 then mret 0 else on_proc (p_copyout (bytes_of gettime.2) nanoseconds 4));
  if negb (err =? 0) then mret (EFAULT, 0) else
  mret (0, gettime.1).

(** [empty] is what [num_empty_cm] returns. *)
Definition sys_sbrk (empty amount : Z) : stm (sys T) (Z * Z) :=
  '(vstart, vend) ← gets y_heap;
  let vend' := u32 (vend + amount) in
  if vend' <? vstart then mret (EINVAL, 0) else
  if vend' >? STACK_OD_VSTART then mret (ENOMEM, -1) else
  room ← lift (to_int (empty * PAGE_SIZE));
  if amount >? room then mret (ENOMEM, -1) else
  modify (λ s, mkSys (y_proc s) (y_tty s) (vstart, vend') (y_pid s));;
  mret (0, vend).

(** ** The handler *)

(** How a system call ends: back in the program, in a new program, or not at all. *)
Inductive sys_end := SReturn (tf : trapframe) | SUser (argc argv sp entry : Z) | SExit.

(** The result in the registers, past the syscall instruction. *)
Definition sys_result (tf : trapframe) (err retval : Z) : trapframe :=
  if negb (err =? 0)
  then mkTf (u32 err) (tf_a0 tf) (tf_a1 tf) (tf_a2 tf) 1 (u32 (tf_epc tf + 4))
  else mkTf (u32 retval) (tf_a0 tf) (tf_a1 tf) (tf_a2 tf) 0 (u32 (tf_epc tf + 4)).

Definition finish (tf : trapframe) (err retval : Z) : stm (sys T) sys_end :=
  s ← gets y_proc;
  lift (kassert (p_spl s =? 0));;
  mret (SReturn (sys_result tf err retval)).

Definition mips_syscall (ld : loader) (past : Z) (fuel : nat) (gettime : Z * Z) (empty : Z) (tf : trapframe) : stm (sys T) sys_end :=
  s ← gets y_proc;
  lift (kassert (p_spl s =? 0));;
  let callno := s32 (tf_v0 tf) in
  if callno =? SYS_reboot then err ← call_reboot (s32 (tf_a0 tf)); finish tf err 0
  else if callno =? SYS_write then
    err ← sys_write (s32 (tf_a0 tf)) (tf_a1 tf) (tf_a2 tf); finish tf err (if negb (err =? 0) then err else tf_a2 tf)
  else if callno =? SYS_read then
    err ← sys_read (s32 (tf_a0 tf)) (tf_a1 tf) (tf_a2 tf); finish tf err (if negb (err =? 0) then err else tf_a2 tf)
  else if callno =? SYS_fork then '(err, retval) ← call_fork tf; finish tf err retval
  else if callno =? SYS_getpid then '(err, retval) ← sys_getpid; finish tf err retval
  else if callno =? SYS__exit then call_exit (s32 (tf_a0 tf));; mret SExit
  else if callno =? SYS_waitpid then '(err, retval) ← call_waitpid (s32 (tf_a0 tf)) (tf_a1 tf) (s32 (tf_a2 tf)); finish tf err retval
  else if callno =? SYS___time then '(err, retval) ← sys__time gettime (tf_a0 tf) (tf_a1 tf); finish tf err retval
  else if callno =? SYS_execv then
    r ← on_proc (sys_execv ld past fuel (tf_a0 tf) (tf_a1 tf));
    match r with
    | ExecErr retval err => finish tf err retval
    | ExecUser argc argv sp entry => mret (SUser argc argv sp entry)
    end
  else if callno =? SYS_sbrk then '(err, retval) ← sys_sbrk empty (s32 (tf_a0 tf)); finish tf err retval
  else finish tf ENOSYS 0.

(** [md_forkentry], up to the switch to user mode: the registers of the child. *)
Definition md_forkentry (tf : trapframe) : trapframe :=
  mkTf 0 (tf_a0 tf) (tf_a1 tf) (tf_a2 tf) 0 (u32 (tf_epc tf + 4)).
End syscall.

(** ** What the program sees *)

Section console_calls.
Context {T : Type} `{!Tty T} `{!TtyLaws T} `{!Calls T}.
Implicit Types s : sys T.

Lemma on_proc_swp {A} (m : stm proc A) s (Q : A → sys T → Prop) :
  swp m (y_proc s) (λ a p, Q a (mkSys p (y_tty s) (y_heap s) (y_pid s))) → swp (on_proc m) s Q.
Proof. intros H. unfold swp, on_proc. apply wp_bind. eapply wp_mono; [exact H|]. by intros [a p]. Qed.

Lemma on_tty_swp {A} (m : stm T A) s (Q : A → sys T → Prop) :
  swp m (y_tty s) (λ a t, Q a (mkSys (y_proc s) t (y_heap s) (y_pid s))) → swp (on_tty m) s Q.
Proof. intros H. unfold swp, on_tty. apply wp_bind. eapply wp_mono; [exact H|]. by intros [a t]. Qed.

(** Everything but the console. *)
Definition same_but_tty s s' : Prop := y_proc s' = y_proc s ∧ y_heap s' = y_heap s ∧ y_pid s' = y_pid s.

Lemma put_array_swp array s :
  swp (put_array (length array) array) s (λ _ s', same_but_tty s s' ∧ tin (y_tty s') = tin (y_tty s) ∧ tout (y_tty s') = tout (y_tty s) ++ (schar <$> array)).
Proof.
  unfold put_array. apply swp_bind. eapply swp_mono; [apply (swp_for_stm (λ i _ s', same_but_tty s s' ∧ tin (y_tty s') = tin (y_tty s) ∧
    tout (y_tty s') = tout (y_tty s) ++ (schar <$> take (Z.to_nat i) array)) (λ _ _, False))|].
  - split_and!; [done..|]. change (Z.to_nat 0) with 0%nat. by rewrite take_0, app_nil_r.
  - intros j [] s1 Hj (Hs & Hi & Ho). destruct (lookup_lt_is_Some_2 array (Z.to_nat j)) as [c Hc]; [lia|].
    apply swp_bind, swp_lift. rewrite (arr_get_Some _ _ c) by (done || lia). apply wp_done, swp_bind, on_tty_swp.
    eapply swp_mono; [apply putch_law|]. intros [] t [Ho' Hi']. apply swp_ret. cbn. split_and!; [apply Hs..|congruence|].
    rewrite Ho', Ho. replace (Z.to_nat (j + 1)) with (S (Z.to_nat j)) by lia. rewrite (take_S_r _ _ c) by done. by rewrite fmap_app, <-app_assoc.
  - intros [[]|[]] s1; [|done]. rewrite Z.add_0_l, Nat2Z.id, firstn_all. intros H. by apply swp_ret.
Qed.

(** A process that is running normally, with memory to be had. *)
Definition ordinary s : Prop := p_bff (y_proc s) = false ∧ p_spl (y_proc s) = 0 ∧ ∃ l, p_kmalloc (y_proc s) = true :: l.

Lemma sys_write_swp s fd buf n :
  ordinary s → 0 ≤ buf < 4294967296 → 0 ≤ n < 4294967296 → fd = STDOUT_FILENO ∨ fd = STDERR_FILENO →
  swp (sys_write fd buf n) s (λ r s', p_mem (y_proc s') = p_mem (y_proc s) ∧ p_bff (y_proc s') = false ∧ p_spl (y_proc s') = 0 ∧
    y_heap s' = y_heap s ∧ y_pid s' = y_pid s ∧ tin (y_tty s') = tin (y_tty s) ∧
    ((user_region buf n ∧ user_mapped (p_mem (y_proc s)) buf n ∧ r = 0 ∧
      tout (y_tty s') = tout (y_tty s) ++ (schar <$> ubytes (p_mem (y_proc s)) buf (Z.to_nat n))) ∨
     (¬ (user_region buf n ∧ user_mapped (p_mem (y_proc s)) buf n) ∧ r = EFAULT ∧ tout (y_tty s') = tout (y_tty s)))).
Proof.
  intros (Hb & Hs & l & Hk) Hbuf Hn Hfd. unfold sys_write, STDOUT_FILENO, STDERR_FILENO in *.
  assert (negb (fd =? 1) && negb (fd =? 2) = false) as -> by lia. unfold kmalloc_bytes.
  apply swp_bind, swp_bind, on_proc_swp. eapply kmalloc_swp; [exact Hk|]. apply swp_ret, swp_bind, on_proc_swp.
  unfold p_copyin. apply swp_bind, swp_gets, swp_bind, swp_lift. unfold id. cbn [y_proc allocated p_mem p_bff]. rewrite Hb.
  eapply wp_mono; [apply copyin_wp; [lia..|rewrite length_replicate; lia]|].
  intros [[r d] b] [(-> & -> & Hu & Hm & ->)|(-> & Hbb & Hnot & _)]; apply swp_bind, swp_modify, swp_ret.
  - cbn [Z.eqb]. assert (Hd : buf_write (replicate (Z.to_nat n) 0) 0 (ubytes (p_mem (y_proc s)) buf (Z.to_nat n)) = ubytes (p_mem (y_proc s)) buf (Z.to_nat n)).
    { unfold buf_write. change (Z.to_nat 0) with 0%nat. rewrite drop_ge; [apply app_nil_r|]. rewrite length_replicate, length_ubytes. lia. }
    rewrite Hd. apply swp_bind. rewrite <-(length_ubytes (p_mem (y_proc s)) buf (Z.to_nat n)) at 1.
    eapply swp_mono; [apply put_array_swp|]. intros [] s' ((Hp & Hh & Hpid) & Hi & Ho). apply swp_ret. cbn in *. rewrite Hp. cbn. split_and!; [done..|]. by left.
  - apply swp_ret. cbn. split_and!; [done| by destruct Hbb|done..|]. by right.
Qed.

(** The numbers for which the handler has a case. *)
Definition handled_calls : list Z :=
  [SYS_reboot; SYS_write; SYS_read; SYS_fork; SYS_getpid; SYS__exit; SYS_waitpid; SYS___time; SYS_execv; SYS_sbrk].

(** Between system calls: no copy is in progress, and interrupts are on. *)
Definition running s : Prop := p_bff (y_proc s) = false ∧ p_spl (y_proc s) = 0.

Lemma finish_swp tf err retval s (Q : sys_end → sys T → Prop) :
  p_spl (y_proc s) = 0 → Q (SReturn (sys_result tf err retval)) s → swp (finish tf err retval) s Q.
Proof. intros Hs HQ. unfold finish. apply swp_bind, swp_gets, swp_bind, swp_kassert; [by apply Z.eqb_eq|]. by apply swp_ret. Qed.

Lemma mips_syscall_write ld past fuel gettime empty s tf (Q : sys_end → sys T → Prop) :
  running s → s32 (tf_v0 tf) = SYS_write →
  swp (sys_write (s32 (tf_a0 tf)) (tf_a1 tf) (tf_a2 tf)) s (λ err s', p_spl (y_proc s') = 0 ∧
    Q (SReturn (sys_result tf err (if negb (err =? 0) then err else tf_a2 tf))) s') →
  swp (mips_syscall ld past fuel gettime empty tf) s Q.
Proof.
  intros [_ Hs] Hv H. unfold mips_syscall. apply swp_bind, swp_gets, swp_bind, swp_kassert; [by apply Z.eqb_eq|].
  rewrite Hv. cbn [Z.eqb SYS_write SYS_reboot Pos.eqb]. apply swp_bind. eapply swp_mono; [exact H|].
  intros err s' [Hs' HQ]. by apply finish_swp.
Qed.

Lemma mips_syscall_unknown ld past fuel gettime empty s tf :
  running s → s32 (tf_v0 tf) ∉ handled_calls →
  swp (mips_syscall ld past fuel gettime empty tf) s (λ r s', r = SReturn (sys_result tf ENOSYS 0) ∧ s' = s).
Proof.
  intros [_ Hs] Hv. unfold mips_syscall. apply swp_bind, swp_gets, swp_bind, swp_kassert; [by apply Z.eqb_eq|].
  unfold handled_calls in Hv. rewrite !not_elem_of_cons in Hv. destruct Hv as (? & ? & ? & ? & ? & ? & ? & ? & ? & ? & _). cbv zeta.
  repeat match goal with H : s32 (tf_v0 tf) ≠ ?c |- _ => rewrite (proj2 (Z.eqb_neq (s32 (tf_v0 tf)) c) H); clear H end.
  by apply finish_swp.
Qed.

(** Without memory the copy stores through NULL. *)
Lemma copyin_null m bff a n :
  0 ≤ a < 4294967296 → 0 ≤ n < 4294967296 → user_region a n → user_mapped m a n → copyin m bff a [] 0 n = Undef.
Proof.
  intros Ha Hn [Hpos Hend] Hm. unfold USERTOP in Hend. unfold copyin. rewrite copycheck_pos by lia.
  rewrite bool_decide_false by (unfold USERTOP; lia). rewrite Z.min_l by (unfold USERTOP; lia). cbn [negb Z.eqb]. rewrite Z.eqb_refl. cbn [negb].
  unfold memcpy. destruct (Z.to_nat n) as [|k] eqn:En; [lia|]. cbn [for_loop]. unfold copy_byte, user_load, USERTOP.
  destruct (Hm 0) as [v Hv]; [lia|]. rewrite (proj2 (Z.ltb_ge (a + 0) 0)), (proj2 (Z.leb_gt _ (a + 0))) by lia.
  cbn [orb mbind outcome_bind]. rewrite Hv. reflexivity.
Qed.

Lemma sys_write_null s fd buf n :
  p_bff (y_proc s) = false → head (p_kmalloc (y_proc s)) ≠ Some true → 0 ≤ buf < 4294967296 → 0 ≤ n < 4294967296 →
  fd = STDOUT_FILENO ∨ fd = STDERR_FILENO → user_region buf n → user_mapped (p_mem (y_proc s)) buf n →
  sys_write fd buf n s = Undef.
Proof.
  intros Hb Hk Hbuf Hn Hfd Hr Hm. unfold sys_write, STDOUT_FILENO, STDERR_FILENO in *.
  assert (negb (fd =? 1) && negb (fd =? 2) = false) as -> by lia.
  unfold kmalloc_bytes, kmalloc, on_proc, p_copyin, gets, lift, mbind, stm_bind. cbn.
  destruct (p_kmalloc (y_proc s)) as [|[] l]; cbn in Hk |- *; [|done|]; by rewrite copyin_null.
Qed.


(** ** Reading the console and growing the heap *)

Lemma get_array_swp n array s :
  length array = n → (n ≤ length (tin (y_tty s)))%nat →
  swp (get_array n array) s (λ a s', same_but_tty s s' ∧ a = (λ c, Z.land c 255) <$> take n (tin (y_tty s)) ∧
    tin (y_tty s') = drop n (tin (y_tty s)) ∧ tout (y_tty s') = tout (y_tty s)).
Proof.
  intros Hl Hin. unfold get_array. apply swp_bind. eapply swp_mono; [apply (swp_for_stm (λ i a s', same_but_tty s s' ∧
    a = ((λ c, Z.land c 255) <$> take (Z.to_nat i) (tin (y_tty s))) ++ drop (Z.to_nat i) array ∧
    tin (y_tty s') = drop (Z.to_nat i) (tin (y_tty s)) ∧ tout (y_tty s') = tout (y_tty s)) (λ _ _, False))|].
  - change (Z.to_nat 0) with 0%nat. by rewrite take_0, !drop_0.
  - intros j a s1 Hj (Hs & -> & Hi & Ho). destruct (lookup_lt_is_Some_2 (tin (y_tty s)) (Z.to_nat j)) as [c Hc]; [lia|].
    destruct (lookup_lt_is_Some_2 array (Z.to_nat j)) as [x Hx]; [lia|].
    rewrite (drop_S _ c) in Hi by done. apply swp_bind, on_tty_swp. eapply swp_mono; [by apply getch_law|]. intros r t (-> & Ho' & Hi').
    set (done_ := (λ c, Z.land c 255) <$> take (Z.to_nat j) (tin (y_tty s))).
    assert (Hdl : length done_ = Z.to_nat j) by (unfold done_; rewrite length_fmap, length_take; lia).
    apply swp_bind, swp_lift. rewrite arr_set_in by (rewrite length_app, length_drop; lia). apply wp_done, swp_ret. cbn. split_and!; [apply Hs..| | |congruence].
    + rewrite (drop_S array x) by done. rewrite <-Hdl at 1. rewrite insert_app_r_alt, Nat.sub_diag by lia. cbn.
      replace (Z.to_nat (j + 1)) with (S (Z.to_nat j)) by lia. rewrite (take_S_r _ _ c) by done. by rewrite fmap_app, <-app_assoc.
    + by replace (Z.to_nat (j + 1)) with (S (Z.to_nat j)) by lia.
  - intros [a|[]] s1; [|done]. rewrite Z.add_0_l, Nat2Z.id, drop_ge, app_nil_r by lia. intros H. by apply swp_ret.
Qed.

(** However long the request, a read takes that many characters and delivers the
    first four. *)
Lemma sys_read_delivers_four s buf n :
  ordinary s → 0 ≤ buf → buf + 4 ≤ USERTOP → user_mapped (p_mem (y_proc s)) buf 4 → 4 ≤ n ≤ Z.of_nat (length (tin (y_tty s))) →
  swp (sys_read STDIN_FILENO buf n) s (λ r s', r = 0 ∧ tin (y_tty s') = drop (Z.to_nat n) (tin (y_tty s)) ∧
    user_bytes (p_mem (y_proc s')) buf ((λ c, Z.land c 255) <$> take 4 (tin (y_tty s))) ∧
    ∀ b, b < buf ∨ buf + 4 ≤ b → p_mem (y_proc s') !! b = p_mem (y_proc s) !! b).
Proof.
  intros (Hb & Hs & l & Hk) Hbuf Hu Hm Hn. unfold sys_read. cbn [Z.eqb negb STDIN_FILENO]. unfold kmalloc_bytes.
  apply swp_bind, swp_bind, on_proc_swp. eapply kmalloc_swp; [exact Hk|]. apply swp_ret, swp_bind.
  eapply swp_mono; [apply get_array_swp; [by rewrite length_replicate|cbn; lia]|]. intros a s1 ((Hp & _ & _) & -> & Hi & _). cbn in Hi |- *.
  set (keys := tin (y_tty s)) in *. assert (Hlen : (4 ≤ length keys)%nat) by lia.
  apply swp_bind, on_proc_swp. unfold p_copyout. apply swp_bind, swp_gets, swp_bind, swp_lift. unfold id. rewrite Hp. cbn [y_proc allocated p_mem p_bff]. rewrite Hb.
  eapply wp_mono; [apply copyout_wp; unfold USERTOP in *; [lia..|rewrite length_fmap, length_take; lia]|].
  intros [[r m] b] [(-> & -> & _ & _ & ->)|(_ & _ & Hno & _)].
  2:{ destruct Hno. split; [|done]. split; [lia|done]. }
  apply swp_bind, swp_modify, swp_ret, swp_ret. cbn [y_proc y_tty p_mem].
  assert (Ht : take (Z.to_nat 4) (drop (Z.to_nat 0) ((λ c, Z.land c 255) <$> take (Z.to_nat n) keys)) = (λ c, Z.land c 255) <$> take 4 keys).
  { change (Z.to_nat 0) with 0%nat. change (Z.to_nat 4) with 4%nat. rewrite drop_0, <-fmap_take, take_take, Nat.min_l by lia. done. }
  rewrite Ht. split_and!; [done..|apply user_write_bytes|]. intros b' Hb'. apply user_write_other. rewrite length_fmap, length_take. lia.
Qed.

(** The heap stays between its start and the stack, and does not move on an error. *)
Lemma sys_sbrk_bounds s empty amount :
  let '(vstart, vend) := y_heap s in
  0 ≤ vstart ≤ vend → vend ≤ STACK_OD_VSTART → INT_MIN ≤ empty * PAGE_SIZE ≤ INT_MAX →
  swp (sys_sbrk empty amount) s (λ '(err, retval) s', y_proc s' = y_proc s ∧ y_tty s' = y_tty s ∧
    (err = 0 ∧ retval = vend ∧ y_heap s' = (vstart, u32 (vend + amount)) ∧ vstart ≤ u32 (vend + amount) ≤ STACK_OD_VSTART ∨ err ≠ 0 ∧ s' = s)).
Proof.
  destruct (y_heap s) as [vstart vend] eqn:Eh. intros H1 H2 H3. unfold sys_sbrk. apply swp_bind, swp_gets. rewrite Eh.
  destruct (Z.ltb_spec (u32 (vend + amount)) vstart); [apply swp_ret; split_and!; [done..|by right]|].
  destruct (Z.gtb_spec (u32 (vend + amount)) STACK_OD_VSTART); [apply swp_ret; split_and!; [done..|by right]|].
  apply swp_bind, swp_lift, wp_to_int; [done|]. destruct (amount >? empty * PAGE_SIZE); [apply swp_ret; split_and!; [done..|by right]|].
  apply swp_bind, swp_modify, swp_ret. cbn. split_and!; [done..|]. left. split_and!; done || lia.
Qed.
End console_calls.

(** ** An example *)

Module SyscallExample.
#[local] Existing Instance TtyExample.term_tty.
#[local] Existing Instance TtyExample.term_laws.

(** A kernel in which the other calls are refused. *)
#[local] Instance no_calls : Calls TtyExample.term := {
  call_reboot _ := mret EINVAL;
  call_fork _ := mret (EAGAIN, 0);
  call_exit _ := mret tt;
  call_waitpid _ _ _ := mret (EINVAL, 0);
}.

(** A process with "hi" at 4096, about to write it. *)
Definition hello_mem : umem := user_write ∅ 4096 [104; 105].
Definition hello : sys TtyExample.term := mkSys (mkProc hello_mem false 0 [true]) (TtyExample.mkTerm [] []) (8192, 8192) 2.
Definition hello_tf : trapframe := mkTf SYS_write 1 4096 2 0 4194304.

Lemma hello_ordinary : ordinary hello.
Proof. split_and!; [done|done|by eexists]. Qed.

End SyscallExample.
