(* ===== verification/Menu.v ===== *)
(** * kern/main/menu.c: the command menu of the kernel

    A command line is cut into commands at semicolons and a command into words at
    blanks, in place, with [strtok_r]; the first word selects the entry of the command
    table.  The commands that call other parts of the kernel do so through a class.
    What is printed is not modelled. *)

From Stdlib Require Import String Ascii.
From stdpp Require Import list.
From S2P Require Import Prelude.

#[local] Open Scope list_scope.
#[local] Open Scope Z_scope.

Definition MAXMENUARGS : Z := 16.
Definition E2BIG : Z := 25.

(** The characters of a string constant. *)
Definition chars (s : string) : list Z := (λ c, Z.of_N (N_of_ascii c)) <$> list_ascii_of_string s.

(** ** Time intervals *)

Definition getinterval (s1 ns1 s2 ns2 : Z) : outcome (Z * Z) :=
  '(ns2, s2) ← (if ns2 <? ns1 then s2' ← to_int (s2 - 1); Done (u32 (ns2 + 1000000000), s2') else Done (ns2, s2));
  rs ← to_int (s2 - s1);
  Done (rs, u32 (ns2 - ns1)).

(** The time from one moment to a later one. *)
Lemma getinterval_diff s1 ns1 s2 ns2 :
  0 ≤ ns1 < 1000000000 → 0 ≤ ns2 < 1000000000 → 0 ≤ s1 → s2 ≤ INT_MAX → s1 * 1000000000 + ns1 ≤ s2 * 1000000000 + ns2 →
  ∃ rs rns, getinterval s1 ns1 s2 ns2 = Done (rs, rns) ∧ 0 ≤ rns < 1000000000 ∧
    rs * 1000000000 + rns = (s2 * 1000000000 + ns2) - (s1 * 1000000000 + ns1).
Proof.
  intros H1 H2 Hs Hm Hle. unfold getinterval.
  assert (Hti : ∀ z, INT_MIN ≤ z ≤ INT_MAX → to_int z = Done z) by (intros z Hz; apply wp_eq; by apply wp_to_int).
  unfold INT_MIN, INT_MAX in *. destruct (Z.ltb_spec ns2 ns1).
  - rewrite Hti by lia. cbn [mbind outcome_bind]. rewrite Hti by lia. cbn [mbind outcome_bind].
    rewrite (u32_small (ns2 + _)), u32_small by lia. eexists _, _. split; [done|]. lia.
  - cbn [mbind outcome_bind]. rewrite Hti by lia. cbn [mbind outcome_bind]. rewrite u32_small by lia. eexists _, _. split; [done|]. lia.
Qed.

(** ** strtok_r *)

(** How many of the first characters satisfy [p]. *)
Fixpoint span (p : Z → bool) (l : list Z) : nat := match l with [] => 0 | c :: l' => if p c then S (span p l') else 0 end.

(** A call of [strtok_r] with the context [ctx], where NULL is [None]: the token, if
    there is one, the buffer and the context. *)
Definition strtok_r (delim : Z → bool) (buf : list Z) (ctx : option nat) : outcome (option nat * list Z * option nat) :=
  match ctx with
  | None => Done (None, buf, None)
  | Some head =>
      let head := Nat.add head (span (λ c, negb (c =? 0) && delim c) (drop head buf)) in
      match buf !! head with
      | None => Undef
      | Some c =>
          if c =? 0 then Done (None, buf, None) else
          let tail := Nat.add head (span (λ c, negb (c =? 0) && negb (delim c)) (drop head buf)) in
          match buf !! tail with
          | None => Undef
          | Some c => if c =? 0 then Done (Some head, buf, None) else Done (Some head, <[tail := 0]> buf, Some (S tail))
          end
      end
  end.

(** The string at a place in the buffer. *)
Definition string_at (buf : list Z) (p : nat) : list Z := take (span (λ c, negb (c =? 0)) (drop p buf)) (drop p buf).

Definition is_blank (c : Z) : bool := (c =? 32) || (c =? 9).
Definition is_semi (c : Z) : bool := c =? 59.

(** ** Commands *)

Inductive command :=
| K_mainmenu | K_opsmenu | K_testmenu | K_shell | K_prog | K_dbflags | K_mount | K_unmount | K_bootfs
| K_printfile | K_chdir | K_pwd | K_sync | K_panic | K_quit | K_df | K_catmousesem | K_catmouselock | K_createcars
| K_kheapstats | K_arraytest | K_bitmaptest | K_queuetest | K_malloctest | K_mallocstress | K_nettest | K_threadtest | K_threadtest2
| K_threadtest3 | K_semtest | K_locktest | K_cvtest | K_fstest | K_readstress | K_writestress | K_writestress2 | K_createstress.

(** [synchprobs] and [net] are the configuration options. *)
Definition cmdtable (synchprobs net : bool) : list (list Z * command) :=
  [(chars "?", K_mainmenu); (chars "h", K_mainmenu); (chars "help", K_mainmenu); (chars "?o", K_opsmenu); (chars "?t", K_testmenu);
   (chars "s", K_shell); (chars "p", K_prog); (chars "dbflags", K_dbflags); (chars "mount", K_mount); (chars "unmount", K_unmount);
   (chars "bootfs", K_bootfs); (chars "pf", K_printfile); (chars "cd", K_chdir); (chars "pwd", K_pwd); (chars "sync", K_sync);
   (chars "panic", K_panic); (chars "q", K_quit); (chars "exit", K_quit); (chars "halt", K_quit); (chars "df", K_df)] ++
  (if synchprobs then [(chars "1a", K_catmousesem); (chars "1b", K_catmouselock); (chars "1c", K_createcars)] else []) ++
  [(chars "kh", K_kheapstats); (chars "at", K_arraytest); (chars "bt", K_bitmaptest); (chars "qt", K_queuetest); (chars "km1", K_malloctest);
   (chars "km2", K_mallocstress)] ++
  (if net then [(chars "net", K_nettest)] else []) ++
  [(chars "tt1", K_threadtest); (chars "tt2", K_threadtest2); (chars "tt3", K_threadtest3); (chars "sy1", K_semtest); (chars "sy2", K_locktest);
   (chars "sy3", K_cvtest); (chars "fs1", K_fstest); (chars "fs2", K_readstress); (chars "fs3", K_writestress); (chars "fs4", K_writestress2);
   (chars "fs5", K_createstress)].

(** What the commands call: running a program and waiting for it, the VFS, shutting
    down, and the tests. *)
Class MenuWorld (W : Type) := {
  do_prog : list (list Z) → stm W Z;
  do_chdir : list Z → stm W Z;
  do_getcwd : stm W Z;
  do_sync : stm W unit;
  do_unmount : list Z → stm W Z;
  do_setbootfs : list Z → stm W Z;
  do_mount : list Z → stm W Z;
  do_poweroff : stm W Z;
  do_thread_exit : stm W unit;
  run_test : command → list (list Z) → stm W Z;
}.

Section menu.
Context {W : Type} `{!MenuWorld W}.

(** The kernel and the variable [dbflags]. *)
Record menust := mkMenu { m_dbflags : Z; m_w : W }.

Definition on_world {A} (m : stm W A) : stm menust A := λ s, '(a, w) ← m (m_w s); Done (a, mkMenu (m_dbflags s) w).

(** A word of the command; there is nothing sensible past the last one. *)
Definition arg (args : list (list Z)) (i : nat) : stm menust (list Z) :=
  lift (match args !! i with Some w => Done w | None => Undef end).

(** [device[strlen(device) - 1]] may be a colon, which is cut off. *)
Definition strip_colon (device : list Z) : outcome (list Z) :=
  match last device with
  | None => Undef
  | Some c => Done (if c =? 58 then take (length device - 1) device else device)
  end.

Definition cmd_prog (args : list (list Z)) : stm menust Z :=
  if (length args <? 2)%nat then mret EINVAL else on_world (do_prog (tail args)).
Definition cmd_shell (args : list (list Z)) : stm menust Z :=
  if negb (length args =? 1)%nat then mret EINVAL else on_world (do_prog [chars "/bin/sh"]).
Definition cmd_chdir (args : list (list Z)) : stm menust Z :=
  if negb (length args =? 2)%nat then mret EINVAL else d ← arg args 1; on_world (do_chdir d).
Definition cmd_sync : stm menust Z := on_world do_sync;; mret 0.
Definition cmd_quit : stm menust Z := on_world do_sync;; _ ← on_world do_poweroff; on_world do_thread_exit;; mret 0.

(** The table of filesystems has one entry. *)
Definition cmd_mount (sfs : bool) (args : list (list Z)) : stm menust Z :=
  if negb (length args =? 3)%nat then mret EINVAL else
  fstype ← arg args 1;
  device ← arg args 2;
  device ← lift (strip_colon device);
  if sfs && bool_decide (fstype = chars "sfs") then on_world (do_mount device) else mret EINVAL.

Definition cmd_unmount (args : list (list Z)) : stm menust Z :=
  if negb (length args =? 2)%nat then mret EINVAL else
  device ← arg args 1; device ← lift (strip_colon device); on_world (do_unmount device).

Definition cmd_bootfs (args : list (list Z)) : stm menust Z :=
  if negb (length args =? 2)%nat then mret EINVAL else
  device ← arg args 1; device ← lift (strip_colon device); on_world (do_setbootfs device).

(** The flags by their numbers. *)
Definition dbflag (nr : list Z) : option Z :=
  if decide (nr = chars "1") then Some 0x0001 else if decide (nr = chars "2") then Some 0x0002
  else if decide (nr = chars "3") then Some 0x0004 else if decide (nr = chars "4") then Some 0x0008
  else if decide (nr = chars "5") then Some 0x0010 else if decide (nr = chars "6") then Some 0x0020
  else if decide (nr = chars "7") then Some 0x0040 else if decide (nr = chars "8") then Some 0x0080
  else if decide (nr = chars "9") then Some 0x0100 else if decide (nr = chars "10") then Some 0x0200
  else if decide (nr = chars "11") then Some 0x0400 else if decide (nr = chars "12") then Some 0x0800 else None.

Definition cmd_df (args : list (list Z)) : stm menust Z :=
  nr ← arg args 1;
  match dbflag nr with
  | None => mret 0
  | Some flag =>
      onoff ← arg args 2;
      (if decide (onoff = chars "on") then modify (λ s, mkMenu (Z.lor (m_dbflags s) flag) (m_w s))
       else if decide (onoff = chars "off") then modify (λ s, mkMenu 0 (m_w s)) else mret tt);;
      mret 0
  end.

Definition run_command (sfs : bool) (c : command) (args : list (list Z)) : stm menust Z :=
  match c with
  | K_mainmenu | K_opsmenu | K_testmenu | K_dbflags | K_kheapstats => mret 0
  | K_shell => cmd_shell args
  | K_prog => cmd_prog args
  | K_mount => cmd_mount sfs args
  | K_unmount => cmd_unmount args
  | K_bootfs => cmd_bootfs args
  | K_chdir => cmd_chdir args
  | K_pwd => on_world do_getcwd
  | K_sync => cmd_sync
  | K_panic => lift Panic
  | K_quit => cmd_quit
  | K_df => cmd_df args
  | c => on_world (run_test c args)
  end.

(** ** Dispatch *)

Context (synchprobs net sfs : bool).

(** The words of a command: where they are, or too many ([None]), and the buffer. *)
Fixpoint get_words (fuel : nat) (buf : list Z) (ctx : option nat) (args : list nat) : outcome (option (list nat) * list Z) :=
  match fuel with
  | O => NoFuel
  | S fuel =>
      '(word, buf, ctx) ← strtok_r is_blank buf ctx;
      match word with
      | None => Done (Some args, buf)
      | Some w => if Z.of_nat (length args) >=? MAXMENUARGS then Done (None, buf) else get_words fuel buf ctx (args ++ [w])
      end
  end.

(** The first entry of the table with this name. *)
Fixpoint find_command (tbl : list (list Z * command)) (name : list Z) : option command :=
  match tbl with
  | [] => None
  | (n, c) :: tbl => if bool_decide (n ≠ []) && bool_decide (name = n) then Some c else find_command tbl name
  end.

Definition cmd_dispatch (buf : list Z) (cmd : nat) : stm menust (Z * list Z) :=
  '(args, buf) ← lift (get_words (S (length buf)) buf (Some cmd) []);
  match args with
  | None => mret (E2BIG, buf)
  | Some [] => mret (0, buf)
  | Some args =>
      let words := string_at buf <$> args in
      match find_command (cmdtable synchprobs net) (default [] (head words)) with
      | Some c => r ← run_command sfs c words; mret (r, buf)
      | None => mret (EINVAL, buf)
      end
  end.

Fixpoint execute_from (fuel : nat) (isargs : bool) (buf : list Z) (ctx : option nat) : stm menust unit :=
  match fuel with
  | O => lift NoFuel
  | S fuel =>
      '(command, buf, ctx) ← lift (strtok_r is_semi buf ctx);
      match command with
      | None => mret tt
      | Some c =>
          '(result, buf) ← cmd_dispatch buf c;
          if negb (result =? 0) && isargs then lift Panic else execute_from fuel isargs buf ctx
      end
  end.

(** [line] is the buffer with the line and its terminator. *)
Definition menu_execute (line : list Z) (isargs : bool) : stm menust unit := execute_from (S (length line)) isargs line (Some 0%nat).
End menu.

(** ** The reference: fields *)

(** The maximal runs of characters that are not delimiters. *)
Fixpoint fields (delim : Z → bool) (l : list Z) : list (list Z) :=
  match l with
  | [] => []
  | c :: l' =>
      if delim c then fields delim l' else
      match l' with
      | [] => [[c]]
      | d :: _ => if delim d then [c] :: fields delim l' else match fields delim l' with w :: ws => (c :: w) :: ws | [] => [[c]] end
      end
  end.

Section fields.
Context (delim : Z → bool).

Definition delims (l : list Z) : Prop := Forall (λ c, delim c = true) l.
Definition word (l : list Z) : Prop := Forall (λ c, delim c = false) l ∧ l ≠ [].

Lemma fields_delims ds l : delims ds → fields delim (ds ++ l) = fields delim l.
Proof. induction 1 as [|c ds Hc _ IH]; [done|]. cbn. by rewrite Hc. Qed.

Lemma fields_last w : word w → fields delim w = [w].
Proof.
  intros [Hw Hne]. induction Hw as [|c w Hc Hw IH]; [done|]. cbn. rewrite Hc. destruct w as [|d w]; [done|].
  inversion Hw as [|? ? Hd]; subst. rewrite Hd. rewrite IH by done. done.
Qed.

Lemma fields_word w d l : word w → delim d = true → fields delim (w ++ d :: l) = w :: fields delim l.
Proof.
  intros [Hw Hne] Hd. induction Hw as [|c w Hc Hw IH]; [done|]. cbn [app fields]. rewrite Hc. destruct w as [|e w].
  - cbn. by rewrite Hd.
  - inversion Hw as [|? ? He]; subst. cbn [app]. rewrite He. change (e :: w ++ d :: l) with ((e :: w) ++ d :: l). by rewrite IH.
Qed.

(** A line is blank, or starts with a word, that ends the line or is followed by a delimiter. *)
Lemma fields_cases l :
  delims l ∨ (∃ ds w, l = ds ++ w ∧ delims ds ∧ word w) ∨ (∃ ds w d l', l = ds ++ w ++ d :: l' ∧ delims ds ∧ word w ∧ delim d = true).
Proof.
  induction l as [|c l IH]; [left; constructor|]. destruct (delim c) eqn:Ec.
  - destruct IH as [IH|[(ds & w & -> & H1 & H2)|(ds & w & d & l' & -> & H1 & H2 & H3)]].
    + left. by constructor.
    + right; left. exists (c :: ds), w. split_and!; [done|by constructor|done].
    + right; right. exists (c :: ds), w, d, l'. split_and!; [done|by constructor|done..].
  - right. destruct IH as [IH|[(ds & w & -> & H1 & H2)|(ds & w & d & l' & -> & H1 & H2 & H3)]].
    + destruct l as [|d l]; [left; exists [], [c]|right; exists [], [c], d, l]; (split_and!; try done; try by constructor).
      * split; [by constructor|done].
      * split; [by constructor|done].
      * by inversion IH.
    + destruct ds as [|d ds]; [left; exists [], (c :: w)|right; exists [], [c], d, (ds ++ w)]; (split_and!; try done; try by constructor).
      * destruct H2. split; [by constructor|done].
      * split; [by constructor|done].
      * by inversion H1.
    + right. destruct ds as [|e ds]; [exists [], (c :: w), d, l'|exists [], [c], e, (ds ++ w ++ d :: l')]; (split_and!; try done; try by constructor).
      * destruct H2. split; [by constructor|done].
      * split; [by constructor|done].
      * by inversion H1.
Qed.

Definition plain (l : list Z) : Prop := Forall (λ c, c ≠ 0) l.

Lemma span_app p x y : Forall (λ c, p c = true) x → (∀ c, head y = Some c → p c = false) → span p (x ++ y) = length x.
Proof.
  intros Hx Hy. induction Hx as [|c x Hc _ IH]; cbn; [|by rewrite Hc, IH]. destruct y as [|c y]; [done|]. cbn. by rewrite (Hy c).
Qed.

Lemma plain_delims ds : plain ds → delims ds → Forall (λ c, negb (c =? 0) && delim c = true) ds.
Proof. intros Hp Hd. eapply Forall_impl; [exact (Forall_and _ _ _ (conj Hp Hd)) || (apply Forall_and; split; [exact Hp|exact Hd])|]. intros c [H1 H2]. by rewrite (proj2 (Z.eqb_neq _ _) H1), H2. Qed.

Lemma plain_word w : plain w → word w → Forall (λ c, negb (c =? 0) && negb (delim c) = true) w.
Proof. intros Hp [Hd _]. eapply Forall_impl; [apply Forall_and; split; [exact Hp|exact Hd]|]. intros c [H1 H2]. cbn in *. by rewrite (proj2 (Z.eqb_neq _ _) H1), H2. Qed.

Lemma strtok_none pre ds post : plain ds → delims ds → strtok_r delim (pre ++ ds ++ 0 :: post) (Some (length pre)) = Done (None, pre ++ ds ++ 0 :: post, None).
Proof.
  intros Hp Hd. unfold strtok_r. rewrite drop_app_length, (span_app _ ds) by (by apply plain_delims || (intros c [= <-])).
  rewrite app_assoc, list_lookup_middle by (by rewrite length_app). done.
Qed.

Lemma word_first w : plain w → word w → ∃ c w', w = c :: w' ∧ c ≠ 0 ∧ delim c = false.
Proof. intros Hp [Hw Hne]. destruct w as [|c w]; [done|]. inversion Hp; inversion Hw; subst. eauto. Qed.

Lemma strtok_start pre ds w rest :
  plain ds → plain w → delims ds → word w →
  span (λ c, negb (c =? 0) && delim c) (drop (length pre) (pre ++ ds ++ w ++ rest)) = length ds ∧
  (∃ c, (pre ++ ds ++ w ++ rest) !! (length pre + length ds)%nat = Some c ∧ c ≠ 0).
Proof.
  intros Hpd Hpw Hd Hw. destruct (word_first w Hpw Hw) as (c & w' & -> & Hc0 & Hc). split.
  - rewrite drop_app_length. apply span_app; [by apply plain_delims|]. intros ? [= <-]. rewrite Hc. by destruct (c =? 0).
  - exists c. split; [|done]. rewrite app_assoc, <-length_app. cbn [app]. by rewrite list_lookup_middle.
Qed.

Lemma strtok_word pre ds w d l :
  plain ds → plain w → delims ds → word w → d = 0 ∨ delim d = true →
  let buf := pre ++ ds ++ w ++ d :: l in let p := (length pre + length ds)%nat in
  strtok_r delim buf (Some (length pre)) =
    Done (if d =? 0 then (Some p, buf, None) else (Some p, pre ++ ds ++ w ++ 0 :: l, Some (S (p + length w)))).
Proof.
  intros Hpd Hpw Hd Hw Hdd buf p. destruct (strtok_start pre ds w (d :: l) Hpd Hpw Hd Hw) as [Hs (c & Hc & Hc0)].
  unfold strtok_r. fold buf in Hs, Hc |- *. rewrite Hs. fold p in Hc |- *. rewrite Hc, (proj2 (Z.eqb_neq _ _) Hc0).
  assert (Hdrop : drop p buf = w ++ d :: l).
  { unfold buf, p. rewrite app_assoc, <-length_app. apply drop_app_length. }
  rewrite Hdrop, (span_app _ w); [|by apply plain_word|].
  2:{ intros e [= <-]. destruct Hdd as [->| ->]; [done|]. by destruct (d =? 0). }
  assert (Hend : buf !! (p + length w)%nat = Some d).
  { rewrite <-lookup_drop, Hdrop. by rewrite list_lookup_middle. }
  rewrite Hend. destruct (d =? 0); [done|]. do 3 f_equal. unfold buf, p.
  replace (pre ++ ds ++ w ++ d :: l) with ((pre ++ ds ++ w) ++ d :: l) by (by rewrite <-!app_assoc).
  replace (length pre + length ds + length w)%nat with (length (pre ++ ds ++ w) + 0)%nat by (rewrite !length_app; lia).
  rewrite insert_app_r. cbn. by rewrite <-!app_assoc.
Qed.
End fields.

Lemma string_at_word pre w post : plain w → string_at (pre ++ w ++ 0 :: post) (length pre) = w.
Proof.
  intros Hw. unfold string_at. rewrite drop_app_length, span_app; [by rewrite take_app_length| |by intros c [= <-]].
  eapply Forall_impl; [exact Hw|]. intros c Hc. cbn in Hc. by rewrite (proj2 (Z.eqb_neq _ _) Hc).
Qed.

Lemma plain_app l1 l2 : plain (l1 ++ l2) ↔ plain l1 ∧ plain l2.
Proof. apply Forall_app. Qed.

(** The words of the command [l] are found, unless there are more than sixteen; only
    the command itself changes. *)
Lemma get_words_fields fuel pre l post args :
  plain l → (length l < fuel)%nat → (length args ≤ 16)%nat →
  ∃ r l', get_words fuel (pre ++ l ++ 0 :: post) (Some (length pre)) args = Done (r, pre ++ l' ++ 0 :: post) ∧ length l' = length l ∧
    if (length args + length (fields is_blank l) <=? 16)%nat
    then ∃ offs, r = Some (args ++ offs) ∧ string_at (pre ++ l' ++ 0 :: post) <$> offs = fields is_blank l
    else r = None.
Proof.
  revert pre l args. induction fuel as [|fuel IH]; intros pre l args Hp Hf Ha; [lia|]. cbn [get_words].
  destruct (fields_cases is_blank l) as [Hd|[(ds & w & -> & Hd & Hw)|(ds & w & d & l2 & -> & Hd & Hw & Hdd)]].
  - rewrite strtok_none by done. eexists _, l. split; [done|]. split; [done|].
    rewrite <-(app_nil_r l), fields_delims by done. cbn. rewrite Nat.add_0_r, (proj2 (Nat.leb_le _ _) Ha).
    exists []. by rewrite app_nil_r.
  - apply plain_app in Hp as [Hp1 Hp2]. rewrite <-!(app_assoc ds).
    rewrite (strtok_word is_blank pre ds w 0 post) by auto. cbn [mbind outcome_bind Z.eqb].
    rewrite fields_delims, fields_last by done. destruct (Z.geb_spec (Z.of_nat (length args)) MAXMENUARGS) as [H|H]; unfold MAXMENUARGS in H.
    + eexists _, (ds ++ w). rewrite <-app_assoc. split; [done|]. split; [done|]. cbn. rewrite (proj2 (Nat.leb_gt _ _)) by lia. done.
    + destruct fuel as [|fuel]; [exfalso; destruct Hw as [_ Hw]; destruct w; [done|]; rewrite length_app in Hf; cbn in Hf; lia|].
      cbn [get_words strtok_r mbind outcome_bind].
      eexists _, (ds ++ w). rewrite <-!app_assoc. cbn [app]. split; [done|]. split; [done|]. cbn [length]. rewrite (proj2 (Nat.leb_le _ _)) by lia.
      eexists. split; [done|]. cbn. f_equal. rewrite <-length_app, app_assoc. by apply string_at_word.
  - apply plain_app in Hp as [Hp1 Hp2]. apply plain_app in Hp2 as [Hp2 Hp3]. inversion Hp3 as [|? ? Hd0 Hp4]; subst.
    rewrite <-!app_assoc. cbn [app]. rewrite (strtok_word is_blank pre ds w d) by auto. rewrite (proj2 (Z.eqb_neq _ _) Hd0). cbn [mbind outcome_bind].
    rewrite fields_delims, fields_word by done. destruct (Z.geb_spec (Z.of_nat (length args)) MAXMENUARGS) as [H|H]; unfold MAXMENUARGS in H.
    + eexists _, (ds ++ w ++ 0 :: l2). rewrite <-!app_assoc. split; [done|]. split; [by rewrite !length_app|]. cbn. rewrite (proj2 (Nat.leb_gt _ _)) by lia. done.
    + replace (S (length pre + length ds + length w))%nat with (length (pre ++ ds ++ w ++ [0])) by (rewrite !length_app; cbn; lia).
      replace (pre ++ ds ++ w ++ 0 :: l2 ++ 0 :: post) with ((pre ++ ds ++ w ++ [0]) ++ l2 ++ 0 :: post) by (by rewrite <-!app_assoc).
      rewrite !length_app in Hf. cbn in Hf.
      destruct (IH (pre ++ ds ++ w ++ [0]) l2 (args ++ [(length pre + length ds)%nat])) as (r & l' & -> & Hl & Hr); [done|lia|rewrite length_app; cbn; lia|].
      exists r, (ds ++ w ++ 0 :: l'). replace (pre ++ (ds ++ w ++ 0 :: l') ++ 0 :: post) with ((pre ++ ds ++ w ++ [0]) ++ l' ++ 0 :: post) by (by rewrite <-!app_assoc).
      split; [done|]. split; [rewrite !length_app; cbn; lia|].
      rewrite length_app in Hr. cbn [length] in Hr |- *. rewrite <-Nat.add_assoc in Hr. destruct (_ <=? _)%nat; [|done].
      destruct Hr as (offs & -> & Ho). eexists. rewrite <-app_assoc. split; [done|]. cbn. rewrite Ho. f_equal.
      rewrite <-!app_assoc, <-length_app, (app_assoc pre ds). by apply string_at_word.
Qed.

(** ** The menu against the reference *)

Section reference.
Context {W : Type} `{!MenuWorld W} (synchprobs net sfs : bool).

(** What the words of one command do. *)
Definition dispatch_words (ws : list (list Z)) : stm (menust (W := W)) Z :=
  if (16 <? length ws)%nat then mret E2BIG else
  match ws with
  | [] => mret 0
  | name :: _ => match find_command (cmdtable synchprobs net) name with Some c => run_command sfs c ws | None => mret EINVAL end
  end.

(** The commands of a line in their order; a command that fails stops the kernel when
    the line is its command line. *)
Fixpoint run_line (isargs : bool) (cmds : list (list Z)) : stm (menust (W := W)) unit :=
  match cmds with
  | [] => mret tt
  | c :: cmds => r ← dispatch_words (fields is_blank c); if negb (r =? 0) && isargs then lift Panic else run_line isargs cmds
  end.

Lemma cmd_dispatch_words pre l post :
  plain l →
  ∃ l', length l' = length l ∧ ∀ s : menust (W := W),
    cmd_dispatch synchprobs net sfs (pre ++ l ++ 0 :: post) (length pre) s =
      ('(r, s') ← dispatch_words (fields is_blank l) s; Done ((r, pre ++ l' ++ 0 :: post), s')).
Proof.
  intros Hp. destruct (get_words_fields (S (length (pre ++ l ++ 0 :: post))) pre l post []) as (r & l' & Hg & Hl & Hr);
    [done|rewrite !length_app; lia|cbn; lia|].
  exists l'. split; [done|]. intros s. unfold cmd_dispatch, dispatch_words. rewrite Hg.
  set (fc := find_command (cmdtable synchprobs net)). set (run := run_command (W := W) sfs). clearbody fc run. cbn [length Nat.add app] in Hr |- *.
  rewrite Nat.leb_antisym in Hr. destruct (16 <? length (fields is_blank l))%nat; cbn [negb] in Hr.
  - by rewrite Hr.
  - destruct Hr as (offs & -> & Ho). cbn. destruct offs as [|o offs]; cbn in Ho |- *; rewrite <-Ho; [done|]. cbn.
    unfold mbind, stm_bind, lift. cbn.
    destruct (fc _) as [c|]; [|done]. by destruct (run c _ s) as [[??]| | |].
Qed.

Lemma execute_from_line isargs fuel pre l post (s : menust (W := W)) :
  plain l → (length l < fuel)%nat →
  execute_from synchprobs net sfs fuel isargs (pre ++ l ++ 0 :: post) (Some (length pre)) s = run_line isargs (fields is_semi l) s.
Proof.
  revert pre l s. induction fuel as [|fuel IH]; intros pre l s Hp Hf; [lia|]. cbn [execute_from].
  destruct (fields_cases is_semi l) as [Hd|[(ds & w & -> & Hd & Hw)|(ds & w & d & l2 & -> & Hd & Hw & Hdd)]].
  - rewrite strtok_none by done. rewrite <-(app_nil_r l), fields_delims by done. done.
  - apply plain_app in Hp as [Hp1 Hp2]. rewrite <-!(app_assoc ds).
    rewrite (strtok_word is_semi pre ds w 0 post) by auto. rewrite fields_delims, fields_last by done. cbn [Z.eqb run_line].
    rewrite (app_assoc pre ds). destruct (cmd_dispatch_words (pre ++ ds) w post Hp2) as (w' & Hl & Hc).
    unfold mbind, stm_bind, lift. cbn. rewrite <-length_app, Hc. destruct (dispatch_words _ s) as [[r s']| | |]; [|done..]. cbn.
    destruct (negb (r =? 0) && isargs); [done|]. rewrite length_app in Hf. destruct w; [by destruct Hw|]. cbn in Hf.
    destruct fuel; [lia|done].
  - apply plain_app in Hp as [Hp1 Hp2]. apply plain_app in Hp2 as [Hp2 Hp3]. inversion Hp3 as [|? ? Hd0 Hp4]; subst.
    rewrite <-!app_assoc. cbn [app]. rewrite (strtok_word is_semi pre ds w d) by auto. rewrite (proj2 (Z.eqb_neq _ _) Hd0).
    rewrite fields_delims, fields_word by done. cbn [run_line]. rewrite !length_app in Hf. cbn in Hf.
    rewrite (app_assoc pre ds). destruct (cmd_dispatch_words (pre ++ ds) w (l2 ++ 0 :: post) Hp2) as (w' & Hl & Hc).
    unfold mbind, stm_bind, lift. cbn. rewrite <-length_app, Hc. destruct (dispatch_words _ s) as [[r s']| | |]; [|done..]. cbn.
    destruct (negb (r =? 0) && isargs); [done|].
    replace ((pre ++ ds) ++ w' ++ 0 :: l2 ++ 0 :: post) with (((pre ++ ds) ++ w' ++ [0]) ++ l2 ++ 0 :: post) by (by rewrite <-!app_assoc).
    replace (S (length (pre ++ ds) + length w)) with (length ((pre ++ ds) ++ w' ++ [0])) by (rewrite !length_app; cbn; lia).
    apply IH; [done|lia].
Qed.

(** [C20] The menu runs a command line as it is meant to be read: for every line, which
    is cut up in place by two nested uses of [strtok_r] and ends at the first NUL of the
    buffer, [menu_execute] does what running, in their order, the words of the
    semicolon-separated commands does.  Empty commands do nothing; more than sixteen
    words give E2BIG and an unknown name EINVAL, and on the kernel's own command line the
    first failure is a panic. *)
Theorem menu_execute_runs_line line post isargs (s : menust (W := W)) :
  Forall (λ c, c ≠ 0) line →
  menu_execute synchprobs net sfs (line ++ 0 :: post) isargs s = run_line isargs (fields is_semi line) s.
Proof. intros Hp. unfold menu_execute. apply (execute_from_line isargs _ []); [done|rewrite length_app; lia]. Qed.
End reference.

(** A world that records the calls. *)
Module MenuExample.
Definition entry : Type := list (list Z).

#[local] Instance log_world : MenuWorld (list entry) := {
  do_prog a := λ w, Done (0, w ++ [chars "prog" :: a]);
  do_chdir d := λ w, Done (0, w ++ [[chars "chdir"; d]]);
  do_getcwd := λ w, Done (0, w);
  do_sync := λ w, Done (tt, w ++ [[chars "sync"]]);
  do_unmount d := λ w, Done (0, w ++ [[chars "unmount"; d]]);
  do_setbootfs d := λ w, Done (0, w ++ [[chars "bootfs"; d]]);
  do_mount d := λ w, Done (0, w ++ [[chars "mount"; d]]);
  do_poweroff := λ w, Done (0, w);
  do_thread_exit := λ w, Done (tt, w);
  run_test _ a := λ w, Done (0, w ++ [a]);
}.

(** The command line of the comment in [menu.c]. *)
Lemma menu_execute_runs_line_witness :
  menu_execute true false true (chars "mount sfs lhd0:; bootfs lhd0; nope;;s" ++ [0]) false (mkMenu 0 []) =
  Done (tt, mkMenu 0 [[chars "mount"; chars "lhd0"]; [chars "bootfs"; chars "lhd0"]; [chars "prog"; chars "/bin/sh"]]).
Proof.
  rewrite (menu_execute_runs_line true false true (chars "mount sfs lhd0:; bootfs lhd0; nope;;s") [] false (mkMenu 0 [])).
  - vm_compute. reflexivity.
  - apply (bool_decide_unpack _). vm_compute. reflexivity.
Defined.
End MenuExample.
