(* ===== verification/Lscreen.v ===== *)
(** * dev/lamebus/lscreen.c: the full-screen text console

    The screen is the memory of the card, one byte per character, line after line.
    The registers are a parameter.  The screen is shown to display the last lines of
    the text that has been written, broken at newlines and at the right edge. *)

From stdpp Require Import list.
From S2P Require Import Prelude Copyinout Uio.

Definition LSCR_REG_POSN : Z := 0.
Definition LSCR_REG_SIZE : Z := 4.
Definition LSCR_REG_CHAR : Z := 8.
Definition LSCR_REG_RIRQ : Z := 12.
Definition LSCR_IRQ_ENABLE : Z := 1.
Definition LSCR_IRQ_ACTIVE : Z := 2.

(** The registers of the card; reading may change it. *)
Class ScrHw (W : Type) := {
  scr_read : Z → W → Z * W;
  scr_write : Z → Z → W → W;
}.

(** The position register keeps what is written. *)
Class ScrLaws (W : Type) `{!ScrHw W} := {
  scr_posn : W → Z;
  scr_posn_write v w : scr_posn (scr_write LSCR_REG_POSN v w) = v;
}.

(** struct lscreen_softc with the mapped screen memory, whether there is an input
    function, and the card. *)
Record lscreen_softc (W : Type) := mkScreen {
  ls_width : Z;
  ls_height : Z;
  ls_cx : Z;
  ls_cy : Z;
  ls_screen : list Z;
  ls_input : bool;
  ls_card : W;
}.
Arguments mkScreen {W} _ _ _ _ _ _ _.
Arguments ls_width {W} _.
Arguments ls_height {W} _.
Arguments ls_cx {W} _.
Arguments ls_cy {W} _.
Arguments ls_screen {W} _.
Arguments ls_input {W} _.
Arguments ls_card {W} _.

Definition splitxy (xy : Z) : Z * Z := (Z.shiftr xy 16, Z.land xy 65535).
Definition mergexy (x y : Z) : Z := Z.lor (u32 (Z.shiftl x 16)) y.

(** A part of the screen memory. *)
Definition area_read (l : list Z) (pos n : Z) : outcome (list Z) :=
  if (0 <=? pos) && (pos + n <=? Z.of_nat (length l)) then Done (slice l pos n) else Undef.
Definition area_write (l : list Z) (pos : Z) (bs : list Z) : outcome (list Z) :=
  if (0 <=? pos) && (pos + Z.of_nat (length bs) <=? Z.of_nat (length l)) then Done (buf_write l pos bs) else Undef.

Section lscreen.
Context {W : Type} `{!ScrHw W}.
Implicit Types sc : lscreen_softc W.

Definition set_cursor (cx cy : Z) sc : lscreen_softc W :=
  mkScreen (ls_width sc) (ls_height sc) cx cy (ls_screen sc) (ls_input sc) (ls_card sc).
Definition set_screen (l : list Z) sc : lscreen_softc W :=
  mkScreen (ls_width sc) (ls_height sc) (ls_cx sc) (ls_cy sc) l (ls_input sc) (ls_card sc).
Definition set_card (w : W) sc : lscreen_softc W :=
  mkScreen (ls_width sc) (ls_height sc) (ls_cx sc) (ls_cy sc) (ls_screen sc) (ls_input sc) w.

(** The character that is handed to the input function, if there is one. *)
Definition lscreen_irq (curspl : Z) sc : outcome (option Z * lscreen_softc W) :=
  kassert (curspl >? 0);;
  let (x, w) := scr_read LSCR_REG_RIRQ (ls_card sc) in
  if negb (Z.land x LSCR_IRQ_ACTIVE =? 0) then
    let (ch, w) := scr_read LSCR_REG_CHAR w in
    let w := scr_write LSCR_REG_RIRQ LSCR_IRQ_ENABLE w in
    Done (if ls_input sc then Some (s32 ch) else None, set_card w sc)
  else Done (None, set_card w sc).

Definition lscreen_newline sc : outcome (lscreen_softc W) :=
  sc ← (if ls_cy sc >=? u32 (ls_height sc - 1) then
          let n := u32 (ls_width sc * u32 (ls_height sc - 1)) in
          bytes ← area_read (ls_screen sc) (ls_width sc) n;
          screen ← area_write (ls_screen sc) 0 bytes;
          screen ← area_write screen n (replicate (Z.to_nat (ls_width sc)) 0);
          Done (set_screen screen sc)
        else Done (set_cursor (ls_cx sc) (u32 (ls_cy sc + 1)) sc));
  Done (set_cursor 0 (ls_cy sc) sc).

Definition lscreen_char sc (ch : Z) : outcome (lscreen_softc W) :=
  sc ← (if ls_cx sc >=? ls_width sc then lscreen_newline sc else Done sc);
  screen ← arr_set (ls_screen sc) (u32 (u32 (ls_cy sc * ls_width sc) + ls_cx sc)) (Z.land ch 255);
  Done (set_cursor (u32 (ls_cx sc + 1)) (ls_cy sc) (set_screen screen sc)).

Definition lscreen_write sc (ch : Z) : outcome (lscreen_softc W) :=
  sc ← (if ch =? 10 then lscreen_newline sc else lscreen_char sc ch);
  let ccx := if ls_cx sc =? ls_width sc then u32 (ls_cx sc - 1) else ls_cx sc in
  Done (set_card (scr_write LSCR_REG_POSN (mergexy ccx (ls_cy sc)) (ls_card sc)) sc).

(** [area] is the memory that [bus_map_area] gives. *)
Definition config_lscreen (area : list Z) sc : Z * lscreen_softc W :=
  let w := scr_write LSCR_REG_RIRQ LSCR_IRQ_ENABLE (ls_card sc) in
  let (val, w) := scr_read LSCR_REG_SIZE w in
  let (width, height) := splitxy val in
  let (val, w) := scr_read LSCR_REG_POSN w in
  let (cx, cy) := splitxy val in
  (0, mkScreen width height cx cy area (ls_input sc) w).

(** Writing a text. *)
Fixpoint lscreen_puts sc (text : list Z) : outcome (lscreen_softc W) :=
  match text with [] => Done sc | ch :: text => sc ← lscreen_write sc ch; lscreen_puts sc text end.
End lscreen.

(** ** What the screen displays *)

(** The lines of a text, the current one last: a newline, and a character that does not
    fit into the current line, begin a new one. *)
Record doc := mkDoc { d_lines : list (list Z); d_cur : list Z }.

Definition doc_write (w : nat) (d : doc) (ch : Z) : doc :=
  if ch =? 10 then mkDoc (d_lines d ++ [d_cur d]) []
  else if (length (d_cur d) <? w)%nat then mkDoc (d_lines d) (d_cur d ++ [Z.land ch 255])
  else mkDoc (d_lines d ++ [d_cur d]) [Z.land ch 255].

Definition doc_of (w : nat) (text : list Z) : doc := fold_left (doc_write w) text (mkDoc [] []).

(** The lines on the screen: the current one and at most [h - 1] before it. *)
Definition above (h : nat) (d : doc) : list (list Z) := drop (length (d_lines d) - (h - 1)) (d_lines d).

Definition pad (w : nat) (line : list Z) : list Z := line ++ replicate (w - length line) 0.

(** The screen memory: the lines, blank lines below, and what is not part of the screen. *)
Definition picture (w h : nat) (d : doc) (rest : list Z) : list Z :=
  mjoin (pad w <$> above h d) ++ pad w (d_cur d) ++ replicate (w * (h - 1 - length (above h d))) 0 ++ rest.

Definition doc_ok (w : nat) (d : doc) : Prop := Forall (λ l, (length l ≤ w)%nat) (d_lines d) ∧ (length (d_cur d) ≤ w)%nat.

Lemma length_pad w line : (length line ≤ w)%nat → length (pad w line) = w.
Proof. intros H. unfold pad. rewrite length_app, length_replicate. lia. Qed.

Lemma length_rows w ls : Forall (λ l, (length l ≤ w)%nat) ls → length (mjoin (pad w <$> ls)) = (w * length ls)%nat.
Proof.
  induction 1 as [|l ls Hl _ IH]; [cbn; lia|]. change (mjoin (pad w <$> l :: ls)) with (pad w l ++ mjoin (pad w <$> ls)).
  rewrite length_app, length_pad, IH by done. cbn. lia.
Qed.

Lemma rows_snoc w ls l : mjoin (pad w <$> ls ++ [l]) = mjoin (pad w <$> ls) ++ pad w l.
Proof. rewrite fmap_app, join_app. cbn. by rewrite app_nil_r. Qed.

Lemma length_above h d : length (above h d) = Nat.min (length (d_lines d)) (h - 1).
Proof. unfold above. rewrite length_drop. lia. Qed.

Lemma above_ok w h d : doc_ok w d → Forall (λ l, (length l ≤ w)%nat) (above h d).
Proof. intros [H _]. by apply Forall_drop. Qed.

Lemma above_push h d cur :
  (0 < h)%nat →
  above h (mkDoc (d_lines d ++ [d_cur d]) cur) =
    if (length (above h d) <? h - 1)%nat then above h d ++ [d_cur d] else drop 1 (above h d ++ [d_cur d]).
Proof.
  intros Hh. rewrite length_above. unfold above. cbn [d_lines]. rewrite length_app. cbn [length].
  destruct (Nat.ltb_spec (Nat.min (length (d_lines d)) (h - 1)) (h - 1)).
  - replace (length (d_lines d) - (h - 1))%nat with 0%nat by lia. by replace (length (d_lines d) + 1 - (h - 1))%nat with 0%nat by lia.
  - replace (length (d_lines d) + 1 - (h - 1))%nat with ((length (d_lines d) - (h - 1)) + 1)%nat by lia.
    rewrite <-drop_drop, drop_app_le by lia. done.
Qed.

(** Scrolling: the first line goes, a blank one comes in at the bottom. *)
Lemma scroll_bytes first others rest :
  let w := Z.of_nat (length first) in let n := Z.of_nat (length others) in
  (bytes ← area_read (first ++ others ++ rest) w n;
   screen ← area_write (first ++ others ++ rest) 0 bytes;
   area_write screen n (replicate (length first) 0)) = Done (others ++ replicate (length first) 0 ++ rest).
Proof.
  intros w n. unfold area_read. rewrite (proj2 (Z.leb_le 0 w)), (proj2 (Z.leb_le (w + n) _)) by (rewrite ?length_app; lia).
  assert (Hs : slice (first ++ others ++ rest) w n = others).
  { unfold slice, w, n. by rewrite !Nat2Z.id, drop_app_length, take_app_length. }
  assert (Hw : area_write (first ++ others ++ rest) 0 others = Done (buf_write (first ++ others ++ rest) 0 others)).
  { unfold area_write. by rewrite (proj2 (Z.leb_le (0 + _) _)) by (rewrite !length_app; lia). }
  cbn [andb mbind outcome_bind]. rewrite Hs, Hw. cbn [mbind outcome_bind]. unfold area_write. rewrite length_buf_write by (rewrite !length_app; lia).
  rewrite (proj2 (Z.leb_le 0 n)), (proj2 (Z.leb_le (n + _) _)) by (rewrite ?length_replicate, ?length_app; lia). cbn [andb]. f_equal.
  assert (Hb : buf_write (first ++ others ++ rest) 0 others = others ++ drop (length others) (first ++ others ++ rest)) by done.
  rewrite Hb. unfold buf_write, n. rewrite Nat2Z.id, take_app_length. do 2 f_equal. rewrite length_replicate.
  rewrite drop_app_ge by lia. rewrite drop_drop, (app_assoc first).
  replace (length others + (length others + length first - length others))%nat with (length (first ++ others)) by (rewrite length_app; lia).
  apply drop_app_length.
Qed.

Section display.
Context {W : Type} `{!ScrHw W} `{!ScrLaws W}.
Implicit Types sc : lscreen_softc W.

Definition shows sc (w h : nat) (d : doc) (rest : list Z) : Prop :=
  ls_width sc = Z.of_nat w ∧ ls_height sc = Z.of_nat h ∧ ls_cx sc = Z.of_nat (length (d_cur d)) ∧ ls_cy sc = Z.of_nat (length (above h d)) ∧
  ls_screen sc = picture w h d rest ∧ doc_ok w d.

Definition fits (w h : nat) : Prop := (0 < w)%nat ∧ (0 < h)%nat ∧ Z.of_nat w < 65536 ∧ Z.of_nat h < 65536.

Definition doc_newline (d : doc) : doc := mkDoc (d_lines d ++ [d_cur d]) [].

Lemma doc_newline_ok w d : doc_ok w d → doc_ok w (doc_newline d).
Proof. intros [H1 H2]. split; cbn; [apply Forall_app; split; [done|by constructor]|lia]. Qed.

(** The picture of a full screen, as its first line and the others, and the next one. *)
Lemma picture_full w h d rest :
  (0 < h)%nat → doc_ok w d → length (above h d) = (h - 1)%nat →
  ∃ first others, length first = w ∧ length others = (w * (h - 1))%nat ∧ length (above h (doc_newline d)) = (h - 1)%nat ∧
    picture w h d rest = first ++ others ++ rest ∧ picture w h (doc_newline d) rest = others ++ replicate w 0 ++ rest.
Proof.
  intros Hh Hok Ha. destruct (above h d ++ [d_cur d]) as [|a tl] eqn:Eall; [by destruct (above h d)|].
  assert (Hall : Forall (λ l, (length l ≤ w)%nat) (a :: tl)).
  { rewrite <-Eall. apply Forall_app. split; [by apply above_ok|]. constructor; [apply Hok|constructor]. }
  assert (Htl : length tl = (h - 1)%nat) by (apply (f_equal length) in Eall; rewrite length_app in Eall; cbn in Eall; lia).
  assert (Hab : above h (doc_newline d) = tl).
  { unfold doc_newline. by rewrite above_push, (proj2 (Nat.ltb_ge _ _)), Eall by lia. }
  apply Forall_cons in Hall as [Hl1 Hl2]. exists (pad w a), (mjoin (pad w <$> tl)). rewrite Hab. split_and!; [by apply length_pad|rewrite length_rows by done; lia|done|..].
  - unfold picture. rewrite Ha, Nat.sub_diag, Nat.mul_0_r, !app_assoc, <-rows_snoc, Eall. cbn [replicate]. by rewrite app_nil_r.
  - unfold picture. rewrite Hab, Htl, Nat.sub_diag, Nat.mul_0_r. unfold pad at 2. cbn. by rewrite Nat.sub_0_r.
Qed.

(** With a line to spare the picture stays as it is. *)
Lemma picture_spare w h d rest :
  (length (above h d) < h - 1)%nat →
  length (above h (doc_newline d)) = S (length (above h d)) ∧ picture w h (doc_newline d) rest = picture w h d rest.
Proof.
  intros Ha. assert (Hab : above h (doc_newline d) = above h d ++ [d_cur d]).
  { unfold doc_newline. by rewrite above_push, (proj2 (Nat.ltb_lt _ _)) by lia. }
  unfold picture. rewrite Hab, length_app. split; [cbn; lia|]. rewrite rows_snoc, <-!app_assoc. do 2 f_equal.
  unfold pad. cbn. rewrite Nat.sub_0_r, app_assoc, <-replicate_add. do 2 f_equal.
  replace (h - 1 - length (above h d))%nat with (S (h - 1 - (length (above h d) + 1)))%nat by lia. lia.
Qed.

Lemma newline_shows sc w h d rest :
  fits w h → shows sc w h d rest →
  ∃ sc', lscreen_newline sc = Done sc' ∧ shows sc' w h (doc_newline d) rest ∧ ls_card sc' = ls_card sc.
Proof.
  intros (Hw & Hh & Hw' & Hh') (Ew & Eh & Ex & Ey & Es & Hok). unfold lscreen_newline. rewrite Ew, Eh, Ey, Es.
  rewrite (u32_small (Z.of_nat h - 1)) by lia. pose proof (length_above h d) as Hla. pose proof (doc_newline_ok w d Hok) as Hok'.
  destruct (Z.geb_spec (Z.of_nat (length (above h d))) (Z.of_nat h - 1)) as [Hc|Hc].
  - destruct (picture_full w h d rest) as (a & tl & Hl1 & Hl2 & Hl3 & Hp & Hp'); [done|done|lia|].
    pose proof (scroll_bytes a tl rest) as Hsc. cbn zeta in Hsc. rewrite Hl1, Hl2 in Hsc. rewrite Hp, Nat2Z.id.
    replace (u32 (Z.of_nat w * (Z.of_nat h - 1))) with (Z.of_nat (w * (h - 1))) by (rewrite u32_small; nia).
    destruct (area_read _ _ _) as [bytes| | |]; [|done..]. cbn [mbind outcome_bind] in Hsc |- *.
    destruct (area_write _ 0 bytes) as [scr| | |]; [|done..]. cbn [mbind outcome_bind] in Hsc |- *. rewrite Hsc.
    eexists. split; [done|]. split; [|done]. unfold shows. cbn [set_cursor set_screen ls_width ls_height ls_cx ls_cy ls_screen]. rewrite Hl3, Hp'. split_and!; [done|done|done|lia|done|done].
  - destruct (picture_spare w h d rest) as [Hl Hp]; [lia|].
    eexists. split; [done|]. split; [|done]. unfold shows. cbn [set_cursor set_screen ls_width ls_height ls_cx ls_cy ls_screen]. rewrite Hl, Hp, u32_small by lia. split_and!; [done|done|done|lia|done|done].
Qed.

(** A character into the current line. *)
Lemma picture_char w h d rest c :
  doc_ok w d → (length (d_cur d) < w)%nat →
  let i := (length (above h d) * w + length (d_cur d))%nat in
  (i < length (picture w h d rest))%nat ∧ <[i := c]> (picture w h d rest) = picture w h (mkDoc (d_lines d) (d_cur d ++ [c])) rest.
Proof.
  intros Hok Hl i. unfold picture. change (above h (mkDoc (d_lines d) (d_cur d ++ [c]))) with (above h d). cbn [d_cur].
  assert (Hr : length (mjoin (pad w <$> above h d)) = (length (above h d) * w)%nat) by (rewrite length_rows by (by apply above_ok); lia).
  split; [rewrite length_app, Hr; unfold pad; rewrite !length_app, length_replicate; lia|].
  unfold i. rewrite <-Hr, insert_app_r. f_equal. unfold pad. rewrite <-!app_assoc.
  rewrite <-(Nat.add_0_r (length (d_cur d))), insert_app_r. f_equal. rewrite Nat.add_0_r, length_app. cbn [length].
  replace (w - length (d_cur d))%nat with (S (w - (length (d_cur d) + 1))) by lia. done.
Qed.

Lemma char_shows sc w h d rest ch :
  fits w h → shows sc w h d rest → ch ≠ 10 →
  ∃ sc', lscreen_char sc ch = Done sc' ∧ shows sc' w h (doc_write w d ch) rest ∧ ls_card sc' = ls_card sc.
Proof.
  intros Hf Hs Hch. unfold lscreen_char, doc_write. rewrite (proj2 (Z.eqb_neq _ _) Hch).
  assert (Hpre : ∃ sc1 d1, (if ls_cx sc >=? ls_width sc then lscreen_newline sc else Done sc) = Done sc1 ∧ shows sc1 w h d1 rest ∧
      ls_card sc1 = ls_card sc ∧ (length (d_cur d1) < w)%nat ∧
      (if (length (d_cur d) <? w)%nat then mkDoc (d_lines d) (d_cur d ++ [Z.land ch 255]) else mkDoc (d_lines d ++ [d_cur d]) [Z.land ch 255]) =
        mkDoc (d_lines d1) (d_cur d1 ++ [Z.land ch 255])).
  { pose proof Hs as (Ew & _ & Ex & _). rewrite Ew, Ex. destruct Hf as (Hw & Hrest).
    destruct (Nat.ltb_spec (length (d_cur d)) w) as [Hlt|Hge].
    - rewrite Z.geb_leb, (proj2 (Z.leb_gt _ _)) by lia. by exists sc, d.
    - rewrite Z.geb_leb, (proj2 (Z.leb_le _ _)) by lia. destruct (newline_shows sc w h d rest) as (sc1 & -> & H1 & H2); [by split|done|].
      by exists sc1, (doc_newline d). }
  destruct Hpre as (sc1 & d1 & -> & (Ew & Eh & Ex & Ey & Es & Hok) & Hc & Hl & ->). cbn [mbind outcome_bind]. rewrite Ex, Ey, Ew, Es.
  destruct (picture_char w h d1 rest (Z.land ch 255) Hok Hl) as [Hi Hp]. cbn zeta in Hi, Hp. pose proof (length_above h d1) as Hla. destruct Hf as (Hw & Hh & Hw' & Hh').
  rewrite (u32_small (Z.of_nat (length (above h d1)) * _)) by nia. rewrite (u32_small (Z.of_nat (length (d_cur d1)) + 1)) by lia.
  rewrite u32_small by nia. rewrite arr_set_in by lia. replace (Z.to_nat _) with (length (above h d1) * w + length (d_cur d1))%nat by lia. rewrite Hp.
  eexists. split; [done|]. split; [|done]. unfold shows. cbn [set_cursor set_screen ls_width ls_height ls_cx ls_cy ls_screen d_cur]. rewrite length_app. cbn [length].
  split_and!; [done|done|lia|done|done|]. destruct Hok as [H1 H2]. split; cbn; [done|rewrite length_app; cbn; lia].
Qed.

Lemma write_shows sc w h d rest ch :
  fits w h → shows sc w h d rest →
  ∃ sc', lscreen_write sc ch = Done sc' ∧ shows sc' w h (doc_write w d ch) rest ∧
    scr_posn (ls_card sc') = mergexy (Z.min (ls_cx sc') (Z.of_nat w - 1)) (ls_cy sc').
Proof.
  intros Hf Hs. unfold lscreen_write.
  assert (H : ∃ sc', (if ch =? 10 then lscreen_newline sc else lscreen_char sc ch) = Done sc' ∧ shows sc' w h (doc_write w d ch) rest).
  { destruct (Z.eqb_spec ch 10) as [->|Hch].
    - destruct (newline_shows sc w h d rest Hf Hs) as (sc' & ? & ? & _). by exists sc'.
    - destruct (char_shows sc w h d rest ch Hf Hs Hch) as (sc' & ? & ? & _). by exists sc'. }
  destruct H as (sc' & -> & H). eexists. split; [done|]. split; [exact H|].
  cbn [set_card ls_card ls_cx ls_cy]. rewrite scr_posn_write. f_equal.
  destruct H as (-> & _ & -> & _ & _ & _ & Hl), Hf as (Hw & _ & Hw' & _). destruct (Z.eqb_spec (Z.of_nat (length (d_cur (doc_write w d ch)))) (Z.of_nat w)); [rewrite u32_small|]; lia.
Qed.

Lemma puts_shows sc w h d rest text :
  fits w h → shows sc w h d rest →
  ∃ sc', lscreen_puts sc text = Done sc' ∧ shows sc' w h (fold_left (doc_write w) text d) rest ∧
    (text ≠ [] → scr_posn (ls_card sc') = mergexy (Z.min (ls_cx sc') (Z.of_nat w - 1)) (ls_cy sc')).
Proof.
  intros Hf. revert sc d. induction text as [|ch text IH]; intros sc d Hs; [by exists sc|].
  destruct (write_shows sc w h d rest ch Hf Hs) as (sc1 & Hw & Hs1 & Hp1). cbn. rewrite Hw. cbn [mbind outcome_bind].
  destruct (IH sc1 _ Hs1) as (sc2 & H2 & Hs2 & Hp2). exists sc2. split_and!; [done|done|]. intros _.
  destruct text; [by injection H2 as <-|by apply Hp2].
Qed.

Lemma split_merge x y : 0 ≤ x < 65536 → 0 ≤ y < 65536 → splitxy (mergexy x y) = (x, y).
Proof.
  intros Hx Hy. unfold splitxy, mergexy. rewrite u32_small by (rewrite Z.shiftl_mul_pow2; lia). rewrite Z.shiftr_lor.
  change 65535 with (Z.ones 16). rewrite Z.land_lor_distr_l, !Z.land_ones, Z.shiftl_mul_pow2, Z_mod_mult, (Z.mod_small y) by lia.
  rewrite !Z.shiftr_div_pow2 by lia. rewrite Z.div_mul, (Z.div_small y), Z.lor_0_r by lia. done.
Qed.

(** [C40] The full-screen console displays the text.  Whatever is written to a blank
    screen, with newlines and lines of any length, [lscreen_write] returns and the
    screen memory shows the last lines of the text, broken at newlines and at the right
    edge, padded with blanks, and blank lines below; the memory behind the screen is
    untouched, and the card has its cursor at the next character, or on the last
    column when the line is full. *)
Theorem lscreen_displays sc w h rest text :
  fits w h → ls_width sc = Z.of_nat w → ls_height sc = Z.of_nat h → ls_cx sc = 0 → ls_cy sc = 0 →
  ls_screen sc = replicate (w * h) 0 ++ rest → text ≠ [] →
  let d := doc_of w text in
  ∃ sc', lscreen_puts sc text = Done sc' ∧ ls_screen sc' = picture w h d rest ∧ length (ls_screen sc') = length (ls_screen sc) ∧
    splitxy (scr_posn (ls_card sc')) = (Z.of_nat (Nat.min (length (d_cur d)) (w - 1)), Z.of_nat (Nat.min (length (d_lines d)) (h - 1))).
Proof.
  intros Hf Ew Eh Ex Ey Es Ht d. assert (Hs : shows sc w h (mkDoc [] []) rest).
  { unfold shows, doc_ok. cbn. split_and!; [done|done|done|done| |by constructor|lia]. rewrite Es. unfold picture, pad. cbn.
    destruct Hf as (Hw & Hh & _).
    rewrite drop_nil. cbn. rewrite !Nat.sub_0_r, app_assoc, <-replicate_add. do 2 f_equal. destruct h; [lia|]. cbn. rewrite Nat.sub_0_r. lia. }
  destruct (puts_shows sc w h _ rest text Hf Hs) as (sc' & Hp & (_ & _ & Hx & Hy & Hs' & Hok) & Hposn). exists sc'.
  fold (doc_of w text) in Hx, Hy, Hs', Hok. fold d in Hx, Hy, Hs', Hok. split_and!; [done|done|..].
  - rewrite Hs', Es. unfold picture. rewrite !length_app, length_rows, length_pad, !length_replicate by (apply Hok || by apply above_ok).
    pose proof (length_above h d). destruct Hf as (Hw & Hh & _). replace h with (length (above h d) + (h - 1 - length (above h d)) + 1)%nat at 4 by lia. lia.
  - rewrite Hposn by done. rewrite Hx, Hy, length_above. destruct Hf as (Hw & Hh & Hw' & Hh'). rewrite split_merge by lia. f_equal; lia.
Qed.
End display.

(** A screen of three by two characters; the card keeps the position register. *)
Module ScrExample.
#[local] Instance posn_hw : ScrHw Z := { scr_read r w := (if r =? LSCR_REG_POSN then w else 0, w); scr_write r v w := if r =? LSCR_REG_POSN then v else w }.
#[local] Instance posn_laws : ScrLaws Z := { scr_posn w := w; scr_posn_write v w := eq_refl }.
Definition small : lscreen_softc Z := mkScreen 3 2 0 0 [0; 0; 0; 0; 0; 0; 99] false 0.

(** "ab", a newline, "cdef". *)
Lemma lscreen_displays_witness :
  ∃ sc', lscreen_puts small [97; 98; 10; 99; 100; 101; 102] = Done sc' ∧ ls_screen sc' = [99; 100; 101; 102; 0; 0; 99] ∧
    splitxy (scr_posn (ls_card sc')) = (1, 1).
Proof.
  destruct (lscreen_displays small 3 2 [99] [97; 98; 10; 99; 100; 101; 102]) as (sc' & H1 & H2 & _ & H3); [unfold fits; lia|done..|].
  exists sc'. split_and!; [exact H1|rewrite H2; reflexivity|exact H3].
Defined.
End ScrExample.
