(* ===== verification/Trap.v ===== *)
(** * arch/mips/mips/trap.c and lib/kprintf.c: traps, user mode and panic

    [mips_trap] on the state of file Syscall, whose handler it calls: the interrupt
    level is [p_spl], the fault recovery of the copy functions [p_bff].  The
    interrupt handlers and [vm_fault] are operations of a class.  [panic] is its
    sequence of stages, each of which may panic again. *)

From stdpp Require Import list.
From S2P Require Import Prelude Copyinout Uio Tty Exec Syscall.

Definition SPL_HIGH : Z := 15.
Definition NTRAPCODES : Z := 13.
Definition EX_IRQ : Z := 0.
Definition EX_MOD : Z := 1.
Definition EX_TLBL : Z := 2.
Definition EX_TLBS : Z := 3.
Definition EX_IBE : Z := 6.
Definition EX_DBE : Z := 7.
Definition EX_SYS : Z := 8.
Definition CST_IEp : Z := 4.
Definition CST_KUp : Z := 8.
Definition CST_IRQMASK : Z := 65280.
Definition CCA_CODE : Z := 60.
Definition CCA_CODESHIFT : Z := 2.
Definition VM_FAULT_READ : Z := 0.
Definition VM_FAULT_WRITE : Z := 1.
Definition VM_FAULT_READONLY : Z := 2.
Definition STACK_SIZE : Z := 4096.

(** The trapframe with the registers that only the trap code uses. *)
Record tframe := mkTframe { tf_vaddr : Z; tf_status : Z; tf_cause : Z; tf_sp : Z; tf_regs : trapframe }.

(** Where the frame is, the stack of the thread if it has one, and [curkstack]. *)
Record place := mkPlace { pl_tf : Z; pl_stack : option Z; pl_curkstack : Z }.

Definition STACK_MASK : Z := 4294963200.
Definition same_stack (p1 p2 : Z) : bool := Z.land p1 STACK_MASK =? Z.land p2 STACK_MASK.

Class Handlers (T : Type) := {
  h_interrupt : Z → stm (sys T) unit;
  h_vm_fault : Z → Z → stm (sys T) Z;
}.

(** How a trap ends: back where it came from, in a program for the first time, or not. *)
Inductive trap_end := TReturn (tf : tframe) | TUser (tf : tframe) | TExit.

Definition set_regs (r : trapframe) (tf : tframe) : tframe := mkTframe (tf_vaddr tf) (tf_status tf) (tf_cause tf) (tf_sp tf) r.
Definition set_epc (a : Z) (tf : tframe) : tframe :=
  let r := tf_regs tf in set_regs (mkTf (tf_v0 r) (tf_a0 r) (tf_a1 r) (tf_a2 r) (tf_a3 r) a) tf.

Definition trap_code (tf : tframe) : Z := Z.shiftr (Z.land (tf_cause tf) CCA_CODE) CCA_CODESHIFT.
Definition iskern (tf : tframe) : bool := Z.land (tf_status tf) CST_KUp =? 0.

Section trap.
Context {T : Type} `{!Tty T} `{!Calls T} `{!Handlers T}.

Definition curspl_set (l : Z) : stm (sys T) unit := on_proc (set_spl l).

(** [utf] is where the frame for user mode is. *)
Definition mips_usermode (pl : place) (utf : Z) (tf : tframe) : stm (sys T) tframe :=
  curspl_set SPL_HIGH;;
  curspl_set 0;;
  lift (kassert (same_stack (u32 (pl_curkstack pl - 1)) utf));;
  mret tf.

Definition md_usermode (pl : place) (utf argc argv stack entry : Z) : stm (sys T) tframe :=
  mips_usermode pl utf (mkTframe 0 (Z.lor (Z.lor CST_IRQMASK CST_IEp) CST_KUp) 0 stack (mkTf 0 (u32 argc) argv 0 0 entry)).

(** The label [done]. *)
Definition trap_done (pl : place) (savespl : Z) (tf : tframe) : stm (sys T) trap_end :=
  curspl_set SPL_HIGH;;
  curspl_set savespl;;
  lift (kassert (same_stack (u32 (pl_curkstack pl - 1)) (pl_tf pl)));;
  mret (TReturn tf).

(** The switch on the exception code: whether [vm_fault] has helped. *)
Definition try_fault (tf : tframe) : stm (sys T) bool :=
  let code := trap_code tf in
  if code =? EX_MOD then r ← h_vm_fault VM_FAULT_READONLY (tf_vaddr tf); mret (r =? 0)
  else if code =? EX_TLBL then r ← h_vm_fault VM_FAULT_READ (tf_vaddr tf); mret (r =? 0)
  else if code =? EX_TLBS then r ← h_vm_fault VM_FAULT_WRITE (tf_vaddr tf); mret (r =? 0)
  else if (code =? EX_IBE) || (code =? EX_DBE) then lift Panic
  else mret false.

(** The assertions on the frame at the start. *)
Definition on_stack (pl : place) : outcome unit :=
  match pl_stack pl with
  | None => Done tt
  | Some st => kassert (pl_tf pl >? st);; kassert (pl_tf pl <? u32 (st + STACK_SIZE))
  end.

(** A fault nobody has handled; a program is killed by [kill_curthread], which panics. *)
Definition fatal_fault (copyfail : Z) (pl : place) (savespl : Z) (tf : tframe) : stm (sys T) trap_end :=
  if negb (iskern tf) then lift Panic else
  p ← gets y_proc;
  if p_bff p then trap_done pl savespl (set_epc copyfail tf) else lift Panic.

Context (ld : loader) (past : Z) (fuel : nat) (gettime : Z * Z) (empty copyfail utf : Z).

Definition mips_trap (pl : place) (tf : tframe) : stm (sys T) trap_end :=
  p ← gets y_proc;
  let savespl := p_spl p in
  curspl_set SPL_HIGH;;
  let code := trap_code tf in
  lift (kassert (code <? NTRAPCODES));;
  lift (on_stack pl);;
  if code =? EX_IRQ then h_interrupt (tf_cause tf);; trap_done pl savespl tf else
  curspl_set savespl;;
  if code =? EX_SYS then
    p ← gets y_proc;
    lift (kassert (p_spl p =? 0));;
    r ← mips_syscall ld past fuel gettime empty (tf_regs tf);
    match r with
    | SReturn regs => trap_done pl savespl (set_regs regs tf)
    | SUser argc argv sp entry => tf ← md_usermode pl utf argc argv sp entry; mret (TUser tf)
    | SExit => mret TExit
    end
  else
    fixed ← try_fault tf;
    if fixed : bool then trap_done pl savespl tf else fatal_fault copyfail pl savespl tf.
End trap.

(** ** Where execution goes on after a trap *)

Section resume.
Context {T : Type} `{!Tty T} `{!Calls T} `{!Handlers T}.
Implicit Types s : sys T.

Definition level s : Z := p_spl (y_proc s).

Lemma slp_any {A} (m : stm (sys T) A) s : slp m s (λ _ _, True).
Proof. by intros a s' _. Qed.

Lemma curspl_set_slp l s (Q : unit → sys T → Prop) : (∀ s', level s' = l → p_bff (y_proc s') = p_bff (y_proc s) → Q tt s') → slp (curspl_set l) s Q.
Proof. intros H a s' [= <- <-]. by apply H. Qed.

Lemma finish_slp regs err retval s :
  slp (finish regs err retval) s (λ r s', ∃ regs', r = SReturn regs' ∧ tf_epc regs' = u32 (tf_epc regs + 4) ∧ level s' = 0).
Proof.
  unfold finish. apply slp_bind, slp_gets, slp_bind, slp_kassert. intros Hl%Z.eqb_eq. apply slp_ret.
  eexists. split; [done|]. unfold sys_result. by destruct (negb _).
Qed.

(** A system call returns past the syscall instruction, with interrupts on. *)
Lemma mips_syscall_slp ld past fuel gettime empty regs s :
  slp (mips_syscall ld past fuel gettime empty regs) s (λ r s', ∀ regs', r = SReturn regs' → tf_epc regs' = u32 (tf_epc regs + 4) ∧ level s' = 0).
Proof.
  assert (Hf : ∀ err retval s1, slp (finish regs err retval) s1 (λ r s', ∀ regs', r = SReturn regs' → tf_epc regs' = u32 (tf_epc regs + 4) ∧ level s' = 0)).
  { intros err retval s1. eapply slp_mono; [apply finish_slp|]. intros r s' (regs1 & -> & H1 & H2) regs' [= <-]. done. }
  unfold mips_syscall. apply slp_bind, slp_gets, slp_bind, slp_kassert. intros _.
  repeat match goal with |- slp (if ?b then _ else _) _ _ => destruct b end;
    try (apply slp_bind; eapply slp_mono; [apply slp_any|]; intros ? ? _; repeat case_match; apply Hf || (by apply slp_ret)); apply Hf.
Qed.

Lemma trap_done_slp pl l tf s : slp (trap_done pl l tf) s (λ r s', r = TReturn tf ∧ level s' = l).
Proof.
  unfold trap_done. apply slp_bind, curspl_set_slp. intros s1 _ _. apply slp_bind, curspl_set_slp. intros s2 Hl _.
  apply slp_bind, slp_kassert. intros _. by apply slp_ret.
Qed.

(** A trap goes back with the interrupt level of the code that was interrupted: to the
    same instruction, past the instruction of a system call, or, when kernel code has
    a fault that cannot be handled, to the recovery of the copy functions.  A program
    with such a fault never goes on. *)
Theorem trap_resumes ld past fuel gettime empty copyfail utf pl tf s :
  slp (mips_trap ld past fuel gettime empty copyfail utf pl tf) s (λ r s', ∀ tf', r = TReturn tf' →
    level s' = level s ∧
    (tf' = tf ∧ trap_code tf ≠ EX_SYS ∨
     trap_code tf = EX_SYS ∧ level s = 0 ∧ (∃ regs, tf' = set_regs regs tf ∧ tf_epc regs = u32 (tf_epc (tf_regs tf) + 4)) ∨
     iskern tf = true ∧ tf' = set_epc copyfail tf)).
Proof.
  unfold mips_trap. apply slp_bind, slp_gets, slp_bind, curspl_set_slp. intros s1 _ _.
  apply slp_bind, slp_kassert. intros _. apply slp_bind, slp_lift. intros _ _.
  destruct (Z.eqb_spec (trap_code tf) EX_IRQ) as [E|E].
  { apply slp_bind. eapply slp_mono; [apply slp_any|]. intros _ s2 _. eapply slp_mono; [apply trap_done_slp|].
    intros r s' [-> Hl] tf' [= <-]. split; [done|]. left. by rewrite E. }
  apply slp_bind, curspl_set_slp. intros s2 Hl2 _. destruct (Z.eqb_spec (trap_code tf) EX_SYS) as [E'|E'].
  - apply slp_bind, slp_gets, slp_bind, slp_kassert. intros H0%Z.eqb_eq. apply slp_bind.
    eapply slp_mono; [apply mips_syscall_slp|]. intros [regs|argc argv sp entry|] s3 H3; [|apply slp_bind; eapply slp_mono; [apply slp_any|]; intros tf1 s4 _; by apply slp_ret|by apply slp_ret].
    destruct (H3 regs eq_refl) as [Hepc _]. eapply slp_mono; [apply trap_done_slp|]. intros r s' [-> Hl] tf' [= <-].
    split; [done|]. right; left. split; [done|]. split; [unfold level in *; congruence|]. by exists regs.
  - apply slp_bind. eapply slp_mono; [apply slp_any|]. intros [] s3 _.
    + eapply slp_mono; [apply trap_done_slp|]. intros r s' [-> Hl] tf' [= <-]. split; [done|]. by left.
    + unfold fatal_fault. destruct (iskern tf) eqn:Ek; cbn [negb]; [|by apply slp_lift].
      apply slp_bind, slp_gets. destruct (p_bff (y_proc s3)); [|by apply slp_lift].
      eapply slp_mono; [apply trap_done_slp|]. intros r s' [-> Hl] tf' [= <-]. split; [done|]. by right; right.
Qed.
End resume.

(** ** Panic *)

Inductive stage := StSplhigh | StThreadPanic | StMessage | StSync | StMdPanic.

(** [again st] tells whether the stage panics in turn; the inner call never comes back.
    The result is the stages that were started, up to the one that stops the machine;
    a call that finds nothing left to do spins. *)
Fixpoint panic (fuel : nat) (again : stage → bool) (evil : Z) : outcome (list stage) :=
  match fuel with
  | O => NoFuel
  | S fuel =>
      let run st evil (rest : outcome (list stage)) := l ← (if again st then panic fuel again evil else rest); Done (st :: l) in
      let stage4 := λ evil, if evil =? 4 then run StMdPanic 5 (Done []) else Done [] in
      let stage3 := λ evil, if evil =? 3 then run StSync 4 (stage4 4) else stage4 evil in
      let stage2 := λ evil, if evil =? 2 then run StMessage 3 (stage3 3) else stage3 evil in
      let stage1 := λ evil, if evil =? 1 then run StThreadPanic 2 (stage2 2) else stage2 evil in
      if evil =? 0 then run StSplhigh 1 (stage1 1) else stage1 evil
  end.

(** However often the stages panic again, every one is started once, in order, and the
    recursion is at most six calls deep. *)
Theorem panic_runs_every_stage again : panic 6 again 0 = Done [StSplhigh; StThreadPanic; StMessage; StSync; StMdPanic].
Proof. cbn. by destruct (again StSplhigh), (again StThreadPanic), (again StMessage), (again StSync), (again StMdPanic). Qed.
