(* ===== verification/Printf.v ===== *)
(** * Formatted printing: printf's guts, and kprintf

    The formatting code is lib/libc/__printf.c, which the kernel shares with the C
    library; it is kept in the repository's store of pristine copies.  The callback only
    takes characters, so what is handed to it is the list [pf_sent].  kprintf
    (lib/kprintf.c) hands it to the console. *)

From stdpp Require Import list.
From S2P Require Import Prelude Copyinout Uio Tty.

(** [CHAR_BIT * 4 / 3 + 2]. *)
Definition NUMBER_BUF_SIZE : Z := 12.

(** An argument: a number in a word, or a string, which may be NULL. *)
Inductive varg := AWord (w : Z) | AStr (s : option (list Z)).

Inductive intsize := INTSZ | LONGSZ.

(** The structure [PF]. *)
Record PF := mkPF {
  pf_sent : list Z;
  ap : list varg;
  charcount : Z;
  in_pct : bool;
  size : intsize;
  num : Z;
  sign : bool;
  spacing : Z;
  rightspc : bool;
  fillchar : Z;
  base : Z;
  baseprefix : bool;
  altformat : bool;
}.

Definition pf_print (txt : list Z) (pf : PF) : PF :=
  mkPF (pf_sent pf ++ txt) (ap pf) (s32 (charcount pf + Z.of_nat (length txt))) (in_pct pf) (size pf) (num pf) (sign pf) (spacing pf)
    (rightspc pf) (fillchar pf) (base pf) (baseprefix pf) (altformat pf).

Definition pf_endfield (pf : PF) : PF := mkPF (pf_sent pf) (ap pf) (charcount pf) false INTSZ 0 false 0 false 32 0 false false.

Definition set_size (z : intsize) (pf : PF) : PF :=
  mkPF (pf_sent pf) (ap pf) (charcount pf) (in_pct pf) z (num pf) (sign pf) (spacing pf) (rightspc pf) (fillchar pf) (base pf) (baseprefix pf) (altformat pf).
Definition set_spacing (z : Z) (pf : PF) : PF :=
  mkPF (pf_sent pf) (ap pf) (charcount pf) (in_pct pf) (size pf) (num pf) (sign pf) z (rightspc pf) (fillchar pf) (base pf) (baseprefix pf) (altformat pf).
Definition set_rightspc (pf : PF) : PF :=
  mkPF (pf_sent pf) (ap pf) (charcount pf) (in_pct pf) (size pf) (num pf) (sign pf) (spacing pf) true (fillchar pf) (base pf) (baseprefix pf) (altformat pf).
Definition set_fillchar (c : Z) (pf : PF) : PF :=
  mkPF (pf_sent pf) (ap pf) (charcount pf) (in_pct pf) (size pf) (num pf) (sign pf) (spacing pf) (rightspc pf) c (base pf) (baseprefix pf) (altformat pf).
Definition set_altformat (pf : PF) : PF :=
  mkPF (pf_sent pf) (ap pf) (charcount pf) (in_pct pf) (size pf) (num pf) (sign pf) (spacing pf) (rightspc pf) (fillchar pf) (base pf) (baseprefix pf) true.
Definition set_in_pct (pf : PF) : PF :=
  mkPF (pf_sent pf) (ap pf) (charcount pf) true (size pf) (num pf) (sign pf) (spacing pf) (rightspc pf) (fillchar pf) (base pf) (baseprefix pf) (altformat pf).
Definition set_num (n : Z) (neg : bool) (rest : list varg) (pf : PF) : PF :=
  mkPF (pf_sent pf) rest (charcount pf) (in_pct pf) (size pf) n neg (spacing pf) (rightspc pf) (fillchar pf) (base pf) (baseprefix pf) (altformat pf).
Definition set_base (b : Z) (p : bool) (pf : PF) : PF :=
  mkPF (pf_sent pf) (ap pf) (charcount pf) (in_pct pf) (size pf) (num pf) (sign pf) (spacing pf) (rightspc pf) (fillchar pf) b p (altformat pf).

(** [va_arg] for a number and for a string. *)
Definition va_word (pf : PF) : outcome (Z * list varg) := match ap pf with AWord w :: l => Done (w, l) | _ => Undef end.
Definition va_str (pf : PF) : outcome (option (list Z) * list varg) := match ap pf with AStr s :: l => Done (s, l) | _ => Undef end.

Definition pf_modifier (ch : Z) (pf : PF) : outcome PF :=
  if ch =? 35 then Done (set_altformat pf)
  else if ch =? 45 then Done (set_rightspc pf)
  else if (ch =? 108) || (ch =? 113) then Done (set_size LONGSZ pf)
  else if ch =? 48 then
    if spacing pf >? 0 then z ← to_int (spacing pf * 10); Done (set_spacing z pf) else Done (set_fillchar 48 pf)
  else
    kassert ((48 <? ch) && (ch <=? 57));;
    z ← to_int (spacing pf * 10);
    z ← to_int (z + (ch - 48));
    Done (set_spacing z pf).

(** An int and a long have the same size. *)
Definition pf_getnum (ch : Z) (pf : PF) : outcome PF :=
  '(w, l) ← va_word pf;
  if ch =? 112 then Done (set_num (u32 w) (sign pf) l pf)
  else if ch =? 100 then
    let signednum := s32 w in
    if signednum <? 0 then n ← to_int (- signednum); Done (set_num (u32 n) true l pf) else Done (set_num signednum (sign pf) l pf)
  else Done (set_num (u32 w) (sign pf) l pf).

Definition pf_setbase (ch : Z) (pf : PF) : PF :=
  set_base (if (ch =? 100) || (ch =? 117) then 10 else if (ch =? 120) || (ch =? 112) then 16 else if ch =? 111 then 8 else base pf)
    (altformat pf || (ch =? 112) || baseprefix pf) pf.

Definition pf_fill (spc : Z) (pf : PF) : PF := Nat.iter (Z.to_nat spc) (pf_print [fillchar pf]) pf.

Definition pf_printstuff (prefix prefix2 stuff : list Z) (pf : PF) : outcome PF :=
  let len := s32 (Z.of_nat (length prefix) + Z.of_nat (length prefix2) + Z.of_nat (length stuff)) in
  let spc := spacing pf in
  spc ← (if spc >? len then to_int (spc - len) else Done 0);
  let pf := if (spc >? 0) && negb (rightspc pf) && negb (fillchar pf =? 48) then pf_fill spc pf else pf in
  let pf := pf_print prefix2 (pf_print prefix pf) in
  let pf := if (spc >? 0) && negb (rightspc pf) && (fillchar pf =? 48) then pf_fill spc pf else pf in
  let pf := pf_print stuff pf in
  Done (if (spc >? 0) && rightspc pf then pf_fill spc pf else pf).

(** The character of a digit. *)
Definition digit (d : Z) : Z := if d <? 10 then 48 + d else 87 + d.

(** The loop: the buffer and the place before the first digit. *)
Fixpoint number_loop (fuel : nat) (base : Z) (buf : list Z) (x xnum : Z) : outcome (list Z * Z) :=
  match fuel with
  | O => NoFuel
  | S fuel =>
      if base =? 0 then Undef else
      buf ← arr_set buf x (digit (xnum mod base));
      let x := x - 1 in
      let xnum := xnum / base in
      if xnum >? 0 then number_loop fuel base buf x xnum else Done (buf, x)
  end.

(** The buffer starts out uninitialised; only what is written is read. *)
Definition pf_printnum (pf : PF) : outcome PF :=
  let x := NUMBER_BUF_SIZE - 1 in
  buf ← arr_set (replicate (Z.to_nat NUMBER_BUF_SIZE) (-1)) x 0;
  '(buf, x) ← number_loop (Z.to_nat NUMBER_BUF_SIZE) (base pf) buf (x - 1) (num pf);
  let x := x + 1 in
  stuff ← cstring (drop (Z.to_nat x) buf);
  let bprefix := if baseprefix pf && (base pf =? 16) then [48; 120] else if baseprefix pf && (base pf =? 8) then [48] else [] in
  let sprefix := if sign pf then [45] else [] in
  pf_printstuff sprefix bprefix stuff pf.

Definition is_modifier (ch : Z) : bool := (ch =? 35) || (ch =? 45) || (ch =? 113) || (ch =? 108) || ((48 <=? ch) && (ch <=? 57)).
Definition is_integer (ch : Z) : bool := (ch =? 100) || (ch =? 111) || (ch =? 117) || (ch =? 112) || (ch =? 120).

Definition null_text : list Z := [40; 110; 117; 108; 108; 41].

(** The string of one character that [%c] makes, a [char] being signed; a NUL ends it. *)
Definition one_char (w : Z) : list Z :=
  let c := Z.land w 255 in if c =? 0 then [] else [if c <? 128 then c else c - 256].

Definition pf_send (ch : Z) (pf : PF) : outcome PF :=
  kassert (negb (ch =? 0));;
  if negb (in_pct pf) && negb (ch =? 37) then Done (pf_print [ch] pf)
  else if negb (in_pct pf) then Done (set_in_pct pf)
  else if is_modifier ch then pf_modifier ch pf
  else if is_integer ch then
    pf ← pf_getnum ch pf;
    pf ← pf_printnum (pf_setbase ch pf);
    Done (pf_endfield pf)
  else if ch =? 115 then
    '(str, l) ← va_str pf;
    pf ← pf_printstuff [] [] (default null_text str) (set_num (num pf) (sign pf) l pf);
    Done (pf_endfield pf)
  else if ch =? 99 then
    '(w, l) ← va_word pf;
    pf ← pf_printstuff [] [] (one_char w) (set_num (num pf) (sign pf) l pf);
    Done (pf_endfield pf)
  else
    pf ← pf_printstuff [] [] [ch] pf;
    Done (pf_endfield pf).

(** The characters of the format up to its end. *)
Fixpoint send_all (format : list Z) (pf : PF) : outcome PF :=
  match format with [] => Done pf | ch :: format => pf ← pf_send ch pf; send_all format pf end.

Definition vprintf (format : list Z) (args : list varg) : outcome (list Z * Z) :=
  pf ← send_all format (pf_endfield (mkPF [] args 0 false INTSZ 0 false 0 false 0 0 false false));
  Done (pf_sent pf, charcount pf).

(** [kprintf], when there is no lock to take. *)
Definition kprintf {T} `{!Tty T} (format : list Z) (args : list varg) : stm T Z :=
  '(txt, n) ← lift (vprintf format args);
  puts txt;;
  mret n.

(** ** Reference *)

(** The digits of a number, the most significant first, and the number of digits. *)
Fixpoint digits (fuel : nat) (b n : Z) : list Z :=
  match fuel with O => [] | S fuel => if n <? b then [n] else digits fuel b (n / b) ++ [n mod b] end.
Definition value (b : Z) (ds : list Z) : Z := fold_left (λ acc d, acc * b + d) ds 0.

Definition numeral (b n : Z) : list Z := digit <$> digits 11 b n.

Lemma digits_value fuel b n : 2 ≤ b → 0 ≤ n < b ^ Z.of_nat fuel → value b (digits fuel b n) = n.
Proof.
  intros Hb. revert n. induction fuel as [|fuel IH]; intros n Hn; [cbn in *; lia|]. cbn [digits].
  destruct (Z.ltb_spec n b); [cbn; lia|]. unfold value in *. rewrite fold_left_app, IH; cbn.
  - pose proof (Z.div_mod n b). lia.
  - rewrite Nat2Z.inj_succ, Z.pow_succ_r in Hn by lia. split; [apply Z.div_pos; lia|apply Z.div_lt_upper_bound; lia].
Qed.

Lemma length_digits fuel b n : (length (digits fuel b n) ≤ fuel)%nat.
Proof. revert n. induction fuel as [|fuel IH]; intros n; cbn; [done|]. destruct (n <? b); cbn; [lia|]. rewrite length_app. cbn. specialize (IH (n / b)). lia. Qed.

Lemma digits_range fuel b n : 2 ≤ b → 0 ≤ n → Forall (λ d, 0 ≤ d < b) (digits fuel b n).
Proof.
  intros Hb. revert n. induction fuel as [|fuel IH]; intros n Hn; cbn; [constructor|]. destruct (Z.ltb_spec n b); [by repeat constructor|].
  apply Forall_app. split; [apply IH, Z.div_pos; lia|]. constructor; [apply Z.mod_pos_bound; lia|constructor].
Qed.

Lemma pow_room b n : 8 ≤ b → 0 ≤ n < 4294967296 → 0 ≤ n < b ^ Z.of_nat 11.
Proof. intros Hb Hn. assert (8589934592 ≤ b ^ 11) by (change 8589934592 with (8 ^ 11); apply Z.pow_le_mono_l; lia). change (Z.of_nat 11) with 11. lia. Qed.

(** ** Numbers *)

(** The loop writes the digits of the number to the left of what is in the buffer. *)
Lemma number_loop_digits fuel F b pre post n :
  8 ≤ b → 0 ≤ n < b ^ Z.of_nat fuel → (0 < fuel ≤ length pre)%nat → (fuel ≤ F)%nat →
  ∃ k, (k < length pre)%nat ∧ number_loop F b (pre ++ post) (Z.of_nat (length pre) - 1) n =
    Done (take k pre ++ (digit <$> digits fuel b n) ++ post, Z.of_nat k - 1) ∧ length (digits fuel b n) = (length pre - k)%nat.
Proof.
  intros Hb. revert F pre post n. induction fuel as [|fuel IH]; intros F pre post n Hn Hl HF; [lia|]. destruct F as [|F]; [lia|].
  destruct pre as [|c pre _] using rev_ind; [cbn in Hl; lia|]. rewrite length_app in *. cbn [length] in *. cbn [number_loop digits].
  rewrite (proj2 (Z.eqb_neq b 0)) by lia. rewrite arr_set_in by (rewrite !length_app; cbn; lia). cbn [mbind outcome_bind].
  replace (Z.to_nat (Z.of_nat (length pre + 1) - 1)) with (length pre + 0)%nat by lia.
  rewrite <-app_assoc, insert_app_r. cbn [app insert list_insert]. replace (Z.of_nat (length pre + 1) - 1 - 1) with (Z.of_nat (length pre) - 1) by lia.
  destruct (Z.ltb_spec n b) as [Hlt|Hge].
  - rewrite Z.div_small, Z.mod_small by lia. cbn [Z.gtb Z.compare]. exists (length pre). split; [lia|].
    rewrite take_app_length. split; [done|cbn; lia].
  - assert (0 < n / b) by (apply Z.div_str_pos; lia). rewrite Z.gtb_ltb, (proj2 (Z.ltb_lt _ _)) by done.
    rewrite Nat2Z.inj_succ, Z.pow_succ_r in Hn by lia.
    assert (Hf : n / b < b ^ Z.of_nat fuel) by (apply Z.div_lt_upper_bound; lia).
    destruct (IH F pre (digit (n mod b) :: post) (n / b)) as (k & Hk & -> & Hd); [lia|destruct fuel; [cbn in Hf; lia|lia]|lia|].
    exists k. split; [lia|]. rewrite take_app_le by lia. rewrite fmap_app, <-app_assoc. split; [done|]. rewrite length_app. cbn. lia.
Qed.

Lemma cstring_nul l post : Forall (λ c, c ≠ 0) l → cstring (l ++ 0 :: post) = Done l.
Proof. induction 1 as [|c l Hc _ IH]; [done|]. cbn. rewrite (proj2 (Z.eqb_neq _ _) Hc). cbn in IH. by rewrite IH. Qed.

Lemma numeral_plain b n : 2 ≤ b → 0 ≤ n → Forall (λ c, c ≠ 0) (numeral b n).
Proof. intros Hb Hn. apply Forall_fmap. eapply Forall_impl; [by apply digits_range|]. intros d Hd. cbn in *. unfold digit. destruct (d <? 10); lia. Qed.

(** ** Printing *)

Lemma s32_s32 a b : s32 (s32 a + b) = s32 (a + b).
Proof.
  assert (H : u32 (s32 a + b) = u32 (a + b)); [|unfold s32 at 1 3; by rewrite H].
  unfold s32, u32. destruct (a mod 4294967296 <? 2147483648); [apply Z.add_mod_idemp_l; lia|].
  replace (a mod 4294967296 - 4294967296 + b) with (a mod 4294967296 + b + (-1) * 4294967296) by lia.
  rewrite Z_mod_plus_full. apply Z.add_mod_idemp_l. lia.
Qed.

Lemma pf_print_print x y pf : pf_print y (pf_print x pf) = pf_print (x ++ y) pf.
Proof. unfold pf_print. cbn. rewrite s32_s32, <-app_assoc, length_app. do 2 f_equal. lia. Qed.

Lemma pf_fill_print n pf : 0 < n → pf_fill n pf = pf_print (replicate (Z.to_nat n) (fillchar pf)) pf.
Proof.
  intros Hn. unfold pf_fill. generalize (fillchar pf) as c. intros c. replace (Z.to_nat n) with (S (Z.to_nat (n - 1))) by lia.
  induction (Z.to_nat (n - 1)) as [|m IH]; [done|].
  change (Nat.iter (S (S m)) (pf_print [c]) pf) with (pf_print [c] (Nat.iter (S m) (pf_print [c]) pf)).
  by rewrite IH, pf_print_print, <-(replicate_S_end (S m)).
Qed.

Lemma rightspc_print x pf : rightspc (pf_print x pf) = rightspc pf.
Proof. done. Qed.

Lemma fillchar_print x pf : fillchar (pf_print x pf) = fillchar pf.
Proof. done. Qed.

(** What is printed of a field: two prefixes and a text, padded to the width. *)
Definition padded (left : bool) (fill w : Z) (p1 p2 txt : list Z) : list Z :=
  let pad := replicate (Z.to_nat (w - Z.of_nat (length p1 + length p2 + length txt))) fill in
  if left then p1 ++ p2 ++ txt ++ pad else if fill =? 48 then p1 ++ p2 ++ pad ++ txt else pad ++ p1 ++ p2 ++ txt.

Lemma printstuff_padded p1 p2 txt pf :
  0 ≤ spacing pf ≤ INT_MAX → Z.of_nat (length p1 + length p2 + length txt) ≤ INT_MAX →
  pf_printstuff p1 p2 txt pf = Done (pf_print (padded (rightspc pf) (fillchar pf) (spacing pf) p1 p2 txt) pf).
Proof.
  intros Hs Hl. unfold pf_printstuff, padded. rewrite s32_small by (unfold INT_MIN; lia).
  replace (Z.of_nat (length p1) + Z.of_nat (length p2) + Z.of_nat (length txt)) with (Z.of_nat (length p1 + length p2 + length txt)) by lia.
  set (L := Z.of_nat (length p1 + length p2 + length txt)) in *. rewrite Z.gtb_ltb. destruct (Z.ltb_spec L (spacing pf)) as [H|H].
  - unfold to_int. rewrite (proj2 (Z.leb_le INT_MIN _)), (proj2 (Z.leb_le _ INT_MAX)) by (unfold INT_MIN; lia). cbn [andb mbind outcome_bind].
    rewrite Z.gtb_ltb, (proj2 (Z.ltb_lt 0 _)) by lia. f_equal. destruct (rightspc pf) eqn:Er, (fillchar pf =? 48) eqn:Ef; cbn [andb negb];
      repeat first [rewrite rightspc_print|rewrite fillchar_print|rewrite pf_fill_print by lia|rewrite Er|rewrite Ef|progress cbn [andb negb]];
      rewrite !pf_print_print; f_equal; by rewrite ?app_assoc.
  - cbn [mbind outcome_bind]. rewrite !Z.gtb_ltb. cbn [Z.ltb Z.compare andb]. f_equal.
    replace (Z.to_nat (spacing pf - L)) with 0%nat by lia. cbn [replicate]. rewrite !pf_print_print. f_equal.
    destruct (rightspc pf), (fillchar pf =? 48); cbn [app]; by rewrite ?app_nil_r, ?app_assoc.
Qed.

(** Between two fields. *)
Definition idle (sent : list Z) (args : list varg) : PF := mkPF sent args (Z.of_nat (length sent)) false INTSZ 0 false 0 false 32 0 false false.

Lemma endfield_print txt pf :
  charcount pf = Z.of_nat (length (pf_sent pf)) → Z.of_nat (length (pf_sent pf ++ txt)) ≤ INT_MAX →
  pf_endfield (pf_print txt pf) = idle (pf_sent pf ++ txt) (ap pf).
Proof.
  intros Hc Hl. unfold pf_endfield, pf_print, idle. cbn. rewrite Hc, length_app in *.
  rewrite s32_small by (unfold INT_MIN; lia). f_equal. lia.
Qed.

Lemma printnum_numeral pf :
  base pf = 8 ∨ base pf = 10 ∨ base pf = 16 → 0 ≤ num pf < 4294967296 →
  pf_printnum pf =
    pf_printstuff (if sign pf then [45] else [])
      (if baseprefix pf && (base pf =? 16) then [48; 120] else if baseprefix pf && (base pf =? 8) then [48] else [])
      (numeral (base pf) (num pf)) pf.
Proof.
  intros Hb Hn. unfold pf_printnum. change (Z.to_nat NUMBER_BUF_SIZE) with 12%nat. change (NUMBER_BUF_SIZE - 1) with 11. cbn [arr_set].
  change (arr_set (replicate 12 (-1)) 11 0) with (Done (replicate 11 (-1) ++ [0])). cbn [mbind outcome_bind].
  change (11 - 1) with (Z.of_nat (length (replicate 11 (-1))) - 1).
  assert (Hb8 : 8 ≤ base pf) by (destruct Hb as [->|[->| ->]]; lia).
  destruct (number_loop_digits 11 12 (base pf) (replicate 11 (-1)) [0] (num pf)) as (k & Hk & -> & Hd); [done|by apply pow_room|cbn; lia|lia|].
  cbn [mbind outcome_bind]. replace (Z.to_nat (Z.of_nat k - 1 + 1)) with k by lia.
  assert (Hdrop : drop k (take k (replicate 11 (-1)) ++ (digit <$> digits 11 (base pf) (num pf)) ++ [0]) = numeral (base pf) (num pf) ++ [0]).
  { rewrite drop_app_ge by (rewrite length_take; lia). rewrite length_take, Nat.min_l, Nat.sub_diag by lia. done. }
  rewrite Hdrop, cstring_nul by (apply numeral_plain; lia). done.
Qed.

(** ** Formats *)

(** The flags of a conversion and what it converts. *)
Record flags := mkFlags { f_alt : bool; f_left : bool; f_zero : bool; f_width : Z; f_long : bool }.
Inductive conv :=
| CInt (z : Z)
| CUnsigned (n : Z)
| CHex (n : Z)
| COctal (n : Z)
| CPointer (n : Z)
| CString (s : option (list Z))
| CChar (w : Z)
| COther (ch : Z).
Inductive item := Lit (ch : Z) | Conv (f : flags) (c : conv).

(** How an item is written in a format, the argument it takes, and what it prints. *)
Definition width_text (w : Z) : list Z := if w =? 0 then [] else numeral 10 w.
Definition flags_text (f : flags) : list Z :=
  (if f_alt f then [35] else []) ++ (if f_left f then [45] else []) ++ (if f_zero f then [48] else []) ++ width_text (f_width f) ++
  (if f_long f then [108] else []).
Definition conv_char (c : conv) : Z :=
  match c with CInt _ => 100 | CUnsigned _ => 117 | CHex _ => 120 | COctal _ => 111 | CPointer _ => 112 | CString _ => 115 | CChar _ => 99 | COther ch => ch end.
Definition item_text (i : item) : list Z := match i with Lit ch => [ch] | Conv f c => 37 :: flags_text f ++ [conv_char c] end.
Definition item_arg (i : item) : list varg :=
  match i with
  | Lit _ | Conv _ (COther _) => []
  | Conv _ (CInt z) => [AWord (u32 z)]
  | Conv _ (CUnsigned n | CHex n | COctal n | CPointer n | CChar n) => [AWord n]
  | Conv _ (CString s) => [AStr s]
  end.

Definition field (f : flags) : list Z → list Z → list Z → list Z := padded (f_left f) (if f_zero f then 48 else 32) (f_width f).
Definition render (i : item) : list Z :=
  match i with
  | Lit ch => [ch]
  | Conv f (CInt z) => field f (if z <? 0 then [45] else []) [] (numeral 10 (Z.abs z))
  | Conv f (CUnsigned n) => field f [] [] (numeral 10 n)
  | Conv f (CHex n) => field f [] (if f_alt f then [48; 120] else []) (numeral 16 n)
  | Conv f (COctal n) => field f [] (if f_alt f then [48] else []) (numeral 8 n)
  | Conv f (CPointer n) => field f [] [48; 120] (numeral 16 n)
  | Conv f (CString s) => field f [] [] (default null_text s)
  | Conv f (CChar w) => field f [] [] (one_char w)
  | Conv f (COther ch) => field f [] [] [ch]
  end.

Definition word_ok (n : Z) : Prop := 0 ≤ n < 4294967296.
Definition item_ok (i : item) : Prop :=
  match i with
  | Lit ch => ch ≠ 0 ∧ ch ≠ 37
  | Conv f c => 0 ≤ f_width f ≤ INT_MAX ∧
      match c with
      | CInt z => INT_MIN < z ≤ INT_MAX
      | CUnsigned n | CHex n | COctal n | CPointer n | CChar n => word_ok n
      | CString s => Z.of_nat (length (default null_text s)) ≤ INT_MAX
      | COther ch => ch ≠ 0 ∧ is_modifier ch = false ∧ is_integer ch = false ∧ ch ≠ 115 ∧ ch ≠ 99
      end
  end.

Lemma send_all_app a b pf : send_all (a ++ b) pf = (pf ← send_all a pf; send_all b pf).
Proof. revert pf. induction a as [|c a IH]; intros pf; [done|]. cbn. destruct (pf_send c pf); cbn; [apply IH|done..]. Qed.

Lemma send_modifier ch pf : in_pct pf = true → is_modifier ch = true → pf_send ch pf = pf_modifier ch pf.
Proof.
  intros Hp Hm. unfold pf_send. rewrite Hp, Hm. assert (ch ≠ 0) as ->%Z.eqb_neq; [|done].
  intros ->. done.
Qed.

Lemma digit_modifier pf d n :
  in_pct pf = true → 0 ≤ d < 10 → 0 ≤ spacing pf → 0 < d ∨ 0 < spacing pf → n = spacing pf * 10 + d → n ≤ INT_MAX →
  send_all [digit d] pf = Done (set_spacing n pf).
Proof.
  intros Hp Hd Hs Hpos -> Hn. unfold digit. rewrite (proj2 (Z.ltb_lt d 10)) by lia. cbn [send_all].
  rewrite send_modifier by (try done; unfold is_modifier; repeat (apply orb_true_iff; (left; done) || right); apply andb_true_iff; split; apply Z.leb_le; lia).
  assert (Hti : ∀ z, 0 ≤ z ≤ INT_MAX → to_int z = Done z) by (intros z Hz; apply wp_eq, wp_to_int; unfold INT_MIN; lia).
  unfold pf_modifier. rewrite !(proj2 (Z.eqb_neq _ _)) by lia. cbn [orb]. destruct (Z.eqb_spec (48 + d) 48).
  - rewrite Z.gtb_ltb, (proj2 (Z.ltb_lt _ _)), Hti by lia. cbn. do 2 f_equal. lia.
  - rewrite (proj2 (Z.ltb_lt 48 _)), (proj2 (Z.leb_le _ 57)) by lia. cbn. rewrite Hti by lia. cbn. rewrite Hti by lia. cbn. do 2 f_equal. lia.
Qed.

Lemma send_width fuel n pf :
  in_pct pf = true → spacing pf = 0 → 0 < n ≤ INT_MAX → n < 10 ^ Z.of_nat fuel →
  send_all (digit <$> digits fuel 10 n) pf = Done (set_spacing n pf).
Proof.
  intros Hp Hs. revert n. induction fuel as [|fuel IH]; intros n Hn Hf; [cbn in Hf; lia|]. cbn [digits].
  destruct (Z.ltb_spec n 10).
  - apply digit_modifier; [done|lia|lia|lia|lia|lia].
  - rewrite Nat2Z.inj_succ, Z.pow_succ_r in Hf by lia. rewrite fmap_app, send_all_app, IH by dlia. cbn [mbind outcome_bind].
    pose proof (Z.mod_pos_bound n 10). pose proof (Z.div_mod n 10). assert (0 < n / 10) by dlia.
    by rewrite (digit_modifier _ (n mod 10) n) by (cbn; done || lia).
Qed.

Definition in_field (f : flags) (sent : list Z) (args : list varg) : PF :=
  mkPF sent args (Z.of_nat (length sent)) true (if f_long f then LONGSZ else INTSZ) 0 false (f_width f) (f_left f) (if f_zero f then 48 else 32) 0 false (f_alt f).

Lemma send_all_step a b pf pf1 r : send_all a pf = Done pf1 → send_all b pf1 = r → send_all (a ++ b) pf = r.
Proof. intros H1 H2. by rewrite send_all_app, H1. Qed.

Lemma send_width_text w pf : in_pct pf = true → spacing pf = 0 → 0 ≤ w ≤ INT_MAX → send_all (width_text w) pf = Done (set_spacing w pf).
Proof.
  intros Hp Hs Hw. unfold width_text. destruct (Z.eqb_spec w 0) as [->|]; [cbn; rewrite <-Hs at 1; by destruct pf|].
  apply send_width; [done|done|lia|]. change (Z.of_nat 11) with 11. unfold INT_MAX in *. assert (2147483647 < 10 ^ 11) by done. lia.
Qed.

Lemma send_flags f sent args :
  0 ≤ f_width f ≤ INT_MAX → send_all (37 :: flags_text f) (idle sent args) = Done (in_field f sent args).
Proof.
  intros Hw. destruct f as [alt left zero w long]. cbn [f_width] in Hw. change (37 :: flags_text _) with ([37] ++ flags_text (mkFlags alt left zero w long)).
  unfold flags_text, in_field. cbn [f_alt f_left f_zero f_width f_long]. set (n := Z.of_nat (length sent)).
  apply (send_all_step _ _ _ (mkPF sent args n true INTSZ 0 false 0 false 32 0 false false)); [done|].
  apply (send_all_step _ _ _ (mkPF sent args n true INTSZ 0 false 0 false 32 0 false alt)); [by destruct alt|].
  apply (send_all_step _ _ _ (mkPF sent args n true INTSZ 0 false 0 left 32 0 false alt)); [by destruct left|].
  apply (send_all_step _ _ _ (mkPF sent args n true INTSZ 0 false 0 left (if zero then 48 else 32) 0 false alt)); [by destruct zero|].
  apply (send_all_step _ _ _ (mkPF sent args n true INTSZ 0 false w left (if zero then 48 else 32) 0 false alt)); [by apply send_width_text|].
  by destruct long.
Qed.

Lemma finish_stuff p1 p2 txt pf :
  charcount pf = Z.of_nat (length (pf_sent pf)) → 0 ≤ spacing pf ≤ INT_MAX → Z.of_nat (length p1 + length p2 + length txt) ≤ INT_MAX →
  let out := padded (rightspc pf) (fillchar pf) (spacing pf) p1 p2 txt in
  Z.of_nat (length (pf_sent pf ++ out)) ≤ INT_MAX →
  (pf ← pf_printstuff p1 p2 txt pf; Done (pf_endfield pf)) = Done (idle (pf_sent pf ++ out) (ap pf)).
Proof. intros Hc Hs Hl out Ho. rewrite printstuff_padded by done. cbn [mbind outcome_bind]. by rewrite endfield_print. Qed.

Lemma finish_num pf :
  base pf = 8 ∨ base pf = 10 ∨ base pf = 16 → 0 ≤ num pf < 4294967296 →
  charcount pf = Z.of_nat (length (pf_sent pf)) → 0 ≤ spacing pf ≤ INT_MAX →
  let out := padded (rightspc pf) (fillchar pf) (spacing pf) (if sign pf then [45] else [])
    (if baseprefix pf && (base pf =? 16) then [48; 120] else if baseprefix pf && (base pf =? 8) then [48] else []) (numeral (base pf) (num pf)) in
  Z.of_nat (length (pf_sent pf ++ out)) ≤ INT_MAX →
  (pf ← pf_printnum pf; Done (pf_endfield pf)) = Done (idle (pf_sent pf ++ out) (ap pf)).
Proof.
  intros Hb Hn Hc Hs out Ho. rewrite printnum_numeral by done. apply finish_stuff; [done|done| |done].
  assert (length (numeral (base pf) (num pf)) ≤ 11)%nat by (unfold numeral; rewrite length_fmap; apply length_digits).
  unfold INT_MAX. repeat case_match; cbn [length]; lia.
Qed.

Lemma send_integer ch pf :
  in_pct pf = true → is_integer ch = true → pf_send ch pf = (pf ← pf_getnum ch pf; pf ← pf_printnum (pf_setbase ch pf); Done (pf_endfield pf)).
Proof.
  intros Hp Hi. unfold pf_send. rewrite Hp, Hi. unfold is_integer in Hi.
  assert (H : ch = 100 ∨ ch = 111 ∨ ch = 117 ∨ ch = 112 ∨ ch = 120) by (rewrite !orb_true_iff, !Z.eqb_eq in Hi; tauto).
  by destruct H as [->|[->|[->|[->| ->]]]].
Qed.

Lemma getnum_unsigned ch n f sent rest :
  word_ok n → ch ≠ 100 → pf_getnum ch (in_field f sent (AWord n :: rest)) = Done (set_num n false rest (in_field f sent (AWord n :: rest))).
Proof. intros Hn Hch. unfold pf_getnum. cbn. rewrite u32_small by done. rewrite (proj2 (Z.eqb_neq ch 100)) by done. by destruct (ch =? 112). Qed.

Lemma getnum_signed z f sent rest :
  INT_MIN < z ≤ INT_MAX →
  pf_getnum 100 (in_field f sent (AWord (u32 z) :: rest)) = Done (set_num (Z.abs z) (z <? 0) rest (in_field f sent (AWord (u32 z) :: rest))).
Proof.
  intros Hz. unfold pf_getnum, INT_MIN, INT_MAX in *. cbn. assert (Hs : s32 (u32 z) = z).
  { unfold s32, u32. rewrite Z.mod_mod by lia. destruct (Z.ltb_spec (z mod 4294967296) 2147483648); dlia. }
  rewrite Hs. destruct (Z.ltb_spec z 0).
  - unfold to_int, INT_MIN, INT_MAX. rewrite (proj2 (Z.leb_le (-2147483648) _)), (proj2 (Z.leb_le _ 2147483647)) by lia. cbn. rewrite u32_small by lia. do 2 f_equal. lia.
  - do 2 f_equal. lia.
Qed.

(** The last character of a conversion. *)
Lemma send_conv f c sent rest :
  item_ok (Conv f c) → Z.of_nat (length (sent ++ render (Conv f c))) ≤ INT_MAX →
  pf_send (conv_char c) (in_field f sent (item_arg (Conv f c) ++ rest)) = Done (idle (sent ++ render (Conv f c)) rest).
Proof.
  intros [Hw Hc] Hl. destruct c as [z|n|n|n|n|s|w|ch]; cbn [item_arg app conv_char].
  - rewrite send_integer, getnum_signed by done. cbn [mbind outcome_bind].
    destruct f as [[] lft zero w long]; (rewrite finish_num; [reflexivity|by (right; left)|unfold INT_MIN, INT_MAX in *; cbn; lia|done|done|exact Hl]).
  - rewrite send_integer, getnum_unsigned by done. cbn [mbind outcome_bind].
    destruct f as [[] lft zero w long]; (rewrite finish_num; [reflexivity|by (right; left)|done|done|done|exact Hl]).
  - rewrite send_integer, getnum_unsigned by done. cbn [mbind outcome_bind].
    destruct f as [[] lft zero w long]; (rewrite finish_num; [reflexivity|by (right; right)|done|done|done|exact Hl]).
  - rewrite send_integer, getnum_unsigned by done. cbn [mbind outcome_bind].
    destruct f as [[] lft zero w long]; (rewrite finish_num; [reflexivity|by left|done|done|done|exact Hl]).
  - rewrite send_integer, getnum_unsigned by done. cbn [mbind outcome_bind].
    destruct f as [[] lft zero w long]; (rewrite finish_num; [reflexivity|by (right; right)|done|done|done|exact Hl]).
  - by apply (finish_stuff [] [] (default null_text s) (set_num 0 false rest (in_field f sent (AStr s :: rest)))).
  - apply (finish_stuff [] [] (one_char w) (set_num 0 false rest (in_field f sent (AWord w :: rest)))); [done|done| |done].
    unfold one_char, INT_MAX. repeat case_match; cbn; lia.
  - destruct Hc as (H0 & Hm & Hi & Hs & Hcc). unfold pf_send. cbn [in_pct in_field negb andb].
    rewrite Hm, Hi, !(proj2 (Z.eqb_neq _ _)) by done. cbn [negb kassert mbind outcome_bind].
    apply (finish_stuff [] [] [ch] (in_field f sent rest)); [done|done|cbn; unfold INT_MAX; lia|done].
Qed.

Lemma send_item i sent rest :
  item_ok i → Z.of_nat (length (sent ++ render i)) ≤ INT_MAX →
  send_all (item_text i) (idle sent (item_arg i ++ rest)) = Done (idle (sent ++ render i) rest).
Proof.
  intros Hok Hl. destruct i as [ch|f c].
  - destruct Hok as [H0 H37]. cbn [item_text item_arg app render send_all] in *.
    assert (Hs : pf_send ch (idle sent rest) = Done (pf_print [ch] (idle sent rest))).
    { unfold pf_send. by rewrite (proj2 (Z.eqb_neq ch 0)), (proj2 (Z.eqb_neq ch 37)) by done. }
    rewrite Hs. cbn [mbind outcome_bind]. rewrite length_app in Hl. cbn [length] in Hl. f_equal.
    unfold pf_print, idle. cbn [pf_sent ap charcount in_pct size num sign spacing rightspc fillchar base baseprefix altformat length].
    rewrite length_app, s32_small by (unfold INT_MIN; lia). f_equal. cbn [length]. lia.
  - cbn [item_text]. change (37 :: flags_text f ++ [conv_char c]) with ((37 :: flags_text f) ++ [conv_char c]).
    eapply send_all_step; [apply send_flags, Hok|]. cbn [send_all]. by rewrite send_conv.
Qed.

Lemma send_items its sent rest :
  Forall item_ok its → Z.of_nat (length (sent ++ mjoin (render <$> its))) ≤ INT_MAX →
  send_all (mjoin (item_text <$> its)) (idle sent (mjoin (item_arg <$> its) ++ rest)) = Done (idle (sent ++ mjoin (render <$> its)) rest).
Proof.
  intros Hok. revert sent. induction Hok as [|i its Hi _ IH]; intros sent Hl; [cbn; by rewrite app_nil_r|].
  change (mjoin (item_text <$> i :: its)) with (item_text i ++ mjoin (item_text <$> its)).
  change (mjoin (item_arg <$> i :: its)) with (item_arg i ++ mjoin (item_arg <$> its)). change (mjoin (render <$> i :: its)) with (render i ++ mjoin (render <$> its)) in *.
  rewrite app_assoc in Hl |- *. rewrite <-(app_assoc (item_arg i)).
  eapply send_all_step; [apply send_item; [done|]; rewrite length_app in Hl; lia|]. by apply IH.
Qed.


(** Some text with every kind of conversion. *)
Module PrintfExample.
#[local] Existing Instance TtyExample.term_tty.
#[local] Existing Instance TtyExample.term_laws.

Definition no_flags : flags := mkFlags false false false 0 false.
Definition message : list item :=
  [Lit 120; Conv (mkFlags false false false 6 false) (CInt (-42)); Conv (mkFlags true false true 10 true) (CHex 48879); Lit 10;
   Conv (mkFlags false true false 4 false) (CString (Some [111; 107])); Conv no_flags (CString None); Conv no_flags (COther 37);
   Conv no_flags (COctal 4294967295); Conv no_flags (CPointer 0); Conv no_flags (CUnsigned 7); Conv no_flags (CChar 33)].

End PrintfExample.
