(* ===== verification/Elf.v ===== *)
(** * userprog/loadelf.c: loading an ELF executable

    The file is kept in the repository's store of pristine copies.  The executable is
    read through an interface that promises what VOP_READ of a plain file does; the
    address space is an interface as well, with the user memory it maps. *)

From stdpp Require Import list.
From S2P Require Import Prelude Copyinout Uio Exec.

Definition ENOEXEC : Z := 24.
Definition ELF_HDR : Z := 52.
Definition ELF_PHDR : Z := 32.
Definition PT_NULL : Z := 0.
Definition PT_LOAD : Z := 1.
Definition PT_PHDR : Z := 6.
Definition PT_MIPS_REGINFO : Z := 1879048192.

(** A big-endian number of [n] bytes. *)
Definition be (l : list Z) (off n : nat) : Z := fold_left (λ acc b, acc * 256 + b) (take n (drop off l)) 0.

(** The fields of the headers that are used. *)
Record Elf_Ehdr := mkEhdr {
  e_ident : list Z;
  e_type : Z;
  e_machine : Z;
  e_version : Z;
  e_entry : Z;
  e_phoff : Z;
  e_phentsize : Z;
  e_phnum : Z;
}.
Record Elf_Phdr := mkPhdr { p_type : Z; p_offset : Z; p_vaddr : Z; p_filesz : Z; p_memsz : Z; p_flags : Z }.

Definition ehdr_of (l : list Z) : Elf_Ehdr := mkEhdr (take 16 l) (be l 16 2) (be l 18 2) (be l 20 4) (be l 24 4) (be l 28 4) (be l 42 2) (be l 44 2).
Definition phdr_of (l : list Z) : Elf_Phdr := mkPhdr (be l 0 4) (be l 4 4) (be l 8 4) (be l 16 4) (be l 20 4) (be l 24 4).

(** Magic number, 32 bits, big endian, version 1, an executable, for MIPS. *)
Definition ehdr_ok (eh : Elf_Ehdr) : bool :=
  bool_decide (take 7 (e_ident eh) = [127; 69; 76; 70; 1; 2; 1]) && (e_version eh =? 1) && (e_type eh =? 2) && (e_machine eh =? 8).

(** The file, and what is promised of reading it. *)
Class ElfFile (F : Type) := vop_read : F → uio → outcome (Z * uio).

(** The address space: its memory and the operations of addrspace.h. *)
Class AddrSpace (A : Type) := {
  as_mem : A → umem;
  set_as_mem : umem → A → A;
  as_define_region : Z → Z → Z → Z → Z → A → outcome (Z * A);
  as_prepare_load : A → outcome (Z * A);
  as_complete_load : A → outcome (Z * A);
}.

Section elf.
Context {cs : CurSpace} {F A : Type} `{!ElfFile F} `{!AddrSpace A}.

(** The memory of a user uio goes back into the address space. *)
Definition put_mem (u : uio) (a : A) : outcome A :=
  match iov_base u with UBase m _ _ => Done (set_as_mem m a) | KBase _ _ => Undef end.

Definition load_segment (f : F) (offset vaddr memsize filesize is_executable : Z) (a : A) : outcome (Z * A) :=
  let filesize := if filesize >? memsize then memsize else filesize in
  let seg := if negb (is_executable =? 0) then UIO_USERISPACE else UIO_USERSPACE in
  '(result, u) ← vop_read f (mkUio (UBase (as_mem a) false vaddr) memsize (s32 offset) filesize seg UIO_READ cur_vmspace);
  a ← put_mem u a;
  if negb (result =? 0) then Done (result, a) else
  if negb (uio_resid u =? 0) then Done (ENOEXEC, a) else
  let fillamt := u32 (memsize - filesize) in
  if fillamt >? 0 then
    '(result, u) ← uiomovezeros fillamt
      (mkUio (iov_base u) (iov_len u) (uio_offset u) (u32 (uio_resid u + fillamt)) (uio_segflg u) (uio_rw_of u) (uio_space u));
    a ← put_mem u a;
    Done (result, a)
  else Done (result, a).

(** Reading [n] bytes at [off] into a local structure: the error, or the bytes. *)
Definition read_struct (f : F) (n off : Z) : outcome (Z + list Z) :=
  '(result, ku) ← vop_read f (mk_kuio (replicate (Z.to_nat n) 0) 0 n off UIO_READ);
  if negb (result =? 0) then Done (inl result) else
  if negb (uio_resid ku =? 0) then Done (inl ENOEXEC) else
  match iov_base ku with KBase mem _ => Done (inr mem) | UBase _ _ _ => Undef end.

Definition phdr_at (eh : Elf_Ehdr) (i : Z) : Z := s32 (e_phoff eh + i * e_phentsize eh).

(** The loop over the program headers; the body gets those of loadable segments. *)
Fixpoint for_phdrs (f : F) (eh : Elf_Ehdr) (n : nat) (i : Z) (body : Elf_Phdr → A → outcome (Z * A)) (a : A) : outcome (Z * A) :=
  match n with
  | O => Done (0, a)
  | S n =>
      r ← read_struct f ELF_PHDR (phdr_at eh i);
      match r with
      | inl result => Done (result, a)
      | inr bytes =>
          let ph := phdr_of bytes in
          if (p_type ph =? PT_NULL) || (p_type ph =? PT_PHDR) || (p_type ph =? PT_MIPS_REGINFO) then for_phdrs f eh n (i + 1) body a
          else if negb (p_type ph =? PT_LOAD) then Done (ENOEXEC, a)
          else
            '(result, a) ← body ph a;
            if negb (result =? 0) then Done (result, a) else for_phdrs f eh n (i + 1) body a
      end
  end.

(** The result, and the entry point when it is 0. *)
Definition load_elf (f : F) (a : A) : outcome (Z * option Z * A) :=
  r ← read_struct f ELF_HDR 0;
  match r with
  | inl result => Done (result, None, a)
  | inr bytes =>
      let eh := ehdr_of bytes in
      if negb (ehdr_ok eh) then Done (ENOEXEC, None, a) else
      let n := Z.to_nat (e_phnum eh) in
      '(result, a) ← for_phdrs f eh n 0
        (λ ph a, as_define_region (p_vaddr ph) (p_memsz ph) (Z.land (p_flags ph) 4) (Z.land (p_flags ph) 2) (Z.land (p_flags ph) 1) a) a;
      if negb (result =? 0) then Done (result, None, a) else
      '(result, a) ← as_prepare_load a;
      if negb (result =? 0) then Done (result, None, a) else
      '(result, a) ← for_phdrs f eh n 0
        (λ ph a, load_segment f (p_offset ph) (p_vaddr ph) (p_memsz ph) (p_filesz ph) (Z.land (p_flags ph) 1) a) a;
      if negb (result =? 0) then Done (result, None, a) else
      '(result, a) ← as_complete_load a;
      if negb (result =? 0) then Done (result, None, a) else
      Done (0, Some (e_entry eh), a)
  end.
End elf.

(** ** Moving bytes to user memory *)

Section user_uio.
Context {cs : CurSpace}.

(** A uio that reads into user memory. *)
Definition uuio (seg : uio_seg) (m : umem) (a len off resid : Z) : uio := mkUio (UBase m false a) len off resid seg UIO_READ cur_vmspace.

Definition uuio_ok (seg : uio_seg) (m : umem) (a len off resid n : Z) : Prop :=
  seg ≠ UIO_SYSSPACE ∧ 0 ≤ a ∧ a + n ≤ USERTOP ∧ user_mapped m a n ∧ 0 ≤ n ≤ resid ∧ n ≤ len ∧ len < 4294967296 ∧ resid < 4294967296 ∧
  0 ≤ off ∧ off + n ≤ INT_MAX.

Lemma copyout_mapped m src pos a n :
  0 < n → 0 ≤ a → a + n ≤ USERTOP → user_mapped m a n → 0 ≤ pos → pos + n ≤ Z.of_nat (length src) →
  copyout m false src pos a n = Done (0, user_write m a (slice src pos n), false).
Proof.
  intros Hn Ha Hu Hm Hp Hl. unfold USERTOP in *. apply wp_eq. eapply wp_mono; [apply copyout_wp; lia|].
  intros [[r m'] bff'] [(-> & -> & _ & _ & ->)|(_ & _ & Hno & _)]; [done|]. exfalso. apply Hno. split; [split; unfold USERTOP; lia|done].
Qed.

Lemma uiomove_uuio seg buf ptr n m a len off resid :
  uuio_ok seg m a len off resid n → 0 ≤ ptr → ptr + n ≤ Z.of_nat (length buf) →
  uiomove buf ptr n (uuio seg m a len off resid) =
    Done (0, buf, uuio seg (user_write m a (slice buf ptr n)) (a + n) (len - n) (off + n) (resid - n)).
Proof.
  intros (Hseg & Ha & Hu & Hm & Hn & Hnl & Hl & Hr & Ho & Hmax) Hp Hb. unfold uiomove, uuio at 1.
  assert (Hk : ∀ X, (if decide (seg = UIO_SYSSPACE) then X else kassert (bool_decide (cur_vmspace = cur_vmspace))) = Done tt).
  { intros X. rewrite decide_False by done. by rewrite bool_decide_true. }
  cbn [uio_segflg uio_space]. rewrite Hk. cbn [mbind outcome_bind].
  destruct (decide (n = 0)) as [->|Hn0]; [unfold slice; cbn; by rewrite !Z.add_0_r, !Z.sub_0_r|].
  assert (Z.to_nat n = S (Z.to_nat (n - 1))) as Hfuel by lia.
  cbn [while_loop iov_len uio_resid]. assert ((n >? 0) && (resid >? 0) = true) as -> by lia.
  assert ((if len >? n then n else len) = n) as -> by (destruct (len >? n) eqn:E; lia). rewrite (proj2 (Z.eqb_neq n 0)) by done.
  assert (Hch : uiomove_chunk buf ptr n (mkUio (UBase m false a) len off resid seg UIO_READ cur_vmspace) =
    Done (0, buf, UBase (user_write m a (slice buf ptr n)) false (a + n))).
  { unfold uiomove_chunk. cbn [uio_segflg iov_base uio_rw_of]. rewrite copyout_mapped by lia || done. unfold USERTOP in *. cbn. rewrite u32_small by lia. by destruct seg. }
  rewrite Hch. cbn [mbind outcome_bind negb Z.eqb]. rewrite Hfuel. cbn [while_loop mbind outcome_bind]. unfold INT_MAX in *.
  cbn [uio_resid uio_offset uio_segflg uio_rw_of uio_space iov_len]. rewrite Z.sub_diag. cbn.
  rewrite s32_small by (unfold INT_MIN, INT_MAX; lia). by rewrite u32_small by lia.
Qed.

Lemma uuio_ok_advance seg m a len off resid n k bs :
  uuio_ok seg m a len off resid n → 0 ≤ k ≤ n → uuio_ok seg (user_write m a bs) (a + k) (len - k) (off + k) (resid - k) (n - k).
Proof.
  intros (Hseg & Ha & Hu & Hm & Hn & Hnl & Hl & Hr & Ho & Hmax) Hk. unfold uuio_ok. split_and!; try done; try lia.
  intros i Hi. apply user_write_mapped. rewrite <-Z.add_assoc. apply Hm. lia.
Qed.

Lemma user_write_app m a x y : user_write m a (x ++ y) = user_write (user_write m a x) (a + Z.of_nat (length x)) y.
Proof. revert m a. induction x as [|v x IH]; intros m a; cbn [app user_write length]; [by rewrite Z.add_0_r|]. rewrite IH. f_equal. lia. Qed.

Lemma uiomovezeros_uuio seg n m a len off resid :
  uuio_ok seg m a len off resid n →
  uiomovezeros n (uuio seg m a len off resid) =
    Done (0, uuio seg (user_write m a (replicate (Z.to_nat n) 0)) (a + n) (len - n) (off + n) (resid - n)).
Proof.
  intros Hok. pose proof Hok as (_ & _ & _ & _ & Hn & _). apply wp_eq. unfold uiomovezeros. apply wp_bind, wp_kassert; [done|].
  apply (wp_while_loop (λ '(k, u), 0 ≤ k ≤ n ∧
    u = uuio seg (user_write m a (replicate (Z.to_nat (n - k)) 0)) (a + (n - k)) (len - (n - k)) (off + (n - k)) (resid - (n - k))) _ (λ '(k, _), k)).
  - rewrite Z.sub_diag, !Z.add_0_r, !Z.sub_0_r. split; [lia|done].
  - lia.
  - intros [k u] [? _]. lia.
  - intros [k u] [Hk ->]. cbv beta iota. destruct (Z.gtb_spec k 0); [|cbn; assert (k = 0) as -> by lia; by rewrite Z.sub_0_r].
    set (amt := if 16 >? k then k else 16).
    assert (0 < amt ≤ 16 ∧ amt ≤ k) as Hamt by (unfold amt; destruct (Z.gtb_spec 16 k); lia).
    assert (slice (replicate 16 0) 0 amt = replicate (Z.to_nat amt) 0) as Hsl.
    { unfold slice. change (Z.to_nat 0) with 0%nat. by rewrite drop_0, take_replicate, Nat.min_l by lia. }
    rewrite uiomove_uuio; [|..|cbn; lia]; [|..|lia].
    + rewrite Hsl. cbn [mbind outcome_bind negb Z.eqb wp loop_post]. split; [|lia]. split; [lia|].
      replace (n - (k - amt)) with ((n - k) + amt) by lia. rewrite Z2Nat.inj_add, replicate_add, user_write_app, length_replicate by lia.
      unfold uuio. f_equal; try lia. f_equal; [|lia]. f_equal. lia.
    + pose proof (uuio_ok_advance seg m a len off resid n (n - k) (replicate (Z.to_nat (n - k)) 0) Hok ltac:(lia)) as (H1 & H2 & H3 & H4 & H5 & H6 & H7 & H8 & H9 & H10).
      unfold uuio_ok. split_and!; try done; try lia. intros i Hi. apply H4. lia.
Qed.
End user_uio.

(** ** The loaded image *)

(** What VOP_READ of a plain file promises, as far as the file goes. *)
Class ElfFileLaws (F : Type) `{!ElfFile F} {cs : CurSpace} := {
  fbytes : F → list Z;
  read_kernel f mem len off :
    kuio_ok mem 0 len off len → off + len ≤ Z.of_nat (length (fbytes f)) →
    vop_read f (kuio UIO_READ mem 0 len off len) = Done (0, kuio UIO_READ (buf_write mem 0 (slice (fbytes f) off len)) len 0 (off + len) 0);
  read_user f seg m a len off n :
    uuio_ok seg m a len off n n → off + n ≤ Z.of_nat (length (fbytes f)) →
    vop_read f (uuio seg m a len off n) = Done (0, uuio seg (user_write m a (slice (fbytes f) off n)) (a + n) (len - n) (off + n) 0);
}.

(** What the address space promises: there is room for the regions, and once they are
    defined and prepared they are mapped. *)
Class AddrSpaceLaws (A : Type) `{!AddrSpace A} := {
  as_room : A → list (Z * Z) → Prop;
  as_regions : A → list (Z * Z);
  as_ready : A → Prop;
  as_mem_set m a : as_mem (set_as_mem m a) = m;
  as_ready_set m a : as_ready a → as_ready (set_as_mem m a);
  define_law v sz r w x a l : as_room a ((v, sz) :: l) →
    wp (as_define_region v sz r w x a) (λ '(e, a'), e = 0 ∧ as_room a' l ∧ as_regions a' = as_regions a ++ [(v, sz)]);
  prepare_law a : as_room a [] →
    wp (as_prepare_load a) (λ '(e, a'), e = 0 ∧ as_ready a' ∧ ∀ v sz, (v, sz) ∈ as_regions a → user_mapped (as_mem a') v sz);
  complete_law a : as_ready a → wp (as_complete_load a) (λ '(e, a'), e = 0 ∧ as_mem a' = as_mem a);
}.

Section image.
Context {cs : CurSpace} {F A : Type} `{!ElfFile F} `{!ElfFileLaws F} `{!AddrSpace A} `{!AddrSpaceLaws A}.
Implicit Types (f : F) (a : A) (ph : Elf_Phdr).

(** The program headers in the file, and those of loadable segments. *)
Definition phdr_in (l : list Z) (eh : Elf_Ehdr) (i : nat) : Elf_Phdr := phdr_of (slice l (e_phoff eh + Z.of_nat i * e_phentsize eh) ELF_PHDR).
Definition phdrs (l : list Z) (eh : Elf_Ehdr) : list Elf_Phdr := phdr_in l eh <$> seq 0 (Z.to_nat (e_phnum eh)).
Definition is_load ph : Prop := p_type ph = PT_LOAD.
#[local] Instance is_load_dec ph : Decision (is_load ph).
Proof. unfold is_load. apply _. Defined.
Definition region ph : Z * Z := (p_vaddr ph, p_memsz ph).

(** What the memory of a segment must hold. *)
Definition segment (l : list Z) ph : list Z := slice l (p_offset ph) (p_filesz ph) ++ replicate (Z.to_nat (p_memsz ph - p_filesz ph)) 0.

Definition apart (ph1 ph2 : Elf_Phdr) : Prop := p_vaddr ph1 + p_memsz ph1 ≤ p_vaddr ph2 ∨ p_vaddr ph2 + p_memsz ph2 ≤ p_vaddr ph1.

Fixpoint all_apart (l : list Elf_Phdr) : Prop := match l with [] => True | ph :: l => Forall (apart ph) l ∧ all_apart l end.

Record phdr_ok (l : list Z) ph : Prop := mkPhdrOk {
  po_kind : p_type ph = PT_NULL ∨ p_type ph = PT_PHDR ∨ p_type ph = PT_MIPS_REGINFO ∨ p_type ph = PT_LOAD;
  po_size : is_load ph → 0 ≤ p_filesz ph ≤ p_memsz ph;
  po_file : is_load ph → 0 ≤ p_offset ph ∧ p_offset ph + p_memsz ph ≤ INT_MAX ∧ p_offset ph + p_filesz ph ≤ Z.of_nat (length l);
  po_user : is_load ph → 0 ≤ p_vaddr ph ∧ p_vaddr ph + p_memsz ph ≤ USERTOP;
}.

Record elf_ok (l : list Z) (eh : Elf_Ehdr) : Prop := mkElfOk {
  eo_size : ELF_HDR ≤ Z.of_nat (length l) ≤ INT_MAX;
  eo_header : eh = ehdr_of (take 52 l);
  eo_valid : ehdr_ok eh = true;
  eo_table : 0 ≤ e_phoff eh ∧ 0 ≤ e_phentsize eh ∧ 0 ≤ e_phnum eh ∧ e_phoff eh + e_phnum eh * e_phentsize eh + ELF_PHDR ≤ Z.of_nat (length l) + e_phentsize eh;
  eo_phdrs : Forall (phdr_ok l) (phdrs l eh);
  eo_apart : all_apart (filter is_load (phdrs l eh));
}.

Lemma read_struct_bytes f n off :
  0 ≤ n < 4294967296 → 0 ≤ off → off + n ≤ Z.of_nat (length (fbytes f)) → Z.of_nat (length (fbytes f)) ≤ INT_MAX →
  read_struct f n off = Done (inr (slice (fbytes f) off n)).
Proof.
  intros Hn Ho Hl Hm. unfold read_struct. change (mk_kuio ?m 0 ?k off UIO_READ) with (kuio UIO_READ m 0 k off k).
  rewrite read_kernel by (unfold kuio_ok; rewrite ?length_replicate; lia). cbn [mbind outcome_bind negb Z.eqb kuio uio_resid iov_base].
  do 2 f_equal. unfold buf_write. cbn [Z.to_nat take app Nat.add]. rewrite drop_ge; [by rewrite app_nil_r|].
  assert (Z.of_nat (length (slice (fbytes f) off n)) = n) by (apply length_slice; lia). rewrite length_replicate. lia.
Qed.

(** The loop runs the body on the loadable segments, one after the other. *)
Fixpoint for_loads (body : Elf_Phdr → A → outcome (Z * A)) (l : list Elf_Phdr) a : outcome (Z * A) :=
  match l with [] => Done (0, a) | ph :: l => '(r, a) ← body ph a; if negb (r =? 0) then Done (r, a) else for_loads body l a end.

Lemma for_phdrs_loads f eh body n i a :
  let l := fbytes f in
  Z.of_nat (length l) ≤ INT_MAX → 0 ≤ e_phoff eh → 0 ≤ e_phentsize eh →
  e_phoff eh + Z.of_nat (i + n) * e_phentsize eh + ELF_PHDR ≤ Z.of_nat (length l) + e_phentsize eh →
  Forall (phdr_ok l) (phdr_in l eh <$> seq i n) →
  for_phdrs f eh n (Z.of_nat i) body a = for_loads body (filter is_load (phdr_in l eh <$> seq i n)) a.
Proof.
  intros l Hl Ho He. revert i a. induction n as [|n IH]; intros i a Hn Hok; [done|]. cbn [for_phdrs seq fmap list_fmap].
  assert (Hi : 0 ≤ Z.of_nat i * e_phentsize eh ∧ e_phoff eh + Z.of_nat i * e_phentsize eh + ELF_PHDR ≤ Z.of_nat (length l)).
  { split; [nia|]. replace (Z.of_nat (i + S n) * e_phentsize eh) with (Z.of_nat i * e_phentsize eh + e_phentsize eh + Z.of_nat n * e_phentsize eh) in Hn by lia. nia. }
  assert (Hpos : phdr_at eh (Z.of_nat i) = e_phoff eh + Z.of_nat i * e_phentsize eh) by (unfold phdr_at; rewrite s32_small; unfold INT_MIN, ELF_PHDR in *; lia).
  rewrite Hpos, read_struct_bytes by (subst l; unfold ELF_PHDR in *; lia). cbn [mbind outcome_bind].
  change (phdr_of (slice (fbytes f) (e_phoff eh + Z.of_nat i * e_phentsize eh) ELF_PHDR)) with (phdr_in l eh i).
  replace (Z.of_nat i + 1) with (Z.of_nat (S i)) by lia. cbn [fmap list_fmap seq] in Hok. apply Forall_cons in Hok as [[Hk _ _ _] Hok'].
  assert (IH' : ∀ a, for_phdrs f eh n (Z.of_nat (S i)) body a = for_loads body (filter is_load (phdr_in l eh <$> seq (S i) n)) a).
  { intros a'. apply IH; [|done]. by replace (S i + n)%nat with (i + S n)%nat by lia. }
  set (ph := phdr_in l eh i) in *. destruct (decide (is_load ph)) as [Hld|Hld].
  - rewrite filter_cons_True by done. unfold is_load in Hld. rewrite Hld. cbn [for_loads Z.eqb orb negb].
    destruct (body ph a) as [[r a']| | |]; [|done..]. cbn. destruct (r =? 0); [apply IH'|done].
  - rewrite filter_cons_False by done. destruct Hk as [->|[->|[->|Hk]]]; [apply IH'..|done].
Qed.

Lemma define_loads l a :
  as_room a (region <$> l) →
  wp (for_loads (λ ph a, as_define_region (p_vaddr ph) (p_memsz ph) (Z.land (p_flags ph) 4) (Z.land (p_flags ph) 2) (Z.land (p_flags ph) 1) a) l a)
    (λ '(r, a'), r = 0 ∧ as_room a' [] ∧ as_regions a' = as_regions a ++ (region <$> l)).
Proof.
  revert a. induction l as [|ph l IH]; intros a Hr; cbn [for_loads]; [cbn; by rewrite app_nil_r|].
  apply wp_bind. eapply wp_mono; [by apply define_law|]. intros [e a1] (-> & Hr1 & Hg1). cbn [negb Z.eqb].
  eapply wp_mono; [by apply IH|]. intros [r a2] (-> & H2 & H3). split_and!; [done|done|]. rewrite H3, Hg1, <-app_assoc. done.
Qed.

Lemma length_segment l ph : phdr_ok l ph → is_load ph → Z.of_nat (length (segment l ph)) = p_memsz ph.
Proof.
  intros [_ Hs Hf _] Hl. specialize (Hs Hl). specialize (Hf Hl). unfold segment. rewrite length_app, length_replicate, Nat2Z.inj_add, length_slice by lia. lia.
Qed.

Lemma load_segment_ok f ph a :
  phdr_ok (fbytes f) ph → is_load ph → as_ready a → user_mapped (as_mem a) (p_vaddr ph) (p_memsz ph) →
  wp (load_segment f (p_offset ph) (p_vaddr ph) (p_memsz ph) (p_filesz ph) (Z.land (p_flags ph) 1) a) (λ '(r, a'),
    r = 0 ∧ as_ready a' ∧ as_mem a' = user_write (as_mem a) (p_vaddr ph) (segment (fbytes f) ph)).
Proof.
  intros [_ Hs Hf Hu] Hl Hr Hm. specialize (Hs Hl). specialize (Hf Hl). specialize (Hu Hl). unfold USERTOP, INT_MAX in *.
  unfold load_segment. rewrite (Z.gtb_ltb (p_filesz ph)), (proj2 (Z.ltb_ge (p_memsz ph) (p_filesz ph))) by lia. rewrite s32_small by (unfold INT_MIN, INT_MAX; lia).
  set (seg := if negb (Z.land (p_flags ph) 1 =? 0) then UIO_USERISPACE else UIO_USERSPACE).
  assert (Hseg : seg ≠ UIO_SYSSPACE) by (unfold seg; by destruct (negb _)).
  change (mkUio (UBase (as_mem a) false (p_vaddr ph)) (p_memsz ph) (p_offset ph) (p_filesz ph) seg UIO_READ cur_vmspace) with
    (uuio seg (as_mem a) (p_vaddr ph) (p_memsz ph) (p_offset ph) (p_filesz ph)).
  rewrite read_user; [|unfold uuio_ok, USERTOP, INT_MAX; split_and!; try done; try lia; intros i Hi; apply Hm; lia|lia].
  cbn [mbind outcome_bind uuio put_mem iov_base negb Z.eqb uio_resid iov_len uio_offset uio_segflg uio_rw_of uio_space].
  rewrite Z.add_0_l, (u32_small (p_memsz ph - p_filesz ph)), (u32_small (p_memsz ph - p_filesz ph)) by lia.
  assert (Hls : Z.of_nat (length (slice (fbytes f) (p_offset ph) (p_filesz ph))) = p_filesz ph) by (apply length_slice; lia).
  rewrite Z.gtb_ltb. destruct (Z.ltb_spec 0 (p_memsz ph - p_filesz ph)).
  - set (m1 := user_write _ _ _).
    change (mkUio (UBase m1 false ?x) ?y ?z ?w seg UIO_READ cur_vmspace) with (uuio seg m1 x y z w).
    rewrite uiomovezeros_uuio; [|unfold uuio_ok, USERTOP, INT_MAX; split_and!; try done; try lia; intros i Hi; apply user_write_mapped; rewrite <-Z.add_assoc; apply Hm; lia].
    cbn [mbind outcome_bind uuio put_mem iov_base wp]. split_and!; [done|by apply as_ready_set, as_ready_set|]. rewrite as_mem_set.
    unfold segment. by rewrite user_write_app, Hls.
  - cbn [wp]. split_and!; [done|by apply as_ready_set|]. rewrite as_mem_set. unfold segment.
    replace (p_memsz ph - p_filesz ph) with 0 by lia. by rewrite app_nil_r.
Qed.

Lemma load_loads f l a :
  Forall (λ ph, phdr_ok (fbytes f) ph ∧ is_load ph ∧ user_mapped (as_mem a) (p_vaddr ph) (p_memsz ph)) l → all_apart l → as_ready a →
  wp (for_loads (λ ph a, load_segment f (p_offset ph) (p_vaddr ph) (p_memsz ph) (p_filesz ph) (Z.land (p_flags ph) 1) a) l a) (λ '(r, a'),
    r = 0 ∧ as_ready a' ∧ Forall (λ ph, user_bytes (as_mem a') (p_vaddr ph) (segment (fbytes f) ph)) l ∧
    ∀ b, Forall (λ ph, b < p_vaddr ph ∨ p_vaddr ph + p_memsz ph ≤ b) l → as_mem a' !! b = as_mem a !! b).
Proof.
  revert a. induction l as [|ph l IH]; intros a Hok Hap Hr; cbn [for_loads]; [by split_and!|].
  apply Forall_cons in Hok as [(Hp & Hl & Hm) Hok]. destruct Hap as [Hap1 Hap2]. pose proof (length_segment _ _ Hp Hl) as Hlen.
  apply wp_bind. eapply wp_mono; [by apply load_segment_ok|]. intros [r a1] (-> & Hr1 & Hm1). cbn [negb Z.eqb].
  eapply wp_mono; [apply IH; [|done|done]|].
  - eapply Forall_impl; [exact Hok|]. intros q (H1 & H2 & H3). split_and!; [done|done|]. intros i Hi. rewrite Hm1. by apply user_write_mapped, H3.
  - intros [r a2] (-> & Hr2 & Hb & Hsame). split_and!; [done|done| |].
    + constructor; [|done]. eapply user_bytes_mono; [|rewrite Hm1 in *; apply user_write_bytes]. intros b Hb'. rewrite <-Hm1. apply Hsame.
      eapply Forall_impl; [exact Hap1|]. unfold apart. intros q Hq. lia.
    + intros b Hb'. apply Forall_cons in Hb' as [Hb1 Hb2]. rewrite Hsame by done. rewrite Hm1. apply user_write_other. lia.
Qed.

(** [C15] Loading a program.  From a well-formed executable, and an address space with
    room for its segments, [load_elf] returns 0 and the entry point; every loadable
    segment then lies at its address, with the bytes of the file and zeros up to its
    size in memory.  A file with any other header is refused with ENOEXEC, and the
    address space is not touched. *)
Theorem load_elf_loads f a eh :
  (elf_ok (fbytes f) eh → let loads := filter is_load (phdrs (fbytes f) eh) in as_room a (region <$> loads) → as_regions a = [] →
   wp (load_elf f a) (λ '(r, e, a'), r = 0 ∧ e = Some (e_entry eh) ∧
     ∀ ph, ph ∈ loads → user_bytes (as_mem a') (p_vaddr ph) (segment (fbytes f) ph))) ∧
  (ELF_HDR ≤ Z.of_nat (length (fbytes f)) ≤ INT_MAX → ehdr_ok (ehdr_of (take 52 (fbytes f))) = false → load_elf f a = Done (ENOEXEC, None, a)).
Proof.
  assert (Hh : ELF_HDR ≤ Z.of_nat (length (fbytes f)) ≤ INT_MAX → read_struct f ELF_HDR 0 = Done (inr (take 52 (fbytes f)))).
  { intros Hl. unfold ELF_HDR in *. by rewrite read_struct_bytes by lia. }
  split; [|intros Hl Hno; unfold load_elf; rewrite Hh by done; cbn [mbind outcome_bind]; by rewrite Hno].
  intros [Hl -> Hv (Ht1 & Ht2 & Hn & Ht3) Hph Hap] loads Hroom Hnil. unfold load_elf. rewrite Hh by done. cbn [mbind outcome_bind]. set (eh := ehdr_of _) in *. rewrite Hv. cbn [negb].
  assert (Hfor : ∀ body a, for_phdrs f eh (Z.to_nat (e_phnum eh)) 0 body a = for_loads body loads a).
  { intros body a'. apply (for_phdrs_loads f eh body _ 0); [lia|done|done| |done]. rewrite Nat.add_0_l, Z2Nat.id by done. done. }
  rewrite Hfor. apply wp_bind. eapply wp_mono; [by apply define_loads|]. intros [r a1] (-> & Hr1 & Hg). cbn [negb Z.eqb].
  apply wp_bind. eapply wp_mono; [by apply prepare_law|]. intros [r a2] (-> & Hr2 & Hm2). cbn [negb Z.eqb].
  rewrite Hfor. apply wp_bind. eapply wp_mono; [apply load_loads; [|done|done]|].
  - apply Forall_forall. intros ph Hin. pose proof Hin as [Hld Hin']%list_elem_of_filter. rewrite Forall_forall in Hph. split_and!; [by apply Hph|done|].
    apply Hm2. rewrite Hg, Hnil. cbn. exact (list_elem_of_fmap_2 region _ _ Hin).
  - intros [r a3] (-> & Hr3 & Hb & _). cbn [negb Z.eqb]. apply wp_bind. eapply wp_mono; [by apply complete_law|]. intros [r a4] (-> & Hm4). cbn.
    split_and!; [done|done|]. intros ph Hin. rewrite Hm4. rewrite Forall_forall in Hb. by apply Hb.
Qed.
End image.

(** A file of bytes, an address space that maps what it is asked for, and an executable
    with one segment. *)
Module ElfExample.
#[local] Instance no_space : CurSpace := None.

#[local] Instance bytes_file : ElfFile (list Z) := λ f u,
  '(r, _, u) ← uiomove f (uio_offset u) (Z.max 0 (Z.min (uio_resid u) (Z.of_nat (length f) - uio_offset u))) u; Done (r, u).

#[local,refine] Instance bytes_file_laws : ElfFileLaws (list Z) := { fbytes f := f }.
Proof.
  - intros f mem len off Hok Hl. pose proof Hok as (_ & _ & Hr & _ & Ho & _). unfold vop_read, bytes_file. cbn [kuio uio_resid uio_offset].
    rewrite Z.min_l, Z.max_r by lia. change (mkUio (KBase mem 0) len off len UIO_SYSSPACE UIO_READ None) with (kuio UIO_READ mem 0 len off len).
    rewrite uiomove_kuio by (done || lia). cbn [mbind outcome_bind]. by rewrite Z.sub_diag, Z.add_0_l.
  - intros f seg m a len off n Hok Hl. pose proof Hok as (_ & _ & _ & _ & Hn & _ & _ & _ & Ho & _). unfold vop_read, bytes_file. cbn [uuio uio_resid uio_offset].
    rewrite Z.min_l, Z.max_r by lia. change (mkUio (UBase m false a) len off n seg UIO_READ cur_vmspace) with (uuio seg m a len off n).
    rewrite uiomove_uuio by (done || lia). cbn [mbind outcome_bind]. by rewrite Z.sub_diag.
Defined.

Definition map_regions (l : list (Z * Z)) (m : umem) : umem := foldr (λ '(v, sz) m, user_write m v (replicate (Z.to_nat sz) 0)) m l.

#[local] Instance mapped_space : AddrSpace (umem * list (Z * Z)) := {
  as_mem a := a.1;
  set_as_mem m a := (m, a.2);
  as_define_region v sz _ _ _ a := Done (0, (a.1, a.2 ++ [(v, sz)]));
  as_prepare_load a := Done (0, (map_regions a.2 a.1, a.2));
  as_complete_load a := Done (0, a);
}.

Lemma map_regions_mapped l m v sz : (v, sz) ∈ l → user_mapped (map_regions l m) v sz.
Proof.
  induction l as [|[v' sz'] l IH]; intros Hin; [by apply not_elem_of_nil in Hin|]. intros i Hi. cbn.
  apply elem_of_cons in Hin as [[= -> ->]|Hin]; [|by apply user_write_mapped, IH].
  rewrite user_write_lookup, length_replicate, decide_True by lia. apply lookup_lt_is_Some_2. rewrite length_replicate. lia.
Qed.

#[local,refine] Instance mapped_space_laws : AddrSpaceLaws (umem * list (Z * Z)) :=
  { as_room _ _ := True; as_regions a := a.2; as_ready _ := True }.
Proof.
  - done.
  - done.
  - done.
  - intros a _. cbn. split_and!; [done|done|]. intros v sz Hin. by apply map_regions_mapped.
  - done.
Defined.

Definition header : list Z :=
  [127; 69; 76; 70; 1; 2; 1; 0; 0; 0; 0; 0; 0; 0; 0; 0] ++ [0; 2] ++ [0; 8] ++ [0; 0; 0; 1] ++ [0; 0; 16; 2] ++ [0; 0; 0; 52] ++ [0; 0; 0; 0] ++
  [0; 0; 0; 0] ++ [0; 52] ++ [0; 32] ++ [0; 1] ++ [0; 0] ++ [0; 0] ++ [0; 0].
Definition segment_header : list Z :=
  [0; 0; 0; 1] ++ [0; 0; 0; 84] ++ [0; 0; 16; 0] ++ [0; 0; 0; 0] ++ [0; 0; 0; 4] ++ [0; 0; 0; 6] ++ [0; 0; 0; 5] ++ [0; 0; 0; 0].
Definition program : list Z := header ++ segment_header ++ [1; 2; 3; 4].

Lemma load_elf_loads_witness :
  wp (load_elf program (∅, [])) (λ '(r, e, a'), r = 0 ∧ e = Some 4098 ∧ user_bytes (as_mem a') 4096 [1; 2; 3; 4; 0; 0]).
Proof.
  destruct (load_elf_loads program (∅ : umem, [] : list (Z * Z)) (ehdr_of (take 52 program))) as [H _].
  eapply wp_mono; [apply H; [|exact I|reflexivity]|].
  - assert (Hp : phdrs program (ehdr_of (take 52 program)) = [mkPhdr 1 84 4096 4 6 5]) by (vm_compute; reflexivity).
    constructor.
    + split; vm_compute; discriminate.
    + reflexivity.
    + vm_compute. reflexivity.
    + split_and!; vm_compute; discriminate.
    + change (fbytes program) with program. rewrite Hp. constructor; [|constructor].
      constructor; [by right; right; right|intros _; split_and!; vm_compute; discriminate..].
    + change (fbytes program) with program. rewrite Hp. vm_compute. by split.
  - intros [[r e] a'] (-> & -> & Hb). split_and!; [done|done|]. refine (Hb (mkPhdr 1 84 4096 4 6 5) _). vm_compute. constructor 1.
Defined.
End ElfExample.
